(* ===== verification/_CoqProject ===== *)
-Q . S2P
Prelude.v
CString.v
GLibUtf8.v
CalTimeUtil.v
CalObjTime.v
CalObjTimeSpec.v
Libical.v
LibicalUtc.v
RecurRule.v
RecurRuleSpec.v
RecurFilters.v
RecurFiltersSpec.v
RecurByDaySpec.v
RecurSteps.v
RecurEngine.v
RecurStepsSpec.v
RecurEngineSpec.v
RecurExpandSpec.v
RecurInstances.v
RecurInstancesSpec.v
RecurTotalSpec.v
UuCode.v
UuCodeSpec.v
QuotedPrintable.v
QuotedPrintableSpec.v
Utf8.v
Utf8Spec.v
Newsrc.v
NewsrcSpec.v
NewsrcFileSpec.v
MimeFilter.v
MimeFilterSpec.v
MimeFilterCanonSpec.v
MimeFilterBasic.v
MimeFilterBasicSpec.v
Trie.v
TrieSpec.v
TrieSearchSpec.v
Sexp.v
SexpSpec.v
SexpEvalSpec.v
SexpTypeSpec.v
VCard.v
VCardSpec.v
VCardParseSpec.v
VCardRoundSpec.v
BlockStore.v
BlockStoreSpec.v
BlockFile.v
BlockFileInv.v
BlockFileSpec.v
BlockFileLaws.v
BlockFileOpenSpec.v
BlockFileRunSpec.v
PartitionTable.v
PartitionDataSpec.v
PartitionTableSpec.v
PartitionSplitSpec.v
PartitionAddSpec.v
PartitionOpenSpec.v
PartitionFileSpec.v
KeyTable.v
KeyDataSpec.v
KeyTableSpec.v
KeyTableAddSpec.v
KeyTableNextSpec.v
KeyTableFileSpec.v
KeyFile.v
KeyFileSpec.v
BlockFrame.v
TableFrame.v
TextIndex.v
TextIndexWords.v
TextIndexSpec.v
TextIndexAddSpec.v
TextIndexNameSpec.v
BlockFileRootSpec.v
TextIndexFileSpec.v
TextIndexBuffer.v
