(* ===== verification/Prelude.v ===== *)
(** * Evolution Data Server: a verification library (root file)

    Evolution Data Server keeps the calendars, address books and mail of a desktop.
    Its calendar library, [src/calendar/libecal], expands recurring events into the
    instances that calendar views, alarms and free/busy lists are made of; its mail
    library, [src/camel], encodes and decodes the bodies of messages, passes them through
    filters, converts the names of mailboxes, remembers which articles were read and keeps
    an index of words in a file of blocks; its
    base library, [src/libedataserver], searches text for many patterns at once and has the
    language of expressions that searches and filters are written in; its address book,
    [src/addressbook], keeps contacts as vCards.  This library models these pure cores and
    proves what makes them correct.

    ** The recurrence engine

    [e_cal_recur_generate_instances] ([e-cal-recur.c]) takes a component with DTSTART,
    DTEND, RRULEs, RDATEs, EXRULEs and EXDATEs and an interval, and calls a callback
    for every instance.  It goes through the interval in chunks of a year
    ([generate_instances_for_chunk]); in a chunk it expands every rule
    ([cal_obj_expand_recurrence]), adds the RDATEs, sorts, removes the exceptions and
    calls the callback.  A rule is expanded period by period: a start position is found
    ([..._find_start_position]), its set of occurrences is made by the BYxxx filters and
    expansions ([cal_obj_generate_set_...]), sorted, cleaned of duplicates and
    invalid dates, restricted by BYSETPOS and UNTIL, and the next position is found
    ([..._find_next_position]), until the end of the interval or of the rule.

    - [CalTimeUtil]: the pure functions of [e-cal-time-util.c], and the proleptic
      Gregorian calendar (module [Gregorian]: [serial] numbers the days, [wday] is the
      weekday), the reference all dates are compared with; weekdays of a range
      of days and the n-th of them, from either end.
    - [CalObjTime]: [CalObjTime], whose fields have the widths of the C struct, the
      comparison functions, [cal_obj_time_add_*], the weekday helpers through
      [GDate].  [timeline] is the number of seconds of a time.  GLib's [GDate] is the class
      [GDate] with the laws [GDateLaws]; [GDate_gregorian] is an instance.
      [CalObjTimeSpec] has the theorems: adding is moving along the line of
      seconds, where the [int] sum of the field and the number does not overflow, comparing is
      its order, durations.
    - [Libical]: the types of libical's headers and its functions as the class
      [Libical]; [LibicalUtc]: the laws the code relies on ([LibicalLaws]) and an instance
      that knows only UTC.
    - [RecurRule]: [ECalRecurrence], [RecurData], the conversion from libical's rule, the
      lookup tables and the end date parameter.  [RecurRuleSpec]: filling the tables is
      safe exactly for rules in range, and they then hold the lists of the rule.
    - [RecurFilters]: every BYxxx filter and expansion; [RecurFiltersSpec] and
      [RecurByDaySpec] say which dates they select.
    - [RecurSteps]: start and next positions of the seven frequencies; [RecurStepsSpec]: the
      start is the first period of the rule not before the interval (for MINUTELY and SECONDLY
      rules the code gets it wrong unless the event and the interval start in the same hour of the day
      and are less than 68 years apart), the next one is
      INTERVAL periods later, and both stop after an end.
    - [RecurEngine]: function tables, sets of a period, sorting ([qsort] is the class
      [QSort] of this file: some sorted permutation), duplicates, exceptions, BYSETPOS, the
      loop over the periods.  [RecurEngineSpec]: these operations on sorted arrays;
      [RecurExpandSpec]: expanding a valid rule has defined behaviour, terminates and
      returns the sets of its periods in order (MINUTELY and SECONDLY rules under the condition
      for their start).
    - [RecurInstances]: chunks, RDATEs, EXDATEs, the callback protocol (a callback is a
      function on the caller's data that returns whether to go on) and the end dates of
      rules with COUNT.  [RecurInstancesSpec]: the instances do not depend on the
      callback, come in order and lie in the interval; the end date is the start of the
      COUNT-th instance, and is saved and read back; [RecurTotalSpec]: for valid input
      the whole generation terminates.

    ** The codecs

    [UuCode] and [QuotedPrintable] model the streaming encoders and decoders of
    [camel-mime-utils.c], whose state between chunks is packed in integers and buffers;
    [UuCodeSpec] and [QuotedPrintableSpec] prove that cutting the input into chunks makes
    no difference, that decoding gives the input back, the form and length
    of the lines, and that the output of a call fits the buffer that
    [camel-mime-filter-basic.c] allocates for it.

    [Utf8] models [camel-utf8.c]: the UTF-8 writer, the two readers, and the conversions
    of mailbox names to and from modified UTF-7 and of text to and from UCS-2.
    [Utf8Spec]: the reader accepts exactly the sequences of the relation [Utf8Read], the
    conversions are defined on every string that has an end, and round trip on the
    characters that fit 16 bits.

    ** The filters

    A message goes through a chain of filters in chunks.  [MimeFilter] models the base
    class of [camel-mime-filter.c], whose subclasses are instances of the class
    [CamelMimeFilterClass]: data that a filter backs up is put in front of the next
    chunk, and it writes to a buffer of the size it has asked for.  The line
    filters ([camel-mime-filter-crlf.c], [-from.c] and [-canon.c]) are in the same file;
    [MimeFilterBasic] models [camel-mime-filter-basic.c], which runs the codecs above.
    [MimeFilterSpec] states in the class [StreamFilter] what a filter promises (an
    invariant of its state relative to the data seen and the output so far) and proves
    once that such a filter computes one function of the stream, however it is cut, with
    defined behaviour.  [MimeFilterSpec],
    [MimeFilterCanonSpec] and [MimeFilterBasicSpec] give the instances and what the
    functions do: line ends and dots on the wire, From lines, canonical lines, and
    the round trips of the transfer encodings.

    ** Newsgroups

    [Newsrc] models [camel-nntp-newsrc.c]: the table of groups with the ranges of articles
    that were read, and the file it is kept in.  [NewsrcSpec]: marking a range adds it to
    the set of articles of the group, for which the ranges are a representation,
    and the counters are right for ranges marked in order; [NewsrcFileSpec]: the file is
    read back as it was written.

    ** Searching for patterns

    [Trie] models [e-trie.c], an Aho-Corasick automaton as states in a list with
    indices for pointers.  [TrieSpec]: the invariant [trie_ok], by which each state stands
    for a prefix of a key, and that [e_trie_add] keeps it (the key of a pattern is what the code
    reads of it, the part before the first character that is not ASCII); [TrieSearchSpec]: the
    search stops where the first key ends, and finds the ASCII patterns that occur in
    UTF-8 text.

    ** Search expressions

    [Sexp] models [e-sexp.c], the S-expressions of searches, filters and backend queries: the
    recursive descent parser on the tokens of a [GScanner] (the class [GScanner]), the
    evaluator in a monad [M] with the application's state and the errors that the
    code jumps out of with [longjmp], all functions that are always there, and the table of
    symbols, in which the application's own functions are.  They are assumed not to
    change the table during an evaluation, and symbols to be added before the text.  The
    order of a [GHashTable] is the class [GHashOrder] with the law that it is a
    permutation.  [SexpSpec]: parsing gives back the term whose tokens are read and is
    defined on all tokens but a few sequences ([tokens_ok], [parse_excluded]); [SexpEvalSpec]: queries evaluate to their truth, [and]
    and [or] of arrays are intersection and union, casts; [SexpTypeSpec]: a type system
    whose terms never end in a fatal error; the table of symbols implements a finite map
    ([SexpSpec]).

    ** vCards

    [VCard] models [e-vcard.c]: cards as lists of attributes with groups, parameters and
    values, all operations on them, the reader and the writer.  A string is the list of its
    bytes, a pointer into it the rest behind it; an attribute that was freed while a card has a
    pointer to it is [None].  GLib's functions on characters are the class [GLib] of
    [GLibUtf8], with the laws [GLibLaws] and an instance, [Utf8Instance].  The loop over
    parameters does not end on every text, so its fuel is an argument of the reader; what
    is in memory behind a string that is folded, which the code looks at, is the
    argument [after] of the writer.  [VCardSpec]: adding a parameter merges it with that of
    its name, and the attributes of every card that is read are well formed;
    [VCardParseSpec]: reading has defined behaviour and ends, or stays at a comma for ever;
    [VCardSpec]: folded lines are short and are read as the lines they were;
    [VCardRoundSpec]: a card that is written is read again.

    ** The mail index

    The index of [src/camel] keeps its tables in a file of blocks with a cache.  [BlockStore]
    is the interface between the two: the class [BlockStore] has the operations, the class
    [BlockStoreLaws] what they promise to clients that hold references to blocks, among
    them that everything may fail and then changes nothing; [BlockStoreSpec]: how the view of
    a client changes.
    - [BlockFile] models [camel-block-file.c]: the blocks in memory by their pointers, the
      cache in the order of use, the list of free blocks, detached blocks, the file and the system
      calls, whose results ([faults]) are an argument.  A write that fails may have written
      a part ([torn]).  [BlockFileInv] has the invariant [inv], [BlockFileSpec] and
      [BlockFileRunSpec] what the operations keep of it; [BlockFileLaws] discharges
      the interface; [BlockFileOpenSpec]: a synced file is opened again.  [BlockFileRunSpec] has
      the claims.
    - [PartitionTable] models the partition table of [camel-partition-table.c], from hashes of
      keys to key ids, on any [BlockStore].  [PartitionDataSpec]: the blocks as lists of
      keys and partitions, the map of the partitions and the binary search
      in it; [PartitionTableSpec]: the invariant [table_in], by which a table stands for a
      finite map, looking up and removing; [PartitionSplitSpec]
      and [PartitionAddSpec]: adding, when blocks are full, too, except in the case
      [middle], where the code is wrong; [PartitionOpenSpec]: opening, syncing and
      creating; [PartitionFileSpec]: the claims, and the table in a file that is closed and
      opened again.
    - [KeyTable] models the key table of the same file, from key ids to keys with their data and
      flags.  The bytes of a block are those of its words, the lowest first; [ki_locked] is true
      when a call has returned without unlocking.  [KeyDataSpec]: a block as the list of its keys;
      [KeyTableSpec]: the invariant [key_table_in], by which a table stands for the list of its
      keys with their ids, looking up and changing, opening, syncing and closing; [KeyTableAddSpec]:
      adding; [KeyTableNextSpec]: going through all keys;
      [KeyTableFileSpec]: the claims, and the table in a file that is closed and opened again.
    - [BlockFrame]: a client of a file leaves the blocks of others as they are, for all clients at
      once: the file without the others' blocks is a [BlockStore] with its laws.  [TableFrame]: the
      operations of both kinds of table in a file that they share with others; and a file
      whose blocks are divided among clients ([tenants]), with the fields of the root block that are
      for them (the classes [RootStore] and [RootStoreLaws] of [BlockStore]; [BlockFileRootSpec]
      discharges them).
    - [KeyFile] models the key files of [camel-block-file.c], chains of records, with the stream of
      stdio they are written through, whose calls may fail ([kf_calls]).  [KeyFileSpec]: the
      records in a file, writing and reading, the claims.
    - [TextIndex] models [camel-text-index.c], whose tables are two key tables and two
      partition tables in one file, with a key file for the names of the words and a cache of
      words.  [TextIndexWords]: the names of a word, in the cache and in the key file
      ([posting]); [TextIndexSpec]: the accesses to the tables ([opened]); [TextIndexAddSpec]:
      adding names to words, dropping words from the cache, syncing; [TextIndexNameSpec]: adding
      and deleting names, and finding a word; [TextIndexFileSpec]: opening an empty index, the
      claims, and a session in a file.  They hold for files and key files on which no call fails
      ([IndexStore], [no_failures]); adding needs tables that are not in the case [middle], and words
      of different hashes ([words_fine], [no_clash]), because the code confuses the others.
      A sync that compresses the index is followed up to the call of the compression.
      [TextIndexBuffer]: the text of a name in buffers, and its words.

    [CString] has the C library functions on strings that several files use.

    ** Modelling

    A C function that cannot fail is a Rocq function; one that can read or write
    outside an array, or loop, returns [res]: [Ok], [Undef] for undefined behaviour,
    [NoFuel] for a loop that did not finish.  A function that changes its argument
    returns the new value; [gboolean] results with an output argument are an [option].
    A [gint] is a [Z]; stores to [guint8] and [guint16] fields and unsigned
    conversions wrap ([u8], [u16], [u32], [s32]).  [GArray]s and [GList]s are lists.

    Fuel: every loop has a bound that is enough.  [add_days_fuel] is the number of days
    and the months of the years before 1900, for which [time_days_in_month] is 0;
    [expand_fuel] is one round per period from the event to the end of the
    interval; [year_fuel] is the years up to [MAX_YEAR]; [instances_fuel] is the hours up
    to the end of 2037 and bounds [expand_fuel] for all frequencies but MINUTELY and
    SECONDLY; the codecs, the search for the begin line, the canonicalising filter, the
    UTF-8 loops, the newsrc parser and the trie read at least one byte per round, so the
    length of what is left and one more is enough; [from_scan] may take two rounds per
    byte; a chain of failure links ([walk_fuel]) is no longer than the list of states; the
    parser of expressions calls itself at most three times per token ([parse_fuel]) and
    the evaluator as often as a term is deep ([depth], [term_depth]); the binary search in
    a block of at most 127 partitions ends within 128 steps; the chain of the blocks of the map
    may be a ring in a damaged file, so its fuel is an argument of
    [camel_partition_table_new], and the length of the chain is enough; so is that of
    [camel_key_table_next], for which the number of blocks in use is enough, and that of
    [text_index_cursor_next], for which the number of ids and records of the word is; the loops of
    [text_index_compress_nosync] have fuel as an argument, and no theorem.  The
    theorems named after totality, and every theorem that concludes [... = Ok _], show
    that with this fuel the result is [Ok].

    The theorems on dates hold from 1902 ([working_time]) to 9999: before 1900 the code
    itself does not know the lengths of months, and the C fields wrap in 65536.

    ** Not modelled

    libical, GLib and the C library (parameters, as above; [isxdigit], [toupper],
    [isspace] and [atol] are those of the C locale); the accessors of [ECalComponent]
    (fields of a record); the wrappers that translate time zones; [time_t] helpers that
    need a zone database; header parsing, character set conversion and base64 (GLib's, the
    class [GLibBase64]) of [camel-mime-utils.c]; locks, the freeing of memory and
    debugging output; the calendar and address book servers, backends, widgets and
    mail stores, which are CORBA, network and GObject code; the vendored Berkeley DB;
    renaming and deleting a file of blocks and the list of open files (what using another
    file does to this one is [block_file_offline]).
    of the text index renaming, deleting and checking its files, the dumps for debugging and the state
    flags of [CamelIndex] are left out; compressing is modelled, but what the new index shows is not
    proved; renaming key files and the other filters are open. *)

From stdpp Require Export base sets list numbers list_numbers sorting.
From Stdlib Require Export ZArith Lia ZifyBool.

#[global] Open Scope Z_scope.

(** ** Results of C code

    A model of a C function returns [Ok v], [Undef] where the C code has
    undefined behaviour (an index outside an array, a [NULL] dereference, a
    division by zero) or [NoFuel] where a loop did not finish within the fuel
    it was given. *)
Inductive res (A : Type) : Type :=
  | Ok (a : A)
  | Undef
  | NoFuel.
Arguments Ok {A} _.
Arguments Undef {A}.
Arguments NoFuel {A}.

#[export] Instance res_ret : MRet res := @Ok.
#[export] Instance res_bind : MBind res := fun A B f x =>
  match x with
  | Ok a => f a
  | Undef => Undef
  | NoFuel => NoFuel
  end.
#[export] Instance res_fmap : FMap res := fun A B f x =>
  match x with
  | Ok a => Ok (f a)
  | Undef => Undef
  | NoFuel => NoFuel
  end.

(** [is_Ok x]: the computation returned. *)
Definition is_Ok {A} (x : res A) : Prop := exists a, x = Ok a.

Section res_lemmas.
Context {A B C : Type}.

Lemma res_bind_Ok (f : A -> res B) a : (Ok a ≫= f) = f a.
Proof. reflexivity. Qed.

Lemma res_bind_inv (f : A -> res B) x b :
  (x ≫= f) = Ok b <-> exists a, x = Ok a /\ f a = Ok b.
Proof.
  split.
  - destruct x; simpl; intros H; try discriminate. eauto.
  - intros (a & -> & H). exact H.
Qed.

Lemma res_bind_assoc (f : A -> res B) (g : B -> res C) x :
  ((x ≫= f) ≫= g) = (x ≫= (fun a => f a ≫= g)).
Proof. by destruct x. Qed.

Lemma is_Ok_bind (f : A -> res B) x :
  is_Ok (x ≫= f) <-> exists a, x = Ok a /\ is_Ok (f a).
Proof.
  unfold is_Ok. split.
  - intros [b H]. apply res_bind_inv in H as (a & ? & ?). eauto.
  - intros (a & -> & b & H). exists b. exact H.
Qed.
End res_lemmas.

(** [foldM f l s]: a C loop over [l] threading the state [s]. *)
Fixpoint foldM {A S} (f : A -> S -> res S) (l : list A) (s : S) : res S :=
  match l with
  | [] => Ok s
  | a :: l => s ← f a s; foldM f l s
  end.

Lemma foldM_app {A S} (f : A -> S -> res S) l k s :
  foldM f (l ++ k) s = (foldM f l s ≫= foldM f k).
Proof.
  revert s. induction l as [|a l IH]; intros s; simpl; [done|].
  rewrite res_bind_assoc. destruct (f a s); simpl; done || apply IH.
Qed.

(** The rule for such a loop: [I done s] holds of the elements [done] so far. *)
Lemma foldM_inv {A S} (f : A -> S -> res S) (I : list A -> S -> Prop) l s :
  I [] s ->
  (forall done a rest s, l = done ++ a :: rest -> I done s ->
     exists s', f a s = Ok s' /\ I (done ++ [a]) s') ->
  exists s', foldM f l s = Ok s' /\ I l s'.
Proof.
  intros H0 Hstep.
  assert (forall rest done s, l = done ++ rest -> I done s ->
    exists s', foldM f rest s = Ok s' /\ I l s') as H; [|by apply (H l [])].
  induction rest as [|a rest IH]; intros done s0 -> Hs; simpl.
  - rewrite app_nil_r. eauto.
  - destruct (Hstep done a rest s0 eq_refl Hs) as (s1 & -> & H1).
    apply (IH (done ++ [a])); [by rewrite <- app_assoc|done].
Qed.

(** ** Machine integers

    [gint] values are kept as [Z].  Signed overflow is undefined in C: where the
    operands of a sum come from a caller or from the input ([cal_obj_time_add_*],
    the arithmetic of the expressions) the sum is [checked_int], elsewhere the
    types of the operands bound it.  A store into an unsigned field or a
    conversion to an unsigned type wraps. *)
Definition u8 (z : Z) : Z := z mod 2 ^ 8.
Definition u16 (z : Z) : Z := z mod 2 ^ 16.
Definition u32 (z : Z) : Z := z mod 2 ^ 32.
Definition s32 (z : Z) : Z := (z + 2 ^ 31) mod 2 ^ 32 - 2 ^ 31.

(** A sum or difference of [int]s. *)
Definition checked_int (n : Z) : res Z := if (- 2 ^ 31 <=? n) && (n <? 2 ^ 31) then Ok n else Undef.

Lemma checked_int_Ok n : - 2 ^ 31 <= n < 2 ^ 31 -> checked_int n = Ok n.
Proof. intros H. unfold checked_int. destruct (Z.leb_spec (- 2 ^ 31) n), (Z.ltb_spec n (2 ^ 31)); done || lia. Qed.

Lemma checked_int_Undef n : 2 ^ 31 <= n -> checked_int n = Undef.
Proof. intros H. unfold checked_int. destruct (Z.ltb_spec n (2 ^ 31)); [lia|]. by rewrite andb_false_r. Qed.

Lemma u8_range z : 0 <= u8 z < 256.
Proof. unfold u8. pose proof (Z.mod_pos_bound z (2 ^ 8)). lia. Qed.
Lemma u16_range z : 0 <= u16 z < 65536.
Proof. unfold u16. pose proof (Z.mod_pos_bound z (2 ^ 16)). lia. Qed.
Lemma u32_range z : 0 <= u32 z < 2 ^ 32.
Proof. unfold u32. pose proof (Z.mod_pos_bound z (2 ^ 32)). lia. Qed.
Lemma u8_small z : 0 <= z < 256 -> u8 z = z.
Proof. intros. unfold u8. apply Z.mod_small. lia. Qed.
Lemma u16_small z : 0 <= z < 65536 -> u16 z = z.
Proof. intros. unfold u16. apply Z.mod_small. lia. Qed.
Lemma u32_small z : 0 <= z < 2 ^ 32 -> u32 z = z.
Proof. intros. unfold u32. apply Z.mod_small. lia. Qed.
Lemma s32_small z : - 2 ^ 31 <= z < 2 ^ 31 -> s32 z = z.
Proof. intros. unfold s32. rewrite Z.mod_small by lia. lia. Qed.

(** Indexing a C array: [Undef] outside the array. *)
Definition arr_get {A} (t : list A) (i : Z) : res A :=
  if i <? 0 then Undef
  else match t !! Z.to_nat i with Some x => Ok x | None => Undef end.

Definition arr_set {A} (t : list A) (i : Z) (x : A) : res (list A) :=
  if (i <? 0) || (Z.of_nat (length t) <=? i) then Undef
  else Ok (<[Z.to_nat i := x]> t).

(** ** Bytes and bits *)

(** A byte is a number from 0 to 255. *)
Definition byte_ok (b : Z) : Prop := 0 <= b < 256.
#[export] Instance byte_ok_dec b : Decision (byte_ok b).
Proof. unfold byte_ok. apply _. Defined.

(** Bit operations as arithmetic. *)

Lemma lor_add a b k : 0 <= k -> 0 <= b < 2 ^ k -> Z.lor (Z.shiftl a k) b = a * 2 ^ k + b.
Proof.
  intros Hk Hb. rewrite <- Z.shiftl_mul_pow2 by done.
  assert (Z.land (Z.shiftl a k) b = 0) as E.
  { apply Z.bits_inj'. intros n Hn. rewrite Z.land_spec, Z.bits_0.
    destruct (Z.lt_ge_cases n k) as [Hlt|Hge]; [by rewrite Z.shiftl_spec_low by lia|].
    assert (Z.testbit b n = false) as ->; [|by rewrite andb_false_r].
    destruct (Z.eq_dec b 0) as [->|]; [by rewrite Z.bits_0|].
    apply Z.bits_above_log2; [lia|]. apply Z.log2_lt_pow2; [lia|].
    pose proof (Z.pow_le_mono_r 2 k n). lia. }
  pose proof (Z.add_lor_land (Z.shiftl a k) b). lia.
Qed.

Lemma land_mod a k m : 0 <= k -> m = 2 ^ k - 1 -> Z.land a m = a mod 2 ^ k.
Proof. intros Hk ->. by rewrite <- Z.land_ones, Z.ones_equiv, Z.sub_1_r by done. Qed.

Lemma land_ff a : Z.land a 0xff = a mod 256.
Proof. by apply (land_mod a 8). Qed.
Lemma land_3f a : Z.land a 0x3f = a mod 64.
Proof. by apply (land_mod a 6). Qed.
Lemma land_f a : Z.land a 0xf = a mod 16.
Proof. by apply (land_mod a 4). Qed.
Lemma land_3 a : Z.land a 0x3 = a mod 4.
Proof. by apply (land_mod a 2). Qed.

(** [/] and [mod] by constants, for [lia]. *)
Ltac div_lia := Z.to_euclidean_division_equations; lia.

(** ** C strings *)

(** What [strlen], [g_string_append] and [g_strdup] see of a buffer: the bytes before
    the first NUL. *)
Fixpoint c_string (l : list Z) : list Z :=
  match l with
  | [] => []
  | c :: l => if c =? 0 then [] else c :: c_string l
  end.

Lemma c_string_app l k : 0 ∉ l -> c_string (l ++ k) = l ++ c_string k.
Proof.
  induction l as [|c l IH]; intros Hl; [done|]. apply not_elem_of_cons in Hl as [Hc Hl].
  simpl. destruct (Z.eqb_spec c 0); [congruence|]. by rewrite IH.
Qed.

Lemma c_string_id l : 0 ∉ l -> c_string l = l.
Proof. intros Hl. rewrite <- (app_nil_r l) at 1. by rewrite c_string_app, app_nil_r. Qed.

(** ** Division *)
Lemma div_pred k y :
  0 < k -> y / k = (y - 1) / k + (if y mod k =? 0 then 1 else 0).
Proof.
  intros Hk. pose proof (Z.div_mod y k). pose proof (Z.mod_pos_bound y k).
  destruct (Z.eqb_spec (y mod k) 0) as [E|E].
  - replace ((y - 1) / k) with (y / k - 1); [lia|].
    apply Z.div_unique with (r := k - 1); nia.
  - rewrite Z.add_0_r. apply Z.div_unique with (r := (y - 1) mod k).
    + pose proof (Z.mod_pos_bound (y - 1) k). lia.
    + replace ((y - 1) / k) with (y / k) in *.
      * replace ((y-1) mod k) with (y mod k - 1); [lia|].
        apply Z.mod_unique with (q := y / k); lia.
      * apply Z.div_unique with (r := y mod k - 1); lia.
Qed.

(** Field and carry of the [cal_obj_time_add_*] functions: C's truncating [%]
    and [/] with the correction for negative sums amount to the flooring [mod]
    and [/]. *)
Lemma carry_nonneg k x :
  0 < k <= 60 -> 0 <= x -> u8 (Z.rem x k) = x mod k /\ Z.quot x k = x / k.
Proof.
  intros Hk Hx. rewrite Z.rem_mod_nonneg, Z.quot_div_nonneg by lia.
  pose proof (Z.mod_pos_bound x k). rewrite u8_small; lia.
Qed.

Lemma carry_neg k x :
  0 < k <= 60 -> x < 0 ->
  if u8 (Z.rem x k) =? 0 then 0 = x mod k /\ Z.quot x k = x / k
  else u8 (u8 (Z.rem x k) + k) = x mod k /\ Z.quot x k - 1 = x / k.
Proof.
  intros Hk Hx.
  assert (Z.quot x k = - ((- x) / k) /\ Z.rem x k = - ((- x) mod k)) as [Eq Er].
  { rewrite <- (Z.opp_involutive x) at 1 3.
    rewrite Z.quot_opp_l, Z.rem_opp_l, Z.quot_div_nonneg, Z.rem_mod_nonneg by lia. lia. }
  pose proof (Z.div_mod (- x) k). pose proof (Z.mod_pos_bound (- x) k).
  rewrite Eq, Er. set (r := (- x) mod k) in *. set (q := (- x) / k) in *.
  destruct (Z.eq_dec r 0) as [E|E].
  - rewrite E. change (u8 (- 0)) with 0. simpl. split.
    + apply Z.mod_unique with (q := - q); lia.
    + apply Z.div_unique with (r := 0); lia.
  - assert (u8 (- r) = 256 - r) as ->.
    { unfold u8. symmetry. apply Z.mod_unique with (q := -1); lia. }
    destruct (Z.eqb_spec (256 - r) 0); [lia|].
    assert (u8 (256 - r + k) = k - r) as ->.
    { unfold u8. symmetry. apply Z.mod_unique with (q := 1); lia. }
    split.
    + apply Z.mod_unique with (q := - q - 1); lia.
    + apply Z.div_unique with (r := k - r); lia.
Qed.

Lemma seqZ_1 m : seqZ m 1 = [m].
Proof. rewrite seqZ_cons by lia. by rewrite seqZ_nil. Qed.

(** ** Comparison functions and [qsort] *)

Definition zcmp (a b : Z) : Z := if a <? b then -1 else if b <? a then 1 else 0.

(** Lexicographic comparison of rows of the same width. *)
Fixpoint lexcmp (l k : list Z) : Z :=
  match l, k with
  | a :: l, b :: k => if zcmp a b =? 0 then lexcmp l k else zcmp a b
  | _, _ => 0
  end.

(** What [qsort] needs of its comparison function. *)
Class CmpPreorder {A} (cmp : A -> A -> Z) : Prop := {
  cmp_antisym a b : cmp b a = - cmp a b;
  cmp_trans a b c : cmp a b <= 0 -> cmp b c <= 0 -> cmp a c <= 0;
}.

Lemma lexcmp_antisym l k : lexcmp k l = - lexcmp l k.
Proof.
  revert k. induction l as [|a l IH]; intros [|b k]; try done.
  simpl. unfold zcmp. specialize (IH k). repeat case_match; lia.
Qed.

Lemma lexcmp_trans n l1 l2 l3 :
  length l1 = n -> length l2 = n -> length l3 = n ->
  lexcmp l1 l2 <= 0 -> lexcmp l2 l3 <= 0 -> lexcmp l1 l3 <= 0.
Proof.
  revert l1 l2 l3. induction n as [|n IH]; intros [|a l1] [|b l2] [|c l3] ???;
    simplify_eq/=; try lia.
  specialize (IH l1 l2 l3). unfold zcmp in *. repeat case_match; try lia; auto.
Qed.

Lemma lexcmp_eq n l k :
  length l = n -> length k = n -> lexcmp l k = 0 -> l = k.
Proof.
  revert l k. induction n as [|n IH]; intros [|a l] [|b k] ??; simplify_eq/=; [done|].
  unfold zcmp. intros E. assert (a = b) as -> by (repeat case_match; lia).
  f_equal. apply IH; [done..|]. repeat case_match; lia.
Qed.

Lemma lexcmp_app l l' k k' :
  length l = length l' ->
  lexcmp (l ++ k) (l' ++ k') = if lexcmp l l' =? 0 then lexcmp k k' else lexcmp l l'.
Proof.
  revert l'. induction l as [|a l IH]; intros [|b l'] ?; simplify_eq/=; [done|].
  destruct (zcmp a b =? 0) eqn:E; [by apply IH|]. by rewrite E.
Qed.

Lemma lexcmp_refl l : lexcmp l l = 0.
Proof. pose proof (lexcmp_antisym l l). lia. Qed.

(** The C library's [qsort]: some sorted rearrangement of the array; the order
    of elements that compare equal is unspecified. *)
Class QSort := qsort : forall A : Type, (A -> A -> Z) -> list A -> list A.
Arguments qsort {_ A} cmp l.

Class QSortLaws (Q : QSort) : Prop := {
  qsort_perm {A} (cmp : A -> A -> Z) l : CmpPreorder cmp -> qsort cmp l ≡ₚ l;
  qsort_sorted {A} (cmp : A -> A -> Z) l :
    CmpPreorder cmp -> StronglySorted (fun a b => cmp a b <= 0) (qsort cmp l);
}.

(** One [qsort]: merge sort. *)
#[export] Instance QSort_merge : QSort := fun A cmp =>
  @merge_sort A (fun a b => cmp a b <= 0) (fun a b => Z_le_dec (cmp a b) 0).

#[export] Instance QSort_merge_laws : QSortLaws QSort_merge.
Proof.
  split; intros A cmp l Hcmp.
  - apply merge_sort_Permutation.
  - apply StronglySorted_merge_sort.
    + intros a b c. apply (@cmp_trans A cmp Hcmp).
    + intros a b. pose proof (@cmp_antisym A cmp Hcmp a b). lia.
Qed.

(** ** Arrays *)
Lemma arr_get_Ok {A} (t : list A) i x :
  arr_get t i = Ok x <-> 0 <= i /\ t !! Z.to_nat i = Some x.
Proof.
  unfold arr_get. destruct (Z.ltb_spec i 0) as [H|H]; [split; [done|lia]|].
  destruct (t !! Z.to_nat i); split; try done;
    [by intros [= ->]|by intros [_ [= ->]]|by intros [_ ?]].
Qed.

Lemma arr_set_Ok {A} (t : list A) i x :
  0 <= i < Z.of_nat (length t) -> arr_set t i x = Ok (<[Z.to_nat i := x]> t).
Proof.
  intros. unfold arr_set. destruct ((i <? 0) || (Z.of_nat (length t) <=? i)) eqn:E; [lia|done].
Qed.

Lemma arr_set_inv {A} (t t' : list A) i x :
  arr_set t i x = Ok t' -> 0 <= i < Z.of_nat (length t) /\ t' = <[Z.to_nat i := x]> t.
Proof.
  unfold arr_set. destruct ((i <? 0) || (Z.of_nat (length t) <=? i)) eqn:E; [done|].
  intros. simplify_eq. split; [lia|done].
Qed.

Lemma arr_get_set_ne {A} (t : list A) i j x :
  0 <= i -> i <> j -> arr_get (<[Z.to_nat i := x]> t) j = arr_get t j.
Proof.
  intros Hi Hij. unfold arr_get. destruct (Z.ltb_spec j 0); [done|].
  rewrite list_lookup_insert_ne by lia. done.
Qed.

Lemma arr_get_set_eq {A} (t : list A) i x :
  0 <= i < Z.of_nat (length t) -> arr_get (<[Z.to_nat i := x]> t) i = Ok x.
Proof.
  intros Hi. apply arr_get_Ok. split; [lia|]. apply list_lookup_insert_eq. lia.
Qed.

Lemma arr_get_replicate {A} n (x : A) i :
  0 <= i < Z.of_nat n -> arr_get (replicate n x) i = Ok x.
Proof. intros. apply arr_get_Ok. split; [lia|]. apply lookup_replicate_2. lia. Qed.

(** Pieces of an encoded stream that decode to known bytes. *)
Create HintDb codec.

(** Closes bounds on closed terms, and [Forall] over closed lists of them. *)
Ltac concrete :=
  first
    [ apply Forall_nil_2
    | apply Forall_cons_2; [concrete | concrete]
    | vm_compute; repeat split; first [reflexivity | discriminate] ].
