(* ===== verification/CString.v ===== *)
(** * Strings of the C library

    The functions of [<string.h>], [<stdlib.h>] and [<stdio.h>] that the modelled files
    use, in the C locale, on lists of bytes without the terminator, with their lemmas. *)

From S2P Require Import Prelude.
From Stdlib Require Import(notations) String.
#[local] Open Scope Z_scope.
#[local] Open Scope list_scope.

(** The bytes of a string literal. *)
Definition bytes (s : String.string) : list Z :=
  (fun c => Z.of_N (Ascii.N_of_ascii c)) <$> String.list_ascii_of_string s.

(** ** Numbers as text *)

(** The decimal digits of a number that is not negative. *)
Fixpoint decimal (fuel : nat) (n : Z) : list Z :=
  match fuel with
  | O => []
  | S fuel => (if n <? 10 then [] else decimal fuel (n / 10)) ++ [48 + n mod 10]
  end.

(** [printf]'s [%d] of an unsigned number: read as an [int], at most 10 digits. *)
Definition fmt_d (n : Z) : list Z :=
  let i := s32 n in
  if i <? 0 then 45 :: decimal 10 (- i) else decimal 10 i.

(** ** Characters *)

(** [isxdigit], [toupper] and [tolower] of the C locale *)
Definition isxdigit (c : Z) : bool :=
  ((48 <=? c) && (c <=? 57)) || ((65 <=? c) && (c <=? 70)) || ((97 <=? c) && (c <=? 102)).
Definition toupper (c : Z) : Z := if (97 <=? c) && (c <=? 122) then c - 32 else c.
Definition tolower (c : Z) : Z := if (65 <=? c) && (c <=? 90) then c + 32 else c.

(** ** Searching and reading *)

(** [strchr]: the bytes before and after the first [c]. *)
Fixpoint strchr (c : Z) (l : list Z) : option (list Z * list Z) :=
  match l with
  | [] => None
  | d :: l =>
      if d =? c then Some ([], l)
      else match strchr c l with Some (a, b) => Some (d :: a, b) | None => None end
  end.

(** [isspace] of the C locale *)
Definition isspace (c : Z) : bool := (c =? 32) || ((9 <=? c) && (c <=? 13)).

Fixpoint atol_digits (l : list Z) (n : Z) : Z :=
  match l with
  | c :: l => if (48 <=? c) && (c <=? 57) then atol_digits l (n * 10 + (c - 48)) else n
  | [] => n
  end.

(** [atol]: blanks, a sign, digits; out of range it is the nearest [long]. *)
Fixpoint atol (l : list Z) : Z :=
  match l with
  | [] => 0
  | c :: l' =>
      if isspace c then atol l'
      else if c =? 45 then Z.max (- 2 ^ 63) (- atol_digits l' 0)
      else if c =? 43 then Z.min (2 ^ 63 - 1) (atol_digits l' 0)
      else Z.min (2 ^ 63 - 1) (atol_digits l 0)
  end.

(** [strtoul] with base 10: a number after a minus sign is negated as an unsigned one. *)
Fixpoint strtoul (l : list Z) : Z :=
  let top := 2 ^ 64 - 1 in
  match l with
  | [] => 0
  | c :: l' =>
      if isspace c then strtoul l'
      else if c =? 45 then
        let n := atol_digits l' 0 in if top <? n then top else (- n) mod 2 ^ 64
      else if c =? 43 then Z.min top (atol_digits l' 0)
      else Z.min top (atol_digits l 0)
  end.

(** [strcmp]: the sign of the first difference, of bytes without sign. *)
Fixpoint strcmp (l k : list Z) : Z :=
  match l, k with
  | [], [] => 0
  | [], _ => -1
  | _, [] => 1
  | a :: l, b :: k => if zcmp a b =? 0 then strcmp l k else zcmp a b
  end.

(** ** Lemmas *)

Definition digit (c : Z) : Prop := 48 <= c <= 57.

Lemma decimal_digits fuel n : 0 <= n -> Forall digit (decimal fuel n).
Proof.
  revert n. induction fuel as [|fuel IH]; intros n Hn; cbn [decimal]; [done|].
  apply Forall_app. split.
  - destruct (n <? 10); [done|]. apply IH. div_lia.
  - apply Forall_singleton. unfold digit. div_lia.
Qed.

Lemma decimal_value fuel n rest acc :
  0 <= n < 10 ^ Z.of_nat fuel ->
  exists k, 0 <= k /\
    atol_digits (decimal fuel n ++ rest) acc = atol_digits rest (acc * 10 ^ k + n).
Proof.
  revert n rest. induction fuel as [|fuel IH]; intros n rest Hn.
  - exists 0. simpl in *. split; [done|]. f_equal; lia.
  - cbn [decimal].
    assert (forall acc, atol_digits ([48 + n mod 10] ++ rest) acc = atol_digits rest (acc * 10 + n mod 10)) as Hlast.
    { intros a. simpl. destruct ((48 <=? 48 + n mod 10) && (48 + n mod 10 <=? 57)) eqn:E; [f_equal; lia|].
      pose proof (Z.mod_pos_bound n 10). lia. }
    destruct (Z.ltb_spec n 10) as [Hs|Hs].
    + exists 1. split; [done|]. cbn [app]. cbn [app] in Hlast. rewrite Hlast.
      rewrite Z.mod_small by lia. f_equal; lia.
    + rewrite Nat2Z.inj_succ, Z.pow_succ_r in Hn by lia.
      destruct (IH (n / 10) ([48 + n mod 10] ++ rest)) as (k & Hk & E).
      { split; [div_lia|]. apply Z.div_lt_upper_bound; lia. }
      exists (k + 1). split; [lia|]. rewrite <- app_assoc, E, Hlast. f_equal.
      rewrite Z.pow_add_r by lia. pose proof (Z.div_mod n 10). lia.
Qed.

(** The text of a number, and what may follow it. *)
Definition stops (rest : list Z) : Prop :=
  match rest with [] => True | c :: _ => ~ digit c end.

Lemma fmt_d_digits n : 0 <= n < 2 ^ 31 -> Forall digit (fmt_d n) /\ fmt_d n <> [].
Proof.
  intros Hn. unfold fmt_d. rewrite s32_small by lia. cbv zeta.
  destruct (Z.ltb_spec n 0); [lia|]. split; [by apply decimal_digits|].
  change 10%nat with (S 9). cbn [decimal]. intros E%(f_equal length).
  rewrite length_app in E. simpl in E. lia.
Qed.

Lemma atol_fmt_d n rest :
  0 <= n < 2 ^ 31 -> stops rest -> atol (fmt_d n ++ rest) = n.
Proof.
  intros Hn Hrest. destruct (fmt_d_digits n Hn) as [Hd Hne].
  assert (atol_digits (fmt_d n ++ rest) 0 = n) as E.
  { unfold fmt_d. rewrite s32_small by lia. cbv zeta. destruct (Z.ltb_spec n 0); [lia|].
    destruct (decimal_value 10 n rest 0) as (k & Hk & E); [lia|]. rewrite E, Z.mul_0_l.
    destruct rest as [|c rest]; [done|]. simpl in *. unfold digit in Hrest.
    destruct ((48 <=? c) && (c <=? 57)) eqn:Ec; [lia|done]. }
  destruct (fmt_d n) as [|c l] eqn:Ef; [done|]. apply Forall_cons in Hd as [Hc _].
  unfold digit in Hc. cbn [app atol] in *. unfold isspace.
  destruct ((c =? 32) || ((9 <=? c) && (c <=? 13))) eqn:E1; [lia|].
  destruct (Z.eqb_spec c 45); [lia|]. destruct (Z.eqb_spec c 43); [lia|].
  rewrite E. lia.
Qed.

Lemma strchr_app c l rest : c ∉ l -> strchr c (l ++ c :: rest) = Some (l, rest).
Proof.
  induction l as [|d l IH]; intros Hl; simpl.
  - by rewrite Z.eqb_refl.
  - apply not_elem_of_cons in Hl as [Hd Hl]. destruct (Z.eqb_spec d c); [congruence|].
    by rewrite IH.
Qed.

Lemma strchr_none c l : c ∉ l -> strchr c l = None.
Proof.
  induction l as [|d l IH]; intros Hl; simpl; [done|].
  apply not_elem_of_cons in Hl as [Hd Hl]. destruct (Z.eqb_spec d c); [congruence|].
  by rewrite IH.
Qed.

Lemma decimal_nonempty fuel n : (0 < fuel)%nat -> decimal fuel n <> [].
Proof.
  destruct fuel as [|fuel]; [lia|]. intros _. cbn [decimal]. intros E%(f_equal length).
  rewrite length_app in E. simpl in E. lia.
Qed.

Lemma atol_digits_decimal n : 0 <= n < 10 ^ 10 -> atol_digits (decimal 10 n) 0 = n.
Proof. intros Hn. destruct (decimal_value 10 n [] 0 Hn) as (k & _ & E). by rewrite app_nil_r in E. Qed.

(** The text of an [int], read by [strtoul] and converted to [int]. *)
Lemma strtoul_fmt_d n : - 2 ^ 31 <= n < 2 ^ 31 -> s32 (strtoul (fmt_d n)) = n.
Proof.
  intros Hn. unfold fmt_d. rewrite (s32_small n) by lia. cbv zeta.
  destruct (Z.ltb_spec n 0) as [Hs|Hs].
  - cbn [strtoul]. change (isspace 45) with false. change (45 =? 45) with true. cbv iota zeta.
    rewrite atol_digits_decimal by lia. destruct (Z.ltb_spec (2 ^ 64 - 1) (- n)); [lia|].
    rewrite Z.opp_involutive, <- (Z_mod_plus_full n 1), Z.mod_small by lia. unfold s32.
    replace (n + 1 * 2 ^ 64 + 2 ^ 31) with (n + 2 ^ 31 + 2 ^ 32 * 2 ^ 32) by lia.
    rewrite Z_mod_plus_full, Z.mod_small by lia. lia.
  - pose proof (decimal_digits 10 n Hs) as Hd. pose proof (atol_digits_decimal n ltac:(lia)) as Ea.
    pose proof (decimal_nonempty 10 n ltac:(lia)). destruct (decimal 10 n) as [|c l]; [done|].
    apply Forall_cons in Hd as [Hc _]. unfold digit in Hc. cbn [strtoul].
    destruct (isspace c) eqn:E1; [unfold isspace in E1; lia|].
    destruct (Z.eqb_spec c 45); [lia|]. destruct (Z.eqb_spec c 43); [lia|].
    rewrite Ea, Z.min_r by lia. apply s32_small; lia.
Qed.
