(* ===== verification/GLibUtf8.v ===== *)
(** * GLib: characters and comparison

    The functions of GLib on UTF-8 text that [e-vcard.c] calls are parameters: the class
    [GLib] with the laws [GLibLaws], which are GLib's documentation of them, and an instance
    that shows that the laws can hold.  A string is the list of its bytes without the
    terminator; [cur] is the byte a pointer points to and [g_utf8_next_char] moves a
    pointer, and is undefined behind the terminator. *)

From S2P Require Import Prelude.

Class GLib := {
  g_ascii_strcasecmp : list Z -> list Z -> Z;
  (** the table of [g_utf8_next_char]: how many bytes a character has, by the first one *)
  g_utf8_skip : Z -> nat;
  g_utf8_get_char : list Z -> Z;
  (** what [g_string_append_unichar] appends *)
  g_unichar_to_utf8 : Z -> list Z;
  g_unichar_validate : Z -> bool;
  g_unichar_isalnum : Z -> bool;
  (** [None] if the text is valid, or the number of valid bytes in front of the first that
      is not *)
  g_utf8_validate : list Z -> option nat;
  g_utf8_strlen : list Z -> Z;
}.

(** A byte in lower case, in ASCII; and whether it is a letter or a digit. *)
Definition ascii_lower (c : Z) : Z := if (65 <=? c) && (c <=? 90) then c + 32 else c.
Definition ascii_alnum (c : Z) : bool :=
  ((48 <=? c) && (c <=? 57)) || ((65 <=? c) && (c <=? 90)) || ((97 <=? c) && (c <=? 122)).

(** [*lp] *)
Definition cur (lp : list Z) : Z := default 0 (head lp).

Section text.
Context `{GLib}.

Definition g_utf8_next_char (lp : list Z) : res (list Z) :=
  match lp with
  | [] => Undef
  | c :: _ => if (length lp <? g_utf8_skip c)%nat then Undef else Ok (drop (g_utf8_skip c) lp)
  end.

(** How many bytes further the [n]-th character is, in memory [mem]. *)
Fixpoint g_utf8_offset_to_pointer (mem : list Z) (n : nat) : res nat :=
  match n with
  | O => Ok O
  | S n =>
      match mem with
      | [] => Undef
      | c :: _ => k ← g_utf8_offset_to_pointer (drop (g_utf8_skip c) mem) n; Ok (g_utf8_skip c + k)%nat
      end
  end.

(** Valid characters and the text they make. *)
Definition valid_char (c : Z) : Prop := 0 < c /\ g_unichar_validate c = true.
Definition utf8 (cs : list Z) : list Z := concat (map g_unichar_to_utf8 cs).

Class GLibLaws : Prop := {
  strcasecmp_eq a b : g_ascii_strcasecmp a b = 0 <-> map ascii_lower a = map ascii_lower b;
  skip_ascii c : 0 <= c < 128 -> g_utf8_skip c = 1%nat;
  skip_range c : (1 <= g_utf8_skip c <= 6)%nat;
  ascii_valid c : 0 < c < 128 -> g_unichar_validate c = true;
  to_utf8_ascii c : 0 < c < 128 -> g_unichar_to_utf8 c = [c];
  (** the other characters are a first byte and others that are characters to none *)
  to_utf8_high c : valid_char c -> 128 <= c ->
    exists b bs, g_unichar_to_utf8 c = b :: bs /\ g_utf8_skip b = S (length bs) /\
      128 <= b < 256 /\ Forall (fun b => 128 <= b < 256 /\ g_utf8_skip b = 1%nat) bs;
  (** U+FFFD, the replacement character *)
  replacement_char : g_unichar_validate 65533 = true /\ g_unichar_to_utf8 65533 = [239; 191; 189];
  get_char_utf8 c rest : valid_char c -> g_utf8_get_char (g_unichar_to_utf8 c ++ rest) = c;
  isalnum_ascii c : 0 <= c < 128 -> g_unichar_isalnum c = ascii_alnum c;
  validate_utf8 cs : Forall valid_char cs -> g_utf8_validate (utf8 cs) = None;
  validate_None l : g_utf8_validate l = None -> exists cs, l = utf8 cs /\ Forall valid_char cs;
  validate_Some l n : g_utf8_validate l = Some n ->
    (n < length l)%nat /\ exists cs, take n l = utf8 cs /\ Forall valid_char cs;
  strlen_utf8 cs : Forall valid_char cs -> g_utf8_strlen (utf8 cs) = Z.of_nat (length cs);
}.
End text.
Arguments GLibLaws : clear implicits.
Arguments GLibLaws _ : assert.

(** ** Lemmas *)

Section lemmas.
Context `{GLib} (HG : GLibLaws _).

Lemma utf8_app cs ds : utf8 (cs ++ ds) = utf8 cs ++ utf8 ds.
Proof. unfold utf8. by rewrite map_app, concat_app. Qed.

Lemma utf8_ascii s : Forall (fun c => 0 < c < 128) s -> utf8 s = s.
Proof.
  induction 1 as [|c s Hc _ IH]; [done|]. unfold utf8 in *. cbn [map concat].
  by rewrite to_utf8_ascii, IH.
Qed.

Lemma to_utf8_nonempty c : valid_char c -> exists b bs, g_unichar_to_utf8 c = b :: bs /\
  g_utf8_skip b = S (length bs) /\ 0 < b < 256 /\ (c < 128 -> b = c) /\ (128 <= c -> 128 <= b) /\
  Forall (fun b => 128 <= b < 256 /\ g_utf8_skip b = 1%nat) bs.
Proof.
  intros Hc. destruct (Z.lt_ge_cases c 128) as [Hlt|Hge].
  - pose proof Hc as [Hp _]. exists c, []. rewrite to_utf8_ascii, skip_ascii by lia.
    repeat split; try lia. by constructor.
  - destruct (to_utf8_high c Hc Hge) as (b & bs & E & Hs & Hb & Hbs). exists b, bs.
    repeat split; (done || lia).
Qed.

Lemma next_char_utf8 c rest : valid_char c -> g_utf8_next_char (g_unichar_to_utf8 c ++ rest) = Ok rest.
Proof.
  intros Hc. destruct (to_utf8_nonempty c Hc) as (b & bs & -> & Hs & _). unfold g_utf8_next_char.
  cbn [app]. rewrite Hs. destruct (Nat.ltb_spec (length (b :: bs ++ rest)) (S (length bs))) as [Hl|_].
  - simpl in Hl. rewrite length_app in Hl. lia.
  - cbn [drop]. by rewrite drop_app_length.
Qed.

Lemma next_char_ascii c rest : 0 <= c < 128 -> g_utf8_next_char (c :: rest) = Ok rest.
Proof. intros Hc. unfold g_utf8_next_char. by rewrite skip_ascii. Qed.

Lemma next_char_shorter l l' : g_utf8_next_char l = Ok l' -> (length l' < length l)%nat /\ l' `suffix_of` l.
Proof.
  unfold g_utf8_next_char. destruct l as [|c l]; [done|].
  destruct (Nat.ltb_spec (length (c :: l)) (g_utf8_skip c)) as [|Hl]; [done|].
  injection 1 as <-. pose proof (skip_range c). rewrite length_drop. split; [simpl in *; lia|].
  exists (take (g_utf8_skip c) (c :: l)). by rewrite take_drop.
Qed.

(** ** Text that can be stepped through *)

(** A pointer into the text, even into the middle of a character, can be moved forward. *)
Definition steps (l : list Z) : Prop :=
  forall c l', c :: l' `suffix_of` l -> 0 < c < 256 /\ (g_utf8_skip c <= S (length l'))%nat.

Lemma steps_suffix l l' : steps l -> l' `suffix_of` l -> steps l'.
Proof. intros Hl Hs c k Hk. apply Hl. by trans l'. Qed.

Lemma steps_nil : steps [].
Proof. intros c l [k E]. by destruct k. Qed.

Lemma steps_cons c l : steps (c :: l) <-> 0 < c < 256 /\ (g_utf8_skip c <= S (length l))%nat /\ steps l.
Proof.
  split.
  - intros Hs. destruct (Hs c l) as [? ?]; [done|]. split; [done|]. split; [done|].
    eapply steps_suffix; [exact Hs|by exists [c]].
  - intros (Hc & Hk & Hl) d k Hs. apply suffix_cons_inv in Hs as [[= -> ->]|Hs]; [done|by apply Hl].
Qed.

Lemma steps_singles bs l :
  Forall (fun b => 128 <= b < 256 /\ g_utf8_skip b = 1%nat) bs -> steps l -> steps (bs ++ l).
Proof.
  induction 1 as [|b bs [Hb Hk] _ IH]; [done|]. intros Hl. cbn [app]. apply steps_cons.
  rewrite Hk. split; [lia|]. split; [lia|by apply IH].
Qed.

Lemma steps_utf8 cs : Forall valid_char cs -> steps (utf8 cs).
Proof.
  induction 1 as [|c cs Hc _ IH]; [apply steps_nil|]. unfold utf8 in *. cbn [map concat].
  destruct (to_utf8_nonempty c Hc) as (b & bs & -> & Hs & Hb & _ & _ & Hbs). cbn [app].
  apply steps_cons. rewrite Hs. split; [done|]. split; [rewrite length_app; lia|by apply steps_singles].
Qed.

Lemma next_char_steps l : steps l -> l <> [] -> exists l', g_utf8_next_char l = Ok l'.
Proof.
  intros Hs Hl. destruct l as [|c l]; [done|]. destruct (Hs c l) as [_ Hk]; [done|].
  unfold g_utf8_next_char. destruct (Nat.ltb_spec (length (c :: l)) (g_utf8_skip c)) as [Hlt|_]; [simpl in Hlt; lia|].
  by eexists.
Qed.

Lemma cur_nonzero l : steps l -> cur l <> 0 -> l <> [].
Proof. by destruct l. Qed.

(** ** Character offsets *)

Lemma offset_utf8 cs ds rest n :
  Forall valid_char cs -> n = length cs ->
  g_utf8_offset_to_pointer (utf8 (cs ++ ds) ++ rest) n = Ok (length (utf8 cs)).
Proof.
  intros Hcs ->. induction Hcs as [|c cs Hc _ IH]; [done|]. rewrite <- app_comm_cons. unfold utf8 in *.
  cbn [map concat length].
  destruct (to_utf8_nonempty c Hc) as (b & bs & -> & Hs & _). cbn [app g_utf8_offset_to_pointer].
  rewrite Hs. cbn [drop]. rewrite <- !app_assoc, drop_app_length, IH. cbn. rewrite length_app. done.
Qed.

(** Past the terminator the pointer only goes on, as long as there is memory. *)
Lemma offset_any mem n : (6 * n <= length mem)%nat -> exists k, g_utf8_offset_to_pointer mem n = Ok k /\ (n <= k)%nat.
Proof.
  revert mem. induction n as [|n IH]; intros mem Hn; [by exists 0%nat|].
  destruct mem as [|c mem]; [simpl in Hn; lia|]. cbn [g_utf8_offset_to_pointer].
  pose proof (skip_range c). destruct (IH (drop (g_utf8_skip c) (c :: mem))) as (k & -> & Hk).
  { rewrite length_drop. lia. }
  eexists. split; [reflexivity|]. lia.
Qed.

Lemma offset_app mem n m k :
  g_utf8_offset_to_pointer mem n = Ok k ->
  g_utf8_offset_to_pointer mem (n + m) = (j ← g_utf8_offset_to_pointer (drop k mem) m; Ok (k + j)%nat).
Proof.
  revert mem k. induction n as [|n IH]; intros mem k.
  - cbn [g_utf8_offset_to_pointer plus]. intros [= <-]. rewrite drop_0. by destruct (g_utf8_offset_to_pointer mem m).
  - destruct mem as [|c mem]; cbn [g_utf8_offset_to_pointer plus]; [done|].
    destruct (g_utf8_offset_to_pointer (drop (g_utf8_skip c) (c :: mem)) n) as [j| |] eqn:E; cbn; [|done..].
    intros [= <-]. rewrite (IH _ _ E), drop_drop.
    destruct (g_utf8_offset_to_pointer _ m); cbn; [f_equal; lia|done|done].
Qed.

Lemma offset_past cs rest n :
  Forall valid_char cs -> (length cs < n)%nat -> (6 * n <= length rest)%nat ->
  exists k, g_utf8_offset_to_pointer (utf8 cs ++ 0 :: rest) n = Ok k /\ (length (utf8 cs) < k)%nat.
Proof.
  intros Hcs Hn Hr. replace n with (length cs + (n - length cs))%nat by lia.
  pose proof (offset_utf8 cs [] (0 :: rest) _ Hcs eq_refl) as E. rewrite app_nil_r in E.
  rewrite (offset_app _ _ _ _ E), drop_app_length.
  destruct (offset_any (0 :: rest) (n - length cs)) as (k & -> & Hk); [simpl; lia|].
  eexists. split; [reflexivity|]. lia.
Qed.
End lemmas.

(** ** An instance *)

Module Utf8Instance.

(** UTF-8 as arithmetic. *)
Definition encode (c : Z) : list Z :=
  if c <? 128 then [c]
  else if c <? 2048 then [192 + c / 64; 128 + c mod 64]
  else if c <? 65536 then [224 + c / 4096; 128 + c / 64 mod 64; 128 + c mod 64]
  else [240 + c / 262144; 128 + c / 4096 mod 64; 128 + c / 64 mod 64; 128 + c mod 64].

Definition skip (c : Z) : nat :=
  if c <? 192 then 1 else if c <? 224 then 2 else if c <? 240 then 3 else if c <? 248 then 4 else 1.

Definition validate (c : Z) : bool := (0 <? c) && (c <? 1114112).

Definition decode (l : list Z) : Z :=
  match l with
  | [] => 0
  | a :: l =>
      if a <? 192 then a
      else match l with
      | [] => -1
      | b :: l =>
          if a <? 224 then (a - 192) * 64 + (b - 128)
          else match l with
          | [] => -1
          | c :: l =>
              if a <? 240 then (a - 224) * 4096 + (b - 128) * 64 + (c - 128)
              else match l with
              | [] => -1
              | d :: _ => (a - 240) * 262144 + (b - 128) * 4096 + (c - 128) * 64 + (d - 128)
              end
          end
      end
  end.

Lemma decode_encode c rest : 0 < c < 1114112 -> decode (encode c ++ rest) = c.
Proof.
  intros Hc. unfold encode.
  destruct (Z.ltb_spec c 128); [simpl; destruct (Z.ltb_spec c 192); lia|].
  destruct (Z.ltb_spec c 2048).
  { cbn [app decode]. destruct (Z.ltb_spec (192 + c / 64) 192); [div_lia|].
    destruct (Z.ltb_spec (192 + c / 64) 224); div_lia. }
  destruct (Z.ltb_spec c 65536).
  { cbn [app decode]. destruct (Z.ltb_spec (224 + c / 4096) 192); [div_lia|].
    destruct (Z.ltb_spec (224 + c / 4096) 224); [div_lia|].
    destruct (Z.ltb_spec (224 + c / 4096) 240); div_lia. }
  cbn [app decode]. destruct (Z.ltb_spec (240 + c / 262144) 192); [div_lia|].
  destruct (Z.ltb_spec (240 + c / 262144) 224); [div_lia|].
  destruct (Z.ltb_spec (240 + c / 262144) 240); div_lia.
Qed.

Lemma encode_high c : 128 <= c < 1114112 ->
  exists b bs, encode c = b :: bs /\ skip b = S (length bs) /\
    128 <= b < 256 /\ Forall (fun b => 128 <= b < 256 /\ skip b = 1%nat) bs.
Proof.
  intros Hc. unfold encode. destruct (Z.ltb_spec c 128); [lia|].
  assert (forall z, 128 <= 128 + z mod 64 < 256 /\ skip (128 + z mod 64) = 1%nat) as Hcont.
  { intros z. pose proof (Z.mod_pos_bound z 64). unfold skip.
    destruct (Z.ltb_spec (128 + z mod 64) 192); lia. }
  assert (forall b, skip b = if b <? 192 then 1%nat else if b <? 224 then 2%nat else if b <? 240 then 3%nat
    else if b <? 248 then 4%nat else 1%nat) as Hskip by done.
  destruct (Z.ltb_spec c 2048); [|destruct (Z.ltb_spec c 65536)];
    (eexists _, _; split; [reflexivity|]; rewrite Hskip; cbn [length]).
  - assert (2 <= c / 64 < 32) by div_lia. repeat case_match; try lia. split; [done|]. split; [lia|].
    repeat constructor; apply Hcont.
  - assert (0 <= c / 4096 < 16) by div_lia. repeat case_match; try lia. split; [done|]. split; [lia|].
    repeat constructor; apply Hcont.
  - assert (0 <= c / 262144 < 5) by div_lia. repeat case_match; try lia. split; [done|]. split; [lia|].
    repeat constructor; apply Hcont.
Qed.

(** The first character that is not valid, by encoding again what was decoded. *)
Fixpoint utf8_validate (fuel : nat) (l : list Z) : option nat :=
  match fuel, l with
  | S fuel, _ :: _ =>
      let e := encode (decode l) in
      if validate (decode l) && bool_decide (take (length e) l = e)
      then option_map (fun n => length e + n)%nat (utf8_validate fuel (drop (length e) l))
      else Some O
  | _, _ => None
  end.

(** The number of bytes that begin a character. *)
Definition strlen (l : list Z) : Z := Z.of_nat (length (filter (fun c => c < 128 \/ 192 <= c) l)).

#[export] Instance glib : GLib := {|
  g_ascii_strcasecmp a b := if bool_decide (map ascii_lower a = map ascii_lower b) then 0 else 1;
  g_utf8_skip := skip;
  g_utf8_get_char := decode;
  g_unichar_to_utf8 := encode;
  g_unichar_validate := validate;
  g_unichar_isalnum := ascii_alnum;
  g_utf8_validate l := utf8_validate (length l) l;
  g_utf8_strlen := strlen;
|}.

Lemma valid_range c : valid_char c -> 0 < c < 1114112.
Proof. intros [Hc Hv]. cbn in Hv. unfold validate in Hv. lia. Qed.

Lemma encode_cons c : 0 < c < 1114112 -> exists b bs, encode c = b :: bs /\ ((b < 128 \/ 192 <= b)) /\
  Forall (fun b => 128 <= b < 192) bs.
Proof.
  intros Hc. unfold encode. assert (forall z, 128 <= 128 + z mod 64 < 192) as Hcont.
  { intros z. pose proof (Z.mod_pos_bound z 64). lia. }
  repeat case_match; (eexists _, _; split; [reflexivity|]; split; [div_lia|repeat constructor; apply Hcont]).
Qed.

Lemma utf8_validate_utf8 cs fuel : (length (utf8 cs) <= fuel)%nat -> Forall valid_char cs ->
  utf8_validate fuel (utf8 cs) = None.
Proof.
  intros Hf Hcs. revert fuel Hf. induction Hcs as [|c cs Hc _ IH]; intros fuel Hf; [by destruct fuel|].
  unfold utf8 in *. cbn [map concat] in *. change (g_unichar_to_utf8 c) with (encode c) in *.
  rewrite length_app in Hf. destruct (encode_cons c (valid_range c Hc)) as (b & bs & E & _).
  destruct fuel as [|fuel]; [rewrite E in Hf; simpl in Hf; lia|].
  pose proof (decode_encode c (concat (map g_unichar_to_utf8 cs)) (valid_range c Hc)) as Ed.
  rewrite E in *. cbn [app] in *. cbn [utf8_validate]. rewrite Ed, E. pose proof Hc as [_ Hv].
  change (g_unichar_validate c) with (validate c) in Hv. rewrite Hv.
  change (b :: bs ++ concat (map g_unichar_to_utf8 cs)) with ((b :: bs) ++ concat (map g_unichar_to_utf8 cs)).
  rewrite take_app_length, drop_app_length. rewrite bool_decide_eq_true_2 by done. cbn [andb].
  rewrite IH; [done|]. cbn [length] in Hf. lia.
Qed.

Lemma utf8_validate_sound l fuel : (length l <= fuel)%nat ->
  match utf8_validate fuel l with
  | None => exists cs, l = utf8 cs /\ Forall valid_char cs
  | Some n => (n < length l)%nat /\ exists cs, take n l = utf8 cs /\ Forall valid_char cs
  end.
Proof.
  revert l. induction fuel as [|fuel IH]; intros [|a l] Hf; simpl in Hf; try lia; try (by exists []).
  cbn [utf8_validate]. set (c := decode (a :: l)).
  destruct (validate c) eqn:Hv; cbn [andb]; [|split; [simpl; lia|by exists []]].
  destruct (decide (take (length (encode c)) (a :: l) = encode c)) as [E|E];
    [rewrite bool_decide_eq_true_2 by done|rewrite bool_decide_eq_false_2 by done; split; [simpl; lia|by exists []]].
  assert (valid_char c) as Hc by (split; [unfold validate in Hv; lia|done]).
  destruct (encode_cons c (valid_range c Hc)) as (b & bs & Eb & _).
  set (e := encode c) in *. assert (a :: l = e ++ drop (length e) (a :: l)) as El by (rewrite <- E at 1; by rewrite take_drop).
  assert (length (a :: l) = length e + length (drop (length e) (a :: l)))%nat as En by (rewrite <- length_app; by rewrite <- El).
  specialize (IH (drop (length e) (a :: l))). rewrite Eb in *. simpl in En.
  destruct (utf8_validate fuel _) as [n|]; cbn [option_map].
  - destruct IH as (Hn & cs & Et & Hcs); [simpl in *; lia|]. split; [simpl in *; lia|].
    exists (c :: cs). split; [|by constructor]. unfold utf8. cbn [map concat].
    change (g_unichar_to_utf8 c) with (encode c). fold e. rewrite Eb, El at 1. rewrite take_app_add'; [|done].
    by rewrite Et.
  - destruct IH as (cs & Et & Hcs); [simpl in *; lia|]. exists (c :: cs). split; [|by constructor].
    unfold utf8 in *. cbn [map concat]. change (g_unichar_to_utf8 c) with (encode c). fold e. rewrite Eb, El, Et. done.
Qed.

Lemma strlen_spec cs : Forall valid_char cs -> strlen (utf8 cs) = Z.of_nat (length cs).
Proof.
  unfold strlen. intros Hcs. f_equal. induction Hcs as [|c cs Hc _ IH]; [done|].
  unfold utf8 in *. cbn [map concat length]. rewrite filter_app, length_app, IH.
  change (g_unichar_to_utf8 c) with (encode c).
  destruct (encode_cons c (valid_range c Hc)) as (b & bs & -> & Hb & Hbs).
  rewrite filter_cons_True by done. simpl. f_equal.
  enough (filter (fun c => c < 128 \/ 192 <= c) bs = []) as -> by done.
  induction Hbs as [|d bs Hd _ IHb]; [done|]. rewrite filter_cons_False by lia. done.
Qed.

#[export] Instance glib_laws : GLibLaws glib.
Proof.
  split.
  - intros a b. cbn. case_bool_decide; split; congruence || lia.
  - intros c Hc. cbn. unfold skip. destruct (Z.ltb_spec c 192); lia.
  - intros c. cbn. unfold skip. repeat case_match; lia.
  - intros c Hc. cbn. unfold validate. lia.
  - intros c Hc. cbn. unfold encode. destruct (Z.ltb_spec c 128); [done|lia].
  - intros c Hc H. apply encode_high. apply valid_range in Hc. lia.
  - done.
  - intros c rest Hc. apply decode_encode. by apply valid_range.
  - done.
  - intros cs Hcs. by apply utf8_validate_utf8.
  - intros l Hl. pose proof (utf8_validate_sound l (length l) (le_n _)) as H. cbn in Hl. by rewrite Hl in H.
  - intros l n Hl. pose proof (utf8_validate_sound l (length l) (le_n _)) as H. cbn in Hl. by rewrite Hl in H.
  - exact strlen_spec.
Qed.
End Utf8Instance.
