(* ===== verification/CalTimeUtil.v ===== *)
(** * Calendar arithmetic ([src/calendar/libecal/e-cal-time-util.c]) and the
    day counts of GLib's [GDate]

    [Gregorian] is the reference calendar (leap years, month lengths, the day
    number of a date counted from 1 January of year 1).  The time-zone free
    functions of [e-cal-time-util.c] are translated and related to it.  GLib is
    not part of the repository: [GDate] is the interface the sources use, and
    [GDateLaws] its documented behaviour, with [GDate_gregorian] an instance. *)

From S2P Require Import Prelude.

(** ** The reference calendar: months are 0 (January) to 11 (December) *)
Module Gregorian.

Definition leap (y : Z) : bool :=
  (y mod 4 =? 0) && (negb (y mod 100 =? 0) || (y mod 400 =? 0)).

(** Month lengths outside a leap year. *)
Definition mlen (m : Z) : Z :=
  if m =? 1 then 28
  else if (m =? 3) || (m =? 5) || (m =? 8) || (m =? 10) then 30 else 31.

Definition mdays (y m : Z) : Z :=
  mlen m + (if (m =? 1) && leap y then 1 else 0).

(** Days of the year before month [m]. *)
Fixpoint before_month (y : Z) (m : nat) : Z :=
  match m with
  | O => 0
  | S m => before_month y m + mdays y (Z.of_nat m)
  end.

Definition ydays (y : Z) : Z := if leap y then 366 else 365.

(** Day number of 31 December of the year before [y]. *)
Definition year_base (y : Z) : Z :=
  365 * (y - 1) + (y - 1) / 4 - (y - 1) / 100 + (y - 1) / 400.

(** Day number of a date: 1 January of year 1 is day 1. *)
Definition serial (y m d : Z) : Z :=
  year_base y + before_month y (Z.to_nat m) + d.

Definition valid (y m d : Z) : Prop :=
  0 <= m < 12 /\ 1 <= d <= mdays y m.

(** Weekday of a day number, 0 (Monday) to 6 (Sunday): day 1 is a Monday. *)
Definition wday (n : Z) : Z := (n - 1) mod 7.

Lemma mlen_range m : 28 <= mlen m <= 31.
Proof. unfold mlen. repeat case_match; lia. Qed.

Lemma mdays_range y m : 28 <= mdays y m <= 31.
Proof.
  unfold mdays, mlen.
  destruct (Z.eqb_spec m 1) as [->|]; simpl; [destruct (leap y); lia|].
  case_match; lia.
Qed.

Lemma year_base_succ y : year_base (y + 1) = year_base y + ydays y.
Proof.
  unfold year_base, ydays, leap.
  replace (y + 1 - 1) with y by lia.
  rewrite (div_pred 4 y), (div_pred 100 y), (div_pred 400 y) by lia.
  assert (y mod 400 = 0 -> y mod 100 = 0 /\ y mod 4 = 0) by
    (Z.to_euclidean_division_equations; lia).
  assert (y mod 100 = 0 -> y mod 4 = 0) by
    (Z.to_euclidean_division_equations; lia).
  repeat case_match; lia.
Qed.

Lemma before_month_succ y m :
  0 <= m -> before_month y (Z.to_nat (m + 1)) = before_month y (Z.to_nat m) + mdays y m.
Proof.
  intros. rewrite Z2Nat.inj_add by lia. change (Z.to_nat 1) with 1%nat.
  rewrite Nat.add_1_r. simpl. by rewrite Z2Nat.id by lia.
Qed.

Lemma before_month_12 y : before_month y 12 = ydays y.
Proof. unfold ydays. simpl. unfold mdays, mlen. simpl. destruct (leap y); lia. Qed.

Lemma serial_succ_month y m d :
  0 <= m -> serial y (m + 1) d = serial y m d + mdays y m.
Proof. intros. unfold serial. rewrite before_month_succ by lia. lia. Qed.

Lemma serial_succ_year y d : serial (y + 1) 0 d = serial y 11 d + 31.
Proof.
  unfold serial. rewrite year_base_succ, <- before_month_12.
  change (before_month y 12) with (before_month y 11 + 31).
  change (Z.to_nat 0) with 0%nat. change (Z.to_nat 11) with 11%nat.
  change (before_month (y + 1) 0) with 0. lia.
Qed.

Lemma serial_day y m d k : serial y m (d + k) = serial y m d + k.
Proof. unfold serial. lia. Qed.

Lemma before_month_mono y (m n : nat) :
  (m <= n)%nat -> before_month y m + 28 * (Z.of_nat n - Z.of_nat m) <= before_month y n.
Proof.
  induction 1; [lia|]. simpl. pose proof (mdays_range y (Z.of_nat m0)). lia.
Qed.

Lemma before_month_bounds y m d :
  valid y m d -> 1 <= before_month y (Z.to_nat m) + d <= ydays y.
Proof.
  intros [Hm Hd]. split.
  - pose proof (before_month_mono y 0 (Z.to_nat m)). simpl in *. lia.
  - rewrite <- before_month_12.
    pose proof (before_month_mono y (Z.to_nat (m + 1)) 12).
    rewrite before_month_succ in * by lia. lia.
Qed.

Lemma ydays_range y : 365 <= ydays y <= 366.
Proof. unfold ydays. destruct (leap y); lia. Qed.

Lemma year_base_mono y y' : y < y' -> year_base y + ydays y <= year_base y'.
Proof.
  intros H. rewrite <- year_base_succ.
  unfold year_base. Z.to_euclidean_division_equations. lia.
Qed.

(** Day numbers order dates as the fields do, most significant first. *)
Lemma serial_lt_year y m d y' m' d' :
  valid y m d -> valid y' m' d' -> y < y' -> serial y m d < serial y' m' d'.
Proof.
  intros H H' Hy. apply before_month_bounds in H, H'.
  pose proof (year_base_mono y y' Hy). unfold serial. lia.
Qed.

Lemma serial_lt_month y m d m' d' :
  valid y m d -> valid y m' d' -> m < m' -> serial y m d < serial y m' d'.
Proof.
  intros [Hm Hd] [Hm' Hd'] Hlt. unfold serial.
  pose proof (before_month_mono y (Z.to_nat (m + 1)) (Z.to_nat m')).
  rewrite before_month_succ in * by lia. lia.
Qed.

Lemma serial_inj y m d y' m' d' :
  valid y m d -> valid y' m' d' -> serial y m d = serial y' m' d' ->
  y = y' /\ m = m' /\ d = d'.
Proof.
  intros H H' E.
  destruct (Z.lt_total y y') as [?|[<-|?]].
  - pose proof (serial_lt_year _ _ _ _ _ _ H H'). lia.
  - destruct (Z.lt_total m m') as [?|[<-|?]].
    + pose proof (serial_lt_month _ _ _ _ _ H H'). lia.
    + unfold serial in E. lia.
    + pose proof (serial_lt_month _ _ _ _ _ H' H). lia.
  - pose proof (serial_lt_year _ _ _ _ _ _ H' H). lia.
Qed.

Lemma wday_range n : 0 <= wday n < 7.
Proof. unfold wday. apply Z.mod_pos_bound. lia. Qed.

Lemma wday_add n k : wday (n + k) = (wday n + k) mod 7.
Proof. unfold wday. rewrite Zplus_mod_idemp_l. f_equal. lia. Qed.

End Gregorian.

(** ** The functions of [e-cal-time-util.c] *)

(** [static const int days_in_month[12]] *)
Definition days_in_month : list Z :=
  [31; 28; 31; 30; 31; 30; 31; 31; 30; 31; 30; 31].

Definition time_is_leap_year (year : Z) : bool :=
  if year <=? 1752 then Z.rem year 4 =? 0
  else ((Z.rem year 4 =? 0) && negb (Z.rem year 100 =? 0)) || (Z.rem year 400 =? 0).

(** The two [g_return_val_if_fail] guards return 0. *)
Definition time_days_in_month (year month : Z) : res Z :=
  if negb (1900 <=? year) then Ok 0
  else if negb ((0 <=? month) && (month <? 12)) then Ok 0
  else
    days ← arr_get days_in_month month;
    Ok (if (month =? 1) && time_is_leap_year year then days + 1 else days).

(** The [for] loop of [time_day_of_year], at index [i] with [n] rounds left. *)
Fixpoint day_of_year_loop (n : nat) (i day year : Z) : res Z :=
  match n with
  | O => Ok day
  | S n =>
      dm ← arr_get days_in_month i;
      let day := day + dm in
      let day := if (i =? 1) && time_is_leap_year year then day + 1 else day in
      day_of_year_loop n (i + 1) day year
  end.

Definition time_day_of_year (day month year : Z) : res Z :=
  day_of_year_loop (Z.to_nat month) 0 day year.

Definition time_leap_years_up_to (year : Z) : Z :=
  Z.quot year 4
  - (if 1700 <? year then Z.quot year 100 - 17 else 0)
  + (if 1600 <? year then Z.quot (year - 1600) 400 else 0).

Definition REFORMATION_DAY : Z := 639787.
Definition MISSING_DAYS : Z := 11.
Definition THURSDAY : Z := 4.
Definition SATURDAY : Z := 6.

Definition time_day_of_week (day month year : Z) : res Z :=
  doy ← time_day_of_year day month year;
  let n := (year - 1) * 365 + time_leap_years_up_to (year - 1) + doy in
  if n <? REFORMATION_DAY then Ok (Z.rem (n - 1 + SATURDAY) 7)
  else if REFORMATION_DAY + MISSING_DAYS <=? n
  then Ok (Z.rem (n - 1 + SATURDAY - MISSING_DAYS) 7)
  else Ok THURSDAY.

(** *** Relation to the reference calendar *)

Lemma arr_get_days_in_month m :
  0 <= m < 12 -> arr_get days_in_month m = Ok (Gregorian.mlen m).
Proof.
  intros H. assert (m = 0 \/ m = 1 \/ m = 2 \/ m = 3 \/ m = 4 \/ m = 5 \/ m = 6
    \/ m = 7 \/ m = 8 \/ m = 9 \/ m = 10 \/ m = 11) as Hm by lia.
  by repeat destruct Hm as [->|Hm]; [..|subst].
Qed.

Lemma time_is_leap_year_spec y :
  1752 < y -> time_is_leap_year y = Gregorian.leap y.
Proof.
  intros H. unfold time_is_leap_year, Gregorian.leap.
  rewrite !Z.rem_mod_nonneg by lia.
  destruct (Z.leb_spec y 1752); [lia|].
  assert (y mod 400 = 0 -> y mod 100 = 0 /\ y mod 4 = 0) by
    (Z.to_euclidean_division_equations; lia).
  lia.
Qed.

Lemma time_days_in_month_spec y m :
  1900 <= y -> 0 <= m < 12 ->
  time_days_in_month y m = Ok (Gregorian.mdays y m).
Proof.
  intros Hy Hm. unfold time_days_in_month, Gregorian.mdays.
  destruct (Z.leb_spec 1900 y); [|lia].
  destruct ((0 <=? m) && (m <? 12)) eqn:E; [|lia]. simpl.
  rewrite arr_get_days_in_month by lia. simpl.
  rewrite time_is_leap_year_spec by lia. case_match; f_equal; lia.
Qed.

Lemma time_days_in_month_total y m : exists k, time_days_in_month y m = Ok k.
Proof.
  unfold time_days_in_month.
  destruct (negb (1900 <=? y)); [by eauto|].
  destruct ((0 <=? m) && (m <? 12)) eqn:E; simpl; [|by eauto].
  rewrite arr_get_days_in_month by lia. simpl. eauto.
Qed.

Lemma day_of_year_loop_spec y (n : nat) i day :
  1752 < y -> 0 <= i -> i + Z.of_nat n <= 12 ->
  day_of_year_loop n i day y =
  Ok (day + Gregorian.before_month y (Z.to_nat (i + Z.of_nat n))
          - Gregorian.before_month y (Z.to_nat i)).
Proof.
  intros Hy. revert i day. induction n as [|n IH]; intros i day Hi Hn.
  - simpl. rewrite Z.add_0_r. f_equal. lia.
  - cbn [day_of_year_loop]. rewrite arr_get_days_in_month by lia.
    cbn [mbind res_bind]. rewrite time_is_leap_year_spec, IH by lia.
    rewrite Gregorian.before_month_succ by lia. unfold Gregorian.mdays.
    replace (i + 1 + Z.of_nat n) with (i + Z.of_nat (S n)) by lia.
    f_equal. case_match; lia.
Qed.

Lemma time_day_of_year_spec y m d :
  1752 < y -> 0 <= m < 12 ->
  time_day_of_year d m y = Ok (Gregorian.before_month y (Z.to_nat m) + d).
Proof.
  intros Hy Hm. unfold time_day_of_year.
  rewrite day_of_year_loop_spec by lia.
  rewrite Z2Nat.id by lia. change (Z.to_nat 0) with 0%nat. cbn [Gregorian.before_month].
  rewrite Z.add_0_l, Z.sub_0_r. f_equal. apply Z.add_comm.
Qed.

Lemma time_leap_years_spec y :
  1700 < y -> time_leap_years_up_to y = y / 4 - y / 100 + y / 400 + 13.
Proof.
  intros H. unfold time_leap_years_up_to.
  destruct (Z.ltb_spec 1700 y), (Z.ltb_spec 1600 y); try lia.
  rewrite !Z.quot_div_nonneg by lia.
  replace (y - 1600) with (y + (-4) * 400) by lia.
  rewrite Z.div_add by lia. lia.
Qed.

(** ** GLib's [GDate]

    [g_date_get_*] applied to a date set with [g_date_set_dmy]; months count
    from 1 (January), weekdays from 1 (Monday) to 7 (Sunday). *)
Class GDate := {
  g_date_get_julian : Z -> Z -> Z -> Z;       (* day month year *)
  g_date_get_weekday : Z -> Z -> Z -> Z;
  g_date_get_day_of_year : Z -> Z -> Z -> Z;
  g_date_is_leap_year : Z -> bool;
}.

(** The behaviour GLib documents for valid dates: the Julian day counts days
    from 1 January of year 1, the weekday is that of the proleptic Gregorian
    calendar, the day of the year starts at 1. *)
Class GDateLaws (G : GDate) : Prop := {
  g_date_julian_law y m d :
    1 <= y < 65536 -> Gregorian.valid y m d ->
    g_date_get_julian d (m + 1) y = Gregorian.serial y m d;
  g_date_weekday_law y m d :
    1 <= y < 65536 -> Gregorian.valid y m d ->
    g_date_get_weekday d (m + 1) y = Gregorian.wday (Gregorian.serial y m d) + 1;
  g_date_day_of_year_law y m d :
    1 <= y < 65536 -> Gregorian.valid y m d ->
    g_date_get_day_of_year d (m + 1) y = Gregorian.before_month y (Z.to_nat m) + d;
  g_date_leap_law y :
    1 <= y < 65536 -> g_date_is_leap_year y = Gregorian.leap y;
}.

Definition GDate_gregorian : GDate := {|
  g_date_get_julian d m y := Gregorian.serial y (m - 1) d;
  g_date_get_weekday d m y := Gregorian.wday (Gregorian.serial y (m - 1) d) + 1;
  g_date_get_day_of_year d m y := Gregorian.before_month y (Z.to_nat (m - 1)) + d;
  g_date_is_leap_year y := Gregorian.leap y;
|}.

#[export] Instance GDate_gregorian_laws : GDateLaws GDate_gregorian.
Proof.
  split; intros; simpl; rewrite ?Z.add_simpl_r; reflexivity.
Qed.

(** ** Properties *)

(** [time_day_of_week] *)
Theorem time_day_of_week_spec (y m d : Z) (Hy : 1753 <= y)
    (Hv : Gregorian.valid y m d) :
  time_day_of_week d m y = Ok (Gregorian.serial y m d mod 7).
Proof.
  pose proof (Gregorian.before_month_bounds _ _ _ Hv) as Hb. destruct Hv as [Hm Hd].
  unfold time_day_of_week, REFORMATION_DAY, MISSING_DAYS, SATURDAY.
  rewrite time_day_of_year_spec by lia. cbn [mbind res_bind].
  rewrite time_leap_years_spec by lia.
  unfold Gregorian.serial, Gregorian.year_base.
  set (b := Gregorian.before_month y (Z.to_nat m)) in *.
  assert (639798 <= (y - 1) * 365 + ((y - 1) / 4 - (y - 1) / 100 + (y - 1) / 400 + 13) + (b + d))
    by (Z.to_euclidean_division_equations; lia).
  repeat case_match; try lia.
  rewrite Z.rem_mod_nonneg by lia. f_equal.
  match goal with |- ?x mod 7 = ?y mod 7 => replace x with (y + 1 * 7) by lia end.
  apply Z_mod_plus_full.
Qed.

Lemma time_day_of_week_spec_witness :
  Gregorian.valid 2000 1 29 /\ time_day_of_week 29 1 2000 = Ok 2.
Proof.
  assert (Gregorian.valid 2000 1 29) as Hv by (vm_compute; repeat split; discriminate).
  split; [exact Hv|]. rewrite (time_day_of_week_spec 2000 1 29); [reflexivity|lia|exact Hv].
Defined.

(** ** Days of an interval that fall on a weekday *)
Module Weekdays.

(** The day numbers from [lo] on, [len] of them, that fall on [wd]. *)
Definition on_weekday (lo len wd : Z) : list Z :=
  filter (fun n => Gregorian.wday n = wd) (seqZ lo len).

(** Days from [lo] to the first [wd]. *)
Definition first_offset (lo wd : Z) : Z := (wd - Gregorian.wday lo) mod 7.

Definition count (lo len wd : Z) : Z := (len - first_offset lo wd + 6) / 7.

(** BYDAY's selection: all of them for 0, the [n]-th, or the [-n]-th from
    the end. *)
Definition nth_weekday (lo len wd n : Z) : list Z :=
  let days := on_weekday lo len wd in
  if n =? 0 then days
  else if 0 <? n then option_list (days !! Z.to_nat (n - 1))
  else option_list (reverse days !! Z.to_nat (- n - 1)).

Lemma first_offset_range lo wd : 0 <= first_offset lo wd < 7.
Proof. apply Z.mod_pos_bound. lia. Qed.

Lemma wday_offset lo wd i :
  0 <= wd < 7 ->
  Gregorian.wday (lo + i) = wd <-> (i - first_offset lo wd) mod 7 = 0.
Proof.
  intros Hwd. pose proof (Gregorian.wday_range lo).
  unfold first_offset. rewrite Gregorian.wday_add, Zminus_mod_idemp_r.
  set (w := Gregorian.wday lo) in *. Z.to_euclidean_division_equations. lia.
Qed.

Lemma on_weekday_progression lo len wd :
  0 <= wd < 7 -> 0 <= len ->
  on_weekday lo len wd =
  (fun i => lo + first_offset lo wd + 7 * i) <$> seqZ 0 (count lo len wd).
Proof.
  intros Hwd Hlen. unfold count. pose proof (first_offset_range lo wd) as Hk.
  set (k := first_offset lo wd) in *.
  pattern len; apply natlike_ind; [| |exact Hlen]; clear Hlen len.
  - assert ((0 - k + 6) / 7 = 0) as -> by (Z.to_euclidean_division_equations; lia).
    reflexivity.
  - intros len Hlen IH. unfold on_weekday in *. unfold Z.succ.
    rewrite seqZ_app, filter_app, IH by lia.
    pose proof (wday_offset lo wd len Hwd) as Hw. fold k in Hw.
    rewrite seqZ_1.
    rewrite filter_cons, filter_nil. case_decide as Hd.
    + apply Hw in Hd.
      assert ((len + 1 - k + 6) / 7 = (len - k + 6) / 7 + 1) as ->
        by (Z.to_euclidean_division_equations; lia).
      rewrite seqZ_app, fmap_app by (Z.to_euclidean_division_equations; lia).
      f_equal. rewrite seqZ_1. simpl. f_equal. Z.to_euclidean_division_equations; lia.
    + assert ((len + 1 - k + 6) / 7 = (len - k + 6) / 7) as ->.
      { assert ((len - k) mod 7 <> 0) by tauto. Z.to_euclidean_division_equations; lia. }
      by rewrite app_nil_r.
Qed.

Lemma on_weekday_lookup lo len wd i :
  0 <= wd < 7 -> 0 <= len -> 0 <= i ->
  on_weekday lo len wd !! Z.to_nat i =
  if i <? count lo len wd then Some (lo + first_offset lo wd + 7 * i) else None.
Proof.
  intros Hwd Hlen Hi. rewrite on_weekday_progression by lia.
  rewrite list_lookup_fmap. destruct (Z.ltb_spec i (count lo len wd)).
  - rewrite lookup_seqZ_lt by lia. simpl. f_equal. lia.
  - rewrite lookup_seqZ_ge by lia. done.
Qed.

Lemma count_range lo len wd : 0 <= wd < 7 -> 0 <= len -> 0 <= count lo len wd.
Proof.
  intros. unfold count. pose proof (first_offset_range lo wd).
  Z.to_euclidean_division_equations; lia.
Qed.

Lemma on_weekday_length lo len wd :
  0 <= wd < 7 -> 0 <= len -> Z.of_nat (length (on_weekday lo len wd)) = count lo len wd.
Proof.
  intros. pose proof (count_range lo len wd).
  rewrite on_weekday_progression, length_fmap, length_seqZ by lia. lia.
Qed.

(** Selection by position, in closed form. *)
Lemma nth_weekday_pos lo len wd n :
  0 <= wd < 7 -> 0 <= len -> 0 < n ->
  nth_weekday lo len wd n =
  let s := lo + first_offset lo wd + 7 * (n - 1) in
  if s <? lo + len then [s] else [].
Proof.
  intros. unfold nth_weekday. destruct (Z.eqb_spec n 0), (Z.ltb_spec 0 n); try lia.
  rewrite on_weekday_lookup by lia. cbv zeta. unfold count.
  pose proof (first_offset_range lo wd).
  destruct (Z.ltb_spec (n - 1) ((len - first_offset lo wd + 6) / 7)),
    (Z.ltb_spec (lo + first_offset lo wd + 7 * (n - 1)) (lo + len)); try done;
    Z.to_euclidean_division_equations; lia.
Qed.

Lemma nth_weekday_neg lo len wd n :
  0 <= wd < 7 -> 0 <= len -> n < 0 ->
  nth_weekday lo len wd n =
  let s := lo + len - 1 - ((Gregorian.wday (lo + len - 1) - wd) mod 7) - 7 * (- n - 1) in
  if lo <=? s then [s] else [].
Proof.
  intros Hwd Hlen Hn. unfold nth_weekday.
  destruct (Z.eqb_spec n 0), (Z.ltb_spec 0 n); try lia.
  pose proof (on_weekday_length lo len wd Hwd Hlen) as Hl.
  pose proof (first_offset_range lo wd) as Hk.
  assert ((Gregorian.wday (lo + len - 1) - wd) mod 7 = (len - 1 - first_offset lo wd) mod 7) as ->.
  { replace (lo + len - 1) with (lo + (len - 1)) by lia. rewrite Gregorian.wday_add.
    unfold first_offset. rewrite Zminus_mod_idemp_l, Zminus_mod_idemp_r. f_equal. lia. }
  assert (count lo len wd = (len - first_offset lo wd + 6) / 7) as Hc by done.
  remember (first_offset lo wd) as k eqn:Ek.
  destruct (Z.ltb_spec (- n - 1) (count lo len wd)) as [Hlt|Hge].
  - rewrite reverse_lookup by lia.
    replace (length (on_weekday lo len wd) - S (Z.to_nat (- n - 1)))%nat
      with (Z.to_nat (count lo len wd - 1 - (- n - 1))) by lia.
    rewrite on_weekday_lookup by lia. rewrite <- Ek. cbv zeta.
    destruct (Z.ltb_spec (count lo len wd - 1 - (- n - 1)) (count lo len wd)); [|lia].
    rewrite Hc in *.
    destruct (Z.leb_spec lo (lo + len - 1 - (len - 1 - k) mod 7 - 7 * (- n - 1))).
    + simpl. f_equal. Z.to_euclidean_division_equations; lia.
    + exfalso. Z.to_euclidean_division_equations; lia.
  - rewrite lookup_ge_None_2 by (rewrite length_reverse; lia). cbv zeta.
    rewrite Hc in *.
    destruct (Z.leb_spec lo (lo + len - 1 - (len - 1 - k) mod 7 - 7 * (- n - 1))); [|done].
    exfalso. Z.to_euclidean_division_equations; lia.
Qed.

End Weekdays.
