(* ===== verification/CalObjTime.v ===== *)
(** * [CalObjTime]: the broken-down times of [e-cal-recur.c]

    The struct with its field widths, the comparison functions, the
    [cal_obj_time_add_*] functions and the weekday helpers, with the proofs
    that they implement arithmetic on a line of seconds. *)

From S2P Require Import Prelude CalTimeUtil.

(** ** The struct.  The setters wrap as a C store into the field does. *)
Record CalObjTime := mkCalObjTime {
  co_year : Z;      (* guint16 *)
  co_month : Z;     (* guint8, 0 - 11 *)
  co_day : Z;       (* guint8, 1 - 31 *)
  co_hour : Z;      (* guint8 *)
  co_minute : Z;    (* guint8 *)
  co_second : Z;    (* guint8 *)
  co_flags : bool;  (* guint8, only TRUE or FALSE is stored *)
}.

#[export] Instance CalObjTime_eq_dec : EqDecision CalObjTime.
Proof. solve_decision. Defined.

Definition set_year (y : Z) (c : CalObjTime) : CalObjTime :=
  mkCalObjTime (u16 y) (co_month c) (co_day c) (co_hour c) (co_minute c) (co_second c) (co_flags c).
Definition set_month (m : Z) (c : CalObjTime) : CalObjTime :=
  mkCalObjTime (co_year c) (u8 m) (co_day c) (co_hour c) (co_minute c) (co_second c) (co_flags c).
Definition set_day (d : Z) (c : CalObjTime) : CalObjTime :=
  mkCalObjTime (co_year c) (co_month c) (u8 d) (co_hour c) (co_minute c) (co_second c) (co_flags c).
Definition set_hour (h : Z) (c : CalObjTime) : CalObjTime :=
  mkCalObjTime (co_year c) (co_month c) (co_day c) (u8 h) (co_minute c) (co_second c) (co_flags c).
Definition set_minute (m : Z) (c : CalObjTime) : CalObjTime :=
  mkCalObjTime (co_year c) (co_month c) (co_day c) (co_hour c) (u8 m) (co_second c) (co_flags c).
Definition set_second (s : Z) (c : CalObjTime) : CalObjTime :=
  mkCalObjTime (co_year c) (co_month c) (co_day c) (co_hour c) (co_minute c) (u8 s) (co_flags c).
Definition set_flags (f : bool) (c : CalObjTime) : CalObjTime :=
  mkCalObjTime (co_year c) (co_month c) (co_day c) (co_hour c) (co_minute c) (co_second c) f.

Inductive CalObjTimeComparison :=
  | CALOBJ_YEAR | CALOBJ_MONTH | CALOBJ_DAY | CALOBJ_HOUR | CALOBJ_MINUTE | CALOBJ_SECOND.

#[export] Instance CalObjTimeComparison_eq_dec : EqDecision CalObjTimeComparison.
Proof. solve_decision. Defined.

(** ** Comparison *)

Definition cal_obj_time_compare (cotime1 cotime2 : CalObjTime)
    (type : CalObjTimeComparison) : Z :=
  if co_year cotime1 <? co_year cotime2 then -1
  else if co_year cotime2 <? co_year cotime1 then 1
  else if decide (type = CALOBJ_YEAR) then 0
  else if co_month cotime1 <? co_month cotime2 then -1
  else if co_month cotime2 <? co_month cotime1 then 1
  else if decide (type = CALOBJ_MONTH) then 0
  else if co_day cotime1 <? co_day cotime2 then -1
  else if co_day cotime2 <? co_day cotime1 then 1
  else if decide (type = CALOBJ_DAY) then 0
  else if co_hour cotime1 <? co_hour cotime2 then -1
  else if co_hour cotime2 <? co_hour cotime1 then 1
  else if decide (type = CALOBJ_HOUR) then 0
  else if co_minute cotime1 <? co_minute cotime2 then -1
  else if co_minute cotime2 <? co_minute cotime1 then 1
  else if decide (type = CALOBJ_MINUTE) then 0
  else if co_second cotime1 <? co_second cotime2 then -1
  else if co_second cotime2 <? co_second cotime1 then 1
  else 0.

Definition cal_obj_time_compare_func (cotime1 cotime2 : CalObjTime) : Z :=
  if co_year cotime1 <? co_year cotime2 then -1
  else if co_year cotime2 <? co_year cotime1 then 1
  else if co_month cotime1 <? co_month cotime2 then -1
  else if co_month cotime2 <? co_month cotime1 then 1
  else if co_day cotime1 <? co_day cotime2 then -1
  else if co_day cotime2 <? co_day cotime1 then 1
  else if co_hour cotime1 <? co_hour cotime2 then -1
  else if co_hour cotime2 <? co_hour cotime1 then 1
  else if co_minute cotime1 <? co_minute cotime2 then -1
  else if co_minute cotime2 <? co_minute cotime1 then 1
  else if co_second cotime1 <? co_second cotime2 then -1
  else if co_second cotime2 <? co_second cotime1 then 1
  else 0.

Definition cal_obj_date_only_compare_func (cotime1 cotime2 : CalObjTime) : Z :=
  if co_year cotime1 <? co_year cotime2 then -1
  else if co_year cotime2 <? co_year cotime1 then 1
  else if co_month cotime1 <? co_month cotime2 then -1
  else if co_month cotime2 <? co_month cotime1 then 1
  else if co_day cotime1 <? co_day cotime2 then -1
  else if co_day cotime2 <? co_day cotime1 then 1
  else 0.

(** ** Arithmetic *)

(** The sums of a field and the argument are [int] sums: an overflow is undefined. *)
Definition cal_obj_time_add_months (cotime : CalObjTime) (months : Z) : res CalObjTime :=
  month ← checked_int (co_month cotime + months);
  let month := u32 month in
  let cotime := set_month (month mod 12) cotime in
  Ok (if 0 <? month then set_year (co_year cotime + month / 12) cotime
  else
    let years := month / 12 in
    if negb (co_month cotime =? 0) then
      let cotime := set_month (co_month cotime + 12) cotime in
      set_year (co_year cotime + u32 (years - 1)) cotime
    else set_year (co_year cotime + years) cotime).

(** The [for (;;)] loop for [days >= 0]; the result is the time, with its
    month and year updated, and the final value of the local [day]. *)
Fixpoint add_days_forward (fuel : nat) (cotime : CalObjTime) (day : Z) : res (CalObjTime * Z) :=
  match fuel with
  | O => NoFuel
  | S fuel =>
      dim ← time_days_in_month (co_year cotime) (co_month cotime);
      if day <=? dim then Ok (cotime, day)
      else
        let cotime := set_month (co_month cotime + 1) cotime in
        let cotime :=
          if 12 <=? co_month cotime
          then set_month 0 (set_year (co_year cotime + 1) cotime)
          else cotime in
        add_days_forward fuel cotime (day - dim)
  end.

(** The [while (day <= 0)] loop for [days < 0]. *)
Fixpoint add_days_backward (fuel : nat) (cotime : CalObjTime) (day : Z) : res (CalObjTime * Z) :=
  match fuel with
  | O => NoFuel
  | S fuel =>
      if day <=? 0 then
        let cotime :=
          if co_month cotime =? 0
          then set_month 11 (set_year (co_year cotime - 1) cotime)
          else set_month (co_month cotime - 1) cotime in
        dim ← time_days_in_month (co_year cotime) (co_month cotime);
        add_days_backward fuel cotime (day + dim)
      else Ok (cotime, day)
  end.

(** Every round moves [day] by a month length, except in the years before
    1900, where [time_days_in_month] is 0: those are at most 22800 rounds. *)
Definition add_days_fuel (day : Z) : nat := Z.to_nat (Z.abs day + 22900).

Definition cal_obj_time_add_days (cotime : CalObjTime) (days : Z) : res CalObjTime :=
  day ← checked_int (co_day cotime + days);
  if 0 <=? days then
    '(cotime, day) ← add_days_forward (add_days_fuel day) cotime day;
    Ok (set_day day cotime)
  else
    '(cotime, day) ← add_days_backward (add_days_fuel day) cotime day;
    Ok (set_day day cotime).

Definition cal_obj_time_add_hours (cotime : CalObjTime) (hours : Z) : res CalObjTime :=
  hour ← checked_int (co_hour cotime + hours);
  let cotime := set_hour (Z.rem hour 24) cotime in
  if 0 <=? hour then
    if 24 <=? hour then cal_obj_time_add_days cotime (Z.quot hour 24) else Ok cotime
  else
    let days := Z.quot hour 24 in
    if negb (co_hour cotime =? 0)
    then cal_obj_time_add_days (set_hour (co_hour cotime + 24) cotime) (days - 1)
    else cal_obj_time_add_days cotime days.

Definition cal_obj_time_add_minutes (cotime : CalObjTime) (minutes : Z) : res CalObjTime :=
  minute ← checked_int (co_minute cotime + minutes);
  let cotime := set_minute (Z.rem minute 60) cotime in
  if 0 <=? minute then
    if 60 <=? minute then cal_obj_time_add_hours cotime (Z.quot minute 60) else Ok cotime
  else
    let hours := Z.quot minute 60 in
    if negb (co_minute cotime =? 0)
    then cal_obj_time_add_hours (set_minute (co_minute cotime + 60) cotime) (hours - 1)
    else cal_obj_time_add_hours cotime hours.

Definition cal_obj_time_add_seconds (cotime : CalObjTime) (seconds : Z) : res CalObjTime :=
  second ← checked_int (co_second cotime + seconds);
  let cotime := set_second (Z.rem second 60) cotime in
  if 0 <=? second then
    if 60 <=? second then cal_obj_time_add_minutes cotime (Z.quot second 60) else Ok cotime
  else
    let minutes := Z.quot second 60 in
    if negb (co_second cotime =? 0)
    then cal_obj_time_add_minutes (set_second (co_second cotime + 60) cotime) (minutes - 1)
    else cal_obj_time_add_minutes cotime minutes.

#[global] Arguments add_days_fuel : simpl never.

(** ** Weekdays, through [GDate] *)
Section weekdays.
Context {G : GDate}.

Definition cal_obj_time_weekday (cotime : CalObjTime) : Z :=
  g_date_get_weekday (co_day cotime) (co_month cotime + 1) (co_year cotime) - 1.

(** [week_start_day] is [recur->week_start_day]. *)
Definition cal_obj_time_weekday_offset (cotime : CalObjTime) (week_start_day : Z) : Z :=
  let weekday :=
    g_date_get_weekday (co_day cotime) (co_month cotime + 1) (co_year cotime) - 1 in
  Z.rem (weekday + 7 - week_start_day) 7.

Definition cal_obj_time_day_of_year (cotime : CalObjTime) : Z :=
  g_date_get_day_of_year (co_day cotime) (co_month cotime + 1) (co_year cotime).

(** [week_start_day] and [weekday_offset] are those of the [RecurData]. *)
Definition cal_obj_time_find_first_week (cotime : CalObjTime)
    (week_start_day weekday_offset : Z) : res CalObjTime :=
  let weekday := g_date_get_weekday 1 1 (co_year cotime) - 1 in
  let first_full_week_start_offset := Z.rem (week_start_day + 7 - weekday) 7 in
  let first_full_week_start_offset :=
    if 4 <=? first_full_week_start_offset
    then first_full_week_start_offset - 7 else first_full_week_start_offset in
  let offset := first_full_week_start_offset + weekday_offset in
  cal_obj_time_add_days (set_day 1 (set_month 0 cotime)) offset.

(** The pair is ([*days], [*seconds]). *)
Definition cal_object_compute_duration (start end_ : CalObjTime) : Z * Z :=
  let days :=
    g_date_get_julian (co_day end_) (co_month end_ + 1) (co_year end_)
    - g_date_get_julian (co_day start) (co_month start + 1) (co_year start) in
  let start_seconds := co_hour start * 3600 + co_minute start * 60 + co_second start in
  let end_seconds := co_hour end_ * 3600 + co_minute end_ * 60 + co_second end_ in
  let seconds := end_seconds - start_seconds in
  if seconds <? 0 then (days - 1, seconds + 24 * 60 * 60) else (days, seconds).
End weekdays.

(** ** Well-formed times and their position on the time line *)

(** The fields are in the range of their C types. *)
Definition fields_ok (c : CalObjTime) : Prop :=
  0 <= co_year c < 65536 /\ 0 <= co_month c < 256 /\ 0 <= co_day c < 256 /\
  0 <= co_hour c < 256 /\ 0 <= co_minute c < 256 /\ 0 <= co_second c < 256.

(** The years for which [time_days_in_month] is meaningful. *)
Definition date_ok (c : CalObjTime) : Prop :=
  1900 <= co_year c < 65536 /\ Gregorian.valid (co_year c) (co_month c) (co_day c).

Definition clock_ok (c : CalObjTime) : Prop :=
  0 <= co_hour c < 24 /\ 0 <= co_minute c < 60 /\ 0 <= co_second c < 60.

Definition time_ok (c : CalObjTime) : Prop := date_ok c /\ clock_ok c.

Definition serial (c : CalObjTime) : Z :=
  Gregorian.serial (co_year c) (co_month c) (co_day c).

Definition clock (c : CalObjTime) : Z :=
  co_hour c * 3600 + co_minute c * 60 + co_second c.

(** Seconds since the start of the day before 1 January of year 1. *)
Definition timeline (c : CalObjTime) : Z := serial c * 86400 + clock c.

(** The day numbers the code can reach: 1 January 1900 to 31 December 65535. *)
Definition serial_in_range (n : Z) : Prop :=
  Gregorian.year_base 1900 < n <= Gregorian.year_base 65536.

Definition same_clock (c c' : CalObjTime) : Prop :=
  co_hour c' = co_hour c /\ co_minute c' = co_minute c /\
  co_second c' = co_second c /\ co_flags c' = co_flags c.

(** ** [cal_obj_time_add_days] *)

Definition month_ok (c : CalObjTime) : Prop :=
  1900 <= co_year c < 65536 /\ 0 <= co_month c < 12.

(** Day number of the last day before the month of [c]. *)
Definition mserial (c : CalObjTime) : Z :=
  Gregorian.serial (co_year c) (co_month c) 0.

Definition next_month (c : CalObjTime) : CalObjTime :=
  let c := set_month (co_month c + 1) c in
  if 12 <=? co_month c then set_month 0 (set_year (co_year c + 1) c) else c.

Definition prev_month (c : CalObjTime) : CalObjTime :=
  if co_month c =? 0 then set_month 11 (set_year (co_year c - 1) c)
  else set_month (co_month c - 1) c.

Lemma serial_mserial c : serial c = mserial c + co_day c.
Proof. unfold serial, mserial. rewrite <- Gregorian.serial_day. f_equal. Qed.

Lemma next_month_spec c :
  month_ok c ->
  mserial c + Gregorian.mdays (co_year c) (co_month c) < Gregorian.year_base 65536 ->
  month_ok (next_month c) /\ same_clock c (next_month c) /\
  mserial (next_month c) = mserial c + Gregorian.mdays (co_year c) (co_month c).
Proof.
  intros [Hy Hm] Hb. unfold next_month. simpl. rewrite u8_small by lia.
  destruct (Z.leb_spec 12 (co_month c + 1)) as [H|H].
  - assert (co_month c = 11) as E by lia.
    unfold mserial in Hb. rewrite E in Hb.
    assert (co_year c <> 65535).
    { intros Ey. rewrite Ey in Hb. vm_compute in Hb. discriminate. }
    unfold month_ok, mserial, same_clock. simpl. rewrite u16_small by lia.
    change (u8 0) with 0. rewrite Gregorian.serial_succ_year, E.
    change (Gregorian.mdays (co_year c) 11) with 31. repeat split; lia.
  - unfold month_ok, mserial, same_clock. simpl. rewrite u8_small by lia.
    rewrite Gregorian.serial_succ_month by lia. repeat split; lia.
Qed.

Lemma prev_month_spec c :
  month_ok c -> Gregorian.year_base 1900 < mserial c ->
  month_ok (prev_month c) /\ same_clock c (prev_month c) /\
  mserial c = mserial (prev_month c)
              + Gregorian.mdays (co_year (prev_month c)) (co_month (prev_month c)).
Proof.
  intros [Hy Hm] Hb. unfold prev_month.
  destruct (Z.eqb_spec (co_month c) 0) as [E|E].
  - assert (co_year c <> 1900).
    { intros Ey. unfold mserial in Hb. rewrite Ey, E in Hb. vm_compute in Hb. discriminate. }
    unfold month_ok, mserial, same_clock. simpl. rewrite u16_small by lia.
    change (u8 11) with 11. rewrite E.
    change (Gregorian.mdays (co_year c - 1) 11) with 31.
    rewrite <- Gregorian.serial_succ_year. rewrite Z.sub_add. repeat split; lia.
  - unfold month_ok, mserial, same_clock. simpl. rewrite u8_small by lia.
    rewrite <- Gregorian.serial_succ_month by lia. rewrite Z.sub_add. repeat split; lia.
Qed.

Lemma same_clock_trans c1 c2 c3 : same_clock c1 c2 -> same_clock c2 c3 -> same_clock c1 c3.
Proof. unfold same_clock. intros (?&?&?&?) (?&?&?&?). repeat split; congruence. Qed.

Lemma add_days_forward_spec fuel c day :
  month_ok c -> 1 <= day -> mserial c + day <= Gregorian.year_base 65536 ->
  day < Z.of_nat fuel ->
  exists c' day', add_days_forward fuel c day = Ok (c', day') /\
    month_ok c' /\ same_clock c c' /\ mserial c' + day' = mserial c + day /\
    1 <= day' <= Gregorian.mdays (co_year c') (co_month c').
Proof.
  revert c day. induction fuel as [|fuel IH]; intros c day Hc Hd Hb Hf; [lia|].
  cbn [add_days_forward]. rewrite time_days_in_month_spec by apply Hc.
  rewrite res_bind_Ok. pose proof (Gregorian.mdays_range (co_year c) (co_month c)).
  destruct (Z.leb_spec day (Gregorian.mdays (co_year c) (co_month c))).
  - exists c, day. unfold same_clock. repeat split; (done || apply Hc || lia).
  - fold (next_month c).
    destruct (next_month_spec c Hc) as (Hn & Hs & Hm); [lia|].
    destruct (IH (next_month c) (day - Gregorian.mdays (co_year c) (co_month c)) Hn)
      as (c' & d' & E & Hok & Hs' & Hser & Hd'); try lia.
    exists c', d'. split; [exact E|]. split; [exact Hok|].
    split; [by eapply same_clock_trans|]. split; [lia|exact Hd'].
Qed.

Lemma add_days_backward_spec fuel c day :
  month_ok c -> day <= 31 -> (day <= 0 \/ day <= Gregorian.mdays (co_year c) (co_month c)) ->
  Gregorian.year_base 1900 < mserial c + day -> 2 - day <= Z.of_nat fuel ->
  (1 <= Z.of_nat fuel)%Z ->
  exists c' day', add_days_backward fuel c day = Ok (c', day') /\
    month_ok c' /\ same_clock c c' /\ mserial c' + day' = mserial c + day /\
    1 <= day' <= Gregorian.mdays (co_year c') (co_month c').
Proof.
  revert c day. induction fuel as [|fuel IH]; intros c day Hc Hd Hd2 Hb Hf Hf1; [lia|].
  cbn [add_days_backward].
  destruct (Z.leb_spec day 0).
  - fold (prev_month c). destruct (prev_month_spec c Hc) as (Hn & Hs & Hm); [lia|].
    rewrite time_days_in_month_spec by apply Hn. rewrite res_bind_Ok.
    pose proof (Gregorian.mdays_range (co_year (prev_month c)) (co_month (prev_month c))).
    destruct (IH (prev_month c)
      (day + Gregorian.mdays (co_year (prev_month c)) (co_month (prev_month c))) Hn)
      as (c' & d' & E & Hok & Hs' & Hser & Hd'); try lia.
    exists c', d'. split; [exact E|]. split; [exact Hok|].
    split; [by eapply same_clock_trans|]. split; [lia|exact Hd'].
  - exists c, day. unfold same_clock. repeat split; (done || apply Hc || lia).
Qed.

(** Every date is in the range, so that the [int] sums of days and hours never
    overflow when the result is in the range too. *)
Lemma date_serial_in_range c : date_ok c -> serial_in_range (serial c).
Proof.
  intros [Hy Hv]. pose proof (Gregorian.before_month_bounds _ _ _ Hv).
  unfold serial_in_range, serial, Gregorian.serial.
  pose proof (Gregorian.year_base_mono (co_year c) 65536).
  destruct (Z.eq_dec (co_year c) 1900) as [Ey|];
    [rewrite Ey in *|pose proof (Gregorian.year_base_mono 1900 (co_year c));
      pose proof (Gregorian.ydays_range 1900)]; lia.
Qed.

Lemma serial_in_range_values n : serial_in_range n -> 693595 < n <= 23936166.
Proof.
  unfold serial_in_range. assert (Gregorian.year_base 1900 = 693595) as -> by reflexivity.
  by assert (Gregorian.year_base 65536 = 23936166) as -> by reflexivity.
Qed.

Lemma add_days_spec c days :
  date_ok c -> serial_in_range (serial c + days) ->
  exists c', cal_obj_time_add_days c days = Ok c' /\ date_ok c' /\
    same_clock c c' /\ serial c' = serial c + days.
Proof.
  intros Hdate Hr. pose proof (serial_in_range_values _ Hr).
  pose proof (serial_in_range_values _ (date_serial_in_range c Hdate)).
  destruct Hdate as [Hy [Hm Hd]], Hr as [Hlo Hhi]. pose proof (Gregorian.mdays_range (co_year c) (co_month c)).
  assert (checked_int (co_day c + days) = Ok (co_day c + days)) as Esum by (apply checked_int_Ok; lia).
  rewrite serial_mserial in Hlo, Hhi.
  assert (month_ok c) as Hc by (split; lia).
  assert (exists c' day', (if 0 <=? days
      then add_days_forward (add_days_fuel (co_day c + days)) c (co_day c + days)
      else add_days_backward (add_days_fuel (co_day c + days)) c (co_day c + days)) = Ok (c', day') /\
    month_ok c' /\ same_clock c c' /\ mserial c' + day' = mserial c + (co_day c + days) /\
    1 <= day' <= Gregorian.mdays (co_year c') (co_month c')) as (c' & d' & E & Hok & Hs & Hser & Hd').
  { unfold add_days_fuel. destruct (Z.leb_spec 0 days).
    - apply add_days_forward_spec; (done || lia).
    - apply add_days_backward_spec; (done || lia). }
  exists (set_day d' c'). unfold cal_obj_time_add_days. rewrite Esum, res_bind_Ok.
  pose proof (Gregorian.mdays_range (co_year c') (co_month c')).
  assert (co_day (set_day d' c') = d') as Eday by (simpl; apply u8_small; lia).
  split; [|split; [|split]].
  - destruct (0 <=? days); rewrite E; reflexivity.
  - destruct Hok. unfold date_ok, Gregorian.valid. rewrite Eday. simpl. lia.
  - exact Hs.
  - rewrite !serial_mserial, Eday. unfold mserial in *. simpl. lia.
Qed.

(** ** Hours, minutes and seconds *)

Lemma add_days_0 c : date_ok c -> cal_obj_time_add_days c 0 = Ok c.
Proof.
  intros [Hy [Hm Hd]]. pose proof (Gregorian.mdays_range (co_year c) (co_month c)).
  unfold cal_obj_time_add_days. rewrite Z.add_0_r, checked_int_Ok, res_bind_Ok by lia.
  change (0 <=? 0) with true. cbn iota.
  unfold add_days_fuel.
  assert (exists n, Z.to_nat (Z.abs (co_day c) + 22900) = S n) as [n ->].
  { exists (Z.to_nat (Z.abs (co_day c) + 22899)). lia. }
  cbn [add_days_forward]. rewrite time_days_in_month_spec by lia. rewrite res_bind_Ok.
  destruct (Z.leb_spec (co_day c) (Gregorian.mdays (co_year c) (co_month c))); [|lia].
  destruct c; simpl in *. unfold set_day; simpl. rewrite u8_small by lia. reflexivity.
Qed.

(** The three functions carry into the next unit by flooring division. *)
Lemma add_hours_carry c hours :
  date_ok c ->
  - 2 ^ 31 <= co_hour c + hours < 2 ^ 31 ->
  cal_obj_time_add_hours c hours =
  cal_obj_time_add_days (set_hour ((co_hour c + hours) mod 24) c) ((co_hour c + hours) / 24).
Proof.
  intros Hd Hx. unfold cal_obj_time_add_hours. rewrite checked_int_Ok, res_bind_Ok by done.
  set (x := co_hour c + hours).
  destruct (Z.leb_spec 0 x).
  - destruct (carry_nonneg 24 x) as [E1 E2]; [lia..|].
    assert (set_hour (Z.rem x 24) c = set_hour (x mod 24) c) as ->.
    { unfold set_hour. rewrite E1, u8_small; [done|]. pose proof (Z.mod_pos_bound x 24). lia. }
    rewrite E2. destruct (Z.leb_spec 24 x); [done|].
    rewrite (Z.div_small x 24) by lia. by rewrite add_days_0.
  - pose proof (carry_neg 24 x) as Hc. simpl co_hour.
    destruct (Z.eqb_spec (u8 (Z.rem x 24)) 0) as [E|E]; simpl.
    + destruct Hc as [E1 E2]; [lia..|]. rewrite E2, <- E1. unfold set_hour. by rewrite E.
    + destruct Hc as [E1 E2]; [lia..|]. rewrite E2. unfold set_hour; simpl.
      rewrite E1, (u8_small (x mod 24)); [done|]. pose proof (Z.mod_pos_bound x 24). lia.
Qed.

Lemma add_hours_0 c : date_ok c -> 0 <= co_hour c < 24 -> cal_obj_time_add_hours c 0 = Ok c.
Proof.
  intros Hd Hh. rewrite add_hours_carry, Z.add_0_r, Z.div_small, Z.mod_small by (done || lia).
  rewrite add_days_0 by done. destruct c; unfold set_hour; simpl in *. by rewrite u8_small by lia.
Qed.

Lemma add_minutes_carry c minutes :
  date_ok c -> 0 <= co_hour c < 24 ->
  - 2 ^ 31 <= co_minute c + minutes < 2 ^ 31 ->
  cal_obj_time_add_minutes c minutes =
  cal_obj_time_add_hours (set_minute ((co_minute c + minutes) mod 60) c)
    ((co_minute c + minutes) / 60).
Proof.
  intros Hd Hh Hx. unfold cal_obj_time_add_minutes. rewrite checked_int_Ok, res_bind_Ok by done.
  set (x := co_minute c + minutes).
  destruct (Z.leb_spec 0 x).
  - destruct (carry_nonneg 60 x) as [E1 E2]; [lia..|].
    assert (set_minute (Z.rem x 60) c = set_minute (x mod 60) c) as ->.
    { unfold set_minute. rewrite E1, u8_small; [done|]. pose proof (Z.mod_pos_bound x 60). lia. }
    rewrite E2. destruct (Z.leb_spec 60 x); [done|].
    by rewrite (Z.div_small x 60), add_hours_0 by (done || lia).
  - pose proof (carry_neg 60 x) as Hc. simpl co_minute.
    destruct (Z.eqb_spec (u8 (Z.rem x 60)) 0) as [E|E]; simpl.
    + destruct Hc as [E1 E2]; [lia..|]. rewrite E2, <- E1. unfold set_minute. by rewrite E.
    + destruct Hc as [E1 E2]; [lia..|]. rewrite E2. unfold set_minute; simpl.
      rewrite E1, (u8_small (x mod 60)); [done|]. pose proof (Z.mod_pos_bound x 60). lia.
Qed.

Lemma add_minutes_0 c :
  date_ok c -> 0 <= co_hour c < 24 -> 0 <= co_minute c < 60 -> cal_obj_time_add_minutes c 0 = Ok c.
Proof.
  intros Hd Hh Hm. rewrite add_minutes_carry, Z.add_0_r, Z.div_small, Z.mod_small by (done || lia).
  rewrite add_hours_0 by done. destruct c; unfold set_minute; simpl in *. by rewrite u8_small by lia.
Qed.

Lemma add_hours_spec c hours :
  time_ok c -> serial_in_range ((timeline c + hours * 3600) / 86400) ->
  exists c', cal_obj_time_add_hours c hours = Ok c' /\ time_ok c' /\
    co_flags c' = co_flags c /\ timeline c' = timeline c + hours * 3600.
Proof.
  intros [Hd Hc] Hr. pose proof (serial_in_range_values _ Hr).
  pose proof (serial_in_range_values _ (date_serial_in_range c Hd)).
  rewrite add_hours_carry by (done || (unfold timeline, clock, clock_ok in *; Z.to_euclidean_division_equations; lia)).
  remember (co_hour c + hours) as x eqn:Ex. unfold clock_ok, timeline, clock in *.
  pose proof (Z.mod_pos_bound x 24). pose proof (Z.div_mod x 24).
  assert ((serial c * 86400 + (co_hour c * 3600 + co_minute c * 60 + co_second c)
    + hours * 3600) / 86400 = serial c + x / 24) as E.
  { symmetry. apply Z.div_unique with
      (r := x mod 24 * 3600 + co_minute c * 60 + co_second c); lia. }
  rewrite E in Hr.
  destruct (add_days_spec (set_hour (x mod 24) c) (x / 24)) as (c' & -> & Hd' & (Sh & Sm & Ss & Sf) & Hs);
    [done|exact Hr|].
  exists c'. change (serial (set_hour (x mod 24) c)) with (serial c) in Hs.
  simpl in Sh, Sm, Ss, Sf. rewrite u8_small in Sh by lia.
  unfold time_ok, clock_ok. rewrite Hs, Sh, Sm, Ss.
  split; [done|]. split; [split; [exact Hd'|lia]|]. split; [exact Sf|lia].
Qed.

Lemma add_minutes_spec c minutes :
  time_ok c -> - 2 ^ 31 <= co_minute c + minutes < 2 ^ 31 ->
  serial_in_range ((timeline c + minutes * 60) / 86400) ->
  exists c', cal_obj_time_add_minutes c minutes = Ok c' /\ time_ok c' /\
    co_flags c' = co_flags c /\ timeline c' = timeline c + minutes * 60.
Proof.
  intros [Hd Hc] Hx Hr. rewrite add_minutes_carry by (done || apply Hc).
  remember (co_minute c + minutes) as x eqn:Ex. unfold clock_ok in Hc.
  pose proof (Z.mod_pos_bound x 60). pose proof (Z.div_mod x 60).
  set (c1 := set_minute (x mod 60) c).
  assert (timeline c1 + x / 60 * 3600 = timeline c + minutes * 60) as E.
  { unfold timeline, clock, c1. change (serial (set_minute (x mod 60) c)) with (serial c).
    simpl. rewrite u8_small by lia. lia. }
  rewrite <- E in Hr.
  destruct (add_hours_spec c1 (x / 60)) as (c' & -> & Ht & Hf & Hs); [|exact Hr|].
  - split; [done|]. unfold clock_ok, c1; simpl. rewrite u8_small by lia. lia.
  - exists c'. rewrite Hs. repeat split; try apply Ht; (exact Hf || lia).
Qed.

Lemma add_seconds_carry c seconds :
  date_ok c -> clock_ok c ->
  - 2 ^ 31 <= co_second c + seconds < 2 ^ 31 ->
  cal_obj_time_add_seconds c seconds =
  cal_obj_time_add_minutes (set_second ((co_second c + seconds) mod 60) c)
    ((co_second c + seconds) / 60).
Proof.
  intros Hd Hh Hx. unfold cal_obj_time_add_seconds. rewrite checked_int_Ok, res_bind_Ok by done.
  set (x := co_second c + seconds).
  unfold clock_ok in Hh. destruct (Z.leb_spec 0 x).
  - destruct (carry_nonneg 60 x) as [E1 E2]; [lia..|].
    assert (set_second (Z.rem x 60) c = set_second (x mod 60) c) as ->.
    { unfold set_second. rewrite E1, u8_small; [done|]. pose proof (Z.mod_pos_bound x 60). lia. }
    rewrite E2. destruct (Z.leb_spec 60 x); [done|].
    by rewrite (Z.div_small x 60), add_minutes_0 by (done || simpl; lia).
  - pose proof (carry_neg 60 x) as Hc. simpl co_second.
    destruct (Z.eqb_spec (u8 (Z.rem x 60)) 0) as [E|E]; simpl.
    + destruct Hc as [E1 E2]; [lia..|]. rewrite E2, <- E1. unfold set_second. by rewrite E.
    + destruct Hc as [E1 E2]; [lia..|]. rewrite E2. unfold set_second; simpl.
      rewrite E1, (u8_small (x mod 60)); [done|]. pose proof (Z.mod_pos_bound x 60). lia.
Qed.

Lemma add_seconds_spec c seconds :
  time_ok c -> - 2 ^ 31 <= co_second c + seconds < 2 ^ 31 ->
  serial_in_range ((timeline c + seconds) / 86400) ->
  exists c', cal_obj_time_add_seconds c seconds = Ok c' /\ time_ok c' /\
    co_flags c' = co_flags c /\ timeline c' = timeline c + seconds.
Proof.
  intros [Hd Hc] Hx Hr. rewrite add_seconds_carry by done.
  remember (co_second c + seconds) as x eqn:Ex. unfold clock_ok in Hc.
  pose proof (Z.mod_pos_bound x 60). pose proof (Z.div_mod x 60).
  set (c1 := set_second (x mod 60) c).
  assert (timeline c1 + x / 60 * 60 = timeline c + seconds) as E.
  { unfold timeline, clock, c1. change (serial (set_second (x mod 60) c)) with (serial c).
    simpl. rewrite u8_small by lia. lia. }
  rewrite <- E in Hr.
  destruct (add_minutes_spec c1 (x / 60)) as (c' & -> & Ht & Hf & Hs); [| |exact Hr|].
  - split; [done|]. unfold clock_ok, c1; simpl. rewrite u8_small by lia. lia.
  - unfold c1; simpl. Z.to_euclidean_division_equations. lia.
  - exists c'. rewrite Hs. repeat split; try apply Ht; (exact Hf || lia).
Qed.

(** ** The order of times *)

Definition fields (c : CalObjTime) : list Z :=
  [co_year c; co_month c; co_day c; co_hour c; co_minute c; co_second c].

Definition cmp_depth (type : CalObjTimeComparison) : nat :=
  match type with
  | CALOBJ_YEAR => 1 | CALOBJ_MONTH => 2 | CALOBJ_DAY => 3
  | CALOBJ_HOUR => 4 | CALOBJ_MINUTE => 5 | CALOBJ_SECOND => 6
  end.

Lemma compare_lex c1 c2 type :
  cal_obj_time_compare c1 c2 type =
  lexcmp (take (cmp_depth type) (fields c1)) (take (cmp_depth type) (fields c2)).
Proof.
  unfold cal_obj_time_compare, fields.
  destruct type; simpl; unfold zcmp; repeat case_match; try done; lia.
Qed.

Lemma compare_func_lex c1 c2 :
  cal_obj_time_compare_func c1 c2 = lexcmp (fields c1) (fields c2).
Proof.
  unfold cal_obj_time_compare_func, fields. simpl. unfold zcmp.
  repeat case_match; try done; lia.
Qed.

Lemma date_only_compare_lex c1 c2 :
  cal_obj_date_only_compare_func c1 c2 = lexcmp (take 3 (fields c1)) (take 3 (fields c2)).
Proof.
  unfold cal_obj_date_only_compare_func, fields. simpl. unfold zcmp.
  repeat case_match; try done; lia.
Qed.

#[export] Instance compare_func_preorder : CmpPreorder cal_obj_time_compare_func.
Proof.
  split; intros *; rewrite !compare_func_lex.
  - apply lexcmp_antisym.
  - by apply (lexcmp_trans 6).
Qed.

Lemma compare_func_refl c : cal_obj_time_compare_func c c = 0.
Proof. rewrite compare_func_lex. apply lexcmp_refl. Qed.

Lemma compare_func_eq c1 c2 :
  cal_obj_time_compare_func c1 c2 = 0 <-> fields c1 = fields c2.
Proof.
  rewrite compare_func_lex. split.
  - by apply (lexcmp_eq 6).
  - intros ->. apply lexcmp_refl.
Qed.

Lemma date_only_compare_serial c1 c2 :
  date_ok c1 -> date_ok c2 ->
  cal_obj_date_only_compare_func c1 c2 = zcmp (serial c1) (serial c2).
Proof.
  intros [Hy1 H1] [Hy2 H2]. unfold cal_obj_date_only_compare_func, serial.
  pose proof (Gregorian.serial_lt_year _ _ _ _ _ _ H1 H2).
  pose proof (Gregorian.serial_lt_year _ _ _ _ _ _ H2 H1).
  destruct c1 as [y1 m1 d1 ? ? ? ?], c2 as [y2 m2 d2 ? ? ? ?]; simpl in *.
  unfold zcmp. destruct (Z.ltb_spec y1 y2), (Z.ltb_spec y2 y1); try lia;
    [repeat case_match; lia..|].
  assert (y1 = y2) as -> by lia.
  pose proof (Gregorian.serial_lt_month _ _ _ _ _ H1 H2).
  pose proof (Gregorian.serial_lt_month _ _ _ _ _ H2 H1).
  destruct (Z.ltb_spec m1 m2), (Z.ltb_spec m2 m1); try lia;
    [repeat case_match; lia..|].
  assert (m1 = m2) as -> by lia. unfold Gregorian.serial.
  repeat case_match; lia.
Qed.

Lemma compare_func_timeline c1 c2 :
  time_ok c1 -> time_ok c2 ->
  cal_obj_time_compare_func c1 c2 = zcmp (timeline c1) (timeline c2).
Proof.
  intros [D1 K1] [D2 K2].
  rewrite compare_func_lex.
  change (fields c1) with (take 3 (fields c1) ++ [co_hour c1; co_minute c1; co_second c1]).
  change (fields c2) with (take 3 (fields c2) ++ [co_hour c2; co_minute c2; co_second c2]).
  rewrite lexcmp_app, <- date_only_compare_lex by done.
  rewrite date_only_compare_serial by done.
  unfold timeline, clock, clock_ok in *. simpl. unfold zcmp. repeat case_match; lia.
Qed.

(** ** Months *)

Lemma add_months_spec c months :
  0 <= co_year c < 65536 -> 0 <= co_month c < 12 -> 0 <= months -> co_month c + months < 2 ^ 31 ->
  let n := co_year c * 12 + co_month c + months in
  exists c', cal_obj_time_add_months c months = Ok c' /\
  co_month c' = n mod 12 /\ co_year c' = (n / 12) mod 65536 /\
  co_day c' = co_day c /\ same_clock c c'.
Proof.
  intros Hy Hm Hn Hlt n. unfold cal_obj_time_add_months. rewrite checked_int_Ok, res_bind_Ok by lia.
  set (x := co_month c + months). rewrite (u32_small x) by lia. eexists. split; [reflexivity|].
  assert (n mod 12 = x mod 12) as Em.
  { unfold n. replace (co_year c * 12 + co_month c + months) with (x + co_year c * 12) by lia.
    apply Z_mod_plus_full. }
  assert (n / 12 = co_year c + x / 12) as Ed.
  { unfold n. replace (co_year c * 12 + co_month c + months) with (x + co_year c * 12) by lia.
    rewrite Z.div_add by lia. lia. }
  pose proof (Z.mod_pos_bound x 12). rewrite Em, Ed.
  destruct (Z.ltb_spec 0 x).
  - unfold same_clock. simpl. rewrite u8_small by lia. done.
  - assert (x = 0) as Ex by lia. rewrite Ex. simpl. unfold same_clock. simpl.
    rewrite Z.mod_0_l by lia. change (u8 0) with 0. done.
Qed.

(** A negative result is reduced modulo 2^32 before it is reduced modulo 12. *)
Lemma add_months_below c months :
  - 2 ^ 31 <= months -> co_month c + months < 0 -> 0 <= co_month c ->
  exists c', cal_obj_time_add_months c months = Ok c' /\ co_month c' = (co_month c + months + 4) mod 12.
Proof.
  intros Hlo Hx Hm. unfold cal_obj_time_add_months. rewrite checked_int_Ok, res_bind_Ok by lia.
  eexists. split; [reflexivity|].
  assert (u32 (co_month c + months) = co_month c + months + 2 ^ 32) as ->.
  { unfold u32. symmetry. apply Z.mod_unique with (q := -1); lia. }
  destruct (Z.ltb_spec 0 (co_month c + months + 2 ^ 32)); [|lia].
  simpl co_month. pose proof (Z.mod_pos_bound (co_month c + months + 2 ^ 32) 12).
  rewrite u8_small by lia.
  replace (co_month c + months + 2 ^ 32) with (co_month c + months + 4 + 357913941 * 12) by lia.
  apply Z_mod_plus_full.
Qed.

(** ** Weekdays *)
Section weekday_lemmas.
Context {G : GDate} `{!GDateLaws G}.

Lemma weekday_spec c : date_ok c -> cal_obj_time_weekday c = Gregorian.wday (serial c).
Proof.
  intros [Hy Hv]. unfold cal_obj_time_weekday.
  rewrite g_date_weekday_law by (done || lia). unfold serial. lia.
Qed.

Lemma weekday_offset_spec c wkst :
  date_ok c -> 0 <= wkst < 7 ->
  cal_obj_time_weekday_offset c wkst = (Gregorian.wday (serial c) - wkst) mod 7.
Proof.
  intros Hd Hw. pose proof (Gregorian.wday_range (serial c)).
  change (cal_obj_time_weekday_offset c wkst)
    with (Z.rem (cal_obj_time_weekday c + 7 - wkst) 7).
  rewrite weekday_spec by done. rewrite Z.rem_mod_nonneg by lia.
  replace (Gregorian.wday (serial c) + 7 - wkst)
    with (Gregorian.wday (serial c) - wkst + 1 * 7) by lia.
  apply Z_mod_plus_full.
Qed.

Lemma day_of_year_spec c :
  date_ok c ->
  cal_obj_time_day_of_year c = serial c - Gregorian.year_base (co_year c).
Proof.
  intros [Hy Hv]. unfold cal_obj_time_day_of_year.
  rewrite g_date_day_of_year_law by (done || lia).
  unfold serial, Gregorian.serial. lia.
Qed.

Lemma julian_spec c :
  date_ok c ->
  g_date_get_julian (co_day c) (co_month c + 1) (co_year c) = serial c.
Proof. intros [Hy Hv]. apply g_date_julian_law; (done || lia). Qed.
End weekday_lemmas.
