(* ===== verification/CalObjTimeSpec.v ===== *)
(** * What the [CalObjTime] functions compute

    The properties of [CalObjTime.v]: arithmetic on the line of seconds, the
    order, months, the first week of a year, durations, and the behaviour in
    the years before 1900. *)

From S2P Require Import Prelude CalTimeUtil CalObjTime.

(** [1 January] of the year of [c], keeping the clock. *)
Definition new_year (c : CalObjTime) : CalObjTime := set_day 1 (set_month 0 c).

Lemma new_year_ok c : 1900 <= co_year c < 65536 -> date_ok (new_year c).
Proof.
  intros H. split; [exact H|]. unfold Gregorian.valid.
  change (co_month (new_year c)) with 0. change (co_day (new_year c)) with 1.
  pose proof (Gregorian.mdays_range (co_year (new_year c)) 0). lia.
Qed.

Lemma new_year_serial c : serial (new_year c) = Gregorian.year_base (co_year c) + 1.
Proof.
  change (serial (new_year c)) with (Gregorian.year_base (co_year c) + 0 + 1). lia.
Qed.

Lemma serial_in_range_year y n :
  1902 <= y < 65533 -> Gregorian.year_base y - 730 < n <= Gregorian.year_base y + 1095 ->
  serial_in_range n.
Proof.
  intros Hy Hn. unfold serial_in_range.
  assert (Gregorian.year_base 1900 + 730 <= Gregorian.year_base y).
  { pose proof (Gregorian.year_base_mono 1901 y). pose proof (Gregorian.ydays_range 1901).
    pose proof (Gregorian.year_base_mono 1900 1901). pose proof (Gregorian.ydays_range 1900). lia. }
  assert (Gregorian.year_base y + 1095 <= Gregorian.year_base 65536).
  { pose proof (Gregorian.year_base_mono y 65533). pose proof (Gregorian.ydays_range y).
    assert (Gregorian.year_base 65533 + 1095 <= Gregorian.year_base 65536)
      by (vm_compute; discriminate). lia. }
  lia.
Qed.

(** C6: for every [gint] number of seconds and every well-formed time (and a
    result from 1900 to 65535), [cal_obj_time_add_seconds] moves the time along
    the line of seconds by that number, forwards or backwards, through all the
    carries into minutes, hours, days, months and years, and returns a
    well-formed time; the one exception is a number of seconds so close to
    [G_MAXINT] that the [int] sum of it and the second of the time overflows,
    which is undefined behaviour. *)
Theorem add_seconds_timeline (c : CalObjTime) (seconds : Z) (Hc : time_ok c)
    (Hs : - 2 ^ 31 <= seconds < 2 ^ 31)
    (Hr : serial_in_range ((timeline c + seconds) / 86400)) :
  (co_second c + seconds < 2 ^ 31 ->
   exists c', cal_obj_time_add_seconds c seconds = Ok c' /\ time_ok c' /\
     co_flags c' = co_flags c /\ timeline c' = timeline c + seconds) /\
  (2 ^ 31 <= co_second c + seconds -> cal_obj_time_add_seconds c seconds = Undef).
Proof.
  split; intros H.
  - apply add_seconds_spec; [done| |done]. destruct Hc as [_ (_ & _ & Hsec)]. lia.
  - unfold cal_obj_time_add_seconds. by rewrite checked_int_Undef.
Qed.

(** A day and a second from the end of 28 February 2000, and the sum of 59 and
    [G_MAXINT]. *)
Lemma add_seconds_timeline_witness :
  (exists c', cal_obj_time_add_seconds (mkCalObjTime 2000 1 28 23 59 59 false) 86401 = Ok c' /\
    timeline c' = timeline (mkCalObjTime 2000 1 28 23 59 59 false) + 86401) /\
  cal_obj_time_add_seconds (mkCalObjTime 2000 1 28 23 59 59 false) 2147483647 = Undef.
Proof.
  split.
  - destruct (add_seconds_timeline (mkCalObjTime 2000 1 28 23 59 59 false) 86401) as [H _].
    + vm_compute. repeat split; discriminate.
    + lia.
    + vm_compute. split; [reflexivity|discriminate].
    + destruct H as (c' & E & _ & _ & H); [simpl; lia|]. exists c'. split; [exact E|exact H].
  - apply (add_seconds_timeline (mkCalObjTime 2000 1 28 23 59 59 false) 2147483647).
    + vm_compute. repeat split; discriminate.
    + lia.
    + vm_compute. split; [reflexivity|discriminate].
    + simpl. lia.
Defined.

(** [cal_obj_time_add_days] moves a date by the given number of days,
    forwards or backwards, through month lengths and leap years, and leaves the
    time of day and the flag alone. *)
Theorem add_days_serial (c : CalObjTime) (days : Z) (Hc : date_ok c)
    (Hr : serial_in_range (serial c + days)) :
  exists c', cal_obj_time_add_days c days = Ok c' /\ date_ok c' /\
    same_clock c c' /\ serial c' = serial c + days.
Proof. by apply add_days_spec. Qed.

Lemma add_days_serial_witness :
  exists c', cal_obj_time_add_days (mkCalObjTime 2100 2 1 8 0 0 true) (-1) = Ok c' /\
    serial c' = serial (mkCalObjTime 2100 2 1 8 0 0 true) - 1.
Proof.
  destruct (add_days_serial (mkCalObjTime 2100 2 1 8 0 0 true) (-1)) as (c' & E & _ & _ & H).
  - vm_compute. repeat split; discriminate.
  - vm_compute. split; [reflexivity|discriminate].
  - exists c'. split; [exact E|exact H].
Defined.

(** On well-formed times the comparison function used for sorting is the
    order of the line of seconds, and the date-only comparison the order of day
    numbers. *)
Theorem compare_is_timeline_order (c1 c2 : CalObjTime) (H1 : time_ok c1) (H2 : time_ok c2) :
  cal_obj_time_compare_func c1 c2 = zcmp (timeline c1) (timeline c2) /\
  cal_obj_date_only_compare_func c1 c2 = zcmp (serial c1) (serial c2) /\
  cal_obj_time_compare c1 c2 CALOBJ_SECOND = cal_obj_time_compare_func c1 c2 /\
  cal_obj_time_compare c1 c2 CALOBJ_DAY = cal_obj_date_only_compare_func c1 c2.
Proof.
  split; [by apply compare_func_timeline|].
  split; [by apply date_only_compare_serial; [apply H1|apply H2]|].
  rewrite !compare_lex, compare_func_lex, date_only_compare_lex. done.
Qed.

Lemma compare_is_timeline_order_witness :
  cal_obj_time_compare_func (mkCalObjTime 1999 11 31 23 59 59 false)
    (mkCalObjTime 2000 0 1 0 0 0 false) = -1.
Proof.
  destruct (compare_is_timeline_order (mkCalObjTime 1999 11 31 23 59 59 false)
    (mkCalObjTime 2000 0 1 0 0 0 false)) as [E _].
  - vm_compute. repeat split; discriminate.
  - vm_compute. repeat split; discriminate.
  - rewrite E. reflexivity.
Defined.

(** Adding a non-negative number of months counts months across years and
    leaves the day and the time of day alone; but when the sum of the month and
    a negative number of months is negative, the month is always wrong (it is
    reduced modulo 2^32 first), although the comment allows negative numbers. *)
Theorem add_months_sign (c : CalObjTime) (months : Z) (Hy : 0 <= co_year c < 65536)
    (Hm : 0 <= co_month c < 12) (Hn : - 2 ^ 31 <= months) (Hlt : co_month c + months < 2 ^ 31) :
  let n := co_year c * 12 + co_month c + months in
  exists c', cal_obj_time_add_months c months = Ok c' /\
  (0 <= months -> co_month c' = n mod 12 /\ co_year c' = (n / 12) mod 65536 /\
                  co_day c' = co_day c /\ same_clock c c') /\
  (co_month c + months < 0 -> co_month c' <> n mod 12).
Proof.
  intros n. destruct (Z.lt_ge_cases (co_month c + months) 0) as [Hneg|Hpos].
  - destruct (add_months_below c months) as (c' & E & Em); [lia..|].
    exists c'. split; [exact E|]. split; [lia|]. intros _. rewrite Em. subst n.
    replace (co_year c * 12 + co_month c + months)
      with (co_month c + months + co_year c * 12) by lia.
    rewrite Z_mod_plus_full. Z.to_euclidean_division_equations. lia.
  - destruct (Z.lt_ge_cases months 0).
    + eexists. split; [unfold cal_obj_time_add_months; rewrite checked_int_Ok by lia; reflexivity|].
      split; lia.
    + destruct (add_months_spec c months) as (c' & E & H'); [lia..|].
      exists c'. split; [exact E|]. split; [done|lia].
Qed.

Lemma add_months_sign_witness :
  exists c1 c2, cal_obj_time_add_months (mkCalObjTime 2006 10 30 9 0 0 false) 3 = Ok c1 /\
  co_month c1 = 1 /\
  cal_obj_time_add_months (mkCalObjTime 2006 0 30 9 0 0 false) (-1) = Ok c2 /\
  co_month c2 <> 11.
Proof.
  destruct (add_months_sign (mkCalObjTime 2006 10 30 9 0 0 false) 3) as (c1 & E1 & H1 & _);
    [simpl; lia..|].
  destruct (add_months_sign (mkCalObjTime 2006 0 30 9 0 0 false) (-1)) as (c2 & E2 & _ & H2);
    [simpl; lia..|].
  exists c1, c2. split; [exact E1|]. split; [|split; [exact E2|apply H2; simpl; lia]].
  destruct H1 as [-> _]; [lia|]. reflexivity.
Defined.

Lemma find_first_week_ok (G : GDate) (GL : GDateLaws G) (c : CalObjTime) (wkst off : Z)
    (Hy : 1902 <= co_year c < 65533) (Hw : 0 <= wkst < 7) (Ho : 0 <= off < 7) :
  exists c', cal_obj_time_find_first_week c wkst off = Ok c' /\ date_ok c' /\ same_clock c c' /\
    let week_start := serial c' - off in
    let january_4 := serial (new_year c) + 3 in
    Gregorian.wday week_start = wkst /\ week_start <= january_4 < week_start + 7.
Proof.
  unfold cal_obj_time_find_first_week. fold (new_year c).
  assert (date_ok (new_year c)) as Hn by (apply new_year_ok; lia).
  change (g_date_get_weekday 1 1 (co_year c) - 1) with (cal_obj_time_weekday (new_year c)).
  rewrite (weekday_spec (new_year c)) by done.
  set (w := Gregorian.wday (serial (new_year c))).
  pose proof (Gregorian.wday_range (serial (new_year c)) : 0 <= w < 7) as Hwr.
  rewrite Z.rem_mod_nonneg by lia.
  remember ((wkst + 7 - w) mod 7) as f eqn:Ef.
  pose proof (Z.mod_pos_bound (wkst + 7 - w) 7).
  set (k := if 4 <=? f then f - 7 else f).
  assert (-3 <= k <= 3 /\ (w + k) mod 7 = wkst) as [Hk Hmod].
  { split; [unfold k; case_match; lia|].
    assert (f = wkst - w \/ f = wkst - w + 7) as Hf.
    { subst f. Z.to_euclidean_division_equations. lia. }
    symmetry. unfold k. case_match; destruct Hf as [-> | ->].
    all: first [apply (Z.mod_unique _ 7 (-1)); lia | apply (Z.mod_unique _ 7 0); lia
               | apply (Z.mod_unique _ 7 1); lia]. }
  destruct (add_days_spec (new_year c) (k + off)) as (c' & -> & Hd & Hs & Hser); [done| |].
  { rewrite new_year_serial. apply serial_in_range_year with (co_year c); lia. }
  exists c'. split; [done|]. split; [done|]. split; [exact Hs|]. cbv zeta.
  replace (serial c' - off) with (serial (new_year c) + k) by lia.
  rewrite Gregorian.wday_add. fold w. lia.
Qed.

(** [cal_obj_time_find_first_week] goes to the event's weekday in the first
    week of the year: that week starts on the week start day and contains
    4 January (the first week with four days in the year). *)
Theorem find_first_week_spec (G : GDate) (GL : GDateLaws G) (c : CalObjTime) (wkst off : Z)
    (Hy : 1902 <= co_year c < 65533) (Hw : 0 <= wkst < 7) (Ho : 0 <= off < 7) :
  exists c', cal_obj_time_find_first_week c wkst off = Ok c' /\ date_ok c' /\ same_clock c c' /\
    let week_start := serial c' - off in
    let january_4 := serial (new_year c) + 3 in
    Gregorian.wday week_start = wkst /\ week_start <= january_4 < week_start + 7.
Proof. by apply find_first_week_ok. Qed.

Lemma find_first_week_spec_witness :
  exists c', @cal_obj_time_find_first_week GDate_gregorian
      (mkCalObjTime 2004 5 15 9 0 0 false) 0 2 = Ok c' /\
    Gregorian.wday (serial c' - 2) = 0.
Proof.
  destruct (find_first_week_spec GDate_gregorian _ (mkCalObjTime 2004 5 15 9 0 0 false) 0 2)
    as (c' & E & _ & _ & H & _); [simpl; lia..|].
  exists c'. split; [exact E|exact H].
Defined.

(** The duration as whole days and a rest of less than a day. *)
Lemma compute_duration_spec (G : GDate) (GL : GDateLaws G) (s e : CalObjTime) :
  time_ok s -> time_ok e ->
  exists days seconds, cal_object_compute_duration s e = (days, seconds) /\
    0 <= seconds < 86400 /\ timeline s + days * 86400 + seconds = timeline e.
Proof.
  intros [Ds Cs] [De Ce]. unfold cal_object_compute_duration.
  rewrite (julian_spec s), (julian_spec e) by done. unfold clock_ok in Cs, Ce.
  set (sec := co_hour e * 3600 + co_minute e * 60 + co_second e
              - (co_hour s * 3600 + co_minute s * 60 + co_second s)).
  unfold timeline, clock. destruct (Z.ltb_spec sec 0); eexists _, _;
    (split; [reflexivity|]); unfold sec in *; lia.
Qed.

(** The duration computed from the start and end of an event, in days and
    seconds, added back to the start gives the end; the seconds are less than a
    day. *)
Theorem duration_roundtrip (G : GDate) (GL : GDateLaws G) (s e : CalObjTime)
    (Hs : time_ok s) (He : time_ok e)
    (Hr : serial_in_range (serial e - 1)) :
  let '(days, seconds) := cal_object_compute_duration s e in
  0 <= seconds < 86400 /\
  exists c1 c2, cal_obj_time_add_days s days = Ok c1 /\
    cal_obj_time_add_seconds c1 seconds = Ok c2 /\ fields c2 = fields e.
Proof.
  destruct (compute_duration_spec G GL s e Hs He) as (days & seconds & -> & Hsec & Hline).
  destruct Hs as [Ds Cs], He as [De Ce]. unfold clock_ok in Cs, Ce.
  assert (serial e - serial s - 1 <= days <= serial e - serial s) as Hdays
    by (unfold timeline, clock in Hline; lia).
  split; [exact Hsec|].
  pose proof (date_serial_in_range e De) as Hre.
  destruct (add_days_spec s days) as (c1 & E1 & D1 & K1 & S1); [done| |].
  { unfold serial_in_range in *. lia. }
  assert (timeline c1 = timeline s + days * 86400) as L1.
  { unfold timeline, clock. destruct K1 as (-> & -> & -> & _). lia. }
  assert (clock_ok c1) as C1.
  { unfold clock_ok. destruct K1 as (-> & -> & -> & _). lia. }
  assert ((timeline c1 + seconds) / 86400 = serial e) as Ediv.
  { symmetry. apply Z.div_unique with (r := clock e); unfold timeline, clock in *; lia. }
  destruct (add_seconds_spec c1 seconds) as (c2 & E2 & T2 & _ & L2); [done|unfold clock_ok in C1; lia|by rewrite Ediv|].
  exists c1, c2. split; [exact E1|]. split; [exact E2|].
  apply compare_func_eq. rewrite compare_func_timeline by done.
  rewrite L2, L1, Hline. unfold zcmp. repeat case_match; lia.
Qed.

Lemma duration_roundtrip_witness :
  let s := mkCalObjTime 2006 11 31 22 30 0 false in
  let e := mkCalObjTime 2007 0 1 1 15 0 false in
  @cal_object_compute_duration GDate_gregorian s e = (0, 9900) /\
  exists c1 c2, cal_obj_time_add_days s 0 = Ok c1 /\
    cal_obj_time_add_seconds c1 9900 = Ok c2 /\ fields c2 = fields e.
Proof.
  intros s e. split; [vm_compute; reflexivity|].
  assert (time_ok s) as Hs by (vm_compute; repeat split; discriminate).
  assert (time_ok e) as He by (vm_compute; repeat split; discriminate).
  pose proof (duration_roundtrip GDate_gregorian _ s e Hs He) as H.
  replace (@cal_object_compute_duration GDate_gregorian s e) with (0, 9900) in H
    by (vm_compute; reflexivity).
  apply H. vm_compute. split; [reflexivity|discriminate].
Defined.
