(* ===== verification/Libical.v ===== *)
(** * The interface to libical

    libical is not part of the repository.  The record and enumeration types
    are those its headers declare (the members [e-cal-recur.c] uses; the rest
    of [struct icaltimetype] is the opaque [it_rest]); its functions are the
    operations of the class [Libical]. *)

From S2P Require Import Prelude.
From stdpp Require Import strings.
#[local] Open Scope Z_scope.

Inductive icalrecurrencetype_frequency :=
  | ICAL_SECONDLY_RECURRENCE | ICAL_MINUTELY_RECURRENCE | ICAL_HOURLY_RECURRENCE
  | ICAL_DAILY_RECURRENCE | ICAL_WEEKLY_RECURRENCE | ICAL_MONTHLY_RECURRENCE
  | ICAL_YEARLY_RECURRENCE | ICAL_NO_RECURRENCE.

(** The last constructor stands for the values outside the enumeration. *)
Inductive icalrecurrencetype_weekday :=
  | ICAL_NO_WEEKDAY | ICAL_SUNDAY_WEEKDAY | ICAL_MONDAY_WEEKDAY
  | ICAL_TUESDAY_WEEKDAY | ICAL_WEDNESDAY_WEEKDAY | ICAL_THURSDAY_WEEKDAY
  | ICAL_FRIDAY_WEEKDAY | ICAL_SATURDAY_WEEKDAY | ICAL_OTHER_WEEKDAY.

#[export] Instance frequency_eq_dec : EqDecision icalrecurrencetype_frequency.
Proof. solve_decision. Defined.

Record icaltimetype_ (R : Type) := mkIcalTime {
  it_year : Z;
  it_month : Z;    (* 1 - 12 *)
  it_day : Z;
  it_hour : Z;
  it_minute : Z;
  it_second : Z;
  it_is_date : bool;
  it_rest : R;
}.
Arguments mkIcalTime {R}.
Arguments it_year {R}.
Arguments it_month {R}.
Arguments it_day {R}.
Arguments it_hour {R}.
Arguments it_minute {R}.
Arguments it_second {R}.
Arguments it_is_date {R}.
Arguments it_rest {R}.

(** [struct icalrecurrencetype]; every [by_*] member is an array of [short]
    ended by [ICAL_RECURRENCE_ARRAY_MAX] unless it is full. *)
Record icalrecurrencetype_ (T : Type) := mkIcalRecur {
  ir_freq : icalrecurrencetype_frequency;
  ir_until : T;
  ir_count : Z;
  ir_interval : Z;
  ir_week_start : icalrecurrencetype_weekday;
  ir_by_second : list Z;
  ir_by_minute : list Z;
  ir_by_hour : list Z;
  ir_by_day : list Z;
  ir_by_month_day : list Z;
  ir_by_year_day : list Z;
  ir_by_week_no : list Z;
  ir_by_month : list Z;
  ir_by_set_pos : list Z;
}.
Arguments mkIcalRecur {T}.
Arguments ir_freq {T}.
Arguments ir_until {T}.
Arguments ir_count {T}.
Arguments ir_interval {T}.
Arguments ir_week_start {T}.
Arguments ir_by_second {T}.
Arguments ir_by_minute {T}.
Arguments ir_by_hour {T}.
Arguments ir_by_day {T}.
Arguments ir_by_month_day {T}.
Arguments ir_by_year_day {T}.
Arguments ir_by_week_no {T}.
Arguments ir_by_month {T}.
Arguments ir_by_set_pos {T}.

Definition ICAL_RECURRENCE_ARRAY_MAX : Z := 0x7f7f.

(** An [icalproperty]: its value and its X- parameters (name, if any, and
    value) in order. *)
Record icalproperty_ (V : Type) := mkIcalProperty {
  ip_value : V;
  ip_x_params : list (option string * string);
}.
Arguments mkIcalProperty {V}.
Arguments ip_value {V}.
Arguments ip_x_params {V}.

(** A [NULL]able [icaltimezone *] is an [option icaltimezone]. *)
Class Libical := {
  icaltimezone : Type;
  icaltime_rest : Type;
  icalvalue : Type;
  icaltimezone_get_utc_timezone : icaltimezone;
  icaltime_null_rest : icaltime_rest;
  icaltime_is_null_time : icaltimetype_ icaltime_rest -> bool;
  icaltime_as_timet_with_zone : icaltimetype_ icaltime_rest -> option icaltimezone -> Z;
  icaltime_from_timet_with_zone : Z -> bool -> option icaltimezone -> icaltimetype_ icaltime_rest;
  icaltime_from_timet : Z -> bool -> icaltimetype_ icaltime_rest;
  (* days, hours, minutes, seconds *)
  icaltime_adjust : icaltimetype_ icaltime_rest -> Z -> Z -> Z -> Z -> icaltimetype_ icaltime_rest;
  icaltime_compare_date_only : icaltimetype_ icaltime_rest -> icaltimetype_ icaltime_rest -> Z;
  icalrecurrencetype_day_day_of_week : Z -> icalrecurrencetype_weekday;
  icalrecurrencetype_day_position : Z -> Z;
  icalproperty_get_rrule :
    icalproperty_ icalvalue -> icalrecurrencetype_ (icaltimetype_ icaltime_rest);
  icalproperty_get_exrule :
    icalproperty_ icalvalue -> icalrecurrencetype_ (icaltimetype_ icaltime_rest);
  (* icalvalue_new_from_string (ICAL_DATETIME_VALUE, s) and icalvalue_get_datetime *)
  icalvalue_datetime_from_string : string -> option (icaltimetype_ icaltime_rest);
  (* icalvalue_new_datetime and icalvalue_as_ical_string *)
  icalvalue_datetime_as_ical_string : icaltimetype_ icaltime_rest -> string;
}.

Abbreviation icaltimetype := (icaltimetype_ icaltime_rest).
Abbreviation icalrecurrencetype := (icalrecurrencetype_ icaltimetype).
Abbreviation icalproperty := (icalproperty_ icalvalue).

(** [icaltime_null_time ()]: all members zero. *)
Definition icaltime_null_time {L : Libical} : icaltimetype :=
  mkIcalTime 0 0 0 0 0 0 false icaltime_null_rest.
