(* ===== verification/LibicalUtc.v ===== *)
(** * A libical that knows only UTC

    [LibicalLaws] is what the recurrence code relies on when it saves the end
    date of a rule and reads it back.  [Libical_utc] is a concrete instance, on
    which the theorems that quantify over [Libical] are exercised. *)

From S2P Require Import Prelude CalTimeUtil CalObjTime Libical.
From stdpp Require Import strings.
From Stdlib Require Import Ascii String.
#[local] Open Scope Z_scope.

(** The times [time_t] of 32 bits can hold, from 1970 on. *)
Definition timet_ok (t : Z) : Prop := 0 <= t < 2 ^ 31.

(** libical's conversions of UTC times are inverse to each other, and a printed
    DATE-TIME value parses to itself. *)
Class LibicalLaws (L : Libical) : Prop := {
  timet_utc_roundtrip t :
    timet_ok t ->
    icaltime_as_timet_with_zone
      (icaltime_from_timet_with_zone t false (Some icaltimezone_get_utc_timezone))
      (Some icaltimezone_get_utc_timezone) = t;
  datetime_string_roundtrip t :
    timet_ok t ->
    icalvalue_datetime_from_string (icalvalue_datetime_as_ical_string
      (icaltime_from_timet_with_zone t false (Some icaltimezone_get_utc_timezone)))
    = Some (icaltime_from_timet_with_zone t false (Some icaltimezone_get_utc_timezone));
}.

(** ** Fixed-width decimal numbers *)

Definition digit (d : Z) : ascii := ascii_of_N (Z.to_N (48 + d)).
Definition digit_value (c : ascii) : option Z :=
  let n := Z.of_N (N_of_ascii c) in
  if (48 <=? n) && (n <? 58) then Some (n - 48) else None.

(** [z] in [n] digits, before [rest]. *)
Fixpoint print_digits (n : nat) (z : Z) (rest : string) : string :=
  match n with
  | O => rest
  | S n => print_digits n (z / 10) (String (digit (z mod 10)) rest)
  end.

Fixpoint parse_digits (n : nat) (s : string) : option (Z * string) :=
  match n with
  | O => Some (0, s)
  | S n =>
      match parse_digits n s with
      | Some (v, String c rest) =>
          match digit_value c with Some d => Some (v * 10 + d, rest) | None => None end
      | _ => None
      end
  end.

Lemma digit_value_digit d : 0 <= d < 10 -> digit_value (digit d) = Some d.
Proof.
  intros Hd. assert (d = 0 \/ d = 1 \/ d = 2 \/ d = 3 \/ d = 4 \/ d = 5 \/ d = 6 \/ d = 7
    \/ d = 8 \/ d = 9) as H by lia.
  by repeat destruct H as [->|H]; [..|subst].
Qed.

Lemma parse_print_digits n z rest :
  0 <= z < 10 ^ Z.of_nat n -> parse_digits n (print_digits n z rest) = Some (z, rest).
Proof.
  revert z rest. induction n as [|n IH]; intros z rest Hz.
  - cbn in *. do 2 f_equal. lia.
  - rewrite Nat2Z.inj_succ, Z.pow_succ_r in Hz by lia. cbn [print_digits parse_digits].
    rewrite IH by (Z.to_euclidean_division_equations; lia).
    rewrite digit_value_digit by (apply Z.mod_pos_bound; lia).
    do 2 f_equal. pose proof (Z.div_mod z 10). lia.
Qed.

(** ** The instance *)

Definition utc_time : Type := icaltimetype_ unit.

Definition epoch : CalObjTime := mkCalObjTime 1970 0 1 0 0 0 false.

Definition utc_from_timet (t : Z) (is_date : bool) : utc_time :=
  match (day ← cal_obj_time_add_days epoch (t / 86400); cal_obj_time_add_seconds day (t mod 86400)) with
  | Ok c => mkIcalTime (co_year c) (co_month c + 1) (co_day c) (co_hour c) (co_minute c)
              (co_second c) is_date tt
  | _ => mkIcalTime 0 0 0 0 0 0 false tt
  end.

Definition utc_as_timet (t : utc_time) : Z :=
  (Gregorian.serial (it_year t) (it_month t - 1) (it_day t) - serial epoch) * 86400
  + it_hour t * 3600 + it_minute t * 60 + it_second t.

(** [YYYYMMDDTHHMMSSZ] *)
Definition utc_print (t : utc_time) : string :=
  print_digits 4 (it_year t) (print_digits 2 (it_month t) (print_digits 2 (it_day t)
    (String "T" (print_digits 2 (it_hour t) (print_digits 2 (it_minute t)
      (print_digits 2 (it_second t) "Z")))))).

Definition utc_parse (s : string) : option utc_time :=
  match parse_digits 4 s with
  | Some (y, s) =>
  match parse_digits 2 s with
  | Some (m, s) =>
  match parse_digits 2 s with
  | Some (d, String _ s) =>
  match parse_digits 2 s with
  | Some (h, s) =>
  match parse_digits 2 s with
  | Some (mi, s) =>
  match parse_digits 2 s with
  | Some (sec, _) => Some (mkIcalTime y m d h mi sec false tt)
  | None => None end | None => None end | None => None end
  | _ => None end | None => None end | None => None end.

Definition utc_weekday (day : Z) : icalrecurrencetype_weekday :=
  let d := Z.rem (Z.abs day) 8 in
  if d =? 0 then ICAL_NO_WEEKDAY else if d =? 1 then ICAL_SUNDAY_WEEKDAY
  else if d =? 2 then ICAL_MONDAY_WEEKDAY else if d =? 3 then ICAL_TUESDAY_WEEKDAY
  else if d =? 4 then ICAL_WEDNESDAY_WEEKDAY else if d =? 5 then ICAL_THURSDAY_WEEKDAY
  else if d =? 6 then ICAL_FRIDAY_WEEKDAY else ICAL_SATURDAY_WEEKDAY.

Definition Libical_utc : Libical := {|
  icaltimezone := unit;
  icaltime_rest := unit;
  icalvalue := icalrecurrencetype_ utc_time;
  icaltimezone_get_utc_timezone := tt;
  icaltime_null_rest := tt;
  icaltime_is_null_time t := (it_year t + it_month t + it_day t =? 0);
  icaltime_as_timet_with_zone t _ := utc_as_timet t;
  icaltime_from_timet_with_zone t is_date _ := utc_from_timet t is_date;
  icaltime_from_timet t is_date := utc_from_timet t is_date;
  icaltime_adjust t d h m s :=
    utc_from_timet (utc_as_timet t + d * 86400 + h * 3600 + m * 60 + s) (it_is_date t);
  icaltime_compare_date_only t1 t2 := zcmp (utc_as_timet t1 / 86400) (utc_as_timet t2 / 86400);
  icalrecurrencetype_day_day_of_week := utc_weekday;
  icalrecurrencetype_day_position d := Z.sgn d * Z.quot (Z.abs d) 8;
  icalproperty_get_rrule p := ip_value p;
  icalproperty_get_exrule p := ip_value p;
  icalvalue_datetime_from_string := utc_parse;
  icalvalue_datetime_as_ical_string := utc_print;
|}.

Lemma utc_from_timet_spec t b :
  timet_ok t -> exists c, utc_from_timet t b =
      mkIcalTime (co_year c) (co_month c + 1) (co_day c) (co_hour c) (co_minute c) (co_second c) b tt /\
    time_ok c /\ timeline c = timeline epoch + t /\ 1970 <= co_year c < 10000.
Proof.
  intros Ht. unfold utc_from_timet, timet_ok in *.
  assert (timeline epoch = 719163 * 86400) as Ee by (vm_compute; reflexivity).
  assert (Gregorian.year_base 1900 = 693595) as Elo by reflexivity.
  assert (Gregorian.year_base 65536 = 23936166) as Ehi by reflexivity.
  assert (serial epoch = 719163) as Es by (vm_compute; reflexivity).
  destruct (add_days_spec epoch (t / 86400)) as (c1 & -> & D1 & (Eh & Em & Esec & _) & S1).
  { concrete. }
  { rewrite Es. unfold serial_in_range. Z.to_euclidean_division_equations. lia. }
  cbn in Eh, Em, Esec. rewrite Es in S1. pose proof (Z.mod_pos_bound t 86400).
  rewrite res_bind_Ok. destruct (add_seconds_spec c1 (t mod 86400)) as (c & -> & Hc & _ & E).
  - split; [done|]. unfold clock_ok. lia.
  - rewrite Esec. lia.
  - unfold serial_in_range, timeline, clock. rewrite S1, Eh, Em, Esec.
    Z.to_euclidean_division_equations. lia.
  - assert (timeline c = timeline epoch + t) as E'.
    { rewrite E, Ee. unfold timeline, clock. rewrite S1, Eh, Em, Esec. Z.to_euclidean_division_equations. lia. }
    clear E Es. rename E' into E. exists c. split; [done|]. split; [done|]. split; [done|].
    destruct Hc as [[_ Hv] K]. pose proof (Gregorian.before_month_bounds _ _ _ Hv).
    rewrite Ee in E. unfold timeline, clock, clock_ok, serial, Gregorian.serial in *.
    assert (Gregorian.year_base 1970 = 719162) as E1 by reflexivity.
    assert (Gregorian.year_base 10000 = 3652059) as E2 by reflexivity.
    pose proof (Gregorian.year_base_mono (co_year c) 1970).
    pose proof (Gregorian.year_base_mono 10000 (co_year c)).
    pose proof (Gregorian.ydays_range 10000).
    destruct (Z.eq_dec (co_year c) 10000) as [Ey|]; [rewrite Ey in *|]; lia.
Qed.

#[export] Instance Libical_utc_laws : LibicalLaws Libical_utc.
Proof.
  split; intros t Ht; cbn [icaltime_as_timet_with_zone icaltime_from_timet_with_zone Libical_utc
    icalvalue_datetime_from_string icalvalue_datetime_as_ical_string];
    destruct (utc_from_timet_spec t false Ht) as (c & -> & [[_ Hv] K] & E & Hy).
  - unfold utc_as_timet. cbn [it_year it_month it_day it_hour it_minute it_second].
    rewrite Z.add_simpl_r. unfold timeline, clock in E. fold (serial c).
    change (co_hour epoch * 3600 + co_minute epoch * 60 + co_second epoch) with 0 in E. lia.
  - destruct Hv as [Hm Hd]. pose proof (Gregorian.mdays_range (co_year c) (co_month c)).
    unfold clock_ok in K. unfold utc_parse, utc_print.
    cbn [it_year it_month it_day it_hour it_minute it_second].
    change (10 ^ Z.of_nat 4) with 10000 in *.
    rewrite parse_print_digits by (change (10 ^ Z.of_nat 4) with 10000; lia).
    rewrite parse_print_digits by (change (10 ^ Z.of_nat 2) with 100; lia).
    rewrite parse_print_digits by (change (10 ^ Z.of_nat 2) with 100; lia).
    rewrite parse_print_digits by (change (10 ^ Z.of_nat 2) with 100; lia).
    rewrite parse_print_digits by (change (10 ^ Z.of_nat 2) with 100; lia).
    rewrite parse_print_digits by (change (10 ^ Z.of_nat 2) with 100; lia).
    done.
Qed.
