(* ===== verification/RecurRule.v ===== *)
(** * Recurrence rules and their lookup tables

    [ECalRecurrence] and [RecurData] of [src/calendar/libecal/e-cal-recur.c]:
    the conversion from libical's rule, and [cal_obj_initialize_recur_data],
    which fills the tables the filters read. *)

From S2P Require Import Prelude CalTimeUtil CalObjTime Libical.
From stdpp Require Import strings.
#[local] Open Scope Z_scope.

(** A [GList] of integers is a list; [NULL] is the empty list.  [byday] holds
    pairs, the weekday followed by the week number. *)
Record ECalRecurrence := mkECalRecurrence {
  freq : icalrecurrencetype_frequency;
  interval : Z;
  enddate : Z;
  week_start_day : Z;
  bymonth : list Z;
  byweekno : list Z;
  byyearday : list Z;
  bymonthday : list Z;
  byday : list Z;
  byhour : list Z;
  byminute : list Z;
  bysecond : list Z;
  bysetpos : list Z;
}.

Record RecurData := mkRecurData {
  recur : ECalRecurrence;
  weekday_offset : Z;
  months : list Z;         (* [12] *)
  yeardays : list Z;       (* [367] *)
  neg_yeardays : list Z;   (* [367] *)
  monthdays : list Z;      (* [32] *)
  neg_monthdays : list Z;  (* [32] *)
  weekdays : list Z;       (* [7] *)
  hours : list Z;          (* [24] *)
  minutes : list Z;        (* [60] *)
  seconds : list Z;        (* [62] *)
}.

Definition EVOLUTION_END_DATE_PARAMETER : string := "X-EVOLUTION-ENDDATE".

(** The loop of [array_to_list], which prepends and finally reverses. *)
Fixpoint array_to_list (array : list Z) : list Z :=
  match array with
  | [] => []
  | a :: array => if a =? ICAL_RECURRENCE_ARRAY_MAX then [] else a :: array_to_list array
  end.

Definition e_cal_recur_ical_weekday_to_weekday (day : icalrecurrencetype_weekday) : Z :=
  match day with
  | ICAL_NO_WEEKDAY | ICAL_MONDAY_WEEKDAY => 0
  | ICAL_TUESDAY_WEEKDAY => 1
  | ICAL_WEDNESDAY_WEEKDAY => 2
  | ICAL_THURSDAY_WEEKDAY => 3
  | ICAL_FRIDAY_WEEKDAY => 4
  | ICAL_SATURDAY_WEEKDAY => 5
  | ICAL_SUNDAY_WEEKDAY => 6
  | ICAL_OTHER_WEEKDAY => 0
  end.

Section rule.
Context {G : GDate} {L : Libical}.

(** The end date stored by an earlier run: the first parameter with our name
    whose value parses, as a time in [default_timezone] or in UTC; else -1. *)
Fixpoint rule_end_date_loop (params : list (option string * string))
    (default_timezone : option icaltimezone) : Z :=
  match params with
  | [] => -1
  | (xname, xvalue) :: params =>
      if decide (xname = Some EVOLUTION_END_DATE_PARAMETER) then
        match icalvalue_datetime_from_string xvalue with
        | Some icaltime =>
            let zone := match default_timezone with
                        | Some z => z
                        | None => icaltimezone_get_utc_timezone
                        end in
            icaltime_as_timet_with_zone icaltime (Some zone)
        | None => rule_end_date_loop params default_timezone
        end
      else rule_end_date_loop params default_timezone
  end.

Definition e_cal_recur_get_rule_end_date (prop : icalproperty)
    (default_timezone : option icaltimezone) : Z :=
  rule_end_date_loop (ip_x_params prop) default_timezone.

(** The first parameter with our name is overwritten, otherwise one is added. *)
Fixpoint set_end_date_loop (params : list (option string * string))
    (end_date_string : string) : list (option string * string) :=
  match params with
  | [] => [(Some EVOLUTION_END_DATE_PARAMETER, end_date_string)]
  | (xname, xvalue) :: params =>
      if decide (xname = Some EVOLUTION_END_DATE_PARAMETER)
      then (xname, end_date_string) :: params
      else (xname, xvalue) :: set_end_date_loop params end_date_string
  end.

Definition e_cal_recur_set_rule_end_date (prop : icalproperty) (end_date : Z) : icalproperty :=
  let utc_zone := icaltimezone_get_utc_timezone in
  let icaltime := icaltime_from_timet_with_zone end_date false (Some utc_zone) in
  let end_date_string := icalvalue_datetime_as_ical_string icaltime in
  mkIcalProperty (ip_value prop) (set_end_date_loop (ip_x_params prop) end_date_string).

(** The [by_day] loop: week number, then weekday are prepended. *)
Fixpoint byday_loop (by_day : list Z) (acc : list Z) : list Z :=
  match by_day with
  | [] => acc
  | d :: by_day =>
      if d =? ICAL_RECURRENCE_ARRAY_MAX then acc
      else
        let day := icalrecurrencetype_day_day_of_week d in
        let weeknum := icalrecurrencetype_day_position d in
        let weekday := e_cal_recur_ical_weekday_to_weekday day in
        byday_loop by_day (weekday :: weeknum :: acc)
  end.

Definition e_cal_recur_from_icalproperty (prop : icalproperty) (exception : bool)
    (zone : option icaltimezone) (convert_end_date : bool) : ECalRecurrence :=
  let ir := if exception then icalproperty_get_exrule prop else icalproperty_get_rrule prop in
  let enddate :=
    if negb (ir_count ir =? 0) then
      e_cal_recur_get_rule_end_date prop (if convert_end_date then zone else None)
    else if icaltime_is_null_time (ir_until ir) then 0
    else if it_is_date (ir_until ir) then
      let u := ir_until ir in
      icaltime_as_timet_with_zone
        (mkIcalTime (it_year u) (it_month u) (it_day u) 23 59 59 false (it_rest u)) zone
    else
      icaltime_as_timet_with_zone (ir_until ir) (Some icaltimezone_get_utc_timezone) in
  {|
    freq := ir_freq ir;
    interval := ir_interval ir;
    enddate := enddate;
    week_start_day := e_cal_recur_ical_weekday_to_weekday (ir_week_start ir);
    bymonth := map (fun month => month - 1) (array_to_list (ir_by_month ir));
    byweekno := array_to_list (ir_by_week_no ir);
    byyearday := array_to_list (ir_by_year_day ir);
    bymonthday := array_to_list (ir_by_month_day ir);
    byday := byday_loop (ir_by_day ir) [];
    byhour := array_to_list (ir_by_hour ir);
    byminute := array_to_list (ir_by_minute ir);
    bysecond := array_to_list (ir_by_second ir);
    bysetpos := array_to_list (ir_by_set_pos ir);
  |}.

(** [table[i] = 1] for every [i] of the list. *)
Definition mark_all (l : list Z) (table : list Z) : res (list Z) :=
  foldM (fun i t => arr_set t i 1) l table.

(** The loops of BYYEARDAY and BYMONTHDAY, with their table for negative days. *)
Definition mark_signed (l : list Z) (tables : list Z * list Z) : res (list Z * list Z) :=
  foldM (fun i '(t, neg) =>
    if 0 <=? i then t ← arr_set t i 1; Ok (t, neg)
    else neg ← arr_set neg (- i) 1; Ok (t, neg)) l tables.

(** The loop of BYDAY reads two elements at a time: [Undef] if the second is
    missing. *)
Fixpoint mark_weekdays (l : list Z) (table : list Z) : res (list Z) :=
  match l with
  | [] => Ok table
  | weekday :: week_num :: l => t ← arr_set table weekday 1; mark_weekdays l t
  | [_] => Undef
  end.

Definition cal_obj_initialize_recur_data (r : ECalRecurrence) (event_start : CalObjTime)
    : res RecurData :=
  let weekday_offset := cal_obj_time_weekday_offset event_start (week_start_day r) in
  months ← mark_all (bymonth r) (replicate 12 0);
  '(yeardays, neg_yeardays) ← mark_signed (byyearday r) (replicate 367 0, replicate 367 0);
  '(monthdays, neg_monthdays) ← mark_signed (bymonthday r) (replicate 32 0, replicate 32 0);
  weekdays ← mark_weekdays (byday r) (replicate 7 0);
  hours ← mark_all (byhour r) (replicate 24 0);
  minutes ← mark_all (byminute r) (replicate 60 0);
  seconds ← mark_all (bysecond r) (replicate 62 0);
  Ok {|
    recur := r;
    weekday_offset := weekday_offset;
    months := months;
    yeardays := yeardays;
    neg_yeardays := neg_yeardays;
    monthdays := monthdays;
    neg_monthdays := neg_monthdays;
    weekdays := weekdays;
    hours := hours;
    minutes := minutes;
    seconds := seconds;
  |}.
End rule.
