(* ===== verification/RecurRuleSpec.v ===== *)
(** * The lookup tables hold the rule's lists

    [cal_obj_initialize_recur_data] has defined behaviour exactly when every
    number of the rule is a valid index of its table; the tables then decide
    membership in the rule's lists. *)

From S2P Require Import Prelude CalTimeUtil CalObjTime Libical RecurRule.
From stdpp Require Import strings.
#[local] Open Scope Z_scope.

(** The weekdays of a BYDAY list of pairs. *)
Fixpoint byday_weekdays (l : list Z) : list Z :=
  match l with
  | weekday :: _ :: l => weekday :: byday_weekdays l
  | _ => []
  end.

Fixpoint byday_paired (l : list Z) : Prop :=
  match l with
  | [] => True
  | _ :: _ :: l => byday_paired l
  | [_] => False
  end.

(** Every number of the rule is in the range of its table. *)
Record rule_in_bounds (r : ECalRecurrence) : Prop := {
  rb_month : Forall (fun m => 0 <= m < 12) (bymonth r);
  rb_yearday : Forall (fun d => -367 < d < 367) (byyearday r);
  rb_monthday : Forall (fun d => -32 < d < 32) (bymonthday r);
  rb_paired : byday_paired (byday r);
  rb_weekday : Forall (fun d => 0 <= d < 7) (byday_weekdays (byday r));
  rb_hour : Forall (fun h => 0 <= h < 24) (byhour r);
  rb_minute : Forall (fun m => 0 <= m < 60) (byminute r);
  rb_second : Forall (fun s => 0 <= s < 62) (bysecond r);
}.

(** [t] is the characteristic table of [l] for the indices below [n]. *)
Definition table_of (n : Z) (l : list Z) (t : list Z) : Prop :=
  Z.of_nat (length t) = n /\
  forall i, 0 <= i < n -> arr_get t i = Ok (if bool_decide (i ∈ l) then 1 else 0).

Record tables_match (r : ECalRecurrence) (rd : RecurData) : Prop := {
  tm_recur : recur rd = r;
  tm_months : table_of 12 (bymonth r) (months rd);
  tm_yeardays : table_of 367 (filter (fun d => 0 <= d) (byyearday r)) (yeardays rd);
  tm_neg_yeardays :
    table_of 367 (Z.opp <$> filter (fun d => d < 0) (byyearday r)) (neg_yeardays rd);
  tm_monthdays : table_of 32 (filter (fun d => 0 <= d) (bymonthday r)) (monthdays rd);
  tm_neg_monthdays :
    table_of 32 (Z.opp <$> filter (fun d => d < 0) (bymonthday r)) (neg_monthdays rd);
  tm_weekdays : table_of 7 (byday_weekdays (byday r)) (weekdays rd);
  tm_hours : table_of 24 (byhour r) (hours rd);
  tm_minutes : table_of 60 (byminute r) (minutes rd);
  tm_seconds : table_of 62 (bysecond r) (seconds rd);
}.

Lemma table_of_empty n : table_of (Z.of_nat n) [] (replicate n 0).
Proof.
  split; [by rewrite length_replicate|]. intros i Hi. by rewrite arr_get_replicate.
Qed.

Lemma table_of_set n l t i :
  0 <= i < n -> table_of n l t -> table_of n (l ++ [i]) (<[Z.to_nat i := 1]> t).
Proof.
  intros Hi [Hl Ht]. split; [by rewrite length_insert|]. intros j Hj.
  destruct (Z.eq_dec i j) as [->|Hne].
  - rewrite arr_get_set_eq by lia. rewrite bool_decide_true; [done|].
    apply elem_of_app. right. by apply list_elem_of_singleton.
  - rewrite arr_get_set_ne, Ht by lia. f_equal.
    erewrite bool_decide_ext; [reflexivity|].
    rewrite elem_of_app, list_elem_of_singleton.
    split; [by left|]. intros [?|?]; [done|congruence].
Qed.

Lemma mark_all_spec n l0 l t :
  table_of n l0 t ->
  (Forall (fun i => 0 <= i < n) l ->
   exists t', mark_all l t = Ok t' /\ table_of n (l0 ++ l) t') /\
  (is_Ok (mark_all l t) -> Forall (fun i => 0 <= i < n) l).
Proof.
  revert l0 t. induction l as [|i l IH]; intros l0 t Ht.
  - rewrite app_nil_r. split; [by eauto|constructor].
  - unfold mark_all. simpl. split.
    + intros [Hi Hl]%Forall_cons. destruct Ht as [Hlen Hget] eqn:E. clear E.
      rewrite arr_set_Ok by lia. simpl.
      destruct (IH (l0 ++ [i]) (<[Z.to_nat i := 1]> t)) as [IH1 _].
      { apply table_of_set; [lia|]. by split. }
      destruct (IH1 Hl) as (t' & ? & ?). exists t'. by rewrite <- app_assoc in *.
    + intros (t1 & E & Hok)%is_Ok_bind. apply arr_set_inv in E as [Hi ->].
      destruct Ht as [Hlen Hget]. constructor; [lia|].
      apply (IH (l0 ++ [i]) (<[Z.to_nat i := 1]> t)); [|done].
      apply table_of_set; [lia|]. by split.
Qed.

Lemma mark_signed_spec n p0 q0 l t neg :
  table_of n p0 t -> table_of n q0 neg ->
  (Forall (fun i => - n < i < n) l ->
   exists t' neg', mark_signed l (t, neg) = Ok (t', neg') /\
     table_of n (p0 ++ filter (fun d => 0 <= d) l) t' /\
     table_of n (q0 ++ (Z.opp <$> filter (fun d => d < 0) l)) neg') /\
  (is_Ok (mark_signed l (t, neg)) -> Forall (fun i => - n < i < n) l).
Proof.
  revert p0 q0 t neg. induction l as [|i l IH]; intros p0 q0 t neg Ht Hneg.
  - rewrite !app_nil_r. split; [by eauto 10|constructor].
  - unfold mark_signed. simpl. rewrite !filter_cons. split.
    + intros [Hi Hl]%Forall_cons. destruct (Z.leb_spec 0 i).
      * rewrite decide_True, decide_False by lia.
        rewrite arr_set_Ok by (destruct Ht; lia). simpl.
        destruct (IH (p0 ++ [i]) q0 (<[Z.to_nat i := 1]> t) neg) as [IH1 _]; [|done|].
        { apply table_of_set; [lia|done]. }
        rewrite <- app_assoc in IH1. by apply IH1.
      * rewrite decide_False, decide_True by lia.
        rewrite arr_set_Ok by (destruct Hneg; lia). simpl.
        destruct (IH p0 (q0 ++ [- i]) t (<[Z.to_nat (- i) := 1]> neg)) as [IH1 _]; [done| |].
        { apply table_of_set; [lia|done]. }
        rewrite <- app_assoc in IH1. by apply IH1.
    + intros ([t1 neg1] & E & Hok)%is_Ok_bind. destruct (Z.leb_spec 0 i).
      * apply res_bind_inv in E as (t2 & E & [= -> ->]). apply arr_set_inv in E as [Hi ->].
        destruct Ht as [Hlen Hget]. constructor; [lia|].
        apply (IH (p0 ++ [i]) q0 (<[Z.to_nat i := 1]> t) neg1); [|done|done].
        apply table_of_set; [lia|by split].
      * apply res_bind_inv in E as (t2 & E & [= -> ->]). apply arr_set_inv in E as [Hi ->].
        destruct Hneg as [Hlen Hget]. constructor; [lia|].
        apply (IH p0 (q0 ++ [- i]) t1 (<[Z.to_nat (- i) := 1]> neg)); [done| |done].
        apply table_of_set; [lia|by split].
Qed.

(** Induction two elements at a time, as BYDAY lists are read. *)
Lemma pair_list_ind (P : list Z -> Prop) :
  P [] -> (forall a, P [a]) -> (forall a b l, P l -> P (a :: b :: l)) -> forall l, P l.
Proof.
  intros H0 H1 H2. fix IH 1. intros [|a [|b l]]; [done|done|]. apply H2, IH.
Qed.

Lemma mark_weekdays_spec l l0 t :
  table_of 7 l0 t ->
  (byday_paired l -> Forall (fun d => 0 <= d < 7) (byday_weekdays l) ->
   exists t', mark_weekdays l t = Ok t' /\ table_of 7 (l0 ++ byday_weekdays l) t') /\
  (is_Ok (mark_weekdays l t) -> byday_paired l /\ Forall (fun d => 0 <= d < 7) (byday_weekdays l)).
Proof.
  revert l0 t. induction l as [|a|a b l IH] using pair_list_ind; intros l0 t Ht.
  - simpl. rewrite app_nil_r. split; [by eauto|]. split; [done|constructor].
  - simpl. split; [done|]. intros [? ?]; done.
  - simpl. split.
    + intros Hp [Ha Hl]%Forall_cons. rewrite arr_set_Ok by (destruct Ht; lia). simpl.
      destruct (IH (l0 ++ [a]) (<[Z.to_nat a := 1]> t)) as [IH1 _].
      { apply table_of_set; [lia|done]. }
      rewrite <- app_assoc in IH1. by apply IH1.
    + intros (t1 & E & Hok)%is_Ok_bind. apply arr_set_inv in E as [Hi ->].
      destruct (IH (l0 ++ [a]) (<[Z.to_nat a := 1]> t)) as [_ IH2].
      { apply table_of_set; [destruct Ht; lia|done]. }
      destruct (IH2 Hok). split; [done|]. constructor; [destruct Ht; lia|done].
Qed.

Section initialize.
Context {G : GDate}.

Lemma initialize_Ok r event_start :
  rule_in_bounds r ->
  exists rd, cal_obj_initialize_recur_data r event_start = Ok rd /\ tables_match r rd /\
    weekday_offset rd = cal_obj_time_weekday_offset event_start (week_start_day r).
Proof.
  intros []. unfold cal_obj_initialize_recur_data.
  destruct (mark_all_spec 12 [] (bymonth r) (replicate 12 0)) as [Hm _];
    [apply table_of_empty|]. destruct Hm as (t1 & -> & H1); [done|]. rewrite res_bind_Ok.
  destruct (mark_signed_spec 367 [] [] (byyearday r) (replicate 367 0) (replicate 367 0)) as [Hm _];
    [apply table_of_empty..|]. destruct Hm as (t2 & t3 & -> & H2 & H3); [done|]. rewrite res_bind_Ok.
  destruct (mark_signed_spec 32 [] [] (bymonthday r) (replicate 32 0) (replicate 32 0)) as [Hm _];
    [apply table_of_empty..|]. destruct Hm as (t4 & t5 & -> & H4 & H5); [done|]. rewrite res_bind_Ok.
  destruct (mark_weekdays_spec (byday r) [] (replicate 7 0)) as [Hm _];
    [apply table_of_empty|]. destruct Hm as (t6 & -> & H6); [done..|]. rewrite res_bind_Ok.
  destruct (mark_all_spec 24 [] (byhour r) (replicate 24 0)) as [Hm _];
    [apply table_of_empty|]. destruct Hm as (t7 & -> & H7); [done|]. rewrite res_bind_Ok.
  destruct (mark_all_spec 60 [] (byminute r) (replicate 60 0)) as [Hm _];
    [apply table_of_empty|]. destruct Hm as (t8 & -> & H8); [done|]. rewrite res_bind_Ok.
  destruct (mark_all_spec 62 [] (bysecond r) (replicate 62 0)) as [Hm _];
    [apply table_of_empty|]. destruct Hm as (t9 & -> & H9); [done|]. rewrite res_bind_Ok.
  eexists. split; [reflexivity|]. split; [|done]. split; done.
Qed.

Lemma initialize_inv r event_start :
  is_Ok (cal_obj_initialize_recur_data r event_start) -> rule_in_bounds r.
Proof.
  unfold cal_obj_initialize_recur_data. intros H.
  apply is_Ok_bind in H as (t1 & E1 & H).
  apply is_Ok_bind in H as ([t2 t3] & E2 & H).
  apply is_Ok_bind in H as ([t4 t5] & E4 & H).
  apply is_Ok_bind in H as (t6 & E6 & H).
  apply is_Ok_bind in H as (t7 & E7 & H).
  apply is_Ok_bind in H as (t8 & E8 & H).
  apply is_Ok_bind in H as (t9 & E9 & _).
  split.
  - apply (mark_all_spec 12 [] _ _ (table_of_empty 12)). by eexists.
  - apply (mark_signed_spec 367 [] [] _ _ _ (table_of_empty 367) (table_of_empty 367)).
    by eexists.
  - apply (mark_signed_spec 32 [] [] _ _ _ (table_of_empty 32) (table_of_empty 32)).
    by eexists.
  - apply (mark_weekdays_spec _ [] _ (table_of_empty 7)). by eexists.
  - apply (mark_weekdays_spec _ [] _ (table_of_empty 7)). by eexists.
  - apply (mark_all_spec 24 [] _ _ (table_of_empty 24)). by eexists.
  - apply (mark_all_spec 60 [] _ _ (table_of_empty 60)). by eexists.
  - apply (mark_all_spec 62 [] _ _ (table_of_empty 62)). by eexists.
Qed.
End initialize.

(** C40: filling the lookup tables writes only inside them exactly when every
    number of the rule is in range ([cal_obj_initialize_recur_data] checks
    nothing itself); every table then holds exactly the numbers of its list. *)
Theorem initialize_recur_data_safe (G : GDate) (r : ECalRecurrence) (event_start : CalObjTime) :
  (is_Ok (cal_obj_initialize_recur_data r event_start) <-> rule_in_bounds r) /\
  (rule_in_bounds r ->
   exists rd, cal_obj_initialize_recur_data r event_start = Ok rd /\ tables_match r rd).
Proof.
  split; [split|].
  - apply initialize_inv.
  - intros H. destruct (initialize_Ok r event_start H) as (rd & E & _). by exists rd.
  - intros H. destruct (initialize_Ok r event_start H) as (rd & E & ? & _). by exists rd.
Qed.

(** A rule with every list empty. *)
Definition plain_rule (f : icalrecurrencetype_frequency) (i : Z) : ECalRecurrence :=
  mkECalRecurrence f i 0 0 [] [] [] [] [] [] [] [] [].

Lemma initialize_recur_data_safe_witness :
  exists rd, @cal_obj_initialize_recur_data GDate_gregorian
    (mkECalRecurrence ICAL_MONTHLY_RECURRENCE 1 0 0 [0; 11] [] [] [15; -1] [4; 1; 4; -1] [9] [] [] [])
    (mkCalObjTime 2006 0 2 9 0 0 false) = Ok rd /\ arr_get (neg_monthdays rd) 1 = Ok 1.
Proof.
  set (r := mkECalRecurrence _ _ _ _ _ _ _ _ _ _ _ _ _).
  destruct (initialize_recur_data_safe GDate_gregorian r (mkCalObjTime 2006 0 2 9 0 0 false))
    as [_ H]. destruct H as (rd & E & T).
  - split; simpl; repeat constructor; lia.
  - exists rd. split; [exact E|]. destruct T as [_ _ _ _ _ [_ H] _ _ _ _].
    rewrite H by lia. reflexivity.
Defined.
