(* ===== verification/RecurFilters.v ===== *)
(** * The BYxxx modifiers ([cal_obj_by*_expand] and [cal_obj_by*_filter] of
    [e-cal-recur.c])

    A [GArray] of times is a list.  The filters keep the elements that pass a
    table lookup; the expansions replace every element by the times the rule's
    list produces from it.  The C code mutates the element in place while it
    walks the rule's list, so the expansions thread it. *)

From S2P Require Import Prelude CalTimeUtil CalObjTime Libical RecurRule.

Definition is_empty {A} (l : list A) : bool :=
  match l with [] => true | _ => false end.

(** The common shape of the filters: keep the elements that pass [test]. *)
Fixpoint filterM (test : CalObjTime -> res bool) (occs : list CalObjTime) : res (list CalObjTime) :=
  match occs with
  | [] => Ok []
  | occ :: occs =>
      b ← test occ;
      new_occs ← filterM test occs;
      Ok (if b : bool then occ :: new_occs else new_occs)
  end.

(** The common shape of the expansions: append what each element expands to. *)
Fixpoint expandM (f : CalObjTime -> res (list CalObjTime)) (occs : list CalObjTime)
    : res (list CalObjTime) :=
  match occs with
  | [] => Ok []
  | occ :: occs => new1 ← f occ; new2 ← expandM f occs; Ok (new1 ++ new2)
  end.

(** Store each value of the rule's list into a field of the element. *)
Fixpoint expand_field (set : Z -> CalObjTime -> CalObjTime) (elems : list Z) (occ : CalObjTime)
    : list CalObjTime :=
  match elems with
  | [] => []
  | x :: elems => let occ := set x occ in occ :: expand_field set elems occ
  end.

(** [while (in period) { append; add 7 days }]: the appended times and the
    final value of the element. *)
Fixpoint week_loop (fuel : nat) (in_period : CalObjTime -> bool) (occ : CalObjTime)
    : res (list CalObjTime * CalObjTime) :=
  match fuel with
  | O => NoFuel
  | S fuel =>
      if in_period occ then
        next ← cal_obj_time_add_days occ 7;
        '(l, last) ← week_loop fuel in_period next;
        Ok (occ :: l, last)
      else Ok ([], occ)
  end.

(** A year has at most 53 of any weekday. *)
Definition week_loop_fuel : nat := 60.

Definition tbl (t : list Z) (i : Z) : res bool := b ← arr_get t i; Ok (negb (b =? 0)).

Definition cal_obj_bymonth_expand (rd : RecurData) (occs : list CalObjTime) : res (list CalObjTime) :=
  if is_empty (bymonth (recur rd)) || is_empty occs then Ok occs
  else expandM (fun occ => Ok (expand_field set_month (bymonth (recur rd)) occ)) occs.

Definition cal_obj_bymonth_filter (rd : RecurData) (occs : list CalObjTime) : res (list CalObjTime) :=
  if is_empty (bymonth (recur rd)) || is_empty occs then Ok occs
  else filterM (fun occ => tbl (months rd) (co_month occ)) occs.

Definition cal_obj_byhour_expand (rd : RecurData) (occs : list CalObjTime) : res (list CalObjTime) :=
  if is_empty (byhour (recur rd)) || is_empty occs then Ok occs
  else expandM (fun occ => Ok (expand_field set_hour (byhour (recur rd)) occ)) occs.

Definition cal_obj_byhour_filter (rd : RecurData) (occs : list CalObjTime) : res (list CalObjTime) :=
  if is_empty (byhour (recur rd)) || is_empty occs then Ok occs
  else filterM (fun occ => tbl (hours rd) (co_hour occ)) occs.

Definition cal_obj_byminute_expand (rd : RecurData) (occs : list CalObjTime) : res (list CalObjTime) :=
  if is_empty (byminute (recur rd)) || is_empty occs then Ok occs
  else expandM (fun occ => Ok (expand_field set_minute (byminute (recur rd)) occ)) occs.

Definition cal_obj_byminute_filter (rd : RecurData) (occs : list CalObjTime) : res (list CalObjTime) :=
  if is_empty (byminute (recur rd)) || is_empty occs then Ok occs
  else filterM (fun occ => tbl (minutes rd) (co_minute occ)) occs.

Definition cal_obj_bysecond_expand (rd : RecurData) (occs : list CalObjTime) : res (list CalObjTime) :=
  if is_empty (bysecond (recur rd)) || is_empty occs then Ok occs
  else expandM (fun occ => Ok (expand_field set_second (bysecond (recur rd)) occ)) occs.

Definition cal_obj_bysecond_filter (rd : RecurData) (occs : list CalObjTime) : res (list CalObjTime) :=
  if is_empty (bysecond (recur rd)) || is_empty occs then Ok occs
  else filterM (fun occ => tbl (seconds rd) (co_second occ)) occs.

(** Positive day numbers count from the 1st of the year, the others back from
    the 1st of the next year; days that fall outside the year are dropped. *)
Definition byyearday_elem (occ : CalObjTime) (dayno : Z) : res (list CalObjTime) :=
  let year_start_cotime := set_day 1 (set_month 0 occ) in
  let year_end_cotime := set_day 1 (set_month 0 (set_year (co_year occ + 1) occ)) in
  cotime ← (if 0 <? dayno
            then cal_obj_time_add_days year_start_cotime (dayno - 1)
            else cal_obj_time_add_days year_end_cotime dayno);
  Ok (if co_year cotime =? co_year occ then [cotime] else []).

Fixpoint elemsM (f : Z -> res (list CalObjTime)) (elems : list Z) : res (list CalObjTime) :=
  match elems with
  | [] => Ok []
  | x :: elems => new1 ← f x; new2 ← elemsM f elems; Ok (new1 ++ new2)
  end.

Definition cal_obj_byyearday_expand (rd : RecurData) (occs : list CalObjTime) : res (list CalObjTime) :=
  if is_empty (byyearday (recur rd)) || is_empty occs then Ok occs
  else expandM (fun occ => elemsM (byyearday_elem occ) (byyearday (recur rd))) occs.

(** As for years, except that a day outside the month is moved to its last day. *)
Definition bymonthday_elem (occ : CalObjTime) (dayno : Z) : res (list CalObjTime) :=
  let month_start_cotime := set_day 1 occ in
  let month_end_cotime := set_day 1 (set_month (co_month occ + 1) occ) in
  cotime ← (if 0 <? dayno
            then cal_obj_time_add_days month_start_cotime (dayno - 1)
            else cal_obj_time_add_days month_end_cotime dayno);
  if co_month cotime =? co_month occ then Ok [cotime]
  else
    dim ← time_days_in_month (co_year occ) (co_month occ);
    Ok [set_day dim (set_month (co_month occ) cotime)].

Definition cal_obj_bymonthday_expand (rd : RecurData) (occs : list CalObjTime) : res (list CalObjTime) :=
  if is_empty (bymonthday (recur rd)) || is_empty occs then Ok occs
  else expandM (fun occ => elemsM (bymonthday_elem occ) (bymonthday (recur rd))) occs.

Definition bymonthday_test (rd : RecurData) (occ : CalObjTime) : res bool :=
  b ← tbl (monthdays rd) (co_day occ);
  if b : bool then Ok true
  else
    days_in_month ← time_days_in_month (co_year occ) (co_month occ);
    tbl (neg_monthdays rd) (days_in_month + 1 - co_day occ).

Definition cal_obj_bymonthday_filter (rd : RecurData) (occs : list CalObjTime) : res (list CalObjTime) :=
  if is_empty (bymonthday (recur rd)) || is_empty occs then Ok occs
  else filterM (bymonthday_test rd) occs.

(** The loop over the pairs of BYDAY in a year or month.  [pair weekday
    week_num occ] gives the appended times and the new value of the element;
    [reset] puts its year (and month) back. *)
Fixpoint byday_elems (pair : Z -> Z -> CalObjTime -> res (list CalObjTime * CalObjTime))
    (reset : CalObjTime -> CalObjTime -> CalObjTime) (elems : list Z) (occ : CalObjTime)
    : res (list CalObjTime) :=
  match elems with
  | [] => Ok []
  | weekday :: week_num :: elems =>
      '(new1, occ') ← pair weekday week_num occ;
      new2 ← byday_elems pair reset elems (reset occ occ');
      Ok (new1 ++ new2)
  | [_] => Undef
  end.

Section filters.
Context {G : GDate}.

Definition byweekno_elem (rd : RecurData) (occ year_start_cotime year_end_cotime : CalObjTime)
    (weekno : Z) : res (list CalObjTime) :=
  cotime ← (if 0 <? weekno
            then cal_obj_time_add_days year_start_cotime ((weekno - 1) * 7)
            else cal_obj_time_add_days year_end_cotime (weekno * 7));
  Ok (if co_year cotime =? co_year occ then [cotime] else []).

Definition byweekno_occ (rd : RecurData) (occ : CalObjTime) : res (list CalObjTime) :=
  year_start_cotime ←
    cal_obj_time_find_first_week occ (week_start_day (recur rd)) (weekday_offset rd);
  year_end_cotime ←
    cal_obj_time_find_first_week (set_year (co_year occ + 1) occ)
      (week_start_day (recur rd)) (weekday_offset rd);
  elemsM (byweekno_elem rd occ year_start_cotime year_end_cotime) (byweekno (recur rd)).

Definition cal_obj_byweekno_expand (rd : RecurData) (occs : list CalObjTime) : res (list CalObjTime) :=
  if is_empty (byweekno (recur rd)) || is_empty occs then Ok occs
  else expandM (byweekno_occ rd) occs.

Definition byyearday_test (rd : RecurData) (occ : CalObjTime) : res bool :=
  let yearday := cal_obj_time_day_of_year occ in
  b ← tbl (yeardays rd) yearday;
  if b : bool then Ok true
  else
    let days_in_year := if g_date_is_leap_year (co_year occ) then 366 else 365 in
    tbl (neg_yeardays rd) (days_in_year + 1 - yearday).

Definition cal_obj_byyearday_filter (rd : RecurData) (occs : list CalObjTime) : res (list CalObjTime) :=
  if is_empty (byyearday (recur rd)) || is_empty occs then Ok occs
  else filterM (byyearday_test rd) occs.

(** One (weekday, week number) pair of BYDAY in a year: the appended times
    and the new value of the element. *)
Definition byday_yearly_pair (weekday week_num : Z) (occ : CalObjTime)
    : res (list CalObjTime * CalObjTime) :=
  let year := co_year occ in
  if week_num =? 0 then
    let occ := set_day 1 (set_month 0 occ) in
    let first_weekday := cal_obj_time_weekday occ in
    let offset := Z.rem (weekday + 7 - first_weekday) 7 in
    occ ← cal_obj_time_add_days occ offset;
    week_loop week_loop_fuel (fun occ => co_year occ =? year) occ
  else if 0 <? week_num then
    let occ := set_day 1 (set_month 0 occ) in
    let first_weekday := cal_obj_time_weekday occ in
    let offset := Z.rem (weekday + 7 - first_weekday) 7 in
    let offset := offset + (week_num - 1) * 7 in
    occ ← cal_obj_time_add_days occ offset;
    Ok (if co_year occ =? year then [occ] else [], occ)
  else
    let occ := set_day 31 (set_month 11 occ) in
    let last_weekday := cal_obj_time_weekday occ in
    let offset := Z.rem (last_weekday + 7 - weekday) 7 in
    let offset := offset + (week_num - 1) * 7 in
    occ ← cal_obj_time_add_days occ (- offset);
    Ok (if co_year occ =? year then [occ] else [], occ).

Definition byday_yearly_elems : list Z -> CalObjTime -> res (list CalObjTime) :=
  byday_elems byday_yearly_pair (fun occ occ' => set_year (co_year occ) occ').

Definition cal_obj_byday_expand_yearly (rd : RecurData) (occs : list CalObjTime) : res (list CalObjTime) :=
  if is_empty (byday (recur rd)) || is_empty occs then Ok occs
  else expandM (byday_yearly_elems (byday (recur rd))) occs.

(** The same for a month. *)
Definition byday_monthly_pair (weekday week_num : Z) (occ : CalObjTime)
    : res (list CalObjTime * CalObjTime) :=
  let year := co_year occ in
  let month := co_month occ in
  if week_num =? 0 then
    let occ := set_day 1 occ in
    let first_weekday := cal_obj_time_weekday occ in
    let offset := Z.rem (weekday + 7 - first_weekday) 7 in
    occ ← cal_obj_time_add_days occ offset;
    week_loop week_loop_fuel
      (fun occ => (co_year occ =? year) && (co_month occ =? month)) occ
  else if 0 <? week_num then
    let occ := set_day 1 occ in
    let first_weekday := cal_obj_time_weekday occ in
    let offset := Z.rem (weekday + 7 - first_weekday) 7 in
    let offset := offset + (week_num - 1) * 7 in
    occ ← cal_obj_time_add_days occ offset;
    Ok (if (co_year occ =? year) && (co_month occ =? month) then [occ] else [], occ)
  else
    dim ← time_days_in_month (co_year occ) (co_month occ);
    let occ := set_day dim occ in
    let last_weekday := cal_obj_time_weekday occ in
    let offset := Z.rem (last_weekday + 7 - weekday) 7 in
    let offset := offset + (- week_num - 1) * 7 in
    occ ← cal_obj_time_add_days occ (- offset);
    Ok (if (co_year occ =? year) && (co_month occ =? month) then [occ] else [], occ).

Definition byday_monthly_elems : list Z -> CalObjTime -> res (list CalObjTime) :=
  byday_elems byday_monthly_pair
    (fun occ occ' => set_month (co_month occ) (set_year (co_year occ) occ')).

Definition cal_obj_byday_expand_monthly (rd : RecurData) (occs : list CalObjTime) : res (list CalObjTime) :=
  if is_empty (byday (recur rd)) || is_empty occs then Ok occs
  else expandM (byday_monthly_elems (byday (recur rd))) occs.

(** In a week the week number is not used. *)
Fixpoint byday_weekly_elems (wkst : Z) (elems : list Z) (occ : CalObjTime) : res (list CalObjTime) :=
  match elems with
  | [] => Ok []
  | weekday :: week_num :: elems =>
      let weekday_offset := cal_obj_time_weekday_offset occ wkst in
      let new_weekday_offset := Z.rem (weekday + 7 - wkst) 7 in
      occ ← cal_obj_time_add_days occ (new_weekday_offset - weekday_offset);
      new2 ← byday_weekly_elems wkst elems occ;
      Ok (occ :: new2)
  | [_] => Undef
  end.

Definition cal_obj_byday_expand_weekly (rd : RecurData) (occs : list CalObjTime) : res (list CalObjTime) :=
  if is_empty (byday (recur rd)) || is_empty occs then Ok occs
  else expandM (byday_weekly_elems (week_start_day (recur rd)) (byday (recur rd))) occs.

Definition cal_obj_byday_filter (rd : RecurData) (occs : list CalObjTime) : res (list CalObjTime) :=
  if is_empty (byday (recur rd)) || is_empty occs then Ok occs
  else filterM (fun occ => tbl (weekdays rd) (cal_obj_time_weekday occ)) occs.
End filters.
