(* ===== verification/RecurFiltersSpec.v ===== *)
(** * What the BYxxx filters and expansions compute

    The filters keep exactly the times whose field is in the rule's list; the
    expansions of the month and clock fields are cross products. *)

From S2P Require Import Prelude CalTimeUtil CalObjTime CalObjTimeSpec Libical RecurRule RecurRuleSpec RecurFilters.

(** ** Generic lemmas on the two shapes *)

Lemma filterM_spec (test : CalObjTime -> res bool) (P : CalObjTime -> Prop)
    `{!forall c, Decision (P c)} occs :
  Forall (fun c => test c = Ok (bool_decide (P c))) occs ->
  filterM test occs = Ok (filter P occs).
Proof.
  induction 1 as [|c occs Hc _ IH]; [done|]. simpl. rewrite Hc, res_bind_Ok, IH, res_bind_Ok.
  rewrite filter_cons. case_bool_decide; case_decide; done.
Qed.

Lemma expandM_spec (f : CalObjTime -> res (list CalObjTime)) (g : CalObjTime -> list CalObjTime) occs :
  Forall (fun c => f c = Ok (g c)) occs -> expandM f occs = Ok (concat (g <$> occs)).
Proof.
  induction 1 as [|c occs Hc _ IH]; [done|]. simpl. by rewrite Hc, res_bind_Ok, IH.
Qed.

Lemma elemsM_spec (f : Z -> res (list CalObjTime)) (g : Z -> list CalObjTime) l :
  Forall (fun x => f x = Ok (g x)) l -> elemsM f l = Ok (concat (g <$> l)).
Proof.
  induction 1 as [|c occs Hc _ IH]; [done|]. simpl. by rewrite Hc, res_bind_Ok, IH.
Qed.

Lemma expand_field_map set l occ :
  (forall x y c, set x (set y c) = set x c) ->
  expand_field set l occ = (fun x => set x occ) <$> l.
Proof.
  intros Hset. revert occ. induction l as [|x l IH]; intros occ; [done|].
  simpl. f_equal. rewrite IH. apply list_fmap_ext. intros. apply Hset.
Qed.

Lemma tbl_table n l t i :
  table_of n l t -> 0 <= i < n -> tbl t i = Ok (bool_decide (i ∈ l)).
Proof.
  intros [_ Ht] Hi. unfold tbl. rewrite Ht by lia. simpl. by case_bool_decide.
Qed.

(** ** Filters *)

(** A modifier that is not given selects everything. *)
Definition selected (l : list Z) (x : Z) : Prop := l = [] \/ x ∈ l.
#[export] Instance selected_dec l x : Decision (selected l x).
Proof. unfold selected. apply _. Defined.

(** Day numbers from the start, from 1, or from the end, from -1. *)
Definition selected_day (l : list Z) (day len : Z) : Prop :=
  l = [] \/ day ∈ l \/ day - (len + 1) ∈ l.
#[export] Instance selected_day_dec l day len : Decision (selected_day l day len).
Proof. unfold selected_day. apply _. Defined.

Lemma filter_all {A} (P : A -> Prop) `{!forall x, Decision (P x)} (l : list A) :
  Forall P l -> filter P l = l.
Proof.
  induction 1 as [|x l Hx _ IH]; [done|]. rewrite filter_cons, decide_True by done. by f_equal.
Qed.

(** The guard of every filter does not change its result. *)
Lemma guarded_filter (l : list Z) (occs : list CalObjTime) test P
    `{!forall c : CalObjTime, Decision (P c)} :
  (l = [] -> forall c, P c) ->
  (l <> [] -> Forall (fun c => test c = Ok (bool_decide (P c))) occs) ->
  (if is_empty l || is_empty occs then Ok occs else filterM test occs) = Ok (filter P occs).
Proof.
  intros Hnil Hcons. destruct l as [|x l]; simpl.
  - rewrite filter_all; [done|]. apply Forall_true. auto.
  - destruct occs; [done|]. apply filterM_spec, Hcons. done.
Qed.

Lemma selected_table n l t i :
  l <> [] -> table_of n l t -> 0 <= i < n -> tbl t i = Ok (bool_decide (selected l i)).
Proof.
  intros Hl Ht Hi. rewrite (tbl_table n l) by done. f_equal.
  apply bool_decide_ext. unfold selected. split; [by right|by intros [?|?]].
Qed.

(** The pair of tables of BYMONTHDAY and BYYEARDAY. *)
Lemma signed_tables n l t neg day len :
  l <> [] -> table_of n (filter (fun d => 0 <= d) l) t ->
  table_of n (Z.opp <$> filter (fun d => d < 0) l) neg ->
  1 <= day <= len -> len < n ->
  (b ← tbl t day; if b : bool then Ok true else tbl neg (len + 1 - day))
  = Ok (bool_decide (selected_day l day len)).
Proof.
  intros Hl Ht Hneg Hd Hlen.
  rewrite (tbl_table n _ t day Ht) by lia. rewrite res_bind_Ok.
  rewrite (tbl_table n _ neg (len + 1 - day) Hneg) by lia.
  assert (day ∈ filter (fun d => 0 <= d) l <-> day ∈ l) as E1.
  { rewrite list_elem_of_filter. split; [tauto|split; [lia|done]]. }
  assert (len + 1 - day ∈ Z.opp <$> filter (fun d => d < 0) l <-> day - (len + 1) ∈ l) as E2.
  { rewrite list_elem_of_fmap. split.
    - intros (x & Ex & Hx). apply list_elem_of_filter in Hx as [_ Hx].
      by replace (day - (len + 1)) with x by lia.
    - intros Hx. exists (day - (len + 1)). split; [lia|]. apply list_elem_of_filter. split; [lia|done]. }
  unfold selected_day.
  repeat case_bool_decide; try done; exfalso; tauto.
Qed.

Section filter_lemmas.
Context {G : GDate} `{!GDateLaws G}.

(** What the seven filters of a rule decide about a time. *)
Definition weekday_of (c : CalObjTime) : Z := Gregorian.wday (serial c).
Definition yearday_of (c : CalObjTime) : Z := serial c - Gregorian.year_base (co_year c).

Lemma yearday_range c : date_ok c -> 1 <= yearday_of c <= Gregorian.ydays (co_year c).
Proof.
  intros [_ Hv]. pose proof (Gregorian.before_month_bounds _ _ _ Hv).
  unfold yearday_of, serial, Gregorian.serial. lia.
Qed.
End filter_lemmas.

Lemma filters_sound (G : GDate) (GL : GDateLaws G) (r : ECalRecurrence) (rd : RecurData)
    (occs : list CalObjTime) (Hrd : tables_match r rd) (Hocc : Forall time_ok occs) :
  cal_obj_bymonth_filter rd occs =
    Ok (filter (fun c => selected (bymonth r) (co_month c)) occs) /\
  cal_obj_byyearday_filter rd occs =
    Ok (filter (fun c => selected_day (byyearday r) (yearday_of c) (Gregorian.ydays (co_year c))) occs) /\
  cal_obj_bymonthday_filter rd occs =
    Ok (filter (fun c => selected_day (bymonthday r) (co_day c)
                           (Gregorian.mdays (co_year c) (co_month c))) occs) /\
  (byday_paired (byday r) ->
   cal_obj_byday_filter rd occs =
     Ok (filter (fun c => selected (byday_weekdays (byday r)) (weekday_of c)) occs)) /\
  cal_obj_byhour_filter rd occs =
    Ok (filter (fun c => selected (byhour r) (co_hour c)) occs) /\
  cal_obj_byminute_filter rd occs =
    Ok (filter (fun c => selected (byminute r) (co_minute c)) occs) /\
  cal_obj_bysecond_filter rd occs =
    Ok (filter (fun c => selected (bysecond r) (co_second c)) occs).
Proof.
  destruct Hrd as [<- Tm Ty Tny Td Tnd Tw Th Tmi Ts].
  assert (forall P : CalObjTime -> Prop, (forall c, time_ok c -> P c) -> Forall P occs) as Hall.
  { intros P HP. eapply Forall_impl; [exact Hocc|exact HP]. }
  unfold cal_obj_bymonth_filter, cal_obj_byyearday_filter, cal_obj_bymonthday_filter,
    cal_obj_byday_filter, cal_obj_byhour_filter, cal_obj_byminute_filter, cal_obj_bysecond_filter.
  repeat apply conj; try intros Hp; (apply guarded_filter;
    [by intros E c; rewrite E; left|intros Hne; apply Hall; intros c [[Hy Hv] Hc]]).
  - apply (selected_table 12); (done || apply Hv).
  - unfold byyearday_test. rewrite day_of_year_spec by done. fold (yearday_of c).
    rewrite g_date_leap_law by lia. fold (Gregorian.ydays (co_year c)).
    pose proof (yearday_range c (conj Hy Hv)). pose proof (Gregorian.ydays_range (co_year c)).
    apply (signed_tables 367); (done || lia).
  - unfold bymonthday_test. rewrite time_days_in_month_spec by (apply Hv || lia).
    pose proof (Gregorian.mdays_range (co_year c) (co_month c)). destruct Hv.
    apply (signed_tables 32); (done || lia).
  - rewrite weekday_spec by done. fold (weekday_of c).
    apply (selected_table 7); [|done|apply Gregorian.wday_range].
    destruct (byday (recur rd)) as [|? [|? ?]]; done.
  - apply (selected_table 24); (done || apply Hc).
  - apply (selected_table 60); (done || apply Hc).
  - apply (selected_table 62); [done..|]. destruct Hc as (_ & _ & ?). lia.
Qed.

(** C36: every BYxxx filter keeps, in order, exactly the times whose month,
    day of the year, day of the month, weekday, hour, minute or second the
    rule's list selects; negative days count from the end of the year or month;
    a list that is not given selects everything. *)
Theorem filters_select (G : GDate) (GL : GDateLaws G) (r : ECalRecurrence) (rd : RecurData)
    (occs : list CalObjTime) (Hrd : tables_match r rd) (Hocc : Forall time_ok occs) :
  cal_obj_bymonth_filter rd occs =
    Ok (filter (fun c => selected (bymonth r) (co_month c)) occs) /\
  cal_obj_byyearday_filter rd occs =
    Ok (filter (fun c => selected_day (byyearday r) (yearday_of c) (Gregorian.ydays (co_year c))) occs) /\
  cal_obj_bymonthday_filter rd occs =
    Ok (filter (fun c => selected_day (bymonthday r) (co_day c)
                           (Gregorian.mdays (co_year c) (co_month c))) occs) /\
  (byday_paired (byday r) ->
   cal_obj_byday_filter rd occs =
     Ok (filter (fun c => selected (byday_weekdays (byday r)) (weekday_of c)) occs)) /\
  cal_obj_byhour_filter rd occs =
    Ok (filter (fun c => selected (byhour r) (co_hour c)) occs) /\
  cal_obj_byminute_filter rd occs =
    Ok (filter (fun c => selected (byminute r) (co_minute c)) occs) /\
  cal_obj_bysecond_filter rd occs =
    Ok (filter (fun c => selected (bysecond r) (co_second c)) occs).
Proof. by apply filters_sound. Qed.

(** A rule for the examples: the last day of every January and December and
    the Fridays, at 9 o'clock. *)
Definition sample_rule : ECalRecurrence :=
  mkECalRecurrence ICAL_DAILY_RECURRENCE 1 0 0 [0; 11] [] [] [-1] [] [9] [] [] [].

Lemma sample_rule_tables :
  exists rd, @cal_obj_initialize_recur_data GDate_gregorian sample_rule
    (mkCalObjTime 2006 0 31 9 0 0 false) = Ok rd /\ tables_match sample_rule rd.
Proof.
  apply initialize_recur_data_safe. split; simpl; repeat constructor; lia.
Qed.

Lemma filters_select_witness :
  exists rd, tables_match sample_rule rd /\
    cal_obj_bymonthday_filter rd [mkCalObjTime 2006 0 30 9 0 0 false; mkCalObjTime 2006 0 31 9 0 0 false]
    = Ok [mkCalObjTime 2006 0 31 9 0 0 false].
Proof.
  destruct sample_rule_tables as (rd & _ & Hrd). exists rd. split; [exact Hrd|].
  destruct (filters_select GDate_gregorian _ sample_rule rd
    [mkCalObjTime 2006 0 30 9 0 0 false; mkCalObjTime 2006 0 31 9 0 0 false] Hrd)
    as (_ & _ & E & _).
  - concrete.
  - rewrite E. reflexivity.
Defined.

(** ** Clock expansions *)

Lemma guarded_expand (l : list Z) (occs : list CalObjTime) f (g : CalObjTime -> list CalObjTime) :
  l <> [] -> Forall (fun c => f c = Ok (g c)) occs ->
  (if is_empty l || is_empty occs then Ok occs else expandM f occs) = Ok (concat (g <$> occs)).
Proof.
  intros Hl Hf. destruct l; [done|]. destruct occs; [done|]. by apply expandM_spec.
Qed.

Lemma field_expand (l : list Z) occs set :
  (forall x y c, set x (set y c) = set x c) -> l <> [] ->
  (if is_empty l || is_empty occs then Ok occs
   else expandM (fun occ => Ok (expand_field set l occ)) occs)
  = Ok (concat ((fun occ => (fun x => set x occ) <$> l) <$> occs)).
Proof.
  intros Hset Hl. apply guarded_expand; [done|]. apply Forall_true. intros c.
  by rewrite expand_field_map.
Qed.

Lemma clock_expansions (rd : RecurData) (occs : list CalObjTime) :
  let product (set : Z -> CalObjTime -> CalObjTime) (l : list Z) :=
    if decide (l = []) then occs
    else concat ((fun occ => (fun x => set x occ) <$> l) <$> occs) in
  cal_obj_bymonth_expand rd occs = Ok (product set_month (bymonth (recur rd))) /\
  cal_obj_byhour_expand rd occs = Ok (product set_hour (byhour (recur rd))) /\
  cal_obj_byminute_expand rd occs = Ok (product set_minute (byminute (recur rd))) /\
  cal_obj_bysecond_expand rd occs = Ok (product set_second (bysecond (recur rd))).
Proof.
  intros product. unfold cal_obj_bymonth_expand, cal_obj_byhour_expand,
    cal_obj_byminute_expand, cal_obj_bysecond_expand, product.
  repeat apply conj; (case_decide as E; [by rewrite E|by apply field_expand]).
Qed.

(** BYMONTH, BYHOUR, BYMINUTE and BYSECOND expansions are cross products:
    every time is replaced by its copies with each listed value, in the order
    of the list; without a list the times are returned unchanged. *)
Theorem clock_expansions_product (rd : RecurData) (occs : list CalObjTime) :
  let product (set : Z -> CalObjTime -> CalObjTime) (l : list Z) :=
    if decide (l = []) then occs
    else concat ((fun occ => (fun x => set x occ) <$> l) <$> occs) in
  cal_obj_bymonth_expand rd occs = Ok (product set_month (bymonth (recur rd))) /\
  cal_obj_byhour_expand rd occs = Ok (product set_hour (byhour (recur rd))) /\
  cal_obj_byminute_expand rd occs = Ok (product set_minute (byminute (recur rd))) /\
  cal_obj_bysecond_expand rd occs = Ok (product set_second (bysecond (recur rd))).
Proof. by apply clock_expansions. Qed.
