(* ===== verification/RecurByDaySpec.v ===== *)
(** * What the day expansions compute

    BYDAY selects the n-th weekday of a month or year, or the weekday of a week;
    BYMONTHDAY and BYYEARDAY count days from either end; BYWEEKNO counts weeks.
    The results are described by their day numbers ([dates_at]). *)

From S2P Require Import Prelude CalTimeUtil CalObjTime CalObjTimeSpec Libical RecurRule RecurRuleSpec RecurFilters RecurFiltersSpec.

(** ** Periods of dates *)

(** Dates with the same clock are determined by their day number. *)
Lemma date_eq c1 c2 :
  date_ok c1 -> date_ok c2 -> same_clock c1 c2 -> serial c1 = serial c2 -> c1 = c2.
Proof.
  intros [_ H1] [_ H2] (Hh & Hm & Hs & Hf) E.
  destruct (Gregorian.serial_inj _ _ _ _ _ _ H1 H2 E) as (? & ? & ?).
  destruct c1, c2; simpl in *; congruence.
Qed.

(** [in_period] decides, for dates, whether the day number is in [lo, hi). *)
Definition period_test (in_period : CalObjTime -> bool) (lo hi : Z) : Prop :=
  forall c, date_ok c -> in_period c = bool_decide (lo <= serial c < hi).

Lemma year_period y :
  period_test (fun c => co_year c =? y)
    (Gregorian.year_base y + 1) (Gregorian.year_base y + 1 + Gregorian.ydays y).
Proof.
  intros c Hd. pose proof (yearday_range c Hd) as Hr. unfold yearday_of in Hr.
  cbv beta. destruct (Z.eqb_spec (co_year c) y) as [<-|Hne].
  - rewrite bool_decide_true; [done|lia].
  - rewrite bool_decide_false; [done|].
    destruct (Z.lt_total (co_year c) y) as [H|[H|H]]; [|done|].
    + pose proof (Gregorian.year_base_mono _ _ H). lia.
    + pose proof (Gregorian.year_base_mono _ _ H). lia.
Qed.

Lemma month_period y m :
  0 <= m < 12 ->
  period_test (fun c => (co_year c =? y) && (co_month c =? m))
    (Gregorian.serial y m 1) (Gregorian.serial y m 1 + Gregorian.mdays y m).
Proof.
  intros Hm c [Hy Hv].
  pose proof (Gregorian.mdays_range y m) as Hd.
  assert (Gregorian.valid y m 1) as V1 by (split; lia).
  assert (Gregorian.valid y m (Gregorian.mdays y m)) as V2 by (split; lia).
  assert (Gregorian.serial y m 1 + Gregorian.mdays y m = Gregorian.serial y m (Gregorian.mdays y m) + 1)
    as -> by (unfold Gregorian.serial; lia).
  unfold serial. cbv beta.
  destruct (Z.eqb_spec (co_year c) y) as [<-|Hne]; cbn [andb].
  - destruct (Z.eqb_spec (co_month c) m) as [<-|Hne].
    + rewrite bool_decide_true; [done|]. destruct Hv. unfold Gregorian.serial. lia.
    + rewrite bool_decide_false; [done|].
      destruct (Z.lt_total (co_month c) m) as [H|[H|H]]; [|done|].
      * pose proof (Gregorian.serial_lt_month _ _ _ _ _ Hv V1 H). lia.
      * pose proof (Gregorian.serial_lt_month _ _ _ _ _ V2 Hv H). lia.
  - rewrite bool_decide_false; [done|].
    destruct (Z.lt_total (co_year c) y) as [H|[H|H]]; [|done|].
    + pose proof (Gregorian.serial_lt_year _ _ _ _ _ _ Hv V1 H). lia.
    + pose proof (Gregorian.serial_lt_year _ _ _ _ _ _ V2 Hv H). lia.
Qed.

(** [l] is the list of dates with the given day numbers and the clock of [c]. *)
Definition dates_at (c : CalObjTime) (serials : list Z) (l : list CalObjTime) : Prop :=
  Forall date_ok l /\ Forall (same_clock c) l /\ serial <$> l = serials.

Lemma dates_at_nil c : dates_at c [] [].
Proof. repeat split; constructor. Qed.

Lemma dates_at_one c d : date_ok d -> same_clock c d -> dates_at c [serial d] [d].
Proof. intros. unfold dates_at. by rewrite !Forall_singleton. Qed.

Lemma dates_at_app c s1 s2 l1 l2 :
  dates_at c s1 l1 -> dates_at c s2 l2 -> dates_at c (s1 ++ s2) (l1 ++ l2).
Proof.
  intros (?&?&?) (?&?&?). split; [by apply Forall_app_2|]. split; [by apply Forall_app_2|].
  rewrite fmap_app. congruence.
Qed.

Lemma dates_at_clock c c' s l : same_clock c c' -> dates_at c' s l -> dates_at c s l.
Proof.
  intros Hc (? & Hl & ?). split; [done|]. split; [|done].
  eapply Forall_impl; [exact Hl|]. intros. by eapply same_clock_trans.
Qed.

Lemma same_clock_refl c : same_clock c c.
Proof. done. Qed.

(** The [while] loop of BYDAY collects every 7th day up to the end of the
    period. *)
Lemma week_loop_spec in_period lo hi fuel c :
  period_test in_period lo hi -> date_ok c -> lo <= serial c ->
  Gregorian.year_base 1900 < lo -> hi + 7 <= Gregorian.year_base 65536 ->
  serial c < hi + 7 -> hi - serial c < 7 * (Z.of_nat fuel - 1) ->
  exists l last, week_loop fuel in_period c = Ok (l, last) /\ date_ok last /\ same_clock c last /\
    dates_at c ((fun i => serial c + 7 * i) <$> seqZ 0 ((hi - serial c + 6) / 7)) l.
Proof.
  intros Htest Hc Hlo Hmin Hmax. revert c Hc Hlo.
  induction fuel as [|fuel IH]; intros c Hc Hlo Hhi Hf; [lia|].
  cbn [week_loop]. rewrite (Htest c Hc). case_bool_decide as Hin.
  - destruct (add_days_spec c 7) as (c' & -> & Hd' & Hs' & Hser); [done|split; lia|].
    rewrite res_bind_Ok.
    destruct (IH c') as (l & last & -> & Hl & Hsl & Hat); [done|lia..|].
    rewrite res_bind_Ok. exists (c :: l), last. split; [done|]. split; [done|].
    split; [by eapply same_clock_trans|].
    apply (dates_at_clock c c') in Hat; [|done]. destruct Hat as (Hd & Hsc & Hm).
    split; [by constructor|]. split; [constructor; done|].
    rewrite fmap_cons, Hm.
    assert (0 < (hi - serial c + 6) / 7) by (Z.to_euclidean_division_equations; lia).
    rewrite (seqZ_cons 0 ((hi - serial c + 6) / 7)) by lia. rewrite fmap_cons. f_equal; [lia|].
    replace (Z.pred ((hi - serial c + 6) / 7)) with ((hi - serial c' + 6) / 7)
      by (rewrite Hser; Z.to_euclidean_division_equations; lia).
    change (Z.succ 0) with (1 + 0). rewrite <- fmap_add_seqZ, <- list_fmap_compose.
    apply list_fmap_ext. intros. simpl. lia.
  - exists [], c. split; [done|]. split; [done|]. split; [done|].
    rewrite seqZ_nil by (Z.to_euclidean_division_equations; lia). apply dates_at_nil.
Qed.

(** ** BYDAY *)

(** The pairs of a BYDAY list. *)
Fixpoint byday_pairs (l : list Z) : list (Z * Z) :=
  match l with
  | weekday :: week_num :: l => (weekday, week_num) :: byday_pairs l
  | _ => []
  end.

(** A weekday and at most 53 weeks from either end. *)
Definition pair_ok (p : Z * Z) : Prop := 0 <= fst p < 7 /\ -53 <= snd p <= 53.

Lemma rem_offset wd w :
  0 <= wd < 7 -> 0 <= w < 7 -> Z.rem (wd + 7 - w) 7 = (wd - w) mod 7.
Proof.
  intros. rewrite Z.rem_mod_nonneg by lia.
  replace (wd + 7 - w) with (wd - w + 1 * 7) by lia. apply Z_mod_plus_full.
Qed.

Section byday_pairs.
Context {G : GDate} `{!GDateLaws G}.
Context (in_period : CalObjTime -> bool) (lo len : Z).
Hypothesis (Htest : period_test in_period lo (lo + len)).
Hypothesis (Hlen : 0 < len) (Hlo : Gregorian.year_base 1900 + 371 < lo).
Hypothesis (Hhi : lo + len + 371 <= Gregorian.year_base 65536).

(** All the [wd]s of the period, from its first day. *)
Lemma pair_every wd first :
  date_ok first -> serial first = lo -> 0 <= wd < 7 ->
  len < 7 * (Z.of_nat week_loop_fuel - 1) ->
  exists l last,
    (occ ← cal_obj_time_add_days first (Z.rem (wd + 7 - cal_obj_time_weekday first) 7);
     week_loop week_loop_fuel in_period occ) = Ok (l, last) /\
    date_ok last /\ same_clock first last /\
    dates_at first (Weekdays.nth_weekday lo len wd 0) l.
Proof.
  intros Hd Es Hwd Hfuel. rewrite weekday_spec, Es, rem_offset by
    (done || apply Gregorian.wday_range).
  fold (Weekdays.first_offset lo wd).
  pose proof (Weekdays.first_offset_range lo wd) as Hk.
  destruct (add_days_spec first (Weekdays.first_offset lo wd)) as (c & -> & Hdc & Hsc & Hser);
    [done|unfold serial_in_range; lia|]. rewrite res_bind_Ok.
  destruct (week_loop_spec in_period lo (lo + len) week_loop_fuel c)
    as (l & last & -> & Hl & Hsl & Hat); [done|done|lia..|].
  exists l, last. split; [done|]. split; [done|].
  split; [by eapply same_clock_trans|]. apply (dates_at_clock first c); [done|].
  change (Weekdays.nth_weekday lo len wd 0) with (Weekdays.on_weekday lo len wd).
  rewrite Weekdays.on_weekday_progression by lia. unfold Weekdays.count.
  rewrite Hser, Es in Hat.
  by replace (lo + len - (lo + Weekdays.first_offset lo wd) + 6)
    with (len - Weekdays.first_offset lo wd + 6) in Hat by lia.
Qed.

Lemma in_period_one c first (b : Prop) `{!Decision b} s :
  date_ok c -> same_clock first c -> serial c = s -> (b <-> lo <= s < lo + len) ->
  dates_at first (if bool_decide b then [s] else []) (if in_period c then [c] else []).
Proof.
  intros Hd Hs <- Hb. rewrite (Htest c Hd).
  rewrite (bool_decide_ext _ _ Hb). case_bool_decide; [by apply dates_at_one|apply dates_at_nil].
Qed.

(** The [n]-th [wd] of the period. *)
Lemma pair_nth wd n first :
  date_ok first -> serial first = lo -> 0 <= wd < 7 -> 0 < n <= 53 ->
  exists c,
    cal_obj_time_add_days first
      (Z.rem (wd + 7 - cal_obj_time_weekday first) 7 + (n - 1) * 7) = Ok c /\
    date_ok c /\ same_clock first c /\
    dates_at first (Weekdays.nth_weekday lo len wd n) (if in_period c then [c] else []).
Proof.
  intros Hd Es Hwd Hn. rewrite weekday_spec, Es, rem_offset by
    (done || apply Gregorian.wday_range).
  fold (Weekdays.first_offset lo wd).
  pose proof (Weekdays.first_offset_range lo wd) as Hk.
  destruct (add_days_spec first (Weekdays.first_offset lo wd + (n - 1) * 7))
    as (c & -> & Hdc & Hsc & Hser); [done|unfold serial_in_range; lia|].
  exists c. split; [done|]. split; [done|]. split; [done|].
  rewrite Weekdays.nth_weekday_pos by lia. cbv zeta.
  set (s := lo + Weekdays.first_offset lo wd + 7 * (n - 1)).
  replace (s <? lo + len) with (bool_decide (s < lo + len))
    by (case_bool_decide; symmetry; [apply Z.ltb_lt|apply Z.ltb_ge]; lia).
  apply in_period_one; [done|done|unfold s; lia|unfold s; lia].
Qed.

(** The [-n]-th [wd] from the end of the period, from its last day. *)
Lemma pair_nth_last wd n lst first :
  date_ok lst -> same_clock first lst -> serial lst = lo + len - 1 ->
  0 <= wd < 7 -> -53 <= n < 0 ->
  exists c,
    cal_obj_time_add_days lst
      (- (Z.rem (cal_obj_time_weekday lst + 7 - wd) 7 + (- n - 1) * 7)) = Ok c /\
    date_ok c /\ same_clock first c /\
    dates_at first (Weekdays.nth_weekday lo len wd n) (if in_period c then [c] else []).
Proof.
  intros Hd Hcl Es Hwd Hn. rewrite weekday_spec, Es, rem_offset by
    (done || apply Gregorian.wday_range).
  set (k := (Gregorian.wday (lo + len - 1) - wd) mod 7).
  assert (0 <= k < 7) as Hk by (apply Z.mod_pos_bound; lia).
  destruct (add_days_spec lst (- (k + (- n - 1) * 7)))
    as (c & -> & Hdc & Hsc & Hser); [done|unfold serial_in_range; lia|].
  exists c. split; [done|]. split; [done|]. split; [by eapply same_clock_trans|].
  rewrite Weekdays.nth_weekday_neg by lia. fold k. cbv zeta.
  set (s := lo + len - 1 - k - 7 * (- n - 1)).
  replace (lo <=? s) with (bool_decide (lo <= s))
    by (case_bool_decide; symmetry; [apply Z.leb_le|apply Z.leb_gt]; lia).
  apply in_period_one; [done|by eapply same_clock_trans|unfold s; lia|unfold s; lia].
Qed.
End byday_pairs.

(** The loop over the pairs, for an invariant [I] of the element that [reset]
    restores. *)
Lemma byday_elems_spec (I : CalObjTime -> Prop) (days : Z -> Z -> list Z) pair reset :
  (forall c wd n, I c -> pair_ok (wd, n) ->
     exists l last, pair wd n c = Ok (l, last) /\ dates_at c (days wd n) l /\
       I (reset c last) /\ same_clock c (reset c last)) ->
  forall elems c, I c -> byday_paired elems -> Forall pair_ok (byday_pairs elems) ->
  exists l, byday_elems pair reset elems c = Ok l /\
    dates_at c (concat ((fun p => days (fst p) (snd p)) <$> byday_pairs elems)) l.
Proof.
  intros Hpair elems. induction elems as [| |wd n elems IH] using pair_list_ind; intros c Hc Hp Hok.
  - exists []. split; [done|apply dates_at_nil].
  - done.
  - cbn [byday_pairs] in *. apply Forall_cons in Hok as [Hwn Hok].
    destruct (Hpair c wd n Hc Hwn) as (l1 & last & E & Hl1 & Hi & Hs).
    destruct (IH (reset c last) Hi Hp Hok) as (l2 & E2 & Hl2).
    exists (l1 ++ l2). cbn [byday_elems]. rewrite E, res_bind_Ok, E2. split; [done|].
    rewrite fmap_cons. cbn [concat fst snd]. apply dates_at_app; [done|].
    by apply (dates_at_clock c (reset c last)).
Qed.

(** An expansion of a list, element by element. *)
Lemma expandM_Forall2 f (R : CalObjTime -> list CalObjTime -> Prop) occs :
  (forall c, c ∈ occs -> exists l, f c = Ok l /\ R c l) ->
  exists ls, expandM f occs = Ok (concat ls) /\ Forall2 R occs ls.
Proof.
  induction occs as [|c occs IH]; intros H; [by exists []|].
  destruct (H c) as (l & E & Hl); [by left|].
  destruct IH as (ls & E2 & Hls); [intros; apply H; by right|].
  exists (l :: ls). cbn [expandM]. rewrite E, res_bind_Ok, E2. split; [done|by constructor].
Qed.

(** The guard does not change the shape of the result. *)
Lemma guarded_Forall2 (elems : list Z) f (R : CalObjTime -> list CalObjTime -> Prop) occs :
  elems <> [] -> (forall c, c ∈ occs -> exists l, f c = Ok l /\ R c l) ->
  exists ls, (if is_empty elems || is_empty occs then Ok occs else expandM f occs) = Ok (concat ls) /\
    Forall2 R occs ls.
Proof.
  intros Hne H. destruct elems; [done|]. destruct occs; [by exists []|].
  by apply expandM_Forall2.
Qed.

(** The day numbers a list of pairs selects in a month, in the order of the
    list. *)
Definition month_weekdays (elems : list Z) (y m : Z) : list Z :=
  concat ((fun p => Weekdays.nth_weekday (Gregorian.serial y m 1) (Gregorian.mdays y m)
                      (fst p) (snd p)) <$> byday_pairs elems).

(** In a year: nothing for a negative number of weeks. *)
Definition year_weekdays (elems : list Z) (y : Z) : list Z :=
  concat ((fun p => if snd p <? 0 then []
                    else Weekdays.nth_weekday (Gregorian.year_base y + 1) (Gregorian.ydays y)
                           (fst p) (snd p)) <$> byday_pairs elems).

Lemma month_bounds y m :
  1902 <= y < 65533 -> 0 <= m < 12 ->
  Gregorian.year_base 1900 + 371 < Gregorian.serial y m 1 /\
  Gregorian.serial y m 1 + Gregorian.mdays y m + 371 <= Gregorian.year_base 65536.
Proof.
  intros Hy Hm.
  assert (Gregorian.valid y m 1) as V by (split; [lia|]; pose proof (Gregorian.mdays_range y m); lia).
  pose proof (Gregorian.before_month_bounds _ _ _ V). pose proof (Gregorian.ydays_range y).
  pose proof (Gregorian.mdays_range y m).
  assert (Gregorian.year_base 1900 + 371 < Gregorian.year_base y + 1).
  { pose proof (Gregorian.year_base_mono 1900 1901). pose proof (Gregorian.year_base_mono 1901 y).
    pose proof (Gregorian.ydays_range 1900). pose proof (Gregorian.ydays_range 1901). lia. }
  assert (Gregorian.year_base y + 1095 <= Gregorian.year_base 65536).
  { pose proof (Gregorian.year_base_mono y 65533).
    assert (Gregorian.year_base 65533 + 1095 <= Gregorian.year_base 65536)
      by (vm_compute; discriminate). lia. }
  unfold Gregorian.serial. lia.
Qed.

Lemma set_day_ok c d :
  month_ok c -> 1 <= d <= Gregorian.mdays (co_year c) (co_month c) ->
  date_ok (set_day d c) /\ same_clock c (set_day d c) /\
  serial (set_day d c) = Gregorian.serial (co_year c) (co_month c) d.
Proof.
  intros [Hy Hm] Hd. pose proof (Gregorian.mdays_range (co_year c) (co_month c)).
  unfold date_ok, Gregorian.valid, serial, same_clock, set_day; cbn [co_year co_month co_day
    co_hour co_minute co_second co_flags]. rewrite u8_small by lia. repeat split; lia.
Qed.

Section byday_specs.
Context {G : GDate} `{!GDateLaws G}.

Lemma byday_monthly_pair_spec c wd n :
  1902 <= co_year c < 65533 -> 0 <= co_month c < 12 -> pair_ok (wd, n) ->
  exists l last, byday_monthly_pair wd n c = Ok (l, last) /\ same_clock c last /\
    dates_at c (Weekdays.nth_weekday (Gregorian.serial (co_year c) (co_month c) 1)
                  (Gregorian.mdays (co_year c) (co_month c)) wd n) l.
Proof.
  intros Hy Hm [Hwd Hn]; cbn [fst snd] in *.
  pose proof (Gregorian.mdays_range (co_year c) (co_month c)) as Hlen.
  destruct (month_bounds (co_year c) (co_month c) Hy Hm) as [Hlo Hhi].
  assert (0 < Gregorian.mdays (co_year c) (co_month c)) as Hpos by lia.
  assert (month_ok c) as Hc by (split; lia).
  destruct (set_day_ok c 1 Hc) as (D1 & S1 & E1); [lia|].
  pose proof (month_period (co_year c) (co_month c) Hm) as Ht.
  unfold byday_monthly_pair. destruct (Z.eqb_spec n 0) as [->|Hn0].
  - destruct (pair_every _ _ _ Ht Hpos Hlo Hhi wd (set_day 1 c)) as (l & last & E & _ & Hs & Hat);
      [done|done|done|unfold week_loop_fuel; lia|].
    exists l, last. split; [exact E|]. split; [by eapply same_clock_trans|].
    by apply (dates_at_clock c (set_day 1 c)).
  - destruct (Z.ltb_spec 0 n).
    + destruct (pair_nth _ _ _ Ht Hpos Hlo Hhi wd n (set_day 1 c)) as (c' & E & _ & Hs & Hat);
        [done|done|done|lia|].
      eexists _, c'. rewrite E, res_bind_Ok. split; [reflexivity|].
      split; [by eapply same_clock_trans|]. by apply (dates_at_clock c (set_day 1 c)).
    + rewrite time_days_in_month_spec by lia. rewrite res_bind_Ok.
      destruct (set_day_ok c (Gregorian.mdays (co_year c) (co_month c)) Hc) as (D2 & S2 & E2); [lia|].
      destruct (pair_nth_last _ _ _ Ht Hpos Hlo Hhi wd n
        (set_day (Gregorian.mdays (co_year c) (co_month c)) c) c) as (c' & E & _ & Hs & Hat);
        [done|done| |done|lia|].
      { rewrite E2. unfold Gregorian.serial. lia. }
      eexists _, c'. rewrite E, res_bind_Ok. split; [reflexivity|]. split; [done|exact Hat].
Qed.

Lemma byday_yearly_pair_spec c wd n :
  1902 <= co_year c < 65533 -> pair_ok (wd, n) ->
  exists l last, byday_yearly_pair wd n c = Ok (l, last) /\ same_clock c last /\
    dates_at c (if n <? 0 then []
                else Weekdays.nth_weekday (Gregorian.year_base (co_year c) + 1)
                       (Gregorian.ydays (co_year c)) wd n) l.
Proof.
  intros Hy [Hwd Hn]; cbn [fst snd] in *.
  pose proof (Gregorian.ydays_range (co_year c)) as Hlen.
  destruct (month_bounds (co_year c) 0 Hy) as [Hlo _]; [lia|].
  assert (Gregorian.year_base (co_year c) + 1095 <= Gregorian.year_base 65536) as Hhi2.
  { pose proof (Gregorian.year_base_mono (co_year c) 65533) as H.
    assert (Gregorian.year_base 65533 + 1095 <= Gregorian.year_base 65536)
      by (vm_compute; discriminate). lia. }
  assert (Gregorian.year_base (co_year c) + 1 + Gregorian.ydays (co_year c) + 371
          <= Gregorian.year_base 65536) as Hhi by lia.
  change (Gregorian.serial (co_year c) 0 1) with (Gregorian.year_base (co_year c) + 0 + 1) in Hlo.
  rewrite Z.add_0_r in Hlo.
  assert (0 < Gregorian.ydays (co_year c)) as Hpos by lia.
  assert (date_ok (new_year c)) as D1 by (apply new_year_ok; lia).
  pose proof (new_year_serial c) as E1.
  pose proof (year_period (co_year c)) as Ht.
  unfold byday_yearly_pair. destruct (Z.eqb_spec n 0) as [->|Hn0].
  - destruct (pair_every _ _ _ Ht Hpos Hlo Hhi wd (new_year c)) as (l & last & E & _ & Hs & Hat);
      [done|done|done|unfold week_loop_fuel; lia|].
    exists l, last. split; [exact E|]. split; [by eapply same_clock_trans|].
    by apply (dates_at_clock c (new_year c)).
  - destruct (Z.ltb_spec 0 n).
    + destruct (pair_nth _ _ _ Ht Hpos Hlo Hhi wd n (new_year c)) as (c' & E & _ & Hs & Hat);
        [done|done|done|lia|].
      eexists _, c'. fold (new_year c). rewrite E, res_bind_Ok. split; [reflexivity|].
      split; [by eapply same_clock_trans|].
      destruct (Z.ltb_spec n 0); [lia|]. by apply (dates_at_clock c (new_year c)).
    + destruct (Z.ltb_spec n 0); [|lia].
      set (dec := set_month 11 c).
      assert (month_ok dec) as Hm by (split; [cbn; lia|change (0 <= 11 < 12); lia]).
      destruct (set_day_ok dec 31 Hm) as (D2 & S2 & E2); [change (1 <= 31 <= 31); lia|].
      change (Gregorian.serial (co_year dec) (co_month dec) 31)
        with (Gregorian.serial (co_year c) 11 31) in E2.
      assert (Gregorian.serial (co_year c) 11 31
              = Gregorian.year_base (co_year c) + Gregorian.ydays (co_year c)) as E3.
      { rewrite <- Gregorian.before_month_12. unfold Gregorian.serial.
        change (Gregorian.before_month (co_year c) 12)
          with (Gregorian.before_month (co_year c) 11 + 31). change (Z.to_nat 11) with 11%nat. lia. }
      rewrite weekday_spec, rem_offset by (done || apply Gregorian.wday_range).
      remember ((Gregorian.wday (serial (set_day 31 dec)) - wd) mod 7) as k eqn:Ek.
      assert (0 <= k < 7) as Hk by (subst k; apply Z.mod_pos_bound; lia).
      destruct (add_days_spec (set_day 31 dec) (- (k + (n - 1) * 7)))
        as (c' & E & Hdc & Hsc & Hser); [done|unfold serial_in_range; lia|].
      rewrite E, res_bind_Ok. eexists _, c'. split; [reflexivity|].
      split; [exact Hsc|]. rewrite (Ht c' Hdc), bool_decide_false by lia. apply dates_at_nil.
Qed.

(** One weekday in the week of the element. *)
Lemma byday_weekly_elems_spec wkst elems c :
  0 <= wkst < 7 -> 1902 <= co_year c < 65533 -> date_ok c ->
  byday_paired elems -> Forall (fun wd => 0 <= wd < 7) (byday_weekdays elems) ->
  let week_start := serial c - (Gregorian.wday (serial c) - wkst) mod 7 in
  exists l, byday_weekly_elems wkst elems c = Ok l /\
    dates_at c ((fun wd => week_start + (wd - wkst) mod 7) <$> byday_weekdays elems) l.
Proof.
  intros Hw Hy Hd Hp Hok week_start.
  assert (Gregorian.year_base 1900 + 371 < week_start /\
          week_start + 371 <= Gregorian.year_base 65536) as Hr.
  { destruct Hd as [_ [Hm Hday]]. destruct (month_bounds (co_year c) (co_month c) Hy Hm).
    pose proof (Z.mod_pos_bound (Gregorian.wday (serial c) - wkst) 7).
    unfold week_start, serial, Gregorian.serial in *.
    pose proof (Gregorian.mdays_range (co_year c) (co_month c)).
    pose proof (Gregorian.year_base_mono 1901 (co_year c)).
    pose proof (Gregorian.year_base_mono 1900 1901).
    pose proof (Gregorian.ydays_range 1900). pose proof (Gregorian.ydays_range 1901).
    pose proof (Gregorian.before_month_mono (co_year c) 0 (Z.to_nat (co_month c))).
    cbn [Gregorian.before_month] in *. lia. }
  assert (serial c - (Gregorian.wday (serial c) - wkst) mod 7 = week_start) as Ews by done.
  clearbody week_start. clear Hy. revert c Hd Ews.
  induction elems as [| |wd n elems IH] using pair_list_ind; intros c Hd Ews.
  - exists []. split; [done|apply dates_at_nil].
  - done.
  - cbn [byday_weekdays byday_weekly_elems] in *. apply Forall_cons in Hok as [Hwd Hok].
    rewrite weekday_offset_spec, rem_offset by done.
    destruct (add_days_spec c ((wd - wkst) mod 7 - (Gregorian.wday (serial c) - wkst) mod 7))
      as (c' & -> & Hd' & Hs' & Hser); [done| |].
    { unfold serial_in_range. pose proof (Z.mod_pos_bound (wd - wkst) 7). lia. }
    assert (serial c' = week_start + (wd - wkst) mod 7) as E by lia.
    destruct (IH Hp Hok c' Hd') as (l & El & Hl).
    { rewrite E. 
      assert (Gregorian.wday week_start = wkst) as Hws.
      { rewrite <- Ews, <- Z.add_opp_r, Gregorian.wday_add, Z.add_opp_r, Zminus_mod_idemp_r.
        replace (Gregorian.wday (serial c) - (Gregorian.wday (serial c) - wkst)) with wkst by lia.
        by apply Z.mod_small. }
      rewrite Gregorian.wday_add, Hws, Zplus_mod_idemp_r.
      replace (wkst + (wd - wkst)) with wd by lia. rewrite (Z.mod_small wd) by lia. lia. }
    rewrite res_bind_Ok, El. exists (c' :: l). split; [done|].
    apply (dates_at_app c [_] _ [_]).
    + rewrite <- E. by apply dates_at_one.
    + by apply (dates_at_clock c c').
Qed.
End byday_specs.

Lemma byday_expand_monthly_dates (G : GDate) (GL : GDateLaws G) (rd : RecurData)
    (occs : list CalObjTime)
    (Hocc : Forall (fun c => 1902 <= co_year c < 65533 /\ 0 <= co_month c < 12) occs)
    (Hne : byday (recur rd) <> []) (Hp : byday_paired (byday (recur rd)))
    (Hok : Forall pair_ok (byday_pairs (byday (recur rd)))) :
  exists ls, cal_obj_byday_expand_monthly rd occs = Ok (concat ls) /\
    Forall2 (fun c l =>
      dates_at c (month_weekdays (byday (recur rd)) (co_year c) (co_month c)) l) occs ls.
Proof.
  apply guarded_Forall2; [done|]. intros c Hin.
  rewrite Forall_forall in Hocc. destruct (Hocc c Hin) as [Hy Hm].
  apply (byday_elems_spec
    (fun c' => co_year c' = co_year c /\ co_month c' = co_month c)
    (Weekdays.nth_weekday (Gregorian.serial (co_year c) (co_month c) 1)
       (Gregorian.mdays (co_year c) (co_month c)))); [|done..].
  intros c' wd n [Ey Em] Hwn.
  destruct (byday_monthly_pair_spec c' wd n) as (l & last & E & Hs & Hat); [lia..|done|].
  rewrite <- Ey, <- Em. exists l, last. split; [exact E|]. split; [exact Hat|].
  cbn [co_year co_month set_year set_month]. rewrite u16_small, u8_small by lia. done.
Qed.

(** BYDAY in a month selects, for every time and every pair of the list in
    order, the n-th such weekday of the month, counted from the end for negative
    n, or all of them for 0; nothing when the month has fewer.  The day of the
    time itself does not matter (it may be invalid, as BYMONTH leaves it). *)
Theorem byday_expand_monthly_spec (G : GDate) (GL : GDateLaws G) (rd : RecurData)
    (occs : list CalObjTime)
    (Hocc : Forall (fun c => 1902 <= co_year c < 65533 /\ 0 <= co_month c < 12) occs)
    (Hne : byday (recur rd) <> []) (Hp : byday_paired (byday (recur rd)))
    (Hok : Forall pair_ok (byday_pairs (byday (recur rd)))) :
  exists ls, cal_obj_byday_expand_monthly rd occs = Ok (concat ls) /\
    Forall2 (fun c l =>
      dates_at c (month_weekdays (byday (recur rd)) (co_year c) (co_month c)) l) occs ls.
Proof. by apply byday_expand_monthly_dates. Qed.

(** The second and the last Friday of February 2008. *)
Lemma byday_expand_monthly_spec_witness :
  exists rd l, weekday_offset rd = 0 /\
    @cal_obj_byday_expand_monthly GDate_gregorian rd [mkCalObjTime 2008 1 31 9 0 0 false] = Ok l /\
    serial <$> l = [Gregorian.serial 2008 1 8; Gregorian.serial 2008 1 29].
Proof.
  set (r := mkECalRecurrence ICAL_MONTHLY_RECURRENCE 1 0 0 [] [] [] [] [4; 2; 4; -1] [] [] [] []).
  set (rd := mkRecurData r 0 [] [] [] [] [] [] [] [] []).
  destruct (byday_expand_monthly_spec GDate_gregorian _ rd [mkCalObjTime 2008 1 31 9 0 0 false])
    as (ls & E & H).
  - concrete.
  - discriminate.
  - exact I.
  - concrete.
  - apply Forall2_cons_inv_l in H as (l & ls' & (_ & _ & Hl) & H & ->).
    apply Forall2_nil_inv_l in H as ->.
    exists rd, (concat [l]). split; [reflexivity|]. split; [exact E|].
    cbn [concat]. rewrite app_nil_r, Hl. reflexivity.
Defined.

Lemma byday_expand_yearly_dates (G : GDate) (GL : GDateLaws G) (rd : RecurData)
    (occs : list CalObjTime)
    (Hocc : Forall (fun c => 1902 <= co_year c < 65533) occs)
    (Hne : byday (recur rd) <> []) (Hp : byday_paired (byday (recur rd)))
    (Hok : Forall pair_ok (byday_pairs (byday (recur rd)))) :
  exists ls, cal_obj_byday_expand_yearly rd occs = Ok (concat ls) /\
    Forall2 (fun c l => dates_at c (year_weekdays (byday (recur rd)) (co_year c)) l) occs ls.
Proof.
  apply guarded_Forall2; [done|]. intros c Hin.
  rewrite Forall_forall in Hocc. pose proof (Hocc c Hin) as Hy.
  apply (byday_elems_spec (fun c' => co_year c' = co_year c)
    (fun wd n => if n <? 0 then []
       else Weekdays.nth_weekday (Gregorian.year_base (co_year c) + 1)
              (Gregorian.ydays (co_year c)) wd n)); [|done..].
  intros c' wd n Ey Hwn.
  destruct (byday_yearly_pair_spec c' wd n) as (l & last & E & Hs & Hat); [lia|done|].
  rewrite <- Ey. exists l, last. split; [exact E|]. split; [exact Hat|].
  cbn [co_year set_year]. rewrite u16_small by lia. done.
Qed.

(** BYDAY in a year selects the n-th such weekday of the year, or all of them
    for 0; but for a negative n it never selects anything, although the comment
    says it adds the n-th from the end (the number of weeks to step back is
    computed with the wrong sign). *)
Theorem byday_expand_yearly_spec (G : GDate) (GL : GDateLaws G) (rd : RecurData)
    (occs : list CalObjTime)
    (Hocc : Forall (fun c => 1902 <= co_year c < 65533) occs)
    (Hne : byday (recur rd) <> []) (Hp : byday_paired (byday (recur rd)))
    (Hok : Forall pair_ok (byday_pairs (byday (recur rd)))) :
  exists ls, cal_obj_byday_expand_yearly rd occs = Ok (concat ls) /\
    Forall2 (fun c l => dates_at c (year_weekdays (byday (recur rd)) (co_year c)) l) occs ls.
Proof. by apply byday_expand_yearly_dates. Qed.

(** The 20th Monday and, wrongly, nothing for the last Monday of 1997. *)
Lemma byday_expand_yearly_spec_witness :
  exists rd l, weekday_offset rd = 0 /\
    @cal_obj_byday_expand_yearly GDate_gregorian rd [mkCalObjTime 1997 4 19 9 0 0 false] = Ok l /\
    serial <$> l = [Gregorian.serial 1997 4 19].
Proof.
  set (r := mkECalRecurrence ICAL_YEARLY_RECURRENCE 1 0 0 [] [] [] [] [0; 20; 0; -1] [] [] [] []).
  set (rd := mkRecurData r 0 [] [] [] [] [] [] [] [] []).
  destruct (byday_expand_yearly_spec GDate_gregorian _ rd [mkCalObjTime 1997 4 19 9 0 0 false])
    as (ls & E & H).
  - concrete.
  - discriminate.
  - exact I.
  - concrete.
  - apply Forall2_cons_inv_l in H as (l & ls' & (_ & _ & Hl) & H & ->).
    apply Forall2_nil_inv_l in H as ->.
    exists rd, (concat [l]). split; [reflexivity|]. split; [exact E|].
    cbn [concat]. rewrite app_nil_r, Hl. vm_compute. reflexivity.
Defined.

Lemma byday_expand_weekly_dates (G : GDate) (GL : GDateLaws G) (rd : RecurData)
    (occs : list CalObjTime)
    (Hocc : Forall (fun c => 1902 <= co_year c < 65533 /\ date_ok c) occs)
    (Hw : 0 <= week_start_day (recur rd) < 7)
    (Hne : byday (recur rd) <> []) (Hp : byday_paired (byday (recur rd)))
    (Hok : Forall (fun wd => 0 <= wd < 7) (byday_weekdays (byday (recur rd)))) :
  let wkst := week_start_day (recur rd) in
  let week_start c := serial c - (weekday_of c - wkst) mod 7 in
  exists ls, cal_obj_byday_expand_weekly rd occs = Ok (concat ls) /\
    Forall2 (fun c l =>
      dates_at c ((fun wd => week_start c + (wd - wkst) mod 7) <$> byday_weekdays (byday (recur rd))) l)
      occs ls.
Proof.
  intros wkst week_start. apply guarded_Forall2; [done|]. intros c Hin.
  rewrite Forall_forall in Hocc. destruct (Hocc c Hin) as [Hy Hd].
  by apply byday_weekly_elems_spec.
Qed.

(** BYDAY in a week moves every time to each listed weekday of its week,
    where weeks start on the rule's week start day; the week numbers of the list
    are ignored. *)
Theorem byday_expand_weekly_spec (G : GDate) (GL : GDateLaws G) (rd : RecurData)
    (occs : list CalObjTime)
    (Hocc : Forall (fun c => 1902 <= co_year c < 65533 /\ date_ok c) occs)
    (Hw : 0 <= week_start_day (recur rd) < 7)
    (Hne : byday (recur rd) <> []) (Hp : byday_paired (byday (recur rd)))
    (Hok : Forall (fun wd => 0 <= wd < 7) (byday_weekdays (byday (recur rd)))) :
  let wkst := week_start_day (recur rd) in
  let week_start c := serial c - (weekday_of c - wkst) mod 7 in
  exists ls, cal_obj_byday_expand_weekly rd occs = Ok (concat ls) /\
    Forall2 (fun c l =>
      dates_at c ((fun wd => week_start c + (wd - wkst) mod 7) <$> byday_weekdays (byday (recur rd))) l)
      occs ls.
Proof. by apply byday_expand_weekly_dates. Qed.

(** Tuesday and Sunday of the week of Wednesday 10 January 2007, with weeks from
    Sunday. *)
Lemma byday_expand_weekly_spec_witness :
  exists rd l, weekday_offset rd = 3 /\
    @cal_obj_byday_expand_weekly GDate_gregorian rd [mkCalObjTime 2007 0 10 9 0 0 false] = Ok l /\
    serial <$> l = [Gregorian.serial 2007 0 9; Gregorian.serial 2007 0 7].
Proof.
  set (r := mkECalRecurrence ICAL_WEEKLY_RECURRENCE 1 0 6 [] [] [] [] [1; 0; 6; 0] [] [] [] []).
  set (rd := mkRecurData r 3 [] [] [] [] [] [] [] [] []).
  destruct (byday_expand_weekly_spec GDate_gregorian _ rd [mkCalObjTime 2007 0 10 9 0 0 false])
    as (ls & E & H).
  - concrete.
  - concrete.
  - discriminate.
  - exact I.
  - concrete.
  - apply Forall2_cons_inv_l in H as (l & ls' & (_ & _ & Hl) & H & ->).
    apply Forall2_nil_inv_l in H as ->.
    exists rd, (concat [l]). split; [reflexivity|]. split; [exact E|].
    cbn [concat]. rewrite app_nil_r, Hl. vm_compute. reflexivity.
Defined.

(** ** BYMONTHDAY *)

(** The day of the month a BYMONTHDAY number stands for in a month of [len]
    days: a number outside the month is moved to its last day. *)
Definition monthday_of (len d : Z) : Z :=
  if 0 <? d then Z.min d len
  else if 0 <? len + 1 + d then len + 1 + d else len.

Lemma add_days_fuel_S (day : Z) : exists n, add_days_fuel day = S (S (S n)).
Proof. exists (Z.to_nat (Z.abs day + 22897)). unfold add_days_fuel. lia. Qed.

Lemma short_month y m : Gregorian.mdays y m < 31 -> m <> 0 /\ m <> 11.
Proof. intros H. split; intros ->; vm_compute in H; discriminate. Qed.

(** One round of the loops of [cal_obj_time_add_days]. *)
Lemma add_days_forward_S n c day dim :
  time_days_in_month (co_year c) (co_month c) = Ok dim ->
  add_days_forward (S n) c day =
  if day <=? dim then Ok (c, day) else add_days_forward n (next_month c) (day - dim).
Proof. intros E. cbn [add_days_forward]. by rewrite E. Qed.

Lemma add_days_backward_S n c day dim :
  time_days_in_month (co_year (prev_month c)) (co_month (prev_month c)) = Ok dim ->
  add_days_backward (S n) c day =
  if day <=? 0 then add_days_backward n (prev_month c) (day + dim) else Ok (c, day).
Proof. intros E. cbn [add_days_backward]. fold (prev_month c). by rewrite E. Qed.

(** Up to 31 days from the first of the month. *)
Lemma add_days_month_start c d :
  month_ok c -> 0 < d <= 31 ->
  exists c', cal_obj_time_add_days (set_day 1 c) (d - 1) = Ok c' /\
    let dim := Gregorian.mdays (co_year c) (co_month c) in
    c' = if d <=? dim then set_day d c else set_day (d - dim) (set_month (co_month c + 1) c).
Proof.
  intros [Hy Hm] Hd. unfold cal_obj_time_add_days.
  change (co_day (set_day 1 c)) with 1. rewrite checked_int_Ok, res_bind_Ok by lia. replace (1 + (d - 1)) with d by lia.
  destruct (Z.leb_spec 0 (d - 1)); [|lia]. destruct (add_days_fuel_S d) as [n ->].
  remember (Gregorian.mdays (co_year c) (co_month c)) as dim eqn:Edim.
  pose proof (Gregorian.mdays_range (co_year c) (co_month c)).
  rewrite (add_days_forward_S _ _ _ dim) by
    (rewrite Edim; apply (time_days_in_month_spec (co_year c) (co_month c)); lia).
  destruct (Z.leb_spec d dim); [rewrite res_bind_Ok; eauto|].
  assert (co_month c <> 0 /\ co_month c <> 11) by (apply (short_month (co_year c)); lia).
  assert (next_month (set_day 1 c) = set_day 1 (set_month (co_month c + 1) c)) as ->.
  { unfold next_month. cbn [co_month set_month set_day]. rewrite (u8_small (co_month c + 1)) by lia.
    by destruct (Z.leb_spec 12 (co_month c + 1)); [lia|]. }
  pose proof (Gregorian.mdays_range (co_year c) (co_month c + 1)).
  rewrite (add_days_forward_S _ _ _ (Gregorian.mdays (co_year c) (co_month c + 1))).
  - destruct (Z.leb_spec (d - dim) (Gregorian.mdays (co_year c) (co_month c + 1))); [|lia].
    rewrite res_bind_Ok. by eexists.
  - cbn [co_year co_month set_day set_month]. rewrite u8_small by lia.
    apply time_days_in_month_spec; lia.
Qed.

(** Up to 31 days back from the first of the next month, whose number may
    be 12. *)
Lemma add_days_month_end c d :
  month_ok c -> -31 <= d < 0 ->
  exists c', cal_obj_time_add_days (set_day 1 (set_month (co_month c + 1) c)) d = Ok c' /\
    let dim := Gregorian.mdays (co_year c) (co_month c) in
    (0 < dim + 1 + d -> c' = set_day (dim + 1 + d) c) /\
    (dim + 1 + d <= 0 -> exists d', c' = set_day d' (set_month (co_month c - 1) c) /\ 0 < co_month c).
Proof.
  intros [Hy Hm] Hd. unfold cal_obj_time_add_days.
  change (co_day (set_day 1 (set_month (co_month c + 1) c))) with 1. rewrite checked_int_Ok, res_bind_Ok by lia.
  destruct (Z.leb_spec 0 d); [lia|]. destruct (add_days_fuel_S (1 + d)) as [n ->].
  remember (Gregorian.mdays (co_year c) (co_month c)) as dim eqn:Edim.
  pose proof (Gregorian.mdays_range (co_year c) (co_month c)).
  set (c1 := set_day 1 (set_month (co_month c) c)).
  assert (prev_month (set_day 1 (set_month (co_month c + 1) c)) = c1) as E1.
  { unfold prev_month. cbn [co_month set_month set_day]. rewrite (u8_small (co_month c + 1)) by lia.
    destruct (Z.eqb_spec (co_month c + 1) 0); [lia|].
    by replace (co_month c + 1 - 1) with (co_month c) by lia. }
  assert (co_month c1 = co_month c) as Em by (cbn; apply u8_small; lia).
  rewrite (add_days_backward_S _ _ _ dim), E1 by
    (rewrite E1, Em, Edim; apply (time_days_in_month_spec (co_year c)); lia).
  destruct (Z.leb_spec (1 + d) 0); [|lia].
  destruct (Z.le_gt_cases (1 + d + dim) 0) as [Hle|Hgt].
  - assert (co_month c <> 0 /\ co_month c <> 11) by (apply (short_month (co_year c)); lia).
    set (c2 := set_day 1 (set_month (co_month c - 1) c)).
    assert (prev_month c1 = c2) as E2.
    { unfold prev_month. rewrite Em. by destruct (Z.eqb_spec (co_month c) 0); [lia|]. }
    assert (co_month c2 = co_month c - 1) as Em2 by (cbn; apply u8_small; lia).
    pose proof (Gregorian.mdays_range (co_year c) (co_month c - 1)).
    rewrite (add_days_backward_S _ c1 _ (Gregorian.mdays (co_year c) (co_month c - 1))), E2 by
      (rewrite E2, Em2; apply (time_days_in_month_spec (co_year c)); lia).
    destruct (Z.leb_spec (1 + d + dim) 0); [|lia]. destruct n as [|n]; cbn [add_days_backward];
      (destruct (Z.leb_spec (1 + d + dim + Gregorian.mdays (co_year c) (co_month c - 1)) 0); [lia|]).
    all: rewrite res_bind_Ok; eexists; (split; [reflexivity|]); (split; [lia|]); intros _; eauto with lia.
  - cbn [add_days_backward]. destruct (Z.leb_spec (1 + d + dim) 0); [lia|].
    rewrite res_bind_Ok. eexists. split; [reflexivity|]. split; [|lia]. intros _.
    unfold c1, set_day, set_month; cbn. rewrite !(u8_small (co_month c)) by lia.
    by replace (1 + d + dim) with (dim + 1 + d) by lia.
Qed.

Lemma bymonthday_elem_spec c d :
  month_ok c -> -31 <= d <= 31 -> d <> 0 ->
  bymonthday_elem c d =
  Ok [set_day (monthday_of (Gregorian.mdays (co_year c) (co_month c)) d) c].
Proof.
  intros [Hy Hm] Hd H0. unfold bymonthday_elem, monthday_of.
  remember (Gregorian.mdays (co_year c) (co_month c)) as dim eqn:Edim.
  pose proof (Gregorian.mdays_range (co_year c) (co_month c)).
  assert (time_days_in_month (co_year c) (co_month c) = Ok dim) as Edays
    by (rewrite Edim; apply time_days_in_month_spec; lia).
  destruct (Z.ltb_spec 0 d).
  - destruct (add_days_month_start c d) as (c' & -> & E); [by split|lia|].
    rewrite <- Edim in E. rewrite res_bind_Ok. cbv zeta in E.
    destruct (Z.leb_spec d dim); subst c'; cbn [co_month set_month set_day].
    + rewrite Z.eqb_refl, Z.min_l by lia. done.
    + assert (co_month c <> 0 /\ co_month c <> 11) by (apply (short_month (co_year c)); lia).
      rewrite (u8_small (co_month c + 1)) by lia.
      destruct (Z.eqb_spec (co_month c + 1) (co_month c)); [lia|].
      rewrite Edays, res_bind_Ok, Z.min_r by lia.
      unfold set_day, set_month; cbn. by rewrite (u8_small (co_month c)) by lia.
  - destruct (add_days_month_end c d) as (c' & -> & E1 & E2); [by split|lia|].
    rewrite <- Edim in *. rewrite res_bind_Ok. cbv zeta in E1, E2.
    destruct (Z.ltb_spec 0 (dim + 1 + d)).
    + rewrite E1 by lia. cbn [co_month set_day]. by rewrite Z.eqb_refl.
    + destruct E2 as (d' & -> & Hpos); [lia|]. cbn [co_month set_month set_day].
      rewrite (u8_small (co_month c - 1)) by lia.
      destruct (Z.eqb_spec (co_month c - 1) (co_month c)); [lia|].
      rewrite Edays, res_bind_Ok.
      unfold set_day, set_month; cbn. by rewrite (u8_small (co_month c)) by lia.
Qed.

Lemma elemsM_map (f : Z -> res (list CalObjTime)) (g : Z -> CalObjTime) l :
  Forall (fun x => f x = Ok [g x]) l -> elemsM f l = Ok (g <$> l).
Proof.
  intros H. rewrite (elemsM_spec f (fun x => [g x])) by done. f_equal.
  induction l as [|x l IH]; [done|]. apply Forall_cons in H as [_ H].
  rewrite !fmap_cons. cbn [concat]. by rewrite IH.
Qed.

Lemma bymonthday_expand_days (rd : RecurData) (occs : list CalObjTime)
    (Hocc : Forall month_ok occs)
    (Hd : Forall (fun d => -31 <= d <= 31 /\ d <> 0) (bymonthday (recur rd)))
    (Hne : bymonthday (recur rd) <> []) :
  cal_obj_bymonthday_expand rd occs =
  Ok (concat ((fun c =>
    (fun d => set_day (monthday_of (Gregorian.mdays (co_year c) (co_month c)) d) c)
      <$> bymonthday (recur rd)) <$> occs)).
Proof.
  apply guarded_expand; [done|]. eapply Forall_impl; [exact Hocc|]. intros c Hc.
  cbv beta. apply elemsM_map. eapply Forall_impl; [exact Hd|]. intros d [? ?].
  by apply bymonthday_elem_spec.
Qed.

(** BYMONTHDAY replaces the day of every time by each listed day, counted
    from either end of the month, and changes nothing else; a number the month
    does not have becomes the last day of that month (also when counted from the
    end). *)
Theorem bymonthday_expand_spec (rd : RecurData) (occs : list CalObjTime)
    (Hocc : Forall month_ok occs)
    (Hd : Forall (fun d => -31 <= d <= 31 /\ d <> 0) (bymonthday (recur rd)))
    (Hne : bymonthday (recur rd) <> []) :
  cal_obj_bymonthday_expand rd occs =
  Ok (concat ((fun c =>
    (fun d => set_day (monthday_of (Gregorian.mdays (co_year c) (co_month c)) d) c)
      <$> bymonthday (recur rd)) <$> occs)).
Proof. by apply bymonthday_expand_days. Qed.

Lemma bymonthday_expand_spec_witness :
  exists rd, weekday_offset rd = 0 /\
    cal_obj_bymonthday_expand rd [mkCalObjTime 2007 1 10 9 0 0 false] =
    Ok [mkCalObjTime 2007 1 15 9 0 0 false; mkCalObjTime 2007 1 28 9 0 0 false;
        mkCalObjTime 2007 1 28 9 0 0 false; mkCalObjTime 2007 1 28 9 0 0 false].
Proof.
  set (r := mkECalRecurrence ICAL_MONTHLY_RECURRENCE 1 0 0 [] [] [] [15; 31; -1; -31] [] [] [] [] []).
  exists (mkRecurData r 0 [] [] [] [] [] [] [] [] []). split; [reflexivity|].
  rewrite bymonthday_expand_spec.
  - reflexivity.
  - concrete.
  - concrete.
  - discriminate.
Defined.

(** ** BYYEARDAY and BYWEEKNO *)

(** The day number [n], if it is in the year [y]. *)
Definition in_year (y n : Z) : list Z :=
  if decide (Gregorian.year_base y < n <= Gregorian.year_base y + Gregorian.ydays y)
  then [n] else [].

(** The [d]-th day of the year, or the [-d]-th from its end. *)
Definition yearday_serial (y d : Z) : Z :=
  if 0 <? d then Gregorian.year_base y + d
  else Gregorian.year_base y + Gregorian.ydays y + 1 + d.

(** First day of week 1: the week, from [wkst], that contains 4 January. *)
Definition week_1 (y wkst : Z) : Z :=
  let january_4 := Gregorian.year_base y + 4 in
  january_4 - (Gregorian.wday january_4 - wkst) mod 7.

(** Day [off] of the [w]-th week of the year, or of the [-w]-th week before
    week 1 of the next year. *)
Definition weekno_serial (y wkst off w : Z) : Z :=
  if 0 <? w then week_1 y wkst + off + (w - 1) * 7
  else week_1 (y + 1) wkst + off + w * 7.

Lemma in_year_spec c y occ :
  date_ok c -> same_clock occ c ->
  dates_at occ (in_year y (serial c)) (if co_year c =? y then [c] else []).
Proof.
  intros Hd Hs. rewrite (year_period y c Hd). unfold in_year.
  case_decide; case_bool_decide; try lia; [by apply dates_at_one|apply dates_at_nil].
Qed.

Lemma elemsM_dates (f : Z -> res (list CalObjTime)) (days : Z -> list Z) occ l :
  Forall (fun x => exists r, f x = Ok r /\ dates_at occ (days x) r) l ->
  exists r, elemsM f l = Ok r /\ dates_at occ (concat (days <$> l)) r.
Proof.
  induction 1 as [|x l (r & E & Hr) _ (r2 & E2 & Hr2)].
  - exists []. split; [done|apply dates_at_nil].
  - exists (r ++ r2). cbn [elemsM]. rewrite E, res_bind_Ok, E2. split; [done|].
    rewrite fmap_cons. cbn [concat]. by apply dates_at_app.
Qed.

Lemma byyearday_elem_spec c d :
  1902 <= co_year c < 65533 -> -366 <= d <= 366 ->
  exists l, byyearday_elem c d = Ok l /\
    dates_at c (in_year (co_year c) (yearday_serial (co_year c) d)) l.
Proof.
  intros Hy Hd. unfold byyearday_elem, yearday_serial.
  pose proof (Gregorian.ydays_range (co_year c)).
  fold (new_year c). fold (new_year (set_year (co_year c + 1) c)).
  set (next := set_year (co_year c + 1) c).
  assert (co_year next = co_year c + 1) as En by (apply u16_small; lia).
  assert (exists c', (if 0 <? d then cal_obj_time_add_days (new_year c) (d - 1)
      else cal_obj_time_add_days (new_year next) d) = Ok c' /\ date_ok c' /\ same_clock c c' /\
      serial c' = if 0 <? d then Gregorian.year_base (co_year c) + d
        else Gregorian.year_base (co_year c) + Gregorian.ydays (co_year c) + 1 + d)
    as (c' & -> & Hd' & Hs' & <-).
  { destruct (Z.ltb_spec 0 d).
    - destruct (add_days_spec (new_year c) (d - 1)) as (c' & E & Hc' & Hk' & Es);
        [apply new_year_ok; lia| |].
      { rewrite new_year_serial. apply serial_in_range_year with (co_year c); lia. }
      exists c'. rewrite Es, new_year_serial. split; [exact E|]. split; [exact Hc'|]. split; [exact Hk'|lia].
    - destruct (add_days_spec (new_year next) d) as (c' & E & Hc' & Hk' & Es);
        [apply new_year_ok; lia| |].
      { rewrite new_year_serial, En, Gregorian.year_base_succ.
        apply serial_in_range_year with (co_year c); lia. }
      exists c'. rewrite Es, new_year_serial, En, Gregorian.year_base_succ.
      split; [exact E|]. split; [exact Hc'|]. split; [exact Hk'|lia]. }
  rewrite res_bind_Ok. eexists. split; [reflexivity|]. by apply in_year_spec.
Qed.

Lemma byyearday_expand_dates (rd : RecurData) (occs : list CalObjTime)
    (Hocc : Forall (fun c => 1902 <= co_year c < 65533) occs)
    (Hd : Forall (fun d => -366 <= d <= 366) (byyearday (recur rd)))
    (Hne : byyearday (recur rd) <> []) :
  exists ls, cal_obj_byyearday_expand rd occs = Ok (concat ls) /\
    Forall2 (fun c l =>
      dates_at c (concat ((fun d => in_year (co_year c) (yearday_serial (co_year c) d))
                            <$> byyearday (recur rd))) l) occs ls.
Proof.
  apply guarded_Forall2; [done|]. intros c Hin. rewrite Forall_forall in Hocc.
  apply elemsM_dates. eapply Forall_impl; [exact Hd|]. intros d Hdd.
  apply byyearday_elem_spec; [by apply Hocc|done].
Qed.

(** BYYEARDAY replaces every time by each listed day of its year, counted
    from either end, in the order of the list; days the year does not have are
    dropped. *)
Theorem byyearday_expand_spec (rd : RecurData) (occs : list CalObjTime)
    (Hocc : Forall (fun c => 1902 <= co_year c < 65533) occs)
    (Hd : Forall (fun d => -366 <= d <= 366) (byyearday (recur rd)))
    (Hne : byyearday (recur rd) <> []) :
  exists ls, cal_obj_byyearday_expand rd occs = Ok (concat ls) /\
    Forall2 (fun c l =>
      dates_at c (concat ((fun d => in_year (co_year c) (yearday_serial (co_year c) d))
                            <$> byyearday (recur rd))) l) occs ls.
Proof. by apply byyearday_expand_dates. Qed.

(** Day 366 exists in 2008, not in 2007. *)
Lemma byyearday_expand_spec_witness :
  exists rd l, weekday_offset rd = 0 /\
    cal_obj_byyearday_expand rd
      [mkCalObjTime 2007 5 1 9 0 0 false; mkCalObjTime 2008 5 1 9 0 0 false] = Ok l /\
    serial <$> l = [Gregorian.serial 2007 11 31; Gregorian.serial 2008 11 31; Gregorian.serial 2008 11 31].
Proof.
  set (r := mkECalRecurrence ICAL_YEARLY_RECURRENCE 1 0 0 [] [] [366; -1] [] [] [] [] [] []).
  set (rd := mkRecurData r 0 [] [] [] [] [] [] [] [] []).
  destruct (byyearday_expand_spec rd
    [mkCalObjTime 2007 5 1 9 0 0 false; mkCalObjTime 2008 5 1 9 0 0 false]) as (ls & E & H).
  - concrete.
  - concrete.
  - discriminate.
  - apply Forall2_cons_inv_l in H as (l1 & ls' & (_ & _ & Hl1) & H & ->).
    apply Forall2_cons_inv_l in H as (l2 & ls2 & (_ & _ & Hl2) & H & ->).
    apply Forall2_nil_inv_l in H as ->.
    exists rd, (concat [l1; l2]). split; [reflexivity|]. split; [exact E|].
    cbn [concat]. rewrite app_nil_r, fmap_app, Hl1, Hl2. vm_compute. reflexivity.
Defined.

Section byweekno_specs.
Context {G : GDate} `{!GDateLaws G}.

Lemma find_first_week_serial c wkst off :
  1902 <= co_year c < 65533 -> 0 <= wkst < 7 -> 0 <= off < 7 ->
  exists c', cal_obj_time_find_first_week c wkst off = Ok c' /\ date_ok c' /\ same_clock c c' /\
    serial c' = week_1 (co_year c) wkst + off.
Proof.
  intros Hy Hw Ho. destruct (find_first_week_ok G _ c wkst off) as (c' & E & Hd & Hs & H1 & H2); [done..|].
  exists c'. split; [done|]. split; [done|]. split; [done|].
  rewrite new_year_serial in H2. unfold week_1.
  remember (Gregorian.year_base (co_year c)) as b eqn:Eb.
  unfold Gregorian.wday in *. Z.to_euclidean_division_equations; lia.
Qed.

Lemma week_1_range y wkst : Gregorian.year_base y - 3 < week_1 y wkst <= Gregorian.year_base y + 4.
Proof.
  unfold week_1. pose proof (Z.mod_pos_bound (Gregorian.wday (Gregorian.year_base y + 4) - wkst) 7). lia.
Qed.

Lemma byweekno_occ_spec rd c :
  1902 <= co_year c < 65532 -> 0 <= week_start_day (recur rd) < 7 -> 0 <= weekday_offset rd < 7 ->
  Forall (fun w => -53 <= w <= 53) (byweekno (recur rd)) ->
  exists l, byweekno_occ rd c = Ok l /\
    dates_at c (concat ((fun w => in_year (co_year c)
        (weekno_serial (co_year c) (week_start_day (recur rd)) (weekday_offset rd) w))
      <$> byweekno (recur rd))) l.
Proof.
  intros Hy Hw Ho Hl. unfold byweekno_occ.
  destruct (find_first_week_serial c (week_start_day (recur rd)) (weekday_offset rd))
    as (c1 & -> & D1 & S1 & E1); [lia..|]. rewrite res_bind_Ok.
  assert (co_year (set_year (co_year c + 1) c) = co_year c + 1) as En by (apply u16_small; lia).
  destruct (find_first_week_serial (set_year (co_year c + 1) c) (week_start_day (recur rd))
    (weekday_offset rd)) as (c2 & -> & D2 & S2 & E2); [lia..|]. rewrite res_bind_Ok.
  rewrite En in E2.
  apply elemsM_dates. eapply Forall_impl; [exact Hl|]. intros w Hww. cbv beta in Hww.
  unfold byweekno_elem, weekno_serial.
  pose proof (week_1_range (co_year c) (week_start_day (recur rd))).
  pose proof (week_1_range (co_year c + 1) (week_start_day (recur rd))) as R2.
  rewrite Gregorian.year_base_succ in R2. pose proof (Gregorian.ydays_range (co_year c)).
  destruct (Z.ltb_spec 0 w).
  - destruct (add_days_spec c1 ((w - 1) * 7)) as (c' & -> & Hd' & Hs' & Es); [done| |].
    { apply serial_in_range_year with (co_year c); lia. }
    rewrite res_bind_Ok, <- E1, <- Es. eexists. split; [reflexivity|].
    apply in_year_spec; [done|eapply same_clock_trans; [exact S1|done]].
  - destruct (add_days_spec c2 (w * 7)) as (c' & -> & Hd' & Hs' & Es); [done| |].
    { apply serial_in_range_year with (co_year c); lia. }
    rewrite res_bind_Ok, <- E2, <- Es. eexists. split; [reflexivity|].
    apply in_year_spec; [done|]. eapply same_clock_trans; [exact S2|done].
Qed.
End byweekno_specs.

Lemma byweekno_expand_dates (G : GDate) (GL : GDateLaws G) (rd : RecurData)
    (occs : list CalObjTime)
    (Hocc : Forall (fun c => 1902 <= co_year c < 65532) occs)
    (Hw : 0 <= week_start_day (recur rd) < 7) (Ho : 0 <= weekday_offset rd < 7)
    (Hl : Forall (fun w => -53 <= w <= 53) (byweekno (recur rd)))
    (Hne : byweekno (recur rd) <> []) :
  exists ls, cal_obj_byweekno_expand rd occs = Ok (concat ls) /\
    Forall2 (fun c l =>
      dates_at c (concat ((fun w => in_year (co_year c)
          (weekno_serial (co_year c) (week_start_day (recur rd)) (weekday_offset rd) w))
        <$> byweekno (recur rd))) l) occs ls.
Proof.
  apply guarded_Forall2; [done|]. intros c Hin. rewrite Forall_forall in Hocc.
  apply byweekno_occ_spec; [by apply Hocc|done..].
Qed.

(** BYWEEKNO replaces every time by the event's weekday in each listed week
    of its year (week 1 contains 4 January, weeks start on the week start day;
    negative numbers count back from the last week); days of such a week that
    lie in another year are dropped. *)
Theorem byweekno_expand_spec (G : GDate) (GL : GDateLaws G) (rd : RecurData)
    (occs : list CalObjTime)
    (Hocc : Forall (fun c => 1902 <= co_year c < 65532) occs)
    (Hw : 0 <= week_start_day (recur rd) < 7) (Ho : 0 <= weekday_offset rd < 7)
    (Hl : Forall (fun w => -53 <= w <= 53) (byweekno (recur rd)))
    (Hne : byweekno (recur rd) <> []) :
  exists ls, cal_obj_byweekno_expand rd occs = Ok (concat ls) /\
    Forall2 (fun c l =>
      dates_at c (concat ((fun w => in_year (co_year c)
          (weekno_serial (co_year c) (week_start_day (recur rd)) (weekday_offset rd) w))
        <$> byweekno (recur rd))) l) occs ls.
Proof. by apply byweekno_expand_dates. Qed.

(** Monday of week 20 of 1997 (RFC 2445's example); Monday of week 1 of 1997 is
    in 1996. *)
Lemma byweekno_expand_spec_witness :
  exists rd l, weekday_offset rd = 0 /\
    @cal_obj_byweekno_expand GDate_gregorian rd [mkCalObjTime 1997 4 12 9 0 0 false] = Ok l /\
    serial <$> l = [Gregorian.serial 1997 4 12].
Proof.
  set (r := mkECalRecurrence ICAL_YEARLY_RECURRENCE 1 0 0 [] [20; 1] [] [] [] [] [] [] []).
  set (rd := mkRecurData r 0 [] [] [] [] [] [] [] [] []).
  destruct (byweekno_expand_spec GDate_gregorian _ rd [mkCalObjTime 1997 4 12 9 0 0 false])
    as (ls & E & H).
  - concrete.
  - concrete.
  - concrete.
  - concrete.
  - discriminate.
  - apply Forall2_cons_inv_l in H as (l & ls' & (_ & _ & Hl) & H & ->).
    apply Forall2_nil_inv_l in H as ->.
    exists rd, (concat [l]). split; [reflexivity|]. split; [exact E|].
    cbn [concat]. rewrite app_nil_r, Hl. vm_compute. reflexivity.
Defined.
