(* ===== verification/RecurSteps.v ===== *)
(** * Stepping through the periods of a rule ([cal_obj_*_find_start_position]
    and [cal_obj_*_find_next_position] of [e-cal-recur.c])

    The C functions return [TRUE] when there is no (further) period, and the
    callers then never look at [*cotime]; otherwise they return [FALSE] and the
    position in [*cotime].  Here the result is [None] for [TRUE] and [Some
    cotime] for [FALSE].  The [NULL]able [event_end] and [interval_end] are
    options. *)

From S2P Require Import Prelude CalTimeUtil CalObjTime Libical RecurRule.

(** [a % b] with [b] of type [gint]: division by zero is undefined. *)
Definition c_rem (a b : Z) : res Z := if b =? 0 then Undef else Ok (Z.rem a b).

(** [a % b] for [guint32 a] and [gint b]: [b] is converted to [guint32]. *)
Definition c_rem_u32 (a b : Z) : res Z :=
  if u32 b =? 0 then Undef else Ok (a mod u32 b).

(** [end && test (end)] *)
Definition past (e : option CalObjTime) (test : CalObjTime -> bool) : bool :=
  match e with Some e => test e | None => false end.

(** The test both functions end with: [cotime] is past [event_end] or
    [interval_end] at the given precision. *)
Definition position (event_end interval_end : option CalObjTime)
    (type : CalObjTimeComparison) (cotime : CalObjTime) : option CalObjTime :=
  if past event_end (fun e => 0 <? cal_obj_time_compare cotime e type) then None
  else if past interval_end (fun e => 0 <? cal_obj_time_compare cotime e type) then None
  else Some cotime.

Definition cal_obj_yearly_find_start_position (event_start : CalObjTime)
    (event_end : option CalObjTime) (rd : RecurData) (interval_start : CalObjTime)
    (interval_end : option CalObjTime) : res (option CalObjTime) :=
  let cotime := event_start in
  cotime ← (if co_year cotime <? co_year interval_start then
      let years := co_year interval_start - co_year cotime + interval (recur rd) - 1 in
      r ← c_rem years (interval (recur rd));
      Ok (set_year (co_year cotime + (years - r)) cotime)
    else Ok cotime);
  Ok (if past event_end (fun e => co_year e <? co_year cotime)
        || past interval_end (fun e => co_year e <? co_year cotime)
      then None else Some cotime).

Definition cal_obj_yearly_find_next_position (cotime : CalObjTime)
    (event_end : option CalObjTime) (rd : RecurData) (interval_end : option CalObjTime)
    : res (option CalObjTime) :=
  let cotime := set_year (co_year cotime + interval (recur rd)) cotime in
  Ok (if past event_end (fun e => co_year e <? co_year cotime)
        || past interval_end (fun e => co_year e <? co_year cotime)
      then None else Some cotime).

Definition cal_obj_monthly_find_start_position (event_start : CalObjTime)
    (event_end : option CalObjTime) (rd : RecurData) (interval_start : CalObjTime)
    (interval_end : option CalObjTime) : res (option CalObjTime) :=
  let cotime := event_start in
  cotime ← (if cal_obj_time_compare cotime interval_start CALOBJ_MONTH <? 0 then
      let months := (co_year interval_start - co_year cotime) * 12
                    + co_month interval_start - co_month cotime
                    + interval (recur rd) - 1 in
      r ← c_rem months (interval (recur rd));
      cal_obj_time_add_months cotime (months - r)
    else Ok cotime);
  Ok (position event_end interval_end CALOBJ_MONTH cotime).

Definition cal_obj_monthly_find_next_position (cotime : CalObjTime)
    (event_end : option CalObjTime) (rd : RecurData) (interval_end : option CalObjTime)
    : res (option CalObjTime) :=
  cotime ← cal_obj_time_add_months cotime (interval (recur rd));
  Ok (position event_end interval_end CALOBJ_MONTH cotime).

(** Weekly rules compare the start of the week with the two ends. *)
Definition weekly_position (event_end interval_end : option CalObjTime) (rd : RecurData)
    (cotime : CalObjTime) : res (option CalObjTime) :=
  week_start ← cal_obj_time_add_days cotime (- weekday_offset rd);
  Ok (if past event_end (fun e => 0 <? cal_obj_time_compare week_start e CALOBJ_DAY) then None
      else if past interval_end (fun e => 0 <? cal_obj_time_compare week_start e CALOBJ_DAY)
      then None else Some cotime).

Definition cal_obj_weekly_find_next_position (cotime : CalObjTime)
    (event_end : option CalObjTime) (rd : RecurData) (interval_end : option CalObjTime)
    : res (option CalObjTime) :=
  cotime ← cal_obj_time_add_days cotime (interval (recur rd) * 7);
  weekly_position event_end interval_end rd cotime.

(** The early exits of the other frequencies: the event is over before the
    interval starts, or starts after the interval ends. *)
Definition disjoint_from (event_start : CalObjTime) (event_end : option CalObjTime)
    (interval_start : CalObjTime) (interval_end : option CalObjTime)
    (type : CalObjTimeComparison) : bool :=
  past interval_end (fun e => 0 <? cal_obj_time_compare event_start e type)
  || past event_end (fun e => cal_obj_time_compare e interval_start type <? 0).

Definition cal_obj_daily_find_next_position (cotime : CalObjTime)
    (event_end : option CalObjTime) (rd : RecurData) (interval_end : option CalObjTime)
    : res (option CalObjTime) :=
  cotime ← cal_obj_time_add_days cotime (interval (recur rd));
  Ok (position event_end interval_end CALOBJ_DAY cotime).

Definition cal_obj_hourly_find_next_position (cotime : CalObjTime)
    (event_end : option CalObjTime) (rd : RecurData) (interval_end : option CalObjTime)
    : res (option CalObjTime) :=
  cotime ← cal_obj_time_add_hours cotime (interval (recur rd));
  Ok (position event_end interval_end CALOBJ_HOUR cotime).

Definition cal_obj_minutely_find_next_position (cotime : CalObjTime)
    (event_end : option CalObjTime) (rd : RecurData) (interval_end : option CalObjTime)
    : res (option CalObjTime) :=
  cotime ← cal_obj_time_add_minutes cotime (interval (recur rd));
  Ok (position event_end interval_end CALOBJ_MINUTE cotime).

(** Secondly rules stop at, not after, the ends. *)
Definition secondly_position (event_end interval_end : option CalObjTime) (cotime : CalObjTime)
    : option CalObjTime :=
  if past event_end (fun e => 0 <=? cal_obj_time_compare cotime e CALOBJ_SECOND) then None
  else if past interval_end (fun e => 0 <=? cal_obj_time_compare cotime e CALOBJ_SECOND) then None
  else Some cotime.

Definition cal_obj_secondly_find_next_position (cotime : CalObjTime)
    (event_end : option CalObjTime) (rd : RecurData) (interval_end : option CalObjTime)
    : res (option CalObjTime) :=
  cotime ← cal_obj_time_add_seconds cotime (interval (recur rd));
  Ok (secondly_position event_end interval_end cotime).

Section start_positions.
Context {G : GDate}.

Definition julian (c : CalObjTime) : Z :=
  g_date_get_julian (co_day c) (co_month c + 1) (co_year c).

Definition cal_obj_weekly_find_start_position (event_start : CalObjTime)
    (event_end : option CalObjTime) (rd : RecurData) (interval_start : CalObjTime)
    (interval_end : option CalObjTime) : res (option CalObjTime) :=
  if past event_end (fun e => cal_obj_time_compare e interval_start CALOBJ_DAY <? 0) then Ok None
  else if past interval_end (fun e => 0 <? cal_obj_time_compare event_start e CALOBJ_DAY) then Ok None
  else
    let cotime := event_start in
    let event_start_julian := u32 (u32 (julian event_start) - weekday_offset rd) in
    let interval_start_weekday_offset :=
      cal_obj_time_weekday_offset interval_start (week_start_day (recur rd)) in
    let interval_start_julian :=
      u32 (u32 (julian interval_start) - interval_start_weekday_offset) in
    cotime ← (if event_start_julian <? interval_start_julian then
        let weeks := s32 (u32 (interval_start_julian - event_start_julian) / 7) in
        let weeks := weeks + (interval (recur rd) - 1) in
        r ← c_rem weeks (interval (recur rd));
        cal_obj_time_add_days cotime ((weeks - r) * 7)
      else Ok cotime);
    weekly_position event_end interval_end rd cotime.

Definition cal_obj_daily_find_start_position (event_start : CalObjTime)
    (event_end : option CalObjTime) (rd : RecurData) (interval_start : CalObjTime)
    (interval_end : option CalObjTime) : res (option CalObjTime) :=
  if disjoint_from event_start event_end interval_start interval_end CALOBJ_DAY then Ok None
  else
    let cotime := event_start in
    let event_start_julian := u32 (julian event_start) in
    let interval_start_julian := u32 (julian interval_start) in
    cotime ← (if event_start_julian <? interval_start_julian then
        let days := u32 (interval_start_julian - event_start_julian
                         + interval (recur rd) - 1) in
        r ← c_rem_u32 days (interval (recur rd));
        cal_obj_time_add_days cotime (s32 (u32 (days - r)))
      else Ok cotime);
    Ok (position event_end interval_end CALOBJ_DAY cotime).

Definition cal_obj_hourly_find_start_position (event_start : CalObjTime)
    (event_end : option CalObjTime) (rd : RecurData) (interval_start : CalObjTime)
    (interval_end : option CalObjTime) : res (option CalObjTime) :=
  if disjoint_from event_start event_end interval_start interval_end CALOBJ_HOUR then Ok None
  else
    let cotime := event_start in
    cotime ← (if cal_obj_time_compare event_start interval_start CALOBJ_HOUR <? 0 then
        let event_start_julian := u32 (julian event_start) in
        let interval_start_julian := u32 (julian interval_start) in
        let hours := u32 ((interval_start_julian - event_start_julian) * 24) in
        let hours := u32 (hours + (co_hour interval_start - co_hour event_start)) in
        let hours := u32 (hours + (interval (recur rd) - 1)) in
        r ← c_rem_u32 hours (interval (recur rd));
        cal_obj_time_add_hours cotime (s32 (u32 (hours - r)))
      else Ok cotime);
    Ok (position event_end interval_end CALOBJ_HOUR cotime).

Definition cal_obj_minutely_find_start_position (event_start : CalObjTime)
    (event_end : option CalObjTime) (rd : RecurData) (interval_start : CalObjTime)
    (interval_end : option CalObjTime) : res (option CalObjTime) :=
  if disjoint_from event_start event_end interval_start interval_end CALOBJ_MINUTE then Ok None
  else
    let cotime := event_start in
    cotime ← (if cal_obj_time_compare event_start interval_start CALOBJ_MINUTE <? 0 then
        let event_start_julian := u32 (julian event_start) in
        let interval_start_julian := u32 (julian interval_start) in
        let minutes := u32 ((interval_start_julian - event_start_julian) * 24 * 60) in
        let minutes := u32 (minutes + (co_hour interval_start - co_hour event_start) * 24) in
        let minutes := u32 (minutes + (co_minute interval_start - co_minute event_start)) in
        let minutes := u32 (minutes + (interval (recur rd) - 1)) in
        r ← c_rem_u32 minutes (interval (recur rd));
        cal_obj_time_add_minutes cotime (s32 (u32 (minutes - r)))
      else Ok cotime);
    Ok (position event_end interval_end CALOBJ_MINUTE cotime).

Definition cal_obj_secondly_find_start_position (event_start : CalObjTime)
    (event_end : option CalObjTime) (rd : RecurData) (interval_start : CalObjTime)
    (interval_end : option CalObjTime) : res (option CalObjTime) :=
  if disjoint_from event_start event_end interval_start interval_end CALOBJ_SECOND then Ok None
  else
    let cotime := event_start in
    cotime ← (if cal_obj_time_compare event_start interval_start CALOBJ_SECOND <? 0 then
        let event_start_julian := u32 (julian event_start) in
        let interval_start_julian := u32 (julian interval_start) in
        let seconds := u32 ((interval_start_julian - event_start_julian) * 24 * 60 * 60) in
        let seconds := u32 (seconds + (co_hour interval_start - co_hour event_start) * 24 * 60) in
        let seconds := u32 (seconds + (co_minute interval_start - co_minute event_start) * 60) in
        let seconds := u32 (seconds + (co_second interval_start - co_second event_start)) in
        let seconds := u32 (seconds + (interval (recur rd) - 1)) in
        r ← c_rem_u32 seconds (interval (recur rd));
        cal_obj_time_add_seconds cotime (s32 (u32 (seconds - r)))
      else Ok cotime);
    Ok (secondly_position event_end interval_end cotime).
End start_positions.
