(* ===== verification/RecurEngine.v ===== *)
(** * Expanding a rule ([e-cal-recur.c])

    The function tables per frequency, the generation of the set of occurrences
    of one period, duplicate and exception removal, BYSETPOS, and
    [cal_obj_expand_recurrence], which steps through the periods. *)

From S2P Require Import Prelude CalTimeUtil CalObjTime Libical RecurRule RecurFilters RecurSteps.

Section engine.
Context {G : GDate} {L : Libical} {Q : QSort}.

Definition CalObjFilterFn := RecurData -> list CalObjTime -> res (list CalObjTime).

(** [ECalRecurVTable]; a filter may be [NULL]. *)
Record ECalRecurVTable := mkVTable {
  find_start_position :
    CalObjTime -> option CalObjTime -> RecurData -> CalObjTime -> option CalObjTime ->
    res (option CalObjTime);
  find_next_position :
    CalObjTime -> option CalObjTime -> RecurData -> option CalObjTime -> res (option CalObjTime);
  bymonth_filter : option CalObjFilterFn;
  byweekno_filter : option CalObjFilterFn;
  byyearday_filter : option CalObjFilterFn;
  bymonthday_filter : option CalObjFilterFn;
  byday_filter : option CalObjFilterFn;
  byhour_filter : option CalObjFilterFn;
  byminute_filter : option CalObjFilterFn;
  bysecond_filter : option CalObjFilterFn;
}.

Definition cal_obj_yearly_vtable : ECalRecurVTable := mkVTable
  cal_obj_yearly_find_start_position cal_obj_yearly_find_next_position
  (Some cal_obj_bymonth_expand) (Some cal_obj_byweekno_expand)
  (Some cal_obj_byyearday_expand) (Some cal_obj_bymonthday_expand)
  (Some cal_obj_byday_expand_yearly) (Some cal_obj_byhour_expand)
  (Some cal_obj_byminute_expand) (Some cal_obj_bysecond_expand).

Definition cal_obj_monthly_vtable : ECalRecurVTable := mkVTable
  cal_obj_monthly_find_start_position cal_obj_monthly_find_next_position
  (Some cal_obj_bymonth_filter) None
  None (Some cal_obj_bymonthday_expand)
  (Some cal_obj_byday_expand_monthly) (Some cal_obj_byhour_expand)
  (Some cal_obj_byminute_expand) (Some cal_obj_bysecond_expand).

Definition cal_obj_weekly_vtable : ECalRecurVTable := mkVTable
  cal_obj_weekly_find_start_position cal_obj_weekly_find_next_position
  (Some cal_obj_bymonth_filter) None
  None None
  (Some cal_obj_byday_expand_weekly) (Some cal_obj_byhour_expand)
  (Some cal_obj_byminute_expand) (Some cal_obj_bysecond_expand).

Definition cal_obj_daily_vtable : ECalRecurVTable := mkVTable
  cal_obj_daily_find_start_position cal_obj_daily_find_next_position
  (Some cal_obj_bymonth_filter) None
  (Some cal_obj_byyearday_filter) (Some cal_obj_bymonthday_filter)
  (Some cal_obj_byday_filter) (Some cal_obj_byhour_expand)
  (Some cal_obj_byminute_expand) (Some cal_obj_bysecond_expand).

Definition cal_obj_hourly_vtable : ECalRecurVTable := mkVTable
  cal_obj_hourly_find_start_position cal_obj_hourly_find_next_position
  (Some cal_obj_bymonth_filter) None
  (Some cal_obj_byyearday_filter) (Some cal_obj_bymonthday_filter)
  (Some cal_obj_byday_filter) (Some cal_obj_byhour_filter)
  (Some cal_obj_byminute_expand) (Some cal_obj_bysecond_expand).

Definition cal_obj_minutely_vtable : ECalRecurVTable := mkVTable
  cal_obj_minutely_find_start_position cal_obj_minutely_find_next_position
  (Some cal_obj_bymonth_filter) None
  (Some cal_obj_byyearday_filter) (Some cal_obj_bymonthday_filter)
  (Some cal_obj_byday_filter) (Some cal_obj_byhour_filter)
  (Some cal_obj_byminute_filter) (Some cal_obj_bysecond_expand).

Definition cal_obj_secondly_vtable : ECalRecurVTable := mkVTable
  cal_obj_secondly_find_start_position cal_obj_secondly_find_next_position
  (Some cal_obj_bymonth_filter) None
  (Some cal_obj_byyearday_filter) (Some cal_obj_bymonthday_filter)
  (Some cal_obj_byday_filter) (Some cal_obj_byhour_filter)
  (Some cal_obj_byminute_filter) (Some cal_obj_bysecond_filter).

Definition cal_obj_get_vtable (recur_type : icalrecurrencetype_frequency)
    : option ECalRecurVTable :=
  match recur_type with
  | ICAL_YEARLY_RECURRENCE => Some cal_obj_yearly_vtable
  | ICAL_MONTHLY_RECURRENCE => Some cal_obj_monthly_vtable
  | ICAL_WEEKLY_RECURRENCE => Some cal_obj_weekly_vtable
  | ICAL_DAILY_RECURRENCE => Some cal_obj_daily_vtable
  | ICAL_HOURLY_RECURRENCE => Some cal_obj_hourly_vtable
  | ICAL_MINUTELY_RECURRENCE => Some cal_obj_minutely_vtable
  | ICAL_SECONDLY_RECURRENCE => Some cal_obj_secondly_vtable
  | ICAL_NO_RECURRENCE => None
  end.

(** A call through a filter pointer, and one guarded by a [NULL] test. *)
Definition call_filter (f : option CalObjFilterFn) : CalObjFilterFn :=
  match f with Some f => f | None => fun _ _ => Undef end.
Definition call_filter_opt (f : option CalObjFilterFn) : CalObjFilterFn :=
  match f with Some f => f | None => fun _ occs => Ok occs end.

(** The arrays collected before they are added together; an array is
    produced only if its guard holds. *)
Definition occs_array (guard : bool) (gen : res (list CalObjTime)) : res (list (list CalObjTime)) :=
  if guard then occs ← gen; Ok [occs] else Ok [].

Definition cal_obj_generate_set_yearly (rd : RecurData) (vtable : ECalRecurVTable)
    (occ : CalObjTime) : res (list CalObjTime) :=
  let r := recur rd in
  let has_bymonth := negb (is_empty (bymonth r)) in
  let has_byweekno := negb (is_empty (byweekno r)) in
  let has_byyearday := negb (is_empty (byyearday r)) in
  let has_bymonthday := negb (is_empty (bymonthday r)) in
  let has_byday := negb (is_empty (byday r)) in
  a1 ← occs_array has_bymonth (
    occs ← call_filter (bymonth_filter vtable) rd [occ];
    if has_bymonthday && has_byday then
      occs1 ← call_filter (bymonthday_filter vtable) rd occs;
      occs2 ← cal_obj_byday_expand_monthly rd occs;
      Ok (occs1 ++ occs2)
    else
      occs ← call_filter (bymonthday_filter vtable) rd occs;
      cal_obj_byday_expand_monthly rd occs);
  a2 ← occs_array has_byweekno (
    occs ← call_filter (byweekno_filter vtable) rd [occ];
    cal_obj_byday_expand_weekly rd occs);
  a3 ← occs_array has_byyearday (
    call_filter (byyearday_filter vtable) rd [occ]);
  a4 ← occs_array (has_bymonthday && negb has_bymonth) (
    call_filter (bymonthday_filter vtable) rd [occ]);
  a5 ← occs_array (has_byday && negb has_bymonth && negb has_byweekno) (
    call_filter (byday_filter vtable) rd [occ]);
  let occs_arrays := a1 ++ a2 ++ a3 ++ a4 ++ a5 in
  let occs := if is_empty occs_arrays then [occ] else concat occs_arrays in
  occs ← call_filter (byhour_filter vtable) rd occs;
  occs ← call_filter (byminute_filter vtable) rd occs;
  call_filter (bysecond_filter vtable) rd occs.

Definition cal_obj_generate_set_monthly (rd : RecurData) (vtable : ECalRecurVTable)
    (occ : CalObjTime) : res (list CalObjTime) :=
  occs ← call_filter (bymonth_filter vtable) rd [occ];
  occs ← (if negb (is_empty (bymonthday (recur rd))) && negb (is_empty (byday (recur rd))) then
      occs1 ← call_filter (bymonthday_filter vtable) rd occs;
      occs2 ← call_filter (byday_filter vtable) rd occs;
      Ok (occs1 ++ occs2)
    else
      occs ← call_filter (bymonthday_filter vtable) rd occs;
      call_filter (byday_filter vtable) rd occs);
  occs ← call_filter (byhour_filter vtable) rd occs;
  occs ← call_filter (byminute_filter vtable) rd occs;
  call_filter (bysecond_filter vtable) rd occs.

Definition cal_obj_generate_set_default (rd : RecurData) (vtable : ECalRecurVTable)
    (occ : CalObjTime) : res (list CalObjTime) :=
  occs ← call_filter (bymonth_filter vtable) rd [occ];
  occs ← call_filter_opt (byweekno_filter vtable) rd occs;
  occs ← call_filter_opt (byyearday_filter vtable) rd occs;
  occs ← call_filter_opt (bymonthday_filter vtable) rd occs;
  occs ← call_filter (byday_filter vtable) rd occs;
  occs ← call_filter (byhour_filter vtable) rd occs;
  occs ← call_filter (byminute_filter vtable) rd occs;
  call_filter (bysecond_filter vtable) rd occs.

Definition cal_obj_sort_occurrences (occs : list CalObjTime) : list CalObjTime :=
  qsort cal_obj_time_compare_func occs.

(** The number of days the occurrence's month has. *)
Definition occ_month_days (occ : CalObjTime) : res Z :=
  let year := co_year occ in
  let month := co_month occ in
  days ← arr_get days_in_month month;
  Ok (if (month =? 1) && ((year mod 4 =? 0)
         && (negb (year mod 100 =? 0) || (year mod 400 =? 0)))
      then days + 1 else days).

(** The loop of [cal_obj_remove_duplicates_and_invalid_dates]; [prev_occ]
    points to the previous element, whose day has been adjusted. *)
Fixpoint dedup_loop (prev_occ : option CalObjTime) (occs : list CalObjTime)
    : res (list CalObjTime) :=
  match occs with
  | [] => Ok []
  | occ :: occs =>
      let keep_occ :=
        match prev_occ with
        | Some prev_occ => negb (cal_obj_time_compare_func occ prev_occ =? 0)
        | None => true
        end in
      days ← occ_month_days occ;
      let occ := if days <? co_day occ then set_day days occ else occ in
      rest ← dedup_loop (Some occ) occs;
      Ok (if keep_occ then occ :: rest else rest)
  end.

Definition cal_obj_remove_duplicates_and_invalid_dates (occs : list CalObjTime)
    : res (list CalObjTime) :=
  dedup_loop None occs.

(** The inner loop of [cal_obj_remove_exceptions]: the exceptions left and
    whether [occ] matched one. *)
Fixpoint step_exceptions (ex_occs : list CalObjTime) (occ : CalObjTime)
    : list CalObjTime * bool :=
  match ex_occs with
  | [] => ([], false)
  | ex_occ :: rest =>
      let cmp := if co_flags ex_occ then cal_obj_date_only_compare_func ex_occ occ
                 else cal_obj_time_compare_func ex_occ occ in
      if 0 <? cmp then (ex_occs, false)
      else if cmp =? 0 then (rest, true)
      else step_exceptions rest occ
  end.

(** The outer loop.  [kept] are the elements kept so far, last one first;
    the flag of the last one can still be set. *)
Fixpoint exceptions_loop (occs : list CalObjTime) (prev_occ : option CalObjTime)
    (ex_occs : list CalObjTime) (current_time_is_exception : bool)
    (kept : list CalObjTime) : res (list CalObjTime) :=
  match occs with
  | [] => Ok (reverse kept)
  | occ :: occs =>
      if match prev_occ with
         | Some prev_occ => cal_obj_time_compare_func occ prev_occ =? 0
         | None => false
         end
      then
        kept ← (if co_flags occ && negb current_time_is_exception then
                  match kept with
                  | last_occ_kept :: kept => Ok (set_flags true last_occ_kept :: kept)
                  | [] => Undef
                  end
                else Ok kept);
        exceptions_loop occs (Some occ) ex_occs current_time_is_exception kept
      else
        let '(ex_occs, matched) := step_exceptions ex_occs occ in
        exceptions_loop occs (Some occ) ex_occs matched (if matched then kept else occ :: kept)
  end.

Definition cal_obj_remove_exceptions (occs ex_occs : list CalObjTime) : res (list CalObjTime) :=
  exceptions_loop occs None ex_occs false [].

(** The elements the list of positions selects; out of range positions
    select nothing. *)
Fixpoint bysetpos_loop (elems : list Z) (occs : list CalObjTime) : list CalObjTime :=
  match elems with
  | [] => []
  | pos :: elems =>
      let len := Z.of_nat (length occs) in
      let pos := if pos <? 0 then pos + len else pos - 1 in
      (if (0 <=? pos) && (pos <? len)
       then option_list (occs !! Z.to_nat pos) else [])
      ++ bysetpos_loop elems occs
  end.

Definition cal_obj_bysetpos_filter (r : ECalRecurrence) (occs : list CalObjTime)
    : list CalObjTime :=
  if is_empty (bysetpos r) || is_empty occs then occs else bysetpos_loop (bysetpos r) occs.

Definition cal_object_time_from_time (t : Z) (zone : option icaltimezone) : CalObjTime :=
  let tt := match zone with
            | Some _ => icaltime_from_timet_with_zone t false zone
            | None => icaltime_from_timet t false
            end in
  mkCalObjTime (u16 (it_year tt)) (u8 (it_month tt - 1)) (u8 (it_day tt))
    (u8 (it_hour tt)) (u8 (it_minute tt)) (u8 (it_second tt)) false.

Fixpoint drop_while {A} (p : A -> bool) (l : list A) : list A :=
  match l with
  | [] => []
  | a :: l' => if p a then drop_while p l' else l
  end.

(** "Remove any occs after event_end", from the end of the array. *)
Definition trim_after (event_end : option CalObjTime) (occs : list CalObjTime)
    : list CalObjTime :=
  match event_end with
  | Some e => reverse (drop_while (fun c => 0 <? cal_obj_time_compare_func c e) (reverse occs))
  | None => occs
  end.

(** The set of occurrences of one period. *)
Definition period_occs (vtable : ECalRecurVTable) (event_end : option CalObjTime)
    (rd : RecurData) (occ : CalObjTime) : res (list CalObjTime) :=
  occs ← match freq (recur rd) with
         | ICAL_YEARLY_RECURRENCE => cal_obj_generate_set_yearly rd vtable occ
         | ICAL_MONTHLY_RECURRENCE => cal_obj_generate_set_monthly rd vtable occ
         | _ => cal_obj_generate_set_default rd vtable occ
         end;
  occs ← cal_obj_remove_duplicates_and_invalid_dates (cal_obj_sort_occurrences occs);
  Ok (trim_after event_end (cal_obj_bysetpos_filter (recur rd) occs)).

(** The [for (;;)] loop of [cal_obj_expand_recurrence]. *)
Fixpoint expand_loop (fuel : nat) (vtable : ECalRecurVTable) (event_end : option CalObjTime)
    (rd : RecurData) (interval_end : option CalObjTime) (occ : CalObjTime)
    (all_occs : list CalObjTime) : res (list CalObjTime) :=
  match fuel with
  | O => NoFuel
  | S fuel =>
      occs ← period_occs vtable event_end rd occ;
      let all_occs := all_occs ++ occs in
      next ← find_next_position vtable occ event_end rd interval_end;
      match next with
      | None => Ok all_occs
      | Some occ => expand_loop fuel vtable event_end rd interval_end occ all_occs
      end
  end.

(** The pair is the array and [*finished]. *)
Definition cal_obj_expand_recurrence (fuel : nat) (event_start : CalObjTime)
    (zone : option icaltimezone) (r : ECalRecurrence) (interval_start : CalObjTime)
    (interval_end : option CalObjTime) : res (list CalObjTime * bool) :=
  match cal_obj_get_vtable (freq r) with
  | None => Ok ([], true)
  | Some vtable =>
      rd ← cal_obj_initialize_recur_data r event_start;
      let event_end :=
        if 0 <? enddate r then Some (cal_object_time_from_time (enddate r) zone) else None in
      if past event_end (fun e => cal_obj_time_compare_func e interval_start <? 0)
      then Ok ([], true)
      else
        let finished :=
          match event_end, interval_end with
          | Some ee, Some ie => negb (0 <? cal_obj_time_compare_func ee ie)
          | _, _ => false
          end in
        start ← find_start_position vtable event_start event_end rd interval_start interval_end;
        match start with
        | None => Ok ([], finished)
        | Some occ =>
            all_occs ← expand_loop fuel vtable event_end rd interval_end occ [];
            Ok (all_occs, finished)
        end
  end.
End engine.
