(* ===== verification/RecurStepsSpec.v ===== *)
(** * Where the periods of a rule start

    [find_start_position] goes to the first period of the rule that is not
    before the interval, [find_next_position] to the next one; both stop past
    the end of the rule or of the interval.  For MINUTELY and SECONDLY rules the
    start is wrong unless the event and the interval start in the same hour. *)

From S2P Require Import Prelude CalTimeUtil CalObjTime CalObjTimeSpec Libical RecurRule RecurRuleSpec RecurFilters RecurSteps RecurEngine.

(** ** Period numbers *)

(** The precision the positions are compared with. *)
Definition period_type (f : icalrecurrencetype_frequency) : CalObjTimeComparison :=
  match f with
  | ICAL_YEARLY_RECURRENCE => CALOBJ_YEAR
  | ICAL_MONTHLY_RECURRENCE => CALOBJ_MONTH
  | ICAL_WEEKLY_RECURRENCE | ICAL_DAILY_RECURRENCE => CALOBJ_DAY
  | ICAL_HOURLY_RECURRENCE => CALOBJ_HOUR
  | ICAL_MINUTELY_RECURRENCE => CALOBJ_MINUTE
  | ICAL_SECONDLY_RECURRENCE | ICAL_NO_RECURRENCE => CALOBJ_SECOND
  end.

(** The number of the year, month, day, hour, minute or second of a time. *)
Definition period_no (type : CalObjTimeComparison) (c : CalObjTime) : Z :=
  match type with
  | CALOBJ_YEAR => co_year c
  | CALOBJ_MONTH => co_year c * 12 + co_month c
  | CALOBJ_DAY => serial c
  | CALOBJ_HOUR => serial c * 24 + co_hour c
  | CALOBJ_MINUTE => (serial c * 24 + co_hour c) * 60 + co_minute c
  | CALOBJ_SECOND => timeline c
  end.

(** The fields below the precision of the period do not change. *)
Definition same_below (type : CalObjTimeComparison) (c c' : CalObjTime) : Prop :=
  drop (cmp_depth type) (fields c') = drop (cmp_depth type) (fields c) /\ co_flags c' = co_flags c.

(** [n] is the first of [e], [e + i], [e + 2 i], ... that is not below [s]. *)
Definition first_from (e i s n : Z) : Prop :=
  exists k, 0 <= k /\ n = e + k * i /\ s <= n /\ (0 < k -> n - i < s).

Lemma first_from_self e i s : s <= e -> first_from e i s e.
Proof. intros. exists 0. lia. Qed.

(** The computation of the functions: round the distance up to a multiple of
    the interval. *)
Lemma first_from_round e i s :
  0 < i -> e < s -> first_from e i s (e + ((s - e + i - 1) - (s - e + i - 1) mod i)).
Proof.
  intros Hi Hs. exists ((s - e + i - 1) / i).
  pose proof (Z.div_mod (s - e + i - 1) i). pose proof (Z.mod_pos_bound (s - e + i - 1) i).
  pose proof (Z.div_pos (s - e + i - 1) i). nia.
Qed.

(** ** Comparison at the precision of a period *)

Lemma compare_antisym c1 c2 type :
  cal_obj_time_compare c2 c1 type = - cal_obj_time_compare c1 c2 type.
Proof. rewrite !compare_lex. apply lexcmp_antisym. Qed.

Lemma compare_trans c1 c2 c3 type :
  cal_obj_time_compare c1 c2 type <= 0 -> cal_obj_time_compare c2 c3 type <= 0 ->
  cal_obj_time_compare c1 c3 type <= 0.
Proof.
  rewrite !compare_lex. apply (lexcmp_trans (cmp_depth type)); by destruct type.
Qed.

Lemma compare_lt_trans c1 c2 c3 type :
  cal_obj_time_compare c1 c2 type < 0 -> cal_obj_time_compare c2 c3 type <= 0 ->
  cal_obj_time_compare c1 c3 type < 0.
Proof.
  intros H1 H2. pose proof (compare_trans c1 c2 c3 type) as H.
  destruct (Z.eq_dec (cal_obj_time_compare c1 c3 type) 0) as [E|]; [|lia].
  pose proof (compare_antisym c1 c3 type). pose proof (compare_antisym c1 c2 type).
  pose proof (compare_trans c2 c3 c1 type). lia.
Qed.

(** Comparing at the precision of a period compares period numbers. *)
Lemma compare_period c1 c2 type :
  time_ok c1 -> time_ok c2 ->
  cal_obj_time_compare c1 c2 type = zcmp (period_no type c1) (period_no type c2).
Proof.
  intros [D1 K1] [D2 K2].
  destruct (Z.lt_ge_cases 2 (Z.of_nat (cmp_depth type))) as [Hlt|Hge].
  - assert (cal_obj_time_compare c1 c2 type =
      lexcmp (take 3 (fields c1) ++ take (cmp_depth type - 3) (drop 3 (fields c1)))
        (take 3 (fields c2) ++ take (cmp_depth type - 3) (drop 3 (fields c2)))) as ->.
    { rewrite compare_lex. destruct type; cbn in Hlt; try lia; done. }
    rewrite lexcmp_app, <- date_only_compare_lex, date_only_compare_serial by done.
    unfold clock_ok, period_no, timeline, clock in *.
    destruct type; cbn in Hlt; try lia; cbn [cmp_depth fields drop take lexcmp Nat.sub];
      unfold zcmp; repeat case_match; lia.
  - rewrite compare_lex. destruct D1 as [_ [M1 _]], D2 as [_ [M2 _]].
    destruct type; cbn in Hge; try lia; cbn [cmp_depth fields drop take lexcmp period_no];
      unfold zcmp; repeat case_match; lia.
Qed.

(** The early exits agree with the final test. *)
Lemma disjoint_position es ee iv ie type c :
  cal_obj_time_compare es c type <= 0 -> cal_obj_time_compare iv c type <= 0 ->
  disjoint_from es ee iv ie type = true -> position ee ie type c = None.
Proof.
  intros He Hi [H|H]%orb_true_iff; unfold position.
  - destruct ie as [e|]; [|done]. cbn [past] in *. apply Z.ltb_lt in H.
    assert (0 < cal_obj_time_compare c e type) as Hc.
    { pose proof (compare_lt_trans e es c type). pose proof (compare_antisym e es type).
      pose proof (compare_antisym e c type). lia. }
    apply Z.ltb_lt in Hc. rewrite Hc. by destruct (past _ _).
  - destruct ee as [e|]; [|done]. cbn [past] in *. apply Z.ltb_lt in H.
    assert (0 < cal_obj_time_compare c e type) as Hc.
    { pose proof (compare_lt_trans e iv c type). pose proof (compare_antisym e c type). lia. }
    apply Z.ltb_lt in Hc. by rewrite Hc.
Qed.

(** ** Starting *)

(** Times between 1902 and 9999, so that no computation leaves the range of the
    C types. *)
Definition working_time (c : CalObjTime) : Prop := time_ok c /\ 1902 <= co_year c < 10000.

Lemma working_serial c : working_time c -> 694000 < serial c < 3660000.
Proof.
  intros [[[_ Hv] _] Hy]. pose proof (Gregorian.before_month_bounds _ _ _ Hv).
  unfold serial, Gregorian.serial.
  assert (Gregorian.year_base 1902 = 694325) as E1 by reflexivity.
  assert (Gregorian.year_base 10000 = 3652059) as E2 by reflexivity.
  pose proof (Gregorian.year_base_mono (co_year c) 10000).
  destruct (Z.eq_dec (co_year c) 1902) as [Ey|]; [rewrite Ey in *; lia|].
  pose proof (Gregorian.year_base_mono 1902 (co_year c)). pose proof (Gregorian.ydays_range 1902). lia.
Qed.

Lemma serial_in_range_working n : 694000 < n < 23936000 -> serial_in_range n.
Proof.
  intros Hn. unfold serial_in_range.
  assert (Gregorian.year_base 1900 = 693595) as -> by reflexivity.
  assert (Gregorian.year_base 65536 = 23936166) as -> by reflexivity. lia.
Qed.

Lemma u32_add a b : u32 (u32 a + b) = u32 (a + b).
Proof. unfold u32. apply Zplus_mod_idemp_l. Qed.

(** The rounding in unsigned arithmetic. *)
Lemma round_u32 n i :
  0 <= n < 2 ^ 31 -> 0 < i < 2 ^ 31 ->
  c_rem_u32 n i = Ok (n mod i) /\ s32 (u32 (n - n mod i)) = n - n mod i.
Proof.
  intros Hn Hi. unfold c_rem_u32. rewrite (u32_small i) by lia.
  destruct (Z.eqb_spec i 0); [lia|]. split; [done|].
  pose proof (Z.mod_pos_bound n i). pose proof (Z.mod_le n i).
  rewrite u32_small, s32_small by lia. done.
Qed.

(** The rounding in signed arithmetic. *)
Lemma round_int n i : 0 <= n -> 0 < i -> c_rem n i = Ok (n mod i).
Proof.
  intros Hn Hi. unfold c_rem. destruct (Z.eqb_spec i 0); [lia|].
  by rewrite Z.rem_mod_nonneg by lia.
Qed.

(** Moving by days, hours, minutes or seconds moves the period number and keeps
    what is below it. *)
Lemma moved_period type unit c c' n :
  time_ok c -> time_ok c' -> co_flags c' = co_flags c ->
  match type with
  | CALOBJ_DAY => unit = 86400 | CALOBJ_HOUR => unit = 3600
  | CALOBJ_MINUTE => unit = 60 | CALOBJ_SECOND => unit = 1 | _ => False
  end ->
  timeline c' = timeline c + n * unit ->
  period_no type c' = period_no type c + n /\ same_below type c c'.
Proof.
  intros [_ K] [_ K'] Hf Hu Ht. unfold timeline, clock, clock_ok, same_below in *.
  destruct type; try done; subst unit; cbn [period_no cmp_depth fields drop]; unfold timeline, clock.
  - assert (serial c' = serial c + n) by lia.
    assert (co_hour c' = co_hour c) as -> by lia. assert (co_minute c' = co_minute c) as -> by lia.
    assert (co_second c' = co_second c) as -> by lia. done.
  - assert (serial c' * 24 + co_hour c' = serial c * 24 + co_hour c + n) by lia.
    assert (co_minute c' = co_minute c) as -> by lia.
    assert (co_second c' = co_second c) as -> by lia. done.
  - assert (co_second c' = co_second c) as -> by lia. split; [lia|done].
  - split; [lia|done].
Qed.

Lemma same_clock_timeline c c' :
  same_clock c c' -> timeline c' = timeline c + (serial c' - serial c) * 86400.
Proof. intros (Hh & Hm & Hs & _). unfold timeline, clock. rewrite Hh, Hm, Hs. lia. Qed.

Lemma same_clock_ok c c' : same_clock c c' -> clock_ok c -> clock_ok c'.
Proof. intros (Hh & Hm & Hs & _). unfold clock_ok. by rewrite Hh, Hm, Hs. Qed.

Lemma same_clock_below c c' : same_clock c c' -> same_below CALOBJ_DAY c c'.
Proof. intros (Hh & Hm & Hs & Hf). split; [|done]. cbn. by rewrite Hh, Hm, Hs. Qed.

Lemma same_below_refl type c : same_below type c c.
Proof. done. Qed.

Section starts.
Context {G : GDate} `{!GDateLaws G}.
Context (rd : RecurData) (es iv : CalObjTime) (ee ie : option CalObjTime).
Hypothesis (Hes : working_time es) (Hiv : working_time iv).
Hypothesis (Hi : 0 < interval (recur rd) <= 32767).

(** [c] starts the first period not before the interval. *)
Definition starts_at (type : CalObjTimeComparison) (c : CalObjTime) : Prop :=
  first_from (period_no type es) (interval (recur rd)) (period_no type iv) (period_no type c) /\
  same_below type es c /\ (0 <= co_year c < 65536 /\ 0 <= co_month c < 12) /\
  (type <> CALOBJ_YEAR -> type <> CALOBJ_MONTH -> time_ok c).

Lemma julian_working c : working_time c -> u32 (julian c) = serial c.
Proof.
  intros Hc. pose proof (working_serial c Hc). unfold julian.
  rewrite julian_spec by apply Hc. apply u32_small. lia.
Qed.

Lemma starts_at_self type : period_no type iv <= period_no type es -> starts_at type es.
Proof.
  intros H. split; [by apply first_from_self|]. split; [done|].
  pose proof Hes as [[[_ [Hm _]] _] Hy]. split; [lia|]. intros _ _. apply Hes.
Qed.

(** A start at or after both times makes the early exits redundant. *)
Lemma guarded_start type (final : CalObjTime -> option CalObjTime) (body : res CalObjTime) c :
  time_ok c -> starts_at type c -> body = Ok c ->
  (position ee ie type c = None -> final c = None) ->
  (if disjoint_from es ee iv ie type then Ok None else body ≫= (fun cotime => Ok (final cotime))) = Ok (final c).
Proof.
  intros Hc [(k & Hk & E & Hle & _) _] -> Hfinal. rewrite res_bind_Ok.
  destruct (disjoint_from es ee iv ie type) eqn:Hd; [|done]. f_equal. symmetry. apply Hfinal.
  eapply disjoint_position; [| |exact Hd].
  - rewrite compare_period by (apply Hes || done). unfold zcmp. repeat case_match; nia.
  - rewrite compare_period by (apply Hiv || done). unfold zcmp. repeat case_match; lia.
Qed.

Lemma yearly_start :
  exists c, starts_at CALOBJ_YEAR c /\
    cal_obj_yearly_find_start_position es ee rd iv ie = Ok (position ee ie CALOBJ_YEAR c).
Proof.
  destruct Hes as [[[Hy1 [Hm1 Hd1]] K1] Hy], Hiv as [_ Hy2].
  unfold cal_obj_yearly_find_start_position.
  assert (forall c, (if past ee (fun e => co_year e <? co_year c)
      || past ie (fun e => co_year e <? co_year c) then None else Some c)
      = position ee ie CALOBJ_YEAR c) as Hpos.
  { intros c. unfold position. assert (forall e, (0 <? cal_obj_time_compare c e CALOBJ_YEAR) =
      (co_year e <? co_year c)) as Hc.
    { intros e. rewrite compare_lex. cbn [cmp_depth take fields lexcmp]. unfold zcmp.
      repeat case_match; lia. }
    destruct ee as [e1|], ie as [e2|]; cbn [past]; rewrite ?Hc; repeat case_match; done. }
  destruct (Z.ltb_spec (co_year es) (co_year iv)) as [Hlt|Hge].
  - rewrite round_int by lia. rewrite !res_bind_Ok, Hpos. eexists. split; [|reflexivity].
    pose proof (first_from_round (co_year es) (interval (recur rd)) (co_year iv)) as Hf.
    remember (co_year iv - co_year es + interval (recur rd) - 1) as n eqn:En.
    pose proof (Z.mod_pos_bound n (interval (recur rd))).
    pose proof (Z.mod_le n (interval (recur rd))).
    assert (co_year (set_year (co_year es + (n - n mod interval (recur rd))) es)
            = co_year es + (n - n mod interval (recur rd))) as Ey by (apply u16_small; lia).
    split; [|split; [done|split; [|done]]].
    + cbn [period_no]. rewrite Ey. apply Hf; lia.
    + rewrite Ey. split; [lia|exact Hm1].
  - rewrite res_bind_Ok, Hpos. exists es. split; [|done]. by apply starts_at_self.
Qed.

Lemma monthly_start :
  exists c, starts_at CALOBJ_MONTH c /\
    cal_obj_monthly_find_start_position es ee rd iv ie = Ok (position ee ie CALOBJ_MONTH c).
Proof.
  unfold cal_obj_monthly_find_start_position.
  rewrite compare_period by (apply Hes || apply Hiv).
  destruct Hes as [[[Hy1 [Hm1 Hd1]] K1] Hy], Hiv as [[[_ [Hm2 _]] _] Hy2].
  destruct (Z.ltb_spec (zcmp (period_no CALOBJ_MONTH es) (period_no CALOBJ_MONTH iv)) 0) as [Hlt|Hge].
  - assert (period_no CALOBJ_MONTH es < period_no CALOBJ_MONTH iv) as Hp.
    { unfold zcmp in Hlt. repeat case_match; lia. }
    pose proof (first_from_round _ (interval (recur rd)) _ (proj1 Hi) Hp) as Hf. cbn [period_no] in *.
    replace (co_year iv * 12 + co_month iv - (co_year es * 12 + co_month es) + interval (recur rd) - 1)
      with ((co_year iv - co_year es) * 12 + co_month iv - co_month es + interval (recur rd) - 1)
      in Hf by lia.
    rewrite round_int, res_bind_Ok by lia.
    remember ((co_year iv - co_year es) * 12 + co_month iv - co_month es + interval (recur rd) - 1)
      as n eqn:En.
    pose proof (Z.mod_pos_bound n (interval (recur rd))).
    pose proof (Z.mod_le n (interval (recur rd))).
    destruct (add_months_spec es (n - n mod interval (recur rd))) as (c & Ec & Em & Ey & Ed & Hs); [lia..|].
    rewrite Ec, res_bind_Ok. exists c. split; [|reflexivity].
    remember (co_year es * 12 + co_month es + (n - n mod interval (recur rd))) as t eqn:Et.
    pose proof (Z.mod_pos_bound t 12). pose proof (Z.div_mod t 12).
    rewrite (Z.mod_small (t / 12)) in Ey by (Z.to_euclidean_division_equations; lia).
    split; [|split; [|split; [|done]]].
    + cbn [period_no]. rewrite Ey, Em. replace (t / 12 * 12 + t mod 12) with t by lia. exact Hf.
    + destruct Hs as (Eh & Emi & Ese & Ef). split; [|exact Ef]. cbn [cmp_depth fields drop].
      by rewrite Ed, Eh, Emi, Ese.
    + rewrite Ey, Em. split; [Z.to_euclidean_division_equations; lia|lia].
  - rewrite res_bind_Ok. exists es. split; [|done]. apply starts_at_self.
    unfold zcmp in Hge. repeat case_match; lia.
Qed.

(** The times reached by rounding up the distance [n] to the interval. *)
Lemma moved_start type unit c n :
  match type with
  | CALOBJ_DAY => unit = 86400 | CALOBJ_HOUR => unit = 3600
  | CALOBJ_MINUTE => unit = 60 | CALOBJ_SECOND => unit = 1 | _ => False
  end ->
  time_ok c -> co_flags c = co_flags es -> period_no type es < period_no type iv ->
  n = period_no type iv - period_no type es + interval (recur rd) - 1 ->
  timeline c = timeline es + (n - n mod interval (recur rd)) * unit ->
  starts_at type c.
Proof.
  intros Hu Hc Hf Hlt -> Ht.
  destruct (moved_period type unit es c _ (proj1 Hes) Hc Hf Hu Ht) as [Ep Hs].
  split; [|split; [done|split; [|done]]].
  - rewrite Ep. apply first_from_round; [lia|done].
  - destruct Hc as [[Hy [Hm _]] _]. lia.
Qed.

(** The distance between the two times in units of the period. *)
Lemma distance_bounds :
  0 <= interval (recur rd) /\
  - 3000000 * 86400 <= timeline iv - timeline es <= 3000000 * 86400 /\
  0 <= clock es < 86400 /\ 0 <= clock iv < 86400.
Proof.
  pose proof (working_serial es Hes). pose proof (working_serial iv Hiv).
  destruct Hes as [[_ K1] _], Hiv as [[_ K2] _]. unfold timeline, clock, clock_ok in *. lia.
Qed.

Lemma zcmp_neg a b : (zcmp a b <? 0) = (a <? b).
Proof. unfold zcmp. repeat case_match; lia. Qed.

Lemma start_in_range unit n :
  0 < unit -> unit <= 86400 ->
  0 <= n * unit <= timeline iv - timeline es + 40000 * 86400 + 86400 ->
  serial_in_range ((timeline es + n * unit) / 86400).
Proof.
  intros Hu1 Hu2 Hn. apply serial_in_range_working.
  pose proof (working_serial es Hes). pose proof (working_serial iv Hiv).
  pose proof distance_bounds as (_ & _ & ? & ?). unfold timeline in *.
  Z.to_euclidean_division_equations; nia.
Qed.

Lemma daily_start :
  exists c, starts_at CALOBJ_DAY c /\
    cal_obj_daily_find_start_position es ee rd iv ie = Ok (position ee ie CALOBJ_DAY c).
Proof.
  unfold cal_obj_daily_find_start_position. rewrite !julian_working by done.
  pose proof (working_serial es Hes). pose proof (working_serial iv Hiv).
  destruct (Z.ltb_spec (serial es) (serial iv)) as [Hlt|Hge].
  - remember (serial iv - serial es + interval (recur rd) - 1) as n eqn:En.
    rewrite (u32_small n) by lia.
    destruct (round_u32 n (interval (recur rd))) as [-> Hr]; [lia..|]. rewrite res_bind_Ok, Hr.
    pose proof (Z.mod_pos_bound n (interval (recur rd))).
    pose proof (Z.mod_le n (interval (recur rd))).
    destruct (add_days_spec es (n - n mod interval (recur rd))) as (c & E & Hd & Hs & Hser);
      [apply Hes|apply serial_in_range_working; lia|].
    assert (time_ok c) as Hc by (split; [done|]; eapply same_clock_ok; [exact Hs|apply Hes]).
    exists c. assert (starts_at CALOBJ_DAY c) as Hst.
    { apply (moved_start CALOBJ_DAY 86400 c n); try done; [apply Hs|].
      rewrite (same_clock_timeline es c Hs), Hser. lia. }
    split; [done|]. by apply (guarded_start CALOBJ_DAY (position ee ie CALOBJ_DAY)).
  - exists es. assert (starts_at CALOBJ_DAY es) as Hst by (apply starts_at_self; cbn; lia).
    split; [done|]. apply (guarded_start CALOBJ_DAY (position ee ie CALOBJ_DAY)); try done. apply Hes.
Qed.

Lemma hourly_start :
  exists c, starts_at CALOBJ_HOUR c /\
    cal_obj_hourly_find_start_position es ee rd iv ie = Ok (position ee ie CALOBJ_HOUR c).
Proof.
  unfold cal_obj_hourly_find_start_position. rewrite !julian_working by done.
  rewrite compare_period, zcmp_neg by (apply Hes || apply Hiv).
  pose proof (working_serial es Hes). pose proof (working_serial iv Hiv).
  pose proof (proj2 (proj1 Hes)) as K1. pose proof (proj2 (proj1 Hiv)) as K2. unfold clock_ok in K1, K2.
  destruct (Z.ltb_spec (period_no CALOBJ_HOUR es) (period_no CALOBJ_HOUR iv)) as [Hlt|Hge].
  - repeat first [rewrite u32_add | rewrite <- Z.add_assoc]. pose proof Hlt as Hlt'. cbn [period_no] in Hlt'.
    match goal with |- context [u32 ?x] => remember x as n eqn:En end.
    rewrite (u32_small n) by lia.
    destruct (round_u32 n (interval (recur rd))) as [-> Hr]; [lia..|]. rewrite res_bind_Ok, Hr.
    pose proof (Z.mod_pos_bound n (interval (recur rd))).
    pose proof (Z.mod_le n (interval (recur rd))).
    destruct (add_hours_spec es (n - n mod interval (recur rd))) as (c & E & Hc & Hf & Hser);
      [apply Hes|apply start_in_range; [lia..|]; unfold timeline, clock; lia|].
    exists c. assert (starts_at CALOBJ_HOUR c) as Hst.
    { apply (moved_start CALOBJ_HOUR 3600 c n); try done. cbn [period_no]. lia. }
    split; [done|]. by apply (guarded_start CALOBJ_HOUR (position ee ie CALOBJ_HOUR)).
  - exists es. assert (starts_at CALOBJ_HOUR es) as Hst by (apply starts_at_self; lia).
    split; [done|]. apply (guarded_start CALOBJ_HOUR (position ee ie CALOBJ_HOUR)); try done. apply Hes.
Qed.

(** The next two hold only if both times are in the same hour of the day, and
    at most 2^31 - 40000 seconds apart. *)
Lemma minutely_start :
  co_hour iv = co_hour es -> timeline iv - timeline es <= 2 ^ 31 - 40000 ->
  exists c, starts_at CALOBJ_MINUTE c /\
    cal_obj_minutely_find_start_position es ee rd iv ie = Ok (position ee ie CALOBJ_MINUTE c).
Proof.
  intros Hh Hdist. unfold cal_obj_minutely_find_start_position. rewrite !julian_working by done.
  rewrite compare_period, zcmp_neg by (apply Hes || apply Hiv).
  pose proof (working_serial es Hes). pose proof (working_serial iv Hiv).
  pose proof (proj2 (proj1 Hes)) as K1. pose proof (proj2 (proj1 Hiv)) as K2. unfold clock_ok in K1, K2.
  destruct (Z.ltb_spec (period_no CALOBJ_MINUTE es) (period_no CALOBJ_MINUTE iv)) as [Hlt|Hge].
  - repeat first [rewrite u32_add | rewrite <- Z.add_assoc]. pose proof Hlt as Hlt'. cbn [period_no] in Hlt'.
    match goal with |- context [u32 ?x] => remember x as n eqn:En end.
    assert (n = period_no CALOBJ_MINUTE iv - period_no CALOBJ_MINUTE es + interval (recur rd) - 1)
      as En' by (cbn [period_no]; lia).
    unfold timeline, clock in Hdist. rewrite (u32_small n) by lia.
    destruct (round_u32 n (interval (recur rd))) as [-> Hr]; [lia..|]. rewrite res_bind_Ok, Hr.
    pose proof (Z.mod_pos_bound n (interval (recur rd))).
    pose proof (Z.mod_le n (interval (recur rd))).
    destruct (add_minutes_spec es (n - n mod interval (recur rd))) as (c & E & Hc & Hf & Hser);
      [apply Hes|lia|apply start_in_range; [lia..|]; unfold timeline, clock; lia|].
    exists c. assert (starts_at CALOBJ_MINUTE c) as Hst
      by (apply (moved_start CALOBJ_MINUTE 60 c n); done).
    split; [done|]. by apply (guarded_start CALOBJ_MINUTE (position ee ie CALOBJ_MINUTE)).
  - exists es. assert (starts_at CALOBJ_MINUTE es) as Hst by (apply starts_at_self; lia).
    split; [done|].
    apply (guarded_start CALOBJ_MINUTE (position ee ie CALOBJ_MINUTE)); try done. apply Hes.
Qed.

(** Stopping at the ends is stopping earlier. *)
Lemma secondly_position_None c :
  position ee ie CALOBJ_SECOND c = None -> secondly_position ee ie c = None.
Proof.
  unfold position, secondly_position. destruct ee as [e1|], ie as [e2|]; cbn [past];
    repeat case_match; try done; lia.
Qed.

Lemma secondly_start :
  co_hour iv = co_hour es -> timeline iv - timeline es <= 2 ^ 31 - 40000 ->
  exists c, starts_at CALOBJ_SECOND c /\
    cal_obj_secondly_find_start_position es ee rd iv ie = Ok (secondly_position ee ie c).
Proof.
  intros Hh Hdist. unfold cal_obj_secondly_find_start_position. rewrite !julian_working by done.
  rewrite compare_period, zcmp_neg by (apply Hes || apply Hiv).
  pose proof (working_serial es Hes). pose proof (working_serial iv Hiv).
  pose proof (proj2 (proj1 Hes)) as K1. pose proof (proj2 (proj1 Hiv)) as K2. unfold clock_ok in K1, K2.
  destruct (Z.ltb_spec (period_no CALOBJ_SECOND es) (period_no CALOBJ_SECOND iv)) as [Hlt|Hge].
  - repeat first [rewrite u32_add | rewrite <- Z.add_assoc]. pose proof Hlt as Hlt'.
    match goal with |- context [u32 ?x] => remember x as n eqn:En end.
    cbn [period_no] in Hlt'.
    assert (n = period_no CALOBJ_SECOND iv - period_no CALOBJ_SECOND es + interval (recur rd) - 1)
      as En' by (cbn [period_no]; unfold timeline, clock; lia).
    cbn [period_no] in En'. rewrite (u32_small n) by lia.
    destruct (round_u32 n (interval (recur rd))) as [-> Hr]; [lia..|]. rewrite res_bind_Ok, Hr.
    pose proof (Z.mod_pos_bound n (interval (recur rd))).
    pose proof (Z.mod_le n (interval (recur rd))).
    destruct (add_seconds_spec es (n - n mod interval (recur rd))) as (c & E & Hc & Hf & Hser);
      [apply Hes|lia| |].
    { rewrite <- (Z.mul_1_r (n - n mod interval (recur rd))). apply start_in_range; lia. }
    exists c. assert (starts_at CALOBJ_SECOND c) as Hst.
    { apply (moved_start CALOBJ_SECOND 1 c n); try done. lia. }
    split; [done|]. apply (guarded_start CALOBJ_SECOND (secondly_position ee ie)); try done.
    apply secondly_position_None.
  - exists es. assert (starts_at CALOBJ_SECOND es) as Hst by (apply starts_at_self; lia).
    split; [done|].
    apply (guarded_start CALOBJ_SECOND (secondly_position ee ie)); try done;
      [apply Hes|apply secondly_position_None].
Qed.

(** Day number of the first day of the week of [c]. *)
Definition week_no (c : CalObjTime) : Z :=
  serial c - (Gregorian.wday (serial c) - week_start_day (recur rd)) mod 7.

Lemma week_no_add c c' k :
  0 <= week_start_day (recur rd) < 7 -> serial c' = serial c + 7 * k -> week_no c' = week_no c + 7 * k.
Proof.
  intros Hw E. unfold week_no. rewrite E, Gregorian.wday_add.
  rewrite Zminus_mod_idemp_l.
  replace (Gregorian.wday (serial c) + 7 * k - week_start_day (recur rd))
    with (Gregorian.wday (serial c) - week_start_day (recur rd) + k * 7) by lia.
  rewrite Z_mod_plus_full. lia.
Qed.

Lemma week_no_bounds c : serial c - 6 <= week_no c <= serial c.
Proof.
  unfold week_no.
  pose proof (Z.mod_pos_bound (Gregorian.wday (serial c) - week_start_day (recur rd)) 7). lia.
Qed.

Lemma week_no_mod c :
  0 <= week_start_day (recur rd) < 7 -> week_no c mod 7 = (week_start_day (recur rd) + 1) mod 7.
Proof. intros Hw. unfold week_no, Gregorian.wday. Z.to_euclidean_division_equations. lia. Qed.

(** The first day of the week of an occurrence that is not before the event. *)
Lemma week_position c :
  0 <= week_start_day (recur rd) < 7 ->
  weekday_offset rd = cal_obj_time_weekday_offset es (week_start_day (recur rd)) ->
  date_ok c -> 694000 < serial c < 23936000 ->
  (exists k, serial c = serial es + 7 * k) ->
  exists ws, date_ok ws /\ serial ws = week_no c /\
    weekly_position ee ie rd c =
    Ok (match position ee ie CALOBJ_DAY ws with Some _ => Some c | None => None end).
Proof.
  intros Hw Hoff Hd Hr [k Ek]. rewrite (weekday_offset_spec es) in Hoff by (done || apply Hes).
  unfold weekly_position. pose proof (week_no_add es c k Hw Ek) as Ew.
  pose proof (week_no_bounds c).
  destruct (add_days_spec c (- weekday_offset rd)) as (ws & E & Hdw & _ & Es); [done| |].
  { assert (serial c + - weekday_offset rd = week_no c) as ->.
    { unfold week_no in *. lia. }
    unfold serial_in_range. assert (Gregorian.year_base 1900 = 693595) as -> by reflexivity.
    assert (Gregorian.year_base 65536 = 23936166) as -> by reflexivity. lia. }
  rewrite E, res_bind_Ok. exists ws. split; [done|].
  split; [unfold week_no in *; lia|]. unfold position. by repeat case_match.
Qed.

Lemma weekly_start :
  0 <= week_start_day (recur rd) < 7 ->
  weekday_offset rd = cal_obj_time_weekday_offset es (week_start_day (recur rd)) ->
  exists c ws, date_ok c /\ same_clock es c /\ serial c - serial es = week_no c - week_no es /\
    first_from (week_no es) (7 * interval (recur rd)) (week_no iv) (week_no c) /\
    date_ok ws /\ serial ws = week_no c /\
    cal_obj_weekly_find_start_position es ee rd iv ie =
    Ok (if disjoint_from es ee iv ie CALOBJ_DAY then None
        else match position ee ie CALOBJ_DAY ws with Some _ => Some c | None => None end).
Proof.
  intros Hw Hoff.
  assert (exists c, date_ok c /\ same_clock es c /\ 694000 < serial c < 23936000 /\
    (exists k, serial c = serial es + 7 * k) /\
    first_from (week_no es) (7 * interval (recur rd)) (week_no iv) (week_no c) /\
    cal_obj_weekly_find_start_position es ee rd iv ie =
    if disjoint_from es ee iv ie CALOBJ_DAY then Ok None else weekly_position ee ie rd c)
    as (c & Hd & Hs & Hr & [k Ek] & Hf & ->).
  2: { destruct (week_position c Hw Hoff Hd Hr) as (ws & Hdw & Ews & E); [eauto|].
       exists c, ws. rewrite E. pose proof (week_no_add es c k Hw Ek).
       split; [done|]. split; [done|]. split; [lia|]. split; [done|]. split; [done|].
       split; [done|]. by destruct (disjoint_from _ _ _ _ _). }
  unfold cal_obj_weekly_find_start_position, disjoint_from.
  rewrite !julian_working by done.
  rewrite (weekday_offset_spec iv) by (done || apply Hiv).
  rewrite (weekday_offset_spec es) in Hoff by (done || apply Hes).
  change (serial iv - (Gregorian.wday (serial iv) - week_start_day (recur rd)) mod 7) with (week_no iv).
  rewrite Hoff.
  change (serial es - (Gregorian.wday (serial es) - week_start_day (recur rd)) mod 7) with (week_no es).
  pose proof (working_serial es Hes). pose proof (working_serial iv Hiv).
  pose proof (week_no_bounds es). pose proof (week_no_bounds iv).
  rewrite (u32_small (week_no es)), (u32_small (week_no iv)) by lia.
  destruct (Z.ltb_spec (week_no es) (week_no iv)) as [Hlt|Hge].
  - assert (exists d, week_no iv - week_no es = 7 * d) as [d Ed].
    { pose proof (week_no_mod es Hw). pose proof (week_no_mod iv Hw).
      exists ((week_no iv - week_no es) / 7). Z.to_euclidean_division_equations. lia. }
    rewrite Ed, (u32_small (7 * d)) by lia.
    rewrite (Z.mul_comm 7 d), Z.div_mul, (s32_small d) by lia.
    remember (d + (interval (recur rd) - 1)) as n eqn:En.
    rewrite round_int, res_bind_Ok by lia.
    pose proof (Z.mod_pos_bound n (interval (recur rd))).
    pose proof (Z.mod_le n (interval (recur rd))).
    destruct (add_days_spec es ((n - n mod interval (recur rd)) * 7)) as (c & -> & Hd & Hs & Hser);
      [apply Hes|apply serial_in_range_working; lia|].
    exists c. split; [done|]. split; [done|]. split; [lia|].
    split; [exists (n - n mod interval (recur rd)); lia|]. split.
    + rewrite (week_no_add es c (n - n mod interval (recur rd))) by (done || lia).
      exists (n / interval (recur rd)). pose proof (Z.div_mod n (interval (recur rd))).
      pose proof (Z.div_pos n (interval (recur rd))). nia.
    + rewrite res_bind_Ok. by repeat destruct (past _ _).
  - exists es. split; [apply Hes|]. split; [done|]. split; [lia|]. split; [exists 0; lia|].
    split; [by apply first_from_self|]. rewrite res_bind_Ok. by repeat destruct (past _ _).
Qed.
End starts.

(** ** Stepping *)

(** The final test of the functions: SECONDLY rules stop at the ends, the
    others after them. *)
Definition stop_position (f : icalrecurrencetype_frequency) (ee ie : option CalObjTime)
    (c : CalObjTime) : option CalObjTime :=
  match f with
  | ICAL_SECONDLY_RECURRENCE => secondly_position ee ie c
  | _ => position ee ie (period_type f) c
  end.

(** A position may be an invalid date for YEARLY and MONTHLY rules. *)
Definition position_ok (f : icalrecurrencetype_frequency) (c : CalObjTime) : Prop :=
  match f with
  | ICAL_YEARLY_RECURRENCE | ICAL_MONTHLY_RECURRENCE =>
      1902 <= co_year c < 10000 /\ 0 <= co_month c < 12 /\ 1 <= co_day c /\ clock_ok c
  | _ => working_time c
  end.

Definition period_step (f : icalrecurrencetype_frequency) (i : Z) : Z :=
  match f with ICAL_WEEKLY_RECURRENCE => 7 * i | _ => i end.

Section nexts.
Context {G : GDate} `{!GDateLaws G}.
Context (rd : RecurData) (ee ie : option CalObjTime).
Hypothesis (Hi : 0 < interval (recur rd) <= 32767).

(** The result of moving a working time by days, hours, minutes or seconds. *)
Lemma moved_next type unit c c' n :
  working_time c -> 0 <= n <= 7 * 32767 -> time_ok c' -> co_flags c' = co_flags c ->
  match type with
  | CALOBJ_DAY => unit = 86400 | CALOBJ_HOUR => unit = 3600
  | CALOBJ_MINUTE => unit = 60 | CALOBJ_SECOND => unit = 1 | _ => False
  end ->
  timeline c' = timeline c + n * unit ->
  period_no type c' = period_no type c + n /\ same_below type c c'.
Proof. intros Hc Hn Hc' Hf Hu Ht. eapply moved_period; try done. apply Hc. Qed.

Lemma next_in_range c s :
  working_time c -> 0 <= s <= 7 * 32767 * 86400 -> serial_in_range ((timeline c + s) / 86400).
Proof.
  intros Hc Hs. pose proof (working_serial c Hc). destruct Hc as [[_ K] _].
  apply serial_in_range_working. unfold timeline, clock, clock_ok in *.
  Z.to_euclidean_division_equations. lia.
Qed.

Lemma next_days c n :
  working_time c -> 0 <= n <= 7 * 32767 ->
  exists c', cal_obj_time_add_days c n = Ok c' /\ time_ok c' /\
    period_no CALOBJ_DAY c' = period_no CALOBJ_DAY c + n /\ same_below CALOBJ_DAY c c'.
Proof.
  intros Hc Hn. pose proof (working_serial c Hc).
  destruct (add_days_spec c n) as (c' & E & Hd & Hs & Hser);
    [apply Hc|apply serial_in_range_working; lia|].
  exists c'. split; [done|]. assert (time_ok c') as Hc'.
  { split; [done|]. eapply same_clock_ok; [exact Hs|apply Hc]. }
  split; [done|]. apply (moved_next CALOBJ_DAY 86400); try done; [apply Hs|].
  rewrite (same_clock_timeline c c' Hs). lia.
Qed.

Lemma next_position f vt c :
  cal_obj_get_vtable f = Some vt -> position_ok f c ->
  exists c', period_no (period_type f) c' =
      period_no (period_type f) c + period_step f (interval (recur rd)) /\
    same_below (period_type f) c c' /\
    (0 <= co_month c' < 12 /\ 0 <= co_year c' < 65536) /\
    (period_type f <> CALOBJ_YEAR -> period_type f <> CALOBJ_MONTH -> time_ok c') /\
    (f <> ICAL_WEEKLY_RECURRENCE ->
     find_next_position vt c ee rd ie = Ok (stop_position f ee ie c')).
Proof.
  intros Ev Hc. destruct f; try discriminate Ev; injection Ev as <-; cbn [period_type period_step find_next_position] in *;
    cbn [position_ok] in Hc.
  - destruct (add_seconds_spec c (interval (recur rd))) as (c' & E & Hc' & Hf & Ht);
      [apply Hc|destruct Hc as [[_ (_ & _ & K)] _]; lia|apply next_in_range; [done|lia]|].
    destruct (moved_next CALOBJ_SECOND 1 c c' (interval (recur rd))) as [Ep Hs]; [done|lia|done..|lia|].
    exists c'. split; [done|]. split; [done|]. pose proof Hc' as [[Hy [Hm _]] _].
    split; [lia|]. split; [done|]. intros _.
    change (find_next_position _ c ee rd ie) with (cal_obj_secondly_find_next_position c ee rd ie); unfold cal_obj_secondly_find_next_position. by rewrite E.
  - destruct (add_minutes_spec c (interval (recur rd))) as (c' & E & Hc' & Hf & Ht);
      [apply Hc|destruct Hc as [[_ (_ & K & _)] _]; lia|apply next_in_range; [done|lia]|].
    destruct (moved_next CALOBJ_MINUTE 60 c c' (interval (recur rd))) as [Ep Hs]; [done|lia|done..|].
    exists c'. split; [done|]. split; [done|]. pose proof Hc' as [[Hy [Hm _]] _].
    split; [lia|]. split; [done|]. intros _.
    change (find_next_position _ c ee rd ie) with (cal_obj_minutely_find_next_position c ee rd ie); unfold cal_obj_minutely_find_next_position. by rewrite E.
  - destruct (add_hours_spec c (interval (recur rd))) as (c' & E & Hc' & Hf & Ht);
      [apply Hc|apply next_in_range; [done|lia]|].
    destruct (moved_next CALOBJ_HOUR 3600 c c' (interval (recur rd))) as [Ep Hs]; [done|lia|done..|].
    exists c'. split; [done|]. split; [done|]. pose proof Hc' as [[Hy [Hm _]] _].
    split; [lia|]. split; [done|]. intros _.
    change (find_next_position _ c ee rd ie) with (cal_obj_hourly_find_next_position c ee rd ie); unfold cal_obj_hourly_find_next_position. by rewrite E.
  - destruct (next_days c (interval (recur rd))) as (c' & E & Hc' & Ep & Hs); [done|lia|].
    exists c'. split; [done|]. split; [done|]. pose proof Hc' as [[Hy [Hm _]] _].
    split; [lia|]. split; [done|]. intros _.
    change (find_next_position _ c ee rd ie) with (cal_obj_daily_find_next_position c ee rd ie); unfold cal_obj_daily_find_next_position. by rewrite E.
  - destruct (next_days c (7 * interval (recur rd))) as (c' & E & Hc' & Ep & Hs); [done|lia|].
    exists c'. split; [done|]. split; [done|]. pose proof Hc' as [[Hy [Hm _]] _].
    split; [lia|]. split; [done|]. done.
  - destruct (add_months_spec c (interval (recur rd))) as (c' & E & Em & Ey & Ed & Eh & Emi & Es & Ef); [lia..|].
    remember (co_year c * 12 + co_month c + interval (recur rd)) as t eqn:Et.
    pose proof (Z.mod_pos_bound t 12). pose proof (Z.div_mod t 12).
    rewrite (Z.mod_small (t / 12)) in Ey by (Z.to_euclidean_division_equations; lia).
    exists c'. split; [|split; [|split; [|split; [|intros _]]]]; try done.
    + cbn [period_no]. rewrite Ey, Em. lia.
    + split; [|exact Ef]. cbn [cmp_depth fields drop]. by rewrite Ed, Eh, Emi, Es.
    + rewrite Em, Ey. Z.to_euclidean_division_equations. lia.
    + change (find_next_position _ c ee rd ie) with (cal_obj_monthly_find_next_position c ee rd ie).
      unfold cal_obj_monthly_find_next_position. by rewrite E.
  - exists (set_year (co_year c + interval (recur rd)) c). split; [|split; [|split; [|split]]].
    + cbn [period_no co_year set_year]. apply u16_small. lia.
    + done.
    + cbn [co_year co_month set_year]. pose proof (u16_range (co_year c + interval (recur rd))). lia.
    + done.
    + intros _. change (find_next_position _ c ee rd ie) with (cal_obj_yearly_find_next_position c ee rd ie). unfold cal_obj_yearly_find_next_position. f_equal. unfold stop_position, position.
      assert (forall c e, (0 <? cal_obj_time_compare c e CALOBJ_YEAR) = (co_year e <? co_year c)) as Hy.
      { intros c0 e. rewrite compare_lex. cbn [cmp_depth take fields lexcmp]. unfold zcmp.
        repeat case_match; lia. }
      destruct ee as [e1|], ie as [e2|]; cbn [past period_type]; rewrite ?Hy;
        repeat case_match; try done; lia.
Qed.
End nexts.

(** ** Properties *)

(** The conditions under which the start is computed correctly. *)
Definition start_exact (f : icalrecurrencetype_frequency) (es iv : CalObjTime) : Prop :=
  match f with
  | ICAL_MINUTELY_RECURRENCE | ICAL_SECONDLY_RECURRENCE =>
      co_hour iv = co_hour es /\ timeline iv - timeline es <= 2 ^ 31 - 40000
  | ICAL_WEEKLY_RECURRENCE => False
  | _ => True
  end.

Lemma find_start_exact (G : GDate) (GL : GDateLaws G) f vt rd es iv ee ie :
  cal_obj_get_vtable f = Some vt -> working_time es -> working_time iv ->
  0 < interval (recur rd) <= 32767 -> start_exact f es iv ->
  exists c, starts_at rd es iv (period_type f) c /\
    find_start_position vt es ee rd iv ie = Ok (stop_position f ee ie c).
Proof.
  intros Ev Hes Hiv Hi Hx. destruct f; try discriminate Ev; injection Ev as <-;
    cbn [find_start_position period_type stop_position] in *; try done.
  - destruct Hx. by apply secondly_start.
  - destruct Hx. by apply minutely_start.
  - by apply hourly_start.
  - by apply daily_start.
  - by apply monthly_start.
  - by apply yearly_start.
Qed.

(** For YEARLY, MONTHLY, DAILY and HOURLY rules (and for MINUTELY and
    SECONDLY ones if the event and the interval start in the same hour, at most
    2^31 - 40000 seconds apart), [find_start_position] goes to the first period of the
    rule, counting from the event in steps of the interval, that is not before
    the interval, keeps the finer fields of the event, and stops exactly if that
    period is past the end of the rule or of the interval. *)
Theorem find_start_position_spec (G : GDate) (GL : GDateLaws G)
    (f : icalrecurrencetype_frequency) (vt : ECalRecurVTable) (rd : RecurData)
    (es iv : CalObjTime) (ee ie : option CalObjTime)
    (Hvt : cal_obj_get_vtable f = Some vt) (Hes : working_time es) (Hiv : working_time iv)
    (Hi : 0 < interval (recur rd) <= 32767) (Hx : start_exact f es iv) :
  exists c,
    first_from (period_no (period_type f) es) (interval (recur rd))
      (period_no (period_type f) iv) (period_no (period_type f) c) /\
    same_below (period_type f) es c /\
    find_start_position vt es ee rd iv ie = Ok (stop_position f ee ie c).
Proof.
  destruct (find_start_exact G GL f vt rd es iv ee ie) as (c & (H1 & H2 & _) & E); [done..|].
  by exists c.
Qed.

(** Every third month from 31 January 2006, asked for from 10 August 2007: the
    first period is October. *)
Lemma find_start_position_spec_witness :
  exists vt c, @cal_obj_get_vtable GDate_gregorian ICAL_MONTHLY_RECURRENCE = Some vt /\
    find_start_position vt (mkCalObjTime 2006 0 31 9 0 0 false) None
      (mkRecurData (plain_rule ICAL_MONTHLY_RECURRENCE 3) 0 [] [] [] [] [] [] [] [] [])
      (mkCalObjTime 2007 7 10 0 0 0 false) None = Ok (Some c) /\
    first_from (2006 * 12) 3 (2007 * 12 + 7) (period_no CALOBJ_MONTH c).
Proof.
  destruct (find_start_position_spec GDate_gregorian _ ICAL_MONTHLY_RECURRENCE
    (@cal_obj_monthly_vtable GDate_gregorian)
    (mkRecurData (plain_rule ICAL_MONTHLY_RECURRENCE 3) 0 [] [] [] [] [] [] [] [] [])
    (mkCalObjTime 2006 0 31 9 0 0 false) (mkCalObjTime 2007 7 10 0 0 0 false) None None)
    as (c & H & _ & E).
  - reflexivity.
  - concrete.
  - concrete.
  - concrete.
  - exact I.
  - exists (@cal_obj_monthly_vtable GDate_gregorian), c.
    split; [reflexivity|]. split; [exact E|exact H].
Defined.

(** A WEEKLY rule starts in the first week of the rule, counting whole weeks
    from the event's week (weeks start on the week start day), that is not before
    the week of the interval, on the event's weekday; it stops if the start of
    that week is past one of the ends, or if the event and the interval do not
    overlap. *)
Theorem weekly_find_start_position_spec (G : GDate) (GL : GDateLaws G) (rd : RecurData)
    (es iv : CalObjTime) (ee ie : option CalObjTime)
    (Hes : working_time es) (Hiv : working_time iv)
    (Hi : 0 < interval (recur rd) <= 32767) (Hw : 0 <= week_start_day (recur rd) < 7)
    (Ho : weekday_offset rd = cal_obj_time_weekday_offset es (week_start_day (recur rd))) :
  exists c ws, date_ok c /\ same_clock es c /\
    serial c - serial es = week_no rd c - week_no rd es /\
    first_from (week_no rd es) (7 * interval (recur rd)) (week_no rd iv) (week_no rd c) /\
    date_ok ws /\ serial ws = week_no rd c /\
    cal_obj_weekly_find_start_position es ee rd iv ie =
    Ok (if disjoint_from es ee iv ie CALOBJ_DAY then None
        else match position ee ie CALOBJ_DAY ws with Some _ => Some c | None => None end).
Proof. by apply weekly_start. Qed.

Lemma weekly_find_start_position_spec_witness :
  exists rd c, weekday_offset rd = 2 /\
    @cal_obj_weekly_find_start_position GDate_gregorian (mkCalObjTime 2006 0 4 9 0 0 false) None rd
      (mkCalObjTime 2006 0 12 0 0 0 false) None = Ok (Some c) /\ date_ok c.
Proof.
  set (rd := mkRecurData (plain_rule ICAL_WEEKLY_RECURRENCE 2) 2 [] [] [] [] [] [] [] [] []).
  destruct (weekly_find_start_position_spec GDate_gregorian _ rd
    (mkCalObjTime 2006 0 4 9 0 0 false) (mkCalObjTime 2006 0 12 0 0 0 false) None None)
    as (c & ws & Hd & _ & _ & _ & _ & _ & E).
  - concrete.
  - concrete.
  - concrete.
  - concrete.
  - reflexivity.
  - exists rd, c. split; [reflexivity|]. split; [exact E|exact Hd].
Defined.

(** [find_next_position] adds the rule's interval to the number of the
    period, keeps the finer fields, and (except for WEEKLY rules, which look at
    the start of the week) stops exactly if that period is past an end. *)
Theorem find_next_position_spec (G : GDate) (GL : GDateLaws G)
    (f : icalrecurrencetype_frequency) (vt : ECalRecurVTable) (rd : RecurData)
    (c : CalObjTime) (ee ie : option CalObjTime)
    (Hvt : cal_obj_get_vtable f = Some vt) (Hc : position_ok f c)
    (Hi : 0 < interval (recur rd) <= 32767) :
  exists c', period_no (period_type f) c' =
      period_no (period_type f) c + period_step f (interval (recur rd)) /\
    same_below (period_type f) c c' /\
    (f <> ICAL_WEEKLY_RECURRENCE ->
     find_next_position vt c ee rd ie = Ok (stop_position f ee ie c')).
Proof.
  destruct (next_position rd ee ie Hi f vt c Hvt Hc) as (c' & H1 & H2 & _ & _ & H3). by exists c'.
Qed.

Lemma find_next_position_spec_witness :
  exists c', period_no CALOBJ_HOUR c' = period_no CALOBJ_HOUR (mkCalObjTime 2006 11 31 20 15 0 false) + 6 /\
    cal_obj_hourly_find_next_position (mkCalObjTime 2006 11 31 20 15 0 false) None
      (mkRecurData (plain_rule ICAL_HOURLY_RECURRENCE 6) 0 [] [] [] [] [] [] [] [] []) None
    = Ok (Some c').
Proof.
  destruct (find_next_position_spec GDate_gregorian _ ICAL_HOURLY_RECURRENCE
    (@cal_obj_hourly_vtable GDate_gregorian)
    (mkRecurData (plain_rule ICAL_HOURLY_RECURRENCE 6) 0 [] [] [] [] [] [] [] [] [])
    (mkCalObjTime 2006 11 31 20 15 0 false) None None) as (c' & H & _ & E).
  - reflexivity.
  - concrete.
  - concrete.
  - exists c'. split; [exact H|]. apply E. discriminate.
Defined.

(** The start of MINUTELY and SECONDLY rules is wrong when the event and the
    interval start in different hours, because the difference of the hours is
    multiplied by 24 (and 24 * 60) instead of 60 (and 60 * 60).  A rule for every
    minute from 23:00 on, asked for from midnight, starts at 13:48, after all
    the occurrences in between; a rule for every quarter of an hour from 10:50
    on, asked for from 11:10, starts at 10:34, which is before the event and not
    one of its quarters; a rule for every second from 23:00:00 on, asked for from
    midnight, starts at 13:48:00. *)
Theorem minutely_secondly_start_wrong :
  let mk h m d := mkCalObjTime 2006 0 d h m 0 false in
  let rd f i := mkRecurData (plain_rule f i) 0 [] [] [] [] [] [] [] [] [] in
  @cal_obj_minutely_find_start_position GDate_gregorian (mk 23 0 1) None
    (rd ICAL_MINUTELY_RECURRENCE 1) (mk 0 0 2) None = Ok (Some (mk 13 48 2)) /\
  @cal_obj_minutely_find_start_position GDate_gregorian (mk 10 50 1) None
    (rd ICAL_MINUTELY_RECURRENCE 15) (mk 11 10 1) None = Ok (Some (mk 10 34 1)) /\
  (forall k, 10 * 60 + 50 + k * 15 <> 10 * 60 + 34) /\
  @cal_obj_secondly_find_start_position GDate_gregorian (mk 23 0 1) None
    (rd ICAL_SECONDLY_RECURRENCE 1) (mk 0 0 2) None = Ok (Some (mk 13 48 2)).
Proof.
  intros mk rd. split; [vm_compute; reflexivity|]. split; [vm_compute; reflexivity|].
  split; [intros k; lia|vm_compute; reflexivity].
Qed.
