(* ===== verification/RecurEngineSpec.v ===== *)
(** * Sets of occurrences: duplicates, exceptions, BYSETPOS

    What [cal_obj_remove_duplicates_and_invalid_dates],
    [cal_obj_remove_exceptions] and [cal_obj_bysetpos_filter] compute. *)

From S2P Require Import Prelude CalTimeUtil CalObjTime CalObjTimeSpec Libical RecurRule RecurRuleSpec RecurFilters RecurSteps RecurEngine.

(** ** BYSETPOS *)

(** The [p]-th element, or the [-p]-th from the end. *)
Definition nth_occ (occs : list CalObjTime) (p : Z) : list CalObjTime :=
  if 0 <? p then option_list (occs !! Z.to_nat (p - 1))
  else if p <? 0 then option_list (reverse occs !! Z.to_nat (- p - 1))
  else [].

Lemma bysetpos_loop_spec elems occs :
  bysetpos_loop elems occs = concat (nth_occ occs <$> elems).
Proof.
  induction elems as [|p elems IH]; [done|]. cbn [bysetpos_loop]. rewrite IH, fmap_cons.
  cbn [concat]. f_equal. unfold nth_occ.
  set (len := Z.of_nat (length occs)). assert (0 <= len) by lia.
  destruct (Z.ltb_spec p 0) as [Hn|Hn].
  - destruct (Z.ltb_spec 0 p); [lia|].
    destruct ((0 <=? p + len) && (p + len <? len)) eqn:E.
    + rewrite reverse_lookup by lia. do 2 f_equal. lia.
    + rewrite lookup_ge_None_2 by (rewrite length_reverse; lia). done.
  - destruct (Z.ltb_spec 0 p).
    + destruct ((0 <=? p - 1) && (p - 1 <? len)) eqn:E; [done|].
      rewrite lookup_ge_None_2 by lia. done.
    + assert (p = 0) as -> by lia. done.
Qed.

(** BYSETPOS selects the p-th element of the sorted set for every listed p,
    in the order of the list, counting from the end for negative p; positions
    outside the set, and 0, select nothing; without BYSETPOS everything is
    selected. *)
Theorem bysetpos_filter_spec (r : ECalRecurrence) (occs : list CalObjTime) :
  cal_obj_bysetpos_filter r occs =
  if decide (bysetpos r = []) then occs else concat (nth_occ occs <$> bysetpos r).
Proof.
  unfold cal_obj_bysetpos_filter. destruct (bysetpos r) as [|p l] eqn:E; [done|].
  rewrite decide_False by done. cbn [is_empty orb]. destruct occs as [|c occs].
  - rewrite <- bysetpos_loop_spec. cbn [is_empty orb]. generalize (p :: l). intros k.
    induction k as [|q k IH]; [done|]. cbn [bysetpos_loop length]. rewrite <- IH, app_nil_r.
    by case_match; [rewrite lookup_nil|].
  - apply bysetpos_loop_spec.
Qed.

(** ** Duplicates *)

(** Sorted, duplicates allowed; and strictly sorted. *)
Definition sorted_times : list CalObjTime -> Prop :=
  StronglySorted (fun a b => cal_obj_time_compare_func a b <= 0).
Definition strictly_sorted : list CalObjTime -> Prop :=
  StronglySorted (fun a b => cal_obj_time_compare_func a b < 0).

(** The day exists in its month. *)
Definition day_exists (c : CalObjTime) : Prop :=
  co_day c <= Gregorian.mdays (co_year c) (co_month c).

#[export] Instance day_exists_dec c : Decision (day_exists c).
Proof. unfold day_exists. apply _. Defined.

(** Moved to the last day of its month if its day does not exist. *)
Definition clamp_day (c : CalObjTime) : CalObjTime :=
  if decide (day_exists c) then c
  else set_day (Gregorian.mdays (co_year c) (co_month c)) c.

Lemma occ_month_days_spec c :
  0 <= co_month c < 12 -> occ_month_days c = Ok (Gregorian.mdays (co_year c) (co_month c)).
Proof.
  intros Hm. unfold occ_month_days. rewrite arr_get_days_in_month, res_bind_Ok by lia.
  unfold Gregorian.mdays, Gregorian.leap. repeat case_match; f_equal; lia.
Qed.

Lemma compare_lt_le a b c :
  cal_obj_time_compare_func a b < 0 -> cal_obj_time_compare_func b c <= 0 ->
  cal_obj_time_compare_func a c < 0.
Proof.
  intros H1 H2. pose proof (cmp_trans a b c). pose proof (cmp_trans b c a).
  pose proof (cmp_antisym a b). pose proof (cmp_antisym a c). lia.
Qed.

(** What the loop does with an element: adjust its day, and drop it if it is the
    same time as the adjusted previous one. *)
Lemma dedup_loop_cons prev c occs :
  0 <= co_month c < 12 ->
  dedup_loop prev (c :: occs) =
  rest ← dedup_loop (Some (clamp_day c)) occs;
  Ok (if decide (fields c = from_option fields [] prev) then rest else clamp_day c :: rest).
Proof.
  intros Hm. cbn [dedup_loop]. rewrite occ_month_days_spec, res_bind_Ok by done.
  assert ((if Gregorian.mdays (co_year c) (co_month c) <? co_day c
           then set_day (Gregorian.mdays (co_year c) (co_month c)) c else c) = clamp_day c) as ->.
  { unfold clamp_day. case_decide as H; unfold day_exists in H; case_match; (done || lia). }
  destruct (dedup_loop _ occs) as [rest| |]; try done. cbn. f_equal.
  destruct prev as [p|]; cbn [from_option].
  - pose proof (compare_func_eq c p) as He. case_decide as Hf.
    + apply He in Hf. rewrite Hf. done.
    + destruct (Z.eqb_spec (cal_obj_time_compare_func c p) 0); [tauto|done].
  - done.
Qed.

Lemma clamp_day_exists c : 0 <= co_month c < 12 -> day_exists (clamp_day c).
Proof.
  intros Hm. unfold clamp_day. case_decide; [done|].
  pose proof (Gregorian.mdays_range (co_year c) (co_month c)).
  unfold day_exists. cbn [co_day co_year co_month set_day]. rewrite u8_small by lia. lia.
Qed.

Lemma clamp_day_id c : day_exists c -> clamp_day c = c.
Proof. intros. unfold clamp_day. by rewrite decide_True. Qed.

Lemma dedup_loop_Ok prev occs :
  Forall (fun c => 0 <= co_month c < 12) occs ->
  exists l, dedup_loop prev occs = Ok l /\ Forall day_exists l /\
    (forall c, c ∈ l -> exists c0, c0 ∈ occs /\ c = clamp_day c0).
Proof.
  revert prev. induction occs as [|c occs IH]; intros prev H.
  - exists []. split; [done|]. split; [constructor|]. intros ? []%not_elem_of_nil.
  - apply Forall_cons in H as [Hc H].
    destruct (IH (Some (clamp_day c)) H) as (l & E & Hl & Hin).
    rewrite dedup_loop_cons, E, res_bind_Ok by done.
    case_decide.
    + exists l. split; [done|]. split; [done|]. intros c' Hc'.
      destruct (Hin c' Hc') as (c0 & ? & ?). exists c0. split; [by right|done].
    + exists (clamp_day c :: l). split; [done|].
      split; [constructor; [by apply clamp_day_exists|done]|].
      intros c' [->|Hc']%elem_of_cons; [exists c; split; [by left|done]|].
      destruct (Hin c' Hc') as (c0 & ? & ?). exists c0. split; [by right|done].
Qed.

(** On a sorted list of existing dates, after [p]. *)
Lemma dedup_loop_sorted p occs :
  Forall (fun c => 0 <= co_month c < 12 /\ day_exists c) occs -> sorted_times (p :: occs) ->
  exists l, dedup_loop (Some p) occs = Ok l /\ strictly_sorted (p :: l) /\
    (forall c, c ∈ l -> c ∈ occs) /\
    (forall c, c ∈ occs -> fields c = fields p \/ fields c ∈ fields <$> l).
Proof.
  revert p. induction occs as [|c occs IH]; intros p H Hs.
  - exists []. split; [done|]. split; [repeat constructor|].
    split; [done|]. intros ? []%not_elem_of_nil.
  - apply Forall_cons in H as [[Hm He] H].
    apply StronglySorted_inv in Hs as [Hs Hp]. pose proof Hs as Hs'.
    apply StronglySorted_inv in Hs as [Hs Hc].
    destruct (IH c H Hs') as (l & E & Hl & Hin & Hout).
    rewrite dedup_loop_cons, clamp_day_id, E, res_bind_Ok by done. cbn [from_option].
    apply Forall_cons in Hp as [Hpc Hp].
    assert (cal_obj_time_compare_func p c < 0 \/ fields c = fields p) as Hcase.
    { pose proof (compare_func_eq p c). destruct (Z.eq_dec (cal_obj_time_compare_func p c) 0); [|lia].
      right. symmetry. tauto. }
    case_decide as Hf.
    + exists l. split; [done|]. split.
      * apply StronglySorted_inv in Hl as [Hl Hcl]. constructor; [done|].
        eapply Forall_impl; [exact Hcl|]. intros d Hd. cbv beta in *.
        rewrite compare_func_lex in *. by rewrite <- Hf.
      * split; [intros d Hd; right; by apply Hin|].
        intros d [->|Hd]%elem_of_cons; [by left|].
        destruct (Hout d Hd) as [->|?]; [by left|by right].
    + destruct Hcase as [Hlt|?]; [|done].
      exists (c :: l). split; [done|]. split.
      * constructor; [done|]. constructor; [done|].
        apply StronglySorted_inv in Hl as [_ Hcl]. eapply Forall_impl; [exact Hcl|].
        intros d Hd. cbv beta in *. apply (compare_lt_le p c d); lia.
      * split.
        -- intros d [->|Hd]%elem_of_cons; [by left|right; by apply Hin].
        -- intros d [->|Hd]%elem_of_cons; [right; by left|].
           destruct (Hout d Hd) as [->|?]; [right; by left|right; by right].
Qed.

Lemma dedup_sorted occs :
  Forall (fun c => 0 <= co_month c < 12 /\ day_exists c) occs -> sorted_times occs ->
  exists l, cal_obj_remove_duplicates_and_invalid_dates occs = Ok l /\ strictly_sorted l /\
    (forall c, c ∈ l -> c ∈ occs) /\ (forall c, c ∈ occs -> fields c ∈ fields <$> l).
Proof.
  unfold cal_obj_remove_duplicates_and_invalid_dates. destruct occs as [|c occs]; intros H Hs.
  - exists []. split; [done|]. split; [constructor|]. split; [done|]. intros ? []%not_elem_of_nil.
  - apply Forall_cons in H as [[Hm He] H].
    destruct (dedup_loop_sorted c occs H Hs) as (l & E & Hl & Hin & Hout).
    rewrite dedup_loop_cons, clamp_day_id, E, res_bind_Ok by done. cbn [from_option].
    rewrite decide_False by done. exists (c :: l). split; [done|]. split; [done|]. split.
    + intros d [->|Hd]%elem_of_cons; [by left|right; by apply Hin].
    + intros d [->|Hd]%elem_of_cons; [by left|].
      destruct (Hout d Hd) as [->|?]; [by left|by right].
Qed.

(** Removing duplicates and invalid dates moves every date that does not
    exist to the last day of its month (nothing is removed for being invalid);
    and if all dates of the sorted input exist, the result is strictly sorted and
    has exactly the times of the input. *)
Theorem remove_duplicates_spec (occs : list CalObjTime)
    (Hm : Forall (fun c => 0 <= co_month c < 12) occs) :
  exists l, cal_obj_remove_duplicates_and_invalid_dates occs = Ok l /\ Forall day_exists l /\
    (forall c, c ∈ l -> exists c0, c0 ∈ occs /\ c = clamp_day c0) /\
    (Forall day_exists occs -> sorted_times occs ->
     strictly_sorted l /\ (forall c, c ∈ occs -> fields c ∈ fields <$> l)).
Proof.
  destruct (dedup_loop_Ok None occs Hm) as (l & E & Hl & Hin). exists l.
  split; [done|]. split; [done|]. split; [done|]. intros He Hs.
  destruct (dedup_sorted occs) as (l' & E' & ? & _ & ?); [|done|].
  - rewrite Forall_forall in *. intros c Hc. split; [by apply Hm|by apply He].
  - assert (l' = l) as -> by (unfold cal_obj_remove_duplicates_and_invalid_dates in *; congruence). done.
Qed.

Lemma remove_duplicates_spec_witness :
  exists l, cal_obj_remove_duplicates_and_invalid_dates
    [mkCalObjTime 2007 0 31 9 0 0 false; mkCalObjTime 2007 0 31 9 0 0 true] = Ok l /\ strictly_sorted l.
Proof.
  destruct (remove_duplicates_spec
    [mkCalObjTime 2007 0 31 9 0 0 false; mkCalObjTime 2007 0 31 9 0 0 true])
    as (l & E & _ & _ & H).
  - concrete.
  - exists l. split; [exact E|]. apply H.
    + concrete.
    + repeat constructor; vm_compute; discriminate.
Defined.

(** Duplicates are looked for before the days are adjusted, so the result can
    contain the same time twice, against the comments of the function and of its
    caller: 30 and 31 February both become 28 February. *)
Theorem remove_duplicates_leaves_duplicates :
  exists c, cal_obj_remove_duplicates_and_invalid_dates
    [mkCalObjTime 2007 1 30 9 0 0 false; mkCalObjTime 2007 1 31 9 0 0 false] = Ok [c; c].
Proof. exists (mkCalObjTime 2007 1 28 9 0 0 false). reflexivity. Qed.

(** ** Exceptions *)

(** Merge equal neighbours: the flag of the result is set if one of theirs is. *)
Fixpoint merge_from (k : CalObjTime) (l : list CalObjTime) : list CalObjTime :=
  match l with
  | [] => [k]
  | c :: l => if decide (fields c = fields k)
              then merge_from (set_flags (co_flags k || co_flags c) k) l
              else k :: merge_from c l
  end.
Definition merge_dups (l : list CalObjTime) : list CalObjTime :=
  match l with [] => [] | c :: l => merge_from c l end.

(** No exception has the time of [c]. *)
Definition not_excepted (ex : list CalObjTime) (c : CalObjTime) : Prop :=
  fields c ∉ fields <$> ex.
#[export] Instance not_excepted_dec ex c : Decision (not_excepted ex c).
Proof. unfold not_excepted. apply _. Defined.

Lemma exceptions_loop_total occs prev ex cur kept :
  (prev <> None -> cur = false -> kept <> []) ->
  is_Ok (exceptions_loop occs prev ex cur kept).
Proof.
  revert prev ex cur kept. induction occs as [|c occs IH]; intros prev ex cur kept H; [by eexists|].
  cbn [exceptions_loop]. destruct prev as [p|].
  - destruct (cal_obj_time_compare_func c p =? 0).
    + destruct (co_flags c && negb cur) eqn:E.
      * destruct kept as [|k kept]; [exfalso; apply H; [done|destruct (co_flags c), cur; done|done]|].
        rewrite res_bind_Ok. by apply IH.
      * rewrite res_bind_Ok. apply IH. intros _. by apply H.
    + destruct (step_exceptions ex c) as [ex' matched]. apply IH. by destruct matched.
  - destruct (step_exceptions ex c) as [ex' matched]. apply IH. by destruct matched.
Qed.

Lemma merge_from_ne k l :
  Forall (fun c => fields c <> fields k) l -> merge_from k l = k :: merge_dups l.
Proof.
  destruct l as [|c l]; [done|]. intros [H _]%Forall_cons. cbn [merge_from merge_dups].
  by rewrite decide_False.
Qed.

(** Stepping through sorted exceptions without DATE values. *)
Lemma step_exceptions_spec ex c :
  sorted_times ex -> Forall (fun e => co_flags e = false) ex ->
  exists ex', step_exceptions ex c = (ex', negb (bool_decide (not_excepted ex c))) /\
    sorted_times ex' /\ Forall (fun e => co_flags e = false) ex' /\
    (forall d, cal_obj_time_compare_func c d < 0 -> (not_excepted ex' d <-> not_excepted ex d)).
Proof.
  induction ex as [|e ex IH]; intros Hs Hf.
  - exists []. split; [|by repeat split]. cbn [step_exceptions].
    rewrite bool_decide_true; [done|]. by intros ?%not_elem_of_nil.
  - pose proof Hs as Hs0. pose proof Hf as Hf0.
    apply StronglySorted_inv in Hs as [Hs He]. apply Forall_cons in Hf as [Hfe Hf].
    cbn [step_exceptions]. rewrite Hfe. pose proof (compare_func_eq e c) as Heq.
    destruct (Z.ltb_spec 0 (cal_obj_time_compare_func e c)) as [Hgt|Hle].
    + exists (e :: ex). split; [|done]. rewrite bool_decide_true; [done|].
      intros [Hin|(x & Hx & Hin)%list_elem_of_fmap]%elem_of_cons.
      * symmetry in Hin. apply Heq in Hin. lia.
      * rewrite Forall_forall in He. pose proof (He x Hin). cbv beta in *.
        symmetry in Hx. apply compare_func_eq in Hx.
        pose proof (cmp_trans e x c). lia.
    + assert (forall d, cal_obj_time_compare_func c d < 0 ->
        (not_excepted ex d <-> not_excepted (e :: ex) d)) as Hd.
      { intros d Hlt. unfold not_excepted. rewrite fmap_cons, not_elem_of_cons.
        split; [|by intros [_ ?]]. intros Hn. split; [|done]. intros Hde.
        symmetry in Hde. apply compare_func_eq in Hde.
        pose proof (compare_lt_le c d e). pose proof (cmp_antisym e d). pose proof (cmp_antisym e c). lia. }
      destruct (Z.eqb_spec (cal_obj_time_compare_func e c) 0) as [E|E].
      * exists ex. split; [|done]. rewrite bool_decide_false; [done|].
        intros Hn. apply Hn. rewrite fmap_cons. apply elem_of_cons. left. symmetry. tauto.
      * destruct (IH Hs Hf) as (ex' & -> & Hs' & Hf' & Hd'). exists ex'.
        split; [|split; [done|split; [done|]]].
        -- do 2 f_equal. apply bool_decide_ext. unfold not_excepted.
           rewrite fmap_cons, not_elem_of_cons. split; [|by intros [_ ?]].
           intros ?. split; [|done]. intros Hc. apply E, Heq. by symmetry.
        -- intros d Hlt. rewrite Hd' by done. by apply Hd.
Qed.

(** The loop after the occurrence [p], which was an exception or is the last one
    kept. *)
Lemma exceptions_loop_spec ex0 occs p ex cur kept k :
  sorted_times (p :: occs) -> sorted_times ex -> Forall (fun e => co_flags e = false) ex ->
  (forall d, cal_obj_time_compare_func p d < 0 -> (not_excepted ex d <-> not_excepted ex0 d)) ->
  fields k = fields p ->
  (if cur : bool then ~ not_excepted ex0 p else not_excepted ex0 p) ->
  exceptions_loop occs (Some p) ex cur (if cur : bool then kept else k :: kept) =
  Ok (reverse kept ++
      (if cur : bool then merge_dups (filter (not_excepted ex0) occs)
       else merge_from k (filter (not_excepted ex0) occs))).
Proof.
  revert p ex cur kept k. induction occs as [|c occs IH]; intros p ex cur kept k Hs Hex Hf Hrel Hk Hcur.
  { cbn [exceptions_loop]. rewrite filter_nil. destruct cur; cbn [merge_dups merge_from].
    - by rewrite app_nil_r.
    - by rewrite reverse_cons. }
  apply StronglySorted_inv in Hs as [Hs Hp]. pose proof Hs as Hsc.
  apply StronglySorted_inv in Hsc as [Hsocc Hc]. apply Forall_cons in Hp as [Hpc Hp].
  cbn [exceptions_loop]. rewrite filter_cons.
  pose proof (compare_func_eq c p) as Heq. pose proof (cmp_antisym c p) as Hanti.
  destruct (Z.eqb_spec (cal_obj_time_compare_func c p) 0) as [E|E].
  - assert (fields c = fields p) as Ef by tauto.
    assert (forall d, cal_obj_time_compare_func c d < 0 ->
      (not_excepted ex d <-> not_excepted ex0 d)) as Hrel'.
    { intros d Hd. apply Hrel. rewrite compare_func_lex in *. by rewrite <- Ef. }
    assert (not_excepted ex0 c <-> not_excepted ex0 p) as Hcp
      by (unfold not_excepted; by rewrite Ef).
    destruct cur; cbn [negb].
    + rewrite andb_false_r, res_bind_Ok.
      rewrite decide_False by tauto. apply (IH c ex true kept c); (done || tauto).
    + rewrite andb_true_r, decide_True by tauto.
      cbn [merge_from]. rewrite decide_True by congruence.
      destruct (co_flags c); rewrite res_bind_Ok.
      * rewrite orb_true_r. apply (IH c ex false kept (set_flags true k)); try done;
          [change (fields k = fields c); congruence|tauto].
      * rewrite orb_false_r. replace (set_flags (co_flags k) k) with k by by destruct k.
        apply (IH c ex false kept k); try done; tauto || congruence.
  - assert (cal_obj_time_compare_func p c < 0) as Hlt by lia.
    destruct (step_exceptions_spec ex c Hex Hf) as (ex' & -> & Hex' & Hf' & Hrel').
    assert (forall d, cal_obj_time_compare_func c d < 0 ->
      (not_excepted ex' d <-> not_excepted ex0 d)) as Hrel2.
    { intros d Hd. rewrite Hrel' by done. apply Hrel. apply (compare_lt_le p c d); lia. }
    specialize (Hrel c Hlt).
    assert (fields c <> fields k) as Hck by (rewrite Hk; tauto).
    assert (Forall (fun d => fields d <> fields k) (filter (not_excepted ex0) occs)) as Hall.
    { rewrite Forall_forall. intros d [_ Hd]%list_elem_of_filter.
      rewrite Forall_forall in Hc. pose proof (Hc d Hd). cbv beta in *.
      rewrite Hk. intros Hdp. symmetry in Hdp. apply compare_func_eq in Hdp.
      pose proof (compare_lt_le p c d). lia. }
    case_bool_decide as Hn; cbn [negb].
    + rewrite decide_True by tauto.
      destruct cur.
      * rewrite (IH c ex' false kept c) by (done || tauto). done.
      * rewrite (IH c ex' false (k :: kept) c) by (done || tauto).
        rewrite reverse_cons, <- app_assoc. cbn [merge_from]. rewrite decide_False by done. done.
    + rewrite decide_False by tauto.
      destruct cur.
      * rewrite (IH c ex' true kept c) by (done || tauto). done.
      * rewrite (IH c ex' true (k :: kept) c) by (done || tauto).
        rewrite reverse_cons, <- app_assoc, (merge_from_ne k) by done. done.
Qed.

Lemma remove_exceptions_merge occs ex :
  sorted_times occs -> sorted_times ex -> Forall (fun e => co_flags e = false) ex ->
  cal_obj_remove_exceptions occs ex = Ok (merge_dups (filter (not_excepted ex) occs)).
Proof.
  intros Hs Hex Hf. unfold cal_obj_remove_exceptions. destruct occs as [|c occs]; [done|].
  cbn [exceptions_loop]. rewrite filter_cons.
  destruct (step_exceptions_spec ex c Hex Hf) as (ex' & -> & Hex' & Hf' & Hrel).
  case_bool_decide as Hn; cbn [negb].
  - rewrite decide_True by done. by apply (exceptions_loop_spec ex occs c ex' false [] c).
  - rewrite decide_False by done. by apply (exceptions_loop_spec ex occs c ex' true [] c).
Qed.

Lemma merge_from_sorted k l :
  sorted_times (k :: l) -> strictly_sorted (merge_from k l) /\
  (forall d, cal_obj_time_compare_func d k < 0 ->
     Forall (fun c => cal_obj_time_compare_func d c < 0) (merge_from k l)) /\
  (forall x, x ∈ fields <$> merge_from k l <-> x = fields k \/ x ∈ fields <$> l).
Proof.
  revert k. induction l as [|c l IH]; intros k Hs.
  - cbn [merge_from]. split; [repeat constructor|]. split; [by repeat constructor|].
    intros x. rewrite fmap_cons, elem_of_cons, fmap_nil. tauto.
  - apply StronglySorted_inv in Hs as [Hs Hk]. pose proof Hs as Hs'.
    apply StronglySorted_inv in Hs' as [Hs' Hc]. apply Forall_cons in Hk as [Hkc Hk].
    cbn [merge_from]. case_decide as E.
    + destruct (IH (set_flags (co_flags k || co_flags c) k)) as (H1 & H2 & H3).
      { constructor; [done|]. eapply Forall_impl; [exact Hk|]. intros d. by rewrite !compare_func_lex. }
      split; [done|]. split.
      * intros d Hd. apply H2. by rewrite compare_func_lex in *.
      * intros x. rewrite H3, fmap_cons, elem_of_cons, E. change (fields (set_flags _ k)) with (fields k). tauto.
    + destruct (IH c Hs) as (H1 & H2 & H3).
      assert (cal_obj_time_compare_func k c < 0) as Hlt.
      { pose proof (compare_func_eq c k). pose proof (cmp_antisym k c).
        destruct (Z.eq_dec (cal_obj_time_compare_func k c) 0); [exfalso; apply E; apply compare_func_eq|]; lia. }
      split; [constructor; [done|by apply H2]|]. split.
      * intros d Hd. constructor; [done|]. apply H2. apply (compare_lt_le d k c); lia.
      * intros x. rewrite fmap_cons, elem_of_cons, H3, fmap_cons, elem_of_cons. tauto.
Qed.

Lemma sorted_times_filter P `{!forall c, Decision (P c)} l :
  sorted_times l -> sorted_times (filter P l).
Proof.
  induction l as [|c l IH]; [done|]. intros [Hs Hc]%StronglySorted_inv.
  rewrite filter_cons. case_decide; [|by apply IH]. constructor; [by apply IH|].
  rewrite Forall_forall in *. intros d [_ Hd]%list_elem_of_filter. by apply Hc.
Qed.

Lemma merge_dups_sorted l :
  sorted_times l -> strictly_sorted (merge_dups l) /\
  (forall x, x ∈ fields <$> merge_dups l <-> x ∈ fields <$> l).
Proof.
  destruct l as [|c l]; intros Hs; [split; [constructor|done]|].
  destruct (merge_from_sorted c l Hs) as (H1 & _ & H3). split; [done|].
  intros x. cbn [merge_dups]. by rewrite H3, fmap_cons, elem_of_cons.
Qed.

(** Removing the exceptions never reads outside the array; and for sorted
    occurrences and sorted exceptions that are times, it removes exactly the
    occurrences whose time is an exception and merges equal times, keeping the
    flag that one of them has an RDATE's end; the result is strictly sorted. *)
Theorem remove_exceptions_spec (occs ex : list CalObjTime) :
  is_Ok (cal_obj_remove_exceptions occs ex) /\
  (sorted_times occs -> sorted_times ex -> Forall (fun e => co_flags e = false) ex ->
   exists l, cal_obj_remove_exceptions occs ex = Ok l /\
     l = merge_dups (filter (not_excepted ex) occs) /\ strictly_sorted l /\
     (forall x, x ∈ fields <$> l <-> x ∈ fields <$> occs /\ x ∉ fields <$> ex)).
Proof.
  split; [by apply exceptions_loop_total|]. intros Hs Hex Hf.
  rewrite remove_exceptions_merge by done. eexists. split; [reflexivity|]. split; [reflexivity|].
  destruct (merge_dups_sorted (filter (not_excepted ex) occs)) as [H1 H2];
    [by apply sorted_times_filter|].
  split; [done|]. intros x. rewrite H2, !list_elem_of_fmap. split.
  - intros (c & -> & [Hn Hc]%list_elem_of_filter). split; [by exists c|].
    unfold not_excepted in Hn. by rewrite list_elem_of_fmap in Hn.
  - intros [(c & -> & Hc) Hn]. exists c. split; [done|]. apply list_elem_of_filter.
    split; [|done]. unfold not_excepted. by rewrite list_elem_of_fmap.
Qed.

Lemma remove_exceptions_spec_witness :
  let c d f := mkCalObjTime 2007 0 d 9 0 0 f in
  cal_obj_remove_exceptions [c 1 false; c 2 false; c 3 false; c 3 true] [c 2 false]
  = Ok [c 1 false; c 3 true].
Proof.
  intros c. destruct (remove_exceptions_spec [c 1 false; c 2 false; c 3 false; c 3 true] [c 2 false])
    as [_ H]. destruct H as (l & E & -> & _).
  - repeat constructor; vm_compute; discriminate.
  - repeat constructor.
  - repeat constructor.
  - rewrite E. reflexivity.
Defined.

(** An EXDATE with a DATE value removes only the first occurrence of its day,
    although it should remove all of them: the exception is dropped as soon as it
    has matched. *)
Theorem date_exception_removes_one :
  let c h := mkCalObjTime 2007 0 10 h 0 0 false in
  let exdate := mkCalObjTime 2007 0 10 0 0 0 true in
  cal_obj_remove_exceptions [c 9; c 17] [exdate] = Ok [c 17] /\
  cal_obj_date_only_compare_func exdate (c 17) = 0.
Proof. split; reflexivity. Qed.
