(* ===== verification/RecurExpandSpec.v ===== *)
(** * Expanding a rule always finishes

    For a valid rule (a MINUTELY or SECONDLY one under the condition [expand_exact]) and a
    bounded interval, [cal_obj_expand_recurrence] has defined behaviour and terminates, and its result is the concatenation of the
    sets of the periods of the rule, in order. *)

From S2P Require Import Prelude CalTimeUtil CalObjTime CalObjTimeSpec Libical RecurRule RecurRuleSpec RecurFilters RecurFiltersSpec RecurByDaySpec RecurSteps RecurEngine RecurStepsSpec RecurEngineSpec LibicalUtc.

(** ** Rules within the bounds of RFC 2445 *)

Record rule_valid (r : ECalRecurrence) : Prop := {
  rv_bounds : rule_in_bounds r;
  rv_interval : 0 < interval r <= 32767;
  rv_wkst : 0 <= week_start_day r < 7;
  rv_weekno : Forall (fun w => -53 <= w <= 53) (byweekno r);
  rv_yearday : Forall (fun d => -366 <= d <= 366) (byyearday r);
  rv_monthday : Forall (fun d => -31 <= d <= 31 /\ d <> 0) (bymonthday r);
  rv_byday : Forall pair_ok (byday_pairs (byday r));
  rv_second : Forall (fun s => 0 <= s < 60) (bysecond r);
}.

(** ** Filters and expansions as maps between sets of times *)

(** [f] is defined on lists of [P] and returns a list of [Q]. *)
Definition maps_to (P Q : CalObjTime -> Prop) (f : list CalObjTime -> res (list CalObjTime)) : Prop :=
  forall occs, Forall P occs -> exists occs', f occs = Ok occs' /\ Forall Q occs'.

Lemma maps_to_weaken P P' Q Q' f :
  (forall c, P' c -> P c) -> (forall c, Q c -> Q' c) -> maps_to P Q f -> maps_to P' Q' f.
Proof.
  intros HP HQ Hf occs Hocc. destruct (Hf occs) as (l & E & Hl); [by eapply Forall_impl|].
  exists l. split; [done|]. by eapply Forall_impl.
Qed.

Lemma maps_to_bind P Q R f g :
  maps_to P Q f -> maps_to Q R g -> maps_to P R (fun occs => f occs ≫= g).
Proof.
  intros Hf Hg occs Hocc. destruct (Hf occs Hocc) as (l & -> & Hl). rewrite res_bind_Ok. by apply Hg.
Qed.

Lemma maps_to_Ok (P Q : CalObjTime -> Prop) : (forall c, P c -> Q c) -> maps_to P Q Ok.
Proof. intros H occs Hocc. exists occs. split; [done|]. by eapply Forall_impl. Qed.

Lemma Forall2_concat {A} (P : A -> Prop) (Q : CalObjTime -> Prop) (R : A -> list CalObjTime -> Prop) xs ls :
  (forall x l, P x -> R x l -> Forall Q l) -> Forall P xs -> Forall2 R xs ls -> Forall Q (concat ls).
Proof.
  intros H Hxs H2. induction H2 as [|x l xs ls Hx _ IH]; [constructor|].
  apply Forall_cons in Hxs as [Hpx Hxs]. cbn [concat]. apply Forall_app_2; [by eapply H|by apply IH].
Qed.

Lemma filter_Forall (P Q : CalObjTime -> Prop) `{!forall c, Decision (Q c)} l :
  Forall P l -> Forall P (filter Q l).
Proof.
  rewrite !Forall_forall. intros HP c [_ Hc]%list_elem_of_filter. by apply HP.
Qed.

(** Times whose fields are in range, except that the day may not exist in the
    month; the same with an existing date; and any time of a set. *)
Definition month_fit (c : CalObjTime) : Prop :=
  1902 <= co_year c < 65532 /\ 0 <= co_month c < 12 /\ 1 <= co_day c /\ clock_ok c.
Definition date_fit (c : CalObjTime) : Prop := 1902 <= co_year c < 65532 /\ time_ok c.
Definition occ_fit (c : CalObjTime) : Prop :=
  1900 <= co_year c < 65536 /\ 0 <= co_month c < 12 /\ 1 <= co_day c /\ clock_ok c.

Lemma date_month_fit c : date_fit c -> month_fit c.
Proof. intros [Hy [[_ [Hm Hd]] K]]. repeat split; (apply K || lia). Qed.
Lemma month_occ_fit c : month_fit c -> occ_fit c.
Proof. intros (Hy & Hm & Hd & K). repeat split; (apply K || lia). Qed.
Lemma time_occ_fit c : time_ok c -> occ_fit c.
Proof. intros [[Hy [Hm Hd]] K]. repeat split; (apply K || lia). Qed.
Lemma date_occ_fit c : date_fit c -> occ_fit c.
Proof. intros [_ H]. by apply time_occ_fit. Qed.
#[local] Hint Resolve date_month_fit month_occ_fit time_occ_fit date_occ_fit : core.

Section maps.
Context {G : GDate} `{!GDateLaws G}.
Context (r : ECalRecurrence) (rd : RecurData).
Hypothesis (Hrd : tables_match r rd) (Hr : rule_valid r).

Let Er : recur rd = r := tm_recur r rd Hrd.

(** The clock expansions keep the month. *)
Lemma field_expand_maps (P : CalObjTime -> Prop) (set : Z -> CalObjTime -> CalObjTime) (l : list Z) occs :
  (forall x c, x ∈ l -> P c -> P (set x c)) -> Forall P occs ->
  Forall P (if decide (l = []) then occs
            else concat ((fun occ => (fun x => set x occ) <$> l) <$> occs)).
Proof.
  intros Hset Hocc. case_decide; [done|]. induction Hocc as [|c occs Hc _ IH]; [constructor|].
  rewrite fmap_cons. cbn [concat]. apply Forall_app_2; [|done].
  rewrite Forall_forall. intros c' (x & -> & Hx)%list_elem_of_fmap. by apply Hset.
Qed.

Lemma clock_expand_maps :
  maps_to occ_fit occ_fit (cal_obj_byhour_expand rd) /\
  maps_to occ_fit occ_fit (cal_obj_byminute_expand rd) /\
  maps_to occ_fit occ_fit (cal_obj_bysecond_expand rd).
Proof.
  pose proof (rb_hour r (rv_bounds r Hr)) as Hh. pose proof (rb_minute r (rv_bounds r Hr)) as Hm.
  pose proof (rv_second r Hr) as Hs. rewrite Forall_forall in Hh, Hm, Hs.
  repeat split; intros occs Hocc;
    (eexists; split; [apply (clock_expansions rd occs)|]; apply field_expand_maps; [|done]);
    rewrite Er; intros x c Hx (Hy & Hmo & Hd & K); unfold clock_ok in K.
  - specialize (Hh x Hx). cbv beta in Hh. unfold occ_fit, clock_ok, set_hour.
    cbn [co_year co_month co_day co_hour co_minute co_second]. rewrite u8_small; lia.
  - specialize (Hm x Hx). cbv beta in Hm. unfold occ_fit, clock_ok, set_minute.
    cbn [co_year co_month co_day co_hour co_minute co_second]. rewrite u8_small; lia.
  - specialize (Hs x Hx). cbv beta in Hs. unfold occ_fit, clock_ok, set_second.
    cbn [co_year co_month co_day co_hour co_minute co_second]. rewrite u8_small; lia.
Qed.

Lemma bymonth_expand_maps : maps_to month_fit month_fit (cal_obj_bymonth_expand rd).
Proof.
  intros occs Hocc. eexists. split; [apply (clock_expansions rd occs)|].
  apply field_expand_maps; [|done]. rewrite Er. intros m c Hm (Hy & _ & Hd & K).
  pose proof (rb_month r (rv_bounds r Hr)) as Hb. rewrite Forall_forall in Hb.
  specialize (Hb m Hm). cbv beta in Hb. split; [exact Hy|]. split; [|by split].
  cbn. rewrite u8_small; lia.
Qed.

(** The filters return a part of the list. *)
Lemma filter_maps (P : CalObjTime -> Prop) f :
  (forall c, P c -> time_ok c) ->
  f = cal_obj_bymonth_filter \/ f = cal_obj_byyearday_filter \/ f = cal_obj_bymonthday_filter
    \/ f = cal_obj_byday_filter \/ f = cal_obj_byhour_filter \/ f = cal_obj_byminute_filter
    \/ f = cal_obj_bysecond_filter ->
  maps_to P P (f rd).
Proof.
  intros HP Hf occs Hocc.
  destruct (filters_sound G _ r rd occs Hrd) as (E1 & E2 & E3 & E4 & E5 & E6 & E7);
    [by eapply Forall_impl|].
  specialize (E4 (rb_paired r (rv_bounds r Hr))).
  repeat destruct Hf as [->|Hf]; [..|subst f];
    (eexists; split; [eassumption|]; by apply filter_Forall).
Qed.

(** BYMONTH only looks at the month. *)
Lemma bymonth_filter_maps : maps_to month_fit month_fit (cal_obj_bymonth_filter rd).
Proof.
  intros occs Hocc. unfold cal_obj_bymonth_filter.
  rewrite (guarded_filter _ _ _ (fun c => selected (bymonth r) (co_month c))).
  - eexists. split; [reflexivity|]. by apply filter_Forall.
  - intros E c. left. congruence.
  - rewrite Er. intros Hne. eapply Forall_impl; [exact Hocc|]. intros c (_ & Hm & _).
    apply (selected_table 12); [done|by apply tm_months|done].
Qed.

(** An expansion whose list is empty does nothing. *)
Lemma guarded_maps (l : list Z) f (P Q : CalObjTime -> Prop) :
  (forall c, P c -> Q c) ->
  (l <> [] -> maps_to P Q (fun occs => if is_empty l || is_empty occs then Ok occs else expandM f occs)) ->
  maps_to P Q (fun occs => if is_empty l || is_empty occs then Ok occs else expandM f occs).
Proof. intros HPQ H. destruct l; [by apply maps_to_Ok|by apply H]. Qed.

Lemma dates_at_fit c s l : clock_ok c -> dates_at c s l -> Forall time_ok l.
Proof.
  intros K (Hd & Hs & _). rewrite Forall_forall in *. intros d Hin.
  split; [by apply Hd|]. eapply same_clock_ok; [by apply Hs|done].
Qed.

Lemma bymonthday_expand_maps : maps_to month_fit month_fit (cal_obj_bymonthday_expand rd).
Proof.
  apply guarded_maps; [done|]. intros Hne occs Hocc.
  assert (Forall month_ok occs) as Hok.
  { eapply Forall_impl; [exact Hocc|]. intros c (Hy & Hm & _). split; lia. }
  eexists. split.
  - apply (bymonthday_expand_days rd); [done| |done]. rewrite Er. apply Hr.
  - clear Hok. induction Hocc as [|c occs Hc _ IH]; [constructor|].
    rewrite fmap_cons. cbn [concat]. apply Forall_app_2; [|done].
    rewrite Forall_forall. intros c' (x & -> & Hx)%list_elem_of_fmap.
    destruct Hc as (Hy & Hm & Hd & K). split; [exact Hy|]. split; [exact Hm|]. split; [|exact K].
    pose proof (rv_monthday r Hr) as Hmd. rewrite Forall_forall in Hmd. rewrite Er in Hx.
    destruct (Hmd x Hx) as [Hx1 Hx2]. pose proof (Gregorian.mdays_range (co_year c) (co_month c)).
    cbn [co_day set_day]. unfold monthday_of. rewrite u8_small; repeat case_match; lia.
Qed.

Lemma byday_monthly_maps : maps_to month_fit occ_fit (cal_obj_byday_expand_monthly rd).
Proof.
  apply guarded_maps; [auto|]. intros Hne occs Hocc.
  destruct (byday_expand_monthly_dates G _ rd occs) as (ls & E & H); [|done| | |].
  - eapply Forall_impl; [exact Hocc|]. intros c (Hy & Hm & _). split; lia.
  - rewrite Er. apply Hr.
  - rewrite Er. apply Hr.
  - eexists. split; [exact E|]. eapply (Forall2_concat month_fit); [|exact Hocc|exact H].
    intros c l Hc Hl. eapply Forall_impl; [|exact time_occ_fit].
    eapply dates_at_fit; [apply Hc|exact Hl].
Qed.

Lemma byday_yearly_maps : maps_to month_fit occ_fit (cal_obj_byday_expand_yearly rd).
Proof.
  apply guarded_maps; [auto|]. intros Hne occs Hocc.
  destruct (byday_expand_yearly_dates G _ rd occs) as (ls & E & H); [|done| | |].
  - eapply Forall_impl; [exact Hocc|]. intros c (Hy & Hm & _). lia.
  - rewrite Er. apply Hr.
  - rewrite Er. apply Hr.
  - eexists. split; [exact E|]. eapply (Forall2_concat month_fit); [|exact Hocc|exact H].
    intros c l Hc Hl. eapply Forall_impl; [|exact time_occ_fit].
    eapply dates_at_fit; [apply Hc|exact Hl].
Qed.

Lemma byday_weekly_maps : maps_to date_fit occ_fit (cal_obj_byday_expand_weekly rd).
Proof.
  apply guarded_maps; [auto|]. intros Hne occs Hocc.
  destruct (byday_expand_weekly_dates G _ rd occs) as (ls & E & H); [| |done| | |].
  - eapply Forall_impl; [exact Hocc|]. intros c [Hy [Hd _]]. split; [lia|done].
  - rewrite Er. apply Hr.
  - rewrite Er. apply Hr.
  - rewrite Er. apply Hr.
  - eexists. split; [exact E|]. eapply (Forall2_concat date_fit); [|exact Hocc|exact H].
    intros c l Hc Hl. eapply Forall_impl; [|exact time_occ_fit].
    eapply dates_at_fit; [apply Hc|exact Hl].
Qed.

Lemma byyearday_expand_maps : maps_to month_fit occ_fit (cal_obj_byyearday_expand rd).
Proof.
  apply guarded_maps; [auto|]. intros Hne occs Hocc.
  destruct (byyearday_expand_dates rd occs) as (ls & E & H); [| |done|].
  - eapply Forall_impl; [exact Hocc|]. intros c (Hy & Hm & _). lia.
  - rewrite Er. apply Hr.
  - eexists. split; [exact E|]. eapply (Forall2_concat month_fit); [|exact Hocc|exact H].
    intros c l Hc Hl. eapply Forall_impl; [|exact time_occ_fit].
    eapply dates_at_fit; [apply Hc|exact Hl].
Qed.

(** Dates of [in_year y] are in the year [y]. *)
Lemma dates_in_year c y (f : Z -> Z) (ds : list Z) l :
  dates_at c (concat ((fun d => in_year y (f d)) <$> ds)) l -> Forall (fun d => co_year d = y) l.
Proof.
  intros (Hd & _ & Hs). rewrite Forall_forall in *. intros d Hin.
  assert (serial d ∈ serial <$> l) as Hs1 by (apply list_elem_of_fmap; by exists d).
  rewrite Hs in Hs1. apply list_elem_of_In, in_concat in Hs1 as (k & Hk2 & Hk).
  apply list_elem_of_In in Hk, Hk2.
  apply list_elem_of_fmap in Hk2 as (x & -> & _). unfold in_year in Hk.
  case_decide as Hr0; [|by apply not_elem_of_nil in Hk].
  apply list_elem_of_singleton in Hk.
  pose proof (year_period y d (Hd d Hin)) as Ht. cbv beta in Ht.
  rewrite bool_decide_true in Ht by lia. by apply Z.eqb_eq in Ht.
Qed.

Lemma byweekno_expand_maps :
  byweekno r <> [] -> 0 <= weekday_offset rd < 7 ->
  maps_to month_fit date_fit (cal_obj_byweekno_expand rd).
Proof.
  intros Hne Ho occs Hocc.
  destruct (byweekno_expand_dates G _ rd occs) as (ls & E & H); [| |done| | |].
  - eapply Forall_impl; [exact Hocc|]. intros c (Hy & Hm & _). lia.
  - rewrite Er. apply Hr.
  - rewrite Er. apply Hr.
  - by rewrite Er.
  - eexists. split; [exact E|]. eapply (Forall2_concat month_fit); [|exact Hocc|exact H].
    intros c l (Hy & _ & _ & K) Hl. pose proof (dates_at_fit _ _ _ K Hl) as Hd.
    apply (dates_in_year c (co_year c)) in Hl. rewrite Forall_forall in *.
    intros d Hin. split; [rewrite (Hl d Hin); lia|by apply Hd].
Qed.

(** ** The set of a period *)

Hypothesis (Ho : 0 <= weekday_offset rd < 7).

Lemma occs_array_maps guard gen :
  (guard = true -> exists l, gen = Ok l /\ Forall occ_fit l) ->
  exists ls, occs_array guard gen = Ok ls /\ Forall occ_fit (concat ls).
Proof.
  intros H. unfold occs_array. destruct guard; [|exists []; split; [done|constructor]].
  destruct (H eq_refl) as (l & -> & Hl). exists [l]. split; [done|].
  cbn [concat]. by rewrite app_nil_r.
Qed.

Lemma not_empty_ne {A} (l : list A) : negb (is_empty l) = true -> l <> [].
Proof. by destruct l. Qed.

(** Apply a map to the list at hand. *)
Local Ltac map_step L :=
  let l := fresh "l" in let E := fresh "E" in let H := fresh "Hl" in
  edestruct L as (l & E & H); [eassumption|cbn [call_filter call_filter_opt]; rewrite E, res_bind_Ok; clear E].

(** The three clock filters at the end, for [occ_fit] sets. *)
Lemma clock_steps l :
  Forall occ_fit l ->
  exists l', (occs ← cal_obj_byhour_expand rd l; occs ← cal_obj_byminute_expand rd occs;
              cal_obj_bysecond_expand rd occs) = Ok l' /\ Forall occ_fit l'.
Proof.
  intros Hl. destruct clock_expand_maps as (H1 & H2 & H3).
  map_step H1. map_step H2. by apply H3.
Qed.

Lemma set_yearly_Ok c :
  month_fit c ->
  exists l, cal_obj_generate_set_yearly rd cal_obj_yearly_vtable c = Ok l /\ Forall occ_fit l.
Proof.
  intros Hc. assert (Forall month_fit [c]) as H1 by (by constructor).
  unfold cal_obj_generate_set_yearly. cbn [cal_obj_yearly_vtable bymonth_filter byweekno_filter
    byyearday_filter bymonthday_filter byday_filter byhour_filter byminute_filter bysecond_filter
    call_filter].
  lazymatch goal with |- exists _, (occs_array ?g ?x ≫= _) = _ /\ _ =>
    destruct (occs_array_maps g x) as (a1 & -> & A1) end.
  { intros _. map_step bymonth_expand_maps.
    destruct (negb (is_empty (bymonthday (recur rd))) && negb (is_empty (byday (recur rd)))).
    - destruct (bymonthday_expand_maps _ Hl) as (l1 & -> & L1). rewrite res_bind_Ok.
      destruct (byday_monthly_maps _ Hl) as (l2 & -> & L2). rewrite res_bind_Ok.
      eexists. split; [reflexivity|]. apply Forall_app_2; [|done]. eapply Forall_impl; [exact L1|exact month_occ_fit].
    - map_step bymonthday_expand_maps. by apply byday_monthly_maps. }
  rewrite res_bind_Ok.
  lazymatch goal with |- exists _, (occs_array ?g ?x ≫= _) = _ /\ _ =>
    destruct (occs_array_maps g x) as (a2 & -> & A2) end.
  { intros Hg%not_empty_ne. rewrite Er in Hg.
    destruct (byweekno_expand_maps Hg Ho _ H1) as (l & -> & Hl). rewrite res_bind_Ok.
    by apply byday_weekly_maps. }
  rewrite res_bind_Ok.
  lazymatch goal with |- exists _, (occs_array ?g ?x ≫= _) = _ /\ _ =>
    destruct (occs_array_maps g x) as (a3 & -> & A3) end.
  { intros _. by apply byyearday_expand_maps. }
  rewrite res_bind_Ok.
  lazymatch goal with |- exists _, (occs_array ?g ?x ≫= _) = _ /\ _ =>
    destruct (occs_array_maps g x) as (a4 & -> & A4) end.
  { intros _. destruct (bymonthday_expand_maps _ H1) as (l & -> & Hl). exists l. split; [done|].
    eapply Forall_impl; [exact Hl|exact month_occ_fit]. }
  rewrite res_bind_Ok.
  lazymatch goal with |- exists _, (occs_array ?g ?x ≫= _) = _ /\ _ =>
    destruct (occs_array_maps g x) as (a5 & -> & A5) end.
  { intros _. by apply byday_yearly_maps. }
  rewrite res_bind_Ok. apply clock_steps.
  case_match; [constructor; [by apply month_occ_fit|constructor]|].
  rewrite !concat_app. by repeat apply Forall_app_2.
Qed.

Lemma set_monthly_Ok c :
  month_fit c ->
  exists l, cal_obj_generate_set_monthly rd cal_obj_monthly_vtable c = Ok l /\ Forall occ_fit l.
Proof.
  intros Hc. assert (Forall month_fit [c]) as H1 by (by constructor).
  unfold cal_obj_generate_set_monthly. cbn [cal_obj_monthly_vtable bymonth_filter byweekno_filter
    byyearday_filter bymonthday_filter byday_filter byhour_filter byminute_filter bysecond_filter
    call_filter].
  map_step bymonth_filter_maps.
  destruct (negb (is_empty (bymonthday (recur rd))) && negb (is_empty (byday (recur rd)))).
  - destruct (bymonthday_expand_maps _ Hl) as (l1 & -> & L1). rewrite res_bind_Ok.
    destruct (byday_monthly_maps _ Hl) as (l2 & -> & L2). rewrite !res_bind_Ok.
    apply clock_steps. apply Forall_app_2; [|done]. eapply Forall_impl; [exact L1|exact month_occ_fit].
  - destruct (bymonthday_expand_maps _ Hl) as (l1 & -> & L1). rewrite res_bind_Ok.
    destruct (byday_monthly_maps _ L1) as (l2 & -> & L2). rewrite !res_bind_Ok. by apply clock_steps.
Qed.

Lemma date_fit_filter f :
  f = cal_obj_bymonth_filter \/ f = cal_obj_byyearday_filter \/ f = cal_obj_bymonthday_filter
    \/ f = cal_obj_byday_filter \/ f = cal_obj_byhour_filter \/ f = cal_obj_byminute_filter
    \/ f = cal_obj_bysecond_filter ->
  maps_to date_fit date_fit (f rd).
Proof. apply filter_maps. by intros c [_ ?]. Qed.

Lemma set_default_Ok f vt c :
  cal_obj_get_vtable f = Some vt -> f <> ICAL_YEARLY_RECURRENCE -> f <> ICAL_MONTHLY_RECURRENCE ->
  date_fit c ->
  exists l, cal_obj_generate_set_default rd vt c = Ok l /\ Forall occ_fit l.
Proof.
  intros Ev Hy Hm Hc. assert (Forall date_fit [c]) as H1 by (by constructor).
  assert (forall l, Forall date_fit l -> Forall occ_fit l) as Hlt.
  { intros l Hl. eapply Forall_impl; [exact Hl|]. auto. }
  destruct clock_expand_maps as (X1 & X2 & X3).
  assert (maps_to date_fit occ_fit (cal_obj_byday_expand_weekly rd)) as Xw.
  { eapply maps_to_weaken; [| |exact byday_weekly_maps]; auto. }
  assert (maps_to date_fit date_fit (cal_obj_bymonth_filter rd)) as F1 by (apply date_fit_filter; auto).
  assert (maps_to date_fit date_fit (cal_obj_byyearday_filter rd)) as F2 by (apply date_fit_filter; auto).
  assert (maps_to date_fit date_fit (cal_obj_bymonthday_filter rd)) as F3 by (apply date_fit_filter; auto).
  assert (maps_to date_fit date_fit (cal_obj_byday_filter rd)) as F4 by (apply date_fit_filter; auto 10).
  assert (maps_to date_fit date_fit (cal_obj_byhour_filter rd)) as F5 by (apply date_fit_filter; auto 10).
  assert (maps_to date_fit date_fit (cal_obj_byminute_filter rd)) as F6 by (apply date_fit_filter; auto 10).
  assert (maps_to date_fit date_fit (cal_obj_bysecond_filter rd)) as F7 by (apply date_fit_filter; auto 10).
  unfold cal_obj_generate_set_default.
  destruct f; try discriminate Ev; try done; injection Ev as <-;
    cbn [cal_obj_weekly_vtable cal_obj_daily_vtable cal_obj_hourly_vtable cal_obj_minutely_vtable
      cal_obj_secondly_vtable bymonth_filter byweekno_filter byyearday_filter bymonthday_filter
      byday_filter byhour_filter byminute_filter bysecond_filter call_filter call_filter_opt];
    map_step F1; rewrite res_bind_Ok.
  - map_step F2. map_step F3. map_step F4. map_step F5. map_step F6.
    destruct (F7 _ Hl4) as (l' & -> & Hl'). eauto.
  - map_step F2. map_step F3. map_step F4. map_step F5. map_step F6. apply X3. auto.
  - map_step F2. map_step F3. map_step F4. map_step F5.
    destruct (X2 l3) as (l' & -> & Hl'); [auto|]. rewrite res_bind_Ok. by apply X3.
  - map_step F2. map_step F3. map_step F4. apply clock_steps. auto.
  - rewrite !res_bind_Ok. map_step Xw. by apply clock_steps.
Qed.
End maps.

(** ** The loop over the periods *)

(** The positions from [c] on: each is the next one of the one before, and there
    is none after the last. *)
Inductive period_chain (vt : ECalRecurVTable) (rd : RecurData) (ee ie : option CalObjTime)
    : CalObjTime -> list CalObjTime -> Prop :=
  | chain_last c :
      find_next_position vt c ee rd ie = Ok None -> period_chain vt rd ee ie c [c]
  | chain_step c c' cs :
      find_next_position vt c ee rd ie = Ok (Some c') ->
      period_chain vt rd ee ie c' cs -> period_chain vt rd ee ie c (c :: cs).

(** The period numbers the loop cannot reach. *)
Definition period_limit (f : icalrecurrencetype_frequency) (e : CalObjTime) : Z :=
  match f with
  | ICAL_YEARLY_RECURRENCE => co_year e + 1
  | ICAL_MONTHLY_RECURRENCE => co_year e * 12 + co_month e + 1
  | ICAL_WEEKLY_RECURRENCE => serial e + 8
  | ICAL_DAILY_RECURRENCE => serial e + 1
  | ICAL_HOURLY_RECURRENCE => (serial e + 1) * 24
  | ICAL_MINUTELY_RECURRENCE => (serial e + 1) * 1440
  | ICAL_SECONDLY_RECURRENCE | ICAL_NO_RECURRENCE => (serial e + 1) * 86400
  end.

(** One round per period from the event to the end of the interval. *)
Definition expand_fuel (f : icalrecurrencetype_frequency) (es e : CalObjTime) : nat :=
  S (Z.to_nat (period_limit f e - period_no (period_type f) es)).

(** The end of an interval: a date; its clock may be the 23:59:61 of the chunks. *)
Definition interval_end_ok (e : CalObjTime) : Prop := date_ok e /\ 1902 <= co_year e < 9990.

Lemma date_compare_le c e type :
  date_ok c -> date_ok e -> period_type ICAL_DAILY_RECURRENCE = type \/ (2 < cmp_depth type)%nat ->
  cal_obj_time_compare c e type <= 0 -> serial c <= serial e.
Proof.
  intros Hc He Ht H.
  assert (cal_obj_date_only_compare_func c e <= 0) as Hd.
  { rewrite compare_lex in H. rewrite date_only_compare_lex.
    destruct type; cbn in Ht; try lia; try (destruct Ht; [discriminate|lia]);
      cbn [cmp_depth take fields lexcmp] in *; unfold zcmp in *; repeat case_match; lia. }
  rewrite date_only_compare_serial in Hd by done. unfold zcmp in Hd. repeat case_match; lia.
Qed.

Lemma position_Some ee e type c c' :
  position ee (Some e) type c = Some c' -> c' = c /\ cal_obj_time_compare c e type <= 0.
Proof.
  unfold position. cbn [past]. destruct (past ee _); [done|].
  destruct (Z.ltb_spec 0 (cal_obj_time_compare c e type)); [done|]. by intros [= ->].
Qed.

Lemma secondly_position_Some ee e c c' :
  secondly_position ee (Some e) c = Some c' -> c' = c /\ cal_obj_time_compare c e CALOBJ_SECOND <= 0.
Proof.
  unfold secondly_position. cbn [past]. destruct (past ee _); [done|].
  destruct (Z.leb_spec 0 (cal_obj_time_compare c e CALOBJ_SECOND)); [done|]. intros [= ->]. split; [done|lia].
Qed.

(** A position at which the functions do not stop is below the limit. *)
Lemma stop_limit f ee e c c' :
  f <> ICAL_NO_RECURRENCE -> interval_end_ok e ->
  0 <= co_month c < 12 ->
  (period_type f <> CALOBJ_YEAR -> period_type f <> CALOBJ_MONTH -> time_ok c) ->
  stop_position f ee (Some e) c = Some c' ->
  c' = c /\ period_no (period_type f) c < period_limit f e.
Proof.
  intros Hf [[He1 He2] He] Hm Hc H.
  destruct f; try done; cbn [stop_position period_type period_limit period_no] in *.
  - apply secondly_position_Some in H as [-> H]. split; [done|].
    destruct Hc as [Hd K]; [done..|].
    apply date_compare_le in H; [|done|by split|right; cbn; lia].
    unfold timeline, clock, clock_ok in *. lia.
  - apply position_Some in H as [-> H]. split; [done|]. destruct Hc as [Hd K]; [done..|].
    apply date_compare_le in H; [|done|by split|right; cbn; lia]. unfold clock_ok in *. lia.
  - apply position_Some in H as [-> H]. split; [done|]. destruct Hc as [Hd K]; [done..|].
    apply date_compare_le in H; [|done|by split|right; cbn; lia]. unfold clock_ok in *. lia.
  - apply position_Some in H as [-> H]. split; [done|]. destruct Hc as [Hd K]; [done..|].
    apply date_compare_le in H; [|done|by split|by left]. lia.
  - apply position_Some in H as [-> H]. split; [done|]. destruct Hc as [Hd K]; [done..|].
    apply date_compare_le in H; [|done|by split|by left]. lia.
  - apply position_Some in H as [-> H]. split; [done|]. destruct He2 as [He2 _].
    rewrite compare_lex in H. cbn [cmp_depth take fields lexcmp] in H. unfold zcmp in H.
    repeat case_match; lia.
  - apply position_Some in H as [-> H]. split; [done|].
    rewrite compare_lex in H. cbn [cmp_depth take fields lexcmp] in H. unfold zcmp in H.
    repeat case_match; lia.
Qed.

Lemma year_of_serial c y1 y2 :
  date_ok c -> Gregorian.year_base y1 < serial c <= Gregorian.year_base y2 -> y1 <= co_year c < y2.
Proof.
  intros [_ Hv] Hs. pose proof (Gregorian.before_month_bounds _ _ _ Hv).
  unfold serial, Gregorian.serial in Hs.
  pose proof (Gregorian.year_base_mono (co_year c) y1). pose proof (Gregorian.year_base_mono y2 (co_year c)).
  pose proof (Gregorian.ydays_range y2).
  destruct (Z.lt_total (co_year c) y2) as [?|[<-|?]]; destruct (Z.lt_ge_cases (co_year c) y1); lia.
Qed.

(** Between a working time and the limit, positions are working times. *)
Lemma position_ok_between f e c c' :
  f <> ICAL_NO_RECURRENCE -> interval_end_ok e -> position_ok f c ->
  0 <= co_month c' < 12 ->
  (period_type f <> CALOBJ_YEAR -> period_type f <> CALOBJ_MONTH -> time_ok c') ->
  same_below (period_type f) c c' ->
  period_no (period_type f) c <= period_no (period_type f) c' < period_limit f e ->
  position_ok f c'.
Proof.
  intros Hf [[_ He2] He] Hc Hm Hc' Hb' Hp.
  assert (serial e <= Gregorian.year_base 9990) as Hse.
  { pose proof (Gregorian.before_month_bounds _ _ _ He2). unfold serial, Gregorian.serial.
    pose proof (Gregorian.year_base_mono (co_year e) 9990). lia. }
  assert (Gregorian.year_base 9990 + 10 <= Gregorian.year_base 10000) as Hb by (vm_compute; discriminate).
  assert (f <> ICAL_YEARLY_RECURRENCE -> f <> ICAL_MONTHLY_RECURRENCE -> working_time c ->
    time_ok c' -> serial c <= serial c' < serial e + 8 -> working_time c') as Hw.
  { intros _ _ [Hw Hy] Ht Hs. split; [done|].
    apply (year_of_serial c' 1902 10000); [apply Ht|].
    pose proof (Gregorian.before_month_bounds _ _ _ (proj2 (proj1 Hw))) as Hbm.
    assert (Gregorian.year_base (co_year c) < serial c)
      by (unfold serial, Gregorian.serial; lia).
    pose proof (Gregorian.year_base_mono 1902 (co_year c)). pose proof (Gregorian.ydays_range 1902).
    destruct (Z.eq_dec (co_year c) 1902) as [Ey|]; [rewrite Ey in *|]; lia. }
  destruct f; try done; cbn [period_type period_no period_limit position_ok] in *;
    try (destruct He2 as [Hem _], Hc as (Hy & Hmc & Hd & K), Hb' as [Hb' _]; injection Hb' as ?;
         unfold clock_ok in *; repeat split; lia);
    (apply Hw; [done|done|done|by apply Hc'|]);
    specialize (Hc' ltac:(done) ltac:(done)); destruct Hc' as [_ K'], Hc as [[_ K] _];
    unfold timeline, clock, clock_ok in *; lia.
Qed.

(** Selecting and trimming return elements of the set; adjusting the day makes
    them well-formed. *)
Lemma option_list_subset {A} (l : list A) i x : x ∈ option_list (l !! i) -> x ∈ l.
Proof.
  destruct (l !! i) as [y|] eqn:E; [|by intros []%not_elem_of_nil].
  intros ->%list_elem_of_singleton. by eapply list_elem_of_lookup_2.
Qed.

Lemma bysetpos_subset r occs c : c ∈ cal_obj_bysetpos_filter r occs -> c ∈ occs.
Proof.
  unfold cal_obj_bysetpos_filter. case_match; [done|]. rewrite bysetpos_loop_spec.
  intros (k & Hk & Hin)%list_elem_of_In%in_concat. apply list_elem_of_In in Hk, Hin.
  apply list_elem_of_fmap in Hk as (p & -> & _). revert Hin. unfold nth_occ.
  destruct (0 <? p); [apply option_list_subset|].
  destruct (p <? 0); [|by intros []%not_elem_of_nil].
  intros Hin%option_list_subset. by rewrite elem_of_reverse in Hin.
Qed.

Lemma drop_while_subset (p : CalObjTime -> bool) l c : c ∈ drop_while p l -> c ∈ l.
Proof.
  induction l as [|x l IH]; [done|]. cbn. destruct (p x); [|done]. intros H. right. by apply IH.
Qed.

Lemma trim_after_subset ee occs c : c ∈ trim_after ee occs -> c ∈ occs.
Proof.
  unfold trim_after. destruct ee; [|done].
  rewrite elem_of_reverse. intros H%drop_while_subset. by rewrite elem_of_reverse in H.
Qed.

Lemma clamp_time_ok c : occ_fit c -> time_ok (clamp_day c).
Proof.
  intros (Hy & Hm & Hd & K). pose proof (Gregorian.mdays_range (co_year c) (co_month c)).
  unfold clamp_day. case_decide as Hex; unfold day_exists in Hex.
  - split; [|done]. split; [done|]. by split.
  - split; [|exact K]. split; [exact Hy|]. split; [exact Hm|].
    cbn [co_year co_month co_day set_day]. rewrite u8_small; lia.
Qed.

Section loop.
Context {G : GDate} `{!GDateLaws G} {L : Libical} {Q : QSort} `{!QSortLaws Q}.
Context (f : icalrecurrencetype_frequency) (vt : ECalRecurVTable).
Context (r : ECalRecurrence) (rd : RecurData) (ee : option CalObjTime) (e : CalObjTime).
Hypothesis (Hvt : cal_obj_get_vtable f = Some vt) (Hf : freq r = f).
Hypothesis (Hrd : tables_match r rd) (Hr : rule_valid r).
Hypothesis (Ho : 0 <= weekday_offset rd < 7) (He : interval_end_ok e).

Let Er2 : recur rd = r := tm_recur r rd Hrd.

Lemma freq_not_none : f <> ICAL_NO_RECURRENCE.
Proof. intros ->. discriminate Hvt. Qed.

Lemma interval_valid : 0 < interval (recur rd) <= 32767.
Proof. rewrite Er2. apply Hr. Qed.

(** The set of a period is defined and well-formed. *)
Lemma period_occs_Ok c :
  position_ok f c -> exists l, period_occs vt ee rd c = Ok l /\ Forall time_ok l.
Proof.
  intros Hc. unfold period_occs. rewrite Er2, Hf.
  assert (exists l, match f with
     | ICAL_YEARLY_RECURRENCE => cal_obj_generate_set_yearly rd vt c
     | ICAL_MONTHLY_RECURRENCE => cal_obj_generate_set_monthly rd vt c
     | _ => cal_obj_generate_set_default rd vt c
     end = Ok l /\ Forall occ_fit l) as (l & -> & Hl).
  { assert (forall c, working_time c -> date_fit c) as Hw.
    { intros c0 [Ht Hy]. split; [lia|done]. }
    assert (forall c, 1902 <= co_year c < 10000 /\ 0 <= co_month c < 12 /\ 1 <= co_day c /\
      clock_ok c -> month_fit c) as Hmf.
    { intros c0 (Hy & Hm & Hd & K). split; [lia|by split]. }
    pose proof freq_not_none as Hn.
    destruct f; try done; cbn [position_ok] in Hc.
    1-5: by apply (set_default_Ok r rd Hrd Hr _ vt c Hvt); [| |apply Hw].
    - injection Hvt as <-. apply (set_monthly_Ok r rd Hrd Hr). by apply Hmf.
    - injection Hvt as <-. apply (set_yearly_Ok r rd Hrd Hr Ho). by apply Hmf. }
  rewrite res_bind_Ok.
  assert (Forall occ_fit (cal_obj_sort_occurrences l)) as Hsort.
  { unfold cal_obj_sort_occurrences.
    by rewrite (qsort_perm cal_obj_time_compare_func l compare_func_preorder). }
  destruct (dedup_loop_Ok None (cal_obj_sort_occurrences l)) as (l' & El & Hex & Hin).
  { eapply Forall_impl; [exact Hsort|]. by intros c0 (_ & Hm & _). }
  unfold cal_obj_remove_duplicates_and_invalid_dates. rewrite El.
  eexists. split; [reflexivity|]. rewrite Forall_forall in *. intros d Hd.
  apply trim_after_subset, bysetpos_subset in Hd.
  destruct (Hin d Hd) as (c0 & Hc0 & ->). by apply clamp_time_ok, Hsort.
Qed.

(** The next position, if there is one, is later and below the limit. *)
Lemma next_Ok c :
  position_ok f c ->
  exists o, find_next_position vt c ee rd (Some e) = Ok o /\
    forall c', o = Some c' -> position_ok f c' /\
      period_no (period_type f) c < period_no (period_type f) c' < period_limit f e.
Proof.
  intros Hc. pose proof interval_valid as Hi. pose proof freq_not_none as Hn.
  destruct (next_position rd ee (Some e) Hi f vt c Hvt Hc) as (c' & Hp & Hb & [Hm Hy] & Ht & Hnext).
  assert (period_no (period_type f) c < period_no (period_type f) c') as Hlt.
  { rewrite Hp. unfold period_step. destruct f; lia. }
  assert (period_no (period_type f) c' < period_limit f e -> position_ok f c' /\
    period_no (period_type f) c < period_no (period_type f) c' < period_limit f e) as Hdone.
  { intros H. split; [|lia]. apply (position_ok_between f e c); (done || lia). }
  destruct (decide (f = ICAL_WEEKLY_RECURRENCE)) as [Ew|Ew].
  - rewrite Ew in *. injection Hvt as <-. cbn [period_type period_step position_ok period_limit] in *.
    change (find_next_position _ c ee rd (Some e)) with (cal_obj_weekly_find_next_position c ee rd (Some e)).
    unfold cal_obj_weekly_find_next_position, weekly_position.
    destruct (next_days c (7 * interval (recur rd))) as (c2 & E & Hc2 & Hp2 & Hb2); [done|lia|].
    rewrite (Z.mul_comm _ 7), E, res_bind_Ok. cbn [period_no] in *.
    pose proof (working_serial c Hc).
    destruct (add_days_spec c2 (- weekday_offset rd)) as (ws & Ews & Hdw & _ & Es);
      [apply Hc2|apply serial_in_range_working; lia|].
    rewrite Ews, res_bind_Ok. eexists. split; [reflexivity|]. intros c3 Hpos.
    destruct (past ee _); [done|]. cbn [past] in Hpos.
    destruct (Z.ltb_spec 0 (cal_obj_time_compare ws e CALOBJ_DAY)) as [|Hle]; [done|].
    injection Hpos as <-. apply date_compare_le in Hle; [|done|apply He|by left].
    destruct (position_ok_between ICAL_WEEKLY_RECURRENCE e c c2); try done.
    + destruct Hc2 as [[_ [? _]] _]. done.
    + cbn [period_type period_no period_limit]. lia.
    + split; [by split|lia].
  - rewrite Hnext by done. eexists. split; [reflexivity|]. intros c3 Hpos.
    apply stop_limit in Hpos as [-> Hlim]; [by apply Hdone|done..].
Qed.

Lemma expand_loop_spec fuel c all :
  position_ok f c -> period_no (period_type f) c < period_limit f e ->
  period_limit f e - period_no (period_type f) c <= Z.of_nat fuel ->
  exists cs occss, period_chain vt rd ee (Some e) c cs /\
    Forall2 (fun c l => period_occs vt ee rd c = Ok l) cs occss /\
    Forall time_ok (concat occss) /\
    expand_loop fuel vt ee rd (Some e) c all = Ok (all ++ concat occss).
Proof.
  revert c all. induction fuel as [|fuel IH]; intros c all Hc Hlim Hfuel; [lia|].
  cbn [expand_loop]. destruct (period_occs_Ok c Hc) as (l & El & Hl). rewrite El, res_bind_Ok.
  destruct (next_Ok c Hc) as (o & Eo & Hnext). rewrite Eo, res_bind_Ok. destruct o as [c'|].
  - destruct (Hnext c' eq_refl) as [Hc' Hlt].
    destruct (IH c' (all ++ l) Hc') as (cs & occss & Hch & H2 & Hok & E); [lia|lia|].
    exists (c :: cs), (l :: occss). split; [by eapply chain_step|].
    split; [by constructor|]. split; [by apply Forall_app_2|]. rewrite E. cbn [concat]. by rewrite app_assoc.
  - exists [c], [l]. split; [by apply chain_last|]. split; [by repeat constructor|].
    cbn [concat]. rewrite !app_nil_r. done.
Qed.
End loop.

(** ** The whole expansion *)

(** For MINUTELY and SECONDLY rules the start must be computed exactly. *)
Definition expand_exact (f : icalrecurrencetype_frequency) (es iv : CalObjTime) : Prop :=
  f = ICAL_WEEKLY_RECURRENCE \/ f = ICAL_NO_RECURRENCE \/ start_exact f es iv.

Section expand.
Context {G : GDate} `{!GDateLaws G} {L : Libical} {Q : QSort} `{!QSortLaws Q}.
Context (r : ECalRecurrence) (rd : RecurData) (es iv e : CalObjTime) (ee : option CalObjTime).
Hypothesis (Hrd : tables_match r rd) (Hr : rule_valid r) (He : interval_end_ok e).
Hypothesis (Hes : working_time es) (Hiv : working_time iv).
Hypothesis (Hoff : weekday_offset rd = cal_obj_time_weekday_offset es (week_start_day r)).

Lemma working_position f : f <> ICAL_NO_RECURRENCE -> position_ok f es.
Proof.
  intros Hf. pose proof Hes as [[[Hy1 [Hm Hd]] K] Hy].
  destruct f; try done; cbn [position_ok]; repeat split; (apply K || lia).
Qed.

Lemma offset_range : 0 <= weekday_offset rd < 7.
Proof.
  rewrite Hoff, weekday_offset_spec by (apply Hes || apply Hr). apply Z.mod_pos_bound. lia.
Qed.

(** The start, if there is one, is a good position not before the event. *)
Lemma start_Ok f vt :
  cal_obj_get_vtable f = Some vt -> expand_exact f es iv ->
  exists o, find_start_position vt es ee rd iv (Some e) = Ok o /\
    forall c, o = Some c -> position_ok f c /\
      period_no (period_type f) es <= period_no (period_type f) c < period_limit f e.
Proof.
  intros Hvt Hx. assert (recur rd = r) as Er by apply Hrd.
  assert (f <> ICAL_NO_RECURRENCE) as Hn by (intros ->; discriminate Hvt).
  assert (0 < interval (recur rd) <= 32767) as Hi by (rewrite Er; apply Hr).
  destruct (decide (f = ICAL_WEEKLY_RECURRENCE)) as [->|Hw].
  - injection Hvt as <-. pose proof offset_range.
    destruct (weekly_start rd es iv ee (Some e) Hes Hiv Hi) as
      (c & ws & Hd & Hs & Hser & (k & Hk & Ek & _) & Hdw & Ews & E);
      [rewrite Er; apply Hr|by rewrite Er|].
    eexists. split; [exact E|]. intros c' Hc'.
    destruct (disjoint_from _ _ _ _ _); [done|].
    destruct (position ee (Some e) CALOBJ_DAY ws) as [ws'|] eqn:Ep; [|done]. injection Hc' as <-.
    apply position_Some in Ep as [_ Hle]. apply date_compare_le in Hle; [|done|apply He|by left].
    pose proof (week_no_bounds rd c). cbn [period_type period_no period_limit].
    assert (serial es <= serial c) by nia.
    split; [|lia]. apply (position_ok_between ICAL_WEEKLY_RECURRENCE e es c); try done.
    + destruct Hd as [_ [? _]]. done.
    + intros _ _. split; [done|]. eapply same_clock_ok; [exact Hs|apply Hes].
    + by apply same_clock_below.
    + cbn [period_type period_no period_limit]. lia.
  - destruct Hx as [?|[?|Hx]]; [done..|].
    destruct (find_start_exact G _ f vt rd es iv ee (Some e))
      as (c & ((k & Hk & Ek & _) & Hb & [Hy Hm] & Ht) & E); [done..|].
    eexists. split; [exact E|]. intros c' Hc'.
    apply stop_limit in Hc' as [-> Hlim]; [|done..].
    assert (period_no (period_type f) es <= period_no (period_type f) c) by nia.
    split; [|lia]. apply (position_ok_between f e es c); try done. by apply working_position.
Qed.
End expand.

Lemma expand_total (G : GDate) (GL : GDateLaws G) (L : Libical)
    (Q : QSort) (QL : QSortLaws Q) (r : ECalRecurrence) (es iv e : CalObjTime)
    (zone : option icaltimezone) (fuel : nat)
    (Hr : rule_valid r) (Hes : working_time es) (Hiv : working_time iv) (He : interval_end_ok e)
    (Hx : expand_exact (freq r) es iv) (Hfuel : (expand_fuel (freq r) es e <= fuel)%nat) :
  exists occs finished,
    cal_obj_expand_recurrence fuel es zone r iv (Some e) = Ok (occs, finished) /\
    Forall time_ok occs /\
    (occs = [] \/
     exists vt rd ee c cs occss,
       cal_obj_get_vtable (freq r) = Some vt /\
       cal_obj_initialize_recur_data r es = Ok rd /\
       find_start_position vt es ee rd iv (Some e) = Ok (Some c) /\
       period_chain vt rd ee (Some e) c cs /\
       Forall2 (fun c l => period_occs vt ee rd c = Ok l) cs occss /\
       occs = concat occss).
Proof.
  unfold cal_obj_expand_recurrence.
  destruct (cal_obj_get_vtable (freq r)) as [vt|] eqn:Hvt; [|eauto 10].
  destruct (initialize_Ok r es (rv_bounds r Hr)) as (rd & -> & Hrd & Hoff). rewrite res_bind_Ok.
  match goal with |- context [past ?x] => set (ee := x) end.
  destruct (past ee _); [eauto 10|].
  destruct (start_Ok r rd es iv e ee Hrd Hr He Hes Hiv Hoff (freq r) vt Hvt Hx) as (o & Eo & Hstart).
  rewrite Eo, res_bind_Ok. destruct o as [c|]; [|eauto 10].
  destruct (Hstart c eq_refl) as [Hc Hlim]. unfold expand_fuel in Hfuel.
  destruct (expand_loop_spec (freq r) vt r rd ee e Hvt eq_refl Hrd Hr
    (offset_range r rd es Hr Hes Hoff) He fuel c [] Hc) as (cs & occss & Hch & H2 & Hok & E); [lia|lia|].
  rewrite E, res_bind_Ok. eexists _, _. split; [reflexivity|]. split; [exact Hok|]. right.
  exists vt, rd, ee, c, cs, occss. repeat split; try done.
Qed.

(** C1: expanding a valid rule from an event over a bounded interval, in the years 1902
    to 9989, never runs into undefined behaviour and terminates: with one round of fuel per period
    between the event and the end of the interval it returns, and its result is
    well-formed times: none, or the concatenation of the sets of all the periods from the
    start position on, each the next of the one before.  For a MINUTELY or SECONDLY rule this is
    shown only if the interval starts in the same hour of the day as the event and at most
    2^31 - 40000 seconds after it: otherwise the code computes a wrong start position
    ([minutely_secondly_start_wrong]), which may be before the event, and before 1900 if the distance in seconds
    wraps, where the code does not know the lengths of months.  The other frequencies have
    no such condition. *)
Theorem expand_recurrence_total (G : GDate) (GL : GDateLaws G) (L : Libical)
    (Q : QSort) (QL : QSortLaws Q) (r : ECalRecurrence) (es iv e : CalObjTime)
    (zone : option icaltimezone) (fuel : nat)
    (Hr : rule_valid r) (Hes : working_time es) (Hiv : working_time iv) (He : interval_end_ok e)
    (Hx : freq r = ICAL_MINUTELY_RECURRENCE \/ freq r = ICAL_SECONDLY_RECURRENCE ->
          co_hour iv = co_hour es /\ timeline iv - timeline es <= 2 ^ 31 - 40000)
    (Hfuel : (expand_fuel (freq r) es e <= fuel)%nat) :
  exists occs finished,
    cal_obj_expand_recurrence fuel es zone r iv (Some e) = Ok (occs, finished) /\
    Forall time_ok occs /\
    (occs = [] \/
     exists vt rd ee c cs occss,
       cal_obj_get_vtable (freq r) = Some vt /\
       cal_obj_initialize_recur_data r es = Ok rd /\
       find_start_position vt es ee rd iv (Some e) = Ok (Some c) /\
       period_chain vt rd ee (Some e) c cs /\
       Forall2 (fun c l => period_occs vt ee rd c = Ok l) cs occss /\
       occs = concat occss).
Proof.
  apply expand_total; try done. unfold expand_exact, start_exact. destruct (freq r) eqn:Ef; auto.
Qed.

(** Every other Monday and Friday of January 2007. *)
Lemma expand_recurrence_total_witness :
  let r := mkECalRecurrence ICAL_WEEKLY_RECURRENCE 2 0 0 [] [] [] [] [0; 0; 4; 0] [] [] [] [] in
  let es := mkCalObjTime 2007 0 5 9 0 0 false in
  let e := mkCalObjTime 2007 0 31 23 59 61 false in
  exists occs finished,
    @cal_obj_expand_recurrence GDate_gregorian Libical_utc QSort_merge
      (expand_fuel ICAL_WEEKLY_RECURRENCE es e) es None r es (Some e) = Ok (occs, finished).
Proof.
  intros r es e.
  destruct (expand_recurrence_total GDate_gregorian _ Libical_utc QSort_merge _ r es es e None
    (expand_fuel ICAL_WEEKLY_RECURRENCE es e)) as (occs & fin & E & _).
  - split; [|concrete|concrete|concrete|concrete|concrete|concrete|concrete].
    split; simpl; repeat constructor; lia.
  - concrete.
  - concrete.
  - concrete.
  - intros [H|H]; discriminate H.
  - reflexivity.
  - exists occs, fin. exact E.
Defined.

(** ** The end of the rule *)

Lemma drop_while_reverse (p : CalObjTime -> bool) l :
  reverse (drop_while p (reverse l)) =
  match l with
  | [] => []
  | c :: l' =>
      match reverse (drop_while p (reverse l')) with
      | [] => if p c then [] else [c]
      | k => c :: k
      end
  end.
Proof.
  destruct l as [|c l]; [done|]. rewrite reverse_cons.
  assert (forall k, drop_while p (k ++ [c]) =
    match drop_while p k with [] => if p c then [] else [c] | k' => k' ++ [c] end) as H.
  { induction k as [|x k IH]; cbn; [by destruct (p c)|].
    destruct (p x); [exact IH|done]. }
  rewrite H. destruct (drop_while p (reverse l)) as [|x k]; [by destruct (p c)|].
  rewrite reverse_app, (reverse_cons k x). cbn. destruct (reverse k ++ [x]) eqn:E; [|done].
  by apply app_nil in E as [_ ?].
Qed.

(** Dropping the occurrences after the end of the rule keeps, of a sorted
    set, exactly the times up to and including the end. *)
Theorem trim_after_spec (e : CalObjTime) (occs : list CalObjTime) (Hs : sorted_times occs) :
  trim_after (Some e) occs = filter (fun c => cal_obj_time_compare_func c e <= 0) occs.
Proof.
  unfold trim_after. induction occs as [|c occs IH]; [done|].
  rewrite drop_while_reverse, filter_cons. apply StronglySorted_inv in Hs as [Hs Hc].
  rewrite (IH Hs).
  destruct (filter _ occs) as [|d k] eqn:E.
  - case_decide; destruct (Z.ltb_spec 0 (cal_obj_time_compare_func c e)); (done || lia).
  - rewrite decide_True; [done|].
    assert (d ∈ filter (fun c => cal_obj_time_compare_func c e <= 0) occs) as Hd
      by (rewrite E; by left).
    apply list_elem_of_filter in Hd as [Hd Hin]. rewrite Forall_forall in Hc.
    by apply (cmp_trans c d e); [apply Hc|].
Qed.

Lemma trim_after_spec_witness :
  let c d := mkCalObjTime 2007 0 d 9 0 0 false in
  trim_after (Some (c 10)) [c 5; c 10; c 25] = [c 5; c 10].
Proof.
  intros c. rewrite trim_after_spec.
  - reflexivity.
  - repeat constructor; vm_compute; discriminate.
Defined.

(** BYSETPOS is applied first and keeps the order of its list, so with
    BYSETPOS=-1,1 the set is no longer sorted and an occurrence after the UNTIL
    date of the rule is generated: here 25 January with UNTIL 10 January. *)
Theorem bysetpos_passes_until :
  let r := mkECalRecurrence ICAL_MONTHLY_RECURRENCE 1 1168387200 0 [] [] [] [5; 25] [] [] [] [] [-1; 1] in
  let c d := mkCalObjTime 2007 0 d 9 0 0 false in
  @cal_obj_expand_recurrence GDate_gregorian Libical_utc QSort_merge 10 (c 1) None r (c 1)
    (Some (mkCalObjTime 2007 11 31 23 59 61 false)) = Ok ([c 25; c 5], true) /\
  @cal_object_time_from_time Libical_utc 1168387200 None = mkCalObjTime 2007 0 10 0 0 0 false.
Proof. split; vm_compute; reflexivity. Qed.
