(* ===== verification/RecurInstances.v ===== *)
(** * Generating the instances of a component ([e-cal-recur.c])

    [generate_instances_for_chunk] produces one year of instances and hands
    them to the caller's callback; [e_cal_recur_generate_instances_of_rule]
    runs it over the years of the interval; [e_cal_recur_ensure_end_dates]
    computes the end of the rules that use COUNT by counting instances.

    The callback is a function from the start and end of an instance and the
    caller's data to the value it returns and the new data. *)

From S2P Require Import Prelude CalTimeUtil CalObjTime Libical RecurRule RecurFilters RecurSteps RecurEngine.
From stdpp Require Import strings.
#[local] Open Scope Z_scope.

(** [struct icaldurationtype] of libical. *)
Record icaldurationtype := mkIcalDuration {
  dur_days : Z;
  dur_weeks : Z;
  dur_hours : Z;
  dur_minutes : Z;
  dur_seconds : Z;
}.

(** [MAX_YEAR] *)
Definition MAX_YEAR : Z := 2037.

Section instances.
Context {G : GDate} {L : Libical} {Q : QSort}.

(** The union of [ECalComponentPeriod] with its [type] tag. *)
Inductive period_end :=
  | PERIOD_DATETIME (end_ : icaltimetype)
  | PERIOD_DURATION (duration : icaldurationtype).

Record ECalComponentPeriod := mkPeriod {
  period_start : icaltimetype;
  period_u : period_end;
}.

Record CalObjRecurrenceDate := mkRecurrenceDate {
  rdate_start : CalObjTime;
  rdate_period : ECalComponentPeriod;
}.

Record ECalComponentDateTime := mkDateTime {
  cdt_value : option icaltimetype;
  cdt_tzid : option string;
}.

(** What the accessors of [e-cal-component.c] give for a component. *)
Record ECalComponent := mkComponent {
  comp_is_journal : bool;
  comp_is_instance : bool;
  comp_dtstart : ECalComponentDateTime;
  comp_dtend : ECalComponentDateTime;
  comp_rrules : list icalproperty;
  comp_rdates : list ECalComponentPeriod;
  comp_exrules : list icalproperty;
  comp_exdates : list ECalComponentDateTime;
}.

Definition e_cal_component_has_recurrences (comp : ECalComponent) : bool :=
  negb (is_empty (comp_rdates comp)) || negb (is_empty (comp_rrules comp)).
Definition e_cal_component_has_exceptions (comp : ECalComponent) : bool :=
  negb (is_empty (comp_exdates comp)) || negb (is_empty (comp_exrules comp)).

(** The binary search of [cal_object_get_rdate_end]: the element last looked
    at ([NULL] if none) and the last comparison. *)
Fixpoint rdate_search (fuel : nat) (occ : CalObjTime) (rdate_periods : list CalObjRecurrenceDate)
    (lower upper : Z) (rdate : option CalObjRecurrenceDate) (cmp : Z)
    : res (option CalObjRecurrenceDate * Z) :=
  match fuel with
  | O => NoFuel
  | S fuel =>
      if lower <? upper then
        let middle := Z.shiftr (lower + upper) 1 in
        r ← arr_get rdate_periods middle;
        let cmp := cal_obj_time_compare_func occ (rdate_start r) in
        if cmp =? 0 then Ok (Some r, cmp)
        else if cmp <? 0 then rdate_search fuel occ rdate_periods lower middle (Some r) cmp
        else rdate_search fuel occ rdate_periods (middle + 1) upper (Some r) cmp
      else Ok (rdate, cmp)
  end.

(** [None] for [FALSE]; [Some occ] for [TRUE] and the new value of [*occ]. *)
Definition cal_object_get_rdate_end (occ : CalObjTime)
    (rdate_periods : list CalObjRecurrenceDate) : res (option CalObjTime) :=
  let len := Z.of_nat (length rdate_periods) in
  '(rdate, cmp) ← rdate_search (S (length rdate_periods)) occ rdate_periods 0 len None 0;
  if cmp =? 0 then Ok None
  else
    match rdate with
    | None => Undef
    | Some rdate =>
        match period_u (rdate_period rdate) with
        | PERIOD_DATETIME e =>
            Ok (Some (mkCalObjTime (u16 (it_year e)) (u8 (it_month e - 1)) (u8 (it_day e))
              (u8 (it_hour e)) (u8 (it_minute e)) (u8 (it_second e)) false))
        | PERIOD_DURATION d =>
            occ ← cal_obj_time_add_days occ (s32 (u32 (dur_weeks d * 7 + dur_days d)));
            occ ← cal_obj_time_add_hours occ (s32 (u32 (dur_hours d)));
            occ ← cal_obj_time_add_minutes occ (s32 (u32 (dur_minutes d)));
            occ ← cal_obj_time_add_seconds occ (s32 (u32 (dur_seconds d)));
            Ok (Some occ)
        end
    end.

(** The RDATE loop: [cotime] of an RDATE, and the loop that appends to
    [occs] and [rdate_periods] and clears [finished]. *)
Definition rdate_cotime (p : ECalComponentPeriod) : CalObjTime :=
  let s := period_start p in
  mkCalObjTime (u16 (it_year s)) (u8 (it_month s - 1)) (u8 (it_day s))
    (u8 (it_hour s)) (u8 (it_minute s)) (u8 (it_second s)) false.

Definition rdate_has_end (p : ECalComponentPeriod) : bool :=
  match period_u p with
  | PERIOD_DATETIME e => negb (it_second e =? -1)
  | PERIOD_DURATION _ => true
  end.

Fixpoint rdates_loop (rdates : list ECalComponentPeriod) (chunk_end : CalObjTime)
    (st : list CalObjTime * list CalObjRecurrenceDate * bool)
    : list CalObjTime * list CalObjRecurrenceDate * bool :=
  match rdates with
  | [] => st
  | p :: rdates =>
      let '(occs, rdate_periods, finished) := st in
      let cotime := rdate_cotime p in
      if 0 <=? cal_obj_time_compare_func cotime chunk_end
      then rdates_loop rdates chunk_end (occs, rdate_periods, false)
      else if rdate_has_end p then
        let cotime := set_flags true cotime in
        rdates_loop rdates chunk_end
          (occs ++ [cotime], rdate_periods ++ [mkRecurrenceDate cotime p], finished)
      else rdates_loop rdates chunk_end (occs ++ [cotime], rdate_periods, finished)
  end.

(** The element an EXDATE adds to the exceptions; [Undef] if it has no value. *)
Definition exdate_cotime (cdt : ECalComponentDateTime) : res CalObjTime :=
  match cdt_value cdt with
  | None => Undef
  | Some v =>
      let y := u16 (it_year v) in
      let m := u8 (it_month v - 1) in
      let d := u8 (it_day v) in
      Ok (if it_is_date v then mkCalObjTime y m d 0 0 0 true
          else mkCalObjTime y m d (u8 (it_hour v)) (u8 (it_minute v)) (u8 (it_second v)) false)
  end.

(** The loop over RRULEs or EXRULEs: the occurrences of all the rules, and
    whether every rule is finished. *)
Fixpoint rules_loop (fuel : nat) (rules : list icalproperty) (event_start : CalObjTime)
    (zone : option icaltimezone) (chunk_start chunk_end : CalObjTime) (convert_end_date : bool)
    : res (list CalObjTime * bool) :=
  match rules with
  | [] => Ok ([], true)
  | prop :: rules =>
      let r := e_cal_recur_from_icalproperty prop false zone convert_end_date in
      '(tmp_occs, rule_finished) ←
        cal_obj_expand_recurrence fuel event_start zone r chunk_start (Some chunk_end);
      '(occs, finished) ←
        rules_loop fuel rules event_start zone chunk_start chunk_end convert_end_date;
      Ok (tmp_occs ++ occs, rule_finished && finished)
  end.

Definition cotime_to_tt (occ : CalObjTime) : icaltimetype :=
  let z := icaltime_null_time in
  mkIcalTime (co_year occ) (co_month occ + 1) (co_day occ)
    (co_hour occ) (co_minute occ) (co_second occ) (it_is_date z) (it_rest z).

(** Sorted insertion order of [qsort (rdate_periods, ...)]: the comparison
    looks at the leading [CalObjTime]. *)
Definition rdate_compare (r1 r2 : CalObjRecurrenceDate) : Z :=
  cal_obj_time_compare_func (rdate_start r1) (rdate_start r2).

(** The end of an occurrence: that of its RDATE if it has one, else the
    occurrence plus the duration of the event. *)
Definition occ_end (rdate_periods : list CalObjRecurrenceDate)
    (duration_days duration_seconds : Z) (occ : CalObjTime) : res CalObjTime :=
  rdate_end ← (if co_flags occ then cal_object_get_rdate_end occ rdate_periods else Ok None);
  match rdate_end with
  | Some occ => Ok occ
  | None =>
      occ ← cal_obj_time_add_days occ duration_days;
      cal_obj_time_add_seconds occ duration_seconds
  end.

(** The first part of [generate_instances_for_chunk], up to the loop that calls
    the callback: [occs] without the exceptions, [rdate_periods] and [finished]. *)
Definition chunk_occurrences (fuel : nat) (zone : option icaltimezone)
    (rrules : list icalproperty) (rdates : list ECalComponentPeriod)
    (exrules : list icalproperty) (exdates : list ECalComponentDateTime) (single_rule : bool)
    (event_start chunk_start chunk_end : CalObjTime) (convert_end_date : bool)
    : res (list CalObjTime * list CalObjRecurrenceDate * bool) :=
  let '(occs0, finished0) :=
    if single_rule then ([], true)
    else if 0 <=? cal_obj_time_compare_func event_start chunk_end then ([], false)
    else if 0 <=? cal_obj_time_compare_func event_start chunk_start then ([event_start], true)
    else ([], true) in
  '(occs1, finished1) ←
    rules_loop fuel rrules event_start zone chunk_start chunk_end convert_end_date;
  let '(occs, rdate_periods, finished) :=
    rdates_loop rdates chunk_end (occs0 ++ occs1, [], finished0 && finished1) in
  '(ex_occs0, _) ←
    rules_loop fuel exrules event_start zone chunk_start chunk_end convert_end_date;
  ex_occs1 ← foldM (fun cdt l => c ← exdate_cotime cdt; Ok (l ++ [c])) exdates [];
  let occs := cal_obj_sort_occurrences occs in
  let ex_occs := cal_obj_sort_occurrences (ex_occs0 ++ ex_occs1) in
  let rdate_periods := qsort rdate_compare rdate_periods in
  occs ← cal_obj_remove_exceptions occs ex_occs;
  Ok (occs, rdate_periods, finished).

Section callback.
Context {S : Type} (cb : Z -> Z -> S -> bool * S).

(** The loop that calls the callback: [cb_status], [finished], the data. *)
Fixpoint instances_loop (occs : list CalObjTime) (comp_dtstart : Z)
    (zone : option icaltimezone) (interval_start : Z) (chunk_start chunk_end : CalObjTime)
    (rdate_periods : list CalObjRecurrenceDate) (duration_days duration_seconds : Z)
    (finished : bool) (s : S) : res (bool * bool * S) :=
  match occs with
  | [] => Ok (true, finished, s)
  | occ :: occs =>
      let continue := instances_loop occs comp_dtstart zone interval_start chunk_start
        chunk_end rdate_periods duration_days duration_seconds finished in
      let start_time := icaltime_as_timet_with_zone (cotime_to_tt occ) zone in
      if start_time =? -1 then Ok (true, true, s)
      else if (start_time <? comp_dtstart)
              || (cal_obj_time_compare_func occ chunk_start <? 0)
              || (0 <? cal_obj_time_compare_func occ chunk_end)
      then continue s
      else
        occ ← occ_end rdate_periods duration_days duration_seconds occ;
        let end_time := icaltime_as_timet_with_zone (cotime_to_tt occ) zone in
        if end_time =? -1 then Ok (true, true, s)
        else if end_time <=? interval_start then continue s
        else
          let '(cb_status, s) := cb start_time end_time s in
          if cb_status : bool then continue s else Ok (false, finished, s)
  end.

Definition generate_instances_for_chunk (fuel : nat) (comp_dtstart : Z)
    (zone : option icaltimezone) (rrules : list icalproperty)
    (rdates : list ECalComponentPeriod) (exrules : list icalproperty)
    (exdates : list ECalComponentDateTime) (single_rule : bool) (event_start : CalObjTime)
    (interval_start : Z) (chunk_start chunk_end : CalObjTime)
    (duration_days duration_seconds : Z) (convert_end_date : bool) (s : S) : res (bool * S) :=
  '(occs, rdate_periods, finished) ←
    chunk_occurrences fuel zone rrules rdates exrules exdates single_rule event_start
      chunk_start chunk_end convert_end_date;
  '(cb_status, finished, s) ←
    instances_loop occs comp_dtstart zone interval_start chunk_start chunk_end
      rdate_periods duration_days duration_seconds finished s;
  Ok (cb_status && negb finished, s).

(** The bounds of the chunk for [year]; [interval_end] is [None] if the
    end is -1. *)
Definition chunk_start_of (interval_start : CalObjTime) (year : Z) : CalObjTime :=
  if year =? co_year interval_start then set_year year interval_start
  else mkCalObjTime (u16 year) 0 1 0 0 0 (co_flags interval_start).

Definition chunk_end_of (interval_end : option CalObjTime) (year : Z) : CalObjTime :=
  match interval_end with
  | Some e => if year =? co_year e then set_year year e
              else mkCalObjTime (u16 year) 11 31 23 59 61 false
  | None => mkCalObjTime (u16 year) 11 31 23 59 61 false
  end.

(** The [for] loop over the years.  [chunk] is the call of
    [generate_instances_for_chunk] for given chunk bounds. *)
Fixpoint year_loop (n : nat) (year : Z) (interval_start : CalObjTime)
    (interval_end : option CalObjTime)
    (chunk : CalObjTime -> CalObjTime -> S -> res (bool * S)) (s : S) : res S :=
  match n with
  | O => NoFuel
  | Datatypes.S n =>
      if match interval_end with Some e => year <=? co_year e | None => true end
         && (year <=? MAX_YEAR)
      then
        '(carry_on, s) ← chunk (chunk_start_of interval_start year)
                               (chunk_end_of interval_end year) s;
        if carry_on : bool
        then year_loop n (year + 1) interval_start interval_end chunk s else Ok s
      else Ok s
  end.

(** The loop stops at [MAX_YEAR]. *)
Definition year_fuel (interval_start : CalObjTime) : nat :=
  Datatypes.S (Z.to_nat (MAX_YEAR + 1 - co_year interval_start)).

(** [dtend.value] with the defaults applied: one day for a date-only event
    that ends on the day it starts or has no end, no time for another
    event without an end. *)
Definition dtend_value (dtstart_v : icaltimetype) (dtend : ECalComponentDateTime) : icaltimetype :=
  match cdt_value dtend with
  | Some v =>
      if it_is_date dtstart_v && it_is_date v
         && (icaltime_compare_date_only dtstart_v v =? 0)
      then icaltime_adjust v 1 0 0 0 else v
  | None => if it_is_date dtstart_v then icaltime_adjust dtstart_v 1 0 0 0 else dtstart_v
  end.

(** The zone of a value: that of its TZID if there is one and it resolves. *)
Definition value_zone (tz_cb : string -> option icaltimezone)
    (default_timezone : option icaltimezone) (v : icaltimetype) (tzid : option string)
    : option icaltimezone :=
  match tzid with
  | Some tzid =>
      if it_is_date v then default_timezone
      else match tz_cb tzid with Some z => Some z | None => default_timezone end
  | None => default_timezone
  end.

Definition has_own_zone (v : icaltimetype) (tzid : option string) : bool :=
  match tzid with Some _ => negb (it_is_date v) | None => false end.

(** The part of [e_cal_recur_generate_instances_of_rule] after the rules
    have been collected. *)
Definition generate_from_rules (fuel : nat) (rrules : list icalproperty)
    (rdates : list ECalComponentPeriod) (exrules : list icalproperty)
    (exdates : list ECalComponentDateTime) (single_rule : bool) (start end_ : Z)
    (start_zone : option icaltimezone) (dtstart_time dtend_time : Z)
    (convert_end_date : bool) (s : S) : res S :=
  let interval_start := cal_object_time_from_time start start_zone in
  let interval_end :=
    if negb (end_ =? -1) then Some (cal_object_time_from_time (end_ - 1) start_zone) else None in
  let event_start := cal_object_time_from_time dtstart_time start_zone in
  let event_end := cal_object_time_from_time dtend_time start_zone in
  let '(days, seconds) := cal_object_compute_duration event_start event_end in
  interval_start ← (if dtstart_time <? start then
      interval_start ← cal_obj_time_add_days interval_start (- days);
      cal_obj_time_add_seconds interval_start (- seconds)
    else Ok interval_start);
  year_loop (year_fuel interval_start) (co_year interval_start) interval_start interval_end
    (fun chunk_start chunk_end =>
       generate_instances_for_chunk fuel dtstart_time start_zone rrules rdates exrules exdates
         single_rule event_start start chunk_start chunk_end days seconds convert_end_date) s.

(** [e_cal_recur_generate_instances_of_rule]; [ensure] is the call of
    [e_cal_recur_ensure_end_dates], made only if [prop] is [NULL]. *)
Definition generate_instances_of_rule_with (ensure : ECalComponent -> res ECalComponent)
    (fuel : nat) (comp : ECalComponent) (prop : option icalproperty) (start end_ : Z)
    (tz_cb : string -> option icaltimezone) (default_timezone : option icaltimezone) (s : S)
    : res (ECalComponent * S) :=
  if negb (-1 <=? start) || negb (-1 <=? end_) then Ok (comp, s)
  else
  match cdt_value (comp_dtstart comp) with
  | None => Ok (comp, s)
  | Some dtstart_v =>
      let start_tzid := cdt_tzid (comp_dtstart comp) in
      let start_zone := value_zone tz_cb default_timezone dtstart_v start_tzid in
      let convert_end_date := negb (has_own_zone dtstart_v start_tzid) in
      let dtstart_time := icaltime_as_timet_with_zone dtstart_v start_zone in
      let start := if start =? -1 then dtstart_time else start in
      let dtend_v := dtend_value dtstart_v (comp_dtend comp) in
      let end_zone := value_zone tz_cb default_timezone dtend_v (cdt_tzid (comp_dtend comp)) in
      let dtend_time := icaltime_as_timet_with_zone dtend_v end_zone in
      if negb (e_cal_component_has_recurrences comp || e_cal_component_has_exceptions comp) then
        let call := snd (cb dtstart_time dtend_time s) in
        Ok (comp,
          if comp_is_journal comp then
            let start_t := icaltime_from_timet_with_zone start false default_timezone in
            let end_t := icaltime_from_timet_with_zone end_ false default_timezone in
            if (0 <=? icaltime_compare_date_only dtstart_v start_t)
               && (icaltime_compare_date_only dtstart_v end_t <? 0) then call else s
          else if ((end_ =? -1) || (dtstart_time <? end_)) && (start <? dtend_time)
          then call else s)
      else
        match prop with
        | Some prop =>
            s ← generate_from_rules fuel [prop] [] [] [] true start end_ start_zone
                  dtstart_time dtend_time convert_end_date s;
            Ok (comp, s)
        | None =>
            if comp_is_instance comp then
              s ← generate_from_rules fuel [] [] [] [] false start end_ start_zone
                    dtstart_time dtend_time convert_end_date s;
              Ok (comp, s)
            else
              comp ← ensure comp;
              s ← generate_from_rules fuel (comp_rrules comp) (comp_rdates comp)
                    (comp_exrules comp) (comp_exdates comp) false start end_ start_zone
                    dtstart_time dtend_time convert_end_date s;
              Ok (comp, s)
        end
  end.
End callback.

(** [ECalRecurEnsureEndDateData] and its callback. *)
Record EnsureEndDateData := mkEnsureEndDateData {
  ed_count : Z;
  ed_instances : Z;
  ed_end_date : Z;
}.

Definition e_cal_recur_ensure_rule_end_date_cb (instance_start instance_end : Z)
    (d : EnsureEndDateData) : bool * EnsureEndDateData :=
  let instances := ed_instances d + 1 in
  if instances =? ed_count d
  then (false, mkEnsureEndDateData (ed_count d) instances instance_start)
  else (true, mkEnsureEndDateData (ed_count d) instances (ed_end_date d)).

(** The rule, with its end date parameter set, and whether it was changed.
    The instances are those of this rule alone, in UTC by default. *)
Definition e_cal_recur_ensure_rule_end_date (fuel : nat) (comp : ECalComponent)
    (prop : icalproperty) (exception refresh : bool) (tz_cb : string -> option icaltimezone)
    : res (icalproperty * bool) :=
  let rule := if exception then icalproperty_get_exrule prop else icalproperty_get_rrule prop in
  if ir_count rule =? 0 then Ok (prop, false)
  else if negb refresh && negb (e_cal_recur_get_rule_end_date prop None =? -1)
  then Ok (prop, false)
  else
    '(_, d) ← generate_instances_of_rule_with e_cal_recur_ensure_rule_end_date_cb (fun c => Ok c)
      fuel comp (Some prop) (-1) (-1) tz_cb (Some icaltimezone_get_utc_timezone)
      (mkEnsureEndDateData (ir_count rule) 0 0);
    Ok (e_cal_recur_set_rule_end_date prop (ed_end_date d), true).

Fixpoint ensure_loop (fuel : nat) (comp : ECalComponent) (exception refresh : bool)
    (tz_cb : string -> option icaltimezone) (rules : list icalproperty)
    : res (list icalproperty * bool) :=
  match rules with
  | [] => Ok ([], false)
  | prop :: rules =>
      '(prop, changed1) ← e_cal_recur_ensure_rule_end_date fuel comp prop exception refresh tz_cb;
      '(rules, changed2) ← ensure_loop fuel comp exception refresh tz_cb rules;
      Ok (prop :: rules, changed1 || changed2)
  end.

(** The component with the end dates of its rules set, and whether any was. *)
Definition e_cal_recur_ensure_end_dates (fuel : nat) (comp : ECalComponent) (refresh : bool)
    (tz_cb : string -> option icaltimezone) : res (ECalComponent * bool) :=
  '(rrules, changed1) ← ensure_loop fuel comp false refresh tz_cb (comp_rrules comp);
  '(exrules, changed2) ← ensure_loop fuel comp true refresh tz_cb (comp_exrules comp);
  Ok (mkComponent (comp_is_journal comp) (comp_is_instance comp) (comp_dtstart comp)
        (comp_dtend comp) rrules (comp_rdates comp) exrules (comp_exdates comp),
      changed1 || changed2).

Definition e_cal_recur_generate_instances_of_rule {S} (cb : Z -> Z -> S -> bool * S)
    (fuel : nat) (comp : ECalComponent) (prop : option icalproperty) (start end_ : Z)
    (tz_cb : string -> option icaltimezone) (default_timezone : option icaltimezone) (s : S)
    : res (ECalComponent * S) :=
  generate_instances_of_rule_with cb
    (fun comp => '(comp, _) ← e_cal_recur_ensure_end_dates fuel comp false tz_cb; Ok comp)
    fuel comp prop start end_ tz_cb default_timezone s.

Definition e_cal_recur_generate_instances {S} (cb : Z -> Z -> S -> bool * S)
    (fuel : nat) (comp : ECalComponent) (start end_ : Z)
    (tz_cb : string -> option icaltimezone) (default_timezone : option icaltimezone) (s : S)
    : res (ECalComponent * S) :=
  e_cal_recur_generate_instances_of_rule cb fuel comp None start end_ tz_cb default_timezone s.
End instances.
