(* ===== verification/RecurInstancesSpec.v ===== *)
(** * Which instances the callback gets

    The calls of the callback are a list of instances that does not depend on
    the callback; it is run until the callback returns [FALSE].  For components
    with valid rules the generation terminates, every instance starts at or after
    DTSTART and ends after the start of the interval, and the end date computed
    for a rule with COUNT is the start of its COUNT-th instance. *)

From S2P Require Import Prelude CalTimeUtil CalObjTime CalObjTimeSpec Libical LibicalUtc RecurRule RecurRuleSpec RecurFilters RecurSteps RecurEngine RecurStepsSpec RecurEngineSpec RecurExpandSpec RecurInstances.
From stdpp Require Import strings.
#[local] Open Scope Z_scope.

(** ** Running a callback on a list of instances *)

Section run_calls.
Context {S : Type} (cb : Z -> Z -> S -> bool * S).

(** The callback on each instance in order, until it returns [FALSE]. *)
Fixpoint run_calls (calls : list (Z * Z)) (s : S) : bool * S :=
  match calls with
  | [] => (true, s)
  | (a, b) :: calls =>
      let '(status, s) := cb a b s in
      if status then run_calls calls s else (false, s)
  end.

Lemma run_calls_app l k s :
  run_calls (l ++ k) s =
  let '(status, s) := run_calls l s in if status then run_calls k s else (false, s).
Proof.
  revert s. induction l as [|[a b] l IH]; intros s; [done|].
  cbn [run_calls app]. destruct (cb a b s) as [[] s']; [apply IH|done].
Qed.
End run_calls.

(** ** Year chunks *)

(** The fields as the digits of a number: the comparison function is the order
    of these numbers, even for dates that do not exist. *)
Definition field_key (c : CalObjTime) : Z :=
  ((((co_year c * 256 + co_month c) * 256 + co_day c) * 256 + co_hour c) * 256
    + co_minute c) * 256 + co_second c.

Lemma compare_func_key c1 c2 :
  fields_ok c1 -> fields_ok c2 ->
  cal_obj_time_compare_func c1 c2 = zcmp (field_key c1) (field_key c2).
Proof.
  intros (?&?&?&?&?&?) (?&?&?&?&?&?). rewrite compare_func_lex.
  assert (forall a1 a2 x y k, 0 <= x < k -> 0 <= y < k ->
    (if zcmp a1 a2 =? 0 then zcmp x y else zcmp a1 a2) = zcmp (a1 * k + x) (a2 * k + y)) as Hstep.
  { intros a1 a2 x y k Hx Hy. unfold zcmp.
    destruct (Z.ltb_spec a1 a2), (Z.ltb_spec a2 a1); cbn;
      destruct (Z.ltb_spec (a1 * k + x) (a2 * k + y)), (Z.ltb_spec (a2 * k + y) (a1 * k + x));
      try nia; destruct (Z.ltb_spec x y), (Z.ltb_spec y x); try nia; done. }
  assert (forall a b, (if zcmp a b =? 0 then 0 else zcmp a b) = zcmp a b) as Hlast.
  { intros a b. destruct (Z.eqb_spec (zcmp a b) 0); lia. }
  unfold fields, field_key. cbn [lexcmp]. rewrite Hlast.
  assert (forall a1 a2 x1 x2 r, (if zcmp a1 a2 =? 0 then if zcmp x1 x2 =? 0 then r else zcmp x1 x2 else zcmp a1 a2)
    = (if (if zcmp a1 a2 =? 0 then zcmp x1 x2 else zcmp a1 a2) =? 0 then r
       else if zcmp a1 a2 =? 0 then zcmp x1 x2 else zcmp a1 a2)) as Hassoc.
  { intros. destruct (zcmp a1 a2 =? 0) eqn:E; [done|]. by rewrite E. }
  rewrite Hassoc, (Hstep (co_year c1) _ _ _ 256) by lia.
  rewrite Hassoc, (Hstep _ _ _ _ 256) by lia.
  rewrite Hassoc, (Hstep _ _ _ _ 256) by lia.
  rewrite Hassoc, (Hstep _ _ _ _ 256) by lia.
  by rewrite (Hstep _ _ _ _ 256) by lia.
Qed.

(** The chunks of the years from the start to the end of the interval
    partition it: a time with a valid clock (leap seconds up to 61 included) is in
    the chunk of a year if and only if it is a time of that year in the
    interval. *)
Theorem chunks_partition (iv e c : CalObjTime) (year : Z)
    (Hy : co_year iv <= year <= co_year e) (Hiv : fields_ok iv) (He : fields_ok e)
    (Hc : fields_ok c)
    (Hclock : 1 <= co_day c <= 31 /\ co_month c <= 11 /\ co_hour c <= 23 /\ co_minute c <= 59
              /\ co_second c <= 61) :
  (0 <= cal_obj_time_compare_func c (chunk_start_of iv year) /\
   cal_obj_time_compare_func c (chunk_end_of (Some e) year) <= 0)
  <->
  (co_year c = year /\ 0 <= cal_obj_time_compare_func c iv /\ cal_obj_time_compare_func c e <= 0).
Proof.
  assert (0 <= co_year iv /\ co_year e < 65536) as Hr by (destruct Hiv, He; lia).
  assert (fields_ok (chunk_start_of iv year)) as Hs.
  { unfold chunk_start_of, fields_ok in *. case_match;
      cbn [co_year co_month co_day co_hour co_minute co_second set_year]; rewrite u16_small by lia; lia. }
  assert (fields_ok (chunk_end_of (Some e) year)) as Hend.
  { unfold chunk_end_of, fields_ok in *. case_match;
      cbn [co_year co_month co_day co_hour co_minute co_second set_year]; rewrite u16_small by lia; lia. }
  rewrite !compare_func_key by done. clear Hs Hend.
  assert (forall a b, 0 <= zcmp a b <-> b <= a) as Hge by (intros; unfold zcmp; repeat case_match; lia).
  assert (forall a b, zcmp a b <= 0 <-> a <= b) as Hle by (intros; unfold zcmp; repeat case_match; lia).
  rewrite !Hge, !Hle. unfold chunk_start_of, chunk_end_of, field_key, fields_ok in *.
  destruct (Z.eqb_spec year (co_year iv)) as [E1|E1], (Z.eqb_spec year (co_year e)) as [E2|E2];
    cbn [co_year co_month co_day co_hour co_minute co_second set_year];
    rewrite ?(u16_small year) by lia; lia.
Qed.

Lemma chunks_partition_witness :
  let iv := mkCalObjTime 2006 10 15 12 0 0 false in
  let e := mkCalObjTime 2008 2 3 23 59 59 false in
  let c := mkCalObjTime 2006 11 31 23 59 60 false in
  cal_obj_time_compare_func c (chunk_end_of (Some e) 2006) <= 0.
Proof.
  intros iv e c. destruct (chunks_partition iv e c 2006) as [_ H].
  - concrete.
  - concrete.
  - concrete.
  - concrete.
  - concrete.
  - apply H. concrete.
Defined.

(** ** The instances as a list *)

(** The callback that records its calls. *)
Definition record (a b : Z) (calls : list (Z * Z)) : bool * list (Z * Z) :=
  (true, calls ++ [(a, b)]).

Section calls.
Context {G : GDate} {L : Libical} {Q : QSort}.
Context (comp_dtstart interval_start : Z) (zone : option icaltimezone).

(** [call] is made for the occurrence [occ] from [lo] to [hi]. *)
Definition call_for (lo hi occ : CalObjTime) (call : Z * Z) : Prop :=
  call.1 = icaltime_as_timet_with_zone (cotime_to_tt occ) zone /\
  comp_dtstart <= call.1 /\ interval_start < call.2 /\
  0 <= cal_obj_time_compare_func occ lo /\ cal_obj_time_compare_func occ hi <= 0.

(** What the loop does with one occurrence: stop, skip it, or call. *)
Inductive occ_step := Stop | Skip | Call (a b : Z).

Definition step_of (lo hi : CalObjTime) (periods : list CalObjRecurrenceDate) (days secs : Z)
    (occ : CalObjTime) : res occ_step :=
  let a := icaltime_as_timet_with_zone (cotime_to_tt occ) zone in
  if a =? -1 then Ok Stop
  else if (a <? comp_dtstart) || (cal_obj_time_compare_func occ lo <? 0)
          || (0 <? cal_obj_time_compare_func occ hi) then Ok Skip
  else
    occ ← occ_end periods days secs occ;
    let b := icaltime_as_timet_with_zone (cotime_to_tt occ) zone in
    Ok (if b =? -1 then Stop else if b <=? interval_start then Skip else Call a b).

Lemma instances_loop_step {S} (cb : Z -> Z -> S -> bool * S) occ occs lo hi periods days secs fin s :
  instances_loop cb (occ :: occs) comp_dtstart zone interval_start lo hi periods days secs fin s =
  (step ← step_of lo hi periods days secs occ;
   let continue := instances_loop cb occs comp_dtstart zone interval_start lo hi periods days secs fin in
   match step with
   | Stop => Ok (true, true, s)
   | Skip => continue s
   | Call a b => let '(st, s) := cb a b s in if st then continue s else Ok (false, fin, s)
   end).
Proof.
  cbn [instances_loop]. unfold step_of.
  destruct (icaltime_as_timet_with_zone (cotime_to_tt occ) zone =? -1); [done|].
  destruct (_ || _); [done|]. destruct (occ_end periods days secs occ) as [occ1| |]; [|done..].
  rewrite !res_bind_Ok.
  destruct (icaltime_as_timet_with_zone (cotime_to_tt occ1) zone =? -1); [done|].
  by destruct (icaltime_as_timet_with_zone (cotime_to_tt occ1) zone <=? interval_start).
Qed.

Lemma step_of_call lo hi periods days secs occ a b :
  step_of lo hi periods days secs occ = Ok (Call a b) -> call_for lo hi occ (a, b).
Proof.
  unfold step_of, call_for. intros E. case_match; [done|]. case_match eqn:Ebad; [done|].
  apply res_bind_inv in E as (occ1 & _ & E). repeat case_match; simplify_eq.
  cbn [fst snd]. repeat split; lia.
Qed.

(** One chunk hands the recorded instances to its callback; they are those of a
    sublist of the occurrences. *)
Lemma instances_loop_calls occs lo hi periods days secs fin calls0 st fin' calls' :
  instances_loop record occs comp_dtstart zone interval_start lo hi periods days secs fin calls0
    = Ok (st, fin', calls') ->
  exists calls occs', calls' = calls0 ++ calls /\ st = true /\
    occs' `sublist_of` occs /\ Forall2 (call_for lo hi) occs' calls /\
    forall S (cb : Z -> Z -> S -> bool * S) s, exists f,
      instances_loop cb occs comp_dtstart zone interval_start lo hi periods days secs fin s
        = Ok ((run_calls cb calls s).1, f, (run_calls cb calls s).2) /\
      ((run_calls cb calls s).1 = true -> f = fin').
Proof.
  revert calls0. induction occs as [|occ occs IH]; intros calls0 E.
  { injection E as <- <- <-. exists [], []. rewrite app_nil_r. repeat split; [done..|].
    intros. by exists fin. }
  rewrite instances_loop_step in E. setoid_rewrite instances_loop_step.
  destruct (step_of lo hi periods days secs occ) as [step| |] eqn:Estep; [|done..].
  rewrite res_bind_Ok in E. destruct step as [| |a b]; cbv zeta in *.
  - injection E as <- <- <-. exists [], []. rewrite app_nil_r.
    repeat split; [apply sublist_nil_l|done|]. intros. by exists true.
  - destruct (IH _ E) as (calls & occs' & ? & ? & ? & ? & ?). exists calls, occs'.
    repeat split; try done. by apply sublist_cons.
  - cbn [record] in E. destruct (IH _ E) as (calls & occs' & -> & ? & ? & ? & Hrun).
    exists ((a, b) :: calls), (occ :: occs'). split; [by rewrite <- app_assoc|].
    split; [done|]. split; [by apply sublist_skip|].
    split; [constructor; [by eapply step_of_call|done]|].
    intros S cb s. rewrite res_bind_Ok. cbn [run_calls]. destruct (cb a b s) as [[] s']; [apply Hrun|].
    by exists fin.
Qed.
End calls.

(** ** The occurrences of a chunk *)

Lemma compare_le_lt a b c :
  cal_obj_time_compare_func a b <= 0 -> cal_obj_time_compare_func b c < 0 ->
  cal_obj_time_compare_func a c < 0.
Proof.
  intros H1 H2. destruct (Z.lt_ge_cases (cal_obj_time_compare_func a c) 0) as [|H3]; [done|].
  pose proof (cmp_antisym a c). pose proof (cmp_trans c a b). pose proof (cmp_antisym b c). lia.
Qed.

(** The order does not depend on the flags. *)
Lemma strictly_sorted_flags k kept :
  strictly_sorted (reverse (k :: kept)) -> strictly_sorted (reverse (set_flags true k :: kept)).
Proof.
  unfold strictly_sorted. rewrite !reverse_cons, !StronglySorted_app. intros (H1 & H2 & H3).
  repeat split; [|done|repeat constructor].
  intros x y Hx ->%list_elem_of_singleton. specialize (H1 x k Hx).
  rewrite list_elem_of_singleton in H1. specialize (H1 eq_refl). by rewrite compare_func_lex in *.
Qed.

(** Whatever the exceptions, what is left of sorted occurrences has no duplicates. *)
Lemma exceptions_loop_sorted occs prev ex cur kept l :
  exceptions_loop occs prev ex cur kept = Ok l ->
  sorted_times (option_list prev ++ occs) -> strictly_sorted (reverse kept) ->
  Forall (fun k => exists p, prev = Some p /\ cal_obj_time_compare_func k p <= 0) kept ->
  strictly_sorted l /\ forall c, c ∈ l -> fields c ∈ fields <$> (kept ++ occs).
Proof.
  revert prev ex cur kept. induction occs as [|c occs IH]; intros prev ex cur kept E Hs Hk Hp.
  { injection E as <-. split; [done|]. intros c Hc. rewrite app_nil_r.
    apply list_elem_of_fmap_2. by apply elem_of_reverse. }
  cbn [exceptions_loop] in E.
  assert (sorted_times (c :: occs)) as Hs' by (by apply StronglySorted_app_1_r in Hs).
  destruct (match prev with Some p => _ | None => false end) eqn:Eeq.
  - destruct prev as [p|]; [|done].
    assert (forall kept', exceptions_loop occs (Some c) ex cur kept' = Ok l ->
      strictly_sorted (reverse kept') ->
      Forall (fun k => cal_obj_time_compare_func k p <= 0) kept' ->
      fields <$> kept' = fields <$> kept ->
      strictly_sorted l /\ forall x, x ∈ l -> fields x ∈ fields <$> (kept ++ c :: occs)) as Hgo.
    { intros kept' E' Hk' Hp' Ef. destruct (IH _ _ _ _ E') as [H1 H2]; try done.
      - eapply Forall_impl; [exact Hp'|]. intros k Hkp. exists c. split; [done|].
        pose proof (cmp_antisym c p). apply (cmp_trans k p c); [exact Hkp|lia].
      - split; [done|]. intros x Hx%H2. rewrite !fmap_app, Ef, fmap_cons in *.
        rewrite elem_of_app, elem_of_cons in *. tauto. }
    assert (Forall (fun k => cal_obj_time_compare_func k p <= 0) kept) as Hp'.
    { eapply Forall_impl; [exact Hp|]. by intros k (? & [= <-] & ?). }
    destruct (co_flags c && negb cur); [|by apply (Hgo kept)].
    destruct kept as [|k kept]; [done|]. rewrite res_bind_Ok in E.
    apply (Hgo (set_flags true k :: kept)); try done; [by apply strictly_sorted_flags|].
    inversion Hp' as [|? ? H1 H2]. constructor; [|done]. by rewrite compare_func_lex in *.
  - destruct (step_exceptions ex c) as [ex' matched].
    assert (Forall (fun k => cal_obj_time_compare_func k c < 0) kept) as Hlt.
    { eapply Forall_impl; [exact Hp|]. intros k (p & -> & Hkp). cbn [option_list app] in Hs.
      apply StronglySorted_inv in Hs as [_ [Hpc _]%Forall_cons].
      pose proof (cmp_antisym c p). apply (compare_le_lt k p c); lia. }
    destruct (IH _ _ _ _ E) as [H1 H2]; try done.
    + destruct matched; [done|]. unfold strictly_sorted. rewrite reverse_cons, StronglySorted_app.
      repeat split; [|done|repeat constructor].
      intros x y Hx ->%list_elem_of_singleton. rewrite elem_of_reverse in Hx.
      rewrite Forall_forall in Hlt. by apply Hlt.
    + assert (Forall (fun k => cal_obj_time_compare_func k c <= 0) (if matched then kept else c :: kept)) as Hle.
      { assert (Forall (fun k => cal_obj_time_compare_func k c <= 0) kept)
          by (eapply Forall_impl; [exact Hlt|]; cbv beta; lia).
        destruct matched; [done|]. constructor; [|done]. rewrite compare_func_refl. lia. }
      eapply Forall_impl; [exact Hle|]. intros k ?. by exists c.
    + split; [done|]. intros x Hx%H2. destruct matched; cbn [app] in *;
        rewrite ?fmap_cons, ?fmap_app, ?fmap_cons, ?elem_of_cons, ?elem_of_app, ?elem_of_cons in *; tauto.
Qed.

Lemma remove_exceptions_sorted occs ex l :
  sorted_times occs -> cal_obj_remove_exceptions occs ex = Ok l ->
  strictly_sorted l /\ forall c, c ∈ l -> fields c ∈ fields <$> occs.
Proof.
  intros Hs E. apply (exceptions_loop_sorted _ _ _ _ _ _ E); [done|constructor..].
Qed.

Lemma StronglySorted_sublist {A} (R : relation A) l k :
  l `sublist_of` k -> StronglySorted R k -> StronglySorted R l.
Proof.
  induction 1 as [|x l k Hlk IH|x l k Hlk IH]; intros Hs; [done|..].
  - apply StronglySorted_inv in Hs as [Hs Hx]. constructor; [by apply IH|].
    rewrite Forall_forall in *. intros y Hy. apply Hx. by eapply elem_of_sublist.
  - apply StronglySorted_inv in Hs as [Hs _]. by apply IH.
Qed.

Section chunks.
Context {G : GDate} {L : Libical} {Q : QSort} `{!QSortLaws Q}.

Lemma sort_occurrences_sorted occs : sorted_times (cal_obj_sort_occurrences occs).
Proof. apply (qsort_sorted cal_obj_time_compare_func). apply _. Qed.

(** The instances are those of the strictly increasing times [occs], all of them
    from [lo] to [hi]; and handing them to any callback is running it on them. *)
Definition calls_between (comp_dtstart interval_start : Z) (zone : option icaltimezone)
    (lo hi : CalObjTime) (calls : list (Z * Z)) : Prop :=
  exists occs, strictly_sorted occs /\
    Forall2 (call_for comp_dtstart interval_start zone lo hi) occs calls.

Lemma chunk_occurrences_sorted fuel zone rrules rdates exrules exdates single_rule event_start
    lo hi conv occs periods fin :
  chunk_occurrences fuel zone rrules rdates exrules exdates single_rule event_start lo hi conv
    = Ok (occs, periods, fin) -> strictly_sorted occs.
Proof.
  unfold chunk_occurrences. case_match. intros E.
  apply res_bind_inv in E as ([? ?] & _ & E). case_match. case_match.
  apply res_bind_inv in E as ([? ?] & _ & E). apply res_bind_inv in E as (? & _ & E).
  apply res_bind_inv in E as (? & Eex & E). injection E as <- _ _.
  apply remove_exceptions_sorted in Eex as [Hs _]; [done|]. by apply sort_occurrences_sorted.
Qed.

Lemma chunk_calls fuel comp_dtstart zone rrules rdates exrules exdates single_rule event_start
    interval_start lo hi days secs conv calls0 carry calls' :
  generate_instances_for_chunk record fuel comp_dtstart zone rrules rdates exrules exdates
    single_rule event_start interval_start lo hi days secs conv calls0 = Ok (carry, calls') ->
  exists calls, calls' = calls0 ++ calls /\
    calls_between comp_dtstart interval_start zone lo hi calls /\
    forall S (cb : Z -> Z -> S -> bool * S) s,
      generate_instances_for_chunk cb fuel comp_dtstart zone rrules rdates exrules exdates
        single_rule event_start interval_start lo hi days secs conv s
      = Ok ((run_calls cb calls s).1 && carry, (run_calls cb calls s).2).
Proof.
  unfold generate_instances_for_chunk. intros E.
  apply res_bind_inv in E as ([[occs periods] fin] & Hocc & E). rewrite Hocc.
  apply res_bind_inv in E as ([[st fin'] calls1] & E & E').
  apply instances_loop_calls in E as (calls & occs' & -> & -> & Hsub & Hcalls & Hrun).
  injection E' as <- <-. exists calls. split; [done|]. split.
  - exists occs'. split; [|done]. eapply StronglySorted_sublist; [done|].
    by eapply chunk_occurrences_sorted.
  - intros S cb s. rewrite res_bind_Ok. destruct (Hrun S cb s) as (f & -> & Hf). rewrite res_bind_Ok.
    destruct (run_calls cb calls s) as [[] s']; cbn [fst snd andb] in *; [|done].
    by rewrite Hf.
Qed.
End chunks.

(** ** The years of an interval *)

Lemma compare_year_lt c1 c2 : co_year c1 < co_year c2 -> cal_obj_time_compare_func c1 c2 < 0.
Proof.
  intros H. rewrite compare_func_lex. unfold fields. cbn [lexcmp].
  assert (zcmp (co_year c1) (co_year c2) = -1) as ->; [|done].
  unfold zcmp. by rewrite (proj2 (Z.ltb_lt _ _) H).
Qed.

Lemma compare_year_le c1 c2 : cal_obj_time_compare_func c1 c2 <= 0 -> co_year c1 <= co_year c2.
Proof.
  intros H. destruct (Z.le_gt_cases (co_year c1) (co_year c2)) as [|Hgt]; [done|].
  pose proof (compare_year_lt c2 c1). pose proof (cmp_antisym c1 c2). lia.
Qed.

(** The last time a chunk can end. *)
Definition interval_last (interval_end : option CalObjTime) : CalObjTime :=
  default (mkCalObjTime MAX_YEAR 11 31 23 59 61 false) interval_end.

Lemma set_year_same c : 0 <= co_year c < 65536 -> set_year (co_year c) c = c.
Proof. intros. destruct c as [y m d h i s f]. unfold set_year. cbn in *. by rewrite u16_small. Qed.

Lemma year_chunk iv ie year :
  co_year iv <= year <= MAX_YEAR -> 0 <= co_year iv ->
  match ie with Some e => year <= co_year e < 65536 | None => True end ->
  co_year (chunk_start_of iv year) = year /\ co_year (chunk_end_of ie year) = year /\
  cal_obj_time_compare_func iv (chunk_start_of iv year) <= 0 /\
  cal_obj_time_compare_func (chunk_end_of ie year) (interval_last ie) <= 0.
Proof.
  unfold MAX_YEAR. intros Hy Hiv Hie.
  assert (u16 year = year) as Eu by (apply u16_small; lia).
  assert (co_year (chunk_start_of iv year) = year) as E1.
  { unfold chunk_start_of. destruct (year =? co_year iv); exact Eu. }
  assert (co_year (chunk_end_of ie year) = year) as E2.
  { unfold chunk_end_of. destruct ie as [e|]; [destruct (year =? co_year e)|]; exact Eu. }
  split; [done|]. split; [done|]. split.
  - destruct (Z.eqb_spec year (co_year iv)) as [->|Hne].
    + unfold chunk_start_of. rewrite Z.eqb_refl, set_year_same by lia. rewrite compare_func_refl. lia.
    + pose proof (compare_year_lt iv (chunk_start_of iv year)). lia.
  - destruct ie as [e|].
    + change (interval_last (Some e)) with e. cbn beta iota in Hie. destruct (Z.eqb_spec year (co_year e)) as [->|Hne].
      * unfold chunk_end_of. rewrite Z.eqb_refl, set_year_same by lia. rewrite compare_func_refl. lia.
      * pose proof (compare_year_lt (chunk_end_of (Some e) year) e). lia.
    + destruct (Z.eq_dec year MAX_YEAR) as [->|Hne].
      * vm_compute. discriminate.
      * pose proof (compare_year_lt (chunk_end_of None year) (interval_last None)).
        change (co_year (interval_last None)) with MAX_YEAR in *. unfold MAX_YEAR in *. lia.
Qed.

Section years.
Context {G : GDate} {L : Libical} {Q : QSort} `{!QSortLaws Q}.
Context (fuel : nat) (comp_dtstart : Z) (zone : option icaltimezone) (rrules : list icalproperty)
  (rdates : list ECalComponentPeriod) (exrules : list icalproperty)
  (exdates : list ECalComponentDateTime) (single_rule : bool) (event_start : CalObjTime)
  (interval_start : Z) (days secs : Z) (conv : bool).

#[local] Abbreviation chunk cb := (fun lo hi => generate_instances_for_chunk cb fuel comp_dtstart
  zone rrules rdates exrules exdates single_rule event_start interval_start lo hi days secs conv).

Lemma year_loop_calls iv ie n year calls0 calls' :
  year_loop n year iv ie (chunk record) calls0 = Ok calls' ->
  co_year iv <= year -> 0 <= co_year iv -> co_year (interval_last ie) < 65536 ->
  exists calls occs, calls' = calls0 ++ calls /\
    strictly_sorted occs /\ Forall (fun c => year <= co_year c) occs /\
    Forall2 (call_for comp_dtstart interval_start zone iv (interval_last ie)) occs calls /\
    forall S (cb : Z -> Z -> S -> bool * S) s,
      year_loop n year iv ie (chunk cb) s = Ok (run_calls cb calls s).2.
Proof.
  revert year calls0. induction n as [|n IH]; intros year calls0 E Hy Hiv Hie; [done|].
  cbn [year_loop] in *.
  assert (calls' = calls0 -> exists calls occs, calls' = calls0 ++ calls /\
    strictly_sorted occs /\ Forall (fun c => year <= co_year c) occs /\
    Forall2 (call_for comp_dtstart interval_start zone iv (interval_last ie)) occs calls /\
    forall S (cb : Z -> Z -> S -> bool * S) s, s = (run_calls cb calls s).2) as Hnone.
  { intros ->. exists [], []. rewrite app_nil_r. repeat split; constructor. }
  destruct (_ && _) eqn:Econd.
  2:{ injection E as <-. destruct (Hnone eq_refl) as (calls & occs & ? & ? & ? & ? & Hr).
      exists calls, occs. repeat split; try done. intros. by rewrite <- Hr. }
  apply andb_true_iff in Econd as [Hend Hmax]. unfold MAX_YEAR in Hmax.
  destruct (year_chunk iv ie year) as (E1 & E2 & Hlo & Hhi);
    [unfold MAX_YEAR; lia|done|destruct ie; [cbn in Hie; lia|done]|].
  apply res_bind_inv in E as ([carry calls1] & Echunk & E).
  apply chunk_calls in Echunk as (calls & -> & (occs & Hs & Hcalls) & Hrun).
  assert (Forall (fun c => co_year c = year) occs) as Hyear.
  { clear -Hcalls E1 E2. induction Hcalls as [|occ call occs calls H Hcalls IH]; [constructor|].
    constructor; [|done]. destruct H as (_ & _ & _ & H1 & H2).
    apply compare_year_le in H2. pose proof (cmp_antisym occ (chunk_start_of iv year)).
    pose proof (compare_year_le (chunk_start_of iv year) occ). lia. }
  assert (Forall2 (call_for comp_dtstart interval_start zone iv (interval_last ie)) occs calls) as Hcalls'.
  { eapply Forall2_impl; [exact Hcalls|]. intros occ call (Ha & Hb & Hc & H1 & H2).
    repeat split; try done.
    - pose proof (cmp_antisym iv occ). pose proof (cmp_antisym (chunk_start_of iv year) occ).
      pose proof (cmp_trans iv (chunk_start_of iv year) occ). lia.
    - by eapply cmp_trans. }
  destruct carry.
  - destruct (IH _ _ E) as (calls2 & occs2 & -> & Hs2 & Hy2 & Hcalls2 & Hrun2); [lia..|].
    exists (calls ++ calls2), (occs ++ occs2). split; [by rewrite app_assoc|]. split; [|split; [|split]].
    + apply StronglySorted_app. split; [|done]. intros c1 c2 H1 H2.
      rewrite Forall_forall in Hyear, Hy2. apply compare_year_lt.
      specialize (Hyear _ H1). specialize (Hy2 _ H2). cbv beta in *. lia.
    + apply Forall_app. split; (eapply Forall_impl; [eassumption|]; cbv beta; lia).
    + by apply Forall2_app.
    + intros S cb s. rewrite Hrun, res_bind_Ok, run_calls_app, andb_true_r.
      destruct (run_calls cb calls s) as [[] s']; cbn [fst snd]; [apply Hrun2|done].
  - injection E as <-. exists calls, occs. split; [done|]. split; [done|]. split; [|split; [done|]].
    + eapply Forall_impl; [exact Hyear|]. cbv beta. lia.
    + intros S cb s. rewrite Hrun, res_bind_Ok, andb_false_r. done.
Qed.
End years.

(** ** Every computed time has fields in range *)

Lemma set_fields_ok c z :
  fields_ok c ->
  fields_ok (set_year z c) /\ fields_ok (set_month z c) /\ fields_ok (set_day z c) /\
  fields_ok (set_hour z c) /\ fields_ok (set_minute z c) /\ fields_ok (set_second z c).
Proof.
  intros (? & ? & ? & ? & ? & ?). pose proof (u16_range z). pose proof (u8_range z).
  unfold fields_ok. cbn [set_year set_month set_day set_hour set_minute set_second
    co_year co_month co_day co_hour co_minute co_second]. repeat split; lia.
Qed.

#[local] Ltac in_range := repeat (apply set_fields_ok || case_match); try assumption.

Lemma add_days_forward_fields_ok n c day c' day' :
  fields_ok c -> add_days_forward n c day = Ok (c', day') -> fields_ok c'.
Proof.
  revert c day. induction n as [|n IH]; intros c day Hc E; [done|]. cbn [add_days_forward] in E.
  apply res_bind_inv in E as (dim & _ & E). destruct (day <=? dim); [by simplify_eq|].
  apply IH in E; [done|]. in_range.
Qed.

Lemma add_days_backward_fields_ok n c day c' day' :
  fields_ok c -> add_days_backward n c day = Ok (c', day') -> fields_ok c'.
Proof.
  revert c day. induction n as [|n IH]; intros c day Hc E; [done|]. cbn [add_days_backward] in E.
  destruct (day <=? 0); [|by simplify_eq]. apply res_bind_inv in E as (dim & _ & E).
  apply IH in E; [done|]. in_range.
Qed.

Lemma add_days_fields_ok c days c' :
  fields_ok c -> cal_obj_time_add_days c days = Ok c' -> fields_ok c'.
Proof.
  intros Hc E. unfold cal_obj_time_add_days in E. apply res_bind_inv in E as (sum & _ & E).
  destruct (0 <=? days); apply res_bind_inv in E as ([c1 day] & E & [= <-]); apply set_fields_ok.
  - by eapply add_days_forward_fields_ok.
  - by eapply add_days_backward_fields_ok.
Qed.

Lemma add_hours_fields_ok c n c' :
  fields_ok c -> cal_obj_time_add_hours c n = Ok c' -> fields_ok c'.
Proof.
  intros Hc E. unfold cal_obj_time_add_hours in E. apply res_bind_inv in E as (sum & _ & E). cbv zeta in E.
  repeat case_match; try (eapply add_days_fields_ok; [|exact E]; in_range).
  injection E as <-. in_range.
Qed.

Lemma add_minutes_fields_ok c n c' :
  fields_ok c -> cal_obj_time_add_minutes c n = Ok c' -> fields_ok c'.
Proof.
  intros Hc E. unfold cal_obj_time_add_minutes in E. apply res_bind_inv in E as (sum & _ & E). cbv zeta in E.
  repeat case_match; try (eapply add_hours_fields_ok; [|exact E]; in_range).
  injection E as <-. in_range.
Qed.

Lemma add_seconds_fields_ok c n c' :
  fields_ok c -> cal_obj_time_add_seconds c n = Ok c' -> fields_ok c'.
Proof.
  intros Hc E. unfold cal_obj_time_add_seconds in E. apply res_bind_inv in E as (sum & _ & E). cbv zeta in E.
  repeat case_match; try (eapply add_minutes_fields_ok; [|exact E]; in_range).
  injection E as <-. in_range.
Qed.

Lemma time_from_time_fields_ok {G : GDate} {L : Libical} t zone :
  fields_ok (cal_object_time_from_time t zone).
Proof.
  unfold cal_object_time_from_time, fields_ok.
  cbn [co_year co_month co_day co_hour co_minute co_second].
  repeat split; (apply u16_range || apply u8_range).
Qed.

(** ** The instances of a component *)

Section component.
Context {G : GDate} {L : Libical} {Q : QSort} `{!QSortLaws Q}.

(** The last time at which an instance can start. *)
Definition last_start (end_ : Z) (zone : option icaltimezone) : CalObjTime :=
  interval_last (if negb (end_ =? -1) then Some (cal_object_time_from_time (end_ - 1) zone) else None).

(** [call] is made for [occ]: not before DTSTART, at most at the end of the
    interval, and ending after its start. *)
Definition instance_of (dtstart start end_ : Z) (zone : option icaltimezone)
    (occ : CalObjTime) (call : Z * Z) : Prop :=
  call.1 = icaltime_as_timet_with_zone (cotime_to_tt occ) zone /\
  dtstart <= call.1 /\ start < call.2 /\
  cal_obj_time_compare_func occ (last_start end_ zone) <= 0.

Lemma from_rules_calls fuel rrules rdates exrules exdates single start end_ zone dts dte conv calls0 calls' :
  generate_from_rules record fuel rrules rdates exrules exdates single start end_ zone dts dte conv calls0
    = Ok calls' ->
  exists calls occs, calls' = calls0 ++ calls /\ strictly_sorted occs /\
    Forall2 (instance_of dts start end_ zone) occs calls /\
    forall S (cb : Z -> Z -> S -> bool * S) s,
      generate_from_rules cb fuel rrules rdates exrules exdates single start end_ zone dts dte conv s
      = Ok (run_calls cb calls s).2.
Proof.
  unfold generate_from_rules. destruct (cal_object_compute_duration _ _) as [days secs]. intros E.
  apply res_bind_inv in E as (iv & Eiv & E). rewrite Eiv.
  assert (fields_ok iv) as Hiv.
  { pose proof (time_from_time_fields_ok start zone) as Hs. destruct (dts <? start).
    - apply res_bind_inv in Eiv as (iv1 & E1 & E2). eapply add_seconds_fields_ok; [|exact E2].
      eapply add_days_fields_ok; [|exact E1]. done.
    - by injection Eiv as <-. }
  apply year_loop_calls in E as (calls & occs & -> & Hs & _ & Hcalls & Hrun); [|lia|apply Hiv|].
  - exists calls, occs. split; [done|]. split; [done|]. split; [|intros; apply Hrun].
    eapply Forall2_impl; [exact Hcalls|]. intros occ call (Ha & Hb & Hc & _ & H2). by repeat split.
  - destruct (negb (end_ =? -1)); [|done]. apply time_from_time_fields_ok.
Qed.
End component.

(** What the callback gets, for any [ensure]. *)
Lemma of_rule_calls {G : GDate} {L : Libical} {Q : QSort} `{!QSortLaws Q} ensure
    fuel comp comp' prop start end_ tz_cb default_timezone calls :
  generate_instances_of_rule_with record ensure fuel comp prop start end_ tz_cb
    default_timezone [] = Ok (comp', calls) ->
  forall S (cb : Z -> Z -> S -> bool * S) s,
    generate_instances_of_rule_with cb ensure fuel comp prop start end_ tz_cb default_timezone s
    = Ok (comp', (run_calls cb calls s).2).
Proof.
  intros E S cb s. unfold generate_instances_of_rule_with in *.
  destruct (_ || _); [by simplify_eq|].
  destruct (cdt_value (comp_dtstart comp)) as [v|]; [|by simplify_eq]. cbv zeta in *.
  assert (forall a b, snd (cb a b s) = snd (run_calls cb [(a, b)] s)) as Hone.
  { intros a b. cbn [run_calls]. by destruct (cb a b s) as [[] ?]. }
  destruct (negb (_ || _)).
  { cbn [record snd app] in E. repeat case_match; simplify_eq; by rewrite ?Hone. }
  destruct prop as [prop|]; [|destruct (comp_is_instance comp)].
  - apply res_bind_inv in E as (calls1 & E & [= <- <-]).
    apply from_rules_calls in E as (calls2 & _ & -> & _ & _ & Hrun). by rewrite Hrun.
  - apply res_bind_inv in E as (calls1 & E & [= <- <-]).
    apply from_rules_calls in E as (calls2 & _ & -> & _ & _ & Hrun). by rewrite Hrun.
  - apply res_bind_inv in E as (comp1 & -> & E). rewrite res_bind_Ok.
    apply res_bind_inv in E as (calls1 & E & [= <- <-]).
    apply from_rules_calls in E as (calls2 & _ & -> & _ & _ & Hrun). by rewrite Hrun.
Qed.

(** C3: which instances there are does not depend on the callback: if, with the
    callback that records its calls, the generation returns the calls [calls], then
    with any callback it runs that callback on [calls], in order, until it returns
    [FALSE], and the component gets the same end dates. *)
Theorem instances_any_callback (G : GDate) (L : Libical) (Q : QSort) (QL : QSortLaws Q)
    (fuel : nat) (comp comp' : ECalComponent) (prop : option icalproperty) (start end_ : Z)
    (tz_cb : string -> option icaltimezone) (default_timezone : option icaltimezone)
    (calls : list (Z * Z))
    (E : e_cal_recur_generate_instances_of_rule record fuel comp prop start end_ tz_cb
           default_timezone [] = Ok (comp', calls))
    (S : Type) (cb : Z -> Z -> S -> bool * S) (s : S) :
  e_cal_recur_generate_instances_of_rule cb fuel comp prop start end_ tz_cb default_timezone s
  = Ok (comp', snd (run_calls cb calls s)).
Proof. by apply of_rule_calls. Qed.

(** Three weekly meetings from Friday 5 January 2007, 09:00 to 10:00, but not on the
    second Friday. *)
Definition weekly_rule (x_params : list (option string * string)) : @icalproperty_ (@icalvalue Libical_utc) :=
  mkIcalProperty (mkIcalRecur ICAL_WEEKLY_RECURRENCE (mkIcalTime 0 0 0 0 0 0 false tt) 3 1
    ICAL_MONDAY_WEEKDAY [] [] [] [] [] [] [] [] []) x_params.

Definition weekly_meeting (x_params : list (option string * string)) : @ECalComponent Libical_utc :=
  let at_ d h := mkIcalTime 2007 1 d h 0 0 false tt in
  @mkComponent Libical_utc false false (@mkDateTime Libical_utc (Some (at_ 5 9)) None)
    (@mkDateTime Libical_utc (Some (at_ 5 10)) None)
    [weekly_rule x_params] [] [] [@mkDateTime Libical_utc (Some (at_ 12 9)) None].

(** Evaluates the left side of an equation of computed results. *)
#[local] Ltac by_vm := match goal with |- _ = ?r => vm_cast_no_check (eq_refl r) end.

Lemma instances_any_callback_witness :
  @e_cal_recur_generate_instances_of_rule GDate_gregorian Libical_utc QSort_merge _
    (fun a b n => (false, n + 1)) 1000 (weekly_meeting []) None (-1) (-1) (fun _ => None) None 0
  = Ok (weekly_meeting [(Some EVOLUTION_END_DATE_PARAMETER, "20070119T090000Z"%string)], 1).
Proof.
  refine (eq_trans (instances_any_callback GDate_gregorian Libical_utc QSort_merge _ 1000
    (weekly_meeting []) (weekly_meeting [(Some EVOLUTION_END_DATE_PARAMETER, "20070119T090000Z"%string)])
    None (-1) (-1) (fun _ => None) None
    [(1167987600, 1167991200); (1169197200, 1169200800)] _ _ (fun a b n => (false, n + 1)) 0) _).
  - by_vm.
  - reflexivity.
Defined.

(** C4: the instances come in order and none comes twice: their starts are those of
    strictly increasing times, each at or after DTSTART and not after the end of the
    interval, and every instance ends after the start of the interval. *)
Theorem instances_in_order (G : GDate) (L : Libical) (Q : QSort) (QL : QSortLaws Q)
    (fuel : nat) (rrules : list icalproperty) (rdates : list ECalComponentPeriod)
    (exrules : list icalproperty) (exdates : list ECalComponentDateTime) (single_rule : bool)
    (start end_ : Z) (zone : option icaltimezone) (dtstart_time dtend_time : Z) (conv : bool)
    (calls : list (Z * Z))
    (E : generate_from_rules record fuel rrules rdates exrules exdates single_rule start end_ zone
           dtstart_time dtend_time conv [] = Ok calls) :
  exists occs, strictly_sorted occs /\
    Forall2 (instance_of dtstart_time start end_ zone) occs calls.
Proof.
  apply from_rules_calls in E as (calls' & occs & -> & Hs & Hcalls & _). by exists occs.
Qed.

Lemma instances_in_order_witness :
  let comp := weekly_meeting [(Some EVOLUTION_END_DATE_PARAMETER, "20070119T090000Z"%string)] in
  exists occs, strictly_sorted occs /\
    Forall2 (@instance_of Libical_utc 1167987600 1168000000 1200000000 None) occs
      [(1169197200, 1169200800)].
Proof.
  intros comp. apply (instances_in_order GDate_gregorian Libical_utc QSort_merge _ 1000
    (comp_rrules comp) [] [] (comp_exdates comp) false 1168000000 1200000000 None
    1167987600 1167991200 true).
  by_vm.
Defined.

(** ** The end of a rule with COUNT *)

(** The counting callback stops at the COUNT-th instance and saves its start. *)
Lemma count_calls calls count i d :
  0 <= i < count ->
  ed_end_date (run_calls e_cal_recur_ensure_rule_end_date_cb calls
    (mkEnsureEndDateData count i d)).2 =
  from_option fst d (calls !! Z.to_nat (count - i - 1)).
Proof.
  revert i d. induction calls as [|[a b] calls IH]; intros i d Hi; [done|].
  cbn [run_calls e_cal_recur_ensure_rule_end_date_cb ed_instances ed_count ed_end_date].
  unfold e_cal_recur_ensure_rule_end_date_cb. cbn [ed_instances ed_count ed_end_date].
  destruct (Z.eqb_spec (i + 1) count) as [E|E].
  - replace (Z.to_nat (count - i - 1)) with 0%nat by lia. done.
  - rewrite IH by lia. by replace (Z.to_nat (count - i - 1)) with (S (Z.to_nat (count - (i + 1) - 1))) by lia.
Qed.

(** The end date that is saved is read back. *)
Lemma end_date_saved (L : Libical) (LL : LibicalLaws L) prop t :
  timet_ok t -> e_cal_recur_get_rule_end_date (e_cal_recur_set_rule_end_date prop t) None = t.
Proof.
  intros Ht. unfold e_cal_recur_get_rule_end_date, e_cal_recur_set_rule_end_date. cbn [ip_x_params].
  induction (ip_x_params prop) as [|[xname xvalue] params IH].
  - cbn [set_end_date_loop rule_end_date_loop].
    rewrite decide_True, datetime_string_roundtrip by done. by apply timet_utc_roundtrip.
  - cbn [set_end_date_loop]. case_decide as Hx; cbn [rule_end_date_loop].
    + rewrite decide_True, datetime_string_roundtrip by done. by apply timet_utc_roundtrip.
    + by rewrite decide_False.
Qed.

(** The end date of a rule is saved in the property and read back unchanged; the
    rule itself and the other parameters stay as they are. *)
Theorem rule_end_date_roundtrip (L : Libical) (LL : LibicalLaws L)
    (prop : icalproperty) (t : Z) (Ht : timet_ok t) :
  let prop' := e_cal_recur_set_rule_end_date prop t in
  e_cal_recur_get_rule_end_date prop' None = t /\
  ip_value prop' = ip_value prop /\
  forall name, name <> Some EVOLUTION_END_DATE_PARAMETER ->
    filter (fun p => fst p = name) (ip_x_params prop') =
    filter (fun p => fst p = name) (ip_x_params prop).
Proof.
  split; [by apply end_date_saved|]. split; [done|]. intros name Hn.
  unfold e_cal_recur_set_rule_end_date. cbn [ip_x_params].
  induction (ip_x_params prop) as [|[xname xvalue] params IH]; cbn [set_end_date_loop].
  - by rewrite filter_cons_False.
  - case_decide as Hx.
    + rewrite !filter_cons_False; [done|cbn; congruence..].
    + rewrite !filter_cons. cbn [fst]. by rewrite IH.
Qed.

Lemma rule_end_date_roundtrip_witness :
  @e_cal_recur_get_rule_end_date Libical_utc
    (@e_cal_recur_set_rule_end_date Libical_utc
      (weekly_rule []) 1169197200) None = 1169197200.
Proof. apply (rule_end_date_roundtrip Libical_utc _). concrete. Defined.

(** C5: the end date computed for a rule with COUNT is the start of the COUNT-th
    instance of the rule alone, or 0 if it has fewer; it is saved in the rule, where
    it is read back.  Nothing is done for a rule without COUNT, or if an end date is
    there already and no refresh is asked for. *)
Theorem ensure_rule_end_date_spec (G : GDate) (L : Libical) (LL : LibicalLaws L)
    (Q : QSort) (QL : QSortLaws Q) (fuel : nat) (comp comp' : ECalComponent) (prop : icalproperty)
    (exception refresh : bool) (tz_cb : string -> option icaltimezone) (calls : list (Z * Z))
    (rule := if exception then icalproperty_get_exrule prop else icalproperty_get_rrule prop)
    (E : generate_instances_of_rule_with record (fun c => Ok c) fuel comp (Some prop) (-1) (-1)
           tz_cb (Some icaltimezone_get_utc_timezone) [] = Ok (comp', calls))
    (Hcount : 0 <= ir_count rule) :
  let nth := calls !! Z.to_nat (ir_count rule - 1) in
  exists prop' changed,
    e_cal_recur_ensure_rule_end_date fuel comp prop exception refresh tz_cb = Ok (prop', changed) /\
    (changed = true <->
       ir_count rule <> 0 /\ (refresh = true \/ e_cal_recur_get_rule_end_date prop None = -1)) /\
    (changed = false -> prop' = prop) /\
    (changed = true -> prop' = e_cal_recur_set_rule_end_date prop (from_option fst 0 nth) /\
       (timet_ok (from_option fst 0 nth) ->
        e_cal_recur_get_rule_end_date prop' None = from_option fst 0 nth)).
Proof.
  intros nth. unfold e_cal_recur_ensure_rule_end_date. fold rule.
  destruct (Z.eqb_spec (ir_count rule) 0) as [H0|H0].
  { exists prop, false. split; [done|]. split; [|done]. split; [done|]. by intros [? _]. }
  destruct (negb refresh && _) eqn:Ekeep.
  { exists prop, false. split; [done|]. split; [|done]. split; [done|].
    apply andb_true_iff in Ekeep as [Hr Hd]. intros [_ [->|Hd']]; [done|]. by rewrite Hd' in Hd. }
  rewrite (of_rule_calls _ _ _ _ _ _ _ _ _ _ E), res_bind_Ok, count_calls by lia.
  rewrite Z.sub_0_r. fold nth. eexists _, true. split; [done|]. split; [|split; [done|]].
  - split; [|done]. intros _. split; [done|]. destruct refresh; [by left|right]. cbn [negb andb] in Ekeep. lia.
  - intros _. split; [done|]. intros Ht. by apply end_date_saved.
Qed.

(** Every ten years, three times. *)
Definition decade_rule : @icalproperty_ (@icalvalue Libical_utc) :=
  mkIcalProperty (mkIcalRecur ICAL_YEARLY_RECURRENCE (mkIcalTime 0 0 0 0 0 0 false tt) 3 10
    ICAL_MONDAY_WEEKDAY [] [] [] [] [] [] [] [] []) [].

Lemma ensure_rule_end_date_spec_witness :
  exists prop', @e_cal_recur_ensure_rule_end_date GDate_gregorian Libical_utc QSort_merge 1000
      (weekly_meeting []) decade_rule false false (fun _ => None) = Ok (prop', true) /\
    e_cal_recur_get_rule_end_date prop' None = 1799139600.
Proof.
  destruct (ensure_rule_end_date_spec GDate_gregorian Libical_utc _ QSort_merge _ 1000
    (weekly_meeting []) (weekly_meeting []) decade_rule false false (fun _ => None)
    [(1167987600, 1167991200); (1483606800, 1483610400); (1799139600, 1799143200);
     (2114758800, 2114762400)])
    as (prop' & changed & E & Hc & _ & Hset).
  - by_vm.
  - cbn. lia.
  - destruct changed; [|exfalso; assert (false = true) by (apply Hc; split; [done|by right]); done].
    exists prop'. split; [exact E|]. apply Hset; [done|]. concrete.
Defined.

(** ** The ends of RDATEs *)

Section rdates.
Context {L : Libical}.

Lemma StronglySorted_lookup {A} (R : relation A) l i j x y :
  StronglySorted R l -> (i < j)%nat -> l !! i = Some x -> l !! j = Some y -> R x y.
Proof.
  intros Hs Hij Hx Hy. rewrite <- (take_drop j l) in Hs.
  eapply StronglySorted_app_1_elem_of; [exact Hs|..].
  - eapply list_elem_of_lookup_2. by rewrite lookup_take_lt.
  - eapply (list_elem_of_lookup_2 _ 0). by rewrite lookup_drop, Nat.add_0_r.
Qed.

(** The binary search stays inside the array and, if the array is sorted and has the
    time, finds it. *)
Lemma rdate_search_spec fuel occ ps lo hi r0 c0 :
  (Z.to_nat (hi - lo) < fuel)%nat -> 0 <= lo <= hi -> hi <= Z.of_nat (length ps) ->
  exists r c, rdate_search fuel occ ps lo hi r0 c0 = Ok (r, c) /\
    (r = r0 /\ c = c0 /\ lo = hi \/
     exists p, r = Some p /\ p ∈ ps /\ c = cal_obj_time_compare_func occ (rdate_start p)) /\
    (StronglySorted (fun a b => rdate_compare a b <= 0) ps ->
     forall i p, lo <= Z.of_nat i < hi -> ps !! i = Some p ->
       cal_obj_time_compare_func occ (rdate_start p) = 0 -> c = 0).
Proof.
  revert lo hi r0 c0. induction fuel as [|fuel IH]; intros lo hi r0 c0 Hf Hlo Hhi; [lia|].
  cbn [rdate_search]. destruct (Z.ltb_spec lo hi) as [Hlt|Hge].
  2:{ exists r0, c0. split; [done|]. split; [left; repeat split; lia|]. intros _ i p Hi. lia. }
  rewrite Z.shiftr_div_pow2 by lia. change (2 ^ 1) with 2.
  set (mid := (lo + hi) / 2).
  assert (lo <= mid < hi) as Hmid by (subst mid; Z.to_euclidean_division_equations; lia).
  destruct (lookup_lt_is_Some_2 ps (Z.to_nat mid)) as [q Hq]; [lia|].
  assert (arr_get ps mid = Ok q) as -> by (apply arr_get_Ok; split; [lia|done]).
  rewrite res_bind_Ok. cbv zeta.
  assert (q ∈ ps) as Hin by by eapply list_elem_of_lookup_2.
  destruct (Z.eqb_spec (cal_obj_time_compare_func occ (rdate_start q)) 0) as [E|E].
  { exists (Some q), (cal_obj_time_compare_func occ (rdate_start q)). split; [done|].
    split; [right; by exists q|done]. }
  assert (forall (r : option CalObjRecurrenceDate) (c lo' hi' : Z), (r = Some q /\ c = cal_obj_time_compare_func occ (rdate_start q) /\ lo' = hi' \/
      exists p, r = Some p /\ p ∈ ps /\ c = cal_obj_time_compare_func occ (rdate_start p)) ->
    r = r0 /\ c = c0 /\ lo = hi \/
      exists p, r = Some p /\ p ∈ ps /\ c = cal_obj_time_compare_func occ (rdate_start p)) as Hweak.
  { intros r c lo' hi' [(-> & -> & _)|?]; right; [by exists q|done]. }
  destruct (Z.ltb_spec (cal_obj_time_compare_func occ (rdate_start q)) 0) as [Hneg|Hpos].
  - destruct (IH lo mid (Some q) (cal_obj_time_compare_func occ (rdate_start q)))
      as (r & c & -> & Hr & Hc); [lia..|].
    exists r, c. split; [done|]. split; [by eapply Hweak|]. intros Hs i p Hi Hp Hz.
    apply (Hc Hs i p); [|done..]. split; [lia|].
    destruct (Z.lt_ge_cases (Z.of_nat i) mid) as [|Hge]; [done|exfalso].
    assert (cal_obj_time_compare_func (rdate_start q) (rdate_start p) <= 0) as Hqp.
    { destruct (decide (i = Z.to_nat mid)) as [->|]; [simplify_eq; lia|].
      apply (StronglySorted_lookup _ ps (Z.to_nat mid) i q p Hs); [lia|done..]. }
    pose proof (compare_lt_le occ (rdate_start q) (rdate_start p)). lia.
  - destruct (IH (mid + 1) hi (Some q) (cal_obj_time_compare_func occ (rdate_start q)))
      as (r & c & -> & Hr & Hc); [lia..|].
    exists r, c. split; [done|]. split; [by eapply Hweak|]. intros Hs i p Hi Hp Hz.
    apply (Hc Hs i p); [|done..]. split; [|lia].
    destruct (Z.lt_ge_cases mid (Z.of_nat i)) as [|Hge]; [lia|exfalso].
    assert (cal_obj_time_compare_func (rdate_start p) (rdate_start q) <= 0) as Hpq.
    { destruct (decide (i = Z.to_nat mid)) as [->|]; [simplify_eq; lia|].
      apply (StronglySorted_lookup _ ps i (Z.to_nat mid) p q Hs); [lia|done..]. }
    pose proof (cmp_trans occ (rdate_start p) (rdate_start q)). lia.
Qed.
End rdates.

(** The end of an RDATE is never used.  The search finds the RDATE at the time of the
    occurrence whenever there is one, and then the test after it, which is
    inverted, reports that there is none ([FALSE]), so that the event's own
    duration is used; no access is outside the array. *)
Theorem rdate_end_never_used (L : Libical) (occ : CalObjTime) (rdate : CalObjRecurrenceDate)
    (rdate_periods : list CalObjRecurrenceDate)
    (Hs : StronglySorted (fun a b => rdate_compare a b <= 0) rdate_periods)
    (Hin : rdate ∈ rdate_periods)
    (Hocc : cal_obj_time_compare_func occ (rdate_start rdate) = 0) :
  cal_object_get_rdate_end occ rdate_periods = Ok None.
Proof.
  unfold cal_object_get_rdate_end. cbv zeta.
  destruct (rdate_search_spec (S (length rdate_periods)) occ rdate_periods 0
    (Z.of_nat (length rdate_periods)) None 0) as (r & c & -> & _ & Hc); [lia..|].
  apply list_elem_of_lookup_1 in Hin as [i Hi]. pose proof (lookup_lt_Some _ _ _ Hi).
  rewrite res_bind_Ok. by rewrite (Hc Hs i rdate) by (lia || done).
Qed.

Lemma rdate_end_never_used_witness :
  let at_ h := mkCalObjTime 2007 0 5 h 0 0 true in
  let p h := @mkPeriod Libical_utc (mkIcalTime 2007 1 5 h 0 0 false tt)
    (PERIOD_DURATION (mkIcalDuration 0 0 3 0 0)) in
  cal_object_get_rdate_end (at_ 9)
    [mkRecurrenceDate (at_ 9) (p 9); mkRecurrenceDate (at_ 14) (p 14)] = Ok None.
Proof.
  intros at_ p. apply (rdate_end_never_used Libical_utc _ (mkRecurrenceDate (at_ 9) (p 9))).
  - repeat constructor; vm_compute; discriminate.
  - left.
  - reflexivity.
Defined.

(** An event with an RDATE that starts in the last second of the interval is not
    found, while the same event without an RDATE is: DTSTART is compared with the
    end of the chunk as if it were exclusive. *)
Theorem dtstart_at_end_lost :
  let t := 1167987600 in
  let at_ d := mkIcalTime 2007 1 d 9 0 0 false tt in
  let event rdates := @mkComponent Libical_utc false false
    (@mkDateTime Libical_utc (Some (at_ 5)) None) (@mkDateTime Libical_utc (Some (at_ 6)) None)
    [] rdates [] [] in
  let rdate := @mkPeriod Libical_utc (at_ 20) (@PERIOD_DATETIME Libical_utc (at_ 21)) in
  let instances comp :=
    calls ← @e_cal_recur_generate_instances GDate_gregorian Libical_utc QSort_merge _ record
      1000 comp (t - 3600) (t + 1) (fun _ => None) None []; Ok (snd calls) in
  instances (event []) = Ok [(t, t + 86400)] /\ instances (event [rdate]) = Ok [].
Proof. split; reflexivity. Qed.
