(* ===== verification/RecurTotalSpec.v ===== *)
(** * Generating the instances always finishes

    For valid rules that are not MINUTELY or SECONDLY, RDATEs and EXDATEs with
    values, and an event and interval of the years 1960 to 2099, the whole generation
    has defined behaviour and terminates with the given fuel. *)

From S2P Require Import Prelude CalTimeUtil CalObjTime CalObjTimeSpec Libical LibicalUtc RecurRule RecurRuleSpec RecurFilters RecurSteps RecurEngine RecurStepsSpec RecurEngineSpec RecurExpandSpec RecurInstances RecurInstancesSpec.
From stdpp Require Import strings.
#[local] Open Scope Z_scope.

(** ** Times and durations *)

(** The years of the events considered. *)
Definition in_era (c : CalObjTime) : Prop := time_ok c /\ 1960 <= co_year c < 2100.

(** At most 20000 days, about 54 years. *)
Definition MAX_DURATION : Z := 20000.

Lemma time_ok_fields c c' : fields c = fields c' -> time_ok c' -> time_ok c.
Proof. unfold fields. intros [= E1 E2 E3 E4 E5 E6]. unfold time_ok, date_ok, clock_ok. by rewrite E1, E2, E3, E4, E5, E6. Qed.

Lemma era_serial y1 y2 c :
  date_ok c -> y1 <= co_year c < y2 ->
  Gregorian.year_base y1 < serial c <= Gregorian.year_base y2.
Proof.
  intros [_ Hv] Hy. pose proof (Gregorian.before_month_bounds _ _ _ Hv).
  unfold serial, Gregorian.serial.
  pose proof (Gregorian.year_base_mono (co_year c) y2).
  destruct (Z.eq_dec (co_year c) y1) as [E|]; [rewrite E in *; lia|].
  pose proof (Gregorian.year_base_mono y1 (co_year c)). pose proof (Gregorian.ydays_range y1). lia.
Qed.

Lemma add_duration_ok c days secs :
  time_ok c -> -86400 < secs < 86400 ->
  694000 < serial c + days < 20000000 ->
  exists c1 c2, cal_obj_time_add_days c days = Ok c1 /\ cal_obj_time_add_seconds c1 secs = Ok c2 /\
    time_ok c2 /\ timeline c2 = timeline c + days * 86400 + secs.
Proof.
  intros [Hd Hc] Hsecs Hr.
  assert (Gregorian.year_base 1900 = 693595) as Elo by reflexivity.
  assert (Gregorian.year_base 65536 = 23936166) as Ehi by reflexivity.
  destruct (add_days_spec c days Hd) as (c1 & E1 & D1 & K1 & S1); [unfold serial_in_range; lia|].
  assert (timeline c1 = timeline c + days * 86400) as L1.
  { unfold timeline, clock. destruct K1 as (-> & -> & -> & _). lia. }
  assert (clock_ok c1) as C1.
  { unfold clock_ok in *. destruct K1 as (-> & -> & -> & _). lia. }
  destruct (add_seconds_spec c1 secs) as (c2 & E2 & T2 & _ & L2); [done|unfold clock_ok in C1; lia| |].
  - unfold serial_in_range. rewrite Elo, Ehi. unfold timeline, clock, clock_ok in *.
    Z.to_euclidean_division_equations. lia.
  - exists c1, c2. repeat split; try done; try apply T2. lia.
Qed.

#[export] Instance rdate_compare_preorder {L : Libical} : CmpPreorder (@rdate_compare L).
Proof.
  split; intros *; unfold rdate_compare; [apply cmp_antisym|apply cmp_trans].
Qed.

(** ** The ends of the occurrences *)

Section total.
Context {G : GDate} `{!GDateLaws G} {L : Libical} {Q : QSort} `{!QSortLaws Q}.

(** An RDATE with a valid start and, if it has a duration, one in range. *)
Definition duration_ok (d : icaldurationtype) : Prop :=
  0 <= dur_weeks d * 7 + dur_days d <= MAX_DURATION /\ 0 <= dur_hours d <= MAX_DURATION /\
  0 <= dur_minutes d <= MAX_DURATION /\ 0 <= dur_seconds d <= MAX_DURATION.

Definition rdate_ok (p : ECalComponentPeriod) : Prop :=
  time_ok (rdate_cotime p) /\
  match period_u p with PERIOD_DURATION d => duration_ok d | PERIOD_DATETIME _ => True end.

Lemma get_rdate_end_total occ ps :
  time_ok occ -> 1902 <= co_year occ < 10000 -> Forall (fun r => rdate_ok (rdate_period r)) ps ->
  is_Ok (cal_object_get_rdate_end occ ps).
Proof.
  intros Hocc Hy Hps. unfold cal_object_get_rdate_end. cbv zeta.
  destruct (rdate_search_spec (S (length ps)) occ ps 0 (Z.of_nat (length ps)) None 0)
    as (r & c & -> & Hr & _); [lia..|]. rewrite res_bind_Ok.
  destruct (Z.eqb_spec c 0) as [->|Hc]; [by eexists|].
  destruct Hr as [(_ & -> & _)|(p & -> & Hp & _)]; [done|].
  rewrite Forall_forall in Hps. destruct (Hps p Hp) as [_ Hd].
  destruct (period_u (rdate_period p)) as [e|d]; [by eexists|].
  unfold duration_ok, MAX_DURATION in Hd. destruct Hd as (H1 & H2 & H3 & H4).
  rewrite !u32_small by lia. rewrite !s32_small by lia.
  pose proof (era_serial 1902 10000 occ (proj1 Hocc) Hy) as Hs.
  change (Gregorian.year_base 1902) with 694325 in Hs.
  change (Gregorian.year_base 10000) with 3652059 in Hs.
  pose proof Hocc as [Hd Hk]. unfold clock_ok in Hk.
  assert (forall c days, serial c = serial occ + days -> 0 <= days <= 40000 -> serial_in_range (serial c)) as Hin.
  { intros. unfold serial_in_range. change (Gregorian.year_base 1900) with 693595.
    change (Gregorian.year_base 65536) with 23936166. lia. }
  assert (forall x, timeline occ <= x <= timeline occ + 30000 * 86400 -> serial_in_range (x / 86400)) as Hline.
  { intros x Hx. unfold serial_in_range. change (Gregorian.year_base 1900) with 693595.
    change (Gregorian.year_base 65536) with 23936166. unfold timeline, clock in Hx.
    Z.to_euclidean_division_equations. lia. }
  destruct (add_days_spec occ (dur_weeks d * 7 + dur_days d)) as (c1 & -> & D1 & K1 & S1); [done| |].
  { unfold serial_in_range. change (Gregorian.year_base 1900) with 693595.
    change (Gregorian.year_base 65536) with 23936166. lia. }
  assert (time_ok c1) as T1.
  { split; [done|]. by eapply same_clock_ok; [exact K1|]. }
  assert (timeline c1 = timeline occ + (dur_weeks d * 7 + dur_days d) * 86400) as L1.
  { unfold timeline, clock. destruct K1 as (-> & -> & -> & _). lia. }
  rewrite res_bind_Ok.
  destruct (add_hours_spec c1 (dur_hours d)) as (c2 & -> & T2 & _ & L2); [done|apply Hline; lia|].
  rewrite res_bind_Ok.
  destruct (add_minutes_spec c2 (dur_minutes d)) as (c3 & -> & T3 & _ & L3);
    [done|destruct T2 as [_ K2]; unfold clock_ok in K2; lia|apply Hline; lia|].
  rewrite res_bind_Ok.
  destruct (add_seconds_spec c3 (dur_seconds d)) as (c4 & -> & _);
    [done|destruct T3 as [_ K3]; unfold clock_ok in K3; lia|apply Hline; lia|].
  by eexists.
Qed.

Lemma occ_end_total occ ps days secs :
  time_ok occ -> 1902 <= co_year occ < 10000 -> Forall (fun r => rdate_ok (rdate_period r)) ps ->
  0 <= days <= MAX_DURATION -> 0 <= secs < 86400 -> is_Ok (occ_end ps days secs occ).
Proof.
  intros Hocc Hy Hps Hd Hs. unfold occ_end.
  assert (is_Ok (if co_flags occ then cal_object_get_rdate_end occ ps else Ok None)) as [o ->].
  { destruct (co_flags occ); [by apply get_rdate_end_total|by eexists]. }
  rewrite res_bind_Ok. destruct o as [e|]; [by eexists|].
  pose proof (era_serial 1902 10000 occ (proj1 Hocc) Hy) as Hser.
  change (Gregorian.year_base 1902) with 694325 in Hser.
  change (Gregorian.year_base 10000) with 3652059 in Hser. unfold MAX_DURATION in Hd.
  destruct (add_duration_ok occ days secs) as (c1 & c2 & -> & E2 & _); [done|lia..|].
  rewrite res_bind_Ok, E2. by eexists.
Qed.

Lemma instances_loop_total {S} (cb : Z -> Z -> S -> bool * S) occs dts zone start lo hi ps days secs fin s :
  Forall time_ok occs -> 1902 <= co_year lo -> co_year hi < 10000 ->
  Forall (fun r => rdate_ok (rdate_period r)) ps ->
  0 <= days <= MAX_DURATION -> 0 <= secs < 86400 ->
  is_Ok (instances_loop cb occs dts zone start lo hi ps days secs fin s).
Proof.
  intros Hoccs Hlo Hhi Hps Hd Hs. revert s. induction Hoccs as [|occ occs Hocc _ IH]; intros s; [by eexists|].
  rewrite instances_loop_step.
  assert (is_Ok (step_of dts start zone lo hi ps days secs occ)) as [step ->].
  { unfold step_of. case_match; [by eexists|]. case_match eqn:Ebad; [by eexists|].
    apply orb_false_iff in Ebad as [[_ H1]%orb_false_iff H2].
    pose proof (compare_year_le occ hi). pose proof (compare_year_le lo occ).
    pose proof (cmp_antisym lo occ).
    destruct (occ_end_total occ ps days secs) as [e ->]; [done|lia|done..|]. by eexists. }
  rewrite res_bind_Ok. destruct step as [| |a b]; cbv zeta; [by eexists|apply IH|].
  destruct (cb a b s) as [[] s']; [apply IH|by eexists].
Qed.

(** ** The occurrences of a chunk *)

(** What the generation needs of a rule: it is valid, and its start is exact. *)
Definition rule_ready (zone : option icaltimezone) (conv : bool) (prop : icalproperty) : Prop :=
  let r := e_cal_recur_from_icalproperty prop false zone conv in
  rule_valid r /\ freq r <> ICAL_MINUTELY_RECURRENCE /\ freq r <> ICAL_SECONDLY_RECURRENCE.

(** One round per hour from the event to the end of the last year, and some for the
    last, longer period. *)
Definition instances_fuel (es : CalObjTime) : nat :=
  (20 + Z.to_nat ((serial (interval_last None) + 1) * 24 - (serial es * 24 + co_hour es)))%nat.

Lemma expand_fuel_le f es e :
  f <> ICAL_MINUTELY_RECURRENCE -> f <> ICAL_SECONDLY_RECURRENCE ->
  f <> ICAL_NO_RECURRENCE -> working_time es -> date_ok e -> co_year e <= MAX_YEAR ->
  (expand_fuel f es e <= instances_fuel es)%nat.
Proof.
  intros Hf1 Hf2 Hf3 Hes He Hy. unfold expand_fuel, instances_fuel.
  change (serial (interval_last None)) with 743999. unfold MAX_YEAR in Hy.
  assert (serial e <= 743999) as Hser.
  { destruct He as [Hy' Hv]. pose proof (Gregorian.before_month_bounds _ _ _ Hv).
    unfold serial, Gregorian.serial. pose proof (Gregorian.year_base_mono (co_year e) 2038).
    change (Gregorian.year_base 2038) with 743999 in *. lia. }
  destruct Hes as [[[_ Hv] Hc] Hy2]. pose proof (Gregorian.before_month_bounds _ _ _ Hv) as Hb.
  assert (serial es = Gregorian.year_base (co_year es) + Gregorian.before_month (co_year es) (Z.to_nat (co_month es)) + co_day es) as Es by done.
  assert (co_year es <= 2037 -> serial es + 365 * (2037 - co_year es) <= 743999) as Hle.
  { intros Hle. pose proof (Gregorian.year_base_succ (co_year es)).
    assert (Gregorian.year_base (co_year es + 1) + 365 * (2037 - co_year es) <= 743999); [|lia].
    clear -Hle. unfold Gregorian.year_base. Z.to_euclidean_division_equations. lia. }
  unfold clock_ok in Hc. destruct Hv as [Hm _]. destruct He as [_ [Hme _]].
  destruct f; try done; cbn [period_limit period_type period_no]; lia.
Qed.

Section chunk.
Context (fuel : nat) (zone : option icaltimezone) (conv : bool) (es lo hi : CalObjTime).
Hypothesis (Hes : working_time es) (Hlo : working_time lo).
Hypothesis (Hhi : interval_end_ok hi) (Hmax : co_year hi <= MAX_YEAR).
Hypothesis (Hfuel : (instances_fuel es <= fuel)%nat).

Lemma rules_loop_total rules :
  Forall (rule_ready zone conv) rules ->
  exists occs fin, rules_loop fuel rules es zone lo hi conv = Ok (occs, fin) /\ Forall time_ok occs.
Proof.
  induction 1 as [|prop rules (Hr & Hm & Hs) _ (occs & fin & E & Hoccs)]; [by exists [], true|].
  cbn [rules_loop]. cbv zeta in *. set (r := e_cal_recur_from_icalproperty prop false zone conv) in *.
  assert (exists occs1 fin1, cal_obj_expand_recurrence fuel es zone r lo (Some hi) = Ok (occs1, fin1) /\
    Forall time_ok occs1) as (occs1 & fin1 & -> & H1).
  { destruct (decide (freq r = ICAL_NO_RECURRENCE)) as [Hn|Hn].
    - exists [], true. split; [|done]. unfold cal_obj_expand_recurrence. by rewrite Hn.
    - destruct (expand_total G _ L Q _ r es lo hi zone fuel) as (occs1 & fin1 & ? & ? & _); try done.
      + unfold expand_exact, start_exact. destruct (freq r); tauto.
      + pose proof (expand_fuel_le (freq r) es hi Hm Hs Hn Hes (proj1 Hhi) Hmax). lia.
      + by exists occs1, fin1. }
  rewrite res_bind_Ok, E, res_bind_Ok. eexists _, _. split; [done|]. by apply Forall_app.
Qed.

Lemma rdates_loop_ok rdates occs ps fin :
  Forall rdate_ok rdates -> Forall time_ok occs -> Forall (fun r => rdate_ok (rdate_period r)) ps ->
  exists occs' ps' fin', rdates_loop rdates hi (occs, ps, fin) = (occs', ps', fin') /\
    Forall time_ok occs' /\ Forall (fun r => rdate_ok (rdate_period r)) ps'.
Proof.
  intros Hr. revert occs ps fin. induction Hr as [|p rdates Hp _ IH]; intros occs ps fin Ho Hps.
  { by exists occs, ps, fin. }
  cbn [rdates_loop]. cbv zeta. pose proof (proj1 Hp) as Ht.
  destruct (0 <=? _); [by apply IH|].
  destruct (rdate_has_end p); apply IH; rewrite ?Forall_app, ?Forall_singleton; done.
Qed.

Lemma exdates_Ok exdates l :
  Forall (fun cdt => cdt_value cdt <> None) exdates ->
  is_Ok (foldM (fun cdt l => c ← exdate_cotime cdt; Ok (l ++ [c])) exdates l).
Proof.
  intros H. revert l. induction H as [|cdt exdates Hc _ IH]; intros l; [by eexists|].
  cbn [foldM]. assert (is_Ok (exdate_cotime cdt)) as [c ->].
  { unfold exdate_cotime. destruct (cdt_value cdt); [by eexists|done]. }
  rewrite !res_bind_Ok. apply IH.
Qed.

Lemma chunk_occurrences_total rrules rdates exrules exdates single :
  Forall (rule_ready zone conv) (rrules ++ exrules) -> Forall rdate_ok rdates ->
  Forall (fun cdt => cdt_value cdt <> None) exdates ->
  exists occs ps fin,
    chunk_occurrences fuel zone rrules rdates exrules exdates single es lo hi conv
      = Ok (occs, ps, fin) /\
    Forall time_ok occs /\ Forall (fun r => rdate_ok (rdate_period r)) ps.
Proof.
  intros [Hr Hex]%Forall_app Hrd Hexd. unfold chunk_occurrences.
  assert (exists occs0 fin0, (if single then ([], true)
    else if 0 <=? cal_obj_time_compare_func es hi then ([], false)
    else if 0 <=? cal_obj_time_compare_func es lo then ([es], true) else ([], true)) = (occs0, fin0) /\
    Forall time_ok occs0) as (occs0 & fin0 & -> & H0).
  { pose proof (proj1 Hes). repeat case_match; eexists _, _; (split; [reflexivity|]);
      first [by apply Forall_nil_2 | by apply Forall_singleton]. }
  destruct (rules_loop_total rrules Hr) as (occs1 & fin1 & -> & H1). rewrite res_bind_Ok.
  destruct (rdates_loop_ok rdates (occs0 ++ occs1) [] (fin0 && fin1)) as (occs2 & ps & fin & -> & H2 & Hps);
    [done|by apply Forall_app|done|].
  destruct (rules_loop_total exrules Hex) as (occs3 & fin3 & -> & _). rewrite res_bind_Ok.
  destruct (exdates_Ok exdates [] Hexd) as [ex ->]. rewrite res_bind_Ok. cbv zeta.
  destruct (exceptions_loop_total (cal_obj_sort_occurrences occs2) None
    (cal_obj_sort_occurrences (occs3 ++ ex)) false []) as [occs Eo]; [done|].
  assert (cal_obj_remove_exceptions (cal_obj_sort_occurrences occs2)
    (cal_obj_sort_occurrences (occs3 ++ ex)) = Ok occs) as E by exact Eo.
  rewrite E, res_bind_Ok. eexists _, _, _. split; [done|].
  apply remove_exceptions_sorted in E as [_ Hsub]; [|apply sort_occurrences_sorted].
  split.
  - rewrite Forall_forall in H2 |- *. intros c Hc. apply Hsub in Hc.
    apply list_elem_of_fmap in Hc as (d & Ef & Hd). unfold cal_obj_sort_occurrences in Hd.
    rewrite qsort_perm in Hd by apply _. eapply time_ok_fields; [exact Ef|by apply H2].
  - by rewrite qsort_perm by apply rdate_compare_preorder.
Qed.
End chunk.

(** ** The years *)

Lemma chunk_start_ok iv year :
  working_time iv -> co_year iv <= year <= MAX_YEAR -> working_time (chunk_start_of iv year).
Proof.
  unfold MAX_YEAR. intros Hiv Hy. pose proof (proj2 Hiv). unfold chunk_start_of.
  destruct (Z.eqb_spec year (co_year iv)) as [->|]; [by rewrite set_year_same by lia|].
  rewrite u16_small by lia. unfold working_time, time_ok, date_ok, clock_ok, Gregorian.valid.
  cbn [co_year co_month co_day co_hour co_minute co_second].
  pose proof (Gregorian.mdays_range year 0). lia.
Qed.

Lemma chunk_end_ok ie year :
  1902 <= year <= MAX_YEAR -> match ie with Some e => in_era e | None => True end ->
  interval_end_ok (chunk_end_of ie year).
Proof.
  unfold MAX_YEAR. intros Hy Hie.
  assert (interval_end_ok (mkCalObjTime (u16 year) 11 31 23 59 61 false)) as Hlast.
  { rewrite u16_small by lia. unfold interval_end_ok, date_ok, Gregorian.valid, Gregorian.mdays.
    cbn [co_year co_month co_day]. change (11 =? 1) with false. cbn. lia. }
  unfold chunk_end_of. destruct ie as [e|]; [|done]. destruct Hie as [[Hd _] He].
  destruct (Z.eqb_spec year (co_year e)) as [->|]; [|done].
  rewrite set_year_same by lia. split; [done|lia].
Qed.

Lemma year_loop_total {S} (iv : CalObjTime) ie n year
    (chunk : CalObjTime -> CalObjTime -> S -> res (bool * S)) s :
  working_time iv -> co_year iv <= year -> match ie with Some e => in_era e | None => True end ->
  (Z.to_nat (MAX_YEAR + 1 - year) < n)%nat ->
  (forall lo hi s, working_time lo -> interval_end_ok hi -> co_year hi <= MAX_YEAR ->
     is_Ok (chunk lo hi s)) ->
  is_Ok (year_loop n year iv ie chunk s).
Proof.
  intros Hiv Hy Hie. revert year Hy s. induction n as [|n IH]; intros year Hy s Hn Hchunk; [lia|].
  cbn [year_loop]. destruct (_ && _) eqn:Econd; [|by eexists].
  apply andb_true_iff in Econd as [Hend Hmax%Z.leb_le]. pose proof (proj2 Hiv) as Hiy.
  destruct (year_chunk iv ie year) as (_ & Ehi & _ & _); [lia..| |].
  { destruct ie as [e|]; [|done]. destruct Hie as [_ He]. lia. }
  destruct (Hchunk (chunk_start_of iv year) (chunk_end_of ie year) s) as [[carry s'] ->].
  - apply chunk_start_ok; [done|lia].
  - apply chunk_end_ok; [lia|done].
  - lia.
  - rewrite res_bind_Ok. destruct carry; [|by eexists]. apply IH; [lia| |done].
    unfold MAX_YEAR in *. lia.
Qed.

Lemma from_rules_total {S} (cb : Z -> Z -> S -> bool * S) fuel rrules rdates exrules exdates single
    start end_ zone dts dte conv s :
  let es := cal_object_time_from_time dts zone in
  let ee := cal_object_time_from_time dte zone in
  Forall (rule_ready zone conv) (rrules ++ exrules) -> Forall rdate_ok rdates ->
  Forall (fun cdt => cdt_value cdt <> None) exdates ->
  in_era es -> time_ok ee -> 0 <= timeline ee - timeline es <= MAX_DURATION * 86400 ->
  in_era (cal_object_time_from_time start zone) ->
  (end_ = -1 \/ in_era (cal_object_time_from_time (end_ - 1) zone)) ->
  (instances_fuel es <= fuel)%nat ->
  is_Ok (generate_from_rules cb fuel rrules rdates exrules exdates single start end_ zone dts dte conv s).
Proof.
  intros es ee Hrules Hrdates Hexdates Hes Hee Hdur Hstart Hend Hfuel. unfold generate_from_rules.
  cbv zeta. fold es ee.
  destruct (compute_duration_spec G _ es ee (proj1 Hes) Hee) as (days & secs & -> & Hsecs & Hline).
  unfold MAX_DURATION in Hdur.
  assert (0 <= days <= MAX_DURATION) as Hdays by (unfold MAX_DURATION; lia).
  set (st := cal_object_time_from_time start zone) in *.
  assert (exists iv, (if dts <? start then
      interval_start ← cal_obj_time_add_days st (- days);
      cal_obj_time_add_seconds interval_start (- secs) else Ok st) = Ok iv /\ working_time iv)
    as (iv & -> & Hiv).
  { destruct Hstart as [Ht Hy]. pose proof (era_serial 1960 2100 st (proj1 Ht) Hy) as Hser.
    change (Gregorian.year_base 1960) with 715509 in Hser.
    change (Gregorian.year_base 2100) with 766644 in Hser.
    destruct (dts <? start); [|exists st; split; [done|]; split; [done|lia]].
    unfold MAX_DURATION in Hdays.
    destruct (add_duration_ok st (- days) (- secs)) as (c1 & c2 & -> & E2 & T2 & L2); [done|lia..|].
    exists c2. rewrite res_bind_Ok. split; [done|]. split; [done|].
    assert (1902 <= co_year c2 < 2100); [|lia]. apply year_of_serial; [apply T2|].
    change (Gregorian.year_base 1902) with 694325. change (Gregorian.year_base 2100) with 766644.
    destruct Ht as [_ K], T2 as [_ K2]. unfold timeline, clock, clock_ok in *. lia. }
  rewrite res_bind_Ok. apply year_loop_total; [done|lia| |unfold year_fuel; lia|].
  - destruct (Z.eqb_spec end_ (-1)); cbn [negb]; [done|]. by destruct Hend.
  - intros lo hi s' Hlo Hhi Hmax. unfold generate_instances_for_chunk.
    assert (working_time es) as Hwes by (split; [apply Hes|destruct Hes; lia]).
    destruct (chunk_occurrences_total fuel zone conv es lo hi Hwes Hlo Hhi Hmax Hfuel
      rrules rdates exrules exdates single Hrules Hrdates Hexdates) as (occs & ps & fin & -> & Ho & Hps).
    rewrite res_bind_Ok.
    destruct (instances_loop_total cb occs dts zone start lo hi ps days secs fin s')
      as [[[st' fin'] s''] ->]; try done; [apply Hlo|destruct Hhi; lia|].
    rewrite res_bind_Ok. by eexists.
Qed.
End total.

(** C2: for valid rules (not MINUTELY or SECONDLY), RDATEs and EXDATEs, and an event of
    at most 20000 days and an interval in the years 1960 to 2099, generating the
    instances has defined behaviour and terminates with one round of fuel per hour
    up to the end of 2037: there is one list of instances, in increasing order,
    and every callback is run on it until it returns [FALSE]. *)
Theorem instances_generated (G : GDate) (GL : GDateLaws G) (L : Libical)
    (Q : QSort) (QL : QSortLaws Q) (fuel : nat) (rrules : list icalproperty)
    (rdates : list ECalComponentPeriod) (exrules : list icalproperty)
    (exdates : list ECalComponentDateTime) (single_rule : bool) (start end_ : Z)
    (zone : option icaltimezone) (dtstart_time dtend_time : Z) (conv : bool)
    (event_start := cal_object_time_from_time dtstart_time zone)
    (event_end := cal_object_time_from_time dtend_time zone)
    (Hrules : Forall (rule_ready zone conv) (rrules ++ exrules))
    (Hrdates : Forall rdate_ok rdates)
    (Hexdates : Forall (fun cdt => cdt_value cdt <> None) exdates)
    (Hes : in_era event_start) (Hee : time_ok event_end)
    (Hdur : 0 <= timeline event_end - timeline event_start <= MAX_DURATION * 86400)
    (Hstart : in_era (cal_object_time_from_time start zone))
    (Hend : end_ = -1 \/ in_era (cal_object_time_from_time (end_ - 1) zone))
    (Hfuel : (instances_fuel event_start <= fuel)%nat) :
  exists calls occs,
    strictly_sorted occs /\ Forall2 (instance_of dtstart_time start end_ zone) occs calls /\
    forall S (cb : Z -> Z -> S -> bool * S) s,
      generate_from_rules cb fuel rrules rdates exrules exdates single_rule start end_ zone
        dtstart_time dtend_time conv s = Ok (snd (run_calls cb calls s)).
Proof.
  destruct (from_rules_total record fuel rrules rdates exrules exdates single_rule start end_ zone
    dtstart_time dtend_time conv []) as [calls E]; try done.
  apply from_rules_calls in E as (calls' & occs & -> & Hs & Hcalls & Hrun). by exists calls', occs.
Qed.

Lemma instances_generated_witness :
  let start := 1167987600 in
  exists calls occs, strictly_sorted occs /\
    Forall2 (@instance_of Libical_utc start start (-1) None) occs calls.
Proof.
  intros start.
  destruct (instances_generated GDate_gregorian _ Libical_utc QSort_merge _
    (instances_fuel (mkCalObjTime 2007 0 5 9 0 0 false)) [decade_rule] [] [] [] false start (-1) None
    start (start + 3600) true) as (calls & occs & H1 & H2 & _).
  - apply Forall_cons_2; [|apply Forall_nil_2]. split; [|split; vm_compute; discriminate].
    split; [|concrete|concrete|concrete|concrete|concrete|concrete|concrete].
    split; vm_compute; repeat constructor.
  - concrete.
  - concrete.
  - concrete.
  - concrete.
  - concrete.
  - concrete.
  - by left.
  - apply Nat.le_refl.
  - by exists calls, occs.
Defined.
