(* ===== verification/UuCode.v ===== *)
(** * Uuencoding ([camel-mime-utils.c])

    [camel_uuencode_step], [camel_uuencode_close] and [camel_uudecode_step] of
    [src/camel/camel-mime-utils.c], with the state they keep between the chunks
    of a stream: an [int] that packs the length of the current line and the number
    of bytes in [save], and the leftover bytes [save] (and the encoded characters
    of the current line, [uubuf]).  Bytes are numbers from 0 to 255; output
    is the list of bytes written. *)

From S2P Require Import Prelude.

(** [CAMEL_UUENCODE_CHAR], [CAMEL_UUDECODE_CHAR] *)
Definition CAMEL_UUENCODE_CHAR (c : Z) : Z := if c =? 0 then 96 else c + 32.
Definition CAMEL_UUDECODE_CHAR (c : Z) : Z := Z.land (c - 32) 63.

Definition CAMEL_UUDECODE_STATE_BEGIN : Z := 2 ^ 16.
Definition CAMEL_UUDECODE_STATE_END : Z := 2 ^ 17.
Definition CAMEL_UUDECODE_STATE_MASK : Z :=
  Z.lor CAMEL_UUDECODE_STATE_BEGIN CAMEL_UUDECODE_STATE_END.

(** ** Encoding *)

(** The local variables: [saved], [i], [uulen], [bufptr - uubuf], [uubuf] and what has
    been written to [out]. *)
Record uu_state := mkUu {
  uu_saved : Z;
  uu_i : Z;
  uu_len : Z;
  uu_ptr : Z;
  uu_buf : list Z;
  uu_out : list Z;
}.

(** "convert 3 normal bytes into 4 uuencoded bytes" *)
Definition uu_convert (st : uu_state) : res uu_state :=
  let saved := uu_saved st in
  let b0 := u8 (Z.shiftr saved 16) in
  let b1 := u8 (Z.land (Z.shiftr saved 8) 0xff) in
  let b2 := u8 (Z.land saved 0xff) in
  let p := uu_ptr st in
  buf ← arr_set (uu_buf st) p (u8 (CAMEL_UUENCODE_CHAR (Z.land (Z.shiftr b0 2) 0x3f)));
  buf ← arr_set buf (p + 1) (u8 (CAMEL_UUENCODE_CHAR
    (Z.land (Z.lor (Z.shiftl b0 4) (Z.land (Z.shiftr b1 4) 0xf)) 0x3f)));
  buf ← arr_set buf (p + 2) (u8 (CAMEL_UUENCODE_CHAR
    (Z.land (Z.lor (Z.shiftl b1 2) (Z.land (Z.shiftr b2 6) 0x3)) 0x3f)));
  buf ← arr_set buf (p + 3) (u8 (CAMEL_UUENCODE_CHAR (Z.land b2 0x3f)));
  Ok (mkUu 0 0 (uu_len st + 3) (p + 4) buf (uu_out st)).

(** [memcpy (outptr, uubuf, n)] *)
Definition uu_copy (buf : list Z) (n : Z) : res (list Z) :=
  if (n <? 0) || (Z.of_nat (length buf) <? n) then Undef else Ok (take (Z.to_nat n) buf).

(** [while (i < 3 && inptr < inend)] *)
Fixpoint uu_fill (inp : list Z) (saved i : Z) : list Z * Z * Z :=
  match inp with
  | [] => ([], saved, i)
  | c :: rest =>
      if i <? 3 then uu_fill rest (u32 (Z.lor (Z.shiftl saved 8) c)) (i + 1)
      else (inp, saved, i)
  end.

(** [while (uulen < 45 && inptr < inend)] *)
Fixpoint uu_line_loop (fuel : nat) (inp : list Z) (st : uu_state) : res (list Z * uu_state) :=
  match fuel with
  | O => NoFuel
  | S fuel =>
      if (uu_len st <? 45) && negb (bool_decide (inp = [])) then
        let '(inp, saved, i) := uu_fill inp (uu_saved st) (uu_i st) in
        let st := mkUu saved i (uu_len st) (uu_ptr st) (uu_buf st) (uu_out st) in
        st ← (if i =? 3 then uu_convert st else Ok st);
        uu_line_loop fuel inp st
      else Ok (inp, st)
  end.

(** [while (inptr < inend)] *)
Fixpoint uu_loop (fuel : nat) (inp : list Z) (st : uu_state) : res uu_state :=
  match fuel with
  | O => NoFuel
  | S fuel =>
      if bool_decide (inp = []) then Ok st
      else
        '(inp, st) ← uu_line_loop (S (length inp)) inp st;
        st ← (if 45 <=? uu_len st then
                line ← uu_copy (uu_buf st) (Z.quot (uu_len st) 3 * 4);
                Ok (mkUu (uu_saved st) (uu_i st) 0 0 (uu_buf st)
                  (uu_out st ++ u8 (CAMEL_UUENCODE_CHAR (Z.land (uu_len st) 0xff)) :: line ++ [10]))
              else Ok st);
        uu_loop fuel inp st
  end.

Definition uu_pack (uulen i : Z) : Z := Z.lor (Z.shiftl (Z.land uulen 0xff) 8) (Z.land i 0xff).

(** The output, [uubuf], [*state] and [*save]. *)
Definition camel_uuencode_step (inp uubuf : list Z) (state save : Z)
    : res (list Z * list Z * Z * Z) :=
  let i := Z.land state 0xff in
  let uulen := Z.land (Z.shiftr state 8) 0xff in
  st ← uu_loop (S (length inp)) inp (mkUu save i uulen (Z.quot uulen 3 * 4) uubuf []);
  Ok (uu_out st, uu_buf st, uu_pack (uu_len st) (uu_i st), uu_saved st).

(** [while (i < 3)] of [camel_uuencode_close]: [saved], [uufill] and [i]. *)
Fixpoint uu_pad (fuel : nat) (saved uufill i : Z) : res (Z * Z * Z) :=
  match fuel with
  | O => NoFuel
  | S fuel =>
      if i <? 3 then uu_pad fuel (u32 (Z.shiftl saved (Z.lor 8 0))) (uufill + 1) (i + 1)
      else Ok (saved, uufill, i)
  end.

(** [camel_uuencode_close] after [camel_uuencode_step], which has written [out]. *)
Definition uu_close_rest (out uubuf : list Z) (state save : Z)
    : res (list Z * list Z * Z * Z) :=
  let i := Z.land state 0xff in
  let uulen := Z.land (Z.shiftr state 8) 0xff in
  let st := mkUu save i uulen (Z.quot uulen 3 * 4) uubuf out in
  '(st, uufill) ←
    (if 0 <? i then
       '(saved, uufill, i) ← uu_pad 4 save 0 i;
       let st := mkUu saved i uulen (Z.quot uulen 3 * 4) uubuf out in
       if i =? 3 then st ← uu_convert st; Ok (st, uufill) else Ok (st, uufill)
     else Ok (st, 0));
  let uulen := uu_len st in
  '(out, uulen) ←
    (if 0 <? uulen then
       line ← uu_copy (uu_buf st) (Z.quot uulen 3 * 4);
       Ok (uu_out st ++ u8 (CAMEL_UUENCODE_CHAR (Z.land (uulen - uufill) 0xff)) :: line ++ [10], 0)
     else Ok (uu_out st, uulen));
  Ok (out ++ [u8 (CAMEL_UUENCODE_CHAR (Z.land uulen 0xff)); 10], uu_buf st, 0, 0).

Definition camel_uuencode_close (inp uubuf : list Z) (state save : Z)
    : res (list Z * list Z * Z * Z) :=
  '(out, uubuf, state, save) ←
    (if negb (bool_decide (inp = [])) then camel_uuencode_step inp uubuf state save
     else Ok ([], uubuf, state, save));
  uu_close_rest out uubuf state save.

(** ** Decoding *)

(** The three output bytes of a group, of which [uulen] are part of the line. *)
Definition uu_group (uulen saved : Z) : list Z :=
  let b0 := u8 (Z.shiftr saved 24) in
  let b1 := u8 (Z.land (Z.shiftr saved 16) 0xff) in
  let b2 := u8 (Z.land (Z.shiftr saved 8) 0xff) in
  let b3 := u8 (Z.land saved 0xff) in
  let o0 := u8 (Z.lor (Z.shiftl (CAMEL_UUDECODE_CHAR b0) 2) (Z.shiftr (CAMEL_UUDECODE_CHAR b1) 4)) in
  let o1 := u8 (Z.lor (Z.shiftl (CAMEL_UUDECODE_CHAR b1) 4) (Z.shiftr (CAMEL_UUDECODE_CHAR b2) 2)) in
  let o2 := u8 (Z.lor (Z.shiftl (CAMEL_UUDECODE_CHAR b2) 6) (CAMEL_UUDECODE_CHAR b3)) in
  if 3 <=? uulen then [o0; o1; o2]
  else (if 1 <=? uulen then [o0] else []) ++ (if 2 <=? uulen then [o1] else []).

(** The loop: the output, [uulen], [i], [saved], and whether the end of the data
    ([CAMEL_UUDECODE_STATE_END]) was found. *)
Fixpoint uu_decode_loop (inp : list Z) (uulen i saved : Z) (last_was_eoln : bool)
    : list Z * Z * Z * Z * bool :=
  match inp with
  | [] => ([], uulen, i, saved, false)
  | ch :: rest =>
      if (ch =? 10) || last_was_eoln then
        if last_was_eoln && negb (ch =? 10) then
          let uulen := CAMEL_UUDECODE_CHAR ch in
          if uulen =? 0 then ([], uulen, i, saved, true)
          else uu_decode_loop rest uulen i saved false
        else uu_decode_loop rest uulen i saved true
      else if 0 <? uulen then
        let saved := u32 (Z.lor (Z.shiftl saved 8) ch) in
        let i := i + 1 in
        if i =? 4 then
          let '(out, uulen', i, saved', fin) := uu_decode_loop rest (uulen - 3) 0 0 false in
          (uu_group uulen saved ++ out, uulen', i, saved', fin)
        else uu_decode_loop rest uulen i saved false
      else ([], uulen, i, saved, false)
  end.

(** The output, [*state] and [*save]. *)
Definition camel_uudecode_step (inp : list Z) (state save : Z) : list Z * Z * Z :=
  if negb (Z.land state CAMEL_UUDECODE_STATE_END =? 0) then ([], state, save)
  else
    let i := Z.land state 0xff in
    let uulen := Z.land (Z.shiftr state 8) 0xff in
    let '(out, uulen', i', saved, fin) := uu_decode_loop inp uulen i save (uulen =? 0) in
    let state := if fin : bool then Z.lor state CAMEL_UUDECODE_STATE_END else state in
    (out, Z.lor (Z.lor (Z.land state CAMEL_UUDECODE_STATE_MASK)
                   (Z.shiftl (Z.land uulen' 0xff) 8)) (Z.land i' 0xff), saved).
