(* ===== verification/UuCodeSpec.v ===== *)
(** * Uuencoding: streaming, and decoding what was encoded

    However the input is cut into chunks, the encoder writes the uuencoded text of the
    whole input; and the decoder turns that text back into the input. *)

From S2P Require Import Prelude UuCode.

(** ** The uuencoded text of some bytes *)

(** The four characters of three bytes. *)
Definition uu_enc3 (a b c : Z) : list Z :=
  [CAMEL_UUENCODE_CHAR (a / 4); CAMEL_UUENCODE_CHAR (a mod 4 * 16 + b / 16);
   CAMEL_UUENCODE_CHAR (b mod 16 * 4 + c / 64); CAMEL_UUENCODE_CHAR (c mod 64)].

Fixpoint uu_chars (l : list Z) : list Z :=
  match l with
  | a :: b :: c :: l => uu_enc3 a b c ++ uu_chars l
  | [a; b] => uu_enc3 a b 0
  | [a] => uu_enc3 a 0 0
  | [] => []
  end.

(** A line: its number of bytes, their characters, and the end of the line. *)
Definition uu_line (l : list Z) : list Z :=
  CAMEL_UUENCODE_CHAR (Z.of_nat (length l)) :: uu_chars l ++ [10].

(** Lines of 45 bytes; the last one may be shorter. *)
Fixpoint uu_lines (fuel : nat) (l : list Z) : list Z :=
  match fuel, l with
  | O, _ | _, [] => []
  | S fuel, _ => uu_line (take 45 l) ++ uu_lines fuel (drop 45 l)
  end.

Definition uu_text (l : list Z) : list Z := uu_lines (length l) l ++ [96; 10].

(** Induction by three elements. *)
Lemma list_ind3 {A} (P : list A -> Prop) :
  P [] -> (forall a, P [a]) -> (forall a b, P [a; b]) ->
  (forall a b c l, P l -> P (a :: b :: c :: l)) -> forall l, P l.
Proof.
  intros H0 H1 H2 H3. fix IH 1. intros [|a [|b [|c l]]]; [done|apply H1|apply H2|apply H3, IH].
Qed.

Lemma uu_chars_app l k :
  (3 | length l)%nat -> uu_chars (l ++ k) = uu_chars l ++ uu_chars k.
Proof.
  induction l as [|a|a b|a b c l IH] using list_ind3; intros [n Hn]; cbn [length] in Hn; try lia; [done|].
  cbn [app uu_chars]. rewrite IH, <- app_assoc; [done|]. exists (n - 1)%nat. lia.
Qed.

Lemma uu_chars_length l : Z.of_nat (length (uu_chars l)) = (Z.of_nat (length l) + 2) / 3 * 4.
Proof.
  induction l as [|a|a b|a b c l IH] using list_ind3; [done..|].
  cbn [uu_chars length]. rewrite length_app, Nat2Z.inj_add, IH. cbn [uu_enc3 length]. div_lia.
Qed.

(** ** Encoding byte by byte *)

(** The line is complete. *)
Definition uu_flush (st : uu_state) : res uu_state :=
  if 45 <=? uu_len st then
    line ← uu_copy (uu_buf st) (Z.quot (uu_len st) 3 * 4);
    Ok (mkUu (uu_saved st) (uu_i st) 0 0 (uu_buf st)
      (uu_out st ++ u8 (CAMEL_UUENCODE_CHAR (Z.land (uu_len st) 0xff)) :: line ++ [10]))
  else Ok st.

(** The byte is shifted into [saved]. *)
Definition uu_shift (c : Z) (st : uu_state) : uu_state :=
  mkUu (u32 (Z.lor (Z.shiftl (uu_saved st) 8) c)) (uu_i st + 1) (uu_len st)
    (uu_ptr st) (uu_buf st) (uu_out st).

Definition uu_push (c : Z) (st : uu_state) : res uu_state :=
  let st := uu_shift c st in
  if uu_i st =? 3 then st ← uu_convert st; uu_flush st else Ok st.

Lemma uu_push_more c st : uu_i st + 1 <> 3 -> uu_push c st = Ok (uu_shift c st).
Proof. intros H. unfold uu_push. cbn [uu_i uu_shift]. by rewrite (proj2 (Z.eqb_neq _ _) H). Qed.
Lemma uu_push_full c st :
  uu_i st + 1 = 3 -> uu_push c st = uu_convert (uu_shift c st) ≫= uu_flush.
Proof. intros H. unfold uu_push. cbn [uu_i uu_shift]. by rewrite (proj2 (Z.eqb_eq _ _) H). Qed.

Lemma uu_fill_push inp st inp' saved i :
  uu_fill inp (uu_saved st) (uu_i st) = (inp', saved, i) -> uu_i st < 3 ->
  let st' := mkUu saved i (uu_len st) (uu_ptr st) (uu_buf st) (uu_out st) in
  (inp' = [] /\ i < 3 /\ foldM uu_push inp st = Ok st') \/
  (i = 3 /\ (length inp' < length inp)%nat /\
   foldM uu_push inp st = st ← uu_convert st'; st ← uu_flush st; foldM uu_push inp' st).
Proof.
  revert st. induction inp as [|c inp IH]; intros st E Hi; cbn [uu_fill] in E.
  { injection E as <- <- <-. left. split; [done|]. split; [done|]. by destruct st. }
  rewrite (proj2 (Z.ltb_lt _ _) Hi) in E. cbn [foldM].
  destruct (Z.eq_dec (uu_i st + 1) 3) as [E3|E3].
  - right. rewrite uu_push_full, res_bind_assoc by done.
    assert ((inp, u32 (Z.lor (Z.shiftl (uu_saved st) 8) c), 3) = (inp', saved, i)) as [= -> <- <-].
    { rewrite <- E, E3. by destruct inp. }
    split; [done|]. split; [cbn; lia|]. unfold uu_shift. by rewrite E3.
  - rewrite uu_push_more, res_bind_Ok by done.
    destruct (IH (uu_shift c st) E) as [(-> & ? & Ef)|(? & ? & Ef)]; [cbn; lia|..].
    + by left.
    + right. split; [done|]. split; [cbn; lia|]. exact Ef.
Qed.

(** The two inner loops, followed by the end of the line. *)
Lemma uu_line_loop_push fuel inp st :
  uu_i st < 3 -> (length inp < fuel)%nat ->
  ('(inp, st) ← uu_line_loop fuel inp st; st ← uu_flush st; foldM uu_push inp st)
  = st ← uu_flush st; foldM uu_push inp st.
Proof.
  revert inp st. induction fuel as [|fuel IH]; intros inp st Hi Hf; [lia|].
  cbn [uu_line_loop]. destruct (_ && _) eqn:E; [|done].
  apply andb_true_iff in E as [Hlen%Z.ltb_lt Hne%negb_true_iff%bool_decide_eq_false].
  assert (uu_flush st = Ok st) as Efl.
  { unfold uu_flush. destruct (Z.leb_spec 45 (uu_len st)); [lia|done]. }
  rewrite Efl, res_bind_Ok.
  destruct (uu_fill inp (uu_saved st) (uu_i st)) as [[inp' saved] i] eqn:Efill.
  destruct (uu_fill_push _ _ _ _ _ Efill Hi) as [(-> & Hi' & ->)|(-> & Hlt & ->)].
  - rewrite (proj2 (Z.eqb_neq i 3)), res_bind_Ok by lia. rewrite IH; [|done|].
    + unfold uu_flush. cbn [uu_len]. destruct (Z.leb_spec 45 (uu_len st)); [lia|]. done.
    + destruct inp; [done|]. cbn in *. lia.
  - change (3 =? 3) with true. cbv iota.
    destruct (uu_convert _) as [st'| |] eqn:Ec; [|done..]. rewrite !res_bind_Ok.
    apply IH; [|lia]. unfold uu_convert in Ec.
    repeat (apply res_bind_inv in Ec as (? & _ & Ec)). injection Ec as <-. cbn. lia.
Qed.

Lemma uu_convert_i st st' : uu_convert st = Ok st' -> uu_i st' = 0.
Proof.
  unfold uu_convert. intros Ec.
  repeat (apply res_bind_inv in Ec as (? & _ & Ec)). by injection Ec as <-.
Qed.

Lemma uu_flush_len st st' : uu_flush st = Ok st' -> uu_len st' < 45 /\ uu_i st' = uu_i st.
Proof.
  unfold uu_flush. destruct (Z.leb_spec 45 (uu_len st)); [|by intros [= <-]].
  intros E. apply res_bind_inv in E as (line & _ & E). by injection E as <-.
Qed.

Lemma uu_fill_length inp saved i inp' saved' i' :
  uu_fill inp saved i = (inp', saved', i') -> (length inp' <= length inp)%nat.
Proof.
  revert saved i. induction inp as [|c inp IH]; intros saved i E; cbn [uu_fill] in E.
  { by injection E as <- _ _. }
  destruct (i <? 3); [apply IH in E; cbn; lia|]. by injection E as <- _ _.
Qed.

Lemma uu_line_loop_progress fuel inp st inp' st' :
  uu_line_loop fuel inp st = Ok (inp', st') -> uu_i st < 3 ->
  uu_i st' < 3 /\ (length inp' <= length inp)%nat /\
  (uu_len st < 45 -> inp <> [] -> (length inp' < length inp)%nat).
Proof.
  revert inp st. induction fuel as [|fuel IH]; intros inp st E Hi; [done|].
  cbn [uu_line_loop] in E. destruct (_ && _) eqn:Econd.
  2:{ injection E as <- <-. split; [done|]. split; [lia|]. intros Hlen Hne.
      rewrite (proj2 (Z.ltb_lt _ _) Hlen), bool_decide_eq_false_2 in Econd by done. done. }
  destruct (uu_fill inp (uu_saved st) (uu_i st)) as [[inp1 saved] i] eqn:Efill.
  assert (inp <> []) as Hne by (destruct inp; [rewrite andb_false_r in Econd|]; done).
  assert (length inp1 < length inp)%nat as Hlt.
  { destruct inp as [|c inp]; [done|]. cbn [uu_fill] in Efill.
    rewrite (proj2 (Z.ltb_lt _ _) Hi) in Efill. apply uu_fill_length in Efill. cbn. lia. }
  apply res_bind_inv in E as (st1 & Est & E).
  apply IH in E as (H1 & H2 & _); [split; [done|]; split; intros; lia|].
  destruct (uu_fill_push _ _ _ _ _ Efill Hi) as [(_ & Hi' & _)|(-> & _ & _)].
  - rewrite (proj2 (Z.eqb_neq i 3)) in Est by lia. by injection Est as <-.
  - change (3 =? 3) with true in Est. apply uu_convert_i in Est. lia.
Qed.

(** The three nested loops read one byte after the other. *)
Lemma uu_loop_push fuel inp st :
  uu_i st < 3 -> uu_len st < 45 -> (length inp < fuel)%nat ->
  uu_loop fuel inp st = foldM uu_push inp st.
Proof.
  revert inp st. induction fuel as [|fuel IH]; intros inp st Hi Hlen Hf; [lia|].
  cbn [uu_loop]. case_bool_decide as Hnil; [by subst|].
  pose proof (uu_line_loop_push (S (length inp)) inp st Hi) as Heq.
  assert (uu_flush st = Ok st) as Efl.
  { unfold uu_flush. destruct (Z.leb_spec 45 (uu_len st)); [lia|done]. }
  rewrite Efl, res_bind_Ok in Heq. rewrite <- Heq by lia. clear Heq.
  destruct (uu_line_loop (S (length inp)) inp st) as [[inp' st']| |] eqn:E; [|done..].
  rewrite !res_bind_Ok. apply uu_line_loop_progress in E as (Hi' & _ & Hlt); [|done].
  change (if 45 <=? uu_len st' then _ else _) with (uu_flush st').
  destruct (uu_flush st') as [st2| |] eqn:Efl'; [|done..]. rewrite !res_bind_Ok.
  apply uu_flush_len in Efl' as [? ?]. apply IH; [lia|done|]. specialize (Hlt Hlen Hnil). lia.
Qed.

(** ** The state after some bytes *)

(** Bytes as a big-endian number. *)
Definition uu_be (l : list Z) : Z := foldl (fun s c => s * 256 + c) 0 l.

Lemma uu_be_snoc l c : uu_be (l ++ [c]) = uu_be l * 256 + c.
Proof. unfold uu_be. by rewrite foldl_app. Qed.

Lemma uu_be_range l : Forall byte_ok l -> 0 <= uu_be l < 256 ^ Z.of_nat (length l).
Proof.
  induction l as [|c l IH] using rev_ind; [done|].
  intros [Hl Hc]%Forall_app. rewrite Forall_singleton in Hc. rewrite uu_be_snoc, length_app, Nat2Z.inj_add.
  rewrite Z.pow_add_r by lia. change (256 ^ Z.of_nat (length [c])) with 256.
  specialize (IH Hl). unfold byte_ok in Hc. lia.
Qed.

(** [out] has been written; the current line is [g], whose characters are in [uubuf], and
    the bytes [t] saved. *)
Record uu_repr (out g t : list Z) (st : uu_state) : Prop := {
  repr_out : uu_out st = out;
  repr_bytes : Forall byte_ok t;
  repr_groups : (3 | length g)%nat;
  repr_short : (length g < 45)%nat;
  repr_rest : (length t < 3)%nat;
  repr_len : uu_len st = Z.of_nat (length g);
  repr_ptr : uu_ptr st = Z.of_nat (length g) / 3 * 4;
  repr_i : uu_i st = Z.of_nat (length t);
  repr_saved : uu_saved st = uu_be t;
  repr_buf : length (uu_buf st) = 60%nat;
  repr_chars : take (Z.to_nat (uu_ptr st)) (uu_buf st) = uu_chars g;
}.

(** Writing the next element of a buffer. *)
Lemma arr_set_next {A} (buf : list A) p x :
  0 <= p < Z.of_nat (length buf) ->
  exists buf', arr_set buf p x = Ok buf' /\ length buf' = length buf /\
    take (Z.to_nat (p + 1)) buf' = take (Z.to_nat p) buf ++ [x].
Proof.
  intros Hp. exists (<[Z.to_nat p := x]> buf). rewrite arr_set_Ok, length_insert by lia.
  split; [done|]. split; [done|].
  replace (Z.to_nat (p + 1)) with (S (Z.to_nat p)) by lia.
  rewrite (take_S_r _ _ x) by (apply list_lookup_insert_eq; lia). by rewrite take_insert_ge.
Qed.

Lemma uu_char_u8 v : 0 <= v < 64 -> u8 (CAMEL_UUENCODE_CHAR v) = CAMEL_UUENCODE_CHAR v.
Proof. intros Hv. apply u8_small. unfold CAMEL_UUENCODE_CHAR. case_match; lia. Qed.

(** The conversion of three bytes. *)
Lemma uu_convert_spec a b c i len p buf out :
  byte_ok a -> byte_ok b -> byte_ok c -> 0 <= p -> p + 4 <= Z.of_nat (length buf) ->
  exists buf', uu_convert (mkUu (uu_be [a; b; c]) i len p buf out)
      = Ok (mkUu 0 0 (len + 3) (p + 4) buf' out) /\
    length buf' = length buf /\
    take (Z.to_nat (p + 4)) buf' = take (Z.to_nat p) buf ++ uu_enc3 a b c.
Proof.
  unfold byte_ok. intros Ha Hb Hc Hp Hlen.
  assert (uu_be [a; b; c] = a * 65536 + b * 256 + c) as -> by (unfold uu_be; cbn [foldl]; lia).
  set (v := a * 65536 + b * 256 + c).
  assert (v / 65536 = a /\ (v / 256) mod 256 = b /\ v mod 256 = c) as (Va & Vb & Vc)
    by (subst v; div_lia).
  assert (u8 (Z.shiftr v 16) = a) as Ea.
  { rewrite Z.shiftr_div_pow2 by lia. change (2 ^ 16) with 65536. rewrite Va. by apply u8_small. }
  assert (u8 (Z.land (Z.shiftr v 8) 0xff) = b) as Eb.
  { rewrite land_ff, Z.shiftr_div_pow2 by lia. change (2 ^ 8) with 256. rewrite Vb. by apply u8_small. }
  assert (u8 (Z.land v 0xff) = c) as Ec by (rewrite land_ff, Vc; by apply u8_small).
  clearbody v.
  unfold uu_convert. cbn [uu_saved uu_i uu_len uu_ptr uu_buf uu_out]. rewrite Ea, Eb, Ec.
  rewrite !land_3f, land_f, land_3, !Z.shiftr_div_pow2 by lia.
  rewrite (lor_add b _ 2), (lor_add a _ 4) by (cbn; div_lia).
  rewrite !uu_char_u8 by div_lia.
  destruct (arr_set_next buf p (CAMEL_UUENCODE_CHAR ((a / 2 ^ 2) mod 64))) as (b1 & -> & L1 & T1); [lia|].
  rewrite res_bind_Ok.
  destruct (arr_set_next b1 (p + 1) (CAMEL_UUENCODE_CHAR ((a * 2 ^ 4 + (b / 2 ^ 4) mod 16) mod 64)))
    as (b2 & -> & L2 & T2); [lia|]. rewrite res_bind_Ok.
  destruct (arr_set_next b2 (p + 2) (CAMEL_UUENCODE_CHAR ((b * 2 ^ 2 + (c / 2 ^ 6) mod 4) mod 64)))
    as (b3 & -> & L3 & T3); [lia|]. rewrite res_bind_Ok.
  destruct (arr_set_next b3 (p + 3) (CAMEL_UUENCODE_CHAR (c mod 64))) as (b4 & -> & L4 & T4); [lia|].
  rewrite res_bind_Ok. exists b4. split; [done|]. split; [congruence|].
  replace (p + 4) with (p + 3 + 1) by lia. rewrite T4.
  replace (p + 3) with (p + 2 + 1) by lia. rewrite T3.
  replace (p + 2) with (p + 1 + 1) by lia. rewrite T2, T1, <- !app_assoc. cbn [app].
  unfold uu_enc3. repeat f_equal; cbn; div_lia.
Qed.

(** The line of [g] and [t] is written when it has 45 bytes. *)
Lemma uu_push_repr out g t st c :
  uu_repr out g t st -> byte_ok c ->
  exists st', uu_push c st = Ok st' /\
    ((length (g ++ t ++ [c]) < 45)%nat /\
       (exists g' t', g' ++ t' = g ++ t ++ [c] /\ uu_repr out g' t' st') \/
     length (g ++ t ++ [c]) = 45%nat /\ uu_repr (out ++ uu_line (g ++ t ++ [c])) [] [] st').
Proof.
  intros [Eout Hb [n Hn] Hs Hr El Ep Ei Es Hbuf Hc] Hbc.
  pose proof (uu_be_range t Hb) as Hbe.
  assert (256 ^ Z.of_nat (length t) <= 65536) as Hpow.
  { change 65536 with (256 ^ 2). apply Z.pow_le_mono_r; lia. }
  assert (u32 (Z.lor (Z.shiftl (uu_saved st) 8) c) = uu_be (t ++ [c])) as Esave.
  { unfold byte_ok in Hbc. rewrite lor_add, uu_be_snoc, Es by lia. apply u32_small. lia. }
  assert (Forall byte_ok (t ++ [c])) as Hb' by (apply Forall_app; by rewrite Forall_singleton).
  destruct (Z.eq_dec (uu_i st + 1) 3) as [E3|E3].
  - rewrite uu_push_full by done. unfold uu_shift. rewrite Esave.
    destruct t as [|a [|b [|? ?]]]; cbn [length] in *; try lia.
    cbn [app] in *. rewrite !Forall_cons in Hb'. destruct Hb' as (Ha & Hb' & _).
    destruct (uu_convert_spec a b c (uu_i st + 1) (uu_len st) (uu_ptr st) (uu_buf st) (uu_out st))
      as (buf & -> & Lbuf & Tbuf); [done..|rewrite Ep; div_lia|rewrite Ep, Hbuf; div_lia|].
    rewrite res_bind_Ok. unfold uu_flush. cbn [uu_len uu_buf uu_out uu_saved uu_i].
    assert (take (Z.to_nat (uu_ptr st + 4)) buf = uu_chars (g ++ [a; b; c])) as Tb.
    { rewrite Tbuf, Hc, uu_chars_app; [done|by exists n]. }
    rewrite length_app. cbn [length].
    destruct (Z.leb_spec 45 (uu_len st + 3)) as [Hfull|Hshort].
    + assert (uu_len st = 42) as E42 by lia. rewrite E42.
      assert (uu_ptr st = 56) as Ep' by (rewrite Ep, <- El, E42; done). rewrite Ep' in Tb.
      change (56 + 4) with 60 in Tb.
      assert (uu_copy buf (Z.quot (42 + 3) 3 * 4) = Ok (uu_chars (g ++ [a; b; c]))) as ->.
      { change (Z.quot (42 + 3) 3 * 4) with 60. unfold uu_copy. by rewrite Lbuf, Hbuf, <- Tb. }
      rewrite Eout, res_bind_Ok. eexists. split; [done|].
      right. split; [lia|]. unfold uu_line. rewrite length_app. cbn [length].
      assert (length g = 42%nat) as -> by lia. 
      split; cbn [uu_len uu_buf uu_out uu_saved uu_i uu_ptr length]; try done; try lia.
      by exists 0%nat.
    + eexists. split; [done|]. left. split; [lia|]. exists (g ++ [a; b; c]), []. rewrite app_nil_r. split; [done|].
      assert (Z.of_nat (length (g ++ [a; b; c])) = Z.of_nat (length g) + 3) as Lg
        by (rewrite length_app; cbn; lia).
      split; cbn [uu_len uu_buf uu_out uu_saved uu_i uu_ptr]; try done; try lia.
      * exists (n + 1)%nat. lia.
      * cbn. lia.
      * rewrite Lg, Ep. div_lia.
  - rewrite uu_push_more by done. eexists. split; [done|]. left.
    rewrite !length_app in *. cbn [length] in *. split; [lia|].
    exists g, (t ++ [c]). split; [done|].
    split; cbn [uu_len uu_buf uu_out uu_saved uu_i uu_ptr uu_shift]; try done;
      rewrite ?length_app; cbn [length]; try lia. by exists n.
Qed.

(** All the bytes of a chunk: full lines are written, the rest is kept. *)
Lemma uu_push_all out g t st inp :
  uu_repr out g t st -> Forall byte_ok inp ->
  exists st' lines g' t', foldM uu_push inp st = Ok st' /\
    g ++ t ++ inp = concat lines ++ g' ++ t' /\ Forall (fun l => length l = 45%nat) lines /\
    (length (g' ++ t') < 45)%nat /\ uu_repr (out ++ concat (uu_line <$> lines)) g' t' st'.
Proof.
  revert out g t st. induction inp as [|c inp IH]; intros out g t st Hst Hb.
  - exists st, [], g, t. rewrite !app_nil_r. repeat split; try done; try apply Hst.
    + rewrite length_app. destruct Hst as [_ _ [n Hn] Hs Hr _ _ _ _ _ _]. lia.
  - apply Forall_cons in Hb as [Hc Hb]. cbn [foldM].
    destruct (uu_push_repr out g t st c Hst Hc) as (st1 & -> & [(Hs & g1 & t1 & E & H1)|(Hs & H1)]);
      rewrite res_bind_Ok.
    + destruct (IH _ _ _ _ H1 Hb) as (st' & lines & g' & t' & -> & E' & Hl & Hs' & Hst').
      exists st', lines, g', t'. split; [done|]. split; [|done].
      rewrite <- E', (app_assoc g1), E, <- !app_assoc. done.
    + destruct (IH _ _ _ _ H1 Hb) as (st' & lines & g' & t' & -> & E' & Hl & Hs' & Hst').
      exists st', ((g ++ t ++ [c]) :: lines), g', t'. split; [done|]. split; [|split; [by constructor|]].
      * cbn [concat]. rewrite <- app_assoc, <- E'. cbn [app]. by rewrite <- !app_assoc.
      * split; [done|]. cbn [fmap list_fmap concat]. by rewrite app_assoc.
Qed.

(** ** Chunks *)

(** What the arguments [uubuf], [state] and [save] hold between two calls. *)
Definition uu_between (g t uubuf : list Z) (state save : Z) : Prop :=
  exists st, uu_repr [] g t st /\ uubuf = uu_buf st /\
    state = uu_pack (uu_len st) (uu_i st) /\ save = uu_saved st.

Lemma uu_pack_spec a b : 0 <= a < 256 -> 0 <= b < 256 -> uu_pack a b = a * 256 + b.
Proof. intros Ha Hb. unfold uu_pack. rewrite !land_ff, lor_add by div_lia. cbn. div_lia. Qed.

Lemma uu_unpack a b :
  0 <= a < 256 -> 0 <= b < 256 ->
  Z.land (Z.shiftr (uu_pack a b) 8) 0xff = a /\ Z.land (uu_pack a b) 0xff = b.
Proof.
  intros Ha Hb. rewrite uu_pack_spec, !land_ff, Z.shiftr_div_pow2 by lia.
  change (2 ^ 8) with 256. split; div_lia.
Qed.

(** The locals at the start of a call are those at the end of the last one. *)
Lemma uu_between_load g t uubuf state save :
  uu_between g t uubuf state save ->
  exists st, uu_repr [] g t st /\
    mkUu save (Z.land state 0xff) (Z.land (Z.shiftr state 8) 0xff)
      (Z.quot (Z.land (Z.shiftr state 8) 0xff) 3 * 4) uubuf [] = st.
Proof.
  intros (st & Hst & -> & -> & ->). exists st. split; [done|].
  destruct st as [sv i len ptr buf out]. pose proof Hst as [Eo _ _ Hs Hr El Ep Ei _ _ _].
  cbn [uu_len uu_i uu_out uu_ptr uu_buf uu_saved] in *.
  destruct (uu_unpack len i) as [-> ->]; [lia..|]. subst. f_equal. div_lia.
Qed.

Lemma uu_step_spec g t uubuf state save inp :
  uu_between g t uubuf state save -> Forall byte_ok inp ->
  exists uubuf' state' save' lines g' t',
    camel_uuencode_step inp uubuf state save
      = Ok (concat (uu_line <$> lines), uubuf', state', save') /\
    g ++ t ++ inp = concat lines ++ g' ++ t' /\ Forall (fun l => length l = 45%nat) lines /\
    (length (g' ++ t') < 45)%nat /\ uu_between g' t' uubuf' state' save'.
Proof.
  intros Hbt Hb. destruct (uu_between_load _ _ _ _ _ Hbt) as (st & Hst & Eload).
  unfold camel_uuencode_step. rewrite Eload.
  pose proof Hst as [_ _ _ Hs Hr El _ Ei _ _ _].
  rewrite uu_loop_push by lia.
  destruct (uu_push_all _ _ _ _ _ Hst Hb) as (st' & lines & g' & t' & -> & E & Hl & Hlen & Hst').
  rewrite res_bind_Ok, (repr_out _ _ _ _ Hst').
  exists (uu_buf st'), (uu_pack (uu_len st') (uu_i st')), (uu_saved st'), lines, g', t'.
  split; [done|]. split; [done|]. split; [done|]. split; [done|].
  exists (mkUu (uu_saved st') (uu_i st') (uu_len st') (uu_ptr st') (uu_buf st') []).
  split; [|done]. destruct Hst'. split; done.
Qed.

Lemma uu_pad_spec t :
  Forall byte_ok t -> (0 < length t < 3)%nat ->
  uu_pad 4 (uu_be t) 0 (Z.of_nat (length t)) =
  Ok (uu_be (t ++ replicate (3 - length t) 0), 3 - Z.of_nat (length t), 3).
Proof.
  intros Hb Ht.
  assert (forall x, 0 <= x < 65536 -> u32 (Z.shiftl x (Z.lor 8 0)) = x * 256) as Hsh.
  { intros x Hx. change (Z.lor 8 0) with 8. rewrite Z.shiftl_mul_pow2 by lia. apply u32_small. lia. }
  destruct t as [|a [|b [|? ?]]]; cbn [length] in Ht; try lia.
  - apply Forall_cons in Hb as [Ha _]. unfold byte_ok in Ha.
    change (Ok (u32 (Z.shiftl (u32 (Z.shiftl (0 * 256 + a) (Z.lor 8 0))) (Z.lor 8 0)), 2, 3)
      = Ok (((0 * 256 + a) * 256 + 0) * 256 + 0, 2, 3)).
    rewrite (Hsh (0 * 256 + a)), Hsh by lia. do 3 f_equal; lia.
  - rewrite !Forall_cons in Hb. destruct Hb as (Ha & Hb & _). unfold byte_ok in Ha, Hb.
    change (Ok (u32 (Z.shiftl ((0 * 256 + a) * 256 + b) (Z.lor 8 0)), 1, 3)
      = Ok (((0 * 256 + a) * 256 + b) * 256 + 0, 1, 3)).
    rewrite Hsh by lia. do 3 f_equal; lia.
Qed.

(** The last, shorter line. *)
Definition uu_last (cur : list Z) : list Z := if decide (cur = []) then [] else uu_line cur.

Lemma uu_copy_take buf p l :
  0 <= p <= Z.of_nat (length buf) -> take (Z.to_nat p) buf = l -> uu_copy buf p = Ok l.
Proof.
  intros Hp <-. unfold uu_copy. destruct (_ || _) eqn:E; [|done].
  apply orb_true_iff in E as [?%Z.ltb_lt|?%Z.ltb_lt]; lia.
Qed.

Lemma uu_between_inv g t uubuf state save :
  uu_between g t uubuf state save ->
  Z.land state 0xff = Z.of_nat (length t) /\
  Z.land (Z.shiftr state 8) 0xff = Z.of_nat (length g) /\ save = uu_be t /\
  Forall byte_ok t /\ (3 | length g)%nat /\ (length g < 45)%nat /\ (length t < 3)%nat /\
  length uubuf = 60%nat /\ take (Z.to_nat (Z.of_nat (length g) / 3 * 4)) uubuf = uu_chars g.
Proof.
  intros (st & [_ Hb Hn Hs Hr El Ep Ei Es Hbuf Hc] & -> & -> & ->).
  destruct (uu_unpack (uu_len st) (uu_i st)) as [-> ->]; [lia..|]. by rewrite <- Ep.
Qed.

Lemma uu_close_rest_spec out g t uubuf state save :
  uu_between g t uubuf state save ->
  exists uubuf', uu_close_rest out uubuf state save
    = Ok (out ++ uu_last (g ++ t) ++ [96; 10], uubuf', 0, 0).
Proof.
  intros (Ei & El & -> & Hb & Hn & Hs & Hr & Hbuf & Hc)%uu_between_inv.
  unfold uu_close_rest. rewrite Ei, El.
  rewrite (Z.quot_div_nonneg (Z.of_nat (length g))) by lia.
  destruct (decide (t = [])) as [->|Ht].
  - change (0 <? Z.of_nat (length [])) with false. cbv iota zeta. rewrite res_bind_Ok.
    cbn [uu_len uu_i uu_out uu_ptr uu_buf uu_saved]. rewrite app_nil_r.
    unfold uu_last. case_decide as Hg.
    + subst g. by exists uubuf.
    + assert (0 < length g)%nat by (destruct g; [done|cbn; lia]).
      rewrite (proj2 (Z.ltb_lt _ _)) by lia.
      rewrite Z.quot_div_nonneg by lia.
      rewrite (uu_copy_take _ _ (uu_chars g)), !res_bind_Ok; [|rewrite Hbuf; div_lia|done].
      exists uubuf. rewrite Z.sub_0_r, land_ff, Z.mod_small, uu_char_u8 by lia.
      unfold uu_line. by rewrite <- ?app_assoc.
  - assert (0 < length t)%nat by (destruct t; [done|cbn; lia]).
    rewrite (proj2 (Z.ltb_lt 0 _)) by lia. rewrite uu_pad_spec, res_bind_Ok by (done || lia).
    cbv zeta. change (3 =? 3) with true. cbv iota.
    assert (exists a b c : Z, t ++ replicate (3 - length t) 0 = [a; b; c] /\
      byte_ok a /\ byte_ok b /\ byte_ok c /\ uu_enc3 a b c = uu_chars t) as (a & b & c & -> & Ha & Hbb & Hcc & Ech).
    { rewrite Forall_forall in Hb. assert (byte_ok 0) by done.
      destruct t as [|a [|b [|? ?]]]; cbn [length] in *; try lia; [exists a, 0, 0|exists a, b, 0];
        (split; [done|]); repeat split; try done; apply Hb; set_solver. }
    destruct (uu_convert_spec a b c 3 (Z.of_nat (length g)) (Z.of_nat (length g) / 3 * 4) uubuf out)
      as (buf & -> & Lbuf & Tbuf); [done..|div_lia|rewrite Hbuf; div_lia|].
    rewrite !res_bind_Ok. cbn [uu_len uu_i uu_out uu_ptr uu_buf uu_saved].
    rewrite (proj2 (Z.ltb_lt 0 _)) by lia.
    rewrite (uu_copy_take _ _ (uu_chars (g ++ t))).
    + rewrite !res_bind_Ok. exists buf.
      replace (Z.of_nat (length g) + 3 - (3 - Z.of_nat (length t))) with (Z.of_nat (length (g ++ t)))
        by (rewrite length_app; lia).
      assert (length (g ++ t) < 48)%nat by (rewrite length_app; lia).
      rewrite land_ff, Z.mod_small, uu_char_u8 by lia.
      unfold uu_last. rewrite decide_False by (intros [? ?]%app_eq_nil; done).
      unfold uu_line. by rewrite <- ?app_assoc.
    + rewrite Lbuf, Hbuf, Z.quot_div_nonneg by lia. div_lia.
    + rewrite Z.quot_div_nonneg by lia.
      replace ((Z.of_nat (length g) + 3) / 3 * 4) with (Z.of_nat (length g) / 3 * 4 + 4) by div_lia.
      by rewrite Tbuf, Hc, Ech, uu_chars_app.
Qed.

Lemma uu_close_spec g t uubuf state save inp :
  uu_between g t uubuf state save -> Forall byte_ok inp ->
  exists uubuf' lines g' t',
    camel_uuencode_close inp uubuf state save
      = Ok (concat (uu_line <$> lines) ++ uu_last (g' ++ t') ++ [96; 10], uubuf', 0, 0) /\
    g ++ t ++ inp = concat lines ++ g' ++ t' /\ Forall (fun l => length l = 45%nat) lines /\
    (length (g' ++ t') < 45)%nat.
Proof.
  intros Hbt Hb. unfold camel_uuencode_close. case_bool_decide as Hnil; cbn [negb].
  - destruct (uu_close_rest_spec [] g t uubuf state save Hbt) as (uubuf' & E).
    rewrite res_bind_Ok, E. exists uubuf', [], g, t. subst inp. rewrite !app_nil_r.
    repeat split; try done.
    destruct (uu_between_inv _ _ _ _ _ Hbt) as (_ & _ & _ & _ & [n Hn] & Hs & Hr & _).
    rewrite length_app. lia.
  - destruct (uu_step_spec _ _ _ _ _ inp Hbt Hb) as
      (uubuf1 & state1 & save1 & lines & g' & t' & -> & E & Hl & Hs & Hbt').
    rewrite res_bind_Ok.
    destruct (uu_close_rest_spec (concat (uu_line <$> lines)) _ _ _ _ _ Hbt') as (uubuf' & ->).
    by exists uubuf', lines, g', t'.
Qed.

(** ** The encoder against the reference text *)

Lemma uu_lines_concat fuel lines cur :
  Forall (fun l => length l = 45%nat) lines -> (length cur < 45)%nat ->
  (length (concat lines ++ cur) <= fuel)%nat ->
  uu_lines fuel (concat lines ++ cur) = concat (uu_line <$> lines) ++ uu_last cur.
Proof.
  intros Hl Hc. revert fuel. induction Hl as [|l lines Hl _ IH]; intros fuel Hf.
  - cbn [concat app fmap list_fmap] in *. unfold uu_last. case_decide as Hn; [subst; by destruct fuel|].
    destruct fuel as [|fuel]; [destruct cur; cbn in *; [done|lia]|].
    assert (uu_lines (S fuel) cur = uu_line (take 45 cur) ++ uu_lines fuel (drop 45 cur)) as -> by by destruct cur.
    rewrite take_ge, drop_ge by lia. destruct fuel; cbn [uu_lines]; by rewrite app_nil_r.
  - cbn [concat fmap list_fmap] in *. rewrite <- app_assoc in *. rewrite length_app in Hf.
    destruct fuel as [|fuel]; [lia|]. rewrite <- app_assoc.
    assert (uu_lines (S fuel) (l ++ concat lines ++ cur) =
      uu_line (take 45 (l ++ concat lines ++ cur)) ++ uu_lines fuel (drop 45 (l ++ concat lines ++ cur)))
      as -> by (by destruct l).
    rewrite take_app_length', drop_app_length', IH by (done || lia). done.
Qed.

(** The output of encoding [chunks] one after the other and closing with [last]. *)
Fixpoint uuencode_stream (chunks : list (list Z)) (last uubuf : list Z) (state save : Z)
    : res (list Z) :=
  match chunks with
  | [] => '(out, _, _, _) ← camel_uuencode_close last uubuf state save; Ok out
  | c :: chunks =>
      '(out, uubuf, state, save) ← camel_uuencode_step c uubuf state save;
      rest ← uuencode_stream chunks last uubuf state save;
      Ok (out ++ rest)
  end.

Lemma uu_stream_spec chunks last g t uubuf state save :
  uu_between g t uubuf state save -> Forall (Forall byte_ok) chunks -> Forall byte_ok last ->
  exists lines cur, uuencode_stream chunks last uubuf state save
      = Ok (concat (uu_line <$> lines) ++ uu_last cur ++ [96; 10]) /\
    g ++ t ++ concat chunks ++ last = concat lines ++ cur /\
    Forall (fun l => length l = 45%nat) lines /\ (length cur < 45)%nat.
Proof.
  revert g t uubuf state save. induction chunks as [|c chunks IH]; intros g t uubuf state save Hbt Hc Hlast.
  - destruct (uu_close_spec _ _ _ _ _ last Hbt Hlast) as (uubuf' & lines & g' & t' & E & ? & ? & ?).
    exists lines, (g' ++ t'). cbn [uuencode_stream]. by rewrite E.
  - apply Forall_cons in Hc as [Hc Hcs].
    destruct (uu_step_spec _ _ _ _ _ c Hbt Hc) as
      (uubuf1 & state1 & save1 & lines & g' & t' & E & Eg & Hl & Hs & Hbt').
    destruct (IH _ _ _ _ _ Hbt' Hcs Hlast) as (lines2 & cur & E2 & Eg2 & Hl2 & Hs2).
    exists (lines ++ lines2), cur. cbn [uuencode_stream]. rewrite E, res_bind_Ok, E2, res_bind_Ok.
    rewrite fmap_app, !concat_app, <- !app_assoc. split; [done|]. split; [|split; [by apply Forall_app|done]].
    cbn [concat]. rewrite <- !app_assoc, <- Eg2, (app_assoc t c), (app_assoc g), Eg, <- !app_assoc. done.
Qed.

(** However the input is cut into chunks, encoding them one after the other and
    closing writes the uuencoded text of the whole input: lines of 45 bytes, a
    shorter one for the rest, and the line of an empty line; it never writes
    outside the 60 bytes of [uubuf]. *)
Theorem uuencode_chunks (chunks : list (list Z)) (last uubuf : list Z)
    (Hc : Forall (Forall byte_ok) chunks) (Hl : Forall byte_ok last)
    (Hbuf : length uubuf = 60%nat) :
  uuencode_stream chunks last uubuf 0 0 = Ok (uu_text (concat chunks ++ last)).
Proof.
  assert (uu_between [] [] uubuf 0 0) as Hbt.
  { exists (mkUu 0 0 0 0 uubuf []). split; [|done]. split; try done; [by exists 0%nat|cbn; lia..]. }
  destruct (uu_stream_spec chunks last _ _ _ _ _ Hbt Hc Hl) as (lines & cur & -> & E & H45 & Hs).
  cbn [app] in E. unfold uu_text. rewrite E, uu_lines_concat by done. by rewrite <- app_assoc.
Qed.

Lemma uuencode_chunks_witness :
  uuencode_stream [[67; 97]; []; [116; 33]] [10] (replicate 60 0) 0 0
  = Ok [37; 48; 86; 37; 84; 40; 48; 72; 96; 10; 96; 10].
Proof.
  rewrite (uuencode_chunks [[67; 97]; []; [116; 33]] [10] (replicate 60 0)).
  - reflexivity.
  - concrete.
  - concrete.
  - reflexivity.
Defined.

(** ** Decoding *)

Lemma uu_char_decode v : 0 <= v < 64 -> CAMEL_UUDECODE_CHAR (CAMEL_UUENCODE_CHAR v) = v.
Proof.
  intros Hv. unfold CAMEL_UUDECODE_CHAR, CAMEL_UUENCODE_CHAR.
  change 63 with 0x3f. rewrite land_3f. case_match; div_lia.
Qed.

Lemma uu_char_range v : 0 <= v < 64 -> 33 <= CAMEL_UUENCODE_CHAR v <= 96.
Proof. unfold CAMEL_UUENCODE_CHAR. case_match; lia. Qed.

(** Four characters that are not the end of the line are decoded together. *)
Lemma uu_decode_4 c0 c1 c2 c3 rest uulen :
  Forall byte_ok [c0; c1; c2; c3] -> Forall (fun c => c <> 10) [c0; c1; c2; c3] -> 0 < uulen ->
  uu_decode_loop (c0 :: c1 :: c2 :: c3 :: rest) uulen 0 0 false =
  let '(out, uulen', i, saved, fin) := uu_decode_loop rest (uulen - 3) 0 0 false in
  (uu_group uulen (uu_be [c0; c1; c2; c3]) ++ out, uulen', i, saved, fin).
Proof.
  rewrite !Forall_cons. unfold byte_ok. intros (H0 & H1 & H2 & H3 & _) (N0 & N1 & N2 & N3 & _) Hu.
  cbn [uu_decode_loop].
  rewrite (proj2 (Z.eqb_neq c0 10)), (proj2 (Z.eqb_neq c1 10)), (proj2 (Z.eqb_neq c2 10)),
    (proj2 (Z.eqb_neq c3 10)) by done.
  cbn [orb]. rewrite (proj2 (Z.ltb_lt 0 uulen)) by done.
  change (0 + 1 =? 4) with false. change (0 + 1 + 1 =? 4) with false.
  change (0 + 1 + 1 + 1 =? 4) with false. change (0 + 1 + 1 + 1 + 1 =? 4) with true. cbv iota.
  assert (u32 (Z.lor (Z.shiftl (u32 (Z.lor (Z.shiftl (u32 (Z.lor (Z.shiftl
    (u32 (Z.lor (Z.shiftl 0 8) c0)) 8) c1)) 8) c2)) 8) c3) = uu_be [c0; c1; c2; c3]) as ->; [|done].
  unfold uu_be. cbn [foldl]. change (Z.lor (Z.shiftl 0 8) c0) with c0.
  change 256 with (2 ^ 8). rewrite (u32_small c0) by lia.
  rewrite (lor_add c0), (u32_small (c0 * 2 ^ 8 + c1)) by lia.
  rewrite (lor_add (c0 * 2 ^ 8 + c1)), (u32_small ((c0 * 2 ^ 8 + c1) * 2 ^ 8 + c2)) by lia.
  rewrite lor_add, u32_small by lia. lia.
Qed.

(** The bytes of a group, as many as belong to the line. *)
Lemma uu_group_enc3 a b c uulen :
  byte_ok a -> byte_ok b -> byte_ok c -> 1 <= uulen ->
  uu_group uulen (uu_be (uu_enc3 a b c)) = take (Z.to_nat uulen) [a; b; c].
Proof.
  unfold byte_ok. intros Ha Hb Hc Hu.
  set (v0 := a / 4). set (v1 := a mod 4 * 16 + b / 16).
  set (v2 := b mod 16 * 4 + c / 64). set (v3 := c mod 64).
  assert (0 <= v0 < 64 /\ 0 <= v1 < 64 /\ 0 <= v2 < 64 /\ 0 <= v3 < 64) as (H0 & H1 & H2 & H3)
    by (subst v0 v1 v2 v3; div_lia).
  pose proof (uu_char_range v0 H0) as C0. pose proof (uu_char_range v1 H1) as C1.
  pose proof (uu_char_range v2 H2) as C2. pose proof (uu_char_range v3 H3) as C3.
  pose proof (uu_char_decode v0 H0) as D0. pose proof (uu_char_decode v1 H1) as D1.
  pose proof (uu_char_decode v2 H2) as D2. pose proof (uu_char_decode v3 H3) as D3.
  unfold uu_enc3. fold v0 v1 v2 v3.
  generalize dependent (CAMEL_UUENCODE_CHAR v0). intros c0 C0 D0.
  generalize dependent (CAMEL_UUENCODE_CHAR v1). intros c1 C1 D1.
  generalize dependent (CAMEL_UUENCODE_CHAR v2). intros c2 C2 D2.
  generalize dependent (CAMEL_UUENCODE_CHAR v3). intros c3 C3 D3.
  assert (uu_be [c0; c1; c2; c3] = ((c0 * 256 + c1) * 256 + c2) * 256 + c3) as -> by done.
  unfold uu_group. rewrite !land_ff, !Z.shiftr_div_pow2 by lia.
  change (2 ^ 24) with 16777216. change (2 ^ 16) with 65536. change (2 ^ 8) with 256.
  set (w := ((c0 * 256 + c1) * 256 + c2) * 256 + c3).
  assert (w / 16777216 = c0 /\ (w / 65536) mod 256 = c1 /\ (w / 256) mod 256 = c2 /\ w mod 256 = c3)
    as (-> & -> & -> & ->) by (subst w; div_lia).
  rewrite (u8_small c0), (u8_small c1), (u8_small c2), (u8_small c3) by lia. rewrite D0, D1, D2, D3.
  change (2 ^ 4) with 16. change (2 ^ 2) with 4.
  rewrite (lor_add v0 _ 2), (lor_add v1 _ 4), (lor_add v2 _ 6) by (cbn; div_lia).
  change (2 ^ 4) with 16. change (2 ^ 2) with 4. change (2 ^ 6) with 64.
  assert (u8 (v0 * 4 + v1 / 16) = a) as -> by (subst v0 v1; rewrite u8_small; div_lia).
  assert (u8 (v1 * 16 + v2 / 4) = b) as ->.
  { subst v1 v2. unfold u8. change (2 ^ 8) with 256. div_lia. }
  assert (u8 (v2 * 64 + v3) = c) as ->.
  { subst v2 v3. unfold u8. change (2 ^ 8) with 256. div_lia. }
  destruct (Z.leb_spec 3 uulen); [by rewrite take_ge by (cbn; lia)|].
  assert (uulen = 1 \/ uulen = 2) as [-> | ->] by lia; done.
Qed.

Lemma uu_enc3_bytes a b c :
  byte_ok a -> byte_ok b -> byte_ok c ->
  Forall byte_ok (uu_enc3 a b c) /\ Forall (fun x => x <> 10) (uu_enc3 a b c).
Proof.
  unfold byte_ok. intros Ha Hb Hc.
  pose proof (uu_char_range (a / 4)). pose proof (uu_char_range (a mod 4 * 16 + b / 16)).
  pose proof (uu_char_range (b mod 16 * 4 + c / 64)). pose proof (uu_char_range (c mod 64)).
  unfold uu_enc3, byte_ok. rewrite !Forall_cons, !Forall_nil. 
  assert (0 <= a / 4 < 64) by div_lia. assert (0 <= a mod 4 * 16 + b / 16 < 64) by div_lia.
  assert (0 <= b mod 16 * 4 + c / 64 < 64) by div_lia. assert (0 <= c mod 64 < 64) by div_lia.
  repeat split; lia.
Qed.

(** One group of a line with [uulen] bytes left. *)
Lemma uu_decode_enc3 a b c rest uulen :
  byte_ok a -> byte_ok b -> byte_ok c -> 1 <= uulen ->
  uu_decode_loop (uu_enc3 a b c ++ rest) uulen 0 0 false =
  let '(out, uulen', i, saved, fin) := uu_decode_loop rest (uulen - 3) 0 0 false in
  (take (Z.to_nat uulen) [a; b; c] ++ out, uulen', i, saved, fin).
Proof.
  intros Ha Hb Hc Hu. destruct (uu_enc3_bytes a b c Ha Hb Hc) as [H1 H2].
  rewrite <- (uu_group_enc3 a b c uulen) by done. apply uu_decode_4; (done || lia).
Qed.

(** The characters of a line, up to its end. *)
Lemma uu_decode_chars l rest :
  Forall byte_ok l -> exists uulen,
  uu_decode_loop (uu_chars l ++ 10 :: rest) (Z.of_nat (length l)) 0 0 false =
  let '(out, uulen', i, saved, fin) := uu_decode_loop rest uulen 0 0 true in
  (l ++ out, uulen', i, saved, fin).
Proof.
  assert (byte_ok 0) as H0 by done.
  induction l as [|a|a b|a b c l IH] using list_ind3; intros Hl; cbn [uu_chars].
  - exists 0. cbn [app uu_decode_loop length Z.of_nat]. change (10 =? 10) with true. cbn [orb negb andb].
    change (Z.of_nat 0) with 0. by destruct (uu_decode_loop rest 0 0 0 true) as [[[[? ?] ?] ?] ?].
  - apply Forall_cons in Hl as [Ha _]. exists (-2).
    rewrite uu_decode_enc3 by done. cbn [app uu_decode_loop length Z.of_nat].
    change (10 =? 10) with true. cbn [orb negb andb]. done.
  - rewrite !Forall_cons in Hl. destruct Hl as (Ha & Hb & _). exists (-1).
    rewrite uu_decode_enc3 by done. cbn [app uu_decode_loop length Z.of_nat].
    change (10 =? 10) with true. cbn [orb negb andb]. done.
  - rewrite !Forall_cons in Hl. destruct Hl as (Ha & Hb & Hc & Hl).
    destruct (IH Hl) as (uulen & E). exists uulen. rewrite <- app_assoc.
    rewrite uu_decode_enc3 by (done || (cbn [length]; lia)).
    cbn [length]. replace (Z.of_nat (S (S (S (length l)))) - 3) with (Z.of_nat (length l)) by lia.
    rewrite E. destruct (uu_decode_loop rest uulen 0 0 true) as [[[[? ?] ?] ?] ?].
    by rewrite take_ge by (cbn [length]; lia).
Qed.

Lemma uu_decode_line l rest uulen :
  Forall byte_ok l -> (0 < length l < 64)%nat -> exists uulen1,
  uu_decode_loop (uu_line l ++ rest) uulen 0 0 true =
  let '(out, uulen', i, saved, fin) := uu_decode_loop rest uulen1 0 0 true in
  (l ++ out, uulen', i, saved, fin).
Proof.
  intros Hl Hlen. unfold uu_line. cbn [app uu_decode_loop].
  pose proof (uu_char_range (Z.of_nat (length l))) as Hr.
  rewrite (proj2 (Z.eqb_neq _ 10)) by lia. cbn [orb negb andb].
  rewrite uu_char_decode by lia. rewrite (proj2 (Z.eqb_neq _ 0)) by lia.
  rewrite <- app_assoc. apply uu_decode_chars. done.
Qed.

Lemma uu_decode_lines fuel l rest uulen :
  Forall byte_ok l -> (length l <= fuel)%nat -> exists uulen1,
  uu_decode_loop (uu_lines fuel l ++ rest) uulen 0 0 true =
  let '(out, uulen', i, saved, fin) := uu_decode_loop rest uulen1 0 0 true in
  (l ++ out, uulen', i, saved, fin).
Proof.
  revert l uulen. induction fuel as [|fuel IH]; intros l uulen Hl Hf.
  { destruct l; [|cbn in Hf; lia]. exists uulen. cbn [uu_lines app].
    by destruct (uu_decode_loop rest uulen 0 0 true) as [[[[? ?] ?] ?] ?]. }
  destruct (decide (l = [])) as [->|Hne].
  { exists uulen. cbn [uu_lines app]. by destruct (uu_decode_loop rest uulen 0 0 true) as [[[[? ?] ?] ?] ?]. }
  assert (uu_lines (S fuel) l = uu_line (take 45 l) ++ uu_lines fuel (drop 45 l)) as -> by by destruct l.
  assert (0 < length l)%nat by (destruct l; [done|cbn; lia]).
  rewrite <- app_assoc.
  destruct (uu_decode_line (take 45 l) (uu_lines fuel (drop 45 l) ++ rest) uulen) as (u1 & ->).
  { by apply Forall_take. } { rewrite length_take. lia. }
  destruct (IH (drop 45 l) u1) as (u2 & ->); [by apply Forall_drop|rewrite length_drop; lia|].
  exists u2. destruct (uu_decode_loop rest u2 0 0 true) as [[[[? ?] ?] ?] ?].
  by rewrite app_assoc, take_drop.
Qed.

Lemma uu_between_start uubuf : length uubuf = 60%nat -> uu_between [] [] uubuf 0 0.
Proof.
  intros Hbuf. exists (mkUu 0 0 0 0 uubuf []).
  split; [|done]. split; try done; [by exists 0%nat|cbn; lia..].
Qed.

Lemma uu_text_lines lines cur :
  Forall (fun l => length l = 45%nat) lines -> (length cur < 45)%nat ->
  concat (uu_line <$> lines) ++ uu_last cur ++ [96; 10] = uu_text (concat lines ++ cur).
Proof. intros. unfold uu_text. rewrite uu_lines_concat by done. by rewrite <- app_assoc. Qed.

(** Decoding the text of some bytes. *)
Lemma uudecode_text (data rest : list Z) (state : Z) :
  Forall byte_ok data -> state = 0 \/ state = CAMEL_UUDECODE_STATE_BEGIN ->
  camel_uudecode_step (uu_text data ++ rest) state 0 =
    (data, Z.lor state CAMEL_UUDECODE_STATE_END, 0).
Proof.
  intros Hb Hst. unfold uu_text. rewrite <- app_assoc.
  destruct (uu_decode_lines (length data) data ([96; 10] ++ rest) 0 Hb) as (u & Eu); [done|].
  assert (uu_decode_loop ([96; 10] ++ rest) u 0 0 true = ([], 0, 0, 0, true)) as Eend by done.
  rewrite Eend, app_nil_r in Eu. unfold camel_uudecode_step.
  assert (Z.land state CAMEL_UUDECODE_STATE_END = 0 /\ Z.land (Z.shiftr state 8) 255 = 0 /\
    Z.land state 255 = 0 /\ Z.lor (Z.lor (Z.land (Z.lor state CAMEL_UUDECODE_STATE_END)
      CAMEL_UUDECODE_STATE_MASK) (Z.shiftl (Z.land 0 255) 8)) (Z.land 0 255)
      = Z.lor state CAMEL_UUDECODE_STATE_END) as (-> & -> & -> & Eout) by (by destruct Hst as [-> | ->]).
  change (0 =? 0) with true. cbn [negb]. rewrite Eu. by rewrite Eout.
Qed.

(** C38: decoding the uuencoded text of some bytes gives the bytes back, sets the flag
    for the end of the data, and ignores what follows; so does decoding what the
    encoder wrote, however its input was cut into chunks. *)
Theorem uudecode_uuencode (chunks : list (list Z)) (last uubuf rest : list Z) (state : Z)
    (Hc : Forall (Forall byte_ok) chunks) (Hl : Forall byte_ok last)
    (Hbuf : length uubuf = 60%nat)
    (Hst : state = 0 \/ state = CAMEL_UUDECODE_STATE_BEGIN) :
  exists out, uuencode_stream chunks last uubuf 0 0 = Ok out /\
    camel_uudecode_step (out ++ rest) state 0 =
    (concat chunks ++ last, Z.lor state CAMEL_UUDECODE_STATE_END, 0).
Proof.
  destruct (uu_stream_spec chunks last _ _ _ _ _ (uu_between_start _ Hbuf) Hc Hl)
    as (lines & cur & -> & E & H45 & Hs).
  cbn [app] in E. eexists. split; [done|]. rewrite uu_text_lines, <- E by done.
  apply uudecode_text; [|done]. apply Forall_app. split; [|done]. by apply Forall_concat.
Qed.

Lemma uudecode_uuencode_witness :
  exists out, uuencode_stream [[67; 97]; [116]] [10] (replicate 60 0) 0 0 = Ok out /\
    camel_uudecode_step (out ++ [101; 110; 100; 10]) 0 0 = ([67; 97; 116; 10], 131072, 0).
Proof.
  destruct (uudecode_uuencode [[67; 97]; [116]] [10] (replicate 60 0) [101; 110; 100; 10] 0)
    as (out & E1 & E2).
  - concrete.
  - concrete.
  - reflexivity.
  - by left.
  - exists out. split; [exact E1|exact E2].
Defined.

(** ** Sizes *)

Lemma uu_line_length l :
  Z.of_nat (length (uu_line l)) = 2 + (Z.of_nat (length l) + 2) / 3 * 4.
Proof.
  unfold uu_line. cbn [length]. rewrite length_app. cbn [length].
  pose proof (uu_chars_length l). lia.
Qed.

(** Lines of 45 bytes are written as 62 characters. *)
Lemma uu_full_length lines :
  Forall (fun l => length l = 45%nat) lines ->
  Z.of_nat (length (concat (uu_line <$> lines))) * 45 = Z.of_nat (length (concat lines)) * 62.
Proof.
  induction 1 as [|l lines Hl _ IH]; [done|]. cbn [fmap list_fmap concat].
  rewrite !length_app, !Nat2Z.inj_add. pose proof (uu_line_length l) as E.
  rewrite Hl in *. change ((Z.of_nat 45 + 2) / 3 * 4) with 60 in E. lia.
Qed.

Lemma uu_decode_length inp uulen i saved eoln :
  Z.of_nat (length (uu_decode_loop inp uulen i saved eoln).1.1.1.1) * 4
    <= (Z.of_nat (length inp) + Z.max 0 i) * 3.
Proof.
  revert uulen i saved eoln. induction inp as [|ch inp IH]; intros uulen i saved eoln.
  { cbn. lia. }
  cbn [uu_decode_loop length].
  assert (forall u s e j, j <= Z.max 0 i + 1 ->
    Z.of_nat (length (uu_decode_loop inp u j s e).1.1.1.1) * 4 <= (Z.of_nat (S (length inp)) + Z.max 0 i) * 3)
    as Hj by (intros u s e j Hj; specialize (IH u j s e); lia).
  repeat case_match; simplify_eq; try (apply Hj; lia); try (cbn; lia).
  pose proof (IH (uulen - 3) 0 0 false) as H4.
  match goal with H : uu_decode_loop inp (uulen - 3) 0 0 false = _ |- _ => rewrite H in H4 end.
  cbn [fst] in *. rewrite length_app.
  assert (Z.of_nat (length (uu_group uulen (u32 (Z.lor (Z.shiftl saved 8) ch)))) <= 3) as Hg.
  { unfold uu_group. repeat case_match; cbn; lia. }
  lia.
Qed.

(** The output of one call fits the buffer that [camel-mime-filter-basic.c] allocates
    for it: twice the input and two bytes, and 62, for the encoder in any state it
    reaches, and the input and three bytes for the decoder. *)
Theorem uuencode_fits (g t uubuf : list Z) (state save : Z) (inp : list Z)
    (Hst : uu_between g t uubuf state save) (Hb : Forall byte_ok inp) :
  (exists out uubuf' state' save', camel_uuencode_step inp uubuf state save
     = Ok (out, uubuf', state', save') /\
     Z.of_nat (length out) <= (Z.of_nat (length inp) + 2) * 2 + 62) /\
  (exists out uubuf', camel_uuencode_close inp uubuf state save = Ok (out, uubuf', 0, 0) /\
     Z.of_nat (length out) <= (Z.of_nat (length inp) + 2) * 2 + 62) /\
  forall inp state save, Z.land state 0xff <= 3 ->
    Z.of_nat (length (fst (fst (camel_uudecode_step inp state save)))) <= Z.of_nat (length inp) + 3.
Proof.
  assert (length (g ++ t) < 45)%nat as Hgt.
  { destruct (uu_between_inv _ _ _ _ _ Hst) as (_ & _ & _ & _ & [n Hn] & Hs & Hr & _).
    rewrite length_app. lia. }
  split; [|split].
  - destruct (uu_step_spec _ _ _ _ _ inp Hst Hb) as (uubuf' & state' & save' & lines & g' & t' & E & Eg & Hl & _).
    eexists _, uubuf', state', save'. split; [exact E|]. apply (f_equal length) in Eg.
    rewrite app_assoc, (length_app (g ++ t)), (length_app (concat lines)) in Eg.
    pose proof (uu_full_length lines Hl). lia.
  - destruct (uu_close_spec _ _ _ _ _ inp Hst Hb) as (uubuf' & lines & g' & t' & E & Eg & Hl & Hs).
    eexists _, uubuf'. split; [exact E|]. apply (f_equal length) in Eg.
    rewrite app_assoc, (length_app (g ++ t)), (length_app (concat lines)) in Eg.
    pose proof (uu_full_length lines Hl). rewrite !length_app. cbn [length].
    assert (Z.of_nat (length (uu_last (g' ++ t'))) <= 2 + (Z.of_nat (length (g' ++ t')) + 2) / 3 * 4) as Hlast.
    { unfold uu_last. case_decide; [cbn; div_lia|]. by rewrite uu_line_length. }
    div_lia.
  - intros inp' state' save' Hi. unfold camel_uudecode_step. case_match; [cbn; lia|].
    pose proof (uu_decode_length inp' (Z.land (Z.shiftr state' 8) 255) (Z.land state' 255) save'
      (Z.land (Z.shiftr state' 8) 255 =? 0)) as H1.
    destruct (uu_decode_loop _ _ _ _ _) as [[[[? ?] ?] ?] ?]. cbn [fst] in *. lia.
Qed.

Lemma uuencode_fits_witness :
  exists out uubuf', camel_uuencode_close [1; 2] (replicate 60 0) 0 0 = Ok (out, uubuf', 0, 0) /\
    Z.of_nat (length out) <= 70.
Proof.
  destruct (uuencode_fits [] [] (replicate 60 0) 0 0 [1; 2]) as [_ [H _]].
  - exists (mkUu 0 0 0 0 (replicate 60 0) []). split; [|repeat split].
    split; try reflexivity; [constructor|by exists 0%nat|vm_compute; lia..].
  - concrete.
  - exact H.
Defined.

(** A line whose bytes are not a multiple of three leaves a length below zero, kept as a
    byte: if a chunk ends after it, the decoder takes the next line for data.  Here
    the empty line, which ends the data, is not recognised. *)
Example uudecode_chunk_end :
  let '(o1, state, save) := camel_uudecode_step [35; 48; 86; 37; 84; 10; 33; 55; 39; 54; 33; 10] 0 0 in
  let '(o2, state, save) := camel_uudecode_step [96; 10] state save in
  (o1, o2, Z.land state CAMEL_UUDECODE_STATE_END)
  = ([67; 97; 116; 92], [], 0).
Proof. vm_compute. reflexivity. Qed.
