(* ===== verification/QuotedPrintable.v ===== *)
(** * Quoted-printable ([camel-mime-utils.c])

    [camel_quoted_encode_step], [camel_quoted_encode_close] and
    [camel_quoted_decode_step] of [src/camel/camel-mime-utils.c], with the state they
    keep between the chunks of a stream, and [quoted_encode] and [quoted_decode], the
    variant for encoded words in headers.  The bits of the character table are
    those [src/camel/gentables.pl] computes.  Bytes are numbers from 0 to 255;
    output is the list of bytes written. *)

From S2P Require Import Prelude CString.

(** [tohex], indexed with four bits *)
Definition tohex_table : list Z :=
  [48; 49; 50; 51; 52; 53; 54; 55; 56; 57; 65; 66; 67; 68; 69; 70].
Definition tohex (d : Z) : Z := default 0 (tohex_table !! Z.to_nat (Z.land d 0xf)).

(** [CAMEL_MIME_IS_QPSAFE], [CAMEL_MIME_IS_ESAFE] and [CAMEL_MIME_IS_PSAFE] of the entries of
    [camel_mime_special_table]. *)
Definition camel_mime_is_qpsafe (c : Z) : bool :=
  let i := u8 c in
  ((32 <=? i) && (i <=? 60)) || ((62 <=? i) && (i <=? 126)) || (i =? 9).

(** The characters of the string removed from [ESAFE] (parentheses, angle brackets, at
    sign, comma, semicolon, colon, double quote, slash, square brackets, question
    mark, dot, equals sign, underscore). *)
Definition especials : list Z :=
  [40; 41; 60; 62; 64; 44; 59; 58; 34; 47; 91; 93; 63; 46; 61; 95].
Definition camel_mime_is_esafe (c : Z) : bool :=
  camel_mime_is_qpsafe c && negb (bool_decide (u8 c ∈ especials)).

(** Digits, letters and the characters added to [PSAFE]: exclamation mark, asterisk,
    plus, minus, slash. *)
Definition camel_mime_is_psafe (c : Z) : bool :=
  let i := u8 c in
  ((48 <=? i) && (i <=? 57)) || ((97 <=? i) && (i <=? 122)) || ((65 <=? i) && (i <=? 90))
  || bool_decide (i ∈ [33; 42; 43; 45; 47]).

(** [=XX] *)
Definition qp_hex (c : Z) : list Z := [61; tohex (Z.shiftr c 4); tohex c].

(** ** Encoding *)

(** One round of the loop of [camel_quoted_encode_step]: what it writes, [sofar] (the number
    of characters on the line) and [last] (a character not written yet, or -1). *)
Definition qp_encode_char (c sofar last : Z) : list Z * Z * Z :=
  if c =? 13 then
    if negb (last =? -1) then (qp_hex last, sofar + 3, c) else ([], sofar, c)
  else if c =? 10 then
    ((if negb (last =? -1) && negb (last =? 13) then qp_hex last else []) ++ [10], 0, -1)
  else
    let '(out1, sofar) :=
      if negb (last =? -1) then
        if camel_mime_is_qpsafe last then ([u8 last], sofar + 1) else (qp_hex last, sofar + 3)
      else ([], sofar) in
    if camel_mime_is_qpsafe c then
      let '(out2, sofar) := if 74 <? sofar then ([61; 10], 0) else ([], sofar) in
      if (c =? 32) || (c =? 9) then (out1 ++ out2, sofar, c)
      else (out1 ++ out2 ++ [c], sofar + 1, -1)
    else
      let '(out2, sofar) := if 72 <? sofar then ([61; 10], 3) else ([], sofar + 3) in
      (out1 ++ out2 ++ qp_hex c, sofar, -1).

(** The output, [*statep] and [*save]. *)
Fixpoint camel_quoted_encode_step (inp : list Z) (last sofar : Z) : list Z * Z * Z :=
  match inp with
  | [] => ([], last, sofar)
  | c :: inp =>
      let '(out, sofar, last) := qp_encode_char c sofar last in
      let '(rest, last, sofar) := camel_quoted_encode_step inp last sofar in
      (out ++ rest, last, sofar)
  end.

Definition camel_quoted_encode_close (inp : list Z) (state save : Z) : list Z * Z * Z :=
  let '(out, last, save) :=
    match inp with
    | [] => ([], state, save)
    | _ => camel_quoted_encode_step inp state save
    end in
  let out2 :=
    if negb (last =? -1) then
      if camel_mime_is_qpsafe last && negb (last =? 32) && negb (last =? 9)
      then [u8 last] else qp_hex last
    else [] in
  (out ++ out2, -1, 0).

(** ** Decoding *)

(** [((c>='A'?c-'A'+10:c-'0')&0x0f)] *)
Definition hexval (c : Z) : Z := Z.land (if 65 <=? c then c - 65 + 10 else c - 48) 0x0f.

(** The loop of [camel_quoted_decode_step]: the output, [state] and [save].  The inner
    loop of state 0 reads one byte after the other like the outer one. *)
Fixpoint camel_quoted_decode_step (inp : list Z) (state save : Z) : list Z * Z * Z :=
  match inp with
  | [] => ([], state, save)
  | c :: inp =>
      if state =? 0 then
        if c =? 61 then camel_quoted_decode_step inp 1 save
        else let '(out, state, save) := camel_quoted_decode_step inp 0 save in (c :: out, state, save)
      else if state =? 1 then
        if c =? 10 then camel_quoted_decode_step inp 0 save
        else camel_quoted_decode_step inp 2 c
      else if isxdigit c && isxdigit save then
        let c := toupper c in
        let save := toupper save in
        let o := u8 (Z.lor (Z.shiftl (hexval save) 4) (hexval c)) in
        let '(out, state, save) := camel_quoted_decode_step inp 0 save in (o :: out, state, save)
      else if (c =? 10) && (save =? 13) then camel_quoted_decode_step inp 0 save
      else
        let '(out, state, save') := camel_quoted_decode_step inp 0 save in
        (61 :: u8 save :: c :: out, state, save')
  end.

(** ** Encoded words *)

(** [quoted_encode]; [safe] tells which entries of the table have a bit of [safemask]. *)
Fixpoint quoted_encode (safe : Z -> bool) (inp : list Z) : list Z :=
  match inp with
  | [] => []
  | c :: inp =>
      (if c =? 32 then [95] else if safe c then [c] else qp_hex c) ++ quoted_encode safe inp
  end.

(** The loop of [quoted_decode]: [len] is [inend - in].  The two bytes after an equals
    sign are read whenever the whole input has two bytes; reading past the end of the
    input is [Undef].  [None] is the error. *)
Fixpoint quoted_decode_loop (len : Z) (inp : list Z) : res (option (list Z)) :=
  match inp with
  | [] => Ok (Some [])
  | c :: inp =>
      if c =? 61 then
        if 2 <=? len then
          match inp with
          | c :: c1 :: inp =>
              let o := u8 (Z.lor (Z.shiftl (hexval (toupper c)) 4) (hexval (toupper c1))) in
              out ← quoted_decode_loop len inp;
              Ok (option_map (cons o) out)
          | _ => Undef
          end
        else Ok None
      else
        out ← quoted_decode_loop len inp;
        Ok (option_map (cons (if c =? 95 then 32 else c)) out)
  end.

(** The bytes decoded; none after an error. *)
Definition quoted_decode (inp : list Z) : res (list Z) :=
  out ← quoted_decode_loop (Z.of_nat (length inp)) inp;
  Ok (default [] out).
