(* ===== verification/QuotedPrintableSpec.v ===== *)
(** * Quoted-printable: round trip, lines, and sizes

    Decoding what the encoder wrote, both of them in chunks of any sizes, gives the
    input back, but for the ends of lines, which lose a carriage return.  Without
    carriage returns the output is lines of at most 77 printable characters, none
    of which ends with a space; the output of a call fits the buffer its callers
    allocate. *)

From S2P Require Import Prelude CString QuotedPrintable.

(** ** Hexadecimal digits *)

Lemma tohex_digit d :
  0 <= d < 16 ->
  isxdigit (tohex d) = true /\ hexval (toupper (tohex d)) = d /\ (48 <= tohex d <= 57 \/ 65 <= tohex d <= 70).
Proof.
  intros Hd. assert (d ∈ seqZ 0 16) as Hin by (apply elem_of_seqZ; lia).
  assert (Forall (fun d => isxdigit (tohex d) = true /\ hexval (toupper (tohex d)) = d /\
    (48 <= tohex d <= 57 \/ 65 <= tohex d <= 70)) (seqZ 0 16)) as H.
  { cbn. repeat (apply Forall_cons_2; [vm_compute; intuition discriminate|]). apply Forall_nil_2. }
  rewrite Forall_forall in H. by apply H.
Qed.

Lemma tohex_mod d : tohex d = tohex (d mod 16).
Proof. unfold tohex. by rewrite !land_f, Z.mod_mod by lia. Qed.

(** The digits of a byte. *)
Lemma qp_hex_digits c :
  byte_ok c -> qp_hex c = [61; tohex (c / 16); tohex (c mod 16)].
Proof.
  intros Hc. unfold qp_hex. rewrite Z.shiftr_div_pow2 by lia.
  by rewrite (tohex_mod c).
Qed.

Lemma hex_byte c :
  byte_ok c ->
  u8 (Z.lor (Z.shiftl (hexval (toupper (tohex (c / 16)))) 4) (hexval (toupper (tohex (c mod 16))))) = c.
Proof.
  unfold byte_ok. intros Hc.
  destruct (tohex_digit (c / 16)) as (_ & -> & _); [div_lia|].
  destruct (tohex_digit (c mod 16)) as (_ & -> & _); [div_lia|].
  rewrite lor_add, u8_small by (cbn; div_lia). cbn. div_lia.
Qed.

(** ** Decoding pieces *)

(** From state 0, [out] decodes to [d] and leads back to state 0. *)
Definition qp_decodes (out d : list Z) : Prop :=
  forall rest save, exists save1,
    camel_quoted_decode_step (out ++ rest) 0 save =
    let '(o, state, save2) := camel_quoted_decode_step rest 0 save1 in (d ++ o, state, save2).

Lemma qp_decodes_nil : qp_decodes [] [].
Proof.
  intros rest save. exists save. by destruct (camel_quoted_decode_step _ 0 save) as [[? ?] ?].
Qed.

Lemma qp_decodes_app out1 d1 out2 d2 :
  qp_decodes out1 d1 -> qp_decodes out2 d2 -> qp_decodes (out1 ++ out2) (d1 ++ d2).
Proof.
  intros H1 H2 rest save. destruct (H1 (out2 ++ rest) save) as (s1 & E1).
  destruct (H2 rest s1) as (s2 & E2). exists s2. rewrite <- app_assoc, E1, E2.
  destruct (camel_quoted_decode_step _ 0 s2) as [[? ?] ?]. by rewrite app_assoc.
Qed.

Lemma qp_decodes_plain c : c <> 61 -> qp_decodes [c] [c].
Proof.
  intros Hc rest save. exists save. cbn [app camel_quoted_decode_step].
  change (0 =? 0) with true. by rewrite (proj2 (Z.eqb_neq c 61)).
Qed.

Lemma qp_decodes_soft : qp_decodes [61; 10] [].
Proof.
  intros rest save. exists save. cbn. by destruct (camel_quoted_decode_step _ 0 save) as [[? ?] ?].
Qed.

Lemma qp_decodes_hex c : byte_ok c -> qp_decodes (qp_hex c) [c].
Proof.
  intros Hc rest save. rewrite qp_hex_digits by done.
  exists (toupper (tohex (c / 16))).
  destruct (tohex_digit (c / 16)) as (X1 & _ & R1); [unfold byte_ok in Hc; div_lia|].
  destruct (tohex_digit (c mod 16)) as (X2 & _ & R2); [div_lia|].
  cbn [app camel_quoted_decode_step]. change (0 =? 0) with true. change (61 =? 61) with true.
  change (1 =? 0) with false. change (1 =? 1) with true. cbv iota.
  rewrite (proj2 (Z.eqb_neq (tohex (c / 16)) 10)) by lia.
  change (2 =? 0) with false. change (2 =? 1) with false. cbv iota.
  rewrite X1, X2. cbn [andb]. cbv zeta. by rewrite hex_byte.
Qed.

#[export] Hint Resolve qp_decodes_nil qp_decodes_app qp_decodes_plain qp_decodes_soft
  qp_decodes_hex : codec.

(** ** What a character is encoded to *)

(** Ends of lines without a carriage return. *)
Fixpoint canonical (l : list Z) : list Z :=
  match l with
  | [] => []
  | c :: l' => if (c =? 13) && match l' with d :: _ => d =? 10 | [] => false end
               then canonical l' else c :: canonical l'
  end.

(** The character that is not written yet. *)
Definition pending (last : Z) : list Z := if last =? -1 then [] else [last].

(** A character is held back if it is a space, a tab or a carriage return. *)
Definition last_ok (last : Z) : Prop := last = -1 \/ last = 32 \/ last = 9 \/ last = 13.

Lemma canonical_cons c l :
  c <> 13 -> canonical (c :: l) = c :: canonical l.
Proof. intros Hc. cbn [canonical]. by rewrite (proj2 (Z.eqb_neq c 13)). Qed.

Lemma canonical_cr c l :
  c <> 10 -> canonical (13 :: c :: l) = 13 :: canonical (c :: l).
Proof. intros Hc. cbn [canonical]. by rewrite (proj2 (Z.eqb_neq c 10)). Qed.

Lemma canonical_pending last c l :
  last_ok last -> c <> 10 -> canonical (pending last ++ c :: l) = pending last ++ canonical (c :: l).
Proof.
  intros Hl Hc. unfold pending. destruct Hl as [->|[->|[->| ->]]]; cbn [Z.eqb app]; try done.
  - by apply canonical_cr.
Qed.

Lemma qpsafe_plain c : camel_mime_is_qpsafe c = true -> byte_ok c -> c <> 61 /\ (c = 9 \/ 32 <= c <= 126).
Proof. unfold camel_mime_is_qpsafe, byte_ok. intros H Hc. rewrite u8_small in H by lia. lia. Qed.

Lemma qpsafe_last last :
  last_ok last -> camel_mime_is_qpsafe last = bool_decide (last = 32 \/ last = 9).
Proof. intros [->|[->|[->| ->]]]; reflexivity. Qed.

(** What writing the character held back adds to the output, and to the line. *)
Lemma qp_decodes_last last :
  last_ok last -> last <> -1 ->
  qp_decodes (if camel_mime_is_qpsafe last then [u8 last] else qp_hex last) [last].
Proof.
  intros Hl Hn. destruct Hl as [->|[->|[->| ->]]]; [done|..].
  - change (qp_decodes [32] [32]). by apply qp_decodes_plain.
  - change (qp_decodes [9] [9]). by apply qp_decodes_plain.
  - change (qp_decodes (qp_hex 13) [13]). by apply qp_decodes_hex.
Qed.

(** A character other than the ends of lines: first the one held back, then perhaps a
    soft line break, then the character, unless it is held back itself. *)
Lemma qp_encode_other c sofar last out sofar' last' :
  byte_ok c -> last_ok last -> c <> 13 -> c <> 10 ->
  qp_encode_char c sofar last = (out, sofar', last') ->
  exists o1 o2 o3, out = o1 ++ o2 ++ o3 /\ qp_decodes o1 (pending last) /\ qp_decodes o2 [] /\
    ((o3 = [] /\ last' = c /\ (c = 32 \/ c = 9)) \/ (qp_decodes o3 [c] /\ last' = -1)).
Proof.
  intros Hc Hl H13 H10 E. unfold qp_encode_char in E.
  rewrite (proj2 (Z.eqb_neq c 13)), (proj2 (Z.eqb_neq c 10)) in E by done.
  set (o1 := if negb (last =? -1)
    then if camel_mime_is_qpsafe last then [u8 last] else qp_hex last else []).
  assert (qp_decodes o1 (pending last)) as Ho1.
  { unfold o1, pending. destruct (Z.eqb_spec last (-1)); cbn [negb]; [auto with codec|].
    by apply qp_decodes_last. }
  fold o1 in E. destruct (if negb (last =? -1) then _ else _) as [o1' s1] eqn:E1.
  assert (o1' = o1) as ->.
  { unfold o1. destruct (negb (last =? -1)); [|by injection E1].
    destruct (camel_mime_is_qpsafe last); by injection E1. }
  destruct (camel_mime_is_qpsafe c) eqn:Esafe.
  - destruct (qpsafe_plain c Esafe Hc) as [H61 _].
    destruct (if 74 <? s1 then _ else _) as [o2 s2] eqn:E2.
    assert (qp_decodes o2 []) as Ho2.
    { destruct (74 <? s1); injection E2 as <- _; auto with codec. }
    destruct ((c =? 32) || (c =? 9)) eqn:Esp; injection E as <- <- <-.
    + exists o1, o2, []. rewrite app_nil_r. split; [done|]. split; [done|]. split; [done|]. left. split; [done|].
      split; [done|]. lia.
    + exists o1, o2, [c]. split; [done|]. split; [done|]. split; [done|]. right. auto with codec.
  - destruct (if 72 <? s1 then _ else _) as [o2 s2] eqn:E2.
    assert (qp_decodes o2 []) as Ho2.
    { destruct (72 <? s1); injection E2 as <- _; auto with codec. }
    injection E as <- <- <-. exists o1, o2, (qp_hex c). split; [done|]. split; [done|]. split; [done|]. right.
    auto with codec.
Qed.

(** One round writes what decodes to the next characters of the canonical text. *)
Lemma qp_encode_char_decodes c sofar last out sofar' last' :
  byte_ok c -> last_ok last -> qp_encode_char c sofar last = (out, sofar', last') ->
  last_ok last' /\ exists d, qp_decodes out d /\
    forall l, canonical (pending last ++ c :: l) = d ++ canonical (pending last' ++ l).
Proof.
  intros Hc Hl E. unfold qp_encode_char in E.
  destruct (Z.eqb_spec c 13) as [->|H13].
  { assert (out = (if last =? -1 then [] else qp_hex last) /\ last' = 13) as [-> ->].
    { by destruct (last =? -1); injection E as <- <- <-. }
    split; [by do 3 right|]. exists (pending last). split.
    - unfold pending. destruct (Z.eqb_spec last (-1)); [auto with codec|].
      apply qp_decodes_hex. destruct Hl as [->|[->|[->| ->]]]; done.
    - intros l. by rewrite canonical_pending. }
  destruct (Z.eqb_spec c 10) as [->|H10].
  { injection E as <- <- <-. split; [by left|].
    exists ((if negb (last =? -1) && negb (last =? 13) then [last] else []) ++ [10]). split.
    - apply qp_decodes_app; [|by apply qp_decodes_plain].
      destruct Hl as [->|[->|[->| ->]]]; cbn [Z.eqb negb andb]; auto with codec;
        by apply qp_decodes_hex.
    - intros l. destruct Hl as [->|[->|[->| ->]]]; reflexivity. }
  assert (qp_encode_char c sofar last = (out, sofar', last')) as E'.
  { unfold qp_encode_char. rewrite (proj2 (Z.eqb_neq c 13)), (proj2 (Z.eqb_neq c 10)) by done. exact E. }
  destruct (qp_encode_other _ _ _ _ _ _ Hc Hl H13 H10 E')
    as (o1 & o2 & o3 & -> & Ho1 & Ho2 & Ho3).
  destruct Ho3 as [(-> & -> & Hsp)|[Ho3 ->]].
  - split; [unfold last_ok; lia|]. exists (pending last). split.
    + rewrite app_nil_r. rewrite <- (app_nil_r (pending last)). by apply qp_decodes_app.
    + intros l. rewrite canonical_pending by done. f_equal. unfold pending.
      rewrite (proj2 (Z.eqb_neq c (-1))) by (unfold byte_ok in Hc; lia). done.
  - split; [by left|]. exists (pending last ++ [] ++ [c]). split; [by repeat apply qp_decodes_app|].
    intros l. rewrite canonical_pending, canonical_cons by done. by rewrite <- !app_assoc.
Qed.

(** ** Streams *)

Lemma qp_step_decodes inp last sofar out last' sofar' :
  Forall byte_ok inp -> last_ok last ->
  camel_quoted_encode_step inp last sofar = (out, last', sofar') ->
  last_ok last' /\ exists d, qp_decodes out d /\
    forall l, canonical (pending last ++ inp ++ l) = d ++ canonical (pending last' ++ l).
Proof.
  intros Hb. revert last sofar out. induction Hb as [|c inp Hc _ IH]; intros last sofar out Hl E.
  { injection E as <- <- <-. split; [done|]. exists []. split; [auto with codec|done]. }
  cbn [camel_quoted_encode_step] in E.
  destruct (qp_encode_char c sofar last) as [[out1 sofar1] last1] eqn:E1.
  destruct (camel_quoted_encode_step inp last1 sofar1) as [[out2 last2] sofar2] eqn:E2.
  injection E as <- <- <-.
  destruct (qp_encode_char_decodes _ _ _ _ _ _ Hc Hl E1) as (Hl1 & d1 & Hd1 & C1).
  destruct (IH _ _ _ Hl1 E2) as (Hl2 & d2 & Hd2 & C2).
  split; [done|]. exists (d1 ++ d2). split; [by apply qp_decodes_app|].
  intros l. cbn [app]. by rewrite C1, C2, app_assoc.
Qed.

Lemma qp_close_decodes inp last sofar :
  Forall byte_ok inp -> last_ok last ->
  qp_decodes (camel_quoted_encode_close inp last sofar).1.1 (canonical (pending last ++ inp)).
Proof.
  intros Hb Hl. unfold camel_quoted_encode_close.
  assert (match inp with [] => ([], last, sofar) | _ => camel_quoted_encode_step inp last sofar end
    = camel_quoted_encode_step inp last sofar) as -> by by destruct inp.
  destruct (camel_quoted_encode_step inp last sofar) as [[out last1] sofar1] eqn:E.
  destruct (qp_step_decodes _ _ _ _ _ _ Hb Hl E) as (Hl1 & d & Hd & C). cbn [fst].
  specialize (C []). rewrite !app_nil_r in C. rewrite C. apply qp_decodes_app; [done|].
  destruct Hl1 as [->|[->|[->| ->]]]; [auto with codec|by apply qp_decodes_hex..].
Qed.

(** The output of encoding [chunks] one after the other and closing with [final]. *)
Fixpoint qp_encode_stream (chunks : list (list Z)) (final : list Z) (last sofar : Z) : list Z :=
  match chunks with
  | [] => (camel_quoted_encode_close final last sofar).1.1
  | c :: chunks =>
      let '(out, last, sofar) := camel_quoted_encode_step c last sofar in
      out ++ qp_encode_stream chunks final last sofar
  end.

(** The output of decoding [pieces] one after the other. *)
Fixpoint qp_decode_stream (pieces : list (list Z)) (state save : Z) : list Z * Z :=
  match pieces with
  | [] => ([], state)
  | p :: pieces =>
      let '(out, state, save) := camel_quoted_decode_step p state save in
      let '(rest, state) := qp_decode_stream pieces state save in
      (out ++ rest, state)
  end.

Lemma qp_decode_step_app inp1 inp2 state save :
  camel_quoted_decode_step (inp1 ++ inp2) state save =
  let '(out1, state, save) := camel_quoted_decode_step inp1 state save in
  let '(out2, state, save) := camel_quoted_decode_step inp2 state save in
  (out1 ++ out2, state, save).
Proof.
  revert state save. induction inp1 as [|c inp1 IH]; intros state save; cbn [app camel_quoted_decode_step].
  { by destruct (camel_quoted_decode_step inp2 state save) as [[? ?] ?]. }
  assert (forall (f : list Z -> list Z) s v, (forall o1 o2, f (o1 ++ o2) = f o1 ++ o2) ->
    (let '(o, state, save) := camel_quoted_decode_step (inp1 ++ inp2) s v in (f o, state, save)) =
    let '(out1, state, save) :=
      let '(o, state, save) := camel_quoted_decode_step inp1 s v in (f o, state, save) in
    let '(out2, state, save) := camel_quoted_decode_step inp2 state save in
    (out1 ++ out2, state, save)) as Hf.
  { intros f s v Happ. rewrite IH. destruct (camel_quoted_decode_step inp1 s v) as [[o1 s1] v1].
    destruct (camel_quoted_decode_step inp2 s1 v1) as [[o2 s2] v2]. by rewrite Happ. }
  destruct (state =? 0).
  { destruct (c =? 61); [apply IH|]. by apply (Hf (cons c)). }
  destruct (state =? 1); [destruct (c =? 10); apply IH|].
  destruct (isxdigit c && isxdigit save); cbv zeta; [by apply (Hf (cons _))|].
  destruct (_ && _); [apply IH|]. by apply (Hf (fun o => 61 :: u8 save :: c :: o)).
Qed.

Lemma qp_decode_stream_concat pieces state save :
  qp_decode_stream pieces state save =
  let '(out, state, _) := camel_quoted_decode_step (concat pieces) state save in (out, state).
Proof.
  revert state save. induction pieces as [|p pieces IH]; intros state save; [done|].
  cbn [qp_decode_stream concat]. rewrite qp_decode_step_app.
  destruct (camel_quoted_decode_step p state save) as [[o1 s1] v1]. rewrite IH.
  by destruct (camel_quoted_decode_step (concat pieces) s1 v1) as [[o2 s2] v2].
Qed.

Lemma qp_stream_decodes chunks final last sofar :
  Forall (Forall byte_ok) chunks -> Forall byte_ok final -> last_ok last ->
  qp_decodes (qp_encode_stream chunks final last sofar)
    (canonical (pending last ++ concat chunks ++ final)).
Proof.
  intros Hc Hf. revert last sofar. induction Hc as [|c chunks Hc _ IH]; intros last sofar Hl.
  { by apply qp_close_decodes. }
  cbn [qp_encode_stream concat].
  destruct (camel_quoted_encode_step c last sofar) as [[out last1] sofar1] eqn:E.
  destruct (qp_step_decodes _ _ _ _ _ _ Hc Hl E) as (Hl1 & d & Hd & C).
  rewrite <- app_assoc, C. apply qp_decodes_app; [done|]. by apply IH.
Qed.

(** C39: however the input is cut into chunks for the encoder, and its output into pieces
    for the decoder, the decoder gives the input back, but for carriage returns
    before the end of a line, which are dropped; it ends where it can start again. *)
Theorem quoted_printable_roundtrip (chunks : list (list Z)) (final : list Z)
    (pieces : list (list Z)) (Hc : Forall (Forall byte_ok) chunks) (Hf : Forall byte_ok final)
    (Hp : concat pieces = qp_encode_stream chunks final (-1) 0) :
  qp_decode_stream pieces 0 0 = (canonical (concat chunks ++ final), 0).
Proof.
  rewrite qp_decode_stream_concat, Hp.
  destruct (qp_stream_decodes chunks final (-1) 0 Hc Hf (or_introl eq_refl) [] 0) as (save & E).
  rewrite app_nil_r in E. rewrite E. cbn [camel_quoted_decode_step]. by rewrite app_nil_r.
Qed.

(** [caf=C3=A9=20\n], decoded in two pieces. *)
Lemma quoted_printable_roundtrip_witness :
  qp_decode_stream [[99; 97; 102; 61; 67]; [51; 61; 65; 57; 61; 50; 48; 10]] 0 0
  = ([99; 97; 102; 195; 169; 32; 10], 0).
Proof.
  rewrite (quoted_printable_roundtrip [[99; 97; 102; 195]; [169; 32; 13]] [10]).
  - reflexivity.
  - concrete.
  - concrete.
  - reflexivity.
Defined.

(** ** Lines *)

Definition is_blank (c : Z) : bool := (c =? 32) || (c =? 9).

(** Reads lines of at most [n] characters, all printable or tabs, none ending in a
    blank: the column and the last character at the end; [None] if there is
    another line. *)
Fixpoint scan_lines (n col prev : Z) (out : list Z) : option (Z * Z) :=
  match out with
  | [] => Some (col, prev)
  | c :: out =>
      if c =? 10 then if is_blank prev then None else scan_lines n 0 10 out
      else if ((c =? 9) || (32 <=? c) && (c <=? 126)) && (col + 1 <=? n)
      then scan_lines n (col + 1) c out else None
  end.

Lemma scan_lines_app n col prev out1 out2 :
  scan_lines n col prev (out1 ++ out2) =
  '(col, prev) ← scan_lines n col prev out1; scan_lines n col prev out2.
Proof.
  revert col prev. induction out1 as [|c out1 IH]; intros col prev; [done|].
  cbn [app scan_lines]. repeat case_match; done.
Qed.

Lemma scan_plain n col prev c :
  c = 9 \/ 32 <= c <= 126 -> col + 1 <= n -> scan_lines n col prev [c] = Some (col + 1, c).
Proof.
  intros Hc Hn. cbn [scan_lines]. rewrite (proj2 (Z.eqb_neq c 10)) by lia.
  assert (((c =? 9) || (32 <=? c) && (c <=? 126)) && (col + 1 <=? n) = true) as -> by lia. done.
Qed.

Lemma scan_hex n col prev c :
  byte_ok c -> col + 3 <= n -> exists d, scan_lines n col prev (qp_hex c) = Some (col + 3, d) /\
    is_blank d = false.
Proof.
  intros Hc Hn. rewrite qp_hex_digits by done.
  destruct (tohex_digit (c / 16)) as (_ & _ & R1); [unfold byte_ok in Hc; div_lia|].
  destruct (tohex_digit (c mod 16)) as (_ & _ & R2); [div_lia|].
  exists (tohex (c mod 16)). split; [|unfold is_blank; lia].
  change [61; tohex (c / 16); tohex (c mod 16)] with ([61] ++ [tohex (c / 16)] ++ [tohex (c mod 16)]).
  rewrite scan_lines_app, scan_plain by lia. cbn [mbind option_bind].
  rewrite scan_lines_app, scan_plain by lia. cbn [mbind option_bind].
  rewrite scan_plain by lia. do 2 f_equal. lia.
Qed.

Lemma scan_soft n col prev :
  col + 1 <= n -> scan_lines n col prev [61; 10] = Some (0, 10).
Proof.
  intros Hn. change [61; 10] with ([61] ++ [10]). rewrite scan_lines_app, scan_plain by lia. done.
Qed.

Lemma scan_newline n col prev :
  is_blank prev = false -> scan_lines n col prev [10] = Some (0, 10).
Proof. intros Hp. cbn [scan_lines]. change (10 =? 10) with true. cbv iota. by rewrite Hp. Qed.

(** The state between two characters: the column is [sofar], a blank fits the line. *)
Definition line_ok (sofar last prev : Z) : Prop :=
  (last = -1 /\ is_blank prev = false /\ 0 <= sofar <= 75) \/
  ((last = 32 \/ last = 9) /\ 0 <= sofar <= 74).

Lemma scan_encode_char c sofar last prev out sofar' last' :
  byte_ok c -> c <> 13 -> line_ok sofar last prev ->
  qp_encode_char c sofar last = (out, sofar', last') ->
  exists prev', scan_lines 77 sofar prev out = Some (sofar', prev') /\ line_ok sofar' last' prev'.
Proof.
  intros Hc H13 Hl E. unfold qp_encode_char in E. rewrite (proj2 (Z.eqb_neq c 13)) in E by done.
  destruct (Z.eqb_spec c 10) as [->|H10].
  { injection E as <- <- <-. destruct Hl as [(-> & Hp & Hs)|[Hb Hs]].
    - exists 10. split; [by apply scan_newline|]. by left.
    - assert (negb (last =? -1) && negb (last =? 13) = true) as -> by lia.
      destruct (scan_hex 77 sofar prev last) as (d & Ed & Hd); [unfold byte_ok; lia|lia|].
      rewrite scan_lines_app, Ed. exists 10. split; [by apply scan_newline|]. by left. }
  assert (exists o1 s1 p1, (if negb (last =? -1) then
      if camel_mime_is_qpsafe last then ([u8 last], sofar + 1) else (qp_hex last, sofar + 3)
    else ([], sofar)) = (o1, s1) /\ scan_lines 77 sofar prev o1 = Some (s1, p1) /\ 0 <= s1 <= 75)
    as (o1 & s1 & p1 & E1 & Ho1 & Hs1).
  { destruct Hl as [(-> & Hp & Hs)|[Hb Hs]]; cbn [Z.eqb negb].
    - by exists [], sofar, prev.
    - assert (camel_mime_is_qpsafe last = true) as -> by (destruct Hb as [->| ->]; done).
      rewrite (proj2 (Z.eqb_neq last (-1))), u8_small by lia. cbn [negb].
      exists [last], (sofar + 1), last. rewrite scan_plain by lia. split; [done|]. split; [done|]. lia. }
  rewrite E1 in E. destruct (camel_mime_is_qpsafe c) eqn:Esafe.
  - destruct (qpsafe_plain c Esafe Hc) as [_ Hplain].
    assert (exists o2 s2 p2, (if 74 <? s1 then ([61; 10], 0) else ([], s1)) = (o2, s2) /\
      scan_lines 77 s1 p1 o2 = Some (s2, p2) /\ 0 <= s2 <= 74) as (o2 & s2 & p2 & E2 & Ho2 & Hs2).
    { destruct (Z.ltb_spec 74 s1).
      - exists [61; 10], 0, 10. rewrite scan_soft by lia. done.
      - exists [], s1, p1. split; [done|]. split; [done|lia]. }
    rewrite E2 in E. destruct ((c =? 32) || (c =? 9)) eqn:Eb; injection E as <- <- <-.
    + exists p2. rewrite scan_lines_app, Ho1. split; [exact Ho2|]. right. lia.
    + exists c. rewrite scan_lines_app, Ho1. cbn [mbind option_bind].
      rewrite scan_lines_app, Ho2. cbn [mbind option_bind]. rewrite scan_plain by lia.
      split; [done|]. left. split; [done|]. split; [exact Eb|lia].
  - assert (exists o2 s2 p2, (if 72 <? s1 then ([61; 10], 3) else ([], s1 + 3)) = (o2, s2 + 3) /\
      scan_lines 77 s1 p1 o2 = Some (s2, p2) /\ 0 <= s2 <= 72) as (o2 & s2 & p2 & E2 & Ho2 & Hs2).
    { destruct (Z.ltb_spec 72 s1).
      - exists [61; 10], 0, 10. rewrite scan_soft by lia. done.
      - exists [], s1, p1. split; [done|]. split; [done|lia]. }
    rewrite E2 in E. injection E as <- <- <-.
    destruct (scan_hex 77 s2 p2 c Hc) as (d & Ed & Hd); [lia|]. exists d.
    rewrite scan_lines_app, Ho1. cbn [mbind option_bind].
    rewrite scan_lines_app, Ho2. cbn [mbind option_bind]. rewrite Ed.
    split; [done|]. left. split; [done|]. split; [done|lia].
Qed.

Lemma scan_step inp last sofar prev out last' sofar' :
  Forall byte_ok inp -> 13 ∉ inp -> line_ok sofar last prev ->
  camel_quoted_encode_step inp last sofar = (out, last', sofar') ->
  exists prev', scan_lines 77 sofar prev out = Some (sofar', prev') /\ line_ok sofar' last' prev'.
Proof.
  intros Hb. revert last sofar prev out. induction Hb as [|c inp Hc _ IH]; intros last sofar prev out H13 Hl E.
  { injection E as <- <- <-. by exists prev. }
  apply not_elem_of_cons in H13 as [Hc13 H13]. cbn [camel_quoted_encode_step] in E.
  destruct (qp_encode_char c sofar last) as [[out1 sofar1] last1] eqn:E1.
  destruct (camel_quoted_encode_step inp last1 sofar1) as [[out2 last2] sofar2] eqn:E2.
  injection E as <- <- <-.
  destruct (scan_encode_char _ _ _ _ _ _ _ Hc (not_eq_sym Hc13) Hl E1) as (p1 & S1 & L1).
  destruct (IH _ _ _ _ H13 L1 E2) as (p2 & S2 & L2).
  exists p2. by rewrite scan_lines_app, S1.
Qed.

Lemma scan_stream chunks final last sofar prev :
  Forall (Forall byte_ok) chunks -> Forall byte_ok final -> 13 ∉ concat chunks ++ final ->
  line_ok sofar last prev ->
  exists col prev', scan_lines 77 sofar prev (qp_encode_stream chunks final last sofar)
    = Some (col, prev') /\ is_blank prev' = false.
Proof.
  intros Hc Hf. revert last sofar prev. induction Hc as [|c chunks Hc _ IH]; intros last sofar prev H13 Hl.
  - cbn [qp_encode_stream]. unfold camel_quoted_encode_close.
    assert (match final with [] => ([], last, sofar) | _ => camel_quoted_encode_step final last sofar end
      = camel_quoted_encode_step final last sofar) as -> by by destruct final.
    destruct (camel_quoted_encode_step final last sofar) as [[out last1] sofar1] eqn:E.
    destruct (scan_step _ _ _ _ _ _ _ Hf H13 Hl E) as (p1 & S1 & L1). cbn [fst].
    rewrite scan_lines_app, S1. cbn [mbind option_bind].
    destruct L1 as [(-> & Hp & Hs)|[Hb Hs]]; [by exists sofar1, p1|].
    destruct (scan_hex 77 sofar1 p1 last1) as (d & Ed & Hd); [unfold byte_ok; lia|lia|].
    exists (sofar1 + 3), d. split; [|done]. by destruct Hb as [->| ->].
  - cbn [qp_encode_stream concat] in *. rewrite <- app_assoc in H13.
    apply not_elem_of_app in H13 as [H13c H13].
    destruct (camel_quoted_encode_step c last sofar) as [[out last1] sofar1] eqn:E.
    destruct (scan_step _ _ _ _ _ _ _ Hc H13c Hl E) as (p1 & S1 & L1).
    destruct (IH _ _ _ H13 L1) as (col & p2 & S2 & Hp). exists col, p2. by rewrite scan_lines_app, S1.
Qed.

(** If the input has no carriage return, the output is lines of at most 77
    characters (one more than RFC 2045 allows), all of them printable ASCII or tabs,
    and no line ends with a space or a tab. *)
Theorem quoted_printable_lines (chunks : list (list Z)) (final : list Z)
    (Hc : Forall (Forall byte_ok) chunks) (Hf : Forall byte_ok final)
    (H13 : 13 ∉ concat chunks ++ final) :
  exists col prev, scan_lines 77 0 10 (qp_encode_stream chunks final (-1) 0) = Some (col, prev) /\
    is_blank prev = false.
Proof. apply scan_stream; try done. by left. Qed.

Lemma quoted_printable_lines_witness :
  exists col prev, scan_lines 77 0 10 (qp_encode_stream [replicate 74 97; [32]] [10] (-1) 0)
    = Some (col, prev).
Proof.
  destruct (quoted_printable_lines [replicate 74 97; [32]] [10]) as (col & prev & E & _).
  - concrete.
  - concrete.
  - apply (bool_decide_unpack _). reflexivity.
  - exists col, prev. exact E.
Defined.

(** The bound is reached: 74 letters and a space make a line of 77 characters; and
    repeated carriage returns are written without any line break. *)
Example quoted_printable_line_77 :
  scan_lines 76 0 10 (qp_encode_stream [] (replicate 74 97 ++ [32; 10]) (-1) 0) = None /\
  length (qp_encode_stream [] (replicate 1000 13) (-1) 0) = 3000%nat /\
  10 ∉ qp_encode_stream [] (replicate 1000 13) (-1) 0.
Proof. split; [reflexivity|]. split; [reflexivity|]. apply (bool_decide_unpack _). vm_compute. exact I. Qed.

(** ** Sizes *)

(** What a state can add to the output: the character held back, and a line break. *)
Definition qp_owed (sofar last : Z) : Z :=
  (if last =? -1 then 0 else 3) + (if 66 <? sofar then 2 else if 60 <? sofar then 1 else 0).

(** A character adds at most four to what is written and owed, and at most three if as
    much as possible was owed. *)
Lemma qp_encode_char_owed c sofar last out sofar' last' :
  qp_encode_char c sofar last = (out, sofar', last') ->
  Z.of_nat (length out) + qp_owed sofar' last' <= Z.min (qp_owed sofar last) 4 + 4.
Proof.
  unfold qp_encode_char, qp_owed, qp_hex. intros E.
  destruct (Z.eqb_spec last (-1)), (Z.eqb_spec c 13), (Z.eqb_spec c 10); cbn [negb andb] in E;
    try (injection E as <- <- <-; cbn [length app]; repeat case_match; cbn [length app]; lia).
  all: repeat (case_match; simplify_eq; cbn [length app] in *; rewrite ?length_app in *);
    cbn [length app] in *; lia.
Qed.

Lemma qp_step_owed inp last sofar out last' sofar' :
  camel_quoted_encode_step inp last sofar = (out, last', sofar') ->
  Z.of_nat (length out) + qp_owed sofar' last' <= qp_owed sofar last + 4 * Z.of_nat (length inp) /\
  (inp <> [] -> Z.of_nat (length out) + qp_owed sofar' last' <= 4 * Z.of_nat (length inp) + 4).
Proof.
  revert last sofar out. induction inp as [|c inp IH]; intros last sofar out E.
  { injection E as <- <- <-. cbn. split; [lia|done]. }
  cbn [camel_quoted_encode_step] in E.
  destruct (qp_encode_char c sofar last) as [[out1 sofar1] last1] eqn:E1.
  destruct (camel_quoted_encode_step inp last1 sofar1) as [[out2 last2] sofar2] eqn:E2.
  injection E as <- <- <-. apply qp_encode_char_owed in E1. apply IH in E2 as [E2 _].
  rewrite length_app. cbn [length]. split; [|intros _]; lia.
Qed.

(** The output of one call fits the buffer that [camel-mime-filter-basic.c] allocates
    for it: four times the input and four bytes for the encoder, whatever its state,
    and the input and two bytes for the decoder. *)
Theorem quoted_printable_fits (inp : list Z) (last sofar : Z) :
  Z.of_nat (length (fst (fst (camel_quoted_encode_step inp last sofar))))
    <= Z.of_nat (length inp) * 4 + 4 /\
  Z.of_nat (length (fst (fst (camel_quoted_encode_close inp last sofar))))
    <= Z.of_nat (length inp) * 4 + 4 /\
  forall state save, state = 0 \/ state = 1 \/ state = 2 ->
    Z.of_nat (length (fst (fst (camel_quoted_decode_step inp state save))))
    <= Z.of_nat (length inp) + 2.
Proof.
  split; [|split].
  - destruct (decide (inp = [])) as [->|Hn]; [cbn; lia|].
    destruct (camel_quoted_encode_step inp last sofar) as [[out last1] sofar1] eqn:E.
    apply qp_step_owed in E as [_ E2]. specialize (E2 Hn). cbn [fst].
    unfold qp_owed in E2. repeat case_match; lia.
  - unfold camel_quoted_encode_close.
    assert (match inp with [] => ([], last, sofar) | _ => camel_quoted_encode_step inp last sofar end
      = camel_quoted_encode_step inp last sofar) as -> by by destruct inp.
    destruct (camel_quoted_encode_step inp last sofar) as [[out last1] sofar1] eqn:E.
    assert (length inp = 0%nat -> out = []) as Hnil.
    { intros H0. destruct inp; [|done]. by injection E. }
    apply qp_step_owed in E as [_ E2]. cbn [fst]. rewrite length_app.
    assert (Z.of_nat (length (if negb (last1 =? -1)
      then if camel_mime_is_qpsafe last1 && negb (last1 =? 32) && negb (last1 =? 9)
           then [u8 last1] else qp_hex last1 else [])) <= (if last1 =? -1 then 0 else 3)) as Hlast.
    { destruct (last1 =? -1); cbn [negb]; [done|]. case_match; cbn; lia. }
    unfold qp_owed in E2. destruct inp as [|c inp].
    + rewrite Hnil by done. cbn [length]. destruct (last1 =? -1); lia.
    + specialize (E2 ltac:(done)). destruct (66 <? sofar1), (60 <? sofar1); lia.
  - intros state save Hst.
    assert (Z.of_nat (length (camel_quoted_decode_step inp state save).1.1)
      <= Z.of_nat (length inp) + state) as H; [|lia].
    revert state save Hst. induction inp as [|c inp IH]; intros state save Hst; [cbn; lia|].
    pose proof (fun v => IH 0 v (or_introl eq_refl)) as IH0.
    pose proof (fun v => IH 1 v (or_intror (or_introl eq_refl))) as IH1.
    pose proof (fun v => IH 2 v (or_intror (or_intror eq_refl))) as IH2.
    cbn [camel_quoted_decode_step length]. destruct Hst as [->|[->| ->]].
    + change (0 =? 0) with true. cbv iota. destruct (c =? 61); [specialize (IH1 save); lia|].
      specialize (IH0 save). destruct (camel_quoted_decode_step inp 0 save) as [[? ?] ?]. cbn in *. lia.
    + change (1 =? 0) with false. change (1 =? 1) with true. cbv iota.
      destruct (c =? 10); [specialize (IH0 save)|specialize (IH2 c)]; lia.
    + change (2 =? 0) with false. change (2 =? 1) with false. cbv iota zeta.
      destruct (isxdigit c && isxdigit save);
        [specialize (IH0 (toupper save)); destruct (camel_quoted_decode_step inp 0 (toupper save)) as [[? ?] ?]; cbn in *; lia|].
      specialize (IH0 save). destruct ((c =? 10) && (save =? 13)); [lia|].
      destruct (camel_quoted_decode_step inp 0 save) as [[? ?] ?]. cbn in *. lia.
Qed.

Lemma quoted_printable_fits_witness :
  length (fst (fst (camel_quoted_encode_close [200] 13 75))) = 8%nat /\
  Z.of_nat (length (fst (fst (camel_quoted_decode_step [90] 2 90)))) <= 3.
Proof.
  split; [reflexivity|]. apply (quoted_printable_fits [90] (-1) 0). right. by right.
Defined.

(** ** Encoded words *)

Lemma quoted_decode_hex len c inp :
  byte_ok c -> 2 <= len ->
  quoted_decode_loop len (qp_hex c ++ inp) =
  out ← quoted_decode_loop len inp; Ok (option_map (cons c) out).
Proof.
  intros Hc Hlen. rewrite qp_hex_digits by done. cbn [app quoted_decode_loop].
  change (61 =? 61) with true. rewrite (proj2 (Z.leb_le 2 len)) by done. cbv iota zeta.
  by rewrite hex_byte.
Qed.

Lemma quoted_encode_length safe inp :
  (length inp <= length (quoted_encode safe inp))%nat.
Proof.
  induction inp as [|c inp IH]; [done|]. cbn [quoted_encode length]. rewrite length_app.
  repeat case_match; cbn; lia.
Qed.

Lemma quoted_roundtrip_loop safe inp len :
  safe 61 = false -> safe 95 = false -> Forall byte_ok inp ->
  (2 <= len \/ len = Z.of_nat (length (quoted_encode safe inp))) ->
  quoted_decode_loop len (quoted_encode safe inp) = Ok (Some inp).
Proof.
  intros H61 H95 Hb. revert len. induction Hb as [|c inp Hc Hb IH]; intros len Hlen; [done|].
  cbn [quoted_encode] in *.
  assert (quoted_encode safe inp = [] -> inp = []) as Hnil.
  { intros E. pose proof (quoted_encode_length safe inp) as Hl. rewrite E in Hl. by destruct inp; cbn in *; [|lia]. }
  assert (forall x, quoted_decode_loop len (quoted_encode safe inp) = Ok (Some inp) \/
    length (x ++ quoted_encode safe inp) = 1%nat -> x <> [] ->
    quoted_decode_loop len (quoted_encode safe inp) = Ok (Some inp)) as Hrest.
  { intros x [E|E] Hx; [done|]. rewrite length_app in E.
    destruct x; [done|]. cbn [length] in E.
    destruct (quoted_encode safe inp) eqn:Eq; [by rewrite Hnil|cbn in E; lia]. }
  assert (forall x, x <> [] -> (2 <= len \/ len = Z.of_nat (length (x ++ quoted_encode safe inp))) ->
    quoted_decode_loop len (quoted_encode safe inp) = Ok (Some inp)) as Hgo.
  { intros x Hx Hl. apply (Hrest x); [|done]. destruct (Z.le_gt_cases 2 len); [left; apply IH; by left|].
    right. destruct Hl as [?|Hl]; [lia|]. rewrite length_app in *. destruct x; [done|]. cbn [length] in *. lia. }
  destruct (Z.eqb_spec c 32) as [->|H32].
  { cbn [app quoted_decode_loop]. change (95 =? 61) with false. change (95 =? 95) with true. cbv iota.
    by rewrite (Hgo [95]). }
  destruct (safe c) eqn:Esafe.
  - cbn [app quoted_decode_loop].
    rewrite (proj2 (Z.eqb_neq c 61)), (proj2 (Z.eqb_neq c 95)) by congruence.
    by rewrite (Hgo [c]).
  - assert (2 <= len) as H2.
    { destruct Hlen as [?|Hl]; [done|]. rewrite length_app in Hl. cbn [qp_hex length] in Hl. lia. }
    rewrite quoted_decode_hex by done. by rewrite IH by (by left).
Qed.

(** An encoded word decodes to the bytes it was encoded from, both for text and for
    phrases: neither leaves an equals sign or an underscore unencoded. *)
Theorem encoded_word_roundtrip (safe : Z -> bool) (inp : list Z) (Hb : Forall byte_ok inp)
    (Hsafe : safe = camel_mime_is_esafe \/ safe = camel_mime_is_psafe) :
  quoted_decode (quoted_encode safe inp) = Ok inp.
Proof.
  unfold quoted_decode. rewrite quoted_roundtrip_loop; try done; [by destruct Hsafe as [->| ->]..|].
  by right.
Qed.

Lemma encoded_word_roundtrip_witness :
  quoted_encode camel_mime_is_esafe [95; 32; 233] = [61; 53; 70; 95; 61; 69; 57] /\
  quoted_decode [61; 53; 70; 95; 61; 69; 57] = Ok [95; 32; 233].
Proof.
  split; [reflexivity|]. apply (encoded_word_roundtrip camel_mime_is_esafe [95; 32; 233]).
  - concrete.
  - by left.
Defined.

(** Every equals sign is followed by two bytes. *)
Fixpoint escapes_complete (inp : list Z) : bool :=
  match inp with
  | [] => true
  | c :: inp => if c =? 61 then match inp with _ :: _ :: inp => escapes_complete inp | _ => false end
                else escapes_complete inp
  end.

(** [quoted_decode] reads past the end of its input exactly when the input has at
    least two bytes and an equals sign without two bytes after it: the check
    compares the length of the whole input, not what is left of it. *)
Theorem quoted_decode_overread (inp : list Z) :
  quoted_decode inp = Undef <-> (2 <= length inp)%nat /\ escapes_complete inp = false.
Proof.
  unfold quoted_decode. set (len := Z.of_nat (length inp)).
  assert (forall n l, (length l < n)%nat -> 2 <= len ->
    (if escapes_complete l then is_Ok (quoted_decode_loop len l) else quoted_decode_loop len l = Undef))
    as Hlong.
  { intros n. induction n as [|n IH]; intros l Hl H2; [lia|]. destruct l as [|c l]; [by eexists|].
    cbn [escapes_complete quoted_decode_loop length] in *. destruct (c =? 61).
    - rewrite (proj2 (Z.leb_le 2 len)) by done. destruct l as [|a [|b l]]; try done.
      cbn [length] in Hl. specialize (IH l ltac:(lia) H2).
      destruct (escapes_complete l); [destruct IH as [o ->]; by eexists|by rewrite IH].
    - specialize (IH l ltac:(lia) H2).
      destruct (escapes_complete l); [destruct IH as [o ->]; by eexists|by rewrite IH]. }
  destruct (Z.le_gt_cases 2 len) as [H2|H2].
  - specialize (Hlong (S (length inp)) inp ltac:(lia) H2).
    destruct (escapes_complete inp).
    + destruct Hlong as [o ->]. split; [done|]. by intros [_ ?].
    + rewrite Hlong. split; [|done]. intros _. split; [lia|done].
  - split; [|lia]. destruct inp as [|c [|? ?]]; [done| |cbn in *; lia].
    cbn [quoted_decode_loop]. destruct (c =? 61); [|done].
    rewrite (proj2 (Z.leb_gt 2 len)) by done. done.
Qed.
