(* ===== verification/Utf8.v ===== *)
(** * UTF-8, UCS-2 and the modified UTF-7 of IMAP ([camel-utf8.c])

    [src/camel/camel-utf8.c]: the UTF-8 writer and the two readers, the conversion of
    mailbox names from and to the modified UTF-7 of RFC 2060, and the conversion
    from and to UCS-2.  A pointer into a string is the list of bytes from there to the
    end of the memory; reading past it is [Undef].  A [GString] is the list of its
    bytes. *)

From S2P Require Import Prelude.

(** ** UTF-8 *)

(** The bytes written; [@ptr] is advanced by their number. *)
Definition camel_utf8_putc (c : Z) : list Z :=
  if c <=? 0x7f then [u8 c]
  else if c <=? 0x7ff then
    [u8 (Z.lor 0xc0 (Z.shiftr c 6));
     u8 (Z.lor 0x80 (Z.land c 0x3f))]
  else if c <=? 0xffff then
    [u8 (Z.lor 0xe0 (Z.shiftr c 12));
     u8 (Z.lor 0x80 (Z.land (Z.shiftr c 6) 0x3f));
     u8 (Z.lor 0x80 (Z.land c 0x3f))]
  else
    [u8 (Z.lor 0xf0 (Z.shiftr c 18));
     u8 (Z.lor 0x80 (Z.land (Z.shiftr c 12) 0x3f));
     u8 (Z.lor 0x80 (Z.land (Z.shiftr c 6) 0x3f));
     u8 (Z.lor 0x80 (Z.land c 0x3f))].

(** The local variables [v], [m] and [r] inside the [do] loop of a multi-byte character;
    [None] at [again]. *)
Definition utf8_seq : Type := option (Z * Z * Z).

(** The code at [loop], with the first byte [r] read: [inl] is a character, [inr] the
    state in which the next byte is read. *)
Definition utf8_loop (r : Z) : Z + utf8_seq :=
  if r <? 0x80 then inl r
  else if r <? 0xf8 then inr (Some (r, 0x7f80, r))
  else inr None.

(** The next byte [c]: of the [do] loop, or the first one at [again]. *)
Definition utf8_step (st : utf8_seq) (c : Z) : Z + utf8_seq :=
  match st with
  | None => utf8_loop c
  | Some (v, m, r) =>
      if negb (Z.land c 0xc0 =? 0x80) then utf8_loop c
      else
        let v := u32 (Z.lor (Z.shiftl v 6) (Z.land c 0x3f)) in
        let r := u8 (Z.shiftl r 1) in
        let m := u32 (Z.shiftl m 5) in
        if negb (Z.land r 0x40 =? 0) then inr (Some (v, m, r))
        else inl (Z.land v (Z.lnot m))
  end.

Fixpoint utf8_getc_loop (st : utf8_seq) (p : list Z) : res (Z * list Z) :=
  match p with
  | [] => Undef
  | c :: p =>
      match utf8_step st c with
      | inl v => Ok (v, p)
      | inr st => utf8_getc_loop st p
      end
  end.

(** The character and the pointer after it. *)
Definition camel_utf8_getc (p : list Z) : res (Z * list Z) := utf8_getc_loop None p.

(** The bytes from [*ptr] to [end]. *)
Fixpoint utf8_getc_limit_loop (ptr : list Z) (st : utf8_seq) (p : list Z) : Z * list Z :=
  match p with
  | [] => (0xffff, ptr)
  | c :: p =>
      match utf8_step st c with
      | inl v => (v, p)
      | inr st => utf8_getc_limit_loop ptr st p
      end
  end.

Definition camel_utf8_getc_limit (ptr : list Z) : Z * list Z :=
  utf8_getc_limit_loop ptr None ptr.

Definition g_string_append_u (out : list Z) (c : Z) : list Z :=
  out ++ c_string (camel_utf8_putc c ++ [0]).

(** ** Modified UTF-7 *)

(** [A-Z a-z 0-9 + ,] *)
Definition utf7_alphabet : list Z := Eval vm_compute in
  seqZ 65 26 ++ seqZ 97 26 ++ seqZ 48 10 ++ [43; 44].

Definition utf7_rank : list Z := Eval vm_compute in
  replicate (2 * 16 + 11) 0xff ++ [0x3e; 0x3f; 0xff; 0xff; 0xff] ++
  seqZ 0x34 10 ++ replicate 6 0xff ++
  [0xff] ++ seqZ 0x00 26 ++ replicate 5 0xff ++
  [0xff] ++ seqZ 0x1a 26 ++ replicate 5 0xff ++
  replicate (8 * 16) 0xff.

(** The local variables of [camel_utf7_utf8]: [state], [v], [i] and [out]. *)
Record utf7_dec := mkDec { dec_state : Z; dec_v : Z; dec_i : Z; dec_out : list Z }.

(** The body of its loop. *)
Definition utf7_dec_step (c : Z) (s : utf7_dec) : res utf7_dec :=
  let '(mkDec state v i out) := s in
  if state =? 0 then
    if c =? 38 then Ok (mkDec 1 v i out) else Ok (mkDec 0 v i (g_string_append_u out c))
  else if state =? 1 then
    if c =? 45 then Ok (mkDec 0 v i (out ++ [38]))
    else
      rank ← arr_get utf7_rank c;
      if negb (rank =? 0xff) then Ok (mkDec 2 rank 6 out)
      else Ok (mkDec 0 v i (out ++ [38; 45]))
  else
    if c =? 45 then Ok (mkDec 0 v i out)
    else
      rank ← arr_get utf7_rank c;
      if negb (rank =? 0xff) then
        let v := u32 (Z.lor (Z.shiftl v 6) rank) in
        let i := i + 6 in
        if 16 <=? i then
          let x := Z.land (Z.shiftr v (i - 16)) 0xffff in
          Ok (mkDec 2 v (i - 16) (g_string_append_u out x))
        else Ok (mkDec 2 v i out)
      else Ok (mkDec 0 v i (g_string_append_u out c)).

(** [do ... while (c)] *)
Fixpoint utf7_dec_loop (p : list Z) (s : utf7_dec) : res utf7_dec :=
  match p with
  | [] => Undef
  | c :: p => s ← utf7_dec_step c s; if c =? 0 then Ok s else utf7_dec_loop p s
  end.

Definition camel_utf7_utf8 (ptr : list Z) : res (list Z) :=
  s ← utf7_dec_loop ptr (mkDec 0 0 0 []);
  Ok (c_string (dec_out s)).

Definition utf7_closeb64 (out : list Z) (v i : Z) : res (list Z) :=
  out ← (if 0 <? i then
           let x := Z.land (u32 (Z.shiftl v (6 - i))) 0x3f in
           c ← arr_get utf7_alphabet x; Ok (out ++ [c])
         else Ok out);
  Ok (out ++ [45]).

(** [while (i >= 6)]: [out] and [i]. *)
Fixpoint utf7_sextets (fuel : nat) (out : list Z) (v i : Z) : res (list Z * Z) :=
  match fuel with
  | O => NoFuel
  | S fuel =>
      if 6 <=? i then
        let x := Z.land (Z.shiftr v (i - 6)) 0x3f in
        c ← arr_get utf7_alphabet x;
        utf7_sextets fuel (out ++ [c]) v (i - 6)
      else Ok (out, i)
  end.

(** The local variables of [camel_utf8_utf7]: [state], [v], [i] and [out]. *)
Record utf7_enc := mkEnc { enc_state : Z; enc_v : Z; enc_i : Z; enc_out : list Z }.

(** The body of its loop, for the character [c]. *)
Definition utf7_enc_step (c : Z) (s : utf7_enc) : res utf7_enc :=
  let '(mkEnc state v i out) := s in
  if (0x20 <=? c) && (c <=? 0x7e) then
    '(state, i, out) ← (if state =? 1 then
                          out ← utf7_closeb64 out v i; Ok (0, 0, out)
                        else Ok (state, i, out));
    Ok (mkEnc state v i (out ++ (if c =? 38 then [38; 45] else [c])))
  else
    let '(state, out) := if state =? 0 then (1, out ++ [38]) else (state, out) in
    let v := u32 (Z.lor (Z.shiftl v 16) c) in
    let i := i + 16 in
    '(out, i) ← utf7_sextets (S (Z.to_nat i)) out v i;
    Ok (mkEnc state v i out).

(** [while ((c = camel_utf8_getc (&p)))]: what a function does with each character of a
    string. *)
Fixpoint utf8_foreach {S} (body : Z -> S -> res S) (fuel : nat) (p : list Z) (s : S) : res S :=
  match fuel with
  | O => NoFuel
  | Datatypes.S fuel =>
      '(c, p) ← camel_utf8_getc p;
      if c =? 0 then Ok s else s ← body c s; utf8_foreach body fuel p s
  end.

Definition camel_utf8_utf7 (ptr : list Z) : res (list Z) :=
  s ← utf8_foreach utf7_enc_step (S (length ptr)) ptr (mkEnc 0 0 0 []);
  out ← (if enc_state s =? 1 then utf7_closeb64 (enc_out s) (enc_v s) (enc_i s)
         else Ok (enc_out s));
  Ok (c_string out).

(** ** UCS-2 *)

(** [g_htons] and the two bytes of the number in memory: network byte order. *)
Definition ucs2_bytes (c : Z) : list Z := [u8 (Z.shiftr (u16 c) 8); u8 (u16 c)].

Definition camel_utf8_ucs2 (pptr : list Z) : res (list Z) :=
  work ← utf8_foreach (fun c work => Ok (work ++ ucs2_bytes c)) (S (length pptr)) pptr [];
  Ok (work ++ [0; 0]).

(** The loop: a number in memory is 0 in every byte order if both bytes are, and
    [g_ntohs] of it has the first byte as its high byte. *)
Fixpoint ucs2_utf8_loop (ucs : list Z) (work : list Z) : res (list Z) :=
  match ucs with
  | b0 :: b1 :: ucs =>
      if (b0 =? 0) && (b1 =? 0) then Ok work
      else ucs2_utf8_loop ucs (g_string_append_u work (Z.lor (Z.shiftl b0 8) b1))
  | _ => Undef
  end.

Definition camel_ucs2_utf8 (ptr : list Z) : res (list Z) :=
  work ← ucs2_utf8_loop ptr [];
  Ok (c_string work).
