(* ===== verification/Utf8Spec.v ===== *)
(** * UTF-8 and UTF-7: theorems

    The reader of [Utf8] accepts exactly the sequences of the relation [Utf8Read] (lead
    byte and continuation bytes, skipping what is malformed), stays inside a
    NUL-terminated string, and reads back what the writer wrote; the limited
    reader is the same function or its sentinel; modified UTF-7 and UCS-2
    round trips for all strings of the basic multilingual plane. *)

From S2P Require Import Prelude Utf8.

(** ** Bit masks *)

(** Clearing the bits from [k] on of a number that has at most [k + j] bits. *)
Lemma clear_high v k j :
  0 <= k -> 0 <= j -> 0 <= v < 2 ^ (k + j) ->
  Z.land v (Z.lnot (Z.shiftl (Z.ones j) k)) = v mod 2 ^ k.
Proof.
  intros Hk Hj Hv. rewrite <- Z.land_ones by done. apply Z.bits_inj'. intros n Hn.
  rewrite !Z.land_spec, Z.lnot_spec by done.
  destruct (Z.lt_ge_cases n k) as [Hlt|Hge].
  - rewrite Z.shiftl_spec_low, Z.ones_spec_low by lia. by rewrite !andb_true_r.
  - rewrite Z.ones_spec_high by lia. rewrite andb_false_r.
    destruct (Z.lt_ge_cases n (k + j)) as [Hlt|Hge2].
    + rewrite Z.shiftl_spec, Z.ones_spec_low by lia. by rewrite andb_false_r.
    + destruct (Z.eq_dec v 0) as [->|]; [by rewrite Z.bits_0|].
      rewrite Z.bits_above_log2; [done|lia|].
      assert (Z.log2 v < k + j) by (apply Z.log2_lt_pow2; lia). lia.
Qed.

(** [z mod m], for computing over all bytes. *)
Lemma forall_byte (P : Z -> bool) :
  forallb P (seqZ 0 256) = true -> forall b, byte_ok b -> P b = true.
Proof.
  intros H b Hb. rewrite forallb_forall in H. apply H, list_elem_of_In, elem_of_seqZ.
  unfold byte_ok in Hb. lia.
Qed.

(** ** The reader *)

Definition is_cont (c : Z) : Prop := Z.land c 0xc0 = 0x80.
#[export] Instance is_cont_dec c : Decision (is_cont c).
Proof. unfold is_cont. apply _. Defined.

Definition is_lead (l : Z) : Prop := 0x80 <= l < 0xf8.

(** The number of bytes read after the first byte [l]: one, and one for each further bit
    set from the sixth on.  (Bytes from 0x80 to 0xbf are never the first byte of
    well-formed UTF-8; the code reads on as for any other.) *)
Definition utf8_conts (l : Z) : nat :=
  if l <? 0xa0 then 1
  else if l <? 0xb0 then 2
  else if l <? 0xb8 then 3
  else if l <? 0xbc then 4
  else if l <? 0xbe then 5
  else if l <? 0xbf then 6
  else if l <? 0xc0 then 7
  else if l <? 0xe0 then 1
  else if l <? 0xf0 then 2
  else 3.

(** The bits of the bytes side by side. *)
Definition utf8_bits (l : Z) (cs : list Z) : Z :=
  foldl (fun v c => v * 64 + c mod 64) l cs.

(** The value without the length bits of the first byte. *)
Definition utf8_value (l : Z) (cs : list Z) : Z :=
  utf8_bits l cs mod 2 ^ Z.min 32 (7 + 5 * Z.of_nat (length cs)).

(** [Utf8Read p v q]: from [p], the next character is [v] and ends at [q]. *)
Inductive Utf8Read : list Z -> Z -> list Z -> Prop :=
  | read_ascii c p :
      0 <= c < 0x80 -> Utf8Read (c :: p) c p
  | read_seq l cs p :
      is_lead l -> length cs = utf8_conts l -> Forall is_cont cs ->
      Utf8Read (l :: cs ++ p) (utf8_value l cs) p
  | read_skip c p v q :
      0xf8 <= c -> Utf8Read p v q -> Utf8Read (c :: p) v q
  | read_short l cs b p v q :
      is_lead l -> (length cs < utf8_conts l)%nat -> Forall is_cont cs -> ~ is_cont b ->
      Utf8Read (b :: p) v q -> Utf8Read (l :: cs ++ b :: p) v q.

(** The state after the first byte [l] and the continuation bytes [cs]. *)
Definition seq_state (l : Z) (cs : list Z) : utf8_seq :=
  Some (u32 (utf8_bits l cs), u32 (Z.shiftl 0x7f80 (5 * Z.of_nat (length cs))),
        u8 (Z.shiftl l (Z.of_nat (length cs)))).

Lemma utf8_bits_snoc l cs c : utf8_bits l (cs ++ [c]) = utf8_bits l cs * 64 + c mod 64.
Proof. unfold utf8_bits. by rewrite foldl_app. Qed.

Lemma utf8_bits_bound l cs :
  is_lead l -> 0 <= utf8_bits l cs < 2 ^ (8 + 6 * Z.of_nat (length cs)).
Proof.
  intros Hl. induction cs as [|c cs IH] using rev_ind.
  - unfold is_lead in Hl. change (0 <= l < 256). lia.
  - rewrite utf8_bits_snoc, length_app.
    replace (8 + 6 * Z.of_nat (length cs + length [c])) with (8 + 6 * Z.of_nat (length cs) + 6) by (simpl; lia).
    rewrite Z.pow_add_r by lia. change (2 ^ 6) with 64.
    pose proof (Z.mod_pos_bound c 64). lia.
Qed.

Lemma lead_state l : is_lead l -> seq_state l [] = Some (l, 0x7f80, l).
Proof.
  unfold is_lead. intros. change (Some (u32 l, u32 0x7f80, u8 (Z.shiftl l 0)) = Some (l, 0x7f80, l)).
  rewrite Z.shiftl_0_r, (u32_small l), (u8_small l) by lia. done.
Qed.

Lemma utf8_loop_lead l : is_lead l -> utf8_loop l = inr (seq_state l []).
Proof.
  intros Hl. rewrite lead_state by done. unfold is_lead in Hl. unfold utf8_loop.
  destruct (Z.ltb_spec l 0x80); [lia|]. destruct (Z.ltb_spec l 0xf8); [done|lia].
Qed.

(** The three updates of a round. *)
Lemma seq_v l cs c :
  u32 (Z.lor (Z.shiftl (u32 (utf8_bits l cs)) 6) (Z.land c 0x3f)) =
  u32 (utf8_bits l (cs ++ [c])).
Proof.
  rewrite land_3f, utf8_bits_snoc. pose proof (Z.mod_pos_bound c 64).
  rewrite (lor_add _ _ 6) by (simpl; lia). unfold u32.
  rewrite <- Zplus_mod_idemp_l. rewrite Zmult_mod_idemp_l. by rewrite Zplus_mod_idemp_l.
Qed.

Lemma shiftl_wrap x a b k :
  0 <= a -> 0 <= b -> 0 <= k ->
  Z.shiftl (Z.shiftl x a mod 2 ^ k) b mod 2 ^ k = Z.shiftl x (a + b) mod 2 ^ k.
Proof.
  intros. rewrite <- Z.shiftl_shiftl by lia. rewrite !Z.shiftl_mul_pow2 by done.
  by rewrite Zmult_mod_idemp_l.
Qed.

Lemma seq_m n :
  u32 (Z.shiftl (u32 (Z.shiftl 0x7f80 (5 * Z.of_nat n))) 5) =
  u32 (Z.shiftl 0x7f80 (5 * Z.of_nat (S n))).
Proof. unfold u32. rewrite shiftl_wrap by lia. do 2 f_equal. lia. Qed.

Lemma seq_r l n :
  u8 (Z.shiftl (u8 (Z.shiftl l (Z.of_nat n))) 1) = u8 (Z.shiftl l (Z.of_nat (S n))).
Proof. unfold u8. rewrite shiftl_wrap by lia. do 2 f_equal. lia. Qed.

(** [while (r & 0x40)] *)
Lemma seq_more l n :
  is_lead l -> (n < utf8_conts l)%nat ->
  negb (Z.land (u8 (Z.shiftl l (Z.of_nat (S n)))) 0x40 =? 0) =
  negb (S n =? utf8_conts l)%nat.
Proof.
  intros Hl Hn.
  assert (forallb (fun b => (b <? 0x80) || (0xf8 <=? b) ||
    forallb (fun n => implb (Nat.ltb n (utf8_conts b))
      (Bool.eqb (negb (Z.land (u8 (Z.shiftl b (Z.of_nat (S n)))) 0x40 =? 0))
                (negb (S n =? utf8_conts b)%nat))) (seq 0 7)) (seqZ 0 256) = true) as H
    by (vm_compute; reflexivity).
  assert (byte_ok l) as Hb by (unfold byte_ok, is_lead in *; lia).
  pose proof (forall_byte _ H l Hb) as E. cbv beta in E.
  unfold is_lead in Hl. destruct (Z.ltb_spec l 0x80); [lia|].
  destruct (Z.leb_spec 0xf8 l); [lia|]. cbn [orb] in E.
  rewrite forallb_forall in E. specialize (E n).
  assert (utf8_conts l <= 7)%nat by (unfold utf8_conts; repeat case_match; lia).
  rewrite in_seq in E. specialize (E ltac:(lia)).
  destruct (Nat.ltb_spec n (utf8_conts l)); [|lia]. simpl in E. by apply Bool.eqb_prop in E.
Qed.

(** [v &= ~m] *)
Lemma seq_value l cs :
  is_lead l -> (1 <= length cs <= 7)%nat ->
  Z.land (u32 (utf8_bits l cs))
    (Z.lnot (u32 (Z.shiftl 0x7f80 (5 * Z.of_nat (length cs))))) = utf8_value l cs.
Proof.
  intros Hl Hn. pose proof (utf8_bits_bound l cs Hl) as Hv. unfold utf8_value.
  set (n := length cs) in *. set (v := utf8_bits l cs) in *.
  assert (n = 1 \/ n = 2 \/ n = 3 \/ n = 4 \/ n = 5 \/ n = 6 \/ n = 7)%nat
    as [E|[E|[E|[E|[E|[E|E]]]]]] by lia; rewrite E in *; clear E;
    [change (u32 (Z.shiftl 0x7f80 _)) with (Z.shiftl (Z.ones 8) 12)
    |change (u32 (Z.shiftl 0x7f80 _)) with (Z.shiftl (Z.ones 8) 17)
    |change (u32 (Z.shiftl 0x7f80 _)) with (Z.shiftl (Z.ones 8) 22)
    |change (u32 (Z.shiftl 0x7f80 _)) with (Z.shiftl (Z.ones 5) 27)
    |change (u32 (Z.shiftl 0x7f80 _)) with (Z.shiftl (Z.ones 0) 32)..];
    rewrite clear_high by (try lia; unfold u32; div_lia);
    unfold u32; simpl in Hv |- *; try (rewrite (Z.mod_small v) by lia; done);
    by rewrite Z.mod_mod.
Qed.

Lemma utf8_conts_range l : (1 <= utf8_conts l <= 7)%nat.
Proof. unfold utf8_conts. repeat case_match; lia. Qed.

(** One byte inside a sequence. *)
Lemma utf8_step_seq l cs c :
  is_lead l -> (length cs < utf8_conts l)%nat ->
  utf8_step (seq_state l cs) c =
    if decide (is_cont c) then
      if (S (length cs) =? utf8_conts l)%nat then inl (utf8_value l (cs ++ [c]))
      else inr (seq_state l (cs ++ [c]))
    else utf8_loop c.
Proof.
  intros Hl Hn. unfold utf8_step, seq_state at 1. unfold is_cont.
  destruct (Z.eqb_spec (Z.land c 0xc0) 0x80) as [E|E]; case_decide; try done. cbn [negb].
  cbv zeta. rewrite seq_v, seq_m, seq_r, seq_more by done.
  pose proof (utf8_conts_range l).
  destruct (Nat.eqb_spec (S (length cs)) (utf8_conts l)) as [E2|E2]; cbn [negb].
  - f_equal. rewrite <- seq_value by (rewrite ?length_app; simpl; try done; lia).
    rewrite length_app, Nat.add_1_r. done.
  - unfold seq_state. by rewrite length_app, Nat.add_1_r.
Qed.

Lemma utf8_getc_conts l ks cs p :
  is_lead l -> (length ks + length cs < utf8_conts l)%nat -> Forall is_cont cs ->
  utf8_getc_loop (seq_state l ks) (cs ++ p) = utf8_getc_loop (seq_state l (ks ++ cs)) p.
Proof.
  intros Hl. revert ks. induction cs as [|c cs IH]; intros ks Hn Hcs.
  - by rewrite app_nil_r.
  - apply Forall_cons in Hcs as [Hc Hcs]. simpl in Hn. cbn [app utf8_getc_loop].
    rewrite utf8_step_seq, decide_True by (done || lia).
    destruct (Nat.eqb_spec (S (length ks)) (utf8_conts l)); [lia|].
    rewrite IH by (rewrite ?length_app; simpl; done || lia). by rewrite <- app_assoc.
Qed.

Lemma utf8_getc_first c p :
  utf8_getc_loop None (c :: p) =
    match utf8_loop c with inl v => Ok (v, p) | inr st => utf8_getc_loop st p end.
Proof. done. Qed.

(** A byte that does not continue a sequence starts over. *)
Lemma utf8_getc_short l cs b p :
  is_lead l -> (length cs < utf8_conts l)%nat -> ~ is_cont b ->
  utf8_getc_loop (seq_state l cs) (b :: p) = utf8_getc_loop None (b :: p).
Proof.
  intros. cbn [utf8_getc_loop]. by rewrite utf8_step_seq, decide_False by done.
Qed.

Lemma utf8_getc_lead l p :
  is_lead l -> utf8_getc_loop None (l :: p) = utf8_getc_loop (seq_state l []) p.
Proof. intros. by rewrite utf8_getc_first, utf8_loop_lead. Qed.

Lemma utf8_getc_seq l cs p :
  is_lead l -> length cs = utf8_conts l -> Forall is_cont cs ->
  camel_utf8_getc (l :: cs ++ p) = Ok (utf8_value l cs, p).
Proof.
  intros Hl Hn Hcs. unfold camel_utf8_getc. rewrite utf8_getc_lead by done.
  pose proof (utf8_conts_range l).
  destruct (exists_last (l := cs)) as (ks & c & ->); [by intros ->; simpl in *; lia|].
  rewrite length_app in Hn. simpl in Hn. apply Forall_app in Hcs as [Hks Hc].
  rewrite Forall_singleton in Hc.
  rewrite <- app_assoc, utf8_getc_conts by (simpl; done || lia). cbn [app utf8_getc_loop].
  rewrite utf8_step_seq, decide_True by (done || lia).
  destruct (Nat.eqb_spec (S (length ks)) (utf8_conts l)); [done|lia].
Qed.

Lemma Utf8Read_getc p v q : Utf8Read p v q -> camel_utf8_getc p = Ok (v, q).
Proof.
  induction 1 as [c p Hc|l cs p Hl Hn Hcs|c p v q Hc HR IH|l cs b p v q Hl Hn Hcs Hb HR IH].
  - unfold camel_utf8_getc. rewrite utf8_getc_first. unfold utf8_loop.
    by destruct (Z.ltb_spec c 0x80); [|lia].
  - by apply utf8_getc_seq.
  - unfold camel_utf8_getc in *. rewrite utf8_getc_first. unfold utf8_loop.
    destruct (Z.ltb_spec c 0x80); [lia|]. by destruct (Z.ltb_spec c 0xf8); [lia|].
  - unfold camel_utf8_getc in *. rewrite utf8_getc_lead by done.
    rewrite utf8_getc_conts by (simpl; done || lia). by rewrite utf8_getc_short.
Qed.

Lemma getc_Utf8Read_gen p :
  Forall byte_ok p ->
  (forall v q, utf8_getc_loop None p = Ok (v, q) -> Utf8Read p v q) /\
  (forall l ks v q, is_lead l -> (length ks < utf8_conts l)%nat -> Forall is_cont ks ->
     utf8_getc_loop (seq_state l ks) p = Ok (v, q) -> Utf8Read (l :: ks ++ p) v q).
Proof.
  induction p as [|c p IH]; intros Hp; [done|].
  apply Forall_cons in Hp as [Hc Hp]. destruct (IH Hp) as [IH1 IH2].
  assert (forall v q, utf8_getc_loop None (c :: p) = Ok (v, q) -> Utf8Read (c :: p) v q) as Hfirst.
  { intros v q. destruct (Z.lt_ge_cases c 0x80) as [Ha|Ha];
      [|destruct (Z.lt_ge_cases c 0xf8) as [Hb|Hb]].
    - rewrite utf8_getc_first. unfold utf8_loop. destruct (Z.ltb_spec c 0x80); [|lia].
      intros [= <- <-]. apply read_ascii. unfold byte_ok in Hc. lia.
    - rewrite utf8_getc_lead by done. intros H.
      apply (IH2 c []); [done| |by constructor|done].
      pose proof (utf8_conts_range c). simpl. lia.
    - rewrite utf8_getc_first. unfold utf8_loop. destruct (Z.ltb_spec c 0x80); [lia|].
      destruct (Z.ltb_spec c 0xf8); [lia|]. intros HG. apply read_skip; auto. }
  split; [done|]. intros l ks v q Hl Hn Hks.
  destruct (decide (is_cont c)) as [Hcc|Hcc].
  - cbn [utf8_getc_loop]. rewrite utf8_step_seq, decide_True by done.
    replace (l :: ks ++ c :: p) with (l :: (ks ++ [c]) ++ p) by by rewrite <- app_assoc.
    assert (Forall is_cont (ks ++ [c])) by (apply Forall_app; by rewrite Forall_singleton).
    destruct (Nat.eqb_spec (S (length ks)) (utf8_conts l)).
    + intros [= <- <-]. apply read_seq; [done| |done]. rewrite length_app. simpl. lia.
    + intros HG. apply IH2; try done. rewrite length_app. simpl. lia.
  - rewrite utf8_getc_short by done. intros H. by apply read_short; [..|apply Hfirst].
Qed.

(** On any string of bytes, [camel_utf8_getc] returns exactly the characters of
    [Utf8Read]: an ASCII byte, or a first byte with the continuation bytes its bits
    announce, after skipping bytes from 0xf8 on and sequences that are cut
    short (whose last byte, the one that does not continue it, is read again). *)
Theorem utf8_getc_spec p v q :
  Forall byte_ok p ->
  (camel_utf8_getc p = Ok (v, q) <-> Utf8Read p v q).
Proof.
  intros Hp. split; [|apply Utf8Read_getc]. by apply (getc_Utf8Read_gen p Hp).
Qed.

Lemma utf8_getc_spec_witness :
  Forall byte_ok [0xff; 0xe2; 0x82; 0xc3; 0xa4; 33] /\
  Utf8Read [0xff; 0xe2; 0x82; 0xc3; 0xa4; 33] 228 [33].
Proof.
  split; [by concrete|]. apply utf8_getc_spec; [by concrete|]. vm_compute. reflexivity.
Defined.

(** ** Strings *)

(** The reader stays inside a NUL-terminated string. *)
Lemma utf8_getc_loop_string st p :
  0 ∈ p ->
  exists v q, utf8_getc_loop st p = Ok (v, q) /\ (length q < length p)%nat /\
    (v <> 0 -> 0 ∈ q).
Proof.
  revert st. induction p as [|c p IH]; intros st Hp; [by apply elem_of_nil in Hp|].
  assert (forall v : Z, utf8_loop c = inl v -> v = c) as Hloop.
  { intros v. unfold utf8_loop. repeat case_match; congruence. }
  cbn [utf8_getc_loop]. destruct (utf8_step st c) as [v|st'] eqn:E.
  - exists v, p. split; [done|]. split; [simpl; lia|]. intros Hv.
    apply elem_of_cons in Hp as [<-|?]; [|done]. exfalso. apply Hv.
    destruct st as [[[v0 m] r]|]; [|by apply Hloop in E]. simpl in E. by injection E.
  - assert (0 ∈ p) as Hp'.
    { apply elem_of_cons in Hp as [<-|?]; [|done].
      destruct st as [[[v0 m] r]|]; [|done]. by simpl in E. }
    destruct (IH st' Hp') as (v & q & -> & ? & ?).
    exists v, q. simpl. split; [done|]. split; [lia|done].
Qed.

Lemma utf8_getc_string p :
  0 ∈ p ->
  exists v q, camel_utf8_getc p = Ok (v, q) /\ (length q < length p)%nat /\ (v <> 0 -> 0 ∈ q).
Proof. apply utf8_getc_loop_string. Qed.

Lemma utf8_getc_limit_loop_spec ptr st p :
  utf8_getc_limit_loop ptr st p =
    match utf8_getc_loop st p with Ok x => x | _ => (0xffff, ptr) end.
Proof.
  revert st. induction p as [|c p IH]; intros st; [done|]. simpl.
  by destruct (utf8_step st c).
Qed.

(** The reader with a limit reads the character that the unlimited reader would; it
    returns the sentinel 0xffff, without moving, exactly when no whole
    character (after skipping) lies before the limit. *)
Theorem utf8_getc_limit_spec p :
  Forall byte_ok p ->
  (exists v q, Utf8Read p v q /\ camel_utf8_getc_limit p = (v, q)) \/
  ((forall v q, ~ Utf8Read p v q) /\ camel_utf8_getc_limit p = (0xffff, p)).
Proof.
  intros Hp. unfold camel_utf8_getc_limit. rewrite utf8_getc_limit_loop_spec.
  change (utf8_getc_loop None p) with (camel_utf8_getc p).
  destruct (camel_utf8_getc p) as [[v q]| |] eqn:E.
  - left. exists v, q. split; [|done]. by apply (getc_Utf8Read_gen p Hp).
  - right. split; [|done]. intros v q HR%Utf8Read_getc. congruence.
  - right. split; [|done]. intros v q HR%Utf8Read_getc. congruence.
Qed.

Lemma utf8_getc_limit_spec_witness :
  Forall byte_ok [0xe2; 0x82] /\
  ((exists v q, Utf8Read [0xe2; 0x82] v q /\ camel_utf8_getc_limit [0xe2; 0x82] = (v, q)) \/
   ((forall v q, ~ Utf8Read [0xe2; 0x82] v q) /\
    camel_utf8_getc_limit [0xe2; 0x82] = (0xffff, [0xe2; 0x82]))).
Proof. split; [by concrete|]. apply utf8_getc_limit_spec. by concrete. Defined.

(** ** The writer *)

Lemma cont_of x : 0 <= x < 64 -> is_cont (u8 (Z.lor 0x80 x)) /\ u8 (Z.lor 0x80 x) mod 64 = x.
Proof.
  intros Hx. change 0x80 with (Z.shiftl 2 6). rewrite (lor_add 2 x 6) by (simpl; lia).
  change (2 * 2 ^ 6) with 128. rewrite u8_small by lia. split; [|div_lia].
  assert (forallb (fun b => (b <? 128) || (192 <=? b) || (Z.land b 0xc0 =? 0x80)) (seqZ 0 256)
    = true) as H by (vm_compute; reflexivity).
  pose proof (forall_byte _ H (128 + x)) as E. cbv beta in E. unfold is_cont.
  unfold byte_ok in E. lia.
Qed.

Lemma lead_of a k x :
  0 <= k -> 0 <= x < 2 ^ k -> a * 2 ^ k + 2 ^ k <= 0xf8 -> 0x80 <= a * 2 ^ k ->
  u8 (Z.lor (a * 2 ^ k) x) = a * 2 ^ k + x.
Proof.
  intros. rewrite <- (Z.shiftl_mul_pow2 a k) at 1 by done. rewrite lor_add by done. apply u8_small. lia.
Qed.

Lemma lead_c0 x : 0 <= x < 32 -> u8 (Z.lor 0xc0 x) = 192 + x.
Proof. intros. apply (lead_of 6 5); simpl; lia. Qed.
Lemma lead_e0 x : 0 <= x < 16 -> u8 (Z.lor 0xe0 x) = 224 + x.
Proof. intros. apply (lead_of 14 4); simpl; lia. Qed.
Lemma lead_f0 x : 0 <= x < 8 -> u8 (Z.lor 0xf0 x) = 240 + x.
Proof. intros. apply (lead_of 30 3); simpl; lia. Qed.

(** What the writer writes, and that it is a sequence of the reader. *)
Lemma utf8_putc_seq c :
  0x80 <= c < 2 ^ 21 ->
  exists l cs, camel_utf8_putc c = l :: cs /\ is_lead l /\ length cs = utf8_conts l /\
    Forall is_cont cs /\ utf8_value l cs = c.
Proof.
  change (2 ^ 21) with 2097152. intros Hc.
  unfold camel_utf8_putc. rewrite !land_3f, !Z.shiftr_div_pow2 by done.
  change (2 ^ 6) with 64. change (2 ^ 12) with 4096. change (2 ^ 18) with 262144.
  pose proof (cont_of (c mod 64) ltac:(div_lia)) as [C1 M1].
  pose proof (cont_of ((c / 64) mod 64) ltac:(div_lia)) as [C2 M2].
  pose proof (cont_of ((c / 4096) mod 64) ltac:(div_lia)) as [C3 M3].
  destruct (Z.leb_spec c 0x7f); [lia|].
  unfold is_lead, utf8_value, utf8_bits.
  destruct (Z.leb_spec c 0x7ff); [|destruct (Z.leb_spec c 0xffff)];
    eexists _, _; (split; [reflexivity|]); cbn [foldl length]; rewrite ?M1, ?M2, ?M3;
    [change (2 ^ Z.min 32 (7 + 5 * Z.of_nat 1)) with 4096
    |change (2 ^ Z.min 32 (7 + 5 * Z.of_nat 2)) with 131072
    |change (2 ^ Z.min 32 (7 + 5 * Z.of_nat 3)) with 4194304];
    [rewrite lead_c0 by div_lia|rewrite lead_e0 by div_lia|rewrite lead_f0 by div_lia];
    (split; [div_lia|]; split; [|split; [by repeat constructor|div_lia]]);
    unfold utf8_conts; repeat case_match; div_lia.
Qed.

(** Reading back what was written. *)
Lemma utf8_getc_putc c p :
  0 <= c < 2 ^ 21 -> camel_utf8_getc (camel_utf8_putc c ++ p) = Ok (c, p).
Proof.
  intros Hc. destruct (Z.lt_ge_cases c 0x80) as [Ha|Ha].
  - unfold camel_utf8_putc. destruct (Z.leb_spec c 0x7f); [|lia]. rewrite u8_small by lia.
    apply Utf8Read_getc, read_ascii. lia.
  - destruct (utf8_putc_seq c) as (l & cs & -> & Hl & Hn & Hcs & <-); [lia|].
    by apply utf8_getc_seq.
Qed.

Lemma utf8_putc_length c : (1 <= length (camel_utf8_putc c) <= 4)%nat.
Proof. unfold camel_utf8_putc. repeat case_match; simpl; lia. Qed.

Lemma utf8_putc_nonzero c : 0 < c < 2 ^ 21 -> 0 ∉ camel_utf8_putc c.
Proof.
  intros Hc. destruct (Z.lt_ge_cases c 0x80) as [Ha|Ha].
  - unfold camel_utf8_putc. destruct (Z.leb_spec c 0x7f); [|lia]. rewrite u8_small by lia.
    rewrite list_elem_of_singleton. lia.
  - destruct (utf8_putc_seq c) as (l & cs & -> & Hl & _ & Hcs & _); [lia|].
    intros [Hz|Hz]%elem_of_cons; [unfold is_lead in Hl; lia|].
    rewrite Forall_forall in Hcs. by specialize (Hcs _ Hz).
Qed.

(** The string of a list of characters. *)
Definition utf8_encode (cs : list Z) : list Z := concat (map camel_utf8_putc cs).

Lemma append_u_encode out c :
  0 < c < 2 ^ 21 -> g_string_append_u out c = out ++ camel_utf8_putc c.
Proof.
  intros. unfold g_string_append_u. rewrite c_string_app by by apply utf8_putc_nonzero.
  simpl. by rewrite app_nil_r.
Qed.

Lemma utf8_encode_snoc cs c : utf8_encode (cs ++ [c]) = utf8_encode cs ++ camel_utf8_putc c.
Proof. unfold utf8_encode. rewrite map_app, concat_app. simpl. by rewrite app_nil_r. Qed.

Lemma utf8_encode_nonzero cs :
  Forall (fun c => 0 < c < 2 ^ 21) cs -> 0 ∉ utf8_encode cs.
Proof.
  induction 1 as [|c cs Hc Hcs IH]; [apply not_elem_of_nil|].
  unfold utf8_encode. simpl. rewrite elem_of_app. intros [Hz|Hz]; [|done].
  by apply utf8_putc_nonzero in Hz.
Qed.

Lemma utf8_encode_length cs : (length cs <= length (utf8_encode cs))%nat.
Proof.
  induction cs as [|c cs IH]; simpl; [lia|]. unfold utf8_encode in *. simpl.
  rewrite length_app. pose proof (utf8_putc_length c). lia.
Qed.

(** The loop over the characters of a string. *)
Lemma utf8_foreach_encode {S} (body : Z -> S -> res S) fuel cs rest s :
  Forall (fun c => 0 < c < 2 ^ 21) cs -> (length cs < fuel)%nat ->
  utf8_foreach body fuel (utf8_encode cs ++ 0 :: rest) s = foldM body cs s.
Proof.
  intros Hcs. revert fuel s. induction Hcs as [|c cs Hc Hcs IH]; intros [|fuel] s Hf;
    simpl in Hf; try lia.
  - done.
  - unfold utf8_encode. cbn [map concat]. rewrite <- app_assoc. cbn [utf8_foreach].
    rewrite utf8_getc_putc, res_bind_Ok by lia. destruct (Z.eqb_spec c 0); [lia|].
    cbn [foldM]. destruct (body c s); [|done|done]. rewrite !res_bind_Ok. apply IH. lia.
Qed.

(** ** Modified UTF-7 *)

(** The characters of modified UTF-7. *)
Definition printable (c : Z) : Prop := 0x20 <= c <= 0x7e.

Lemma printable_nonzero l : Forall printable l -> 0 ∉ l.
Proof.
  intros Hl Hz. rewrite Forall_forall in Hl. apply Hl in Hz. unfold printable in Hz. lia.
Qed.

(** The character of a sextet. *)
Definition alph (s : Z) : Z := default 0 (utf7_alphabet !! Z.to_nat s).

Lemma alph_spec s :
  0 <= s < 64 ->
  arr_get utf7_alphabet s = Ok (alph s) /\ arr_get utf7_rank (alph s) = Ok s /\
  alph s <> 45 /\ printable (alph s).
Proof.
  intros Hs.
  assert (Forall (fun s => arr_get utf7_alphabet s = Ok (alph s) /\
    arr_get utf7_rank (alph s) = Ok s /\ alph s <> 45 /\ printable (alph s)) (seqZ 0 64)) as H.
  { let l := eval vm_compute in (seqZ 0 64) in change (seqZ 0 64) with l.
    repeat constructor; vm_compute; congruence. }
  rewrite Forall_forall in H. apply H, elem_of_seqZ. lia.
Qed.

(** *** The decoder *)

Lemma dec_loop_app xs rest s :
  0 ∉ xs -> utf7_dec_loop (xs ++ 0 :: rest) s = (foldM utf7_dec_step xs s ≫= utf7_dec_step 0).
Proof.
  revert s. induction xs as [|c xs IH]; intros s Hxs; cbn [app utf7_dec_loop foldM].
  - rewrite res_bind_Ok. by destruct (utf7_dec_step 0 s).
  - apply not_elem_of_cons in Hxs as [Hc Hxs]. rewrite res_bind_assoc.
    destruct (utf7_dec_step c s); [|done|done]. rewrite !res_bind_Ok.
    destruct (Z.eqb_spec c 0); [congruence|]. auto.
Qed.

(** A character of the alphabet in base 64: directly after the ampersand, in the middle
    of a character, and at the end of one.  [x] are the bits not yet used. *)
Lemma dec_first s v i out :
  0 <= s < 64 -> utf7_dec_step (alph s) (mkDec 1 v i out) = Ok (mkDec 2 s 6 out).
Proof.
  intros Hs. destruct (alph_spec s Hs) as (_ & Hr & Hd & _). simpl.
  destruct (Z.eqb_spec (alph s) 45); [done|]. rewrite Hr, res_bind_Ok.
  by destruct (Z.eqb_spec s 0xff); [lia|].
Qed.

Lemma dec_sextet s v i out :
  0 <= s < 64 ->
  utf7_dec_step (alph s) (mkDec 2 v i out) =
    let v := u32 (v * 64 + s) in
    if 16 <=? i + 6 then
      Ok (mkDec 2 v (i - 10) (g_string_append_u out (Z.land (Z.shiftr v (i - 10)) 0xffff)))
    else Ok (mkDec 2 v (i + 6) out).
Proof.
  intros Hs. destruct (alph_spec s Hs) as (_ & Hr & Hd & _). cbn [utf7_dec_step].
  change (2 =? 0) with false. change (2 =? 1) with false.
  destruct (Z.eqb_spec (alph s) 45); [done|]. rewrite Hr, res_bind_Ok.
  destruct (Z.eqb_spec s 0xff); [lia|]. rewrite (lor_add v s 6) by (simpl; lia).
  change (2 ^ 6) with 64. replace (i + 6 - 16) with (i - 10) by lia. done.
Qed.

Lemma u32_mod x i : 0 <= i <= 32 -> u32 x mod 2 ^ i = x mod 2 ^ i.
Proof.
  intros Hi. unfold u32. apply Z.mod_mod_divide.
  exists (2 ^ (32 - i)). rewrite <- Z.pow_add_r by lia. f_equal. lia.
Qed.

Lemma sextet_bits v x s i :
  0 <= i <= 26 -> 0 <= s < 64 -> v mod 2 ^ i = x -> u32 (v * 64 + s) mod 2 ^ (i + 6) = x * 64 + s.
Proof.
  intros Hi Hs Hx. rewrite u32_mod by lia. rewrite Z.pow_add_r by lia. change (2 ^ 6) with 64.
  pose proof (Z.pow_pos_nonneg 2 i). pose proof (Z.div_mod v (2 ^ i)).
  pose proof (Z.mod_pos_bound v (2 ^ i)). symmetry.
  apply Z.mod_unique with (q := v / 2 ^ i); [nia|]. rewrite Hx in *. nia.
Qed.

Lemma div_pow_mod v a b : 0 <= a -> 0 <= b -> (v / 2 ^ a) mod 2 ^ b = (v mod 2 ^ (a + b)) / 2 ^ a.
Proof.
  intros. rewrite Z.pow_add_r by lia. pose proof (Z.pow_pos_nonneg 2 a).
  pose proof (Z.pow_pos_nonneg 2 b). rewrite Z.rem_mul_r by lia.
  rewrite (Z.mul_comm (2 ^ a)), Z.div_add by lia.
  pose proof (Z.mod_pos_bound v (2 ^ a)). rewrite (Z.div_small (v mod 2 ^ a)) by lia. lia.
Qed.

Lemma dec_more s v x i out :
  0 <= s < 64 -> 0 <= i < 10 -> v mod 2 ^ i = x ->
  exists v', utf7_dec_step (alph s) (mkDec 2 v i out) = Ok (mkDec 2 v' (i + 6) out) /\
    v' mod 2 ^ (i + 6) = x * 64 + s.
Proof.
  intros Hs Hi Hx. rewrite dec_sextet by done. cbv zeta. destruct (Z.leb_spec 16 (i + 6)); [lia|].
  eexists. split; [done|]. apply sextet_bits; lia.
Qed.

Lemma dec_char s v x i out c r :
  0 <= s < 64 -> 10 <= i < 16 -> v mod 2 ^ i = x ->
  x * 64 + s = c * 2 ^ (i - 10) + r -> 0 <= r < 2 ^ (i - 10) -> 0 < c < 65536 ->
  exists v', utf7_dec_step (alph s) (mkDec 2 v i out) =
      Ok (mkDec 2 v' (i - 10) (out ++ camel_utf8_putc c)) /\
    v' mod 2 ^ (i - 10) = r.
Proof.
  intros Hs Hi Hx Hc Hr Hcr. rewrite dec_sextet by done. cbv zeta.
  destruct (Z.leb_spec 16 (i + 6)); [|lia].
  pose proof (sextet_bits v x s i ltac:(lia) Hs Hx) as Hv.
  set (v' := u32 (v * 64 + s)) in *. pose proof (Z.pow_pos_nonneg 2 (i - 10)).
  exists v'. assert (Z.land (Z.shiftr v' (i - 10)) 0xffff = c) as ->.
  { rewrite (land_mod _ 16) by done. rewrite Z.shiftr_div_pow2, div_pow_mod by lia.
    replace (i - 10 + 16) with (i + 6) by lia. rewrite Hv, Hc.
    rewrite Z.div_add_l, Z.div_small by lia. lia. }
  rewrite append_u_encode by lia. split; [done|].
  replace (i + 6) with (i - 10 + 16) in Hv by lia.
  assert (v' mod 2 ^ (i - 10) = (v' mod 2 ^ (i - 10 + 16)) mod 2 ^ (i - 10)) as ->.
  { symmetry; apply Z.mod_mod_divide; exists (2 ^ 16). rewrite <- Z.pow_add_r by lia. f_equal. lia. }
  rewrite Hv, Hc, Z.add_comm, Z.mod_add, Z.mod_small; lia.
Qed.

(** *** The encoder *)

Lemma sextets_next fuel out v i y :
  6 <= i <= 32 -> v mod 2 ^ i = y ->
  utf7_sextets (S fuel) out v i = utf7_sextets fuel (out ++ [alph (y / 2 ^ (i - 6))]) v (i - 6) /\
  v mod 2 ^ (i - 6) = y mod 2 ^ (i - 6) /\ 0 <= y / 2 ^ (i - 6) < 64.
Proof.
  intros Hi Hy. pose proof (Z.pow_pos_nonneg 2 (i - 6)).
  assert (2 ^ i = 2 ^ (i - 6) * 64) as Hp.
  { change 64 with (2 ^ 6). rewrite <- Z.pow_add_r by lia. f_equal. lia. }
  pose proof (Z.mod_pos_bound v (2 ^ i)).
  assert (0 <= y / 2 ^ (i - 6) < 64) as Hx.
  { split; [apply Z.div_pos; lia|]. apply Z.div_lt_upper_bound; nia. }
  split; [|split; [|done]].
  - cbn [utf7_sextets]. destruct (Z.leb_spec 6 i); [|lia].
    rewrite land_3f, Z.shiftr_div_pow2 by lia. change 64 with (2 ^ 6).
    rewrite div_pow_mod by lia. replace (i - 6 + 6) with i by lia. rewrite Hy.
    by destruct (alph_spec _ Hx) as [-> _].
  - rewrite <- Hy. symmetry. apply Z.mod_mod_divide. exists 64. lia.
Qed.

Lemma sextets_done fuel out v i : i < 6 -> utf7_sextets (S fuel) out v i = Ok (out, i).
Proof. intros. simpl. by destruct (Z.leb_spec 6 i); [lia|]. Qed.

(** The characters encoded so far, the encoder, and the decoder that has read what the
    encoder wrote: outside base 64, and inside with the last character complete or
    with [i] bits of it still in the encoder. *)
Inductive utf7_related : list Z -> utf7_enc -> utf7_dec -> Prop :=
  | rel_direct cs v out dv di :
      utf7_related cs (mkEnc 0 v 0 out) (mkDec 0 dv di (utf8_encode cs))
  | rel_full cs v out dv :
      utf7_related cs (mkEnc 1 v 0 out) (mkDec 2 dv 0 (utf8_encode cs))
  | rel_bits cs c i v out dv :
      i = 2 \/ i = 4 -> 0 < c < 65536 ->
      v mod 2 ^ i = c mod 2 ^ i -> dv mod 2 ^ (16 - i) = c / 2 ^ i ->
      utf7_related (cs ++ [c]) (mkEnc 1 v i out) (mkDec 2 dv (16 - i) (utf8_encode cs)).

(** What an encoder step or the end appends, and that the decoder reads it. *)
Definition feeds (out out' : list Z) (d d' : utf7_dec) : Prop :=
  exists xs, out' = out ++ xs /\ Forall printable xs /\ foldM utf7_dec_step xs d = Ok d'.

Lemma feeds_refl out d : feeds out out d d.
Proof. exists []. by rewrite app_nil_r. Qed.

Lemma feeds_trans out1 out2 out3 d1 d2 d3 :
  feeds out1 out2 d1 d2 -> feeds out2 out3 d2 d3 -> feeds out1 out3 d1 d3.
Proof.
  intros (xs & -> & Hx & E1) (ys & -> & Hy & E2). exists (xs ++ ys).
  rewrite app_assoc. split; [done|]. split; [by apply Forall_app|].
  by rewrite foldM_app, E1, res_bind_Ok.
Qed.

Lemma feeds_one out c d d' :
  printable c -> utf7_dec_step c d = Ok d' -> feeds out (out ++ [c]) d d'.
Proof.
  intros Hc E. exists [c]. split; [done|]. split; [by rewrite Forall_singleton|].
  cbn [foldM]. by rewrite E.
Qed.

Lemma feeds_alph out s d d' :
  0 <= s < 64 -> utf7_dec_step (alph s) d = Ok d' -> feeds out (out ++ [alph s]) d d'.
Proof. intros Hs. apply feeds_one. by destruct (alph_spec s Hs) as (_ & _ & _ & ?). Qed.

(** Leaving base 64. *)
Lemma closeb64_related cs v i out d :
  utf7_related cs (mkEnc 1 v i out) d ->
  exists out' d', utf7_closeb64 out v i = Ok out' /\ feeds out out' d d' /\
    dec_state d' = 0 /\ dec_out d' = utf8_encode cs.
Proof.
  assert (forall v i o out, feeds out (out ++ [45]) (mkDec 2 v i o) (mkDec 0 v i o)) as Hdash
    by (intros; by apply feeds_one).
  inversion 1 as [|? ? ? dv|cs' c ? ? ? dv Hi Hc Hv Hdv]; subst.
  - exists (out ++ [45]), (mkDec 0 dv 0 (utf8_encode cs)). split; [done|]. split; [apply Hdash|done].
  - set (s := (c mod 2 ^ i) * 2 ^ (6 - i)).
    assert (0 <= s < 64 /\ c / 2 ^ i * 64 + s = c * 2 ^ (6 - i) /\ 0 <= 16 - i - 10) as (Hs & Hcs & Hi6).
    { unfold s. destruct Hi as [-> | ->]; simpl; div_lia. }
    destruct (dec_char s dv _ (16 - i) (utf8_encode cs') c 0 Hs ltac:(lia) Hdv) as (dv' & E & _);
      [replace (16 - i - 10) with (6 - i) by lia; lia| |done|].
    { pose proof (Z.pow_pos_nonneg 2 (16 - i - 10)). lia. }
    eexists _, _. split; [|split; [eapply feeds_trans; [apply (feeds_alph _ s); eassumption|apply Hdash]|]].
    + unfold utf7_closeb64. destruct (Z.ltb_spec 0 i); [|lia].
      assert (Z.land (u32 (Z.shiftl v (6 - i))) 0x3f = s) as ->.
      { rewrite land_3f. change 64 with (2 ^ 6). rewrite u32_mod, Z.shiftl_mul_pow2 by lia.
        unfold s. rewrite <- Hv. destruct Hi as [-> | ->]; simpl; div_lia. }
      destruct (alph_spec s Hs) as [-> _]. by rewrite !res_bind_Ok.
    + by rewrite utf8_encode_snoc.
Qed.

Lemma enc_push v i c :
  0 <= i <= 16 -> 0 <= c < 65536 ->
  u32 (Z.lor (Z.shiftl v 16) c) mod 2 ^ (i + 16) = (v mod 2 ^ i) * 65536 + c.
Proof.
  intros. rewrite u32_mod, (lor_add v c 16) by (simpl; lia). rewrite Z.pow_add_r by lia.
  change (2 ^ 16) with 65536. pose proof (Z.pow_pos_nonneg 2 i).
  pose proof (Z.div_mod v (2 ^ i)). pose proof (Z.mod_pos_bound v (2 ^ i)).
  symmetry. apply Z.mod_unique with (q := v / 2 ^ i); nia.
Qed.

(** A character in base 64, with no bits pending, with two, and with four. *)
Lemma sextets_16 n cs c v out d :
  v mod 2 ^ 16 = c -> 0 < c < 65536 ->
  (forall s, 0 <= s < 64 -> exists dv, utf7_dec_step (alph s) d = Ok (mkDec 2 dv 6 (utf8_encode cs)) /\
     dv mod 2 ^ 6 = s) ->
  exists out' d', utf7_sextets (3 + n) out v 16 = Ok (out', 4) /\ feeds out out' d d' /\
    utf7_related (cs ++ [c]) (mkEnc 1 v 4 out') d'.
Proof.
  intros Hv Hc Hd.
  destruct (sextets_next (2 + n) out v 16 c ltac:(lia) Hv) as (E1 & Hv1 & Hs1).
  set (s1 := c / 2 ^ (16 - 6)) in *.
  destruct (sextets_next (1 + n) (out ++ [alph s1]) v (16 - 6) _ ltac:(lia) Hv1) as (E2 & Hv2 & Hs2).
  set (s2 := c mod 2 ^ (16 - 6) / 2 ^ (16 - 6 - 6)) in *.
  destruct (Hd s1 Hs1) as (dv1 & D1 & Hdv1).
  destruct (dec_more s2 dv1 _ 6 (utf8_encode cs) Hs2 ltac:(lia) Hdv1) as (dv2 & D2 & Hdv2).
  eexists _, _. split; [|split].
  - change (3 + n)%nat with (S (2 + n)). rewrite E1. change (2 + n)%nat with (S (1 + n)).
    rewrite E2. apply sextets_done. lia.
  - eapply feeds_trans; [exact (feeds_alph _ _ _ _ Hs1 D1)|exact (feeds_alph _ _ _ _ Hs2 D2)].
  - apply (rel_bits _ c 4); [by right|done| |].
    + etransitivity; [exact Hv2|]. simpl. div_lia.
    + etransitivity; [exact Hdv2|]. unfold s1, s2. simpl. div_lia.
Qed.

Lemma sextets_18 n cs c0 c v dv out :
  v mod 2 ^ 18 = (c0 mod 2 ^ 2) * 65536 + c -> 0 < c0 < 65536 -> 0 < c < 65536 ->
  dv mod 2 ^ 14 = c0 / 2 ^ 2 ->
  exists out' d', utf7_sextets (4 + n) out v 18 = Ok (out', 0) /\
    feeds out out' (mkDec 2 dv 14 (utf8_encode cs)) d' /\
    utf7_related ((cs ++ [c0]) ++ [c]) (mkEnc 1 v 0 out') d'.
Proof.
  intros Hv Hc0 Hc Hdv.
  destruct (sextets_next (3 + n) out v 18 _ ltac:(lia) Hv) as (E1 & Hv1 & Hs1).
  set (y := c0 mod 2 ^ 2 * 65536 + c) in *. set (s1 := y / 2 ^ (18 - 6)) in *.
  destruct (sextets_next (2 + n) (out ++ [alph s1]) v (18 - 6) _ ltac:(lia) Hv1) as (E2 & Hv2 & Hs2).
  set (s2 := y mod 2 ^ (18 - 6) / 2 ^ (18 - 6 - 6)) in *.
  destruct (sextets_next (1 + n) ((out ++ [alph s1]) ++ [alph s2]) v (18 - 6 - 6) _ ltac:(lia) Hv2)
    as (E3 & Hv3 & Hs3).
  set (s3 := (y mod 2 ^ (18 - 6)) mod 2 ^ (18 - 6 - 6) / 2 ^ (18 - 6 - 6 - 6)) in *.
  destruct (dec_char s1 dv _ 14 (utf8_encode cs) c0 (c / 2 ^ 12) Hs1 ltac:(lia) Hdv)
    as (dv1 & D1 & Hdv1); [unfold s1, y; simpl; div_lia|simpl; div_lia|done|].
  destruct (dec_more s2 dv1 _ (14 - 10) (utf8_encode cs ++ camel_utf8_putc c0) Hs2 ltac:(lia) Hdv1)
    as (dv2 & D2 & Hdv2).
  destruct (dec_char s3 dv2 _ (14 - 10 + 6) (utf8_encode cs ++ camel_utf8_putc c0) c 0 Hs3 ltac:(lia) Hdv2)
    as (dv3 & D3 & Hdv3); [unfold s2, s3, y; simpl; div_lia|simpl; lia|done|].
  eexists _, _. split; [|split].
  - change (4 + n)%nat with (S (3 + n)). rewrite E1. change (3 + n)%nat with (S (2 + n)).
    rewrite E2. change (2 + n)%nat with (S (1 + n)). rewrite E3. apply sextets_done. lia.
  - eapply feeds_trans; [exact (feeds_alph _ _ _ _ Hs1 D1)|].
    eapply feeds_trans; [exact (feeds_alph _ _ _ _ Hs2 D2)|exact (feeds_alph _ _ _ _ Hs3 D3)].
  - rewrite <- !utf8_encode_snoc. apply rel_full.
Qed.

Lemma sextets_20 n cs c0 c v dv out :
  v mod 2 ^ 20 = (c0 mod 2 ^ 4) * 65536 + c -> 0 < c0 < 65536 -> 0 < c < 65536 ->
  dv mod 2 ^ 12 = c0 / 2 ^ 4 ->
  exists out' d', utf7_sextets (4 + n) out v 20 = Ok (out', 2) /\
    feeds out out' (mkDec 2 dv 12 (utf8_encode cs)) d' /\
    utf7_related ((cs ++ [c0]) ++ [c]) (mkEnc 1 v 2 out') d'.
Proof.
  intros Hv Hc0 Hc Hdv.
  destruct (sextets_next (3 + n) out v 20 _ ltac:(lia) Hv) as (E1 & Hv1 & Hs1).
  set (y := c0 mod 2 ^ 4 * 65536 + c) in *. set (s1 := y / 2 ^ (20 - 6)) in *.
  destruct (sextets_next (2 + n) (out ++ [alph s1]) v (20 - 6) _ ltac:(lia) Hv1) as (E2 & Hv2 & Hs2).
  set (s2 := y mod 2 ^ (20 - 6) / 2 ^ (20 - 6 - 6)) in *.
  destruct (sextets_next (1 + n) ((out ++ [alph s1]) ++ [alph s2]) v (20 - 6 - 6) _ ltac:(lia) Hv2)
    as (E3 & Hv3 & Hs3).
  set (s3 := (y mod 2 ^ (20 - 6)) mod 2 ^ (20 - 6 - 6) / 2 ^ (20 - 6 - 6 - 6)) in *.
  destruct (dec_char s1 dv _ 12 (utf8_encode cs) c0 (c / 2 ^ 14) Hs1 ltac:(lia) Hdv)
    as (dv1 & D1 & Hdv1); [unfold s1, y; simpl; div_lia|simpl; div_lia|done|].
  destruct (dec_more s2 dv1 _ (12 - 10) (utf8_encode cs ++ camel_utf8_putc c0) Hs2 ltac:(lia) Hdv1)
    as (dv2 & D2 & Hdv2).
  destruct (dec_more s3 dv2 _ (12 - 10 + 6) (utf8_encode cs ++ camel_utf8_putc c0) Hs3 ltac:(lia) Hdv2)
    as (dv3 & D3 & Hdv3).
  eexists _, _. split; [|split].
  - change (4 + n)%nat with (S (3 + n)). rewrite E1. change (3 + n)%nat with (S (2 + n)).
    rewrite E2. change (2 + n)%nat with (S (1 + n)). rewrite E3. apply sextets_done. lia.
  - eapply feeds_trans; [exact (feeds_alph _ _ _ _ Hs1 D1)|].
    eapply feeds_trans; [exact (feeds_alph _ _ _ _ Hs2 D2)|exact (feeds_alph _ _ _ _ Hs3 D3)].
  - rewrite <- utf8_encode_snoc. apply (rel_bits _ c 2); [by left|done| |].
    + etransitivity; [exact Hv3|]. unfold y. simpl. div_lia.
    + etransitivity; [exact Hdv3|]. unfold s2, s3, y. simpl. div_lia.
Qed.

(** A character that stands for itself, and the ampersand. *)
Lemma direct_related cs c dv di out :
  printable c ->
  exists d', feeds out (out ++ (if c =? 38 then [38; 45] else [c]))
      (mkDec 0 dv di (utf8_encode cs)) d' /\
    dec_state d' = 0 /\ dec_out d' = utf8_encode (cs ++ [c]).
Proof.
  unfold printable. intros Hc. rewrite utf8_encode_snoc. destruct (Z.eqb_spec c 38) as [->|Hn].
  - eexists (mkDec 0 dv di _). split; [|done]. exists [38; 45]. split; [done|]. split; [|done].
    repeat constructor; unfold printable; lia.
  - eexists (mkDec 0 dv di _). split; [|done]. apply feeds_one; [done|]. simpl.
    destruct (Z.eqb_spec c 38); [done|]. by rewrite append_u_encode by lia.
Qed.

(** Entering base 64. *)
Lemma enter_related cs dv di out :
  exists d, feeds out (out ++ [38]) (mkDec 0 dv di (utf8_encode cs)) d /\
    (forall s, 0 <= s < 64 ->
       exists dv, utf7_dec_step (alph s) d = Ok (mkDec 2 dv 6 (utf8_encode cs)) /\ dv mod 2 ^ 6 = s).
Proof.
  exists (mkDec 1 dv di (utf8_encode cs)). split.
  - apply feeds_one; [unfold printable; lia|done].
  - intros s Hs. exists s. split; [by apply dec_first|]. apply Z.mod_small. lia.
Qed.

Lemma enc_step_printable cs e d c :
  utf7_related cs e d -> printable c ->
  exists e' d', utf7_enc_step c e = Ok e' /\ feeds (enc_out e) (enc_out e') d d' /\
    utf7_related (cs ++ [c]) e' d'.
Proof.
  intros HR Hc. destruct e as [st v i out]. simpl. unfold printable in Hc.
  destruct ((0x20 <=? c) && (c <=? 0x7e)) eqn:Hp; [clear Hp|lia].
  assert (exists out1 d1,
    (if st =? 1 then out ← utf7_closeb64 out v i; Ok (0, 0, out) else Ok (st, i, out)) = Ok (0, 0, out1) /\
    feeds out out1 d d1 /\ dec_state d1 = 0 /\ dec_out d1 = utf8_encode cs)
    as (out1 & d1 & E & F1 & S1 & O1).
  { inversion HR; subst; [eexists _, _; split; [reflexivity|]; split; [apply feeds_refl|done]|..];
      destruct (closeb64_related _ _ _ _ _ HR) as (o & d' & E & ? & ? & ?);
      exists o, d'; simpl (1 =? 1); cbv iota; by rewrite E. }
  rewrite E, res_bind_Ok. destruct d1 as [? dv1 di1 ?]. simpl in S1, O1. subst.
  destruct (direct_related cs c dv1 di1 out1 Hc) as ([st2 dv2 di2 o2] & F2 & S2 & O2).
  simpl in S2, O2. subst. eexists _, _. split; [reflexivity|].
  split; [by eapply feeds_trans|]. apply rel_direct.
Qed.

(** The end of a step in base 64, from the lemma on the sextets. *)
Ltac b64_done E :=
  match type of E with ?l = _ =>
    match goal with |- context [utf7_sextets ?n ?o ?v ?i] => change (utf7_sextets n o v i) with l end
  end;
  rewrite E, res_bind_Ok; eexists _, _; split; [reflexivity|].

Lemma enc_step_b64 cs e d c :
  utf7_related cs e d -> ~ printable c -> 0 < c < 65536 ->
  exists e' d', utf7_enc_step c e = Ok e' /\ feeds (enc_out e) (enc_out e') d d' /\
    utf7_related (cs ++ [c]) e' d'.
Proof.
  intros HR Hp Hc. destruct e as [st v i out]. cbn [utf7_enc_step enc_out]. unfold printable in Hp.
  destruct ((0x20 <=? c) && (c <=? 0x7e)) eqn:E0; [lia|clear E0 Hp].
  assert (0 <= i <= 16) as Hi16 by (inversion HR; lia).
  pose proof (enc_push v i c Hi16 ltac:(lia)) as Hpush.
  inversion HR as [? ? ? dv di|? ? ? dv|cs' c0 ? ? ? dv Hi Hc0 Hv Hdv]; subst;
    [change (v mod 2 ^ 0) with (v mod 1) in Hpush; rewrite Z.mod_1_r in Hpush..|rewrite Hv in Hpush].
  - simpl (0 =? 0). cbv iota.
    destruct (enter_related cs dv di out) as (d1 & F1 & Hd1).
    destruct (sextets_16 14 cs c _ (out ++ [38]) d1 Hpush Hc Hd1) as (o & d2 & E & F2 & HR2).
    b64_done E. split; [by eapply feeds_trans|done].
  - simpl (1 =? 0). cbv iota.
    destruct (sextets_16 14 cs c _ out (mkDec 2 dv 0 (utf8_encode cs)) Hpush Hc)
      as (o & d2 & E & F2 & HR2); [|by b64_done E].
    intros s Hs. destruct (dec_more s dv 0 0 (utf8_encode cs) Hs) as (dv' & E' & Hdv');
      [lia|apply Z.mod_1_r|]. exists dv'. split; [done|]. by etransitivity; [exact Hdv'|].
  - simpl (1 =? 0). cbv iota. destruct Hi as [-> | ->].
    + destruct (sextets_18 15 cs' c0 c _ dv out Hpush Hc0 Hc Hdv) as (o & d2 & E & F2 & HR2).
      by b64_done E.
    + destruct (sextets_20 17 cs' c0 c _ dv out Hpush Hc0 Hc Hdv) as (o & d2 & E & F2 & HR2).
      by b64_done E.
Qed.

Lemma enc_loop_related cs cs0 e d :
  utf7_related cs0 e d -> Forall (fun c => 0 < c < 65536) cs ->
  exists e' d', foldM utf7_enc_step cs e = Ok e' /\ feeds (enc_out e) (enc_out e') d d' /\
    utf7_related (cs0 ++ cs) e' d'.
Proof.
  intros HR Hcs. revert cs0 e d HR. induction Hcs as [|c cs Hc Hcs IH]; intros cs0 e d HR.
  - exists e, d. rewrite app_nil_r. split; [done|]. split; [apply feeds_refl|done].
  - assert (exists e' d', utf7_enc_step c e = Ok e' /\ feeds (enc_out e) (enc_out e') d d' /\
      utf7_related (cs0 ++ [c]) e' d') as (e1 & d1 & E1 & F1 & HR1).
    { destruct (decide (0x20 <= c <= 0x7e));
        [by apply enc_step_printable|by apply enc_step_b64]. }
    destruct (IH _ _ _ HR1) as (e2 & d2 & E2 & F2 & HR2). exists e2, d2.
    cbn [foldM]. rewrite E1, res_bind_Ok. split; [done|].
    split; [by eapply feeds_trans|]. by rewrite <- app_assoc in HR2.
Qed.

(** A string of characters of the basic multilingual plane is converted to modified
    UTF-7 of printable ASCII characters only, and converting that back gives the
    string. *)
Theorem utf7_roundtrip cs rest :
  Forall (fun c => 0 < c < 65536) cs ->
  exists u, camel_utf8_utf7 (utf8_encode cs ++ 0 :: rest) = Ok u /\ Forall printable u /\
    forall rest, camel_utf7_utf8 (u ++ 0 :: rest) = Ok (utf8_encode cs).
Proof.
  intros Hcs.
  assert (Forall (fun c => 0 < c < 2 ^ 21) cs) as Hcs' by (eapply Forall_impl; [done|]; simpl; lia).
  destruct (enc_loop_related cs [] (mkEnc 0 0 0 []) (mkDec 0 0 0 []) (rel_direct [] 0 [] 0 0) Hcs)
    as (e & d & E & F & HR). simpl in F, HR.
  assert (exists u d', (if enc_state e =? 1 then utf7_closeb64 (enc_out e) (enc_v e) (enc_i e)
      else Ok (enc_out e)) = Ok u /\ feeds [] u (mkDec 0 0 0 []) d' /\
      dec_state d' = 0 /\ dec_out d' = utf8_encode cs) as (u & d' & Eu & Fu & Su & Ou).
  { destruct e as [st v i out]. simpl in *. inversion HR; subst;
      [by eexists _, _; split; [reflexivity|]|..];
      destruct (closeb64_related _ _ _ _ _ HR) as (u & d' & E' & F' & S' & O');
      exists u, d'; (split; [done|]; split; [by eapply feeds_trans|done]). }
  destruct Fu as (xs & -> & Hx & Ex). exists xs.
  pose proof (printable_nonzero xs Hx) as Hx0. split; [|split; [done|]].
  - unfold camel_utf8_utf7. rewrite utf8_foreach_encode, E, res_bind_Ok; [|done|].
    + rewrite Eu, res_bind_Ok. simpl. by rewrite c_string_id.
    + rewrite length_app. simpl. pose proof (utf8_encode_length cs). lia.
  - intros rest'. unfold camel_utf7_utf8. rewrite dec_loop_app, Ex, res_bind_Ok by done.
    destruct d' as [? dv di o]. simpl in Su, Ou. subst. simpl. unfold g_string_append_u. simpl.
    rewrite app_nil_r, c_string_id; [done|]. by apply utf8_encode_nonzero.
Qed.

Lemma utf7_roundtrip_witness :
  Forall (fun c => 0 < c < 65536) [73; 228; 38; 0x20ac; 0x65e5; 0x672c; 10] /\
  exists u, camel_utf8_utf7 (utf8_encode [73; 228; 38; 0x20ac; 0x65e5; 0x672c; 10] ++ [0]) = Ok u /\
    Forall printable u /\
    forall rest, camel_utf7_utf8 (u ++ 0 :: rest) =
      Ok (utf8_encode [73; 228; 38; 0x20ac; 0x65e5; 0x672c; 10]).
Proof. split; [by concrete|]. apply (utf7_roundtrip _ []). by concrete. Defined.

(** ** UCS-2 *)

Lemma ucs2_value c :
  0 <= c < 65536 ->
  exists b0 b1, ucs2_bytes c = [b0; b1] /\ Z.lor (Z.shiftl b0 8) b1 = c /\ (b0 = 0 /\ b1 = 0 <-> c = 0).
Proof.
  intros Hc. unfold ucs2_bytes. rewrite u16_small by lia. rewrite Z.shiftr_div_pow2 by lia.
  exists (c / 256), (c mod 256). assert (u8 (c / 2 ^ 8) = c / 256) as ->.
  { apply u8_small. simpl. div_lia. }
  split; [done|]. rewrite (lor_add _ _ 8) by (simpl; div_lia). simpl. div_lia.
Qed.

Lemma ucs2_foreach cs work :
  foldM (fun c work => Ok (work ++ ucs2_bytes c)) cs work = Ok (work ++ concat (map ucs2_bytes cs)).
Proof.
  revert work. induction cs as [|c cs IH]; intros work; simpl; [by rewrite app_nil_r|].
  by rewrite IH, <- app_assoc.
Qed.

Lemma ucs2_loop cs rest work :
  Forall (fun c => 0 < c < 65536) cs ->
  ucs2_utf8_loop (concat (map ucs2_bytes cs) ++ 0 :: 0 :: rest) work = Ok (work ++ utf8_encode cs).
Proof.
  intros Hcs. revert work. induction Hcs as [|c cs Hc Hcs IH]; intros work.
  - simpl. by rewrite app_nil_r.
  - cbn [map concat]. destruct (ucs2_value c ltac:(lia)) as (b0 & b1 & Eb & Ev & Hz). rewrite Eb. cbn [app].
    cbn [ucs2_utf8_loop]. destruct ((b0 =? 0) && (b1 =? 0)) eqn:E0; [lia|].
    rewrite Ev, append_u_encode by lia. rewrite IH, <- app_assoc. done.
Qed.

Lemma ucs2_length cs : length (concat (map ucs2_bytes cs)) = (2 * length cs)%nat.
Proof. induction cs as [|c cs IH]; [done|]. cbn [map concat]. rewrite length_app, IH. simpl. lia. Qed.

(** A string of characters of the basic multilingual plane survives the conversion to
    UCS-2, two bytes for each character and two for the end, and back. *)
Theorem ucs2_roundtrip cs rest :
  Forall (fun c => 0 < c < 65536) cs ->
  exists u, camel_utf8_ucs2 (utf8_encode cs ++ 0 :: rest) = Ok u /\
    length u = (2 * length cs + 2)%nat /\
    forall rest, camel_ucs2_utf8 (u ++ rest) = Ok (utf8_encode cs).
Proof.
  intros Hcs.
  assert (Forall (fun c => 0 < c < 2 ^ 21) cs) as Hcs' by (eapply Forall_impl; [done|]; simpl; lia).
  eexists. split; [|split].
  - unfold camel_utf8_ucs2. rewrite utf8_foreach_encode; [|done|].
    + rewrite ucs2_foreach, res_bind_Ok. reflexivity.
    + rewrite length_app. simpl. pose proof (utf8_encode_length cs). lia.
  - rewrite !length_app. simpl. rewrite ucs2_length. lia.
  - intros rest'. rewrite <- app_assoc. unfold camel_ucs2_utf8. cbn [app].
    rewrite ucs2_loop, res_bind_Ok by done. cbn [app].
    rewrite c_string_id; [done|]. by apply utf8_encode_nonzero.
Qed.

Lemma ucs2_roundtrip_witness :
  Forall (fun c => 0 < c < 65536) [73; 228; 0x65e5] /\
  exists u, camel_utf8_ucs2 (utf8_encode [73; 228; 0x65e5] ++ [0]) = Ok u /\
    length u = 8%nat /\
    forall rest, camel_ucs2_utf8 (u ++ rest) = Ok (utf8_encode [73; 228; 0x65e5]).
Proof. split; [by concrete|]. apply (ucs2_roundtrip [73; 228; 0x65e5] []). by concrete. Defined.

(** ** Any string *)

(** A loop over the characters of a NUL-terminated string ends, if its body has an
    invariant with which it returns. *)
Lemma utf8_foreach_total {S} (body : Z -> S -> res S) (Inv : S -> Prop) fuel p s :
  (forall c s, Inv s -> exists s', body c s = Ok s' /\ Inv s') ->
  0 ∈ p -> (length p < fuel)%nat -> Inv s ->
  exists s', utf8_foreach body fuel p s = Ok s' /\ Inv s'.
Proof.
  intros Hbody. revert p s. induction fuel as [|fuel IH]; intros p s Hp Hf Hs; [lia|].
  cbn [utf8_foreach]. destruct (utf8_getc_string p Hp) as (c & q & -> & Hq & Hz).
  rewrite res_bind_Ok. destruct (Z.eqb_spec c 0); [by exists s|].
  destruct (Hbody c s Hs) as (s' & -> & Hs'). rewrite res_bind_Ok. apply IH; auto. lia.
Qed.

Lemma arr_get_alphabet x : 0 <= x < 64 -> exists c, arr_get utf7_alphabet x = Ok c.
Proof. intros Hx. exists (alph x). by destruct (alph_spec x Hx). Qed.

Lemma land_3f_range x : 0 <= Z.land x 0x3f < 64.
Proof. rewrite land_3f. apply Z.mod_pos_bound. lia. Qed.

Lemma sextets_total fuel out v i :
  0 <= i -> (Z.to_nat i < fuel)%nat ->
  exists out' i', utf7_sextets fuel out v i = Ok (out', i') /\ 0 <= i' < 6.
Proof.
  revert out i. induction fuel as [|fuel IH]; intros out i Hi Hf; [lia|]. cbn [utf7_sextets].
  destruct (Z.leb_spec 6 i); [|by exists out, i].
  destruct (arr_get_alphabet _ (land_3f_range (Z.shiftr v (i - 6)))) as [c ->].
  rewrite res_bind_Ok. apply IH; lia.
Qed.

Lemma closeb64_total out v i : 0 <= i < 6 -> exists out', utf7_closeb64 out v i = Ok out'.
Proof.
  intros Hi. unfold utf7_closeb64. destruct (0 <? i); [|by eexists].
  destruct (arr_get_alphabet _ (land_3f_range (u32 (Z.shiftl v (6 - i))))) as [c ->]. by eexists.
Qed.

Lemma enc_step_total c s :
  0 <= enc_i s < 6 -> exists s', utf7_enc_step c s = Ok s' /\ 0 <= enc_i s' < 6.
Proof.
  destruct s as [st v i out]. cbn [enc_i utf7_enc_step]. intros Hi.
  destruct ((0x20 <=? c) && (c <=? 0x7e)).
  - destruct (st =? 1); [|by eexists].
    destruct (closeb64_total out v i Hi) as [o ->]. by eexists.
  - destruct (st =? 0);
      match goal with |- context [utf7_sextets ?f ?o ?v ?i] =>
        destruct (sextets_total f o v i ltac:(lia) ltac:(lia)) as (o' & i' & -> & ?) end;
      by eexists.
Qed.

Lemma arr_get_rank c : byte_ok c -> exists r, arr_get utf7_rank c = Ok r.
Proof.
  intros Hc. unfold byte_ok in Hc. destruct (lookup_lt_is_Some_2 utf7_rank (Z.to_nat c)) as [r Hr].
  { change (length utf7_rank) with 256%nat. lia. }
  exists r. apply arr_get_Ok. split; [lia|done].
Qed.

Lemma dec_loop_total p s :
  0 ∈ p -> Forall byte_ok p -> is_Ok (utf7_dec_loop p s).
Proof.
  intros Hz Hp. revert s. induction Hp as [|c p Hc Hp IH]; intros s; [by apply elem_of_nil in Hz|].
  cbn [utf7_dec_loop].
  assert (exists s', utf7_dec_step c s = Ok s') as [s' ->].
  { destruct s as [st v i out]. unfold utf7_dec_step. destruct (arr_get_rank c Hc) as [r ->].
    rewrite !res_bind_Ok. cbv zeta.
    destruct (st =? 0); [destruct (c =? 38); by eexists|].
    destruct (st =? 1), (c =? 45), (negb (r =? 255)); try by eexists.
    destruct (16 <=? i + 6); by eexists. }
  rewrite res_bind_Ok. destruct (Z.eqb_spec c 0); [by eexists|].
  apply IH. by apply elem_of_cons in Hz as [?|?].
Qed.

(** The conversions are defined on every NUL-terminated string of bytes, well-formed
    UTF-8 or not: they end, read nothing after the terminator and index their
    tables in bounds. *)
Theorem utf7_conversions_total p :
  0 ∈ p -> Forall byte_ok p ->
  is_Ok (camel_utf8_utf7 p) /\ is_Ok (camel_utf7_utf8 p) /\ is_Ok (camel_utf8_ucs2 p).
Proof.
  intros Hz Hp. split; [|split].
  - unfold camel_utf8_utf7.
    destruct (utf8_foreach_total utf7_enc_step (fun s => 0 <= enc_i s < 6) (S (length p)) p
      (mkEnc 0 0 0 []) enc_step_total Hz) as (s & -> & Hs); [lia|simpl; lia|].
    rewrite res_bind_Ok. destruct (enc_state s =? 1); [|by eexists].
    destruct (closeb64_total (enc_out s) (enc_v s) (enc_i s) Hs) as [o ->]. by eexists.
  - unfold camel_utf7_utf8. destruct (dec_loop_total p (mkDec 0 0 0 []) Hz Hp) as [s ->]. by eexists.
  - unfold camel_utf8_ucs2.
    destruct (utf8_foreach_total (fun c work => Ok (work ++ ucs2_bytes c)) (fun _ => True)
      (S (length p)) p [] ltac:(by eauto) Hz) as (s & -> & _); [lia|done|]. by eexists.
Qed.

Lemma utf7_conversions_total_witness :
  let p := [0xff; 0xe2; 38; 0xf4; 0x8f; 0xbf; 0xbf; 0xc3; 0] in
  0 ∈ p /\ Forall byte_ok p /\
  is_Ok (camel_utf8_utf7 p) /\ is_Ok (camel_utf7_utf8 p) /\ is_Ok (camel_utf8_ucs2 p).
Proof.
  intros p. assert (0 ∈ p) as H0 by (unfold p; set_solver).
  assert (Forall byte_ok p) as Hp by by concrete.
  split; [exact H0|]. split; [exact Hp|]. apply (utf7_conversions_total p H0 Hp).
Defined.

(** The bytes 0x81 0x80, which no UTF-8 text begins with, are read as an at sign. *)
Example utf8_getc_stray : camel_utf8_getc [0x81; 0x80; 0] = Ok (64, [0]).
Proof. reflexivity. Qed.

(** A character that does not belong after an ampersand is lost. *)
Example utf7_invalid_lost : camel_utf7_utf8 [38; 33; 65; 0] = Ok [38; 45; 65].
Proof. reflexivity. Qed.
