(* ===== verification/Newsrc.v ===== *)
(** * Read articles of newsgroups ([camel-nntp-newsrc.c])

    [src/camel/providers/nntp/camel-nntp-newsrc.c]: for each newsgroup, whether it is
    subscribed and the ranges of article numbers that were read, and the file
    these are saved in.  The hash table of groups is a finite map from names (lists of
    bytes); [long] has 64 bits and [guint] 32; the lock is not modelled. *)

From S2P Require Import Prelude CString.
From stdpp Require Import gmap.
#[local] Open Scope Z_scope.

Record ArticleRange := mkRange { low : Z; high : Z }.

#[export] Instance ArticleRange_eq_dec : EqDecision ArticleRange.
Proof. solve_decision. Defined.

Record NewsrcGroup := mkGroup { ranges : list ArticleRange; subscribed : bool }.

Record CamelNNTPNewsrc := mkNewsrc { groups : gmap (list Z) NewsrcGroup; dirty : bool }.

Definition camel_nntp_newsrc_group_add (n : CamelNNTPNewsrc) (group_name : list Z)
    (subscribed : bool) : CamelNNTPNewsrc :=
  mkNewsrc (<[group_name := mkGroup [] subscribed]> (groups n)) true.

(** ** Ranges *)

(** The range that stands for no article at all in a group with no other. *)
Definition is_bogus (rs : list ArticleRange) : bool :=
  match rs with
  | [r] => (low r =? 0) && (high r =? 0)
  | _ => false
  end.

Definition camel_nntp_newsrc_group_get_highest_article_read (rs : list ArticleRange) : Z :=
  match last rs with
  | None => 0
  | Some r => s32 (high r)
  end.

Definition camel_nntp_newsrc_group_get_num_articles_read (rs : list ArticleRange) : Z :=
  foldl (fun count r => s32 (count + u32 (u32 (high r - low r) + 1))) 0 rs.

(** The loop over the ranges: the new ranges and whether they were changed; [low] and
    [high] are the bounds of the range to add. *)
Fixpoint mark_loop (rs : list ArticleRange) (low high : Z) : list ArticleRange * bool :=
  match rs with
  | [] => ([mkRange (u32 low) (u32 high)], true)
  | mkRange range_low range_high :: rs' =>
      if (range_low <=? low) && (low <=? range_high) &&
         (range_low <=? high) && (high <=? range_high) then (rs, false)
      else if (low <=? range_low) && (range_low <=? high) && (high <=? range_high) then
        (mkRange (u32 low) range_high :: rs', true)
      else if (range_high <=? high) && (range_low <=? low) && (low <=? range_high) then
        (mkRange range_low (u32 high) :: rs', true)
      else if low =? u32 (range_high + 1) then
        (mkRange range_low (u32 high) :: rs', true)
      else if high =? u32 (range_low - 1) then
        (mkRange (u32 low) range_high :: rs', true)
      else if (low <? range_low) && (high <? range_low) then
        (mkRange (u32 low) (u32 high) :: rs, true)
      else
        let '(rs', changed) := mark_loop rs' low high in
        (mkRange range_low range_high :: rs', changed)
  end.

Definition camel_nntp_newsrc_group_mark_range_read (rs : list ArticleRange) (low high : Z)
    : list ArticleRange * bool :=
  if is_bogus rs then ([mkRange (u32 low) (u32 high)], true)
  else mark_loop rs low high.

(** ** Operations *)

Definition camel_nntp_newsrc_get_highest_article_read (n : CamelNNTPNewsrc)
    (group_name : list Z) : Z :=
  match groups n !! group_name with
  | Some g => camel_nntp_newsrc_group_get_highest_article_read (ranges g)
  | None => 0
  end.

Definition camel_nntp_newsrc_get_num_articles_read (n : CamelNNTPNewsrc)
    (group_name : list Z) : Z :=
  match groups n !! group_name with
  | Some g => camel_nntp_newsrc_group_get_num_articles_read (ranges g)
  | None => 0
  end.

Definition camel_nntp_newsrc_mark_range_read (n : CamelNNTPNewsrc) (group_name : list Z)
    (low high : Z) : CamelNNTPNewsrc :=
  let '(low, high) := if high <? low then (high, low) else (low, high) in
  match groups n !! group_name with
  | Some g =>
      let '(rs, changed) := camel_nntp_newsrc_group_mark_range_read (ranges g) low high in
      mkNewsrc (<[group_name := mkGroup rs (subscribed g)]> (groups n))
        (if changed : bool then true else dirty n)
  | None => n
  end.

Definition camel_nntp_newsrc_mark_article_read (n : CamelNNTPNewsrc) (group_name : list Z)
    (num : Z) : CamelNNTPNewsrc :=
  camel_nntp_newsrc_mark_range_read n group_name num num.

(** The variable [ret] of [camel_nntp_newsrc_article_is_read] after its loop. *)
Definition article_is_read_ret (n : CamelNNTPNewsrc) (group_name : list Z) (num : Z) : bool :=
  match groups n !! group_name with
  | Some g => existsb (fun r => (low r <=? num) && (num <=? high r)) (ranges g)
  | None => false
  end.

(** The value returned. *)
Definition camel_nntp_newsrc_article_is_read (n : CamelNNTPNewsrc) (group_name : list Z)
    (num : Z) : bool :=
  let ret := article_is_read_ret n group_name num in
  false.

Definition camel_nntp_newsrc_group_is_subscribed (n : CamelNNTPNewsrc) (group_name : list Z)
    : bool :=
  match groups n !! group_name with
  | Some g => subscribed g
  | None => false
  end.

Definition camel_nntp_newsrc_subscribe_group (n : CamelNNTPNewsrc) (group_name : list Z)
    : CamelNNTPNewsrc :=
  match groups n !! group_name with
  | Some g =>
      mkNewsrc (<[group_name := mkGroup (ranges g) true]> (groups n))
        (if negb (subscribed g) then true else dirty n)
  | None => camel_nntp_newsrc_group_add n group_name true
  end.

Definition camel_nntp_newsrc_unsubscribe_group (n : CamelNNTPNewsrc) (group_name : list Z)
    : CamelNNTPNewsrc :=
  match groups n !! group_name with
  | Some g =>
      mkNewsrc (<[group_name := mkGroup (ranges g) false]> (groups n))
        (if subscribed g then true else dirty n)
  | None => camel_nntp_newsrc_group_add n group_name false
  end.

(** [g_hash_table_foreach] visits the entries [es] of the table in an order of its own. *)
Definition get_group_names (subscribed_only : bool) (es : list (list Z * NewsrcGroup))
    : list (list Z) :=
  omap (fun '(name, g) => if subscribed g || negb subscribed_only then Some name else None) es.

Definition camel_nntp_newsrc_get_subscribed_group_names := get_group_names true.
Definition camel_nntp_newsrc_get_all_group_names := get_group_names false.

(** ** Writing *)

(** [range_buffer]; [last] tells that there are no more ranges. *)
Definition write_range (r : ArticleRange) (last : bool) : list Z :=
  (if low r =? high r then fmt_d (low r)
   else if low r =? u32 (high r - 1) then fmt_d (low r) ++ [44] ++ fmt_d (high r)
   else fmt_d (low r) ++ [45] ++ fmt_d (high r))
  ++ (if last then [] else [44]).

Fixpoint write_ranges (rs : list ArticleRange) : list Z :=
  match rs with
  | [] => []
  | r :: rs => write_range r (bool_decide (rs = [])) ++ write_ranges rs
  end.

Definition camel_nntp_newsrc_write_group_line (e : list Z * NewsrcGroup) : list Z :=
  let '(name, group) := e in
  name ++ [if subscribed group then 58 else 33] ++
  (if is_bogus (ranges group) then [10]
   else [32] ++ write_ranges (ranges group) ++ [10]).

Definition camel_nntp_newsrc_write_to_file (es : list (list Z * NewsrcGroup)) : list Z :=
  concat (map camel_nntp_newsrc_write_group_line es).

(** What is written to the file, if it is; [can_open] tells whether opening it succeeds. *)
Definition camel_nntp_newsrc_write (can_open : bool) (n : CamelNNTPNewsrc)
    (es : list (list Z * NewsrcGroup)) : CamelNNTPNewsrc * option (list Z) :=
  if negb (dirty n) then (n, None)
  else if negb can_open then (n, None)
  else (mkNewsrc (groups n) false, Some (camel_nntp_newsrc_write_to_file es)).

(** ** Reading *)

(** [low] and [high] of the text between two commas. *)
Definition parse_range (p : list Z) : Z * Z :=
  match strchr 45 p with
  | None => (u32 (atol p), u32 (atol p))
  | Some (before, after) => (u32 (atol before), u32 (atol after))
  end.

(** [do ... while (comma)]; the text that is left is shorter in each round. *)
Fixpoint parse_ranges (fuel : nat) (p : list Z) (rs : list ArticleRange) : res (list ArticleRange) :=
  match fuel with
  | O => NoFuel
  | S fuel =>
      let '(seg, rest) := match strchr 44 p with
                          | Some (a, b) => (a, Some b)
                          | None => (p, None)
                          end in
      let '(low, high) := parse_range seg in
      let rs := fst (camel_nntp_newsrc_group_mark_range_read rs low high) in
      match rest with
      | Some p => parse_ranges fuel p rs
      | None => Ok rs
      end
  end.

Definition camel_nntp_newsrc_parse_line (n : CamelNNTPNewsrc) (line : list Z)
    : res CamelNNTPNewsrc :=
  match (match strchr 58 line with
         | Some (name, p) => Some (name, p, true)
         | None => match strchr 33 line with
                   | Some (name, p) => Some (name, p, false)
                   | None => None
                   end
         end) with
  | None => Ok n
  | Some (name, p, is_subscribed) =>
      let n := camel_nntp_newsrc_group_add n name is_subscribed in
      rs ← parse_ranges (S (length p)) p [];
      Ok (mkNewsrc (<[name := mkGroup rs is_subscribed]> (groups n)) true)
  end.

(** The line from [l] on, and [*p]: the newline, or the end. *)
Definition line_at (l : list Z) : list Z * list Z :=
  match strchr 10 l with
  | Some (line, rest) => (line, 10 :: rest)
  | None => (l, [])
  end.

(** [*p] is [None] for NULL, and what is left of the contents before their terminator. *)
Definition get_line (buf : list Z) (p : option (list Z)) : option (list Z * list Z) :=
  match p with
  | None => match buf with [] => None | _ => Some (line_at buf) end
  | Some [] => None
  | Some (_ :: l) => match l with [] => None | _ => Some (line_at l) end
  end.

(** [while ((line = get_line (file_contents, &p)))] *)
Fixpoint read_loop (fuel : nat) (buf : list Z) (p : option (list Z)) (n : CamelNNTPNewsrc)
    : res CamelNNTPNewsrc :=
  match fuel with
  | O => NoFuel
  | S fuel =>
      match get_line buf p with
      | None => Ok n
      | Some (line, p) =>
          n ← camel_nntp_newsrc_parse_line n line;
          read_loop fuel buf (Some p) n
      end
  end.

(** The table read from a file with these contents; no file is an empty table. *)
Definition camel_nntp_newsrc_read_for_server (file : option (list Z)) : res CamelNNTPNewsrc :=
  let n := mkNewsrc ∅ false in
  match file with
  | None => Ok n
  | Some contents =>
      let buf := c_string contents in
      read_loop (S (length buf)) buf None n
  end.
