(* ===== verification/NewsrcSpec.v ===== *)
(** * Read articles of newsgroups: theorems

    The ranges of a group stand for a set of article numbers; marking a range adds it
    to that set.  The counters are exact for ranges in order that do not overlap,
    which marking articles after all others keeps; examples show how they go wrong
    otherwise.  Writing the table and reading the file back gives the same groups. *)

From S2P Require Import Prelude Newsrc.
From stdpp Require Import gmap.
#[local] Open Scope Z_scope.

(** ** The set of articles *)

Definition covers (rs : list ArticleRange) (n : Z) : Prop :=
  Exists (fun r => low r <= n <= high r) rs.

(** The numbers from [lo] to [hi]. *)
Definition zrange (lo hi : Z) : gset Z := list_to_set (seqZ lo (hi - lo + 1)).

(** The abstract state of a group. *)
Definition articles (rs : list ArticleRange) : gset Z :=
  foldr (fun r s => zrange (low r) (high r) ∪ s) ∅ rs.

Lemma elem_of_zrange lo hi n : n ∈ zrange lo hi <-> lo <= n <= hi.
Proof. unfold zrange. rewrite elem_of_list_to_set, elem_of_seqZ. lia. Qed.

Lemma elem_of_articles rs n : n ∈ articles rs <-> covers rs n.
Proof.
  unfold covers. induction rs as [|r rs IH]; simpl.
  - rewrite Exists_nil. set_solver.
  - by rewrite elem_of_union, elem_of_zrange, Exists_cons, IH.
Qed.

Lemma covers_cons r rs n : covers (r :: rs) n <-> low r <= n <= high r \/ covers rs n.
Proof. apply Exists_cons. Qed.
Lemma covers_nil n : ~ covers [] n.
Proof. unfold covers. rewrite Exists_nil. tauto. Qed.

(** Article numbers below the last [guint], so that [range_high + 1] does not wrap. *)
Definition range_ok (r : ArticleRange) : Prop := 0 <= low r <= high r /\ high r < 2 ^ 32 - 1.
#[export] Instance range_ok_dec r : Decision (range_ok r).
Proof. unfold range_ok. apply _. Defined.

(** ** Marking *)

Lemma mark_loop_spec rs lo hi :
  Forall range_ok rs -> range_ok (mkRange lo hi) ->
  Forall range_ok (fst (mark_loop rs lo hi)) /\
  (forall n, covers (fst (mark_loop rs lo hi)) n <-> lo <= n <= hi \/ covers rs n) /\
  (snd (mark_loop rs lo hi) = false -> fst (mark_loop rs lo hi) = rs).
Proof.
  intros Hrs Hlh. pose proof Hlh as Hlh'. unfold range_ok in Hlh'. simpl in Hlh'.
  assert (forall r rs', Forall range_ok rs' -> range_ok r -> Forall range_ok (r :: rs')) as Hcons
    by (intros; by constructor).
  induction Hrs as [|[rl rh] rs Hr Hrs IH]; cbn [mark_loop]; rewrite !u32_small by lia.
  - cbn [fst snd]. split; [by apply Hcons; [apply Forall_nil_2|]|]. split; [|done]. intros n. by rewrite covers_cons.
  - pose proof Hr as Hr'. unfold range_ok in Hr'. simpl in Hr'. rewrite !u32_small by lia.
    assert ((hi =? u32 (rl - 1)) = (hi =? rl - 1)) as ->.
    { destruct (Z.eqb_spec rl 0) as [->|]; [|by rewrite u32_small by lia].
      change (u32 (0 - 1)) with (2 ^ 32 - 1). lia. }
    destruct (mark_loop rs lo hi) as [rs' changed]. cbn [fst snd] in IH. destruct IH as (IH1 & IH2 & IH3).
    repeat match goal with |- context [if ?b then _ else _] => destruct b eqn:? end; cbn [fst snd];
      (split; [|split]); try done; try (apply Hcons; [by try apply Hcons|unfold range_ok; simpl; lia]);
      try (intros n; rewrite !covers_cons; simpl; rewrite ?IH2; intuition lia).
    intros Hch. by rewrite IH3.
Qed.

Lemma group_mark_spec rs lo hi :
  Forall range_ok rs -> range_ok (mkRange lo hi) ->
  let '(rs', changed) := camel_nntp_newsrc_group_mark_range_read rs lo hi in
  Forall range_ok rs' /\
  articles rs' = zrange lo hi ∪ (if is_bogus rs then ∅ else articles rs) /\
  (changed = false -> rs' = rs).
Proof.
  intros Hrs Hlh. unfold camel_nntp_newsrc_group_mark_range_read.
  destruct (is_bogus rs).
  - unfold range_ok in Hlh. simpl in Hlh. rewrite !u32_small by lia.
    split; [|done]. by apply Forall_singleton.
  - pose proof (mark_loop_spec rs lo hi Hrs Hlh) as (H1 & H2 & H3).
    destruct (mark_loop rs lo hi) as [rs' changed]. cbn [fst snd] in *.
    split; [done|]. split; [|done]. apply set_eq. intros n.
    by rewrite elem_of_union, !elem_of_articles, elem_of_zrange, H2.
Qed.

(** The set of articles of a group; the range 0-0 of a group with no other stands for
    none. *)
Definition articles_read (rs : list ArticleRange) : gset Z :=
  if is_bogus rs then ∅ else articles rs.

Definition newsrc_ok (n : CamelNNTPNewsrc) : Prop :=
  map_Forall (fun _ g => Forall range_ok (ranges g)) (groups n).

(** C34: marking the articles between two numbers (in either order) as read adds exactly
    them to the set of articles of the group and changes neither its subscription
    nor another group; the table is marked as changed unless all of them
    were in one of its ranges; an unknown group changes nothing. *)
Theorem mark_range_read_adds n name a b :
  newsrc_ok n -> 0 < Z.max a b < 2 ^ 32 - 1 -> 0 <= Z.min a b ->
  let n' := camel_nntp_newsrc_mark_range_read n name a b in
  newsrc_ok n' /\
  (forall other, other <> name -> groups n' !! other = groups n !! other) /\
  match groups n !! name with
  | None => n' = n
  | Some g =>
      exists g', groups n' !! name = Some g' /\ subscribed g' = subscribed g /\
        articles_read (ranges g') = zrange (Z.min a b) (Z.max a b) ∪ articles_read (ranges g) /\
        (dirty n' = false -> dirty n = false /\ groups n' = groups n)
  end.
Proof.
  intros Hn Hmax Hmin. unfold camel_nntp_newsrc_mark_range_read.
  assert ((if b <? a then (b, a) else (a, b)) = (Z.min a b, Z.max a b)) as ->.
  { destruct (Z.ltb_spec b a); f_equal; lia. }
  set (lo := Z.min a b) in *. set (hi := Z.max a b) in *.
  destruct (groups n !! name) as [g|] eqn:Eg; [|done].
  pose proof (map_Forall_lookup_1 _ _ _ _ Hn Eg) as Hg. simpl in Hg.
  assert (range_ok (mkRange lo hi)) as Hr by (unfold range_ok; simpl; lia).
  pose proof (group_mark_spec (ranges g) lo hi Hg Hr) as Hspec.
  destruct (camel_nntp_newsrc_group_mark_range_read (ranges g) lo hi) as [rs changed].
  destruct Hspec as (Hok & Hart & Hsame). cbn [groups dirty].
  split; [by apply map_Forall_insert_2|].
  split; [by intros; apply lookup_insert_ne|].
  eexists. split; [apply lookup_insert_eq|]. split; [done|]. cbn [ranges]. split.
  - unfold articles_read at 1. rewrite Hart. destruct (is_bogus rs) eqn:Eb; [|done].
    exfalso. destruct rs as [|[l h] [|]]; simpl in Eb; try done.
    assert (hi ∈ articles [mkRange l h]) as Hin.
    { rewrite Hart, elem_of_union, elem_of_zrange. lia. }
    apply elem_of_articles, covers_cons in Hin as [Hin|Hin]; [simpl in Hin; lia|by apply covers_nil in Hin].
  - destruct changed; [done|]. intros Hd. split; [done|]. rewrite Hsame by done.
    destruct g. by apply insert_id.
Qed.

Lemma mark_range_read_adds_witness :
  let n := mkNewsrc {[ [99] := mkGroup [mkRange 1 3; mkRange 10 12] true ]} false in
  newsrc_ok n /\ 0 < Z.max 11 2 < 2 ^ 32 - 1 /\ 0 <= Z.min 11 2 /\
  exists g', groups (camel_nntp_newsrc_mark_range_read n [99] 11 2) !! [99] = Some g' /\
    articles_read (ranges g') =
      zrange (Z.min 11 2) (Z.max 11 2) ∪ articles_read [mkRange 1 3; mkRange 10 12].
Proof.
  intros n.
  assert (newsrc_ok n) as Hn.
  { apply map_Forall_singleton. repeat constructor; simpl; lia. }
  split; [exact Hn|]. split; [lia|]. split; [lia|].
  destruct (mark_range_read_adds n [99] 11 2 Hn ltac:(lia) ltac:(lia)) as (_ & _ & H).
  change (groups n !! [99]) with (Some (mkGroup [mkRange 1 3; mkRange 10 12] true)) in H.
  destruct H as (g' & Hg & _ & Ha & _). by exists g'.
Defined.

(** ** The counters *)

(** Ranges in order with a gap between them. *)
Definition separated (rs : list ArticleRange) : Prop :=
  StronglySorted (fun a b => high a + 1 < low b) rs /\
  Forall (fun r => 1 <= low r <= high r) rs.

(** All articles of the ranges lie below [n]. *)
Definition all_below (rs : list ArticleRange) (n : Z) : Prop :=
  Forall (fun r => 1 <= low r <= high r /\ high r < n) rs.

Lemma all_below_mono rs a b : all_below rs a -> a <= b -> all_below rs b.
Proof. intros H ?. eapply Forall_impl; [exact H|]. simpl. lia. Qed.

Lemma mark_loop_above rs lo hi :
  all_below rs (lo - 1) -> 1 <= lo <= hi -> hi < 2 ^ 32 ->
  mark_loop rs lo hi = (rs ++ [mkRange lo hi], true).
Proof.
  intros Hrs Hlo Hhi. induction Hrs as [|[rl rh] rs Hr Hrs IH]; cbn [mark_loop app].
  - by rewrite !u32_small by lia.
  - simpl in Hr. rewrite IH, !u32_small by lia.
    repeat match goal with |- context [if ?b then _ else _] => destruct b eqn:?; [lia|] end. done.
Qed.

Lemma mark_loop_extend rs rl lo hi :
  all_below rs (lo - 1) -> 1 <= rl < lo -> lo <= hi -> hi < 2 ^ 32 ->
  mark_loop (rs ++ [mkRange rl (lo - 1)]) lo hi = (rs ++ [mkRange rl hi], true).
Proof.
  intros Hrs Hrl Hlo Hhi. induction Hrs as [|[l h] rs Hr Hrs IH]; cbn [mark_loop app].
  - rewrite !u32_small by lia.
    repeat match goal with |- context [if ?b then _ else _] => destruct b eqn:?; [lia|] end.
    by destruct (Z.eqb_spec lo (lo - 1 + 1)); [|lia].
  - simpl in Hr. rewrite IH, !u32_small by lia.
    repeat match goal with |- context [if ?b then _ else _] => destruct b eqn:?; [lia|] end. done.
Qed.

Lemma is_bogus_below rs n : all_below rs n -> is_bogus rs = false.
Proof.
  intros [|r rs' Hr [|]]; simpl; try done. destruct (Z.eqb_spec (low r) 0); [lia|done].
Qed.

Lemma separated_nil : separated [].
Proof. split; [constructor|done]. Qed.

Lemma separated_snoc rs r :
  separated (rs ++ [r]) <-> separated rs /\ all_below rs (low r - 1) /\ 1 <= low r <= high r.
Proof.
  unfold separated, all_below. rewrite StronglySorted_app, Forall_app, Forall_singleton, !Forall_forall.
  assert (StronglySorted (fun a b => high a + 1 < low b) [r]) by by repeat constructor.
  split.
  - intros [(Hx & Hs & _) [Hf Hr]]. split; [done|]. split; [|done]. intros x Hin.
    specialize (Hx x r Hin ltac:(by apply list_elem_of_singleton)). specialize (Hf x Hin). lia.
  - intros ((Hs & Hf) & Hb & Hr). split; [|done]. split; [|done].
    intros x y Hin ->%list_elem_of_singleton. specialize (Hb x Hin). lia.
Qed.

Lemma all_below_snoc rs r n :
  all_below (rs ++ [r]) n <-> all_below rs n /\ 1 <= low r <= high r /\ high r < n.
Proof. unfold all_below. by rewrite Forall_app, Forall_singleton. Qed.

(** Marking a range above all others. *)
Lemma mark_above rs lo hi :
  separated rs -> all_below rs lo -> 1 <= lo <= hi -> hi < 2 ^ 32 ->
  exists rs', camel_nntp_newsrc_group_mark_range_read rs lo hi = (rs', true) /\
    separated rs' /\ all_below rs' (hi + 1) /\ high <$> last rs' = Some hi.
Proof.
  intros Hs Hb Hlo Hhi. unfold camel_nntp_newsrc_group_mark_range_read.
  rewrite (is_bogus_below _ _ Hb).
  assert (forall rs rl, separated rs -> all_below rs (rl - 1) -> 1 <= rl <= hi ->
    let rs' := rs ++ [mkRange rl hi] in
    separated rs' /\ all_below rs' (hi + 1) /\ high <$> last rs' = Some hi) as Hend.
  { intros rs0 rl Hs0 Hb0 Hrl rs'. unfold rs'.
    rewrite separated_snoc, all_below_snoc, last_snoc. simpl.
    split; [done|]. split; [|done]. split; [eapply all_below_mono; [done|lia]|lia]. }
  destruct rs as [|[rl rh] rs0 _] using rev_ind.
  - rewrite mark_loop_above by (try done; apply Forall_nil_2). eexists. split; [done|].
    apply (Hend [] lo); [apply separated_nil|apply Forall_nil_2|lia].
  - apply separated_snoc in Hs as Hs'. destruct Hs' as (Hs0 & Hb0 & Hr).
    apply all_below_snoc in Hb as (Hb1 & _ & Hrh). simpl in *.
    destruct (Z.eq_dec rh (lo - 1)) as [->|Hne].
    + rewrite mark_loop_extend by first [lia|eapply all_below_mono; [done|lia]].
      eexists. split; [done|]. apply (Hend rs0 rl); [done..|lia].
    + assert (all_below (rs0 ++ [mkRange rl rh]) (lo - 1)) as Hb2.
      { apply all_below_snoc. simpl. split; [eapply all_below_mono; [done|lia]|lia]. }
      rewrite mark_loop_above by done. eexists. split; [done|]. by apply Hend.
Qed.

(** *** Exactness *)

Lemma zrange_size lo hi : lo <= hi + 1 -> Z.of_nat (size (zrange lo hi)) = hi - lo + 1.
Proof.
  intros H. unfold zrange. rewrite size_list_to_set by apply NoDup_seqZ.
  rewrite length_seqZ. lia.
Qed.

Lemma articles_snoc rs r : articles (rs ++ [r]) = articles rs ∪ zrange (low r) (high r).
Proof.
  apply set_eq. intros n. rewrite elem_of_union, !elem_of_articles, elem_of_zrange.
  unfold covers. rewrite Exists_app, Exists_cons, Exists_nil. tauto.
Qed.

Lemma articles_below rs n : all_below rs n -> forall k, k ∈ articles rs -> 1 <= k < n.
Proof.
  intros Hb k Hk%elem_of_articles. unfold covers in Hk. apply Exists_exists in Hk as (r & Hr & Hk).
  unfold all_below in Hb. rewrite Forall_forall in Hb. specialize (Hb r Hr). lia.
Qed.

(** For separated ranges, the counter is the number of articles and the highest article
    read is the largest of them. *)
Lemma counters_exact rs :
  separated rs -> all_below rs (2 ^ 31 - 1) ->
  camel_nntp_newsrc_group_get_num_articles_read rs = Z.of_nat (size (articles rs)) /\
  0 <= camel_nntp_newsrc_group_get_num_articles_read rs <=
    camel_nntp_newsrc_group_get_highest_article_read rs /\
  (rs <> [] -> camel_nntp_newsrc_group_get_highest_article_read rs ∈ articles rs) /\
  all_below rs (camel_nntp_newsrc_group_get_highest_article_read rs + 1).
Proof.
  unfold camel_nntp_newsrc_group_get_num_articles_read, camel_nntp_newsrc_group_get_highest_article_read.
  induction rs as [|r rs IH] using rev_ind; intros Hs Hb.
  - simpl. split; [done|]. split; [lia|]. split; [done|apply Forall_nil_2].
  - apply separated_snoc in Hs as (Hs0 & Hb0 & Hr). apply all_below_snoc in Hb as (Hb1 & _ & Hrh).
    destruct (IH Hs0 Hb1) as (E & Hle & _ & _). clear IH.
    rewrite foldl_app, last_snoc. cbn [foldl]. rewrite E.
    rewrite articles_snoc, size_union.
    2:{ intros k Hk Hk2%elem_of_zrange. pose proof (articles_below _ _ Hb0 k Hk). lia. }
    assert (Z.of_nat (size (articles rs)) <= low r - 1) as Hlow.
    { rewrite <- E. destruct rs as [|r0 rs0 _] using rev_ind; [simpl in *; lia|].
      rewrite last_snoc in Hle. apply all_below_snoc in Hb0 as (_ & ? & ?).
      rewrite (s32_small (high r0)) in Hle by lia. lia. }
    pose proof (zrange_size (low r) (high r) ltac:(lia)) as Hz. rewrite Nat2Z.inj_add.
    rewrite (u32_small (high r - low r)), u32_small by lia. rewrite !s32_small by lia.
    split; [lia|]. split; [lia|]. split.
    + intros _. apply elem_of_union_r, elem_of_zrange. lia.
    + apply all_below_snoc. split; [eapply all_below_mono; [exact Hb0|lia]|lia].
Qed.

(** *** Marking in ascending order *)

Definition mark_all (rs : list ArticleRange) (l : list (Z * Z)) : list ArticleRange :=
  foldl (fun rs '(lo, hi) => fst (camel_nntp_newsrc_group_mark_range_read rs lo hi)) rs l.

(** Ranges one after the other, from [k] on. *)
Fixpoint ascending (k : Z) (l : list (Z * Z)) : Prop :=
  match l with
  | [] => True
  | (lo, hi) :: l => k <= lo <= hi /\ ascending (hi + 1) l
  end.

Definition marked (l : list (Z * Z)) : gset Z :=
  foldr (fun '(lo, hi) s => zrange lo hi ∪ s) ∅ l.

Lemma mark_above_articles rs lo hi :
  separated rs -> all_below rs lo -> 1 <= lo <= hi -> hi < 2 ^ 32 - 1 ->
  let rs' := fst (camel_nntp_newsrc_group_mark_range_read rs lo hi) in
  separated rs' /\ all_below rs' (hi + 1) /\ high <$> last rs' = Some hi /\
  articles rs' = zrange lo hi ∪ articles rs.
Proof.
  intros Hs Hb Hlo Hhi.
  destruct (mark_above rs lo hi Hs Hb Hlo ltac:(lia)) as (rs' & E & H1 & H2 & H3).
  assert (Forall range_ok rs) as Hok.
  { eapply Forall_impl; [exact Hb|]. unfold range_ok. simpl. lia. }
  pose proof (group_mark_spec rs lo hi Hok) as Hg. rewrite E, (is_bogus_below _ _ Hb) in Hg.
  destruct Hg as (_ & Hg & _); [unfold range_ok; simpl; lia|]. rewrite E. done.
Qed.

Lemma mark_all_ascending rs k l :
  separated rs -> all_below rs k -> 1 <= k -> ascending k l ->
  Forall (fun r => r.2 < 2 ^ 31 - 1) l ->
  separated (mark_all rs l) /\
  articles (mark_all rs l) = articles rs ∪ marked l /\
  high <$> last (mark_all rs l) =
    match last l with Some r => Some r.2 | None => high <$> last rs end /\
  all_below (mark_all rs l) (match last l with Some r => r.2 + 1 | None => k end).
Proof.
  revert rs k. induction l as [|[lo hi] l IH]; intros rs k Hs Hb Hk Hl Hf.
  - simpl. split; [done|]. by rewrite (right_id_L ∅ (∪)).
  - destruct Hl as [Hlo Hl]. apply Forall_cons in Hf as [Hhi Hf]. simpl in Hhi.
    destruct (mark_above_articles rs lo hi Hs) as (H1 & H2 & H3 & H4);
      [eapply all_below_mono; [done|lia]|lia..|].
    destruct (IH _ (hi + 1) H1 H2 ltac:(lia) Hl Hf) as (I1 & I2 & I3 & I4). simpl.
    split; [done|]. split; [by rewrite I2, H4, (assoc_L (∪)), (comm_L (∪) (articles rs))|].
    rewrite H3 in I3.
    destruct l as [|r l]; [done|]. change (last ((lo, hi) :: r :: l)) with (last (r :: l)).
    destruct (last (r :: l)) eqn:El; [done|]. by apply last_None in El.
Qed.

Lemma marked_size k l :
  ascending k l ->
  Z.of_nat (size (marked l)) = foldr (fun '(lo, hi) n => hi - lo + 1 + n) 0 l /\
  forall n, n ∈ marked l -> k <= n.
Proof.
  revert k. induction l as [|[lo hi] l IH]; intros k Hl; simpl; [by split; [|intros n ?%elem_of_empty]|].
  destruct Hl as [Hlo Hl]. destruct (IH _ Hl) as [IH1 IH2]. split.
  - rewrite size_union, Nat2Z.inj_add, zrange_size, IH1 by
      first [lia|intros n ?%elem_of_zrange ?%IH2; lia]. lia.
  - intros n [?%elem_of_zrange|?%IH2]%elem_of_union; lia.
Qed.

(** Marking ranges of articles in ascending order, as a reader of the group does, the
    number of articles read is the sum of their lengths and the highest article
    read is the end of the last one. *)
Theorem counters_of_ascending_marks l :
  ascending 1 l -> Forall (fun r => r.2 < 2 ^ 31 - 1) l ->
  let rs := mark_all [] l in
  articles rs = marked l /\
  camel_nntp_newsrc_group_get_num_articles_read rs =
    foldr (fun '(lo, hi) n => hi - lo + 1 + n) 0 l /\
  camel_nntp_newsrc_group_get_highest_article_read rs =
    match last l with Some r => r.2 | None => 0 end.
Proof.
  intros Hl Hf rs.
  destruct (mark_all_ascending [] 1 l separated_nil ltac:(apply Forall_nil_2) ltac:(lia) Hl Hf)
    as (Hs & Ha & Hlast & Hb).
  fold rs in Hs, Ha, Hlast, Hb. simpl in Ha. rewrite (left_id_L ∅ (∪)) in Ha.
  assert (all_below rs (2 ^ 31 - 1)) as Hb'.
  { eapply all_below_mono; [done|]. destruct (last l) as [r|] eqn:El; [|lia].
    apply last_Some_elem_of in El. rewrite Forall_forall in Hf. specialize (Hf r El). lia. }
  destruct (counters_exact rs Hs Hb') as (E1 & _). split; [done|]. split.
  - rewrite E1, Ha. by apply (marked_size 1 l).
  - unfold camel_nntp_newsrc_group_get_highest_article_read.
    destruct (last rs) as [r|] eqn:Er, (last l) as [[lo hi]|] eqn:El; simplify_eq/=; [|done].
    apply last_Some_elem_of in El. rewrite Forall_forall in Hf. specialize (Hf _ El). simpl in Hf.
    apply last_Some_elem_of in Er. unfold all_below in Hb. rewrite Forall_forall in Hb.
    specialize (Hb r Er). apply s32_small. lia.
Qed.

Lemma counters_of_ascending_marks_witness :
  let l := [(1, 3); (4, 4); (10, 12)] in
  ascending 1 l /\ Forall (fun r => r.2 < 2 ^ 31 - 1) l /\
  articles (mark_all [] l) = marked l /\
  camel_nntp_newsrc_group_get_num_articles_read (mark_all [] l) = 7 /\
  camel_nntp_newsrc_group_get_highest_article_read (mark_all [] l) = 12.
Proof.
  intros l. assert (ascending 1 l) as H1 by (simpl; lia).
  assert (Forall (fun r => r.2 < 2 ^ 31 - 1) l) as H2 by (repeat constructor; simpl; lia).
  split; [exact H1|]. split; [exact H2|]. apply (counters_of_ascending_marks l H1 H2).
Defined.

(** Out of order, ranges come to overlap: articles 1 to 3 and 5 to 7 and then 4, 5, ..., 8
    are 8 articles up to 8, but the counters say 11 and 7. *)
Example counters_out_of_order :
  let rs := mark_all [] [(1, 3); (5, 7); (4, 4); (5, 5); (6, 6); (7, 7); (8, 8)] in
  rs = [mkRange 1 8; mkRange 5 7] /\
  camel_nntp_newsrc_group_get_num_articles_read rs = 11 /\
  camel_nntp_newsrc_group_get_highest_article_read rs = 7.
Proof. vm_compute. done. Qed.

(** Whether an article was read is computed and not returned. *)
Example article_is_read_false :
  let n := mkNewsrc {[ [99] := mkGroup [mkRange 1 3] true ]} false in
  article_is_read_ret n [99] 2 = true /\ camel_nntp_newsrc_article_is_read n [99] 2 = false.
Proof. vm_compute. done. Qed.
