(* ===== verification/NewsrcFileSpec.v ===== *)
(** * The newsrc file: theorems

    Numbers are read back from their decimal digits, the ranges of a group from their
    text, a group from its line and the table from the file. *)

From S2P Require Import Prelude CString Newsrc NewsrcSpec.
From stdpp Require Import gmap.
#[local] Open Scope Z_scope.

(** ** Splitting *)

Lemma digits_avoid c l : ~ digit c -> Forall digit l -> c ∉ l.
Proof. intros Hc Hl Hin. rewrite Forall_forall in Hl. by apply Hl in Hin. Qed.

(** The texts between the commas that a range is written as. *)
Definition segments (r : ArticleRange) : list (list Z) :=
  if low r =? high r then [fmt_d (low r)]
  else if low r =? u32 (high r - 1) then [fmt_d (low r); fmt_d (high r)]
  else [fmt_d (low r) ++ 45 :: fmt_d (high r)].

Fixpoint join (segs : list (list Z)) : list Z :=
  match segs with
  | [] => []
  | s :: segs => match segs with [] => s | _ => s ++ 44 :: join segs end
  end.

Lemma join_app s t : s <> [] -> t <> [] -> join (s ++ t) = join s ++ 44 :: join t.
Proof.
  intros Hs Ht. induction s as [|a s IH]; [done|]. destruct s as [|b s].
  - simpl. by destruct t.
  - change (join ((a :: b :: s) ++ t)) with (a ++ 44 :: join ((b :: s) ++ t)).
    rewrite IH by done. change (join (a :: b :: s)) with (a ++ 44 :: join (b :: s)).
    by rewrite <- app_assoc.
Qed.

Lemma segments_nonempty r : segments r <> [].
Proof. unfold segments. by repeat case_match. Qed.

Lemma write_range_join r last :
  write_range r last = join (segments r) ++ (if last then [] else [44]).
Proof. unfold write_range, segments. by repeat case_match. Qed.

Lemma write_ranges_join rs : write_ranges rs = join (concat (map segments rs)).
Proof.
  induction rs as [|r rs IH]; [done|]. cbn [write_ranges map concat].
  rewrite write_range_join, IH. destruct rs as [|r' rs].
  - simpl. by rewrite !app_nil_r.
  - rewrite join_app; [by rewrite <- app_assoc|apply segments_nonempty|].
    cbn [map concat]. pose proof (segments_nonempty r'). by destruct (segments r').
Qed.

(** ** Ranges *)

(** Ranges that can be written: separated, or the one of a group without articles, with
    numbers below 2^31. *)
Definition ranges_ok (rs : list ArticleRange) : Prop :=
  rs = [mkRange 0 0] \/ separated rs /\ all_below rs (2 ^ 31).

Definition mark_segment (rs : list ArticleRange) (seg : list Z) : list ArticleRange :=
  fst (camel_nntp_newsrc_group_mark_range_read rs (fst (parse_range seg)) (snd (parse_range seg))).

Lemma parse_ranges_join fuel segs rs :
  Forall (fun s => 44 ∉ s) segs -> segs <> [] -> (length segs <= fuel)%nat ->
  parse_ranges fuel (join segs) rs = Ok (foldl mark_segment rs segs).
Proof.
  intros Hsegs Hne. revert fuel rs.
  induction Hsegs as [|s segs Hs Hsegs IH]; intros [|fuel] rs Hf; simpl in Hf; try done; [lia|].
  destruct segs as [|s' segs].
  - cbn [parse_ranges join foldl]. rewrite strchr_none by done. unfold mark_segment.
    by destruct (parse_range s).
  - change (join (s :: s' :: segs)) with (s ++ 44 :: join (s' :: segs)).
    cbn [parse_ranges]. rewrite strchr_app by done.
    change (foldl mark_segment rs (s :: s' :: segs)) with
      (foldl mark_segment (mark_segment rs s) (s' :: segs)).
    rewrite <- (IH ltac:(done) fuel) by lia. unfold mark_segment. by destruct (parse_range s).
Qed.

Lemma parse_range_number n : 0 <= n < 2 ^ 31 -> parse_range (fmt_d n) = (n, n).
Proof.
  intros Hn. unfold parse_range. destruct (fmt_d_digits n Hn) as [Hd _].
  rewrite strchr_none by (eapply digits_avoid; [|done]; unfold digit; lia).
  rewrite <- (app_nil_r (fmt_d n)), atol_fmt_d by done. by rewrite u32_small by lia.
Qed.

Lemma parse_range_dash a b :
  0 <= a < 2 ^ 31 -> 0 <= b < 2 ^ 31 -> parse_range (fmt_d a ++ 45 :: fmt_d b) = (a, b).
Proof.
  intros Ha Hb. unfold parse_range. destruct (fmt_d_digits a Ha) as [Hd _].
  rewrite strchr_app by (eapply digits_avoid; [|done]; unfold digit; lia).
  rewrite <- (app_nil_r (fmt_d a)), <- (app_nil_r (fmt_d b)), !atol_fmt_d by done.
  by rewrite !u32_small by lia.
Qed.

(** Marking what a range is written as, after the ranges before it. *)
Lemma mark_segments rs r :
  separated (rs ++ [r]) -> all_below (rs ++ [r]) (2 ^ 31) ->
  foldl mark_segment rs (segments r) = rs ++ [r].
Proof.
  rewrite separated_snoc, all_below_snoc. destruct r as [lo hi]. simpl.
  intros (Hs & Hb & Hr) (_ & _ & Hhi). unfold segments. simpl.
  pose proof (is_bogus_below _ _ Hb) as Hbog.
  rewrite (u32_small (hi - 1)) by lia.
  destruct (Z.eqb_spec lo hi) as [<-|Hne]; [|destruct (Z.eqb_spec lo (hi - 1)) as [->|Hne2]];
    cbn [foldl]; unfold mark_segment.
  - rewrite parse_range_number by lia. unfold camel_nntp_newsrc_group_mark_range_read.
    simpl. by rewrite Hbog, mark_loop_above by (done || lia).
  - rewrite !parse_range_number by lia. unfold camel_nntp_newsrc_group_mark_range_read. cbn [fst snd].
    rewrite Hbog, mark_loop_above by (done || lia). cbn [fst].
    assert (all_below (rs ++ [mkRange (hi - 1) (hi - 1)]) hi) as Hb2.
    { apply all_below_snoc. simpl. split; [eapply all_below_mono; [done|lia]|lia]. }
    rewrite (is_bogus_below _ _ Hb2), mark_loop_extend; [done|..|lia|lia|lia].
    eapply all_below_mono; [done|lia].
  - rewrite parse_range_dash by lia. unfold camel_nntp_newsrc_group_mark_range_read. cbn [fst snd].
    by rewrite Hbog, mark_loop_above by (done || lia).
Qed.

Lemma mark_all_segments rs :
  separated rs -> all_below rs (2 ^ 31) ->
  foldl mark_segment [] (concat (map segments rs)) = rs.
Proof.
  induction rs as [|r rs IH] using rev_ind; intros Hs Hb; [done|].
  pose proof (proj1 (separated_snoc _ _) Hs) as (Hs0 & _).
  pose proof (proj1 (all_below_snoc _ _ _) Hb) as (Hb0 & _).
  rewrite map_app, concat_app, foldl_app, IH by done. simpl. rewrite app_nil_r.
  by apply mark_segments.
Qed.

(** The characters of ranges. *)
Definition range_char (c : Z) : Prop := digit c \/ c = 44 \/ c = 45.

Lemma segments_chars r :
  1 <= low r <= high r /\ high r < 2 ^ 31 ->
  Forall (fun s => (44 ∉ s) /\ Forall range_char s) (segments r).
Proof.
  intros Hr.
  assert (forall n, 0 <= n < 2 ^ 31 -> (44 ∉ fmt_d n) /\ Forall range_char (fmt_d n)) as Hn.
  { intros n Hn. destruct (fmt_d_digits n Hn) as [Hd _].
    split; [eapply digits_avoid; [|done]; unfold digit; lia|].
    eapply Forall_impl; [done|]. by left. }
  destruct (Hn (low r)) as [H1 H2]; [lia|]. destruct (Hn (high r)) as [H3 H4]; [lia|].
  unfold segments. repeat case_match; repeat (apply Forall_cons; split); try done.
  - rewrite elem_of_app, elem_of_cons. split; [by intros [?|[[=]|?]]|].
    apply Forall_app. split; [done|]. constructor; [right; by right|done].
Qed.

Lemma join_chars (P : Z -> Prop) segs :
  P 44 -> Forall (Forall P) segs -> Forall P (join segs).
Proof.
  intros HP. induction 1 as [|s segs Hs Hsegs IH]; [constructor|].
  destruct segs as [|s' segs]; [done|].
  change (join (s :: s' :: segs)) with (s ++ 44 :: join (s' :: segs)).
  apply Forall_app. split; [done|]. by constructor.
Qed.

Lemma all_segments_chars rs :
  all_below rs (2 ^ 31) ->
  Forall (fun s => (44 ∉ s) /\ Forall range_char s) (concat (map segments rs)).
Proof.
  induction 1 as [|r rs Hr Hrs IH]; [constructor|]. cbn [map concat].
  apply Forall_app. split; [by apply segments_chars|done].
Qed.

Lemma write_ranges_chars rs : all_below rs (2 ^ 31) -> Forall range_char (write_ranges rs).
Proof.
  intros Hb. rewrite write_ranges_join. apply join_chars; [by right; left|].
  eapply Forall_impl; [by apply all_segments_chars|]. by intros s [_ ?].
Qed.

Lemma join_length segs : (length segs <= S (length (join segs)))%nat.
Proof.
  induction segs as [|s segs IH]; [simpl; lia|]. destruct segs as [|s' segs]; [simpl; lia|].
  change (join (s :: s' :: segs)) with (s ++ 44 :: join (s' :: segs)).
  rewrite length_app. simpl in *. lia.
Qed.

Lemma parse_range_blank s : parse_range (32 :: s) = parse_range s.
Proof. unfold parse_range. simpl. by destruct (strchr 45 s) as [[]|]. Qed.

Lemma parse_ranges_blank fuel p rs : parse_ranges fuel (32 :: p) rs = parse_ranges fuel p rs.
Proof.
  destruct fuel as [|fuel]; [done|]. cbn [parse_ranges]. simpl (strchr 44 (32 :: p)).
  destruct (strchr 44 p) as [[a b]|]; by rewrite parse_range_blank.
Qed.

(** The ranges read from what is written after the colon. *)
Definition normal (rs : list ArticleRange) : list ArticleRange :=
  match rs with [] => [mkRange 0 0] | _ => rs end.

Definition ranges_text (rs : list ArticleRange) : list Z :=
  if is_bogus rs then [] else 32 :: write_ranges rs.

Lemma parse_ranges_text rs :
  ranges_ok rs ->
  parse_ranges (S (length (ranges_text rs))) (ranges_text rs) [] = Ok (normal rs).
Proof.
  intros [->|[Hs Hb]]; [done|]. unfold ranges_text. rewrite (is_bogus_below _ _ Hb).
  rewrite parse_ranges_blank. destruct rs as [|r rs]; [done|].
  pose proof (segments_nonempty r) as Hr. rewrite write_ranges_join, parse_ranges_join.
  - by rewrite mark_all_segments.
  - eapply Forall_impl; [by apply all_segments_chars|]. by intros s [? _].
  - cbn [map concat]. by destruct (segments r).
  - cbn [length]. pose proof (join_length (concat (map segments (r :: rs)))). lia.
Qed.

(** ** Lines *)

(** Names of groups have no colon, exclamation mark, newline or NUL. *)
Definition name_ok (name : list Z) : Prop := Forall (fun c => c ∉ [58; 33; 10; 0]) name.
#[export] Instance name_ok_dec name : Decision (name_ok name).
Proof. unfold name_ok. apply _. Defined.

Definition group_text (e : list Z * NewsrcGroup) : list Z :=
  e.1 ++ (if subscribed e.2 then 58 else 33) :: ranges_text (ranges e.2).

Lemma write_group_line_text e : camel_nntp_newsrc_write_group_line e = group_text e ++ [10].
Proof.
  destruct e as [name g]. unfold camel_nntp_newsrc_write_group_line, group_text, ranges_text.
  simpl. rewrite <- app_assoc. by destruct (is_bogus (ranges g)).
Qed.

Lemma ranges_text_chars rs c :
  ranges_ok rs -> c <> 32 -> ~ range_char c -> c ∉ ranges_text rs.
Proof.
  intros [->|[Hs Hb]] H32 Hc; [apply not_elem_of_nil|]. unfold ranges_text.
  rewrite (is_bogus_below _ _ Hb). intros [?|Hin]%elem_of_cons; [done|].
  pose proof (write_ranges_chars rs Hb) as Hf. rewrite Forall_forall in Hf. by apply Hf in Hin.
Qed.

Lemma name_ok_avoid name c : name_ok name -> c ∈ [58; 33; 10; 0] -> c ∉ name.
Proof. intros Hn Hc Hin. unfold name_ok in Hn. rewrite Forall_forall in Hn. by apply (Hn c). Qed.

Definition entry_ok (e : list Z * NewsrcGroup) : Prop := name_ok e.1 /\ ranges_ok (ranges e.2).

Lemma group_text_avoid e c : entry_ok e -> c = 10 \/ c = 0 -> c ∉ group_text e.
Proof.
  intros [Hn Hr] Hc. unfold group_text. rewrite elem_of_app, elem_of_cons.
  intros [Hin|[Hin|Hin]].
  - apply (name_ok_avoid _ c Hn) in Hin; [done|]. rewrite !elem_of_cons. tauto.
  - destruct (subscribed e.2); lia.
  - apply ranges_text_chars in Hin; [done..|lia|]. unfold range_char, digit. lia.
Qed.

(** The group of a line. *)
Definition normal_group (g : NewsrcGroup) : NewsrcGroup :=
  mkGroup (normal (ranges g)) (subscribed g).

Lemma parse_group_text n e :
  entry_ok e ->
  camel_nntp_newsrc_parse_line n (group_text e) =
    Ok (mkNewsrc (<[e.1 := normal_group e.2]> (groups n)) true).
Proof.
  intros [Hn Hr]. unfold group_text, camel_nntp_newsrc_parse_line, normal_group.
  assert ((58 ∉ e.1) /\ 33 ∉ e.1) as [H58 H33].
  { split; apply name_ok_avoid; try done; rewrite !elem_of_cons; tauto. }
  destruct (subscribed e.2) eqn:Esub.
  - rewrite strchr_app, parse_ranges_text by done. rewrite res_bind_Ok.
    unfold camel_nntp_newsrc_group_add. cbn [groups]. by rewrite insert_insert_eq.
  - assert (58 ∉ e.1 ++ 33 :: ranges_text (ranges e.2)) as Hno.
    { rewrite elem_of_app, elem_of_cons. intros [?|[?|Hin]]; [done|lia|].
      apply ranges_text_chars in Hin; [done..|]. unfold range_char, digit. lia. }
    rewrite strchr_none, strchr_app, parse_ranges_text by done. rewrite res_bind_Ok.
    unfold camel_nntp_newsrc_group_add. cbn [groups]. by rewrite insert_insert_eq.
Qed.

(** ** The file *)

Definition insert_entries (es : list (list Z * NewsrcGroup)) (n : CamelNNTPNewsrc) : CamelNNTPNewsrc :=
  foldl (fun n e => mkNewsrc (<[e.1 := normal_group e.2]> (groups n)) true) n es.

Lemma write_to_file_cons e es :
  camel_nntp_newsrc_write_to_file (e :: es) =
    group_text e ++ 10 :: camel_nntp_newsrc_write_to_file es.
Proof.
  unfold camel_nntp_newsrc_write_to_file. cbn [map concat].
  by rewrite write_group_line_text, <- app_assoc.
Qed.

Lemma group_text_nonempty e rest : group_text e ++ rest <> [].
Proof. unfold group_text. by destruct e.1. Qed.

Lemma get_line_first e es :
  entry_ok e ->
  get_line (camel_nntp_newsrc_write_to_file (e :: es)) None =
    Some (group_text e, 10 :: camel_nntp_newsrc_write_to_file es).
Proof.
  intros He. rewrite write_to_file_cons. unfold get_line.
  assert (line_at (group_text e ++ 10 :: camel_nntp_newsrc_write_to_file es) =
    (group_text e, 10 :: camel_nntp_newsrc_write_to_file es)) as E.
  { unfold line_at. rewrite strchr_app; [done|]. apply group_text_avoid; [done|by left]. }
  pose proof (group_text_nonempty e (10 :: camel_nntp_newsrc_write_to_file es)) as Hne.
  destruct (group_text e ++ 10 :: _) eqn:El; [done|]. by rewrite E.
Qed.

Lemma get_line_next buf e es :
  entry_ok e ->
  get_line buf (Some (10 :: camel_nntp_newsrc_write_to_file (e :: es))) =
    Some (group_text e, 10 :: camel_nntp_newsrc_write_to_file es).
Proof. intros He. rewrite <- (get_line_first e es He). done. Qed.

Lemma read_loop_entries fuel buf es n :
  Forall entry_ok es -> (length es < fuel)%nat ->
  read_loop fuel buf (Some (10 :: camel_nntp_newsrc_write_to_file es)) n = Ok (insert_entries es n).
Proof.
  intros Hes. revert fuel n. induction Hes as [|e es He Hes IH]; intros [|fuel] n Hf; simpl in Hf; try lia.
  - done.
  - cbn [read_loop]. rewrite get_line_next by done. rewrite parse_group_text, res_bind_Ok by done.
    rewrite IH by lia. done.
Qed.

Lemma c_string_write es :
  Forall entry_ok es ->
  c_string (camel_nntp_newsrc_write_to_file es) = camel_nntp_newsrc_write_to_file es.
Proof.
  intros Hes. apply c_string_id. induction Hes as [|e es He Hes IH]; [apply not_elem_of_nil|].
  rewrite write_to_file_cons, elem_of_app, elem_of_cons. intros [Hin|[Hin|Hin]]; [|lia|done].
  apply group_text_avoid in Hin; [done|done|by right].
Qed.

Lemma write_to_file_length es : (length es <= length (camel_nntp_newsrc_write_to_file es))%nat.
Proof.
  induction es as [|e es IH]; [simpl; lia|]. rewrite write_to_file_cons, length_app. simpl. lia.
Qed.

Lemma read_write es :
  Forall entry_ok es ->
  camel_nntp_newsrc_read_for_server (Some (camel_nntp_newsrc_write_to_file es)) =
    Ok (insert_entries es (mkNewsrc ∅ false)).
Proof.
  intros Hes. unfold camel_nntp_newsrc_read_for_server. cbv zeta. rewrite c_string_write by done.
  destruct Hes as [|e es He Hes]; [done|]. cbn [read_loop].
  rewrite get_line_first by done. rewrite parse_group_text, res_bind_Ok by done.
  rewrite read_loop_entries; [done|done|]. rewrite write_to_file_cons, length_app.
  pose proof (write_to_file_length es). simpl. lia.
Qed.

(** The table of a list of entries. *)
Lemma insert_entries_lookup es n name :
  NoDup es.*1 ->
  groups (insert_entries es n) !! name =
    match (list_to_map es : gmap (list Z) NewsrcGroup) !! name with
    | Some g => Some (normal_group g)
    | None => groups n !! name
    end.
Proof.
  revert n. induction es as [|[k g] es IH]; intros n Hnd; [done|].
  rewrite fmap_cons in Hnd. apply NoDup_cons in Hnd as [Hk Hnd].
  change (insert_entries ((k, g) :: es) n) with
    (insert_entries es (mkNewsrc (<[k := normal_group g]> (groups n)) true)).
  rewrite IH, list_to_map_cons by done. cbn [groups fst snd].
  destruct (decide (name = k)) as [->|Hne].
  - by rewrite (not_elem_of_list_to_map_1 _ _ Hk), !lookup_insert_eq.
  - by rewrite !lookup_insert_ne by done.
Qed.

Lemma articles_read_normal rs : articles_read (normal rs) = articles_read rs.
Proof. by destruct rs. Qed.

(** C35: writing the groups of a table to a file, in whatever order the hash table
    visits them, and reading the file gives the same groups with the same
    subscriptions and articles, for names without characters that the file uses and ranges that
    are separated from each other and below 2^31 ([name_ok], [ranges_ok]);
    the ranges are the same too, except that no range becomes
    the range 0-0 that stands for none. *)
Theorem newsrc_file_roundtrip n es :
  es ≡ₚ map_to_list (groups n) ->
  map_Forall (fun name g => name_ok name /\ ranges_ok (ranges g)) (groups n) ->
  exists n', camel_nntp_newsrc_read_for_server (Some (camel_nntp_newsrc_write_to_file es)) = Ok n' /\
    forall name,
      match groups n !! name with
      | None => groups n' !! name = None
      | Some g => exists g', groups n' !! name = Some g' /\ subscribed g' = subscribed g /\
          articles_read (ranges g') = articles_read (ranges g) /\
          (ranges g <> [] -> ranges g' = ranges g)
      end.
Proof.
  intros Hperm Hok.
  assert (Forall entry_ok es) as Hes.
  { rewrite Hperm. apply Forall_forall. intros [k g] Hin%elem_of_map_to_list.
    apply (map_Forall_lookup_1 _ _ _ _ Hok Hin). }
  assert (NoDup es.*1) as Hnd by (rewrite Hperm; apply NoDup_fst_map_to_list).
  assert ((list_to_map es : gmap (list Z) NewsrcGroup) = groups n) as Hmap.
  { rewrite (list_to_map_proper es (map_to_list (groups n)) Hnd Hperm). apply list_to_map_to_list. }
  eexists. split; [by apply read_write|]. intros name.
  rewrite insert_entries_lookup, Hmap by done. destruct (groups n !! name) as [g|]; [|done].
  eexists. split; [done|]. split; [done|]. split; [apply articles_read_normal|].
  by destruct g as [[|r rs] s].
Qed.

Lemma newsrc_file_roundtrip_witness :
  let g := mkGroup [mkRange 1 3; mkRange 7 8; mkRange 1200 1200] true in
  let n := mkNewsrc {[ [99; 46; 97] := g ]} true in
  exists n', camel_nntp_newsrc_read_for_server
      (Some (camel_nntp_newsrc_write_to_file [([99; 46; 97], g)])) = Ok n' /\
    exists g', groups n' !! [99; 46; 97] = Some g' /\ subscribed g' = true /\
      articles_read (ranges g') = articles_read (ranges g).
Proof.
  intros g n.
  assert ([([99; 46; 97], g)] ≡ₚ map_to_list (groups n)) as H1.
  { cbn [groups n]. by rewrite map_to_list_singleton. }
  assert (map_Forall (fun name g => name_ok name /\ ranges_ok (ranges g)) (groups n)) as H2.
  { apply map_Forall_singleton. split; [by apply (bool_decide_unpack _); vm_compute|]. right. split.
    - split; repeat constructor; simpl; lia.
    - repeat constructor; simpl; lia. }
  destruct (newsrc_file_roundtrip n _ H1 H2) as (n' & E & H). exists n'. split; [exact E|].
  specialize (H [99; 46; 97]). change (groups n !! [99; 46; 97]) with (Some g) in H.
  destruct H as (g' & H3 & H4 & H5 & _). exists g'. split; [exact H3|]. split; [exact H4|exact H5].
Defined.
