(* ===== verification/MimeFilter.v ===== *)
(** * Filters of message bodies ([camel-mime-filter.c] and the line filters)

    The base class of [src/camel/camel-mime-filter.c]: the data a filter could not use
    yet, which is put in front of the next chunk, and the output buffer; and the
    filters [camel-mime-filter-crlf.c] (line ends and SMTP dots),
    [camel-mime-filter-from.c] (the From lines of mbox files) and
    [camel-mime-filter-canon.c] (canonical text for signatures).  A chunk is the list
    of its bytes with the number of writable bytes in front of it; a write outside a
    buffer is [Undef].  Sizes are assumed not to reach [size_t]'s limit. *)

From S2P Require Import Prelude.

(** ** The base class *)

(** The fields of [struct _CamelMimeFilter] and [_CamelMimeFilterPrivate]: the bytes
    backed up (the first [backlen] of [backbuf]), [backsize], [priv->inlen], [outsize] and
    [outpre]. *)
Record CamelMimeFilter := mkFilter {
  backbuf : list Z;
  backsize : Z;
  priv_inlen : Z;
  outsize : Z;
  outpre : Z;
}.

Definition PRE_HEAD : Z := 64.
Definition BACK_HEAD : Z := 64.

Definition camel_mime_filter_init : CamelMimeFilter := mkFilter [] 0 0 0 0.

Definition camel_mime_filter_backup (f : CamelMimeFilter) (data : list Z) : CamelMimeFilter :=
  let length := Z.of_nat (length data) in
  mkFilter data (if backsize f <? length then length + BACK_HEAD else backsize f)
    (priv_inlen f) (outsize f) (outpre f).

Definition camel_mime_filter_set_size (f : CamelMimeFilter) (size : Z) : CamelMimeFilter :=
  if outsize f <? size
  then mkFilter (backbuf f) (backsize f) (priv_inlen f) size (PRE_HEAD * 4)
  else f.

(** The bytes from [outbuf] on, if there is room for them. *)
Definition outbuf_write (f : CamelMimeFilter) (out : list Z) : res (list Z) :=
  if outsize f <? Z.of_nat (length out) then Undef else Ok out.

(** What a virtual function gets and returns: the filter, the fields of the subclass, the
    input and its prespace; and the same of the output. *)
Definition filterfunc (S : Type) : Type :=
  CamelMimeFilter -> S -> list Z -> Z -> res (CamelMimeFilter * S * list Z * Z).

(** [CamelMimeFilterClass]; a class without a [reset] has [None]. *)
Class CamelMimeFilterClass (S : Type) := {
  klass_filter : filterfunc S;
  klass_complete : filterfunc S;
  klass_reset : option (S -> S);
}.

Definition u64 (z : Z) : Z := z mod 2 ^ 64.

(** The input buffer with room for the data backed up: the new [inlen] and [prespace]. *)
Definition filter_run_inbuf (f : CamelMimeFilter) (len prespace : Z) : res (Z * Z) :=
  let backlen := Z.of_nat (length (backbuf f)) in
  if prespace <? backlen then
    let newlen := u64 (s32 (len + prespace + backlen)) in
    let inlen := if priv_inlen f <? newlen then u64 (newlen + PRE_HEAD) else priv_inlen f in
    if inlen <? len then Undef else Ok (inlen, inlen - len)
  else Ok (priv_inlen f, prespace).

Definition filter_run {S} (func : filterfunc S) (f : CamelMimeFilter) (s : S) (inp : list Z)
    (prespace : Z) : res (CamelMimeFilter * S * list Z * Z) :=
  '(inlen, prespace) ← filter_run_inbuf f (Z.of_nat (length inp)) prespace;
  let backlen := Z.of_nat (length (backbuf f)) in
  if prespace <? backlen then Undef
  else
    let data := backbuf f ++ inp in
    func (mkFilter [] (backsize f) inlen (outsize f) (outpre f)) s data (prespace - backlen).

Section base.
Context {S : Type} `{CamelMimeFilterClass S}.

Definition camel_mime_filter_filter : filterfunc S := filter_run klass_filter.
Definition camel_mime_filter_complete : filterfunc S := filter_run klass_complete.

Definition camel_mime_filter_reset (f : CamelMimeFilter) (s : S) : CamelMimeFilter * S :=
  let s := match klass_reset with Some reset => reset s | None => s end in
  (mkFilter [] (backsize f) (priv_inlen f) (outsize f) (outpre f), s).
End base.

(** ** Line ends and SMTP dots ([camel-mime-filter-crlf.c]) *)

Inductive CamelMimeFilterCRLFDirection :=
  CAMEL_MIME_FILTER_CRLF_ENCODE | CAMEL_MIME_FILTER_CRLF_DECODE.
Inductive CamelMimeFilterCRLFMode :=
  CAMEL_MIME_FILTER_CRLF_MODE_CRLF_DOTS | CAMEL_MIME_FILTER_CRLF_MODE_CRLF_ONLY.

Record CamelMimeFilterCRLF := mkCRLF {
  crlf_direction : CamelMimeFilterCRLFDirection;
  crlf_mode : CamelMimeFilterCRLFMode;
  saw_cr : bool;
  saw_lf : bool;
  saw_dot : bool;
}.

Definition do_dots (m : CamelMimeFilterCRLFMode) : bool :=
  match m with
  | CAMEL_MIME_FILTER_CRLF_MODE_CRLF_DOTS => true
  | CAMEL_MIME_FILTER_CRLF_MODE_CRLF_ONLY => false
  end.

(** The loop that encodes: the output, [saw_cr] and [saw_lf]. *)
Fixpoint crlf_encode (dots : bool) (inp : list Z) (cr lf : bool) : list Z * bool * bool :=
  match inp with
  | [] => ([], cr, lf)
  | c :: inp =>
      let '(extra, cr, lf) :=
        if c =? 13 then ([], true, lf)
        else if c =? 10 then (if negb cr then [13] else [], false, true)
        else (if dots && (c =? 46) && lf then [46] else [], false, false) in
      let '(out, cr, lf) := crlf_encode dots inp cr lf in
      (extra ++ c :: out, cr, lf)
  end.

(** The loop that decodes: the output, [saw_cr], [saw_lf] and [saw_dot]. *)
Fixpoint crlf_decode (dots : bool) (inp : list Z) (cr lf dot : bool)
    : list Z * bool * bool * bool :=
  match inp with
  | [] => ([], cr, lf, dot)
  | c :: inp =>
      if c =? 13 then crlf_decode dots inp true false dot
      else if cr && (c =? 10) then
        let '(out, cr, lf, dot) := crlf_decode dots inp false true dot in
        (c :: out, cr, lf, dot)
      else
        let pre := if cr then [13; c] else [c] in
        if dots && (c =? 46) && lf then
          match inp with
          | [] => (pre, false, false, true)
          | _ :: inp =>
              let '(out, cr, lf, dot) := crlf_decode dots inp false false true in
              (pre ++ out, cr, lf, dot)
          end
        else
          let dot := if dots && (c =? 46) then false else dot in
          let '(out, cr, lf, dot) := crlf_decode dots inp false false dot in
          (pre ++ out, cr, lf, dot)
  end.

Definition crlf_filter : filterfunc CamelMimeFilterCRLF := fun f crlf inp prespace =>
  let dots := do_dots (crlf_mode crlf) in
  let len := Z.of_nat (length inp) in
  match crlf_direction crlf with
  | CAMEL_MIME_FILTER_CRLF_ENCODE =>
      let f := camel_mime_filter_set_size f (3 * len) in
      let '(out, cr, lf) := crlf_encode dots inp (saw_cr crlf) (saw_lf crlf) in
      out ← outbuf_write f out;
      Ok (f, mkCRLF (crlf_direction crlf) (crlf_mode crlf) cr lf (saw_dot crlf), out, outpre f)
  | CAMEL_MIME_FILTER_CRLF_DECODE =>
      let f := camel_mime_filter_set_size f (len + 1) in
      let '(out, cr, lf, dot) :=
        crlf_decode dots inp (saw_cr crlf) (saw_lf crlf) (saw_dot crlf) in
      out ← outbuf_write f out;
      Ok (f, mkCRLF (crlf_direction crlf) (crlf_mode crlf) cr lf dot, out, outpre f)
  end.

(** With no input, [*out] and [*outlen] are left as the caller has set them: no output. *)
Definition crlf_complete : filterfunc CamelMimeFilterCRLF := fun f crlf inp prespace =>
  if bool_decide (inp = []) then Ok (f, crlf, [], prespace) else crlf_filter f crlf inp prespace.

Definition crlf_reset (crlf : CamelMimeFilterCRLF) : CamelMimeFilterCRLF :=
  mkCRLF (crlf_direction crlf) (crlf_mode crlf) false true false.

#[export] Instance CRLF_class : CamelMimeFilterClass CamelMimeFilterCRLF :=
  {| klass_filter := crlf_filter; klass_complete := crlf_complete; klass_reset := Some crlf_reset |}.

Definition camel_mime_filter_crlf_new (direction : CamelMimeFilterCRLFDirection)
    (mode : CamelMimeFilterCRLFMode) : CamelMimeFilterCRLF :=
  mkCRLF direction mode false true false.

(** ** From lines ([camel-mime-filter-from.c]) *)

Record CamelMimeFilterFrom := mkFrom { midline : bool }.

Definition from_str : list Z := [70; 114; 111; 109; 32].

(** [while (inptr < inend && (c = *inptr++) != '\n')]: what is left and the last [c]. *)
Fixpoint from_skip (inp : list Z) (c : Z) : list Z * Z :=
  match inp with
  | [] => ([], c)
  | c :: inp => if c =? 10 then (inp, c) else from_skip inp c
  end.

(** The first loop.  Pointers are given by the number of bytes from there to the end of
    the chunk.  The result: the nodes, [midline] and the bytes backed up. *)
Fixpoint from_scan (fuel : nat) (inp : list Z) (midline : bool) (nodes : list nat)
    : res (list nat * bool * list Z) :=
  match fuel with
  | O => NoFuel
  | S fuel =>
      if bool_decide (inp = []) then Ok (nodes, midline, [])
      else
        let '(inp, c) := if midline then from_skip inp (-1) else (inp, -1) in
        if (c =? 10) || negb midline then
          let left := length inp in
          if (0 <? left)%nat then
            if (left <? 5)%nat then
              if bool_decide (head inp = Some 70) then Ok (nodes, false, inp)
              else from_scan fuel inp true nodes
            else if bool_decide (take 5 inp = from_str) then
              from_scan fuel (drop 5 inp) true (nodes ++ [left])
            else from_scan fuel inp true nodes
          else from_scan fuel inp false nodes
        else from_scan fuel inp midline nodes
  end.

(** The second loop: copying up to each node and a [>]; then the rest, up to [inend]. *)
Fixpoint from_copy (inp : list Z) (nodes : list nat) : list Z :=
  match nodes with
  | [] => inp
  | pointer :: nodes =>
      let n := (length inp - pointer)%nat in
      take n inp ++ [62] ++ from_copy (drop n inp) nodes
  end.

Definition from_filter : filterfunc CamelMimeFilterFrom := fun f s inp prespace =>
  let len := length inp in
  '(nodes, midline, back) ← from_scan (S (S (2 * len))) inp (midline s) [];
  let f := if bool_decide (back = []) then f else camel_mime_filter_backup f back in
  let inend := take (len - length back) inp in
  let nodes := (fun pointer => pointer - length back)%nat <$> nodes in
  if bool_decide (nodes = []) then Ok (f, mkFrom midline, inend, prespace)
  else
    let f := camel_mime_filter_set_size f (Z.of_nat len + Z.of_nat (length nodes)) in
    out ← outbuf_write f (from_copy inend nodes);
    Ok (f, mkFrom midline, out, PRE_HEAD * 4).

Definition from_complete : filterfunc CamelMimeFilterFrom := fun f s inp prespace =>
  Ok (f, s, inp, prespace).

#[export] Instance From_class : CamelMimeFilterClass CamelMimeFilterFrom :=
  {| klass_filter := from_filter; klass_complete := from_complete; klass_reset := None |}.

Definition camel_mime_filter_from_new : CamelMimeFilterFrom := mkFrom false.

(** ** Canonical text ([camel-mime-filter-canon.c]) *)

Record CamelMimeFilterCanon := mkCanon { canon_flags : Z }.

Definition CAMEL_MIME_FILTER_CANON_CRLF : Z := 2 ^ 0.
Definition CAMEL_MIME_FILTER_CANON_FROM : Z := 2 ^ 1.
Definition CAMEL_MIME_FILTER_CANON_STRIP : Z := 2 ^ 2.

Definition flag (flags f : Z) : bool := negb (Z.land flags f =? 0).

(** The output: the lines that are finished (up to [starto]) and the current one (from
    [starto] to [o]), with the room there is. *)
Definition canon_room (size : Z) (done cur : list Z) (n : Z) : res unit :=
  if size <? Z.of_nat (length done + length cur) + n then Undef else Ok tt.

(** [while (o > starto && ...) o--]; [cur] is reversed. *)
Fixpoint canon_strip (rcur : list Z) : list Z :=
  match rcur with
  | c :: rcur' => if (c =? 32) || (c =? 9) || (c =? 13) then canon_strip rcur' else rcur
  | [] => []
  end.

(** The current line (reversed) at a newline, before the newline is added. *)
Definition canon_eol (flags : Z) (rcur : list Z) : list Z :=
  let rcur := if flag flags CAMEL_MIME_FILTER_CANON_STRIP then canon_strip rcur else rcur in
  match rcur with
  | c :: rcur' =>
      if flag flags CAMEL_MIME_FILTER_CANON_CRLF then
        if negb (c =? 13) then 13 :: rcur else rcur
      else if c =? 13 then rcur' else rcur
  | [] => if flag flags CAMEL_MIME_FILTER_CANON_CRLF then [13] else []
  end.

(** "now scan for end of line": what is left of the input after the newline or at the
    end, and the finished lines and the current one (reversed). *)
Fixpoint canon_scan (size flags : Z) (inp done rcur : list Z)
    : res (list Z * list Z * list Z * bool) :=
  match inp with
  | [] => Ok ([], done, rcur, false)
  | c :: inp =>
      if c =? 10 then
        let rcur := canon_eol flags rcur in
        _ ← canon_room size done rcur 1;
        Ok (inp, done ++ rev (c :: rcur), [], true)
      else
        _ ← canon_room size done rcur 1;
        canon_scan size flags inp done (c :: rcur)
  end.

(** The loop over the lines, each from its start: the finished lines, the rest of the
    output (reversed) and the input from [start] on. *)
Fixpoint canon_loop (fuel : nat) (size flags : Z) (last : bool) (inp done : list Z)
    : res (list Z * list Z * list Z) :=
  match fuel with
  | O => NoFuel
  | S fuel =>
      let start := inp in
      let scan (inp rcur : list Z) :=
        '(rest, done, rcur, eol) ← canon_scan size flags inp done rcur;
        if eol : bool then canon_loop fuel size flags last rest done
        else Ok (done, rcur, start) in
      match inp with
      | [] => Ok (done, [], start)
      | c :: inp' =>
          if flag flags CAMEL_MIME_FILTER_CANON_FROM && (c =? 70) then
            if (4 <? length inp')%nat then
              if bool_decide (take 4 inp' = [114; 111; 109; 32]) then
                _ ← canon_room size done [] 8;
                scan (drop 4 inp') [32; 109; 111; 114; 54; 52; 61]
              else
                _ ← canon_room size done [] 1; scan inp' [70]
            else if last then
              _ ← canon_room size done [] 1; scan inp' [70]
            else Ok (done, [], start)
          else scan inp []
      end
  end.

Definition canon_filter_run (last : bool) : filterfunc CamelMimeFilterCanon := fun f s inp prespace =>
  let lf := Z.of_nat (length (filter (fun c => c = 10) inp)) in
  let f := camel_mime_filter_set_size f (Z.of_nat (length inp) + lf * 3 + 4) in
  '(done, rcur, start) ← canon_loop (S (length inp)) (outsize f) (canon_flags s) last inp [];
  if last then Ok (f, s, done ++ rev rcur, outpre f)
  else Ok (camel_mime_filter_backup f start, s, done, outpre f).

#[export] Instance Canon_class : CamelMimeFilterClass CamelMimeFilterCanon :=
  {| klass_filter := canon_filter_run false; klass_complete := canon_filter_run true;
     klass_reset := Some (fun s => s) |}.

Definition camel_mime_filter_canon_new (flags : Z) : CamelMimeFilterCanon := mkCanon flags.
