(* ===== verification/MimeFilterSpec.v ===== *)
(** * Filters of message bodies: streams, line ends and From lines

    What [camel_mime_filter_filter] adds to a filter: the data backed up in front of the
    chunk, inside its buffers.  [StreamFilter] is what a filter promises for a whole
    stream: that the outputs for the chunks and for the end are a function of the
    bytes that went in; [filter_stream_correct] proves it for the calls of
    the base class, however the stream is cut.  The filters of [camel-mime-filter-crlf.c] and
    [camel-mime-filter-from.c] follow. *)

From S2P Require Import Prelude MimeFilter.

(** ** The base class *)

Lemma filter_run_spec {S} (func : filterfunc S) f s inp prespace :
  0 <= prespace -> 0 <= priv_inlen f ->
  Z.of_nat (length (backbuf f)) + Z.of_nat (length inp) + prespace < 2 ^ 31 ->
  exists inlen prespace', 0 <= inlen /\ 0 <= prespace' /\
    filter_run func f s inp prespace =
      func (mkFilter [] (backsize f) inlen (outsize f) (outpre f)) s (backbuf f ++ inp) prespace'.
Proof.
  intros Hp Hi Hlen. unfold filter_run, filter_run_inbuf.
  destruct (Z.ltb_spec prespace (Z.of_nat (length (backbuf f)))) as [Hlt|Hge].
  - set (newlen := Z.of_nat (length inp) + prespace + Z.of_nat (length (backbuf f))).
    assert (u64 (s32 newlen) = newlen) as ->.
    { unfold newlen, u64. rewrite s32_small, Z.mod_small; lia. }
    cbv zeta. set (inlen := if priv_inlen f <? newlen then u64 (newlen + PRE_HEAD) else priv_inlen f).
    assert (newlen <= inlen) as Hin.
    { unfold inlen, PRE_HEAD. destruct (Z.ltb_spec (priv_inlen f) newlen); [|done].
      unfold u64. rewrite Z.mod_small; lia. }
    destruct (Z.ltb_spec inlen (Z.of_nat (length inp))); [lia|]. rewrite res_bind_Ok.
    destruct (Z.ltb_spec (inlen - Z.of_nat (length inp)) (Z.of_nat (length (backbuf f)))); [lia|].
    eexists _, _. split; [|split; [|reflexivity]]; lia.
  - rewrite res_bind_Ok. destruct (Z.ltb_spec prespace (Z.of_nat (length (backbuf f)))); [lia|].
    eexists _, _. split; [|split; [|reflexivity]]; lia.
Qed.

(** ** The output buffer *)

Lemma outbuf_write_Ok f size out :
  Z.of_nat (length out) <= size ->
  outbuf_write (camel_mime_filter_set_size f size) out = Ok out.
Proof.
  intros H. unfold outbuf_write, camel_mime_filter_set_size.
  destruct (Z.ltb_spec (outsize f) size); cbn [outsize];
    match goal with |- context [?a <? ?b] => by destruct (Z.ltb_spec a b); [lia|] end.
Qed.

Lemma set_size_fields f size :
  backbuf (camel_mime_filter_set_size f size) = backbuf f /\
  priv_inlen (camel_mime_filter_set_size f size) = priv_inlen f.
Proof. unfold camel_mime_filter_set_size. by destruct (outsize f <? size). Qed.

(** ** Streams *)

(** The chunks of a stream, with the prespace of each, and then its end. *)
Fixpoint filter_stream {S} `{CamelMimeFilterClass S} (f : CamelMimeFilter) (s : S)
    (chunks : list (list Z * Z)) : res (list Z) :=
  match chunks with
  | [] =>
      '(_, _, out, _) ← camel_mime_filter_complete f s [] 0;
      Ok out
  | (inp, prespace) :: chunks =>
      '(f, s, out, _) ← camel_mime_filter_filter f s inp prespace;
      rest ← filter_stream f s chunks;
      Ok (out ++ rest)
  end.

(** The bytes of a stream. *)
Definition stream_data (chunks : list (list Z * Z)) : list Z := concat chunks.*1.

(** A filter that begins in state [s0] and turns the bytes [x] of a stream into [spec x],
    for the streams in [dom].  [sf_inv s x o b]: in state [s], the bytes [x] were given
    to the filter, which has returned [o] and backed up [b]. *)
Class StreamFilter (S : Type) `{CamelMimeFilterClass S} (s0 : S) (dom : list Z -> Prop)
    (spec : list Z -> list Z) := {
  sf_inv : S -> list Z -> list Z -> list Z -> Prop;
  sf_init : sf_inv s0 [] [] [];
  sf_backup s x o b : sf_inv s x o b -> (length b <= length x)%nat;
  sf_filter f s x o b inp prespace :
    sf_inv s x o b -> dom (x ++ inp) -> backbuf f = [] ->
    exists f' s' out prespace',
      klass_filter f s (b ++ inp) prespace = Ok (f', s', out, prespace') /\
      priv_inlen f' = priv_inlen f /\
      sf_inv s' (x ++ inp) (o ++ out) (backbuf f');
  sf_complete f s x o b prespace :
    sf_inv s x o b -> dom x -> backbuf f = [] ->
    exists f' s' out prespace',
      klass_complete f s b prespace = Ok (f', s', out, prespace') /\ o ++ out = spec x;
}.

(** Conditions on the chunks of a stream: sizes that fit an [int]. *)
Definition chunks_fit (chunks : list (list Z * Z)) : Prop :=
  Z.of_nat (length (stream_data chunks)) < 2 ^ 31 /\
  Forall (fun c => 0 <= c.2 /\ Z.of_nat (length (stream_data chunks)) + c.2 < 2 ^ 31) chunks.

Definition any_data (x : list Z) : Prop := True.

Lemma any_data_prefix x y : any_data (x ++ y) -> any_data x.
Proof. done. Qed.

Section stream.
Context {S : Type} `{CamelMimeFilterClass S}.
Context (s0 : S) (dom : list Z -> Prop) (spec : list Z -> list Z).
Context `{!StreamFilter S s0 dom spec}.
Context (dom_prefix : forall x y, dom (x ++ y) -> dom x).

Lemma filter_stream_from f s x o chunks :
  sf_inv s x o (backbuf f) -> 0 <= priv_inlen f ->
  dom (x ++ stream_data chunks) ->
  Forall (fun c => 0 <= c.2 /\
    Z.of_nat (length (x ++ stream_data chunks)) + c.2 < 2 ^ 31) (([], 0) :: chunks) ->
  exists out, filter_stream f s chunks = Ok out /\ o ++ out = spec (x ++ stream_data chunks).
Proof.
  revert f s x o. induction chunks as [|[inp p] chunks IH]; intros f s x o Hinv Hi Hdom Hlen.
  - apply Forall_cons in Hlen as [[_ Hl] _]. unfold stream_data in *. cbn in Hl, Hdom |- *.
    rewrite app_nil_r in *. pose proof (sf_backup _ _ _ _ Hinv) as Hb.
    destruct (filter_run_spec klass_complete f s [] 0) as (inlen & p' & _ & _ & E); [lia|lia|simpl; lia|].
    unfold camel_mime_filter_complete. rewrite E, app_nil_r.
    destruct (sf_complete (mkFilter [] (backsize f) inlen (outsize f) (outpre f)) s x o (backbuf f) p' Hinv Hdom
      eq_refl) as (f' & s' & out & p'' & -> & Ho). by exists out.
  - change (stream_data ((inp, p) :: chunks)) with (inp ++ stream_data chunks) in *.
    rewrite app_assoc in *.
    apply Forall_cons in Hlen as [Hl0 Hlen]. apply Forall_cons in Hlen as [[Hp Hl] Hlen]. simpl in Hp, Hl.
    pose proof (sf_backup _ _ _ _ Hinv) as Hb. rewrite !length_app in Hl.
    destruct (filter_run_spec klass_filter f s inp p) as (inlen & p' & Hin & _ & E); [lia|lia|lia|].
    cbn [filter_stream]. unfold camel_mime_filter_filter. rewrite E.
    destruct (sf_filter (mkFilter [] (backsize f) inlen (outsize f) (outpre f)) s x o (backbuf f) inp p' Hinv
      (dom_prefix _ _ Hdom) eq_refl) as (f' & s' & out & p'' & -> & Hpi & Hinv').
    rewrite res_bind_Ok. simpl in Hpi.
    destruct (IH f' s' (x ++ inp) (o ++ out) Hinv') as (rest & -> & Hr); [lia|done|by constructor|].
    rewrite res_bind_Ok. exists (out ++ rest). by rewrite app_assoc.
Qed.

Lemma filter_stream_correct chunks :
  dom (stream_data chunks) ->
  Forall (fun c => 0 <= c.2 /\ Z.of_nat (length (stream_data chunks)) + c.2 < 2 ^ 31) chunks ->
  Z.of_nat (length (stream_data chunks)) < 2 ^ 31 ->
  filter_stream camel_mime_filter_init s0 chunks = Ok (spec (stream_data chunks)).
Proof.
  intros Hdom Hf Hl.
  destruct (filter_stream_from camel_mime_filter_init s0 [] [] chunks sf_init) as (out & -> & Ho);
    [done|done|constructor; [simpl; lia|done]|]. cbn [app] in Ho. by rewrite <- Ho.
Qed.
End stream.

(** * Line ends and SMTP dots: theorems

    What [camel-mime-filter-crlf.c] encodes is fit for SMTP and decodes to the text, for
    streams cut in any way, and nothing is written outside a buffer; examples show
    where decoding dots depends on the chunks. *)

(** ** The loops *)

Lemma crlf_encode_app dots x y cr lf :
  crlf_encode dots (x ++ y) cr lf =
    let '(o1, cr, lf) := crlf_encode dots x cr lf in
    let '(o2, cr, lf) := crlf_encode dots y cr lf in (o1 ++ o2, cr, lf).
Proof.
  revert cr lf. induction x as [|c x IH]; intros cr lf.
  - simpl. by destruct (crlf_encode dots y cr lf) as [[]].
  - cbn [app crlf_encode].
    destruct (if c =? 13 then _ else _) as [[extra cr1] lf1]. rewrite IH.
    destruct (crlf_encode dots x cr1 lf1) as [[o1 cr2] lf2].
    destruct (crlf_encode dots y cr2 lf2) as [[o2 cr3] lf3].
    by rewrite <- app_assoc.
Qed.

Lemma crlf_encode_length dots x cr lf :
  (length (crlf_encode dots x cr lf).1.1 <= 2 * length x)%nat.
Proof.
  revert cr lf. induction x as [|c x IH]; intros cr lf; [done|]. cbn [crlf_encode].
  set (e := if c =? 13 then _ else _).
  assert (length e.1.1 <= 1)%nat as He by (unfold e; repeat case_match; simpl; lia).
  destruct e as [[extra cr1] lf1]. specialize (IH cr1 lf1).
  destruct (crlf_encode dots x cr1 lf1) as [[o cr2] lf2]. simpl in *.
  rewrite length_app. simpl. lia.
Qed.

Lemma crlf_decode_length dots x cr lf dot :
  (length (crlf_decode dots x cr lf dot).1.1.1 <= length x + if cr then 1 else 0)%nat.
Proof.
  assert (forall n x cr lf dot, (length x <= n)%nat ->
    (length (crlf_decode dots x cr lf dot).1.1.1 <= length x + if cr then 1 else 0)%nat) as Hn;
    [|by apply (Hn (length x))].
  clear. intros n. induction n as [|n IH]; intros x cr lf dot Hx; (destruct x as [|c x]; simpl in Hx; [simpl; lia|]); [lia|].
  cbn [crlf_decode]. destruct (c =? 13).
  { specialize (IH x true false dot). simpl in *. lia. }
  destruct (cr && (c =? 10)).
  { specialize (IH x false true dot). destruct (crlf_decode _ _ _ _ _) as [[[o ?] ?] ?]. simpl in *. lia. }
  destruct (dots && (c =? 46) && lf).
  - destruct x as [|c2 x]; [destruct cr; simpl; lia|]. simpl in Hx. specialize (IH x false false true).
    destruct (crlf_decode _ _ _ _ _) as [[[o ?] ?] ?]. simpl in *. rewrite length_app.
    destruct cr; simpl; lia.
  - set (d := if dots && (c =? 46) then false else dot). specialize (IH x false false d).
    destruct (crlf_decode _ _ _ _ _) as [[[o ?] ?] ?]. simpl in *. rewrite length_app.
    destruct cr; simpl; lia.
Qed.

(** What the encoder makes of a whole text. *)
Definition crlf_encoded (m : CamelMimeFilterCRLFMode) (x : list Z) : list Z :=
  (crlf_encode (do_dots m) x false true).1.1.

#[export] Program Instance crlf_encode_stream m :
  StreamFilter CamelMimeFilterCRLF (camel_mime_filter_crlf_new CAMEL_MIME_FILTER_CRLF_ENCODE m)
    any_data (crlf_encoded m) :=
  {| sf_inv s x o b :=
       b = [] /\ crlf_direction s = CAMEL_MIME_FILTER_CRLF_ENCODE /\ crlf_mode s = m /\
       crlf_encode (do_dots m) x false true = (o, saw_cr s, saw_lf s) |}.
Next Obligation. done. Qed.
Next Obligation. intros m s x o b (-> & _). simpl. lia. Qed.
Next Obligation.
  intros m f s x o b inp p (-> & Hd & Hm & E) _ Hb. cbn [app klass_filter CRLF_class].
  unfold crlf_filter. rewrite Hd, Hm.
  pose proof (crlf_encode_length (do_dots m) inp (saw_cr s) (saw_lf s)) as Hl.
  pose proof (crlf_encode_app (do_dots m) x inp false true) as Ea. rewrite E in Ea.
  destruct (crlf_encode (do_dots m) inp (saw_cr s) (saw_lf s)) as [[out cr] lf]. cbn [fst] in Hl.
  rewrite outbuf_write_Ok, res_bind_Ok by lia.
  destruct (set_size_fields f (3 * Z.of_nat (length inp))) as [Hbk Hpi].
  eexists _, _, _, _. split; [reflexivity|]. split; [done|]. rewrite Hbk. done.
Qed.
Next Obligation.
  intros m f s x o b p (-> & _ & _ & E) _ _. eexists _, _, _, _. split; [reflexivity|].
  unfold crlf_encoded. by rewrite E, app_nil_r.
Qed.

(** Decoding without dots reads one byte after the other. *)
Lemma crlf_decode_app x y cr lf dot :
  crlf_decode false (x ++ y) cr lf dot =
    let '(o1, cr, lf, dot) := crlf_decode false x cr lf dot in
    let '(o2, cr, lf, dot) := crlf_decode false y cr lf dot in (o1 ++ o2, cr, lf, dot).
Proof.
  revert cr lf dot. induction x as [|c x IH]; intros cr lf dot.
  - simpl. by destruct (crlf_decode false y cr lf dot) as [[[]]].
  - cbn [app crlf_decode andb]. destruct (c =? 13); [apply IH|].
    destruct (cr && (c =? 10)); rewrite IH;
      destruct (crlf_decode false x _ _ _) as [[[o1 cr1] lf1] dot1];
      destruct (crlf_decode false y _ _ _) as [[[o2 cr2] lf2] dot2]; [done|].
    by rewrite <- app_assoc.
Qed.

Definition crlf_decoded (m : CamelMimeFilterCRLFMode) (x : list Z) : list Z :=
  (crlf_decode (do_dots m) x false true false).1.1.1.

Lemma crlf_decode_filter m f s inp p :
  crlf_direction s = CAMEL_MIME_FILTER_CRLF_DECODE -> crlf_mode s = m ->
  exists f', klass_filter f s inp p =
    (let '(out, cr, lf, dot) := crlf_decode (do_dots m) inp (saw_cr s) (saw_lf s) (saw_dot s) in
     Ok (f', mkCRLF CAMEL_MIME_FILTER_CRLF_DECODE m cr lf dot, out, outpre f')) /\
    backbuf f' = backbuf f /\ priv_inlen f' = priv_inlen f.
Proof.
  intros Hd Hm. cbn [klass_filter CRLF_class]. unfold crlf_filter. rewrite Hd, Hm.
  pose proof (crlf_decode_length (do_dots m) inp (saw_cr s) (saw_lf s) (saw_dot s)) as Hl.
  destruct (crlf_decode (do_dots m) inp _ _ _) as [[[out cr] lf] dot]. cbn [fst] in Hl.
  rewrite outbuf_write_Ok, res_bind_Ok by (destruct (saw_cr s); lia).
  eexists. split; [reflexivity|]. apply set_size_fields.
Qed.

#[export] Program Instance crlf_decode_stream :
  StreamFilter CamelMimeFilterCRLF
    (camel_mime_filter_crlf_new CAMEL_MIME_FILTER_CRLF_DECODE CAMEL_MIME_FILTER_CRLF_MODE_CRLF_ONLY)
    any_data (crlf_decoded CAMEL_MIME_FILTER_CRLF_MODE_CRLF_ONLY) :=
  {| sf_inv s x o b :=
       b = [] /\ crlf_direction s = CAMEL_MIME_FILTER_CRLF_DECODE /\
       crlf_mode s = CAMEL_MIME_FILTER_CRLF_MODE_CRLF_ONLY /\
       crlf_decode false x false true false = (o, saw_cr s, saw_lf s, saw_dot s) |}.
Next Obligation. done. Qed.
Next Obligation. intros s x o b (-> & _). simpl. lia. Qed.
Next Obligation.
  intros f s x o b inp p (-> & Hd & Hm & E) _ Hb. cbn [app].
  destruct (crlf_decode_filter _ f s inp p Hd Hm) as (f' & -> & Hbk & Hpi). cbn [do_dots].
  pose proof (crlf_decode_app x inp false true false) as Ea. rewrite E in Ea.
  destruct (crlf_decode false inp _ _ _) as [[[out cr] lf] dot].
  eexists _, _, _, _. split; [reflexivity|]. split; [done|]. rewrite Hbk. done.
Qed.
Next Obligation.
  intros f s x o b p (-> & _ & _ & E) _ _. eexists _, _, _, _. split; [reflexivity|].
  unfold crlf_decoded. cbn [do_dots]. by rewrite E, app_nil_r.
Qed.

(** Decoding gives back a text without carriage returns. *)
Lemma crlf_decode_encode dots x lf dot :
  13 ∉ x ->
  exists lf' dot', crlf_decode dots (crlf_encode dots x false lf).1.1 false lf dot = (x, false, lf', dot').
Proof.
  revert lf dot. induction x as [|c x IH]; intros lf dot Hx; [by eexists _, _|].
  apply not_elem_of_cons in Hx as [Hc Hx]. cbn [crlf_encode].
  destruct (Z.eqb_spec c 13); [congruence|]. destruct (Z.eqb_spec c 10) as [->|Hn].
  - destruct (IH true dot Hx) as (lf' & dot' & E). exists lf', dot'.
    destruct (crlf_encode dots x false true) as [[o cr2] lf2]. simpl in *. by rewrite E.
  - destruct (dots && (c =? 46) && lf) eqn:Ed; cbn [negb].
    + destruct (IH false true Hx) as (lf' & dot' & E). exists lf', dot'.
      destruct (crlf_encode dots x false false) as [[o cr2] lf2]. cbn [fst app crlf_decode] in *.
      destruct (Z.eqb_spec 46 13); [lia|]. cbn [andb]. apply andb_prop in Ed as [Ed ->].
      apply andb_prop in Ed as [-> Ec]. apply Z.eqb_eq in Ec as ->. simpl. by rewrite E.
    + destruct (IH false (if dots && (c =? 46) then false else dot) Hx) as (lf' & dot' & E).
      exists lf', dot'.
      destruct (crlf_encode dots x false false) as [[o cr2] lf2]. cbn [fst app crlf_decode] in *.
      destruct (Z.eqb_spec c 13); [lia|]. rewrite Ed. simpl. by rewrite E.
Qed.

(** Fit for the wire: each newline follows a carriage return, and with dots, a dot at the
    start of a line is followed by another; [cr] tells that the last byte was a
    carriage return and [bol] that a line starts. *)
Fixpoint wire_ok (dots cr bol : bool) (l : list Z) : bool :=
  match l with
  | [] => true
  | c :: l =>
      if c =? 10 then cr && wire_ok dots false true l
      else if c =? 13 then wire_ok dots true false l
      else if dots && bol && (c =? 46) then
        match l with
        | c :: l => (c =? 46) && wire_ok dots false false l
        | [] => false
        end
      else wire_ok dots false false l
  end.

Lemma crlf_encode_wire dots x cr lf bol :
  (bol = true -> lf = true) -> wire_ok dots cr bol (crlf_encode dots x cr lf).1.1 = true.
Proof.
  revert cr lf bol. induction x as [|c x IH]; intros cr lf bol Hb; [done|]. cbn [crlf_encode].
  destruct (Z.eqb_spec c 13) as [->|H13].
  { specialize (IH true lf false ltac:(done)).
    destruct (crlf_encode dots x true lf) as [[o cr2] lf2]. done. }
  destruct (Z.eqb_spec c 10) as [->|H10].
  { specialize (IH false true true ltac:(done)).
    destruct (crlf_encode dots x false true) as [[o cr2] lf2]. by destruct cr. }
  specialize (IH false false false ltac:(done)).
  destruct (crlf_encode dots x false false) as [[o cr2] lf2].
  destruct (dots && (c =? 46) && lf) eqn:Ed; cbn [fst app wire_ok] in *.
  - apply andb_prop in Ed as [Ed _]. apply andb_prop in Ed as [-> Ec]. apply Z.eqb_eq in Ec as ->.
    by destruct bol.
  - destruct (Z.eqb_spec c 10); [lia|]. destruct (Z.eqb_spec c 13); [lia|].
    destruct dots, bol, (c =? 46), lf; try done; by specialize (Hb eq_refl).
Qed.

Lemma crlf_encode_run m chunks :
  chunks_fit chunks ->
  filter_stream camel_mime_filter_init
    (camel_mime_filter_crlf_new CAMEL_MIME_FILTER_CRLF_ENCODE m) chunks =
    Ok (crlf_encoded m (stream_data chunks)).
Proof.
  intros [Hl Hf]. exact (filter_stream_correct _ any_data _ any_data_prefix chunks I Hf Hl).
Qed.

(** Whatever the text and the chunks it comes in, the encoder writes only
    newlines that follow a carriage return, and with SMTP dots no line that begins with
    a single dot; it never writes outside its buffer. *)
Theorem crlf_encode_stream_wire m chunks :
  chunks_fit chunks ->
  exists e, filter_stream camel_mime_filter_init
      (camel_mime_filter_crlf_new CAMEL_MIME_FILTER_CRLF_ENCODE m) chunks = Ok e /\
    wire_ok (do_dots m) false true e = true.
Proof.
  intros Hfit. eexists. split; [by apply crlf_encode_run|]. by apply crlf_encode_wire.
Qed.

Lemma crlf_encode_stream_wire_witness :
  let chunks := [([97; 10; 46], 0); ([10; 46; 46; 13], 3); ([10], 0)] in
  chunks_fit chunks /\
  exists e, filter_stream camel_mime_filter_init (camel_mime_filter_crlf_new
      CAMEL_MIME_FILTER_CRLF_ENCODE CAMEL_MIME_FILTER_CRLF_MODE_CRLF_DOTS) chunks = Ok e /\
    wire_ok true false true e = true.
Proof.
  intros chunks. assert (chunks_fit chunks) as H by (split; [vm_compute; reflexivity|by concrete]).
  split; [exact H|]. exact (crlf_encode_stream_wire CAMEL_MIME_FILTER_CRLF_MODE_CRLF_DOTS chunks H).
Defined.

(** A text without carriage returns is encoded, however it is cut into chunks, and
    decoding gives it back: from any pieces without SMTP dots, and in one piece with
    them. *)
Theorem crlf_roundtrip m chunks :
  chunks_fit chunks -> 13 ∉ stream_data chunks ->
  exists e, filter_stream camel_mime_filter_init
      (camel_mime_filter_crlf_new CAMEL_MIME_FILTER_CRLF_ENCODE m) chunks = Ok e /\
    forall pieces, stream_data pieces = e -> chunks_fit pieces ->
      m = CAMEL_MIME_FILTER_CRLF_MODE_CRLF_ONLY \/ length pieces = 1%nat ->
      filter_stream camel_mime_filter_init
        (camel_mime_filter_crlf_new CAMEL_MIME_FILTER_CRLF_DECODE m) pieces = Ok (stream_data chunks).
Proof.
  intros Hfit H13. eexists. split; [by apply crlf_encode_run|]. intros pieces Hp [Hl Hf] Hm.
  destruct (crlf_decode_encode (do_dots m) (stream_data chunks) true false H13) as (lf & dot & E).
  change (crlf_encode _ _ _ _).1.1 with (crlf_encoded m (stream_data chunks)) in E.
  rewrite <- Hp in E. destruct Hm as [->|H1].
  - rewrite (filter_stream_correct _ any_data _ any_data_prefix pieces I Hf Hl).
    unfold crlf_decoded. by rewrite E.
  - destruct pieces as [|[e p] [|]]; try done. unfold stream_data in E, Hf, Hl. cbn in E, Hf, Hl.
    rewrite app_nil_r in *. apply Forall_cons in Hf as [[Hpp Hf] _]. simpl in Hpp, Hf.
    cbn [filter_stream]. unfold camel_mime_filter_filter.
    destruct (filter_run_spec klass_filter camel_mime_filter_init
      (camel_mime_filter_crlf_new CAMEL_MIME_FILTER_CRLF_DECODE m) e p) as (i & p' & _ & _ & ->);
      [done|done|simpl; lia|].
    match goal with |- context [klass_filter ?f ?s ?i ?p] =>
      destruct (crlf_decode_filter m f s i p eq_refl eq_refl) as (f' & -> & Hbk & Hpi) end.
    cbn [backbuf camel_mime_filter_init app saw_cr saw_lf saw_dot camel_mime_filter_crlf_new].
    rewrite E, res_bind_Ok. unfold camel_mime_filter_complete.
    unfold filter_run, filter_run_inbuf. rewrite Hbk. simpl. by rewrite app_nil_r.
Qed.

Lemma crlf_roundtrip_witness :
  let chunks := [([97; 10; 46], 0); ([10; 46; 46], 3); ([10], 0)] in
  chunks_fit chunks /\ (13 ∉ stream_data chunks) /\
  exists e, filter_stream camel_mime_filter_init (camel_mime_filter_crlf_new
      CAMEL_MIME_FILTER_CRLF_ENCODE CAMEL_MIME_FILTER_CRLF_MODE_CRLF_DOTS) chunks = Ok e.
Proof.
  intros chunks. assert (chunks_fit chunks) as H by (split; [vm_compute; reflexivity|by concrete]).
  assert (13 ∉ stream_data chunks) as H13 by (apply (bool_decide_unpack _); vm_compute; reflexivity).
  split; [exact H|]. split; [exact H13|].
  destruct (crlf_roundtrip CAMEL_MIME_FILTER_CRLF_MODE_CRLF_DOTS chunks H H13) as (e & E & _).
  exists e. exact E.
Defined.

(** With SMTP dots, the second dot is not removed if a chunk ends between the two. *)
Example crlf_dots_cut :
  let decoder := camel_mime_filter_crlf_new CAMEL_MIME_FILTER_CRLF_DECODE
    CAMEL_MIME_FILTER_CRLF_MODE_CRLF_DOTS in
  filter_stream camel_mime_filter_init decoder [([46; 46; 13; 10], 0)] = Ok [46; 10] /\
  filter_stream camel_mime_filter_init decoder [([46], 0); ([46; 13; 10], 0)] = Ok [46; 46; 10].
Proof. split; reflexivity. Qed.

(** A line that begins with one dot, which a peer that does not stuff dots sends, loses
    the character after it. *)
Example crlf_dots_drop :
  filter_stream camel_mime_filter_init (camel_mime_filter_crlf_new
    CAMEL_MIME_FILTER_CRLF_DECODE CAMEL_MIME_FILTER_CRLF_MODE_CRLF_DOTS)
    [([46; 97; 98; 13; 10], 0)] = Ok [46; 98; 10].
Proof. reflexivity. Qed.

(** * From lines: theorems

    [camel-mime-filter-from.c] puts a [>] in front of exactly the lines that begin with
    [From] and a blank, for streams cut in any way. *)

(** ** Escaping a whole text *)

Definition starts_from (l : list Z) : bool := bool_decide (take 5 l = from_str).

(** [bol]: at the beginning of a line. *)
Fixpoint from_escape (bol : bool) (l : list Z) : list Z :=
  match l with
  | [] => []
  | c :: l' => (if bol && starts_from l then [62] else []) ++ c :: from_escape (c =? 10) l'
  end.

Lemma from_escape_skip l y bol :
  10 ∉ l -> l <> [] -> bol = false \/ starts_from (l ++ y) = false ->
  from_escape bol (l ++ y) = l ++ from_escape false y.
Proof.
  revert bol. induction l as [|c l IH]; intros bol Hl Hne Hb; [done|].
  apply not_elem_of_cons in Hl as [Hc Hl]. cbn [app from_escape].
  assert (bol && starts_from (c :: l ++ y) = false) as ->.
  { destruct Hb as [->|Hb]; [done|]. simpl in Hb. rewrite Hb. apply andb_false_r. }
  destruct (Z.eqb_spec c 10); [congruence|]. cbn [app]. f_equal.
  destruct l as [|c2 l]; [done|]. apply IH; [done|done|by left].
Qed.

Lemma from_escape_line l y :
  10 ∉ l -> from_escape false ((l ++ [10]) ++ y) = (l ++ [10]) ++ from_escape true y.
Proof.
  intros Hl. rewrite <- !app_assoc. destruct l as [|c l]; [done|].
  rewrite from_escape_skip; [done|done|done|by left].
Qed.

(** A text that does not begin with From is the same in the middle of a line. *)
Lemma from_escape_bol c l :
  starts_from (c :: l) = false -> from_escape true (c :: l) = from_escape false (c :: l).
Proof. intros H. cbn [from_escape]. by rewrite H. Qed.

Lemma from_escape_from l :
  from_escape true (from_str ++ l) = 62 :: from_str ++ from_escape false l.
Proof. cbn. unfold starts_from. cbn. by rewrite bool_decide_true. Qed.

Lemma from_escape_short l bol : (length l < 5)%nat -> from_escape bol l = l.
Proof.
  revert bol. induction l as [|c l IH]; intros bol Hl; [done|]. cbn [from_escape]. simpl in Hl.
  rewrite IH by lia. unfold starts_from. rewrite bool_decide_false; [by rewrite andb_false_r|].
  intros E. apply (f_equal length) in E. rewrite length_take in E.
  change (length from_str) with 5%nat in E. cbn [length] in E. lia.
Qed.

(** ** The loops *)

Lemma from_skip_spec inp c0 rest c :
  inp <> [] -> from_skip inp c0 = (rest, c) ->
  (exists l, inp = (l ++ [10]) ++ rest /\ (10 ∉ l) /\ c = 10) \/ (rest = [] /\ (10 ∉ inp) /\ c <> 10).
Proof.
  revert c0. induction inp as [|d inp IH]; intros c0 Hne E; [done|]. cbn [from_skip] in E.
  destruct (Z.eqb_spec d 10) as [->|Hd].
  - injection E as <- <-. left. exists []. split; [done|]. split; [apply not_elem_of_nil|done].
  - destruct inp as [|d2 inp].
    + injection E as <- <-. right. rewrite list_elem_of_singleton. auto.
    + destruct (IH d ltac:(done) E) as [(l & El & Hl & Hc)|(Hr & Hl & Hc)].
      * left. exists (d :: l). rewrite El. split; [done|]. split; [|done].
        rewrite elem_of_cons. by intros [?|?].
      * right. split; [done|]. split; [|done]. rewrite elem_of_cons. by intros [?|?].
Qed.

Lemma from_copy_prefix pre inp nodes :
  Forall (fun p => p <= length inp)%nat nodes -> from_copy (pre ++ inp) nodes = pre ++ from_copy inp nodes.
Proof.
  intros [|p nodes' Hp Hn]; [done|]. cbn [from_copy]. rewrite length_app.
  rewrite take_app, drop_app. rewrite (take_ge pre), (drop_ge pre) by lia.
  replace (length pre + length inp - p - length pre)%nat with (length inp - p)%nat by lia.
  by rewrite <- app_assoc.
Qed.

Lemma from_copy_length inp nodes :
  (length (from_copy inp nodes) <= length inp + length nodes)%nat.
Proof.
  revert inp. induction nodes as [|p nodes IH]; intros inp; cbn [from_copy length]; [lia|].
  rewrite !length_app. specialize (IH (drop (length inp - p) inp)).
  rewrite length_take, length_drop in *. simpl. lia.
Qed.

(** What the first loop finds in [inp]: the nodes [nodes], and [back] to back up, so that
    copying gives the beginning of the escaped text. *)
Definition scan_result (inp : list Z) (mid : bool) (nodes : list nat) (mid' : bool) (back : list Z) : Prop :=
  exists keep, inp = keep ++ back /\ (length back < 5)%nat /\
    Forall (fun p => length back < p <= length inp)%nat nodes /\
    forall y, from_escape (negb mid) (inp ++ y) =
      from_copy keep ((fun p => p - length back)%nat <$> nodes) ++ from_escape (negb mid') (back ++ y).

Lemma scan_result_prefix pre inp mid mid1 nodes mid' back :
  scan_result inp mid1 nodes mid' back ->
  (forall y, from_escape (negb mid) (pre ++ y) = pre ++ from_escape (negb mid1) y) ->
  scan_result (pre ++ inp) mid nodes mid' back.
Proof.
  intros (keep & -> & Hb & Hn & Hesc) Hpre. exists (pre ++ keep).
  split; [by rewrite app_assoc|]. split; [done|].
  rewrite !length_app in *. split; [eapply Forall_impl; [exact Hn|]; simpl; lia|].
  intros y. rewrite from_copy_prefix.
  - rewrite <- !app_assoc, Hpre. f_equal. rewrite <- Hesc. by rewrite <- app_assoc.
  - apply Forall_fmap. eapply Forall_impl; [exact Hn|]. simpl. lia.
Qed.

Lemma scan_result_nil (mid : bool) : scan_result [] mid [] mid [].
Proof. exists []. split; [done|]. split; [simpl; lia|]. split; [constructor|done]. Qed.

Lemma scan_result_same inp mid mid1 nodes mid' back :
  scan_result inp mid1 nodes mid' back ->
  (forall y, from_escape (negb mid) (inp ++ y) = from_escape (negb mid1) (inp ++ y)) ->
  scan_result inp mid nodes mid' back.
Proof.
  intros (keep & -> & Hb & Hn & Hesc) Heq. exists keep. do 3 (split; [done|]).
  intros y. rewrite Heq. apply Hesc.
Qed.

(** A line that begins with From. *)
Lemma scan_result_from inp nodes mid' back :
  scan_result inp true nodes mid' back ->
  scan_result (from_str ++ inp) false (length (from_str ++ inp) :: nodes) mid' back.
Proof.
  intros (keep & -> & Hb & Hn & Hesc). exists (from_str ++ keep).
  split; [done|]. split; [done|]. rewrite !length_app in *. change (length from_str) with 5%nat.
  split; [constructor; [lia|]; eapply Forall_impl; [exact Hn|]; simpl; lia|].
  intros y. cbn [fmap list_fmap from_copy negb]. rewrite length_app. change (length from_str) with 5%nat.
  replace (5 + length keep - (5 + (length keep + length back) - length back))%nat with 0%nat by lia.
  rewrite <- !app_assoc, from_escape_from. rewrite take_0, drop_0. cbn [app].
  rewrite from_copy_prefix; [|apply Forall_fmap; eapply Forall_impl; [exact Hn|]; simpl; lia].
  specialize (Hesc y). rewrite <- app_assoc in Hesc. cbn [negb] in Hesc. by rewrite Hesc, <- app_assoc.
Qed.

(** The code at the beginning of a line. *)
Definition from_bol (scan : list Z -> bool -> list nat -> res (list nat * bool * list Z))
    (inp : list Z) (nodes : list nat) : res (list nat * bool * list Z) :=
  if (0 <? length inp)%nat then
    if (length inp <? 5)%nat then
      if bool_decide (head inp = Some 70) then Ok (nodes, false, inp) else scan inp true nodes
    else if bool_decide (take 5 inp = from_str) then scan (drop 5 inp) true (nodes ++ [length inp])
    else scan inp true nodes
  else scan inp false nodes.

Definition scan_returns (r : res (list nat * bool * list Z)) (nodes0 : list nat) (inp : list Z) (mid : bool) : Prop :=
  exists nodes mid' back, r = Ok (nodes0 ++ nodes, mid', back) /\
    (back <> [] -> mid' = false) /\ scan_result inp mid nodes mid' back.

Lemma from_bol_spec scan inp nodes0 :
  (forall inp' mid nodes, (length inp' <= length inp)%nat -> mid = true \/ inp' = [] ->
     scan_returns (scan inp' mid nodes) nodes inp' mid) ->
  scan_returns (from_bol scan inp nodes0) nodes0 inp false.
Proof.
  intros IH. unfold from_bol. destruct (Nat.ltb_spec 0 (length inp)) as [Hl|Hl].
  2:{ destruct inp; simpl in Hl; [|lia]. apply IH; [done|by right]. }
  assert (forall y, starts_from (inp ++ y) = false ->
    from_escape true (inp ++ y) = from_escape false (inp ++ y)) as Hsame.
  { intros y Hs. destruct inp as [|c inp]; [simpl in Hl; lia|]. by apply from_escape_bol. }
  destruct (Nat.ltb_spec (length inp) 5) as [H5|H5].
  - destruct inp as [|c inp]; [simpl in Hl; lia|]. cbn [head]. case_bool_decide as Hc.
    + exists [], false, (c :: inp). rewrite app_nil_r. split; [done|]. split; [done|].
      exists []. split; [done|]. split; [done|]. by split; [constructor|].
    + destruct (IH (c :: inp) true nodes0 (le_n _) (or_introl eq_refl)) as (nodes & mid' & back & E & Hm & HR).
      exists nodes, mid', back. split; [done|]. split; [done|]. eapply scan_result_same; [exact HR|].
      intros y. apply from_escape_bol. unfold starts_from. apply bool_decide_false.
      intros E2. apply Hc. simpl in E2. by injection E2 as -> _.
  - case_bool_decide as Hf.
    + destruct (IH (drop 5 inp) true (nodes0 ++ [length inp])) as (nodes & mid' & back & E & Hm & HR);
        [rewrite length_drop; lia|by left|].
      exists (length inp :: nodes), mid', back. rewrite E, <- app_assoc. split; [done|]. split; [done|].
      rewrite <- (take_drop 5 inp), Hf. by apply scan_result_from.
    + destruct (IH inp true nodes0 (le_n _) (or_introl eq_refl)) as (nodes & mid' & back & E & Hm & HR).
      exists nodes, mid', back. split; [done|]. split; [done|]. eapply scan_result_same; [exact HR|].
      intros y. apply Hsame. unfold starts_from. apply bool_decide_false.
      by rewrite take_app_le by lia.
Qed.

Lemma from_scan_spec fuel inp (mid : bool) nodes0 :
  (2 * length inp + (if mid then 0 else 1) < fuel)%nat ->
  scan_returns (from_scan fuel inp mid nodes0) nodes0 inp mid.
Proof.
  revert inp mid nodes0. induction fuel as [|fuel IH]; intros inp mid nodes0 Hf; [lia|].
  assert (forall mid nodes, scan_returns (Ok (nodes, mid, [])) nodes [] mid) as Hnil.
  { intros m nodes. exists [], m, []. rewrite app_nil_r. split; [done|]. split; [done|]. apply scan_result_nil. }
  cbn [from_scan]. case_bool_decide as Hne; [subst; apply Hnil|].
  assert (forall rest nodes, (2 * length rest < fuel)%nat -> (1 < fuel)%nat ->
    scan_returns (from_bol (from_scan fuel) rest nodes) nodes rest false) as Hbol.
  { intros rest nodes H1 H2. apply from_bol_spec. intros inp' m n Hl Hm. apply IH.
    destruct Hm as [->| ->]; [lia|]. simpl. destruct m; lia. }
  destruct inp as [|c0 inp0] eqn:Einp; [done|]. rewrite <- Einp in *.
  assert (1 <= length inp)%nat as Hlen by (rewrite Einp; simpl; lia).
  destruct mid.
  - destruct (from_skip inp (-1)) as [rest c] eqn:E.
    destruct (from_skip_spec inp (-1) rest c Hne E) as [(l & El & Hl & ->)|(-> & Hl & Hc)].
    + change ((10 =? 10) || negb true) with true. cbn [orb].
      destruct (Hbol rest nodes0) as (nodes & mid' & back & E2 & Hm & HR).
      { rewrite El, !length_app in Hf. simpl in Hf. lia. }
      { lia. }
      exists nodes, mid', back. split; [exact E2|]. split; [done|]. rewrite El.
      eapply scan_result_prefix; [exact HR|]. intros y. by apply from_escape_line.
    + destruct (Z.eqb_spec c 10); [done|]. cbn [orb negb].
      destruct (IH [] true nodes0) as (nodes & mid' & back & E2 & Hm & HR); [simpl; lia|].
      exists nodes, mid', back. split; [exact E2|]. split; [done|].
      rewrite <- (app_nil_r inp). eapply scan_result_prefix; [exact HR|].
      intros y. apply from_escape_skip; [done|done|by left].
  - change ((-1 =? 10) || negb false) with true. apply Hbol; lia.
Qed.

(** ** The filter *)

#[export] Program Instance from_stream :
  StreamFilter CamelMimeFilterFrom camel_mime_filter_from_new any_data (from_escape true) :=
  {| sf_inv s x o b :=
       (length b < 5)%nat /\ (length b <= length x)%nat /\ (b <> [] -> midline s = false) /\
       forall y, from_escape true (x ++ y) = o ++ from_escape (negb (midline s)) (b ++ y) |}.
Next Obligation. split; [simpl; lia|]. done. Qed.
Next Obligation. by intros s x o b (_ & ? & _). Qed.
Next Obligation.
  intros f s x o b inp p (Hb & Hbx & Hm & Hesc) _ Hbk. cbn [klass_filter From_class].
  unfold from_filter. set (data := b ++ inp).
  destruct (from_scan_spec (S (S (2 * length data))) data (midline s) []) as
    (nodes & mid' & back & E & Hm' & keep & Hd & Hb5 & Hn & Hres); [destruct (midline s); lia|].
  rewrite E, res_bind_Ok. cbn [app].
  assert (take (length data - length back) data = keep) as ->.
  { rewrite Hd, length_app, take_app_length'; [done|lia]. }
  set (f1 := if bool_decide (back = []) then f else camel_mime_filter_backup f back).
  assert (backbuf f1 = back /\ priv_inlen f1 = priv_inlen f) as [Hf1 Hf2].
  { unfold f1. case_bool_decide as Hbe; [by subst|done]. }
  set (ns := (fun p => (p - length back)%nat) <$> nodes) in *.
  assert (forall f' out, backbuf f' = back -> out = from_copy keep ns ->
    (length (backbuf f') < 5)%nat /\ (length (backbuf f') <= length (x ++ inp))%nat /\
    (backbuf f' <> [] -> midline (mkFrom mid') = false) /\
    forall y, from_escape true ((x ++ inp) ++ y) =
      (o ++ out) ++ from_escape (negb (midline (mkFrom mid'))) (backbuf f' ++ y)) as Hinv.
  { intros f' out -> ->. split; [done|]. split.
    - apply (f_equal length) in Hd. unfold data in Hd. rewrite !length_app in *. lia.
    - split; [done|]. intros y. cbn [midline].
      rewrite <- !app_assoc, Hesc, <- Hres. unfold data. by rewrite app_assoc. }
  case_bool_decide as Hns.
  - eexists _, _, _, _. split; [reflexivity|]. split; [done|]. apply Hinv; [done|]. by rewrite Hns.
  - rewrite outbuf_write_Ok, res_bind_Ok.
    + eexists _, _, _, _. split; [reflexivity|].
      destruct (set_size_fields f1 (Z.of_nat (length data) + Z.of_nat (length ns))) as [Hs1 Hs2].
      split; [by rewrite Hs2|]. apply Hinv; [by rewrite Hs1|done].
    + pose proof (from_copy_length keep ns). apply (f_equal length) in Hd. rewrite length_app in Hd. lia.
Qed.
Next Obligation.
  intros f s x o b p (Hb & _ & _ & Hesc) _ _. eexists _, _, _, _. split; [reflexivity|].
  specialize (Hesc []). rewrite !app_nil_r in Hesc. rewrite Hesc. by rewrite from_escape_short.
Qed.

(** For a stream cut in any way, the filter returns the text with a [>] in front of
    each line that begins with From and a blank, and nothing else changed; it ends, and
    never writes outside its buffer. *)
Theorem from_filter_escapes chunks :
  chunks_fit chunks ->
  filter_stream camel_mime_filter_init camel_mime_filter_from_new chunks =
    Ok (from_escape true (stream_data chunks)).
Proof.
  intros [Hl Hf]. exact (filter_stream_correct _ any_data _ any_data_prefix chunks I Hf Hl).
Qed.

(** [Hi\nFr] and [om you\nFrom me], in two chunks. *)
Lemma from_filter_escapes_witness :
  let chunks := [([72; 105; 10; 70; 114], 0);
                 ([111; 109; 32; 121; 10; 70; 114; 111; 109; 32; 109], 1)] in
  chunks_fit chunks /\
  filter_stream camel_mime_filter_init camel_mime_filter_from_new chunks =
    Ok [72; 105; 10; 62; 70; 114; 111; 109; 32; 121; 10; 62; 70; 114; 111; 109; 32; 109].
Proof.
  intros chunks. assert (chunks_fit chunks) as H by (split; [vm_compute; reflexivity|by concrete]).
  split; [exact H|]. exact (from_filter_escapes chunks H).
Defined.

(** The class has no reset: after one that ends in the middle of a line, the first line
    of the next message is not escaped. *)
Example from_no_reset :
  let '(f, s) := camel_mime_filter_reset camel_mime_filter_init (mkFrom true) in
  filter_stream f s [(from_str ++ [120], 0)] = Ok (from_str ++ [120]).
Proof. reflexivity. Qed.
