(* ===== verification/MimeFilterCanonSpec.v ===== *)
(** * Canonical text: theorems

    [camel-mime-filter-canon.c] puts every line of a stream in canonical form, however the
    stream is cut, and the room it allows for its output is enough. *)

From S2P Require Import Prelude MimeFilter MimeFilterSpec.

(** ** The canonical form of a text *)

(** The lines that end with a newline, without it, and what follows the last one. *)
Fixpoint split_lines (x : list Z) : list (list Z) * list Z :=
  match x with
  | [] => ([], [])
  | c :: x =>
      let '(ls, r) := split_lines x in
      if c =? 10 then ([] :: ls, r)
      else match ls with
           | [] => ([], c :: r)
           | l :: ls => ((c :: l) :: ls, r)
           end
  end.

Definition is_blank (c : Z) : bool := (c =? 32) || (c =? 9) || (c =? 13).

(** A line without the blanks at its end. *)
Fixpoint strip_end (l : list Z) : list Z :=
  match l with
  | [] => []
  | c :: l => match strip_end l with
              | [] => if is_blank c then [] else [c]
              | l => c :: l
              end
  end.

(** [From ] at the start of a line as [=46rom ]. *)
Definition canon_from (flags : Z) (l : list Z) : list Z :=
  if flag flags CAMEL_MIME_FILTER_CANON_FROM && bool_decide (take 5 l = from_str)
  then [61; 52; 54; 114; 111; 109; 32] ++ drop 5 l else l.

(** The end of a line: blanks are stripped, and the line ends with a carriage return or
    does not. *)
Definition canon_end (flags : Z) (l : list Z) : list Z :=
  let l := if flag flags CAMEL_MIME_FILTER_CANON_STRIP then strip_end l else l in
  if flag flags CAMEL_MIME_FILTER_CANON_CRLF then
    if bool_decide (last l = Some 13) then l else l ++ [13]
  else if bool_decide (last l = Some 13) then take (length l - 1) l else l.

Definition canon_line (flags : Z) (l : list Z) : list Z :=
  canon_end flags (canon_from flags l) ++ [10].

(** What follows the last newline: at the end of the text, five bytes [From ] alone are
    left as they are. *)
Definition canon_rest (flags : Z) (r : list Z) : list Z :=
  if (5 <? length r)%nat then canon_from flags r else r.

Definition canon_text (flags : Z) (x : list Z) : list Z :=
  let '(ls, r) := split_lines x in concat (map (canon_line flags) ls) ++ canon_rest flags r.

(** ** Lines *)

Definition unlines (ls : list (list Z)) : list Z := concat (map (fun l => l ++ [10]) ls).

Lemma split_lines_app l y :
  10 ∉ l -> split_lines (l ++ 10 :: y) = let '(ls, r) := split_lines y in (l :: ls, r).
Proof.
  induction l as [|c l IH]; intros Hl; simpl.
  - by destruct (split_lines y).
  - apply not_elem_of_cons in Hl as [Hc Hl]. rewrite IH by done.
    destruct (split_lines y) as [ls r]. by destruct (Z.eqb_spec c 10); [congruence|].
Qed.

Lemma split_lines_none r : 10 ∉ r -> split_lines r = ([], r).
Proof.
  induction r as [|c r IH]; intros Hl; simpl; [done|]. apply not_elem_of_cons in Hl as [Hc Hl].
  rewrite IH by done. by destruct (Z.eqb_spec c 10); [congruence|].
Qed.

(** Every text is a line and the rest of the text, or has no newline. *)
Lemma first_line x : (exists l y, x = l ++ 10 :: y /\ 10 ∉ l) \/ 10 ∉ x.
Proof.
  induction x as [|c x [(l & y & -> & Hl)|Hx]]; [right; apply not_elem_of_nil|..];
    destruct (Z.eq_dec c 10) as [->|Hc].
  - left. exists [], (l ++ 10 :: y). split; [done|apply not_elem_of_nil].
  - left. exists (c :: l), y. split; [done|]. rewrite elem_of_cons. by intros [?|?].
  - left. exists [], x. split; [done|apply not_elem_of_nil].
  - right. rewrite elem_of_cons. by intros [?|?].
Qed.

Lemma canon_text_line flags l y :
  10 ∉ l -> canon_text flags (l ++ 10 :: y) = canon_line flags l ++ canon_text flags y.
Proof.
  intros Hl. unfold canon_text. rewrite split_lines_app by done.
  destruct (split_lines y) as [ls r]. cbn [map concat]. by rewrite <- app_assoc.
Qed.

Lemma canon_text_unlines flags ls y :
  Forall (fun l => 10 ∉ l) ls ->
  canon_text flags (unlines ls ++ y) = concat (map (canon_line flags) ls) ++ canon_text flags y.
Proof.
  induction 1 as [|l ls Hl Hls IH]; [done|]. unfold unlines in *. cbn [map concat].
  rewrite <- !app_assoc. cbn [app]. by rewrite canon_text_line, IH.
Qed.

(** ** The end of a line *)

Lemma strip_end_app l c :
  strip_end (l ++ [c]) = if is_blank c then strip_end l else l ++ [c].
Proof.
  induction l as [|d l IH]; cbn [app strip_end]; [done|]. rewrite IH.
  destruct (is_blank c); [done|]. by destruct l.
Qed.

Lemma canon_strip_rev rl : canon_strip rl = rev (strip_end (rev rl)).
Proof.
  induction rl as [|c rl IH]; [done|]. cbn [canon_strip rev]. rewrite strip_end_app.
  unfold is_blank. destruct ((c =? 32) || (c =? 9) || (c =? 13)); [done|].
  by rewrite rev_app_distr, rev_involutive.
Qed.

Lemma canon_eol_end flags l : rev (canon_eol flags (rev l)) = canon_end flags l.
Proof.
  unfold canon_eol, canon_end.
  rewrite canon_strip_rev, rev_involutive.
  assert ((if flag flags CAMEL_MIME_FILTER_CANON_STRIP then rev (strip_end l) else rev l) =
    rev (if flag flags CAMEL_MIME_FILTER_CANON_STRIP then strip_end l else l)) as ->
    by by destruct (flag flags CAMEL_MIME_FILTER_CANON_STRIP).
  set (k := if flag flags CAMEL_MIME_FILTER_CANON_STRIP then strip_end l else l). clearbody k.
  destruct k as [|c k _] using rev_ind; [by simpl; destruct (flag _ _)|].
  rewrite rev_app_distr, last_snoc. cbn [rev app].
  assert (bool_decide (Some c = Some 13) = (c =? 13)) as ->.
  { destruct (Z.eqb_spec c 13) as [->|]; [done|]. apply bool_decide_false. congruence. }
  rewrite length_app, Nat.add_sub, take_app_length.
  destruct (flag flags CAMEL_MIME_FILTER_CANON_CRLF), (c =? 13); cbn [negb rev];
    rewrite rev_involutive; by rewrite <- ?app_assoc.
Qed.

Lemma strip_end_length l : (length (strip_end l) <= length l)%nat.
Proof.
  induction l as [|c l IH]; [done|]. cbn [strip_end].
  destruct (strip_end l); [destruct (is_blank c)|]; simpl in *; lia.
Qed.

Lemma canon_eol_length flags rl : (length (canon_eol flags rl) <= S (length rl))%nat.
Proof.
  unfold canon_eol.
  set (k := if flag flags CAMEL_MIME_FILTER_CANON_STRIP then canon_strip rl else rl).
  assert (length k <= length rl)%nat as Hk.
  { unfold k. destruct (flag _ _); [|done]. rewrite canon_strip_rev, length_rev.
    pose proof (strip_end_length (rev rl)). by rewrite length_rev in *. }
  clearbody k. destruct k as [|c k]; repeat case_match; simpl in *; lia.
Qed.

(** ** The loops *)

(** Room for the rest of a line with its end. *)
Lemma canon_scan_line size flags l y done rcur :
  10 ∉ l -> Z.of_nat (length done + length rcur + length l) + 2 <= size ->
  canon_scan size flags (l ++ 10 :: y) done rcur =
    Ok (y, done ++ canon_end flags (rev rcur ++ l) ++ [10], [], true).
Proof.
  revert rcur. induction l as [|c l IH]; intros rcur Hl Hs; cbn [app canon_scan].
  - change (10 =? 10) with true. cbv iota zeta. unfold canon_room.
    pose proof (canon_eol_length flags rcur) as He. simpl in Hs.
    destruct (Z.ltb_spec size (Z.of_nat (length done + length (canon_eol flags rcur)) + 1)); [lia|].
    rewrite res_bind_Ok, app_nil_r. cbn [rev]. by rewrite <- canon_eol_end, rev_involutive.
  - apply not_elem_of_cons in Hl as [Hc Hl]. destruct (Z.eqb_spec c 10); [congruence|].
    unfold canon_room at 1. simpl in Hs.
    destruct (Z.ltb_spec size (Z.of_nat (length done + length rcur) + 1)); [lia|].
    rewrite res_bind_Ok, IH by (simpl; try done; lia). cbn [rev]. by rewrite <- app_assoc.
Qed.

Lemma canon_scan_rest size flags r done rcur :
  10 ∉ r -> Z.of_nat (length done + length rcur + length r) <= size ->
  canon_scan size flags r done rcur = Ok ([], done, rev r ++ rcur, false).
Proof.
  revert rcur. induction r as [|c r IH]; intros rcur Hl Hs; cbn [app canon_scan]; [done|].
  apply not_elem_of_cons in Hl as [Hc Hl]. destruct (Z.eqb_spec c 10); [congruence|].
  unfold canon_room at 1. simpl in Hs.
  destruct (Z.ltb_spec size (Z.of_nat (length done + length rcur) + 1)); [lia|].
  rewrite res_bind_Ok, IH by (simpl; try done; lia). cbn [rev]. by rewrite <- app_assoc.
Qed.

(** The newlines of a text. *)
Definition newlines (x : list Z) : Z := Z.of_nat (length (filter (fun c => c = 10) x)).

Lemma newlines_app x y : newlines (x ++ y) = newlines x + newlines y.
Proof. unfold newlines. rewrite filter_app, length_app. lia. Qed.

Lemma newlines_none x : 10 ∉ x -> newlines x = 0.
Proof.
  intros Hx. unfold newlines. induction x as [|c x IH]; [done|].
  apply not_elem_of_cons in Hx as [Hc Hx]. rewrite filter_cons_False by congruence. auto.
Qed.

Lemma newlines_line l y : 10 ∉ l -> newlines (l ++ 10 :: y) = 1 + newlines y.
Proof.
  intros Hl. rewrite newlines_app, newlines_none by done. unfold newlines.
  rewrite filter_cons_True by done. simpl. lia.
Qed.

Lemma canon_from_length flags l : (length (canon_from flags l) <= length l + 2)%nat.
Proof.
  unfold canon_from. destruct (_ && _) eqn:E; [|lia]. apply andb_prop in E as [_ E].
  apply bool_decide_eq_true in E. rewrite <- (take_drop 5 l) at 2. rewrite E, !length_app. simpl. lia.
Qed.

Lemma canon_line_length flags l : (length (canon_line flags l) <= length l + 4)%nat.
Proof.
  unfold canon_line. rewrite length_app, <- canon_eol_end, length_rev. simpl.
  pose proof (canon_eol_length flags (rev (canon_from flags l))) as H. rewrite length_rev in H.
  pose proof (canon_from_length flags l). lia.
Qed.

(** The filter waits for more input: a line that begins with F near the end of a chunk. *)
Definition waits (flags : Z) (last : bool) (x : list Z) : bool :=
  negb last && flag flags CAMEL_MIME_FILTER_CANON_FROM && bool_decide (head x = Some 70)
  && (length x <=? 5)%nat.

(** What the code at the start of a line leaves to scan: the text [x] begins with
    what was read, and [rcur] is that in canonical form. *)
Lemma canon_loop_start fuel size flags last x done :
  Z.of_nat (length done + length x) + 4 <= size -> x <> [] ->
  let scan (inp rcur : list Z) :=
    '(rest, done, rcur, eol) ← canon_scan size flags inp done rcur;
    if eol : bool then canon_loop fuel size flags last rest done else Ok (done, rcur, x) in
  canon_loop (S fuel) size flags last x done =
    if waits flags last x then Ok (done, [], x)
    else if flag flags CAMEL_MIME_FILTER_CANON_FROM && bool_decide (take 5 x = from_str)
            && (5 <? length x)%nat
    then scan (drop 5 x) [32; 109; 111; 114; 54; 52; 61]
    else scan x [].
Proof.
  intros Hs Hne scan. destruct x as [|c x]; [done|]. cbn [canon_loop]. unfold waits.
  assert ((4 < length x)%nat -> canon_room size done [] 8 = Ok tt) as Hroom.
  { intros Hx. unfold canon_room. simpl in *.
    destruct (Z.ltb_spec size (Z.of_nat (length done + 0) + 8)); [lia|done]. }
  assert (forall c, scan (c :: x) [] = if c =? 10 then scan (c :: x) [] else
    _ ← canon_room size done [] 1; scan x [c]) as Hone.
  { intros d. unfold scan. cbn [canon_scan]. destruct (d =? 10); [done|].
    by destruct (canon_room size done [] 1). }
  destruct (flag flags CAMEL_MIME_FILTER_CANON_FROM); cbn [andb negb];
    [|by rewrite andb_false_r].
  cbn [head]. destruct (Z.eqb_spec c 70) as [->|Hc].
  2:{ assert (bool_decide (Some c = Some 70) = false) as -> by (apply bool_decide_false; congruence).
      assert (bool_decide (take 5 (c :: x) = from_str) = false) as ->
        by (apply bool_decide_false; unfold from_str; cbn; congruence).
      by rewrite !andb_false_r. }
  rewrite (bool_decide_true (Some 70 = Some 70)), !andb_true_r by done. cbn [length].
  destruct (Nat.ltb_spec 4 (length x)) as [Hx|Hx].
  - rewrite (proj2 (Nat.leb_gt (S (length x)) 5)), (proj2 (Nat.ltb_lt 5 (S (length x)))) by lia.
    rewrite andb_false_r, andb_true_r.
    assert (bool_decide (take 5 (70 :: x) = from_str) = bool_decide (take 4 x = [114; 111; 109; 32])) as ->.
    { apply bool_decide_ext. cbn. split; [by intros [= ?]|by intros ->]. }
    rewrite (Hone 70). change (70 =? 10) with false. cbv iota.
    by case_bool_decide; [rewrite Hroom, res_bind_Ok by lia|].
  - rewrite (proj2 (Nat.leb_le (S (length x)) 5)), (proj2 (Nat.ltb_ge 5 (S (length x)))) by lia.
    rewrite andb_false_r. destruct last; cbn [negb andb]; [|done].
    rewrite (Hone 70). done.
Qed.

Lemma take_from l y :
  10 ∉ l -> take 5 (l ++ 10 :: y) = from_str -> take 5 l = from_str /\ (5 <= length l)%nat.
Proof.
  intros Hl E. destruct (Nat.lt_ge_cases (length l) 5) as [H|H].
  - exfalso. assert (10 ∈ from_str) as Hin.
    { rewrite <- E, take_app. apply elem_of_app. right.
      destruct (5 - length l)%nat eqn:En; [lia|]. by left. }
    revert Hin. apply (bool_decide_unpack _). done.
  - by rewrite take_app_le in E by lia.
Qed.

(** A whole line. *)
Lemma canon_loop_line fuel size flags last l y done :
  10 ∉ l -> waits flags last (l ++ 10 :: y) = false ->
  Z.of_nat (length done + length (l ++ 10 :: y)) + 4 <= size ->
  canon_loop (S fuel) size flags last (l ++ 10 :: y) done =
    canon_loop fuel size flags last y (done ++ canon_line flags l).
Proof.
  intros Hl Hw Hs. rewrite canon_loop_start by (done || by destruct l). rewrite Hw.
  unfold canon_line, canon_from. rewrite length_app in Hs. simpl in Hs.
  destruct (flag flags CAMEL_MIME_FILTER_CANON_FROM) eqn:Ef; cbn [andb].
  2:{ rewrite canon_scan_line by (simpl; done || lia). by rewrite res_bind_Ok. }
  case_bool_decide as Ht; cbn [andb].
  - destruct (take_from _ _ Hl Ht) as [Ht2 H5]. rewrite bool_decide_true by done.
    rewrite length_app. destruct (Nat.ltb_spec 5 (length l + length (10 :: y))); [|simpl in *; lia].
    rewrite drop_app_le by lia. rewrite canon_scan_line.
    + by rewrite res_bind_Ok.
    + intros Hin. apply Hl. rewrite <- (take_drop 5 l). apply elem_of_app. by right.
    + rewrite length_drop. simpl. lia.
  - rewrite bool_decide_false; [|intros Ht2; apply Ht; rewrite take_app_le; [done|];
      apply (f_equal length) in Ht2; rewrite length_take in Ht2;
      change (length from_str) with 5%nat in Ht2; lia].
    rewrite canon_scan_line by (simpl; done || lia). by rewrite res_bind_Ok.
Qed.

(** A line without its end. *)
Lemma canon_loop_rest fuel size flags last r done :
  10 ∉ r -> r <> [] -> waits flags last r = false ->
  Z.of_nat (length done + length r) + 4 <= size ->
  canon_loop (S fuel) size flags last r done = Ok (done, rev (canon_rest flags r), r).
Proof.
  intros Hr Hne Hw Hs. rewrite canon_loop_start by done. rewrite Hw.
  unfold canon_rest, canon_from.
  destruct (flag flags CAMEL_MIME_FILTER_CANON_FROM && bool_decide (take 5 r = from_str)),
    (Nat.ltb_spec 5 (length r)); cbn [andb];
    (rewrite canon_scan_rest, res_bind_Ok;
      [by rewrite ?rev_app_distr, ?app_nil_r|
       first [done|intros Hin; apply Hr; rewrite <- (take_drop 5 r); apply elem_of_app; by right]|
       rewrite ?length_drop; simpl; lia]).
Qed.

Lemma canon_loop_spec fuel size flags last x done :
  (length x < fuel)%nat -> Z.of_nat (length done + length x) + 3 * newlines x + 4 <= size ->
  exists ls b rcur, x = unlines ls ++ b /\ Forall (fun l => 10 ∉ l) ls /\
    canon_loop fuel size flags last x done = Ok (done ++ concat (map (canon_line flags) ls), rcur, b) /\
    (last = true -> (10 ∉ b) /\ rev rcur = canon_rest flags b).
Proof.
  revert x done. induction fuel as [|fuel IH]; intros x done Hf Hs; [lia|].
  destruct (decide (x = [])) as [->|Hne].
  { exists [], [], []. split; [done|]. split; [constructor|]. split; [by rewrite app_nil_r|].
    split; [apply not_elem_of_nil|done]. }
  assert (0 <= newlines x) by (unfold newlines; lia).
  destruct (waits flags last x) eqn:Hw.
  { exists [], x, []. rewrite canon_loop_start, Hw by (done || lia).
    split; [done|]. split; [constructor|]. split; [by rewrite app_nil_r|].
    intros ->. unfold waits in Hw. by simpl in Hw. }
  destruct (first_line x) as [(l & y & -> & Hl)|Hx].
  - rewrite newlines_line, length_app in * by done. cbn [length] in *.
    pose proof (canon_line_length flags l).
    destruct (IH y (done ++ canon_line flags l)) as (ls & b & rcur & E & Hls & Er & Hlast);
      [lia|rewrite length_app; lia|].
    exists (l :: ls), b, rcur. split; [|split; [by constructor|split; [|done]]].
    + unfold unlines in *. cbn [map concat]. by rewrite <- !app_assoc, <- E.
    + rewrite canon_loop_line by (rewrite ?length_app; simpl; done || lia). rewrite Er.
      cbn [map concat]. by rewrite app_assoc.
  - exists [], x, (rev (canon_rest flags x)). rewrite rev_involutive.
    split; [done|]. split; [constructor|]. split; [|done]. cbn [map concat]. rewrite app_nil_r.
    apply canon_loop_rest; [done..|lia].
Qed.

(** ** The filter *)

Lemma canon_run f s last inp p flags :
  canon_flags s = flags ->
  exists ls b f' out p', inp = unlines ls ++ b /\ Forall (fun l => 10 ∉ l) ls /\
    canon_filter_run last f s inp p = Ok (f', s, out, p') /\ priv_inlen f' = priv_inlen f /\
    if last : bool then (10 ∉ b) /\ out = concat (map (canon_line flags) ls) ++ canon_rest flags b
    else backbuf f' = b /\ out = concat (map (canon_line flags) ls).
Proof.
  intros Hfl. unfold canon_filter_run.
  set (f1 := camel_mime_filter_set_size f _).
  assert (Z.of_nat (length inp) + 3 * newlines inp + 4 <= outsize f1) as Hroom.
  { unfold f1, camel_mime_filter_set_size, newlines.
    match goal with |- context [?a <? ?b] => destruct (Z.ltb_spec a b) end; cbn [outsize]; lia. }
  assert (priv_inlen f1 = priv_inlen f) as Hpi by apply set_size_fields.
  destruct (canon_loop_spec (S (length inp)) (outsize f1) (canon_flags s) last inp [])
    as (ls & b & rcur & E & Hls & -> & Hlast); [lia|simpl; lia|].
  rewrite Hfl in *. exists ls, b. rewrite res_bind_Ok. cbn [app].
  destruct last; (eexists _, _, _; split; [done|]; split; [done|]; split; [reflexivity|]; split; [done|]).
  - destruct (Hlast eq_refl) as [Hb ->]. done.
  - done.
Qed.

#[export] Program Instance canon_stream flags :
  StreamFilter CamelMimeFilterCanon (camel_mime_filter_canon_new flags) any_data (canon_text flags) :=
  {| sf_inv s x o b :=
       canon_flags s = flags /\ exists ls, x = unlines ls ++ b /\ Forall (fun l => 10 ∉ l) ls /\
         o = concat (map (canon_line flags) ls) |}.
Next Obligation. intros flags. split; [done|]. exists []. by split; [|split; [constructor|]]. Qed.
Next Obligation.
  intros flags s x o b (_ & ls & -> & _). rewrite length_app. lia.
Qed.
Next Obligation.
  intros flags f s x o b inp p (Hfl & ls & -> & Hls & ->) _ _. cbn [klass_filter Canon_class].
  destruct (canon_run f s false (b ++ inp) p flags Hfl) as
    (ls2 & b2 & f' & out & p' & E & Hls2 & -> & Hpi & Hb & ->).
  eexists _, _, _, _. split; [reflexivity|]. split; [done|]. split; [done|].
  exists (ls ++ ls2). unfold unlines in *. rewrite !map_app, !concat_app, Hb.
  split; [by rewrite <- !app_assoc, <- E|]. by split; [apply Forall_app|].
Qed.
Next Obligation.
  intros flags f s x o b p (Hfl & ls & -> & Hls & ->) _ _. cbn [klass_complete Canon_class].
  destruct (canon_run f s true b p flags Hfl) as
    (ls2 & b2 & f' & out & p' & -> & Hls2 & -> & Hpi & Hb & ->).
  eexists _, _, _, _. split; [reflexivity|].
  rewrite !canon_text_unlines by done. unfold canon_text. by rewrite split_lines_none.
Qed.

(** For a stream cut in any way, every line of the output is the canonical form of
    the line: From at its start encoded, blanks at its end stripped and its end of the
    kind asked for, each as the flags say; the filter ends and the room it allows
    for its output is enough. *)
Theorem canon_filter_lines flags chunks :
  chunks_fit chunks ->
  filter_stream camel_mime_filter_init (camel_mime_filter_canon_new flags) chunks =
    Ok (canon_text flags (stream_data chunks)).
Proof.
  intros [Hl Hf]. exact (filter_stream_correct _ any_data _ any_data_prefix chunks I Hf Hl).
Qed.

(** [From a \n] and [b\r\n], cut after the second byte, with all flags. *)
Lemma canon_filter_lines_witness :
  let chunks := [([70; 114], 0); ([111; 109; 32; 97; 32; 10; 98; 13; 10], 2)] in
  chunks_fit chunks /\
  filter_stream camel_mime_filter_init (camel_mime_filter_canon_new 7) chunks =
    Ok [61; 52; 54; 114; 111; 109; 32; 97; 13; 10; 98; 13; 10].
Proof.
  intros chunks. assert (chunks_fit chunks) as H by (split; [vm_compute; reflexivity|by concrete]).
  split; [exact H|]. exact (canon_filter_lines 7 chunks H).
Defined.
