(* ===== verification/MimeFilterBasic.v ===== *)
(** * Transfer encodings as filters ([camel-mime-filter-basic.c])

    [src/camel/camel-mime-filter-basic.c] runs the codecs of [camel-mime-utils.c]
    ([UuCode], [QuotedPrintable]) and the base64 codec of GLib on the chunks of a
    message, with the state between chunks, the output buffers and the assertions on
    their size, and finds the begin line of uuencoded data.  GLib's codec is the
    parameter [GLibBase64]. *)

From S2P Require Import Prelude UuCode QuotedPrintable MimeFilter.

(** [g_base64_encode_step], [g_base64_encode_close] and [g_base64_decode_step]: the output,
    [*state] and [*save]. *)
Class GLibBase64 := {
  g_base64_encode_step : list Z -> bool -> Z -> Z -> list Z * Z * Z;
  g_base64_encode_close : bool -> Z -> Z -> list Z * Z * Z;
  g_base64_decode_step : list Z -> Z -> Z -> list Z * Z * Z;
}.

Inductive CamelMimeFilterBasicType :=
  | CAMEL_MIME_FILTER_BASIC_BASE64_ENC
  | CAMEL_MIME_FILTER_BASIC_BASE64_DEC
  | CAMEL_MIME_FILTER_BASIC_QP_ENC
  | CAMEL_MIME_FILTER_BASIC_QP_DEC
  | CAMEL_MIME_FILTER_BASIC_UU_ENC
  | CAMEL_MIME_FILTER_BASIC_UU_DEC.

Record CamelMimeFilterBasic := mkBasic {
  basic_type : CamelMimeFilterBasicType;
  uubuf : list Z;
  state : Z;
  save : Z;
}.

Definition basic_reset (s : CamelMimeFilterBasic) : CamelMimeFilterBasic :=
  let state := match basic_type s with CAMEL_MIME_FILTER_BASIC_QP_ENC => -1 | _ => 0 end in
  mkBasic (basic_type s) (uubuf s) state 0.

(** The bytes a codec wrote to [mf->outbuf] after [camel_mime_filter_set_size], and the
    assertion on their number. *)
Definition basic_out (f : CamelMimeFilter) (size : Z) (s : CamelMimeFilterBasic)
    (out : list Z) : res (CamelMimeFilter * CamelMimeFilterBasic * list Z * Z) :=
  let f := camel_mime_filter_set_size f size in
  out ← outbuf_write f out;
  if size <? Z.of_nat (length out) then Undef else Ok (f, s, out, outpre f).

(** [strncmp (inptr, s, n) == 0] for an [s] of at least [n] bytes, none of them NUL. *)
Definition strncmp_eq (l s : list Z) (n : nat) : bool := bool_decide (take n l = take n s).

Definition begin_str : list Z := [98; 101; 103; 105; 110; 32].

(** What follows the next newline. *)
Fixpoint after_newline (l : list Z) : option (list Z) :=
  match l with
  | [] => None
  | c :: l => if c =? 10 then Some l else after_newline l
  end.

(** The search for the begin line: nothing found, data to back up, or what follows it. *)
Inductive uu_search : Type :=
  | UuNotFound
  | UuBackup (data : list Z)
  | UuBegin (data : list Z).

Fixpoint uu_find_begin (fuel : nat) (inp : list Z) : res uu_search :=
  match fuel with
  | O => NoFuel
  | S fuel =>
      let left := length inp in
      if (left =? 0)%nat then Ok UuNotFound
      else if (left <? 6)%nat then
        if strncmp_eq inp begin_str left then Ok (UuBackup inp) else Ok UuNotFound
      else if strncmp_eq inp begin_str 6 then
        match after_newline inp with
        | Some data => Ok (UuBegin data)
        | None => Ok (UuBackup inp)
        end
      else
        match after_newline inp with
        | Some inp => uu_find_begin fuel inp
        | None => Ok UuNotFound
        end
  end.

(** The end of the [UU_DEC] cases. *)
Definition basic_uu_decode (f : CamelMimeFilter) (s : CamelMimeFilterBasic) (inp : list Z)
    : res (CamelMimeFilter * CamelMimeFilterBasic * list Z * Z) :=
  if negb (Z.land (state s) CAMEL_UUDECODE_STATE_BEGIN =? 0)
     && (Z.land (state s) CAMEL_UUDECODE_STATE_END =? 0) then
    let f := camel_mime_filter_set_size f (Z.of_nat (length inp) + 3) in
    let '(out, st, sv) := camel_uudecode_step inp (state s) (save s) in
    out ← outbuf_write f out;
    Ok (f, mkBasic (basic_type s) (uubuf s) st sv, out, outpre f)
  else Ok (f, s, [], outpre f).

Section basic.
Context `{GLibBase64}.

Definition basic_complete : filterfunc CamelMimeFilterBasic := fun f s inp prespace =>
  let len := Z.of_nat (length inp) in
  let next := mkBasic (basic_type s) in
  match basic_type s with
  | CAMEL_MIME_FILTER_BASIC_BASE64_ENC =>
      let '(out1, st, sv) :=
        if 0 <? len then g_base64_encode_step inp true (state s) (save s) else ([], state s, save s) in
      let '(out2, st, sv) := g_base64_encode_close true st sv in
      (* both write from [mf->outbuf] on, and the sum of the lengths is returned: when
         both have written, bytes that nobody wrote are part of the output *)
      if bool_decide (out1 <> []) && bool_decide (out2 <> []) then Undef
      else basic_out f (len * 2 + 6) (next (uubuf s) st sv) (out1 ++ out2)
  | CAMEL_MIME_FILTER_BASIC_QP_ENC =>
      let '(out, st, sv) := camel_quoted_encode_close inp (state s) (save s) in
      basic_out f (len * 4 + 4) (next (uubuf s) st sv) out
  | CAMEL_MIME_FILTER_BASIC_UU_ENC =>
      '(out, buf, st, sv) ← camel_uuencode_close inp (uubuf s) (state s) (save s);
      basic_out f ((len + 2) * 2 + 62) (next buf st sv) out
  | CAMEL_MIME_FILTER_BASIC_BASE64_DEC =>
      let '(out, st, sv) := g_base64_decode_step inp (state s) (save s) in
      basic_out f len (next (uubuf s) st sv) out
  | CAMEL_MIME_FILTER_BASIC_QP_DEC =>
      let '(out, st, sv) := camel_quoted_decode_step inp (state s) (save s) in
      basic_out f (len + 2) (next (uubuf s) st sv) out
  | CAMEL_MIME_FILTER_BASIC_UU_DEC => basic_uu_decode f s inp
  end.

Definition basic_filter : filterfunc CamelMimeFilterBasic := fun f s inp prespace =>
  let len := Z.of_nat (length inp) in
  let next := mkBasic (basic_type s) in
  match basic_type s with
  | CAMEL_MIME_FILTER_BASIC_BASE64_ENC =>
      let '(out, st, sv) := g_base64_encode_step inp true (state s) (save s) in
      basic_out f (len * 2 + 6) (next (uubuf s) st sv) out
  | CAMEL_MIME_FILTER_BASIC_QP_ENC =>
      let '(out, st, sv) := camel_quoted_encode_step inp (state s) (save s) in
      basic_out f (len * 4 + 4) (next (uubuf s) st sv) out
  | CAMEL_MIME_FILTER_BASIC_UU_ENC =>
      '(out, buf, st, sv) ← camel_uuencode_step inp (uubuf s) (state s) (save s);
      basic_out f ((len + 2) * 2 + 62) (next buf st sv) out
  | CAMEL_MIME_FILTER_BASIC_BASE64_DEC =>
      let '(out, st, sv) := g_base64_decode_step inp (state s) (save s) in
      basic_out f (len + 3) (next (uubuf s) st sv) out
  | CAMEL_MIME_FILTER_BASIC_QP_DEC =>
      let '(out, st, sv) := camel_quoted_decode_step inp (state s) (save s) in
      basic_out f (len + 2) (next (uubuf s) st sv) out
  | CAMEL_MIME_FILTER_BASIC_UU_DEC =>
      if Z.land (state s) CAMEL_UUDECODE_STATE_BEGIN =? 0 then
        found ← uu_find_begin (S (length inp)) inp;
        match found with
        | UuNotFound => basic_uu_decode f s inp
        | UuBackup data => basic_uu_decode (camel_mime_filter_backup f data) s inp
        | UuBegin data =>
            basic_uu_decode f (next (uubuf s) (Z.lor (state s) CAMEL_UUDECODE_STATE_BEGIN) (save s)) data
        end
      else basic_uu_decode f s inp
  end.

#[export] Instance Basic_class : CamelMimeFilterClass CamelMimeFilterBasic :=
  {| klass_filter := basic_filter; klass_complete := basic_complete; klass_reset := Some basic_reset |}.
End basic.

(** The object is allocated with [uubuf] as it happens to be; then it is reset. *)
Definition camel_mime_filter_basic_new_type (buf : list Z) (type : CamelMimeFilterBasicType)
    : CamelMimeFilterBasic :=
  basic_reset (mkBasic type buf 0 0).
