(* ===== verification/MimeFilterBasicSpec.v ===== *)
(** * Transfer encodings as filters: theorems

    For quoted-printable and uuencoding, [camel-mime-filter-basic.c] encodes a stream cut
    in any way to one text, whose buffers and assertions hold, and the decoding filter
    gives the stream back. *)

From S2P Require Import Prelude CString UuCode UuCodeSpec QuotedPrintable QuotedPrintableSpec.
From S2P Require Import MimeFilter MimeFilterSpec MimeFilterBasic.

Definition byte_data (x : list Z) : Prop := Forall byte_ok x.

Lemma byte_data_prefix x y : byte_data (x ++ y) -> byte_data x.
Proof. by intros [? _]%Forall_app. Qed.

Lemma basic_out_Ok f size s out :
  Z.of_nat (length out) <= size ->
  basic_out f size s out =
    Ok (camel_mime_filter_set_size f size, s, out, outpre (camel_mime_filter_set_size f size)).
Proof.
  intros H. unfold basic_out. cbv zeta. rewrite outbuf_write_Ok, res_bind_Ok by done.
  by destruct (Z.ltb_spec size (Z.of_nat (length out))); [lia|].
Qed.

Section basic.
Context `{GLibBase64}.

(** ** Quoted-printable *)

Lemma qp_encode_step_app x y last sofar :
  camel_quoted_encode_step (x ++ y) last sofar =
    let '(o1, last, sofar) := camel_quoted_encode_step x last sofar in
    let '(o2, last, sofar) := camel_quoted_encode_step y last sofar in (o1 ++ o2, last, sofar).
Proof.
  revert last sofar. induction x as [|c x IH]; intros last sofar; cbn [app camel_quoted_encode_step].
  - by destruct (camel_quoted_encode_step y last sofar) as [[]].
  - destruct (qp_encode_char c sofar last) as [[out sofar1] last1]. rewrite IH.
    destruct (camel_quoted_encode_step x last1 sofar1) as [[o1 last2] sofar2].
    destruct (camel_quoted_encode_step y last2 sofar2) as [[o2 last3] sofar3].
    by rewrite app_assoc.
Qed.

Lemma qp_close_split x last sofar :
  (camel_quoted_encode_close x last sofar).1.1 =
    let '(o, last, sofar) := camel_quoted_encode_step x last sofar in
    o ++ (camel_quoted_encode_close [] last sofar).1.1.
Proof.
  unfold camel_quoted_encode_close. destruct x as [|c x]; [done|].
  by destruct (camel_quoted_encode_step (c :: x) last sofar) as [[o l] s].
Qed.

(** The quoted-printable text of some bytes. *)
Definition qp_text (x : list Z) : list Z := (camel_quoted_encode_close x (-1) 0).1.1.

#[export] Program Instance qp_enc_stream buf :
  StreamFilter CamelMimeFilterBasic
    (camel_mime_filter_basic_new_type buf CAMEL_MIME_FILTER_BASIC_QP_ENC) byte_data qp_text :=
  {| sf_inv s x o b :=
       b = [] /\ basic_type s = CAMEL_MIME_FILTER_BASIC_QP_ENC /\
       camel_quoted_encode_step x (-1) 0 = (o, state s, save s) |}.
Next Obligation. done. Qed.
Next Obligation. intros buf s x o b (-> & _). simpl. lia. Qed.
Next Obligation.
  intros buf f s x o b inp p (-> & Ht & E) _ Hb. cbn [app klass_filter Basic_class].
  unfold basic_filter. rewrite Ht.
  destruct (quoted_printable_fits inp (state s) (save s)) as [Hfit _].
  pose proof (qp_encode_step_app x inp (-1) 0) as Ea. rewrite E in Ea.
  destruct (camel_quoted_encode_step inp (state s) (save s)) as [[out st] sv]. cbn [fst] in Hfit.
  rewrite basic_out_Ok by done. eexists _, _, _, _. split; [reflexivity|].
  destruct (set_size_fields f (Z.of_nat (length inp) * 4 + 4)) as [Hbk Hpi].
  split; [done|]. by rewrite Hbk.
Qed.
Next Obligation.
  intros buf f s x o b p (-> & Ht & E) _ _. cbn [klass_complete Basic_class].
  unfold basic_complete. rewrite Ht.
  destruct (quoted_printable_fits [] (state s) (save s)) as [_ [Hfit _]].
  pose proof (qp_close_split x (-1) 0) as Ea. rewrite E in Ea.
  destruct (camel_quoted_encode_close [] (state s) (save s)) as [[out st] sv]. cbn [fst] in Hfit, Ea.
  rewrite basic_out_Ok by done. eexists _, _, _, _. by split; [reflexivity|].
Qed.

Definition qp_untext (x : list Z) : list Z := (camel_quoted_decode_step x 0 0).1.1.

Lemma qp_decode_state x st sv :
  st = 0 \/ st = 1 \/ st = 2 ->
  let st' := (camel_quoted_decode_step x st sv).1.2 in st' = 0 \/ st' = 1 \/ st' = 2.
Proof.
  revert st sv. induction x as [|c x IH]; intros st sv Hst; [done|]. cbn [camel_quoted_decode_step].
  assert (forall (f : list Z -> list Z) s v, s = 0 \/ s = 1 \/ s = 2 ->
    let st' := (let '(o, s, v) := camel_quoted_decode_step x s v in (f o, s, v)).1.2 in
    st' = 0 \/ st' = 1 \/ st' = 2) as Hf.
  { intros g s v Hs. specialize (IH s v Hs). by destruct (camel_quoted_decode_step x s v) as [[]]. }
  destruct (st =? 0).
  { destruct (c =? 61); [apply IH; lia|]. apply (Hf (cons c)). lia. }
  destruct (st =? 1); [destruct (c =? 10); apply IH; lia|].
  destruct (isxdigit c && isxdigit sv); cbv zeta; [apply (Hf (cons _)); lia|].
  destruct (_ && _); [apply IH; lia|]. apply (Hf (fun o => 61 :: u8 sv :: c :: o)). lia.
Qed.

#[export] Program Instance qp_dec_stream buf :
  StreamFilter CamelMimeFilterBasic
    (camel_mime_filter_basic_new_type buf CAMEL_MIME_FILTER_BASIC_QP_DEC) any_data qp_untext :=
  {| sf_inv s x o b :=
       b = [] /\ basic_type s = CAMEL_MIME_FILTER_BASIC_QP_DEC /\
       (state s = 0 \/ state s = 1 \/ state s = 2) /\
       camel_quoted_decode_step x 0 0 = (o, state s, save s) |}.
Next Obligation. intros buf. do 2 (split; [done|]). split; [by left|done]. Qed.
Next Obligation. intros buf s x o b (-> & _). simpl. lia. Qed.
Next Obligation.
  intros buf f s x o b inp p (-> & Ht & Hs & E) _ Hb. cbn [app klass_filter Basic_class].
  unfold basic_filter. rewrite Ht.
  destruct (quoted_printable_fits inp 0 0) as [_ [_ Hfit]]. specialize (Hfit (state s) (save s) Hs).
  pose proof (qp_decode_step_app x inp 0 0) as Ea. rewrite E in Ea.
  pose proof (qp_decode_state inp (state s) (save s) Hs) as Hs'.
  destruct (camel_quoted_decode_step inp (state s) (save s)) as [[out st] sv]. cbn [fst snd] in Hfit, Hs'.
  rewrite basic_out_Ok by done. eexists _, _, _, _. split; [reflexivity|].
  destruct (set_size_fields f (Z.of_nat (length inp) + 2)) as [Hbk Hpi].
  split; [done|]. by rewrite Hbk.
Qed.
Next Obligation.
  intros buf f s x o b p (-> & Ht & Hs & E) _ _. cbn [klass_complete Basic_class].
  unfold basic_complete. rewrite Ht. cbn [camel_quoted_decode_step].
  rewrite basic_out_Ok by (simpl; lia). eexists _, _, _, _. split; [reflexivity|].
  unfold qp_untext. rewrite E. by rewrite app_nil_r.
Qed.

(** ** Uuencoding *)

#[export] Program Instance uu_enc_stream buf (Hbuf : length buf = 60%nat) :
  StreamFilter CamelMimeFilterBasic
    (camel_mime_filter_basic_new_type buf CAMEL_MIME_FILTER_BASIC_UU_ENC) byte_data uu_text :=
  {| sf_inv s x o b :=
       b = [] /\ basic_type s = CAMEL_MIME_FILTER_BASIC_UU_ENC /\
       exists lines g t, uu_between g t (uubuf s) (state s) (save s) /\
         x = concat lines ++ g ++ t /\ Forall (fun l => length l = 45%nat) lines /\
         o = concat (uu_line <$> lines) |}.
Next Obligation.
  intros buf Hbuf. do 2 (split; [done|]). exists [], [], [].
  split; [by apply uu_between_start|]. by split; [|split; [constructor|]].
Qed.
Next Obligation. intros buf Hbuf s x o b (-> & _). simpl. lia. Qed.
Next Obligation.
  intros buf Hbuf f s x o b inp p (-> & Ht & lines & g & t & Hbt & -> & Hl & ->) Hdom Hb.
  apply Forall_app in Hdom as [_ Hdom].
  cbn [app klass_filter Basic_class]. unfold basic_filter. rewrite Ht.
  destruct (uuencode_fits _ _ _ _ _ inp Hbt Hdom) as [(out & buf' & st' & sv' & Ef & Hfit) _].
  destruct (uu_step_spec _ _ _ _ _ inp Hbt Hdom) as (buf2 & st2 & sv2 & lines2 & g2 & t2 & E & Eg & Hl2 & _ & Hbt2).
  rewrite Ef in E. injection E as -> <- <- <-.
  rewrite Ef, res_bind_Ok, basic_out_Ok by done. eexists _, _, _, _. split; [reflexivity|].
  destruct (set_size_fields f ((Z.of_nat (length inp) + 2) * 2 + 62)) as [Hbk Hpi].
  split; [done|]. split; [by rewrite Hbk|]. split; [done|].
  exists (lines ++ lines2), g2, t2. split; [done|]. rewrite fmap_app, !concat_app.
  split; [by rewrite <- !app_assoc, Eg|]. split; [by apply Forall_app|done].
Qed.
Next Obligation.
  intros buf Hbuf f s x o b p (-> & Ht & lines & g & t & Hbt & -> & Hl & ->) Hdom Hb.
  cbn [klass_complete Basic_class]. unfold basic_complete. rewrite Ht.
  destruct (uuencode_fits _ _ _ _ _ [] Hbt (Forall_nil_2 _)) as [_ [(out & buf' & Ef & Hfit) _]].
  destruct (uu_close_spec _ _ _ _ _ [] Hbt (Forall_nil_2 _)) as (buf2 & lines2 & g2 & t2 & E & Eg & Hl2 & Hs2).
  rewrite Ef in E. injection E as -> <-.
  rewrite Ef, res_bind_Ok, basic_out_Ok by done. eexists _, _, _, _. split; [reflexivity|].
  rewrite app_nil_r in Eg. rewrite Eg, (app_assoc (concat (uu_line <$> lines))), <- concat_app, <- fmap_app.
  rewrite uu_text_lines by (rewrite ?Forall_app; done). by rewrite concat_app, <- app_assoc.
Qed.

(** ** Finding the begin line *)

(** Lines that do not begin with [begin ]. *)
Definition plain_line (l : list Z) : Prop := (10 ∉ l) /\ take 6 l <> begin_str.

Lemma begin_str_line : 10 ∉ begin_str.
Proof. apply (bool_decide_unpack _). done. Qed.

Lemma after_newline_app l y : 10 ∉ l -> after_newline (l ++ 10 :: y) = Some y.
Proof.
  induction l as [|c l IH]; intros Hl; [done|]. apply not_elem_of_cons in Hl as [Hc Hl].
  cbn [app after_newline]. destruct (Z.eqb_spec c 10); [congruence|]. auto.
Qed.

Lemma take_line_ne l y s :
  take (length s) l <> s -> 10 ∉ s -> take (length s) (l ++ 10 :: y) <> s.
Proof.
  intros Hne Hs E. destruct (Nat.lt_ge_cases (length l) (length s)) as [Hlt|Hge].
  - apply Hs. rewrite <- E, take_app. apply elem_of_app. right.
    destruct (length s - length l)%nat eqn:En; [lia|]. by left.
  - by rewrite take_app_le in E by lia.
Qed.

Lemma uu_find_begin_lines fuel pre name y :
  Forall plain_line pre -> 10 ∉ name -> (length pre < fuel)%nat ->
  uu_find_begin fuel (concat (map (fun l => l ++ [10]) pre) ++ begin_str ++ name ++ 10 :: y) =
    Ok (UuBegin y).
Proof.
  intros Hpre Hname. revert fuel. induction Hpre as [|l pre [Hl Hb] Hpre IH]; intros [|fuel] Hf;
    simpl in Hf; try lia; cbn [map concat].
  - set (inp := [] ++ begin_str ++ name ++ 10 :: y). assert (6 <= length inp)%nat as Hr.
    { unfold inp. rewrite !length_app. change (length begin_str) with 6%nat. lia. }
    cbn [uu_find_begin]. cbv zeta. destruct (Nat.eqb_spec (length inp) 0); [lia|].
    destruct (Nat.ltb_spec (length inp) 6); [lia|].
    assert (strncmp_eq inp begin_str 6 = true) as -> by by apply bool_decide_true.
    change inp with ((begin_str ++ name) ++ 10 :: y).
    rewrite after_newline_app; [done|]. rewrite elem_of_app. intros [Hin|Hin]; [|done].
    by apply begin_str_line in Hin.
  - rewrite <- !app_assoc. cbn [app uu_find_begin]. cbv zeta.
    set (rest := concat _ ++ _). assert (6 <= length rest)%nat as Hr.
    { unfold rest. rewrite !length_app. change (length begin_str) with 6%nat. lia. }
    rewrite length_app. cbn [length].
    destruct (Nat.eqb_spec (length l + S (length rest)) 0); [lia|].
    destruct (Nat.ltb_spec (length l + S (length rest)) 6); [lia|].
    unfold strncmp_eq. rewrite bool_decide_false.
    + rewrite after_newline_app by done. apply IH. lia.
    + apply (take_line_ne l rest begin_str Hb). apply begin_str_line.
Qed.

Lemma lines_length (ls : list (list Z)) : (length ls <= length (concat (map (fun l => l ++ [10%Z]) ls)))%nat.
Proof.
  induction ls as [|l ls IH]; [done|]. cbn [map concat length]. rewrite !length_app. simpl. lia.
Qed.

(** Nothing is decoded after the end of the data. *)
Lemma basic_uu_decode_end f t buf sv data :
  let s := mkBasic t buf (Z.lor CAMEL_UUDECODE_STATE_BEGIN CAMEL_UUDECODE_STATE_END) sv in
  basic_uu_decode f s data = Ok (f, s, [], outpre f).
Proof. done. Qed.

(** ** Round trips *)

(** A stream of bytes cut in any way is encoded as quoted-printable without a failed
    assertion or a write outside a buffer, and the decoding filter gives it back from any
    pieces of that text, without the carriage returns before newlines. *)
Theorem basic_qp_roundtrip buf buf' chunks :
  chunks_fit chunks -> Forall byte_ok (stream_data chunks) ->
  exists e, filter_stream camel_mime_filter_init
      (camel_mime_filter_basic_new_type buf CAMEL_MIME_FILTER_BASIC_QP_ENC) chunks = Ok e /\
    forall pieces, stream_data pieces = e -> chunks_fit pieces ->
      filter_stream camel_mime_filter_init
        (camel_mime_filter_basic_new_type buf' CAMEL_MIME_FILTER_BASIC_QP_DEC) pieces =
        Ok (canonical (stream_data chunks)).
Proof.
  intros [Hl Hf] Hb. eexists. split.
  - exact (filter_stream_correct _ byte_data _ byte_data_prefix chunks Hb Hf Hl).
  - intros pieces Hp [Hl' Hf'].
    rewrite (filter_stream_correct _ any_data _ any_data_prefix pieces I Hf' Hl'), Hp.
    unfold qp_untext, qp_text.
    destruct (qp_stream_decodes [] (stream_data chunks) (-1) 0 (Forall_nil_2 _) Hb (or_introl eq_refl) [] 0)
      as (sv & E).
    cbn [qp_encode_stream] in E. rewrite app_nil_r in E. rewrite E. cbn. by rewrite app_nil_r.
Qed.

(** C33: a stream of bytes cut in any way is uuencoded without a failed assertion or a write
    outside a buffer; of a message that has this text after lines that do not begin
    with [begin ], the begin line and a file name, and then anything, the decoding filter
    gives the bytes back. *)
Theorem basic_uu_roundtrip buf buf' chunks :
  length buf = 60%nat -> chunks_fit chunks -> Forall byte_ok (stream_data chunks) ->
  exists e, filter_stream camel_mime_filter_init
      (camel_mime_filter_basic_new_type buf CAMEL_MIME_FILTER_BASIC_UU_ENC) chunks = Ok e /\
    forall pre name rest p,
      let message := concat (map (fun l => l ++ [10]) pre) ++ begin_str ++ name ++ 10 :: e ++ rest in
      Forall plain_line pre -> 10 ∉ name -> chunks_fit [(message, p)] ->
      filter_stream camel_mime_filter_init
        (camel_mime_filter_basic_new_type buf' CAMEL_MIME_FILTER_BASIC_UU_DEC) [(message, p)] =
        Ok (stream_data chunks).
Proof.
  intros Hbuf [Hl Hf] Hb. exists (uu_text (stream_data chunks)). split.
  { pose proof (uu_enc_stream buf Hbuf) as Hinst.
    exact (filter_stream_correct _ byte_data _ byte_data_prefix chunks Hb Hf Hl). }
  intros pre name rest p message Hpre Hname [Hl' Hf'].
  apply Forall_cons in Hf' as [[Hp Hs] _]. unfold stream_data in Hl', Hs. cbn in Hl', Hp, Hs.
  rewrite app_nil_r in *. cbn [filter_stream]. unfold camel_mime_filter_filter.
  destruct (filter_run_spec klass_filter camel_mime_filter_init (camel_mime_filter_basic_new_type buf'
    CAMEL_MIME_FILTER_BASIC_UU_DEC) message p) as (i & p' & _ & _ & ->);
    [done|done|cbn [backbuf camel_mime_filter_init length]; lia|].
  cbn [klass_filter Basic_class backbuf camel_mime_filter_init app]. unfold basic_filter.
  cbn [basic_type camel_mime_filter_basic_new_type basic_reset state save uubuf].
  change (Z.land 0 CAMEL_UUDECODE_STATE_BEGIN =? 0) with true. cbv iota.
  unfold message. rewrite uu_find_begin_lines; [|done|done|].
  2:{ rewrite length_app. pose proof (lines_length pre). lia. }
  rewrite res_bind_Ok. unfold basic_uu_decode. cbn [state save uubuf basic_type].
  change (negb (Z.land (Z.lor 0 CAMEL_UUDECODE_STATE_BEGIN) CAMEL_UUDECODE_STATE_BEGIN =? 0)
    && (Z.land (Z.lor 0 CAMEL_UUDECODE_STATE_BEGIN) CAMEL_UUDECODE_STATE_END =? 0)) with true.
  change (Z.lor 0 CAMEL_UUDECODE_STATE_BEGIN) with CAMEL_UUDECODE_STATE_BEGIN. cbv iota.
  rewrite uudecode_text by (try done; by right).
  rewrite outbuf_write_Ok, res_bind_Ok.
  - set (f0 := mkFilter _ _ _ _ _). set (f1 := camel_mime_filter_set_size f0 _).
    destruct (set_size_fields f0 (Z.of_nat (length (uu_text (stream_data chunks) ++ rest)) + 3)) as [Ef _].
    fold f1 in Ef. cbn [backbuf f0] in Ef. rewrite res_bind_Ok.
    unfold camel_mime_filter_complete, filter_run, filter_run_inbuf. rewrite Ef.
    cbn [length]. change (0 <? Z.of_nat 0) with false. cbv iota zeta. rewrite res_bind_Ok.
    change (0 <? Z.of_nat 0) with false. cbv iota. unfold klass_complete, Basic_class, basic_complete.
    cbn [basic_type app]. rewrite basic_uu_decode_end. cbn. by rewrite app_nil_r.
  - destruct (uuencode_fits [] [] buf 0 0 [] (uu_between_start buf Hbuf) (Forall_nil_2 _)) as (_ & _ & Hd).
    specialize (Hd (uu_text (stream_data chunks) ++ rest) CAMEL_UUDECODE_STATE_BEGIN 0 ltac:(done)).
    by rewrite uudecode_text in Hd by (try done; by right).
Qed.
End basic.

(** Bytes that a codec leaves as they are. *)
Definition plain_base64 : GLibBase64 :=
  {| g_base64_encode_step i _ st sv := (i, st, sv);
     g_base64_encode_close _ st sv := ([], st, sv);
     g_base64_decode_step i st sv := (i, st, sv) |}.

Lemma basic_qp_roundtrip_witness :
  let chunks := [([97; 32], 0); ([10; 61; 13], 3); ([10; 200], 0)] in
  chunks_fit chunks /\ Forall byte_ok (stream_data chunks) /\
  exists e, @filter_stream _ (@Basic_class plain_base64) camel_mime_filter_init
      (camel_mime_filter_basic_new_type [] CAMEL_MIME_FILTER_BASIC_QP_ENC) chunks = Ok e.
Proof.
  intros chunks. assert (chunks_fit chunks) as H by (split; [vm_compute; reflexivity|by concrete]).
  assert (Forall byte_ok (stream_data chunks)) as Hb by (by concrete).
  split; [exact H|]. split; [exact Hb|].
  destruct (@basic_qp_roundtrip plain_base64 [] [] chunks H Hb) as (e & E & _). exists e. exact E.
Defined.

Lemma basic_uu_roundtrip_witness :
  let chunks := [([97; 32], 0); ([10; 61; 13], 3); ([10; 200], 0)] in
  chunks_fit chunks /\ Forall byte_ok (stream_data chunks) /\
  exists e, @filter_stream _ (@Basic_class plain_base64) camel_mime_filter_init
      (camel_mime_filter_basic_new_type (replicate 60 0) CAMEL_MIME_FILTER_BASIC_UU_ENC) chunks = Ok e.
Proof.
  intros chunks. assert (chunks_fit chunks) as H by (split; [vm_compute; reflexivity|by concrete]).
  assert (Forall byte_ok (stream_data chunks)) as Hb by (by concrete).
  split; [exact H|]. split; [exact Hb|].
  destruct (@basic_uu_roundtrip plain_base64 (replicate 60 0) [] chunks eq_refl H Hb) as (e & E & _).
  exists e. exact E.
Defined.

(** [complete()] of the base64 encoder: when both [g_base64_encode_step] and
    [g_base64_encode_close] write, the second writes over the first and the rest of the
    output is what the buffer held. *)
Lemma basic_base64_complete_overwrites `{GLibBase64} f buf inp p o1 st1 sv1 o2 st2 sv2 st sv :
  inp <> [] ->
  g_base64_encode_step inp true st sv = (o1, st1, sv1) -> o1 <> [] ->
  g_base64_encode_close true st1 sv1 = (o2, st2, sv2) -> o2 <> [] ->
  basic_complete f (mkBasic CAMEL_MIME_FILTER_BASIC_BASE64_ENC buf st sv) inp p = Undef.
Proof.
  intros Hi E1 H1 E2 H2. unfold basic_complete. cbn [basic_type state save]. cbv zeta.
  destruct (Z.ltb_spec 0 (Z.of_nat (length inp))) as [_|Hl].
  - by rewrite E1, E2, !bool_decide_eq_true_2.
  - destruct inp; [done|simpl in Hl; lia].
Qed.
