(* ===== verification/Trie.v ===== *)
(** * Multi-pattern search ([e-trie.c])

    [src/libedataserver/e-trie.c]: the Aho-Corasick automaton of a set of patterns, with
    the failure links computed again each time a pattern is added, and the search for
    the first pattern in a buffer.  The states that [e_memchunk_alloc] hands out are the
    entries of a list and a pointer to one is its index; the root, which is part of the
    [ETrie] itself, is entry 0.  [g_unichar_tolower] is a parameter. *)

From S2P Require Import Prelude.

(** GLib's [g_unichar_tolower]. *)
Class GLibUnicode := g_unichar_tolower : Z -> Z.

(** [match_] is the list that starts at [match]: characters with their next states.  The
    list through [next] is kept in [fail_states]. *)
Record trie_state := mkState {
  match_ : list (Z * nat);
  fail : option nat;
  final : Z;
  id : Z;
}.

#[export] Instance trie_state_inhabited : Inhabited trie_state := populate (mkState [] None 0 0).

Record ETrie := mkTrie {
  states : list trie_state;
  fail_states : list (list nat);
  icase : bool;
}.

Definition root : nat := 0.

(** The state a pointer refers to, and a store through a pointer. *)
Definition state (t : ETrie) (q : nat) : trie_state := states t !!! q.

Definition update (t : ETrie) (q : nat) (f : trie_state -> trie_state) : ETrie :=
  mkTrie (<[q := f (state t q)]> (states t)) (fail_states t) (icase t).

Definition set_match (m : list (Z * nat)) (s : trie_state) : trie_state :=
  mkState m (fail s) (final s) (id s).
Definition set_fail (q : option nat) (s : trie_state) : trie_state :=
  mkState (match_ s) q (final s) (id s).
Definition set_final (n : Z) (s : trie_state) : trie_state :=
  mkState (match_ s) (fail s) n (id s).
Definition set_id (i : Z) (s : trie_state) : trie_state :=
  mkState (match_ s) (fail s) (final s) i.

(** ** Reading characters *)

(** How the [do] loop of a multi-byte character ends: [return 0], [goto error], or the
    character and [*in]. *)
Inductive trie_seq : Type :=
  | SeqShort
  | SeqError
  | SeqChar (u : Z) (inp : list Z).

(** [left] is [inend - inptr]. *)
Fixpoint trie_utf8_loop (inp : list Z) (left r u m : Z) : res trie_seq :=
  if left <=? 0 then Ok SeqShort
  else
    match inp with
    | [] => Undef
    | c :: inp =>
        if negb (Z.land c 0xc0 =? 0x80) then Ok SeqError
        else
          let u := u32 (Z.lor (Z.shiftl u 6) (Z.land c 0x3f)) in
          let r := u8 (Z.shiftl r 1) in
          let m := u32 (Z.shiftl m 5) in
          if negb (Z.land r 0x40 =? 0) then trie_utf8_loop inp (left - 1) r u m
          else Ok (SeqChar (Z.land u (Z.lnot m)) inp)
    end.

(** [inp] is the memory from [*in] on; the character and the new [*in]. The length [-1]
    of [e_trie_add] is the largest [size_t], which makes [inend] the address before
    [*in]. *)
Definition trie_utf8_getc (inp : list Z) (inlen : Z) : res (Z * list Z) :=
  if inlen =? 0 then Ok (0, inp)
  else
    match inp with
    | [] => Undef
    | r :: inp' =>
        if r <? 0x80 then Ok (r, inp')
        else if r <? 0xfe then
          s ← trie_utf8_loop inp' (inlen - 1) r r 0x7f80;
          Ok match s with
             | SeqShort => (0, inp)
             | SeqError => (0xfffe, inp')
             | SeqChar u inp'' => (u, inp'')
             end
        else Ok (0xfffe, inp')
    end.

(** ** The automaton *)

(** [garbage] is what [g_new] leaves in [root.id]. *)
Definition e_trie_new (garbage : Z) (icase : bool) : ETrie :=
  mkTrie [mkState [] None 0 garbage] [] icase.

(** The state of the entry [g] returns. *)
Fixpoint assoc (m : list (Z * nat)) (c : Z) : option nat :=
  match m with
  | [] => None
  | (c', q) :: m => if c' =? c then Some q else assoc m c
  end.

Definition g (t : ETrie) (s : nat) (c : Z) : option nat := assoc (match_ (state t s)) c.

(** [g_ptr_array_set_size]. *)
Definition grow (l : list (list nat)) (size : nat) : list (list nat) :=
  l ++ replicate (size - length l) [].

Definition trie_insert (t : ETrie) (depth : nat) (q : nat) (c : Z) : ETrie * nat :=
  let q' := length (states t) in
  let t := update t q (set_match ((c, q') :: match_ (state t q))) in
  let sts := states t ++ [mkState [] (Some root) 0 (-1)] in
  let fs := fail_states t in
  let fs := if (length fs <? depth + 1)%nat then grow fs ((length fs + 64) `max` (depth + 1)) else fs in
  let fs := <[depth := q' :: fs !!! depth]> fs in
  (mkTrie sts fs (icase t), q').

Section trie.
Context `{GLibUnicode}.

Definition lower (t : ETrie) (c : Z) : Z := if icase t then g_unichar_tolower c else c.

(** Step 1: the new trie, the last state and the depth. *)
Fixpoint add_loop (fuel : nat) (t : ETrie) (inp : list Z) (q depth : nat)
    : res (ETrie * nat * nat) :=
  match fuel with
  | O => NoFuel
  | S fuel =>
      '(c, inp) ← trie_utf8_getc inp (-1);
      if c =? 0 then Ok (t, q, depth)
      else
        let c := lower t c in
        let '(t, q) := match g t q c with
                       | None => trie_insert t depth q c
                       | Some q' => (t, q')
                       end in
        add_loop fuel t inp q (depth + 1)
  end.

(** [while (r && (n = g (r, c)) == NULL) r = r->fail;]: [r] and the state of [n]. *)
Fixpoint fail_walk (fuel : nat) (t : ETrie) (r : option nat) (c : Z) : res (option (nat * nat)) :=
  match fuel with
  | O => NoFuel
  | S fuel =>
      match r with
      | None => Ok None
      | Some r =>
          match g t r c with
          | Some n => Ok (Some (r, n))
          | None => fail_walk fuel t (fail (state t r)) c
          end
      end
  end.

(** A bound on the length of a chain of failure links. *)
Definition walk_fuel (t : ETrie) : nat := S (length (states t)).

Definition fix_match (q : nat) (m : Z * nat) (t : ETrie) : res ETrie :=
  let '(c, q1) := m in
  r ← fail_walk (walk_fuel t) t (fail (state t q)) c;
  Ok match r with
     | Some (_, n) =>
         let t := update t q1 (set_fail (Some n)) in
         if final (state t q1) <? final (state t n)
         then update t q1 (set_final (final (state t n))) else t
     | None =>
         match g t root c with
         | Some n => update t q1 (set_fail (Some n))
         | None => update t q1 (set_fail (Some root))
         end
     end.

Definition fix_state (q : nat) (t : ETrie) : res ETrie := foldM (fix_match q) (match_ (state t q)) t.

Definition fix_level (level : list nat) (t : ETrie) : res ETrie := foldM fix_state level t.

Definition e_trie_add (t : ETrie) (pattern : list Z) (pattern_id : Z) : res ETrie :=
  '(t, q, depth) ← add_loop (S (length pattern)) t pattern root 0;
  let t := update t q (set_final (Z.of_nat depth)) in
  let t := update t q (set_id pattern_id) in
  foldM fix_level (fail_states t) t.

(** The result is the pointer [pat] and [*matched_id]. *)
Fixpoint search_loop (fuel : nat) (t : ETrie) (inp : list Z) (q : nat) (pat prev : list Z)
    : res (option (list Z * Z)) :=
  match fuel with
  | O => NoFuel
  | S fuel =>
      '(c, inp) ← trie_utf8_getc inp (Z.of_nat (length inp));
      if c =? 0 then Ok None
      else if c =? 0xfffe then search_loop fuel t inp q pat inp
      else
        r ← fail_walk (walk_fuel t) t (Some q) (lower t c);
        match r with
        | None => search_loop fuel t inp root inp inp
        | Some (q, m) =>
            let pat := if (q =? root)%nat then prev else pat in
            if negb (final (state t m) =? 0) then Ok (Some (pat, id (state t m)))
            else search_loop fuel t inp m pat inp
        end
  end.

(** [buffer] holds the [buflen] bytes. *)
Definition e_trie_search (t : ETrie) (buffer : list Z) : res (option (list Z * Z)) :=
  search_loop (S (length buffer)) t buffer root buffer buffer.
End trie.
