(* ===== verification/TrieSpec.v ===== *)
(** * Multi-pattern search: theorems

    The automaton of [Trie] against the set of patterns: each state stands for a prefix
    of a pattern, its failure link for the longest proper suffix that is one too, and
    [final] for the longest pattern that ends there.  [e_trie_add] keeps this, and the
    search stops at the first character at which a pattern ends. *)

From S2P Require Import Prelude Utf8 Utf8Spec Trie.

(** ** Longest suffixes *)

(** The longest suffix of [x] with [P]. *)
Definition longest (P : list Z -> Prop) (x v : list Z) : Prop :=
  v `suffix_of` x /\ P v /\ forall u, u `suffix_of` x -> P u -> (length u <= length v)%nat.

Lemma suffix_shorter (u v x : list Z) :
  u `suffix_of` x -> v `suffix_of` x -> (length u <= length v)%nat -> u `suffix_of` v.
Proof.
  intros Hu Hv Hl. destruct (suffix_weak_total u v x Hu Hv) as [H|H]; [done|].
  by rewrite (suffix_length_eq _ _ H) by done.
Qed.

Lemma longest_suffix P x v u : longest P x v -> u `suffix_of` x -> P u -> u `suffix_of` v.
Proof. intros (Hv & _ & Hmax) Hu HP. apply (suffix_shorter _ _ x); auto. Qed.

Lemma suffix_snoc_cases (u x : list Z) c :
  u `suffix_of` x ++ [c] -> u = [] \/ exists u', u = u' ++ [c] /\ u' `suffix_of` x.
Proof.
  intros [k E]. destruct u as [|a u _] using rev_ind; [by left|]. right.
  rewrite app_assoc in E. apply app_inj_tail in E as [-> ->]. exists u. split; [done|by exists k].
Qed.

Lemma suffix_snoc (u x : list Z) c : u `suffix_of` x -> u ++ [c] `suffix_of` x ++ [c].
Proof. apply suffix_app. Qed.

(** One more character: the longest suffix that can be followed by it. *)
Lemma longest_snoc (Q R : list Z -> Prop) x w v c :
  (forall u, R (u ++ [c]) -> Q u) ->
  longest Q x w -> longest (fun u => R (u ++ [c])) w v -> longest R (x ++ [c]) (v ++ [c]).
Proof.
  intros HQ Hw (Hv & HP & Hmax). split; [|split; [done|]].
  - apply suffix_snoc. transitivity w; [done|by destruct Hw].
  - intros u Hu HR. apply suffix_snoc_cases in Hu as [->|(u' & -> & Hu')]; [simpl; lia|].
    rewrite !length_app. simpl. specialize (Hmax u' (longest_suffix _ _ _ _ Hw Hu' (HQ _ HR)) HR). lia.
Qed.

Lemma longest_snoc_nil (Q R : list Z -> Prop) x w c :
  (forall u, R (u ++ [c]) -> Q u) -> R [] ->
  longest Q x w -> (forall u, u `suffix_of` w -> ~ R (u ++ [c])) -> longest R (x ++ [c]) [].
Proof.
  intros HQ H0 Hw Hno. split; [apply suffix_nil|split; [done|]].
  intros u Hu HR. apply suffix_snoc_cases in Hu as [->|(u' & -> & Hu')]; [done|].
  exfalso. apply (Hno u'); [|done]. apply (longest_suffix _ _ _ _ Hw Hu'), HQ, HR.
Qed.

(** ** The tree of states *)

(** [W] lists the word each state stands for. *)
Record trie_wf (t : ETrie) (W : list (list Z)) : Prop := {
  wf_length : length W = length (states t);
  wf_root : W !! root = Some [];
  wf_nodup : NoDup W;
  wf_short : Forall (fun w => (length w < length W)%nat) W;
  wf_match q w c q1 : W !! q = Some w -> (c, q1) ∈ match_ (state t q) -> W !! q1 = Some (w ++ [c]);
  wf_child q1 w c : W !! q1 = Some (w ++ [c]) -> exists q, W !! q = Some w /\ g t q c = Some q1;
  wf_levels i q : q ∈ fail_states t !!! i <-> exists w, W !! q = Some w /\ length w = S i;
}.

Lemma assoc_elem m c q : assoc m c = Some q -> (c, q) ∈ m.
Proof.
  induction m as [|[c' q'] m IH]; simpl; [done|].
  destruct (Z.eqb_spec c' c) as [->|]; [intros [= ->]; left|]. intros H. right. auto.
Qed.

Section wf.
Context {t : ETrie} {W : list (list Z)} (Hwf : trie_wf t W).

Lemma wf_inj q q' w : W !! q = Some w -> W !! q' = Some w -> q = q'.
Proof. intros H H'. exact (NoDup_lookup _ _ _ _ (wf_nodup _ _ Hwf) H H'). Qed.

Lemma g_spec q w c q1 : W !! q = Some w -> g t q c = Some q1 <-> W !! q1 = Some (w ++ [c]).
Proof.
  intros Hq. split.
  - intros H%assoc_elem. exact (wf_match _ _ Hwf _ _ _ _ Hq H).
  - intros H. destruct (wf_child _ _ Hwf _ _ _ H) as (q' & Hq' & E).
    by rewrite (wf_inj _ _ _ Hq Hq').
Qed.

Lemma wf_closed u c : u ++ [c] ∈ W -> u ∈ W.
Proof.
  intros [q1 H]%list_elem_of_lookup. destruct (wf_child _ _ Hwf _ _ _ H) as (q & Hq & _).
  by eapply list_elem_of_lookup_2.
Qed.

Lemma wf_nil : [] ∈ W.
Proof. eapply list_elem_of_lookup_2, (wf_root _ _ Hwf). Qed.

Lemma g_None q w c : W !! q = Some w -> g t q c = None -> w ++ [c] ∉ W.
Proof.
  intros Hq Hg [q1 H]%list_elem_of_lookup. apply (g_spec _ _ _ _ Hq) in H. congruence.
Qed.

Lemma wf_bound q w : W !! q = Some w -> (q < length (states t))%nat /\ (length w < length (states t))%nat.
Proof.
  intros H. pose proof (lookup_lt_Some _ _ _ H). rewrite (wf_length _ _ Hwf) in *. split; [done|].
  pose proof (wf_short _ _ Hwf) as F. rewrite Forall_lookup, (wf_length _ _ Hwf) in F. eauto.
Qed.
End wf.

(** ** Failure links, [final] and [id] *)

Definition proper (W : list (list Z)) (w u : list Z) : Prop := u ∈ W /\ u <> w.

(** The failure link of state [q], which stands for [w]. *)
Definition fail_ok (t : ETrie) (W : list (list Z)) (q : nat) (w : list Z) : Prop :=
  match fail (state t q) with
  | None => w = []
  | Some f => exists v, W !! f = Some v /\ longest (proper W w) w v
  end.

(** [final] is the length of a pattern that ends there, and of the one that is the whole
    word. *)
Definition final_sound (t : ETrie) (P : list (list Z)) (q : nat) (w : list Z) : Prop :=
  (exists p, p ∈ [] :: P /\ p `suffix_of` w /\ final (state t q) = Z.of_nat (length p)) /\
  (w ∈ P -> final (state t q) = Z.of_nat (length w)).

(** [final] is the length of the longest pattern that ends there. *)
Definition final_ok (t : ETrie) (P : list (list Z)) (q : nat) (w : list Z) : Prop :=
  final_sound t P q w /\
  forall p, p ∈ P -> p `suffix_of` w -> Z.of_nat (length p) <= final (state t q).

(** The states in [D] have their links. *)
Definition linked (t : ETrie) (W P : list (list Z)) (D : nat -> Prop) : Prop :=
  forall q w, W !! q = Some w -> D q -> fail_ok t W q w /\ final_ok t P q w.

(** The identifier given last for [w], or [-1]. *)
Definition id_of (P : list (list Z * Z)) (w : list Z) : Z :=
  foldl (fun i x => if decide (x.1 = w) then x.2 else i) (-1) P.

Lemma longest_proper_shorter W w v : longest (proper W w) w v -> (length v < length w)%nat.
Proof.
  intros (Hv & [_ Hne] & _). pose proof (suffix_length _ _ Hv).
  destruct (decide (length v = length w)) as [E|]; [|lia].
  destruct Hne. apply suffix_length_eq; [done|lia].
Qed.

(** [fail_walk] finds the longest suffix that [c] can follow. *)
Lemma fail_walk_spec t W fuel r w c :
  trie_wf t W -> W !! r = Some w -> (length w + 1 < fuel)%nat ->
  (forall q u, W !! q = Some u -> (length u <= length w)%nat -> fail_ok t W q u) ->
  exists o, fail_walk fuel t (Some r) c = Ok o /\
    match o with
    | None => forall u, u `suffix_of` w -> u ++ [c] ∉ W
    | Some (q, n) => exists v, W !! q = Some v /\ W !! n = Some (v ++ [c]) /\
        longest (fun u => u ++ [c] ∈ W) w v
    end.
Proof.
  intros Hwf. revert r w. induction fuel as [|fuel IH]; intros r w Hr Hfuel Hfail; [lia|].
  cbn [fail_walk]. destruct (g t r c) as [n|] eqn:Hg.
  { apply (g_spec Hwf _ _ _ _ Hr) in Hg. eexists. split; [done|]. exists w. split; [done|]. split; [done|].
    split; [done|]. split; [by eapply list_elem_of_lookup_2|]. intros u Hu _. by apply suffix_length. }
  pose proof (g_None Hwf _ _ _ Hr Hg) as Hno.
  pose proof (Hfail r w Hr (le_n _)) as Hf. unfold fail_ok in Hf.
  destruct (fail (state t r)) as [f|].
  - destruct Hf as (v & Hv & Hlong). pose proof (longest_proper_shorter _ _ _ Hlong) as Hlt.
    assert (forall u, u `suffix_of` w -> u ++ [c] ∈ W -> u `suffix_of` v) as Hsub.
    { intros u Hu HW. apply (longest_suffix _ _ _ _ Hlong Hu). split; [exact (wf_closed Hwf _ _ HW)|].
      intros ->. done. }
    destruct (IH f v Hv) as (o & -> & Ho); [lia|intros; apply Hfail; [done|lia]|].
    exists o. split; [done|]. destruct o as [[q n]|].
    + destruct Ho as (v' & Hq & Hn & Hs & HP & Hmax). exists v'. split; [done|]. split; [done|].
      split; [|split; [done|]]; [|auto].
      transitivity v; [done|]. by destruct Hlong.
    + intros u Hu HW. by apply (Ho u); [apply Hsub|].
  - subst w. destruct fuel as [|fuel]; [simpl in Hfuel; lia|]. exists None. split; [done|].
    intros u ->%suffix_nil_inv. done.
Qed.

(** ** One failure link *)

(** Nothing but links and [final] differs. *)
Definition same_shape (t t' : ETrie) : Prop :=
  length (states t') = length (states t) /\ fail_states t' = fail_states t /\ icase t' = icase t /\
  forall q, match_ (state t' q) = match_ (state t q) /\ id (state t' q) = id (state t q).

#[export] Instance same_shape_preorder : PreOrder same_shape.
Proof.
  split; [by intros t|]. intros t1 t2 t3 (L1 & F1 & I1 & M1) (L2 & F2 & I2 & M2).
  unfold same_shape. rewrite L2, F2, I2. repeat (split; [done|]).
  intros q. destruct (M1 q), (M2 q). split; congruence.
Qed.

Lemma wf_ext t t' W :
  length (states t') = length (states t) -> fail_states t' = fail_states t ->
  (forall q, match_ (state t' q) = match_ (state t q)) -> trie_wf t W -> trie_wf t' W.
Proof.
  intros L F M [Hl Hr Hn Hsh Hm Hc Hlv]. split; try done.
  - by rewrite L.
  - intros q w c q1 Hq. rewrite M. by apply Hm.
  - intros q1 w c H. destruct (Hc q1 w c H) as (q & Hq & E). exists q. unfold g. by rewrite M.
  - intros i q. rewrite F. apply Hlv.
Qed.

Lemma same_shape_wf t t' W : same_shape t t' -> trie_wf t W -> trie_wf t' W.
Proof. intros (L & F & _ & M). apply wf_ext; [done|done|]. intros q. by destruct (M q). Qed.

Lemma state_update t q f q' :
  (q < length (states t))%nat ->
  state (update t q f) q' = if decide (q = q') then f (state t q) else state t q'.
Proof.
  intros Hq. unfold state, update. simpl. case_decide as E.
  - subst. by apply list_lookup_total_insert_eq.
  - by apply list_lookup_total_insert_ne.
Qed.

Lemma same_shape_update t q f :
  (forall s, match_ (f s) = match_ s /\ id (f s) = id s) -> same_shape t (update t q f).
Proof.
  intros Hf. unfold same_shape. simpl. rewrite length_insert. repeat (split; [done|]).
  intros q'. destruct (decide (q < length (states t))%nat) as [Hq|Hq].
  - rewrite state_update by done. case_decide as E; [subst; apply Hf|done].
  - unfold state, update. simpl. rewrite list_insert_ge by lia. done.
Qed.

Lemma proper_snoc W w u c : (u ++ [c] ∈ W /\ u <> w) <-> proper W (w ++ [c]) (u ++ [c]).
Proof.
  unfold proper. split; intros [H1 H2]; (split; [done|]); [|congruence].
  intros [? _]%app_inj_tail. done.
Qed.

Section fix_match.
Context `{GLibUnicode} (W P : list (list Z)) (HPW : forall p, p ∈ P -> p ∈ W).

(** The stores for the link to [n]. *)
Definition store_link (t : ETrie) (q1 n : nat) : ETrie :=
  let t := update t q1 (set_fail (Some n)) in
  if final (state t q1) <? final (state t n) then update t q1 (set_final (final (state t n))) else t.

Lemma store_link_spec t q1 n :
  (q1 < length (states t))%nat -> n <> q1 ->
  same_shape t (store_link t q1 n) /\ (forall x, x <> q1 -> state (store_link t q1 n) x = state t x) /\
  fail (state (store_link t q1 n) q1) = Some n /\
  final (state (store_link t q1 n) q1) = Z.max (final (state t q1)) (final (state t n)).
Proof.
  intros Hb Hne. unfold store_link. set (t1 := update t q1 (set_fail (Some n))).
  assert (state t1 q1 = set_fail (Some n) (state t q1)) as E1
    by (unfold t1; rewrite state_update, decide_True; done).
  assert (forall x, x <> q1 -> state t1 x = state t x) as E2
    by (intros; unfold t1; rewrite state_update, decide_False; done).
  assert (same_shape t t1) as Hs by (by apply same_shape_update).
  assert (q1 < length (states t1))%nat by (destruct Hs as [-> _]; done).
  rewrite E1, (E2 n) by done. cbn [final set_fail].
  destruct (Z.ltb_spec (final (state t q1)) (final (state t n))).
  - split; [etransitivity; [done|by apply same_shape_update]|].
    split; [intros; rewrite state_update, decide_False; auto|].
    rewrite state_update, decide_True, E1 by done. cbn. split; [done|lia].
  - repeat (split; [done|]). rewrite E1. cbn. split; [done|lia].
Qed.

(** What [fix_match] stores in [q1]. *)
Lemma fix_match_run t q w c q1 D :
  trie_wf t W -> W !! q = Some w -> W !! q1 = Some (w ++ [c]) -> w <> [] ->
  (forall q w, W !! q = Some w -> final_sound t P q w) -> linked t W P D ->
  (forall x u, W !! x = Some u -> (length u <= length w)%nat -> D x) ->
  exists t' f v, fix_match q (c, q1) t = Ok t' /\ same_shape t t' /\
    (forall x, x <> q1 -> state t' x = state t x) /\
    W !! f = Some v /\ f <> q1 /\ longest (proper W (w ++ [c])) (w ++ [c]) v /\ D f /\
    fail (state t' q1) = Some f /\ final (state t' q1) = Z.max (final (state t q1)) (final (state t f)).
Proof.
  intros Hwf Hq Hq1 Hw Hsound Hlink HD.
  assert (forall x u, W !! x = Some u -> (length u <= length w)%nat -> fail_ok t W x u) as Hfail.
  { intros x u Hx Hl. apply (Hlink x u Hx). eauto. }
  pose proof (Hfail q w Hq (le_n _)) as Hf. unfold fail_ok in Hf. unfold fix_match.
  destruct (fail (state t q)) as [f0|]; [|done]. destruct Hf as (v0 & Hf0 & Hlong).
  pose proof (longest_proper_shorter _ _ _ Hlong) as Hlt.
  destruct (wf_bound Hwf _ _ Hq1) as [Hb1 Hb2]. rewrite length_app in Hb2. simpl in Hb2.
  destruct (fail_walk_spec t W (walk_fuel t) f0 v0 c Hwf Hf0) as (o & -> & Ho);
    [unfold walk_fuel; lia|intros; apply Hfail; [done|lia]|].
  rewrite res_bind_Ok.
  assert (forall u, proper W (w ++ [c]) (u ++ [c]) -> proper W w u) as Hcl.
  { intros u [HW Hne]%proper_snoc. split; [exact (wf_closed Hwf _ _ HW)|done]. }
  destruct o as [[r n]|].
  - destruct Ho as (v & Hr & Hn & Hv & HvW & Hmax).
    assert (length v <= length v0)%nat by (by apply suffix_length).
    assert (n <> q1) as Hne.
    { intros ->. rewrite Hq1 in Hn. apply (inj Some), app_inj_tail in Hn as [-> _]. lia. }
    assert (longest (proper W (w ++ [c])) (w ++ [c]) (v ++ [c])) as Hlv.
    { apply (longest_snoc _ _ _ v0 _ _ Hcl Hlong). split; [done|]. split.
      - apply proper_snoc. split; [done|]. intros ->. lia.
      - intros u Hu [HW _]. auto. }
    exists (store_link t q1 n), n, (v ++ [c]). split; [done|].
    destruct (store_link_spec t q1 n Hb1 Hne) as (Hs & Ho & Hf & Hm).
    assert (D n) by (apply (HD n _ Hn); rewrite length_app; simpl; lia). done.
  - assert (g t root c = None) as ->.
    { destruct (g t root c) as [n|] eqn:Hg; [|done].
      apply (g_spec Hwf _ _ _ _ (wf_root _ _ Hwf)) in Hg.
      destruct (Ho []); [apply suffix_nil|by eapply list_elem_of_lookup_2]. }
    assert (root <> q1) as Hne.
    { intros E. pose proof (wf_root _ _ Hwf) as Hr. rewrite E, Hq1 in Hr. by destruct w. }
    assert (final (state t root) = 0) as Hz.
    { destruct (Hsound root [] (wf_root _ _ Hwf)) as [(p & _ & ->%suffix_nil_inv & ->) _]. done. }
    assert (0 <= final (state t q1)) by (destruct (Hsound _ _ Hq1) as [(p & _ & _ & ->) _]; lia).
    exists (update t q1 (set_fail (Some root))), root, []. split; [done|].
    split; [by apply same_shape_update|].
    split; [intros; rewrite state_update, decide_False; done|].
    split; [by destruct Hwf|]. split; [done|]. split; [|split].
    + apply (longest_snoc_nil _ _ _ v0 _ Hcl); [|done|].
      * split; [exact (wf_nil Hwf)|]. intros E. by destruct w.
      * intros u Hu [HW _]. exact (Ho u Hu HW).
    + apply (HD root []); [by destruct Hwf|simpl; lia].
    + rewrite state_update, decide_True by done. cbn [fail final set_fail].
      split; [done|]. rewrite Hz. lia.
Qed.

(** The link of [q1] and its [final] are right afterwards, and no others have changed. *)
Lemma fix_match_spec t q w c q1 D :
  trie_wf t W -> W !! q = Some w -> W !! q1 = Some (w ++ [c]) -> w <> [] ->
  (forall q w, W !! q = Some w -> final_sound t P q w) -> linked t W P D ->
  (forall x u, W !! x = Some u -> (length u <= length w)%nat -> D x) ->
  exists t', fix_match q (c, q1) t = Ok t' /\ same_shape t t' /\
    (forall q w, W !! q = Some w -> final_sound t' P q w) /\ linked t' W P (fun x => D x \/ x = q1).
Proof.
  intros Hwf Hq Hq1 Hw Hsound Hlink HD.
  destruct (fix_match_run t q w c q1 D Hwf Hq Hq1 Hw Hsound Hlink HD)
    as (t' & f & v & E & Hs & Hother & Hf & Hne & Hlong & HDf & Ef & En).
  exists t'. split; [done|]. split; [done|].
  destruct (Hlink f v Hf HDf) as [_ [[(p & Hp & Hps & Efin) _] Hmax]].
  pose proof (Hsound q1 _ Hq1) as [(p1 & Hp1 & Hps1 & Efin1) Hown].
  assert (final_sound t' P q1 (w ++ [c])) as Hs1.
  { split.
    - rewrite En, Efin, Efin1. destruct (Z.max_spec (Z.of_nat (length p1)) (Z.of_nat (length p))) as [[_ ->]|[_ ->]].
      + exists p. repeat split; [done|]. transitivity v; [done|by destruct Hlong].
      + by exists p1.
    - intros HP. rewrite En, (Hown HP), Efin. apply suffix_length in Hps.
      apply longest_proper_shorter in Hlong. lia. }
  split.
  - intros x u Hx. destruct (decide (x = q1)) as [->|Hxne]; [by simplify_eq|].
    specialize (Hsound x u Hx). unfold final_sound. by rewrite Hother.
  - intros x u Hx HDx. destruct (decide (x = q1)) as [->|Hxne].
    + simplify_eq. split; [unfold fail_ok; rewrite Ef; by exists v|]. split; [done|].
      intros p' HP' Hp'. rewrite En.
      destruct (decide (p' = w ++ [c])) as [->|Hp'ne]; [rewrite (Hown HP'); lia|].
      specialize (Hmax p' HP'). apply Z.max_le_iff. right. apply Hmax.
      apply (longest_suffix _ _ _ _ Hlong Hp'). split; auto.
    + destruct HDx as [HDx| ->]; [|done]. destruct (Hlink x u Hx HDx) as [H1 H2].
      unfold fail_ok, final_ok, final_sound. rewrite !(Hother x) by done. done.
Qed.

(** ** All of them, level by level *)

(** In the course of step 2, which starts in [t0]. *)
Definition linking (t0 : ETrie) (D : nat -> Prop) (t : ETrie) : Prop :=
  same_shape t0 t /\ (forall q w, W !! q = Some w -> final_sound t P q w) /\ linked t W P D.

(** The states of words of at most [k] characters. *)
Definition upto (k : nat) (x : nat) : Prop := exists u, W !! x = Some u /\ (length u <= k)%nat.

Lemma linking_mono t0 (D D' : nat -> Prop) t :
  (forall x u, W !! x = Some u -> D' x -> D x) -> linking t0 D t -> linking t0 D' t.
Proof.
  intros HD (Hs & Hf & Hl). split; [done|]. split; [done|].
  intros q w Hq HDq. apply (Hl q w Hq). eauto.
Qed.

Section levels.
Context (t0 : ETrie) (Hwf : trie_wf t0 W).

Lemma fix_state_spec t q w (D : nat -> Prop) :
  W !! q = Some w -> w <> [] -> (forall x, upto (length w) x -> D x) -> linking t0 D t ->
  exists t', fix_state q t = Ok t' /\ linking t0 (fun x => D x \/ x ∈ (match_ (state t0 q)).*2) t'.
Proof.
  intros Hq Hw HD Hlk. unfold fix_state.
  assert (match_ (state t q) = match_ (state t0 q)) as -> by (destruct Hlk as [(_ & _ & _ & M) _]; apply M).
  apply (foldM_inv _ (fun done => linking t0 (fun x => D x \/ x ∈ done.*2))).
  { eapply linking_mono; [|done]. intros x u _ [?|Hx]; [done|by apply not_elem_of_nil in Hx]. }
  intros dn [c q1] rest s Em (Hs & Hf & Hl).
  assert (W !! q1 = Some (w ++ [c])) as Hq1.
  { apply (wf_match _ _ Hwf _ _ _ _ Hq). rewrite Em. apply elem_of_app. right. left. }
  destruct (fix_match_spec s q w c q1 _ (same_shape_wf _ _ _ Hs Hwf) Hq Hq1 Hw Hf Hl) as (s' & E & Hs' & Hf' & Hl').
  { intros x u Hx Hlen. left. apply HD. by exists u. }
  exists s'. split; [done|]. split; [by etransitivity|]. split; [done|].
  intros x u Hx HDx. apply (Hl' x u Hx). rewrite fmap_app, elem_of_app in HDx.
  destruct HDx as [?|[?|Hx']]; [by do 2 left|by left; right|].
  apply list_elem_of_singleton in Hx'. by right.
Qed.

Lemma fix_level_spec t i :
  linking t0 (upto (S i)) t ->
  exists t', fix_level (fail_states t0 !!! i) t = Ok t' /\ linking t0 (upto (S (S i))) t'.
Proof.
  intros Hlk. unfold fix_level.
  destruct (foldM_inv fix_state
    (fun done => linking t0 (fun x => upto (S i) x \/ exists q, q ∈ done /\ x ∈ (match_ (state t0 q)).*2))
    (fail_states t0 !!! i) t) as (t' & E & Ht').
  - eapply linking_mono; [|done]. intros x u _ [?|(q & Hq & _)]; [done|by apply not_elem_of_nil in Hq].
  - intros dn q rest s El Hs.
    assert (q ∈ fail_states t0 !!! i) as Hin by (rewrite El; apply elem_of_app; right; left).
    apply (wf_levels _ _ Hwf) in Hin as (w & Hq & Hw).
    eassert _ as Hfix by (eapply (fix_state_spec s q w _ Hq); [| |exact Hs]; [by intros ->|];
      intros x Hx; rewrite Hw in Hx; left; exact Hx).
    destruct Hfix as (s' & E & Hs').
    exists s'. split; [done|]. eapply linking_mono; [|done].
    intros x u _ [?|(q' & [Hq'|Hq']%elem_of_app & Hx)]; [by do 2 left|left; right; eauto|].
    apply list_elem_of_singleton in Hq' as ->. by right.
  - exists t'. split; [done|]. eapply linking_mono; [|done].
    intros x u Hx (u' & Hx' & Hlen). simplify_eq.
    destruct (decide (length u = S (S i))) as [El|]; [right|left; exists u; split; [done|lia]].
    destruct u as [|c u _] using rev_ind; [done|]. rewrite length_app in El. simpl in El.
    destruct (wf_child _ _ Hwf _ _ _ Hx) as (q & Hq & Hg). exists q. split.
    + apply (wf_levels _ _ Hwf). exists u. split; [done|lia].
    + apply assoc_elem in Hg. apply list_elem_of_fmap. by exists (c, x).
Qed.

(** Step 2 sets every link. *)
Lemma fix_levels_spec t :
  same_shape t0 t -> (forall q w, W !! q = Some w -> final_sound t P q w) -> linked t W P (upto 1) ->
  exists t', foldM fix_level (fail_states t0) t = Ok t' /\ same_shape t0 t' /\
    linked t' W P (fun _ => True).
Proof.
  intros Hs Hf Hl.
  destruct (foldM_inv fix_level (fun done => linking t0 (upto (S (length done)))) (fail_states t0) t)
    as (t' & E & Hs' & _ & Hl').
  - done.
  - intros dn level rest s El Hs1.
    assert (fail_states t0 !!! length dn = level) as Elv by (rewrite El; by apply list_lookup_total_middle).
    destruct (fix_level_spec s (length dn) Hs1) as (s' & E & Hs'). rewrite Elv in E.
    exists s'. split; [done|]. by rewrite length_app, Nat.add_1_r.
  - exists t'. split; [done|]. split; [done|]. intros q w Hq _. apply (Hl' q w Hq). exists w. split; [done|].
    destruct (length w) as [|j] eqn:Ew; [lia|].
    destruct (decide (j < length (fail_states t0))%nat); [lia|].
    assert (q ∈ fail_states t0 !!! j) as Hin by (apply (wf_levels _ _ Hwf); eauto).
    rewrite list_lookup_total_alt, lookup_ge_None_2 in Hin by lia. by apply not_elem_of_nil in Hin.
Qed.
End levels.
End fix_match.

(** ** Insertion *)

(** The states of [t] are in [t'] with their links, and the others are new. *)
Definition extends (t t' : ETrie) (W W' : list (list Z)) : Prop :=
  icase t' = icase t /\ exists N, W' = W ++ N /\
    (forall q, (q < length W)%nat -> fail (state t' q) = fail (state t q) /\
       final (state t' q) = final (state t q) /\ id (state t' q) = id (state t q)) /\
    (forall q, (length W <= q < length W')%nat -> fail (state t' q) = Some root /\
       final (state t' q) = 0 /\ id (state t' q) = -1).

Lemma extends_refl t W : extends t t W W.
Proof. split; [done|]. exists []. rewrite app_nil_r. split; [done|]. split; [done|lia]. Qed.

Lemma extends_trans t1 t2 t3 W1 W2 W3 :
  extends t1 t2 W1 W2 -> extends t2 t3 W2 W3 -> extends t1 t3 W1 W3.
Proof.
  intros (I1 & N1 & -> & O1 & E1) (I2 & N2 & -> & O2 & E2). split; [congruence|].
  exists (N1 ++ N2). rewrite app_assoc. split; [done|]. rewrite !length_app in *. split.
  - intros q Hq. destruct (O1 q) as (? & ? & ?), (O2 q) as (? & ? & ?); [lia..|]. repeat split; congruence.
  - intros q Hq. destruct (decide (q < length W1 + length N1)%nat) as [Hlt|].
    + destruct (O2 q Hlt) as (-> & -> & ->). apply E1. lia.
    + apply E2. lia.
Qed.

(** The states after an insertion. *)
Lemma trie_insert_state t depth q c x :
  (q < length (states t))%nat ->
  state (trie_insert t depth q c).1 x =
    if decide (x = length (states t)) then mkState [] (Some root) 0 (-1)
    else if decide (q = x) then set_match ((c, length (states t)) :: match_ (state t q)) (state t q)
    else state t x.
Proof.
  intros Hq. unfold trie_insert, state at 1. cbn [fst states update].
  assert (length (<[q:=set_match ((c, length (states t)) :: match_ (state t q)) (state t q)]> (states t))
    = length (states t)) as El by apply length_insert.
  case_decide as E1; [|destruct (decide (x < length (states t))%nat) as [Hx|Hx]].
  - subst x. by apply list_lookup_total_middle.
  - rewrite list_lookup_total_alt, lookup_app_l, <- list_lookup_total_alt by (rewrite El; lia).
    case_decide as E2; [subst; by apply list_lookup_total_insert_eq|by apply list_lookup_total_insert_ne].
  - rewrite list_lookup_total_alt, lookup_ge_None_2 by (rewrite length_app, El; simpl; lia).
    rewrite decide_False by lia. unfold state. rewrite list_lookup_total_alt, lookup_ge_None_2 by lia. done.
Qed.

Lemma trie_insert_levels t depth q c i :
  fail_states (trie_insert t depth q c).1 !!! i =
    if decide (i = depth) then length (states t) :: fail_states t !!! i else fail_states t !!! i.
Proof.
  unfold trie_insert. cbn [fst fail_states update].
  set (fs := if (length (fail_states t) <? depth + 1)%nat then _ else _).
  assert (forall j, fs !!! j = fail_states t !!! j) as Hfs.
  { intros j. unfold fs. destruct (_ <? _)%nat; [|done]. unfold grow.
    rewrite !list_lookup_total_alt. destruct (decide (j < length (fail_states t))%nat) as [Hj|Hj].
    - by rewrite lookup_app_l by lia.
    - rewrite lookup_app_r, (lookup_ge_None_2 (fail_states t)) by lia.
      destruct (replicate _ _ !! _) eqn:E; [|done]. by apply lookup_replicate in E as [-> _]. }
  assert (depth < length fs)%nat as Hlen.
  { unfold fs. destruct (Nat.ltb_spec (length (fail_states t)) (depth + 1)); [|lia].
    unfold grow. rewrite length_app, length_replicate. lia. }
  case_decide as E; [subst; rewrite list_lookup_total_insert_eq by done; by rewrite Hfs|].
  rewrite list_lookup_total_insert_ne by done. apply Hfs.
Qed.

Section insert.
Context (t : ETrie) (W : list (list Z)) (q : nat) (w : list Z) (c : Z).
Context (Hwf : trie_wf t W) (Hq : W !! q = Some w) (Hg : g t q c = None).

Let t' := (trie_insert t (length w) q c).1.
Let W' := W ++ [w ++ [c]].

Lemma insert_lookup x u :
  W' !! x = Some u <-> W !! x = Some u \/ x = length (states t) /\ u = w ++ [c].
Proof.
  pose proof (wf_length _ _ Hwf) as Hlen.
  unfold W'. rewrite lookup_app_Some, list_lookup_singleton_Some, Hlen. split.
  - intros [?|(? & ? & ?)]; [by left|right; split; [lia|done]].
  - intros [?|[-> ->]]; [by left|right]. split; [lia|]. split; [lia|done].
Qed.

Lemma insert_old x u : W !! x = Some u -> x <> length (states t).
Proof. intros Hx. apply (wf_bound Hwf) in Hx. lia. Qed.

Lemma insert_state x :
  state t' x =
    if decide (x = length (states t)) then mkState [] (Some root) 0 (-1)
    else if decide (q = x) then set_match ((c, length (states t)) :: match_ (state t q)) (state t q)
    else state t x.
Proof. apply trie_insert_state. by destruct (wf_bound Hwf _ _ Hq). Qed.

Lemma insert_g x u d :
  W !! x = Some u ->
  g t' x d = if decide (x = q /\ d = c) then Some (length (states t)) else g t x d.
Proof.
  intros Hx. unfold g. rewrite insert_state, (decide_False (P := x = _)) by (by eapply insert_old).
  case_decide as E.
  - subst x. cbn [match_ set_match assoc]. destruct (Z.eqb_spec c d) as [->|].
    + by rewrite decide_True.
    + rewrite decide_False; [done|]. by intros [_ ->].
  - rewrite decide_False; [done|]. by intros [-> _].
Qed.

Lemma insert_match x u d y :
  W' !! x = Some u -> (d, y) ∈ match_ (state t' x) -> W' !! y = Some (u ++ [d]).
Proof.
  intros [Hx|[-> ->]]%insert_lookup Hin.
  - rewrite insert_state, (decide_False (P := x = _)) in Hin by (by eapply insert_old).
    apply insert_lookup. case_decide as E; [|left; by eapply wf_match].
    subst x. rewrite Hx in Hq. injection Hq as ->. cbn [match_ set_match] in Hin.
    apply elem_of_cons in Hin as [[= -> ->]|Hin]; [by right|left; by eapply wf_match].
  - rewrite insert_state, decide_True in Hin by done. cbn in Hin. by apply not_elem_of_nil in Hin.
Qed.

Lemma insert_child y u d : W' !! y = Some (u ++ [d]) -> exists x, W' !! x = Some u /\ g t' x d = Some y.
Proof.
  intros [Hy|[-> [-> ->]%app_inj_tail]]%insert_lookup.
  - destruct (wf_child _ _ Hwf _ _ _ Hy) as (x & Hx & Ex). exists x. split; [apply insert_lookup; by left|].
    rewrite (insert_g _ _ _ Hx), decide_False; [done|]. intros [-> ->]. congruence.
  - exists q. split; [apply insert_lookup; by left|]. by rewrite (insert_g _ _ _ Hq), decide_True.
Qed.

Lemma insert_levels i x :
  x ∈ fail_states t' !!! i <-> exists u, W' !! x = Some u /\ length u = S i.
Proof.
  unfold t'. rewrite trie_insert_levels. split.
  - intros Hin. assert (x ∈ fail_states t !!! i \/ i = length w /\ x = length (states t)) as [Hi|[-> ->]].
    { case_decide as E; [|by left]. apply elem_of_cons in Hin as [->|?]; [by right|by left]. }
    + apply (wf_levels _ _ Hwf) in Hi as (u & Hu & ?). exists u. split; [apply insert_lookup; by left|done].
    + exists (w ++ [c]). split; [apply insert_lookup; by right|]. rewrite length_app. simpl. lia.
  - intros (u & [Hu|[-> ->]]%insert_lookup & El).
    + assert (x ∈ fail_states t !!! i) by (apply (wf_levels _ _ Hwf); eauto).
      case_decide; [by right|done].
    + rewrite length_app in El. simpl in El. rewrite decide_True by lia. left.
Qed.

Lemma insert_sizes : length (states t') = S (length (states t)) /\ icase t' = icase t.
Proof. unfold t', trie_insert. cbn. rewrite length_app, length_insert. simpl. split; [lia|done]. Qed.

Lemma trie_insert_wf : trie_wf t' W'.
Proof.
  pose proof (wf_length _ _ Hwf) as Hlen. split.
  - unfold W'. rewrite length_app, (proj1 insert_sizes). simpl. lia.
  - apply insert_lookup. left. by destruct Hwf.
  - unfold W'. apply NoDup_app. split; [by destruct Hwf|]. split; [|apply NoDup_singleton].
    intros u Hu ->%list_elem_of_singleton. exact (g_None Hwf _ _ _ Hq Hg Hu).
  - unfold W'. rewrite length_app. apply Forall_app. split.
    + eapply Forall_impl; [apply (wf_short _ _ Hwf)|]. simpl. lia.
    + apply Forall_singleton. rewrite length_app. apply (wf_bound Hwf) in Hq. simpl. lia.
  - apply insert_match.
  - apply insert_child.
  - apply insert_levels.
Qed.

Lemma trie_insert_extends : extends t t' W W'.
Proof.
  pose proof (wf_length _ _ Hwf) as Hlen.
  split; [apply insert_sizes|]. exists [w ++ [c]]. split; [done|]. rewrite Hlen. split.
  - intros x Hx. rewrite insert_state, (decide_False (P := x = _)) by lia. case_decide as E; [by subst|done].
  - unfold W'. rewrite length_app. simpl. intros x Hx. rewrite insert_state, decide_True by lia. done.
Qed.

Lemma trie_insert_new : W' !! (trie_insert t (length w) q c).2 = Some (w ++ [c]).
Proof. apply insert_lookup. by right. Qed.
End insert.

(** ** Adding a pattern *)

(** The characters [e_trie_add] reads: up to the NUL or the first byte of a character
    that is not ASCII; [0xfe] and [0xff] are read as [0xfffe]. *)
Fixpoint pattern_chars (inp : list Z) : list Z :=
  match inp with
  | [] => []
  | c :: inp =>
      if c =? 0 then []
      else if c <? 0x80 then c :: pattern_chars inp
      else if c <? 0xfe then []
      else 0xfffe :: pattern_chars inp
  end.

(** What is entered and searched for. *)
Definition fold_case `{GLibUnicode} (icase : bool) (c : Z) : Z := if icase then g_unichar_tolower c else c.

Definition pattern_key `{GLibUnicode} (icase : bool) (inp : list Z) : list Z :=
  map (fold_case icase) (pattern_chars inp).

Lemma trie_utf8_loop_neg inp left r u m : left <= 0 -> trie_utf8_loop inp left r u m = Ok SeqShort.
Proof. intros. destruct inp; cbn [trie_utf8_loop]; by destruct (Z.leb_spec left 0); [|lia]. Qed.

Lemma getc_add c inp :
  (exists inp', trie_utf8_getc (c :: inp) (-1) = Ok (0, inp') /\ pattern_chars (c :: inp) = []) \/
  (exists d, trie_utf8_getc (c :: inp) (-1) = Ok (d, inp) /\ d <> 0 /\ c <> 0 /\
     pattern_chars (c :: inp) = d :: pattern_chars inp).
Proof.
  unfold trie_utf8_getc. change (-1 =? 0) with false. cbv iota.
  rewrite trie_utf8_loop_neg by lia. cbn [pattern_chars].
  destruct (Z.eqb_spec c 0) as [->|Hc]; [left; by eexists|].
  destruct (c <? 0x80); [right; by exists c|].
  destruct (c <? 0xfe); [left; by eexists|right; by exists 0xfffe].
Qed.

Lemma wf_prefix {t W} (Hwf : trie_wf t W) u w : u `prefix_of` w -> w ∈ W -> u ∈ W.
Proof.
  intros [k ->]. induction k as [|c k IH] using rev_ind; [by rewrite app_nil_r|].
  rewrite app_assoc. intros H%(wf_closed Hwf). auto.
Qed.

Lemma extends_sub t t' W W' u : extends t t' W W' -> u ∈ W -> u ∈ W'.
Proof. intros (_ & N & -> & _) Hu. apply elem_of_app. by left. Qed.

Section add.
Context `{GLibUnicode}.

(** One character of the pattern. *)
Lemma add_char t W q w c :
  trie_wf t W -> W !! q = Some w ->
  exists t' q' W', match g t q c with None => trie_insert t (length w) q c | Some q' => (t, q') end = (t', q') /\
    trie_wf t' W' /\ W' !! q' = Some (w ++ [c]) /\ extends t t' W W' /\
    (forall u, u ∈ W' -> u ∈ W \/ u = w ++ [c]).
Proof.
  intros Hwf Hq. destruct (g t q c) as [q'|] eqn:Hg.
  - apply (g_spec Hwf _ _ _ _ Hq) in Hg. exists t, q', W. repeat (split; [done|]).
    split; [apply extends_refl|]. by left.
  - exists (trie_insert t (length w) q c).1, (trie_insert t (length w) q c).2, (W ++ [w ++ [c]]).
    split; [by destruct (trie_insert t (length w) q c)|].
    split; [by apply trie_insert_wf|]. split; [by apply trie_insert_new|].
    split; [by apply trie_insert_extends|]. intros u [?|?%list_elem_of_singleton]%elem_of_app; [by left|by right].
Qed.

Lemma add_loop_spec fuel t W inp q w :
  trie_wf t W -> W !! q = Some w -> 0 ∈ inp -> (length inp < fuel)%nat ->
  let key := pattern_key (icase t) inp in
  exists t' q' W', add_loop fuel t inp q (length w) = Ok (t', q', length (w ++ key)) /\
    trie_wf t' W' /\ W' !! q' = Some (w ++ key) /\ extends t t' W W' /\
    (forall u, u ∈ W' -> u ∈ W \/ u `prefix_of` w ++ key).
Proof.
  revert t W inp q w. induction fuel as [|fuel IH]; intros t W inp q w Hwf Hq H0 Hfuel key; [lia|].
  destruct inp as [|c inp]; [by apply not_elem_of_nil in H0|].
  cbn [add_loop]. destruct (getc_add c inp) as [(inp' & -> & E)|(d & -> & Hd & Hc & E)];
    rewrite res_bind_Ok; unfold key, pattern_key; rewrite E.
  - exists t, q, W. cbn [map]. rewrite app_nil_r. repeat (split; [done|]). split; [apply extends_refl|by left].
  - destruct (Z.eqb_spec d 0); [done|]. cbv zeta. cbn [map]. change (lower t d) with (fold_case (icase t) d).
    set (e := fold_case (icase t) d). fold (pattern_key (icase t) inp).
    destruct (add_char t W q w e Hwf Hq) as (t1 & q1 & W1 & -> & Hwf1 & Hq1 & Hext & Hnew).
    apply elem_of_cons in H0 as [?|H0]; [done|]. simpl in Hfuel.
    destruct (IH t1 W1 inp q1 (w ++ [e]) Hwf1 Hq1 H0) as (t2 & q2 & W2 & E2 & Hwf2 & Hq2 & Hext2 & Hnew2); [lia|].
    pose proof Hext as (Ei & _). rewrite Ei, <- app_assoc in E2, Hq2, Hnew2.
    rewrite length_app in E2 at 1. cbn [length] in E2. rewrite E2.
    exists t2, q2, W2. repeat (split; [done|]). split; [by eapply extends_trans|].
    intros u [Hu| Hu]%Hnew2; [|by right]. apply Hnew in Hu as [?| ->]; [by left|right].
    exists (pattern_key (icase t) inp). by rewrite <- app_assoc.
Qed.

(** ** The state of an [ETrie] *)

(** The automaton of the keys and identifiers [P]. *)
Definition trie_ok (t : ETrie) (P : list (list Z * Z)) : Prop :=
  exists W, trie_wf t W /\
    (forall w, w ∈ W <-> w = [] \/ exists p, p ∈ P.*1 /\ w `prefix_of` p) /\
    linked t W P.*1 (fun _ => True) /\
    (forall q w, W !! q = Some w -> w <> [] -> id (state t q) = id_of P w).

Lemma trie_new_ok garbage icase : trie_ok (e_trie_new garbage icase) [].
Proof.
  assert (forall x (u : list Z), [[]] !! x = Some u -> x = root /\ u = []) as Hone.
  { intros x u Hx. by apply list_lookup_singleton_Some in Hx as [-> <-]. }
  exists [[]]. split; [split|split; [|split]].
  - done.
  - done.
  - apply NoDup_singleton.
  - apply Forall_singleton. simpl. lia.
  - intros q w c q1 [-> ->]%Hone Hin. by apply not_elem_of_nil in Hin.
  - intros q1 w c [_ Hx]%Hone. by destruct w.
  - intros i q. split; [intros Hin; by apply not_elem_of_nil in Hin|]. intros (w & [_ ->]%Hone & ?). done.
  - intros w. rewrite list_elem_of_singleton. split; [by left|]. intros [?|(p & Hp & _)]; [done|].
    by apply not_elem_of_nil in Hp.
  - intros q w [-> ->]%Hone _. split; [done|]. split; [split|].
    + exists []. split; [left|]. split; [apply suffix_nil|done].
    + intros Hp. by apply not_elem_of_nil in Hp.
    + intros p Hp. by apply not_elem_of_nil in Hp.
  - intros q w [_ ->]%Hone Hw. done.
Qed.

Lemma id_of_snoc P p i w : id_of (P ++ [(p, i)]) w = if decide (p = w) then i else id_of P w.
Proof. unfold id_of. by rewrite foldl_app. Qed.

Lemma id_of_none P w : w ∉ P.*1 -> id_of P w = -1.
Proof.
  induction P as [|[p i] P IH] using rev_ind; [done|]. rewrite fmap_app, not_elem_of_app.
  intros [Hw Hp]. rewrite id_of_snoc, decide_False; [auto|]. intros ->. apply Hp. left.
Qed.

Section marked.
Context (t t1 : ETrie) (W W1 : list (list Z)) (P : list (list Z * Z)) (q : nat) (key : list Z) (i : Z).
Context (Hwf : trie_wf t W) (Hwf1 : trie_wf t1 W1) (Hext : extends t t1 W W1).
Context (HPW : forall p, p ∈ P.*1 -> p ∈ W) (Hlink : linked t W P.*1 (fun _ => True)).
Context (Hid : forall x w, W !! x = Some w -> w <> [] -> id (state t x) = id_of P w).
Context (Hq : W1 !! q = Some key).

(** The pattern's last state is marked. *)
Definition marked : ETrie := update (update t1 q (set_final (Z.of_nat (length key)))) q (set_id i).

Lemma marked_state x :
  state marked x =
    if decide (q = x) then mkState (match_ (state t1 q)) (fail (state t1 q)) (Z.of_nat (length key)) i
    else state t1 x.
Proof.
  destruct (wf_bound Hwf1 _ _ Hq) as [Hb _]. unfold marked.
  rewrite state_update by (cbn; by rewrite length_insert). case_decide as E.
  - subst x. by rewrite state_update, decide_True.
  - by rewrite state_update, decide_False.
Qed.

Lemma marked_wf : trie_wf marked W1.
Proof.
  apply (wf_ext t1); [cbn; by rewrite !length_insert|done|..|done].
  intros x. rewrite marked_state. case_decide; [by subst|done].
Qed.

(** A state is the marked one, an old one or a new one. *)
Lemma marked_cases x u :
  W1 !! x = Some u ->
  x = q /\ u = key \/
  x <> q /\ u <> key /\ W !! x = Some u /\ fail (state marked x) = fail (state t x) /\
    final (state marked x) = final (state t x) /\ id (state marked x) = id (state t x) \/
  x <> q /\ u <> key /\ (u ∉ W) /\ fail (state marked x) = Some root /\
    final (state marked x) = 0 /\ id (state marked x) = -1.
Proof.
  intros Hx. destruct (decide (q = x)) as [<-|Hne]; [left; split; [done|congruence]|]. right.
  assert (u <> key) as Hu by (intros ->; by apply Hne, (wf_inj Hwf1 _ _ key)).
  rewrite marked_state, decide_False by done.
  pose proof Hext as (_ & N & EN & Hold & Hnew). rewrite EN in Hx.
  apply lookup_app_Some in Hx as [Hx|[Hge Hx]].
  - left. pose proof (lookup_lt_Some _ _ _ Hx) as Hlt. destruct (Hold x Hlt) as (? & ? & ?). done.
  - right. repeat (split; [done|]). split.
    + intros Hin. pose proof (wf_nodup _ _ Hwf1) as Hn. rewrite EN in Hn.
      apply NoDup_app in Hn as (_ & Hn & _). by apply (Hn u Hin), (list_elem_of_lookup_2 _ _ _ Hx).
    + apply Hnew. rewrite EN, length_app. apply lookup_lt_Some in Hx. lia.
Qed.

Lemma marked_sound x u : W1 !! x = Some u -> final_sound marked (P ++ [(key, i)]).*1 x u.
Proof.
  intros Hx. rewrite fmap_app. unfold final_sound.
  destruct (marked_cases x u Hx) as [[-> ->]|[(Hne & Hu & HxW & _ & -> & _)|(Hne & Hu & HuW & _ & -> & _)]].
  - rewrite marked_state, decide_True by done. cbn [final]. split; [|done].
    exists key. split; [right; apply elem_of_app; right; left|done].
  - destruct (Hlink x u HxW I) as [_ [[(p & Hp & ? & ?) Hown] _]]. split.
    + exists p. split; [|done]. apply elem_of_cons in Hp as [->|?]; [left|right; apply elem_of_app; by left].
    + intros [?|Hin]%elem_of_app; [auto|]. by apply list_elem_of_singleton in Hin.
  - split; [exists []; split; [left|split; [apply suffix_nil|done]]|].
    intros [Hin|Hin]%elem_of_app; [by apply HPW in Hin|by apply list_elem_of_singleton in Hin].
Qed.

(** The links of the root and its children are right already. *)
Lemma marked_fail x u :
  W1 !! x = Some u -> (length u <= 1)%nat -> fail (state marked x) = if decide (u = []) then None else Some root.
Proof.
  intros Hx Hlen.
  assert (fail (state marked x) = fail (state t1 x)) as ->
    by (rewrite marked_state; case_decide; [by subst|done]).
  pose proof Hext as (_ & N & EN & Hold & Hnew). pose proof Hx as Hx1. rewrite EN in Hx1.
  apply lookup_app_Some in Hx1 as [HxW|[Hge HxN]].
  - destruct (Hold x (lookup_lt_Some _ _ _ HxW)) as [-> _].
    destruct (Hlink x u HxW I) as [Hf _]. unfold fail_ok in Hf.
    destruct (fail (state t x)) as [f|]; [|by rewrite decide_True].
    destruct Hf as (v & Hf & Hlong). apply longest_proper_shorter in Hlong as Hlt.
    rewrite decide_False by (intros ->; simpl in Hlt; lia). f_equal.
    apply (wf_inj Hwf _ _ v); [done|]. destruct v; [apply (wf_root _ _ Hwf)|simpl in Hlt; lia].
  - rewrite decide_False.
    + apply Hnew. rewrite EN, length_app. apply lookup_lt_Some in HxN. lia.
    + intros ->. pose proof (wf_inj Hwf1 _ _ _ Hx (wf_root _ _ Hwf1)) as ->.
      apply lookup_lt_Some in Hx. pose proof (lookup_lt_Some _ _ _ (wf_root _ _ Hwf)). lia.
Qed.

Lemma marked_linked : linked marked W1 (P ++ [(key, i)]).*1 (upto W1 1).
Proof.
  intros x u Hx (u0 & Hx' & Hlen). simplify_eq. split.
  - unfold fail_ok. rewrite (marked_fail x u Hx Hlen). case_decide as E; [done|].
    exists []. split; [apply (wf_root _ _ Hwf1)|]. split; [apply suffix_nil|split].
    + split; [exact (wf_nil Hwf1)|done].
    + intros v Hv [_ Hne]. apply suffix_length in Hv as Hl.
      destruct v; [done|]. simpl in Hl. destruct Hne. apply suffix_length_eq; [done|simpl; lia].
  - split; [by apply marked_sound|]. intros p Hp Hs.
    destruct (marked_sound x u Hx) as [(p' & _ & _ & E) Hown].
    destruct (decide (p = u)) as [->|Hne]; [rewrite Hown by done; lia|].
    apply suffix_length in Hs as Hl. destruct p; [simpl; lia|]. simpl in Hl.
    destruct Hne. apply suffix_length_eq; [done|simpl; lia].
Qed.

Lemma marked_id x u : W1 !! x = Some u -> u <> [] -> id (state marked x) = id_of (P ++ [(key, i)]) u.
Proof.
  intros Hx Hu. rewrite id_of_snoc.
  destruct (marked_cases x u Hx) as [[-> ->]|[(Hne & Hk & HxW & _ & _ & ->)|(Hne & Hk & HuW & _ & _ & ->)]].
  - by rewrite marked_state, !decide_True.
  - rewrite decide_False by auto. by apply Hid.
  - rewrite decide_False by auto. symmetry. apply id_of_none. auto.
Qed.
End marked.

(** [e_trie_add] enters the pattern. *)
Lemma e_trie_add_ok t P pattern i :
  trie_ok t P -> 0 ∈ pattern ->
  exists t', e_trie_add t pattern i = Ok t' /\ icase t' = icase t /\
    trie_ok t' (P ++ [(pattern_key (icase t) pattern, i)]).
Proof.
  intros (W & Hwf & HW & Hlink & Hid) H0. set (key := pattern_key (icase t) pattern).
  assert (forall p, p ∈ P.*1 -> p ∈ W) as HPW by (intros p Hp; apply HW; right; by exists p).
  destruct (add_loop_spec (S (length pattern)) t W pattern root [] Hwf (wf_root _ _ Hwf) H0)
    as (t1 & q & W1 & E & Hwf1 & Hq & Hext & Hnew); [lia|].
  unfold e_trie_add. change 0%nat with (length (@nil Z)). rewrite E, res_bind_Ok.
  cbn [app] in Hq, Hnew |- *. fold key in Hq, Hnew |- *. cbv zeta. fold (marked t1 q key i).
  assert (forall p, p ∈ (P ++ [(key, i)]).*1 -> p ∈ W1) as HPW1.
  { intros p. rewrite fmap_app. intros [Hp|Hp]%elem_of_app; [by apply (extends_sub _ _ _ _ _ Hext), HPW|].
    apply list_elem_of_singleton in Hp as ->. by eapply list_elem_of_lookup_2. }
  pose proof (marked_wf t1 W1 q key i Hwf1 Hq) as Hwf2.
  destruct (fix_levels_spec W1 (P ++ [(key, i)]).*1 HPW1 _ Hwf2 (marked t1 q key i)) as (t2 & E2 & Hs & Hl2).
  - done.
  - intros. by eapply (marked_sound t t1 W W1).
  - by eapply (marked_linked t t1 W W1).
  - exists t2. split; [done|]. pose proof Hs as (_ & _ & Ei & M).
    split; [rewrite Ei; by destruct Hext|]. exists W1. split; [|split; [|split; [done|]]].
    + by eapply same_shape_wf.
    + intros w. split.
      * intros [Hw|Hw]%Hnew.
        -- apply HW in Hw as [?|(p & Hp & ?)]; [by left|right]. exists p.
           split; [rewrite fmap_app; apply elem_of_app; by left|done].
        -- right. exists key. split; [rewrite fmap_app; apply elem_of_app; right; left|done].
      * intros [->|(p & Hp & Hpre)]; [exact (wf_nil Hwf1)|]. eapply (wf_prefix Hwf1); [done|auto].
    + intros x w Hx Hw. destruct (M x) as [_ ->]. by eapply (marked_id t t1 W W1).
Qed.
End add.
