(* ===== verification/TrieSearchSpec.v ===== *)
(** * Multi-pattern search: the search

    What [e_trie_search] reads, and the theorems about [Trie] as a whole: the keys of the patterns
    that are added are found, the first of them to end. *)

From S2P Require Import Prelude Utf8 Utf8Spec Trie TrieSpec.

(** ** The text *)

Lemma trie_utf8_loop_total inp r u m :
  exists s, trie_utf8_loop inp (Z.of_nat (length inp)) r u m = Ok s /\
    forall v rest, s = SeqChar v rest -> (length rest < length inp)%nat.
Proof.
  revert r u m. induction inp as [|c inp IH]; intros r u m; [by exists SeqShort|].
  cbn [trie_utf8_loop length]. destruct (Z.leb_spec (Z.of_nat (S (length inp))) 0); [lia|].
  destruct (negb (Z.land c 0xc0 =? 0x80)); [by exists SeqError|]. cbv zeta.
  replace (Z.of_nat (S (length inp)) - 1) with (Z.of_nat (length inp)) by lia.
  destruct (negb _).
  - edestruct IH as (s & -> & Hs). exists s. split; [done|]. intros v rest E. specialize (Hs v rest E). lia.
  - eexists. split; [done|]. intros v rest [= _ ->]. lia.
Qed.

(** The search reads a character or stops, and reads nothing outside the buffer. *)
Lemma getc_search inp :
  exists c inp', trie_utf8_getc inp (Z.of_nat (length inp)) = Ok (c, inp') /\
    (c <> 0 -> (length inp' < length inp)%nat).
Proof.
  unfold trie_utf8_getc. destruct inp as [|r inp]; [by exists 0, []|].
  destruct (Z.eqb_spec (Z.of_nat (length (r :: inp))) 0); [done|].
  destruct (r <? 0x80); [exists r, inp; split; [done|simpl; lia]|].
  destruct (r <? 0xfe); [|exists 0xfffe, inp; split; [done|simpl; lia]].
  replace (Z.of_nat (length (r :: inp)) - 1) with (Z.of_nat (length inp)) by (simpl; lia).
  destruct (trie_utf8_loop_total inp r r 0x7f80) as (s & -> & Hs). rewrite res_bind_Ok.
  destruct s as [| |u rest]; do 2 eexists; (split; [done|]); [done|simpl; lia|].
  specialize (Hs u rest eq_refl). simpl. lia.
Qed.

Section search.
Context `{GLibUnicode}.

(** [reads icase inp xs rest]: from [inp] to [rest] the search reads the characters [xs];
    [0xfffe], which stands for what is malformed, is passed over. *)
Inductive reads (icase : bool) : list Z -> list Z -> list Z -> Prop :=
  | reads_nil inp : reads icase inp [] inp
  | reads_skip inp inp' xs rest :
      trie_utf8_getc inp (Z.of_nat (length inp)) = Ok (0xfffe, inp') ->
      reads icase inp' xs rest -> reads icase inp xs rest
  | reads_char inp c inp' xs rest :
      trie_utf8_getc inp (Z.of_nat (length inp)) = Ok (c, inp') -> c <> 0 -> c <> 0xfffe ->
      reads icase inp' xs rest -> reads icase inp (fold_case icase c :: xs) rest.

Lemma reads_app icase a xs b ys c : reads icase a xs b -> reads icase b ys c -> reads icase a (xs ++ ys) c.
Proof.
  intros Ha Hb. induction Ha as [| |inp d inp' xs rest E H0 H1 _ IH]; [done|eapply reads_skip; eauto|].
  cbn [app]. eapply reads_char; eauto.
Qed.

Lemma reads_one icase inp c inp' :
  trie_utf8_getc inp (Z.of_nat (length inp)) = Ok (c, inp') -> c <> 0 -> c <> 0xfffe ->
  reads icase inp [fold_case icase c] inp'.
Proof. intros E H0 H1. eapply reads_char; [done..|]. apply reads_nil. Qed.

Lemma reads_passed icase inp inp' :
  trie_utf8_getc inp (Z.of_nat (length inp)) = Ok (0xfffe, inp') -> reads icase inp [] inp'.
Proof. intros E. eapply reads_skip; [done|]. apply reads_nil. Qed.

(** Nothing more is read where the search has stopped. *)
Lemma reads_stop icase a xs b b' ys c :
  reads icase a xs b -> trie_utf8_getc b (Z.of_nat (length b)) = Ok (0, b') ->
  reads icase a ys c -> ys `prefix_of` xs.
Proof.
  intros Ha Hb. revert ys c. induction Ha as [inp|inp inp' xs rest E _ IH|inp d inp' xs rest E H0 H1 _ IH];
    intros ys c Hc; destruct Hc as [inp|inp inp2 ys rest2 E2 Hc|inp d2 inp2 ys rest2 E2 H2 H3 Hc];
    try apply prefix_nil; try congruence.
  - rewrite E in E2. injection E2 as ->. by eapply IH.
  - rewrite E in E2. injection E2 as -> ->. apply prefix_cons. by eapply IH.
Qed.

Lemma prefix_snoc_cases (zs l : list Z) d : zs `prefix_of` l ++ [d] -> zs = l ++ [d] \/ zs `prefix_of` l.
Proof.
  intros [k E]. destruct k as [|e k _] using rev_ind; [left; by rewrite app_nil_r in E|right].
  rewrite app_assoc in E. apply app_inj_tail in E as [-> _]. by exists k.
Qed.

(** A pattern occurs. *)
Definition occurs (P : list (list Z)) (xs : list Z) : Prop :=
  exists p k k', p ∈ P /\ p <> [] /\ xs = k ++ p ++ k'.

(** A pattern ends here. *)
Definition ends (P : list (list Z)) (xs : list Z) : Prop :=
  exists p, p ∈ P /\ p <> [] /\ p `suffix_of` xs.

Lemma occurs_ends P xs : occurs P xs <-> exists ys, ys `prefix_of` xs /\ ends P ys.
Proof.
  split.
  - intros (p & k & k' & Hp & Hne & ->). exists (k ++ p). split; [rewrite app_assoc; by apply prefix_app_r|].
    exists p. repeat split; [done..|]. by exists k.
  - intros (ys & [k' ->] & p & Hp & Hne & [k ->]). exists p, k, k'. by rewrite <- app_assoc.
Qed.

Lemma ends_longest P xs w :
  longest (fun u => u = [] \/ exists p, p ∈ P /\ u `prefix_of` p) xs w -> ends P xs <-> ends P w.
Proof.
  intros Hw. split; intros (p & Hp & Hne & Hs); exists p; (split; [done|]; split; [done|]).
  - apply (longest_suffix _ _ _ _ Hw Hs). right. by exists p.
  - transitivity w; [done|by destruct Hw].
Qed.

(** ** The search *)

Definition keys_prefix (P : list (list Z * Z)) (u : list Z) : Prop :=
  u = [] \/ exists p, p ∈ P.*1 /\ u `prefix_of` p.

(** The result of the search in [buffer] for [P]. *)
Definition search_result (icase : bool) (P : list (list Z * Z)) (buffer : list Z)
    (r : option (list Z * Z)) : Prop :=
  match r with
  | None => forall xs rest, reads icase buffer xs rest -> ~ occurs P.*1 xs
  | Some (pat, i) =>
      exists xs ys rest, reads icase buffer xs pat /\ reads icase pat ys rest /\
        ends P.*1 ys /\
        (forall zs, zs `prefix_of` xs ++ ys -> zs <> xs ++ ys -> ~ ends P.*1 zs) /\
        exists w, longest (keys_prefix P) (xs ++ ys) w /\ i = id_of P w
  end.

Section loop.
Context (t : ETrie) (P : list (list Z * Z)) (W : list (list Z)) (Hwf : trie_wf t W).
Context (HW : forall w, w ∈ W <-> keys_prefix P w) (Hlink : linked t W P.*1 (fun _ => True)).
Context (Hid : forall q w, W !! q = Some w -> w <> [] -> id (state t q) = id_of P w).
Context (buffer : list Z).

(** Up to [inp] nothing has been found; [ys] are the characters since [pat]. *)
Definition searching (inp : list Z) (q : nat) (pat : list Z) : Prop :=
  exists xs ys w, reads (icase t) buffer xs pat /\ reads (icase t) pat ys inp /\
    W !! q = Some w /\ longest (fun u => u ∈ W) (xs ++ ys) w /\ w `suffix_of` ys /\
    (forall zs, zs `prefix_of` xs ++ ys -> ~ ends P.*1 zs).

Lemma final_ends q w : W !! q = Some w -> final (state t q) <> 0 <-> ends P.*1 w.
Proof.
  intros Hq. destruct (Hlink q w Hq I) as [_ [[(p & Hp & Hs & E) _] Hmax]]. split.
  - intros Hne. exists p. rewrite E in Hne. destruct p; [done|]. apply elem_of_cons in Hp as [?|Hp]; done.
  - intros (p' & Hp' & Hne & Hs'). specialize (Hmax p' Hp' Hs'). destruct p'; [done|]. simpl in Hmax. lia.
Qed.

Lemma longest_W xs w : longest (fun u => u ∈ W) xs w <-> longest (keys_prefix P) xs w.
Proof. unfold longest. rewrite HW. by setoid_rewrite HW. Qed.
Lemma ends_snoc_last (l : list Z) d w :
  (forall zs, zs `prefix_of` l -> ~ ends P.*1 zs) -> longest (fun u => u ∈ W) (l ++ [d]) w ->
  ~ ends P.*1 w -> forall zs, zs `prefix_of` l ++ [d] -> ~ ends P.*1 zs.
Proof.
  intros Hno Hw Hnw zs [->|Hz]%prefix_snoc_cases; [|by apply Hno].
  rewrite (ends_longest _ _ w); [done|]. by apply longest_W.
Qed.

(** The pointer [pat] after a character that the trie has. *)
Lemma pat_step inp c inp' q w v r pat xs ys :
  trie_utf8_getc inp (Z.of_nat (length inp)) = Ok (c, inp') -> c <> 0 -> c <> 0xfffe ->
  reads (icase t) buffer xs pat -> reads (icase t) pat ys inp -> w `suffix_of` ys ->
  W !! q = Some w -> v `suffix_of` w -> W !! r = Some v ->
  let d := fold_case (icase t) c in
  let pat' := if (r =? root)%nat then inp else pat in
  exists xs' ys', xs' ++ ys' = (xs ++ ys) ++ [d] /\ reads (icase t) buffer xs' pat' /\
    reads (icase t) pat' ys' inp' /\ v ++ [d] `suffix_of` ys'.
Proof.
  intros E H0 H1 Hxs Hys Hwy Hq Hvw Hr d pat'. unfold pat'.
  pose proof (reads_one (icase t) _ _ _ E H0 H1) as Hone. fold d in Hone.
  destruct (Nat.eqb_spec r root) as [->|_].
  - exists (xs ++ ys), [d]. split; [done|]. split; [by eapply reads_app|]. split; [done|].
    rewrite (wf_root _ _ Hwf) in Hr. injection Hr as <-. done.
  - exists xs, (ys ++ [d]). split; [by rewrite app_assoc|]. split; [done|]. split; [by eapply reads_app|].
    apply suffix_snoc. by transitivity w.
Qed.

Lemma search_loop_spec fuel inp q pat :
  searching inp q pat -> (length inp < fuel)%nat ->
  exists r, search_loop fuel t inp q pat inp = Ok r /\ search_result (icase t) P buffer r.
Proof.
  revert inp q pat. induction fuel as [|fuel IH];
    intros inp q pat (xs & ys & w & Hxs & Hys & Hq & Hw & Hwy & Hno) Hfuel; [lia|].
  cbn [search_loop]. destruct (getc_search inp) as (c & inp' & E & Hlt). rewrite E, res_bind_Ok.
  destruct (Z.eqb_spec c 0) as [->|H0].
  { exists None. split; [done|]. intros zs rest Hzs (ys' & Hy & Hends)%occurs_ends.
    apply (Hno ys'); [|done]. etransitivity; [done|]. eapply reads_stop; [by eapply reads_app|done|done]. }
  specialize (Hlt H0). destruct (Z.eqb_spec c 0xfffe) as [->|H1].
  { apply IH; [|lia]. exists xs, ys, w. split; [done|]. split; [|done].
    rewrite <- (app_nil_r ys). eapply reads_app; [done|]. by apply reads_passed. }
  change (lower t c) with (fold_case (icase t) c). set (d := fold_case (icase t) c).
  destruct (wf_bound Hwf _ _ Hq) as [_ Hb].
  destruct (fail_walk_spec t W (walk_fuel t) q w d Hwf Hq) as (o & -> & Ho);
    [unfold walk_fuel; lia|intros x u Hx _; by apply (Hlink x u Hx)|].
  rewrite res_bind_Ok. destruct o as [[r m]|].
  - destruct Ho as (v & Hr & Hm & Hv). pose proof Hv as (Hvw & _).
    assert (longest (fun u => u ∈ W) ((xs ++ ys) ++ [d]) (v ++ [d])) as Hw'
      by (apply (longest_snoc (fun u => u ∈ W) _ _ w); [intros u; apply (wf_closed Hwf)|done..]).
    destruct (pat_step inp c inp' q w v r pat xs ys E H0 H1 Hxs Hys Hwy Hq Hvw Hr)
      as (xs' & ys' & Exy & Hxs' & Hys' & Hs'). fold d in Exy, Hs'.
    set (pat' := if (r =? root)%nat then inp else pat) in *.
    destruct (Z.eqb_spec (final (state t m)) 0) as [Hf|Hf]; cbn [negb].
    + apply IH; [|lia]. exists xs', ys', (v ++ [d]). rewrite Exy. repeat (split; [done|]).
      apply (ends_snoc_last _ _ (v ++ [d])); [done|done|]. rewrite <- (final_ends m); [lia|done].
    + apply (final_ends m _ Hm) in Hf as Hends. eexists. split; [done|]. exists xs', ys', inp'.
      rewrite Exy. repeat (split; [done|]). split; [|split].
      * destruct Hends as (p & Hp & Hne & Hps). exists p. repeat (split; [done|]). by transitivity (v ++ [d]).
      * intros zs [->|Hz]%prefix_snoc_cases Hne; [done|by apply Hno].
      * exists (v ++ [d]). split; [by apply longest_W|]. apply Hid; [done|by destruct v].
  - assert (longest (fun u => u ∈ W) ((xs ++ ys) ++ [d]) []) as Hw'
      by (apply (longest_snoc_nil (fun u => u ∈ W) _ _ w);
        [intros u; apply (wf_closed Hwf)|exact (wf_nil Hwf)|done|exact Ho]).
    apply IH; [|lia]. exists ((xs ++ ys) ++ [d]), [], []. rewrite app_nil_r.
    split; [eapply reads_app; [by eapply reads_app|by apply reads_one]|].
    split; [apply reads_nil|]. split; [apply (wf_root _ _ Hwf)|]. split; [done|]. split; [done|].
    apply (ends_snoc_last _ _ []); [done|done|]. intros (p & _ & Hne & ->%suffix_nil_inv). done.
Qed.
End loop.

Lemma e_trie_search_ok t P buffer :
  trie_ok t P -> exists r, e_trie_search t buffer = Ok r /\ search_result (icase t) P buffer r.
Proof.
  intros (W & Hwf & HW & Hlink & Hid). unfold e_trie_search.
  apply (search_loop_spec t P W Hwf HW Hlink Hid); [|lia]. exists [], [], [].
  split; [apply reads_nil|]. split; [apply reads_nil|]. split; [apply (wf_root _ _ Hwf)|].
  split; [|split; [done|]].
  - split; [done|]. split; [exact (wf_nil Hwf)|]. intros u Hu _. by apply suffix_length.
  - intros zs ->%prefix_nil_inv (p & _ & Hne & ->%suffix_nil_inv). done.
Qed.
End search.

(** ** UTF-8 text *)

Lemma trie_utf8_loop_seq l cs done p left u m r :
  is_lead l -> (length done + length cs = utf8_conts l)%nat -> cs <> [] -> Forall is_cont cs ->
  seq_state l done = Some (u, m, r) -> Z.of_nat (length cs) <= left ->
  trie_utf8_loop (cs ++ p) left r u m = Ok (SeqChar (utf8_value l (done ++ cs)) p).
Proof.
  intros Hl. revert done left u m r. induction cs as [|c cs IH]; intros dn left u m r Hn Hne Hc Es Hleft; [done|].
  apply Forall_cons in Hc as [Hc Hcs]. unfold seq_state in Es. injection Es as <- <- <-. simpl in Hn, Hleft.
  cbn [app trie_utf8_loop]. destruct (Z.leb_spec left 0); [lia|].
  unfold is_cont in Hc. rewrite Hc. change (negb (0x80 =? 0x80)) with false. cbv iota zeta.
  rewrite seq_v, seq_m, seq_r, seq_more by (try done; lia).
  replace (S (length dn)) with (length (dn ++ [c])) by (rewrite length_app; simpl; lia).
  destruct (Nat.eqb_spec (length (dn ++ [c])) (utf8_conts l)) as [E|E]; cbn [negb].
  - rewrite length_app in E. simpl in E. destruct cs; [|simpl in Hn; lia].
    rewrite seq_value; [done|done|]. rewrite length_app. simpl. pose proof (utf8_conts_range l). lia.
  - rewrite length_app in E. simpl in E. rewrite (IH (dn ++ [c])); [by rewrite <- app_assoc|..].
    + rewrite length_app. simpl. lia.
    + intros ->. simpl in Hn. lia.
    + done.
    + done.
    + lia.
Qed.

(** A character that [camel_utf8_putc] wrote is read back. *)
Lemma getc_putc c p :
  0 <= c < 2 ^ 21 ->
  trie_utf8_getc (camel_utf8_putc c ++ p) (Z.of_nat (length (camel_utf8_putc c ++ p))) = Ok (c, p).
Proof.
  intros Hc. unfold trie_utf8_getc. destruct (Z.lt_ge_cases c 0x80) as [Hlt|Hge].
  - unfold camel_utf8_putc. destruct (Z.leb_spec c 0x7f); [|lia]. rewrite u8_small by lia. cbn [app length].
    destruct (Z.eqb_spec (Z.of_nat (S (length p))) 0); [lia|]. by destruct (Z.ltb_spec c 0x80); [|lia].
  - destruct (utf8_putc_seq c) as (l & cs & -> & Hl & Hn & Hcs & <-); [lia|]. cbn [app length].
    destruct (Z.eqb_spec (Z.of_nat (S (length (cs ++ p)))) 0); [lia|]. pose proof Hl as Hl'. unfold is_lead in Hl'.
    destruct (Z.ltb_spec l 0x80); [lia|]. destruct (Z.ltb_spec l 0xfe); [|lia].
    rewrite (trie_utf8_loop_seq l cs []); try done.
    + intros ->. simpl in Hn. pose proof (utf8_conts_range l). lia.
    + by apply lead_state.
    + rewrite length_app. lia.
Qed.

(** The characters of a text in UTF-8 are read as they are. *)
Lemma reads_utf8 `{GLibUnicode} icase us :
  Forall (fun c => 0 < c < 2 ^ 21 /\ c <> 0xfffe) us ->
  reads icase (utf8_encode us) (map (fold_case icase) us) [].
Proof.
  induction 1 as [|c us [Hc Hne] _ IH]; [apply reads_nil|]. unfold utf8_encode. cbn [map concat].
  eapply reads_char; [apply getc_putc; lia|lia|done|exact IH].
Qed.

(** ** Theorems *)

Lemma pattern_chars_ascii p : Forall (fun c => 0 < c < 0x80) p -> pattern_chars (p ++ [0]) = p.
Proof.
  induction 1 as [|c p Hc _ IH]; [done|]. cbn [app pattern_chars].
  destruct (Z.eqb_spec c 0); [lia|]. destruct (Z.ltb_spec c 0x80); [by rewrite IH|lia].
Qed.

Section theorems.
Context `{GLibUnicode}.

(** A new trie and a call of [e_trie_add] for each pattern and identifier, as the users of
    the trie do ([camel_url_scanner_new], [camel_url_scanner_add]). *)
Definition build (garbage : Z) (icase : bool) (ps : list (list Z * Z)) : res ETrie :=
  foldM (fun p t => e_trie_add t p.1 p.2) ps (e_trie_new garbage icase).

Definition keys (icase : bool) (ps : list (list Z * Z)) : list (list Z * Z) :=
  map (fun p => (pattern_key icase p.1, p.2)) ps.

Lemma build_ok garbage ic ps :
  Forall (fun p => 0 ∈ p.1) ps ->
  exists t, build garbage ic ps = Ok t /\ icase t = ic /\ trie_ok t (keys ic ps).
Proof.
  intros Hps. unfold build.
  apply (foldM_inv _ (fun done t => icase t = ic /\ trie_ok t (keys ic done))).
  - split; [done|apply trie_new_ok].
  - intros dn p rest t -> [Hi Hok].
    apply Forall_app in Hps as [_ [Hp _]%Forall_cons].
    destruct (e_trie_add_ok t _ p.1 p.2 Hok Hp) as (t' & -> & Hi' & Hok'). exists t'. split; [done|].
    split; [congruence|]. unfold keys. rewrite map_app. rewrite Hi in Hok'. exact Hok'.
Qed.

(** C8: after any sequence of calls of [e_trie_add], none of which fails, each state
    stands for its own prefix of a key (a pattern up to its first character that is not ASCII), all pointers are to states, the lists of
    [fail_states] hold the states of each depth, [fail] is the longest proper suffix that
    is a state, [final] the length of the longest key that ends there and [id] the
    identifier given last for that word. *)
Theorem trie_well_formed garbage ic ps :
  Forall (fun p => 0 ∈ p.1) ps ->
  exists t, build garbage ic ps = Ok t /\ trie_ok t (keys ic ps).
Proof.
  intros Hps. destruct (build_ok garbage ic ps Hps) as (t & E & _ & Hok). by exists t.
Qed.

(** C7: the keys of a trie are the patterns as [e_trie_add] reads them: each cut at the
    first byte of a character that is not ASCII ([0xfe] and [0xff] apart, which stand for an
    invalid character), in lower case where [icase] is set.  Whatever the patterns and the bytes of
    the buffer, the search stops at the first
    character at which a key ends, or reads the text to its end when no key occurs; the
    key that ends there begins at the returned pointer or after it, and the
    identifier is that of the longest prefix of a key that ends there.  Of a pattern
    with other characters than ASCII ones only the part before them is searched for
    ([trie_pattern_cut]); for ASCII patterns the keys are the patterns
    ([trie_search_utf8]). *)
Theorem trie_search_first garbage ic ps buffer :
  Forall (fun p => 0 ∈ p.1) ps ->
  exists t r, build garbage ic ps = Ok t /\ e_trie_search t buffer = Ok r /\
    search_result ic (keys ic ps) buffer r.
Proof.
  intros Hps. destruct (build_ok garbage ic ps Hps) as (t & E & Hi & Hok).
  destruct (e_trie_search_ok t _ buffer Hok) as (r & Er & Hr). exists t, r. rewrite Hi in Hr. done.
Qed.

(** In a text in UTF-8 a match is found exactly when one of the patterns, which are
    ASCII strings, occurs in it, up to case where [icase] is set. *)
Theorem trie_search_utf8 garbage ic ps us :
  Forall (fun p => Forall (fun c => 0 < c < 0x80) p.1) ps ->
  Forall (fun c => 0 < c < 2 ^ 21 /\ c <> 0xfffe) us ->
  exists t r, build garbage ic (map (fun p => (p.1 ++ [0], p.2)) ps) = Ok t /\
    e_trie_search t (utf8_encode us) = Ok r /\
    (is_Some r <-> occurs (map (fun p => map (fold_case ic) p.1) ps) (map (fold_case ic) us)).
Proof.
  intros Hps Hus. set (qs := map (fun p => (p.1 ++ [0], p.2)) ps).
  assert (Forall (fun p => 0 ∈ p.1) qs) as Hqs.
  { unfold qs. apply Forall_map, Forall_true. intros p. apply elem_of_app. right. left. }
  assert ((keys ic qs).*1 = map (fun p => map (fold_case ic) p.1) ps) as Hk.
  { unfold qs, keys. induction Hps as [|p ps Hp _ IH]; [done|]. cbn. unfold pattern_key at 1.
    rewrite pattern_chars_ascii by done. f_equal. apply IH. by inversion Hqs. }
  destruct (build_ok garbage ic qs Hqs) as (t & E & Hi & Hok).
  destruct (e_trie_search_ok t _ (utf8_encode us) Hok) as (r & Er & Hr). rewrite Hi in Hr.
  exists t, r. split; [done|]. split; [done|]. rewrite <- Hk.
  pose proof (reads_utf8 ic us Hus) as Hall. destruct r as [[pat i]|]; (split; [|intros Hocc]).
  - intros _. destruct Hr as (xs & ys & rest & Hxs & Hys & (p & Hp & Hne & Hs) & _).
    apply occurs_ends. exists (xs ++ ys). split.
    + eapply reads_stop; [exact Hall|reflexivity|by eapply reads_app].
    + exists p. repeat (split; [done|]). transitivity ys; [done|]. by exists xs.
  - by eexists.
  - by intros [].
  - by destruct (Hr _ _ Hall).
Qed.

End theorems.

(** [g_unichar_tolower] on ASCII. *)
Definition ascii_lower : GLibUnicode := fun c => if (65 <=? c) && (c <=? 90) then c + 32 else c.

(** [abcd] and [BC]. *)
Definition two_patterns : list (list Z * Z) := [([97; 98; 99; 100; 0], 1); ([66; 67; 0], 2)].

Lemma two_patterns_end : Forall (fun p => 0 ∈ p.1) two_patterns.
Proof. apply (bool_decide_unpack _). vm_compute. reflexivity. Qed.

Lemma trie_well_formed_witness :
  exists t, @build ascii_lower 0 true two_patterns = Ok t /\
    trie_ok t [([97; 98; 99; 100], 1); ([98; 99], 2)].
Proof. exact (@trie_well_formed ascii_lower 0 true two_patterns two_patterns_end). Defined.

Lemma trie_search_first_witness :
  exists t r, @build ascii_lower 0 true two_patterns = Ok t /\
    @e_trie_search ascii_lower t [120; 65; 98; 67; 97] = Ok r.
Proof.
  destruct (@trie_search_first ascii_lower 0 true two_patterns [120; 65; 98; 67; 97] two_patterns_end)
    as (t & r & E & Er & _).
  exists t, r. split; [exact E|exact Er].
Defined.

Lemma trie_search_utf8_witness :
  exists t r, @build ascii_lower 0 true [([97; 98; 0], 1); ([99; 0], 2)] = Ok t /\
    @e_trie_search ascii_lower t (utf8_encode [233; 65; 66]) = Ok r.
Proof.
  destruct (@trie_search_utf8 ascii_lower 0 true [([97; 98], 1); ([99], 2)] [233; 65; 66])
    as (t & r & E & Er & _); [by concrete|by repeat (constructor; [split; [split; reflexivity|done]|])|].
  exists t, r. split; [exact E|exact Er].
Defined.

(** The identifier of a pattern found inside a longer one is lost: [bc] is found in [abc],
    with the identifier [-1]. *)
Example trie_inner_id :
  (t ← @build ascii_lower 0 true two_patterns; @e_trie_search ascii_lower t [97; 98; 99])
    = Ok (Some ([97; 98; 99], -1)).
Proof. reflexivity. Qed.

(** The returned pointer may be before the match: [bcd] in [abcd], when [abx] is a pattern
    too. *)
Example trie_pointer_early :
  (t ← @build ascii_lower 0 true [([97; 98; 120; 0], 1); ([98; 99; 100; 0], 2)];
   @e_trie_search ascii_lower t [97; 98; 99; 100]) = Ok (Some ([97; 98; 99; 100], 2)).
Proof. reflexivity. Qed.

(** A pattern is cut at its first character that is not ASCII. *)
Example trie_pattern_cut :
  (t ← @build ascii_lower 0 true [([97; 195; 169; 0], 1)]; @e_trie_search ascii_lower t [98; 97])
    = Ok (Some ([97], 1)).
Proof. reflexivity. Qed.
