(* ===== verification/Sexp.v ===== *)
(** * Search expressions ([e-sexp.c])

    [src/libedataserver/e-sexp.c]: the parser and the evaluator of the S-expressions that
    searches, filters and queries of the calendar, address book and mail are
    written in.  GLib's [GScanner] cuts the text into tokens; a token list is the text still
    to be read.  Pointers to symbols are indices into a list of symbols, in which a freed
    one is [None].  [longjmp] to the caller of [setjmp] is the error result of the monad
    [M].  The functions an application adds are values in the symbols; they may change a
    state of type [St] of their own. *)

From S2P Require Import Prelude CString.
From stdpp Require Import gmap.
From Stdlib Require Import(notations) String.
#[local] Open Scope Z_scope.
#[local] Open Scope list_scope.

(** ** Computations that may jump *)

(** The format of an error message and the text in it; numbers are left out. *)
Definition failure : Type := String.string * list Z.

(** A state and a value, or the error of [e_sexp_fatal_error]. *)
Definition M (St A : Type) : Type := St -> res (St * (A + failure)).

#[export] Instance M_ret {St} : MRet (M St) := fun A a s => Ok (s, inl a).
#[export] Instance M_bind {St} : MBind (M St) := fun A B f x s =>
  '(s, r) ← x s;
  match r with
  | inl a => f a s
  | inr e => Ok (s, inr e)
  end.

#[export] Instance M_fmap {St} : FMap (M St) := fun A B f x => a ← x; mret (f a).

Definition lift {St A} (x : res A) : M St A := fun s => a ← x; Ok (s, inl a).

Definition e_sexp_fatal_error {St A} (why : String.string) (arg : list Z) : M St A :=
  fun s => Ok (s, inr (why, arg)).

(** A sum or difference of [time_t]s; signed overflow is undefined, as that of [int]s. *)
Definition checked_time (n : Z) : res Z := if (- 2 ^ 63 <=? n) && (n <? 2 ^ 63) then Ok n else Undef.

(** ** Results, terms and symbols *)

Inductive ESExpResult :=
  | ESEXP_RES_ARRAY_PTR (ptrarray : list (list Z))
  | ESEXP_RES_INT (number : Z)
  | ESEXP_RES_STRING (string : list Z)
  | ESEXP_RES_BOOL (bool : Z)
  | ESEXP_RES_TIME (time : Z)
  | ESEXP_RES_UNDEFINED.

(** [r->type] *)
Definition res_type (r : ESExpResult) : Z :=
  match r with
  | ESEXP_RES_ARRAY_PTR _ => 0
  | ESEXP_RES_INT _ => 1
  | ESEXP_RES_STRING _ => 2
  | ESEXP_RES_BOOL _ => 3
  | ESEXP_RES_TIME _ => 4
  | ESEXP_RES_UNDEFINED => 5
  end.

(** [value.var] is at the place of [value.func.sym] in the union. *)
#[warnings="-register-all"]
Inductive ESExpTerm :=
  | ESEXP_TERM_INT (number : Z)
  | ESEXP_TERM_BOOL (bool : Z)
  | ESEXP_TERM_STRING (string : list Z)
  | ESEXP_TERM_TIME (time : Z)
  | ESEXP_TERM_FUNC (sym : nat) (terms : list ESExpTerm)
  | ESEXP_TERM_IFUNC (sym : nat) (terms : list ESExpTerm)
  | ESEXP_TERM_VAR (var : nat) (terms : list ESExpTerm).

(** The order in which [g_hash_table_foreach] visits a table. *)
Class GHashOrder := g_hash_table_entries : gmap (list Z) Z -> list (list Z * Z).
Class GHashOrderLaws (H : GHashOrder) : Prop :=
  g_hash_table_entries_perm m : g_hash_table_entries m ≡ₚ map_to_list m.

(** One such order. *)
#[export] Instance GHashOrder_map : GHashOrder := map_to_list.
#[export] Instance GHashOrder_map_laws : GHashOrderLaws GHashOrder_map.
Proof. by intros m. Qed.

Section sexp.
Context {St : Type}.

Definition ESExpFunc : Type := list ESExpResult -> M St (option ESExpResult).
Definition ESExpIFunc : Type :=
  (ESExpTerm -> M St ESExpResult) -> list ESExpTerm -> M St (option ESExpResult).

(** The type of a symbol with the members of its union; function pointers may be NULL. *)
Inductive ESExpSymbol :=
  | SymFunc (name : list Z) (func : option ESExpFunc)
  | SymIFunc (name : list Z) (ifunc : option ESExpIFunc)
  | SymVar (name : list Z) (data : option ESExpTerm).

(** ** The functions that are always there *)

Section builtins.
Context `{GHashOrder} (eval : ESExpTerm -> M St ESExpResult).

(** The loop over an array in [term_eval_and]. *)
Definition and_count (ht : gmap (list Z) Z) (a1 : list (list Z)) : gmap (list Z) Z :=
  foldl (fun ht key => <[key := default 0 (ht !! key) + 1]> ht) ht a1.

(** The loop over the arguments: [type] ([None] is -1), [bool] and [ht]. *)
Fixpoint and_loop (argv : list ESExpTerm) (type : option Z) (bool : Z) (ht : gmap (list Z) Z)
    : M St (option Z * Z * gmap (list Z) Z) :=
  match argv with
  | [] => mret (type, bool, ht)
  | t :: argv =>
      if bool =? 0 then mret (type, bool, ht)
      else
        r1 ← eval t;
        let type := default (res_type r1) type in
        if negb (type =? res_type r1) then e_sexp_fatal_error "Invalid types in AND" []
        else
          match r1 with
          | ESEXP_RES_ARRAY_PTR a1 => and_loop argv (Some type) bool (and_count ht a1)
          | ESEXP_RES_BOOL b =>
              and_loop argv (Some type) (if negb (bool =? 0) && negb (b =? 0) then 1 else 0) ht
          | _ => and_loop argv (Some type) bool ht
          end
  end.

Definition term_eval_and (argv : list ESExpTerm) : M St (option ESExpResult) :=
  '(type, bool, ht) ← and_loop argv None 1 ∅;
  mret (Some match type with
    | Some 0 => ESEXP_RES_ARRAY_PTR
        (fst <$> filter (fun e => e.2 = Z.of_nat (length argv)) (g_hash_table_entries ht))
    | Some 3 => ESEXP_RES_BOOL bool
    | _ => ESEXP_RES_UNDEFINED
    end).

Definition or_insert (ht : gmap (list Z) Z) (a1 : list (list Z)) : gmap (list Z) Z :=
  foldl (fun ht key => <[key := 1]> ht) ht a1.

Fixpoint or_loop (argv : list ESExpTerm) (type : option Z) (bool : Z) (ht : gmap (list Z) Z)
    : M St (option Z * Z * gmap (list Z) Z) :=
  match argv with
  | [] => mret (type, bool, ht)
  | t :: argv =>
      if negb (bool =? 0) then mret (type, bool, ht)
      else
        r1 ← eval t;
        let type := default (res_type r1) type in
        if negb (type =? res_type r1) then e_sexp_fatal_error "Invalid types in OR" []
        else
          match r1 with
          | ESEXP_RES_ARRAY_PTR a1 => or_loop argv (Some type) bool (or_insert ht a1)
          | ESEXP_RES_BOOL b => or_loop argv (Some type) (Z.lor bool b) ht
          | _ => or_loop argv (Some type) bool ht
          end
  end.

Definition term_eval_or (argv : list ESExpTerm) : M St (option ESExpResult) :=
  '(type, bool, ht) ← or_loop argv None 0 ∅;
  mret (Some match type with
    | Some 0 => ESEXP_RES_ARRAY_PTR (fst <$> g_hash_table_entries ht)
    | Some 3 => ESEXP_RES_BOOL bool
    | _ => ESEXP_RES_UNDEFINED
    end).

Definition term_eval_not : ESExpFunc := fun argv =>
  mret (Some match argv with
    | ESEXP_RES_BOOL b :: _ => ESEXP_RES_BOOL (if negb (b =? 0) then 0 else 1)
    | _ => ESEXP_RES_BOOL 1
    end).

Definition Z_of_bool (b : bool) : Z := if b then 1 else 0.

(** [term_eval_lt] and [term_eval_gt]: [less] compares two numbers, and the result of
    [strcmp] with 0. *)
Definition term_eval_compare (why : String.string) (less : Z -> Z -> bool) (argv : list ESExpTerm)
    : M St (option ESExpResult) :=
  match argv with
  | [t1; t2] =>
      r1 ← eval t1; r2 ← eval t2;
      if negb (res_type r1 =? res_type r2) then e_sexp_fatal_error why []
      else
        mret (Some match r1, r2 with
          | ESEXP_RES_INT a, ESEXP_RES_INT b => ESEXP_RES_BOOL (Z_of_bool (less a b))
          | ESEXP_RES_TIME a, ESEXP_RES_TIME b => ESEXP_RES_BOOL (Z_of_bool (less a b))
          | ESEXP_RES_STRING a, ESEXP_RES_STRING b =>
              ESEXP_RES_BOOL (Z_of_bool (less (strcmp a b) 0))
          | _, _ => ESEXP_RES_UNDEFINED
          end)
  | _ => mret (Some ESEXP_RES_UNDEFINED)
  end.

Definition term_eval_lt := term_eval_compare "Incompatible types in compare <" Z.ltb.
Definition term_eval_gt := term_eval_compare "Incompatible types in compare >" Z.gtb.

(** [e_memchunk_alloc0] has set [value.bool] to 0. *)
Definition term_eval_eq (argv : list ESExpTerm) : M St (option ESExpResult) :=
  match argv with
  | [t1; t2] =>
      r1 ← eval t1; r2 ← eval t2;
      mret (Some (ESEXP_RES_BOOL (Z_of_bool
        match r1, r2 with
        | ESEXP_RES_INT a, ESEXP_RES_INT b => a =? b
        | ESEXP_RES_BOOL a, ESEXP_RES_BOOL b => a =? b
        | ESEXP_RES_TIME a, ESEXP_RES_TIME b => a =? b
        | ESEXP_RES_STRING a, ESEXP_RES_STRING b => strcmp a b =? 0
        | _, _ => false
        end)))
  | _ => mret (Some (ESEXP_RES_BOOL 0))
  end.

(** The loops of [+] and [-] over the arguments after the first. *)
Fixpoint int_loop (why : String.string) (op : Z -> Z -> Z) (total : Z) (argv : list ESExpResult)
    : M St (option ESExpResult) :=
  match argv with
  | [] => mret (Some (ESEXP_RES_INT total))
  | ESEXP_RES_INT n :: argv => total ← lift (checked_int (op total n)); int_loop why op total argv
  | _ => e_sexp_fatal_error why []
  end.

Fixpoint time_loop (why : String.string) (op : Z -> Z -> Z) (total : Z) (argv : list ESExpResult)
    : M St (option ESExpResult) :=
  match argv with
  | [] => mret (Some (ESEXP_RES_TIME total))
  | ESEXP_RES_TIME n :: argv => total ← lift (checked_time (op total n)); time_loop why op total argv
  | _ => e_sexp_fatal_error why []
  end.

Fixpoint string_loop (s : list Z) (argv : list ESExpResult) : M St (option ESExpResult) :=
  match argv with
  | [] => mret (Some (ESEXP_RES_STRING s))
  | ESEXP_RES_STRING n :: argv => string_loop (s ++ n) argv
  | _ => e_sexp_fatal_error "Invalid types in (+ strings)" []
  end.

Definition term_eval_plus : ESExpFunc := fun argv =>
  match argv with
  | ESEXP_RES_INT total :: argv => int_loop "Invalid types in (+ ints)" Z.add total argv
  | ESEXP_RES_STRING s :: argv => string_loop s argv
  | ESEXP_RES_TIME total :: argv => time_loop "Invalid types in (+ time_t)" Z.add total argv
  | _ => mret (Some (ESEXP_RES_INT 0))
  end.

Definition term_eval_sub : ESExpFunc := fun argv =>
  match argv with
  | ESEXP_RES_INT total :: argv => int_loop "Invalid types in -" Z.sub total argv
  | ESEXP_RES_TIME total :: argv => time_loop "Invalid types in (- time_t)" Z.sub total argv
  | _ => mret (Some (ESEXP_RES_INT 0))
  end.

(** [strtoul] converted to [int]. *)
Definition term_eval_castint : ESExpFunc := fun argv =>
  match argv with
  | [r] =>
      match r with
      | ESEXP_RES_INT n => mret (Some (ESEXP_RES_INT n))
      | ESEXP_RES_BOOL b => mret (Some (ESEXP_RES_INT (Z_of_bool (negb (b =? 0)))))
      | ESEXP_RES_STRING s => mret (Some (ESEXP_RES_INT (s32 (strtoul s))))
      | _ => e_sexp_fatal_error "Invalid type in (cast-int )" []
      end
  | _ => e_sexp_fatal_error "Incorrect argument count to (int )" []
  end.

Definition term_eval_caststring : ESExpFunc := fun argv =>
  match argv with
  | [r] =>
      match r with
      | ESEXP_RES_INT n => mret (Some (ESEXP_RES_STRING (fmt_d n)))
      | ESEXP_RES_BOOL b => mret (Some (ESEXP_RES_STRING (fmt_d (Z_of_bool (negb (b =? 0))))))
      | ESEXP_RES_STRING s => mret (Some (ESEXP_RES_STRING s))
      | _ => e_sexp_fatal_error "Invalid type in (int )" []
      end
  | _ => e_sexp_fatal_error "Incorrect argument count to (cast-string )" []
  end.

Definition term_eval_if (argv : list ESExpTerm) : M St (option ESExpResult) :=
  match argv with
  | [c; t1] | [c; t1; _] =>
      r ← eval c;
      let doit := match r with ESEXP_RES_BOOL b => negb (b =? 0) | _ => false end in
      if doit then Some <$> eval t1
      else match argv with
           | [_; _; t2] => Some <$> eval t2
           | _ => mret (Some ESEXP_RES_UNDEFINED)
           end
  | _ => mret (Some ESEXP_RES_UNDEFINED)
  end.

Fixpoint begin_loop (argv : list ESExpTerm) (r : option ESExpResult) : M St (option ESExpResult) :=
  match argv with
  | [] => mret r
  | t :: argv => r ← eval t; begin_loop argv (Some r)
  end.

Definition term_eval_begin (argv : list ESExpTerm) : M St (option ESExpResult) :=
  r ← begin_loop argv None;
  mret (Some match r with Some r => r | None => ESEXP_RES_UNDEFINED end).
End builtins.

(** ** Evaluation *)

(** What a pointer to a symbol refers to. *)
Definition symbol_at (syms : list (option ESExpSymbol)) (sym : nat) : res ESExpSymbol :=
  match syms !! sym with
  | Some (Some s) => Ok s
  | _ => Undef
  end.

(** Calling [f.ifunc] or [f.func], unless it is NULL.  (A variable has neither; the type of
    a term is that of its symbol, so the other member of the union is not read.) *)
Definition call_ifunc (s : ESExpSymbol) (eval : ESExpTerm -> M St ESExpResult)
    (terms : list ESExpTerm) : M St (option ESExpResult) :=
  match s with
  | SymIFunc _ (Some ifunc) => ifunc eval terms
  | SymFunc _ (Some _) => lift Undef
  | _ => mret None
  end.

Definition call_func (s : ESExpSymbol) (argv : list ESExpResult) : M St (option ESExpResult) :=
  match s with
  | SymFunc _ (Some func) => func argv
  | SymIFunc _ (Some _) => lift Undef
  | _ => mret None
  end.

Fixpoint e_sexp_term_eval (fuel : nat) (syms : list (option ESExpSymbol)) (t : ESExpTerm)
    : M St ESExpResult :=
  match fuel with
  | O => lift NoFuel
  | S fuel =>
      match t with
      | ESEXP_TERM_STRING s => mret (ESEXP_RES_STRING s)
      | ESEXP_TERM_INT n => mret (ESEXP_RES_INT n)
      | ESEXP_TERM_BOOL b => mret (ESEXP_RES_BOOL b)
      | ESEXP_TERM_TIME t => mret (ESEXP_RES_TIME t)
      | ESEXP_TERM_IFUNC sym terms =>
          s ← lift (symbol_at syms sym);
          r ← call_ifunc s (e_sexp_term_eval fuel syms) terms;
          mret (default ESEXP_RES_UNDEFINED r)
      | ESEXP_TERM_FUNC sym terms =>
          argv ← mapM (e_sexp_term_eval fuel syms) terms;
          s ← lift (symbol_at syms sym);
          r ← call_func s argv;
          mret (default ESEXP_RES_UNDEFINED r)
      | ESEXP_TERM_VAR _ _ => e_sexp_fatal_error "Unknown type in parse tree: %d" []
      end
  end.

(** ** Parsing *)

(** Tokens other than the end of the text; [G_TOKEN_OTHER] are those that have no meaning
    here. *)
Inductive GToken :=
  | G_TOKEN_CHAR (c : Z)
  | G_TOKEN_STRING (v_string : list Z)
  | G_TOKEN_INT (v_int : Z)
  | G_TOKEN_IDENTIFIER (v_identifier : list Z)
  | G_TOKEN_SYMBOL (v_symbol : nat)
  | G_TOKEN_OTHER (token : Z).

(** The parser's state is the scanner. *)
Abbreviation P := (M (list GToken)).

(** [None] is [G_TOKEN_EOF]. *)
Definition g_scanner_get_next_token : P (option GToken) := fun gs =>
  match gs with
  | [] => Ok ([], inl None)
  | token :: gs => Ok (gs, inl (Some token))
  end.

Definition g_scanner_peek_next_token : P (option GToken) := fun gs => Ok (gs, inl (head gs)).

Definition is_char (token : option GToken) (c : Z) : bool :=
  match token with
  | Some (G_TOKEN_CHAR c') => c' =? c
  | _ => false
  end.

(** [while (s->type == ESEXP_TERM_VAR) s = ((ESExpTerm * )(s->data))->value.var;].  In a
    term that is neither a variable nor a call, [value.var] is not a pointer to a
    symbol. *)
Fixpoint var_base (fuel : nat) (syms : list (option ESExpSymbol)) (s : nat) : res nat :=
  match fuel with
  | O => NoFuel
  | S fuel =>
      sym ← symbol_at syms s;
      match sym with
      | SymVar _ data =>
          match data with
          | Some (ESEXP_TERM_VAR v _) | Some (ESEXP_TERM_FUNC v _) | Some (ESEXP_TERM_IFUNC v _) =>
              var_base fuel syms v
          | _ => Undef
          end
      | _ => Ok s
      end
  end.

(** [parse_term_new (f, s->type)] with its symbol and arguments. *)
Definition term_of_type (s : ESExpSymbol) (sym : nat) (terms : list ESExpTerm) : ESExpTerm :=
  match s with
  | SymFunc _ _ => ESEXP_TERM_FUNC sym terms
  | SymIFunc _ _ => ESEXP_TERM_IFUNC sym terms
  | SymVar _ _ => ESEXP_TERM_VAR sym terms
  end.

(** [None] is NULL. *)
Fixpoint parse_value (fuel : nat) (syms : list (option ESExpSymbol)) : P (option ESExpTerm) :=
  match fuel with
  | O => lift NoFuel
  | S fuel =>
      token ← g_scanner_get_next_token;
      match token with
      | None => mret None
      | Some (G_TOKEN_STRING v) => mret (Some (ESEXP_TERM_STRING v))
      | Some (G_TOKEN_INT v) => mret (Some (ESEXP_TERM_INT (s32 v)))
      | Some (G_TOKEN_SYMBOL s) =>
          sym ← lift (symbol_at syms s);
          match sym with
          | SymVar _ _ => mret (Some (ESEXP_TERM_VAR s []))
          | _ => terms ← parse_values fuel syms; mret (Some (term_of_type sym s terms))
          end
      | Some (G_TOKEN_IDENTIFIER v) => e_sexp_fatal_error "Unknown identifier: %s" v
      | _ =>
          if is_char token 40 then t ← parse_list fuel syms true; mret (Some t)
          else if is_char token 45 then
            token ← g_scanner_get_next_token;
            match token with
            | Some (G_TOKEN_INT v) => n ← lift (checked_int (- s32 v)); mret (Some (ESEXP_TERM_INT n))
            | _ => e_sexp_fatal_error "Invalid format for a integer value" []
            end
          else if is_char token 35 then
            token ← g_scanner_get_next_token;
            match token with
            | Some (G_TOKEN_IDENTIFIER [c]) =>
                if (c =? 116) || (c =? 102)
                then mret (Some (ESEXP_TERM_BOOL (Z_of_bool (c =? 116))))
                else e_sexp_fatal_error "Invalid format for a boolean value" []
            | _ => e_sexp_fatal_error "Invalid format for a boolean value" []
            end
          else e_sexp_fatal_error "Unexpected token encountered: %d" []
      end
  end
with parse_values (fuel : nat) (syms : list (option ESExpSymbol)) : P (list ESExpTerm) :=
  match fuel with
  | O => lift NoFuel
  | S fuel =>
      token ← g_scanner_peek_next_token;
      if bool_decide (is_Some token) && negb (is_char token 41) then
        v ← parse_value fuel syms;
        match v with
        | None => lift Undef
        | Some t => terms ← parse_values fuel syms; mret (t :: terms)
        end
      else mret []
  end
with parse_list (fuel : nat) (syms : list (option ESExpSymbol)) (gotbrace : bool) : P ESExpTerm :=
  match fuel with
  | O => lift NoFuel
  | S fuel =>
      token ← (if gotbrace then mret (Some (G_TOKEN_CHAR 40)) else g_scanner_get_next_token);
      if is_char token 40 then
        token ← g_scanner_get_next_token;
        t ← match token with
            | Some (G_TOKEN_SYMBOL s) =>
                sym ← lift (symbol_at syms s);
                base ← lift (var_base (S (length syms)) syms s);
                terms ← parse_values fuel syms;
                mret (term_of_type sym base terms)
            | Some (G_TOKEN_IDENTIFIER v) => e_sexp_fatal_error "Unknown identifier: %s" v
            | _ => e_sexp_fatal_error "Unexpected token encountered: %d" []
            end;
        token ← g_scanner_get_next_token;
        if is_char token 41 then mret t else e_sexp_fatal_error "Missing ')'" []
      else e_sexp_fatal_error "Missing '('" []
  end.

(** ** The object *)

(** [f->tree]: NULL, a term, or a pointer to a term that was freed. *)
Inductive tree_ptr := TreeNull | Tree (t : ESExpTerm) | TreeFreed.

(** The symbols that were allocated, the scanner's table of them by scope and name, its scope
    and the tokens it has still to give; [tree] and [error]. *)
Record ESExp := mkSExp {
  symbols : list (option ESExpSymbol);
  table : gmap (Z * list Z) nat;
  scope : Z;
  scanner : list GToken;
  tree : tree_ptr;
  error : option failure;
}.

(** The scanner: the key of a name in its table, and the tokens of a text, given the
    symbols of the current scope. *)
Class GScanner := {
  g_scanner_key : list Z -> list Z;
  g_scanner_tokens : (list Z -> option nat) -> list Z -> list GToken;
}.

Section object.
Context `{GScanner}.

Definition g_scanner_lookup_symbol (f : ESExp) (scope : Z) (name : list Z) : option nat :=
  table f !! (scope, g_scanner_key name).

Definition e_sexp_remove_symbol (f : ESExp) (scp : Z) (name : list Z) : ESExp :=
  match g_scanner_lookup_symbol f scp name with
  | None => f
  | Some s =>
      mkSExp (<[s := None]> (symbols f)) (delete (scp, g_scanner_key name) (table f))
        (scope f) (scanner f) (tree f) (error f)
  end.

(** [g_malloc0] and [g_scanner_scope_add_symbol]. *)
Definition add_symbol (f : ESExp) (scp : Z) (name : list Z) (s : ESExpSymbol) : ESExp :=
  mkSExp (symbols f ++ [Some s]) (<[(scp, g_scanner_key name) := length (symbols f)]> (table f))
    (scope f) (scanner f) (tree f) (error f).

Definition e_sexp_add_function (f : ESExp) (scp : Z) (name : list Z) (func : option ESExpFunc) : ESExp :=
  add_symbol (e_sexp_remove_symbol f scp name) scp name (SymFunc name func).

Definition e_sexp_add_ifunction (f : ESExp) (scp : Z) (name : list Z) (ifunc : option ESExpIFunc) : ESExp :=
  add_symbol (e_sexp_remove_symbol f scp name) scp name (SymIFunc name ifunc).

Definition e_sexp_add_variable (f : ESExp) (scp : Z) (name : list Z) (value : option ESExpTerm) : ESExp :=
  add_symbol f scp name (SymVar name value).

(** The old scope is returned. *)
Definition e_sexp_set_scope (f : ESExp) (scp : Z) : ESExp * Z :=
  (mkSExp (symbols f) (table f) scp (scanner f) (tree f) (error f), scope f).

Inductive builtin :=
  | Builtin (name : String.string) (func : ESExpFunc)
  | BuiltinI (name : String.string) (ifunc : ESExpIFunc).

(** [symbols[]]; those of type 1 are [BuiltinI]. *)
Definition builtin_symbols `{GHashOrder} : list builtin :=
  [ BuiltinI "and" term_eval_and; BuiltinI "or" term_eval_or; Builtin "not" term_eval_not;
    BuiltinI "<" term_eval_lt; BuiltinI ">" term_eval_gt; BuiltinI "=" term_eval_eq;
    Builtin "+" term_eval_plus; Builtin "-" term_eval_sub;
    Builtin "cast-int" term_eval_castint; Builtin "cast-string" term_eval_caststring;
    BuiltinI "if" term_eval_if; BuiltinI "begin" term_eval_begin ].

Definition e_sexp_init `{GHashOrder} (s : ESExp) : ESExp :=
  foldl (fun s b =>
    match b with
    | BuiltinI name ifunc => e_sexp_add_ifunction s 0 (bytes name) (Some ifunc)
    | Builtin name func => e_sexp_add_function s 0 (bytes name) (Some func)
    end) s builtin_symbols.

Definition e_sexp_new `{GHashOrder} : ESExp := e_sexp_init (mkSExp [] ∅ 0 [] TreeNull None).

(** Identifiers are looked up when they are read; symbols are added before the text is
    given. *)
Definition e_sexp_input_text (f : ESExp) (text : list Z) : ESExp :=
  mkSExp (symbols f) (table f) (scope f)
    (g_scanner_tokens (g_scanner_lookup_symbol f (scope f)) text) (tree f) (error f).

(** A bound on the calls of the parser. *)
Definition parse_fuel (gs : list GToken) : nat := 3 * length gs + 3.

(** [parse_term_free] of a freed term is undefined.  When the parser jumps, [tree] is left as
    it is. *)
Definition e_sexp_parse (f : ESExp) : res (ESExp * Z) :=
  match tree f with
  | TreeFreed => Undef
  | _ =>
      let old := match tree f with TreeNull => TreeNull | _ => TreeFreed end in
      '(gs, r) ← parse_value (parse_fuel (scanner f)) (symbols f) (scanner f);
      Ok match r with
         | inl t =>
             (mkSExp (symbols f) (table f) (scope f) gs
                match t with Some t => Tree t | None => TreeNull end (error f), 0)
         | inr e => (mkSExp (symbols f) (table f) (scope f) gs old (Some e), -1)
         end
  end.

(** The application's state, the object, and the result or NULL. *)
Definition e_sexp_eval (fuel : nat) (f : ESExp) (s : St) : res (St * ESExp * option ESExpResult) :=
  match tree f with
  | TreeNull => Ok (s, f, None)
  | TreeFreed => Undef
  | Tree t =>
      '(s, r) ← e_sexp_term_eval fuel (symbols f) t s;
      Ok match r with
         | inl r => (s, f, Some r)
         | inr e => (s, mkSExp (symbols f) (table f) (scope f) (scanner f) (tree f) (Some e), None)
         end
  end.

Definition e_sexp_error (f : ESExp) : option failure := error f.
End object.
End sexp.

Arguments ESExpFunc : clear implicits.
Arguments ESExpIFunc : clear implicits.
Arguments ESExpSymbol : clear implicits.
Arguments ESExp : clear implicits.

(** ** Writing *)

(** [s] is a [GString]. *)
Definition e_sexp_encode_bool (s : list Z) (state : bool) : list Z :=
  s ++ [32; 35; if state then 116 else 102].

Fixpoint encode_chars (p : list Z) : list Z :=
  match p with
  | [] => []
  | c :: p => (if (c =? 92) || (c =? 34) || (c =? 39) then [92; c] else [c]) ++ encode_chars p
  end.

(** [None] is NULL. *)
Definition e_sexp_encode_string (s : list Z) (string : option (list Z)) : list Z :=
  s ++ [32; 34] ++ encode_chars (default [] string) ++ [34].
