(* ===== verification/SexpSpec.v ===== *)
(** * Search expressions: the parser and the symbol table

    Parsing gives back the term whose tokens are read, has defined behaviour on every
    sequence of tokens but those with [-] before 2147483648 or [(] before a variable that leads
    to no function, and reports errors as the object's users expect. *)

From S2P Require Import Prelude CString Sexp.
From stdpp Require Import gmap.
From Stdlib Require Import(notations) String.
#[local] Open Scope Z_scope.
#[local] Open Scope list_scope.

(** ** The monad *)

Section monad.
Context {St A B : Type}.

Lemma M_bind_inl (x : M St A) (f : A -> M St B) s s' a :
  x s = Ok (s', inl a) -> (x ≫= f) s = f a s'.
Proof. intros E. unfold mbind, M_bind. by rewrite E. Qed.

Lemma M_bind_inr (x : M St A) (f : A -> M St B) s s' e :
  x s = Ok (s', inr e) -> (x ≫= f) s = Ok (s', inr e).
Proof. intros E. unfold mbind, M_bind. by rewrite E. Qed.

Lemma M_bind_ret (f : A -> M St B) a : (mret a ≫= f) = f a.
Proof. reflexivity. Qed.

Lemma M_bind_lift (x : res A) (f : A -> M St B) a s : x = Ok a -> (lift x ≫= f) s = f a s.
Proof. by intros ->. Qed.
End monad.

(** ** Terms *)

Section term_ind.
Context (Q : ESExpTerm -> Prop).
Context (Hint : forall n, Q (ESEXP_TERM_INT n)) (Hbool : forall b, Q (ESEXP_TERM_BOOL b)).
Context (Hstring : forall s, Q (ESEXP_TERM_STRING s)) (Htime : forall t, Q (ESEXP_TERM_TIME t)).
Context (Hfunc : forall s ts, Forall Q ts -> Q (ESEXP_TERM_FUNC s ts)).
Context (Hifunc : forall s ts, Forall Q ts -> Q (ESEXP_TERM_IFUNC s ts)).
Context (Hvar : forall s ts, Forall Q ts -> Q (ESEXP_TERM_VAR s ts)).

(** Induction over terms and their arguments. *)
Fixpoint term_ind (t : ESExpTerm) : Q t :=
  let args := fix args (ts : list ESExpTerm) : Forall Q ts :=
    match ts with
    | [] => Forall_nil_2 _
    | t :: ts => Forall_cons_2 _ t ts (term_ind t) (args ts)
    end in
  match t with
  | ESEXP_TERM_INT n => Hint n
  | ESEXP_TERM_BOOL b => Hbool b
  | ESEXP_TERM_STRING s => Hstring s
  | ESEXP_TERM_TIME t => Htime t
  | ESEXP_TERM_FUNC s ts => Hfunc s ts (args ts)
  | ESEXP_TERM_IFUNC s ts => Hifunc s ts (args ts)
  | ESEXP_TERM_VAR s ts => Hvar s ts (args ts)
  end.
End term_ind.

(** ** Reading back what is printed *)

Section parser.
Context {St : Type} (syms : list (option (ESExpSymbol St))).

Lemma next_token {A} token gs (f : option GToken -> M (list GToken) A) :
  (g_scanner_get_next_token ≫= f) (token :: gs) = f (Some token) gs.
Proof. reflexivity. Qed.

(** The tokens of a term. *)
Fixpoint print_term (t : ESExpTerm) : list GToken :=
  match t with
  | ESEXP_TERM_INT n =>
      if n <? 0 then [G_TOKEN_CHAR 45; G_TOKEN_INT (- n)] else [G_TOKEN_INT n]
  | ESEXP_TERM_BOOL b => [G_TOKEN_CHAR 35; G_TOKEN_IDENTIFIER [if b =? 1 then 116 else 102]]
  | ESEXP_TERM_STRING s => [G_TOKEN_STRING s]
  | ESEXP_TERM_TIME _ => []
  | ESEXP_TERM_FUNC s ts | ESEXP_TERM_IFUNC s ts =>
      G_TOKEN_CHAR 40 :: G_TOKEN_SYMBOL s :: concat (map print_term ts) ++ [G_TOKEN_CHAR 41]
  | ESEXP_TERM_VAR s _ => [G_TOKEN_SYMBOL s]
  end.

(** Terms that can be written: no times, numbers but the smallest [int], booleans that are 0
    or 1, and calls of symbols of their type. *)
Fixpoint printable (t : ESExpTerm) : Prop :=
  match t with
  | ESEXP_TERM_INT n => - 2 ^ 31 < n < 2 ^ 31
  | ESEXP_TERM_BOOL b => b = 0 \/ b = 1
  | ESEXP_TERM_STRING _ => True
  | ESEXP_TERM_TIME _ => False
  | ESEXP_TERM_FUNC s ts =>
      (exists name f, symbol_at syms s = Ok (SymFunc name f)) /\ foldr and True (map printable ts)
  | ESEXP_TERM_IFUNC s ts =>
      (exists name f, symbol_at syms s = Ok (SymIFunc name f)) /\ foldr and True (map printable ts)
  | ESEXP_TERM_VAR s ts => (exists name d, symbol_at syms s = Ok (SymVar name d)) /\ ts = []
  end.

Lemma print_nonempty t : printable t -> exists k l, print_term t = k :: l /\ is_char (Some k) 41 = false.
Proof. destruct t; simpl; intros H; try done; try (by eexists _, _). by case_match; eexists _, _. Qed.

(** A term whose arguments are read back. *)
Definition reads_back (t : ESExpTerm) : Prop :=
  forall rest fuel, (3 * length (print_term t) <= fuel)%nat -> printable t ->
    parse_value fuel syms (print_term t ++ rest) = Ok (rest, inl (Some t)).

Lemma parse_values_print ts rest fuel :
  Forall reads_back ts -> foldr and True (map printable ts) ->
  (3 * length (concat (map print_term ts)) + 1 <= fuel)%nat ->
  parse_values fuel syms (concat (map print_term ts) ++ G_TOKEN_CHAR 41 :: rest) =
    Ok (G_TOKEN_CHAR 41 :: rest, inl ts).
Proof.
  intros Hts. revert fuel. induction Hts as [|t ts Ht _ IH]; intros fuel Hp Hfuel.
  - destruct fuel as [|fuel]; [lia|]. reflexivity.
  - destruct Hp as [Hp Hps]. destruct (print_nonempty t Hp) as (k & l & E & Hk).
    cbn [map concat] in *. rewrite length_app in Hfuel. rewrite <- app_assoc.
    assert (length (print_term t) = S (length l)) as El by by rewrite E.
    destruct fuel as [|fuel]; [lia|]. cbn [parse_values].
    set (gs := print_term t ++ _).
    assert (head gs = Some k) as Eh by (unfold gs; by rewrite E).
    rewrite (M_bind_inl g_scanner_peek_next_token _ gs gs (Some k))
      by (unfold g_scanner_peek_next_token; by rewrite Eh).
    rewrite bool_decide_eq_true_2 by by eexists. rewrite Hk. cbn [negb andb]. unfold gs.
    rewrite (M_bind_inl _ _ _ _ _ (Ht _ fuel ltac:(lia) Hp)).
    rewrite (M_bind_inl _ _ _ _ _ (IH fuel Hps ltac:(lia))). reflexivity.
Qed.

Lemma parse_list_print (mk : nat -> list ESExpTerm -> ESExpTerm) s sym ts rest fuel :
  Forall reads_back ts -> foldr and True (map printable ts) ->
  symbol_at syms s = Ok sym -> var_base (S (length syms)) syms s = Ok s ->
  term_of_type sym s ts = mk s ts ->
  (3 * length (concat (map print_term ts)) + 3 <= fuel)%nat ->
  parse_value fuel syms
    ((G_TOKEN_CHAR 40 :: G_TOKEN_SYMBOL s :: concat (map print_term ts) ++ [G_TOKEN_CHAR 41]) ++ rest) =
    Ok (rest, inl (Some (mk s ts))).
Proof.
  intros Hts Hp Hs Hb Emk Hfuel. do 2 (destruct fuel as [|fuel]; [lia|]).
  cbn [app]. rewrite <- app_assoc. cbn [app]. cbn [parse_value].
  rewrite next_token.
  change (is_char (Some (G_TOKEN_CHAR 40)) 40) with true. cbv iota. cbn [parse_list].
  rewrite (M_bind_inl _ _ _ rest (mk s ts)); [reflexivity|].
  rewrite M_bind_ret. change (is_char (Some (G_TOKEN_CHAR 40)) 40) with true. cbv iota.
  rewrite next_token.
  rewrite (M_bind_inl _ _ _ (G_TOKEN_CHAR 41 :: rest) (mk s ts)); [reflexivity|].
  cbv iota. rewrite (M_bind_lift _ _ _ _ Hs), (M_bind_lift _ _ _ _ Hb).
  rewrite (M_bind_inl _ _ _ _ _ (parse_values_print ts rest fuel Hts Hp ltac:(lia))).
  by rewrite Emk.
Qed.

Lemma term_reads_back t : reads_back t.
Proof.
  induction t as [n|b|v|v|s ts IH|s ts IH|s ts IH] using term_ind; intros rest fuel Hfuel Hp.
  all: cbn [print_term] in *.
  all: try (destruct fuel as [|fuel]; [first [case_match; simpl in Hfuel; lia|simpl in Hfuel; lia]|]).
  - simpl in Hp. destruct (Z.ltb_spec n 0); cbn [app parse_value];
      rewrite next_token.
    + cbn [is_char]. change (45 =? 40) with false. change (45 =? 45) with true. cbv iota.
      rewrite next_token.
      rewrite (M_bind_lift _ _ n); [done|]. rewrite s32_small by lia. unfold checked_int.
      rewrite Z.opp_involutive. destruct ((- 2 ^ 31 <=? n) && (n <? 2 ^ 31)) eqn:E; [done|lia].
    + rewrite s32_small by lia. done.
  - destruct Hp as [->| ->]; reflexivity.
  - reflexivity.
  - done.
  - destruct Hp as [(name & f & Hs) Hps]. simpl in Hfuel. rewrite length_app in Hfuel. simpl in Hfuel.
    apply (parse_list_print ESEXP_TERM_FUNC s (SymFunc name f));
      [exact IH|exact Hps|exact Hs|cbn [var_base]; by rewrite Hs|reflexivity|lia].
  - destruct Hp as [(name & f & Hs) Hps]. simpl in Hfuel. rewrite length_app in Hfuel. simpl in Hfuel.
    apply (parse_list_print ESEXP_TERM_IFUNC s (SymIFunc name f));
      [exact IH|exact Hps|exact Hs|cbn [var_base]; by rewrite Hs|reflexivity|lia].
  - destruct Hp as [(name & d & Hs) ->]. cbn [app parse_value].
    rewrite next_token.
    by rewrite (M_bind_lift _ _ _ _ Hs).
Qed.

(** ** Any tokens *)

(** Symbols are live; the symbol after [(] is a function, or a variable that leads to
    one: neither one without a term nor one that refers to itself; the number after [-]
    has a negative. *)
Definition token_live (k : GToken) : Prop :=
  match k with
  | G_TOKEN_SYMBOL s => is_Ok (symbol_at syms s)
  | _ => True
  end.

Definition pair_ok (k1 k2 : GToken) : Prop :=
  match k1, k2 with
  | G_TOKEN_CHAR c, G_TOKEN_SYMBOL s => c = 40 -> is_Ok (var_base (S (length syms)) syms s)
  | G_TOKEN_CHAR c, G_TOKEN_INT v => c = 45 -> s32 v <> - 2 ^ 31
  | _, _ => True
  end.

Fixpoint tokens_ok (gs : list GToken) : Prop :=
  match gs with
  | [] => True
  | k :: gs => token_live k /\ match gs with k2 :: _ => pair_ok k k2 | [] => True end /\ tokens_ok gs
  end.

(** The symbols of the calls in a term are live and of its type. *)
Fixpoint term_ok (t : ESExpTerm) : Prop :=
  match t with
  | ESEXP_TERM_FUNC s ts =>
      (exists name f, symbol_at syms s = Ok (SymFunc name f)) /\ foldr and True (map term_ok ts)
  | ESEXP_TERM_IFUNC s ts =>
      (exists name f, symbol_at syms s = Ok (SymIFunc name f)) /\ foldr and True (map term_ok ts)
  | _ => True
  end.

(** The parser has defined behaviour on [gs], returns something with [good] or an error, and
    leaves fewer tokens. *)
Definition parses {A} (good : A -> Prop) (gs : list GToken) (x : res (list GToken * (A + failure))) : Prop :=
  exists gs' r, x = Ok (gs', r) /\ gs' `suffix_of` gs /\
    match r with inl a => good a | inr _ => True end.

Lemma parses_ret {A} (good : A -> Prop) gs gs' a :
  gs' `suffix_of` gs -> good a -> parses good gs ((mret a : M (list GToken) A) gs').
Proof. intros. by exists gs', (inl a). Qed.

Lemma parses_fatal {A} (good : A -> Prop) gs gs' why arg :
  gs' `suffix_of` gs -> parses good gs (e_sexp_fatal_error why arg gs').
Proof. intros. by exists gs', (inr (why, arg)). Qed.

Lemma parses_bind {A B} (good : A -> Prop) (good' : B -> Prop) gs gs1
    (x : M (list GToken) A) (f : A -> M (list GToken) B) :
  parses good gs1 (x gs1) -> gs1 `suffix_of` gs ->
  (forall a gs2, gs2 `suffix_of` gs1 -> good a -> parses good' gs (f a gs2)) ->
  parses good' gs ((x ≫= f) gs1).
Proof.
  intros (gs2 & [a|e] & E & Hs & Ha) Hs1 Hf.
  - rewrite (M_bind_inl _ _ _ _ _ E). auto.
  - rewrite (M_bind_inr _ _ _ _ _ E). exists gs2, (inr e). split; [done|]. split; [by transitivity gs1|done].
Qed.

Lemma parses_next {A} (good : A -> Prop) gs gs1 (f : option GToken -> M (list GToken) A) :
  gs1 `suffix_of` gs ->
  (gs1 = [] -> parses good gs (f None [])) ->
  (forall k gs2, gs1 = k :: gs2 -> gs2 `suffix_of` gs -> parses good gs (f (Some k) gs2)) ->
  parses good gs ((g_scanner_get_next_token ≫= f) gs1).
Proof.
  intros Hs H0 H1. destruct gs1 as [|k gs2]; [by apply H0|]. rewrite next_token. apply H1; [done|].
  by eapply suffix_cons_l.
Qed.

Lemma parses_weaken {A} (good : A -> Prop) gs gs1 x : parses good gs1 x -> gs1 `suffix_of` gs -> parses good gs x.
Proof. intros (gs2 & r & -> & Hs & Hr) H. exists gs2, r. split; [done|]. split; [by transitivity gs1|done]. Qed.

Lemma var_base_symbol s base :
  var_base (S (length syms)) syms s = Ok base ->
  exists sym bsym, symbol_at syms s = Ok sym /\ symbol_at syms base = Ok bsym /\
    (match sym with SymVar _ _ => True | _ => base = s end).
Proof.
  generalize (S (length syms)). intros fuel. revert s.
  induction fuel as [|fuel IH]; intros s; [done|]. cbn [var_base].
  destruct (symbol_at syms s) as [sym| |] eqn:Es; [|done|done]. rewrite res_bind_Ok. intros E.
  destruct sym as [name f|name f|name [[| | | |v|v|v]|]]; try done.
  - injection E as <-. by eexists _, _.
  - injection E as <-. by eexists _, _.
  - apply IH in E as (_ & bsym & _ & Eb & _). by eexists _, _.
  - apply IH in E as (_ & bsym & _ & Eb & _). by eexists _, _.
  - apply IH in E as (_ & bsym & _ & Eb & _). by eexists _, _.
Qed.

Definition some_ok (o : option ESExpTerm) : Prop := exists t, o = Some t /\ term_ok t.
Definition terms_ok (ts : list ESExpTerm) : Prop := foldr and True (map term_ok ts).

(** What the three functions do with a bound on their calls. *)
Definition parser_ok (fuel : nat) : Prop :=
  forall gs, tokens_ok gs ->
    (forall k, tokens_ok (k :: gs) -> (3 * length gs + 4 <= fuel)%nat ->
       parses some_ok gs (parse_value fuel syms (k :: gs))) /\
    ((3 * length gs + 2 <= fuel)%nat -> parses terms_ok gs (parse_values fuel syms gs)) /\
    (tokens_ok (G_TOKEN_CHAR 40 :: gs) -> (3 * length gs + 1 <= fuel)%nat ->
       parses term_ok gs (parse_list fuel syms true gs)).

Lemma tokens_suffix (gs gs' : list GToken) : gs' `suffix_of` gs -> tokens_ok gs -> tokens_ok gs'.
Proof. intros [l ->] H. induction l as [|k l IH]; [done|]. apply IH, H. Qed.

Lemma parse_values_ok fuel : parser_ok fuel -> forall gs, tokens_ok gs ->
  (3 * length gs + 2 <= S fuel)%nat -> parses terms_ok gs (parse_values (S fuel) syms gs).
Proof.
  intros IH gs Hgs Hfuel. cbn [parse_values].
  rewrite (M_bind_inl g_scanner_peek_next_token _ gs gs (head gs)) by done.
  destruct gs as [|k gs]; [by apply parses_ret|]. cbn [head]. rewrite bool_decide_eq_true_2 by by eexists.
  destruct (is_char (Some k) 41); cbn [negb andb]; [by apply parses_ret|].
  pose proof Hgs as (_ & _ & Hgs'). simpl in Hfuel.
  apply (parses_weaken _ _ gs); [|by apply suffix_cons_r].
  destruct (IH gs Hgs') as (Hv & _ & _). specialize (Hv k Hgs ltac:(lia)).
  destruct Hv as (gs1 & [a|e] & E & Hs & Ha).
  - rewrite (M_bind_inl _ _ _ _ _ E). destruct Ha as (t & -> & Ht).
    apply suffix_length in Hs as Hl. destruct (IH gs1 (tokens_suffix _ _ Hs Hgs')) as (_ & Hvs & _).
    eapply parses_bind; [apply Hvs; lia|done|]. intros ts gs2 Hs2 Hts.
    apply parses_ret; [by transitivity gs1|done].
  - rewrite (M_bind_inr _ _ _ _ _ E). by exists gs1, (inr e).
Qed.

Lemma term_of_type_ok sym s base bsym ts :
  symbol_at syms s = Ok sym -> symbol_at syms base = Ok bsym ->
  match sym with SymVar _ _ => True | _ => base = s end ->
  terms_ok ts -> term_ok (term_of_type sym base ts).
Proof.
  intros Hs Hb Hbase Hts. destruct sym; simpl; [subst..|done]; (split; [by eexists _, _|done]).
Qed.

Lemma parse_list_ok fuel : parser_ok fuel -> forall gs, tokens_ok (G_TOKEN_CHAR 40 :: gs) ->
  (3 * length gs + 1 <= S fuel)%nat -> parses term_ok gs (parse_list (S fuel) syms true gs).
Proof.
  intros IH gs Hgs Hfuel. cbn [parse_list]. rewrite M_bind_ret.
  change (is_char (Some (G_TOKEN_CHAR 40)) 40) with true. cbv iota.
  apply parses_next; [done|intros ->|intros k gs2 -> _].
  { by rewrite (M_bind_inr _ _ [] [] ("Unexpected token encountered: %d"%string, [])); [eexists [], _|]. }
  destruct Hgs as (_ & Hk & _ & _ & Hgs). simpl in Hfuel.
  apply (parses_weaken _ _ gs2); [|by apply suffix_cons_r].
  apply (parses_bind term_ok _ gs2); [|done|].
  - destruct k as [c|v|v|v|s|n]; try by apply parses_fatal.
    destruct (Hk eq_refl) as (base & Hb). destruct (var_base_symbol _ _ Hb) as (sym & bsym & Es & Eb & Hbase).
    rewrite (M_bind_lift _ _ _ _ Es), (M_bind_lift _ _ _ _ Hb).
    destruct (IH gs2 Hgs) as (_ & Hvs & _).
    eapply parses_bind; [apply Hvs; lia|done|]. intros ts gs3 Hs3 Hts.
    apply parses_ret; [done|]. by eapply term_of_type_ok.
  - intros t gs3 Hs3 Ht. apply parses_next; [done|intros ->; by apply parses_fatal|].
    intros k2 gs4 -> Hs4. destruct (is_char (Some k2) 41); [by apply parses_ret|by apply parses_fatal].
Qed.

Lemma parse_value_ok fuel : parser_ok fuel -> forall gs k, tokens_ok (k :: gs) ->
  (3 * length gs + 4 <= S fuel)%nat -> parses some_ok gs (parse_value (S fuel) syms (k :: gs)).
Proof.
  intros IH gs k Hkgs Hfuel. pose proof Hkgs as (Hk & Hp & Hgs). cbn [parse_value]. rewrite next_token.
  destruct k as [c|v|v|v|s|n]; 
    try (apply parses_ret; [done|eexists; split; [done|exact I]]);
    try (by apply parses_fatal).
  - destruct (is_char (Some (G_TOKEN_CHAR c)) 40) eqn:Ec.
    { simpl in Ec. apply Z.eqb_eq in Ec as ->. destruct (IH gs Hgs) as (_ & _ & Hl).
      eapply parses_bind; [apply Hl; [done|lia]|done|].
      intros t gs2 Hs Ht. apply parses_ret; [done|by exists t]. }
    destruct (is_char (Some (G_TOKEN_CHAR c)) 45) eqn:Ec'.
    { simpl in Ec'. apply Z.eqb_eq in Ec'.
      apply parses_next; [done|intros _; apply parses_fatal, suffix_nil|]. intros k gs2 -> Hs2.
      destruct k as [?|?|v|?|?|?]; try by apply parses_fatal.
      rewrite (M_bind_lift _ _ (- s32 v)); [apply parses_ret; [done|by eexists]|].
      specialize (Hp Ec'). unfold checked_int.
      assert (- 2 ^ 31 <= s32 v < 2 ^ 31) by (unfold s32; pose proof (Z.mod_pos_bound (v + 2 ^ 31) (2 ^ 32)); lia).
      destruct ((- 2 ^ 31 <=? - s32 v) && (- s32 v <? 2 ^ 31)) eqn:E; [done|lia]. }
    destruct (is_char (Some (G_TOKEN_CHAR c)) 35); [|by apply parses_fatal].
    apply parses_next; [done|intros _; apply parses_fatal, suffix_nil|]. intros k gs2 -> Hs2.
    destruct k as [?|?|?|[|d [|? ?]]|?|?]; try by apply parses_fatal.
    destruct ((d =? 116) || (d =? 102)); [apply parses_ret; [done|by eexists]|by apply parses_fatal].
  - destruct Hk as (sym & Es). rewrite (M_bind_lift _ _ _ _ Es). destruct (IH gs Hgs) as (_ & Hvs & _).
    destruct sym as [name f|name f|name d]; [| |apply parses_ret; [done|by eexists]];
      (eapply parses_bind; [apply Hvs; lia|done|]; intros ts gs2 Hs2 Hts;
       apply parses_ret; [done|eexists; split; [done|]]; by eapply (term_of_type_ok _ s s)).
Qed.

Lemma parser_total fuel : parser_ok fuel.
Proof.
  induction fuel as [|fuel IH]; intros gs Hgs; (split; [|split]); try lia.
  - intros k Hk. by apply parse_value_ok.
  - by apply parse_values_ok.
  - by apply parse_list_ok.
Qed.
End parser.

(** ** The object *)

(** Nothing but the tokens, the tree and the error differs. *)
Definition set_parse {St} (f : ESExp St) (gs : list GToken) (t : tree_ptr) (e : option failure) : ESExp St :=
  mkSExp (symbols f) (table f) (scope f) gs t e.

(** The term whose tokens are the text is what [e_sexp_parse] makes the tree, with the
    tokens after it left to be read. *)
Theorem sexp_parse_print {St} (f : ESExp St) t rest :
  tree f <> TreeFreed -> scanner f = print_term t ++ rest -> printable (symbols f) t ->
  e_sexp_parse f = Ok (set_parse f rest (Tree t) (error f), 0).
Proof.
  intros Ht Es Hp. unfold e_sexp_parse. rewrite Es.
  rewrite (term_reads_back (symbols f) t rest) by (try done; unfold parse_fuel; rewrite length_app; lia).
  by destruct (tree f).
Qed.

(** C31: whatever the tokens, as long as their symbols are live, a [(] is not followed by a
    variable that has no term or refers to itself, and a [-] is not followed by 2147483648,
    and if there is no dangling tree from a parse that failed: parsing terminates with
    defined behaviour, in one of three
    ways: 0 with a tree whose symbols are live and of the right type, 0 with no tree
    at the end of the text, or -1 with the error set and no term that can be used: the
    tree pointer is left pointing to the term that was freed, if there was one.  The tokens
    excluded are undefined behaviour or an endless loop ([parse_excluded]). *)
Theorem sexp_parse_total {St} (f : ESExp St) :
  tree f <> TreeFreed -> tokens_ok (symbols f) (scanner f) ->
  exists gs t e n, e_sexp_parse f = Ok (set_parse f gs t e, n) /\ gs `suffix_of` scanner f /\
    match t with
    | Tree t => n = 0 /\ e = error f /\ term_ok (symbols f) t
    | TreeNull => n = 0 /\ e = error f /\ scanner f = [] \/ n = -1 /\ is_Some e /\ tree f = TreeNull
    | TreeFreed => n = -1 /\ is_Some e /\ tree f <> TreeNull
    end.
Proof.
  intros Ht Hgs. unfold e_sexp_parse.
  assert (exists gs r, parse_value (parse_fuel (scanner f)) (symbols f) (scanner f) = Ok (gs, r) /\
    gs `suffix_of` scanner f /\
    match r with
    | inl (Some t) => term_ok (symbols f) t
    | inl None => scanner f = []
    | inr _ => True
    end) as (gs & r & E & Hs & Hr).
  { destruct (scanner f) as [|k gs] eqn:Es; [by eexists [], _|]. pose proof Hgs as (_ & _ & Hgs').
    destruct (parser_total (symbols f) (parse_fuel (k :: gs)) gs Hgs') as (Hv & _).
    destruct (Hv k Hgs) as (gs' & r & E & Hs & Hr); [unfold parse_fuel; simpl; lia|].
    exists gs', r. split; [done|]. split; [by apply suffix_cons_r|].
    destruct r as [o|]; [|done]. by destruct Hr as (t & -> & ?). }
  destruct r as [[t|]|e].
  - exists gs, (Tree t), (error f), 0. rewrite E. by destruct (tree f).
  - exists gs, TreeNull, (error f), 0. rewrite E. split; [by destruct (tree f)|]. split; [done|]. by left.
  - exists gs, (match tree f with TreeNull => TreeNull | _ => TreeFreed end), (Some e), (-1). rewrite E.
    split; [by destruct (tree f)|]. split; [done|]. destruct (tree f); [right|..]; done.
Qed.

(** An object with [and] as its only symbol. *)
Definition and_object (gs : list GToken) (t : tree_ptr) : ESExp unit :=
  mkSExp [Some (SymIFunc (bytes "and") (Some term_eval_and))] ∅ 0 gs t None.

Lemma sexp_parse_print_witness :
  let t := ESEXP_TERM_IFUNC 0 [ESEXP_TERM_BOOL 1; ESEXP_TERM_INT (-5); ESEXP_TERM_STRING [97]] in
  let f := and_object (print_term t) TreeNull in
  e_sexp_parse f = Ok (set_parse f [] (Tree t) None, 0).
Proof.
  intros t f. apply (sexp_parse_print f t []).
  - discriminate.
  - reflexivity.
  - simpl. split; [eexists _, _; reflexivity|]. repeat split; try lia.
Defined.

Lemma sexp_parse_total_witness :
  exists gs t e n, e_sexp_parse (and_object [G_TOKEN_CHAR 40; G_TOKEN_SYMBOL 0] (Tree (ESEXP_TERM_INT 1))) =
    Ok (set_parse (and_object [] TreeNull) gs t e, n).
Proof.
  destruct (sexp_parse_total (and_object [G_TOKEN_CHAR 40; G_TOKEN_SYMBOL 0] (Tree (ESEXP_TERM_INT 1))))
    as (gs & t & e & n & E & _).
  - discriminate.
  - split; [exact I|]. split; [intros _; eexists; reflexivity|]. split; [eexists; reflexivity|]. split; exact I.
  - exists gs, t, e, n. exact E.
Defined.

(** [- 2147483648]; [(x)] for a variable without a term, and for one that refers to itself,
    for which no number of steps is enough. *)
Example parse_excluded :
  e_sexp_parse (and_object [G_TOKEN_CHAR 45; G_TOKEN_INT (2 ^ 31)] TreeNull) = Undef /\
  e_sexp_parse (mkSExp [Some (SymVar (St := unit) [120] None)] ∅ 0 [G_TOKEN_CHAR 40; G_TOKEN_SYMBOL 0; G_TOKEN_CHAR 41] TreeNull None) = Undef /\
  forall fuel, var_base fuel [Some (SymVar (St := unit) [120] (Some (ESEXP_TERM_VAR 0 [])))] 0 = NoFuel.
Proof. split; [reflexivity|]. split; [reflexivity|]. intros fuel. by induction fuel. Qed.

(** After an error the old tree is gone, and parsing again frees it a second time. *)
Example parse_error_dangling :
  exists f, e_sexp_parse (and_object [G_TOKEN_CHAR 41] (Tree (ESEXP_TERM_INT 1))) = Ok (f, -1) /\
    e_sexp_parse f = Undef /\ forall fuel s, e_sexp_eval fuel f s = Undef.
Proof. eexists. split; [reflexivity|]. split; reflexivity. Qed.

(** A variable can be parsed, but not evaluated. *)
Example variable_is_fatal :
  @e_sexp_term_eval unit 1 [Some (SymVar [120] (Some (ESEXP_TERM_INT 1)))] (ESEXP_TERM_VAR 0 []) tt
    = Ok (tt, inr ("Unknown type in parse tree: %d"%string, [])).
Proof. reflexivity. Qed.

(** * Search expressions: the symbol table

    The table of symbols implements a finite map from scopes and names to symbols, in which
    what was added last counts; no operation leaves a pointer to a freed symbol in it. *)

Section symbols.
Context {St : Type} `{GScanner}.
Implicit Types f : ESExp St.

(** ** The invariant *)

(** The pointers in the table are to live symbols, and no two keys share one. *)
Definition table_ok f : Prop :=
  (forall k s, table f !! k = Some s -> exists sym, symbol_at (symbols f) s = Ok sym) /\
  (forall k1 k2 s, table f !! k1 = Some s -> table f !! k2 = Some s -> k1 = k2).

(** The map that the table stands for. *)
Definition lookup_symbol f (scp : Z) (name : list Z) : option (ESExpSymbol St) :=
  s ← g_scanner_lookup_symbol f scp name; mjoin (symbols f !! s).

Lemma symbol_at_live (syms : list (option (ESExpSymbol St))) s sym :
  symbol_at syms s = Ok sym <-> syms !! s = Some (Some sym).
Proof. unfold symbol_at. destruct (syms !! s) as [[?|]|]; naive_solver. Qed.

Lemma table_lt f k s : table_ok f -> table f !! k = Some s -> (s < length (symbols f))%nat.
Proof. intros [Hl _] Hs. destruct (Hl _ _ Hs) as (sym & E%symbol_at_live). by eapply lookup_lt_Some. Qed.

(** The key of a name in a scope. *)
Definition key (scp : Z) (name : list Z) : Z * list Z := (scp, g_scanner_key name).

(** What an operation does to the map. *)
Definition updates f f' (k : Z * list Z) (o : option (ESExpSymbol St)) : Prop :=
  table_ok f' /\ forall scp name,
    lookup_symbol f' scp name = if decide (key scp name = k) then o else lookup_symbol f scp name.

(** ** The operations *)

Lemma remove_symbol_updates f scp name :
  table_ok f -> updates f (e_sexp_remove_symbol f scp name) (key scp name) None.
Proof.
  intros Hok. unfold e_sexp_remove_symbol, lookup_symbol, g_scanner_lookup_symbol, updates, lookup_symbol.
  fold (key scp name). destruct (table f !! key scp name) as [s|] eqn:Es.
  2:{ split; [done|]. intros scp' name'. case_decide as Ek; [|done].
      unfold g_scanner_lookup_symbol. fold (key scp' name'). by rewrite Ek, Es. }
  pose proof Hok as [Hl Hi]. assert (forall k s', delete (key scp name) (table f) !! k = Some s' ->
    s' <> s /\ k <> key scp name /\ table f !! k = Some s') as Hother.
  { intros k s' E%lookup_delete_Some. destruct E as [Hk E]. split; [|split; congruence].
    intros ->. apply Hk. by eapply Hi. }
  split; [split|]; cbn [table symbols].
  - intros k s' (Hne & _ & Hk)%Hother. destruct (Hl _ _ Hk) as (sym & E%symbol_at_live).
    exists sym. apply symbol_at_live. by rewrite list_lookup_insert_ne.
  - intros k1 k2 s' (_ & _ & H1)%Hother (_ & _ & H2)%Hother. by eapply Hi.
  - intros scp' name'. unfold g_scanner_lookup_symbol. cbn [table symbols]. fold (key scp' name') (key scp name).
    case_decide as Ek; [by rewrite Ek, lookup_delete_eq|]. rewrite lookup_delete_ne by done.
    destruct (table f !! key scp' name') as [s'|] eqn:E'; [|done]. cbn.
    rewrite list_lookup_insert_ne; [done|]. intros <-. apply Ek. by eapply Hi.
Qed.

Lemma add_symbol_updates f scp name sym :
  table_ok f -> updates f (add_symbol f scp name sym) (key scp name) (Some sym).
Proof.
  intros Hok. pose proof Hok as [Hl Hi]. unfold add_symbol. fold (key scp name). split; [split|]; cbn [table symbols].
  - intros k s E. destruct (decide (key scp name = k)) as [<-|Hk].
    + rewrite lookup_insert_eq in E. injection E as <-. exists sym. apply symbol_at_live.
      by rewrite lookup_app_r, Nat.sub_diag by lia.
    + rewrite lookup_insert_ne in E by done. destruct (Hl _ _ E) as (sym' & E'%symbol_at_live).
      exists sym'. apply symbol_at_live. by apply lookup_app_l_Some.
  - intros k1 k2 s. destruct (decide (key scp name = k1)) as [<-|H1], (decide (key scp name = k2)) as [<-|H2];
      rewrite ?lookup_insert_eq, ?lookup_insert_ne by done; intros E1 E2; try done.
    + injection E1 as <-. apply table_lt in E2; [lia|done].
    + injection E2 as <-. apply table_lt in E1; [lia|done].
    + by eapply Hi.
  - intros scp' name'. unfold lookup_symbol, g_scanner_lookup_symbol. cbn [table symbols]. fold (key scp' name').
    case_decide as Ek.
    + rewrite Ek, lookup_insert_eq. cbn. by rewrite lookup_app_r, Nat.sub_diag by lia.
    + rewrite lookup_insert_ne by done. destruct (table f !! key scp' name') as [s|] eqn:E; [|done]. cbn.
      rewrite lookup_app_l; [done|]. by eapply table_lt.
Qed.

Lemma updates_trans f f1 f2 k o1 o2 : updates f f1 k o1 -> updates f1 f2 k o2 -> updates f f2 k o2.
Proof.
  intros [_ H1] [H2 H2']. split; [done|]. intros scp name. rewrite H2', H1. by case_decide.
Qed.

Lemma add_after_remove_updates f scp name sym :
  table_ok f -> updates f (add_symbol (e_sexp_remove_symbol f scp name) scp name sym) (key scp name) (Some sym).
Proof.
  intros Hok. pose proof (remove_symbol_updates f scp name Hok) as Hr.
  eapply updates_trans; [exact Hr|]. apply add_symbol_updates, Hr.
Qed.

(** ** Sequences of operations *)

Inductive op :=
  | AddFunction (scp : Z) (name : list Z) (func : option (ESExpFunc St))
  | AddIFunction (scp : Z) (name : list Z) (ifunc : option (ESExpIFunc St))
  | AddVariable (scp : Z) (name : list Z) (value : option ESExpTerm)
  | RemoveSymbol (scp : Z) (name : list Z)
  | SetScope (scp : Z)
  | InputText (text : list Z).

Definition step f (o : op) : ESExp St :=
  match o with
  | AddFunction scp name func => e_sexp_add_function f scp name func
  | AddIFunction scp name ifunc => e_sexp_add_ifunction f scp name ifunc
  | AddVariable scp name value => e_sexp_add_variable f scp name value
  | RemoveSymbol scp name => e_sexp_remove_symbol f scp name
  | SetScope scp => fst (e_sexp_set_scope f scp)
  | InputText text => e_sexp_input_text f text
  end.

(** The specification: the operation on a map. *)
Definition spec_step (m : Z * list Z -> option (ESExpSymbol St)) (o : op) : Z * list Z -> option (ESExpSymbol St) :=
  let set k v k' := if decide (k' = k) then v else m k' in
  match o with
  | AddFunction scp name func => set (key scp name) (Some (SymFunc name func))
  | AddIFunction scp name ifunc => set (key scp name) (Some (SymIFunc name ifunc))
  | AddVariable scp name value => set (key scp name) (Some (SymVar name value))
  | RemoveSymbol scp name => set (key scp name) None
  | SetScope _ | InputText _ => m
  end.

(** [f] has the symbols of [m], and an invariant. *)
Definition represents f (m : Z * list Z -> option (ESExpSymbol St)) : Prop :=
  table_ok f /\ forall scp name, lookup_symbol f scp name = m (key scp name).

Lemma represents_updates f f' m k o :
  represents f m -> updates f f' k o ->
  represents f' (fun k' => if decide (k' = k) then o else m k').
Proof. intros [_ Hm] [Hok Hu]. split; [done|]. intros scp name. by rewrite Hu, Hm. Qed.

Lemma step_represents f m o : represents f m -> represents (step f o) (spec_step m o).
Proof.
  intros Hr. pose proof Hr as [Hok Hm]. destruct o; cbn [step spec_step].
  - apply (represents_updates f); [done|]. by apply add_after_remove_updates.
  - apply (represents_updates f); [done|]. by apply add_after_remove_updates.
  - apply (represents_updates f); [done|]. by apply add_symbol_updates.
  - apply (represents_updates f); [done|]. by apply remove_symbol_updates.
  - done.
  - done.
Qed.

Lemma steps_represent os f m : represents f m -> represents (foldl step f os) (foldl spec_step m os).
Proof. revert f m. induction os as [|o os IH]; intros f m Hr; [done|]. by apply IH, step_represents. Qed.

(** The operations of [e_sexp_init]. *)
Definition builtin_op (b : builtin) : op :=
  match b with
  | BuiltinI name ifunc => AddIFunction 0 (bytes name) (Some ifunc)
  | Builtin name func => AddFunction 0 (bytes name) (Some func)
  end.

Lemma init_steps `{!GHashOrder} f : e_sexp_init f = foldl step f (map builtin_op builtin_symbols).
Proof.
  unfold e_sexp_init. generalize (builtin_symbols (St := St)) as bs. intros bs. revert f.
  induction bs as [|[name func|name ifunc] bs IH]; intros f; [done|..]; cbn [map foldl]; apply IH.
Qed.

(** C32: after any calls on a new object the table of symbols is the map in which every scope and
    name has the symbol that was added last and not removed, the functions that are
    always there having been added first; its pointers are to live symbols. *)
Theorem sexp_symbol_table `{!GHashOrder} (os : list op) :
  represents (foldl step e_sexp_new os)
    (foldl spec_step (fun _ => None) (map builtin_op builtin_symbols ++ os)).
Proof.
  unfold e_sexp_new. rewrite init_steps, <- foldl_app. apply steps_represent.
  split; [split|]; intros *; cbn; by rewrite lookup_empty.
Qed.
End symbols.
