(* ===== verification/SexpEvalSpec.v ===== *)
(** * Search expressions: evaluation

    The connectives on booleans and on sets of results, the casts, and a type system for
    which evaluation never ends in a fatal error. *)

From S2P Require Import Prelude CString Sexp SexpSpec.
From stdpp Require Import gmap.
From Stdlib Require Import(notations) String.
#[local] Open Scope Z_scope.
#[local] Open Scope list_scope.

(** ** Evaluating arguments *)

Section evals.
Context {St : Type}.

(** The terms [ts] are evaluated one after the other, to [rs]. *)
Inductive evals (eval : ESExpTerm -> M St ESExpResult)
    : list ESExpTerm -> St -> list ESExpResult -> St -> Prop :=
  | evals_nil s : evals eval [] s [] s
  | evals_cons t ts s s1 s2 r rs :
      eval t s = Ok (s1, inl r) -> evals eval ts s1 rs s2 -> evals eval (t :: ts) s (r :: rs) s2.

Lemma evals_mapM eval ts s rs s' : evals eval ts s rs s' -> mapM eval ts s = Ok (s', inl rs).
Proof.
  induction 1 as [|t ts s s1 s2 r rs E _ IH]; [done|]. cbn [mapM].
  by rewrite (M_bind_inl _ _ _ _ _ E), (M_bind_inl _ _ _ _ _ IH).
Qed.

Lemma evals_length eval ts s rs s' : evals eval ts s rs s' -> length ts = length rs.
Proof. induction 1; simpl; lia. Qed.

(** ** Sets of results *)

(** The number of times a key was counted. *)
Definition counted (ht : gmap (list Z) Z) (key : list Z) : Z := default 0 (ht !! key).

Lemma counted_insert ht k n key : counted (<[k := n]> ht) key = if decide (k = key) then n else counted ht key.
Proof. unfold counted. case_decide; [subst; by rewrite lookup_insert_eq|by rewrite lookup_insert_ne]. Qed.

Lemma and_count_spec a ht key :
  NoDup a -> counted (and_count ht a) key = counted ht key + (if decide (key ∈ a) then 1 else 0).
Proof.
  revert ht. induction a as [|k a IH]; intros ht; [intros _; simpl; lia|].
  intros [Hk Ha]%NoDup_cons. unfold and_count. cbn [foldl]. fold (and_count (<[k:=default 0 (ht !! k) + 1]> ht) a).
  rewrite IH, counted_insert by done. destruct (decide (k = key)) as [->|Hne].
  - rewrite decide_False, decide_True by (done || left). unfold counted. lia.
  - destruct (decide (key ∈ a)) as [H1|H1]; [rewrite decide_True by by right|
      rewrite decide_False by (intros [?|?]%elem_of_cons; congruence)]; lia.
Qed.

(** In how many of the arrays a key is. *)
Definition arrays_with (key : list Z) (rs : list (list (list Z))) : Z :=
  Z.of_nat (length (filter (fun a => key ∈ a) rs)).

Lemma arrays_with_cons key a rs :
  arrays_with key (a :: rs) = (if decide (key ∈ a) then 1 else 0) + arrays_with key rs.
Proof. unfold arrays_with. rewrite filter_cons. case_decide; simpl; lia. Qed.

Lemma arrays_with_all key rs : arrays_with key rs = Z.of_nat (length rs) <-> Forall (fun a => key ∈ a) rs.
Proof.
  unfold arrays_with. induction rs as [|a rs IH]; [done|]. rewrite filter_cons, Forall_cons.
  pose proof (length_filter (fun a => key ∈ a) rs). case_decide; simpl; [rewrite <- IH; split; [intros; split; [done|lia]|intros [_ ?]; lia]|].
  split; [lia|by intros []].
Qed.

Lemma and_loop_sets eval ts s s' rs ht type :
  evals eval ts s (ESEXP_RES_ARRAY_PTR <$> rs) s' -> Forall NoDup rs -> type = None \/ type = Some 0 ->
  exists ht', and_loop eval ts type 1 ht s =
      Ok (s', inl (if decide (ts = []) then type else Some 0, 1, ht')) /\
    forall key, counted ht' key = counted ht key + arrays_with key rs.
Proof.
  revert ts s ht type. induction rs as [|a rs IH]; intros ts s ht type He Hn Ht.
  - inversion He; subst. exists ht. split; [done|]. intros key. unfold arrays_with. simpl. lia.
  - inversion He as [|t ts' ? s1 ? ? ? E He']; subst. apply Forall_cons in Hn as [Ha Hn].
    cbn [and_loop]. change (1 =? 0) with false. cbv iota. rewrite (M_bind_inl _ _ _ _ _ E).
    destruct (IH ts' s1 (and_count ht a) (Some 0) He' Hn (or_intror eq_refl)) as (ht' & E' & Hc).
    exists ht'. destruct Ht as [-> | ->]; cbv beta zeta delta [default from_option res_type id]; cbn [Z.eqb negb].
    1,2: split; [rewrite E'; by case_decide|intros key; rewrite Hc, and_count_spec, arrays_with_cons by done; lia].
Qed.

Context `{!GHashOrder} (HG : GHashOrderLaws _).

Lemma entries_lookup ht key n : (key, n) ∈ g_hash_table_entries ht <-> ht !! key = Some n.
Proof. by rewrite g_hash_table_entries_perm, elem_of_map_to_list. Qed.

Lemma entries_nodup ht : NoDup (g_hash_table_entries ht).
Proof. rewrite g_hash_table_entries_perm. apply NoDup_map_to_list. Qed.

(** [(and a ...)] of sets is their intersection. *)
Lemma term_eval_and_sets eval ts s s' rs :
  ts <> [] -> evals eval ts s (ESEXP_RES_ARRAY_PTR <$> rs) s' -> Forall NoDup rs ->
  exists l, term_eval_and eval ts s = Ok (s', inl (Some (ESEXP_RES_ARRAY_PTR l))) /\ NoDup l /\
    forall key, key ∈ l <-> Forall (fun a => key ∈ a) rs.
Proof.
  intros Hne He Hn. destruct (and_loop_sets eval ts s s' rs ∅ None He Hn) as (ht & E & Hc); [by left|].
  unfold term_eval_and. rewrite (M_bind_inl _ _ _ _ _ E), decide_False by done.
  eexists. split; [reflexivity|]. split.
  - apply NoDup_fmap_fst; [|apply NoDup_filter, entries_nodup].
    intros k n1 n2 [_ H1%entries_lookup]%list_elem_of_filter [_ H2%entries_lookup]%list_elem_of_filter.
    congruence.
  - intros key. rewrite list_elem_of_fmap. rewrite <- arrays_with_all.
    specialize (Hc key). unfold counted in Hc. rewrite lookup_empty in Hc. simpl in Hc.
    apply evals_length in He as El. rewrite length_fmap in El. rewrite <- El.
    split.
    + intros ([k n] & -> & [En Hin]%list_elem_of_filter). apply entries_lookup in Hin. simpl in En, Hc.
      rewrite Hin in Hc. simpl in *. lia.
    + intros Ea. assert (0 < length ts)%nat by (destruct ts; [done|simpl; lia]).
      exists (key, Z.of_nat (length ts)). split; [done|]. apply list_elem_of_filter. split; [done|].
      apply entries_lookup. destruct (ht !! key); simpl in Hc; [f_equal|]; lia.
Qed.

Lemma or_insert_spec a ht key :
  or_insert ht a !! key = if decide (key ∈ a) then Some 1 else ht !! key.
Proof.
  revert ht. induction a as [|k a IH]; intros ht; [done|].
  unfold or_insert. cbn [foldl]. fold (or_insert (<[k:=1]> ht) a). rewrite IH.
  destruct (decide (key ∈ a)) as [H1|H1]; [by rewrite decide_True by by right|].
  destruct (decide (k = key)) as [->|Hne].
  - by rewrite lookup_insert_eq, decide_True by left.
  - rewrite lookup_insert_ne by done. rewrite decide_False; [done|]. intros [?|?]%elem_of_cons; congruence.
Qed.

Lemma or_loop_sets eval ts s s' rs ht type :
  evals eval ts s (ESEXP_RES_ARRAY_PTR <$> rs) s' -> type = None \/ type = Some 0 ->
  exists ht', or_loop eval ts type 0 ht s =
      Ok (s', inl (if decide (ts = []) then type else Some 0, 0, ht')) /\
    forall key, is_Some (ht' !! key) <-> is_Some (ht !! key) \/ Exists (fun a => key ∈ a) rs.
Proof.
  revert ts s ht type. induction rs as [|a rs IH]; intros ts s ht type He Ht.
  - inversion He; subst. exists ht. split; [done|]. intros key. rewrite Exists_nil. tauto.
  - inversion He as [|t ts' ? s1 ? ? ? E He']; subst.
    cbn [or_loop]. change (negb (0 =? 0)) with false. cbv iota. rewrite (M_bind_inl _ _ _ _ _ E).
    destruct (IH ts' s1 (or_insert ht a) (Some 0) He' (or_intror eq_refl)) as (ht' & E' & Hc).
    exists ht'. destruct Ht as [-> | ->]; cbv beta zeta delta [default from_option res_type id]; cbn [Z.eqb negb].
    1,2: split; [rewrite E'; by case_decide|intros key; rewrite Hc, or_insert_spec, Exists_cons].
  1,2: destruct (decide (key ∈ a)) as [Hin|Hin];
    [split; intros _; [right; left; exact Hin|left; by eexists]|tauto].
Qed.

(** [(or a ...)] of sets is their union. *)
Lemma term_eval_or_sets eval ts s s' rs :
  ts <> [] -> evals eval ts s (ESEXP_RES_ARRAY_PTR <$> rs) s' ->
  exists l, term_eval_or eval ts s = Ok (s', inl (Some (ESEXP_RES_ARRAY_PTR l))) /\ NoDup l /\
    forall key, key ∈ l <-> Exists (fun a => key ∈ a) rs.
Proof.
  intros Hne He. destruct (or_loop_sets eval ts s s' rs ∅ None He) as (ht & E & Hc); [by left|].
  unfold term_eval_or. rewrite (M_bind_inl _ _ _ _ _ E), decide_False by done.
  eexists. split; [reflexivity|]. split.
  - apply NoDup_fmap_fst; [|apply entries_nodup].
    intros k n1 n2 H1%entries_lookup H2%entries_lookup. congruence.
  - intros key. specialize (Hc key). rewrite lookup_empty in Hc. rewrite list_elem_of_fmap. split.
    + intros ([k n] & -> & Hin%entries_lookup). simpl in *. destruct Hc as [Hc _].
      destruct Hc as [[? ?]|]; [by rewrite Hin|done|done].
    + intros Hx. destruct Hc as [_ [n Hn]]; [by right|]. exists (key, n). split; [done|]. by apply entries_lookup.
Qed.
End evals.

(** ** Booleans *)

(** Search expressions as their users write them: constants, tests of the application and
    the connectives. *)
#[warnings="-register-all"]
Inductive query :=
  | QConst (b : bool)
  | QTest (i : nat)
  | QAnd (q : query) (qs : list query)
  | QOr (q : query) (qs : list query)
  | QNot (q : query)
  | QIf (c q1 q2 : query).

Section query_ind.
Context (Q : query -> Prop) (Hconst : forall b, Q (QConst b)) (Htest : forall i, Q (QTest i)).
Context (Hand : forall q qs, Forall Q (q :: qs) -> Q (QAnd q qs)).
Context (Hor : forall q qs, Forall Q (q :: qs) -> Q (QOr q qs)).
Context (Hnot : forall q, Q q -> Q (QNot q)) (Hif : forall c q1 q2, Q c -> Q q1 -> Q q2 -> Q (QIf c q1 q2)).

Fixpoint query_ind' (q : query) : Q q :=
  let all := fix all (qs : list query) : Forall Q qs :=
    match qs with
    | [] => Forall_nil_2 _
    | q :: qs => Forall_cons_2 _ q qs (query_ind' q) (all qs)
    end in
  match q with
  | QConst b => Hconst b
  | QTest i => Htest i
  | QAnd q qs => Hand q qs (Forall_cons_2 _ q qs (query_ind' q) (all qs))
  | QOr q qs => Hor q qs (Forall_cons_2 _ q qs (query_ind' q) (all qs))
  | QNot q => Hnot q (query_ind' q)
  | QIf c q1 q2 => Hif c q1 q2 (query_ind' c) (query_ind' q1) (query_ind' q2)
  end.
End query_ind.

(** What an expression means. *)
Fixpoint truth (test : nat -> bool) (q : query) : bool :=
  match q with
  | QConst b => b
  | QTest i => test i
  | QAnd q qs => truth test q && forallb id (map (truth test) qs)
  | QOr q qs => truth test q || existsb id (map (truth test) qs)
  | QNot q => negb (truth test q)
  | QIf c q1 q2 => if truth test c then truth test q1 else truth test q2
  end.

(** Its depth, which bounds the calls of the evaluator. *)
Fixpoint depth (q : query) : nat :=
  match q with
  | QConst _ => 1
  | QTest _ => 1
  | QAnd q qs | QOr q qs => S (Nat.max (depth q) (foldr Nat.max 0%nat (map depth qs)))
  | QNot q => S (depth q)
  | QIf c q1 q2 => S (Nat.max (depth c) (Nat.max (depth q1) (depth q2)))
  end.

Section boolean.
Context {St : Type} `{GHashOrder} (syms : list (option (ESExpSymbol St))).

(** The symbols of the connectives, and the terms of the tests. *)
Context (s_and s_or s_not s_if : nat) (test_term : nat -> ESExpTerm).

Fixpoint term_of_query (q : query) : ESExpTerm :=
  match q with
  | QConst b => ESEXP_TERM_BOOL (Z_of_bool b)
  | QTest i => test_term i
  | QAnd q qs => ESEXP_TERM_IFUNC s_and (term_of_query q :: map term_of_query qs)
  | QOr q qs => ESEXP_TERM_IFUNC s_or (term_of_query q :: map term_of_query qs)
  | QNot q => ESEXP_TERM_FUNC s_not [term_of_query q]
  | QIf c q1 q2 => ESEXP_TERM_IFUNC s_if [term_of_query c; term_of_query q1; term_of_query q2]
  end.

(** An evaluation to a boolean that leaves the application's state as it is. *)
Definition is_bool (x : M St ESExpResult) (b : bool) : Prop :=
  forall s, exists n, x s = Ok (s, inl (ESEXP_RES_BOOL n)) /\ (n =? 0) = negb b.

Lemma and_loop_bool eval ts bs :
  Forall2 (fun t b => is_bool (eval t) b) ts bs -> forall type n ht s,
  type = None \/ type = Some 3 ->
  exists n', and_loop eval ts type n ht s =
      Ok (s, inl (if decide (ts = []) then type else if n =? 0 then type else Some 3, n', ht)) /\
    (n' =? 0) = negb (negb (n =? 0) && forallb id bs).
Proof.
  induction 1 as [|t b ts bs Ht _ IH]; intros type n ht s Hty; cbn [and_loop].
  - exists n. split; [done|]. simpl. by rewrite andb_true_r, negb_involutive.
  - destruct (n =? 0) eqn:En; [exists n; by rewrite En|].
    destruct (Ht s) as (m & E & Hm). rewrite (M_bind_inl _ _ _ _ _ E).
    destruct (IH (Some 3) (if negb (m =? 0) then 1 else 0) ht s (or_intror eq_refl)) as (n' & E' & Hn').
    exists n'. rewrite Hn'. destruct Hty as [-> | ->]; cbv beta zeta delta [default from_option res_type id];
      cbn [Z.eqb Pos.eqb negb andb]; rewrite E'; (split; [|by rewrite Hm; destruct b]);
      do 3 f_equal; repeat case_decide; try done; by destruct (m =? 0).
Qed.

Lemma or_loop_bool eval ts bs :
  Forall2 (fun t b => is_bool (eval t) b) ts bs -> forall type n ht s,
  type = None \/ type = Some 3 ->
  exists n', or_loop eval ts type n ht s =
      Ok (s, inl (if decide (ts = []) then type else if n =? 0 then Some 3 else type, n', ht)) /\
    (n' =? 0) = negb (negb (n =? 0) || existsb id bs).
Proof.
  induction 1 as [|t b ts bs Ht _ IH]; intros type n ht s Hty; cbn [or_loop].
  - exists n. split; [done|]. simpl. by rewrite orb_false_r, negb_involutive.
  - destruct (n =? 0) eqn:En; cbn [negb]; [|exists n; by rewrite En].
    destruct (Ht s) as (m & E & Hm). rewrite (M_bind_inl _ _ _ _ _ E).
    destruct (IH (Some 3) (Z.lor n m) ht s (or_intror eq_refl)) as (n' & E' & Hn').
    apply Z.eqb_eq in En as ->. rewrite Z.lor_0_l in *.
    exists n'. rewrite Hn'. destruct Hty as [-> | ->]; cbv beta zeta delta [default from_option res_type id];
      cbn [Z.eqb Pos.eqb negb andb]; rewrite E'; (split; [|by rewrite Hm; destruct b]);
      do 3 f_equal; repeat case_decide; try done; by destruct (m =? 0).
Qed.

Context (test : nat -> bool).
Context (Hand : exists name, symbol_at syms s_and = Ok (SymIFunc name (Some term_eval_and))).
Context (Hor : exists name, symbol_at syms s_or = Ok (SymIFunc name (Some term_eval_or))).
Context (Hnot : exists name, symbol_at syms s_not = Ok (SymFunc name (Some term_eval_not))).
Context (Hif : exists name, symbol_at syms s_if = Ok (SymIFunc name (Some term_eval_if))).
Context (Htest : forall i fuel, is_bool (e_sexp_term_eval (S fuel) syms (test_term i)) (test i)).

(** A call of a function that gets terms. *)
Lemma eval_ifunc fuel s ts name f b :
  symbol_at syms s = Ok (SymIFunc name (Some f)) ->
  (forall st, exists n, f (e_sexp_term_eval fuel syms) ts st = Ok (st, inl (Some (ESEXP_RES_BOOL n))) /\
     (n =? 0) = negb b) ->
  is_bool (e_sexp_term_eval (S fuel) syms (ESEXP_TERM_IFUNC s ts)) b.
Proof.
  intros Hs Hf st. destruct (Hf st) as (n & E & Hn). exists n. split; [|done].
  cbn [e_sexp_term_eval]. rewrite (M_bind_lift _ _ _ _ Hs). cbn [call_ifunc].
  by rewrite (M_bind_inl _ _ _ _ _ E).
Qed.

Lemma depths_le q qs fuel :
  (Nat.max (depth q) (foldr Nat.max 0 (map depth qs)) <= fuel)%nat ->
  Forall (fun q => (depth q <= fuel)%nat) (q :: qs).
Proof.
  intros H1. apply Forall_cons. split; [lia|]. assert (foldr Nat.max 0 (map depth qs) <= fuel)%nat as H2 by lia.
  clear H1. induction qs as [|q' qs IH]; [done|]. simpl in H2. apply Forall_cons. split; [lia|apply IH; lia].
Qed.

(** The arguments of a connective. *)
Lemma args_bool fuel qs :
  Forall (fun q => forall fuel, (depth q <= fuel)%nat ->
    is_bool (e_sexp_term_eval fuel syms (term_of_query q)) (truth test q)) qs ->
  Forall (fun q => (depth q <= fuel)%nat) qs ->
  Forall2 (fun t b => is_bool (e_sexp_term_eval fuel syms t) b) (map term_of_query qs) (map (truth test) qs).
Proof.
  induction 1 as [|q qs Hq _ IH]; intros Hd; [constructor|]. apply Forall_cons in Hd as [Hd Hds].
  constructor; auto.
Qed.

Lemma query_truth q fuel :
  (depth q <= fuel)%nat -> is_bool (e_sexp_term_eval fuel syms (term_of_query q)) (truth test q).
Proof.
  revert fuel. induction q as [b|i|q qs IH|q qs IH|q IH|c q1 q2 IHc IH1 IH2] using query_ind';
    intros [|fuel] Hd; simpl in Hd; try lia.
  - intros s. exists (Z_of_bool b). split; [done|by destruct b].
  - apply Htest.
  - destruct Hand as (name & Hs). apply (eval_ifunc _ _ _ _ _ _ Hs). intros st. unfold term_eval_and.
    pose proof (args_bool fuel (q :: qs) IH (depths_le q qs fuel ltac:(lia))) as Hargs.
    destruct (and_loop_bool _ _ _ Hargs None 1 ∅ st) as (n & E & Hn); [by left|].
    exists n. split; [|exact Hn]. rewrite (M_bind_inl _ _ _ _ _ E). by rewrite decide_False.
  - destruct Hor as (name & Hs). apply (eval_ifunc _ _ _ _ _ _ Hs). intros st. unfold term_eval_or.
    pose proof (args_bool fuel (q :: qs) IH (depths_le q qs fuel ltac:(lia))) as Hargs.
    destruct (or_loop_bool _ _ _ Hargs None 0 ∅ st) as (n & E & Hn); [by left|].
    exists n. split; [|exact Hn]. rewrite (M_bind_inl _ _ _ _ _ E). by rewrite decide_False.
  - intros st. destruct (IH fuel ltac:(lia) st) as (n & E & Hn). destruct Hnot as (name & Hs).
    exists (if negb (n =? 0) then 0 else 1). split; [|rewrite Hn; simpl; by destruct (truth test q)].
    cbn [term_of_query e_sexp_term_eval mapM]. unfold mapM.
    rewrite (M_bind_inl _ _ st st [ESEXP_RES_BOOL n]); [|by rewrite (M_bind_inl _ _ _ _ _ E)].
    by rewrite (M_bind_lift _ _ _ _ Hs).
  - destruct Hif as (name & Hs). apply (eval_ifunc _ _ _ _ _ _ Hs). intros st.
    destruct (IHc fuel ltac:(lia) st) as (n & E & Hn). unfold term_eval_if.
    rewrite (M_bind_inl _ _ _ _ _ E). cbv zeta. rewrite Hn, negb_involutive. simpl.
    destruct (truth test c).
    + destruct (IH1 fuel ltac:(lia) st) as (m & E1 & Hm). exists m. split; [|done].
      unfold fmap, M_fmap. by rewrite (M_bind_inl _ _ _ _ _ E1).
    + destruct (IH2 fuel ltac:(lia) st) as (m & E1 & Hm). exists m. split; [|done].
      unfold fmap, M_fmap. by rewrite (M_bind_inl _ _ _ _ _ E1).
Qed.
End boolean.

Lemma query_printable {St} (syms : list (option (ESExpSymbol St))) s_and s_or s_not s_if test_term q :
  (exists name f, symbol_at syms s_and = Ok (SymIFunc name f)) ->
  (exists name f, symbol_at syms s_or = Ok (SymIFunc name f)) ->
  (exists name f, symbol_at syms s_not = Ok (SymFunc name f)) ->
  (exists name f, symbol_at syms s_if = Ok (SymIFunc name f)) ->
  (forall i, printable syms (test_term i)) ->
  printable syms (term_of_query s_and s_or s_not s_if test_term q).
Proof.
  intros Hand Hor Hnot Hif Ht.
  assert (forall qs, Forall (fun q => printable syms (term_of_query s_and s_or s_not s_if test_term q)) qs ->
    foldr and True (map (printable syms) (map (term_of_query s_and s_or s_not s_if test_term) qs))) as Hall.
  { induction 1; simpl; auto. }
  induction q as [b|i|q qs IH|q qs IH|q IH|c q1 q2 IHc IH1 IH2] using query_ind'; simpl; auto.
  - destruct b; simpl; lia.
  - apply Forall_cons in IH as [IH IHs]. auto.
  - apply Forall_cons in IH as [IH IHs]. auto.
Qed.

(** ** The claims *)

(** The connectives are among the symbols. *)
Definition connectives {St} `{GHashOrder} (f : ESExp St) (s_and s_or s_not s_if : nat) : Prop :=
  (exists name, symbol_at (symbols f) s_and = Ok (SymIFunc name (Some term_eval_and))) /\
  (exists name, symbol_at (symbols f) s_or = Ok (SymIFunc name (Some term_eval_or))) /\
  (exists name, symbol_at (symbols f) s_not = Ok (SymFunc name (Some term_eval_not))) /\
  (exists name, symbol_at (symbols f) s_if = Ok (SymIFunc name (Some term_eval_if))).

(** C30: a query made of constants, tests of the application, [and], [or], [not] and [if] is parsed
    from its tokens, and its evaluation, with as much fuel as it is deep, gives the truth of
    the query and leaves the application's state as it is. *)
Theorem sexp_boolean_semantics {St} `{GHashOrder} (f : ESExp St) s_and s_or s_not s_if test_term test q rest fuel s :
  connectives f s_and s_or s_not s_if ->
  (forall i fuel, is_bool (e_sexp_term_eval (S fuel) (symbols f) (test_term i)) (test i)) ->
  (forall i, printable (symbols f) (test_term i)) ->
  tree f <> TreeFreed -> scanner f = print_term (term_of_query s_and s_or s_not s_if test_term q) ++ rest ->
  (depth q <= fuel)%nat ->
  exists f' n, e_sexp_parse f = Ok (f', 0) /\ scanner f' = rest /\
    e_sexp_eval fuel f' s = Ok (s, f', Some (ESEXP_RES_BOOL n)) /\ (n =? 0) = negb (truth test q).
Proof.
  intros (Hand & Hor & Hnot & Hif) Ht Hp Htree Es Hd.
  destruct (query_truth (symbols f) s_and s_or s_not s_if test_term test Hand Hor Hnot Hif Ht q fuel Hd s)
    as (n & En & Hn).
  exists (set_parse f rest (Tree (term_of_query s_and s_or s_not s_if test_term q)) (error f)), n.
  split; [|split; [done|split; [|exact Hn]]].
  - unfold e_sexp_parse. rewrite Es, term_reads_back; [by destruct (tree f)|unfold parse_fuel; rewrite length_app; lia|].
    apply query_printable; [destruct Hand|destruct Hor|destruct Hnot|destruct Hif|exact Hp]; eauto.
  - unfold e_sexp_eval. cbn [set_parse tree symbols]. by rewrite En.
Qed.

(** [and] of arrays without duplicates is their intersection and [or] of arrays
    is their union, both without duplicates, whatever the order of the hash table. *)
Theorem sexp_set_operations {St} `{GHashOrder} (syms : list (option (ESExpSymbol St))) s_and s_or n1 n2 ts rs fuel s s' :
  GHashOrderLaws _ ->
  symbol_at syms s_and = Ok (SymIFunc n1 (Some term_eval_and)) ->
  symbol_at syms s_or = Ok (SymIFunc n2 (Some term_eval_or)) ->
  ts <> [] -> evals (e_sexp_term_eval fuel syms) ts s (ESEXP_RES_ARRAY_PTR <$> rs) s' -> Forall NoDup rs ->
  (exists l, e_sexp_term_eval (S fuel) syms (ESEXP_TERM_IFUNC s_and ts) s = Ok (s', inl (ESEXP_RES_ARRAY_PTR l)) /\
    NoDup l /\ forall key, key ∈ l <-> Forall (fun a => key ∈ a) rs) /\
  (exists l, e_sexp_term_eval (S fuel) syms (ESEXP_TERM_IFUNC s_or ts) s = Ok (s', inl (ESEXP_RES_ARRAY_PTR l)) /\
    NoDup l /\ forall key, key ∈ l <-> Exists (fun a => key ∈ a) rs).
Proof.
  intros HG Hand Hor Hne He Hn. cbn [e_sexp_term_eval].
  rewrite (M_bind_lift _ _ _ _ Hand), (M_bind_lift _ _ _ _ Hor). cbn [call_ifunc].
  destruct (term_eval_and_sets HG _ ts s s' rs Hne He Hn) as (l & E & Hl).
  destruct (term_eval_or_sets HG _ ts s s' rs Hne He) as (l' & E' & Hl').
  split; [exists l|exists l']; (split; [|done]).
  - by rewrite (M_bind_inl _ _ _ _ _ E).
  - by rewrite (M_bind_inl _ _ _ _ _ E').
Qed.

(** Casting an [int] to a string and back gives the [int]. *)
Theorem sexp_cast_roundtrip {St} (syms : list (option (ESExpSymbol St))) s_int s_string n1 n2 n s :
  symbol_at syms s_int = Ok (SymFunc n1 (Some term_eval_castint)) ->
  symbol_at syms s_string = Ok (SymFunc n2 (Some term_eval_caststring)) ->
  - 2 ^ 31 <= n < 2 ^ 31 ->
  e_sexp_term_eval 3 syms (ESEXP_TERM_FUNC s_int [ESEXP_TERM_FUNC s_string [ESEXP_TERM_INT n]]) s =
    Ok (s, inl (ESEXP_RES_INT n)).
Proof.
  intros Hi Hs Hn. cbn [e_sexp_term_eval mapM].
  rewrite (M_bind_inl _ _ s s [ESEXP_RES_STRING (fmt_d n)]).
  - rewrite (M_bind_lift _ _ _ _ Hi). cbn [call_func term_eval_castint].
    by rewrite strtoul_fmt_d.
  - rewrite (M_bind_inl _ _ s s (ESEXP_RES_STRING (fmt_d n))); [done|].
    rewrite (M_bind_inl _ _ s s [ESEXP_RES_INT n]) by done. by rewrite (M_bind_lift _ _ _ _ Hs).
Qed.

(** ** Examples *)

(** The connectives and one test of the application that is true. *)
Definition query_object (gs : list GToken) : ESExp unit :=
  mkSExp [Some (SymIFunc (bytes "and") (Some term_eval_and)); Some (SymIFunc (bytes "or") (Some term_eval_or));
      Some (SymFunc (bytes "not") (Some term_eval_not)); Some (SymIFunc (bytes "if") (Some term_eval_if));
      Some (SymFunc (bytes "test") (Some (fun _ => mret (Some (ESEXP_RES_BOOL 1)))))]
    ∅ 0 gs TreeNull None.

Definition example_query : query := QAnd (QTest 0) [QNot (QOr (QConst false) [QTest 0]); QConst true].

Lemma sexp_boolean_semantics_witness :
  let gs := print_term (term_of_query 0 1 2 3 (fun _ => ESEXP_TERM_FUNC 4 []) example_query) in
  exists f' n, e_sexp_parse (query_object gs) = Ok (f', 0) /\ scanner f' = [] /\
    e_sexp_eval 5 f' tt = Ok (tt, f', Some (ESEXP_RES_BOOL n)) /\ (n =? 0) = negb (truth (fun _ => true) example_query).
Proof.
  intros gs. apply (sexp_boolean_semantics (query_object gs) 0 1 2 3 (fun _ => ESEXP_TERM_FUNC 4 []) (fun _ => true) example_query []).
  - repeat split; eexists; reflexivity.
  - intros i fuel []. exists 1. split; reflexivity.
  - intros i. simpl. split; [|exact I]. eexists _, _. reflexivity.
  - discriminate.
  - cbn [scanner query_object]. by rewrite app_nil_r.
  - vm_compute. lia.
Defined.

(** [(and a b)] for two functions that give arrays. *)
Definition array_symbols (a b : list (list Z)) : list (option (ESExpSymbol unit)) :=
  [Some (SymIFunc (bytes "and") (Some term_eval_and)); Some (SymIFunc (bytes "or") (Some term_eval_or));
   Some (SymFunc (bytes "a") (Some (fun _ => mret (Some (ESEXP_RES_ARRAY_PTR a)))));
   Some (SymFunc (bytes "b") (Some (fun _ => mret (Some (ESEXP_RES_ARRAY_PTR b)))))].

Lemma sexp_set_operations_witness :
  let syms := array_symbols [[1]; [2]] [[2]; [3]] in
  let ts := [ESEXP_TERM_FUNC 2 []; ESEXP_TERM_FUNC 3 []] in
  (exists l, e_sexp_term_eval 2 syms (ESEXP_TERM_IFUNC 0 ts) tt = Ok (tt, inl (ESEXP_RES_ARRAY_PTR l)) /\
    NoDup l /\ forall key, key ∈ l <-> Forall (fun a => key ∈ a) [[[1]; [2]]; [[2]; [3]]]) /\
  (exists l, e_sexp_term_eval 2 syms (ESEXP_TERM_IFUNC 1 ts) tt = Ok (tt, inl (ESEXP_RES_ARRAY_PTR l)) /\
    NoDup l /\ forall key, key ∈ l <-> Exists (fun a => key ∈ a) [[[1]; [2]]; [[2]; [3]]]).
Proof.
  intros syms ts. apply (sexp_set_operations syms 0 1 (bytes "and") (bytes "or") ts _ 1 tt tt).
  - exact GHashOrder_map_laws.
  - reflexivity.
  - reflexivity.
  - discriminate.
  - eapply evals_cons; [reflexivity|]. eapply evals_cons; [reflexivity|]. apply evals_nil.
  - repeat (apply Forall_cons; split; [by apply (bool_decide_unpack _); vm_compute|]). by apply Forall_nil.
Defined.

Lemma sexp_cast_roundtrip_witness :
  @e_sexp_term_eval unit 3 [Some (SymFunc (bytes "cast-int") (Some term_eval_castint));
      Some (SymFunc (bytes "cast-string") (Some term_eval_caststring))]
    (ESEXP_TERM_FUNC 0 [ESEXP_TERM_FUNC 1 [ESEXP_TERM_INT (-12)]]) tt = Ok (tt, inl (ESEXP_RES_INT (-12))).
Proof.
  apply (sexp_cast_roundtrip _ 0 1 (bytes "cast-int") (bytes "cast-string")); [reflexivity|reflexivity|lia].
Defined.

(** A key that an array holds twice counts for two arrays: it is in the "intersection" with an
    array that does not hold it. *)
Example and_duplicates :
  e_sexp_term_eval 2 (array_symbols [[1]; [1]] [[2]])
    (ESEXP_TERM_IFUNC 0 [ESEXP_TERM_FUNC 2 []; ESEXP_TERM_FUNC 3 []]) tt
    = Ok (tt, inl (ESEXP_RES_ARRAY_PTR [[1]])).
Proof. vm_compute. reflexivity. Qed.
