(* ===== verification/SexpTypeSpec.v ===== *)
(** * Search expressions: types

    A type system for terms.  The evaluation of a term with a type never ends in a fatal
    error and gives a result of that type. *)

From S2P Require Import Prelude CString Sexp SexpSpec.
From stdpp Require Import gmap.
From Stdlib Require Import(notations) String.
#[local] Open Scope Z_scope.
#[local] Open Scope list_scope.

(** ** Computations that end well *)

Section ends.
Context {St : Type} (arith : bool).

(** From every state [x] ends with a result in [Q]; where [arith] is [true], signed overflow is
    the other possibility. *)
Definition ends {A} (Q : A -> Prop) (x : M St A) : Prop :=
  forall s, (exists s' a, x s = Ok (s', inl a) /\ Q a) \/ (arith = true /\ x s = Undef).

Lemma ends_ret {A} (Q : A -> Prop) a : Q a -> ends Q (mret a).
Proof. intros H s. left. by exists s, a. Qed.

Lemma ends_bind {A B} (Q : A -> Prop) (R : B -> Prop) x (f : A -> M St B) :
  ends Q x -> (forall a, Q a -> ends R (f a)) -> ends R (x ≫= f).
Proof.
  intros Hx Hf s. destruct (Hx s) as [(s' & a & E & Ha)|[Ha E]].
  - rewrite (M_bind_inl _ _ _ _ _ E). apply (Hf a Ha s').
  - right. split; [done|]. unfold mbind, M_bind. by rewrite E.
Qed.

Lemma ends_lift {A} (Q : A -> Prop) (x : res A) :
  (exists a, x = Ok a /\ Q a) \/ (arith = true /\ x = Undef) -> ends Q (lift x).
Proof.
  intros [(a & -> & H)|[H ->]] s; [left; by exists s, a|by right].
Qed.

Lemma ends_mono {A} (Q R : A -> Prop) x : (forall a, Q a -> R a) -> ends Q x -> ends R x.
Proof. intros H Hx s. destruct (Hx s) as [(s' & a & E & Ha)|?]; [left; exists s', a; auto|by right]. Qed.

Lemma ends_fmap_Some (Q : ESExpResult -> Prop) x :
  ends Q x -> ends (fun o => exists r, o = Some r /\ Q r) (Some <$> x).
Proof. intros Hx. eapply ends_bind; [exact Hx|]. intros r Hr. apply ends_ret. by exists r. Qed.
End ends.

(** A result of a type, and the result of a call. *)
Definition has_type (ty : Z) (r : ESExpResult) : Prop := res_type r = ty.
Definition call_type (ty : Z) (o : option ESExpResult) : Prop := exists r, o = Some r /\ res_type r = ty.

(** ** The functions that are always there *)

Section builtins.
Context {St : Type} `{!GHashOrder} (arith : bool) (eval : ESExpTerm -> M St ESExpResult).

(** A term whose evaluation has a type. *)
Definition sound (t : ESExpTerm) (ty : Z) : Prop := ends arith (has_type ty) (eval t).

(** What the connectives combine. *)
Definition connective (ty : Z) : Prop := ty = 0 \/ ty = 3.

Lemma and_loop_type ty ts type b ht :
  connective ty -> Forall (fun t => sound t ty) ts -> type = None \/ type = Some ty ->
  ends arith (fun x => x.1.1 = (if decide (ts = []) then type else if b =? 0 then type else Some ty))
    (and_loop eval ts type b ht).
Proof.
  intros Hc Hts. revert type b ht. induction Hts as [|t ts Ht _ IH]; intros type b ht Hty; cbn [and_loop].
  - by apply ends_ret.
  - rewrite decide_False by done. destruct (b =? 0); [by apply ends_ret|].
    eapply ends_bind; [exact Ht|]. intros r Hr. unfold has_type in Hr.
    replace (default (res_type r) type) with ty by (destruct Hty as [-> | ->]; done).
    cbv zeta. rewrite <- Hr, Z.eqb_refl. cbn [negb].
    assert (Some (res_type r) = None \/ Some (res_type r) = Some ty) as Hs by (right; by rewrite Hr).
    destruct Hc as [-> | ->], r; try done;
      (eapply ends_mono; [|apply (IH _ _ _ Hs)]); intros x; cbv beta; intros ->; repeat case_match; done.
Qed.

Lemma term_eval_and_type ty ts :
  connective ty -> ts <> [] -> Forall (fun t => sound t ty) ts ->
  ends arith (call_type ty) (term_eval_and eval ts).
Proof.
  intros Hc Hne Hts. unfold term_eval_and.
  eapply ends_bind; [apply (and_loop_type ty); [done|done|by left]|].
  intros [[type b] ht]. cbn. rewrite decide_False by done. intros ->. apply ends_ret.
  eexists. split; [reflexivity|]. by destruct Hc as [-> | ->].
Qed.

Lemma or_loop_type ty ts type b ht :
  connective ty -> Forall (fun t => sound t ty) ts -> type = None \/ type = Some ty ->
  ends arith (fun x => x.1.1 = (if decide (ts = []) then type else if b =? 0 then Some ty else type))
    (or_loop eval ts type b ht).
Proof.
  intros Hc Hts. revert type b ht. induction Hts as [|t ts Ht _ IH]; intros type b ht Hty; cbn [or_loop].
  - by apply ends_ret.
  - rewrite decide_False by done. destruct (b =? 0); [|by apply ends_ret]. cbn [negb].
    eapply ends_bind; [exact Ht|]. intros r Hr. unfold has_type in Hr.
    replace (default (res_type r) type) with ty by (destruct Hty as [-> | ->]; done).
    cbv zeta. rewrite <- Hr, Z.eqb_refl. cbn [negb].
    assert (Some (res_type r) = None \/ Some (res_type r) = Some ty) as Hs by (right; by rewrite Hr).
    destruct Hc as [-> | ->], r; try done;
      (eapply ends_mono; [|apply (IH _ _ _ Hs)]); intros x; cbv beta; intros ->; repeat case_match; done.
Qed.

Lemma term_eval_or_type ty ts :
  connective ty -> ts <> [] -> Forall (fun t => sound t ty) ts ->
  ends arith (call_type ty) (term_eval_or eval ts).
Proof.
  intros Hc Hne Hts. unfold term_eval_or.
  eapply ends_bind; [apply (or_loop_type ty); [done|done|by left]|].
  intros [[type b] ht]. cbn. rewrite decide_False by done. intros ->. apply ends_ret.
  eexists. split; [reflexivity|]. by destruct Hc as [-> | ->].
Qed.

(** What can be compared and added. *)
Definition ordered (ty : Z) : Prop := ty = 1 \/ ty = 2 \/ ty = 4.

Lemma term_eval_compare_type why less ty t1 t2 :
  ordered ty -> sound t1 ty -> sound t2 ty ->
  ends arith (call_type 3) (term_eval_compare eval why less [t1; t2]).
Proof.
  intros Ho H1 H2. cbn [term_eval_compare].
  eapply ends_bind; [exact H1|]. intros r1 E1. eapply ends_bind; [exact H2|]. intros r2 E2.
  unfold has_type in *. rewrite E1, E2, Z.eqb_refl. cbn [negb]. apply ends_ret.
  eexists. split; [reflexivity|].
  destruct Ho as [-> | [-> | ->]], r1; try done; destruct r2; done.
Qed.

Lemma term_eval_eq_type ty1 ty2 t1 t2 :
  sound t1 ty1 -> sound t2 ty2 -> ends arith (call_type 3) (term_eval_eq eval [t1; t2]).
Proof.
  intros H1 H2. cbn [term_eval_eq].
  eapply ends_bind; [exact H1|]. intros r1 _. eapply ends_bind; [exact H2|]. intros r2 _.
  apply ends_ret. by eexists.
Qed.

Lemma term_eval_if_type ty1 ty c t1 t2 :
  sound c ty1 -> sound t1 ty -> sound t2 ty ->
  ends arith (call_type ty) (term_eval_if eval [c; t1; t2]).
Proof.
  intros Hc H1 H2. cbn [term_eval_if]. eapply ends_bind; [exact Hc|]. intros r _. cbv zeta.
  case_match; by apply ends_fmap_Some.
Qed.

Lemma begin_loop_type ts tys r :
  Forall2 sound ts tys ->
  ends arith (fun o => o = r /\ ts = [] \/ exists ty, last tys = Some ty /\ call_type ty o) (begin_loop eval ts r).
Proof.
  intros Hts. revert r. induction Hts as [|t ty ts tys Ht Hts IH]; intros r; cbn [begin_loop].
  - apply ends_ret. by left.
  - eapply ends_bind; [exact Ht|]. intros r1 E1. eapply ends_mono; [|apply IH].
    intros o [[-> ->]|(ty' & Hl & Ho)]; right.
    + inversion Hts; subst. exists ty. split; [done|]. by exists r1.
    + exists ty'. split; [|done]. rewrite last_cons, Hl. done.
Qed.

Lemma term_eval_begin_type ts tys ty :
  Forall2 sound ts tys -> last tys = Some ty -> ends arith (call_type ty) (term_eval_begin eval ts).
Proof.
  intros Hts Hl. unfold term_eval_begin. eapply ends_bind; [by apply begin_loop_type|].
  intros o [[-> ->]|(ty' & Hl' & r & -> & Hr)]; [inversion Hts; by subst|].
  apply ends_ret. exists r. split; [done|]. congruence.
Qed.

Lemma checked_int_ends (Q : Z -> Prop) n : arith = true -> (forall m, Q m) -> ends (St := St) arith Q (lift (checked_int n)).
Proof. intros Ha HQ. apply ends_lift. unfold checked_int. case_match; [left; eauto|by right]. Qed.

Lemma checked_time_ends (Q : Z -> Prop) n : arith = true -> (forall m, Q m) -> ends (St := St) arith Q (lift (checked_time n)).
Proof. intros Ha HQ. apply ends_lift. unfold checked_time. case_match; [left; eauto|by right]. Qed.

Lemma int_loop_type why op total rs :
  arith = true -> Forall (has_type 1) rs -> ends (St := St) arith (call_type 1) (int_loop why op total rs).
Proof.
  intros Ha Hrs. revert total. induction Hrs as [|r rs Hr _ IH]; intros total; cbn [int_loop].
  - apply ends_ret. by eexists.
  - destruct r; try done. eapply ends_bind; [by apply (checked_int_ends (fun _ => True))|]. intros m _. apply IH.
Qed.

Lemma time_loop_type why op total rs :
  arith = true -> Forall (has_type 4) rs -> ends (St := St) arith (call_type 4) (time_loop why op total rs).
Proof.
  intros Ha Hrs. revert total. induction Hrs as [|r rs Hr _ IH]; intros total; cbn [time_loop].
  - apply ends_ret. by eexists.
  - destruct r; try done. eapply ends_bind; [by apply (checked_time_ends (fun _ => True))|]. intros m _. apply IH.
Qed.

Lemma string_loop_type s rs :
  Forall (has_type 2) rs -> ends (St := St) arith (call_type 2) (string_loop s rs).
Proof.
  intros Hrs. revert s. induction Hrs as [|r rs Hr _ IH]; intros s; cbn [string_loop].
  - apply ends_ret. by eexists.
  - destruct r; try done.
Qed.

Lemma term_eval_plus_type ty rs :
  ty = 2 \/ arith = true /\ (ty = 1 \/ ty = 4) -> rs <> [] -> Forall (has_type ty) rs ->
  ends (St := St) arith (call_type ty) (term_eval_plus rs).
Proof.
  intros Hty Hne Hrs. destruct rs as [|r rs]; [done|]. apply Forall_cons in Hrs as [Hr Hrs].
  unfold has_type in Hr. destruct Hty as [-> | [Ha [-> | ->]]], r; try done; cbn [term_eval_plus].
  - by apply string_loop_type.
  - by apply int_loop_type.
  - by apply time_loop_type.
Qed.

Lemma term_eval_sub_type ty rs :
  arith = true -> ty = 1 \/ ty = 4 -> rs <> [] -> Forall (has_type ty) rs ->
  ends (St := St) arith (call_type ty) (term_eval_sub rs).
Proof.
  intros Ha Hty Hne Hrs. destruct rs as [|r rs]; [done|]. apply Forall_cons in Hrs as [Hr Hrs].
  unfold has_type in Hr. destruct Hty as [-> | ->], r; try done; cbn [term_eval_sub].
  - by apply int_loop_type.
  - by apply time_loop_type.
Qed.

Lemma arguments_type ts tys :
  Forall2 sound ts tys -> ends arith (fun rs => Forall2 has_type tys rs) (mapM eval ts).
Proof.
  induction 1 as [|t ty ts tys Ht _ IH]; cbn [mapM]; [by apply ends_ret|].
  eapply ends_bind; [exact Ht|]. intros r Hr. eapply ends_bind; [exact IH|]. intros rs Hrs.
  apply ends_ret. by constructor.
Qed.
End builtins.

(** ** The type system *)

Section types.
Context {St : Type} `{!GHashOrder} (arith : bool) (syms : list (option (ESExpSymbol St))).

(** The types of the arguments and of the result of the application's functions. *)
Context (signature : nat -> option (list Z * Z)).

Definition calls_i (s : nat) (f : ESExpIFunc St) : Prop := exists name, symbol_at syms s = Ok (SymIFunc name (Some f)).
Definition calls (s : nat) (f : ESExpFunc St) : Prop := exists name, symbol_at syms s = Ok (SymFunc name (Some f)).

(** [typed t ty]: the types are those of [res_type]; numbers and times are only added and
    subtracted where [arith] is [true]. *)
Inductive typed : ESExpTerm -> Z -> Prop :=
  | typed_int n : typed (ESEXP_TERM_INT n) 1
  | typed_bool b : typed (ESEXP_TERM_BOOL b) 3
  | typed_string s : typed (ESEXP_TERM_STRING s) 2
  | typed_time t : typed (ESEXP_TERM_TIME t) 4
  | typed_and s ts tys ty :
      calls_i s term_eval_and -> connective ty -> ts <> [] -> typed_list ts tys -> Forall (eq ty) tys ->
      typed (ESEXP_TERM_IFUNC s ts) ty
  | typed_or s ts tys ty :
      calls_i s term_eval_or -> connective ty -> ts <> [] -> typed_list ts tys -> Forall (eq ty) tys ->
      typed (ESEXP_TERM_IFUNC s ts) ty
  | typed_not s ts tys : calls s term_eval_not -> typed_list ts tys -> typed (ESEXP_TERM_FUNC s ts) 3
  | typed_lt s t1 t2 ty :
      calls_i s term_eval_lt -> ordered ty -> typed_list [t1; t2] [ty; ty] -> typed (ESEXP_TERM_IFUNC s [t1; t2]) 3
  | typed_gt s t1 t2 ty :
      calls_i s term_eval_gt -> ordered ty -> typed_list [t1; t2] [ty; ty] -> typed (ESEXP_TERM_IFUNC s [t1; t2]) 3
  | typed_eq s t1 t2 ty1 ty2 :
      calls_i s term_eval_eq -> typed_list [t1; t2] [ty1; ty2] -> typed (ESEXP_TERM_IFUNC s [t1; t2]) 3
  | typed_plus s ts tys ty :
      calls s term_eval_plus -> ty = 2 \/ arith = true /\ (ty = 1 \/ ty = 4) -> ts <> [] ->
      typed_list ts tys -> Forall (eq ty) tys -> typed (ESEXP_TERM_FUNC s ts) ty
  | typed_sub s ts tys ty :
      calls s term_eval_sub -> arith = true -> ty = 1 \/ ty = 4 -> ts <> [] ->
      typed_list ts tys -> Forall (eq ty) tys -> typed (ESEXP_TERM_FUNC s ts) ty
  | typed_castint s t ty :
      calls s term_eval_castint -> ty = 1 \/ ty = 2 \/ ty = 3 -> typed_list [t] [ty] ->
      typed (ESEXP_TERM_FUNC s [t]) 1
  | typed_caststring s t ty :
      calls s term_eval_caststring -> ty = 1 \/ ty = 2 \/ ty = 3 -> typed_list [t] [ty] ->
      typed (ESEXP_TERM_FUNC s [t]) 2
  | typed_if s c t1 t2 tyc ty :
      calls_i s term_eval_if -> typed_list [c; t1; t2] [tyc; ty; ty] ->
      typed (ESEXP_TERM_IFUNC s [c; t1; t2]) ty
  | typed_begin s ts tys ty :
      calls_i s term_eval_begin -> typed_list ts tys -> last tys = Some ty ->
      typed (ESEXP_TERM_IFUNC s ts) ty
  | typed_call s ts tys ty :
      signature s = Some (tys, ty) -> typed_list ts tys -> typed (ESEXP_TERM_FUNC s ts) ty
with typed_list : list ESExpTerm -> list Z -> Prop :=
  | typed_nil : typed_list [] []
  | typed_cons t ty ts tys : typed t ty -> typed_list ts tys -> typed_list (t :: ts) (ty :: tys).

Scheme typed_mut := Induction for typed Sort Prop
  with typed_list_mut := Induction for typed_list Sort Prop.
Combined Scheme typed_mutind from typed_mut, typed_list_mut.

(** The application's functions keep to their signatures. *)
Definition signatures_ok : Prop :=
  forall s tys ty, signature s = Some (tys, ty) ->
    exists f, calls s f /\ forall rs, Forall2 has_type tys rs -> ends arith (call_type ty) (f rs).

(** A bound on the calls of the evaluator. *)
Fixpoint term_depth (t : ESExpTerm) : nat :=
  match t with
  | ESEXP_TERM_FUNC _ ts | ESEXP_TERM_IFUNC _ ts | ESEXP_TERM_VAR _ ts =>
      S (foldr Nat.max 0%nat (map term_depth ts))
  | _ => 1
  end.

Lemma eval_calls_i s f ts ty fuel :
  calls_i s f -> ends arith (call_type ty) (f (e_sexp_term_eval fuel syms) ts) ->
  ends arith (has_type ty) (e_sexp_term_eval (S fuel) syms (ESEXP_TERM_IFUNC s ts)).
Proof.
  intros (name & Hs) Hf. cbn [e_sexp_term_eval].
  eapply (ends_bind _ (eq (SymIFunc name (Some f)))); [apply ends_lift; left; by eexists|]. intros ? <-.
  eapply ends_bind; [exact Hf|]. intros o (r & -> & Hr). by apply ends_ret.
Qed.

Lemma eval_calls s f ts tys ty fuel :
  calls s f -> Forall2 (sound arith (e_sexp_term_eval fuel syms)) ts tys ->
  (forall rs, Forall2 has_type tys rs -> ends arith (call_type ty) (f rs)) ->
  ends arith (has_type ty) (e_sexp_term_eval (S fuel) syms (ESEXP_TERM_FUNC s ts)).
Proof.
  intros (name & Hs) Hts Hf. cbn [e_sexp_term_eval].
  eapply ends_bind; [apply arguments_type, Hts|]. intros rs Hrs.
  eapply (ends_bind _ (eq (SymFunc name (Some f)))); [apply ends_lift; left; by eexists|]. intros ? <-.
  eapply ends_bind; [apply Hf, Hrs|]. intros o (r & -> & Hr). by apply ends_ret.
Qed.

(** Lists of one type. *)
Lemma all_sound eval (ts : list ESExpTerm) tys ty :
  Forall2 (sound (St := St) arith eval) ts tys -> Forall (eq ty) tys -> Forall (fun t => sound arith eval t ty) ts.
Proof. induction 1; intros He; [done|]. apply Forall_cons in He as [-> He]. constructor; auto. Qed.

Lemma all_typed tys (rs : list ESExpResult) ty :
  Forall2 has_type tys rs -> Forall (eq ty) tys -> Forall (has_type ty) rs.
Proof. induction 1; intros He; [done|]. apply Forall_cons in He as [-> He]. constructor; auto. Qed.

Lemma nonempty_results {A B C} (R : A -> C -> Prop) (Q : C -> B -> Prop) (ts : list A) tys (rs : list B) :
  ts <> [] -> Forall2 R ts tys -> Forall2 Q tys rs -> rs <> [].
Proof. intros Hne H1 H2 ->. inversion H2; subst. by inversion H1; subst. Qed.
End types.

Section soundness.
Context {St : Type} `{!GHashOrder} (arith : bool) (syms : list (option (ESExpSymbol St))).
Context (signature : nat -> option (list Z * Z)) (Hsig : signatures_ok arith syms signature).

Abbreviation sound_at fuel := (sound arith (e_sexp_term_eval fuel syms)).

Lemma castint_type rs ty :
  ty = 1 \/ ty = 2 \/ ty = 3 -> Forall2 has_type [ty] rs ->
  ends (St := St) arith (call_type 1) (term_eval_castint rs).
Proof.
  intros Hty Hrs0. inversion Hrs0 as [|? r ? rs' Hr Hn]; subst. inversion Hn; subst. unfold has_type in Hr.
  destruct Hty as [-> | [-> | ->]], r; try done; apply ends_ret; by eexists.
Qed.

Lemma caststring_type rs ty :
  ty = 1 \/ ty = 2 \/ ty = 3 -> Forall2 has_type [ty] rs ->
  ends (St := St) arith (call_type 2) (term_eval_caststring rs).
Proof.
  intros Hty Hrs0. inversion Hrs0 as [|? r ? rs' Hr Hn]; subst. inversion Hn; subst. unfold has_type in Hr.
  destruct Hty as [-> | [-> | ->]], r; try done; apply ends_ret; by eexists.
Qed.

Lemma not_type rs : ends (St := St) arith (call_type 3) (term_eval_not rs).
Proof. apply ends_ret. eexists. split; [done|]. by destruct rs as [|[]]. Qed.

Lemma typed_sound_all :
  (forall t ty, typed arith syms signature t ty -> forall fuel, (term_depth t <= fuel)%nat -> sound_at fuel t ty) /\
  (forall ts tys, typed_list arith syms signature ts tys -> forall fuel,
     (foldr Nat.max 0 (map term_depth ts) <= fuel)%nat -> Forall2 (sound_at fuel) ts tys).
Proof.
  apply typed_mutind; try (intros; destruct fuel as [|fuel]; simpl in *; [lia|]; by apply ends_ret).
  all: try (intros; destruct fuel as [|fuel];
    [exfalso; match goal with H : (term_depth _ <= 0)%nat |- _ => simpl in H; lia end|];
    match goal with IH : forall _, _ -> Forall2 _ _ _, H : (term_depth _ <= _)%nat |- _ =>
      cbn [term_depth] in H; specialize (IH fuel ltac:(lia)); rename IH into Hargs end;
    match goal with H : calls_i _ ?s ?f |- _ => eapply (eval_calls_i _ _ s f); [exact H|]
                  | H : calls _ ?s ?f |- _ => eapply (eval_calls _ _ s f); [exact H|exact Hargs|intros rs Hrs]
                  | H : signature _ = _ |- _ => apply Hsig in H as (f & Hf & Hr);
                      eapply (eval_calls _ _ _ f); [exact Hf|exact Hargs|exact Hr] end).
  - apply term_eval_and_type; [done..|]. by eapply all_sound.
  - apply term_eval_or_type; [done..|]. by eapply all_sound.
  - apply not_type.
  - decompose_Forall_hyps. by eapply term_eval_compare_type.
  - decompose_Forall_hyps. by eapply term_eval_compare_type.
  - decompose_Forall_hyps. by eapply term_eval_eq_type.
  - apply term_eval_plus_type; [done|by eapply nonempty_results|by eapply all_typed].
  - apply term_eval_sub_type; [done|done|by eapply nonempty_results|by eapply all_typed].
  - by eapply castint_type.
  - by eapply caststring_type.
  - decompose_Forall_hyps. by eapply term_eval_if_type.
  - by eapply term_eval_begin_type.
  - intros fuel _. constructor.
  - intros t ty ts tys Ht IHt Hts IHts fuel Hd. simpl in Hd. constructor; [apply IHt; lia|apply IHts; lia].
Qed.
End soundness.

(** ** The claim *)

(** C29: a term with a type, evaluated with as much fuel as it is deep, gives a result of that
    type and never a fatal error.  Where numbers may be added and subtracted the only other
    end is signed overflow; without such terms there is none. *)
Theorem sexp_type_soundness {St} `{!GHashOrder} (arith : bool) (f : ESExp St) signature t ty fuel s :
  signatures_ok arith (symbols f) signature -> tree f = Tree t ->
  typed arith (symbols f) signature t ty -> (term_depth t <= fuel)%nat ->
  (exists s' r, e_sexp_eval fuel f s = Ok (s', f, Some r) /\ res_type r = ty) \/
  (arith = true /\ e_sexp_eval fuel f s = Undef).
Proof.
  intros Hsig Ht Hty Hd. unfold e_sexp_eval. rewrite Ht.
  destruct (proj1 (typed_sound_all arith (symbols f) signature Hsig) t ty Hty fuel Hd s)
    as [(s' & r & E & Hr)|[Ha E]].
  - left. exists s', r. by rewrite E.
  - right. by rewrite E.
Qed.

(** [(if (= (+ "a" (cast-string 3)) (name)) 1 2)], with [name] of the application. *)
Definition typed_example : ESExpTerm :=
  ESEXP_TERM_IFUNC 2 [ESEXP_TERM_IFUNC 3 [ESEXP_TERM_FUNC 0 [ESEXP_TERM_STRING [97]; ESEXP_TERM_FUNC 1 [ESEXP_TERM_INT 3]];
      ESEXP_TERM_FUNC 4 []]; ESEXP_TERM_INT 1; ESEXP_TERM_INT 2].

Definition typed_object : ESExp Z :=
  mkSExp [Some (SymFunc (bytes "+") (Some term_eval_plus)); Some (SymFunc (bytes "cast-string") (Some term_eval_caststring));
      Some (SymIFunc (bytes "if") (Some term_eval_if)); Some (SymIFunc (bytes "=") (Some term_eval_eq));
      Some (SymFunc (bytes "name") (Some (fun _ s => Ok (s + 1, inl (Some (ESEXP_RES_STRING [97; 51]))))))]
    ∅ 0 [] (Tree typed_example) None.

Lemma sexp_type_soundness_witness :
  (exists s' r, e_sexp_eval 5 typed_object 7 = Ok (s', typed_object, Some r) /\ res_type r = 1) \/
  (false = true /\ e_sexp_eval 5 typed_object 7 = Undef).
Proof.
  apply (sexp_type_soundness false typed_object (fun s => if decide (s = 4%nat) then Some ([], 2) else None) typed_example).
  - intros s tys ty E. destruct (decide (s = 4%nat)) as [->|]; [|discriminate]. injection E as <- <-.
    eexists. split; [eexists; reflexivity|]. intros rs _ s. left. eexists _, _. split; [reflexivity|].
    eexists. split; reflexivity.
  - reflexivity.
  - assert (forall n t ty, typed false (symbols typed_object) n t ty -> typed_list false (symbols typed_object) n [t] [ty])
      as H1 by (intros n t ty Ht; by repeat constructor).
    eapply (typed_if _ _ _ _ _ _ _ 3 1); [eexists; reflexivity|]. repeat constructor.
    eapply (typed_eq _ _ _ _ _ _ 2 2); [eexists; reflexivity|]. repeat constructor.
    + eapply (typed_plus _ _ _ _ _ [2; 2]); [eexists; reflexivity|by left|discriminate| |by repeat constructor].
      repeat constructor. eapply (typed_caststring _ _ _ _ _ 1); [eexists; reflexivity|by left|]. apply H1. constructor.
    + eapply (typed_call _ _ _ _ _ []); [reflexivity|]. constructor.
  - vm_compute. lia.
Defined.

(** Ill-typed: the error that evaluation gives. *)
Example ill_typed_plus :
  e_sexp_term_eval 2 (symbols typed_object) (ESEXP_TERM_FUNC 0 [ESEXP_TERM_STRING [97]; ESEXP_TERM_INT 3]) 0
    = Ok (0, inr ("Invalid types in (+ strings)"%string, [])).
Proof. reflexivity. Qed.
