(* ===== verification/VCard.v ===== *)
(** * vCards ([e-vcard.c])

    [src/addressbook/libebook/e-vcard.c]: the contacts of the address book as lists of
    attributes with groups, parameters and values, the reader of vCards, which takes nearly
    anything, and the writer of vCard 3.0.  A string is the list of its bytes without the
    terminator; a pointer into the text that is read is the rest of the text behind it.
    Functions that get a pointer to such a pointer return the new one.  An attribute that
    was freed while the list of its card still has a pointer to it is [None] in the list.
    GLib's functions on characters are the class [GLib], its base64 is [GBase64]. *)

From S2P Require Import Prelude CString GLibUtf8.
From Stdlib Require Import(notations) String.
#[local] Open Scope Z_scope.
#[local] Open Scope list_scope.

Class GBase64 := {
  g_base64_encode : list Z -> list Z;
  g_base64_decode : list Z -> list Z;
}.

(** ** Data *)

Inductive EVCardEncoding := EVC_ENCODING_RAW | EVC_ENCODING_BASE64 | EVC_ENCODING_QP.

Record EVCardAttributeParam := mkParam {
  param_name : list Z;
  param_values : list (list Z);
}.

Record EVCardAttribute := mkAttr {
  group : option (list Z);
  name : list Z;
  params : list EVCardAttributeParam;
  values : list (list Z);
  decoded_values : list (list Z);
  encoding : EVCardEncoding;
  encoding_set : bool;
}.

(** [priv->attributes] *)
Record EVCard := mkVCard { attributes : list (option EVCardAttribute) }.

Inductive EVCardFormat := EVC_FORMAT_VCARD_21 | EVC_FORMAT_VCARD_30.

Section vcard.
Context `{GLib}.

(** [!g_ascii_strcasecmp (a, b)] *)
Definition same_name (a b : list Z) : bool := g_ascii_strcasecmp a b =? 0.

Definition set_values (a : EVCardAttribute) (vs : list (list Z)) : EVCardAttribute :=
  mkAttr (group a) (name a) (params a) vs (decoded_values a) (encoding a) (encoding_set a).
Definition set_params (a : EVCardAttribute) (ps : list EVCardAttributeParam) : EVCardAttribute :=
  mkAttr (group a) (name a) ps (values a) (decoded_values a) (encoding a) (encoding_set a).
Definition set_decoded (a : EVCardAttribute) (ds : list (list Z)) : EVCardAttribute :=
  mkAttr (group a) (name a) (params a) (values a) ds (encoding a) (encoding_set a).
Definition set_encoding (a : EVCardAttribute) (e : EVCardEncoding) (is_set : bool) : EVCardAttribute :=
  mkAttr (group a) (name a) (params a) (values a) (decoded_values a) e is_set.

(** ** Parameters *)

Definition e_vcard_attribute_param_new (name : list Z) : EVCardAttributeParam := mkParam name [].

Definition e_vcard_attribute_param_get_name (p : EVCardAttributeParam) : list Z := param_name p.
Definition e_vcard_attribute_param_get_values (p : EVCardAttributeParam) : list (list Z) := param_values p.

Definition e_vcard_attribute_param_add_value (p : EVCardAttributeParam) (value : list Z) : EVCardAttributeParam :=
  mkParam (param_name p) (param_values p ++ [value]).

Definition e_vcard_attribute_param_add_values (p : EVCardAttributeParam) (vs : list (list Z)) : EVCardAttributeParam :=
  foldl e_vcard_attribute_param_add_value p vs.

Definition e_vcard_attribute_param_remove_values (p : EVCardAttributeParam) : EVCardAttributeParam :=
  mkParam (param_name p) [].

Definition e_vcard_attribute_param_copy (p : EVCardAttributeParam) : EVCardAttributeParam :=
  foldl e_vcard_attribute_param_add_value
    (e_vcard_attribute_param_new (e_vcard_attribute_param_get_name p)) (param_values p).

(** The loop over [vals] in [e_vcard_attribute_add_param]. *)
Definition merge_values (param2 : EVCardAttributeParam) (vals : list (list Z)) : EVCardAttributeParam :=
  foldl (fun param2 my_value =>
    if existsb (fun v => same_name v my_value) (param_values param2) then param2
    else e_vcard_attribute_param_add_value param2 my_value) param2 vals.

(** The loop over the parameters; [None] if [contains] stays FALSE. *)
Fixpoint merge_param (ps : list EVCardAttributeParam) (param : EVCardAttributeParam)
    : option (list EVCardAttributeParam) :=
  match ps with
  | [] => None
  | param2 :: ps =>
      if same_name (param_name param2) (param_name param)
      then Some (merge_values param2 (param_values param) :: ps)
      else match merge_param ps param with
           | Some ps => Some (param2 :: ps)
           | None => None
           end
  end.

(** [attr->encoding] and [attr->encoding_set] for the first value of ENCODING. *)
Definition encoding_of (old : EVCardEncoding) (value : list Z) : EVCardEncoding :=
  if same_name value (bytes "b") || same_name value (bytes "BASE64") then EVC_ENCODING_BASE64
  else if same_name value (bytes "QUOTED-PRINTABLE") then EVC_ENCODING_QP
  else old.

Definition e_vcard_attribute_add_param (attr : EVCardAttribute) (param : EVCardAttributeParam) : EVCardAttribute :=
  let attr := set_params attr
    match merge_param (params attr) param with
    | Some ps => ps
    | None => param :: params attr
    end in
  if same_name (param_name param) (bytes "ENCODING") then
    if encoding_set attr then attr
    else match param_values param with
         | v :: _ => set_encoding attr (encoding_of (encoding attr) v) true
         | [] => attr
         end
  else attr.

Definition e_vcard_attribute_add_param_with_value (attr : EVCardAttribute) (param : EVCardAttributeParam)
    (value : list Z) : EVCardAttribute :=
  e_vcard_attribute_add_param attr (e_vcard_attribute_param_add_value param value).

Definition e_vcard_attribute_add_param_with_values (attr : EVCardAttribute) (param : EVCardAttributeParam)
    (vs : list (list Z)) : EVCardAttribute :=
  e_vcard_attribute_add_param attr (foldl e_vcard_attribute_param_add_value param vs).

(** Deleting the first element with [p]. *)
Fixpoint delete_first {A} (p : A -> bool) (l : list A) : list A :=
  match l with
  | [] => []
  | a :: l => if p a then l else a :: delete_first p l
  end.

Definition e_vcard_attribute_remove_param (attr : EVCardAttribute) (name : list Z) : EVCardAttribute :=
  set_params attr (delete_first (fun p => same_name (e_vcard_attribute_param_get_name p) name) (params attr)).

Definition e_vcard_attribute_remove_params (attr : EVCardAttribute) : EVCardAttribute :=
  set_encoding (set_params attr []) EVC_ENCODING_RAW false.

(** The first parameter with the name loses the first such value, and is removed when it has
    no other. *)
Fixpoint remove_param_value (ps : list EVCardAttributeParam) (name s : list Z) : list EVCardAttributeParam :=
  match ps with
  | [] => []
  | p :: ps =>
      if same_name (e_vcard_attribute_param_get_name p) name then
        if existsb (fun v => strcmp v s =? 0) (param_values p) then
          let vs := delete_first (fun v => strcmp v s =? 0) (param_values p) in
          match vs with [] => ps | _ => mkParam (param_name p) vs :: ps end
        else p :: ps
      else p :: remove_param_value ps name s
  end.

Definition e_vcard_attribute_remove_param_value (attr : EVCardAttribute) (name s : list Z) : EVCardAttribute :=
  set_params attr (remove_param_value (params attr) name s).

(** ** Attributes *)

Definition e_vcard_attribute_new (group : option (list Z)) (name : list Z) : EVCardAttribute :=
  mkAttr group name [] [] [] EVC_ENCODING_RAW false.

Definition e_vcard_attribute_add_value (attr : EVCardAttribute) (value : list Z) : EVCardAttribute :=
  set_values attr (values attr ++ [value]).

Definition e_vcard_attribute_add_values (attr : EVCardAttribute) (vs : list (list Z)) : EVCardAttribute :=
  foldl e_vcard_attribute_add_value attr vs.

Definition e_vcard_attribute_copy (attr : EVCardAttribute) : EVCardAttribute :=
  let a := e_vcard_attribute_new (group attr) (name attr) in
  let a := foldl e_vcard_attribute_add_value a (values attr) in
  foldl (fun a p => e_vcard_attribute_add_param a (e_vcard_attribute_param_copy p)) a (params attr).

Definition e_vcard_attribute_remove_values (attr : EVCardAttribute) : EVCardAttribute :=
  set_decoded (set_values attr []) [].

Definition e_vcard_attribute_remove_value (attr : EVCardAttribute) (s : list Z) : EVCardAttribute :=
  set_values attr (delete_first (fun v => strcmp v s =? 0) (values attr)).

Definition e_vcard_attribute_get_group (attr : EVCardAttribute) : option (list Z) := group attr.
Definition e_vcard_attribute_get_name (attr : EVCardAttribute) : list Z := name attr.
Definition e_vcard_attribute_get_values (attr : EVCardAttribute) : list (list Z) := values attr.
Definition e_vcard_attribute_get_params (attr : EVCardAttribute) : list EVCardAttributeParam := params attr.

Section decoding.
Context `{GBase64}.

(** The attribute, whose decoded values are kept, and the values. *)
Definition e_vcard_attribute_get_values_decoded (attr : EVCardAttribute) : EVCardAttribute * list (list Z) :=
  let attr :=
    match decoded_values attr with
    | [] =>
        match encoding attr with
        | EVC_ENCODING_RAW => set_decoded attr (values attr)
        | EVC_ENCODING_BASE64 => set_decoded attr (map g_base64_decode (values attr))
        | EVC_ENCODING_QP => attr
        end
    | _ => attr
    end in
  (attr, decoded_values attr).

Definition e_vcard_attribute_add_value_decoded (attr : EVCardAttribute) (value : list Z) : EVCardAttribute :=
  match encoding attr with
  | EVC_ENCODING_BASE64 =>
      let b64_data := g_base64_encode value in
      let '(attr, _) := e_vcard_attribute_get_values_decoded attr in
      set_decoded (set_values attr (values attr ++ [b64_data])) (decoded_values attr ++ [value])
  | _ => attr
  end.

Definition e_vcard_attribute_get_value_decoded (attr : EVCardAttribute) : EVCardAttribute * option (list Z) :=
  let '(attr, vs) := e_vcard_attribute_get_values_decoded attr in
  (attr, head vs).
End decoding.

Definition e_vcard_attribute_is_single_valued (attr : EVCardAttribute) : bool :=
  match values attr with
  | [_] => true
  | _ => false
  end.

Definition e_vcard_attribute_get_value (attr : EVCardAttribute) : option (list Z) :=
  head (e_vcard_attribute_get_values attr).

Definition e_vcard_attribute_has_type (attr : EVCardAttribute) (typestr : list Z) : bool :=
  existsb (fun p =>
    same_name (e_vcard_attribute_param_get_name p) (bytes "TYPE")
    && existsb (fun v => same_name v typestr) (e_vcard_attribute_param_get_values p))
    (e_vcard_attribute_get_params attr).

(** NULL is the empty list. *)
Fixpoint get_param (ps : list EVCardAttributeParam) (name : list Z) : list (list Z) :=
  match ps with
  | [] => []
  | p :: ps =>
      if same_name (e_vcard_attribute_param_get_name p) name
      then e_vcard_attribute_param_get_values p else get_param ps name
  end.

Definition e_vcard_attribute_get_param (attr : EVCardAttribute) (name : list Z) : list (list Z) :=
  get_param (e_vcard_attribute_get_params attr) name.

(** ** Cards *)

(** What a pointer to an attribute refers to. *)
Definition attr_at (a : option EVCardAttribute) : res EVCardAttribute :=
  match a with
  | Some a => Ok a
  | None => Undef
  end.

Definition e_vcard_add_attribute (evc : EVCard) (attr : EVCardAttribute) : EVCard :=
  mkVCard (Some attr :: attributes evc).

Definition e_vcard_add_attribute_with_value (evc : EVCard) (attr : EVCardAttribute) (value : list Z) : EVCard :=
  e_vcard_add_attribute evc (e_vcard_attribute_add_value attr value).

Definition e_vcard_add_attribute_with_values (evc : EVCard) (attr : EVCardAttribute) (vs : list (list Z)) : EVCard :=
  e_vcard_add_attribute evc (foldl e_vcard_attribute_add_value attr vs).

(** The test of [e_vcard_remove_attributes].  [g_ascii_strcasecmp] must not be given the
    NULL of an attribute without group. *)
Definition removes (attr_group : option (list Z)) (attr_name : list Z) (a : EVCardAttribute) : res bool :=
  in_group ← match attr_group with
             | None | Some [] => Ok true
             | Some g => match group a with Some ag => Ok (same_name g ag) | None => Undef end
             end;
  Ok (in_group && same_name attr_name (name a)).

Fixpoint remove_loop (attr_group : option (list Z)) (attr_name : list Z) (attrs : list (option EVCardAttribute))
    : res (list (option EVCardAttribute)) :=
  match attrs with
  | [] => Ok []
  | attr :: attrs =>
      a ← attr_at attr;
      r ← removes attr_group attr_name a;
      rest ← remove_loop attr_group attr_name attrs;
      Ok (if (r : bool) then rest else attr :: rest)
  end.

Definition e_vcard_remove_attributes (evc : EVCard) (attr_group : option (list Z)) (attr_name : list Z) : res EVCard :=
  attrs ← remove_loop attr_group attr_name (attributes evc); Ok (mkVCard attrs).

(** The pointer to the attribute is its place in the list. *)
Definition e_vcard_remove_attribute (evc : EVCard) (i : nat) : EVCard := mkVCard (delete i (attributes evc)).

Definition e_vcard_get_attributes (evc : EVCard) : list (option EVCardAttribute) := attributes evc.

Fixpoint get_attribute (attrs : list (option EVCardAttribute)) (nm : list Z) : res (option EVCardAttribute) :=
  match attrs with
  | [] => Ok None
  | attr :: attrs =>
      a ← attr_at attr;
      if same_name (name a) nm then Ok (Some a) else get_attribute attrs nm
  end.

Definition e_vcard_get_attribute (evc : EVCard) (nm : list Z) : res (option EVCardAttribute) :=
  get_attribute (e_vcard_get_attributes evc) nm.
End vcard.

(** ** Reading *)

Section reader.
Context `{GLib}.

Definition newline (c : Z) : bool := (c =? 13) || (c =? 10).
Definition blank (c : Z) : bool := (c =? 32) || (c =? 9).
(** The loops go on while [*lp] is neither a newline nor the terminator. *)
Definition line_end (c : Z) : bool := newline c || (c =? 0).

Definition skip_newline (str : list Z) (quoted_printable : bool) : res (list Z) :=
  if quoted_printable && (cur str =? 61) then
    next ← g_utf8_next_char str;
    if newline (cur next) then
      p ← g_utf8_next_char next;
      if newline (cur p) && negb (cur p =? cur next) then
        p ← g_utf8_next_char p;
        if blank (cur p) then g_utf8_next_char p else Ok p
      else Ok p
    else Ok str
  else if newline (cur str) then
    next ← g_utf8_next_char str;
    if newline (cur next) && negb (cur str =? cur next) then
      next2 ← g_utf8_next_char next;
      if blank (cur next2) then g_utf8_next_char next2 else Ok str
    else if blank (cur next) then g_utf8_next_char next
    else Ok str
  else Ok str.

(** A loop that moves [lp] while [p] of [*lp]. *)
Fixpoint skip_while (fuel : nat) (p : Z -> bool) (lp : list Z) : res (list Z) :=
  if negb (p (cur lp)) then Ok lp
  else match fuel with
       | O => NoFuel
       | S fuel => lp ← g_utf8_next_char lp; skip_while fuel p lp
       end.

Definition skip_to_next_line (lp : list Z) : res (list Z) :=
  lp ← skip_while (length lp) (fun c => negb (line_end c)) lp;
  skip_while (length lp) newline lp.

(** The inner loop of [skip_until] over the characters of [s], which are ASCII. *)
Definition matches (s : list Z) (lp : list Z) : bool :=
  existsb (fun c => c =? g_utf8_get_char lp) s.

Fixpoint skip_until (fuel : nat) (s : list Z) (lp : list Z) : res (list Z) :=
  if (cur lp =? 13) || (cur lp =? 0) || matches s lp then Ok lp
  else match fuel with
       | O => NoFuel
       | S fuel => lp ← g_utf8_next_char lp; skip_until fuel s lp
       end.

(** [g_string_append_unichar (str, g_utf8_get_char (lp))] *)
Definition append_char (str lp : list Z) : list Z := str ++ g_unichar_to_utf8 (g_utf8_get_char lp).

(** The byte two hexadecimal digits stand for. *)
Definition hex_digit (a : Z) : Z :=
  let a := tolower a in
  Z.land (if 97 <=? a then a - 97 + 10 else a - 48) 0x0f.
Definition hex_byte (a b : Z) : Z := Z.lor (Z.shiftl (hex_digit a) 4) (hex_digit b).

(** After a backslash: what is appended to [str]. *)
Definition unescape (lp : list Z) : list Z :=
  let c := cur lp in
  if (c =? 110) || (c =? 78) then [10]
  else if (c =? 114) || (c =? 82) then [13]
  else if c =? 59 then [59]
  else if c =? 44 then [44]
  else if c =? 92 then [92]
  else append_char [92] lp.

(** The body of the loop of [read_attribute_value]: the new [lp] and [str], and whether it
    breaks; [str] is [None] when it was added to the values. *)
Inductive value_step :=
  | ValueBreak (str : list Z) (lp : list Z)
  | ValueNext (str : list Z) (lp : list Z)
  | ValueAdd (lp : list Z).

Definition value_body (categories quoted_printable : bool) (str lp : list Z) : res value_step :=
  if (cur lp =? 61) && quoted_printable then
    match lp with
    | _ :: a :: b :: lp =>
        Ok (ValueNext (str ++ (if isxdigit a && isxdigit b then [hex_byte a b] else [a; b])) lp)
    | _ :: lp => Ok (ValueBreak str (drop 1 lp))
    | [] => Ok (ValueBreak str [])
    end
  else if cur lp =? 92 then
    lp ← g_utf8_next_char lp;
    if cur lp =? 0 then Ok (ValueBreak (str ++ [92]) lp)
    else
      lp ← skip_newline lp quoted_printable;
      lp' ← g_utf8_next_char lp;
      Ok (ValueNext (str ++ unescape lp) lp')
  else if (cur lp =? 59) || ((cur lp =? 44) && categories) then
    lp ← g_utf8_next_char lp; Ok (ValueAdd lp)
  else
    lp' ← g_utf8_next_char lp; Ok (ValueNext (append_char str lp) lp').

(** [str->str] is added without what follows a NUL. *)
Fixpoint value_loop (fuel : nat) (categories quoted_printable : bool) (attr : EVCardAttribute) (str lp : list Z)
    : res (EVCardAttribute * list Z) :=
  match fuel with
  | O => NoFuel
  | S fuel =>
      lp ← skip_newline lp quoted_printable;
      if line_end (cur lp) then Ok (e_vcard_attribute_add_value attr (c_string str), lp)
      else
        s ← value_body categories quoted_printable str lp;
        match s with
        | ValueBreak str lp => Ok (e_vcard_attribute_add_value attr (c_string str), lp)
        | ValueNext str lp => value_loop fuel categories quoted_printable attr str lp
        | ValueAdd lp =>
            value_loop fuel categories quoted_printable (e_vcard_attribute_add_value attr (c_string str)) [] lp
        end
  end.

Definition read_attribute_value (attr : EVCardAttribute) (p : list Z) (quoted_printable : bool)
    : res (EVCardAttribute * list Z) :=
  '(attr, lp) ← value_loop (S (length p)) (same_name (name attr) (bytes "CATEGORIES")) quoted_printable attr [] p;
  lp ← skip_to_next_line lp;
  Ok (attr, lp).

(** The variables of [read_attribute_params]. *)
Record params_state := mkParams {
  ps_attr : EVCardAttribute;
  ps_lp : list Z;
  ps_str : list Z;
  ps_param : option EVCardAttributeParam;
  in_quote : bool;
  ps_qp : bool;
}.

(** At a semicolon, colon or comma: the new [param], [str], [*quoted_printable] and
    [lp].  [adv] moves [lp] unless it is at a colon. *)
Definition param_end (s : params_state) (adv : res (list Z))
    : res (option EVCardAttributeParam * list Z * bool * list Z) :=
  let lp := ps_lp s in
  let str := ps_str s in
  match ps_param s with
  | Some param =>
      '(param, str, lp) ←
        match str, param_values param with
        | _ :: _, _ => lp ← adv; Ok (Some (e_vcard_attribute_param_add_value param str), [], lp)
        | [], [] => lp ← adv; Ok (None, [], lp)
        | [], _ => Ok (Some param, [], lp)
        end;
      match param with
      | Some p =>
          if same_name (param_name p) (bytes "encoding")
             && match param_values p with v :: _ => same_name v (bytes "quoted-printable") | [] => false end
          then Ok (None, str, true, lp)
          else Ok (Some p, str, ps_qp s, lp)
      | None => Ok (None, str, ps_qp s, lp)
      end
  | None =>
      match str with
      | _ :: _ =>
          lp ← adv;
          let '(nm, value, qp) :=
            if same_name str (bytes "quoted-printable") then (bytes "ENCODING", str, true)
            else if same_name str (bytes "base64") then (bytes "ENCODING", bytes "b", ps_qp s)
            else (bytes "TYPE", str, ps_qp s) in
          Ok (Some (e_vcard_attribute_param_add_value (e_vcard_attribute_param_new nm) value), [], qp, lp)
      | [] => lp ← adv; Ok (None, [], ps_qp s, lp)
      end
  end.

(** The body of the loop of [read_attribute_params], at [ps_lp s]; [true] if it breaks. *)
Definition params_body (s : params_state) : res (bool * params_state) :=
  let lp := ps_lp s in
  let c := cur lp in
  if c =? 34 then
    lp ← g_utf8_next_char lp;
    Ok (false, mkParams (ps_attr s) lp (ps_str s) (ps_param s) (negb (in_quote s)) (ps_qp s))
  else if in_quote s || g_unichar_isalnum (g_utf8_get_char lp) || (c =? 45) || (c =? 95) then
    lp' ← g_utf8_next_char lp;
    Ok (false, mkParams (ps_attr s) lp' (append_char (ps_str s) lp) (ps_param s) (in_quote s) (ps_qp s))
  else if c =? 61 then
    match ps_str s with
    | _ :: _ =>
        lp ← g_utf8_next_char lp;
        Ok (false, mkParams (ps_attr s) lp [] (Some (e_vcard_attribute_param_new (ps_str s))) (in_quote s) (ps_qp s))
    | [] =>
        lp ← skip_until (length lp) [58; 59] lp;
        if cur lp =? 59 then
          lp ← g_utf8_next_char lp;
          Ok (false, mkParams (ps_attr s) lp [] (ps_param s) (in_quote s) (ps_qp s))
        else if cur lp =? 58 then
          Ok (false, mkParams (ps_attr s) lp [] (ps_param s) (in_quote s) (ps_qp s))
        else
          lp ← skip_to_next_line lp;
          Ok (true, mkParams (ps_attr s) lp [] (ps_param s) (in_quote s) (ps_qp s))
    end
  else if (c =? 59) || (c =? 58) || (c =? 44) then
    let colon := c =? 58 in
    let comma := c =? 44 in
    '(param, str, qp, lp) ← param_end s (if colon then Ok lp else g_utf8_next_char lp);
    Ok (colon, match param with
      | Some p =>
          if negb comma then mkParams (e_vcard_attribute_add_param (ps_attr s) p) lp str None (in_quote s) qp
          else mkParams (ps_attr s) lp str (Some p) (in_quote s) qp
      | None => mkParams (ps_attr s) lp str None (in_quote s) qp
      end)
  else
    lp ← skip_to_next_line lp;
    Ok (false, mkParams (ps_attr s) lp [] (ps_param s) (in_quote s) (ps_qp s)).

(** One round: the condition of the loop and its body. *)
Definition params_round (s : params_state) : res (bool * params_state) :=
  lp ← skip_newline (ps_lp s) (ps_qp s);
  let s := mkParams (ps_attr s) lp (ps_str s) (ps_param s) (in_quote s) (ps_qp s) in
  if line_end (cur lp) then Ok (true, s) else params_body s.

Fixpoint params_loop (fuel : nat) (s : params_state) : res params_state :=
  match fuel with
  | O => NoFuel
  | S fuel =>
      '(stop, s) ← params_round s;
      if (stop : bool) then Ok s else params_loop fuel s
  end.

(** The loop does not end on every text; its fuel is a parameter. *)
Definition read_attribute_params (fuel : nat) (attr : EVCardAttribute) (p : list Z) (quoted_printable : bool)
    : res (EVCardAttribute * list Z * bool) :=
  s ← params_loop fuel (mkParams attr p [] None false quoted_printable);
  Ok (ps_attr s, ps_lp s, ps_qp s).

(** How the loop over the name ends: at the colon or semicolon after a name, with nothing at
    [*p], or without a name. *)
Inductive name_result :=
  | NameFound (attr_group : option (list Z)) (attr_name : list Z) (lp : list Z)
  | NameLose (p : list Z)
  | NameNone.

Fixpoint name_loop (fuel : nat) (attr_group : option (list Z)) (str lp : list Z) : res name_result :=
  match fuel with
  | O => NoFuel
  | S fuel =>
      lp ← skip_newline lp false;
      let c := cur lp in
      if line_end c then Ok NameNone
      else if (c =? 58) || (c =? 59) then
        match str with
        | _ :: _ => Ok (NameFound attr_group str lp)
        | [] => p ← skip_to_next_line lp; Ok (NameLose p)
        end
      else if c =? 46 then
        let str := match attr_group with Some _ => [] | None => str end in
        lp ← g_utf8_next_char lp;
        match str with
        | _ :: _ => name_loop fuel (Some str) [] lp
        | [] => name_loop fuel attr_group [] lp
        end
      else if g_unichar_isalnum (g_utf8_get_char lp) || (c =? 45) || (c =? 95) then
        lp' ← g_utf8_next_char lp;
        name_loop fuel attr_group (append_char str lp) lp'
      else p ← skip_to_next_line lp; Ok (NameLose p)
  end.

(** The attribute, or NULL, and [*p]. *)
Definition read_attribute (fuel : nat) (p : list Z) : res (option EVCardAttribute * list Z) :=
  r ← name_loop (S (length p)) None [] p;
  match r with
  | NameLose p => Ok (None, p)
  | NameNone => p ← skip_to_next_line p; Ok (None, p)
  | NameFound attr_group attr_name lp =>
      let attr := e_vcard_attribute_new attr_group attr_name in
      '(attr, lp, is_qp) ←
        (if cur lp =? 59 then
           lp ← g_utf8_next_char lp;
           '(attr, lp, is_qp) ← read_attribute_params fuel attr lp false;
           Ok (if (is_qp : bool) then set_encoding attr EVC_ENCODING_RAW (encoding_set attr) else attr, lp, is_qp)
         else Ok (attr, lp, false));
      '(attr, lp) ←
        (if cur lp =? 58 then
           lp ← g_utf8_next_char lp; read_attribute_value attr lp is_qp
         else Ok (attr, lp));
      Ok (match values attr with [] => None | _ => Some attr end, lp)
  end.

(** A byte that is not part of a character becomes U+FFFD. *)
Fixpoint make_valid_loop (fuel : nat) (remainder : list Z) : list Z :=
  match fuel with
  | O => remainder
  | S fuel =>
      match g_utf8_validate remainder with
      | None => remainder
      | Some n => take n remainder ++ [239; 191; 189] ++ make_valid_loop fuel (drop (S n) remainder)
      end
  end.

Definition make_valid_utf8 (name : list Z) : list Z := make_valid_loop (length name) name.

(** The loop of [parse]: the last attribute, whether it is the END that the loop breaks at,
    and the list. *)
Fixpoint parse_loop (fuel pfuel : nat) (p : list Z) (attr : option EVCardAttribute)
    (attrs : list (option EVCardAttribute)) : res (option EVCardAttribute * bool * list (option EVCardAttribute)) :=
  match p with
  | [] => Ok (attr, false, attrs)
  | _ =>
      match fuel with
      | O => NoFuel
      | S fuel =>
          '(next_attr, p) ← read_attribute pfuel p;
          match next_attr with
          | None => parse_loop fuel pfuel p attr attrs
          | Some a =>
              if negb (same_name (name a) (bytes "end"))
              then parse_loop fuel pfuel p (Some a) (Some a :: attrs)
              else Ok (Some a, true, attrs)
          end
      end
  end.

(** The last attribute is freed if its name is END, even if it is the first one, which is in
    the list. *)
Definition parse (fuel : nat) (evc : EVCard) (str : list Z) : res EVCard :=
  let buf := make_valid_utf8 str in
  '(attr, p) ← read_attribute fuel buf;
  let '(attr, attrs) :=
    match attr with
    | Some a => if same_name (name a) (bytes "begin") then (None, attributes evc) else (Some a, Some a :: attributes evc)
    | None => (None, attributes evc)
    end in
  '(attr, at_end, attrs) ← parse_loop (length p) fuel p attr attrs;
  let attrs :=
    match attr with
    | Some a =>
        if same_name (name a) (bytes "end") && negb (at_end : bool) then None :: drop 1 attrs else attrs
    | None => attrs
    end in
  Ok (mkVCard (reverse attrs)).

Definition e_vcard_construct (fuel : nat) (evc : EVCard) (str : list Z) : res EVCard :=
  match str with
  | [] => Ok evc
  | _ => parse fuel evc str
  end.

Definition e_vcard_new_from_string (fuel : nat) (str : list Z) : res EVCard :=
  e_vcard_construct fuel (mkVCard []) str.

Definition e_vcard_new : res EVCard := e_vcard_new_from_string 0 [].
End reader.

(** ** Escapes *)

Fixpoint e_vcard_escape_string (p : list Z) : list Z :=
  match p with
  | [] => []
  | c :: p' =>
      if c =? 10 then [92; 110] ++ e_vcard_escape_string p'
      else if c =? 13 then
        [92; 110] ++ match p' with
                     | d :: p'' => if d =? 10 then e_vcard_escape_string p'' else e_vcard_escape_string p'
                     | [] => []
                     end
      else if c =? 59 then [92; 59] ++ e_vcard_escape_string p'
      else if c =? 44 then [92; 44] ++ e_vcard_escape_string p'
      else if c =? 92 then [92; 92] ++ e_vcard_escape_string p'
      else c :: e_vcard_escape_string p'
  end.

(** Characters that are not escaped are not copied. *)
Fixpoint e_vcard_unescape_string `{GLib} (p : list Z) : list Z :=
  match p with
  | [] => []
  | c :: p' =>
      if c =? 92 then
        match p' with
        | [] => [92]
        | d :: p'' =>
            (if d =? 110 then [10] else if d =? 114 then [13] else if d =? 59 then [59]
             else if d =? 44 then [44] else if d =? 92 then [92]
             else append_char [92] p') ++ e_vcard_unescape_string p''
        end
      else e_vcard_unescape_string p'
  end.

(** ** Writing *)

Definition CRLF : list Z := [13; 10].

Section writer.
Context `{GLib}.

(** What happens to be in memory behind the terminator of a [GString]. *)
Context (after : list Z -> list Z).

(** The test for characters that need quotes. *)
Fixpoint needs_quotes (fuel : nat) (pval : list Z) : res bool :=
  if cur pval =? 0 then Ok false
  else match fuel with
       | O => NoFuel
       | S fuel =>
           if negb (g_unichar_isalnum (g_utf8_get_char pval)) then Ok true
           else pval ← g_utf8_next_char pval; needs_quotes fuel pval
       end.

Definition write_param_value (value : list Z) : res (list Z) :=
  quotes ← needs_quotes (length value) value;
  Ok (if (quotes : bool) then [34] ++ filter (fun c => c <> 34) value ++ [34] else value).

(** With a comma between two values. *)
Fixpoint write_param_values (vs : list (list Z)) : res (list Z) :=
  match vs with
  | [] => Ok []
  | v :: vs =>
      s ← write_param_value v;
      rest ← write_param_values vs;
      Ok (s ++ match vs with [] => [] | _ => [44] end ++ rest)
  end.

Definition write_param (param : EVCardAttributeParam) : res (list Z) :=
  vs ← write_param_values (param_values param);
  Ok ([59] ++ param_name param ++ match param_values param with [] => [] | _ => [61] ++ vs end).

Fixpoint write_params (ps : list EVCardAttributeParam) : res (list Z) :=
  match ps with
  | [] => Ok []
  | p :: ps => s ← write_param p; rest ← write_params ps; Ok (s ++ rest)
  end.

Fixpoint write_values (sep : Z) (vs : list (list Z)) : list Z :=
  match vs with
  | [] => []
  | [v] => e_vcard_escape_string v
  | v :: vs => e_vcard_escape_string v ++ [sep] ++ write_values sep vs
  end.

(** [pos1] is the text from there on, [n] is [pos2 - pos1] and [behind] is the memory behind the
    text. *)
Fixpoint fold_loop (fuel : nat) (behind : list Z) (pos1 : list Z) (n : nat) : res (list Z) :=
  match fuel with
  | O => NoFuel
  | S fuel =>
      if (length pos1 <? n)%nat then Undef
      else
        let line := take n pos1 ++ CRLF ++ [32] in
        let pos1 := drop n pos1 in
        n ← g_utf8_offset_to_pointer (pos1 ++ 0 :: behind) 74;
        if (n <? length pos1)%nat then rest ← fold_loop fuel behind pos1 n; Ok (line ++ rest)
        else Ok (line ++ pos1)
  end.

Definition fold_line (attr_str : list Z) : res (list Z) :=
  if 75 <? g_utf8_strlen attr_str then
    n ← g_utf8_offset_to_pointer (attr_str ++ 0 :: after attr_str) 75;
    fold_loop (S (length attr_str)) (after attr_str) attr_str n
  else Ok attr_str.

(** The line of an attribute before it is folded. *)
Definition attribute_line (attr : EVCardAttribute) : res (list Z) :=
  ps ← write_params (params attr);
  Ok (match group attr with Some g => g ++ [46] | None => [] end ++ name attr ++ ps ++ [58] ++
      write_values (if same_name (name attr) (bytes "CATEGORIES") then 44 else 59) (values attr)).

Fixpoint write_attributes (attrs : list (option EVCardAttribute)) : res (list Z) :=
  match attrs with
  | [] => Ok []
  | attr :: attrs =>
      a ← attr_at attr;
      s ← (if same_name (name a) (bytes "VERSION") then Ok []
           else attr_str ← attribute_line a; attr_str ← fold_line attr_str; Ok (attr_str ++ CRLF));
      rest ← write_attributes attrs;
      Ok (s ++ rest)
  end.

Definition e_vcard_to_string_vcard_21 (evc : EVCard) : list Z := [].

Definition e_vcard_to_string_vcard_30 (evc : EVCard) : res (list Z) :=
  s ← write_attributes (attributes evc);
  Ok (bytes "BEGIN:VCARD" ++ CRLF ++ bytes "VERSION:3.0" ++ CRLF ++ s ++ bytes "END:VCARD").

Definition e_vcard_to_string (evc : EVCard) (format : EVCardFormat) : res (list Z) :=
  match format with
  | EVC_FORMAT_VCARD_21 => Ok (e_vcard_to_string_vcard_21 evc)
  | EVC_FORMAT_VCARD_30 => e_vcard_to_string_vcard_30 evc
  end.
End writer.
