(* ===== verification/VCardSpec.v ===== *)
(** * vCards: parameters, what the reader returns, and folded lines

    Adding a parameter to an attribute merges it with the one that has its name; so no attribute
    has two parameters of the same name, which holds of what is read, too. *)

From S2P Require Import Prelude CString GLibUtf8 VCard.
From Stdlib Require Import(notations) String.
#[local] Open Scope Z_scope.
#[local] Open Scope list_scope.

(** No two parameters have the same name. *)
Definition distinct_names (ps : list EVCardAttributeParam) : Prop :=
  NoDup (map (fun p => map ascii_lower (param_name p)) ps).

(** What is true of attributes that are read. *)
Definition attribute_ok (a : EVCardAttribute) : Prop :=
  distinct_names (params a) /\ name a <> [] /\ values a <> [].

(** All attributes of the card that were not freed are such. *)
Definition card_ok (evc : EVCard) : Prop :=
  Forall (fun a => match a with Some a => attribute_ok a | None => True end) (attributes evc).

Section spec.
Context `{GLib} (HG : GLibLaws _).

Lemma same_name_spec a b : same_name a b = bool_decide (map ascii_lower a = map ascii_lower b).
Proof.
  unfold same_name. pose proof (strcasecmp_eq a b) as E.
  case_bool_decide as D; [by apply Z.eqb_eq, E|]. apply Z.eqb_neq. by intros ?%E.
Qed.

Lemma same_name_true a b : same_name a b = true <-> map ascii_lower a = map ascii_lower b.
Proof. rewrite same_name_spec. apply bool_decide_eq_true. Qed.

Lemma same_name_refl a : same_name a a = true.
Proof. by apply same_name_true. Qed.

(** ** Merging *)

Lemma merge_values_name p vs : param_name (merge_values p vs) = param_name p.
Proof.
  revert p. unfold merge_values. induction vs as [|v vs IH]; intros p; [done|]. cbn [foldl]. rewrite IH. by destruct (existsb _ _).
Qed.

Lemma merge_values_app p vs : exists ws, param_values (merge_values p vs) = param_values p ++ ws /\ ws ⊆ vs /\
  Forall (fun v => existsb (fun w => same_name w v) (param_values p ++ ws) = true) vs.
Proof.
  revert p. unfold merge_values. induction vs as [|v vs IH]; intros p.
  - exists []. rewrite app_nil_r. split; [done|]. split; [set_solver|constructor].
  - cbn [foldl]. destruct (existsb (fun w => same_name w v) (param_values p)) eqn:E.
    + destruct (IH p) as (ws & Ew & Hs & Hf). exists ws. split; [done|]. split; [set_solver|].
      constructor; [|done]. by rewrite existsb_app, E.
    + destruct (IH (e_vcard_attribute_param_add_value p v)) as (ws & Ew & Hs & Hf). cbn [e_vcard_attribute_param_add_value param_values] in *.
      exists (v :: ws). rewrite <- app_assoc in Ew, Hf. cbn [app] in Ew, Hf. split; [done|]. split; [set_solver|].
      constructor; [|done]. rewrite existsb_app. cbn [existsb]. by rewrite same_name_refl, orb_true_r.
Qed.

Lemma merge_param_spec ps p :
  match merge_param ps p with
  | Some ps' => map param_name ps' = map param_name ps /\
      (forall n, map ascii_lower n <> map ascii_lower (param_name p) -> get_param ps' n = get_param ps n) /\
      exists ws, get_param ps' (param_name p) = get_param ps (param_name p) ++ ws /\ ws ⊆ param_values p /\
        Forall (fun v => existsb (fun w => same_name w v) (get_param ps' (param_name p)) = true) (param_values p)
  | None => ~ map ascii_lower (param_name p) ∈ map (fun q => map ascii_lower (param_name q)) ps /\
      get_param ps (param_name p) = []
  end.
Proof.
  induction ps as [|q ps IH]; [split; [set_solver|done]|]. cbn [merge_param get_param map].
  unfold e_vcard_attribute_param_get_name, e_vcard_attribute_param_get_values.
  destruct (same_name (param_name q) (param_name p)) eqn:E.
  - pose proof (merge_values_name q (param_values p)) as En. cbn [map get_param].
    unfold e_vcard_attribute_param_get_name, e_vcard_attribute_param_get_values. rewrite En, E. split; [done|]. split.
    + intros n Hn. apply same_name_true in E. destruct (same_name (param_name q) n) eqn:En'; [|done].
      apply same_name_true in En'. congruence.
    + destruct (merge_values_app q (param_values p)) as (ws & -> & Hs & Hf). by exists ws.
  - destruct (merge_param ps p) as [ps'|].
    + destruct IH as (En & Ho & ws & Ew & Hs & Hf). cbn [map get_param].
      unfold e_vcard_attribute_param_get_name, e_vcard_attribute_param_get_values. rewrite E, En. split; [done|]. split.
      * intros n Hn. by rewrite Ho.
      * by exists ws.
    + destruct IH as [Hn Hg]. split; [|done]. intros [Hq|Hq]%elem_of_cons; [|done].
      symmetry in Hq. apply same_name_true in Hq. congruence.
Qed.

Lemma names_lower ps ps' : map param_name ps' = map param_name ps ->
  map (fun p => map ascii_lower (param_name p)) ps' = map (fun p => map ascii_lower (param_name p)) ps.
Proof. intros E. rewrite <- !(map_map param_name (map ascii_lower)). by rewrite E. Qed.

(** What [e_vcard_attribute_add_param] does to the parameters. *)
Lemma add_param_params attr p : params (e_vcard_attribute_add_param attr p) =
  match merge_param (params attr) p with Some ps => ps | None => p :: params attr end.
Proof. unfold e_vcard_attribute_add_param. repeat case_match; reflexivity. Qed.

Lemma add_param_rest attr p : name (e_vcard_attribute_add_param attr p) = name attr /\
  values (e_vcard_attribute_add_param attr p) = values attr.
Proof. unfold e_vcard_attribute_add_param. repeat case_match; done. Qed.

Lemma add_param_distinct attr p : distinct_names (params attr) -> distinct_names (params (e_vcard_attribute_add_param attr p)).
Proof.
  unfold distinct_names. rewrite add_param_params. pose proof (merge_param_spec (params attr) p) as Hm.
  destruct (merge_param (params attr) p) as [ps'|].
  - destruct Hm as (En & _). by rewrite (names_lower _ _ En).
  - destruct Hm as [Hn _]. intros Hd. cbn [map]. by constructor.
Qed.

Lemma add_param_get attr p :
  (forall n, map ascii_lower n <> map ascii_lower (param_name p) ->
    e_vcard_attribute_get_param (e_vcard_attribute_add_param attr p) n = e_vcard_attribute_get_param attr n) /\
  exists ws, e_vcard_attribute_get_param (e_vcard_attribute_add_param attr p) (param_name p) =
      e_vcard_attribute_get_param attr (param_name p) ++ ws /\ ws ⊆ param_values p /\
    Forall (fun v => existsb (fun w => same_name w v)
      (e_vcard_attribute_get_param (e_vcard_attribute_add_param attr p) (param_name p)) = true) (param_values p).
Proof.
  unfold e_vcard_attribute_get_param, e_vcard_attribute_get_params. rewrite add_param_params.
  pose proof (merge_param_spec (params attr) p) as Hm. destruct (merge_param (params attr) p) as [ps'|]; [apply Hm|].
  destruct Hm as [_ Hg]. rewrite Hg. cbn [get_param]. unfold e_vcard_attribute_param_get_name, e_vcard_attribute_param_get_values.
  rewrite same_name_refl. split.
  - intros n Hn. destruct (same_name (param_name p) n) eqn:E; [|done]. apply same_name_true in E. congruence.
  - exists (param_values p). split; [done|]. split; [done|]. apply Forall_forall. intros v Hv.
    apply existsb_exists. exists v. split; [by apply list_elem_of_In|apply same_name_refl].
Qed.

(** ** Reading *)

(** [Q] of the result, if there is one. *)
Definition yields {A} (Q : A -> Prop) (x : res A) : Prop := forall a, x = Ok a -> Q a.

Lemma yields_bind {A B} (Q : A -> Prop) (R : B -> Prop) (x : res A) (k : A -> res B) :
  yields Q x -> (forall a, Q a -> yields R (k a)) -> yields R (x ≫= k).
Proof. intros Hx Hk b E. destruct x as [a| |]; try done. cbn in E. by apply (Hk a (Hx a eq_refl)). Qed.

Lemma yields_step {A B} (R : B -> Prop) (x : res A) (k : A -> res B) :
  (forall a, yields R (k a)) -> yields R (x ≫= k).
Proof. intros Hk. apply (yields_bind (fun _ => True)); auto. by intros a. Qed.

Lemma yields_Ok {A} (Q : A -> Prop) a : Q a -> yields Q (Ok a).
Proof. intros Ha b E. by injection E as <-. Qed.

Lemma yields_fail {A} (Q : A -> Prop) : yields Q NoFuel.
Proof. done. Qed.

Lemma add_value_fields attr v : params (e_vcard_attribute_add_value attr v) = params attr /\
  name (e_vcard_attribute_add_value attr v) = name attr.
Proof. done. Qed.

Lemma value_loop_fields fuel cat qp attr str lp :
  yields (fun x => params x.1 = params attr /\ name x.1 = name attr) (value_loop fuel cat qp attr str lp).
Proof.
  revert attr str lp. induction fuel as [|fuel IH]; intros attr str lp; [done|]. cbn [value_loop].
  apply yields_step. intros lp1. destruct (line_end (cur lp1)); [by apply yields_Ok|].
  apply yields_step. intros [str2 lp2|str2 lp2|lp2]; [by apply yields_Ok|apply IH|].
  exact (IH (e_vcard_attribute_add_value attr (c_string str)) [] lp2).
Qed.

(** A round changes the attribute by adding a parameter, if at all. *)
Lemma params_round_attr s :
  yields (fun x => ps_attr x.2 = ps_attr s \/ exists p, ps_attr x.2 = e_vcard_attribute_add_param (ps_attr s) p) (params_round s).
Proof.
  unfold params_round. apply yields_step. intros lp. cbv zeta. destruct (line_end (cur lp)); [apply yields_Ok; by left|].
  unfold params_body. cbn [ps_lp ps_attr ps_str ps_param in_quote ps_qp].
  destruct (cur lp =? 34); [apply yields_step; intros lp1; apply yields_Ok; by left|].
  destruct (in_quote s || _ || _ || _); [apply yields_step; intros lp1; apply yields_Ok; by left|].
  destruct (cur lp =? 61).
  - destruct (ps_str s); [|apply yields_step; intros lp1; apply yields_Ok; by left].
    apply yields_step. intros lp1. destruct (cur lp1 =? 59); [apply yields_step; intros lp2; apply yields_Ok; by left|].
    destruct (cur lp1 =? 58); [apply yields_Ok; by left|]. apply yields_step. intros lp2. apply yields_Ok. by left.
  - destruct ((cur lp =? 59) || (cur lp =? 58) || (cur lp =? 44));
      [|apply yields_step; intros lp1; apply yields_Ok; by left].
    cbv zeta. apply yields_step. intros [[[[q|] str] qp] lp1]; apply yields_Ok; [|by left].
    destruct (negb (cur lp =? 44)); [right; by exists q|by left].
Qed.

Lemma params_loop_ok fuel s : distinct_names (params (ps_attr s)) ->
  yields (fun s' => distinct_names (params (ps_attr s')) /\ name (ps_attr s') = name (ps_attr s)) (params_loop fuel s).
Proof.
  revert s. induction fuel as [|fuel IH]; intros s Hd; [done|]. cbn [params_loop].
  eapply yields_bind; [apply params_round_attr|]. intros [stop s'] Hs'. cbn [snd] in Hs'.
  assert (distinct_names (params (ps_attr s')) /\ name (ps_attr s') = name (ps_attr s)) as [Hd' Hn'].
  { destruct Hs' as [-> | (p & ->)]; [done|]. split; [by apply add_param_distinct|apply add_param_rest]. }
  destruct stop; [by apply yields_Ok|]. rewrite <- Hn'. by apply IH.
Qed.

Lemma name_loop_nonempty fuel g str lp :
  yields (fun r => match r with NameFound _ n _ => n <> [] | _ => True end) (name_loop fuel g str lp).
Proof.
  revert g str lp. induction fuel as [|fuel IH]; intros g str lp; [done|]. cbn [name_loop].
  apply yields_step. intros lp1. cbv zeta. destruct (line_end (cur lp1)); [by apply yields_Ok|].
  destruct ((cur lp1 =? 58) || (cur lp1 =? 59)).
  - destruct str; [apply yields_step; intros lp2|]; by apply yields_Ok.
  - destruct (cur lp1 =? 46).
    + apply yields_step. intros lp2. destruct (match g with Some _ => [] | None => str end); apply IH.
    + destruct (_ || _ || _); apply yields_step; intros lp2; [apply IH|by apply yields_Ok].
Qed.

Lemma read_attribute_ok fuel lp :
  yields (fun x => match x.1 with Some a => attribute_ok a | None => True end) (read_attribute fuel lp).
Proof.
  unfold read_attribute. eapply yields_bind; [apply name_loop_nonempty|]. intros [g n lp1|p|] Hn; [|by apply yields_Ok|].
  2:{ apply yields_step. intros p. by apply yields_Ok. }
  cbv zeta. apply (yields_bind (fun x => distinct_names (params x.1.1) /\ name x.1.1 = n)).
  - destruct (cur lp1 =? 59); [|apply yields_Ok; split; [constructor|done]]. apply yields_step. intros lp2.
    apply (yields_bind (fun x => distinct_names (params x.1.1) /\ name x.1.1 = n)).
    + unfold read_attribute_params. eapply yields_bind; [apply params_loop_ok; constructor|].
      intros s [Hd E]. by apply yields_Ok.
    + intros [[a lp3] qp] [Hd E]. apply yields_Ok. by destruct qp.
  - intros [[a lp2] qp] [Hd E]. cbn [fst] in Hd, E. apply (yields_bind (fun x => distinct_names (params x.1) /\ name x.1 = n)).
    + destruct (cur lp2 =? 58); [|by apply yields_Ok]. apply yields_step. intros lp3. unfold read_attribute_value.
      eapply yields_bind; [apply value_loop_fields|]. intros [a' lp4] [Ep En]. cbn [fst] in Ep, En.
      apply yields_step. intros lp5. apply yields_Ok. cbn [fst]. by rewrite Ep, En.
    + intros [a' lp3] [Hd' E']. cbn [fst] in Hd', E'. apply yields_Ok. cbn [fst]. destruct (values a') eqn:Ev; [done|].
      split; [done|]. split; [by rewrite E'|by rewrite Ev].
Qed.

Definition attrs_ok (attrs : list (option EVCardAttribute)) : Prop :=
  Forall (fun a => match a with Some a => attribute_ok a | None => True end) attrs.

Lemma parse_loop_attrs fuel pfuel p attr attrs : attrs_ok attrs ->
  yields (fun x => attrs_ok x.2) (parse_loop fuel pfuel p attr attrs).
Proof.
  revert p attr attrs. induction fuel as [|fuel IH]; intros [|c p] attr attrs Hok; cbn [parse_loop]; try done; try by apply yields_Ok.
  eapply yields_bind; [apply read_attribute_ok|]. intros [[a|] p'] Ha; [|by apply IH]. cbn [fst] in Ha.
  destruct (same_name (name a) (bytes "end")); cbn [negb]; [by apply yields_Ok|]. apply IH. by constructor.
Qed.

Lemma parse_ok fuel evc str : card_ok evc -> yields card_ok (parse fuel evc str).
Proof.
  intros Hok. unfold parse. cbv zeta. eapply yields_bind; [apply read_attribute_ok|]. intros [attr p] Ha. cbn [fst] in Ha.
  set (x := match attr with Some a => _ | None => _ end). assert (attrs_ok x.2) as Hx.
  { subst x. destruct attr as [a|]; [|done]. destruct (same_name _ _); [done|]. by constructor. }
  destruct x as [attr1 attrs1]. cbn [snd] in Hx. eapply yields_bind; [by apply parse_loop_attrs|].
  intros [[attr2 at_end] attrs2] Hl. cbn [snd] in Hl. apply yields_Ok. unfold card_ok. cbn [attributes].
  apply Forall_reverse. destruct attr2 as [a|]; [|done]. destruct (_ && _); [|done].
  constructor; [done|]. by apply Forall_drop.
Qed.
End spec.

(** C11: in every card that is read, whatever the text, each attribute has a name and at least
    one value, and no two parameters of the same name, in upper case or lower case. *)
Theorem vcard_read_ok `{GLib} fuel str evc :
  GLibLaws _ -> e_vcard_new_from_string fuel str = Ok evc -> card_ok evc.
Proof.
  intros HG E. unfold e_vcard_new_from_string, e_vcard_construct in E.
  assert (card_ok (mkVCard [])) as H0 by constructor.
  destruct str as [|c str]; [by injection E as <-|]. by apply (parse_ok HG fuel (mkVCard []) (c :: str)).
Qed.

(** Adding a parameter to an attribute whose parameters have distinct names keeps them
    distinct, changes none of the parameters with other names, and adds to the values of the one
    with this name, behind those that it has, values of the new parameter, so that
    every one of these is there, in upper case or lower case. *)
Theorem vcard_add_param_merges `{GLib} attr p :
  GLibLaws _ -> distinct_names (params attr) ->
  let attr' := e_vcard_attribute_add_param attr p in
  distinct_names (params attr') /\
  (forall n, map ascii_lower n <> map ascii_lower (param_name p) ->
    e_vcard_attribute_get_param attr' n = e_vcard_attribute_get_param attr n) /\
  exists ws, e_vcard_attribute_get_param attr' (param_name p) = e_vcard_attribute_get_param attr (param_name p) ++ ws /\
    ws ⊆ param_values p /\
    Forall (fun v => existsb (fun w => same_name w v) (e_vcard_attribute_get_param attr' (param_name p)) = true) (param_values p).
Proof. intros HG Hd. split; [by apply (add_param_distinct HG)|]. by apply (add_param_get HG). Qed.

#[local] Existing Instance Utf8Instance.glib.

Definition read_example : list Z := bytes "TEL;type=home;TYPE=WORK,Home:1;2".

Lemma vcard_read_ok_witness : exists evc, e_vcard_new_from_string 100 read_example = Ok evc /\ card_ok evc.
Proof.
  eexists. split; [vm_compute; reflexivity|]. apply (vcard_read_ok 100 read_example).
  - exact Utf8Instance.glib_laws.
  - vm_compute. reflexivity.
Defined.

(** The two parameters are one. *)
Example read_example_merged : e_vcard_new_from_string 100 read_example =
  Ok (mkVCard [Some (mkAttr None (bytes "TEL") [mkParam (bytes "type") [bytes "home"; bytes "WORK"]]
    [bytes "1"; bytes "2"] [] EVC_ENCODING_RAW false)]).
Proof. vm_compute. reflexivity. Qed.

Lemma vcard_add_param_merges_witness :
  let attr := mkAttr None (bytes "TEL") [mkParam (bytes "type") [bytes "home"]] [bytes "1"] [] EVC_ENCODING_RAW false in
  let p := mkParam (bytes "TYPE") [bytes "WORK"; bytes "Home"] in
  let attr' := e_vcard_attribute_add_param attr p in
  distinct_names (params attr') /\
  (forall n, map ascii_lower n <> map ascii_lower (param_name p) ->
    e_vcard_attribute_get_param attr' n = e_vcard_attribute_get_param attr n) /\
  exists ws, e_vcard_attribute_get_param attr' (param_name p) = e_vcard_attribute_get_param attr (param_name p) ++ ws /\
    ws ⊆ param_values p /\
    Forall (fun v => existsb (fun w => same_name w v) (e_vcard_attribute_get_param attr' (param_name p)) = true) (param_values p).
Proof.
  intros attr p. apply vcard_add_param_merges; [exact Utf8Instance.glib_laws|].
  constructor; [by intros ?%elem_of_nil|constructor].
Defined.

(** A value that is added after the decoded values were computed is missing in them. *)
Example decoded_values_stale `{GBase64} v w :
  let attr := e_vcard_attribute_add_value (e_vcard_attribute_new None (bytes "NOTE")) v in
  let '(attr, _) := e_vcard_attribute_get_values_decoded attr in
  let attr := e_vcard_attribute_add_value attr w in
  (e_vcard_attribute_get_values attr, (e_vcard_attribute_get_values_decoded attr).2) = ([v; w], [v]).
Proof. reflexivity. Qed.

(** Unescaping drops what is not escaped. *)
Example unescape_drops : e_vcard_unescape_string (bytes "a\,b") = bytes ",".
Proof. vm_compute. reflexivity. Qed.

(** An attribute without group is compared with a group. *)
Example remove_without_group :
  e_vcard_remove_attributes (mkVCard [Some (e_vcard_attribute_new None (bytes "TEL"))]) (Some (bytes "g")) (bytes "TEL") = Undef.
Proof. reflexivity. Qed.

(** * vCards: folded lines

    The writer folds lines of more than 75 characters, and whatever is in memory behind the
    line makes no difference; the reader sees the characters of a folded line as if
    it were not folded. *)

(** The break between two lines that belong together. *)
Definition fold_mark : list Z := CRLF ++ [32].

(** Lines in [k] characters at most, with breaks in between; all lines have characters. *)
Fixpoint join_folded `{GLib} (lines : list (list Z)) : list Z :=
  match lines with
  | [] => []
  | [cs] => utf8 cs
  | cs :: lines => utf8 cs ++ fold_mark ++ join_folded lines
  end.

(** The text [t] is the characters [cs], with a break in front of some of them. *)
Inductive folds `{GLib} : list Z -> list Z -> Prop :=
  | folds_nil : folds [] []
  | folds_char c cs t : folds cs t -> folds (c :: cs) (g_unichar_to_utf8 c ++ t)
  | folds_mark c cs t : folds cs t -> folds (c :: cs) (fold_mark ++ g_unichar_to_utf8 c ++ t).

Section fold.
Context `{GLib} (HG : GLibLaws _).

Lemma utf8_cons c cs : utf8 (c :: cs) = g_unichar_to_utf8 c ++ utf8 cs.
Proof. reflexivity. Qed.

Lemma utf8_length cs : Forall valid_char cs -> (length cs <= length (utf8 cs))%nat.
Proof.
  induction 1 as [|c cs Hc _ IH]; [done|]. rewrite utf8_cons, length_app.
  destruct (to_utf8_nonempty HG c Hc) as (b & bs & -> & _). simpl. lia.
Qed.

(** ** Writing *)

(** The last line, behind which the pointer moves past the terminator. *)
Lemma fold_last behind ds : Forall valid_char ds -> (length ds <= 74)%nat -> (444 <= length behind)%nat ->
  exists k, g_utf8_offset_to_pointer (utf8 ds ++ 0 :: behind) 74 = Ok k /\ (length (utf8 ds) <= k)%nat.
Proof.
  intros Hds Hle Hb. destruct (decide (length ds = 74%nat)) as [E74|Hne].
  - exists (length (utf8 ds)). split; [|done].
    pose proof (offset_utf8 HG ds [] (0 :: behind) 74 Hds (eq_sym E74)) as Eo. by rewrite app_nil_r in Eo.
  - destruct (offset_past HG ds behind 74 Hds) as (k & -> & Hk); [lia|lia|]. exists k. split; [done|lia].
Qed.

Lemma offset_take cs n rest : Forall valid_char cs -> (n <= length cs)%nat ->
  g_utf8_offset_to_pointer (utf8 cs ++ rest) n = Ok (length (utf8 (take n cs))).
Proof.
  intros Hcs Hn. pose proof (offset_utf8 HG (take n cs) (drop n cs) rest n) as Eo. rewrite take_drop in Eo.
  apply Eo; [by apply Forall_take|rewrite length_take; lia].
Qed.

Lemma utf8_take_lt cs n : Forall valid_char cs -> (n < length cs)%nat -> (length (utf8 (take n cs)) < length (utf8 cs))%nat.
Proof.
  intros Hcs Hn. pose proof (utf8_length (drop n cs) (Forall_drop _ _ _ Hcs)) as Hu. rewrite length_drop in Hu.
  assert (utf8 cs = utf8 (take n cs) ++ utf8 (drop n cs)) as E by by rewrite <- utf8_app, take_drop.
  rewrite E, length_app. lia.
Qed.

Lemma fold_loop_spec n cs fuel :
  Forall valid_char cs -> (0 < n < length cs)%nat -> (length cs < fuel)%nat ->
  exists lines, (forall behind, (444 <= length behind)%nat ->
      fold_loop fuel behind (utf8 cs) (length (utf8 (take n cs))) = Ok (join_folded (take n cs :: lines))) /\
    cs = take n cs ++ concat lines /\ Forall (fun l => (0 < length l <= 74)%nat) lines.
Proof.
  revert n cs. induction fuel as [|fuel IH]; intros n cs Hcs Hn Hf; [lia|]. cbn [fold_loop].
  pose proof (utf8_take_lt cs n Hcs ltac:(lia)) as Hlt.
  assert (utf8 cs = utf8 (take n cs) ++ utf8 (drop n cs)) as E by by rewrite <- utf8_app, take_drop.
  assert (Forall valid_char (drop n cs)) as Hds by by apply Forall_drop.
  assert (length (drop n cs) = length cs - n)%nat as Hlen by apply length_drop.
  destruct (Nat.ltb_spec (length (utf8 cs)) (length (utf8 (take n cs)))) as [|_]; [lia|]. clear Hlt.
  rewrite E, take_app_length, drop_app_length.
  destruct (Nat.le_gt_cases (length (drop n cs)) 74) as [Hle|Hgt].
  - exists [drop n cs]. split.
    + intros behind Hb. destruct (fold_last behind (drop n cs) Hds Hle Hb) as (k & -> & Hk). rewrite res_bind_Ok.
      destruct (Nat.ltb_spec k (length (utf8 (drop n cs)))); [lia|]. cbn [join_folded]. unfold fold_mark.
      by rewrite <- !app_assoc.
    + cbn [concat]. rewrite app_nil_r, take_drop. split; [done|]. constructor; [lia|constructor].
  - destruct (IH 74%nat (drop n cs) Hds) as (lines & El & Ec & Hl); [lia|lia|]. exists (take 74 (drop n cs) :: lines). split.
    + intros behind Hb. rewrite offset_take, res_bind_Ok by (done || lia). rewrite El by done.
      pose proof (utf8_take_lt (drop n cs) 74 Hds ltac:(lia)) as Hlt.
      destruct (Nat.ltb_spec (length (utf8 (take 74 (drop n cs)))) (length (utf8 (drop n cs)))) as [_|]; [|lia].
      rewrite res_bind_Ok. cbn [join_folded]. unfold fold_mark. by rewrite <- !app_assoc.
    + cbn [concat]. rewrite <- Ec, take_drop. split; [done|]. constructor; [rewrite length_take; lia|done].
Qed.

(** A folded line: at most 75 characters, with the blank that lines but the first begin with. *)
Definition short_lines (lines : list (list Z)) : Prop :=
  match lines with
  | [] => False
  | l :: lines => (length l <= 75)%nat /\ (l = [] -> lines = []) /\
      Forall (fun l => (0 < length l <= 74)%nat) lines
  end.

Lemma fold_line_spec cs : Forall valid_char cs ->
  exists lines, (forall after, (444 <= length (after (utf8 cs)))%nat -> fold_line after (utf8 cs) = Ok (join_folded lines)) /\
    cs = concat lines /\ short_lines lines.
Proof.
  intros Hcs. unfold fold_line. rewrite strlen_utf8 by done.
  destruct (Z.ltb_spec 75 (Z.of_nat (length cs))) as [Hlt|Hge].
  - destruct (fold_loop_spec 75 cs (S (length (utf8 cs))) Hcs) as (lines & El & E & Hl);
      [lia|pose proof (utf8_length cs Hcs); lia|]. exists (take 75 cs :: lines). split.
    + intros after Hb. rewrite offset_take, res_bind_Ok by (done || lia). by apply El.
    + split; [done|]. split; [rewrite length_take; lia|]. split; [|done].
      intros E0%(f_equal length). rewrite length_take in E0. cbn [length] in E0. lia.
  - exists [cs]. cbn [concat]. rewrite app_nil_r. split; [done|]. split; [done|]. split; [lia|done].
Qed.

(** ** The characters of a folded text *)

Lemma folds_utf8 cs ds t : folds ds t -> folds (cs ++ ds) (utf8 cs ++ t).
Proof.
  intros Ht. induction cs as [|c cs IH]; [done|]. rewrite utf8_cons, <- app_assoc. by apply (folds_char c).
Qed.

Lemma join_folded_cons d ds lines : join_folded ((d :: ds) :: lines) = g_unichar_to_utf8 d ++ join_folded (ds :: lines).
Proof. destruct lines; cbn [join_folded]; by rewrite utf8_cons, <- ?app_assoc. Qed.

Lemma folds_join cs lines : Forall (fun l => (0 < length l)%nat) lines ->
  folds (cs ++ concat lines) (join_folded (cs :: lines)).
Proof.
  revert cs. induction lines as [|[|d ds] lines IH]; intros cs Hl.
  - cbn [concat join_folded]. rewrite <- (app_nil_r (utf8 cs)). apply folds_utf8. constructor.
  - apply Forall_cons in Hl as [Hl _]. simpl in Hl. lia.
  - apply Forall_cons in Hl as [_ Hl].
    change (folds (cs ++ concat ((d :: ds) :: lines)) (utf8 cs ++ fold_mark ++ join_folded ((d :: ds) :: lines))).
    apply folds_utf8. rewrite join_folded_cons. cbn [concat app]. by apply (folds_mark d), IH.
Qed.

Lemma short_lines_folds lines : short_lines lines -> folds (concat lines) (join_folded lines).
Proof.
  destruct lines as [|cs lines]; [done|]. intros (_ & _ & Hl). apply folds_join. eapply Forall_impl; [exact Hl|].
  intros l. cbv beta. lia.
Qed.

(** The first line begins with the first character. *)
Lemma short_lines_head lines c cs : short_lines lines -> concat lines = c :: cs ->
  exists l, join_folded lines = g_unichar_to_utf8 c ++ l.
Proof.
  destruct lines as [|[|d ds] lines]; [done|..]; intros (_ & Hl & _) E.
  - by rewrite Hl in E.
  - cbn [concat app] in E. injection E as -> _. rewrite join_folded_cons. by eexists.
Qed.

Lemma folds_length cs t : Forall valid_char cs -> folds cs t -> (length cs <= length t)%nat.
Proof.
  intros Hcs. induction 1 as [|c cs t _ IH|c cs t _ IH]; [done|..]; apply Forall_cons in Hcs as [Hc Hcs];
    destruct (to_utf8_nonempty HG c Hc) as (b & bs & -> & _); specialize (IH Hcs);
    cbn [app length fold_mark CRLF]; rewrite length_app; lia.
Qed.

(** A folded text is text. *)
Lemma folds_text cs t : Forall valid_char cs -> folds cs t -> exists ds, t = utf8 ds /\ Forall valid_char ds.
Proof.
  intros Hcs. induction 1 as [|c cs t _ IH|c cs t _ IH]; [by exists []|..]; apply Forall_cons in Hcs as [Hc Hcs];
    destruct (IH Hcs) as (ds & -> & Hds).
  - exists (c :: ds). split; [done|by constructor].
  - exists ([13; 10; 32] ++ c :: ds). rewrite utf8_app, (utf8_cons c).
    rewrite (utf8_ascii HG [13; 10; 32]) by (repeat constructor; lia). split; [done|].
    assert (forall d, 0 < d < 128 -> valid_char d) as Hv by (intros d Hd; split; [lia|by apply ascii_valid]).
    repeat (apply Forall_cons; split; [apply Hv; lia|]). by apply Forall_cons.
Qed.

(** ** Reading *)

Lemma next_mark_char c l : valid_char c -> g_utf8_next_char (g_unichar_to_utf8 c ++ l) = Ok l.
Proof. by apply next_char_utf8. Qed.

Lemma cur_utf8 c l : valid_char c -> exists b, cur (g_unichar_to_utf8 c ++ l) = b /\ 0 < b /\
  (c < 128 -> b = c) /\ (128 <= c -> 128 <= b).
Proof.
  intros Hc. destruct (to_utf8_nonempty HG c Hc) as (b & bs & -> & _ & Hb & H1 & H2 & _). exists b.
  split; [done|]. split; [lia|]. by split.
Qed.

(** Reading at a character, and at a character behind a break, comes to the character. *)
Lemma skip_newline_char c l : valid_char c -> newline c = false ->
  skip_newline (g_unichar_to_utf8 c ++ l) false = Ok (g_unichar_to_utf8 c ++ l) /\
  skip_newline (fold_mark ++ g_unichar_to_utf8 c ++ l) false = Ok (g_unichar_to_utf8 c ++ l).
Proof.
  intros Hc Hn. destruct (cur_utf8 c l Hc) as (b & Eb & _ & H1 & H2). unfold skip_newline. rewrite Eb. cbn [andb].
  split.
  - assert (newline b = false) as ->; [|done]. unfold newline in *. destruct (Z.lt_ge_cases c 128); [rewrite H1 by done; done|].
    specialize (H2 ltac:(done)). lia.
  - unfold fold_mark, CRLF. cbn [app]. change (newline (cur (13 :: ?l))) with true. cbv iota.
    rewrite (next_char_ascii HG) by lia. rewrite res_bind_Ok.
    change (newline (cur (10 :: ?l)) && negb (cur (13 :: ?k) =? cur (10 :: ?l))) with true. cbv iota.
    rewrite (next_char_ascii HG) by lia. rewrite res_bind_Ok. change (blank (cur (32 :: ?l))) with true. cbv iota.
    by rewrite (next_char_ascii HG) by lia.
Qed.

Lemma folds_read c cs t rest : folds (c :: cs) t -> valid_char c -> newline c = false ->
  exists t', folds cs t' /\ skip_newline (t ++ rest) false = Ok (g_unichar_to_utf8 c ++ t' ++ rest).
Proof.
  intros Ht Hc Hn. inversion Ht as [|? ? t' Ht' E1 E2|? ? t' Ht' E1 E2]; subst; exists t'; (split; [done|]).
  - rewrite <- app_assoc. by apply skip_newline_char.
  - rewrite <- !app_assoc. by apply skip_newline_char.
Qed.
End fold.

(** C37: a line of valid characters is folded into lines of at most 75 characters (the blank in front
    of the continued ones counted), none of them empty, which make the line again;
    what is in memory behind the line makes no difference, if 444 bytes can be read. *)
Theorem vcard_fold_lines `{GLib} cs :
  GLibLaws _ -> Forall valid_char cs ->
  exists lines, (forall after, (444 <= length (after (utf8 cs)))%nat -> fold_line after (utf8 cs) = Ok (join_folded lines)) /\
    cs = concat lines /\ short_lines lines.
Proof. intros HG. by apply fold_line_spec. Qed.

#[local] Existing Instance Utf8Instance.glib.

Lemma vcard_fold_lines_witness :
  exists lines, (forall after, (444 <= length (after (utf8 (replicate 100 233%Z))))%nat ->
      fold_line after (utf8 (replicate 100 233%Z)) = Ok (join_folded lines)) /\
    replicate 100 233%Z = concat lines /\ short_lines lines.
Proof.
  apply vcard_fold_lines; [exact Utf8Instance.glib_laws|].
  apply Forall_replicate. split; [lia|reflexivity].
Defined.

(** With nothing behind the terminator that can be read, folding has undefined behaviour. *)
Example fold_reads_behind : fold_line (fun _ => []) (replicate 80 97%Z) = Undef.
Proof. vm_compute. reflexivity. Qed.
