(* ===== verification/VCardParseSpec.v ===== *)
(** * vCards: the reader ends

    On text that does not end in white space the reader has defined behaviour: it either
    returns within a number of steps that is linear in the text or never returns, and it
    returns if there is no comma in the text. *)

From S2P Require Import Prelude CString GLibUtf8 VCard.
From Stdlib Require Import(notations) String.
#[local] Open Scope Z_scope.
#[local] Open Scope list_scope.

Section steps.
Context `{GLib} (HG : GLibLaws _).

(** ** Moving forward *)

(** [l'] is behind [l]. *)
Definition behind (l l' : list Z) : Prop := l' `suffix_of` l /\ (length l' < length l)%nat.

Lemma behind_trans l1 l2 l3 : behind l1 l2 -> l3 `suffix_of` l2 -> behind l1 l3.
Proof. intros [Hs Hl] H3. split; [by trans l2|]. pose proof (suffix_length _ _ H3). lia. Qed.

Lemma next_ok l : steps l -> cur l <> 0 -> exists l', g_utf8_next_char l = Ok l' /\ behind l l'.
Proof.
  intros Hs Hc. destruct (next_char_steps l Hs) as (l' & E); [by destruct l|].
  exists l'. split; [done|]. apply next_char_shorter in E; [by destruct E|done].
Qed.

Lemma next_ascii l : cur l <> 0 -> 0 <= cur l < 128 -> g_utf8_next_char l = Ok (drop 1 l).
Proof. destruct l as [|c l]; [done|]. intros _ Hc. by apply next_char_ascii. Qed.

Lemma newline_ascii c : newline c = true -> 0 < c < 128.
Proof. unfold newline. lia. Qed.
Lemma blank_ascii c : blank c = true -> 0 < c < 128.
Proof. unfold blank. lia. Qed.

(** The text does not end in white space. *)
Definition white (c : Z) : bool := newline c || blank c.
Definition solid (l : list Z) : Prop := forall k c, l = k ++ [c] -> white c = false.

Lemma solid_suffix l l' : solid l -> l' `suffix_of` l -> solid l'.
Proof. intros Hl [k ->] k' c ->. apply (Hl (k ++ k')). by rewrite <- app_assoc. Qed.

Lemma solid_after c l : solid (c :: l) -> white c = true -> l <> [].
Proof. intros Hs Hc ->. by rewrite (Hs [] c eq_refl) in Hc. Qed.

Lemma steps_drop l n : steps l -> steps (drop n l).
Proof. intros Hl. eapply steps_suffix; [exact Hl|]. exists (take n l). by rewrite take_drop. Qed.

Lemma drop_suffix {A} n (l : list A) : drop n l `suffix_of` l.
Proof. exists (take n l). by rewrite take_drop. Qed.

Lemma cur_drop_nonempty l : cur l <> 0 -> l <> [].
Proof. by destruct l. Qed.

Lemma next_drop l m : 0 < cur (drop m l) < 128 -> g_utf8_next_char (drop m l) = Ok (drop (S m) l).
Proof. intros Hc. rewrite next_ascii by lia. by rewrite drop_drop, Nat.add_1_r. Qed.

(** [n] bytes further, behind a white character. *)
Definition moved (l : list Z) (n : nat) : Prop :=
  (n <= length l)%nat /\ (n = 0%nat \/ exists c, l !! (n - 1)%nat = Some c /\ white c = true).

Lemma moved_0 l : moved l 0.
Proof. split; [lia|by left]. Qed.

Lemma moved_white l m : newline (cur (drop m l)) = true \/ blank (cur (drop m l)) = true -> moved l (S m).
Proof.
  intros Hc. assert (white (cur (drop m l)) = true) as Hw by (unfold white; destruct Hc as [-> | ->]; auto using orb_true_r).
  pose proof (length_drop l m). pose proof (lookup_drop l m 0) as E. rewrite Nat.add_0_r in E.
  destruct (drop m l) as [|c k]; [done|]. simpl in *. split; [lia|]. right.
  exists c. replace (S m - 1)%nat with m by lia. by rewrite <- E.
Qed.

(** [skip_newline] moves over ASCII characters only, all of them white but the equal sign. *)
Lemma skip_newline_drop l qp : exists n, skip_newline l qp = Ok (drop n l) /\ moved l n /\
  (newline (cur l) = false -> (cur l =? 61) && qp = false -> n = 0%nat).
Proof.
  unfold skip_newline.
  destruct (qp && (cur l =? 61)) eqn:Eq.
  - rewrite andb_comm, Eq. rewrite next_ascii, res_bind_Ok by lia.
    destruct (newline (cur (drop 1 l))) eqn:E1; [|exists 0%nat; auto using moved_0].
    rewrite next_drop, res_bind_Ok by by apply newline_ascii.
    destruct (newline (cur (drop 2 l)) && negb (cur (drop 2 l) =? cur (drop 1 l))) eqn:E2;
      [|exists 2%nat; split; [done|]; split; [by apply moved_white; left|done]].
    apply andb_prop in E2 as [E2 _]. rewrite next_drop, res_bind_Ok by by apply newline_ascii.
    destruct (blank (cur (drop 3 l))) eqn:E3.
    + exists 4%nat. rewrite next_drop by by apply blank_ascii. split; [done|]. split; [by apply moved_white; right|done].
    + exists 3%nat. split; [done|]. split; [by apply moved_white; left|done].
  - destruct (newline (cur l)) eqn:E1; [|exists 0%nat; auto using moved_0].
    apply newline_ascii in E1 as E1'. rewrite next_ascii, res_bind_Ok by lia.
    destruct (newline (cur (drop 1 l)) && negb (cur l =? cur (drop 1 l))) eqn:E2.
    + apply andb_prop in E2 as [E2 _]. rewrite next_drop, res_bind_Ok by by apply newline_ascii.
      destruct (blank (cur (drop 2 l))) eqn:E3; [|exists 0%nat; auto using moved_0].
      exists 3%nat. rewrite next_drop by by apply blank_ascii. split; [done|]. split; [by apply moved_white; right|done].
    + destruct (blank (cur (drop 1 l))) eqn:E3; [|exists 0%nat; auto using moved_0].
      exists 2%nat. rewrite next_drop by by apply blank_ascii. split; [done|]. split; [by apply moved_white; right|done].
Qed.

Lemma skip_newline_ok l qp : exists l', skip_newline l qp = Ok l' /\ l' `suffix_of` l /\
  (newline (cur l) = false -> (cur l =? 61) && qp = false -> l' = l) /\
  (solid l -> l <> [] -> l' <> []).
Proof.
  destruct (skip_newline_drop l qp) as (n & E & [Hn Hw] & Hsame). exists (drop n l).
  split; [done|]. split; [apply drop_suffix|]. split.
  - intros H1 H2. by rewrite (Hsame H1 H2).
  - intros Hs Hl. destruct Hw as [->|(c & Hc & Hw)]; [done|]. intros Hd.
    assert (n = length l) as -> by (pose proof (length_drop l n); rewrite Hd in *; simpl in *; lia).
    assert (white c = false) as Hf; [|congruence]. apply (Hs (take (length l - 1) l)).
    rewrite <- (take_drop (length l - 1) l) at 1. f_equal. rewrite (drop_S _ _ _ Hc). f_equal.
    destruct l; [done|]. simpl. rewrite Nat.sub_0_r. by rewrite drop_all.
Qed.
(** ** Skipping *)

Lemma skip_while_ok fuel p l : steps l -> (length l <= fuel)%nat -> p 0 = false ->
  exists l', skip_while fuel p l = Ok l' /\ l' `suffix_of` l /\ p (cur l') = false /\
    (p (cur l) = true -> behind l l') /\ (p (cur l) = false -> l' = l).
Proof.
  revert l. induction fuel as [|fuel IH]; intros l Hl Hf Hp; cbn [skip_while];
    (destruct (p (cur l)) eqn:E; cbn [negb]; [|by exists l]).
  - destruct l; [|simpl in Hf; lia]. unfold cur in E. simpl in E. congruence.
  - destruct (next_ok l Hl) as (l1 & -> & Hb); [intros E0; congruence|]. rewrite res_bind_Ok.
    destruct (IH l1) as (l' & -> & Hs & Hq & _); [by eapply steps_suffix; [|apply Hb]|destruct Hb; lia|done|].
    exists l'. split; [done|]. split; [trans l1; [done|apply Hb]|]. split; [done|]. split; [|done].
    intros _. by eapply behind_trans.
Qed.

(** Something is skipped, unless there is nothing left. *)
Lemma skip_to_next_line_ok l : steps l -> exists l', skip_to_next_line l = Ok l' /\ l' `suffix_of` l /\
  (l <> [] -> behind l l').
Proof.
  intros Hl. unfold skip_to_next_line.
  destruct (skip_while_ok (length l) (fun c => negb (line_end c)) l Hl) as (l1 & -> & Hs1 & Hp1 & Hb1 & Hsame); [done|done|].
  rewrite res_bind_Ok.
  destruct (skip_while_ok (length l1) newline l1) as (l2 & -> & Hs2 & _ & Hb2 & _); [by eapply steps_suffix|done|done|].
  exists l2. split; [done|]. split; [by trans l1|]. intros Hne.
  cbv beta in *. destruct (line_end (cur l)) eqn:E; cbn [negb] in *; [|by eapply behind_trans; [apply Hb1|]].
  rewrite (Hsame eq_refl) in *.
  apply Hb2. destruct l as [|c l]; [done|]. destruct (Hl c l) as [Hc _]; [done|]. unfold line_end in E. change (cur (c :: l)) with c in *. destruct (newline c); [done|]. cbn in E. lia.
Qed.
Lemma get_char_ascii c l : 0 < c < 128 -> g_utf8_get_char (c :: l) = c.
Proof.
  intros Hc. pose proof (get_char_utf8 c l) as E. rewrite to_utf8_ascii in E by done. apply E.
  split; [lia|by apply ascii_valid].
Qed.

Lemma steps_cur l : steps l -> l <> [] -> 0 < cur l < 256.
Proof. destruct l as [|c l]; [done|]. intros Hl _. by destruct (Hl c l). Qed.

Lemma skip_until_ok fuel s l : steps l -> (length l <= fuel)%nat ->
  exists l', skip_until fuel s l = Ok l' /\ l' `suffix_of` l /\
    ((cur l =? 13) || (cur l =? 0) || matches s l = false -> behind l l').
Proof.
  revert l. induction fuel as [|fuel IH]; intros l Hl Hf; cbn [skip_until];
    (destruct ((cur l =? 13) || (cur l =? 0) || matches s l) eqn:E; [by exists l|]).
  - destruct l; [done|simpl in Hf; lia].
  - destruct (next_ok l Hl) as (l1 & -> & Hb); [lia|]. rewrite res_bind_Ok.
    destruct (IH l1) as (l' & -> & Hs & _); [by eapply steps_suffix; [|apply Hb]|destruct Hb; lia|].
    exists l'. split; [done|]. split; [trans l1; [done|apply Hb]|]. intros _. by eapply behind_trans.
Qed.

(** ** Values *)

Lemma line_end_false l : line_end (cur l) = false -> l <> [] /\ newline (cur l) = false /\ cur l <> 0.
Proof. unfold line_end. intros Hc. destruct (newline (cur l)); [done|]. split; [by destruct l|]. simpl in Hc. lia. Qed.

Lemma value_body_ok cat qp str l : steps l -> solid l -> line_end (cur l) = false ->
  exists s, value_body cat qp str l = Ok s /\
    match s with
    | ValueBreak _ l' => l' `suffix_of` l
    | ValueNext _ l' | ValueAdd l' => behind l l'
    end.
Proof.
  intros Hl Hso Hc. apply line_end_false in Hc as (Hne & Hnl & H0). unfold value_body.
  destruct ((cur l =? 61) && qp).
  { destruct l as [|c [|a [|b l]]]; [done|..]; (eexists; split; [reflexivity|]; simpl).
    - apply suffix_nil.
    - apply suffix_nil.
    - split; [by exists [c; a; b]|simpl; lia]. }
  destruct (next_ok l Hl H0) as (l1 & E1 & Hb1). rewrite E1, !res_bind_Ok.
  destruct (cur l =? 92); [|destruct (_ || _); (eexists; split; [reflexivity|done])].
  destruct (cur l1 =? 0) eqn:E0; [eexists; split; [reflexivity|apply Hb1]|].
  destruct (skip_newline_ok l1 qp) as (l2 & -> & Hs2 & _ & Hne2). rewrite res_bind_Ok.
  assert (steps l2) as Hl2 by (eapply steps_suffix; [exact Hl|]; trans l1; [done|apply Hb1]).
  destruct (next_ok l2 Hl2) as (l3 & -> & Hb3).
  { pose proof (steps_cur l2 Hl2 (Hne2 (solid_suffix _ _ Hso (proj1 Hb1)) ltac:(by destruct l1))). lia. }
  rewrite res_bind_Ok. eexists. split; [reflexivity|]. simpl.
  eapply behind_trans; [exact Hb1|]. trans l2; [apply Hb3|done].
Qed.

Lemma value_loop_ok cat qp fuel attr str l : steps l -> solid l -> (length l < fuel)%nat ->
  exists attr' l', value_loop fuel cat qp attr str l = Ok (attr', l') /\ l' `suffix_of` l.
Proof.
  revert attr str l. induction fuel as [|fuel IH]; intros attr str l Hl Hso Hf; [lia|]. cbn [value_loop].
  destruct (skip_newline_ok l qp) as (l1 & -> & Hs1 & _). rewrite res_bind_Ok.
  destruct (line_end (cur l1)) eqn:Ec; [by eexists _, l1|].
  assert (steps l1) as Hl1 by by eapply steps_suffix. assert (solid l1) as Hso1 by by eapply solid_suffix.
  destruct (value_body_ok cat qp str l1 Hl1 Hso1 Ec) as (s & -> & Hs). rewrite res_bind_Ok.
  pose proof (suffix_length _ _ Hs1).
  assert (forall attr str l2, behind l1 l2 -> exists attr' l', value_loop fuel cat qp attr str l2 = Ok (attr', l') /\
    l' `suffix_of` l) as Hrec.
  { intros attr' str' l2 [Hb Hlt]. destruct (IH attr' str' l2) as (a & l' & E & Hs'); [by eapply steps_suffix|by eapply solid_suffix|lia|].
    exists a, l'. split; [done|]. trans l2; [done|]. by trans l1. }
  destruct s as [str' l2|str' l2|l2]; [|by apply Hrec..]. eexists _, l2. split; [reflexivity|]. by trans l1.
Qed.

Lemma read_attribute_value_ok attr l qp : steps l -> solid l ->
  exists attr' l', read_attribute_value attr l qp = Ok (attr', l') /\ l' `suffix_of` l.
Proof.
  intros Hl Hso. unfold read_attribute_value.
  destruct (value_loop_ok (same_name (name attr) (bytes "CATEGORIES")) qp (S (length l)) attr [] l) as (a & l1 & -> & Hs1);
    [done|done|lia|]. rewrite res_bind_Ok.
  destruct (skip_to_next_line_ok l1) as (l2 & -> & Hs2 & _); [by eapply steps_suffix|].
  exists a, l2. split; [done|]. by trans l1.
Qed.

(** ** Names *)

(** What the loop over the name leaves of [l]. *)
Definition name_good (l : list Z) (r : name_result) : Prop :=
  match r with
  | NameFound _ _ l' => l' `suffix_of` l /\ (cur l' = 58 \/ cur l' = 59)
  | NameLose l' => behind l l'
  | NameNone => True
  end.

Lemma name_good_behind l1 l2 r : behind l1 l2 -> name_good l2 r -> name_good l1 r.
Proof.
  intros Hb. destruct r as [g n l'|l'|]; simpl; [|intros [Hs _]; by eapply behind_trans|done].
  intros [Hs Hc]. split; [trans l2; [done|apply Hb]|done].
Qed.

Lemma name_loop_ok fuel g str l : steps l -> (length l < fuel)%nat ->
  exists r, name_loop fuel g str l = Ok r /\ name_good l r.
Proof.
  revert g str l. induction fuel as [|fuel IH]; intros g str l Hl Hf; [lia|]. cbn [name_loop].
  destruct (skip_newline_ok l false) as (l1 & -> & Hs1 & _). rewrite res_bind_Ok.
  assert (steps l1) as Hl1 by by eapply steps_suffix. pose proof (suffix_length _ _ Hs1) as Hlen1.
  destruct (line_end (cur l1)) eqn:Ec; [by eexists|]. apply line_end_false in Ec as (Hne & _ & Hc0).
  assert (forall l2, behind l1 l2 -> behind l l2) as Hb1.
  { intros l2 [Hs Hlt]. split; [by trans l1|lia]. }
  destruct (skip_to_next_line_ok l1 Hl1) as (l2 & E2 & _ & Hb2). rewrite E2, !res_bind_Ok.
  destruct ((cur l1 =? 58) || (cur l1 =? 59)) eqn:E1.
  { destruct str; (eexists; split; [reflexivity|]); simpl; [auto|]. split; [done|lia]. }
  destruct (next_ok l1 Hl1 Hc0) as (l3 & E3 & Hb3). rewrite E3, !res_bind_Ok.
  assert (forall g str, exists r, name_loop fuel g str l3 = Ok r /\ name_good l r) as Hrec.
  { intros g' str'. destruct (IH g' str' l3) as (r & -> & Hr);
      [by eapply steps_suffix; [|apply Hb3]|destruct Hb3; lia|].
    exists r. split; [done|]. eapply name_good_behind; [by apply Hb1|done]. }
  destruct (cur l1 =? 46); [destruct (match g with Some _ => [] | None => str end); apply Hrec|].
  destruct (g_unichar_isalnum _ || _ || _); [apply Hrec|]. eexists. split; [reflexivity|]. simpl. auto.
Qed.
(** ** Parameters *)

(** Twice the text that is left, and one for a parameter that is not finished. *)
Definition weight (s : params_state) : nat :=
  2 * length (ps_lp s) + match ps_param s with Some _ => 1 | None => 0 end.

(** The state that the loop stays in: at a comma, with a parameter that has values, and
    nothing read since the last one. *)
Definition stuck (s : params_state) : Prop := cur (ps_lp s) = 44 /\ params_round s = Ok (false, s).

Definition round_good (l : list Z) (w : nat) (x : bool * params_state) : Prop :=
  ps_lp x.2 `suffix_of` l /\ (x.1 = false -> (weight x.2 < w)%nat \/ stuck x.2).

Lemma round_behind l1 stop s w :
  behind l1 (ps_lp s) -> (2 * length l1 <= w)%nat -> round_good l1 w (stop, s).
Proof.
  intros [Hs Hlt] Hw. split; [done|]. intros _. left. simpl. unfold weight. destruct (ps_param s); lia.
Qed.

Lemma adv_ok l : steps l -> cur l <> 0 ->
  exists l', (if cur l =? 58 then Ok l else g_utf8_next_char l) = Ok l' /\ l' `suffix_of` l /\
    ((cur l =? 58) = false -> behind l l').
Proof.
  intros Hl Hc. destruct (cur l =? 58); [by exists l|].
  destruct (next_ok l Hl Hc) as (l' & -> & Hb). exists l'. split; [done|]. split; [apply Hb|done].
Qed.

(** The parameter, with nothing read since its last value. *)
Lemma param_end_idle s p adv : ps_param s = Some p -> ps_str s = [] -> param_values p <> [] ->
  exists o qp, param_end s adv = Ok (o, [], qp, ps_lp s) /\ (o = None \/ o = Some p /\ qp = ps_qp s).
Proof.
  intros Ep Es Hv. unfold param_end. rewrite Ep, Es. destruct (param_values p) as [|v vs] eqn:Ev; [done|].
  rewrite res_bind_Ok. cbv beta iota zeta. rewrite Ev. destruct (_ && _); eexists _, _; split; [reflexivity|by left|reflexivity|by right].
Qed.

Lemma param_end_moves s adv l' : adv = Ok l' ->
  (forall p, ps_param s = Some p -> ps_str s = [] -> param_values p = []) ->
  exists o str qp, param_end s adv = Ok (o, str, qp, l').
Proof.
  intros -> Hp. unfold param_end. destruct (ps_param s) as [p|] eqn:Ep.
  - destruct (ps_str s) as [|c str] eqn:Es.
    + rewrite (Hp p eq_refl eq_refl). rewrite !res_bind_Ok. by eexists _, _, _.
    + rewrite !res_bind_Ok. cbv beta iota zeta. destruct (_ && _); by eexists _, _, _.
  - destruct (ps_str s); [rewrite res_bind_Ok; by eexists _, _, _|]. rewrite res_bind_Ok.
    destruct (same_name _ _); [by eexists _, _, _|]. destruct (same_name _ _); by eexists _, _, _.
Qed.
(** The last branch but one of the body: a semicolon, colon or comma. *)
Definition separator (s : params_state) : res (bool * params_state) :=
  let lp := ps_lp s in
  let colon := cur lp =? 58 in
  let comma := cur lp =? 44 in
  '(param, str, qp, lp) ← param_end s (if colon then Ok lp else g_utf8_next_char lp);
  Ok (colon, match param with
    | Some p =>
        if negb comma then mkParams (e_vcard_attribute_add_param (ps_attr s) p) lp str None (in_quote s) qp
        else mkParams (ps_attr s) lp str (Some p) (in_quote s) qp
    | None => mkParams (ps_attr s) lp str None (in_quote s) qp
    end).

(** Whether nothing was read since the last value of the parameter. *)
Lemma idle_cases s :
  (exists p, ps_param s = Some p /\ ps_str s = [] /\ param_values p <> []) \/
  (forall p, ps_param s = Some p -> ps_str s = [] -> param_values p = []).
Proof.
  destruct (ps_param s) as [p|]; [|by right]. destruct (param_values p) as [|v vs] eqn:Ev; [right; congruence|].
  destruct (ps_str s); [left; exists p; by rewrite Ev|by right].
Qed.

(** A body that comes back to its state does so in the next round. *)
Lemma stuck_body s : params_body s = Ok (false, s) -> cur (ps_lp s) = 44 -> stuck s.
Proof.
  intros E Hc. split; [done|]. unfold params_round.
  destruct (skip_newline_ok (ps_lp s) (ps_qp s)) as (l & -> & _ & Hsame & _).
  rewrite Hsame by (rewrite Hc; done). rewrite res_bind_Ok. rewrite Hc. by destruct s.
Qed.

Lemma separator_ok s : steps (ps_lp s) -> cur (ps_lp s) <> 0 -> params_body s = separator s ->
  exists x, separator s = Ok x /\ round_good (ps_lp s) (weight s) x.
Proof.
  intros Hl Hc Eb. destruct (adv_ok (ps_lp s) Hl Hc) as (l' & Ea & Hs & Hb).
  destruct (idle_cases s) as [(p & Ep & Es & Hv)|Hno].
  - destruct (param_end_idle s p (if cur (ps_lp s) =? 58 then Ok (ps_lp s) else g_utf8_next_char (ps_lp s)) Ep Es Hv)
      as (o & qp & E & Ho).
    assert (separator s = Ok (cur (ps_lp s) =? 58, match o with
      | Some p => if negb (cur (ps_lp s) =? 44) then mkParams (e_vcard_attribute_add_param (ps_attr s) p) (ps_lp s) [] None (in_quote s) qp
                  else mkParams (ps_attr s) (ps_lp s) [] (Some p) (in_quote s) qp
      | None => mkParams (ps_attr s) (ps_lp s) [] None (in_quote s) qp
      end)) as E' by (unfold separator; by rewrite E).
    eexists. split; [exact E'|]. split; [by destruct o; [destruct (negb _)|]|]. intros Hcol. simpl in Hcol.
    destruct Ho as [->|[-> ->]].
    + left. unfold weight. rewrite Ep. simpl. lia.
    + destruct (cur (ps_lp s) =? 44) eqn:E44; cbn [negb]; [right|left; unfold weight; rewrite Ep; simpl; lia].
      assert (mkParams (ps_attr s) (ps_lp s) [] (Some p) (in_quote s) (ps_qp s) = s) as Eta by (destruct s; simpl in *; congruence).
      rewrite Hcol in E'. cbn [negb snd] in *. rewrite Eta in *. apply stuck_body; [by rewrite Eb|lia].
  - destruct (param_end_moves s _ l' Ea) as (o & str & qp & E).
    { exact Hno. }
    unfold separator. rewrite E, res_bind_Ok. eexists. split; [reflexivity|].
    assert (forall s', ps_lp s' = l' -> round_good (ps_lp s) (weight s) (cur (ps_lp s) =? 58, s')) as Hgood.
    { intros s' El. split; [by rewrite <- El in Hs|]. intros Hcol. apply (round_behind (ps_lp s) false); [|unfold weight; lia|done].
      rewrite El. by apply Hb. }
    apply Hgood. by destruct o; [destruct (negb _)|].
Qed.
Lemma params_body_ok s : steps (ps_lp s) -> line_end (cur (ps_lp s)) = false ->
  exists x, params_body s = Ok x /\ round_good (ps_lp s) (weight s) x.
Proof.
  intros Hl Hc. apply line_end_false in Hc as (Hne & Hnl & Hc).
  assert (2 * length (ps_lp s) <= weight s)%nat as Hw by (unfold weight; lia).
  destruct (next_ok (ps_lp s) Hl Hc) as (l1 & E1 & Hb1).
  destruct (skip_to_next_line_ok (ps_lp s) Hl) as (l2 & E2 & _ & Hb2).
  destruct (cur (ps_lp s) =? 34) eqn:Eq.
  { unfold params_body. rewrite Eq, E1, res_bind_Ok. eexists. split; [reflexivity|]. by apply (round_behind (ps_lp s)). }
  destruct (in_quote s || g_unichar_isalnum (g_utf8_get_char (ps_lp s)) || (cur (ps_lp s) =? 45) || (cur (ps_lp s) =? 95)) eqn:Ea.
  { unfold params_body. rewrite Eq, Ea, E1, res_bind_Ok. eexists. split; [reflexivity|]. by apply (round_behind (ps_lp s)). }
  destruct (cur (ps_lp s) =? 61) eqn:Ee.
  - unfold params_body. rewrite Eq, Ea, Ee. destruct (ps_str s) as [|c str] eqn:Es.
    + destruct (skip_until_ok (length (ps_lp s)) [58; 59] (ps_lp s) Hl) as (l3 & -> & Hs3 & Hb3); [done|].
      rewrite res_bind_Ok. assert (behind (ps_lp s) l3) as Hb.
      { apply Hb3. destruct (ps_lp s) as [|c l]; [done|]. change (cur (c :: l)) with c in *.
        assert (c = 61) as -> by lia. unfold matches. by rewrite get_char_ascii. }
      assert (steps l3) as Hl3 by by eapply steps_suffix.
      destruct (cur l3 =? 59) eqn:E59.
      { destruct (next_ok l3 Hl3) as (l4 & -> & Hb4); [lia|]. rewrite res_bind_Ok. eexists. split; [reflexivity|].
        apply (round_behind (ps_lp s)); [|done]. eapply behind_trans; [exact Hb|apply Hb4]. }
      destruct (cur l3 =? 58); [eexists; split; [reflexivity|]; by apply (round_behind (ps_lp s))|].
      destruct (skip_to_next_line_ok l3 Hl3) as (l4 & -> & Hs4 & _). rewrite res_bind_Ok. eexists. split; [reflexivity|].
      apply (round_behind (ps_lp s)); [|done]. by eapply behind_trans.
    + rewrite E1, res_bind_Ok. eexists. split; [reflexivity|]. by apply (round_behind (ps_lp s)).
  - destruct ((cur (ps_lp s) =? 59) || (cur (ps_lp s) =? 58) || (cur (ps_lp s) =? 44)) eqn:Esep.
    + assert (params_body s = separator s) as Eb by (unfold params_body; by rewrite Eq, Ea, Ee, Esep).
      rewrite Eb. by apply separator_ok.
    + unfold params_body. rewrite Eq, Ea, Ee, Esep, E2, res_bind_Ok. eexists. split; [reflexivity|].
      apply (round_behind (ps_lp s)); auto.
Qed.

Lemma params_round_ok s : steps (ps_lp s) -> exists x, params_round s = Ok x /\ round_good (ps_lp s) (weight s) x.
Proof.
  intros Hl. unfold params_round. destruct (skip_newline_ok (ps_lp s) (ps_qp s)) as (l & -> & Hs & _).
  rewrite res_bind_Ok. destruct (line_end (cur l)) eqn:Ec; [by eexists|].
  set (s1 := mkParams _ l _ _ _ _).
  destruct (params_body_ok s1) as (x & -> & Hs1 & Hx); [by eapply steps_suffix|done|].
  exists x. split; [done|]. split; [trans l; done|]. intros Hstop. destruct (Hx Hstop) as [Hlt|Hst]; [left|by right].
  pose proof (suffix_length _ _ Hs). unfold weight in *. simpl in *. lia.
Qed.

(** ** Ending or not *)

(** With more than [n] fuel [f] returns something in [Q], and with less it is that or nothing;
    or it never returns, which needs [why]. *)
Definition settles {A} (n : nat) (why : Prop) (Q : A -> Prop) (f : nat -> res A) : Prop :=
  (exists a, Q a /\ (forall fuel, f fuel = Ok a \/ f fuel = NoFuel) /\ forall fuel, (n < fuel)%nat -> f fuel = Ok a) \/
  (why /\ forall fuel, f fuel = NoFuel).

Lemma settles_ret {A} n why (Q : A -> Prop) x : (exists a, x = Ok a /\ Q a) -> settles n why Q (fun _ => x).
Proof. intros (a & -> & Ha). left. exists a. auto. Qed.

Lemma settles_bind {A B} n why (Q : A -> Prop) (R : B -> Prop) f (g : nat -> A -> res B) :
  settles n why Q f -> (forall a, Q a -> settles n why R (fun fuel => g fuel a)) ->
  settles n why R (fun fuel => a ← f fuel; g fuel a).
Proof.
  intros [(a & Ha & Hor & Hf)|[Hw Hf]] Hg.
  - destruct (Hg a Ha) as [(b & Hb & Hor' & Hf')|[Hw Hf']].
    + left. exists b. split; [done|]. split.
      * intros fuel. destruct (Hor fuel) as [-> | ->]; [apply Hor'|by right].
      * intros fuel Hn. rewrite Hf by done. by apply Hf'.
    + right. split; [done|]. intros fuel. destruct (Hor fuel) as [-> | ->]; [apply Hf'|done].
  - right. split; [done|]. intros fuel. by rewrite Hf.
Qed.

Lemma settles_mono {A} n n' (why why' : Prop) (Q Q' : A -> Prop) f :
  settles n why Q f -> (n <= n')%nat -> (why -> why') -> (forall a, Q a -> Q' a) -> settles n' why' Q' f.
Proof.
  intros [(a & Ha & Hor & Hf)|[Hw Hf]] Hn Hwhy HQ; [left|right; auto].
  exists a. split; [auto|]. split; [done|]. intros fuel Hlt. apply Hf. lia.
Qed.

(** A comma in the text. *)
Definition comma_in (l : list Z) : Prop := 44 ∈ l.

Lemma comma_suffix l l' : l' `suffix_of` l -> comma_in l' -> comma_in l.
Proof. intros [k ->] Hc. apply elem_of_app. by right. Qed.

Lemma stuck_comma s : stuck s -> comma_in (ps_lp s).
Proof. intros [Hc _]. destruct (ps_lp s); [done|]. unfold cur in Hc. simpl in Hc. subst. left. Qed.

Lemma stuck_forever s fuel : stuck s -> params_loop fuel s = NoFuel.
Proof. intros [_ E]. induction fuel as [|fuel IH]; [done|]. cbn [params_loop]. by rewrite E. Qed.

Lemma params_loop_settles s : steps (ps_lp s) ->
  settles (weight s) (comma_in (ps_lp s)) (fun s' => ps_lp s' `suffix_of` ps_lp s) (fun fuel => params_loop fuel s).
Proof.
  remember (weight s) as w eqn:Ew. revert s Ew. induction (lt_wf w) as [w _ IH]. intros s -> Hl.
  destruct (params_round_ok s Hl) as ([stop s'] & E & Hs & Hx). simpl in Hs, Hx.
  assert (forall fuel, params_loop (S fuel) s = if stop then Ok s' else params_loop fuel s') as Eq.
  { intros fuel. cbn [params_loop]. by rewrite E. }
  destruct stop.
  - left. exists s'. split; [done|]. split; intros [|fuel]; rewrite ?Eq; auto; lia.
  - destruct (Hx eq_refl) as [Hlt|Hst].
    + destruct (IH _ Hlt s' eq_refl) as [(a & Ha & Hor & Hf)|[Hw Hf]]; [by eapply steps_suffix|left|right].
      * exists a. split; [by trans (ps_lp s')|]. split; intros [|fuel]; rewrite ?Eq; auto; try lia. intros Hn. apply Hf. lia.
      * split; [by eapply comma_suffix|]. intros [|fuel]; rewrite ?Eq; auto.
    + right. split; [eapply comma_suffix; [exact Hs|by apply stuck_comma]|].
      intros [|fuel]; rewrite ?Eq; [done|by apply stuck_forever].
Qed.
(** ** Attributes *)

(** The text can be read. *)
Definition readable (l : list Z) : Prop := steps l /\ solid l.

Lemma readable_suffix l l' : readable l -> l' `suffix_of` l -> readable l'.
Proof. intros [Hs Hso] Hl. split; [by eapply steps_suffix|by eapply solid_suffix]. Qed.

(** The parts of [read_attribute] behind the name. *)
Definition read_params (fuel : nat) (attr : EVCardAttribute) (lp : list Z) : res (EVCardAttribute * list Z * bool) :=
  if cur lp =? 59 then
    lp ← g_utf8_next_char lp;
    '(attr, lp, is_qp) ← read_attribute_params fuel attr lp false;
    Ok (if (is_qp : bool) then set_encoding attr EVC_ENCODING_RAW (encoding_set attr) else attr, lp, is_qp)
  else Ok (attr, lp, false).

Definition read_value (attr : EVCardAttribute) (lp : list Z) (is_qp : bool) : res (EVCardAttribute * list Z) :=
  if cur lp =? 58 then lp ← g_utf8_next_char lp; read_attribute_value attr lp is_qp else Ok (attr, lp).

Lemma read_attribute_params_settles attr l qp : readable l ->
  settles (2 * length l) (comma_in l) (fun x => x.1.2 `suffix_of` l) (fun fuel => read_attribute_params fuel attr l qp).
Proof.
  intros [Hl _]. unfold read_attribute_params.
  apply (settles_bind _ _ (fun s' => ps_lp s' `suffix_of` l)); [|intros s Hs; apply settles_ret; by eexists].
  eapply settles_mono; [by apply params_loop_settles| |done|done]. unfold weight. simpl. lia.
Qed.

Lemma read_params_settles attr l : readable l ->
  settles (2 * length l) (comma_in l) (fun x => x.1.2 `suffix_of` l /\ (cur l = 59 -> behind l x.1.2))
    (fun fuel => read_params fuel attr l).
Proof.
  intros Hl. unfold read_params. destruct (cur l =? 59) eqn:Ec; [|apply settles_ret; eexists; split; [reflexivity|]].
  2:{ split; [done|]. simpl. lia. }
  destruct (next_ok l) as (l1 & -> & Hb); [apply Hl|lia|].
  apply (settles_bind _ _ (fun x => x.1.2 `suffix_of` l1)).
  - eapply settles_mono; [apply read_attribute_params_settles; by eapply readable_suffix; [|apply Hb]| | |done].
    + destruct Hb. lia.
    + apply comma_suffix, Hb.
  - intros [[a l2] q] Hs. apply settles_ret. eexists. split; [reflexivity|]. simpl in *.
    pose proof (behind_trans _ _ _ Hb Hs) as Hb2. split; [apply Hb2|done].
Qed.

Lemma read_value_ok attr l qp : readable l ->
  exists x, read_value attr l qp = Ok x /\ x.2 `suffix_of` l /\ (cur l = 58 -> behind l x.2).
Proof.
  intros Hl. unfold read_value. destruct (cur l =? 58) eqn:Ec; [|exists (attr, l); split; [done|]].
  2:{ split; [done|]. lia. }
  destruct (next_ok l) as (l1 & -> & Hb); [apply Hl|lia|]. rewrite res_bind_Ok.
  destruct (readable_suffix _ _ Hl (proj1 Hb)) as [Hs1 Hso1].
  destruct (read_attribute_value_ok attr l1 qp Hs1 Hso1) as (a & l2 & -> & Hs).
  eexists. split; [reflexivity|]. pose proof (behind_trans _ _ _ Hb Hs) as Hb2. split; [apply Hb2|done].
Qed.

Lemma read_attribute_settles l : readable l -> l <> [] ->
  settles (2 * length l) (comma_in l) (fun x => behind l x.2) (fun fuel => read_attribute fuel l).
Proof.
  intros Hl Hne. unfold read_attribute.
  destruct (name_loop_ok (S (length l)) None [] l) as (r & -> & Hr); [apply Hl|lia|].
  destruct r as [g n l1|l1|].
  - destruct Hr as [Hs1 Hc]. pose proof (readable_suffix _ _ Hl Hs1) as Hl1.
    pose proof (suffix_length _ _ Hs1) as Hlen.
    apply (settles_bind _ _ (fun x => x.1.2 `suffix_of` l1 /\ (cur l1 = 59 -> behind l1 x.1.2))
      (fun x => behind l x.2) (fun fuel => read_params fuel (e_vcard_attribute_new g n) l1)).
    + eapply settles_mono; [by apply read_params_settles|lia|by apply comma_suffix|done].
    + intros [[a l2] q] [Hs2 Hb2]. simpl in Hs2, Hb2. apply settles_ret.
      destruct (read_value_ok a l2 q) as ([a' l3] & E & Hs3 & Hb3); [by eapply readable_suffix|].
      simpl in Hs3, Hb3. eexists. split; [unfold read_value in E; by rewrite E|]. simpl.
      destruct Hc as [Hc|Hc].
      * assert (behind l1 l3) as [Hsb Hlt].
        { pose proof (suffix_length _ _ Hs2). destruct (decide (l2 = l1)) as [->|Hne2]; [by apply Hb3|].
          destruct Hs2 as [[|c k] E2]; [by subst|]. pose proof (suffix_length _ _ Hs3).
          split; [trans l2; [done|by exists (c :: k)]|subst l1; rewrite length_app; simpl; lia]. }
        split; [by trans l1|lia].
      * pose proof (behind_trans _ _ _ (Hb2 Hc) Hs3) as [Hsb Hlt]. split; [by trans l1|lia].
  - apply (settles_ret _ _ _ (Ok (None, l1))). by eexists.
  - apply (settles_ret _ _ _ (p ← skip_to_next_line l; Ok (None, p))). destruct (skip_to_next_line_ok l) as (l1 & -> & _ & Hb); [apply Hl|].
    eexists. split; [reflexivity|]. by apply Hb.
Qed.

Lemma parse_loop_settles fuel l attr attrs : readable l -> (length l <= fuel)%nat ->
  settles (2 * length l) (comma_in l) (fun _ => True) (fun pfuel => parse_loop fuel pfuel l attr attrs).
Proof.
  revert l attr attrs. induction fuel as [|fuel IH]; intros l attr attrs Hl Hf.
  - destruct l; [|simpl in Hf; lia]. apply (settles_ret _ _ _ (Ok (attr, false, attrs))). by eexists.
  - destruct l as [|c l]; [apply (settles_ret _ _ _ (Ok (attr, false, attrs))); by eexists|]. cbn [parse_loop].
    apply (settles_bind _ _ (fun x => behind (c :: l) x.2)); [by apply read_attribute_settles|].
    intros [o l1] Hb. simpl in Hb.
    assert (forall attr attrs, settles (2 * length (c :: l)) (comma_in (c :: l)) (fun _ => True)
      (fun pfuel => parse_loop fuel pfuel l1 attr attrs)) as Hrec.
    { intros attr' attrs'. destruct Hb as [Hs Hlt]. eapply settles_mono; [apply IH|lia|by apply comma_suffix|done].
      - by eapply readable_suffix.
      - simpl in *. lia. }
    destruct o as [a|]; [|apply Hrec]. destruct (negb _); [apply Hrec|]. apply settles_ret. by eexists.
Qed.
(** ** Cards *)

Lemma replacement_utf8 : utf8 [65533] = [239; 191; 189] /\ valid_char 65533.
Proof.
  destruct replacement_char as [Hv E]. split; [unfold utf8; cbn [map concat]; by rewrite E, app_nil_r|].
  split; [lia|done].
Qed.

Lemma make_valid_loop_utf8 fuel l : (length l <= fuel)%nat ->
  exists cs, make_valid_loop fuel l = utf8 cs /\ Forall valid_char cs.
Proof.
  revert l. induction fuel as [|fuel IH]; intros l Hf; cbn [make_valid_loop].
  - destruct l; [by exists []|simpl in Hf; lia].
  - destruct (g_utf8_validate l) as [n|] eqn:E; [|by apply validate_None].
    destruct (validate_Some l n E) as (Hn & cs & -> & Hcs).
    destruct (IH (drop (S n) l)) as (ds & -> & Hds); [rewrite length_drop; lia|].
    destruct replacement_utf8 as [Er Hr]. exists (cs ++ [65533] ++ ds). rewrite !utf8_app, Er. split; [done|].
    apply Forall_app. split; [done|]. by constructor.
Qed.

Lemma make_valid_utf8_valid l : exists cs, make_valid_utf8 l = utf8 cs /\ Forall valid_char cs.
Proof. by apply make_valid_loop_utf8. Qed.

Lemma make_valid_loop_comma fuel l : comma_in (make_valid_loop fuel l) -> comma_in l.
Proof.
  revert l. induction fuel as [|fuel IH]; intros l; cbn [make_valid_loop]; [done|].
  destruct (g_utf8_validate l) as [n|]; [|done]. unfold comma_in in *. rewrite !elem_of_app.
  intros [Hc|[Hc|Hc]].
  - apply elem_of_take in Hc as (i & Hi & _). by eapply list_elem_of_lookup_2.
  - rewrite !elem_of_cons, elem_of_nil in Hc. by destruct Hc as [?|[?|[?|?]]].
  - apply IH in Hc. by eapply comma_suffix; [apply drop_suffix|].
Qed.

Lemma make_valid_loop_solid fuel l : solid l -> solid (make_valid_loop fuel l).
Proof.
  revert l. induction fuel as [|fuel IH]; intros l Hl; cbn [make_valid_loop]; [done|].
  destruct (g_utf8_validate l) as [n|]; [|done].
  pose proof (IH (drop (S n) l) (solid_suffix _ _ Hl (drop_suffix _ _))) as Hr.
  destruct (make_valid_loop fuel (drop (S n) l)) as [|c r _] using rev_ind; intros k d E.
  - rewrite app_assoc in E. change [239; 191; 189] with ([239; 191] ++ [189]) in E. rewrite app_nil_r, app_assoc in E.
    by apply app_inj_tail in E as [_ <-].
  - rewrite !app_assoc in E. apply app_inj_tail in E as [_ <-]. by apply (Hr r).
Qed.

Lemma make_valid_utf8_nonempty l : l <> [] -> make_valid_utf8 l <> [].
Proof.
  destruct l as [|c l]; [done|]. intros _. unfold make_valid_utf8. cbn [length make_valid_loop].
  destruct (g_utf8_validate (c :: l)) as [n|]; [|done]. by destruct (take n (c :: l)).
Qed.

Lemma make_valid_utf8_readable l : solid l -> readable (make_valid_utf8 l).
Proof.
  intros Hl. split; [|by apply make_valid_loop_solid].
  destruct (make_valid_utf8_valid l) as (cs & -> & Hcs). by apply steps_utf8.
Qed.

Lemma parse_settles evc str : solid str -> str <> [] ->
  settles (2 * length (make_valid_utf8 str)) (comma_in str) (fun _ => True) (fun fuel => parse fuel evc str).
Proof.
  intros Hs Hne. set (buf := make_valid_utf8 str). pose proof (make_valid_utf8_readable str Hs) as Hb. fold buf in Hb.
  eapply (settles_mono _ _ (comma_in buf) _ (fun _ => True)); [|done|apply (make_valid_loop_comma (length str))|done]. unfold parse. fold buf.
  apply (settles_bind _ _ (fun x => behind buf x.2)).
  { apply read_attribute_settles; [done|by apply make_valid_utf8_nonempty]. }
  intros [attr p] [Hp Hlt]. simpl in Hp, Hlt.
  destruct (match attr with Some a => _ | None => _ end) as [attr' attrs].
  apply (settles_bind _ _ (fun _ => True)).
  - eapply settles_mono; [apply parse_loop_settles; [by eapply readable_suffix|done]|lia|by apply comma_suffix|done].
  - intros [[a e] l] _. apply settles_ret. eexists. split; [reflexivity|exact I].
Qed.
End steps.

(** C10: reading a text that does not end in white space never has undefined behaviour: either it
    returns a card, whenever it may take more rounds per loop than twice the length of the
    text, or it never returns, and that only if there is a comma in the text. *)
Theorem vcard_parse_ends `{GLib} (str : list Z) :
  GLibLaws _ -> solid str ->
  (exists evc, forall fuel, (2 * length (make_valid_utf8 str) < fuel)%nat -> e_vcard_new_from_string fuel str = Ok evc) \/
  (44 ∈ str /\ forall fuel, e_vcard_new_from_string fuel str = NoFuel).
Proof.
  intros HG Hs. unfold e_vcard_new_from_string, e_vcard_construct. destruct str as [|c str]; [left; by eexists|].
  destruct (parse_settles HG (mkVCard []) (c :: str) Hs) as [(evc & _ & _ & Hf)|Hw]; [done|left|by right].
  by exists evc.
Qed.

#[local] Existing Instance Utf8Instance.glib.

Lemma vcard_parse_ends_witness :
  let str := bytes "X;P=a,,b:v" in
  (exists evc, forall fuel, (2 * length (make_valid_utf8 str) < fuel)%nat -> e_vcard_new_from_string fuel str = Ok evc) \/
  (44 ∈ str /\ forall fuel, e_vcard_new_from_string fuel str = NoFuel).
Proof.
  intros str. apply (vcard_parse_ends str).
  - exact Utf8Instance.glib_laws.
  - intros k c E. assert (last str = Some c) as El by (rewrite E; apply last_snoc). vm_compute in El. by injection El as <-.
Defined.

(** Two commas: the reader does not end. *)
Example vcard_comma_loops : e_vcard_new_from_string 1000 (bytes "X;P=a,,b:v") = NoFuel.
Proof. vm_compute. reflexivity. Qed.

(** A backslash at the end, in front of a folded line without text: the reader goes on behind the
    terminator. *)
Example vcard_overread : e_vcard_new_from_string 1000 (bytes "X:v\" ++ [13; 10; 32]) = Undef.
Proof. vm_compute. reflexivity. Qed.

(** END alone: the attribute that is freed is the one in the list. *)
Example vcard_end_freed : e_vcard_new_from_string 1000 (bytes "END:VCARD") = Ok (mkVCard [None]).
Proof. vm_compute. reflexivity. Qed.
