(* ===== verification/VCardRoundSpec.v ===== *)
(** * vCards: round trip

    The reader gives back the attributes that the writer wrote, with line ends in values
    as newlines and the parameters in reverse order. *)

From S2P Require Import Prelude CString GLibUtf8 VCard VCardSpec.
From Stdlib Require Import(notations) String.
#[local] Open Scope Z_scope.
#[local] Open Scope list_scope.

(** ** What is written *)

(** Line ends as newlines. *)
Fixpoint newlines (l : list Z) : list Z :=
  match l with
  | [] => []
  | c :: l' =>
      if c =? 13 then 10 :: match l' with d :: l'' => if d =? 10 then newlines l'' else newlines l' | [] => [] end
      else c :: newlines l'
  end.

(** A character that is no carriage return, escaped. *)
Definition esc (c : Z) : list Z :=
  if c =? 10 then [92; 110] else if c =? 59 then [92; 59] else if c =? 44 then [92; 44]
  else if c =? 92 then [92; 92] else [c].

(** The characters of names. *)
Definition name_char `{GLib} (c : Z) : Prop :=
  valid_char c /\ g_unichar_isalnum c || (c =? 45) || (c =? 95) = true.

Definition is_name `{GLib} (cs : list Z) : Prop := cs <> [] /\ Forall name_char cs.

(** Induction for functions that look at the next character. *)
Lemma list_ind2 {A} (Q : list A -> Prop) :
  Q [] -> (forall a, Q [a]) -> (forall a b l, Q l -> Q (b :: l) -> Q (a :: b :: l)) -> forall l, Q l.
Proof.
  intros H0 H1 H2 l. enough (Q l /\ forall a, Q (a :: l)) as [? _] by done.
  induction l as [|b l [IH IHc]]; split; auto.
Qed.

Section written.
Context `{GLib} (HG : GLibLaws _).

Lemma ascii_char c : 0 < c < 128 -> valid_char c.
Proof. intros Hc. split; [lia|by apply ascii_valid]. Qed.

Lemma ascii_text s : Forall (fun c => 0 < c < 128) s -> s = utf8 s /\ Forall valid_char s.
Proof. intros Hs. split; [by rewrite utf8_ascii|]. eapply Forall_impl; [exact Hs|]. intros c. apply ascii_char. Qed.

Lemma high_bytes c : valid_char c -> 128 <= c -> Forall (fun b => 128 <= b) (g_unichar_to_utf8 c).
Proof.
  intros Hc Hge. destruct (to_utf8_high c Hc Hge) as (b & bs & -> & _ & Hb & Hbs). constructor; [lia|].
  eapply Forall_impl; [exact Hbs|]. intros d [Hd _]. lia.
Qed.

Lemma escape_high bs l : Forall (fun b => 128 <= b) bs ->
  e_vcard_escape_string (bs ++ l) = bs ++ e_vcard_escape_string l.
Proof.
  induction 1 as [|b bs Hb _ IH]; [done|]. cbn [app e_vcard_escape_string].
  destruct (Z.eqb_spec b 10), (Z.eqb_spec b 13), (Z.eqb_spec b 59), (Z.eqb_spec b 44), (Z.eqb_spec b 92); try lia.
  by rewrite IH.
Qed.

Lemma newlines_high bs l : Forall (fun b => 128 <= b) bs -> newlines (bs ++ l) = bs ++ newlines l.
Proof.
  induction 1 as [|b bs Hb _ IH]; [done|]. cbn [app newlines]. destruct (Z.eqb_spec b 13); [lia|]. by rewrite IH.
Qed.

Lemma utf8_cases c : valid_char c ->
  c < 128 /\ g_unichar_to_utf8 c = [c] \/
  128 <= c /\ Forall (fun b => 128 <= b) (g_unichar_to_utf8 c).
Proof.
  intros Hc. destruct (Z.lt_ge_cases c 128) as [Hlt|Hge]; [left|right].
  - split; [done|]. apply to_utf8_ascii. destruct Hc. lia.
  - split; [done|]. by apply high_bytes.
Qed.

(** The newline behind a carriage return is a byte and a character. *)
Lemma utf8_head c cs : valid_char c -> (cur (g_unichar_to_utf8 c ++ utf8 cs) =? 10) = (c =? 10).
Proof.
  intros Hc. destruct (cur_utf8 HG c (utf8 cs) Hc) as (b & -> & _ & H1 & H2).
  destruct (Z.lt_ge_cases c 128); [by rewrite H1|]. specialize (H2 ltac:(done)). lia.
Qed.
Lemma newlines_return d l : newlines (13 :: d :: l) = 10 :: if d =? 10 then newlines l else newlines (d :: l).
Proof. reflexivity. Qed.

Lemma newlines_other c l : c <> 13 -> newlines (c :: l) = c :: newlines l.
Proof. intros Hc. cbn [newlines]. by destruct (Z.eqb_spec c 13). Qed.

Lemma escape_return l : e_vcard_escape_string (13 :: l) =
  [92; 110] ++ if cur l =? 10 then e_vcard_escape_string (drop 1 l) else e_vcard_escape_string l.
Proof. by destruct l. Qed.

(** Escaping the bytes is escaping the characters. *)
Lemma escape_utf8 cs : Forall valid_char cs -> e_vcard_escape_string (utf8 cs) = utf8 (concat (map esc (newlines cs))).
Proof.
  assert (forall c cs, valid_char c -> c <> 13 -> e_vcard_escape_string (utf8 (c :: cs)) =
    utf8 (esc c) ++ e_vcard_escape_string (utf8 cs)) as Hother.
  { intros c ds Hc Hn. rewrite utf8_cons. unfold esc. destruct (utf8_cases c Hc) as [[Hlt E]|[Hge Hb]].
    - rewrite E. cbn [app e_vcard_escape_string]. destruct (Z.eqb_spec c 13); [done|].
      destruct (c =? 10), (c =? 59), (c =? 44), (c =? 92);
        try (rewrite (utf8_ascii HG [92; _]) by (repeat constructor; lia); done).
      unfold utf8. cbn [map concat]. by rewrite E.
    - rewrite escape_high by done.
      destruct (Z.eqb_spec c 10), (Z.eqb_spec c 59), (Z.eqb_spec c 44), (Z.eqb_spec c 92); try lia.
      unfold utf8 at 2. cbn [map concat]. by rewrite app_nil_r. }
  assert (utf8 (esc 10) = [92; 110]) as E10 by (apply (utf8_ascii HG); repeat constructor; lia).
  induction cs as [|c|c d cs IH IHd] using list_ind2; intros Hcs; [done|..].
  - apply Forall_cons in Hcs as [Hc _]. destruct (decide (c = 13)) as [->|Hn].
    + change (concat (map esc (newlines [13]))) with [92; 110].
      by rewrite (utf8_ascii HG [92; 110]), (utf8_ascii HG [13]) by (repeat constructor; lia).
    + rewrite Hother by done. cbn [newlines]. destruct (Z.eqb_spec c 13); [done|]. cbn [map concat].
      by rewrite app_nil_r, app_nil_r.
  - apply Forall_cons in Hcs as [Hc Hcs]. destruct (decide (c = 13)) as [->|Hn].
    + rewrite utf8_cons, to_utf8_ascii by lia. cbn [app]. rewrite escape_return, newlines_return.
      rewrite map_cons, concat_cons, utf8_app, E10. f_equal.
      pose proof Hcs as Hcs'. apply Forall_cons in Hcs' as [Hd Hcs']. rewrite (utf8_cons d), (utf8_head d cs Hd).
      destruct (d =? 10) eqn:Ed; [|by rewrite <- IHd].
      assert (d = 10) as -> by lia. rewrite to_utf8_ascii by lia. by apply IH.
    + rewrite Hother, IHd, (newlines_other c) by done. by rewrite map_cons, concat_cons, utf8_app.
Qed.
Lemma newlines_utf8 cs : Forall valid_char cs -> newlines (utf8 cs) = utf8 (newlines cs).
Proof.
  assert (forall l, newlines (13 :: l) = 10 :: if cur l =? 10 then newlines (drop 1 l) else newlines l) as Hret.
  { intros [|d l]; [done|]. cbn [newlines]. done. }
  assert (forall c cs, valid_char c -> c <> 13 -> newlines (utf8 (c :: cs)) = g_unichar_to_utf8 c ++ newlines (utf8 cs)) as Hother.
  { intros c ds Hc Hn. rewrite utf8_cons. destruct (utf8_cases c Hc) as [[Hlt E]|[Hge Hb]].
    - rewrite E. cbn [app]. by rewrite newlines_other.
    - by rewrite newlines_high. }
  assert (g_unichar_to_utf8 10 = [10]) as E10 by (apply to_utf8_ascii; lia).
  induction cs as [|c|c d cs IH IHd] using list_ind2; intros Hcs; [done|..]; apply Forall_cons in Hcs as [Hc Hcs];
    (destruct (decide (c = 13)) as [->|Hn]; [|rewrite Hother, (newlines_other c), (utf8_cons c) by done]).
  - change (newlines [13]) with [10]. by rewrite !(utf8_ascii HG) by (repeat constructor; lia).
  - done.
  - rewrite utf8_cons, to_utf8_ascii by lia. cbn [app]. rewrite Hret, newlines_return, (utf8_cons 10), E10. cbn [app]. f_equal.
    pose proof Hcs as Hcs'. apply Forall_cons in Hcs' as [Hd Hcs']. rewrite (utf8_cons d), (utf8_head d cs Hd).
    destruct (d =? 10) eqn:Ed; [|by rewrite <- IHd].
    assert (d = 10) as -> by lia. rewrite E10. by apply IH.
  - by rewrite IHd.
Qed.

Lemma newlines_chars cs : Forall valid_char cs -> Forall (fun c => valid_char c /\ c <> 13) (newlines cs).
Proof.
  induction cs as [|c|c d cs IH IHd] using list_ind2; intros Hcs; [constructor|..]; apply Forall_cons in Hcs as [Hc Hcs];
    (destruct (decide (c = 13)) as [->|Hn]; [|rewrite newlines_other by done; constructor; [done|]]).
  - constructor; [|constructor]. split; [by apply ascii_char|done].
  - constructor.
  - rewrite newlines_return. constructor; [split; [by apply ascii_char|done]|].
    destruct (d =? 10); [|by apply IHd]. apply Forall_cons in Hcs as [_ Hcs]. by apply IH.
  - by apply IHd.
Qed.

(** The first byte of a character is compared like the character. *)
Lemma cur_eqb c l k : valid_char c -> 0 <= k < 128 -> (cur (g_unichar_to_utf8 c ++ l) =? k) = (c =? k).
Proof.
  intros Hc Hk. destruct (cur_utf8 HG c l Hc) as (b & -> & Hb & H1 & H2). destruct Hc as [Hp _].
  destruct (Z.lt_ge_cases c 128); [by rewrite H1|]. specialize (H2 ltac:(done)). lia.
Qed.

Lemma append_char_utf8 str c l : valid_char c -> append_char str (g_unichar_to_utf8 c ++ l) = str ++ utf8 [c].
Proof. intros Hc. unfold append_char, utf8. cbn [map concat]. by rewrite get_char_utf8, app_nil_r. Qed.

(** ** Reading values *)

Lemma line_end_char c l : valid_char c -> newline c = false -> line_end (cur (g_unichar_to_utf8 c ++ l)) = false.
Proof.
  intros Hc Hn. unfold line_end, newline in *. rewrite !cur_eqb by (done || lia). destruct Hc. lia.
Qed.

Lemma folds_cur_nonzero c cs t rest : folds (c :: cs) t -> valid_char c -> (cur (t ++ rest) =? 0) = false.
Proof.
  intros Ht Hc. inversion Ht as [|? ? t' Ht' E1 E2|? ? t' Ht' E1 E2]; subst; [|done].
  rewrite <- app_assoc, cur_eqb by (done || lia). destruct Hc. lia.
Qed.

(** An escape, folded. *)
Lemma value_loop_escape fuel cat attr str x r cs t rest :
  folds (92 :: x :: cs) t -> 0 < x < 128 -> newline x = false -> (forall l, unescape (x :: l) = r) ->
  exists t', folds cs t' /\
    value_loop (S fuel) cat false attr str (t ++ rest) = value_loop fuel cat false attr (str ++ r) (t' ++ rest).
Proof.
  intros Ht Hx Hnx Hun. cbn [value_loop]. pose proof (ascii_char x Hx) as Hvx.
  destruct (folds_read HG 92 (x :: cs) t rest Ht) as (t1 & Ht1 & ->); [by apply ascii_char|done|].
  destruct (folds_read HG x cs t1 rest Ht1) as (t2 & Ht2 & E2); [done|done|].
  exists t2. split; [done|]. rewrite res_bind_Ok, to_utf8_ascii by lia. cbn [app]. unfold value_body.
  change (line_end (cur (92 :: ?l))) with false. change ((cur (92 :: ?l) =? 61) && false) with false.
  change (cur (92 :: ?l) =? 92) with true. cbv iota. rewrite (next_char_ascii HG), res_bind_Ok by lia.
  rewrite (folds_cur_nonzero x cs t1 rest Ht1 Hvx), E2, res_bind_Ok, to_utf8_ascii by lia.
  cbn [app]. rewrite (next_char_ascii HG), !res_bind_Ok by lia. by rewrite Hun.
Qed.

(** A character of a value, written with its escape and folded. *)
Lemma value_loop_char fuel cat attr str v cs t rest :
  valid_char v -> v <> 13 -> folds (esc v ++ cs) t ->
  exists t', folds cs t' /\
    value_loop (S fuel) cat false attr str (t ++ rest) = value_loop fuel cat false attr (str ++ utf8 [v]) (t' ++ rest).
Proof.
  intros Hv H13 Ht.
  assert (forall k, 0 < k < 128 -> utf8 [k] = [k]) as Hu by (intros k Hk; apply (utf8_ascii HG); constructor; [exact Hk|constructor]).
  unfold esc in Ht.
  destruct (Z.eqb_spec v 10) as [->|N10]; [rewrite Hu by lia; by apply (value_loop_escape _ _ _ _ 110)|].
  destruct (Z.eqb_spec v 59) as [->|N59]; [rewrite Hu by lia; by apply (value_loop_escape _ _ _ _ 59)|].
  destruct (Z.eqb_spec v 44) as [->|N44]; [rewrite Hu by lia; by apply (value_loop_escape _ _ _ _ 44)|].
  destruct (Z.eqb_spec v 92) as [->|N92]; [rewrite Hu by lia; by apply (value_loop_escape _ _ _ _ 92)|].
  assert (newline v = false) as Hnl by (unfold newline; lia). cbn [value_loop].
  destruct (folds_read HG v cs t rest Ht Hv Hnl) as (t1 & Ht1 & ->). exists t1. split; [done|].
  rewrite res_bind_Ok, line_end_char by done. unfold value_body. rewrite !cur_eqb by (done || lia).
  rewrite andb_false_r. destruct (Z.eqb_spec v 92), (Z.eqb_spec v 59), (Z.eqb_spec v 44); try done. cbn [orb andb].
  rewrite next_char_utf8, !res_bind_Ok by done. by rewrite append_char_utf8.
Qed.
Lemma value_loop_chars cat attr str vs cs t rest fuel :
  Forall (fun c => valid_char c /\ c <> 13) vs -> folds (concat (map esc vs) ++ cs) t ->
  exists t', folds cs t' /\
    value_loop (length vs + fuel) cat false attr str (t ++ rest) = value_loop fuel cat false attr (str ++ utf8 vs) (t' ++ rest).
Proof.
  intros Hvs. revert str t. induction Hvs as [|v vs [Hv H13] _ IH]; intros str t Ht.
  - exists t. split; [done|]. by rewrite app_nil_r.
  - cbn [map concat] in Ht. rewrite <- app_assoc in Ht.
    destruct (value_loop_char (length vs + fuel) cat attr str v _ t rest Hv H13 Ht) as (t1 & Ht1 & E1).
    destruct (IH (str ++ utf8 [v]) t1 Ht1) as (t2 & Ht2 & E2). exists t2. split; [done|].
    cbn [length plus]. by rewrite E1, E2, <- app_assoc, <- utf8_app.
Qed.

Lemma value_loop_sep (cat : bool) attr str cs t rest fuel : folds ((if cat then 44 else 59) :: cs) t ->
  exists t', folds cs t' /\
    value_loop (S fuel) cat false attr str (t ++ rest) =
    value_loop fuel cat false (e_vcard_attribute_add_value attr (c_string str)) [] (t' ++ rest).
Proof.
  intros Ht. cbn [value_loop]. destruct cat;
    (destruct (folds_read HG _ cs t rest Ht) as (t1 & Ht1 & ->); [by apply ascii_char|done|]; exists t1;
     split; [done|]; rewrite res_bind_Ok, to_utf8_ascii by lia; cbn [app]; unfold value_body).
  - change (line_end (cur (44 :: ?l))) with false. cbn [andb]. change (cur (44 :: ?l)) with 44. cbn [Z.eqb Pos.eqb orb andb].
    by rewrite (next_char_ascii HG), !res_bind_Ok by lia.
  - change (line_end (cur (59 :: ?l))) with false. cbn [andb]. change (cur (59 :: ?l)) with 59. cbn [Z.eqb Pos.eqb orb andb].
    by rewrite (next_char_ascii HG), !res_bind_Ok by lia.
Qed.

(** What follows a line: its end, and [k] that does not continue it; or nothing. *)
Definition line_stop (rest k : list Z) : Prop :=
  rest = [] /\ k = [] \/ rest = CRLF ++ k /\ newline (cur k) = false /\ blank (cur k) = false.

Lemma line_stop_stays rest k : line_stop rest k -> skip_newline rest false = Ok rest /\ line_end (cur rest) = true.
Proof.
  intros [[-> ->]|(-> & Hn & Hb)]; [done|]. split; [|done]. unfold skip_newline, CRLF. cbn [app andb].
  change (newline (cur (13 :: ?l))) with true. cbv iota. rewrite (next_char_ascii HG), res_bind_Ok by lia.
  change (newline (cur (10 :: ?l)) && negb (cur (13 :: ?j) =? cur (10 :: ?l))) with true. cbv iota.
  rewrite (next_char_ascii HG), res_bind_Ok by lia. by rewrite Hb.
Qed.

Lemma skip_to_next_line_stop rest k : line_stop rest k -> skip_to_next_line rest = Ok k.
Proof.
  intros [[-> ->]|(-> & Hn & _)]; [done|].
  unfold skip_to_next_line, CRLF. cbn [app length skip_while].
  change (line_end (cur (13 :: ?l))) with true. cbn [negb]. rewrite res_bind_Ok. cbn [length skip_while].
  change (newline (cur (13 :: ?l))) with true. cbn [negb]. rewrite (next_char_ascii HG), res_bind_Ok by lia.
  change (newline (cur (10 :: ?l))) with true. cbn [negb]. rewrite (next_char_ascii HG), res_bind_Ok by lia.
  destruct (length k); cbn [skip_while]; by rewrite Hn.
Qed.

(** The characters of the values of an attribute. *)
Fixpoint values_chars (sep : Z) (vs : list (list Z)) : list Z :=
  match vs with
  | [] => []
  | [v] => concat (map esc (newlines v))
  | v :: vs => concat (map esc (newlines v)) ++ [sep] ++ values_chars sep vs
  end.

Lemma write_values_utf8 sep vs : valid_char sep -> g_unichar_to_utf8 sep = [sep] -> Forall (Forall valid_char) vs ->
  write_values sep (map utf8 vs) = utf8 (values_chars sep vs).
Proof.
  intros Hs Es Hvs. induction Hvs as [|v [|w vs] Hv _ IH]; [done|by apply escape_utf8|].
  change (e_vcard_escape_string (utf8 v) ++ [sep] ++ write_values sep (map utf8 (w :: vs)) =
    utf8 (concat (map esc (newlines v)) ++ [sep] ++ values_chars sep (w :: vs))).
  rewrite IH, escape_utf8, !utf8_app by done. do 2 f_equal. unfold utf8. cbn [map concat]. by rewrite Es.
Qed.

Lemma c_string_utf8 cs : Forall valid_char cs -> c_string (utf8 cs) = utf8 cs.
Proof.
  intros Hcs. apply c_string_id. pose proof (steps_utf8 HG cs Hcs) as Hs.
  intros (k1 & k2 & E)%list_elem_of_split. destruct (Hs 0 k2) as [? _]; [by exists k1|lia].
Qed.

Lemma esc_length vs : (length vs <= length (concat (map esc vs)))%nat.
Proof.
  induction vs as [|v vs IH]; [done|]. cbn [map concat length]. rewrite length_app.
  assert (0 < length (esc v))%nat; [|lia]. unfold esc. repeat case_match; simpl; lia.
Qed.

(** Reading the values of a folded line. *)
Lemma value_loop_values (cat : bool) attr vs t rest k fuel :
  Forall (Forall valid_char) vs -> vs <> [] -> line_stop rest k ->
  folds (values_chars (if cat then 44 else 59) vs) t -> (length (values_chars (if cat then 44 else 59) vs) < fuel)%nat ->
  value_loop fuel cat false attr [] (t ++ rest) =
    Ok (foldl e_vcard_attribute_add_value attr (map (fun v => utf8 (newlines v)) vs), rest).
Proof.
  intros Hvs Hne Hr. revert attr t fuel. induction Hvs as [|v [|w vs] Hv _ IH]; intros attr t fuel Ht Hf; [done|..];
    pose proof (newlines_chars v Hv) as Hnv; pose proof (esc_length (newlines v)) as Hlen;
    assert (c_string (utf8 (newlines v)) = utf8 (newlines v)) as Ec
      by (apply c_string_utf8; eapply Forall_impl; [exact Hnv|]; by intros c []).
  - cbn [values_chars] in *. replace fuel with (length (newlines v) + S (fuel - S (length (newlines v))))%nat by lia.
    rewrite <- (app_nil_r (concat _)) in Ht.
    destruct (value_loop_chars cat attr [] _ [] t rest (S (fuel - S (length (newlines v)))) Hnv Ht) as (t1 & Ht1 & ->).
    inversion Ht1; subst. cbn [app value_loop]. destruct (line_stop_stays rest k Hr) as [-> Hend].
    rewrite res_bind_Ok, Hend. cbn [map foldl]. by rewrite Ec.
  - change (values_chars _ (v :: w :: vs)) with
      (concat (map esc (newlines v)) ++ [if cat then 44 else 59] ++ values_chars (if cat then 44 else 59) (w :: vs)) in *.
    rewrite !length_app in Hf. cbn [length] in Hf.
    replace fuel with (length (newlines v) + S (fuel - S (length (newlines v))))%nat by lia.
    destruct (value_loop_chars cat attr [] _ _ t rest (S (fuel - S (length (newlines v)))) Hnv Ht) as (t1 & Ht1 & ->).
    destruct (value_loop_sep cat attr (utf8 (newlines v)) _ t1 rest (fuel - S (length (newlines v))) Ht1) as (t2 & Ht2 & E2).
    cbn [app]. rewrite E2, IH by (done || lia). by rewrite Ec.
Qed.
(** ** Reading names *)

Lemma name_char_other c : name_char c ->
  newline c = false /\ c <> 34 /\ c <> 44 /\ c <> 46 /\ c <> 58 /\ c <> 59 /\ c <> 61.
Proof.
  intros [Hc Hn]. destruct (Z.lt_ge_cases c 128) as [Hlt|Hge]; [|unfold newline; repeat split; lia].
  destruct Hc as [Hp _]. rewrite isalnum_ascii in Hn by lia. unfold ascii_alnum in Hn. unfold newline. repeat split; lia.
Qed.

Lemma name_test c l : name_char c ->
  g_unichar_isalnum (g_utf8_get_char (g_unichar_to_utf8 c ++ l)) || (cur (g_unichar_to_utf8 c ++ l) =? 45)
  || (cur (g_unichar_to_utf8 c ++ l) =? 95) = true.
Proof. intros [Hc Hn]. by rewrite get_char_utf8, !cur_eqb by (done || lia). Qed.

Lemma name_loop_chars g str ds cs t rest fuel : Forall name_char ds -> folds (ds ++ cs) t ->
  exists t', folds cs t' /\ name_loop (length ds + fuel) g str (t ++ rest) = name_loop fuel g (str ++ utf8 ds) (t' ++ rest).
Proof.
  intros Hds. revert str t. induction Hds as [|c ds Hc _ IH]; intros str t Ht; [exists t; by rewrite app_nil_r|].
  destruct (name_char_other c Hc) as (Hn & _ & _ & H46 & H58 & H59 & _). pose proof Hc as [Hv _].
  destruct (folds_read HG c (ds ++ cs) t rest Ht Hv Hn) as (t1 & Ht1 & E1).
  destruct (IH (str ++ utf8 [c]) t1 Ht1) as (t2 & Ht2 & E2). exists t2. split; [done|].
  cbn [length plus name_loop]. rewrite E1, res_bind_Ok, line_end_char, name_test by done. rewrite !cur_eqb by (done || lia).
  destruct (Z.eqb_spec c 58), (Z.eqb_spec c 59), (Z.eqb_spec c 46); try done. cbn [orb].
  rewrite next_char_utf8, res_bind_Ok, append_char_utf8, E2 by done. by rewrite <- app_assoc, <- utf8_app.
Qed.

Lemma name_loop_dot str cs t rest fuel : str <> [] -> folds (46 :: cs) t ->
  exists t', folds cs t' /\ name_loop (S fuel) None str (t ++ rest) = name_loop fuel (Some str) [] (t' ++ rest).
Proof.
  intros Hstr Ht. destruct (folds_read HG 46 cs t rest Ht) as (t1 & Ht1 & E1); [by apply ascii_char|done|].
  exists t1. split; [done|]. cbn [name_loop]. rewrite E1, res_bind_Ok, to_utf8_ascii by lia. cbn [app].
  change (line_end (cur (46 :: ?l))) with false. change (cur (46 :: ?l)) with 46. cbn [Z.eqb Pos.eqb orb].
  rewrite (next_char_ascii HG), res_bind_Ok by lia. by destruct str.
Qed.

Lemma name_loop_end g str sep cs t rest fuel : sep = 58 \/ sep = 59 -> str <> [] -> folds (sep :: cs) t ->
  exists t', folds cs t' /\ name_loop (S fuel) g str (t ++ rest) = Ok (NameFound g str (sep :: t' ++ rest)).
Proof.
  intros Hsep Hstr Ht. destruct (folds_read HG sep cs t rest Ht) as (t1 & Ht1 & E1);
    [by apply ascii_char; lia|by destruct Hsep as [-> | ->]|]. exists t1. split; [done|].
  cbn [name_loop]. rewrite E1, res_bind_Ok, to_utf8_ascii by lia. cbn [app].
  by destruct Hsep as [-> | ->], str.
Qed.

(** The group and the name of an attribute. *)
Definition name_chars (g : option (list Z)) (n : list Z) : list Z :=
  match g with Some g => g ++ [46] | None => [] end ++ n.

Lemma utf8_nonempty cs : cs <> [] -> Forall valid_char cs -> utf8 cs <> [].
Proof.
  destruct cs as [|c cs]; [done|]. intros _ Hcs. apply Forall_cons in Hcs as [Hc _]. rewrite utf8_cons.
  by destruct (to_utf8_nonempty HG c Hc) as (b & bs & -> & _).
Qed.

Lemma is_name_bytes cs : is_name cs -> utf8 cs <> [].
Proof.
  intros [Hne Hcs]. apply utf8_nonempty; [done|]. eapply Forall_impl; [exact Hcs|]. by intros c [].
Qed.

Lemma name_loop_names g n sep cs t rest fuel :
  match g with Some g => is_name g | None => True end -> is_name n -> sep = 58 \/ sep = 59 ->
  folds (name_chars g n ++ sep :: cs) t -> (length (name_chars g n) < fuel)%nat ->
  exists t', folds cs t' /\ name_loop fuel None [] (t ++ rest) = Ok (NameFound (utf8 <$> g) (utf8 n) (sep :: t' ++ rest)).
Proof.
  intros Hg Hn Hsep Ht Hf. unfold name_chars in *.
  assert (forall g fuel t, folds (n ++ sep :: cs) t -> (length n < fuel)%nat ->
    exists t', folds cs t' /\ name_loop fuel g [] (t ++ rest) = Ok (NameFound g (utf8 n) (sep :: t' ++ rest))) as Hname.
  { intros g' fuel' t1 Ht1 Hf'. replace fuel' with (length n + S (fuel' - S (length n)))%nat by lia.
    destruct (name_loop_chars g' [] n _ t1 rest (S (fuel' - S (length n))) (proj2 Hn) Ht1) as (t2 & Ht2 & ->).
    apply name_loop_end; [done|by apply is_name_bytes|done]. }
  destruct g as [g|]; [|by apply Hname]. rewrite <- !app_assoc in Ht. rewrite !length_app in Hf. cbn [length] in Hf.
  replace fuel with (length g + S (fuel - S (length g)))%nat by lia.
  destruct (name_loop_chars None [] g _ t rest (S (fuel - S (length g))) (proj2 Hg) Ht) as (t1 & Ht1 & ->).
  destruct (name_loop_dot (utf8 g) _ t1 rest (fuel - S (length g)) (is_name_bytes g Hg) Ht1) as (t2 & Ht2 & E2).
  cbn [app]. rewrite E2. apply Hname; [done|lia].
Qed.
(** ** Reading parameters *)

Abbreviation at_params attr lp str param q := (mkParams attr lp str param q false).

(** A round at a character that is read as it is. *)
Lemma params_round_at attr str param q c cs t rest : folds (c :: cs) t -> valid_char c -> newline c = false ->
  exists t', folds cs t' /\
    params_round (at_params attr (t ++ rest) str param q) =
    params_body (at_params attr (g_unichar_to_utf8 c ++ t' ++ rest) str param q).
Proof.
  intros Ht Hc Hn. destruct (folds_read HG c cs t rest Ht Hc Hn) as (t1 & Ht1 & E). exists t1. split; [done|].
  unfold params_round. cbn [ps_lp ps_qp ps_attr ps_str ps_param in_quote]. rewrite E, res_bind_Ok. cbv zeta.
  by rewrite line_end_char.
Qed.

Lemma params_loop_step fuel s s' : params_round s = Ok (false, s') -> params_loop (S fuel) s = params_loop fuel s'.
Proof. intros E. cbn [params_loop]. by rewrite E. Qed.

(** A letter of a name or of a value without quotes, and any character in quotes. *)
Lemma params_char attr str param (q : bool) c cs t rest fuel :
  folds (c :: cs) t -> valid_char c -> newline c = false -> c <> 34 -> (q = false -> name_char c) ->
  exists t', folds cs t' /\
    params_loop (S fuel) (at_params attr (t ++ rest) str param q) =
    params_loop fuel (at_params attr (t' ++ rest) (str ++ utf8 [c]) param q).
Proof.
  intros Ht Hc Hn H34 Hq. destruct (params_round_at attr str param q c cs t rest Ht Hc Hn) as (t1 & Ht1 & E).
  exists t1. split; [done|]. apply params_loop_step. rewrite E. unfold params_body. cbn [ps_lp ps_qp ps_attr ps_str ps_param in_quote].
  rewrite (cur_eqb c _ 34) by (done || lia). destruct (Z.eqb_spec c 34); [done|].
  assert (q || g_unichar_isalnum (g_utf8_get_char (g_unichar_to_utf8 c ++ t1 ++ rest))
    || (cur (g_unichar_to_utf8 c ++ t1 ++ rest) =? 45) || (cur (g_unichar_to_utf8 c ++ t1 ++ rest) =? 95) = true) as ->.
  { destruct q; [done|]. by apply name_test, Hq. }
  rewrite next_char_utf8, res_bind_Ok by done. by rewrite append_char_utf8.
Qed.

Lemma params_chars_loop attr str param (q : bool) ds cs t rest fuel :
  folds (ds ++ cs) t ->
  Forall (fun c => valid_char c /\ newline c = false /\ c <> 34 /\ (q = false -> name_char c)) ds ->
  exists t', folds cs t' /\
    params_loop (length ds + fuel) (at_params attr (t ++ rest) str param q) =
    params_loop fuel (at_params attr (t' ++ rest) (str ++ utf8 ds) param q).
Proof.
  intros Ht Hds. revert str t Ht. induction Hds as [|c ds (Hc & Hn & H34 & Hq) _ IH]; intros str t Ht.
  - exists t. by rewrite app_nil_r.
  - destruct (params_char attr str param q c (ds ++ cs) t rest (length ds + fuel) Ht) as (t1 & Ht1 & E1); [done..|].
    destruct (IH (str ++ utf8 [c]) t1 Ht1) as (t2 & Ht2 & E2). exists t2. split; [done|].
    cbn [length plus]. by rewrite E1, E2, <- app_assoc, <- utf8_app.
Qed.

Lemma params_quote attr str param (q : bool) cs t rest fuel : folds (34 :: cs) t ->
  exists t', folds cs t' /\
    params_loop (S fuel) (at_params attr (t ++ rest) str param q) =
    params_loop fuel (at_params attr (t' ++ rest) str param (negb q)).
Proof.
  intros Ht. destruct (params_round_at attr str param q 34 cs t rest Ht) as (t1 & Ht1 & E); [by apply ascii_char|done|].
  exists t1. split; [done|]. apply params_loop_step. rewrite E, to_utf8_ascii by lia. unfold params_body.
  cbn [ps_lp ps_qp ps_attr ps_str ps_param in_quote app]. change (cur (34 :: ?l) =? 34) with true. cbv iota.
  by rewrite (next_char_ascii HG), res_bind_Ok by lia.
Qed.

(** The separators are none of the characters of names. *)
Lemma ascii_no_name c l : c = 44 \/ c = 58 \/ c = 59 \/ c = 61 ->
  false || g_unichar_isalnum (g_utf8_get_char (c :: l)) || (c =? 45) || (c =? 95) = false.
Proof.
  intros Hc. pose proof (get_char_utf8 c l (ascii_char c ltac:(lia))) as E. rewrite to_utf8_ascii in E by lia.
  cbn [app] in E. rewrite E, isalnum_ascii by lia. unfold ascii_alnum. lia.
Qed.

Lemma params_equal attr str param cs t rest fuel : str <> [] -> folds (61 :: cs) t ->
  exists t', folds cs t' /\
    params_loop (S fuel) (at_params attr (t ++ rest) str param false) =
    params_loop fuel (at_params attr (t' ++ rest) [] (Some (mkParam str [])) false).
Proof.
  intros Hs Ht. destruct (params_round_at attr str param false 61 cs t rest Ht) as (t1 & Ht1 & E); [by apply ascii_char|done|].
  exists t1. split; [done|]. apply params_loop_step. rewrite E, to_utf8_ascii by lia. unfold params_body.
  cbn [ps_lp ps_qp ps_attr ps_str ps_param in_quote app]. change (cur (61 :: ?l)) with 61.
  rewrite ascii_no_name by lia. change (61 =? 34) with false. change (61 =? 61) with true. cbv iota.
  rewrite (next_char_ascii HG), res_bind_Ok by lia. by destruct str.
Qed.

(** A value is finished: not the one that makes the attribute quoted-printable. *)
Definition not_qp (nm : list Z) (vs : list (list Z)) : Prop :=
  same_name nm (bytes "encoding") && match vs with v :: _ => same_name v (bytes "quoted-printable") | [] => false end = false.

Lemma param_end_value attr l str nm vs l' : str <> [] -> not_qp nm (vs ++ [str]) ->
  param_end (at_params attr l str (Some (mkParam nm vs)) false) (Ok l') =
    Ok (Some (mkParam nm (vs ++ [str])), [], false, l').
Proof.
  intros Hs Hq. unfold param_end. cbn [ps_lp ps_str ps_param ps_qp]. destruct str as [|c str]; [done|].
  rewrite !res_bind_Ok. cbv beta iota zeta. cbn [e_vcard_attribute_param_add_value param_name param_values].
  unfold not_qp in Hq. by rewrite Hq.
Qed.

(** What the separator [c] does with the parameter. *)
Lemma params_separator attr str nm vs c cs t rest fuel :
  c = 44 \/ c = 58 \/ c = 59 -> str <> [] -> not_qp nm (vs ++ [str]) -> folds (c :: cs) t ->
  exists t', folds cs t' /\
    params_loop (S fuel) (at_params attr (t ++ rest) str (Some (mkParam nm vs)) false) =
    let p := mkParam nm (vs ++ [str]) in
    if c =? 44 then params_loop fuel (at_params attr (t' ++ rest) [] (Some p) false)
    else if c =? 59 then params_loop fuel (at_params (e_vcard_attribute_add_param attr p) (t' ++ rest) [] None false)
    else Ok (at_params (e_vcard_attribute_add_param attr p) (58 :: t' ++ rest) [] None false).
Proof.
  intros Hc Hs Hq Ht. destruct (params_round_at attr str (Some (mkParam nm vs)) false c cs t rest Ht) as (t1 & Ht1 & E);
    [by apply ascii_char; lia|by destruct Hc as [->|[-> | ->]]|]. exists t1. split; [done|].
  rewrite to_utf8_ascii in E by lia. cbn [app] in E. unfold params_body in E.
  cbn [ps_lp ps_qp ps_attr ps_str ps_param in_quote] in E. change (cur (c :: t1 ++ rest)) with c in E.
  rewrite ascii_no_name in E by lia. rewrite (next_char_ascii HG) in E by lia.
  destruct Hc as [->|[-> | ->]]; cbn [Z.eqb Pos.eqb orb negb] in *; rewrite param_end_value, res_bind_Ok in E by done;
    cbv beta iota zeta in *.
  - by apply params_loop_step.
  - cbn [params_loop]. by rewrite E.
  - by apply params_loop_step.
Qed.
(** A value of a parameter: text without quotes and line ends. *)
Definition is_pvalue (v : list Z) : Prop := v <> [] /\ Forall (fun c => valid_char c /\ newline c = false /\ c <> 34) v.

Lemma is_pvalue_valid v : is_pvalue v -> Forall valid_char v.
Proof. intros [_ Hv]. eapply Forall_impl; [exact Hv|]. by intros c []. Qed.

Definition pvalue_chars (v : list Z) : list Z := if forallb g_unichar_isalnum v then v else [34] ++ v ++ [34].

Lemma needs_quotes_utf8 v fuel : Forall valid_char v -> (length v <= fuel)%nat ->
  needs_quotes fuel (utf8 v) = Ok (negb (forallb g_unichar_isalnum v)).
Proof.
  intros Hv. revert fuel. induction Hv as [|c v Hc _ IH]; intros fuel Hf; [by destruct fuel|].
  destruct fuel as [|fuel]; [simpl in Hf; lia|]. cbn [needs_quotes forallb]. rewrite utf8_cons.
  rewrite cur_eqb, get_char_utf8 by (done || lia). destruct Hc as [Hp Hv]. destruct (Z.eqb_spec c 0); [lia|].
  destruct (g_unichar_isalnum c); [|done]. cbn [negb andb]. rewrite next_char_utf8, res_bind_Ok by done.
  apply IH. simpl in Hf. lia.
Qed.

Lemma no_quote_bytes v : is_pvalue v -> Forall (fun b => b <> 34) (utf8 v).
Proof.
  intros [_ Hv]. induction Hv as [|c v (Hc & _ & H34) _ IH]; [constructor|]. rewrite utf8_cons. apply Forall_app. split; [|done].
  destruct (utf8_cases c Hc) as [[_ ->]|[_ Hb]]; [by repeat constructor|]. eapply Forall_impl; [exact Hb|]. intros b. cbv beta. lia.
Qed.

Lemma filter_kept {A} (Q : A -> Prop) `{!forall a, Decision (Q a)} l : Forall Q l -> filter Q l = l.
Proof. induction 1 as [|a l Ha _ IH]; [done|]. by rewrite filter_cons_True, IH. Qed.

Lemma write_param_value_utf8 v : is_pvalue v -> write_param_value (utf8 v) = Ok (utf8 (pvalue_chars v)).
Proof.
  intros Hv. pose proof (is_pvalue_valid v Hv) as Hvv. unfold write_param_value, pvalue_chars.
  rewrite needs_quotes_utf8 by (done || by apply utf8_length). rewrite res_bind_Ok.
  destruct (forallb g_unichar_isalnum v); cbn [negb]; [done|].
  rewrite filter_kept by by apply no_quote_bytes. rewrite !utf8_app.
  by rewrite (utf8_ascii HG [34]) by (constructor; [lia|constructor]).
Qed.

Lemma pvalue_read attr str_param v cs t rest fuel : is_pvalue v -> folds (pvalue_chars v ++ cs) t ->
  exists t', folds cs t' /\
    params_loop (length (pvalue_chars v) + fuel) (at_params attr (t ++ rest) [] str_param false) =
    params_loop fuel (at_params attr (t' ++ rest) (utf8 v) str_param false).
Proof.
  intros [Hne Hv] Ht. unfold pvalue_chars in *. destruct (forallb g_unichar_isalnum v) eqn:Ea.
  - destruct (params_chars_loop attr [] str_param false v cs t rest fuel Ht) as (t1 & Ht1 & E).
    { apply Forall_forall. intros c Hc. rewrite Forall_forall in Hv. destruct (Hv c Hc) as (H1 & H2 & H3).
      split; [done|]. split; [done|]. split; [done|]. intros _. split; [done|]. rewrite forallb_forall in Ea.
      rewrite (Ea c); [done|by apply list_elem_of_In]. }
    by exists t1.
  - rewrite <- app_assoc in Ht. cbn [app] in Ht.
    destruct (params_quote attr [] str_param false _ t rest (length v + S fuel) Ht) as (t1 & Ht1 & E1).
    rewrite <- app_assoc in Ht1. cbn [app] in Ht1.
    destruct (params_chars_loop attr [] str_param true v (34 :: cs) t1 rest (S fuel) Ht1) as (t2 & Ht2 & E2).
    { eapply Forall_impl; [exact Hv|]. by intros c (H1 & H2 & H3). }
    destruct (params_quote attr (utf8 v) str_param true cs t2 rest fuel Ht2) as (t3 & Ht3 & E3).
    exists t3. split; [done|]. cbn [app length plus]. rewrite length_app. cbn [length].
    replace (S (length v + 1 + fuel)) with (S (length v + S fuel)) by lia. cbn [negb app] in *. by rewrite E1, E2, E3.
Qed.

(** The values, with commas in between. *)
Fixpoint pvalues_chars (vs : list (list Z)) : list Z :=
  match vs with
  | [] => []
  | [v] => pvalue_chars v
  | v :: vs => pvalue_chars v ++ [44] ++ pvalues_chars vs
  end.

Lemma write_param_values_utf8 vs : Forall is_pvalue vs -> write_param_values (map utf8 vs) = Ok (utf8 (pvalues_chars vs)).
Proof.
  induction 1 as [|v [|w vs] Hv _ IH]; [done|..].
  - cbn [map write_param_values]. rewrite write_param_value_utf8, !res_bind_Ok by done. by rewrite !app_nil_r.
  - change ((s ← write_param_value (utf8 v); rest ← write_param_values (map utf8 (w :: vs)); Ok (s ++ [44] ++ rest)) =
      Ok (utf8 (pvalue_chars v ++ [44] ++ pvalues_chars (w :: vs)))).
    rewrite write_param_value_utf8, res_bind_Ok, IH, res_bind_Ok, !utf8_app by done.
    by rewrite (utf8_ascii HG [44]) by (constructor; [lia|constructor]).
Qed.

Lemma not_qp_first nm v us vs : not_qp nm (v :: us) -> not_qp nm (v :: vs).
Proof. done. Qed.

Lemma utf8_pvalue_nonempty v : is_pvalue v -> utf8 v <> [].
Proof. intros Hv. apply utf8_nonempty; [apply Hv|by apply is_pvalue_valid]. Qed.

(** What is left when the parameter [p] is finished at [sep]. *)
Definition after_param (fuel : nat) (attr : EVCardAttribute) (p : EVCardAttributeParam) (sep : Z) (l : list Z) : res params_state :=
  if sep =? 59 then params_loop fuel (at_params (e_vcard_attribute_add_param attr p) l [] None false)
  else Ok (at_params (e_vcard_attribute_add_param attr p) (58 :: l) [] None false).

Lemma pvalues_read attr nm us vs sep cs t rest fuel :
  Forall is_pvalue vs -> vs <> [] -> sep = 58 \/ sep = 59 -> not_qp nm (us ++ map utf8 vs) ->
  folds (pvalues_chars vs ++ sep :: cs) t ->
  exists t', folds cs t' /\
    params_loop (length (pvalues_chars vs) + S fuel) (at_params attr (t ++ rest) [] (Some (mkParam nm us)) false) =
    after_param fuel attr (mkParam nm (us ++ map utf8 vs)) sep (t' ++ rest).
Proof.
  intros Hvs Hne Hsep. revert us t. induction Hvs as [|v [|w vs] Hv _ IH]; intros us t Hq Ht; [done|..].
  - cbn [pvalues_chars] in *. destruct (pvalue_read attr (Some (mkParam nm us)) v _ t rest (S fuel) Hv Ht) as (t1 & Ht1 & ->).
    destruct (params_separator attr (utf8 v) nm us sep cs t1 rest fuel) as (t2 & Ht2 & ->);
      [lia|by apply utf8_pvalue_nonempty|done|done|]. exists t2. split; [done|]. cbv zeta.
    by destruct Hsep as [-> | ->].
  - change (pvalues_chars (v :: w :: vs)) with (pvalue_chars v ++ [44] ++ pvalues_chars (w :: vs)) in *.
    rewrite <- !app_assoc in Ht. rewrite !length_app. cbn [length].
    replace (length (pvalue_chars v) + (1 + length (pvalues_chars (w :: vs))) + S fuel)%nat with
      (length (pvalue_chars v) + S (length (pvalues_chars (w :: vs)) + S fuel))%nat by lia.
    destruct (pvalue_read attr (Some (mkParam nm us)) v _ t rest (S (length (pvalues_chars (w :: vs)) + S fuel)) Hv Ht)
      as (t1 & Ht1 & ->).
    destruct (params_separator attr (utf8 v) nm us 44 (pvalues_chars (w :: vs) ++ sep :: cs) t1 rest
      (length (pvalues_chars (w :: vs)) + S fuel))
      as (t2 & Ht2 & ->); [by left|by apply utf8_pvalue_nonempty| |done|].
    { by destruct us. }
    cbv zeta. change (44 =? 44) with true. cbv iota.
    destruct (IH ltac:(done) (us ++ [utf8 v]) t2) as (t3 & Ht3 & ->); [by rewrite <- app_assoc|done|].
    exists t3. split; [done|]. by rewrite <- app_assoc.
Qed.
(** A parameter, as its name and values in characters, and what is written of it behind the
    semicolon. *)
Definition pchars : Type := list Z * list (list Z).
Definition param_of (p : pchars) : EVCardAttributeParam := mkParam (utf8 p.1) (map utf8 p.2).
Definition body_chars (p : pchars) : list Z := p.1 ++ [61] ++ pvalues_chars p.2.
Definition params_chars (ps : list pchars) : list Z := concat (map (fun p => 59 :: body_chars p) ps).

Definition pchars_ok (p : pchars) : Prop :=
  is_name p.1 /\ Forall is_pvalue p.2 /\ p.2 <> [] /\ not_qp (utf8 p.1) (map utf8 p.2).

Lemma name_loop_ok_chars ds : Forall name_char ds ->
  Forall (fun c => valid_char c /\ newline c = false /\ c <> 34 /\ (false = false -> name_char c)) ds.
Proof.
  intros Hds. eapply Forall_impl; [exact Hds|]. intros c Hc.
  destruct (name_char_other c Hc) as (H1 & H2 & _). pose proof Hc as [Hv _]. auto.
Qed.

Lemma param_read attr p sep cs t rest fuel :
  pchars_ok p -> sep = 58 \/ sep = 59 -> folds (body_chars p ++ sep :: cs) t ->
  exists t', folds cs t' /\
    params_loop (length (body_chars p) + S fuel) (at_params attr (t ++ rest) [] None false) =
    after_param fuel attr (param_of p) sep (t' ++ rest).
Proof.
  intros (Hn & Hvs & Hne & Hq) Hsep Ht. destruct p as [n vs]. unfold body_chars, param_of in *. cbn [fst snd] in *.
  rewrite <- !app_assoc in Ht. cbn [app] in Ht. rewrite !length_app. cbn [length].
  replace (length n + (1 + length (pvalues_chars vs)) + S fuel)%nat with
    (length n + S (length (pvalues_chars vs) + S fuel))%nat by lia.
  destruct (params_chars_loop attr [] None false n _ t rest (S (length (pvalues_chars vs) + S fuel)) Ht) as (t1 & Ht1 & ->);
    [apply name_loop_ok_chars, Hn|].
  destruct (params_equal attr (utf8 n) None _ t1 rest (length (pvalues_chars vs) + S fuel) (is_name_bytes n Hn) Ht1)
    as (t2 & Ht2 & E2). cbn [app]. rewrite E2.
  by apply (pvalues_read attr (utf8 n) [] vs sep cs t2 rest fuel).
Qed.

Lemma params_read attr p ps cs t rest fuel :
  pchars_ok p -> Forall pchars_ok ps -> folds (body_chars p ++ params_chars ps ++ 58 :: cs) t ->
  (length (params_chars (p :: ps)) <= fuel)%nat ->
  exists t', folds cs t' /\
    params_loop fuel (at_params attr (t ++ rest) [] None false) =
    Ok (at_params (foldl e_vcard_attribute_add_param attr (map param_of (p :: ps))) (58 :: t' ++ rest) [] None false).
Proof.
  intros Hp Hps. revert attr p Hp t fuel. induction Hps as [|p' ps Hp' _ IH]; intros attr p Hp t fuel Ht Hf;
    change (params_chars (p :: ?l)) with (59 :: body_chars p ++ params_chars l) in Hf;
    cbn [length] in Hf; rewrite length_app in Hf;
    replace fuel with (length (body_chars p) + S (fuel - S (length (body_chars p))))%nat by lia.
  - destruct (param_read attr p 58 cs t rest (fuel - S (length (body_chars p)))%nat Hp) as (t1 & Ht1 & ->); [by left|done|].
    by exists t1.
  - change (params_chars (p' :: ps)) with (59 :: body_chars p' ++ params_chars ps) in *. cbn [app length] in *.
    rewrite <- app_assoc in Ht.
    destruct (param_read attr p 59 (body_chars p' ++ params_chars ps ++ 58 :: cs) t rest (fuel - S (length (body_chars p)))%nat Hp) as (t1 & Ht1 & ->); [by right|done|].
    destruct (IH (e_vcard_attribute_add_param attr (param_of p)) p' Hp' t1 (fuel - S (length (body_chars p)))%nat) as (t2 & Ht2 & E2);
      [done|change (params_chars (p' :: ps)) with (59 :: body_chars p' ++ params_chars ps); cbn [length]; lia|].
    exists t2. split; [done|]. unfold after_param. change (59 =? 59) with true. cbv iota. exact E2.
Qed.

Lemma write_param_utf8 p : pchars_ok p -> write_param (param_of p) = Ok (utf8 (59 :: body_chars p)).
Proof.
  intros (Hn & Hvs & Hne & _). destruct p as [n vs]. unfold write_param, param_of, body_chars. cbn [fst snd param_values param_name] in *.
  rewrite write_param_values_utf8, res_bind_Ok by done. destruct vs as [|v vs]; [done|]. cbn [map].
  change (59 :: n ++ [61] ++ pvalues_chars (v :: vs)) with ([59] ++ n ++ [61] ++ pvalues_chars (v :: vs)).
  rewrite !utf8_app. by rewrite (utf8_ascii HG [59]), (utf8_ascii HG [61]) by (constructor; [lia|constructor]).
Qed.

Lemma write_params_utf8 ps : Forall pchars_ok ps -> write_params (map param_of ps) = Ok (utf8 (params_chars ps)).
Proof.
  induction 1 as [|p ps Hp _ IH]; [done|]. cbn [map write_params]. rewrite write_param_utf8, res_bind_Ok, IH, res_bind_Ok by done.
  unfold params_chars. cbn [map concat]. by rewrite utf8_app.
Qed.

(** ** Attributes *)

(** An attribute in characters. *)
Record achars := mkChars {
  ac_group : option (list Z);
  ac_name : list Z;
  ac_params : list pchars;
  ac_values : list (list Z);
}.

Definition separator_of (a : achars) : Z := if same_name (utf8 (ac_name a)) (bytes "CATEGORIES") then 44 else 59.

Definition line_chars (a : achars) : list Z :=
  name_chars (ac_group a) (ac_name a) ++ params_chars (ac_params a) ++ [58] ++ values_chars (separator_of a) (ac_values a).

Definition achars_ok (a : achars) : Prop :=
  match ac_group a with Some g => is_name g | None => True end /\ is_name (ac_name a) /\
  Forall pchars_ok (ac_params a) /\ Forall (Forall valid_char) (ac_values a) /\ ac_values a <> [].

(** What is read. *)
Definition read_back (a : achars) : EVCardAttribute :=
  foldl e_vcard_attribute_add_value
    (foldl e_vcard_attribute_add_param (e_vcard_attribute_new (utf8 <$> ac_group a) (utf8 (ac_name a))) (map param_of (ac_params a)))
    (map (fun v => utf8 (newlines v)) (ac_values a)).

Lemma separator_ascii a : separator_of a = 44 \/ separator_of a = 59.
Proof. unfold separator_of. destruct (same_name _ _); auto. Qed.

Lemma attribute_line_utf8 (a : EVCardAttribute) ac : achars_ok ac ->
  group a = utf8 <$> ac_group ac -> name a = utf8 (ac_name ac) -> params a = map param_of (ac_params ac) ->
  values a = map utf8 (ac_values ac) -> attribute_line a = Ok (utf8 (line_chars ac)).
Proof.
  intros (Hg & Hn & Hps & Hvs & _) Eg En Ep Ev. unfold attribute_line, line_chars, name_chars. rewrite Eg, En, Ep, Ev.
  rewrite write_params_utf8, res_bind_Ok by done. fold (separator_of ac). rewrite !utf8_app.
  rewrite <- write_values_utf8; [| |by destruct (separator_ascii ac) as [-> | ->]; apply to_utf8_ascii|done].
  2:{ destruct (separator_ascii ac) as [-> | ->]; by apply ascii_char. }
  rewrite (utf8_ascii HG [58]) by (constructor; [lia|constructor]).
  destruct (ac_group ac) as [g|]; cbn [fmap option_fmap option_map]; [|done].
  rewrite utf8_app, <- !app_assoc. by rewrite (utf8_ascii HG [46]) by (constructor; [lia|constructor]).
Qed.

Lemma pvalues_valid vs : Forall is_pvalue vs -> Forall valid_char (pvalues_chars vs).
Proof.
  assert (forall v, is_pvalue v -> Forall valid_char (pvalue_chars v)) as Hv.
  { intros v Hv. pose proof (is_pvalue_valid v Hv). unfold pvalue_chars. destruct (forallb _ v); [done|].
    assert (Forall valid_char [34]) by (constructor; [by apply ascii_char|constructor]).
    apply Forall_app. split; [done|]. by apply Forall_app. }
  induction 1 as [|v [|w vs] H1 _ IH]; [constructor|by apply Hv|].
  change (pvalues_chars (v :: w :: vs)) with (pvalue_chars v ++ [44] ++ pvalues_chars (w :: vs)).
  apply Forall_app. split; [by apply Hv|]. constructor; [by apply ascii_char|done].
Qed.

Lemma is_name_valid cs : is_name cs -> Forall valid_char cs.
Proof. intros [_ Hcs]. eapply Forall_impl; [exact Hcs|]. by intros c []. Qed.

Lemma params_valid ps : Forall pchars_ok ps -> Forall valid_char (params_chars ps).
Proof.
  induction 1 as [|p ps (Hn & Hvs & _) _ IH]; [constructor|].
  change (params_chars (p :: ps)) with ((59 :: p.1 ++ [61] ++ pvalues_chars p.2) ++ params_chars ps).
  apply Forall_app. split; [|done]. constructor; [by apply ascii_char|]. apply Forall_app. split; [by apply is_name_valid|].
  constructor; [by apply ascii_char|by apply pvalues_valid].
Qed.

Lemma esc_valid vs : Forall valid_char vs -> Forall valid_char (concat (map esc vs)).
Proof.
  induction 1 as [|v vs Hv _ IH]; [constructor|]. cbn [map concat]. apply Forall_app. split; [|done].
  assert (forall c, 0 < c < 128 -> Forall valid_char [92; c]) as Ha.
  { intros c Hc. constructor; [by apply ascii_char|]. constructor; [by apply ascii_char|constructor]. }
  unfold esc. repeat case_match; try (by apply Ha). constructor; [done|constructor].
Qed.

Lemma values_valid sep vs : valid_char sep -> Forall (Forall valid_char) vs -> Forall valid_char (values_chars sep vs).
Proof.
  intros Hs. assert (forall v, Forall valid_char v -> Forall valid_char (concat (map esc (newlines v)))) as Hv.
  { intros v Hv. apply esc_valid. eapply Forall_impl; [by apply newlines_chars|]. by intros c []. }
  induction 1 as [|v [|w vs] H1 _ IH]; [constructor|by apply Hv|].
  change (values_chars sep (v :: w :: vs)) with (concat (map esc (newlines v)) ++ [sep] ++ values_chars sep (w :: vs)).
  apply Forall_app. split; [by apply Hv|by constructor].
Qed.

Lemma line_valid ac : achars_ok ac -> Forall valid_char (line_chars ac).
Proof.
  intros (Hg & Hn & Hps & Hvs & _). unfold line_chars, name_chars. rewrite !Forall_app. repeat split.
  - destruct (ac_group ac) as [g|]; [|constructor]. apply Forall_app. split; [by apply is_name_valid|].
    constructor; [by apply ascii_char|constructor].
  - by apply is_name_valid.
  - by apply params_valid.
  - constructor; [by apply ascii_char|constructor].
  - apply values_valid; [|done]. destruct (separator_ascii ac) as [-> | ->]; by apply ascii_char.
Qed.

Lemma add_params_name attr ps : name (foldl e_vcard_attribute_add_param attr ps) = name attr /\
  values (foldl e_vcard_attribute_add_param attr ps) = values attr.
Proof.
  revert attr. induction ps as [|p ps IH]; intros attr; [done|]. cbn [foldl]. destruct (IH (e_vcard_attribute_add_param attr p)) as [-> ->].
  unfold e_vcard_attribute_add_param. repeat case_match; done.
Qed.

Lemma add_values_values attr vs : values (foldl e_vcard_attribute_add_value attr vs) = values attr ++ vs.
Proof.
  revert attr. induction vs as [|v vs IH]; intros attr; [by rewrite app_nil_r|]. cbn [foldl]. rewrite IH.
  cbn [e_vcard_attribute_add_value set_values values]. by rewrite <- app_assoc.
Qed.

(** Reading the values behind the colon. *)
Lemma read_values ac attr t rest k : achars_ok ac -> name attr = utf8 (ac_name ac) -> line_stop rest k ->
  folds (values_chars (separator_of ac) (ac_values ac)) t ->
  read_attribute_value attr (t ++ rest) false =
    Ok (foldl e_vcard_attribute_add_value attr (map (fun v => utf8 (newlines v)) (ac_values ac)), k).
Proof.
  intros (_ & _ & _ & Hvs & Hne) Hn Hr Ht. unfold read_attribute_value. rewrite Hn.
  unfold separator_of in Ht. set (cat := same_name (utf8 (ac_name ac)) (bytes "CATEGORIES")) in *.
  assert (Forall valid_char (values_chars (if cat then 44 else 59) (ac_values ac))) as Hv
    by (apply values_valid; [by destruct cat; apply ascii_char|done]).
  rewrite (value_loop_values cat attr (ac_values ac) t rest k) by
    (done || (rewrite length_app; pose proof (folds_length HG _ t Hv Ht); lia)).
  rewrite res_bind_Ok. by rewrite (skip_to_next_line_stop rest k Hr).
Qed.

(** The separator behind the name is a colon or, in front of parameters, a semicolon. *)
Lemma line_chars_sep ac : exists sep, (sep = 58 \/ sep = 59) /\
  line_chars ac = name_chars (ac_group ac) (ac_name ac) ++ sep ::
    match ac_params ac with
    | [] => values_chars (separator_of ac) (ac_values ac)
    | p :: ps => body_chars p ++ params_chars ps ++ 58 :: values_chars (separator_of ac) (ac_values ac)
    end /\ sep = match ac_params ac with [] => 58 | _ => 59 end.
Proof.
  unfold line_chars. destruct (ac_params ac) as [|p ps]; [exists 58|exists 59]; (split; [lia|]); split; try done.
  change (params_chars (p :: ps)) with (59 :: body_chars p ++ params_chars ps). cbn [app]. by rewrite <- !app_assoc.
Qed.

(** The parameters, up to the colon. *)
Lemma read_params_stage attr ps vs sep t rest fuel : Forall pchars_ok ps -> sep = match ps with [] => 58 | _ => 59 end ->
  folds (match ps with [] => vs | p :: ps => body_chars p ++ params_chars ps ++ 58 :: vs end) t ->
  (length (params_chars ps) <= fuel)%nat ->
  exists t', folds vs t' /\
    (if cur (sep :: t ++ rest) =? 59 then
       lp ← g_utf8_next_char (sep :: t ++ rest);
       '(attr, lp, is_qp) ← read_attribute_params fuel attr lp false;
       Ok (if (is_qp : bool) then set_encoding attr EVC_ENCODING_RAW (encoding_set attr) else attr, lp, is_qp)
     else Ok (attr, sep :: t ++ rest, false)) =
    Ok (foldl e_vcard_attribute_add_param attr (map param_of ps), 58 :: t' ++ rest, false).
Proof.
  intros Hps -> Ht Hf. destruct ps as [|p ps]; [by exists t|].
  change (cur (59 :: ?l)) with 59. cbn [Z.eqb Pos.eqb]. rewrite (next_char_ascii HG), res_bind_Ok by lia.
  apply Forall_cons in Hps as [Hp Hps].
  destruct (params_read attr p ps vs t rest fuel Hp Hps Ht Hf) as (t' & Ht' & E). exists t'. split; [done|].
  unfold read_attribute_params. by rewrite E.
Qed.

Lemma params_chars_length ac : (length (params_chars (ac_params ac)) <= length (line_chars ac))%nat.
Proof. unfold line_chars. rewrite !length_app. lia. Qed.

Lemma read_back_values ac : achars_ok ac -> values (read_back ac) <> [].
Proof.
  intros (_ & _ & _ & _ & Hne) E%(f_equal length). unfold read_back in E.
  rewrite add_values_values, length_app, length_map in E. destruct (ac_values ac); [done|]. simpl in E. lia.
Qed.

(** The line of an attribute is read back. *)
Lemma read_attribute_line ac t rest k fuel : achars_ok ac -> folds (line_chars ac) t -> line_stop rest k ->
  (length t <= fuel)%nat -> read_attribute fuel (t ++ rest) = Ok (Some (read_back ac), k).
Proof.
  intros Hok Ht Hr Hf. pose proof (line_valid ac Hok) as Hval. pose proof (folds_length HG _ t Hval Ht) as Hlen.
  pose proof (params_chars_length ac) as Hpl. pose proof Hok as (Hg & Hn & Hps & _ & _).
  destruct (line_chars_sep ac) as (sep & Hsep & E & Es). rewrite E in Ht, Hlen. rewrite length_app in Hlen.
  cbn [length] in Hlen. unfold read_attribute.
  destruct (name_loop_names (ac_group ac) (ac_name ac) sep _ t rest (S (length (t ++ rest))) Hg Hn Hsep Ht) as (t1 & Ht1 & ->);
    [rewrite length_app; lia|]. rewrite res_bind_Ok. cbv beta iota zeta.
  set (attr := e_vcard_attribute_new (utf8 <$> ac_group ac) (utf8 (ac_name ac))).
  destruct (read_params_stage attr (ac_params ac) (values_chars (separator_of ac) (ac_values ac)) sep t1 rest fuel Hps Es Ht1)
    as (t2 & Ht2 & ->); [rewrite E, length_app in Hpl; cbn [length] in Hpl; lia|].
  rewrite res_bind_Ok. cbv beta iota zeta. change (cur (58 :: ?l) =? 58) with true. cbv iota.
  rewrite (next_char_ascii HG), res_bind_Ok by lia.
  rewrite (read_values ac _ t2 rest k) by (done || by apply add_params_name). rewrite res_bind_Ok.
  pose proof (read_back_values ac Hok) as Hv. unfold read_back in *. fold attr in Hv |- *.
  by destruct (values _).
Qed.

(** ** Cards *)

(** The attribute [a] in characters. *)
Definition in_chars (a : EVCardAttribute) (ac : achars) : Prop :=
  group a = utf8 <$> ac_group ac /\ name a = utf8 (ac_name ac) /\
  params a = map param_of (ac_params ac) /\ values a = map utf8 (ac_values ac).

Definition is_named (n : list Z) (ac : achars) : bool := same_name (utf8 (ac_name ac)) n.

(** What is written of a list of attributes: the folded lines, with line ends. *)
Inductive written : list achars -> list Z -> Prop :=
  | written_nil : written [] []
  | written_line ac acs t l s : folds (line_chars ac) t -> t = g_unichar_to_utf8 (default 0 (head (line_chars ac))) ++ l ->
      written acs s -> written (ac :: acs) (t ++ CRLF ++ s).

Lemma write_line after a ac : achars_ok ac -> in_chars a ac ->
  (forall s, (444 <= length (after s))%nat) ->
  exists t l, (s ← attribute_line a; s ← fold_line after s; Ok (s ++ CRLF)) = Ok (t ++ CRLF) /\
    folds (line_chars ac) t /\ t = g_unichar_to_utf8 (default 0 (head (line_chars ac))) ++ l.
Proof.
  intros Hok (Hg & Hn & Hp & Hv) Hafter. rewrite (attribute_line_utf8 a ac), res_bind_Ok by done.
  destruct (fold_line_spec HG (line_chars ac) (line_valid ac Hok)) as (lines & El & Ec & Hs).
  rewrite El, res_bind_Ok by done. exists (join_folded lines).
  destruct (line_chars ac) as [|c cs] eqn:E.
  { exfalso. destruct (line_chars_sep ac) as (sep & _ & E2 & _). rewrite E in E2. by destruct (name_chars _ _). }
  destruct (short_lines_head lines c cs Hs (eq_sym Ec)) as [l Hl]. exists l. split; [done|].
  split; [rewrite Ec; by apply short_lines_folds|done].
Qed.

Lemma write_attributes_written after attrs acs :
  Forall achars_ok acs -> Forall2 in_chars attrs acs -> (forall s, (444 <= length (after s))%nat) ->
  exists s, write_attributes after (map Some attrs) = Ok s /\
    written (List.filter (fun ac => negb (is_named (bytes "VERSION") ac)) acs) s.
Proof.
  intros Hok Hin Hafter. revert Hok. induction Hin as [|a ac attrs acs Ha _ IH]; intros Hok.
  - exists []. split; [done|constructor].
  - apply Forall_cons in Hok as [Hok Hoks]. destruct (IH Hoks) as (s & E & Hs).
    cbn [map write_attributes attr_at]. rewrite res_bind_Ok. pose proof Ha as (_ & Hn & _). rewrite Hn.
    cbn [List.filter]. fold (is_named (bytes "VERSION") ac). destruct (is_named (bytes "VERSION") ac); cbn [negb].
    + exists s. by rewrite res_bind_Ok, E.
    + destruct (write_line after a ac Hok Ha Hafter) as (t & l & -> & Ht & Hl). rewrite res_bind_Ok, E, res_bind_Ok.
      exists ((t ++ CRLF) ++ s). split; [done|]. rewrite <- app_assoc. by apply (written_line ac _ t l).
Qed.

(** Lines in front of the attributes and behind them. *)
Definition fixed_line (n v : list Z) : achars := mkChars None n [] [v].
Definition begin_line : achars := fixed_line (bytes "BEGIN") (bytes "VCARD").
Definition version_line : achars := fixed_line (bytes "VERSION") (bytes "3.0").
Definition end_line : achars := fixed_line (bytes "END") (bytes "VCARD").

Lemma fixed_line_ok n v : n <> [] -> forallb (fun c => (c <? 128) && ascii_alnum c) n = true ->
  forallb (fun c => (0 <? c) && (c <? 128)) v = true -> achars_ok (fixed_line n v).
Proof.
  intros Hne Hn Hv. unfold achars_ok, fixed_line. cbn [ac_group ac_name ac_params ac_values].
  split; [done|]. split; [|split; [constructor|split; [|done]]].
  - split; [done|]. apply Forall_forall. intros c Hc. rewrite forallb_forall in Hn. apply list_elem_of_In in Hc.
    specialize (Hn c Hc). cbv beta in Hn. assert (0 < c < 128) by (unfold ascii_alnum in Hn; lia).
    split; [by apply ascii_char|]. rewrite isalnum_ascii by lia. lia.
  - constructor; [|constructor]. apply Forall_forall. intros c Hc. rewrite forallb_forall in Hv. apply list_elem_of_In in Hc.
    specialize (Hv c Hc). cbv beta in Hv. apply ascii_char. lia.
Qed.

Lemma fixed_lines_ok : achars_ok begin_line /\ achars_ok version_line /\ achars_ok end_line.
Proof. repeat split; by apply fixed_line_ok. Qed.

Lemma utf8_bytes s : forallb (fun c => (0 <? c) && (c <? 128)) s = true -> utf8 s = s.
Proof.
  intros Hs. apply (utf8_ascii HG), Forall_forall. intros c Hc. rewrite forallb_forall in Hs. apply list_elem_of_In in Hc.
  specialize (Hs c Hc). cbv beta in Hs. lia.
Qed.

Lemma fixed_folds ac s : line_chars ac = s -> forallb (fun c => (0 <? c) && (c <? 128)) s = true -> folds (line_chars ac) s.
Proof.
  intros -> Hs. pose proof (folds_utf8 s [] [] folds_nil) as Hf. by rewrite !app_nil_r, (utf8_bytes s Hs) in Hf.
Qed.

Lemma line_head ac : achars_ok ac -> name_char (default 0 (head (line_chars ac))).
Proof.
  intros (Hg & [Hne Hn] & _). unfold line_chars, name_chars. destruct (ac_group ac) as [g|].
  - destruct Hg as [Hgne Hg]. destruct g as [|c g]; [done|]. by apply Forall_cons in Hg as [Hc _].
  - destruct (ac_name ac) as [|c n]; [done|]. by apply Forall_cons in Hn as [Hc _].
Qed.

(** The line in front of written ones is not continued by them. *)
Lemma written_stop acs s : Forall achars_ok acs -> written acs s ->
  line_stop (CRLF ++ s ++ bytes "END:VCARD") (s ++ bytes "END:VCARD").
Proof.
  intros Hok Hs. right. split; [done|]. inversion Hs as [|ac acs' t l s' _ El _ Ea Es]; subst; [done|].
  apply Forall_cons in Hok as [Hok _]. pose proof (line_head ac Hok) as Hc.
  rewrite <- !app_assoc. clear Hs. revert Hc. generalize (default 0 (head (line_chars ac))). intros c Hc.
  destruct (name_char_other c Hc) as (Hn & _). destruct Hc as [Hv Hc].
  unfold newline, blank in *. rewrite !cur_eqb by (done || lia). split; [done|].
  destruct (Z.lt_ge_cases c 128) as [Hlt|Hge]; [|lia]. destruct Hv as [Hp _].
  rewrite isalnum_ascii in Hc by lia. unfold ascii_alnum in Hc. lia.
Qed.

Lemma read_end pfuel : (9 <= pfuel)%nat -> read_attribute pfuel (bytes "END:VCARD") = Ok (Some (read_back end_line), []).
Proof.
  intros Hf. rewrite <- (app_nil_r (bytes "END:VCARD")).
  apply read_attribute_line; [apply fixed_lines_ok|by apply fixed_folds|by left|done].
Qed.

Lemma read_back_name ac : name (read_back ac) = utf8 (ac_name ac).
Proof.
  unfold read_back. assert (forall vs attr, name (foldl e_vcard_attribute_add_value attr vs) = name attr) as E.
  { induction vs as [|v vs IH]; intros attr; [done|]. cbn [foldl]. by rewrite IH. }
  rewrite E. apply add_params_name.
Qed.

(** The loop of [parse] over the lines that were written. *)
Lemma parse_written acs s fuel pfuel attr attrs :
  Forall achars_ok acs -> Forall (fun ac => is_named (bytes "END") ac = false) acs -> written acs s ->
  (length (s ++ bytes "END:VCARD") <= fuel)%nat -> (length (s ++ bytes "END:VCARD") <= pfuel)%nat ->
  parse_loop fuel pfuel (s ++ bytes "END:VCARD") attr attrs =
    Ok (Some (read_back end_line), true, reverse (map (fun ac => Some (read_back ac)) acs) ++ attrs).
Proof.
  intros Hok Hend Hs. revert attr attrs fuel Hok Hend. induction Hs as [|ac acs t l s Ht El Hs IH]; intros attr attrs fuel Hok Hend Hf Hp.
  - destruct fuel as [|fuel]; [simpl in Hf; lia|]. cbn [app] in *. cbn [parse_loop].
    change (bytes "END:VCARD") with (69 :: drop 1 (bytes "END:VCARD")). cbv iota.
    change (69 :: drop 1 (bytes "END:VCARD")) with (bytes "END:VCARD").
    rewrite read_end, res_bind_Ok by (simpl in *; lia). cbv beta iota zeta. rewrite read_back_name, (same_name_spec HG).
    change (ac_name end_line) with (bytes "END"). by rewrite utf8_bytes.
  - apply Forall_cons in Hok as [Hok Hoks]. apply Forall_cons in Hend as [Hne Hend].
    rewrite <- !app_assoc in *. pose proof (read_attribute_line ac t _ _ pfuel Hok Ht (written_stop acs s Hoks Hs)) as Hr.
    rewrite !length_app in Hf, Hp. destruct fuel as [|fuel]; [simpl in Hf; lia|].
    cbn [parse_loop]. rewrite Hr, res_bind_Ok by lia. cbv beta iota zeta.
    destruct (t ++ CRLF ++ s ++ bytes "END:VCARD") as [|x y] eqn:E.
    { apply (f_equal length) in E. rewrite !length_app in E. simpl in E. lia. }
    clear E. rewrite read_back_name. unfold is_named in Hne.
    assert (same_name (utf8 (ac_name ac)) (bytes "end") = false) as ->.
    { rewrite (same_name_spec HG) in *. exact Hne. }
    cbn [negb]. rewrite IH by (done || (rewrite length_app; simpl in *; lia)). cbn [map].
    by rewrite reverse_cons, <- app_assoc.
Qed.

Lemma written_valid acs s : Forall achars_ok acs -> written acs s -> exists ds, s = utf8 ds /\ Forall valid_char ds.
Proof.
  intros Hok Hs. induction Hs as [|ac acs t l s Ht _ _ IH]; [by exists []|]. apply Forall_cons in Hok as [Hok Hoks].
  destruct (IH Hoks) as (ds & -> & Hds). destruct (folds_text HG _ t (line_valid ac Hok) Ht) as (es & -> & Hes).
  exists (es ++ CRLF ++ ds). rewrite !utf8_app, (utf8_bytes CRLF) by done. split; [done|].
  apply Forall_app. split; [done|]. constructor; [by apply ascii_char|]. constructor; [by apply ascii_char|done].
Qed.

Lemma make_valid_text s ds : s = utf8 ds -> Forall valid_char ds -> make_valid_utf8 s = s.
Proof.
  intros -> Hds. unfold make_valid_utf8. destruct (length (utf8 ds)); cbn [make_valid_loop]; [done|]. by rewrite validate_utf8.
Qed.

(** A written card is read. *)
Lemma read_card acs s fuel :
  Forall achars_ok acs -> Forall (fun ac => is_named (bytes "END") ac = false) acs -> written acs s ->
  let text := bytes "BEGIN:VCARD" ++ CRLF ++ bytes "VERSION:3.0" ++ CRLF ++ s ++ bytes "END:VCARD" in
  (length text <= fuel)%nat ->
  e_vcard_new_from_string fuel text =
    Ok (mkVCard (map (fun ac => Some (read_back ac)) (version_line :: acs))).
Proof.
  intros Hok Hend Hs text Hf.
  set (s1 := bytes "VERSION:3.0" ++ CRLF ++ s).
  assert (written (version_line :: acs) s1) as Hs1 by (apply (written_line _ _ _ (drop 1 (bytes "VERSION:3.0"))); [by apply fixed_folds| |done];
    change (line_chars version_line) with (bytes "VERSION:3.0"); cbn; by rewrite to_utf8_ascii by lia).
  assert (Forall achars_ok (version_line :: acs)) as Hok1 by (constructor; [apply fixed_lines_ok|done]).
  assert (text = bytes "BEGIN:VCARD" ++ CRLF ++ s1 ++ bytes "END:VCARD") as Et by (unfold text, s1; by rewrite <- !app_assoc).
  destruct (written_valid _ _ Hok1 Hs1) as (ds & Es & Hds).
  assert (make_valid_utf8 text = text) as Ev.
  { apply (make_valid_text _ (bytes "BEGIN:VCARD" ++ CRLF ++ ds ++ bytes "END:VCARD")).
    - rewrite Et, Es, !utf8_app. by rewrite (utf8_bytes (bytes "BEGIN:VCARD")), (utf8_bytes CRLF), (utf8_bytes (bytes "END:VCARD")).
    - rewrite !Forall_app. repeat split; try done; repeat (constructor; try (by apply ascii_char)). }
  unfold e_vcard_new_from_string, e_vcard_construct. rewrite Et at 1. change (bytes "BEGIN:VCARD") with (66 :: drop 1 (bytes "BEGIN:VCARD")) at 1.
  cbn [app]. unfold parse. rewrite Ev, Et.
  rewrite (read_attribute_line begin_line (bytes "BEGIN:VCARD") _ _ fuel (proj1 fixed_lines_ok) ltac:(by apply fixed_folds) (written_stop _ s1 Hok1 Hs1))
    by (rewrite Et, !length_app in Hf; lia).
  rewrite res_bind_Ok. cbv beta iota zeta. rewrite read_back_name, (same_name_spec HG). change (ac_name begin_line) with (bytes "BEGIN").
  rewrite utf8_bytes by done. change (bool_decide _) with true at 1. cbv beta iota zeta.
  rewrite (parse_written (version_line :: acs) s1) by
    (done || (rewrite Et, !length_app in Hf; rewrite ?length_app; lia) ||
     (constructor; [unfold is_named; rewrite (same_name_spec HG), utf8_bytes; done|done])).
  rewrite res_bind_Ok. cbv beta iota zeta. cbn [attributes negb]. rewrite andb_false_r, app_nil_r. by rewrite reverse_involutive.
Qed.

(** ** What is read *)

(** The parameter that sets the encoding. *)
Definition encoding_param (ps : list EVCardAttributeParam) : option EVCardAttributeParam :=
  List.find (fun p => same_name (param_name p) (bytes "ENCODING")) ps.

(** The attribute [a] after it was written and read. *)
Definition reread (a : EVCardAttribute) : EVCardAttribute :=
  mkAttr (group a) (name a) (reverse (params a)) (map newlines (values a)) []
    match encoding_param (params a) with
    | Some p => encoding_of EVC_ENCODING_RAW (default [] (head (param_values p)))
    | None => EVC_ENCODING_RAW
    end
    match encoding_param (params a) with Some _ => true | None => false end.

Lemma merge_param_new ps p : map ascii_lower (param_name p) ∉ map (fun p => map ascii_lower (param_name p)) ps ->
  merge_param ps p = None.
Proof.
  induction ps as [|p2 ps IH]; intros Hn; [done|]. cbn [map merge_param] in *. rewrite (same_name_spec HG).
  apply not_elem_of_cons in Hn as [Hne Hn]. rewrite bool_decide_eq_false_2 by (by intros E; apply Hne). by rewrite IH.
Qed.

Lemma add_param_new attr p : map ascii_lower (param_name p) ∉ map (fun p => map ascii_lower (param_name p)) (params attr) ->
  param_values p <> [] ->
  e_vcard_attribute_add_param attr p =
    mkAttr (group attr) (name attr) (p :: params attr) (values attr) (decoded_values attr)
      (if same_name (param_name p) (bytes "ENCODING") && negb (encoding_set attr)
       then encoding_of (encoding attr) (default [] (head (param_values p))) else encoding attr)
      (same_name (param_name p) (bytes "ENCODING") || encoding_set attr).
Proof.
  intros Hn Hv. unfold e_vcard_attribute_add_param. rewrite merge_param_new by done. cbv zeta.
  destruct (same_name _ _); [|by destruct attr]. cbn [encoding_set set_params]. destruct (encoding_set attr) eqn:E; cbn [andb negb orb].
  - unfold set_params. by rewrite E.
  - destruct (param_values p); [done|]. reflexivity.
Qed.

Lemma add_params_set attr ps : encoding_set attr = true ->
  distinct_names (params attr ++ ps) -> Forall (fun p => param_values p <> []) ps ->
  foldl e_vcard_attribute_add_param attr ps =
    mkAttr (group attr) (name attr) (reverse ps ++ params attr) (values attr) (decoded_values attr) (encoding attr) true.
Proof.
  revert attr. induction ps as [|p ps IH]; intros attr Hset Hd Hv; [destruct attr; by cbn in *; subst|].
  apply Forall_cons in Hv as [Hp Hv]. unfold distinct_names in Hd.
  assert (Hd' := Hd). rewrite map_app in Hd'. cbn [map] in Hd'. apply NoDup_app in Hd' as (_ & Hd' & _).
  cbn [foldl]. rewrite add_param_new; [|intros Hin; by apply (Hd' _ Hin), list_elem_of_here|done].
  rewrite Hset, andb_false_r, orb_true_r. rewrite IH; [|done| |done].
  - cbn [params group name values decoded_values encoding]. by rewrite reverse_cons, <- app_assoc.
  - cbn [params]. unfold distinct_names. eapply NoDup_Permutation_proper; [|exact Hd]. apply Permutation_map.
    cbn [app]. apply Permutation_middle.
Qed.

(** The encoding is that of the first parameter ENCODING. *)
Lemma add_params_distinct attr ps : encoding_set attr = false ->
  distinct_names (params attr ++ ps) -> Forall (fun p => param_values p <> []) ps ->
  foldl e_vcard_attribute_add_param attr ps =
    mkAttr (group attr) (name attr) (reverse ps ++ params attr) (values attr) (decoded_values attr)
      match encoding_param ps with
      | Some p => encoding_of (encoding attr) (default [] (head (param_values p)))
      | None => encoding attr
      end
      match encoding_param ps with Some _ => true | None => false end.
Proof.
  revert attr. induction ps as [|p ps IH]; intros attr Hset Hd Hv; [destruct attr; by cbn in *; subst|].
  pose proof Hv as Hv'. apply Forall_cons in Hv' as [Hp Hvs]. unfold distinct_names in Hd.
  assert (Hd' := Hd). rewrite map_app in Hd'. cbn [map] in Hd'. apply NoDup_app in Hd' as (_ & Hd' & _).
  assert (distinct_names ((p :: params attr) ++ ps)) as Hd2.
  { unfold distinct_names. eapply NoDup_Permutation_proper; [|exact Hd]. apply Permutation_map, Permutation_middle. }
  cbn [foldl]. rewrite add_param_new; [|intros Hin; by apply (Hd' _ Hin), list_elem_of_here|done].
  rewrite Hset, orb_false_r. unfold encoding_param. cbn [List.find negb]. rewrite andb_true_r.
  destruct (same_name (param_name p) (bytes "ENCODING")).
  - rewrite add_params_set by done. cbn [params group name values decoded_values encoding].
    by rewrite reverse_cons, <- app_assoc.
  - rewrite IH by done. cbn [params group name values decoded_values encoding].
    by rewrite reverse_cons, <- app_assoc.
Qed.

Lemma add_values_fields attr vs : foldl e_vcard_attribute_add_value attr vs = set_values attr (values attr ++ vs).
Proof.
  revert attr. induction vs as [|v vs IH]; intros attr; [rewrite app_nil_r; by destruct attr|]. cbn [foldl]. rewrite IH.
  unfold e_vcard_attribute_add_value, set_values. cbn. by rewrite <- app_assoc.
Qed.

Lemma read_back_reread a ac : achars_ok ac -> in_chars a ac -> distinct_names (params a) -> read_back ac = reread a.
Proof.
  intros (_ & _ & Hps & Hvs & _) (Hg & Hn & Hp & Hv) Hd. unfold read_back, reread. rewrite add_values_fields, <- Hp.
  rewrite add_params_distinct; [|done|done|].
  - unfold set_values. cbn [e_vcard_attribute_new group name params values decoded_values encoding encoding_set app].
    rewrite app_nil_r, Hg, Hn. f_equal. rewrite Hv, map_map. clear -Hvs HG.
    induction Hvs as [|v vs Hv _ IH]; [done|]. cbn [map]. by rewrite newlines_utf8, IH.
  - rewrite Hp. clear -Hps. induction Hps as [|p ps (_ & _ & Hne & _) _ IH]; [constructor|]. cbn [map]. constructor; [|done].
    unfold param_of. cbn [param_values]. by destruct p.2.
Qed.

(** An attribute that is text: names are letters, digits, hyphens and underscores, parameters
    have values, which have no quotes and line ends in them, there are values, all of them are
    UTF-8, and no parameter says that they are quoted-printable. *)
Definition text_attribute (a : EVCardAttribute) : Prop := exists ac, achars_ok ac /\ in_chars a ac.

Lemma text_attributes attrs : Forall text_attribute attrs -> exists acs, Forall achars_ok acs /\ Forall2 in_chars attrs acs.
Proof.
  induction 1 as [|a attrs (ac & Hok & Ha) _ (acs & Hoks & Has)]; [by exists []|]. exists (ac :: acs). by split; constructor.
Qed.

(** The attributes that are written. *)
Definition not_version (a : EVCardAttribute) : bool := negb (same_name (name a) (bytes "VERSION")).

Lemma read_back_rereads attrs acs : Forall achars_ok acs -> Forall2 in_chars attrs acs ->
  Forall (fun a => distinct_names (params a)) attrs ->
  map (fun ac => Some (read_back ac)) (List.filter (fun ac => negb (is_named (bytes "VERSION") ac)) acs) =
  map (fun a => Some (reread a)) (List.filter not_version attrs).
Proof.
  intros Hok Hin. revert Hok. induction Hin as [|a ac attrs acs Ha _ IH]; intros Hok Hd; [done|].
  apply Forall_cons in Hok as [Hok Hoks]. apply Forall_cons in Hd as [Hd Hds]. specialize (IH Hoks Hds).
  cbn [List.filter]. unfold not_version at 1, is_named at 1. pose proof Ha as (_ & -> & _).
  destruct (same_name _ _); cbn [negb]; [done|]. cbn [map]. by rewrite IH, (read_back_reread a ac).
Qed.

Lemma filter_forall {A} (f : A -> bool) (Q : A -> Prop) l : Forall Q l -> Forall Q (List.filter f l).
Proof. induction 1 as [|a l Ha _ IH]; [constructor|]. cbn. destruct (f a); [by constructor|done]. Qed.
End written.

(** C9: a card of text attributes, none of them called END and none with two parameters of the same
    name, is written and read again: a VERSION attribute and the attributes in
    their order, with their groups, names and values with newlines for line ends, the
    parameters of each in reverse order, and the encoding that its parameter ENCODING
    says. *)
Theorem vcard_roundtrip `{GLib} after attrs :
  GLibLaws _ -> (forall s, (444 <= length (after s))%nat) ->
  Forall text_attribute attrs -> Forall (fun a => distinct_names (params a)) attrs ->
  Forall (fun a => same_name (name a) (bytes "END") = false) attrs ->
  exists text, e_vcard_to_string after (mkVCard (map Some attrs)) EVC_FORMAT_VCARD_30 = Ok text /\
    forall fuel, (length text <= fuel)%nat ->
      e_vcard_new_from_string fuel text =
        Ok (mkVCard (map Some (mkAttr None (bytes "VERSION") [] [bytes "3.0"] [] EVC_ENCODING_RAW false ::
          map reread (List.filter not_version attrs)))).
Proof.
  intros HG Hafter Htext Hd Hend. destruct (text_attributes attrs Htext) as (acs & Hok & Hin).
  assert (Forall (fun ac => is_named (bytes "END") ac = false) acs) as Hends.
  { clear -Hin Hend. induction Hin as [|a ac attrs acs (_ & Hn & _) _ IH]; [constructor|].
    apply Forall_cons in Hend as [Ha Hend]. constructor; [unfold is_named; by rewrite <- Hn|by apply IH]. }
  destruct (write_attributes_written HG after attrs acs Hok Hin Hafter) as (s & E & Hs).
  unfold e_vcard_to_string, e_vcard_to_string_vcard_30. cbn [attributes]. rewrite E, res_bind_Ok.
  eexists. split; [reflexivity|]. intros fuel Hf. rewrite (read_card HG (List.filter (fun ac => negb (is_named (bytes "VERSION") ac)) acs) s fuel) by (done || by apply filter_forall).
  cbn [map]. rewrite (read_back_rereads HG attrs acs Hok Hin Hd), map_map. do 3 f_equal.
  unfold read_back, version_line, fixed_line. cbn [ac_group ac_name ac_params ac_values map foldl fmap option_fmap option_map].
  rewrite !(utf8_bytes HG) by done. reflexivity.
Qed.

#[local] Existing Instance Utf8Instance.glib.

Definition card_example : list EVCardAttribute :=
  [ mkAttr (Some (bytes "item1")) (bytes "EMAIL") [mkParam (bytes "TYPE") [bytes "INTERNET"; bytes "at home"]; mkParam (bytes "X-N") [bytes "1"]]
      [bytes "a@b.org"] [] EVC_ENCODING_RAW false;
    mkAttr None (bytes "VERSION") [] [bytes "2.1"] [] EVC_ENCODING_RAW false;
    mkAttr None (bytes "CATEGORIES") [] [utf8 (replicate 100 233%Z); [59; 13; 10; 44]%Z] [] EVC_ENCODING_RAW false ].

Definition card_chars : list achars :=
  [ mkChars (Some (bytes "item1")) (bytes "EMAIL") [(bytes "TYPE", [bytes "INTERNET"; bytes "at home"]); (bytes "X-N", [bytes "1"])] [bytes "a@b.org"];
    mkChars None (bytes "VERSION") [] [bytes "2.1"];
    mkChars None (bytes "CATEGORIES") [] [replicate 100 233%Z; [59; 13; 10; 44]%Z] ].

Ltac chars := repeat match goal with
  | |- Forall _ (_ :: _) => apply Forall_cons
  | |- Forall _ [] => constructor
  | |- Forall _ (bytes ?s) => let b := eval vm_compute in (bytes s) in change (bytes s) with b
  | |- _ /\ _ => split
  | |- _ = _ => reflexivity
  | |- _ <> _ => discriminate
  | |- True => exact I
  | |- (_ < _)%Z => reflexivity
  | |- _ => progress cbn [replicate map fst snd ac_group ac_name ac_params ac_values]
  | |- _ => progress unfold achars_ok, pchars_ok, is_name, is_pvalue, name_char, valid_char, not_qp
  end.

Lemma card_chars_ok : Forall achars_ok card_chars.
Proof. unfold card_chars. chars. Qed.

Lemma vcard_roundtrip_witness :
  exists text, e_vcard_to_string (fun _ => replicate 444 0%Z) (mkVCard (map Some card_example)) EVC_FORMAT_VCARD_30 = Ok text /\
    forall fuel, (length text <= fuel)%nat ->
      e_vcard_new_from_string fuel text =
        Ok (mkVCard (map Some (mkAttr None (bytes "VERSION") [] [bytes "3.0"] [] EVC_ENCODING_RAW false ::
          map reread (List.filter not_version card_example)))).
Proof.
  apply vcard_roundtrip.
  - exact Utf8Instance.glib_laws.
  - intros s. by rewrite length_replicate.
  - pose proof card_chars_ok as Hok. unfold card_chars in Hok. apply Forall_cons in Hok as [H1 Hok].
    apply Forall_cons in Hok as [H2 Hok]. apply Forall_cons in Hok as [H3 _].
    apply Forall_cons; split; [eexists; split; [exact H1|repeat split]|].
    apply Forall_cons; split; [eexists; split; [exact H2|repeat split]|].
    apply Forall_cons; split; [eexists; split; [exact H3|repeat split]|constructor].
  - repeat (constructor; [unfold distinct_names; vm_compute; repeat constructor; set_solver|]). constructor.
  - repeat (constructor; [reflexivity|]). constructor.
Defined.

(** What is read of the example: the parameters are in reverse order, the end of the line is a
    newline. *)
Example card_reread : map reread (List.filter not_version card_example) =
  [ mkAttr (Some (bytes "item1")) (bytes "EMAIL") [mkParam (bytes "X-N") [bytes "1"]; mkParam (bytes "TYPE") [bytes "INTERNET"; bytes "at home"]]
      [bytes "a@b.org"] [] EVC_ENCODING_RAW false;
    mkAttr None (bytes "CATEGORIES") [] [utf8 (replicate 100 233%Z); [59; 10; 44]%Z] [] EVC_ENCODING_RAW false ].
Proof. vm_compute. reflexivity. Qed.
