(* ===== verification/BlockStore.v ===== *)
(** * Blocks of a file: data and interface

    The index of the mail library keeps its tables in blocks of a file.  This file has the
    data of a block ([camel-block-file.h]) and the interface between the
    tables and the file: the class [BlockStore] has the operations, [BlockStoreLaws] what
    they promise.  [BlockFile] implements it; [PartitionTable] uses it. *)

From S2P Require Import Prelude.
From stdpp Require Import gmap.
#[local] Open Scope Z_scope.
#[local] Open Scope list_scope.

(** ** Data *)

Definition CAMEL_BLOCK_SIZE : Z := 1024.

(** The data of a block is read as [guint32]s; it is the list of its 256 words. *)
Definition block_words : nat := 256.

Definition zero_block : list Z := replicate block_words 0.

Definition word (d : list Z) (k : Z) : res Z := arr_get d k.
Definition set_word (d : list Z) (k v : Z) : res (list Z) := arr_set d k v.

(** A pointer to a [CamelBlock]. *)
Definition ptr : Type := positive.

(** ** The interface *)

(** What is known of a block with references to it: it has an id, data, and how many
    references there are, and whether it was taken out of the cache. *)
Record pin := mkPin {
  pin_id : Z;
  pin_data : list Z;
  pin_count : nat;
  pin_detached : bool;
}.

(** A [CamelBlock *] result may be NULL; -1 is an error. *)
Class BlockStore (B : Type) := {
  get_block : B -> Z -> res (B * option ptr);
  new_block : B -> res (B * option ptr);
  detach_block : B -> ptr -> res B;
  touch_block : B -> ptr -> res B;
  unref_block : B -> ptr -> res B;
  sync_block : B -> ptr -> res (B * Z);
  sync : B -> res (B * Z);
  (** [bl->id], [bl->data] and writing the data *)
  block_id : B -> ptr -> res Z;
  block_data : B -> ptr -> res (list Z);
  write_data : B -> ptr -> list Z -> res B;
}.

(** The blocks that were taken out of the cache. *)
Definition detached_of (P : gmap ptr pin) : gmap ptr (Z * list Z) :=
  omap (fun k => if pin_detached k then Some (pin_id k, pin_data k) else None) P.

(** Changing what is at [i]. *)
Definition change (C : Z -> list Z) (i : Z) (d : list Z) : Z -> list Z := fun j => if j =? i then d else C j.

(** The promise.  [contents] is what a block is read as; [allocated] are the blocks in use;
    [saved] is true of blocks whose data will not be lost when there are no
    references any more; there is [room] for so many blocks more. *)
Class BlockStoreLaws (B : Type) `{BlockStore B} := {
  wf : B -> Prop;
  pins : B -> gmap ptr pin;
  contents : B -> Z -> list Z;
  allocated : B -> gset Z;
  saved : B -> ptr -> Prop;
  room : B -> nat -> Prop;

  pins_ok b p k : wf b -> pins b !! p = Some k ->
    (0 < pin_count k)%nat /\ pin_id k ∈ allocated b /\ length (pin_data k) = block_words /\
    (pin_detached k = false -> contents b (pin_id k) = pin_data k);
  pins_inj b p q k l : wf b -> pins b !! p = Some k -> pins b !! q = Some l -> pin_id k = pin_id l -> p = q;
  contents_length b i : wf b -> length (contents b i) = block_words;
  allocated_ok b i : wf b -> i ∈ allocated b -> 0 < i < 2 ^ 32 /\ i mod CAMEL_BLOCK_SIZE = 0;
  room_less b n m : (m <= n)%nat -> room b n -> room b m;

  id_law b p k : wf b -> pins b !! p = Some k -> block_id b p = Ok (pin_id k);
  data_law b p k : wf b -> pins b !! p = Some k -> block_data b p = Ok (pin_data k);

  (** the block may be one that there are references to *)
  get_law b i : wf b -> i ∈ allocated b ->
    (forall q k, pins b !! q = Some k -> pin_id k = i -> pin_detached k = false) ->
    exists b' r, get_block b i = Ok (b', r) /\ wf b' /\
      (forall j, contents b' j = contents b j) /\ allocated b' = allocated b /\
      (forall q, saved b q -> saved b' q) /\ (forall n, room b n -> room b' n) /\
      match r with
      | None => pins b' = pins b
      | Some p => exists c, pins b' = <[p := mkPin i (contents b i) (S c) false]> (pins b) /\
          (pins b !! p = None -> c = O /\ saved b' p) /\
          (forall k, pins b !! p = Some k -> k = mkPin i (contents b i) c false)
      end;

  (** the root block is not for clients *)
  get_zero_law b : wf b -> get_block b 0 = Ok (b, None);

  new_law b n : wf b -> room b (S n) ->
    exists b' r, new_block b = Ok (b', r) /\ wf b' /\ (forall q, saved b q -> saved b' q) /\ room b' n /\
      match r with
      | None => pins b' = pins b /\ (forall j, contents b' j = contents b j) /\ allocated b' = allocated b /\ room b' (S n)
      | Some p => exists i, ~ i ∈ allocated b /\ pins b !! p = None /\
          pins b' = <[p := mkPin i zero_block 1 false]> (pins b) /\
          (forall j, j ∈ allocated b -> contents b' j = contents b j) /\ contents b' i = zero_block /\
          allocated b' = ({[i]} ∪ allocated b) /\ saved b' p
      end;

  detach_law b p k : wf b -> pins b !! p = Some k -> pin_detached k = false ->
    exists b', detach_block b p = Ok b' /\ wf b' /\
      pins b' = <[p := mkPin (pin_id k) (pin_data k) (pin_count k) true]> (pins b) /\
      (forall j, j <> pin_id k -> contents b' j = contents b j) /\ allocated b' = allocated b /\
      (forall q, saved b q -> saved b' q) /\ (forall n, room b n -> room b' n);

  touch_law b p k : wf b -> pins b !! p = Some k ->
    exists b', touch_block b p = Ok b' /\ wf b' /\ pins b' = pins b /\
      (forall j, contents b' j = contents b j) /\ allocated b' = allocated b /\
      saved b' p /\ (forall q, saved b q -> saved b' q) /\ (forall n, room b n -> room b' n);

  unref_law b p k : wf b -> pins b !! p = Some k -> saved b p ->
    exists b', unref_block b p = Ok b' /\ wf b' /\
      pins b' = match pin_count k with
                | S (S c) => <[p := mkPin (pin_id k) (pin_data k) (S c) (pin_detached k)]> (pins b)
                | _ => delete p (pins b)
                end /\
      (forall j, contents b' j = contents b j) /\ allocated b' = allocated b /\
      (forall q, q <> p -> saved b q -> saved b' q) /\
      ((1 < pin_count k)%nat -> saved b' p) /\ (forall n, room b n -> room b' n);

  write_law b p k d : wf b -> pins b !! p = Some k -> length d = block_words ->
    exists b', write_data b p d = Ok b' /\ wf b' /\
      pins b' = <[p := mkPin (pin_id k) d (pin_count k) (pin_detached k)]> (pins b) /\
      (forall j, contents b' j = if pin_detached k then contents b j else change (contents b) (pin_id k) d j) /\
      allocated b' = allocated b /\
      (forall q, q <> p -> saved b q -> saved b' q) /\ (forall n, room b n -> room b' n);

  (** a detached block is written to the file, for whoever gets the block next *)
  sync_block_law b p k : wf b -> pins b !! p = Some k -> saved b p ->
    exists b' ret, sync_block b p = Ok (b', ret) /\ wf b' /\ pins b' = pins b /\
      (forall j, j <> pin_id k -> contents b' j = contents b j) /\
      (ret = 0 \/ ret = -1) /\
      (ret = 0 \/ contents b (pin_id k) = pin_data k -> contents b' (pin_id k) = pin_data k) /\ allocated b' = allocated b /\
      (forall q, saved b q -> saved b' q) /\ (forall n, room b n -> room b' n);

  sync_law b : wf b ->
    exists b' ret, sync b = Ok (b', ret) /\ wf b' /\ pins b' = pins b /\
      (forall j, contents b' j = contents b j) /\ allocated b' = allocated b /\
      (forall q, saved b q -> saved b' q) /\ (forall n, room b n -> room b' n);
}.

(** Block 0 has fields of its own for the clients of a file; a client also chooses how many blocks
    are kept in memory. *)
Class RootStore (B : Type) := {
  root_field : B -> Z -> res Z;
  set_root_field : B -> Z -> Z -> res B;
  touch_root : B -> res B;
  set_cache_limit : B -> Z -> B;
}.

(** What the clients see of a file but for these fields is the same. *)
Record same_blocks {B : Type} `{BlockStoreLaws B} (b b' : B) : Prop := {
  sb_wf : wf b';
  sb_pins : pins b' = pins b;
  sb_contents : forall j, contents b' j = contents b j;
  sb_allocated : allocated b' = allocated b;
  sb_saved : forall q, saved b q -> saved b' q;
  sb_room : forall n, room b n -> room b' n;
}.

(** The first field is word 6.  States of which [good] is true do not fail, and have the fields that
    were assigned. *)
Class RootStoreLaws (B : Type) `{BlockStoreLaws B} `{!RootStore B} (good : B -> Prop) := {
  root_words : B -> list Z;

  root_field_law b k : wf b -> 6 <= k < 256 -> root_field b k = Ok (root_words b !!! Z.to_nat (k - 6));
  root_words_length b : wf b -> length (root_words b) = 250%nat;
  set_root_field_law b k v : wf b -> good b -> 6 <= k < 256 -> exists b', set_root_field b k v = Ok b' /\
    same_blocks b b' /\ good b' /\ root_words b' = <[Z.to_nat (k - 6) := v]> (root_words b);
  touch_root_law b : wf b -> good b -> exists b', touch_root b = Ok b' /\ same_blocks b b' /\ good b' /\ root_words b' = root_words b;
  set_cache_limit_law b n : wf b -> good b ->
    same_blocks b (set_cache_limit b n) /\ good (set_cache_limit b n) /\ root_words (set_cache_limit b n) = root_words b;
}.
