(* ===== verification/BlockStoreSpec.v ===== *)
(** * Blocks of a file: the view of a client

    A client sees the data of the blocks it has taken out of the cache, the contents of all
    others, and the blocks that are allocated; and it holds references.  What every operation
    of a [BlockStore] does to this view.  First, the words of a block. *)

From S2P Require Import Prelude BlockStore.
From stdpp Require Import gmap.
#[local] Open Scope Z_scope.
#[local] Open Scope list_scope.

(** ** Words *)

Lemma word_at d k : length d = block_words -> 0 <= k < 256 -> word d k = Ok (d !!! Z.to_nat k).
Proof.
  intros Hd Hk. apply arr_get_Ok. split; [lia|]. apply list_lookup_lookup_total_lt.
  rewrite Hd. unfold block_words. lia.
Qed.

Lemma set_word_at d k v : length d = block_words -> 0 <= k < 256 -> set_word d k v = Ok (<[Z.to_nat k := v]> d).
Proof. intros Hd Hk. apply arr_set_Ok. rewrite Hd. unfold block_words. lia. Qed.

Lemma get_insert_eq (d : list Z) i v : (i < length d)%nat -> <[i := v]> d !!! i = v.
Proof. intros Hi. apply list_lookup_total_insert_eq. lia. Qed.

Lemma get_insert_ne (d : list Z) i j v : i <> j -> <[i := v]> d !!! j = d !!! j.
Proof. intros Hi. by apply list_lookup_total_insert_ne. Qed.

(** ** Detached blocks *)

Lemma detached_lookup P p x : detached_of P !! p = Some x <->
  exists k, P !! p = Some k /\ pin_detached k = true /\ x = (pin_id k, pin_data k).
Proof.
  unfold detached_of. rewrite lookup_omap. destruct (P !! p) as [k|]; cbn.
  - destruct (pin_detached k) eqn:E; split; [intros [= <-]; by exists k|intros (k' & [= <-] & _ & ->); done|done|].
    intros (k' & [= <-] & E' & _). congruence.
  - split; [done|]. by intros (k & ? & _).
Qed.

Lemma detached_insert P p k : detached_of (<[p := k]> P) =
  if pin_detached k then <[p := (pin_id k, pin_data k)]> (detached_of P) else delete p (detached_of P).
Proof.
  unfold detached_of. rewrite omap_insert. by destruct (pin_detached k).
Qed.

Lemma detached_none P p : (forall k, P !! p = Some k -> pin_detached k = false) -> detached_of P !! p = None.
Proof.
  intros Hk. destruct (detached_of P !! p) as [x|] eqn:E; [|done]. apply detached_lookup in E as (k & E & Hd & _).
  by rewrite (Hk k E) in Hd.
Qed.

Lemma detached_insert_attached P p k : (forall k, P !! p = Some k -> pin_detached k = false) -> pin_detached k = false ->
  detached_of (<[p := k]> P) = detached_of P.
Proof. intros Hp Hk. rewrite detached_insert, Hk. by apply delete_id, detached_none. Qed.

Lemma detached_delete P p : (forall k, P !! p = Some k -> pin_detached k = false) -> detached_of (delete p P) = detached_of P.
Proof.
  intros Hp. unfold detached_of. rewrite omap_delete. by apply delete_id, detached_none.
Qed.

(** A chain of blocks, linked from [root] by their first words. *)
Fixpoint chained (C : Z -> list Z) (root : Z) (js : list Z) : Prop :=
  match js with
  | [] => root = 0
  | i :: js => i = root /\ root <> 0 /\ chained C (C i !!! 0%nat) js
  end.

Section client.
Context {B : Type} `{BlockStoreLaws B}.
Implicit Types (b : B) (p q pt : ptr) (i j : Z) (c : nat) (d : list Z).

(** The detached blocks. *)
Definition det b : gmap ptr (Z * list Z) := detached_of (pins b).

(** There are [c] references to the block [i] at [p]. *)
Definition held b p i c : Prop := pins b !! p = Some (mkPin i (contents b i) c false).

(** The block [i] with the data [d] is detached at [p]. *)
Definition own b p i d : Prop := det b !! p = Some (i, d).

Record same_view b b' : Prop := {
  same_det : det b' = det b;
  same_contents : forall j, contents b' j = contents b j;
  same_allocated : allocated b' = allocated b;
}.

(** References to other blocks stay. *)
Definition others_held b b' p : Prop := forall q j c, q <> p -> held b' q j c <-> held b q j c.
Definition all_held b b' : Prop := forall q j c, held b' q j c <-> held b q j c.

(** What is saved and what room there is stays, but for [p]. *)
Definition others_saved b b' p : Prop := (forall q, q <> p -> saved b q -> saved b' q) /\ forall n, room b n -> room b' n.

Lemma same_view_refl b : same_view b b.
Proof. by split. Qed.

Lemma same_view_trans b1 b2 b3 : same_view b1 b2 -> same_view b2 b3 -> same_view b1 b3.
Proof. intros [D1 C1 A1] [D2 C2 A2]. split; [congruence| |congruence]. intros j. by rewrite C2. Qed.

Lemma held_attached b p i c : held b p i c -> forall k, pins b !! p = Some k -> pin_detached k = false.
Proof. unfold held. intros -> k E. by injection E as <-. Qed.

Lemma held_inj b p q i c c' : wf b -> held b p i c -> held b q i c' -> p = q.
Proof. intros Hw Hp Hq. by apply (pins_inj b p q _ _ Hw Hp Hq). Qed.

Lemma held_id b p i j c c' : held b p i c -> held b p j c' -> i = j /\ c = c'.
Proof. unfold held. intros -> E. by injection E. Qed.

Lemma held_allocated b p i c : wf b -> held b p i c -> i ∈ allocated b /\ (0 < c)%nat.
Proof. intros Hw Hp. destruct (pins_ok b p _ Hw Hp) as (Hc & Ha & _). done. Qed.

Lemma held_data b p i c : wf b -> held b p i c -> block_data b p = Ok (contents b i) /\ block_id b p = Ok i.
Proof. intros Hw Hp. split; [by apply (data_law b p _ Hw Hp)|by apply (id_law b p _ Hw Hp)]. Qed.

Lemma own_pin b p i d : own b p i d -> exists c, pins b !! p = Some (mkPin i d c true).
Proof.
  intros (k & E & Hd & Ek)%detached_lookup. injection Ek as -> ->. exists (pin_count k). rewrite E. f_equal.
  destruct k. cbn in *. by subst.
Qed.

Lemma own_data b p i d : wf b -> own b p i d -> block_data b p = Ok d /\ block_id b p = Ok i /\ length d = block_words /\ i ∈ allocated b.
Proof.
  intros Hw [c E]%own_pin. split; [by apply (data_law b p _ Hw E)|]. split; [by apply (id_law b p _ Hw E)|].
  by destruct (pins_ok b p _ Hw E) as (_ & Ha & Hl & _).
Qed.

Lemma own_held b p q i d j c : wf b -> own b p i d -> held b q j c -> i <> j /\ p <> q.
Proof.
  intros Hw [c' E]%own_pin Hq. assert (p <> q) as Hne by (intros ->; unfold held in Hq; rewrite E in Hq; by injection Hq).
  split; [|done]. intros ->. by apply Hne, (pins_inj b p q _ _ Hw E Hq).
Qed.

Lemma own_inj b p q i d d' : wf b -> own b p i d -> own b q i d' -> p = q.
Proof. intros Hw [c E]%own_pin [c' E']%own_pin. by apply (pins_inj b p q _ _ Hw E E'). Qed.

(** ** The operations *)

Lemma get_view b i : wf b -> i ∈ allocated b -> (forall p d, ~ own b p i d) ->
  exists b' r, get_block b i = Ok (b', r) /\ wf b' /\ same_view b b' /\ (forall q, saved b q -> saved b' q) /\
    (forall n, room b n -> room b' n) /\
    match r with
    | None => all_held b b'
    | Some p => others_held b b' p /\ exists c, held b' p i (S c) /\ (held b p i c \/ c = O /\ pins b !! p = None /\ saved b' p)
    end.
Proof.
  intros Hw Hi Hno. destruct (get_law b i Hw Hi) as (b' & r & E & Hw' & Hc & Ha & Hs & Hr & Hp).
  { intros q k Hq Ek. destruct (pin_detached k) eqn:Ed; [|done]. exfalso. apply (Hno q (pin_data k)). apply detached_lookup.
    exists k. by rewrite <- Ek. }
  exists b', r. split; [done|]. split; [done|]. destruct r as [p|].
  - destruct Hp as (c & Ep & Hnew & Hold).
    assert (forall k, pins b !! p = Some k -> pin_detached k = false) as Hat by (intros k Ek; by rewrite (Hold k Ek)).
    split; [split; [unfold det; rewrite Ep; by apply detached_insert_attached|done|done]|]. split; [done|]. split; [done|]. split.
    + intros q j c' Hq. unfold held. by rewrite Ep, lookup_insert_ne, Hc by done.
    + exists c. unfold held. rewrite Ep, lookup_insert_eq, Hc. split; [done|].
      destruct (pins b !! p) as [k|] eqn:Ek; [left; by rewrite (Hold k eq_refl)|right]. by destruct (Hnew eq_refl).
  - split; [split; [by unfold det; rewrite Hp|done|done]|]. split; [done|]. split; [done|].
    intros q j c. unfold held. by rewrite Hp, Hc.
Qed.

Lemma unref_view b p i c : wf b -> held b p i c -> saved b p ->
  exists b', unref_block b p = Ok b' /\ wf b' /\ same_view b b' /\ others_held b b' p /\ others_saved b b' p /\
    ((1 < c)%nat -> held b' p i (c - 1) /\ saved b' p) /\ ((c <= 1)%nat -> pins b' !! p = None).
Proof.
  intros Hw Hp Hs. destruct (unref_law b p _ Hw Hp Hs) as (b' & E & Hw' & Ep & Hc & Ha & Hsq & Hsp & Hr).
  cbn [pin_id pin_data pin_count pin_detached] in *. pose proof (held_attached b p i c Hp) as Hat.
  exists b'. split; [done|]. split; [done|]. split; [split; [|done|done]|].
  { unfold det. rewrite Ep. destruct c as [|[|c]]; [by apply detached_delete|by apply detached_delete|].
    by apply detached_insert_attached. }
  split; [|split; [done|]].
  - intros q j c' Hq. unfold held. rewrite Ep, Hc.
    destruct c as [|[|c]]; by rewrite ?lookup_delete_ne, ?lookup_insert_ne by done.
  - split; [|intros Hle; rewrite Ep; destruct c as [|[|c]]; [apply lookup_delete_eq|apply lookup_delete_eq|lia]].
    intros Hlt. split; [|by apply Hsp]. unfold held. rewrite Ep, Hc. destruct c as [|[|c]]; [lia|lia|].
    rewrite lookup_insert_eq. do 2 f_equal; lia.
Qed.

(** Touching a block, held or detached. *)
Lemma touch_view b p k : wf b -> pins b !! p = Some k ->
  exists b', touch_block b p = Ok b' /\ wf b' /\ same_view b b' /\ all_held b b' /\
    saved b' p /\ (forall q, saved b q -> saved b' q) /\ (forall n, room b n -> room b' n).
Proof.
  intros Hw Hp. destruct (touch_law b p k Hw Hp) as (b' & E & Hw' & Ep & Hc & Ha & Hsp & Hsq & Hr).
  exists b'. split; [done|]. split; [done|]. split; [split; [by unfold det; rewrite Ep|done|done]|]. split; [|done].
  intros q j c. unfold held. by rewrite Ep, Hc.
Qed.

Lemma write_view b p i c d : wf b -> held b p i c -> length d = block_words ->
  exists b', write_data b p d = Ok b' /\ wf b' /\ det b' = det b /\ (forall j, contents b' j = change (contents b) i d j) /\
    allocated b' = allocated b /\ held b' p i c /\ others_held b b' p /\ others_saved b b' p.
Proof.
  intros Hw Hp Hd. destruct (write_law b p _ d Hw Hp Hd) as (b' & E & Hw' & Ep & Hc & Ha & Hs & Hr).
  cbn [pin_id pin_data pin_count pin_detached] in *. pose proof (held_attached b p i c Hp) as Hat.
  exists b'. split; [done|]. split; [done|]. split; [unfold det; rewrite Ep; by apply detached_insert_attached|].
  split; [done|]. split; [done|]. split; [|split; [|done]].
  - unfold held. rewrite Ep, lookup_insert_eq, Hc. unfold change. by rewrite Z.eqb_refl.
  - intros q j c' Hq. unfold held in *. rewrite Ep, lookup_insert_ne, Hc by done. unfold change.
    destruct (Z.eqb_spec j i) as [->|]; [|done].
    split; intros Hh; by destruct Hq; apply (pins_inj b q p _ _ Hw Hh Hp).
Qed.

Lemma write_own_view b p i d d' : wf b -> own b p i d -> length d' = block_words ->
  exists b', write_data b p d' = Ok b' /\ wf b' /\ det b' = <[p := (i, d')]> (det b) /\
    (forall j, contents b' j = contents b j) /\ allocated b' = allocated b /\
    all_held b b' /\ others_saved b b' p.
Proof.
  intros Hw Ho Hd. pose proof Ho as [c Hp]%own_pin. destruct (write_law b p _ d' Hw Hp Hd) as (b' & E & Hw' & Ep & Hc & Ha & Hs & Hr).
  cbn [pin_id pin_data pin_count pin_detached] in *. exists b'. split; [done|]. split; [done|].
  split; [unfold det; by rewrite Ep, detached_insert|]. split; [done|]. split; [done|]. split; [|done].
  intros q j c'. unfold held. rewrite Ep, Hc. destruct (decide (q = p)) as [->|Hne].
  - rewrite lookup_insert_eq, Hp. split; intros E'; by injection E'.
  - by rewrite lookup_insert_ne.
Qed.

Lemma new_view b n : wf b -> room b (S n) ->
  exists b' r, new_block b = Ok (b', r) /\ wf b' /\ (forall q, saved b q -> saved b' q) /\ room b' n /\
    match r with
    | None => same_view b b' /\ all_held b b'
    | Some p => exists i, ~ i ∈ allocated b /\ det b' = det b /\ (forall j, j ∈ allocated b -> contents b' j = contents b j) /\
        contents b' i = zero_block /\ allocated b' = {[i]} ∪ allocated b /\ held b' p i 1 /\ saved b' p /\
        pins b !! p = None /\ det b !! p = None /\ others_held b b' p
    end.
Proof.
  intros Hw Hr. destruct (new_law b n Hw Hr) as (b' & r & E & Hw' & Hs & Hr' & Hp). exists b', r. split; [done|]. split; [done|].
  split; [done|]. split; [done|]. destruct r as [p|].
  - destruct Hp as (i & Hi & Hn & Ep & Hc & Hz & Ha & Hsp). exists i. split; [done|].
    assert (forall k, pins b !! p = Some k -> pin_detached k = false) as Hat by (intros k Ek; congruence).
    split; [unfold det; rewrite Ep; by apply detached_insert_attached|]. split; [done|]. split; [done|]. split; [done|].
    split; [unfold held; by rewrite Ep, lookup_insert_eq, Hz|]. split; [done|]. split; [done|]. split; [by apply detached_none|].
    intros q j c Hq. unfold held. rewrite Ep, lookup_insert_ne by done.
    split; intros Hh; destruct (pins_ok b q _ Hw Hh) as (_ & Hj & _); cbn in Hj; by rewrite Hh, Hc.
  - destruct Hp as (Ep & Hc & Ha & _). split; [split; [by unfold det; rewrite Ep|done|done]|].
    intros q j c. unfold held. by rewrite Ep, Hc.
Qed.

Lemma detach_view b p i c : wf b -> held b p i c ->
  exists b', detach_block b p = Ok b' /\ wf b' /\ det b' = <[p := (i, contents b i)]> (det b) /\
    (forall j, j <> i -> contents b' j = contents b j) /\ allocated b' = allocated b /\ others_held b b' p /\
    (forall q, saved b q -> saved b' q) /\ (forall n, room b n -> room b' n).
Proof.
  intros Hw Hp. destruct (detach_law b p _ Hw Hp eq_refl) as (b' & E & Hw' & Ep & Hc & Ha & Hs & Hr).
  cbn [pin_id pin_data pin_count pin_detached] in *. exists b'. split; [done|]. split; [done|].
  split; [unfold det; by rewrite Ep, detached_insert|]. split; [done|]. split; [done|]. split; [|done].
  intros q j c' Hq. unfold held in *. rewrite Ep, lookup_insert_ne by done. destruct (decide (j = i)) as [->|Hj]; [|by rewrite Hc].
  split; intros Hh; by destruct Hq; apply (pins_inj b q p _ _ Hw Hh Hp).
Qed.

(** Nothing that there are references to would be lost. *)
Definition all_saved b : Prop := forall q j c, held b q j c -> saved b q.

Lemma all_saved_same b b' : all_saved b -> all_held b b' -> (forall q, saved b q -> saved b' q) -> all_saved b'.
Proof. intros Ha Hh Hs q j c Hq. by apply Hs, (Ha q j c), Hh. Qed.

Lemma all_saved_but b b' p : all_saved b -> others_held b b' p -> (forall q, q <> p -> saved b q -> saved b' q) ->
  (forall j c, held b' p j c -> saved b' p) -> all_saved b'.
Proof.
  intros Ha Hh Hs Hp q j c Hq. destruct (decide (q = p)) as [->|Hne]; [by apply (Hp j c)|].
  apply Hs; [done|]. by apply (Ha q j c), Hh.
Qed.

(** Getting a block when everything is saved. *)
Lemma get_saved b i : wf b -> all_saved b -> i ∈ allocated b -> (forall p d, ~ own b p i d) ->
  exists b' r, get_block b i = Ok (b', r) /\ wf b' /\ same_view b b' /\ all_saved b' /\ (forall q, saved b q -> saved b' q) /\
    (forall n, room b n -> room b' n) /\
    match r with
    | None => all_held b b'
    | Some p => others_held b b' p /\ (forall j c, held b p j c -> j = i) /\ exists c, held b' p i (S c)
    end.
Proof.
  intros Hw Ha Hi Hno. destruct (get_view b i Hw Hi Hno) as (b' & r & E & Hw' & Hv & Hs & Hr & Hp).
  exists b', r. split; [done|]. split; [done|]. split; [done|]. destruct r as [p|].
  - destruct Hp as (Ho & c & Hc & Hor). split; [|do 3 (split; [done|]); split; [|by eauto]].
    2:{ intros j c' Hh. destruct Hor as [Hh'|(_ & Hn & _)]; [by destruct (held_id _ _ _ _ _ _ Hh Hh')|].
      unfold held in Hh. congruence. }
    apply (all_saved_but b b' p Ha Ho); [auto|]. intros _ _ _. destruct Hor as [Hh|(_ & _ & Hsp)]; [|done].
    by apply Hs, (Ha p i c).
  - split; [by apply (all_saved_same b)|done].
Qed.

(** Giving it back. *)
Lemma unref_saved b p i c : wf b -> all_saved b -> held b p i c ->
  exists b', unref_block b p = Ok b' /\ wf b' /\ same_view b b' /\ all_saved b' /\ others_held b b' p /\ others_saved b b' p.
Proof.
  intros Hw Ha Hp. destruct (unref_view b p i c Hw Hp (Ha _ _ _ Hp)) as (b' & E & Hw' & Hv & Ho & Hs & Hc & Hn).
  exists b'. split; [done|]. split; [done|]. split; [done|]. split; [|done].
  apply (all_saved_but b b' p Ha Ho (proj1 Hs)). intros j c' Hh. destruct (decide (1 < c)%nat) as [Hlt|Hle]; [by apply Hc|].
  unfold held in Hh. rewrite Hn in Hh by lia. done.
Qed.

(** Writing a block that is held, and touching it. *)
Lemma write_touch b q i c d : wf b -> all_saved b -> held b q i c -> length d = block_words ->
  exists b' b1, write_data b q d = Ok b1 /\ touch_block b1 q = Ok b' /\ wf b' /\ all_saved b' /\ det b' = det b /\
    (forall j, contents b' j = change (contents b) i d j) /\ allocated b' = allocated b /\ held b' q i c /\
    (forall p, saved b p -> saved b' p).
Proof.
  intros Hw Hs Hq Hd. destruct (write_view b q i c d Hw Hq Hd) as (b1 & E1 & Hw1 & Ed1 & Ec1 & Ea1 & Hq1 & Ho1 & Hs1).
  destruct (touch_view b1 q _ Hw1 Hq1) as (b2 & E2 & Hw2 & [Ed2 Ec2 Ea2] & Ho2 & Hsq & Hs2 & _).
  exists b2, b1. split; [done|]. split; [done|]. split; [done|]. split; [|split; [congruence|split; [by intros j; rewrite Ec2|split; [congruence|split]]]].
  - intros q' j c' Hh. destruct (decide (q' = q)) as [->|Hne]; [done|]. apply Hs2, Hs1; [done|]. apply (Hs q' j c'), Ho1; [done|]. by apply Ho2.
  - by apply Ho2.
  - intros p Hp. destruct (decide (p = q)) as [->|Hne]; [done|]. by apply Hs2, Hs1.
Qed.

(** ** Detached blocks *)

Lemma own_pins b p i d : own b p i d <-> exists c, pins b !! p = Some (mkPin i d c true).
Proof.
  split; [apply own_pin|]. intros [c E]. apply detached_lookup. by exists (mkPin i d c true).
Qed.

Lemma sync_own_view b p i d : wf b -> own b p i d -> saved b p ->
  exists b' ret, sync_block b p = Ok (b', ret) /\ wf b' /\ det b' = det b /\ (forall j, j <> i -> contents b' j = contents b j) /\
    (ret = 0 \/ ret = -1) /\ (ret = 0 \/ contents b i = d -> contents b' i = d) /\ allocated b' = allocated b /\ all_held b b' /\
    (forall q, saved b q -> saved b' q) /\ (forall n, room b n -> room b' n).
Proof.
  intros Hw Ho Hs. pose proof Ho as [c Hp]%own_pin.
  destruct (sync_block_law b p _ Hw Hp Hs) as (b' & ret & E & Hw' & Ep & Hc & Hret & Hci & Ha & Hsq & Hr). cbn [pin_id pin_data] in *.
  assert (det b' = det b) as Ed by (unfold det; by rewrite Ep). exists b', ret. do 4 (split; [done|]). do 3 (split; [done|]). split; [|done].
  assert (own b' p i d) as Ho' by (unfold own; by rewrite Ed).
  intros q j c0. split; intros Hq.
  - destruct (own_held b' p q i d j c0 Hw' Ho' Hq) as [Hne _]. unfold held in *. by rewrite <- Ep, <- Hc by done.
  - destruct (own_held b p q i d j c0 Hw Ho Hq) as [Hne _]. unfold held in *. by rewrite Ep, Hc by done.
Qed.

Lemma unref_own_view b p i d : wf b -> own b p i d -> saved b p ->
  exists b', unref_block b p = Ok b' /\ wf b' /\ (forall q, q <> p -> det b' !! q = det b !! q) /\
    (forall j, contents b' j = contents b j) /\ allocated b' = allocated b /\ all_held b b' /\
    (forall q, q <> p -> saved b q -> saved b' q) /\ (forall n, room b n -> room b' n).
Proof.
  intros Hw Ho Hs. pose proof Ho as [c Hp]%own_pin.
  destruct (unref_law b p _ Hw Hp Hs) as (b' & E & Hw' & Ep & Hc & Ha & Hsq & _ & Hr). cbn [pin_id pin_data pin_count pin_detached] in *.
  assert (forall q, q <> p -> pins b' !! q = pins b !! q) as Hq.
  { intros q Hq. rewrite Ep. destruct c as [|[|c]]; by rewrite ?lookup_delete_ne, ?lookup_insert_ne by done. }
  exists b'. do 2 (split; [done|]). split; [|do 2 (split; [done|]); split; [|done]].
  - intros q Hne. unfold det, detached_of. by rewrite !lookup_omap, Hq.
  - intros q j c0. destruct (decide (q = p)) as [->|Hne]; [|unfold held; by rewrite Hq, Hc]. unfold held. rewrite Hp.
    split; [|by intros ?]. rewrite Ep. destruct c as [|[|c]]; rewrite ?lookup_delete_eq, ?lookup_insert_eq; try done; by intros ?.
Qed.

(** Getting a block in use failed, or allocating one for which there is room. *)
Definition refused : Prop :=
  exists b b', wf b /\ ((exists i, i ∈ allocated b /\ get_block b i = Ok (b', None)) \/ (exists n, room b (S n) /\ new_block b = Ok (b', None))).

Lemma refused_get b b' i : wf b -> i ∈ allocated b -> get_block b i = Ok (b', None) -> refused.
Proof. intros Hw Hi E. exists b, b'. split; [done|]. left. by exists i. Qed.

Lemma refused_new b b' n : wf b -> room b (S n) -> new_block b = Ok (b', None) -> refused.
Proof. intros Hw Hr E. exists b, b'. split; [done|]. right. by exists n. Qed.

(** States in which getting a block does not fail. *)
Class Healthy (healthy : B -> Prop) : Prop := {
  healthy_get b b' i r : healthy b -> wf b -> i ∈ allocated b -> get_block b i = Ok (b', r) -> r <> None /\ healthy b';
  healthy_unref b b' p k : healthy b -> wf b -> pins b !! p = Some k -> unref_block b p = Ok b' -> healthy b';
  healthy_detach b b' p : healthy b -> wf b -> detach_block b p = Ok b' -> healthy b';
}.

End client.
Arguments refused B {H H0}.
