(* ===== verification/BlockFile.v ===== *)
(** * Files of blocks ([camel-block-file.c])

    [src/camel/camel-block-file.c]: a file of blocks of 1024 bytes, with a cache of the blocks
    in memory.  Block 0 has the end of the file and the head of the list of free blocks.  The
    cache keeps blocks without references until it is full; blocks that were touched
    are written before they are dropped, and when the file is synced.

    The state has the blocks in memory by their pointers, the cache, the file and what the
    system calls to come will do: an entry of [faults] for every call, [None] if it succeeds.
    Other files that are open only matter by closing this one for a time ([block_file_offline]).
    A number of references does not overflow: each is a pointer somebody holds. *)

From stdpp Require Import gmap.
From S2P Require Import Prelude BlockStore.
#[local] Open Scope Z_scope.
#[local] Open Scope list_scope.

(** ** Data *)

Definition CAMEL_BLOCK_FILE_SYNC : Z := 1.

(** [struct _CamelBlock]: two bits of [flags]. *)
Record CamelBlock := mkBlock {
  bl_id : Z;
  bl_dirty : bool;
  bl_detached : bool;
  bl_refcount : Z;
  bl_data : list Z;
}.

(** What is in the file: blocks, zeros in between and behind the end, and its size. *)
Record file := mkDisk {
  f_blocks : gmap Z (list Z);
  f_size : Z;
}.

Definition read_disk (f : file) (i : Z) : list Z := default zero_block (f_blocks f !! i).
Definition write_disk (f : file) (i : Z) (d : list Z) (len : Z) : file :=
  mkDisk (<[i := d]> (f_blocks f)) (Z.max (f_size f) (i + len)).
Definition truncate_disk (f : file) (len : Z) : file :=
  mkDisk (filter (fun '(i, _) => i < len) (f_blocks f)) len.

(** [struct _CamelBlockFile], whose [root] is the data of [root_block]; [online] is [fd != -1].
    [version] has two words. *)
Record CamelBlockFile := mkFile {
  version : list Z;
  online : bool;
  root_block : option ptr;
  block_cache_limit : Z;
  block_cache_count : Z;
  block_cache : list ptr;
  blocks : gmap Z ptr;
  heap : gmap ptr CamelBlock;
  disk : file;
  faults : list (option Z);
}.

Definition block_size : Z := CAMEL_BLOCK_SIZE.

(** Assignments to the fields. *)
Definition set_online (bs : CamelBlockFile) (x : bool) : CamelBlockFile :=
  mkFile (version bs) x (root_block bs) (block_cache_limit bs) (block_cache_count bs) (block_cache bs) (blocks bs) (heap bs) (disk bs) (faults bs).
Definition set_root_block (bs : CamelBlockFile) (x : option ptr) : CamelBlockFile :=
  mkFile (version bs) (online bs) x (block_cache_limit bs) (block_cache_count bs) (block_cache bs) (blocks bs) (heap bs) (disk bs) (faults bs).
Definition set_count (bs : CamelBlockFile) (x : Z) : CamelBlockFile :=
  mkFile (version bs) (online bs) (root_block bs) (block_cache_limit bs) x (block_cache bs) (blocks bs) (heap bs) (disk bs) (faults bs).
Definition set_limit (bs : CamelBlockFile) (x : Z) : CamelBlockFile :=
  mkFile (version bs) (online bs) (root_block bs) x (block_cache_count bs) (block_cache bs) (blocks bs) (heap bs) (disk bs) (faults bs).
Definition set_cache (bs : CamelBlockFile) (x : list ptr) : CamelBlockFile :=
  mkFile (version bs) (online bs) (root_block bs) (block_cache_limit bs) (block_cache_count bs) x (blocks bs) (heap bs) (disk bs) (faults bs).
Definition set_blocks (bs : CamelBlockFile) (x : gmap Z ptr) : CamelBlockFile :=
  mkFile (version bs) (online bs) (root_block bs) (block_cache_limit bs) (block_cache_count bs) (block_cache bs) x (heap bs) (disk bs) (faults bs).
Definition set_heap (bs : CamelBlockFile) (x : gmap ptr CamelBlock) : CamelBlockFile :=
  mkFile (version bs) (online bs) (root_block bs) (block_cache_limit bs) (block_cache_count bs) (block_cache bs) (blocks bs) x (disk bs) (faults bs).
Definition set_disk (bs : CamelBlockFile) (x : file) : CamelBlockFile :=
  mkFile (version bs) (online bs) (root_block bs) (block_cache_limit bs) (block_cache_count bs) (block_cache bs) (blocks bs) (heap bs) x (faults bs).
Definition set_faults (bs : CamelBlockFile) (x : list (option Z)) : CamelBlockFile :=
  mkFile (version bs) (online bs) (root_block bs) (block_cache_limit bs) (block_cache_count bs) (block_cache bs) (blocks bs) (heap bs) (disk bs) x.

(** The next system call. *)
Definition next_call (bs : CamelBlockFile) : CamelBlockFile * option Z :=
  match faults bs with
  | [] => (bs, None)
  | f :: fs => (set_faults bs fs, f)
  end.

(** ** Blocks in memory *)

(** [*bl] *)
Definition get_bl (bs : CamelBlockFile) (p : ptr) : res CamelBlock :=
  match heap bs !! p with Some bl => Ok bl | None => Undef end.
Definition put_bl (bs : CamelBlockFile) (p : ptr) (bl : CamelBlock) : CamelBlockFile := set_heap bs (<[p := bl]> (heap bs)).
Definition free_bl (bs : CamelBlockFile) (p : ptr) : CamelBlockFile := set_heap bs (delete p (heap bs)).

(** [g_malloc0]: a pointer that is not used. *)
Definition g_malloc0 (bs : CamelBlockFile) : ptr := Pos.succ (map_fold (fun p _ q => Pos.max p q) 1%positive (heap bs)).

Definition with_dirty (bl : CamelBlock) (x : bool) : CamelBlock :=
  mkBlock (bl_id bl) x (bl_detached bl) (bl_refcount bl) (bl_data bl).
Definition with_detached (bl : CamelBlock) (x : bool) : CamelBlock :=
  mkBlock (bl_id bl) (bl_dirty bl) x (bl_refcount bl) (bl_data bl).
Definition with_refcount (bl : CamelBlock) (x : Z) : CamelBlock :=
  mkBlock (bl_id bl) (bl_dirty bl) (bl_detached bl) x (bl_data bl).
Definition with_data (bl : CamelBlock) (x : list Z) : CamelBlock :=
  mkBlock (bl_id bl) (bl_dirty bl) (bl_detached bl) (bl_refcount bl) x.

(** [e_dlist_remove]; a node must be in the list. *)
Definition unlink (bs : CamelBlockFile) (p : ptr) : res CamelBlockFile :=
  if bool_decide (p ∈ block_cache bs) then Ok (set_cache bs (filter (fun q => q <> p) (block_cache bs))) else Undef.

(** [bs->root_block], which must not be NULL, and the fields of [bs->root]. *)
Definition root_ptr (bs : CamelBlockFile) : res ptr :=
  match root_block bs with Some r => Ok r | None => Undef end.
Definition root_word (bs : CamelBlockFile) (k : Z) : res Z := r ← root_ptr bs; bl ← get_bl bs r; word (bl_data bl) k.
Definition set_root_word (bs : CamelBlockFile) (k v : Z) : res CamelBlockFile :=
  r ← root_ptr bs; bl ← get_bl bs r; d ← set_word (bl_data bl) k v; Ok (put_bl bs r (with_data bl d)).

Definition root_flags (bs : CamelBlockFile) : res Z := root_word bs 2.
Definition set_root_flags (bs : CamelBlockFile) (v : Z) : res CamelBlockFile := set_root_word bs 2 v.
Definition root_free (bs : CamelBlockFile) : res Z := root_word bs 4.
Definition set_root_free (bs : CamelBlockFile) (v : Z) : res CamelBlockFile := set_root_word bs 4 v.
Definition root_last (bs : CamelBlockFile) : res Z := root_word bs 5.
Definition set_root_last (bs : CamelBlockFile) (v : Z) : res CamelBlockFile := set_root_word bs 5 v.

(** [bl->flags |= CAMEL_BLOCK_DIRTY] *)
Definition mark_dirty (bs : CamelBlockFile) (p : ptr) : res CamelBlockFile :=
  bl ← get_bl bs p; Ok (put_bl bs p (with_dirty bl true)).
Definition root_dirty (bs : CamelBlockFile) : res CamelBlockFile := r ← root_ptr bs; mark_dirty bs r.

(** ** The file *)

(** Opening the file if it is not open; -1 if that fails. *)
Definition block_file_use (bs : CamelBlockFile) : CamelBlockFile * Z :=
  if online bs then (bs, 0)
  else
    let '(bs, f) := next_call bs in
    match f with Some _ => (bs, -1) | None => (set_online bs true, 0) end.

(** A word of which the low [r] bytes were written. *)
Definition torn_word (r : Z) (new old : Z) : Z :=
  Z.lor (Z.land new (Z.ones (8 * r))) (Z.ldiff old (Z.ones (8 * r))).
(** A block of which [n] bytes were written. *)
Fixpoint torn (n : Z) (new old : list Z) : list Z :=
  match new, old with
  | a :: new, b :: old => (if 4 <=? n then a else if n <=? 0 then b else torn_word n a b) :: torn (n - 4) new old
  | _, _ => old
  end.

(** Seeking and writing; a call that fails may have written a part. *)
Definition sync_block_nolock (bs : CamelBlockFile) (p : ptr) : res (CamelBlockFile * Z) :=
  bl ← get_bl bs p;
  if bl_dirty bl then
    let '(bs, f) := next_call bs in
    match f with
    | Some n =>
        let d := torn n (bl_data bl) (read_disk (disk bs) (bl_id bl)) in
        Ok (if 0 <? n then set_disk bs (write_disk (disk bs) (bl_id bl) d (Z.min n CAMEL_BLOCK_SIZE)) else bs, -1)
    | None =>
        let bs := set_disk bs (write_disk (disk bs) (bl_id bl) (bl_data bl) CAMEL_BLOCK_SIZE) in
        Ok (put_bl bs p (with_dirty bl false), 0)
    end
  else Ok (bs, 0).

(** All blocks of a part of the cache: whether there was one to write, and -1 if that failed. *)
Fixpoint sync_cache (bs : CamelBlockFile) (l : list ptr) : res (CamelBlockFile * bool * Z) :=
  match l with
  | [] => Ok (bs, false, 0)
  | p :: l =>
      bl ← get_bl bs p;
      if bl_dirty bl then
        '(bs, ret) ← sync_block_nolock bs p;
        if ret =? -1 then Ok (bs, true, -1)
        else '(bs, _, ret) ← sync_cache bs l; Ok (bs, true, ret)
      else sync_cache bs l
  end.

Definition sync_nolock (bs : CamelBlockFile) : res (CamelBlockFile * Z) :=
  '(bs, work, ret) ← sync_cache bs (block_cache bs);
  if ret =? -1 then Ok (bs, -1) else
  r ← root_ptr bs;
  bl ← get_bl bs r;
  flags ← root_flags bs;
  if negb work && negb (bl_dirty bl) && negb (Z.land flags CAMEL_BLOCK_FILE_SYNC =? 0) then Ok (bs, 0)
  else
    bs ← set_root_flags bs (Z.lor flags CAMEL_BLOCK_FILE_SYNC);
    bs ← mark_dirty bs r;
    sync_block_nolock bs r.

Definition camel_block_file_sync_block (bs : CamelBlockFile) (p : ptr) : res (CamelBlockFile * Z) :=
  let '(bs, ret) := block_file_use bs in
  if ret =? -1 then Ok (bs, -1) else sync_block_nolock bs p.

Definition camel_block_file_sync (bs : CamelBlockFile) : res (CamelBlockFile * Z) :=
  let '(bs, ret) := block_file_use bs in
  if ret =? -1 then Ok (bs, -1) else sync_nolock bs.

(** What using another file does to this one, when too many are open. *)
Definition block_file_offline (bs : CamelBlockFile) : res CamelBlockFile :=
  if online bs then '(bs, _) ← sync_nolock bs; Ok (set_online bs false) else Ok bs.

(** ** The cache *)

(** Dropping old blocks: the cache from its end. *)
Fixpoint flush_loop (bs : CamelBlockFile) (l : list ptr) : res CamelBlockFile :=
  match l with
  | [] => Ok bs
  | flush :: l =>
      if block_cache_limit bs <? block_cache_count bs then
        bl ← get_bl bs flush;
        bs ← (if bl_refcount bl =? 0 then
                '(bs, ret) ← sync_block_nolock bs flush;
                if ret =? -1 then Ok bs
                else
                  let bs := set_blocks bs (delete (bl_id bl) (blocks bs)) in
                  bs ← unlink bs flush;
                  Ok (set_count (free_bl bs flush) (block_cache_count bs - 1))
              else Ok bs);
        flush_loop bs l
      else Ok bs
  end.

(** The block at the head of the cache, with a reference more. *)
Definition use_block (bs : CamelBlockFile) (p : ptr) : res CamelBlockFile :=
  let bs := set_cache bs (p :: block_cache bs) in
  bl ← get_bl bs p;
  Ok (put_bl bs p (with_refcount bl (bl_refcount bl + 1))).

(** The ids [camel_block_file_get_block] refuses. *)
Definition invalid_id (bs : CamelBlockFile) (id : Z) : res bool :=
  bad ← match root_block bs with
        | None => Ok (negb (id =? 0))
        | Some _ => last ← root_last bs; Ok ((last <? id) || (id =? 0))
        end;
  Ok (bad || negb (id mod block_size =? 0)).

Definition camel_block_file_get_block (bs : CamelBlockFile) (id : Z) : res (CamelBlockFile * option ptr) :=
  bad ← invalid_id bs id;
  if (bad : bool) then Ok (bs, None) else
  match blocks bs !! id with
  | Some p =>
      bs ← unlink bs p;
      bs ← use_block bs p;
      Ok (bs, Some p)
  | None =>
      let '(bs, ret) := block_file_use bs in
      if ret =? -1 then Ok (bs, None) else
      let '(bs, f) := next_call bs in
      match f with
      | Some _ => Ok (bs, None)
      | None =>
          let p := g_malloc0 bs in
          let bs := put_bl bs p (mkBlock id false false 0 (read_disk (disk bs) id)) in
          let bs := set_count bs (block_cache_count bs + 1) in
          let bs := set_blocks bs (<[id := p]> (blocks bs)) in
          bs ← flush_loop bs (rev (block_cache bs));
          bs ← use_block bs p;
          Ok (bs, Some p)
      end
  end.

Definition camel_block_file_detach_block (bs : CamelBlockFile) (p : ptr) : res CamelBlockFile :=
  bl ← get_bl bs p;
  let bs := set_blocks bs (delete (bl_id bl) (blocks bs)) in
  bs ← unlink bs p;
  Ok (put_bl bs p (with_detached bl true)).

Definition camel_block_file_attach_block (bs : CamelBlockFile) (p : ptr) : res CamelBlockFile :=
  bl ← get_bl bs p;
  let bs := set_blocks bs (<[bl_id bl := p]> (blocks bs)) in
  let bs := set_cache bs (block_cache bs ++ [p]) in
  Ok (put_bl bs p (with_detached bl false)).

Definition camel_block_file_touch_block (bs : CamelBlockFile) (p : ptr) : res CamelBlockFile :=
  bs ← mark_dirty bs p;
  flags ← root_flags bs;
  r ← root_ptr bs;
  if negb (Z.land flags CAMEL_BLOCK_FILE_SYNC =? 0) && negb (bool_decide (p = r)) then
    bs ← set_root_flags bs (Z.ldiff flags CAMEL_BLOCK_FILE_SYNC);
    bs ← mark_dirty bs r;
    '(bs, _) ← camel_block_file_sync_block bs r;
    Ok bs
  else Ok bs.

Definition camel_block_file_unref_block (bs : CamelBlockFile) (p : ptr) : res CamelBlockFile :=
  bl ← get_bl bs p;
  if (bl_refcount bl =? 1) && bl_detached bl then Ok (free_bl bs p)
  else Ok (put_bl bs p (with_refcount bl (bl_refcount bl - 1))).

(** ** Allocating blocks *)

Definition camel_block_file_new_block (bs : CamelBlockFile) : res (CamelBlockFile * option ptr) :=
  free ← root_free bs;
  '(bs, r) ←
    (if negb (free =? 0) then
       '(bs, r) ← camel_block_file_get_block bs free;
       match r with
       | None => Ok (bs, None)
       | Some p => bl ← get_bl bs p; next ← word (bl_data bl) 0; bs ← set_root_free bs next; Ok (bs, Some p)
       end
     else
       last ← root_last bs;
       '(bs, r) ← camel_block_file_get_block bs last;
       match r with
       | None => Ok (bs, None)
       | Some p => bs ← set_root_last bs (u32 (last + CAMEL_BLOCK_SIZE)); Ok (bs, Some p)
       end);
  match r with
  | None => Ok (bs, None)
  | Some p =>
      bs ← root_dirty bs;
      bs ← mark_dirty bs p;
      bl ← get_bl bs p;
      Ok (put_bl bs p (with_data bl zero_block), Some p)
  end.

Definition camel_block_file_free_block (bs : CamelBlockFile) (id : Z) : res (CamelBlockFile * Z) :=
  '(bs, r) ← camel_block_file_get_block bs id;
  match r with
  | None => Ok (bs, -1)
  | Some p =>
      free ← root_free bs;
      bl ← get_bl bs p;
      d ← set_word (bl_data bl) 0 free;
      let bs := put_bl bs p (with_data bl d) in
      bs ← set_root_free bs (bl_id bl);
      bs ← root_dirty bs;
      bs ← mark_dirty bs p;
      bs ← camel_block_file_unref_block bs p;
      Ok (bs, 0)
  end.

(** ** Opening and closing *)

(** What a kind of block file does with its root block ([CamelBlockFileClass]). *)
Record CamelBlockFileClass := mkClass {
  validate_root : CamelBlockFile -> res (CamelBlockFile * Z);
  init_root : CamelBlockFile -> res CamelBlockFile;
}.

Definition block_file_validate_root (bs : CamelBlockFile) : res (CamelBlockFile * Z) :=
  let '(bs, retval) := next_call bs in
  let size := f_size (disk bs) in
  v0 ← root_word bs 0; v1 ← root_word bs 1;
  flags ← root_flags bs; bsize ← root_word bs 3; free ← root_free bs; last ← root_last bs;
  if (last =? 0) || negb (bool_decide ([v0; v1] = version bs)) || negb (bsize =? block_size)
     || negb (free mod block_size =? 0) || negb (last mod block_size =? 0)
     || negb (bool_decide (retval = None)) || negb (size =? last) || (size <? free)
     || (Z.land flags CAMEL_BLOCK_FILE_SYNC =? 0)
  then Ok (bs, -1) else Ok (bs, 0).

Definition block_file_init_root (bs : CamelBlockFile) : res CamelBlockFile :=
  match root_block bs, version bs with
  | Some r, [v0; v1] =>
      bl ← get_bl bs r;
      d ← set_word zero_block 0 v0; d ← set_word d 1 v1;
      d ← set_word d 5 block_size; d ← set_word d 2 CAMEL_BLOCK_FILE_SYNC; d ← set_word d 4 0; d ← set_word d 3 block_size;
      Ok (put_bl bs r (with_data bl d))
  | _, _ => Undef
  end.

Definition base_class : CamelBlockFileClass := mkClass block_file_validate_root block_file_init_root.

(** What is in the file in the end. *)
Definition camel_block_file_finalise (bs : CamelBlockFile) : res (file * list (option Z)) :=
  match root_block bs with
  | None => Ok (disk bs, faults bs)
  | Some _ => '(bs, _) ← camel_block_file_sync bs; Ok (disk bs, faults bs)
  end.

Definition ftruncate (bs : CamelBlockFile) (len : Z) : CamelBlockFile * Z :=
  let '(bs, f) := next_call bs in
  match f with Some _ => (bs, -1) | None => (set_disk bs (truncate_disk (disk bs) len), 0) end.

(** The file, or what is left of it when it cannot be opened. *)
Definition camel_block_file_new (klass : CamelBlockFileClass) (f : file) (calls : list (option Z)) (ver : list Z)
    : res (CamelBlockFile + file * list (option Z)) :=
  let fail bs := e ← camel_block_file_finalise bs; Ok (inr e) in
  let bs := mkFile ver false None 256 0 [] ∅ ∅ f calls in
  '(bs, r) ← camel_block_file_get_block bs 0;
  match r with
  | None => fail bs
  | Some r =>
      bs ← camel_block_file_detach_block bs r;
      let bs := set_root_block bs (Some r) in
      '(bs, ret) ← validate_root klass bs;
      if ret =? -1 then
        bs ← init_root klass bs;
        bs ← camel_block_file_touch_block bs r;
        let '(bs, ret) := block_file_use bs in
        if ret =? -1 then fail bs else
        '(bs, ret) ← sync_block_nolock bs r;
        if ret =? -1 then fail bs else
        last ← root_last bs;
        let '(bs, ret) := ftruncate bs last in
        if ret =? -1 then fail bs else Ok (inl bs)
      else Ok (inl bs)
  end.

(** ** The interface *)

#[export] Instance BlockStore_file : BlockStore CamelBlockFile := {
  get_block := camel_block_file_get_block;
  new_block := camel_block_file_new_block;
  detach_block := camel_block_file_detach_block;
  touch_block := camel_block_file_touch_block;
  unref_block := camel_block_file_unref_block;
  sync_block := camel_block_file_sync_block;
  sync := camel_block_file_sync;
  block_id bs p := bl ← get_bl bs p; Ok (bl_id bl);
  block_data bs p := bl ← get_bl bs p; Ok (bl_data bl);
  write_data bs p d := bl ← get_bl bs p; Ok (put_bl bs p (with_data bl d));
}.

#[export] Instance RootStore_file : RootStore CamelBlockFile := {
  root_field := root_word;
  set_root_field := set_root_word;
  touch_root bs := r ← root_ptr bs; camel_block_file_touch_block bs r;
  set_cache_limit := set_limit;
}.
