(* ===== verification/BlockFileInv.v ===== *)
(** * Files of blocks: the invariant

    The cache and the blocks in memory agree with each other and with the file: what a block
    is read as is in memory or in the file, blocks without references that would not be
    written are in the file, the free blocks are a chain.  What the primitive changes
    keep of this. *)

From stdpp Require Import gmap.
From S2P Require Import Prelude BlockStore BlockFile.
#[local] Open Scope Z_scope.
#[local] Open Scope list_scope.

Implicit Types (bs : CamelBlockFile) (p q r : ptr) (bl : CamelBlock) (lim : Z) (fl : list Z) (x : list ptr).

(** ** The contents of the file *)

Definition root_data bs : list Z :=
  match root_block bs with
  | Some r => match heap bs !! r with Some bl => bl_data bl | None => zero_block end
  | None => zero_block
  end.
Definition first_free bs : Z := root_data bs !!! 4%nat.
Definition last_block bs : Z := root_data bs !!! 5%nat.

(** The version, and the size of a block. *)
Definition root_head bs : Prop :=
  [root_data bs !!! 0%nat; root_data bs !!! 1%nat] = version bs /\ root_data bs !!! 3%nat = block_size.

(** What the block [i] is read as. *)
Definition contents_at bs (i : Z) : list Z :=
  if i =? 0 then zero_block
  else match blocks bs !! i with
       | Some p => match heap bs !! p with Some bl => bl_data bl | None => zero_block end
       | None => read_disk (disk bs) i
       end.

Fixpoint is_chain (C : Z -> list Z) (f : Z) fl : Prop :=
  match fl with
  | [] => f = 0
  | i :: fl => f = i /\ i <> 0 /\ is_chain C (C i !!! 0%nat) fl
  end.

Fixpoint chain (n : nat) (C : Z -> list Z) (f : Z) : list Z :=
  match n with
  | O => []
  | S n => if f =? 0 then [] else f :: chain n C (C f !!! 0%nat)
  end.

(** The ids of blocks before [last]. *)
Definition valid_id (last i : Z) : Prop := 0 < i < last /\ i mod CAMEL_BLOCK_SIZE = 0.
Definition ids (last : Z) : list Z := map (fun k => CAMEL_BLOCK_SIZE * Z.of_nat k) (seq 1 (Z.to_nat (last / CAMEL_BLOCK_SIZE) - 1)).

Definition free_list bs : list Z := chain (Z.to_nat (last_block bs / CAMEL_BLOCK_SIZE)) (contents_at bs) (first_free bs).
Definition allocated_blocks bs : gset Z := list_to_set (ids (last_block bs)) ∖ list_to_set (free_list bs).

Lemma is_chain_ext C C' f fl : (forall i, i ∈ fl -> C' i = C i) -> is_chain C f fl -> is_chain C' f fl.
Proof.
  revert f. induction fl as [|i fl IH]; intros f Hc Hf; [done|]. destruct Hf as (-> & Hi & Hf). do 2 (split; [done|]).
  rewrite Hc by apply list_elem_of_here. apply IH; [|done]. intros j Hj. apply Hc. by apply list_elem_of_further.
Qed.

Lemma chain_ok C f fl n : is_chain C f fl -> (length fl <= n)%nat -> chain n C f = fl.
Proof.
  revert f n. induction fl as [|i fl IH]; intros f n Hf Hn.
  - cbn in Hf. subst. by destruct n.
  - destruct Hf as (-> & Hi & Hf). destruct n as [|n]; [cbn in Hn; lia|]. cbn. destruct (Z.eqb_spec i 0); [done|].
    f_equal. apply IH; [done|]. cbn in Hn. lia.
Qed.

Lemma elem_of_ids last i : last mod CAMEL_BLOCK_SIZE = 0 -> i ∈ ids last <-> valid_id last i.
Proof.
  intros Hm. unfold ids, valid_id, CAMEL_BLOCK_SIZE in *. pose proof (Z.div_mod last 1024). pose proof (Z.div_mod i 1024).
  rewrite list_elem_of_In, in_map_iff. split.
  - intros (k & <- & [Hk Hk']%in_seq). split; [lia|]. rewrite Z.mul_comm. by apply Z.mod_mul.
  - intros [Hi Hi']. exists (Z.to_nat (i / 1024)). rewrite in_seq. split; [|split]; rewrite ?Z2Nat.id; lia.
Qed.

Lemma ids_length last : length (ids last) = (Z.to_nat (last / CAMEL_BLOCK_SIZE) - 1)%nat.
Proof. unfold ids. by rewrite length_map, length_seq. Qed.

Lemma free_list_chain bs fl : is_chain (contents_at bs) (first_free bs) fl -> NoDup fl -> last_block bs mod CAMEL_BLOCK_SIZE = 0 ->
  (forall i, i ∈ fl -> valid_id (last_block bs) i) -> free_list bs = fl.
Proof.
  intros Hc Hn Hm Hv. apply chain_ok; [done|]. transitivity (length (ids (last_block bs))); [|rewrite ids_length; lia].
  apply submseteq_length, NoDup_submseteq; [done|]. intros i Hi. by apply elem_of_ids, Hv.
Qed.

(** ** The invariant *)

(** A block other than the root block.  [x] are blocks that are in the table of blocks but
    not yet in the cache; [lim] is where the blocks end. *)
Record block_inv bs lim x p bl : Prop := {
  b_data : length (bl_data bl) = block_words;
  b_id : valid_id lim (bl_id bl);
  b_refs : 0 <= bl_refcount bl;
  b_cached : bl_detached bl = false -> p ∈ x ++ block_cache bs;
  b_detached : bl_detached bl = true -> 0 < bl_refcount bl;
  b_disk : bl_refcount bl = 0 -> bl_dirty bl = false -> bl_data bl = read_disk (disk bs) (bl_id bl);
}.

Record inv bs lim fl x : Prop := {
  i_root : exists r bl, root_block bs = Some r /\ heap bs !! r = Some bl /\ bl_id bl = 0 /\ bl_detached bl = true /\
    length (bl_data bl) = block_words /\ (bl_dirty bl = false -> take 6 (bl_data bl) = take 6 (read_disk (disk bs) 0));
  i_last : 0 < last_block bs < 2 ^ 32 /\ last_block bs <= lim /\ last_block bs mod CAMEL_BLOCK_SIZE = 0;
  i_chain : is_chain (contents_at bs) (first_free bs) fl;
  i_free : NoDup fl /\ forall i, i ∈ fl -> valid_id (last_block bs) i;
  i_blocks : forall i p, blocks bs !! i = Some p <-> p ∈ x ++ block_cache bs /\ exists bl, heap bs !! p = Some bl /\ bl_id bl = i;
  i_cache : NoDup (x ++ block_cache bs);
  i_attached : forall p, p ∈ x ++ block_cache bs -> exists bl, heap bs !! p = Some bl /\ bl_detached bl = false;
  i_block : forall p bl, heap bs !! p = Some bl -> root_block bs <> Some p -> block_inv bs lim x p bl;
  i_ids : forall p q bl bl', heap bs !! p = Some bl -> heap bs !! q = Some bl' -> bl_id bl = bl_id bl' -> p = q;
  i_head : root_head bs;
  i_disk : forall i d, f_blocks (disk bs) !! i = Some d -> length d = block_words;
}.

Lemma read_disk_length bs lim fl x i : inv bs lim fl x -> length (read_disk (disk bs) i) = block_words.
Proof.
  intros Hi. unfold read_disk. destruct (f_blocks (disk bs) !! i) as [d|] eqn:E; [|done]. cbn. by apply (i_disk _ _ _ _ Hi i).
Qed.

(** The root block is not in the cache. *)
Lemma root_not_cached bs lim fl x r : inv bs lim fl x -> root_block bs = Some r -> ~ r ∈ x ++ block_cache bs.
Proof.
  intros Hi Hr Hin. destruct (i_attached _ _ _ _ Hi r Hin) as (bl & E & Hd).
  destruct (i_root _ _ _ _ Hi) as (r' & bl' & Hr' & E' & _ & Hd' & _). congruence.
Qed.

Lemma cached_block bs lim fl x p bl : inv bs lim fl x -> heap bs !! p = Some bl -> root_block bs <> Some p -> bl_detached bl = false ->
  blocks bs !! bl_id bl = Some p /\ contents_at bs (bl_id bl) = bl_data bl.
Proof.
  intros Hi Hp Hr Hd. pose proof (i_block _ _ _ _ Hi p bl Hp Hr) as [_ [Hid _] _ Hc _ _].
  assert (blocks bs !! bl_id bl = Some p) as E by (apply (i_blocks _ _ _ _ Hi); split; [by apply Hc|by exists bl]).
  split; [done|]. unfold contents_at. rewrite E, Hp. destruct (Z.eqb_spec (bl_id bl) 0); [lia|done].
Qed.

(** A detached block is not what its id is read as. *)
Lemma detached_block bs lim fl x p bl : inv bs lim fl x -> heap bs !! p = Some bl -> bl_detached bl = true -> blocks bs !! bl_id bl = None.
Proof.
  intros Hi Hp Hd. destruct (blocks bs !! bl_id bl) as [q|] eqn:E; [|done].
  apply (i_blocks _ _ _ _ Hi) in E as (Hq & bl' & E' & Eid). pose proof (i_ids _ _ _ _ Hi q p _ _ E' Hp Eid) as ->.
  destruct (i_attached _ _ _ _ Hi p Hq) as (bl2 & E2 & Hd2). congruence.
Qed.

(** ** Changing a block in memory *)

Lemma lookup_put (m : gmap ptr CamelBlock) p q b c : <[p := b]> m !! q = Some c -> q = p /\ c = b \/ q <> p /\ m !! q = Some c.
Proof. intros [[-> ->]|[? ?]]%lookup_insert_Some; [by left|by right]. Qed.

Lemma root_data_put bs p bl' : root_block bs <> Some p -> root_data (put_bl bs p bl') = root_data bs.
Proof.
  intros Hr. unfold root_data. cbn. destruct (root_block bs) as [r|]; [|done]. by rewrite lookup_insert_ne by congruence.
Qed.

Lemma contents_put bs lim fl x p bl bl' i : inv bs lim fl x -> heap bs !! p = Some bl -> root_block bs <> Some p ->
  contents_at (put_bl bs p bl') i = if bl_detached bl then contents_at bs i else change (contents_at bs) (bl_id bl) (bl_data bl') i.
Proof.
  intros Hi Hp Hr. pose proof (b_id _ _ _ _ _ (i_block _ _ _ _ Hi p bl Hp Hr)) as [Hid _].
  destruct (bl_detached bl) eqn:Hd.
  - unfold contents_at. cbn. destruct (i =? 0); [done|]. destruct (blocks bs !! i) as [q|] eqn:Eq; [|done].
    rewrite lookup_insert_ne; [done|]. intros <-. apply (i_blocks _ _ _ _ Hi) in Eq as [Hq _].
    destruct (i_attached _ _ _ _ Hi p Hq) as (bl2 & E2 & Hd2). congruence.
  - destruct (cached_block _ _ _ _ _ _ Hi Hp Hr Hd) as [Eb _]. unfold change. destruct (Z.eqb_spec i (bl_id bl)) as [->|Hne].
    + unfold contents_at. cbn. destruct (Z.eqb_spec (bl_id bl) 0); [lia|]. by rewrite Eb, lookup_insert_eq.
    + unfold contents_at. cbn. destruct (i =? 0); [done|]. destruct (blocks bs !! i) as [q|] eqn:Eq; [|done].
      rewrite lookup_insert_ne; [done|]. intros <-. apply (i_blocks _ _ _ _ Hi) in Eq as (_ & bl2 & E2 & <-). congruence.
Qed.

Lemma contents_put_root bs lim fl x r bl' i : inv bs lim fl x -> root_block bs = Some r ->
  contents_at (put_bl bs r bl') i = contents_at bs i.
Proof.
  intros Hi Hr. unfold contents_at. cbn. destruct (i =? 0); [done|]. destruct (blocks bs !! i) as [q|] eqn:Eq; [|done].
  rewrite lookup_insert_ne; [done|]. intros <-. apply (i_blocks _ _ _ _ Hi) in Eq as [Hq _]. by apply (root_not_cached _ _ _ _ _ Hi Hr).
Qed.

(** The tables of blocks are not affected by what is in a block but its id. *)
Lemma tables_put bs p bl bl' : heap bs !! p = Some bl -> bl_id bl' = bl_id bl ->
  forall q i, (exists b, heap (put_bl bs p bl') !! q = Some b /\ bl_id b = i) <-> exists b, heap bs !! q = Some b /\ bl_id b = i.
Proof.
  intros Hp Hid q i. cbn. destruct (decide (q = p)) as [->|Hne]; [|by rewrite lookup_insert_ne by done].
  rewrite lookup_insert_eq, Hp. split; intros (b & [= <-] & E); eexists; (split; [done|]); congruence.
Qed.

Lemma ids_put bs p bl bl' : heap bs !! p = Some bl -> bl_id bl' = bl_id bl ->
  (forall p q bl bl', heap bs !! p = Some bl -> heap bs !! q = Some bl' -> bl_id bl = bl_id bl' -> p = q) ->
  forall q q' b b', heap (put_bl bs p bl') !! q = Some b -> heap (put_bl bs p bl') !! q' = Some b' -> bl_id b = bl_id b' -> q = q'.
Proof.
  intros Hp Hid H q q' b b' Hq Hq' E.
  destruct (proj1 (tables_put bs p bl bl' Hp Hid q (bl_id b)) (ex_intro _ b (conj Hq eq_refl))) as (c & Hc & Ec).
  destruct (proj1 (tables_put bs p bl bl' Hp Hid q' (bl_id b')) (ex_intro _ b' (conj Hq' eq_refl))) as (c' & Hc' & Ec').
  apply (H q q' c c' Hc Hc'). congruence.
Qed.

Lemma attached_put bs p bl bl' q : heap bs !! p = Some bl -> bl_detached bl' = bl_detached bl ->
  (exists b, heap bs !! q = Some b /\ bl_detached b = false) -> exists b, heap (put_bl bs p bl') !! q = Some b /\ bl_detached b = false.
Proof.
  intros Hp Hd (b & Hq & Hb). cbn. destruct (decide (q = p)) as [->|Hne]; [|exists b; by rewrite lookup_insert_ne].
  exists bl'. rewrite lookup_insert_eq. split; [done|]. congruence.
Qed.

(** Changing a block other than the root block, but not its id or whether it is detached. *)
Lemma inv_put bs lim fl x p bl bl' : inv bs lim fl x -> heap bs !! p = Some bl -> root_block bs <> Some p ->
  bl_id bl' = bl_id bl -> bl_detached bl' = bl_detached bl -> block_inv bs lim x p bl' ->
  bl_data bl' = bl_data bl \/ ~ bl_id bl ∈ fl -> inv (put_bl bs p bl') lim fl x.
Proof.
  intros Hi Hp Hr Hid Hd Hb Hdata. pose proof Hi as [H1 H2 H3 H4 H5 H6 H7 H8 H9 H11 H10].
  pose proof (root_data_put bs p bl' Hr) as Er.
  assert (last_block (put_bl bs p bl') = last_block bs) as El by (unfold last_block; by rewrite Er).
  split; try (rewrite El; done).
  - destruct H1 as (r & blr & E1 & E2 & Hrest). exists r, blr. cbn. by rewrite lookup_insert_ne by congruence.
  - unfold first_free. rewrite Er. apply (is_chain_ext (contents_at bs)); [|done]. intros i Hin.
    rewrite (contents_put _ _ _ _ _ _ _ _ Hi Hp Hr). destruct (bl_detached bl) eqn:Ed; [done|]. unfold change.
    destruct (Z.eqb_spec i (bl_id bl)) as [->|]; [|done]. destruct Hdata as [->|]; [|done].
    symmetry. by apply (cached_block _ _ _ _ _ _ Hi Hp Hr Ed).
  - intros i q. by rewrite (tables_put bs p bl bl' Hp Hid q i), <- H5.
  - done.
  - intros q Hq. by apply (attached_put bs p bl bl' q Hp Hd), H7.
  - intros q b Hq Hrq. cbn in Hq. assert (block_inv bs lim x q b) as [B1 B2 B3 B4 B5 B7].
    { destruct (decide (q = p)) as [->|Hne]; [rewrite lookup_insert_eq in Hq; by injection Hq as <-|].
      rewrite lookup_insert_ne in Hq by done. by apply H8. }
    by split.
  - by apply (ids_put bs p bl bl').
  - unfold root_head. by rewrite Er.
  - done.
Qed.

(** Changing the root block. *)
Lemma inv_put_root bs lim fl fl' x r bl bl' : inv bs lim fl x -> root_block bs = Some r -> heap bs !! r = Some bl ->
  bl_id bl' = 0 -> bl_detached bl' = true -> length (bl_data bl') = block_words ->
  (bl_dirty bl' = false -> take 6 (bl_data bl') = take 6 (read_disk (disk bs) 0)) ->
  let last := bl_data bl' !!! 5%nat in
  0 < last < 2 ^ 32 -> last <= lim -> last mod CAMEL_BLOCK_SIZE = 0 ->
  [bl_data bl' !!! 0%nat; bl_data bl' !!! 1%nat] = version bs -> bl_data bl' !!! 3%nat = block_size ->
  is_chain (contents_at bs) (bl_data bl' !!! 4%nat) fl' -> NoDup fl' -> (forall i, i ∈ fl' -> valid_id last i) ->
  inv (put_bl bs r bl') lim fl' x.
Proof.
  intros Hi Hr Hp Hid Hd Hlen Hdirty last Hlast Hlim Hmod Hv0 Hv3 Hc Hn Hv. pose proof Hi as [H1 H2 H3 H4 H5 H6 H7 H8 H9 H11 H10].
  assert (root_data (put_bl bs r bl') = bl_data bl') as Er by (unfold root_data; cbn; by rewrite Hr, lookup_insert_eq).
  assert (last_block (put_bl bs r bl') = last) as El by (unfold last_block; by rewrite Er).
  destruct H1 as (r' & blr & E1 & E2 & Ei & Ed & _). rewrite Hr in E1. injection E1 as <-. rewrite Hp in E2. injection E2 as <-.
  split.
  - exists r, bl'. cbn. by rewrite lookup_insert_eq.
  - by rewrite El.
  - unfold first_free. rewrite Er. apply (is_chain_ext (contents_at bs)); [|done]. intros i _.
    apply (contents_put_root _ _ _ _ _ _ _ Hi Hr).
  - by rewrite El.
  - intros i q. rewrite (tables_put bs r bl bl' Hp); [by rewrite <- H5|congruence].
  - done.
  - intros q Hq. apply (attached_put bs r bl bl' q Hp); [congruence|]. by apply H7.
  - intros q b Hq Hrq. cbn in Hq, Hrq. assert (q <> r) as Hqr by (intros ->; by apply Hrq). rewrite lookup_insert_ne in Hq by done.
    destruct (H8 q b Hq Hrq) as [B1 B2 B3 B4 B5 B7]. by split.
  - apply (ids_put bs r bl bl'); [done|congruence|done].
  - unfold root_head. by rewrite Er.
  - done.
Qed.

(** ** Changing the file *)

Lemma inv_write bs lim fl x i d len : inv bs lim fl x -> length d = block_words ->
  (forall p bl, heap bs !! p = Some bl -> bl_id bl = i -> bl_dirty bl = true \/ d = read_disk (disk bs) i) ->
  i = 0 \/ is_Some (blocks bs !! i) \/ ~ i ∈ fl ->
  inv (set_disk bs (write_disk (disk bs) i d len)) lim fl x /\
  forall j, contents_at (set_disk bs (write_disk (disk bs) i d len)) j =
    if (j =? i) && negb (j =? 0) && bool_decide (blocks bs !! j = None) then d else contents_at bs j.
Proof.
  intros Hi Hd Hc Hf. pose proof Hi as [H1 H2 H3 H4 H5 H6 H7 H8 H9 H11 H10]. set (bs' := set_disk _ _).
  assert (forall j, read_disk (disk bs') j = if j =? i then d else read_disk (disk bs) j) as Hrd.
  { intros j. unfold read_disk. cbn. destruct (Z.eqb_spec j i) as [->|Hne]; [by rewrite lookup_insert_eq|by rewrite lookup_insert_ne]. }
  assert (forall j, contents_at bs' j =
    if (j =? i) && negb (j =? 0) && bool_decide (blocks bs !! j = None) then d else contents_at bs j) as Hct.
  { intros j. unfold contents_at. cbn [blocks heap bs' set_disk]. destruct (j =? 0); [by rewrite !andb_false_r|].
    rewrite andb_true_r. destruct (blocks bs !! j) as [q|]; [by rewrite andb_false_r|]. rewrite andb_true_r. apply Hrd. }
  split; [|done]. split; try done.
  - destruct H1 as (r & bl & E1 & E2 & E3 & E4 & E5 & E6). exists r, bl. do 5 (split; [done|]). intros Hdirty. rewrite Hrd.
    destruct (Z.eqb_spec 0 i) as [<-|]; [|by apply E6]. destruct (Hc r bl E2 E3) as [?| ->]; [congruence|]. by apply E6.
  - apply (is_chain_ext (contents_at bs)); [|done]. intros j Hj. rewrite Hct.
    destruct (Z.eqb_spec j i) as [->|]; [|done]. destruct Hf as [->|[[q Hq]|Hf]]; [done| |done]. rewrite Hq. by rewrite andb_false_r.
  - intros p bl Hp Hr. destruct (H8 p bl Hp Hr) as [B1 B2 B3 B4 B5 B7]. split; try done. intros Hrf Hdirty. rewrite Hrd.
    destruct (Z.eqb_spec (bl_id bl) i) as [Ei|]; [|by apply B7]. destruct (Hc p bl Hp Ei) as [?| ->]; [congruence|].
    rewrite <- Ei. by apply B7.
  - intros j dj. cbn. destruct (decide (j = i)) as [->|Hne]; [rewrite lookup_insert_eq; intros [= <-]; done|].
    rewrite lookup_insert_ne by done. apply H10.
Qed.

(** ** Changing the tables *)

(** Other fields do not matter. *)
Lemma inv_online bs lim fl x b : inv bs lim fl x -> inv (set_online bs b) lim fl x.
Proof. intros [H1 H2 H3 H4 H5 H6 H7 H8 H9 H11 H10]. split; try done. intros p bl Hp Hr. by destruct (H8 p bl Hp Hr). Qed.

Lemma inv_count bs lim fl x n : inv bs lim fl x -> inv (set_count bs n) lim fl x.
Proof. intros [H1 H2 H3 H4 H5 H6 H7 H8 H9 H11 H10]. split; try done. intros p bl Hp Hr. by destruct (H8 p bl Hp Hr). Qed.

Lemma inv_faults bs lim fl x l : inv bs lim fl x -> inv (set_faults bs l) lim fl x.
Proof. intros [H1 H2 H3 H4 H5 H6 H7 H8 H9 H11 H10]. split; try done. intros p bl Hp Hr. by destruct (H8 p bl Hp Hr). Qed.

(** The order in the cache does not matter. *)
Lemma inv_move bs lim fl x x' l : inv bs lim fl x -> x' ++ l ≡ₚ x ++ block_cache bs -> inv (set_cache bs l) lim fl x'.
Proof.
  intros [H1 H2 H3 H4 H5 H6 H7 H8 H9 H11 H10] Hl. split; try done; cbn.
  - intros i p. by rewrite H5, Hl.
  - by rewrite Hl.
  - intros p Hp. apply H7. by rewrite <- Hl.
  - intros p bl Hp Hr. destruct (H8 p bl Hp Hr) as [B1 B2 B3 B4 B5 B7]. split; try done. intros Hd. cbn. rewrite Hl. by apply B4.
Qed.

Lemma chain_same bs bs' fl : (forall i, contents_at bs' i = contents_at bs i) ->
  is_chain (contents_at bs) (first_free bs) fl -> first_free bs' = first_free bs -> is_chain (contents_at bs') (first_free bs') fl.
Proof. intros Hc Hf ->. by apply (is_chain_ext (contents_at bs)). Qed.

(** A block that was read, not yet in the cache. *)
Definition load bs p id : CamelBlockFile :=
  set_blocks (put_bl bs p (mkBlock id false false 0 (read_disk (disk bs) id))) (<[id := p]> (blocks bs)).

Lemma inv_load bs lim fl x p id : inv bs lim fl x -> heap bs !! p = None -> valid_id lim id ->
  (forall q bl, heap bs !! q = Some bl -> bl_id bl <> id) ->
  inv (load bs p id) lim fl (p :: x) /\ forall i, contents_at (load bs p id) i = contents_at bs i.
Proof.
  intros Hi Hp Hv Hid. pose proof Hi as [H1 H2 H3 H4 H5 H6 H7 H8 H9 H11 H10].
  assert (root_block bs <> Some p) as Hr by (intros E; destruct H1 as (r & bl & E1 & E2 & _); congruence).
  assert (blocks bs !! id = None) as Hb.
  { destruct (blocks bs !! id) as [q|] eqn:E; [|done]. apply H5 in E as (_ & bl & E & Eid). by destruct (Hid q bl E). }
  assert (~ p ∈ x ++ block_cache bs) as Hnew by (intros Hin; destruct (H7 p Hin) as (bl & E & _); congruence).
  assert (forall i, contents_at (load bs p id) i = contents_at bs i) as Hc.
  { intros i. unfold contents_at, load. cbn. destruct (i =? 0); [done|]. destruct (decide (i = id)) as [->|Hne].
    - by rewrite lookup_insert_eq, lookup_insert_eq, Hb.
    - rewrite lookup_insert_ne by done. destruct (blocks bs !! i) as [q|] eqn:Eq; [|done].
      rewrite lookup_insert_ne; [done|]. intros <-. apply H5 in Eq as [Hq _]. done. }
  assert (root_data (load bs p id) = root_data bs) as Er.
  { unfold root_data. cbn. destruct (root_block bs); [|done]. by rewrite lookup_insert_ne by congruence. }
  assert (last_block (load bs p id) = last_block bs /\ first_free (load bs p id) = first_free bs) as [El Ef].
  { unfold last_block, first_free. by rewrite Er. }
  split; [|done]. split; try (rewrite El; done); cbn.
  - destruct H1 as (r & bl & E1 & E2 & E3). exists r, bl. by rewrite lookup_insert_ne by congruence.
  - by apply (chain_same bs).
  - intros i q. rewrite elem_of_cons. destruct (decide (i = id)) as [->|Hne].
    + rewrite lookup_insert_eq. split.
      * intros [= <-]. split; [by left|]. eexists. by rewrite lookup_insert_eq.
      * intros [_ (bl & Hq & Eid)]. destruct (decide (q = p)) as [->|Hqp]; [done|]. rewrite lookup_insert_ne in Hq by done.
        by destruct (Hid q bl Hq).
    + rewrite lookup_insert_ne, H5 by done. split.
      * intros [Hq (bl & E & Ei)]. split; [by right|]. exists bl. rewrite lookup_insert_ne; [done|]. by intros <-.
      * intros [Hq (bl & E & Ei)]. destruct (decide (q = p)) as [->|Hqp].
        { rewrite lookup_insert_eq in E. injection E as <-. by destruct Hne. }
        rewrite lookup_insert_ne in E by done. split; [by destruct Hq|by exists bl].
  - constructor; [done|done].
  - intros q [->|Hq]%elem_of_cons; [eexists; by rewrite lookup_insert_eq|].
    destruct (H7 q Hq) as (bl & E & Hd). exists bl. rewrite lookup_insert_ne; [done|]. by intros <-.
  - intros q bl Hq Hrq. destruct (decide (q = p)) as [->|Hqp].
    + rewrite lookup_insert_eq in Hq. injection Hq as <-. split; cbn; try done.
      * by apply (read_disk_length bs lim fl x).
      * intros _. apply list_elem_of_here.
    + rewrite lookup_insert_ne in Hq by done. destruct (H8 q bl Hq Hrq) as [B1 B2 B3 B4 B5 B7]. split; try done.
      intros Hd. apply list_elem_of_further. by apply B4.
  - intros q q' bl bl' [[-> ->]|[Hqp Hq]]%lookup_put [[-> ->]|[Hqp' Hq']]%lookup_put E; [done|by destruct (Hid q' bl' Hq')
      |by destruct (Hid q bl Hq)|by apply (H9 q q' bl bl')].
  - unfold root_head. by rewrite Er.
  - done.
Qed.

(** A block without references that is in the file. *)
Definition drop_block bs p id : CamelBlockFile :=
  free_bl (set_cache (set_blocks bs (delete id (blocks bs))) (filter (fun q => q <> p) (block_cache bs))) p.

Lemma filter_out (l : list ptr) p : ~ p ∈ l -> filter (fun q => q <> p) l = l.
Proof.
  induction l as [|a l IH]; intros Hp; [done|]. rewrite elem_of_cons in Hp.
  rewrite filter_cons_True by (intros ->; tauto). f_equal. apply IH. tauto.
Qed.

Lemma inv_drop bs lim fl x p bl : inv bs lim fl x -> heap bs !! p = Some bl -> p ∈ block_cache bs -> bl_refcount bl = 0 -> bl_dirty bl = false ->
  inv (drop_block bs p (bl_id bl)) lim fl x /\ forall i, contents_at (drop_block bs p (bl_id bl)) i = contents_at bs i.
Proof.
  intros Hi Hp Hcache Hrf Hdirty. pose proof Hi as [H1 H2 H3 H4 H5 H6 H7 H8 H9 H11 H10].
  assert (~ p ∈ x) as Hx by (intros Hx; apply NoDup_app in H6 as (_ & H6 & _); by apply (H6 p)).
  assert (root_block bs <> Some p) as Hr.
  { intros E. apply (root_not_cached _ _ _ _ _ Hi E). apply elem_of_app. by right. }
  assert (bl_detached bl = false) as Hd by (destruct (H7 p) as (bl' & E & Hd); [apply elem_of_app; by right|congruence]).
  destruct (cached_block _ _ _ _ _ _ Hi Hp Hr Hd) as [Hb Hct]. pose proof (H8 p bl Hp Hr) as [_ [Hv _] _ _ _ Bd].
  assert (forall i, contents_at (drop_block bs p (bl_id bl)) i = contents_at bs i) as Hc.
  { intros i. destruct (decide (i = bl_id bl)) as [->|Hne].
    - rewrite Hct. unfold contents_at, drop_block. cbn. rewrite lookup_delete_eq. destruct (Z.eqb_spec (bl_id bl) 0); [lia|].
      symmetry. by apply Bd.
    - unfold contents_at, drop_block. cbn. destruct (i =? 0); [done|]. rewrite lookup_delete_ne by done.
      destruct (blocks bs !! i) as [q|] eqn:Eq; [|done]. rewrite lookup_delete_ne; [done|]. intros <-.
      apply H5 in Eq as (_ & bl2 & E & <-). congruence. }
  assert (root_data (drop_block bs p (bl_id bl)) = root_data bs) as Er.
  { unfold root_data. cbn. destruct (root_block bs); [|done]. by rewrite lookup_delete_ne by congruence. }
  assert (last_block (drop_block bs p (bl_id bl)) = last_block bs /\ first_free (drop_block bs p (bl_id bl)) = first_free bs) as [El Ef].
  { unfold last_block, first_free. by rewrite Er. }
  assert (forall q, q ∈ x ++ filter (fun q => q <> p) (block_cache bs) <-> q ∈ x ++ block_cache bs /\ q <> p) as Hel.
  { intros q. rewrite !elem_of_app, list_elem_of_filter. split; [|tauto]. intros [Hq|[Hq1 Hq2]]; [|tauto]. split; [tauto|].
    by intros ->. }
  split; [|done]. split; try (rewrite El; done); cbn.
  - destruct H1 as (r & b & E1 & E2 & E3). exists r, b. by rewrite lookup_delete_ne by congruence.
  - by apply (chain_same bs).
  - intros i q. rewrite Hel. destruct (decide (i = bl_id bl)) as [->|Hne].
    + rewrite lookup_delete_eq. split; [done|]. intros [[_ Hq] (b & E & Ei)]. rewrite lookup_delete_ne in E by done.
      by destruct Hq; apply (H9 q p b bl).
    + rewrite lookup_delete_ne, H5 by done. split.
      * intros [Hq (b & E & Ei)]. assert (q <> p) as Hqp by (intros ->; congruence). split; [done|]. exists b. by rewrite lookup_delete_ne.
      * intros [[Hq Hqp] (b & E & Ei)]. rewrite lookup_delete_ne in E by done. split; [done|by exists b].
  - apply NoDup_app in H6 as (N1 & N2 & N3). apply NoDup_app. split; [done|]. split; [|by apply NoDup_filter].
    intros q Hq [_ Hq']%list_elem_of_filter. by apply (N2 q).
  - intros q [Hq Hqp]%Hel. destruct (H7 q Hq) as (b & E & Hdb). exists b. by rewrite lookup_delete_ne.
  - intros q b Hq Hrq. rewrite lookup_delete_Some in Hq. destruct Hq as [Hqp Hq].
    destruct (H8 q b Hq Hrq) as [B1 B2 B3 B4 B5 B7]. split; try done. intros Hdb. apply Hel. split; [by apply B4|done].
  - intros q q' b b' Hq Hq'. rewrite lookup_delete_Some in Hq, Hq'. apply H9; tauto.
  - unfold root_head. by rewrite Er.
  - done.
Qed.

(** Taking a block out of the cache. *)
Definition take_out bs p bl : CamelBlockFile :=
  put_bl (set_cache (set_blocks bs (delete (bl_id bl) (blocks bs))) (filter (fun q => q <> p) (block_cache bs))) p (with_detached bl true).

Lemma inv_take_out bs lim fl p bl : inv bs lim fl [] -> heap bs !! p = Some bl -> p ∈ block_cache bs -> 0 < bl_refcount bl ->
  ~ bl_id bl ∈ fl -> inv (take_out bs p bl) lim fl [] /\ forall i, i <> bl_id bl -> contents_at (take_out bs p bl) i = contents_at bs i.
Proof.
  intros Hi Hp Hcache Hrf Bu. pose proof Hi as [H1 H2 H3 H4 H5 H6 H7 H8 H9 H11 H10]. cbn [app] in *.
  assert (root_block bs <> Some p) as Hr by (intros E; by apply (root_not_cached _ _ _ _ _ Hi E)).
  pose proof (H8 p bl Hp Hr) as [Bd Bv _ _ _ _].
  assert (forall i, i <> bl_id bl -> contents_at (take_out bs p bl) i = contents_at bs i) as Hc.
  { intros i Hne. unfold contents_at, take_out. cbn. destruct (i =? 0); [done|]. rewrite lookup_delete_ne by done.
    destruct (blocks bs !! i) as [q|] eqn:Eq; [|done]. rewrite lookup_insert_ne; [done|]. intros <-.
    apply H5 in Eq as (_ & bl2 & E & <-). congruence. }
  assert (root_data (take_out bs p bl) = root_data bs) as Er.
  { unfold root_data. cbn. destruct (root_block bs); [|done]. by rewrite lookup_insert_ne by congruence. }
  assert (last_block (take_out bs p bl) = last_block bs /\ first_free (take_out bs p bl) = first_free bs) as [El Ef].
  { unfold last_block, first_free. by rewrite Er. }
  split; [|done]. split; try (rewrite El; done); cbn.
  - destruct H1 as (r & b & E1 & E2 & E3). exists r, b. by rewrite lookup_insert_ne by congruence.
  - rewrite Ef. apply (is_chain_ext (contents_at bs)); [|done]. intros i Hin. apply Hc. by intros ->.
  - intros i q. rewrite list_elem_of_filter. destruct (decide (i = bl_id bl)) as [->|Hne].
    + rewrite lookup_delete_eq. split; [done|]. intros [[Hq _] (b & E & Ei)]. rewrite lookup_insert_ne in E by done.
      by destruct Hq; apply (H9 q p b bl).
    + rewrite lookup_delete_ne, H5 by done. split.
      * intros [Hq (b & E & Ei)]. assert (q <> p) as Hqp by (intros ->; congruence). split; [done|]. exists b. by rewrite lookup_insert_ne.
      * intros [[Hqp Hq] (b & E & Ei)]. rewrite lookup_insert_ne in E by done. split; [done|by exists b].
  - by apply NoDup_filter.
  - intros q [Hqp Hq]%list_elem_of_filter. destruct (H7 q Hq) as (b & E & Hdb). exists b. by rewrite lookup_insert_ne.
  - intros q b Hq Hrq. destruct (decide (q = p)) as [->|Hqp].
    + rewrite lookup_insert_eq in Hq. injection Hq as <-. split; cbn; try done; lia.
    + rewrite lookup_insert_ne in Hq by done. destruct (H8 q b Hq Hrq) as [B1 B2 B3 B4 B5 B7]. split; try done.
      intros Hdb. cbn. apply list_elem_of_filter. split; [done|]. by apply B4.
  - intros q q' b b' [[-> ->]|[Hqp Hq]]%lookup_put [[-> ->]|[Hqp' Hq']]%lookup_put E; [done|symmetry; by apply (H9 q' p b' bl)
      |by apply (H9 q p b bl)|by apply (H9 q q' b b')].
  - unfold root_head. by rewrite Er.
  - done.
Qed.
