(* ===== verification/BlockFileSpec.v ===== *)
(** * Files of blocks: what the operations promise

    Each operation keeps the invariant of [BlockFileInv] and does to the view of the clients what
    [BlockStoreLaws] says; so [BlockStore_file] is an implementation of the interface. *)

From stdpp Require Import gmap.
From S2P Require Import Prelude BlockStore BlockFile BlockFileInv.
#[local] Open Scope Z_scope.
#[local] Open Scope list_scope.

Implicit Types (bs : CamelBlockFile) (p q r : ptr) (bl : CamelBlock) (lim : Z) (fl : list Z) (x : list ptr).

(** ** The view of the clients *)

Definition pin_of bl : pin := mkPin (bl_id bl) (bl_data bl) (Z.to_nat (bl_refcount bl)) (bl_detached bl).

(** Blocks with references, but the root block. *)
Definition pins_of bs : gmap ptr pin :=
  map_imap (fun p bl => if bool_decide (root_block bs = Some p) || (bl_refcount bl <=? 0) then None else Some (pin_of bl)) (heap bs).

(** The block will be written, or is in the file. *)
Definition saved_block bs p : Prop :=
  forall bl, heap bs !! p = Some bl -> root_block bs <> Some p -> bl_dirty bl = true \/ bl_data bl = read_disk (disk bs) (bl_id bl).

(** Blocks in use are not free. *)
Definition apart bs fl : Prop := forall p k, pins_of bs !! p = Some k -> ~ pin_id k ∈ fl.

Definition room_for bs (n : nat) : Prop := last_block bs + CAMEL_BLOCK_SIZE * Z.of_nat n < 2 ^ 32.

Definition wf_file bs : Prop := exists fl, inv bs (last_block bs) fl [] /\ apart bs fl.

Lemma pins_lookup bs p k : pins_of bs !! p = Some k <->
  exists bl, heap bs !! p = Some bl /\ root_block bs <> Some p /\ 0 < bl_refcount bl /\ k = pin_of bl.
Proof.
  unfold pins_of. rewrite map_lookup_imap. destruct (heap bs !! p) as [bl|]; cbn; [|split; [done|by intros (? & ? & _)]].
  destruct (bool_decide (root_block bs = Some p)) eqn:Er; cbn.
  - apply bool_decide_eq_true in Er. split; [done|]. by intros (b & _ & ? & _).
  - apply bool_decide_eq_false in Er. destruct (Z.leb_spec (bl_refcount bl) 0).
    + split; [done|]. intros (b & [= <-] & _ & ? & _). lia.
    + split; [intros [= <-]; by exists bl|]. by intros (b & [= <-] & _ & _ & ->).
Qed.

Lemma pins_none bs p : (forall bl, heap bs !! p = Some bl -> root_block bs = Some p \/ bl_refcount bl <= 0) -> pins_of bs !! p = None.
Proof.
  intros Hp. destruct (pins_of bs !! p) as [k|] eqn:E; [|done]. apply pins_lookup in E as (bl & E & Hr & Hc & _).
  destruct (Hp bl E); [done|lia].
Qed.

(** The references depend on the blocks in memory. *)
Lemma pins_same bs bs' : heap bs' = heap bs -> root_block bs' = root_block bs -> pins_of bs' = pins_of bs.
Proof. unfold pins_of. by intros -> ->. Qed.

Lemma pins_put bs p bl' : root_block bs <> Some p ->
  pins_of (put_bl bs p bl') = if 0 <? bl_refcount bl' then <[p := pin_of bl']> (pins_of bs) else delete p (pins_of bs).
Proof.
  intros Hr. apply map_eq. intros q. unfold pins_of. cbn [heap root_block put_bl set_heap].
  rewrite map_lookup_imap. destruct (decide (q = p)) as [->|Hne].
  - rewrite lookup_insert_eq. cbn. rewrite bool_decide_false by done. cbn [orb].
    destruct (Z.leb_spec (bl_refcount bl') 0), (Z.ltb_spec 0 (bl_refcount bl')); try lia.
    + by rewrite lookup_delete_eq.
    + by rewrite lookup_insert_eq.
  - rewrite lookup_insert_ne by done. destruct (0 <? bl_refcount bl').
    + by rewrite lookup_insert_ne, map_lookup_imap by done.
    + by rewrite lookup_delete_ne, map_lookup_imap by done.
Qed.

Lemma pins_put_same bs p bl bl' : heap bs !! p = Some bl -> root_block bs <> Some p ->
  (0 < bl_refcount bl <-> 0 < bl_refcount bl') -> (0 < bl_refcount bl -> pin_of bl' = pin_of bl) -> pins_of (put_bl bs p bl') = pins_of bs.
Proof.
  intros Hp Hr Hc Hk. rewrite pins_put by done. destruct (Z.ltb_spec 0 (bl_refcount bl')) as [Hlt|Hge].
  - apply insert_id, pins_lookup. exists bl. rewrite Hk by tauto. tauto.
  - apply delete_id, pins_none. intros b E. rewrite Hp in E. injection E as <-. right. lia.
Qed.

Lemma pins_put_root bs r bl' : root_block bs = Some r -> pins_of (put_bl bs r bl') = pins_of bs.
Proof.
  intros Hr. apply map_eq. intros q. unfold pins_of. cbn [heap root_block put_bl set_heap]. rewrite !map_lookup_imap.
  destruct (decide (q = r)) as [->|Hne]; [|by rewrite lookup_insert_ne].
  rewrite lookup_insert_eq. cbn. rewrite bool_decide_true by done. cbn. by destruct (heap bs !! r).
Qed.

Lemma pins_delete bs p : pins_of (free_bl bs p) = delete p (pins_of bs).
Proof.
  apply map_eq. intros q. unfold pins_of. cbn [heap root_block free_bl set_heap]. rewrite map_lookup_imap.
  destruct (decide (q = p)) as [->|Hne]; [by rewrite !lookup_delete_eq|]. by rewrite !lookup_delete_ne, map_lookup_imap by done.
Qed.

(** Nothing has changed for the clients. *)
Record keeps bs bs' : Prop := {
  k_pins : pins_of bs' = pins_of bs;
  k_contents : forall i, contents_at bs' i = contents_at bs i;
  k_saved : forall q, saved_block bs q -> saved_block bs' q;
  k_root : root_block bs' = root_block bs;
  k_last : last_block bs' = last_block bs;
  k_free : first_free bs' = first_free bs;
}.

Lemma keeps_refl bs : keeps bs bs.
Proof. by split. Qed.

Lemma keeps_trans bs1 bs2 bs3 : keeps bs1 bs2 -> keeps bs2 bs3 -> keeps bs1 bs3.
Proof. intros [P1 C1 S1 R1 L1 F1] [P2 C2 S2 R2 L2 F2]. split; [congruence|intros i; by rewrite C2|auto|congruence..]. Qed.

Lemma chain_ext C C' n f : (forall i, C' i = C i) -> chain n C' f = chain n C f.
Proof. intros Hc. revert f. induction n as [|n IH]; intros f; cbn; [done|]. destruct (f =? 0); [done|]. by rewrite Hc, IH. Qed.

Lemma allocated_same bs bs' : (forall i, contents_at bs' i = contents_at bs i) -> last_block bs' = last_block bs ->
  first_free bs' = first_free bs -> allocated_blocks bs' = allocated_blocks bs.
Proof. intros Hc Hl Hf. unfold allocated_blocks, free_list. rewrite Hl, Hf. by rewrite (chain_ext (contents_at bs)). Qed.

Lemma allocated_inv bs lim fl x i : inv bs lim fl x -> i ∈ allocated_blocks bs <-> valid_id (last_block bs) i /\ ~ i ∈ fl.
Proof.
  intros Hi. unfold allocated_blocks. pose proof (i_last _ _ _ _ Hi) as (_ & _ & Hm). pose proof (i_free _ _ _ _ Hi) as [Hn Hv].
  rewrite (free_list_chain bs fl (i_chain _ _ _ _ Hi) Hn Hm Hv).
  rewrite elem_of_difference, !elem_of_list_to_set, elem_of_ids by done. done.
Qed.

Lemma pin_valid bs lim fl p k : inv bs lim fl [] -> pins_of bs !! p = Some k -> valid_id lim (pin_id k).
Proof. intros Hi (bl & Hp & Hr & _ & ->)%pins_lookup. apply (i_block _ _ _ _ Hi p bl Hp Hr). Qed.

(** ** System calls *)

Lemma next_call_ok bs lim fl x : inv bs lim fl x -> inv (next_call bs).1 lim fl x /\ keeps bs (next_call bs).1.
Proof.
  intros Hi. unfold next_call. destruct (faults bs) as [|f fs]; cbn; [split; [done|apply keeps_refl]|].
  split; [by apply inv_faults|by split].
Qed.

Lemma use_ok bs : exists bs' ret, block_file_use bs = (bs', ret) /\ (forall lim fl x, inv bs lim fl x -> inv bs' lim fl x) /\ keeps bs bs' /\
  heap bs' = heap bs /\ block_cache bs' = block_cache bs /\ blocks bs' = blocks bs /\ disk bs' = disk bs.
Proof.
  unfold block_file_use. destruct (online bs); [exists bs, 0; by split; [|split; [|split; [apply keeps_refl|]]]|].
  unfold next_call. destruct (faults bs) as [|[n|] fs].
  - exists (set_online bs true), 0. split; [done|]. split; [intros; by apply inv_online|by split].
  - exists (set_faults bs fs), (-1). split; [done|]. split; [intros; by apply inv_faults|by split].
  - exists (set_online (set_faults bs fs) true), 0. split; [done|]. split; [intros; by apply inv_online, inv_faults|by split].
Qed.

(** ** Writing a block *)

Lemma torn_word_same (r a : Z) : 0 <= r -> torn_word r a a = a.
Proof.
  intros Hr. unfold torn_word. apply Z.bits_inj'. intros n Hn. rewrite Z.lor_spec, Z.land_spec, Z.ldiff_spec.
  by destruct (Z.testbit a n), (Z.testbit (Z.ones (8 * r)) n).
Qed.

Lemma torn_same n d : torn n d d = d.
Proof.
  revert n. induction d as [|a d IH]; intros n; [done|]. cbn. rewrite IH. destruct (Z.leb_spec 4 n), (Z.leb_spec n 0); try done.
  by rewrite torn_word_same by lia.
Qed.

Lemma torn_length n d e : length (torn n d e) = length e.
Proof. revert n e. induction d as [|a d IH]; intros n [|b e]; try done. cbn. by rewrite IH. Qed.

(** What writing a block to the file may change. *)
Record sync_view bs bs' p bl : Prop := {
  sv_pins : pins_of bs' = pins_of bs;
  sv_saved : forall q, saved_block bs q -> saved_block bs' q;
  sv_root : root_block bs' = root_block bs;
  sv_last : last_block bs' = last_block bs;
  sv_free : first_free bs' = first_free bs;
  sv_cache : block_cache bs' = block_cache bs;
  sv_blocks : blocks bs' = blocks bs;
  sv_count : block_cache_count bs' = block_cache_count bs /\ block_cache_limit bs' = block_cache_limit bs;
  sv_contents : forall j, j <> bl_id bl \/ bl_detached bl = false \/ j = 0 -> contents_at bs' j = contents_at bs j;
}.

(** Writing to the file what does not matter. *)
Lemma sync_write bs lim fl x p bl d len : inv bs lim fl x -> heap bs !! p = Some bl -> length d = block_words ->
  (bl_dirty bl = true \/ d = read_disk (disk bs) (bl_id bl)) -> (bl_detached bl = true -> root_block bs <> Some p -> ~ bl_id bl ∈ fl) ->
  let bs' := set_disk bs (write_disk (disk bs) (bl_id bl) d len) in
  inv bs' lim fl x /\ sync_view bs bs' p bl /\ read_disk (disk bs') (bl_id bl) = d /\
    (bl_detached bl = true -> root_block bs <> Some p -> contents_at bs' (bl_id bl) = d).
Proof.
  intros Hi Hp Hd Hdirty Hf bs'.
  assert (forall j, j <> bl_id bl -> read_disk (disk bs') j = read_disk (disk bs) j) as Hrd.
  { intros j Hj. unfold read_disk. cbn. by rewrite lookup_insert_ne. }
  assert (bl_id bl = 0 \/ is_Some (blocks bs !! bl_id bl) \/ ~ bl_id bl ∈ fl) as Hor.
  { destruct (decide (root_block bs = Some p)) as [Hr|Hr].
    - left. destruct (i_root _ _ _ _ Hi) as (r & b & Hr' & E & Eid & _). congruence.
    - right. destruct (bl_detached bl) eqn:Ed; [right; by apply Hf|left]. exists p. by apply (cached_block _ _ _ _ _ _ Hi Hp Hr Ed). }
  destruct (inv_write bs lim fl x (bl_id bl) d len Hi Hd) as [Hi' Hc]; [|done|].
  { intros q b Hq E. rewrite (i_ids _ _ _ _ Hi q p b bl Hq Hp E), Hp in Hq. by injection Hq as <-. }
  fold bs' in Hi', Hc.
  assert (bl_detached bl = true -> root_block bs <> Some p -> blocks bs !! bl_id bl = None /\ bl_id bl <> 0) as Hdet.
  { intros Ed Hr. split; [by apply (detached_block _ _ _ _ _ _ Hi Hp)|].
    pose proof (b_id _ _ _ _ _ (i_block _ _ _ _ Hi p bl Hp Hr)) as [? _]. lia. }
  split; [done|]. split; [split; try done|split].
  - intros q Hq b E Hr. destruct (Hq b E Hr) as [?|Hs]; [by left|]. destruct (decide (bl_id b = bl_id bl)) as [Eid|Hne].
    + assert (q = p) as -> by by apply (i_ids _ _ _ _ Hi q p b bl). assert (b = bl) as -> by (cbn in E; congruence).
      destruct Hdirty as [?| ->]; [by left|right]. unfold read_disk in *. cbn. by rewrite lookup_insert_eq.
    + right. by rewrite Hrd.
  - intros j Hj. rewrite (Hc j). destruct (Z.eqb_spec j (bl_id bl)) as [->|]; [|done]. cbn [andb].
    destruct Hj as [?|[Ed| ->]]; [done| |done]. destruct (decide (root_block bs = Some p)) as [Hr|Hr].
    + destruct (i_root _ _ _ _ Hi) as (r & b & Hr' & E & _ & Hdr & _). congruence.
    + destruct (cached_block _ _ _ _ _ _ Hi Hp Hr Ed) as [-> _]. by rewrite andb_false_r.
  - unfold read_disk. cbn. by rewrite lookup_insert_eq.
  - intros Ed Hr. destruct (Hdet Ed Hr) as [Hb Hz]. rewrite (Hc (bl_id bl)), Z.eqb_refl, bool_decide_true by done.
    by destruct (Z.eqb_spec (bl_id bl) 0).
Qed.

Lemma next_call_same bs : exists fs f, next_call bs = (set_faults bs fs, f).
Proof. unfold next_call. destruct (faults bs) as [|f fs] eqn:E; [exists [], None; destruct bs; cbn in *; by subst|by exists fs, f]. Qed.

(** Changing the root block but for the list of free blocks and the end. *)
Lemma inv_put_root_same bs lim fl x r bl bl' : inv bs lim fl x -> root_block bs = Some r -> heap bs !! r = Some bl ->
  bl_id bl' = bl_id bl -> bl_detached bl' = bl_detached bl -> length (bl_data bl') = block_words ->
  (forall k, (k < 6)%nat -> k <> 2%nat -> bl_data bl' !!! k = bl_data bl !!! k) ->
  (bl_dirty bl' = false -> take 6 (bl_data bl') = take 6 (read_disk (disk bs) 0)) ->
  inv (put_bl bs r bl') lim fl x /\ keeps bs (put_bl bs r bl').
Proof.
  intros Hi Hr Hp Hid Hdet Hl Ek Hd. pose proof (i_root _ _ _ _ Hi) as (r' & b & Hr' & E & Eid & Edet & _).
  rewrite Hr in Hr'. injection Hr' as <-. rewrite Hp in E. injection E as <-.
  assert (root_data bs = bl_data bl) as Er by (unfold root_data; by rewrite Hr, Hp).
  assert (root_data (put_bl bs r bl') = bl_data bl') as Er' by (unfold root_data; cbn; by rewrite Hr, lookup_insert_eq).
  destruct (i_last _ _ _ _ Hi) as (H1 & H2 & H3). destruct (i_free _ _ _ _ Hi) as [H4 H5]. pose proof (i_chain _ _ _ _ Hi) as H6.
  pose proof (i_head _ _ _ _ Hi) as [H7 H8]. unfold last_block, first_free in *. rewrite Er in *. split.
  - apply (inv_put_root bs lim fl fl x r bl bl'); try done; try congruence; by rewrite ?Ek by lia.
  - split; try done.
    + by apply pins_put_root.
    + intros i. by apply (contents_put_root _ _ _ _ _ _ _ Hi Hr).
    + intros q Hq c Ec Hrq. cbn in Ec, Hrq. apply Hq; [|done]. rewrite lookup_insert_ne in Ec; [done|congruence].
    + unfold last_block. by rewrite Er', Er, Ek by lia.
    + unfold first_free. by rewrite Er', Er, Ek by lia.
Qed.

(** Marking a block as written. *)
Lemma inv_clean bs lim fl x p bl : inv bs lim fl x -> heap bs !! p = Some bl -> bl_data bl = read_disk (disk bs) (bl_id bl) ->
  inv (put_bl bs p (with_dirty bl false)) lim fl x /\ keeps bs (put_bl bs p (with_dirty bl false)).
Proof.
  intros Hi Hp Hd. destruct (decide (root_block bs = Some p)) as [Hr|Hr].
  - destruct (i_root _ _ _ _ Hi) as (r & b & Hr' & E & Eid & Edet & El & _). assert (b = bl) as -> by congruence.
    apply (inv_put_root_same bs lim fl x p bl); try done. intros _. cbn. by rewrite <- Eid, <- Hd.
  - assert (forall i, contents_at (put_bl bs p (with_dirty bl false)) i = contents_at bs i) as Hc.
    { intros i. rewrite (contents_put _ _ _ _ _ _ _ _ Hi Hp Hr). destruct (bl_detached bl) eqn:Ed; [done|]. unfold change.
      destruct (Z.eqb_spec i (bl_id bl)) as [->|]; [|done]. symmetry. by apply (cached_block _ _ _ _ _ _ Hi Hp Hr Ed). }
    split.
    + apply (inv_put bs lim fl x p bl); try done; [|by left]. by destruct (i_block _ _ _ _ Hi p bl Hp Hr); split.
    + pose proof (root_data_put bs p (with_dirty bl false) Hr) as Er. split; try done.
      * by apply (pins_put_same bs p bl).
      * intros q Hq c Ec Hrq. cbn in Ec. apply lookup_put in Ec as [[-> ->]|[Hne Ec]]; [by right|]. by apply Hq.
      * unfold last_block. by rewrite Er.
      * unfold first_free. by rewrite Er.
Qed.

Lemma sync_view_refl bs p bl : sync_view bs bs p bl.
Proof. by split. Qed.

Lemma sync_block_ok bs lim fl x p bl : inv bs lim fl x -> heap bs !! p = Some bl ->
  (bl_detached bl = true -> root_block bs <> Some p -> ~ bl_id bl ∈ fl) ->
  exists bs' ret, sync_block_nolock bs p = Ok (bs', ret) /\ inv bs' lim fl x /\ sync_view bs bs' p bl /\
    (ret = 0 /\ heap bs' = <[p := with_dirty bl false]> (heap bs) /\ (bl_dirty bl = true -> bl_data bl = read_disk (disk bs') (bl_id bl)) /\
       (bl_dirty bl = false -> bs' = bs) \/
     ret = -1 /\ heap bs' = heap bs /\ bl_dirty bl = true) /\
    (bl_detached bl = true -> root_block bs <> Some p ->
     ret = 0 /\ saved_block bs p \/ contents_at bs (bl_id bl) = bl_data bl -> contents_at bs' (bl_id bl) = bl_data bl).
Proof.
  intros Hi Hp Hf. unfold sync_block_nolock, get_bl. rewrite Hp, res_bind_Ok. destruct (bl_dirty bl) eqn:Hd.
  2:{ exists bs, 0. split; [done|]. split; [done|]. split; [apply sync_view_refl|]. split.
      - left. split; [done|]. split; [|done]. rewrite insert_id; [done|]. rewrite Hp. f_equal. by destruct bl; cbn in *; subst.
      - intros Hdet Hr [[_ Hs]|Hc]; [|done]. destruct (Hs bl Hp Hr) as [?| ->]; [congruence|]. unfold contents_at.
        rewrite (detached_block _ _ _ _ _ _ Hi Hp Hdet). pose proof (b_id _ _ _ _ _ (i_block _ _ _ _ Hi p bl Hp Hr)) as [? _].
        destruct (Z.eqb_spec (bl_id bl) 0); [lia|done]. }
  destruct (next_call_same bs) as (fs & f & ->). set (bs1 := set_faults bs fs).
  assert (inv bs1 lim fl x) as Hi1 by by apply inv_faults. assert (heap bs1 !! p = Some bl) as Hp1 by done.
  assert (length (bl_data bl) = block_words) as Hl.
  { destruct (decide (root_block bs = Some p)) as [Hr|Hr]; [|by apply (i_block _ _ _ _ Hi p bl Hp Hr)].
    destruct (i_root _ _ _ _ Hi) as (r & b & Hr' & E & _ & _ & El & _). congruence. }
  destruct f as [n|].
  - set (d := torn n (bl_data bl) (read_disk (disk bs1) (bl_id bl))).
    assert (length d = block_words) as Hld by (unfold d; rewrite torn_length; by apply (read_disk_length _ _ _ _ _ Hi1)).
    destruct (sync_write bs1 lim fl x p bl d (Z.min n CAMEL_BLOCK_SIZE) Hi1 Hp1 Hld (or_introl Hd) Hf) as (Hi2 & Hv & _ & Hc).
    exists (if 0 <? n then set_disk bs1 (write_disk (disk bs1) (bl_id bl) d (Z.min n CAMEL_BLOCK_SIZE)) else bs1), (-1).
    split; [done|]. destruct (0 <? n).
    + split; [done|]. split; [by destruct Hv; split|]. split; [by right|]. intros Hdet Hr [[? _]|Hsame]; [done|].
      rewrite Hc by done. unfold d. assert (read_disk (disk bs1) (bl_id bl) = bl_data bl) as ->; [|by apply torn_same].
      rewrite <- Hsame. unfold contents_at. rewrite (detached_block _ _ _ _ _ _ Hi Hp Hdet).
      pose proof (b_id _ _ _ _ _ (i_block _ _ _ _ Hi p bl Hp Hr)) as [? _]. by destruct (Z.eqb_spec (bl_id bl) 0); [lia|].
    + split; [done|]. split; [by split|]. split; [by right|]. by intros _ _ [[? _]|?].
  - destruct (sync_write bs1 lim fl x p bl (bl_data bl) CAMEL_BLOCK_SIZE Hi1 Hp1 Hl (or_introl Hd) Hf) as (Hi2 & [V1 V2 V3 V4 V5 V6 V7 V8 V9] & Hrd & Hc).
    set (bs2 := set_disk bs1 _) in *. destruct (inv_clean bs2 lim fl x p bl Hi2 Hp1 (eq_sym Hrd)) as (Hi3 & [K1 K2 K3 K4 K5 K6]).
    eexists _, 0. split; [done|]. split; [done|]. split; [split; try done; try congruence|split].
    + intros q Hq. by apply K3, V2.
    + intros j Hj. by rewrite K2, V9.
    + left. done.
    + intros Hdet Hr _. rewrite K2. by apply Hc.
Qed.

(** ** Dropping blocks *)

Lemma keeps_sync bs bs' p bl : sync_view bs bs' p bl -> bl_detached bl = false \/ bl_id bl = 0 -> keeps bs bs'.
Proof. intros [V1 V2 V3 V4 V5 _ _ _ V9] Hd. split; try done. intros i. apply V9. destruct (decide (i = bl_id bl)); [|by left]. subst. tauto. Qed.

Lemma drop_keeps bs lim fl x p bl : inv bs lim fl x -> heap bs !! p = Some bl -> p ∈ block_cache bs -> bl_refcount bl = 0 -> bl_dirty bl = false ->
  keeps bs (drop_block bs p (bl_id bl)).
Proof.
  intros Hi Hp Hc Hrf Hd. destruct (inv_drop bs lim fl x p bl Hi Hp Hc Hrf Hd) as [_ Hct].
  assert (root_block bs <> Some p) as Hr.
  { intros E. apply (root_not_cached _ _ _ _ _ Hi E). apply elem_of_app. by right. }
  assert (root_data (drop_block bs p (bl_id bl)) = root_data bs) as Er.
  { unfold root_data. cbn. destruct (root_block bs); [|done]. by rewrite lookup_delete_ne by congruence. }
  split; try done.
  - unfold drop_block. rewrite pins_delete. rewrite (pins_same bs) by done. apply delete_id, pins_none. intros b E. rewrite Hp in E.
    injection E as <-. right. lia.
  - intros q Hq b E Hrq. cbn in E. rewrite lookup_delete_Some in E. destruct E as [_ E]. by apply Hq.
  - unfold last_block. by rewrite Er.
  - unfold first_free. by rewrite Er.
Qed.

Lemma flush_one_ok bs lim fl x p bl : inv bs lim fl x -> p ∈ block_cache bs -> heap bs !! p = Some bl -> bl_refcount bl = 0 ->
  exists bs', ('(bs, ret) ← sync_block_nolock bs p;
     if ret =? -1 then Ok bs
     else
       bs ← unlink (set_blocks bs (delete (bl_id bl) (blocks bs))) p;
       Ok (set_count (free_bl bs p) (block_cache_count bs - 1))) = Ok bs' /\
    inv bs' lim fl x /\ keeps bs bs' /\ (forall q, q <> p -> heap bs' !! q = heap bs !! q) /\
    (forall q, q <> p -> q ∈ block_cache bs -> q ∈ block_cache bs').
Proof.
  intros Hi Hc Hp Hrf.
  assert (bl_detached bl = false) as Hd by (destruct (i_attached _ _ _ _ Hi p) as (b & E & Hd); [apply elem_of_app; by right|congruence]).
  destruct (sync_block_ok bs lim fl x p bl Hi Hp) as (bs1 & ret & -> & Hi1 & Hv & Hret & _); [congruence|].
  pose proof (keeps_sync _ _ _ _ Hv (or_introl Hd)) as Hk. rewrite res_bind_Ok. destruct Hret as [(-> & Hh & _)|(-> & Hh & _)].
  - assert (heap bs1 !! p = Some (with_dirty bl false)) as Hp1 by by rewrite Hh, lookup_insert_eq.
    assert (p ∈ block_cache bs1) as Hc1 by (rewrite (sv_cache _ _ _ _ Hv); done).
    destruct (inv_drop bs1 lim fl x p (with_dirty bl false) Hi1 Hp1 Hc1 Hrf eq_refl) as [Hi2 _].
    pose proof (drop_keeps bs1 lim fl x p (with_dirty bl false) Hi1 Hp1 Hc1 Hrf eq_refl) as Hk2.
    cbn [Z.eqb]. unfold unlink. cbn [block_cache set_blocks]. rewrite bool_decide_true by done. rewrite res_bind_Ok.
    eexists. split; [done|]. split; [by apply inv_count|]. split; [|split].
    + apply (keeps_trans _ bs1); [done|]. by destruct Hk2; split.
    + intros q Hq. cbn. rewrite lookup_delete_ne by done. rewrite Hh. by rewrite lookup_insert_ne.
    + intros q Hq Hq2. cbn. apply list_elem_of_filter. split; [done|]. by rewrite (sv_cache _ _ _ _ Hv).
  - rewrite Z.eqb_refl. exists bs1. split; [done|]. split; [done|]. split; [done|]. split; [by intros q _; rewrite Hh|].
    intros q _ Hq. by rewrite (sv_cache _ _ _ _ Hv).
Qed.

Lemma flush_loop_ok bs lim fl x l : inv bs lim fl x -> NoDup l -> (forall q, q ∈ l -> q ∈ block_cache bs) ->
  exists bs', flush_loop bs l = Ok bs' /\ inv bs' lim fl x /\ keeps bs bs' /\ forall q, ~ q ∈ l -> heap bs' !! q = heap bs !! q.
Proof.
  revert bs. induction l as [|p l IH]; intros bs Hi Hn Hl; cbn [flush_loop]; [by exists bs; split; [|split; [|split; [apply keeps_refl|]]]|].
  apply NoDup_cons in Hn as [Hpl Hn]. destruct (block_cache_limit bs <? block_cache_count bs);
    [|by exists bs; split; [|split; [|split; [apply keeps_refl|]]]].
  pose proof (Hl p (list_elem_of_here _ _)) as Hc.
  destruct (i_attached _ _ _ _ Hi p) as (bl & Hp & Hd); [apply elem_of_app; by right|].
  unfold get_bl. rewrite Hp, res_bind_Ok. destruct (Z.eqb_spec (bl_refcount bl) 0) as [Hrf|Hrf].
  - destruct (flush_one_ok bs lim fl x p bl Hi Hc Hp Hrf) as (bs1 & -> & Hi1 & Hk1 & Hh1 & Hc1). rewrite res_bind_Ok.
    destruct (IH bs1 Hi1 Hn) as (bs2 & -> & Hi2 & Hk2 & Hh2).
    { intros q Hq. apply Hc1; [by intros ->|]. apply Hl. by apply list_elem_of_further. }
    exists bs2. split; [done|]. split; [done|]. split; [by apply (keeps_trans _ bs1)|]. intros q Hq. rewrite elem_of_cons in Hq.
    rewrite Hh2, Hh1; tauto.
  - rewrite res_bind_Ok. destruct (IH bs Hi Hn) as (bs2 & -> & Hi2 & Hk2 & Hh2).
    { intros q Hq. apply Hl. by apply list_elem_of_further. }
    exists bs2. do 3 (split; [done|]). intros q Hq. rewrite elem_of_cons in Hq. rewrite Hh2; tauto.
Qed.

(** ** Getting a block *)

Lemma malloc_fresh bs : heap bs !! g_malloc0 bs = None.
Proof.
  destruct (heap bs !! g_malloc0 bs) as [bl|] eqn:E; [|done]. exfalso. unfold g_malloc0 in E.
  assert (forall p bl, heap bs !! p = Some bl -> (p <= map_fold (fun p (_ : CamelBlock) q => Pos.max p q) 1 (heap bs))%positive) as Hmax.
  { apply (map_fold_weak_ind (fun n (m : gmap ptr CamelBlock) => forall p bl, m !! p = Some bl -> (p <= n)%positive)); [done|].
    intros p b m n Hm IH q c [[-> _]|[_ Hq]]%lookup_insert_Some.
    - apply Pos.le_max_l.
    - etransitivity; [by apply (IH q c)|]. apply Pos.le_max_r. }
  specialize (Hmax _ _ E). apply Pos.le_succ_l in Hmax. by apply Pos.lt_irrefl in Hmax.
Qed.

(** The block is in memory and in the table, but not in the cache ([x]). *)
Lemma use_block_ok bs lim fl p bl : inv bs lim fl [p] -> heap bs !! p = Some bl ->
  exists bs', use_block bs p = Ok bs' /\ inv bs' lim fl [] /\ (forall i, contents_at bs' i = contents_at bs i) /\
    pins_of bs' = <[p := mkPin (bl_id bl) (contents_at bs (bl_id bl)) (S (Z.to_nat (bl_refcount bl))) false]> (pins_of bs) /\
    (forall q, saved_block bs q -> saved_block bs' q) /\ root_block bs' = root_block bs /\ root_data bs' = root_data bs /\
    bl_detached bl = false /\ heap bs' !! p = Some (with_refcount bl (bl_refcount bl + 1)).
Proof.
  intros Hi Hp. pose proof (root_not_cached bs lim fl [p]) as Hrc.
  assert (root_block bs <> Some p) as Hr by (intros E; apply (Hrc p Hi E); apply list_elem_of_here).
  assert (bl_detached bl = false) as Hd by (destruct (i_attached _ _ _ _ Hi p) as (b & E & Hd); [apply list_elem_of_here|congruence]).
  destruct (cached_block _ _ _ _ _ _ Hi Hp Hr Hd) as [Hb Hc].
  set (bs1 := set_cache bs (p :: block_cache bs)). assert (inv bs1 lim fl []) as Hi1 by by apply (inv_move bs lim fl [p] []).
  destruct (i_block _ _ _ _ Hi1 p bl Hp Hr) as [B1 B2 B3 B4 B5 B6].
  set (bl' := with_refcount bl (bl_refcount bl + 1)). exists (put_bl bs1 p bl').
  split; [unfold use_block; fold bs1; unfold get_bl; cbn [heap bs1 set_cache]; by rewrite Hp|].
  split; [apply (inv_put bs1 lim fl [] p bl); try done; [split; try done; cbn; lia|by left]|]. split; [|split; [|split; [|split; [done|split; [|split; [done|]]]]]].
  - intros i. rewrite (contents_put bs1 lim fl [] p bl bl' i Hi1 Hp Hr), Hd. unfold change.
    destruct (Z.eqb_spec i (bl_id bl)) as [->|]; [|done]. by rewrite Hc.
  - rewrite (pins_put bs1 p bl' Hr). cbn [bl' with_refcount bl_refcount]. destruct (Z.ltb_spec 0 (bl_refcount bl + 1)); [|lia].
    rewrite (pins_same bs bs1) by done. f_equal. unfold pin_of. cbn. rewrite Hc, Hd. f_equal. lia.
  - intros q Hq b E Hrq. cbn in E. apply lookup_put in E as [[-> ->]|[Hne E]]; [|by apply Hq].
    destruct (Hq bl Hp Hr); [by left|by right].
  - exact (root_data_put bs1 p bl' Hr).
  - cbn. by rewrite lookup_insert_eq.
Qed.

Lemma root_word_ok bs lim fl x k : inv bs lim fl x -> 0 <= k < 256 -> root_word bs k = Ok (root_data bs !!! Z.to_nat k).
Proof.
  intros Hi Hk. destruct (i_root _ _ _ _ Hi) as (r & bl & Hr & Hp & _ & _ & Hl & _). unfold root_word, root_ptr, get_bl, root_data.
  rewrite Hr, res_bind_Ok, Hp, res_bind_Ok. unfold word. apply arr_get_Ok. split; [lia|].
  destruct (lookup_lt_is_Some_2 (bl_data bl) (Z.to_nat k)) as [v Hv]; [rewrite Hl; unfold block_words; lia|].
  by rewrite Hv, (list_lookup_total_correct _ _ _ Hv).
Qed.

Lemma root_last_ok bs lim fl x : inv bs lim fl x -> root_last bs = Ok (last_block bs).
Proof. intros Hi. by apply (root_word_ok bs lim fl x 5). Qed.
Lemma root_free_ok bs lim fl x : inv bs lim fl x -> root_free bs = Ok (first_free bs).
Proof. intros Hi. by apply (root_word_ok bs lim fl x 4). Qed.

(** A block that is not in memory is read. *)
Lemma load_keeps bs lim fl x p id : inv bs lim fl x -> heap bs !! p = None -> valid_id lim id ->
  (forall q bl, heap bs !! q = Some bl -> bl_id bl <> id) ->
  keeps bs (load bs p id) /\ saved_block (load bs p id) p.
Proof.
  intros Hi Hp Hv Hid. destruct (inv_load bs lim fl x p id Hi Hp Hv Hid) as [_ Hc].
  assert (root_block bs <> Some p) as Hr by (intros E; destruct (i_root _ _ _ _ Hi) as (r & bl & E1 & E2 & _); congruence).
  pose proof (root_data_put bs p (mkBlock id false false 0 (read_disk (disk bs) id)) Hr) as Er.
  assert (saved_block (load bs p id) p) as Hs.
  { intros b E _. cbn in E. rewrite lookup_insert_eq in E. injection E as <-. by right. }
  split; [|done]. split; try done.
  - unfold load. rewrite (pins_same (put_bl bs p (mkBlock id false false 0 (read_disk (disk bs) id)))) by done.
    rewrite (pins_put bs p _ Hr). cbn. apply delete_id, pins_none. congruence.
  - intros q Hq. destruct (decide (q = p)) as [->|Hne]; [done|]. intros b E Hrq. cbn in E. rewrite lookup_insert_ne in E by done. by apply Hq.
  - exact (f_equal (fun d => d !!! 5%nat) Er).
  - exact (f_equal (fun d => d !!! 4%nat) Er).
Qed.

(** What getting a block keeps; and the block it returns. *)
Record got bs bs' (i : Z) (r : option ptr) : Prop := {
  g_contents : forall j, contents_at bs' j = contents_at bs j;
  g_saved : forall q, saved_block bs q -> saved_block bs' q;
  g_root : root_block bs' = root_block bs;
  g_last : last_block bs' = last_block bs;
  g_free : first_free bs' = first_free bs;
  g_block : match r with
    | None => pins_of bs' = pins_of bs
    | Some p => exists c bl, pins_of bs' = <[p := mkPin i (contents_at bs i) (S c) false]> (pins_of bs) /\
        (pins_of bs !! p = None -> c = O /\ saved_block bs' p) /\
        (forall k, pins_of bs !! p = Some k -> k = mkPin i (contents_at bs i) c false) /\
        heap bs' !! p = Some bl /\ bl_id bl = i /\ bl_detached bl = false /\ 0 < bl_refcount bl /\ root_block bs <> Some p
    end;
}.

Lemma got_keeps bs bs' i : keeps bs bs' -> got bs bs' i None.
Proof. intros [K1 K2 K3 K4 K5 K6]. by split. Qed.

(** A block in memory. *)
Lemma use_got bs bs1 lim fl p bl : inv bs1 lim fl [p] -> keeps bs bs1 -> heap bs1 !! p = Some bl ->
  (bl_refcount bl = 0 -> saved_block bs1 p) ->
  exists bs', use_block bs1 p = Ok bs' /\ inv bs' lim fl [] /\ got bs bs' (bl_id bl) (Some p).
Proof.
  intros Hi Hk Hp Hs0. destruct (use_block_ok bs1 lim fl p bl Hi Hp) as (bs' & E & Hi' & Hc & Hpins & Hs & Hr & Hrd & Hd & Hp').
  exists bs'. split; [done|]. split; [done|]. destruct Hk as [K1 K2 K3 K4 K5 K6].
  pose proof (root_not_cached bs1 lim fl [p] p Hi) as Hrc.
  assert (root_block bs1 <> Some p) as Hrp by (intros Er; apply (Hrc Er), list_elem_of_here).
  pose proof (i_block _ _ _ _ Hi p bl Hp Hrp) as [_ _ B3 _ _ _].
  destruct (cached_block _ _ _ _ _ _ Hi Hp Hrp Hd) as [_ Hct].
  split.
  - intros j. by rewrite Hc.
  - auto.
  - congruence.
  - unfold last_block in *. by rewrite Hrd.
  - unfold first_free in *. by rewrite Hrd.
  - exists (Z.to_nat (bl_refcount bl)), (with_refcount bl (bl_refcount bl + 1)). split; [by rewrite Hpins, K1, K2|]. split.
    + rewrite <- K1. intros Hn. destruct (Z_le_lt_eq_dec 0 (bl_refcount bl) B3) as [Hlt|Heq].
      * assert (pins_of bs1 !! p = Some (pin_of bl)) as Hk by (apply pins_lookup; by exists bl). congruence.
      * rewrite <- Heq. split; [done|]. by apply Hs, Hs0.
    + split; [|split; [done|split; [done|split; [done|split; [cbn; lia|congruence]]]]].
      rewrite <- K1. intros k (b & Eb & _ & _ & ->)%pins_lookup. rewrite Hp in Eb. injection Eb as <-. unfold pin_of.
      rewrite <- K2, Hct, Hd. done.
Qed.

Lemma invalid_id_ok bs lim fl x i : inv bs lim fl x -> 0 < i <= last_block bs -> i mod CAMEL_BLOCK_SIZE = 0 -> invalid_id bs i = Ok false.
Proof.
  intros Hi Hv Hm. unfold invalid_id. destruct (i_root _ _ _ _ Hi) as (r & bl & Hr & _). rewrite Hr, (root_last_ok bs lim fl x Hi), !res_bind_Ok.
  f_equal. destruct (Z.ltb_spec (last_block bs) i), (Z.eqb_spec i 0); try lia. cbn. unfold block_size. by rewrite Hm.
Qed.

Lemma get_ok bs lim fl i : inv bs lim fl [] -> 0 < i <= last_block bs -> valid_id lim i ->
  (forall q bl, heap bs !! q = Some bl -> bl_id bl = i -> bl_detached bl = false) ->
  exists bs' (r : option ptr), camel_block_file_get_block bs i = Ok (bs', r) /\ inv bs' lim fl [] /\ got bs bs' i r /\
    (r = None -> forall lim, inv bs lim fl [] -> inv bs' lim fl []).
Proof.
  intros Hi Hv Hvl Hdet. unfold camel_block_file_get_block. rewrite (invalid_id_ok bs lim fl [] i Hi Hv (proj2 Hvl)), res_bind_Ok.
  destruct (blocks bs !! i) as [p|] eqn:Eb.
  - apply (i_blocks _ _ _ _ Hi) in Eb as (Hc & bl & Hp & Eid). cbn [app] in Hc. unfold unlink. rewrite bool_decide_true, res_bind_Ok by done.
    set (bs1 := set_cache bs _). assert (inv bs1 lim fl [p]) as Hi1.
    { apply (inv_move bs lim fl []); [done|]. cbn. pose proof (i_cache _ _ _ _ Hi) as Hn. cbn in Hn.
      apply list_elem_of_split in Hc as (l1 & l2 & E). rewrite E in Hn |- *. apply NoDup_app in Hn as (_ & Hn1 & [Hn2 _]%NoDup_cons).
      rewrite filter_app, filter_cons_False, !filter_out; [apply Permutation_middle|done| |tauto].
      intros Hp1. by apply (Hn1 p Hp1), list_elem_of_here. }
    assert (keeps bs bs1) as Hk by by split.
    destruct (use_got bs bs1 lim fl p bl Hi1 Hk Hp) as (bs' & -> & Hi' & Hg).
    { intros Hrf b E Hr. assert (b = bl) as -> by (cbn in E; congruence). destruct (bl_dirty bl) eqn:Ed; [by left|right].
      by apply (i_block _ _ _ _ Hi1 p bl Hp Hr). }
    rewrite res_bind_Ok. exists bs', (Some p). by rewrite Eid in Hg.
  - destruct (use_ok bs) as (bs1 & ret & -> & Hu & Hk1 & Hh1 & Hc1 & Hb1 & Hd1). pose proof (Hu _ _ _ Hi) as Hi1.
    destruct (ret =? -1); [exists bs1, None; split; [done|]; split; [done|]; split; [by apply got_keeps|auto]|].
    destruct (next_call_same bs1) as (fs & f & Ef). rewrite Ef. destruct (next_call_ok bs1 lim fl [] Hi1) as [Hi2 Hk2].
    rewrite Ef in Hi2, Hk2. cbn [fst] in Hi2, Hk2. set (bs2 := set_faults bs1 fs) in *. pose proof (keeps_trans _ _ _ Hk1 Hk2) as Hk.
    destruct f as [n|]; [exists bs2, None; split; [done|]; split; [done|]; split; [by apply got_keeps|];
      intros _ lim' Hl; by apply inv_faults, Hu|].
    assert (forall q bl, heap bs2 !! q = Some bl -> bl_id bl <> i) as Hnew.
    { intros q bl Hq E. cbn in Hq. rewrite Hh1 in Hq. assert (blocks bs !! i = Some q) as Hb; [|congruence].
      apply (i_blocks _ _ _ _ Hi). split; [|by exists bl]. apply (b_cached _ _ _ _ _ (i_block _ _ _ _ Hi q bl Hq ltac:(
        intros Er; destruct (i_root _ _ _ _ Hi) as (r & b & Hr' & E' & Eid & _); assert (b = bl) as -> by congruence; lia))).
      by apply (Hdet q). }
    set (p := g_malloc0 bs2). pose proof (malloc_fresh bs2) as Hp. fold p in Hp.
    destruct (inv_load bs2 lim fl [] p i Hi2 Hp Hvl Hnew) as [Hi3 _].
    destruct (load_keeps bs2 lim fl [] p i Hi2 Hp Hvl Hnew) as [Hk3 Hs3].
    set (bs3 := set_blocks _ _). assert (inv bs3 lim fl [p]) as Hi3' by by apply (inv_count _ lim fl [p] (block_cache_count bs2 + 1)) in Hi3.
    assert (keeps bs2 bs3) as Hk3' by by destruct Hk3; split.
    destruct (flush_loop_ok bs3 lim fl [p] (rev (block_cache bs3)) Hi3') as (bs4 & -> & Hi4 & Hk4 & Hh4).
    { rewrite <- Permutation_rev. apply (i_cache _ _ _ _ Hi2). }
    { intros q Hq. by rewrite <- Permutation_rev in Hq. }
    rewrite res_bind_Ok. assert (heap bs4 !! p = Some (mkBlock i false false 0 (read_disk (disk bs2) i))) as Hp4.
    { rewrite Hh4; [cbn; by rewrite lookup_insert_eq|]. rewrite <- Permutation_rev. intros Hin.
      destruct (i_attached _ _ _ _ Hi2 p Hin) as (b & E & _). congruence. }
    destruct (use_got bs bs4 lim fl p _ Hi4 (keeps_trans _ _ _ (keeps_trans _ _ _ Hk Hk3') Hk4) Hp4) as (bs' & -> & Hi' & Hg).
    { intros _. apply (k_saved _ _ Hk4). exact Hs3. }
    rewrite res_bind_Ok. by exists bs', (Some p).
Qed.

(** ** Marking blocks *)

Lemma mark_ok bs lim fl x p bl : inv bs lim fl x -> heap bs !! p = Some bl -> root_block bs <> Some p ->
  mark_dirty bs p = Ok (put_bl bs p (with_dirty bl true)) /\ inv (put_bl bs p (with_dirty bl true)) lim fl x /\
  keeps bs (put_bl bs p (with_dirty bl true)) /\ saved_block (put_bl bs p (with_dirty bl true)) p.
Proof.
  intros Hi Hp Hr. set (bl' := with_dirty bl true). split; [unfold mark_dirty, get_bl; by rewrite Hp|].
  assert (saved_block (put_bl bs p bl') p) as Hs.
  { intros b E _. cbn in E. rewrite lookup_insert_eq in E. injection E as <-. by left. }
  split; [|split; [|done]].
  - apply (inv_put bs lim fl x p bl); try done; [|by left]. by destruct (i_block _ _ _ _ Hi p bl Hp Hr); split.
  - pose proof (root_data_put bs p bl' Hr) as Er. split; try done.
    + by apply (pins_put_same bs p bl).
    + intros i. rewrite (contents_put _ _ _ _ _ _ _ _ Hi Hp Hr). destruct (bl_detached bl) eqn:Ed; [done|]. unfold change.
      destruct (Z.eqb_spec i (bl_id bl)) as [->|]; [|done]. symmetry. by apply (cached_block _ _ _ _ _ _ Hi Hp Hr Ed).
    + intros q Hq. destruct (decide (q = p)) as [->|Hne]; [done|]. intros b E Hrq. cbn in E. rewrite lookup_insert_ne in E by done. by apply Hq.
    + unfold last_block. by rewrite Er.
    + unfold first_free. by rewrite Er.
Qed.

(** The flags in the root block. *)
Lemma root_flags_ok bs lim fl x r v : inv bs lim fl x -> root_block bs = Some r ->
  exists bs1 bs', set_root_flags bs v = Ok bs1 /\ mark_dirty bs1 r = Ok bs' /\ inv bs' lim fl x /\ keeps bs bs' /\
    (forall q, q <> r -> heap bs' !! q = heap bs !! q) /\ block_cache bs' = block_cache bs /\ blocks bs' = blocks bs /\ disk bs' = disk bs /\
    exists bl, heap bs' !! r = Some bl /\ bl_dirty bl = true /\ bl_data bl = <[2%nat := v]> (root_data bs).
Proof.
  intros Hi Hr. destruct (i_root _ _ _ _ Hi) as (r' & bl & Hr' & Hp & Hid & Hd & Hl & _). assert (r' = r) as -> by congruence.
  unfold set_root_flags, set_root_word, root_ptr, get_bl. rewrite Hr, res_bind_Ok, Hp, res_bind_Ok.
  unfold set_word. rewrite arr_set_Ok, res_bind_Ok by (rewrite Hl; unfold block_words; lia). change (Z.to_nat 2) with 2%nat.
  set (bl1 := with_data bl _). eexists _, (put_bl bs r (with_dirty bl1 true)). split; [done|].
  unfold mark_dirty, get_bl. cbn [heap put_bl set_heap]. rewrite lookup_insert_eq, res_bind_Ok.
  split; [unfold put_bl; cbn [heap set_heap]; by rewrite insert_insert_eq|].
  destruct (inv_put_root_same bs lim fl x r bl (with_dirty bl1 true) Hi Hr Hp) as [Hi' Hk]; try done.
  - cbn. by rewrite length_insert.
  - intros k _ Hk. cbn. by rewrite list_lookup_total_insert_ne by lia.
  - split; [done|]. split; [done|]. split; [intros q Hq; cbn; by rewrite lookup_insert_ne|]. do 3 (split; [done|]).
    exists (with_dirty bl1 true). cbn. rewrite lookup_insert_eq. do 2 (split; [done|]). unfold root_data. by rewrite Hr, Hp.
Qed.

(** ** The operations on a block *)

Lemma detach_ok bs fl p bl : inv bs (last_block bs) fl [] -> apart bs fl -> heap bs !! p = Some bl -> root_block bs <> Some p ->
  bl_detached bl = false -> 0 < bl_refcount bl ->
  exists bs', camel_block_file_detach_block bs p = Ok bs' /\ inv bs' (last_block bs) fl [] /\
    pins_of bs' = <[p := mkPin (bl_id bl) (bl_data bl) (Z.to_nat (bl_refcount bl)) true]> (pins_of bs) /\
    (forall j, j <> bl_id bl -> contents_at bs' j = contents_at bs j) /\ last_block bs' = last_block bs /\ first_free bs' = first_free bs /\
    (forall q, saved_block bs q -> saved_block bs' q).
Proof.
  intros Hi Ha Hp Hr Hd Hrf. pose proof (b_cached _ _ _ _ _ (i_block _ _ _ _ Hi p bl Hp Hr) Hd) as Hc. cbn in Hc.
  unfold camel_block_file_detach_block, get_bl. rewrite Hp, res_bind_Ok. unfold unlink. cbn [block_cache set_blocks].
  rewrite bool_decide_true, res_bind_Ok by done.
  assert (~ bl_id bl ∈ fl) as Hf by (apply (Ha p (pin_of bl)), pins_lookup; by exists bl).
  destruct (inv_take_out bs (last_block bs) fl p bl Hi Hp Hc Hrf Hf) as [Hi' Hct].
  exists (take_out bs p bl). split; [done|]. split; [done|].
  set (bs1 := set_cache (set_blocks bs (delete (bl_id bl) (blocks bs))) (filter (fun q => q <> p) (block_cache bs))).
  pose proof (root_data_put bs1 p (with_detached bl true) Hr) as Er. split; [|split; [done|split; [|split]]].
  - unfold take_out. fold bs1. rewrite (pins_put bs1 p _ Hr). cbn. destruct (Z.ltb_spec 0 (bl_refcount bl)); [|lia].
    by rewrite (pins_same bs bs1).
  - exact (f_equal (fun d => d !!! 5%nat) Er).
  - exact (f_equal (fun d => d !!! 4%nat) Er).
  - intros q Hq b E Hrq. cbn in E. apply lookup_put in E as [[-> ->]|[Hne E]]; [exact (Hq bl Hp Hr)|]. by apply Hq.
Qed.

Lemma unref_ok bs fl p bl : inv bs (last_block bs) fl [] -> heap bs !! p = Some bl -> root_block bs <> Some p ->
  0 < bl_refcount bl -> saved_block bs p ->
  exists bs', camel_block_file_unref_block bs p = Ok bs' /\ inv bs' (last_block bs) fl [] /\
    pins_of bs' = (if 1 <? bl_refcount bl then <[p := pin_of (with_refcount bl (bl_refcount bl - 1))]> (pins_of bs) else delete p (pins_of bs)) /\
    (forall j, contents_at bs' j = contents_at bs j) /\ last_block bs' = last_block bs /\ first_free bs' = first_free bs /\
    (forall q, saved_block bs q -> saved_block bs' q).
Proof.
  intros Hi Hp Hr Hrf Hs. unfold camel_block_file_unref_block, get_bl. rewrite Hp, res_bind_Ok.
  destruct ((bl_refcount bl =? 1) && bl_detached bl) eqn:E.
  - apply andb_prop in E as [E1%Z.eqb_eq Hd]. exists (free_bl bs p). split; [done|].
    pose proof (detached_block _ _ _ _ _ _ Hi Hp Hd) as Hb.
    assert (~ p ∈ block_cache bs) as Hnc by (intros Hin; destruct (i_attached _ _ _ _ Hi p Hin) as (b & E & ?); congruence).
    assert (forall i q, blocks bs !! i = Some q -> q <> p) as Hbq by (intros i q Hq ->; apply (i_blocks _ _ _ _ Hi) in Hq as [? _]; done).
    assert (root_data (free_bl bs p) = root_data bs) as Er.
    { unfold root_data. cbn. destruct (root_block bs); [|done]. by rewrite lookup_delete_ne by congruence. }
    assert (forall j, contents_at (free_bl bs p) j = contents_at bs j) as Hc.
    { intros j. unfold contents_at. cbn. destruct (j =? 0); [done|]. destruct (blocks bs !! j) as [q|] eqn:Eq; [|done].
      rewrite lookup_delete_ne; [done|]. apply not_eq_sym, (Hbq j q Eq). }
    assert (last_block (free_bl bs p) = last_block bs /\ first_free (free_bl bs p) = first_free bs) as [El Ef].
    { unfold last_block, first_free. by rewrite Er. }
    split; [|split; [|split; [done|split; [done|split; [done|]]]]].
    + pose proof Hi as [H1 H2 H3 H4 H5 H6 H7 H8 H9 H11 H10]. split; try (rewrite El; done); try done; cbn.
      * destruct H1 as (r & b & E2 & E3 & E4). exists r, b. by rewrite lookup_delete_ne by congruence.
      * by apply (chain_same bs).
      * intros i q. rewrite H5. split; intros [Hq (b & Eb & Ei)]; (split; [done|]); exists b.
        -- rewrite lookup_delete_ne; [done|]. intros <-. done.
        -- rewrite lookup_delete_Some in Eb. by destruct Eb.
      * intros q Hq. destruct (H7 q Hq) as (b & Eb & Hdb). exists b. rewrite lookup_delete_ne; [done|]. by intros <-.
      * intros q b Hq Hrq. rewrite lookup_delete_Some in Hq. destruct (H8 q b (proj2 Hq) Hrq). by split.
      * intros q q' b b' Hq Hq'. rewrite lookup_delete_Some in Hq, Hq'. apply H9; tauto.
      * unfold root_head. by rewrite Er.
    + rewrite E1. cbn. by rewrite pins_delete.
    + intros q Hq b Eb Hrq. cbn in Eb. rewrite lookup_delete_Some in Eb. by apply (Hq b (proj2 Eb)).
  - set (bl' := with_refcount bl (bl_refcount bl - 1)). exists (put_bl bs p bl'). split; [done|].
    destruct (i_block _ _ _ _ Hi p bl Hp Hr) as [B1 B2 B3 B4 B5 B6].
    assert (bl_detached bl = true -> 1 < bl_refcount bl) as Hdet.
    { intros Hd. rewrite Hd, andb_true_r in E. apply Z.eqb_neq in E. lia. }
    assert (inv (put_bl bs p bl') (last_block bs) fl []) as Hi'.
    { apply (inv_put bs _ fl [] p bl); try done; [|by left]. split; try done; cbn; [lia|intros Hd; specialize (Hdet Hd); lia|].
      intros _ Hnd. destruct (Hs bl Hp Hr); [congruence|done]. }
    pose proof (root_data_put bs p bl' Hr) as Er. split; [done|]. split; [|split; [|split; [|split]]].
    + rewrite (pins_put bs p bl' Hr). cbn. by destruct (Z.ltb_spec 1 (bl_refcount bl)), (Z.ltb_spec 0 (bl_refcount bl - 1)); try lia.
    + intros j. rewrite (contents_put _ _ _ _ _ _ _ _ Hi Hp Hr). destruct (bl_detached bl) eqn:Ed; [done|]. unfold change.
      destruct (Z.eqb_spec j (bl_id bl)) as [->|]; [|done]. symmetry. by apply (cached_block _ _ _ _ _ _ Hi Hp Hr Ed).
    + unfold last_block. by rewrite Er.
    + unfold first_free. by rewrite Er.
    + intros q Hq b Eb Hrq. cbn in Eb. apply lookup_put in Eb as [[-> ->]|[Hne Eb]]; [exact (Hq bl Hp Hr)|]. by apply Hq.
Qed.

(** Syncing a block that is not detached, or the root block. *)
Lemma sync_keeps bs lim fl x p bl : inv bs lim fl x -> heap bs !! p = Some bl -> bl_detached bl = false \/ root_block bs = Some p ->
  exists bs' ret, camel_block_file_sync_block bs p = Ok (bs', ret) /\ inv bs' lim fl x /\ keeps bs bs'.
Proof.
  intros Hi Hp Hor. unfold camel_block_file_sync_block.
  destruct (use_ok bs) as (bs1 & ret & -> & Hu & Hk1 & Hh1 & Hc1 & Hb1 & Hd1). pose proof (Hu _ _ _ Hi) as Hi1.
  destruct (ret =? -1); [by exists bs1, (-1)|]. rewrite <- Hh1 in Hp. rewrite <- (k_root _ _ Hk1) in Hor.
  destruct (sync_block_ok bs1 lim fl x p bl Hi1 Hp) as (bs2 & ret2 & E2 & Hi2 & Hv2 & _).
  { intros Hd Hr. destruct Hor; [congruence|done]. }
  exists bs2, ret2. split; [done|]. split; [done|]. apply (keeps_trans _ bs1); [done|]. apply (keeps_sync _ _ p bl); [done|].
  destruct Hor as [?|Hr]; [by left|right]. destruct (i_root _ _ _ _ Hi1) as (r & b & Hr' & E & Eid & _). congruence.
Qed.

Lemma touch_ok bs lim fl x p bl : inv bs lim fl x -> heap bs !! p = Some bl -> root_block bs <> Some p ->
  exists bs', camel_block_file_touch_block bs p = Ok bs' /\ inv bs' lim fl x /\ keeps bs bs' /\ saved_block bs' p.
Proof.
  intros Hi Hp Hr. destruct (mark_ok bs lim fl x p bl Hi Hp Hr) as (E1 & Hi1 & Hk1 & Hs1). unfold camel_block_file_touch_block.
  rewrite E1, res_bind_Ok. set (bs1 := put_bl bs p (with_dirty bl true)) in *.
  destruct (i_root _ _ _ _ Hi1) as (r & b & Hr1 & _). unfold root_flags. rewrite (root_word_ok bs1 lim fl x 2 Hi1), res_bind_Ok by lia.
  unfold root_ptr. rewrite Hr1, res_bind_Ok.
  destruct (negb _ && negb _); [|by exists bs1].
  destruct (root_flags_ok bs1 lim fl x r (Z.ldiff (root_data bs1 !!! Z.to_nat 2) CAMEL_BLOCK_FILE_SYNC) Hi1 Hr1)
    as (bs2 & bs3 & -> & E3 & Hi3 & Hk3 & _ & _ & _ & _ & bl3 & Hp3 & _). rewrite res_bind_Ok, E3, res_bind_Ok.
  destruct (sync_keeps bs3 lim fl x r bl3 Hi3 Hp3) as (bs4 & ret & -> & Hi4 & Hk4); [right; by rewrite (k_root _ _ Hk3)|].
  rewrite res_bind_Ok. exists bs4. do 2 (split; [done|]). split; [by apply (keeps_trans _ bs3); [apply (keeps_trans _ bs1)|]|].
  by apply (k_saved _ _ Hk4), (k_saved _ _ Hk3).
Qed.

Lemma write_ok bs lim fl x p bl d : inv bs lim fl x -> heap bs !! p = Some bl -> root_block bs <> Some p -> 0 < bl_refcount bl ->
  (~ bl_id bl ∈ fl) -> length d = block_words ->
  let bs' := put_bl bs p (with_data bl d) in inv bs' lim fl x /\
  pins_of bs' = <[p := mkPin (bl_id bl) d (Z.to_nat (bl_refcount bl)) (bl_detached bl)]> (pins_of bs) /\
  (forall j, contents_at bs' j = if bl_detached bl then contents_at bs j else change (contents_at bs) (bl_id bl) d j) /\
  last_block bs' = last_block bs /\ first_free bs' = first_free bs /\ (forall q, q <> p -> saved_block bs q -> saved_block bs' q).
Proof.
  intros Hi Hp Hr Hrf Hf Hd bs'. destruct (i_block _ _ _ _ Hi p bl Hp Hr) as [B1 B2 B3 B4 B5 B6].
  assert (inv bs' lim fl x) as Hi'.
  { apply (inv_put bs lim fl x p bl); try done; [|by right]. split; try done. cbn. lia. }
  pose proof (root_data_put bs p (with_data bl d) Hr) as Er. split; [done|]. split; [|split; [|split; [|split]]].
  - unfold bs'. rewrite (pins_put bs p _ Hr). cbn. by destruct (Z.ltb_spec 0 (bl_refcount bl)); [|lia].
  - intros j. exact (contents_put bs lim fl x p bl (with_data bl d) j Hi Hp Hr).
  - exact (f_equal (fun d => d !!! 5%nat) Er).
  - exact (f_equal (fun d => d !!! 4%nat) Er).
  - intros q Hq Hs b Eb Hrq. cbn in Eb. rewrite lookup_insert_ne in Eb by done. by apply Hs.
Qed.

(** ** Syncing the file *)

Lemma sync_cache_ok bs lim fl x l : inv bs lim fl x -> (forall q, q ∈ l -> q ∈ block_cache bs) ->
  exists bs' work ret, sync_cache bs l = Ok (bs', work, ret) /\ inv bs' lim fl x /\ keeps bs bs' /\ block_cache bs' = block_cache bs /\
    blocks bs' = blocks bs /\
    (forall q bl', heap bs' !! q = Some bl' -> exists bl, heap bs !! q = Some bl /\ (bl' = bl \/ bl' = with_dirty bl false)) /\
    (ret <> -1 -> forall q bl, q ∈ l -> heap bs' !! q = Some bl -> bl_dirty bl = false).
Proof.
  revert bs. induction l as [|p l IH]; intros bs Hi Hl; cbn [sync_cache].
  { exists bs, false, 0. split; [done|]. split; [done|]. split; [apply keeps_refl|]. do 2 (split; [done|]).
    split; [intros q bl' Hq; exists bl'; split; [done|by left]|]. by intros _ q bl Hq%not_elem_of_nil. }
  destruct (i_attached _ _ _ _ Hi p) as (bl & Hp & Hd); [apply elem_of_app; right; apply Hl, list_elem_of_here|].
  assert (forall q, q ∈ l -> q ∈ block_cache bs) as Hl' by (intros q Hq; by apply Hl, list_elem_of_further).
  unfold get_bl. rewrite Hp, res_bind_Ok. destruct (bl_dirty bl) eqn:Edirty.
  - destruct (sync_block_ok bs lim fl x p bl Hi Hp) as (bs1 & ret & -> & Hi1 & Hv & Hret & _); [congruence|].
    pose proof (keeps_sync _ _ _ _ Hv (or_introl Hd)) as Hk1. pose proof (sv_cache _ _ _ _ Hv) as Hc1. rewrite res_bind_Ok.
    assert (forall q bl', heap bs1 !! q = Some bl' -> exists bl, heap bs !! q = Some bl /\ (bl' = bl \/ bl' = with_dirty bl false)) as Hh1.
    { intros q bl' Hq. destruct Hret as [(-> & Hh & _)|(-> & Hh & _)]; rewrite Hh in Hq; [|exists bl'; split; [done|by left]].
      apply lookup_put in Hq as [[-> ->]|[Hne Hq]]; [exists bl; split; [done|by right]|exists bl'; split; [done|by left]]. }
    destruct Hret as [(-> & Hh & _)|(-> & Hh & _)]; cbn [Z.eqb]; [|exists bs1, true, (-1); do 4 (split; [done|]);
      split; [apply Hv|]; by split].
    destruct (IH bs1 Hi1) as (bs2 & work & ret & -> & Hi2 & Hk2 & Hc2 & Hb2 & Hh2 & Hcl2); [intros q Hq; rewrite Hc1; by apply Hl'|].
    rewrite res_bind_Ok. exists bs2, true, ret. split; [done|]. split; [done|]. split; [by apply (keeps_trans _ bs1)|].
    split; [congruence|]. split; [rewrite Hb2; apply Hv|]. split.
    + intros q b2 Hq. destruct (Hh2 q b2 Hq) as (b1 & Hq1 & Hb1). destruct (Hh1 q b1 Hq1) as (b0 & Hq0 & Hb0). exists b0. split; [done|].
      destruct Hb1 as [->| ->], Hb0 as [->| ->]; try tauto; by right.
    + intros Hret q b Hq Hqb. apply elem_of_cons in Hq as [->|Hq]; [|by apply (Hcl2 Hret q b)].
      destruct (Hh2 p b Hqb) as (b1 & Hq1 & Hb1). rewrite Hh, lookup_insert_eq in Hq1. injection Hq1 as <-.
      by destruct Hb1 as [->| ->].
  - destruct (IH bs Hi Hl') as (bs2 & work & ret & -> & Hi2 & Hk2 & Hc2 & Hb2 & Hh2 & Hcl2). exists bs2, work, ret.
    do 6 (split; [done|]). intros Hret q b Hq Hqb. apply elem_of_cons in Hq as [->|Hq]; [|by apply (Hcl2 Hret q b)].
    destruct (Hh2 p b Hqb) as (b1 & Hq1 & Hb1). assert (b1 = bl) as -> by congruence. by destruct Hb1 as [->| ->].
Qed.

(** Everything is in the file. *)
Definition synced bs : Prop :=
  (forall q bl, q ∈ block_cache bs -> heap bs !! q = Some bl -> bl_dirty bl = false) /\
  exists r bl, root_block bs = Some r /\ heap bs !! r = Some bl /\ bl_dirty bl = false /\
    Z.land (bl_data bl !!! 2%nat) CAMEL_BLOCK_FILE_SYNC <> 0.

Lemma lor_sync v : Z.land (Z.lor v CAMEL_BLOCK_FILE_SYNC) CAMEL_BLOCK_FILE_SYNC <> 0.
Proof.
  intros E. apply (f_equal (fun z => Z.testbit z 0)) in E. rewrite Z.land_spec, Z.lor_spec, Z.bits_0 in E.
  by destruct (Z.testbit v 0).
Qed.

Lemma sync_nolock_ok bs lim fl x : inv bs lim fl x ->
  exists bs' ret, sync_nolock bs = Ok (bs', ret) /\ inv bs' lim fl x /\ keeps bs bs' /\ (ret = 0 \/ ret = -1) /\ (ret = 0 -> synced bs').
Proof.
  intros Hi. unfold sync_nolock.
  destruct (sync_cache_ok bs lim fl x (block_cache bs) Hi) as (bs1 & work & ret & -> & Hi1 & Hk1 & Hc1 & Hb1 & Hh1 & Hcl); [done|].
  rewrite res_bind_Ok. destruct (Z.eqb_spec ret (-1)) as [->|Hret]; [exists bs1, (-1); do 3 (split; [done|]); split; [by right|done]|].
  specialize (Hcl Hret). destruct (i_root _ _ _ _ Hi1) as (r & b & Hr1 & Hp1 & Hid & Hd & _). unfold root_ptr, get_bl. rewrite Hr1, res_bind_Ok, Hp1, res_bind_Ok.
  unfold root_flags. rewrite (root_word_ok bs1 lim fl x 2 Hi1), res_bind_Ok by lia. change (Z.to_nat 2) with 2%nat.
  assert (root_data bs1 = bl_data b) as Erd by (unfold root_data; by rewrite Hr1, Hp1).
  destruct (negb work && negb (bl_dirty b) && negb (Z.land (root_data bs1 !!! 2%nat) CAMEL_BLOCK_FILE_SYNC =? 0)) eqn:E.
  - apply andb_prop in E as [[_ E1]%andb_prop E2]. exists bs1, 0. do 3 (split; [done|]). split; [by left|]. intros _.
    split; [by rewrite Hc1|]. exists r, b. do 2 (split; [done|]). split; [by destruct (bl_dirty b)|].
    rewrite <- Erd. by destruct (Z.eqb_spec (Z.land (root_data bs1 !!! 2%nat) CAMEL_BLOCK_FILE_SYNC) 0).
  - destruct (root_flags_ok bs1 lim fl x r (Z.lor (root_data bs1 !!! 2%nat) CAMEL_BLOCK_FILE_SYNC) Hi1 Hr1)
      as (bs2 & bs3 & -> & E3 & Hi3 & Hk3 & Hh3 & Hc3 & Hb3 & Hd3 & bl3 & Hp3 & Hdirty & Hdata). rewrite res_bind_Ok, E3, res_bind_Ok.
    assert (root_block bs3 = Some r) as Hr3 by by rewrite (k_root _ _ Hk3).
    destruct (sync_block_ok bs3 lim fl x r bl3 Hi3 Hp3) as (bs4 & ret4 & -> & Hi4 & Hv4 & Hret4 & _); [by intros _ []|].
    destruct (i_root _ _ _ _ Hi3) as (r' & b3 & Hr' & Hpb & Hid3 & _). assert (b3 = bl3) as -> by congruence.
    pose proof (keeps_sync _ _ _ _ Hv4 (or_intror Hid3)) as Hk4.
    exists bs4, ret4. split; [done|]. split; [done|]. split; [by apply (keeps_trans _ bs3); [apply (keeps_trans _ bs1)|]|].
    destruct Hret4 as [(-> & Hh4 & _)|(-> & _)]; [|by split; [right|]]. split; [by left|]. intros _. split.
    + intros q bl Hq Hql. rewrite (sv_cache _ _ _ _ Hv4), Hc3, Hc1 in Hq. rewrite Hh4 in Hql.
      assert (q <> r) as Hqr by (intros ->; apply (root_not_cached _ _ _ _ _ Hi1 Hr1); rewrite Hc1; apply elem_of_app; by right).
      rewrite lookup_insert_ne, Hh3 in Hql by done. by apply (Hcl q).
    + exists r, (with_dirty bl3 false). rewrite (sv_root _ _ _ _ Hv4), Hh4, lookup_insert_eq. do 3 (split; [done|]). cbn.
      rewrite Hdata, list_lookup_total_insert_eq; [apply lor_sync|]. rewrite Erd. destruct (i_root _ _ _ _ Hi1) as (r2 & b2 & ? & ? & _ & _ & Hl & _).
      assert (b2 = b) as -> by congruence. rewrite Hl. unfold block_words. lia.
Qed.

Lemma sync_ok bs lim fl x : inv bs lim fl x ->
  exists bs' ret, camel_block_file_sync bs = Ok (bs', ret) /\ inv bs' lim fl x /\ keeps bs bs' /\ (ret = 0 -> synced bs').
Proof.
  intros Hi. unfold camel_block_file_sync. destruct (use_ok bs) as (bs1 & ret & -> & Hu & Hk1 & _). pose proof (Hu _ _ _ Hi) as Hi1.
  destruct (ret =? -1); [by exists bs1, (-1)|].
  destruct (sync_nolock_ok bs1 lim fl x Hi1) as (bs2 & ret2 & -> & Hi2 & Hk2 & _ & Hs2). exists bs2, ret2.
  do 2 (split; [done|]). split; [by apply (keeps_trans _ bs1)|done].
Qed.

(** ** Allocating *)

(** The list of free blocks and the end change. *)
Lemma root_move_ok bs lim fl fl' k v : inv bs lim fl [] -> k = 4 \/ k = 5 ->
  let free' := if k =? 4 then v else first_free bs in let last' := if k =? 4 then last_block bs else v in
  0 < last' < 2 ^ 32 -> last' <= lim -> last' mod CAMEL_BLOCK_SIZE = 0 -> is_chain (contents_at bs) free' fl' -> NoDup fl' ->
  (forall i, i ∈ fl' -> valid_id last' i) ->
  exists bs1 bs', set_root_word bs k v = Ok bs1 /\ root_dirty bs1 = Ok bs' /\ inv bs' lim fl' [] /\ pins_of bs' = pins_of bs /\
    (forall i, contents_at bs' i = contents_at bs i) /\ (forall q, saved_block bs q -> saved_block bs' q) /\
    root_block bs' = root_block bs /\ last_block bs' = last' /\ first_free bs' = free' /\
    (forall q, root_block bs <> Some q -> heap bs' !! q = heap bs !! q).
Proof.
  intros Hi Hk free' last' H1 H2 H3 H4 H5 H6.
  destruct (i_root _ _ _ _ Hi) as (r & bl & Hr & Hp & Hid & Hd & Hl & _).
  assert (root_data bs = bl_data bl) as Erd by (unfold root_data; by rewrite Hr, Hp).
  assert (0 <= k < Z.of_nat (length (bl_data bl))) as Hkl by (rewrite Hl; unfold block_words; lia).
  unfold set_root_word, root_ptr, get_bl. rewrite Hr, res_bind_Ok, Hp, res_bind_Ok. unfold set_word. rewrite arr_set_Ok, res_bind_Ok by done.
  set (bl1 := with_data bl _). eexists _, (put_bl bs r (with_dirty bl1 true)). split; [done|].
  unfold root_dirty, root_ptr, mark_dirty, get_bl. cbn [root_block heap put_bl set_heap]. rewrite Hr, res_bind_Ok, lookup_insert_eq, res_bind_Ok.
  split; [unfold put_bl; cbn [heap set_heap]; by rewrite insert_insert_eq|].
  assert (bl_data bl1 !!! 4%nat = free' /\ bl_data bl1 !!! 5%nat = last') as [E4 E5].
  { unfold free', last', first_free, last_block. rewrite Erd. cbn [bl1 with_data bl_data].
    destruct Hk as [->| ->]; cbn [Z.eqb Pos.eqb]; rewrite ?list_lookup_total_insert_eq, ?list_lookup_total_insert_ne by (lia || (rewrite Hl; unfold block_words; lia)); done. }
  assert (root_data (put_bl bs r (with_dirty bl1 true)) = bl_data bl1) as Er' by (unfold root_data; cbn; by rewrite Hr, lookup_insert_eq).
  split; [|split; [by apply pins_put_root|split; [|split; [|split; [done|split; [|split]]]]]].
  - apply (inv_put_root bs lim fl fl' [] r bl); try done; cbn [with_dirty bl_data]; rewrite ?E4, ?E5; try done.
    + cbn. by rewrite length_insert.
    + pose proof (i_head _ _ _ _ Hi) as [E0 _]. rewrite Erd in E0. rewrite <- E0. cbn. by destruct Hk as [->| ->]; rewrite !list_lookup_total_insert_ne by lia.
    + pose proof (i_head _ _ _ _ Hi) as [_ E3]. rewrite Erd in E3. rewrite <- E3. cbn. by destruct Hk as [->| ->]; rewrite !list_lookup_total_insert_ne by lia.
  - intros i. apply (contents_put_root _ _ _ _ _ _ _ Hi Hr).
  - intros q Hq b E Hrq. cbn in E, Hrq. rewrite lookup_insert_ne in E by congruence. by apply Hq.
  - unfold last_block. by rewrite Er'.
  - unfold first_free. by rewrite Er'.
  - intros q Hq. cbn. by rewrite lookup_insert_ne by congruence.
Qed.

Lemma inv_limit bs lim lim' fl x : inv bs lim fl x -> lim <= lim' -> inv bs lim' fl x.
Proof.
  intros [H1 H2 H3 H4 H5 H6 H7 H8 H9 H11 H10] Hl. split; try done; [lia|]. intros p bl Hp Hr.
  destruct (H8 p bl Hp Hr) as [B1 [B2 B2'] B3 B4 B5 B6]. split; try done. split; [lia|done].
Qed.

(** A block in memory is cleared. *)
Lemma clear_ok bs lim fl p bl : inv bs lim fl [] -> heap bs !! p = Some bl -> root_block bs <> Some p -> bl_detached bl = false ->
  0 < bl_refcount bl -> ~ bl_id bl ∈ fl ->
  exists bs', (bs ← mark_dirty bs p; bl ← get_bl bs p; Ok (put_bl bs p (with_data bl zero_block), Some p)) = Ok (bs', Some p) /\
    inv bs' lim fl [] /\ pins_of bs' = <[p := mkPin (bl_id bl) zero_block (Z.to_nat (bl_refcount bl)) false]> (pins_of bs) /\
    (forall j, contents_at bs' j = change (contents_at bs) (bl_id bl) zero_block j) /\ last_block bs' = last_block bs /\
    first_free bs' = first_free bs /\ (forall q, saved_block bs q -> saved_block bs' q) /\ saved_block bs' p.
Proof.
  intros Hi Hp Hr Hd Hrf Hf. destruct (mark_ok bs lim fl [] p bl Hi Hp Hr) as (-> & Hi1 & [K1 K2 K3 K4 K5 K6] & Hs1). rewrite res_bind_Ok.
  set (bs1 := put_bl bs p (with_dirty bl true)) in *. assert (heap bs1 !! p = Some (with_dirty bl true)) as Hp1 by (cbn; by rewrite lookup_insert_eq).
  unfold get_bl. rewrite Hp1, res_bind_Ok.
  destruct (write_ok bs1 lim fl [] p (with_dirty bl true) zero_block Hi1 Hp1 Hr Hrf Hf eq_refl) as (Hi2 & P2 & C2 & L2 & F2 & S2).
  set (bs2 := put_bl bs1 p _) in *. assert (saved_block bs2 p) as Hs2.
  { intros b E _. cbn in E. rewrite lookup_insert_eq in E. injection E as <-. by left. }
  exists bs2. split; [done|]. split; [done|]. cbn in P2. rewrite Hd in P2. split; [by rewrite P2, K1|]. split.
  { intros j. rewrite C2. cbn. rewrite Hd. unfold change. by rewrite K2. }
  split; [congruence|]. split; [congruence|]. split; [|done]. intros q Hq. destruct (decide (q = p)) as [->|Hne]; [done|]. by apply S2, K3.
Qed.

(** What allocating the block [i] gives. *)
Record new_ok bs bs' p (i : Z) fl : Prop := {
  n_inv : inv bs' (last_block bs') fl [];
  n_apart : apart bs' fl;
  n_pins : pins_of bs' = <[p := mkPin i zero_block 1 false]> (pins_of bs);
  n_contents : forall j, j <> i -> contents_at bs' j = contents_at bs j;
  n_zero : contents_at bs' i = zero_block;
  n_saved : (forall q, saved_block bs q -> saved_block bs' q) /\ saved_block bs' p;
}.

Lemma new_finish bs bs1 bs2 lim fl fl' i p : apart bs fl -> pins_of bs !! p = None -> got bs bs1 i (Some p) ->
  inv bs2 lim fl' [] -> pins_of bs2 = pins_of bs1 -> (forall j, contents_at bs2 j = contents_at bs1 j) ->
  (forall q, saved_block bs1 q -> saved_block bs2 q) -> root_block bs2 = root_block bs1 -> last_block bs2 = lim ->
  (forall q, root_block bs1 <> Some q -> heap bs2 !! q = heap bs1 !! q) -> (~ i ∈ fl') -> (forall j, j ∈ fl' -> j ∈ fl) -> 0 < i ->
  exists bs', (bs ← mark_dirty bs2 p; bl ← get_bl bs p; Ok (put_bl bs p (with_data bl zero_block), Some p)) = Ok (bs', Some p) /\
    new_ok bs bs' p i fl' /\ last_block bs' = lim /\ first_free bs' = first_free bs2.
Proof.
  intros Ha Hnone [G1 G2 G3 G4 G5 (c & bl & P1 & N1 & _ & Hp & Hid & Hd & Hrf & Hr)] Hi2 P2 C2 S2 R2 L2 H2 Hif Hsub Hi0.
  destruct (N1 Hnone) as [-> Sp]. assert (root_block bs1 <> Some p) as Hr1 by by rewrite G3.
  assert (heap bs2 !! p = Some bl) as Hp2 by by rewrite H2. rewrite <- Hid in Hif.
  destruct (clear_ok bs2 lim fl' p bl Hi2 Hp2 ltac:(by rewrite R2) Hd Hrf Hif) as (bs' & E & Hi' & P' & C' & L' & F' & S' & Sp').
  assert (Z.to_nat (bl_refcount bl) = 1%nat) as Hrc.
  { assert (pins_of bs1 !! p = Some (mkPin i (contents_at bs i) 1 false)) as E1 by by rewrite P1, lookup_insert_eq.
    apply pins_lookup in E1 as (b & Eb & _ & _ & Ek). rewrite Hp in Eb. injection Eb as <-. by injection Ek as _ _ ->. }
  rewrite Hid, Hrc, P2, P1, insert_insert_eq in P'. exists bs'. split; [done|]. split; [split|split; congruence].
  - by rewrite L', L2.
  - intros q k Hq. rewrite P' in Hq. apply lookup_insert_Some in Hq as [[_ <-]|[_ Hq]]; [by rewrite <- Hid|].
    intros Hin%Hsub. by apply (Ha q k).
  - done.
  - intros j Hj. rewrite C', Hid. unfold change. destruct (Z.eqb_spec j i); [done|]. by rewrite C2, G1.
  - rewrite C', Hid. unfold change. by rewrite Z.eqb_refl.
  - split; [auto|done].
Qed.

Lemma new_block_ok bs fl n : inv bs (last_block bs) fl [] -> apart bs fl -> room_for bs (S n) ->
  exists bs' (r : option ptr), camel_block_file_new_block bs = Ok (bs', r) /\ room_for bs' n /\
  match r with
  | None => inv bs' (last_block bs) fl [] /\ keeps bs bs'
  | Some p => exists i fl', new_ok bs bs' p i fl' /\ pins_of bs !! p = None /\
      (fl = i :: fl' /\ last_block bs' = last_block bs \/
       fl = [] /\ fl' = [] /\ i = last_block bs /\ last_block bs' = last_block bs + CAMEL_BLOCK_SIZE)
  end.
Proof.
  intros Hi Ha Hroom. unfold room_for, CAMEL_BLOCK_SIZE in Hroom. unfold camel_block_file_new_block.
  rewrite (root_free_ok bs _ _ _ Hi), res_bind_Ok. pose proof (i_chain _ _ _ _ Hi) as Hch. pose proof (i_free _ _ _ _ Hi) as [Hn Hv].
  pose proof (i_last _ _ _ _ Hi) as (Hl1 & _ & Hl2).
  assert (forall i q bl, heap bs !! q = Some bl -> bl_id bl = i -> 0 < i -> bl_detached bl = true -> ~ i ∈ fl /\ i < last_block bs) as Hdet.
  { intros i q bl Hq Eid Hi0 Hd. assert (root_block bs <> Some q) as Hrq.
    { intros E. destruct (i_root _ _ _ _ Hi) as (r & b & Hr & Hb & Hz & _). assert (b = bl) as -> by congruence. lia. }
    pose proof (i_block _ _ _ _ Hi q bl Hq Hrq) as [_ [B2 _] _ _ B5 _]. split; [|lia]. rewrite <- Eid.
    apply (Ha q (pin_of bl)), pins_lookup. exists bl. do 2 (split; [done|]). split; [by apply B5|done]. }
  destruct fl as [|i fl']; [cbn in Hch; rewrite Hch|destruct Hch as (Ef & Hi0 & Hch); rewrite Ef].
  - cbn [Z.eqb negb]. rewrite (root_last_ok bs _ _ _ Hi), res_bind_Ok. set (last := last_block bs) in *. set (lim := last + CAMEL_BLOCK_SIZE).
    assert (inv bs lim [] []) as Hi' by (apply (inv_limit bs last); [done|unfold lim, CAMEL_BLOCK_SIZE; lia]).
    destruct (get_ok bs lim [] last Hi') as (bs1 & r & -> & Hi1 & Hg & Hf); [lia|unfold valid_id, lim, CAMEL_BLOCK_SIZE in *; lia| |].
    { intros q bl Hq Eid. destruct (bl_detached bl) eqn:Ed; [|done]. destruct (Hdet last q bl Hq Eid ltac:(lia) Ed). unfold last in *. lia. }
    rewrite res_bind_Ok. cbv beta iota zeta. pose proof (g_free _ _ _ _ Hg) as Gf. pose proof (g_last _ _ _ _ Hg) as Gl. fold last in Gl. destruct r as [p|].
    2:{ rewrite !res_bind_Ok. exists bs1, None. split; [done|]. split; [unfold room_for, CAMEL_BLOCK_SIZE; rewrite Gl; lia|].
        split; [by apply Hf|]. by destruct Hg; split. }
    assert (u32 lim = lim) as -> by (unfold u32, lim, CAMEL_BLOCK_SIZE; apply Z.mod_small; lia).
    destruct (root_move_ok bs1 lim [] [] 5 lim Hi1) as (bs2 & bs3 & E2 & E3 & Hi3 & P3 & C3 & S3 & R3 & L3 & F3 & H3);
      cbn [Z.eqb Pos.eqb]; try done; [by right|unfold lim, CAMEL_BLOCK_SIZE; lia| | | |].
    { unfold lim, CAMEL_BLOCK_SIZE in *. rewrite <- Zplus_mod_idemp_l, Hl2. done. }
    { by rewrite Gf. }
    { by intros j Hj%not_elem_of_nil. }
    unfold set_root_last. rewrite E2, res_bind_Ok, res_bind_Ok, E3, res_bind_Ok.
    assert (pins_of bs !! p = None) as Hnone.
    { destruct (pins_of bs !! p) as [k|] eqn:Ek; [|done]. destruct (g_block _ _ _ _ Hg) as (c & bl & _ & _ & Hk & _).
      destruct (pin_valid bs _ _ p k Hi Ek) as [Hkl _]. rewrite (Hk k Ek) in Hkl. cbn in Hkl. lia. }
    destruct (new_finish bs bs1 bs3 lim [] [] last p Ha) as (bs' & E' & Hnew & L' & F'); try done.
    { by intros ?%not_elem_of_nil. }
    { lia. }
    rewrite E'. exists bs', (Some p). split; [done|]. split; [unfold room_for, CAMEL_BLOCK_SIZE in *; rewrite L'; unfold lim, CAMEL_BLOCK_SIZE; lia|].
    exists last, []. do 2 (split; [done|]). by right.
  - destruct (Hv i (list_elem_of_here _ _)) as [Hiv Him]. destruct (Z.eqb_spec i 0) as [?|_]; [lia|]. cbn [negb].
    destruct (get_ok bs (last_block bs) (i :: fl') i Hi ltac:(lia) (conj Hiv Him)) as (bs1 & r & -> & Hi1 & Hg & Hf).
    { intros q bl Hq Eid. destruct (bl_detached bl) eqn:Ed; [|done]. destruct (Hdet i q bl Hq Eid ltac:(lia) Ed) as [Hin _].
      by destruct Hin; apply list_elem_of_here. }
    rewrite res_bind_Ok. cbv beta iota zeta. pose proof (g_free _ _ _ _ Hg) as Gf. pose proof (g_last _ _ _ _ Hg) as Gl. destruct r as [p|].
    2:{ rewrite !res_bind_Ok. exists bs1, None. split; [done|]. split; [unfold room_for, CAMEL_BLOCK_SIZE; rewrite Gl; lia|].
        split; [done|]. by destruct Hg; split. }
    destruct (g_block _ _ _ _ Hg) as (c & bl & _ & _ & Hk & Hp & Eid & Hd & Hrf & Hr).
    assert (pins_of bs !! p = None) as Hnone.
    { destruct (pins_of bs !! p) as [k|] eqn:Ek; [|done]. destruct (Ha p k Ek). rewrite (Hk k eq_refl). apply list_elem_of_here. }
    assert (root_block bs1 <> Some p) as Hr1 by by rewrite (g_root _ _ _ _ Hg).
    destruct (cached_block _ _ _ _ _ _ Hi1 Hp Hr1 Hd) as [_ Hct]. rewrite Eid, (g_contents _ _ _ _ Hg) in Hct.
    assert (get_bl bs1 p = Ok bl) as -> by (unfold get_bl; by rewrite Hp). rewrite res_bind_Ok. unfold word, arr_get.
    destruct (i_block _ _ _ _ Hi1 p bl Hp Hr1) as [B1 _ _ _ _ _].
    destruct (lookup_lt_is_Some_2 (bl_data bl) 0) as [v Ev]; [rewrite B1; unfold block_words; lia|]. cbn [Z.ltb Z.compare]. change (Z.to_nat 0) with O.
    rewrite Ev, res_bind_Ok. rewrite Hct, (list_lookup_total_correct _ _ _ Ev) in Hch.
    apply NoDup_cons in Hn as [Hn1 Hn2].
    destruct (root_move_ok bs1 (last_block bs) (i :: fl') fl' 4 v Hi1) as (bs2 & bs3 & E2 & E3 & Hi3 & P3 & C3 & S3 & R3 & L3 & F3 & H3);
      cbn [Z.eqb Pos.eqb]; try done; [by left|by rewrite Gl|by rewrite Gl|by rewrite Gl| | |].
    { apply (is_chain_ext (contents_at bs)); [|done]. intros j _. apply (g_contents _ _ _ _ Hg). }
    { intros j Hj. rewrite Gl. apply Hv. by apply list_elem_of_further. }
    unfold set_root_free. rewrite E2, res_bind_Ok, res_bind_Ok, E3, res_bind_Ok. cbn [Z.eqb Pos.eqb] in L3, F3. rewrite Gl in L3.
    destruct (new_finish bs bs1 bs3 (last_block bs) (i :: fl') fl' i p Ha) as (bs' & E' & Hnew & L' & F'); try done.
    { intros j Hj. by apply list_elem_of_further. }
    { lia. }
    rewrite E'. exists bs', (Some p). split; [done|]. split; [unfold room_for, CAMEL_BLOCK_SIZE in *; rewrite L'; lia|].
    exists i, fl'. do 2 (split; [done|]). by left.
Qed.
