(* ===== verification/BlockFileLaws.v ===== *)
(** * Files of blocks: the interface holds

    [BlockStore_file] keeps the promise of [BlockStoreLaws]. *)

From stdpp Require Import gmap.
From S2P Require Import Prelude BlockStore BlockFile BlockFileInv BlockFileSpec.
#[local] Open Scope Z_scope.
#[local] Open Scope list_scope.

Implicit Types (bs : CamelBlockFile) (p q : ptr) (k : pin) (n : nat).

(** A step that changes neither the list of free blocks nor the end. *)
Lemma wf_step bs bs' fl : inv bs (last_block bs) fl [] -> inv bs' (last_block bs) fl [] -> last_block bs' = last_block bs ->
  (forall p k, pins_of bs' !! p = Some k -> ~ pin_id k ∈ fl) ->
  wf_file bs' /\ allocated_blocks bs' = allocated_blocks bs /\ forall n, room_for bs n -> room_for bs' n.
Proof.
  intros Hi Hi' Hl Ha. split; [exists fl; rewrite Hl; by split|]. split; [|intros n; unfold room_for; by rewrite Hl].
  apply set_eq. intros i. rewrite (allocated_inv bs _ fl [] i Hi), (allocated_inv bs' _ fl [] i Hi'). by rewrite Hl.
Qed.

Lemma wf_keeps bs bs' fl : inv bs (last_block bs) fl [] -> apart bs fl -> inv bs' (last_block bs) fl [] -> keeps bs bs' ->
  wf_file bs' /\ allocated_blocks bs' = allocated_blocks bs /\ forall n, room_for bs n -> room_for bs' n.
Proof.
  intros Hi Ha Hi' [K1 _ _ _ K5 _]. apply (wf_step bs bs' fl); [done|done|done|]. intros p k. rewrite K1. apply Ha.
Qed.

(** A reference to a block, as a block in memory. *)
Lemma pin_block bs fl p k : apart bs fl -> pins_of bs !! p = Some k ->
  exists bl, heap bs !! p = Some bl /\ root_block bs <> Some p /\ 0 < bl_refcount bl /\ ~ bl_id bl ∈ fl /\
    k = mkPin (bl_id bl) (bl_data bl) (Z.to_nat (bl_refcount bl)) (bl_detached bl).
Proof.
  intros Ha Hk. pose proof (Ha p k Hk) as Hf. apply pins_lookup in Hk as (bl & Hp & Hr & Hrf & ->). by exists bl.
Qed.

Lemma file_pins_ok bs p k : wf_file bs -> pins_of bs !! p = Some k ->
  (0 < pin_count k)%nat /\ pin_id k ∈ allocated_blocks bs /\ length (pin_data k) = block_words /\
  (pin_detached k = false -> contents_at bs (pin_id k) = pin_data k).
Proof.
  intros (fl & Hi & Ha) Hk. pose proof (Ha p k Hk) as Hf. destruct (pin_valid bs _ _ p k Hi Hk) as [Hv Hm].
  destruct (pin_block bs fl p k Ha Hk) as (bl & Hp & Hr & Hrf & _ & ->). cbn in *. split; [lia|]. split.
  { by apply (allocated_inv bs _ fl [] _ Hi). }
  split; [apply (i_block _ _ _ _ Hi p bl Hp Hr)|]. intros Hd. by apply (cached_block _ _ _ _ _ _ Hi Hp Hr Hd).
Qed.

Lemma file_pins_inj bs p q k l : wf_file bs -> pins_of bs !! p = Some k -> pins_of bs !! q = Some l -> pin_id k = pin_id l -> p = q.
Proof.
  intros (fl & Hi & Ha) (b & Hp & _ & _ & ->)%pins_lookup (b' & Hq & _ & _ & ->)%pins_lookup E. by apply (i_ids _ _ _ _ Hi p q b b').
Qed.

Lemma file_contents_length bs i : wf_file bs -> length (contents_at bs i) = block_words.
Proof.
  intros (fl & Hi & _). unfold contents_at. destruct (i =? 0); [done|]. destruct (blocks bs !! i) as [p|] eqn:E.
  - apply (i_blocks _ _ _ _ Hi) in E as (Hc & bl & Hp & _). rewrite Hp.
    apply (i_block _ _ _ _ Hi p bl Hp). intros Er. by apply (root_not_cached _ _ _ _ _ Hi Er).
  - by apply (read_disk_length _ _ _ _ _ Hi).
Qed.

Lemma file_allocated_ok bs i : wf_file bs -> i ∈ allocated_blocks bs -> 0 < i < 2 ^ 32 /\ i mod CAMEL_BLOCK_SIZE = 0.
Proof.
  intros (fl & Hi & _) [[Hv Hm] _]%(allocated_inv _ _ _ _ _ Hi). pose proof (i_last _ _ _ _ Hi) as ([_ ?] & _). split; [lia|done].
Qed.

Lemma file_get_law bs i : wf_file bs -> i ∈ allocated_blocks bs ->
  (forall q k, pins_of bs !! q = Some k -> pin_id k = i -> pin_detached k = false) ->
  exists bs' (r : option ptr), camel_block_file_get_block bs i = Ok (bs', r) /\ wf_file bs' /\
    (forall j, contents_at bs' j = contents_at bs j) /\ allocated_blocks bs' = allocated_blocks bs /\
    (forall q, saved_block bs q -> saved_block bs' q) /\ (forall n, room_for bs n -> room_for bs' n) /\
    match r with
    | None => pins_of bs' = pins_of bs
    | Some p => exists c, pins_of bs' = <[p := mkPin i (contents_at bs i) (S c) false]> (pins_of bs) /\
        (pins_of bs !! p = None -> c = O /\ saved_block bs' p) /\
        (forall k, pins_of bs !! p = Some k -> k = mkPin i (contents_at bs i) c false)
    end.
Proof.
  intros (fl & Hi & Ha) Hal Hdet. pose proof Hal as [[Hv Hm] Hf]%(allocated_inv _ _ _ _ _ Hi).
  destruct (get_ok bs (last_block bs) fl i Hi ltac:(lia) (conj Hv Hm)) as (bs' & r & E & Hi' & [G1 G2 G3 G4 G5 G6] & _).
  { intros q bl Hq Eid. destruct (bl_detached bl) eqn:Ed; [|done]. assert (root_block bs <> Some q) as Hr.
    { intros Er. destruct (i_root _ _ _ _ Hi) as (r & b & Hr & Hb & Hz & _). assert (b = bl) as -> by congruence. lia. }
    pose proof (i_block _ _ _ _ Hi q bl Hq Hr) as [_ _ _ _ B5 _]. rewrite <- Ed. apply (Hdet q (pin_of bl)); [|done].
    apply pins_lookup. exists bl. do 2 (split; [done|]). split; [by apply B5|done]. }
  exists bs', r. split; [done|]. destruct (wf_step bs bs' fl Hi Hi' G4) as (Hw' & A' & R').
  { destruct r as [p|]; [|rewrite G6; exact Ha]. destruct G6 as (c & bl & -> & _). intros q k [[_ <-]|[_ Hq]]%lookup_insert_Some; [done|].
    by apply (Ha q k). }
  do 5 (split; [done|]). destruct r as [p|]; [|done]. destruct G6 as (c & bl & P1 & P2 & P3 & _). by exists c.
Qed.

Lemma file_get_zero_law bs : wf_file bs -> camel_block_file_get_block bs 0 = Ok (bs, None).
Proof.
  intros (fl & Hi & _). unfold camel_block_file_get_block, invalid_id. destruct (i_root _ _ _ _ Hi) as (r & bl & -> & _).
  by rewrite (root_last_ok bs _ _ _ Hi), !res_bind_Ok, orb_true_r.
Qed.

Lemma file_new_law bs n : wf_file bs -> room_for bs (S n) ->
  exists bs' (r : option ptr), camel_block_file_new_block bs = Ok (bs', r) /\ wf_file bs' /\ (forall q, saved_block bs q -> saved_block bs' q) /\
    room_for bs' n /\
    match r with
    | None => pins_of bs' = pins_of bs /\ (forall j, contents_at bs' j = contents_at bs j) /\ allocated_blocks bs' = allocated_blocks bs /\
        room_for bs' (S n)
    | Some p => exists i, ~ i ∈ allocated_blocks bs /\ pins_of bs !! p = None /\
        pins_of bs' = <[p := mkPin i zero_block 1 false]> (pins_of bs) /\
        (forall j, j ∈ allocated_blocks bs -> contents_at bs' j = contents_at bs j) /\ contents_at bs' i = zero_block /\
        allocated_blocks bs' = ({[i]} ∪ allocated_blocks bs) /\ saved_block bs' p
    end.
Proof.
  intros (fl & Hi & Ha) Hroom. destruct (new_block_ok bs fl n Hi Ha Hroom) as (bs' & r & E & Hr' & Hp). exists bs', r. split; [done|].
  destruct r as [p|].
  2:{ destruct Hp as [Hi' Hk]. destruct (wf_keeps bs bs' fl Hi Ha Hi' Hk) as (Hw' & A' & R').
      split; [done|]. split; [apply Hk|]. split; [done|]. split; [apply Hk|]. split; [apply Hk|]. split; [done|by apply R']. }
  destruct Hp as (i & fl' & [N1 N2 N3 N4 N5 [N6 N6']] & Hnone & Hcase). split; [by exists fl'|]. split; [done|]. split; [done|].
  assert (forall j, j ∈ allocated_blocks bs' <-> j = i \/ j ∈ allocated_blocks bs) as Hal.
  { intros j. rewrite (allocated_inv bs' _ _ _ j N1), (allocated_inv bs _ _ _ j Hi). pose proof (i_free _ _ _ _ Hi) as [Hn Hv].
    destruct Hcase as [(-> & ->)|(-> & -> & -> & ->)].
    - rewrite elem_of_cons. apply NoDup_cons in Hn as [Hn _]. pose proof (Hv i (list_elem_of_here _ _)).
      destruct (decide (j = i)) as [->|]; [tauto|]. tauto.
    - pose proof (i_last _ _ _ _ Hi) as (Hl1 & _ & Hl2). unfold valid_id, CAMEL_BLOCK_SIZE in *.
      pose proof (Z.div_mod (last_block bs) 1024). pose proof (Z.div_mod j 1024). split.
      + intros [[Hj Hm] _]. destruct (decide (j = last_block bs)); [by left|right]. split; [|by intros ?%not_elem_of_nil]. split; [|done].
        assert (j / 1024 < last_block bs / 1024 + 1) by (apply Z.div_lt_upper_bound; lia). nia.
      + intros [->|[[Hj Hm] _]]; (split; [|by intros ?%not_elem_of_nil]); split; try lia; done. }
  assert (~ i ∈ allocated_blocks bs) as Hni.
  { rewrite (allocated_inv bs _ _ _ i Hi). destruct Hcase as [(-> & _)|(-> & _ & -> & _)].
    - intros [_ Hf]. apply Hf, list_elem_of_here.
    - intros [[Hlt _] _]. lia. }
  exists i. split; [done|]. split; [done|]. split; [done|]. split; [intros j Hj; apply N4; by intros ->|]. split; [done|]. split; [|done].
  apply set_eq. intros j. by rewrite Hal, elem_of_union, elem_of_singleton.
Qed.

Lemma file_detach_law bs p k : wf_file bs -> pins_of bs !! p = Some k -> pin_detached k = false ->
  exists bs', camel_block_file_detach_block bs p = Ok bs' /\ wf_file bs' /\
    pins_of bs' = <[p := mkPin (pin_id k) (pin_data k) (pin_count k) true]> (pins_of bs) /\
    (forall j, j <> pin_id k -> contents_at bs' j = contents_at bs j) /\ allocated_blocks bs' = allocated_blocks bs /\
    (forall q, saved_block bs q -> saved_block bs' q) /\ (forall n, room_for bs n -> room_for bs' n).
Proof.
  intros (fl & Hi & Ha) Hk Hd. destruct (pin_block bs fl p k Ha Hk) as (bl & Hp & Hr & Hrf & Hf & ->). cbn in *.
  destruct (detach_ok bs fl p bl Hi Ha Hp Hr Hd Hrf) as (bs' & E & Hi' & P' & C' & L' & F' & S').
  destruct (wf_step bs bs' fl Hi Hi' L') as (Hw & A' & R').
  { rewrite P'. intros q k [[_ <-]|[_ Hq]]%lookup_insert_Some; [done|]. by apply (Ha q k). }
  by exists bs'.
Qed.

Lemma file_touch_law bs p k : wf_file bs -> pins_of bs !! p = Some k ->
  exists bs', camel_block_file_touch_block bs p = Ok bs' /\ wf_file bs' /\ pins_of bs' = pins_of bs /\
    (forall j, contents_at bs' j = contents_at bs j) /\ allocated_blocks bs' = allocated_blocks bs /\
    saved_block bs' p /\ (forall q, saved_block bs q -> saved_block bs' q) /\ (forall n, room_for bs n -> room_for bs' n).
Proof.
  intros (fl & Hi & Ha) Hk. destruct (pin_block bs fl p k Ha Hk) as (bl & Hp & Hr & _).
  destruct (touch_ok bs _ fl [] p bl Hi Hp Hr) as (bs' & E & Hi' & Hkp & Hs). destruct (wf_keeps bs bs' fl Hi Ha Hi' Hkp) as (Hw & A' & R').
  exists bs'. destruct Hkp. do 5 (split; [done|]). done.
Qed.

Lemma file_unref_law bs p k : wf_file bs -> pins_of bs !! p = Some k -> saved_block bs p ->
  exists bs', camel_block_file_unref_block bs p = Ok bs' /\ wf_file bs' /\
    pins_of bs' = match pin_count k with
                  | S (S c) => <[p := mkPin (pin_id k) (pin_data k) (S c) (pin_detached k)]> (pins_of bs)
                  | _ => delete p (pins_of bs)
                  end /\
    (forall j, contents_at bs' j = contents_at bs j) /\ allocated_blocks bs' = allocated_blocks bs /\
    (forall q, q <> p -> saved_block bs q -> saved_block bs' q) /\
    ((1 < pin_count k)%nat -> saved_block bs' p) /\ (forall n, room_for bs n -> room_for bs' n).
Proof.
  intros (fl & Hi & Ha) Hk Hs. destruct (pin_block bs fl p k Ha Hk) as (bl & Hp & Hr & Hrf & Hf & ->). cbn.
  destruct (unref_ok bs fl p bl Hi Hp Hr Hrf Hs) as (bs' & E & Hi' & P' & C' & L' & F' & S').
  destruct (wf_step bs bs' fl Hi Hi' L') as (Hw & A' & R').
  { rewrite P'. destruct (1 <? bl_refcount bl); intros q k; [intros [[_ <-]|[_ Hq]]%lookup_insert_Some; [done|by apply (Ha q k)]|].
    intros [_ Hq]%lookup_delete_Some. by apply (Ha q k). }
  exists bs'. split; [done|]. split; [done|]. split; [|do 2 (split; [done|]); by split; [auto|split; [auto|]]]. rewrite P'.
  destruct (Z.ltb_spec 1 (bl_refcount bl)) as [Hlt|Hge].
  - destruct (Z.to_nat (bl_refcount bl)) as [|[|c]] eqn:Ec; [lia|lia|]. f_equal. unfold pin_of. cbn. f_equal. lia.
  - replace (Z.to_nat (bl_refcount bl)) with 1%nat by lia. done.
Qed.

Lemma file_write_law bs p k d : wf_file bs -> pins_of bs !! p = Some k -> length d = block_words ->
  exists bs', (bl ← get_bl bs p; Ok (put_bl bs p (with_data bl d))) = Ok bs' /\ wf_file bs' /\
    pins_of bs' = <[p := mkPin (pin_id k) d (pin_count k) (pin_detached k)]> (pins_of bs) /\
    (forall j, contents_at bs' j = if pin_detached k then contents_at bs j else change (contents_at bs) (pin_id k) d j) /\
    allocated_blocks bs' = allocated_blocks bs /\
    (forall q, q <> p -> saved_block bs q -> saved_block bs' q) /\ (forall n, room_for bs n -> room_for bs' n).
Proof.
  intros (fl & Hi & Ha) Hk Hd. destruct (pin_block bs fl p k Ha Hk) as (bl & Hp & Hr & Hrf & Hf & ->). cbn.
  destruct (write_ok bs _ fl [] p bl d Hi Hp Hr Hrf Hf Hd) as (Hi' & P' & C' & L' & F' & S').
  destruct (wf_step bs (put_bl bs p (with_data bl d)) fl Hi Hi' L') as (Hw & A' & R').
  { rewrite P'. intros q k [[_ <-]|[_ Hq]]%lookup_insert_Some; [done|]. by apply (Ha q k). }
  exists (put_bl bs p (with_data bl d)). split; [unfold get_bl; by rewrite Hp|]. done.
Qed.

Lemma file_sync_block_law bs p k : wf_file bs -> pins_of bs !! p = Some k -> saved_block bs p ->
  exists bs' ret, camel_block_file_sync_block bs p = Ok (bs', ret) /\ wf_file bs' /\ pins_of bs' = pins_of bs /\
    (forall j, j <> pin_id k -> contents_at bs' j = contents_at bs j) /\
    (ret = 0 \/ ret = -1) /\
    (ret = 0 \/ contents_at bs (pin_id k) = pin_data k -> contents_at bs' (pin_id k) = pin_data k) /\
    allocated_blocks bs' = allocated_blocks bs /\
    (forall q, saved_block bs q -> saved_block bs' q) /\ (forall n, room_for bs n -> room_for bs' n).
Proof.
  intros (fl & Hi & Ha) Hk Hs. destruct (pin_block bs fl p k Ha Hk) as (bl & Hp & Hr & Hrf & Hf & ->). cbn.
  unfold camel_block_file_sync_block. destruct (use_ok bs) as (bs1 & ret & -> & Hu & Hk1 & Hh1 & _). pose proof (Hu _ _ _ Hi) as Hi1.
  destruct (Z.eqb_spec ret (-1)) as [->|Hret].
  { destruct (wf_keeps bs bs1 fl Hi Ha Hi1 Hk1) as (Hw & A' & R'). destruct Hk1 as [K1 K2 K3 _ _ _].
    exists bs1, (-1). do 4 (split; [done|]). split; [by right|]. split; [|done]. rewrite K2. by intros [?|?]. }
  rewrite <- Hh1 in Hp. destruct (sync_block_ok bs1 _ fl [] p bl Hi1 Hp) as (bs2 & ret2 & E2 & Hi2 & [V1 V2 V3 V4 V5 _ _ _ V9] & Hr2 & Hc); [done|].
  destruct Hk1 as [K1 K2 K3 K4 K5 K6]. destruct (wf_step bs bs2 fl Hi Hi2) as (Hw & A' & R'); [congruence|rewrite V1, K1; exact Ha|].
  exists bs2, ret2. split; [done|]. split; [done|]. split; [congruence|]. split.
  { intros j Hj. rewrite V9, K2; [done|by left]. }
  split; [tauto|]. split; [|split; [done|split; [auto|done]]]. destruct (bl_detached bl) eqn:Hd.
  - intros Hor. apply Hc; [done|by rewrite K4|]. rewrite K2. destruct Hor as [->|?]; [left; split; [done|by apply K3]|by right].
  - intros _. rewrite V9 by (by right; left). apply (cached_block _ _ _ _ _ _ Hi1 Hp); [by rewrite K4|done].
Qed.

Lemma file_sync_law bs : wf_file bs ->
  exists bs' ret, camel_block_file_sync bs = Ok (bs', ret) /\ wf_file bs' /\ pins_of bs' = pins_of bs /\
    (forall j, contents_at bs' j = contents_at bs j) /\ allocated_blocks bs' = allocated_blocks bs /\
    (forall q, saved_block bs q -> saved_block bs' q) /\ (forall n, room_for bs n -> room_for bs' n).
Proof.
  intros (fl & Hi & Ha). destruct (sync_ok bs _ fl [] Hi) as (bs' & ret & E & Hi' & Hk & _).
  destruct (wf_keeps bs bs' fl Hi Ha Hi' Hk) as (Hw & A' & R'). exists bs', ret. destruct Hk. done.
Qed.

Lemma file_id_law bs p k : wf_file bs -> pins_of bs !! p = Some k -> (bl ← get_bl bs p; Ok (bl_id bl)) = Ok (pin_id k).
Proof. intros _ (bl & Hp & _ & _ & ->)%pins_lookup. unfold get_bl. by rewrite Hp. Qed.

Lemma file_data_law bs p k : wf_file bs -> pins_of bs !! p = Some k -> (bl ← get_bl bs p; Ok (bl_data bl)) = Ok (pin_data k).
Proof. intros _ (bl & Hp & _ & _ & ->)%pins_lookup. unfold get_bl. by rewrite Hp. Qed.

Lemma file_room_less bs n m : (m <= n)%nat -> room_for bs n -> room_for bs m.
Proof. unfold room_for, CAMEL_BLOCK_SIZE. lia. Qed.

#[export] Instance BlockStoreLaws_file : BlockStoreLaws CamelBlockFile := {
  wf := wf_file;
  pins := pins_of;
  contents := contents_at;
  allocated := allocated_blocks;
  saved := saved_block;
  room := room_for;
  pins_ok := file_pins_ok;
  pins_inj := file_pins_inj;
  contents_length := file_contents_length;
  allocated_ok := file_allocated_ok;
  room_less := file_room_less;
  id_law := file_id_law;
  data_law := file_data_law;
  get_law := file_get_law;
  get_zero_law := file_get_zero_law;
  new_law := fun bs n => file_new_law bs n;
  detach_law := file_detach_law;
  touch_law := file_touch_law;
  unref_law := file_unref_law;
  write_law := file_write_law;
  sync_block_law := file_sync_block_law;
  sync_law := file_sync_law;
}.
