(* ===== verification/BlockFileOpenSpec.v ===== *)
(** * Files of blocks: closing and opening

    After a sync that succeeds everything is in the file; opening the file again gives a state with the
    same blocks.  A file that is not valid becomes an empty one. *)

From stdpp Require Import gmap.
From S2P Require Import Prelude BlockStore BlockStoreSpec BlockFile BlockFileInv BlockFileSpec BlockFileLaws.
#[local] Open Scope Z_scope.
#[local] Open Scope list_scope.

Implicit Types (bs : CamelBlockFile) (p q r : ptr) (f : file).

Definition no_faults (calls : list (option Z)) : Prop := Forall (fun c => c = None) calls.

Lemma next_call_none bs : no_faults (faults bs) -> exists fs, next_call bs = (set_faults bs fs, None) /\ no_faults fs.
Proof.
  unfold next_call. destruct bs as [? ? ? ? ? ? ? ? ? calls]. cbn. destruct calls as [|c calls]; intros Hc; [exists []; split; [done|constructor]|].
  apply Forall_cons in Hc as [-> Hc]. by exists calls.
Qed.

(** The block file when its root block has been read. *)
Definition with_root (ver : list Z) f (d : list Z) (calls : list (option Z)) : CamelBlockFile :=
  mkFile ver true (Some 2%positive) 256 1 [] ∅ {[2%positive := mkBlock 0 false true 1 d]} f calls.

Lemma read_root_ok f calls ver : no_faults calls -> exists fs, no_faults fs /\
  ('(bs, r) ← camel_block_file_get_block (mkFile ver false None 256 0 [] ∅ ∅ f calls) 0;
   match r with
   | None => Undef
   | Some r => bs ← camel_block_file_detach_block bs r; Ok (set_root_block bs (Some r), r)
   end) = Ok (with_root ver f (read_disk f 0) fs, 2%positive).
Proof.
  intros Hc. destruct calls as [|c1 [|c2 calls]].
  - exists []. split; [constructor|]. reflexivity.
  - apply Forall_cons in Hc as [-> _]. exists []. split; [constructor|]. reflexivity.
  - apply Forall_cons in Hc as [-> [-> Hc]%Forall_cons]. exists calls. split; [done|]. reflexivity.
Qed.

Lemma with_root_word ver f d calls k : length d = block_words -> 0 <= k < 256 ->
  root_word (with_root ver f d calls) k = Ok (d !!! Z.to_nat k).
Proof. intros Hl Hk. unfold root_word. cbn. by apply word_at. Qed.

(** What [block_file_validate_root] looks at. *)
Definition valid_root f (ver : list Z) : bool :=
  let d := read_disk f 0 in let free := d !!! 4%nat in let last := d !!! 5%nat in
  negb (last =? 0) && bool_decide ([d !!! 0%nat; d !!! 1%nat] = ver) && (d !!! 3%nat =? block_size)
  && (free mod block_size =? 0) && (last mod block_size =? 0) && (f_size f =? last) && (free <=? f_size f)
  && negb (Z.land (d !!! 2%nat) CAMEL_BLOCK_FILE_SYNC =? 0).

Lemma validate_ok ver f calls : no_faults calls -> length (read_disk f 0) = block_words ->
  exists fs, no_faults fs /\ block_file_validate_root (with_root ver f (read_disk f 0) calls) =
    Ok (with_root ver f (read_disk f 0) fs, if valid_root f ver then 0 else -1).
Proof.
  intros Hc Hl. destruct (next_call_none (with_root ver f (read_disk f 0) calls) Hc) as (fs & E & Hfs). exists fs. split; [done|].
  unfold block_file_validate_root. rewrite E. change (set_faults (with_root ver f (read_disk f 0) calls) fs) with (with_root ver f (read_disk f 0) fs).
  cbv zeta. unfold root_flags, root_free, root_last. rewrite !with_root_word, !res_bind_Ok by (done || lia).
  change (f_size (disk (with_root ver f (read_disk f 0) fs))) with (f_size f). change (version (with_root ver f (read_disk f 0) fs)) with ver.
  unfold valid_root. cbv zeta. change (Z.to_nat 0) with 0%nat. change (Z.to_nat 1) with 1%nat. change (Z.to_nat 2) with 2%nat.
  change (Z.to_nat 3) with 3%nat. change (Z.to_nat 4) with 4%nat. change (Z.to_nat 5) with 5%nat.
  rewrite (Z.leb_antisym (f_size f)).
  set (A := bool_decide _). set (b1 := _ =? 0). set (b2 := _ =? block_size). set (b3 := _ =? 0). set (b4 := _ =? 0). set (b5 := f_size f =? _).
  set (b6 := f_size f <? _). set (b7 := _ =? 0). clearbody A b1 b2 b3 b4 b5 b6 b7.
  by destruct b1, A, b2, b3, b4, b5, b6, b7.
Qed.

(** The root block of an empty file. *)
Definition empty_root (ver : list Z) : list Z :=
  <[3%nat := block_size]> (<[4%nat := 0]> (<[2%nat := CAMEL_BLOCK_FILE_SYNC]> (<[5%nat := block_size]>
    (<[1%nat := ver !!! 1%nat]> (<[0%nat := ver !!! 0%nat]> zero_block))))).
Definition empty_file (ver : list Z) f : file := truncate_disk (write_disk f 0 (empty_root ver) CAMEL_BLOCK_SIZE) block_size.

Lemma init_ok v0 v1 f d calls : block_file_init_root (with_root [v0; v1] f d calls) =
  Ok (put_bl (with_root [v0; v1] f d calls) 2%positive (mkBlock 0 false true 1 (empty_root [v0; v1]))).
Proof. unfold block_file_init_root. cbn [root_block with_root version]. unfold get_bl. cbn [heap with_root]. rewrite lookup_singleton_eq, res_bind_Ok. reflexivity. Qed.

(** Opening a file, when no system call fails. *)
Lemma open_ok f calls v0 v1 : no_faults calls -> length (read_disk f 0) = block_words ->
  exists fs, no_faults fs /\ camel_block_file_new base_class f calls [v0; v1] =
    Ok (inl (if valid_root f [v0; v1] then with_root [v0; v1] f (read_disk f 0) fs
             else with_root [v0; v1] (empty_file [v0; v1] f) (empty_root [v0; v1]) fs)).
Proof.
  intros Hc Hl. set (ver := [v0; v1]). destruct (read_root_ok f calls ver Hc) as (fs & Hfs & E).
  apply res_bind_inv in E as ([bs0 r0] & E0 & E). destruct r0 as [r|]; [|done]. apply res_bind_inv in E as (bs1 & E1 & E2).
  assert (r = 2%positive) as -> by congruence.
  pose proof (f_equal (fun x => match x with Ok (b, _) => b | _ => bs1 end) E2) as E3. cbn beta iota in E3. clear E2. unfold camel_block_file_new. rewrite E0, res_bind_Ok, E1, res_bind_Ok, E3. cbn [validate_root init_root base_class].
  destruct (validate_ok ver f fs Hfs Hl) as (fs2 & Hfs2 & ->). rewrite res_bind_Ok.
  destruct (valid_root f ver); cbn [Z.eqb Pos.eqb]; [by exists fs2|].
  pose proof (init_ok v0 v1 f (read_disk f 0) fs2) as Hinit. fold ver in Hinit. rewrite Hinit, res_bind_Ok. clear Hinit.
  set (bs2 := put_bl _ _ _). assert (camel_block_file_touch_block bs2 2%positive = Ok (put_bl bs2 2%positive (mkBlock 0 true true 1 (empty_root ver)))) as ->
    by (unfold ver; reflexivity).
  rewrite res_bind_Ok. set (bs3 := put_bl bs2 _ _). change (block_file_use bs3) with (bs3, 0). cbn [Z.eqb].
  destruct (next_call_none bs3 Hfs2) as (fs3 & En & Hfs3). unfold sync_block_nolock at 1, get_bl at 1.
  replace (heap bs3 !! 2%positive) with (Some (mkBlock 0 true true 1 (empty_root ver))) by reflexivity. rewrite res_bind_Ok. cbn [bl_dirty]. rewrite En.
  rewrite res_bind_Ok. cbn [Z.eqb]. set (bs4 := put_bl _ _ _). assert (root_last bs4 = Ok block_size) as -> by reflexivity. rewrite res_bind_Ok.
  destruct (next_call_none bs4 Hfs3) as (fs4 & En4 & Hfs4). unfold ftruncate. rewrite En4. cbn [Z.eqb]. exists fs4. split; [done|]. reflexivity.
Qed.

(** ** Opening a valid file *)

(** What the blocks of the file are read as. *)
Definition stored_at f (i : Z) : list Z := if i =? 0 then zero_block else read_disk f i.

(** A file with a list of free blocks [fl]. *)
Record image f (ver : list Z) (last : Z) (fl : list Z) : Prop := {
  im_head : [read_disk f 0 !!! 0%nat; read_disk f 0 !!! 1%nat] = ver /\ read_disk f 0 !!! 3%nat = block_size;
  im_sync : Z.land (read_disk f 0 !!! 2%nat) CAMEL_BLOCK_FILE_SYNC <> 0;
  im_last : read_disk f 0 !!! 5%nat = last /\ 0 < last < 2 ^ 32 /\ last mod CAMEL_BLOCK_SIZE = 0;
  im_size : f_size f = last;
  im_chain : is_chain (stored_at f) (read_disk f 0 !!! 4%nat) fl;
  im_free : NoDup fl /\ forall i, i ∈ fl -> valid_id last i;
  im_blocks : forall i d, f_blocks f !! i = Some d -> length d = block_words;
}.

Lemma image_length f ver last fl i : image f ver last fl -> length (read_disk f i) = block_words.
Proof. intros Hi. unfold read_disk. destruct (f_blocks f !! i) as [d|] eqn:E; [|done]. cbn. by apply (im_blocks _ _ _ _ Hi i). Qed.

Lemma image_valid f ver last fl : image f ver last fl -> valid_root f ver = true.
Proof.
  intros [[H1 H2] H3 (H4 & H5 & H6) H7 H8 [H9 H10] H11]. unfold valid_root. cbv zeta. rewrite H1, H2, H4, H7.
  assert (0 <= read_disk f 0 !!! 4%nat < last /\ (read_disk f 0 !!! 4%nat) mod block_size = 0) as [H12 H13].
  { destruct fl as [|i fl]; [cbn in H8; rewrite H8; split; [lia|done]|]. destruct H8 as (-> & _).
    destruct (H10 i (list_elem_of_here _ _)) as [? ?]. split; [lia|done]. }
  rewrite H13. unfold block_size in *. rewrite H6, bool_decide_true by done.
  destruct (Z.eqb_spec last 0); [lia|]. rewrite !Z.eqb_refl. destruct (Z.leb_spec (read_disk f 0 !!! 4%nat) last); [|lia].
  by destruct (Z.eqb_spec (Z.land (read_disk f 0 !!! 2%nat) CAMEL_BLOCK_FILE_SYNC) 0).
Qed.

Lemma with_root_heap ver f d calls q bl : heap (with_root ver f d calls) !! q = Some bl -> q = 2%positive /\ bl = mkBlock 0 false true 1 d.
Proof. cbn [heap with_root]. by intros [-> <-]%lookup_singleton_Some. Qed.

Lemma open_inv f ver last fl calls : image f ver last fl ->
  let bs := with_root ver f (read_disk f 0) calls in
  inv bs last fl [] /\ pins_of bs = ∅ /\ (forall i, contents_at bs i = stored_at f i) /\ last_block bs = last.
Proof.
  intros Hm bs. assert (root_data bs = read_disk f 0) as Er by reflexivity.
  assert (forall i, contents_at bs i = stored_at f i) as Hc.
  { intros i. unfold contents_at, stored_at. cbn. by rewrite lookup_empty. }
  pose proof (im_last _ _ _ _ Hm) as (Hl & Hl1 & Hl2). assert (last_block bs = last) as El by (unfold last_block; by rewrite Er).
  split; [|split; [|by split]].
  - split; rewrite ?El.
    + exists 2%positive, (mkBlock 0 false true 1 (read_disk f 0)). do 4 (split; [done|]). split; [by apply (image_length _ _ _ _ _ Hm)|done].
    + split; [done|]. split; [lia|done].
    + apply (is_chain_ext (stored_at f)); [by intros|]. apply (im_chain _ _ _ _ Hm).
    + apply (im_free _ _ _ _ Hm).
    + intros i p. cbn. rewrite lookup_empty. split; [done|]. by intros [?%not_elem_of_nil _].
    + constructor.
    + by intros p ?%not_elem_of_nil.
    + intros p bl [-> _]%with_root_heap Hr. by destruct Hr.
    + intros p q bl bl' [-> _]%with_root_heap [-> _]%with_root_heap. done.
    + unfold root_head. rewrite Er. apply (im_head _ _ _ _ Hm).
    + apply (im_blocks _ _ _ _ Hm).
  - apply map_empty. intros p. apply pins_none. intros bl [-> _]%with_root_heap. by left.
Qed.

Lemma empty_image ver f : length ver = 2%nat -> (forall i d, f_blocks f !! i = Some d -> length d = block_words) ->
  image (empty_file ver f) ver 1024 [] /\ read_disk (empty_file ver f) 0 = empty_root ver.
Proof.
  intros Hv Hf. assert (read_disk (empty_file ver f) 0 = empty_root ver) as Er.
  { unfold read_disk, empty_file, truncate_disk. cbn [f_blocks write_disk].
    assert (filter (fun '(i, _) => i < block_size) (<[0 := empty_root ver]> (f_blocks f)) !! 0 = Some (empty_root ver)) as ->; [|done].
    apply map_lookup_filter_Some. by rewrite lookup_insert_eq. }
  split; [|done]. destruct ver as [|v0 [|v1 [|]]]; try done. split; rewrite ?Er; try done.
  - split; [constructor|]. by intros i ?%not_elem_of_nil.
  - intros i d E. unfold empty_file, truncate_disk in E. cbn [f_blocks write_disk] in E. apply map_lookup_filter_Some in E as [E _].
    destruct (decide (i = 0)) as [->|Hne]; [rewrite lookup_insert_eq in E; by injection E as <-|].
    rewrite lookup_insert_ne in E by done. by apply (Hf i).
Qed.

(** ** After a sync *)

Lemma synced_image bs fl : inv bs (last_block bs) fl [] -> synced bs -> f_size (disk bs) = last_block bs ->
  (forall p bl, heap bs !! p = Some bl -> root_block bs <> Some p -> bl_detached bl = false -> 0 < bl_refcount bl -> saved_block bs p) ->
  image (disk bs) (version bs) (last_block bs) fl /\ forall i, stored_at (disk bs) i = contents_at bs i.
Proof.
  intros Hi [Hclean (r & bl & Hr & Hp & Hd & Hsync)] Hsize Hs.
  assert (forall i, stored_at (disk bs) i = contents_at bs i) as Hc.
  { intros i. unfold stored_at, contents_at. destruct (Z.eqb_spec i 0); [done|]. destruct (blocks bs !! i) as [p|] eqn:E; [|done].
    apply (i_blocks _ _ _ _ Hi) in E as (Hin & b & Hpb & <-). rewrite Hpb. pose proof (Hclean p b Hin Hpb) as Hdb.
    assert (root_block bs <> Some p) as Hrp by (intros Er; by apply (root_not_cached _ _ _ _ _ Hi Er)).
    destruct (i_attached _ _ _ _ Hi p Hin) as (b' & Hpb' & Hdet). assert (b' = b) as -> by congruence.
    destruct (i_block _ _ _ _ Hi p b Hpb Hrp) as [_ _ B3 _ _ B6].
    destruct (Z_le_lt_eq_dec 0 (bl_refcount b) B3) as [Hlt|Heq]; [|symmetry; by apply B6].
    destruct (Hs p b Hpb Hrp Hdet Hlt b Hpb Hrp); [congruence|done]. }
  split; [|done]. destruct (i_root _ _ _ _ Hi) as (r' & b & Hr' & Hb & _ & _ & _ & Hdisk). assert (r' = r) as -> by congruence.
  assert (b = bl) as -> by congruence. specialize (Hdisk Hd).
  assert (forall k, (k < 6)%nat -> root_data bs !!! k = read_disk (disk bs) 0 !!! k) as Er.
  { intros k Hk. unfold root_data. rewrite Hr, Hp. rewrite <- (lookup_total_take_lt (bl_data bl) 6), <- (lookup_total_take_lt (read_disk _ _) 6) by done. by rewrite Hdisk. }
  pose proof (i_last _ _ _ _ Hi) as (H1 & _ & H2). pose proof (i_head _ _ _ _ Hi) as [H3 H4].
  unfold last_block, first_free in *. rewrite !Er in * by lia. split; try done.
  - rewrite <- Er by lia. unfold root_data. by rewrite Hr, Hp.
  - apply (is_chain_ext (contents_at bs)); [by intros|]. pose proof (i_chain _ _ _ _ Hi) as Hch. unfold first_free in Hch. by rewrite Er in Hch by lia.
  - pose proof (i_free _ _ _ _ Hi) as Hfree. unfold last_block in Hfree. by rewrite Er in Hfree by lia.
  - apply (i_disk _ _ _ _ Hi).
Qed.

(** Syncing, and opening the file again. *)
Lemma reopen_ok bs bs' calls : wf_file bs ->
  (forall p k, pins_of bs !! p = Some k -> pin_detached k = false -> saved_block bs p) ->
  camel_block_file_sync bs = Ok (bs', 0) -> f_size (disk bs') = last_block bs' -> no_faults calls ->
  exists bs2, camel_block_file_new base_class (disk bs') calls (version bs') = Ok (inl bs2) /\ wf_file bs2 /\ pins_of bs2 = ∅ /\
    (forall i, contents_at bs2 i = contents_at bs i) /\ allocated_blocks bs2 = allocated_blocks bs /\ last_block bs2 = last_block bs /\
    no_faults (faults bs2).
Proof.
  intros (fl & Hi & Ha) Hs E Hsize Hc. destruct (sync_ok bs _ fl [] Hi) as (bs1 & ret & E1 & Hi1 & Hk & Hsync).
  rewrite E in E1. injection E1 as <- <-. destruct Hk as [K1 K2 K3 K4 K5 K6]. rewrite <- K5 in Hi1.
  destruct (synced_image bs' fl Hi1 (Hsync eq_refl) Hsize) as [Him Hst].
  { intros p bl Hp Hr Hd Hrf. apply K3. apply (Hs p (pin_of bl)); [|done]. rewrite <- K1. apply pins_lookup. by exists bl. }
  destruct (i_head _ _ _ _ Hi1) as [Hver _]. rewrite <- Hver. rewrite <- Hver in Him.
  destruct (open_ok (disk bs') calls (root_data bs' !!! 0%nat) (root_data bs' !!! 1%nat) Hc (image_length _ _ _ _ 0 Him)) as (fs & Hfs & ->). rewrite (image_valid _ _ _ _ Him).
  destruct (open_inv (disk bs') _ _ fl fs Him) as (Hi2 & P2 & C2 & L2). eexists. split; [done|].
  split; [exists fl; rewrite L2; split; [done|]; intros p k; rewrite P2; by rewrite lookup_empty|]. split; [done|].
  assert (forall i, contents_at (with_root [root_data bs' !!! 0%nat; root_data bs' !!! 1%nat] (disk bs') (read_disk (disk bs') 0) fs) i = contents_at bs i) as Hct.
  { intros i. by rewrite C2, Hst, K2. }
  split; [done|]. split; [|split; [by rewrite L2|done]]. apply set_eq. intros i.
  rewrite <- L2 in Hi2. rewrite (allocated_inv _ _ fl [] i Hi2), (allocated_inv bs _ fl [] i Hi). by rewrite L2, K5.
Qed.

(** ** When no system call fails *)

Lemma use_no_faults bs : no_faults (faults bs) -> exists bs', block_file_use bs = (bs', 0) /\ no_faults (faults bs').
Proof.
  intros Hn. unfold block_file_use. destruct (online bs); [by exists bs|]. destruct (next_call_none bs Hn) as (fs & -> & Hfs).
  by exists (set_online (set_faults bs fs) true).
Qed.

Lemma sync_block_no_faults bs bs' p ret : no_faults (faults bs) -> sync_block_nolock bs p = Ok (bs', ret) -> no_faults (faults bs').
Proof.
  intros Hn E. unfold sync_block_nolock in E. apply res_bind_inv in E as (bl & _ & E). destruct (bl_dirty bl); [|by injection E as <- _].
  destruct (next_call_none bs Hn) as (fs & Ef & Hfs). rewrite Ef in E. by injection E as <- _.
Qed.

Lemma flush_no_faults bs bs' l : no_faults (faults bs) -> flush_loop bs l = Ok bs' -> no_faults (faults bs').
Proof.
  revert bs. induction l as [|p l IH]; intros bs Hn E; cbn [flush_loop] in E; [by injection E as <-|].
  destruct (_ <? _); [|by injection E as <-]. apply res_bind_inv in E as (bl & _ & E). apply res_bind_inv in E as (bs1 & E1 & E).
  apply (IH bs1); [|done]. destruct (bl_refcount bl =? 0); [|by injection E1 as <-].
  apply res_bind_inv in E1 as ([bs2 ret] & E2 & E1). pose proof (sync_block_no_faults _ _ _ _ Hn E2) as Hn2.
  destruct (ret =? -1); [by injection E1 as <-|]. apply res_bind_inv in E1 as (bs3 & E3 & E1). unfold unlink in E3.
  destruct (bool_decide _); [|done]. injection E3 as <-. by injection E1 as <-.
Qed.

Lemma use_block_no_faults bs bs' p : no_faults (faults bs) -> use_block bs p = Ok bs' -> no_faults (faults bs').
Proof. intros Hn E. unfold use_block in E. apply res_bind_inv in E as (bl & _ & E). by injection E as <-. Qed.

Lemma get_no_faults bs bs' i (r : option ptr) : no_faults (faults bs) -> wf_file bs -> i ∈ allocated_blocks bs ->
  camel_block_file_get_block bs i = Ok (bs', r) -> r <> None /\ no_faults (faults bs').
Proof.
  intros Hn (fl & Hi & _) [[Hv Hm] _]%(allocated_inv _ _ _ _ _ Hi) E. unfold camel_block_file_get_block in E.
  rewrite (invalid_id_ok bs _ fl [] i Hi ltac:(lia) Hm), res_bind_Ok in E. destruct (blocks bs !! i) as [p|].
  - apply res_bind_inv in E as (bs1 & E1 & E). apply res_bind_inv in E as (bs2 & E2 & E). injection E as <- <-. split; [done|].
    apply (use_block_no_faults bs1 bs2 p); [|done]. unfold unlink in E1. destruct (bool_decide _); [|done]. by injection E1 as <-.
  - destruct (use_no_faults bs Hn) as (bs1 & E1 & Hn1). rewrite E1 in E. cbn [Z.eqb] in E.
    destruct (next_call_none bs1 Hn1) as (fs & Ef & Hfs). rewrite Ef in E.
    apply res_bind_inv in E as (bs2 & E2 & E). apply res_bind_inv in E as (bs3 & E3 & E). injection E as <- <-. split; [done|].
    apply (use_block_no_faults bs2 bs3 (g_malloc0 (set_faults bs1 fs))); [|done]. refine (flush_no_faults _ _ _ _ E2). exact Hfs.
Qed.

Lemma detach_no_faults bs bs' p : no_faults (faults bs) -> camel_block_file_detach_block bs p = Ok bs' -> no_faults (faults bs').
Proof.
  intros Hn E. unfold camel_block_file_detach_block in E. apply res_bind_inv in E as (bl & _ & E). apply res_bind_inv in E as (bs1 & E1 & E).
  injection E as <-. unfold unlink in E1. destruct (bool_decide _); [|done]. by injection E1 as <-.
Qed.

Lemma unref_no_faults bs bs' p : no_faults (faults bs) -> camel_block_file_unref_block bs p = Ok bs' -> no_faults (faults bs').
Proof.
  intros Hf E. unfold camel_block_file_unref_block in E. apply res_bind_inv in E as (bl & _ & E).
  destruct ((bl_refcount bl =? 1) && bl_detached bl); by injection E as <-.
Qed.
