(* ===== verification/BlockFileRunSpec.v ===== *)
(** * Files of blocks: freeing and attaching; the claims

    What [camel_block_file_free_block] and [camel_block_file_attach_block] do, which are not
    part of the interface; and the claims on files of blocks. *)

From stdpp Require Import gmap.
From S2P Require Import Prelude BlockStore BlockFile BlockFileInv BlockFileSpec BlockFileLaws.
From S2P Require Import BlockStoreSpec BlockFileOpenSpec.
#[local] Open Scope Z_scope.
#[local] Open Scope list_scope.

Implicit Types (bs : CamelBlockFile) (p q : ptr) (bl : CamelBlock) (k : pin) (n : nat).

(** ** Freeing *)

(** The block [i] that was got is put in front of the list of free blocks. *)
Lemma link_ok bs fl i p bl : inv bs (last_block bs) fl [] -> (~ i ∈ fl) -> valid_id (last_block bs) i ->
  heap bs !! p = Some bl -> bl_id bl = i -> bl_detached bl = false -> 0 < bl_refcount bl -> root_block bs <> Some p ->
  exists d bs1 bs2 bs3, set_word (bl_data bl) 0 (first_free bs) = Ok d /\
    set_root_free (put_bl bs p (with_data bl d)) i = Ok bs1 /\ root_dirty bs1 = Ok bs2 /\ mark_dirty bs2 p = Ok bs3 /\
    inv bs3 (last_block bs) (i :: fl) [] /\ last_block bs3 = last_block bs /\ first_free bs3 = i /\
    pins_of bs3 = <[p := mkPin i d (Z.to_nat (bl_refcount bl)) false]> (pins_of bs) /\
    (forall j, j <> i -> contents_at bs3 j = contents_at bs j) /\
    (forall q, q <> p -> saved_block bs q -> saved_block bs3 q) /\ saved_block bs3 p /\
    heap bs3 !! p = Some (with_dirty (with_data bl d) true) /\ root_block bs3 = root_block bs.
Proof.
  intros Hi Hf Hv Hp Eid Hd Hrf Hr. pose proof (b_data _ _ _ _ _ (i_block _ _ _ _ Hi p bl Hp Hr)) as Hl.
  unfold set_word. rewrite arr_set_Ok by (rewrite Hl; unfold block_words; lia). set (d := <[Z.to_nat 0:=first_free bs]> (bl_data bl)).
  destruct (write_ok bs (last_block bs) fl [] p bl d Hi Hp Hr Hrf) as (Hi1 & P1 & C1 & L1 & F1 & S1); [by rewrite Eid|by unfold d; rewrite length_insert|].
  set (bs1 := put_bl bs p (with_data bl d)) in *. rewrite Eid, Hd in P1. rewrite Hd in C1.
  assert (heap bs1 !! p = Some (with_data bl d)) as Hp1 by (cbn; by rewrite lookup_insert_eq).
  assert (contents_at bs1 i = d) as Ci by (rewrite C1, Eid; unfold change; by rewrite Z.eqb_refl).
  assert (forall j, j <> i -> contents_at bs1 j = contents_at bs j) as Cj.
  { intros j Hj. rewrite C1, Eid. unfold change. by destruct (Z.eqb_spec j i). }
  pose proof (i_last _ _ _ _ Hi) as (Hb1 & _ & Hb2). pose proof (i_free _ _ _ _ Hi) as [Hn Hfv].
  destruct (root_move_ok bs1 (last_block bs) fl (i :: fl) 4 i Hi1) as (bs2 & bs3 & E2 & E3 & Hi3 & P3 & C3 & S3 & R3 & L3 & F3 & H3);
    cbn [Z.eqb Pos.eqb]; try done; [by left|by rewrite L1|lia|by rewrite L1| | | |].
  { split; [done|]. split; [destruct Hv; lia|]. rewrite Ci. unfold d. change (Z.to_nat 0) with O.
    rewrite list_lookup_total_insert_eq by (rewrite Hl; unfold block_words; lia).
    apply (is_chain_ext (contents_at bs)); [|apply (i_chain _ _ _ _ Hi)]. intros j Hj. apply Cj. by intros ->. }
  { by apply NoDup_cons. }
  { intros j [->|Hj]%elem_of_cons; rewrite L1; [done|by apply Hfv]. }
  cbn [Z.eqb Pos.eqb] in L3, F3. assert (heap bs3 !! p = Some (with_data bl d)) as Hp3 by by rewrite H3.
  destruct (mark_ok bs3 (last_block bs) (i :: fl) [] p _ Hi3 Hp3) as (E4 & Hi4 & [K1 K2 K3 K4 K5 K6] & S4); [by rewrite R3|].
  exists d, bs2, bs3, (put_bl bs3 p (with_dirty (with_data bl d) true)).
  split; [done|]. split; [done|]. split; [done|]. split; [done|]. split; [done|]. split; [congruence|]. split; [congruence|].
  split; [by rewrite K1, P3, P1|]. split; [intros j Hj; by rewrite K2, C3, Cj|]. split; [intros q Hq Hs; by apply K3, S3, S1|].
  split; [done|]. split; [cbn; by rewrite lookup_insert_eq|]. by rewrite K4, R3.
Qed.

(** Freeing a block nobody has: it is the first that will be used again. *)
Lemma file_free_law bs i : wf_file bs -> i ∈ allocated_blocks bs -> (forall q k, pins_of bs !! q = Some k -> pin_id k <> i) ->
  exists bs' ret, camel_block_file_free_block bs i = Ok (bs', ret) /\ wf_file bs' /\ pins_of bs' = pins_of bs /\
    (forall j, j <> i -> contents_at bs' j = contents_at bs j) /\ last_block bs' = last_block bs /\
    (forall q, saved_block bs q -> saved_block bs' q) /\
    (ret = 0 /\ allocated_blocks bs' = allocated_blocks bs ∖ {[i]} /\ free_list bs' = i :: free_list bs \/
     ret = -1 /\ allocated_blocks bs' = allocated_blocks bs /\ free_list bs' = free_list bs).
Proof.
  intros (fl & Hi & Ha) Hal Hpin. pose proof Hal as [Hv Hf]%(allocated_inv _ _ _ _ _ Hi). unfold camel_block_file_free_block.
  pose proof (i_last _ _ _ _ Hi) as (Hb1 & _ & Hb2). pose proof (i_free _ _ _ _ Hi) as [Hn Hfv].
  assert (free_list bs = fl) as Efl by by apply free_list_chain; [apply (i_chain _ _ _ _ Hi)|..].
  destruct (get_ok bs (last_block bs) fl i Hi) as (bs1 & r & -> & Hi1 & [G1 G2 G3 G4 G5 G6] & Hnone); [destruct Hv; lia|done| |].
  { intros q bl Hq Eid. destruct (bl_detached bl) eqn:Ed; [|done]. assert (root_block bs <> Some q) as Hrq.
    { intros E. destruct (i_root _ _ _ _ Hi) as (r & b & ? & ? & Hz & _). assert (b = bl) as -> by congruence. destruct Hv. lia. }
    destruct (Hpin q (pin_of bl)); [|done]. apply pins_lookup. exists bl.
    split; [done|]. split; [done|]. split; [|done]. by apply (b_detached _ _ _ _ _ (i_block _ _ _ _ Hi q bl Hq Hrq)). }
  rewrite res_bind_Ok. rewrite <- G4 in Hi1. destruct r as [p|].
  2:{ exists bs1, (-1). split; [done|]. split; [exists fl; split; [done|]; intros q k; rewrite G6; apply Ha|].
      split; [done|]. split; [auto|]. split; [done|]. split; [done|]. right. split; [done|]. split.
      - apply set_eq. intros j. by rewrite (allocated_inv _ _ _ _ _ Hi), (allocated_inv _ _ _ _ _ Hi1), G4.
      - apply (eq_trans (y := fl)); [|done]. apply free_list_chain; [apply (i_chain _ _ _ _ Hi1)|done|by rewrite G4|by rewrite G4]. }
  destruct G6 as (c & bl & P1 & N1 & K1 & Hp & Eid & Hd & Hrf & Hr).
  assert (pins_of bs !! p = None) as Hpn.
  { destruct (pins_of bs !! p) as [k|] eqn:Ek; [|done]. destruct (Hpin p k Ek). by rewrite (K1 k). }
  destruct (N1 Hpn) as [-> _]. assert (root_block bs1 <> Some p) as Hr1 by by rewrite G3.
  assert (Z.to_nat (bl_refcount bl) = 1%nat) as Hrc.
  { assert (pins_of bs1 !! p = Some (mkPin i (contents_at bs i) 1 false)) as E1 by by rewrite P1, lookup_insert_eq.
    apply pins_lookup in E1 as (b & Eb & _ & _ & Ek). assert (b = bl) as -> by congruence. by injection Ek as _ _ ->. }
  rewrite (root_free_ok bs1 _ _ _ Hi1), res_bind_Ok. unfold get_bl. rewrite Hp, res_bind_Ok.
  destruct (link_ok bs1 fl i p bl Hi1 Hf ltac:(by rewrite G4) Hp Eid Hd Hrf Hr1) as (d & bs2 & bs3 & bs4 & -> & E2 & E3 & E4 & Hi4 & L4 & F4 & P4 & C4 & S4 & Sp & Hp4 & R4).
  rewrite res_bind_Ok, Eid, E2, res_bind_Ok, E3, res_bind_Ok, E4, res_bind_Ok. rewrite <- L4 in Hi4. rewrite <- R4 in Hr1.
  destruct (unref_ok bs4 (i :: fl) p _ Hi4 Hp4 Hr1 Hrf Sp) as (bs5 & -> & Hi5 & P5 & C5 & L5 & F5 & S5). rewrite res_bind_Ok.
  cbn in P5. destruct (Z.ltb_spec 1 (bl_refcount bl)) as [?|_]; [lia|].
  rewrite P4, P1, insert_insert_eq, delete_insert_id in P5 by done.
  assert (last_block bs5 = last_block bs) as El by congruence. rewrite <- L5 in Hi5.
  exists bs5, 0. split; [done|]. split.
  { exists (i :: fl). split; [done|]. intros q k. rewrite P5. intros Hq [Ek|Hin]%elem_of_cons; [by apply (Hpin q k)|by apply (Ha q k)]. }
  split; [done|]. split; [intros j Hj; by rewrite C5, C4, G1|]. split; [done|]. split.
  { intros q Hq. apply S5. destruct (decide (q = p)) as [->|Hne]; [done|]. by apply S4, G2. }
  left. split; [done|]. split.
  - apply set_eq. intros j. rewrite elem_of_difference, elem_of_singleton, (allocated_inv _ _ _ _ _ Hi), (allocated_inv _ _ _ _ _ Hi5), El, elem_of_cons. tauto.
  - rewrite Efl. pose proof (i_free _ _ _ _ Hi5) as [? ?]. apply free_list_chain; [apply (i_chain _ _ _ _ Hi5)|done|by rewrite El|done].
Qed.

(** ** Attaching *)

Lemma inv_attach bs lim fl p bl : inv bs lim fl [] -> heap bs !! p = Some bl -> root_block bs <> Some p -> bl_detached bl = true ->
  (~ bl_id bl ∈ fl) ->
  exists bs', camel_block_file_attach_block bs p = Ok bs' /\ inv bs' lim fl [] /\ root_data bs' = root_data bs /\
    forall j, contents_at bs' j = change (contents_at bs) (bl_id bl) (bl_data bl) j.
Proof.
  intros Hi Hp Hr Hd Bu. pose proof (detached_block _ _ _ _ _ _ Hi Hp Hd) as Hb. pose proof Hi as [H1 H2 H3 H4 H5 H6 H7 H8 H9 H11 H10].
  cbn [app] in *. pose proof (H8 p bl Hp Hr) as [Bd Bv Br _ B5 _]. specialize (B5 Hd).
  assert (~ p ∈ block_cache bs) as Hnc by (intros Hin; destruct (H7 p Hin) as (b & E & ?); congruence).
  unfold camel_block_file_attach_block, get_bl. rewrite Hp, res_bind_Ok. set (bs' := put_bl _ p _). exists bs'. split; [done|].
  assert (root_data bs' = root_data bs) as Er.
  { unfold root_data. cbn. destruct (root_block bs); [|done]. by rewrite lookup_insert_ne by congruence. }
  assert (last_block bs' = last_block bs /\ first_free bs' = first_free bs) as [El Ef] by (unfold last_block, first_free; by rewrite Er).
  assert (forall j, contents_at bs' j = change (contents_at bs) (bl_id bl) (bl_data bl) j) as Hc.
  { intros j. unfold contents_at, change. cbn. destruct (Z.eqb_spec j (bl_id bl)) as [->|Hne].
    - destruct (Z.eqb_spec (bl_id bl) 0); [destruct Bv; lia|]. by rewrite !lookup_insert_eq.
    - rewrite lookup_insert_ne by done. destruct (j =? 0); [done|]. destruct (blocks bs !! j) as [q|] eqn:Eq; [|done].
      rewrite lookup_insert_ne; [done|]. intros <-. apply H5 in Eq as [? _]. done. }
  split; [|done]. split; try (rewrite El; done); cbn.
  - destruct H1 as (r & b & E1 & E2 & E3). exists r, b. by rewrite lookup_insert_ne by congruence.
  - rewrite Ef. apply (is_chain_ext (contents_at bs)); [|done]. intros i Hin. rewrite Hc. unfold change.
    destruct (Z.eqb_spec i (bl_id bl)) as [->|]; done.
  - intros i q. rewrite elem_of_app, list_elem_of_singleton. destruct (decide (q = p)) as [->|Hqp].
    + rewrite lookup_insert_eq. split.
      * intros [[<- _]|[_ Hq]]%lookup_insert_Some; [|apply H5 in Hq as [? _]; done]. split; [by right|by eexists].
      * intros [_ (b & [= <-] & <-)]. cbn. by rewrite lookup_insert_eq.
    + rewrite (lookup_insert_ne (heap bs)) by done. destruct (decide (i = bl_id bl)) as [->|Hne].
      * rewrite lookup_insert_eq. split; [congruence|]. intros [_ (b & E & Ei)]. destruct Hqp. by apply (H9 q p b bl).
      * rewrite lookup_insert_ne, H5 by done. intuition.
  - apply NoDup_app. split; [done|]. split; [|apply NoDup_singleton]. intros q Hq ->%list_elem_of_singleton. done.
  - intros q [Hq| ->%list_elem_of_singleton]%elem_of_app; [|by eexists; rewrite lookup_insert_eq].
    destruct (H7 q Hq) as (b & E & Hdb). exists b. by rewrite lookup_insert_ne by (intros ->; done).
  - intros q b [[-> ->]|[Hqp Hq]]%lookup_put Hrq.
    + split; cbn; try done; intros; first [lia | apply elem_of_app; right; apply list_elem_of_here].
    + destruct (H8 q b Hq Hrq) as [C1 C2 C3 C4 C5 C7]. split; try done. intros Hdb. cbn. apply elem_of_app. left. by apply C4.
  - intros q q' b b' [[-> ->]|[Hqp Hq]]%lookup_put [[-> ->]|[Hqp' Hq']]%lookup_put E; [done|symmetry; by apply (H9 q' p b' bl)
      |by apply (H9 q p b bl)|by apply (H9 q q' b b')].
  - unfold root_head. by rewrite Er.
  - done.
Qed.

(** From then on the data of the block are what its id is read as. *)
Lemma file_attach_law bs p k : wf_file bs -> pins_of bs !! p = Some k -> pin_detached k = true ->
  exists bs', camel_block_file_attach_block bs p = Ok bs' /\ wf_file bs' /\
    pins_of bs' = <[p := mkPin (pin_id k) (pin_data k) (pin_count k) false]> (pins_of bs) /\
    (forall j, contents_at bs' j = change (contents_at bs) (pin_id k) (pin_data k) j) /\ allocated_blocks bs' = allocated_blocks bs /\
    (forall q, saved_block bs q -> saved_block bs' q) /\ (forall n, room_for bs n -> room_for bs' n).
Proof.
  intros (fl & Hi & Ha) Hk Hd. destruct (pin_block bs fl p k Ha Hk) as (bl & Hp & Hr & Hrf & Hf & ->). cbn in *.
  destruct (inv_attach bs _ fl p bl Hi Hp Hr Hd Hf) as (bs' & E & Hi' & Er & C').
  assert (last_block bs' = last_block bs) as L' by (unfold last_block; by rewrite Er).
  pose proof E as E'. unfold camel_block_file_attach_block, get_bl in E'. rewrite Hp, res_bind_Ok in E'. injection E' as <-.
  set (bs1 := set_cache (set_blocks bs _) _) in *.
  assert (pins_of (put_bl bs1 p (with_detached bl false)) = <[p := mkPin (bl_id bl) (bl_data bl) (Z.to_nat (bl_refcount bl)) false]> (pins_of bs)) as P'.
  { rewrite (pins_put bs1 p _ Hr). cbn. by destruct (Z.ltb_spec 0 (bl_refcount bl)); [|lia]. }
  destruct (wf_step bs _ fl Hi Hi' L') as (Hw & A' & R').
  { rewrite P'. intros q k [[_ <-]|[_ Hq]]%lookup_insert_Some; [done|]. by apply (Ha q k). }
  eexists. split; [done|]. do 4 (split; [done|]). split; [|done].
  intros q Hq b Eb Hrq. cbn in Eb. apply lookup_put in Eb as [[-> ->]|[Hne Eb]]; [exact (Hq bl Hp Hr)|]. by apply Hq.
Qed.

(** ** Closing for a time *)

(** The clients see nothing of it. *)
Lemma offline_ok bs lim fl x : inv bs lim fl x ->
  exists bs', block_file_offline bs = Ok bs' /\ inv bs' lim fl x /\ keeps bs bs'.
Proof.
  intros Hi. unfold block_file_offline. destruct (online bs); [|by exists bs].
  destruct (sync_nolock_ok bs lim fl x Hi) as (bs1 & ret & -> & Hi1 & [K1 K2 K3 K4 K5 K6] & _). rewrite res_bind_Ok.
  exists (set_online bs1 false). split; [done|]. split; [by apply inv_online|]. by split.
Qed.

(** * Files of blocks: the operations

    The claims on files of blocks, with a run of the code as an example. *)

(** ** An example *)

(** An empty file, with a block for the root of a table. *)
Definition new_file : res (CamelBlockFile * Z) :=
  r ← camel_block_file_new base_class (mkDisk ∅ 0) [] [1; 2];
  match r with
  | inl b =>
      '(b, p) ← camel_block_file_new_block b;
      match p with
      | Some p => id ← block_id b p; b ← camel_block_file_unref_block b p; Ok (b, id)
      | None => Undef
      end
  | inr _ => Undef
  end.

Definition the_file : CamelBlockFile := match new_file with Ok (b, _) => b | _ => mkFile [] false None 0 0 [] ∅ ∅ (mkDisk ∅ 0) [] end.

Lemma Ok_pair {A C} (a a' : A) (c c' : C) : Ok (a, c) = Ok (a', c') -> a = a' /\ c = c'.
Proof. by intros [= -> ->]. Qed.

(** An empty file that was just opened. *)
Definition no_blocks : CamelBlockFile := with_root [1; 2] (empty_file [1; 2] (mkDisk ∅ 0)) (empty_root [1; 2]) [].

Lemma no_blocks_wf : wf no_blocks.
Proof.
  destruct (empty_image [1; 2] (mkDisk ∅ 0) eq_refl) as [Him Er]; [by intros i d E; cbn in E; rewrite lookup_empty in E|].
  destruct (open_inv _ _ _ _ [] Him) as (Hi & Hp & _ & Hl). rewrite Er in *. exists []. unfold no_blocks. rewrite Hl.
  split; [done|]. intros p k _. by intros ?%not_elem_of_nil.
Qed.

Lemma the_file_wf : wf the_file.
Proof.
  set (b1 := no_blocks). assert (wf b1) as Hw1 by exact no_blocks_wf.
  set (b2 := match camel_block_file_new_block b1 with Ok (b, _) => b | _ => b1 end).
  assert (camel_block_file_new_block b1 = Ok (b2, Some 3%positive)) as E2 by (vm_compute; reflexivity).
  destruct (new_law b1 0 Hw1) as (b2' & r & E & Hw2 & _ & _ & Hr); [vm_compute; reflexivity|].
  assert (Ok (b2', r) = Ok (b2, Some 3%positive)) as [-> ->]%Ok_pair by (rewrite <- E2; symmetry; exact E).
  destruct Hr as (i & _ & _ & Hp & _ & _ & _ & Hs).
  destruct (unref_law b2 3%positive (mkPin i zero_block 1 false) Hw2) as (b3 & E3 & Hw3 & _); [by rewrite Hp, lookup_insert_eq|done|].
  replace the_file with b3; [done|]. assert (Ok (b3, 0) = Ok (the_file, 0)) as [-> _]%Ok_pair; [|done].
  change (Ok (b3, 0)) with (b ← Ok b3; Ok (b, 0)). rewrite <- E3. vm_compute. reflexivity.
Qed.

Lemma no_pins_saved (b : CamelBlockFile) : pins b = ∅ -> all_saved b /\ forall p i d, ~ own b p i d.
Proof.
  intros E. split.
  - intros q j c Hq. unfold held in Hq. rewrite E in Hq. by rewrite lookup_empty in Hq.
  - intros p i d [c Hp]%own_pins. rewrite E in Hp. by rewrite lookup_empty in Hp.
Qed.

(** ** The operations *)


(** C27: Getting a block in use gives a pointer to a block in memory, with one reference more than
    before, whose data are what the file says, whether they were in the cache or are read, and
    whatever blocks are dropped from the cache for it; the contents of all blocks stay.
    Or it fails, and nothing changes. *)
Theorem block_file_get_block bs (i : Z) (Hw : wf_file bs) (Hi : i ∈ allocated_blocks bs)
    (Hdet : forall q k, pins_of bs !! q = Some k -> pin_id k = i -> pin_detached k = false) :
  exists bs' r, camel_block_file_get_block bs i = Ok (bs', r) /\ wf_file bs' /\
    (forall j, contents_at bs' j = contents_at bs j) /\ allocated_blocks bs' = allocated_blocks bs /\
    (forall q, saved_block bs q -> saved_block bs' q) /\
    match r with
    | None => pins_of bs' = pins_of bs
    | Some p => exists c, pins_of bs' = <[p := mkPin i (contents_at bs i) (S c) false]> (pins_of bs) /\
        (forall k, pins_of bs !! p = Some k -> k = mkPin i (contents_at bs i) c false)
    end.
Proof.
  destruct (file_get_law bs i Hw Hi Hdet) as (bs' & r & E & Hw' & Hc & Ha & Hs & _ & Hr). exists bs', r.
  do 5 (split; [done|]). destruct r as [p|]; [|done]. destruct Hr as (c & Hp & _ & Hk). by exists c.
Qed.

Lemma the_file_allocated : 1024 ∈ allocated_blocks the_file.
Proof. apply (bool_decide_unpack _). vm_compute. exact I. Qed.

Lemma the_file_pins : pins_of the_file = ∅.
Proof. vm_compute. reflexivity. Qed.

Lemma block_file_get_block_witness :
  exists bs' r, camel_block_file_get_block the_file 1024 = Ok (bs', r) /\ wf_file bs' /\
    (forall j, contents_at bs' j = contents_at the_file j) /\ allocated_blocks bs' = allocated_blocks the_file /\
    (forall q, saved_block the_file q -> saved_block bs' q) /\
    match r with
    | None => pins_of bs' = pins_of the_file
    | Some p => exists c, pins_of bs' = <[p := mkPin 1024 (contents_at the_file 1024) (S c) false]> (pins_of the_file) /\
        (forall k, pins_of the_file !! p = Some k -> k = mkPin 1024 (contents_at the_file 1024) c false)
    end.
Proof.
  apply (block_file_get_block the_file 1024 the_file_wf the_file_allocated).
  intros q k. rewrite the_file_pins. by rewrite lookup_empty.
Defined.

(** A block that nobody has and that is freed is the one the next allocation takes, if it can be
    read: cleared, with one reference; the other blocks are as before. *)
Theorem block_file_free_new bs bs1 (i : Z) (Hw : wf_file bs) (Hi : i ∈ allocated_blocks bs)
    (Hpin : forall q k, pins_of bs !! q = Some k -> pin_id k <> i) (Hroom : room_for bs 1)
    (E : camel_block_file_free_block bs i = Ok (bs1, 0)) :
  wf_file bs1 /\ allocated_blocks bs1 = allocated_blocks bs ∖ {[i]} /\ pins_of bs1 = pins_of bs /\
  exists bs2 r, camel_block_file_new_block bs1 = Ok (bs2, r) /\ wf_file bs2 /\
    (forall j, j <> i -> contents_at bs2 j = contents_at bs j) /\
    match r with
    | None => pins_of bs2 = pins_of bs /\ allocated_blocks bs2 = allocated_blocks bs ∖ {[i]}
    | Some p => pins_of bs2 = <[p := mkPin i zero_block 1 false]> (pins_of bs) /\ contents_at bs2 i = zero_block
    end.
Proof.
  destruct (file_free_law bs i Hw Hi Hpin) as (b & ret & E1 & Hw1 & P1 & C1 & L1 & _ & Hr).
  rewrite E in E1. injection E1 as <- <-. destruct Hr as [(_ & A1 & F1)|[? _]]; [|done]. do 3 (split; [done|]).
  destruct Hw1 as (fl & Hi1 & Ha1). pose proof (i_last _ _ _ _ Hi1) as (_ & _ & Hm). pose proof (i_free _ _ _ _ Hi1) as [Hn Hv].
  assert (fl = i :: free_list bs) as -> by (rewrite <- F1; symmetry; by apply free_list_chain; [apply (i_chain _ _ _ _ Hi1)|..]).
  destruct (new_block_ok bs1 _ 0 Hi1 Ha1) as (bs2 & r & E2 & _ & Hr); [unfold room_for in *; by rewrite L1|].
  exists bs2, r. split; [done|]. destruct r as [p|].
  - destruct Hr as (i' & fl' & [N1 N2 N3 N4 N5 _] & _ & [([= <- <-] & _)|(? & _)]); [|done].
    split; [by exists (free_list bs)|]. split; [intros j Hj; by rewrite N4, C1|]. by rewrite N3, P1.
  - destruct Hr as [Hi2 Hk]. destruct (wf_keeps bs1 bs2 _ Hi1 Ha1 Hi2 Hk) as (Hw2 & A2 & _). destruct Hk as [K1 K2 _ _ _ _].
    split; [done|]. split; [intros j Hj; by rewrite K2, C1|]. by rewrite K1, P1, A2.
Qed.

Definition freed_file : CamelBlockFile := match camel_block_file_free_block the_file 1024 with Ok (b, _) => b | _ => the_file end.

Lemma block_file_free_new_witness :
  wf_file freed_file /\ allocated_blocks freed_file = allocated_blocks the_file ∖ {[1024]} /\ pins_of freed_file = pins_of the_file /\
  exists bs2 r, camel_block_file_new_block freed_file = Ok (bs2, r) /\ wf_file bs2 /\
    (forall j, j <> 1024 -> contents_at bs2 j = contents_at the_file j) /\
    match r with
    | None => pins_of bs2 = pins_of the_file /\ allocated_blocks bs2 = allocated_blocks the_file ∖ {[1024]}
    | Some p => pins_of bs2 = <[p := mkPin 1024 zero_block 1 false]> (pins_of the_file) /\ contents_at bs2 1024 = zero_block
    end.
Proof.
  apply (block_file_free_new the_file freed_file 1024 the_file_wf the_file_allocated).
  - intros q k. rewrite the_file_pins. by rewrite lookup_empty.
  - vm_compute. reflexivity.
  - vm_compute. reflexivity.
Defined.

(** C28: When syncing the file succeeds and it has the length that its root block says, a
    file that is opened from what is on the disk has the same blocks with the same contents,
    and nobody has any of them. *)
Theorem block_file_reopen bs bs' (calls : list (option Z)) (Hw : wf_file bs)
    (Hs : forall p k, pins_of bs !! p = Some k -> pin_detached k = false -> saved_block bs p)
    (E : camel_block_file_sync bs = Ok (bs', 0)) (Hsize : f_size (disk bs') = last_block bs') (Hc : no_faults calls) :
  exists bs2, camel_block_file_new base_class (disk bs') calls (version bs') = Ok (inl bs2) /\ wf_file bs2 /\ pins_of bs2 = ∅ /\
    (forall i, contents_at bs2 i = contents_at bs i) /\ allocated_blocks bs2 = allocated_blocks bs.
Proof.
  destruct (reopen_ok bs bs' calls Hw Hs E Hsize Hc) as (bs2 & E2 & Hw2 & P2 & C2 & A2 & _). by exists bs2.
Qed.

Definition synced_file : CamelBlockFile := match camel_block_file_sync the_file with Ok (b, _) => b | _ => the_file end.

Lemma block_file_reopen_witness :
  exists bs2, camel_block_file_new base_class (disk synced_file) [] (version synced_file) = Ok (inl bs2) /\ wf_file bs2 /\ pins_of bs2 = ∅ /\
    (forall i, contents_at bs2 i = contents_at the_file i) /\ allocated_blocks bs2 = allocated_blocks the_file.
Proof.
  apply (block_file_reopen the_file synced_file [] the_file_wf).
  - intros p k. rewrite the_file_pins. by rewrite lookup_empty.
  - vm_compute. reflexivity.
  - vm_compute. reflexivity.
  - constructor.
Defined.
