(* ===== verification/PartitionTable.v ===== *)
(** * Partition tables ([camel-partition-table.c])

    [src/camel/camel-partition-table.c]: an index from the hash of a key to a key id.  The
    range of hashes is divided into partitions; the blocks of the map have the last hash of
    each and the block its keys are in, and stay in memory as long as the table does.  A
    block of keys that is full shares its keys with a neighbour or with a new
    block; a block of the map that is full is divided, too.

    The blocks come from a [BlockStore]; [B] is its state.  A full block is read and written
    as words, as it lies in memory: what is behind the used part stays there. *)

From S2P Require Import Prelude BlockStore.
From stdpp Require Import gmap.
#[local] Open Scope Z_scope.
#[local] Open Scope list_scope.

(** ** Data *)

(** [CamelPartitionKeyBlock]: [used], and pairs of a hash and a key id. *)
Definition key_slots : Z := 127.
Definition key_used (d : list Z) : res Z := word d 0.
Definition set_key_used (d : list Z) (n : Z) : res (list Z) := set_word d 0 n.
(** [keys\[i\]] *)
Definition key_at (d : list Z) (i : Z) : res (Z * Z) :=
  if (0 <=? i) && (i <? key_slots) then
    h ← word d (1 + 2 * i); k ← word d (2 + 2 * i); Ok (h, k)
  else Undef.
Definition set_key (d : list Z) (i : Z) (e : Z * Z) : res (list Z) :=
  if (0 <=? i) && (i <? key_slots) then
    d ← set_word d (1 + 2 * i) e.1; set_word d (2 + 2 * i) e.2
  else Undef.

(** [CamelPartitionMapBlock]: [next], [used], and pairs of the last hash of a partition
    and the id of the block with its keys. *)
Definition part_slots : Z := 127.
Definition part_next (d : list Z) : res Z := word d 0.
Definition set_part_next (d : list Z) (i : Z) : res (list Z) := set_word d 0 i.
Definition part_used (d : list Z) : res Z := word d 1.
Definition set_part_used (d : list Z) (n : Z) : res (list Z) := set_word d 1 n.
(** [partition\[i\]] *)
Definition part_at (d : list Z) (i : Z) : res (Z * Z) :=
  if (0 <=? i) && (i <? part_slots) then
    h ← word d (2 + 2 * i); b ← word d (3 + 2 * i); Ok (h, b)
  else Undef.
Definition set_part (d : list Z) (i : Z) (e : Z * Z) : res (list Z) :=
  if (0 <=? i) && (i <? part_slots) then
    d ← set_word d (2 + 2 * i) e.1; set_word d (3 + 2 * i) e.2
  else Undef.

(** [cpi->partition], the blocks of the map; [cpi->blocks] is passed along. *)
Record CamelPartitionTable := mkTable {
  rootid : Z;
  partition : list ptr;
}.

(** ** Finding a partition *)

(** [*key] is a [char], which has a sign. *)
Definition s8 (c : Z) : Z := if c <? 128 then c else c - 256.

Fixpoint hash_loop (hash : Z) (key : list Z) : Z :=
  match key with
  | [] => hash
  | c :: key => hash_loop (Z.lxor (u32 (hash * s8 c)) (u32 (s8 c))) key
  end.

Definition hash_key (key : list Z) : Z := hash_loop 0xABADF00D key.

(** The binary search in a block. *)
Fixpoint partition_search (fuel : nat) (d : list Z) (used id index jump : Z) : res Z :=
  match fuel with
  | O => NoFuel
  | S fuel =>
      let jump' := if jump / 2 =? 0 then 1 else jump / 2 in
      p ← part_at d index;
      if id <=? p.1 then
        stop ← (if index =? 0 then Ok true else p ← part_at d (index - 1); Ok (p.1 <? id));
        if (stop : bool) then Ok index else partition_search fuel d used id (index - jump) jump'
      else if used - 1 <=? index then Ok index
      else partition_search fuel d used id (index + jump) jump'
  end.

Section table.
Context {B : Type} `{BlockStore B} `{QSort}.

(** The block of the map, and the index in it. *)
Fixpoint find_partition (b : B) (l : list ptr) (id : Z) : res (option (ptr * Z)) :=
  match l with
  | [] => Ok None
  | bl :: l =>
      d ← block_data b bl;
      used ← part_used d;
      here ← (if 0 <? used then p ← part_at d (used - 1); Ok (id <=? p.1) else Ok false);
      if (here : bool) then
        let jump := used / 4 in
        index ← partition_search 128 d used id (used / 2) (if jump =? 0 then 1 else jump);
        Ok (Some (bl, index))
      else find_partition b l id
  end.

(** ** Opening and closing *)

Fixpoint finalise_loop (b : B) (l : list ptr) : res B :=
  match l with
  | [] => Ok b
  | bl :: l => '(b, _) ← sync_block b bl; b ← unref_block b bl; finalise_loop b l
  end.

Definition camel_partition_table_finalise (b : B) (cpi : CamelPartitionTable) : res B :=
  b ← finalise_loop b (partition cpi);
  '(b, _) ← sync b;
  Ok b.

(** The first block of an empty table: its only partition is for all hashes. *)
Definition prime (b : B) (block : ptr) : res (B * bool) :=
  '(b, r) ← new_block b;
  match r with
  | None => b ← unref_block b block; Ok (b, false)
  | Some pblock =>
      kb ← block_data b pblock;
      kb ← set_key_used kb 0;
      b ← write_data b pblock kb;
      id ← block_id b pblock;
      ptb ← block_data b block;
      ptb ← set_part_used ptb 1;
      ptb ← set_part ptb 0 (0xffffffff, id);
      b ← write_data b block ptb;
      b ← touch_block b pblock;
      b ← unref_block b pblock;
      b ← touch_block b block;
      Ok (b, true)
  end.

(** The chain of the blocks of the map may have any length; [fuel] is a parameter. *)
Fixpoint new_loop (fuel : nat) (b : B) (cpi : CamelPartitionTable) (root : Z) : res (B * option CamelPartitionTable) :=
  match fuel with
  | O => NoFuel
  | S fuel =>
      let fail b := b ← camel_partition_table_finalise b cpi; Ok (b, None) in
      '(b, r) ← get_block b root;
      match r with
      | None => fail b
      | Some block =>
          ptb ← block_data b block;
          used ← part_used ptb;
          next ← part_next ptb;
          '(b, ok) ← (if (used =? 0) && bool_decide (partition cpi = []) && (next =? 0)
                      then prime b block else Ok (b, true));
          if (ok : bool) then
            ptb ← block_data b block;
            root ← part_next ptb;
            b ← detach_block b block;
            let cpi := mkTable (rootid cpi) (partition cpi ++ [block]) in
            if root =? 0 then Ok (b, Some cpi) else new_loop fuel b cpi root
          else fail b
      end
  end.

Definition camel_partition_table_new (fuel : nat) (b : B) (root : Z) : res (B * option CamelPartitionTable) :=
  new_loop fuel b (mkTable root []) root.

Fixpoint sync_loop (b : B) (l : list ptr) : res (B * Z) :=
  match l with
  | [] => Ok (b, 0)
  | bl :: l =>
      '(b, ret) ← sync_block b bl;
      if ret =? -1 then Ok (b, ret) else sync_loop b l
  end.

Definition camel_partition_table_sync (b : B) (cpi : CamelPartitionTable) : res (B * Z) :=
  sync_loop b (partition cpi).

(** ** Looking up and removing *)

(** The index of the first key with the hash, of the [n] from [i] on. *)
Fixpoint find_key (n : nat) (d : list Z) (hashid i : Z) : res (option Z) :=
  match n with
  | O => Ok None
  | S n => k ← key_at d i; if k.1 =? hashid then Ok (Some i) else find_key n d hashid (i + 1)
  end.

(** The block with the keys of the partition of [hashid]. *)
Definition get_key_block (b : B) (cpi : CamelPartitionTable) (hashid : Z) : res (B * option (ptr * Z * ptr)) :=
  r ← find_partition b (partition cpi) hashid;
  match r with
  | None => Ok (b, None)
  | Some (ptblock, index) =>
      ptb ← block_data b ptblock;
      p ← part_at ptb index;
      '(b, block) ← get_block b p.2;
      Ok (b, match block with Some block => Some (ptblock, index, block) | None => None end)
  end.

Definition camel_partition_table_lookup (b : B) (cpi : CamelPartitionTable) (key : list Z) : res (B * Z) :=
  let hashid := hash_key key in
  '(b, r) ← get_key_block b cpi hashid;
  match r with
  | None => Ok (b, 0)
  | Some (_, _, block) =>
      pkb ← block_data b block;
      used ← key_used pkb;
      i ← find_key (Z.to_nat used) pkb hashid 0;
      keyid ← match i with Some i => k ← key_at pkb i; Ok k.2 | None => Ok 0 end;
      b ← unref_block b block;
      Ok (b, keyid)
  end.

(** Moving [n] keys from behind [i] to [i]. *)
Fixpoint shift_keys (n : nat) (d : list Z) (i : Z) : res (list Z) :=
  match n with
  | O => Ok d
  | S n => k ← key_at d (i + 1); d ← set_key d i k; shift_keys n d (i + 1)
  end.

Definition camel_partition_table_remove (b : B) (cpi : CamelPartitionTable) (key : list Z) : res B :=
  let hashid := hash_key key in
  '(b, r) ← get_key_block b cpi hashid;
  match r with
  | None => Ok b
  | Some (_, _, block) =>
      pkb ← block_data b block;
      used ← key_used pkb;
      i ← find_key (Z.to_nat used) pkb hashid 0;
      b ← match i with
          | Some i =>
              pkb ← set_key_used pkb (used - 1);
              pkb ← shift_keys (Z.to_nat (used - 1 - i)) pkb i;
              b ← write_data b block pkb;
              touch_block b block
          | None => Ok b
          end;
      unref_block b block
  end.

(** ** Adding *)

(** A key behind the others. *)
Definition append_key (d : list Z) (hashid keyid : Z) : res (list Z) :=
  used ← key_used d;
  d ← set_key d used (hashid, keyid);
  set_key_used d (used + 1).

(** The previous and the next block of keys, in one block of the map; [None] if one of them
    cannot be read. *)
Definition get_neighbours (b : B) (ptb : list Z) (index : Z) : res (B * option (option ptr * option ptr)) :=
  used ← part_used ptb;
  '(b, p, ok) ← (if 0 <? index then
      e ← part_at ptb (index - 1);
      '(b, p) ← get_block b e.2;
      Ok (b, p, match p with Some _ => true | None => false end)
    else Ok (b, None, true));
  if negb ok then Ok (b, None) else
  '(b, n, ok) ← (if index <? used - 1 then
      e ← part_at ptb (index + 1);
      '(b, n) ← get_block b e.2;
      Ok (b, n, match n with Some _ => true | None => false end)
    else Ok (b, None, true));
  if (ok : bool) then Ok (b, Some (p, n))
  else
    b ← match p with Some p => unref_block b p | None => Ok b end;
    Ok (b, None).

(** [pkb->used] or [nkb->used], if there is such a block and it has room. *)
Definition room_in (b : B) (p : option ptr) : res (option Z) :=
  match p with
  | Some p => d ← block_data b p; used ← key_used d; Ok (if used <? key_slots then Some used else None)
  | None => Ok None
  end.

(** Which neighbour takes keys: the previous ([Some false]), the next one, or none. *)
Definition choose_neighbour (pkb nkb : option Z) : option bool :=
  match pkb, nkb with
  | Some p, Some n => Some (p <? n)
  | Some _, None => Some false
  | None, Some _ => Some true
  | None, None => None
  end.

Definition unref_opt (b : B) (p : option ptr) : res B :=
  match p with Some p => unref_block b p | None => Ok b end.

(** [memcpy (to->partition, &from->partition\[len\], n * sizeof)] *)
Fixpoint copy_parts (n : nat) (from : list Z) (len : Z) (to : list Z) (i : Z) : res (list Z) :=
  match n with
  | O => Ok to
  | S n => e ← part_at from (len + i); to ← set_part to i e; copy_parts n from len to (i + 1)
  end.

Fixpoint insert_behind (l : list ptr) (p q : ptr) : list ptr :=
  match l with
  | [] => []
  | a :: l => if bool_decide (a = p) then a :: q :: l else a :: insert_behind l p q
  end.

(** Dividing a full block of the map: the table, and the block and the index that the partition
    has now. *)
Definition split_map (b : B) (cpi : CamelPartitionTable) (ptblock : ptr) (index : Z)
    : res (B * option (CamelPartitionTable * ptr * Z)) :=
  '(b, r) ← new_block b;
  match r with
  | None => Ok (b, None)
  | Some ptnblock =>
      b ← detach_block b ptnblock;
      ptn ← block_data b ptnblock;
      ptb ← block_data b ptblock;
      next ← part_next ptb;
      ptn ← set_part_next ptn next;
      id ← block_id b ptnblock;
      ptb ← set_part_next ptb id;
      used ← part_used ptb;
      let len := used / 2 in
      ptn ← set_part_used ptn (used - len);
      ptb ← set_part_used ptb len;
      ptn ← copy_parts (Z.to_nat (used - len)) ptb len ptn 0;
      b ← write_data b ptblock ptb;
      b ← write_data b ptnblock ptn;
      let cpi := mkTable (rootid cpi) (insert_behind (partition cpi) ptblock ptnblock) in
      b ← touch_block b ptnblock;
      if len <? index then
        b ← touch_block b ptblock;
        Ok (b, Some (cpi, ptnblock, index - len))
      else Ok (b, Some (cpi, ptblock, index))
  end.

(** The loop that moves the partitions behind [index]: [n] of them, the last at [i]. *)
Fixpoint move_parts (n : nat) (d : list Z) (i : Z) : res (list Z) :=
  match n with
  | O => Ok d
  | S n => e ← part_at d i; d ← set_part d (i + 1) e; move_parts n d (i - 1)
  end.

(** A new partition behind [index] with the same last hash. *)
Definition insert_part (d : list Z) (index id : Z) : res (list Z) :=
  used ← part_used d;
  d ← move_parts (Z.to_nat (used - 1 - index)) d (used - 1);
  d ← set_part_used d (used + 1);
  e ← part_at d index;
  set_part d (index + 1) (e.1, id).

Definition split_partition (b : B) (cpi : CamelPartitionTable) (ptblock : ptr) (index : Z)
    : res (B * CamelPartitionTable * option (ptr * Z * ptr)) :=
  ptb ← block_data b ptblock;
  used ← part_used ptb;
  '(b, r) ← (if part_slots <=? used then split_map b cpi ptblock index else Ok (b, Some (cpi, ptblock, index)));
  match r with
  | None => Ok (b, cpi, None)
  | Some (cpi, ptblock, index) =>
      '(b, newblock) ← new_block b;
      match newblock with
      | None => Ok (b, cpi, None)
      | Some newblock =>
          ptb ← block_data b ptblock;
          id ← block_id b newblock;
          ptb ← insert_part ptb index id;
          b ← write_data b ptblock ptb;
          newkb ← block_data b newblock;
          newkb ← set_key_used newkb 0;
          b ← write_data b newblock newkb;
          Ok (b, cpi, Some (ptblock, index, newblock))
      end
  end.

Definition keys_cmp (a b : Z * Z) : Z := if a.1 <? b.1 then -1 else if b.1 <? a.1 then 1 else 0.

(** [n] keys from [i] on. *)
Fixpoint get_keys (n : nat) (d : list Z) (i : Z) : res (list (Z * Z)) :=
  match n with
  | O => Ok []
  | S n => k ← key_at d i; ks ← get_keys n d (i + 1); Ok (k :: ks)
  end.
Definition all_keys (d : list Z) : res (list (Z * Z)) := used ← key_used d; get_keys (Z.to_nat used) d 0.

Fixpoint put_keys (ks : list (Z * Z)) (d : list Z) (i : Z) : res (list Z) :=
  match ks with
  | [] => Ok d
  | k :: ks => d ← set_key d i k; put_keys ks d (i + 1)
  end.
Definition store_keys (d : list Z) (ks : list (Z * Z)) : res (list Z) :=
  d ← put_keys ks d 0; set_key_used d (Z.of_nat (length ks)).

Definition set_part_hash (d : list Z) (index hash : Z) : res (list Z) :=
  e ← part_at d index; set_part d index (hash, e.2).

(** [CAMEL_BLOCK_SIZE/4] keys fit into [keys]. *)
Definition keys_size : Z := CAMEL_BLOCK_SIZE / 4.

(** The keys of [block] and [newblock], which is behind it if [next], and the new one are divided
    among the two. *)
Definition share_keys (b : B) (ptblock : ptr) (index newindex : Z) (block newblock : ptr) (hashid keyid : Z) : res B :=
  kb ← block_data b block;
  newkb ← block_data b newblock;
  ks ← all_keys kb;
  nks ← all_keys newkb;
  let keys := ks ++ nks ++ [(hashid, keyid)] in
  if keys_size <? Z.of_nat (length keys) then Undef else
  let keys := qsort keys_cmp keys in
  let half := (length keys / 2)%nat in
  partid ← match keys !! (half - 1)%nat with Some k => Ok k.1 | None => Undef end;
  ptb ← block_data b ptblock;
  '(kb, newkb, ptb) ←
    (if index <? newindex then
       kb ← store_keys kb (take half keys);
       newkb ← store_keys newkb (drop half keys);
       ptb ← set_part_hash ptb index partid;
       Ok (kb, newkb, ptb)
     else
       newkb ← store_keys newkb (take half keys);
       kb ← store_keys kb (drop half keys);
       ptb ← set_part_hash ptb newindex partid;
       Ok (kb, newkb, ptb));
  b ← write_data b block kb;
  b ← write_data b newblock newkb;
  b ← write_data b ptblock ptb;
  b ← touch_block b ptblock;
  b ← touch_block b newblock;
  unref_block b newblock.

(** The block of keys is full. *)
Definition add_full (b : B) (cpi : CamelPartitionTable) (ptblock : ptr) (index : Z) (block : ptr) (hashid keyid : Z)
    : res (B * CamelPartitionTable * bool) :=
  ptb ← block_data b ptblock;
  '(b, r) ← get_neighbours b ptb index;
  match r with
  | None => Ok (b, cpi, false)
  | Some (pblock, nblock) =>
      pkb ← room_in b pblock;
      nkb ← room_in b nblock;
      match choose_neighbour pkb nkb, pblock, nblock with
      | Some true, _, Some newblock =>
          b ← unref_opt b pblock;
          b ← share_keys b ptblock index (index + 1) block newblock hashid keyid;
          Ok (b, cpi, true)
      | Some false, Some newblock, _ =>
          b ← unref_opt b nblock;
          b ← share_keys b ptblock index (index - 1) block newblock hashid keyid;
          Ok (b, cpi, true)
      | _, _, _ =>
          '(b, cpi, r) ← split_partition b cpi ptblock index;
          b ← unref_opt b nblock;
          b ← unref_opt b pblock;
          match r with
          | None => Ok (b, cpi, false)
          | Some (ptblock, index, newblock) =>
              b ← share_keys b ptblock index (index + 1) block newblock hashid keyid;
              Ok (b, cpi, true)
          end
      end
  end.

(** When it fails, the reference to the block of keys stays. *)
Definition camel_partition_table_add (b : B) (cpi : CamelPartitionTable) (key : list Z) (keyid : Z)
    : res (B * CamelPartitionTable * Z) :=
  let hashid := hash_key key in
  '(b, r) ← get_key_block b cpi hashid;
  match r with
  | None => Ok (b, cpi, -1)
  | Some (ptblock, index, block) =>
      kb ← block_data b block;
      used ← key_used kb;
      '(b, cpi, ok) ←
        (if used <? key_slots then
           kb ← append_key kb hashid keyid;
           b ← write_data b block kb;
           Ok (b, cpi, true)
         else add_full b cpi ptblock index block hashid keyid);
      if (ok : bool) then
        b ← touch_block b block;
        b ← unref_block b block;
        Ok (b, cpi, 0)
      else Ok (b, cpi, -1)
  end.
End table.
