(* ===== verification/PartitionDataSpec.v ===== *)
(** * Partition tables: what the blocks hold, and ranges of hashes

    The words of a block as the list of its keys or partitions, and what the operations on the
    words do to these lists. *)

From S2P Require Import Prelude BlockStore BlockStoreSpec PartitionTable.
From stdpp Require Import gmap.
#[local] Open Scope Z_scope.
#[local] Open Scope list_scope.

(** The [i]-th pair of the array that begins at word [o]. *)
Definition slot (o : nat) (d : list Z) (i : nat) : Z * Z := (d !!! (o + 2 * i)%nat, d !!! (o + 2 * i + 1)%nat).
Definition slots (o : nat) (d : list Z) (i n : nat) : list (Z * Z) := map (slot o d) (seq i n).

Definition keys_of (d : list Z) : list (Z * Z) := slots 1 d 0 (Z.to_nat (d !!! 0%nat)).
Definition parts_of (d : list Z) : list (Z * Z) := slots 2 d 0 (Z.to_nat (d !!! 1%nat)).

(** A block with at most 127 pairs. *)
Definition block_ok (d : list Z) (used : nat) : Prop := length d = block_words /\ 0 <= d !!! used <= 127.

(** ** Pairs *)

(** Writing the pair [i]. *)
Definition put_slot (o : nat) (d : list Z) (i : nat) (e : Z * Z) : list Z :=
  <[(o + 2 * i + 1)%nat := e.2]> (<[(o + 2 * i)%nat := e.1]> d).

Lemma put_slot_length o d i e : length (put_slot o d i e) = length d.
Proof. unfold put_slot. by rewrite !length_insert. Qed.

Lemma put_slot_header o d i e k : (k < o)%nat -> put_slot o d i e !!! k = d !!! k.
Proof. intros Hk. unfold put_slot. by rewrite !get_insert_ne by lia. Qed.

Lemma slot_put_eq o d i e : (o + 2 * i + 1 < length d)%nat -> slot o (put_slot o d i e) i = e.
Proof.
  intros Hi. unfold slot, put_slot. rewrite get_insert_ne by lia.
  rewrite !get_insert_eq by (rewrite ?length_insert; lia). by destruct e.
Qed.

Lemma slot_put_ne o d i j e : i <> j -> slot o (put_slot o d i e) j = slot o d j.
Proof. intros Hi. unfold slot, put_slot. by rewrite !get_insert_ne by lia. Qed.

Lemma slot_header o d k v j : (k < o)%nat -> slot o (<[k := v]> d) j = slot o d j.
Proof. intros Hk. unfold slot. by rewrite !get_insert_ne by lia. Qed.

Lemma key_at_slot d i : length d = block_words -> (i < 127)%nat -> key_at d (Z.of_nat i) = Ok (slot 1 d i).
Proof.
  intros Hd Hi. unfold key_at, key_slots. destruct ((0 <=? _) && _) eqn:E; [|lia].
  rewrite !word_at by (done || lia). rewrite !res_bind_Ok. unfold slot. do 3 f_equal; lia.
Qed.

Lemma part_at_slot d i : length d = block_words -> (i < 127)%nat -> part_at d (Z.of_nat i) = Ok (slot 2 d i).
Proof.
  intros Hd Hi. unfold part_at, part_slots. destruct ((0 <=? _) && _) eqn:E; [|lia].
  rewrite !word_at by (done || lia). rewrite !res_bind_Ok. unfold slot. do 3 f_equal; lia.
Qed.

Lemma set_key_slot d i e : length d = block_words -> (i < 127)%nat -> set_key d (Z.of_nat i) e = Ok (put_slot 1 d i e).
Proof.
  intros Hd Hi. unfold set_key, key_slots. destruct ((0 <=? _) && _) eqn:E; [|lia].
  rewrite set_word_at by (done || lia). rewrite res_bind_Ok, set_word_at by (rewrite ?length_insert; done || lia).
  unfold put_slot. do 2 f_equal; [lia|]. f_equal. lia.
Qed.

Lemma set_part_slot d i e : length d = block_words -> (i < 127)%nat -> set_part d (Z.of_nat i) e = Ok (put_slot 2 d i e).
Proof.
  intros Hd Hi. unfold set_part, part_slots. destruct ((0 <=? _) && _) eqn:E; [|lia].
  rewrite set_word_at by (done || lia). rewrite res_bind_Ok, set_word_at by (rewrite ?length_insert; done || lia).
  unfold put_slot. do 2 f_equal; [lia|]. f_equal. lia.
Qed.

(** ** Lists of pairs *)

Lemma slots_length o d i n : length (slots o d i n) = n.
Proof. unfold slots. by rewrite length_map, length_seq. Qed.

Lemma slots_lookup o d i n j : (j < n)%nat -> slots o d i n !! j = Some (slot o d (i + j)).
Proof. intros Hj. unfold slots. rewrite list_lookup_fmap, lookup_seq_lt by done. done. Qed.

Lemma slots_ext o d d' i n : (forall j, (i <= j < i + n)%nat -> slot o d' j = slot o d j) -> slots o d' i n = slots o d i n.
Proof. intros Hs. unfold slots. apply map_ext_in. intros j Hj%in_seq. by apply Hs. Qed.

Lemma slots_shift o d d' i n : (forall j, (i <= j < i + n)%nat -> slot o d' (S j) = slot o d j) ->
  slots o d' (S i) n = slots o d i n.
Proof. intros Hs. unfold slots. rewrite <- seq_shift, map_map. apply map_ext_in. intros j Hj%in_seq. by apply Hs. Qed.

Lemma slots_app o d i n m : slots o d i (n + m) = slots o d i n ++ slots o d (i + n) m.
Proof. unfold slots. by rewrite seq_app, map_app. Qed.

Lemma slots_1 o d i : slots o d i 1 = [slot o d i].
Proof. reflexivity. Qed.

Lemma slots_cons o d i n : slots o d i (S n) = slot o d i :: slots o d (S i) n.
Proof. reflexivity. Qed.

Lemma slots_take o d i n m : (m <= n)%nat -> take m (slots o d i n) = slots o d i m.
Proof.
  intros Hm. replace n with (m + (n - m))%nat by lia. rewrite slots_app.
  rewrite take_app_le by (rewrite slots_length; lia). apply take_ge. rewrite slots_length. lia.
Qed.

Lemma slots_drop o d i n m : (m <= n)%nat -> drop m (slots o d i n) = slots o d (i + m) (n - m).
Proof.
  intros Hm. replace n with (m + (n - m))%nat at 1 by lia. rewrite slots_app.
  by rewrite drop_app_length' by (by rewrite slots_length).
Qed.

(** Writing a list of pairs from [i] on. *)
Fixpoint put_slots (o : nat) (d : list Z) (i : nat) (es : list (Z * Z)) : list Z :=
  match es with
  | [] => d
  | e :: es => put_slots o (put_slot o d i e) (S i) es
  end.

Lemma put_slots_length o d i es : length (put_slots o d i es) = length d.
Proof. revert d i. induction es as [|e es IH]; intros d i; [done|]. cbn. by rewrite IH, put_slot_length. Qed.

Lemma put_slots_header o d i es k : (k < o)%nat -> put_slots o d i es !!! k = d !!! k.
Proof.
  intros Hk. revert d i. induction es as [|e es IH]; intros d i; [done|]. cbn. by rewrite IH, put_slot_header.
Qed.

Lemma slot_put_before o d i es j : (j < i)%nat -> slot o (put_slots o d i es) j = slot o d j.
Proof.
  revert d i. induction es as [|e es IH]; intros d i Hj; [done|]. cbn. rewrite IH by lia. by rewrite slot_put_ne by lia.
Qed.

Lemma slot_put_behind o d i es j : (i + length es <= j)%nat -> slot o (put_slots o d i es) j = slot o d j.
Proof.
  revert d i. induction es as [|e es IH]; intros d i Hj; [done|]. cbn in *. rewrite IH by lia. by rewrite slot_put_ne by lia.
Qed.

Lemma slots_put o d i es : (o + 2 * (i + length es) <= length d)%nat -> slots o (put_slots o d i es) i (length es) = es.
Proof.
  revert d i. induction es as [|e es IH]; intros d i Hl; [done|]. cbn [length put_slots] in *. rewrite slots_cons.
  rewrite slot_put_before by lia. rewrite slot_put_eq by lia. f_equal. apply IH. rewrite put_slot_length. lia.
Qed.

(** ** Keys *)

Lemma keys_of_length d : length (keys_of d) = Z.to_nat (d !!! 0%nat).
Proof. apply slots_length. Qed.

Lemma key_used_ok d : block_ok d 0 -> key_used d = Ok (Z.of_nat (length (keys_of d))).
Proof.
  intros [Hd Hu]. unfold key_used. rewrite word_at by (done || lia). rewrite keys_of_length.
  change (Z.to_nat 0) with 0%nat. f_equal. lia.
Qed.

Lemma get_keys_ok d n i : length d = block_words -> (i + n <= 127)%nat -> get_keys n d (Z.of_nat i) = Ok (slots 1 d i n).
Proof.
  intros Hd. revert i. induction n as [|n IH]; intros i Hi; [done|]. cbn [get_keys]. rewrite key_at_slot by (done || lia).
  rewrite res_bind_Ok. replace (Z.of_nat i + 1) with (Z.of_nat (S i)) by lia. rewrite IH by lia. done.
Qed.

Lemma all_keys_ok d : block_ok d 0 -> all_keys d = Ok (keys_of d).
Proof.
  intros Hd. unfold all_keys. rewrite key_used_ok by done. rewrite res_bind_Ok, Nat2Z.id. destruct Hd as [Hd Hu].
  change 0 with (Z.of_nat 0). rewrite get_keys_ok; [by rewrite keys_of_length|done|rewrite keys_of_length; lia].
Qed.

(** The words with other keys. *)
Definition with_keys (d : list Z) (ks : list (Z * Z)) : list Z := <[0%nat := Z.of_nat (length ks)]> (put_slots 1 d 0 ks).

Lemma with_keys_ok d ks : length d = block_words -> (length ks <= 127)%nat -> block_ok (with_keys d ks) 0 /\ keys_of (with_keys d ks) = ks.
Proof.
  intros Hd Hk. unfold with_keys, block_ok. assert (length (put_slots 1 d 0 ks) = block_words) as Hl by by rewrite put_slots_length.
  rewrite length_insert, Hl. rewrite get_insert_eq by (rewrite Hl; unfold block_words; lia). split; [split; [done|lia]|].
  unfold keys_of. rewrite get_insert_eq by (rewrite Hl; unfold block_words; lia). rewrite Nat2Z.id.
  rewrite (slots_ext _ (put_slots 1 d 0 ks)) by (intros j _; by rewrite slot_header by lia).
  apply slots_put. rewrite Hd. unfold block_words. lia.
Qed.

Lemma put_keys_ok d ks i : length d = block_words -> (i + length ks <= 127)%nat ->
  put_keys ks d (Z.of_nat i) = Ok (put_slots 1 d i ks).
Proof.
  revert d i. induction ks as [|k ks IH]; intros d i Hd Hi; [done|]. cbn [put_keys put_slots length] in *.
  rewrite set_key_slot by (done || lia). rewrite res_bind_Ok. replace (Z.of_nat i + 1) with (Z.of_nat (S i)) by lia.
  apply IH; [by rewrite put_slot_length|lia].
Qed.

Lemma store_keys_ok d ks : length d = block_words -> (length ks <= 127)%nat -> store_keys d ks = Ok (with_keys d ks).
Proof.
  intros Hd Hk. unfold store_keys. change 0 with (Z.of_nat 0). rewrite put_keys_ok by (done || lia). rewrite res_bind_Ok.
  unfold set_key_used. rewrite set_word_at by (rewrite ?put_slots_length; done || lia). done.
Qed.

Lemma append_key_ok d h k : block_ok d 0 -> (length (keys_of d) < 127)%nat ->
  exists d', append_key d h k = Ok d' /\ block_ok d' 0 /\ keys_of d' = keys_of d ++ [(h, k)].
Proof.
  intros Hd Hl. unfold append_key. rewrite key_used_ok, res_bind_Ok by done. pose proof Hd as [Hw Hu].
  set (n := length (keys_of d)) in *. rewrite set_key_slot, res_bind_Ok by done. unfold set_key_used.
  assert (length (put_slot 1 d n (h, k)) = block_words) as Hw' by by rewrite put_slot_length.
  rewrite set_word_at by (done || lia). eexists. split; [done|]. change (Z.to_nat 0) with 0%nat.
  assert (<[0%nat := Z.of_nat n + 1]> (put_slot 1 d n (h, k)) !!! 0%nat = Z.of_nat n + 1) as E0
    by (apply get_insert_eq; rewrite Hw'; unfold block_words; lia).
  split; [split; [by rewrite length_insert|rewrite E0; lia]|].
  unfold keys_of at 1. rewrite E0. replace (Z.to_nat (Z.of_nat n + 1)) with (n + 1)%nat by lia.
  rewrite (slots_ext _ (put_slot 1 d n (h, k))) by (intros j _; by rewrite slot_header by lia).
  rewrite slots_app, slots_1. cbn [plus]. rewrite slot_put_eq by (rewrite Hw; unfold block_words; lia). f_equal.
  rewrite (slots_ext _ d) by (intros j Hj; by rewrite slot_put_ne by lia).
  unfold keys_of. by rewrite <- keys_of_length.
Qed.

(** Looking for a hash. *)
Lemma find_key_ok d h n i : length d = block_words -> (i + n <= 127)%nat ->
  match find_key n d h (Z.of_nat i) with
  | Ok (Some j) => exists m, j = Z.of_nat (i + m) /\ (m < n)%nat /\ (slot 1 d (i + m)).1 = h
  | Ok None => h ∉ (slots 1 d i n).*1
  | _ => False
  end.
Proof.
  intros Hd. revert i. induction n as [|n IH]; intros i Hi; [by intros ?%elem_of_nil|]. cbn [find_key].
  rewrite key_at_slot, res_bind_Ok by (done || lia). destruct (Z.eqb_spec (slot 1 d i).1 h) as [E|Hne].
  - exists 0%nat. rewrite Nat.add_0_r. split; [done|]. split; [lia|done].
  - replace (Z.of_nat i + 1) with (Z.of_nat (S i)) by lia. specialize (IH (S i) ltac:(lia)).
    destruct (find_key n d h (Z.of_nat (S i))) as [[j|]| |]; try done.
    + destruct IH as (m & -> & Hm & E). exists (S m). rewrite <- Nat.add_succ_comm. split; [done|]. split; [lia|done].
    + rewrite slots_cons, fmap_cons. intros [->|Hin]%elem_of_cons; done.
Qed.

(** Removing the key [i]. *)
Lemma shift_keys_ok d n i : length d = block_words -> (i + n < 127)%nat ->
  shift_keys n d (Z.of_nat i) = Ok (put_slots 1 d i (slots 1 d (S i) n)).
Proof.
  revert d i. induction n as [|n IH]; intros d i Hd Hi; [done|]. cbn [shift_keys].
  replace (Z.of_nat i + 1) with (Z.of_nat (S i)) by lia. rewrite key_at_slot, res_bind_Ok by (done || lia).
  rewrite set_key_slot, res_bind_Ok by (done || lia). rewrite IH by (rewrite ?put_slot_length; done || lia).
  rewrite slots_cons. cbn [put_slots]. do 2 f_equal. apply slots_ext. intros j Hj. by rewrite slot_put_ne by lia.
Qed.

Lemma remove_key_ok d m : block_ok d 0 -> (m < length (keys_of d))%nat ->
  exists d', (pkb ← set_key_used d (Z.of_nat (length (keys_of d)) - 1);
              shift_keys (Z.to_nat (Z.of_nat (length (keys_of d)) - 1 - Z.of_nat m)) pkb (Z.of_nat m)) = Ok d' /\
    block_ok d' 0 /\ keys_of d' = delete m (keys_of d).
Proof.
  intros Hd Hm. pose proof Hd as [Hw Hu]. pose proof (keys_of_length d) as Hn. set (n := length (keys_of d)) in *.
  unfold set_key_used. rewrite set_word_at, res_bind_Ok by (done || lia). change (Z.to_nat 0) with 0%nat.
  set (d1 := <[0%nat := Z.of_nat n - 1]> d). assert (length d1 = block_words) as Hw1 by by unfold d1; rewrite length_insert.
  rewrite shift_keys_ok by (done || lia). eexists. split; [done|].
  set (d2 := put_slots 1 d1 m _). assert (d2 !!! 0%nat = Z.of_nat n - 1) as E0.
  { unfold d2. rewrite put_slots_header by lia. apply get_insert_eq. rewrite Hw. unfold block_words. lia. }
  split; [split; [by unfold d2; rewrite put_slots_length|rewrite E0; lia]|].
  unfold keys_of at 1. rewrite E0. replace (Z.to_nat (Z.of_nat n - 1)) with (m + (n - 1 - m))%nat by lia.
  rewrite slots_app. rewrite delete_take_drop. f_equal.
  - unfold keys_of. rewrite <- Hn, slots_take by lia. apply slots_ext. intros j Hj. unfold d2. rewrite slot_put_before by lia.
    unfold d1. by rewrite slot_header by lia.
  - unfold d2. replace (Z.to_nat (Z.of_nat n - 1 - Z.of_nat m)) with (n - 1 - m)%nat by lia. cbn [plus].
    pose proof (slots_put 1 d1 m (slots 1 d1 (S m) (n - 1 - m))) as Hs. rewrite slots_length in Hs.
    rewrite Hs by (rewrite Hw1; unfold block_words; lia). unfold keys_of. rewrite <- Hn, slots_drop by lia.
    replace (n - S m)%nat with (n - 1 - m)%nat by lia. apply slots_ext. intros j _. unfold d1. by rewrite slot_header by lia.
Qed.

(** ** Partitions *)

Lemma parts_of_length d : length (parts_of d) = Z.to_nat (d !!! 1%nat).
Proof. apply slots_length. Qed.

Lemma part_used_ok d : block_ok d 1 -> part_used d = Ok (Z.of_nat (length (parts_of d))).
Proof.
  intros [Hd Hu]. unfold part_used. rewrite word_at by (done || lia). rewrite parts_of_length.
  change (Z.to_nat 1) with 1%nat. f_equal. lia.
Qed.

Lemma part_next_ok d : length d = block_words -> part_next d = Ok (d !!! 0%nat).
Proof. intros Hd. unfold part_next. by rewrite word_at by (done || lia). Qed.

Lemma parts_lookup d i : block_ok d 1 -> (i < length (parts_of d))%nat -> parts_of d !! i = Some (slot 2 d i).
Proof. intros [Hd Hu] Hi. rewrite parts_of_length in Hi. unfold parts_of. by rewrite slots_lookup. Qed.

Lemma part_at_ok d i e : block_ok d 1 -> parts_of d !! i = Some e -> part_at d (Z.of_nat i) = Ok e.
Proof.
  intros Hd Hi. pose proof (lookup_lt_Some _ _ _ Hi) as Hl. rewrite parts_lookup in Hi by done. injection Hi as <-.
  rewrite parts_of_length in Hl. destruct Hd as [Hd Hu]. apply part_at_slot; [done|lia].
Qed.

(** A block of the map by its header and the pairs in it. *)
Lemma parts_block d n es : length d = block_words -> d !!! 1%nat = Z.of_nat n -> (n <= 127)%nat ->
  slots 2 d 0 n = es -> block_ok d 1 /\ parts_of d = es.
Proof. intros Hd E Hn Hs. split; [split; [done|lia]|]. unfold parts_of. by rewrite E, Nat2Z.id. Qed.

Lemma move_parts_ok d a n : length d = block_words -> (a + n < 127)%nat ->
  exists d', move_parts n d (Z.of_nat a + Z.of_nat n - 1) = Ok d' /\ length d' = block_words /\
    (forall k, (k < 2)%nat -> d' !!! k = d !!! k) /\
    forall j, slot 2 d' j = if (a <? j)%nat && (j <=? a + n)%nat then slot 2 d (j - 1) else slot 2 d j.
Proof.
  revert d. induction n as [|n IH]; intros d Hd Hn.
  - exists d. split; [done|]. split; [done|]. split; [done|]. intros j.
    destruct (Nat.ltb_spec a j), (Nat.leb_spec j (a + 0)); try done. lia.
  - cbn [move_parts]. replace (Z.of_nat a + Z.of_nat (S n) - 1) with (Z.of_nat (a + n)) by lia.
    rewrite part_at_slot, res_bind_Ok by (done || lia).
    replace (Z.of_nat (a + n) + 1) with (Z.of_nat (S (a + n))) by lia. rewrite set_part_slot, res_bind_Ok by (done || lia).
    replace (Z.of_nat (a + n) - 1) with (Z.of_nat a + Z.of_nat n - 1) by lia.
    destruct (IH (put_slot 2 d (S (a + n)) (slot 2 d (a + n)))) as (d' & -> & Hd' & Hh & Hs);
      [by rewrite put_slot_length|lia|]. exists d'. split; [done|]. split; [done|]. split.
    + intros k Hk. by rewrite Hh, put_slot_header.
    + intros j. rewrite Hs. destruct (Nat.ltb_spec a j), (Nat.leb_spec j (a + n)), (Nat.leb_spec j (a + S n)); cbn [andb]; try lia;
        try (rewrite slot_put_ne by lia; done).
      assert (j = S (a + n)) as -> by lia. rewrite slot_put_eq by (rewrite Hd; unfold block_words; lia). f_equal. lia.
Qed.

Lemma insert_part_ok d i e id : block_ok d 1 -> parts_of d !! i = Some e -> (length (parts_of d) < 127)%nat ->
  exists d', insert_part d (Z.of_nat i) id = Ok d' /\ block_ok d' 1 /\ d' !!! 0%nat = d !!! 0%nat /\
    parts_of d' = take (S i) (parts_of d) ++ (e.1, id) :: drop (S i) (parts_of d).
Proof.
  intros Hd Hi Hl. pose proof (lookup_lt_Some _ _ _ Hi) as Hil. unfold insert_part. rewrite part_used_ok, res_bind_Ok by done.
  pose proof (parts_of_length d) as Hn. set (n := length (parts_of d)) in *. pose proof Hd as [Hw Hu].
  replace (Z.of_nat n - 1) with (Z.of_nat (S i) + Z.of_nat (n - S i) - 1) by lia.
  replace (Z.to_nat (Z.of_nat (S i) + Z.of_nat (n - S i) - 1 - Z.of_nat i)) with (n - S i)%nat by lia.
  destruct (move_parts_ok d (S i) (n - S i) Hw ltac:(lia)) as (d1 & -> & Hw1 & Hh1 & Hs1). rewrite res_bind_Ok.
  unfold set_part_used. rewrite set_word_at, res_bind_Ok by (done || lia). change (Z.to_nat 1) with 1%nat.
  set (d2 := <[1%nat := Z.of_nat n + 1]> d1). assert (length d2 = block_words) as Hw2 by by unfold d2; rewrite length_insert.
  assert (slot 2 d2 i = e) as Ei.
  { unfold d2. rewrite slot_header, Hs1 by lia. destruct (Nat.ltb_spec (S i) i); [lia|]. cbn [andb].
    rewrite parts_lookup in Hi by done. by injection Hi. }
  rewrite part_at_slot, res_bind_Ok, Ei by (done || lia). replace (Z.of_nat i + 1) with (Z.of_nat (S i)) by lia.
  rewrite set_part_slot by (done || lia). eexists. split; [done|].
  assert (d2 !!! 1%nat = Z.of_nat n + 1) as E1 by (apply get_insert_eq; rewrite Hw1; unfold block_words; lia).
  assert (forall k, (k < 2)%nat -> put_slot 2 d2 (S i) (e.1, id) !!! k = d2 !!! k) as Hh3 by (intros k Hk; by apply put_slot_header).
  split; [split; [by rewrite put_slot_length|rewrite Hh3 by lia; lia]|].
  split; [rewrite Hh3 by lia; unfold d2; rewrite get_insert_ne, Hh1 by lia; done|].
  unfold parts_of at 1. rewrite Hh3, E1 by lia. replace (Z.to_nat (Z.of_nat n + 1)) with (S i + (1 + (n - S i)))%nat by lia.
  rewrite !slots_app, slots_1. cbn [plus]. rewrite slot_put_eq by (rewrite Hw2; unfold block_words; lia).
  unfold parts_of. rewrite <- Hn, slots_take, slots_drop by lia. f_equal; [|cbn [app]; f_equal].
  - apply slots_ext. intros j Hj. rewrite slot_put_ne by lia. unfold d2. rewrite slot_header, Hs1 by lia.
    destruct (Nat.ltb_spec (S i) j); [lia|done].
  - replace (i + 1)%nat with (S i) by lia. apply slots_shift. intros j Hj.
    rewrite slot_put_ne by lia. unfold d2. rewrite slot_header, Hs1 by lia.
    destruct (Nat.ltb_spec (S i) (S j)), (Nat.leb_spec (S j) (S i + (n - S i))); cbn [andb]; try lia. f_equal. lia.
Qed.

Lemma set_part_hash_ok d i e h : block_ok d 1 -> parts_of d !! i = Some e ->
  exists d', set_part_hash d (Z.of_nat i) h = Ok d' /\ block_ok d' 1 /\ d' !!! 0%nat = d !!! 0%nat /\
    parts_of d' = <[i := (h, e.2)]> (parts_of d).
Proof.
  intros Hd Hi. pose proof (lookup_lt_Some _ _ _ Hi) as Hil. pose proof (parts_of_length d) as Hn. pose proof Hd as [Hw Hu].
  unfold set_part_hash. rewrite (part_at_ok d i e), res_bind_Ok by done. rewrite set_part_slot by (done || lia).
  eexists. split; [done|]. assert (put_slot 2 d i (h, e.2) !!! 1%nat = d !!! 1%nat) as E1 by by apply put_slot_header; lia.
  split; [split; [by rewrite put_slot_length|by rewrite E1]|]. split; [apply put_slot_header; lia|].
  assert (length (parts_of (put_slot 2 d i (h, e.2))) = length (parts_of d)) as El by by rewrite !parts_of_length, E1.
  apply list_eq. intros j. destruct (decide (j = i)) as [->|Hj].
  - rewrite list_lookup_insert_eq by done. unfold parts_of. rewrite E1, slots_lookup by lia. cbn [plus].
    by rewrite slot_put_eq by (rewrite Hw; unfold block_words; lia).
  - rewrite list_lookup_insert_ne by done. destruct (decide (j < length (parts_of d))%nat) as [Hlt|Hge].
    + unfold parts_of. rewrite E1, !slots_lookup by lia. cbn [plus]. by rewrite slot_put_ne.
    + by rewrite !lookup_ge_None_2 by lia.
Qed.

(** Dividing a block of the map at [n]. *)
Lemma copy_parts_ok from n len to i : length from = block_words -> length to = block_words ->
  (len + i + n <= 127)%nat -> (i + n <= 127)%nat ->
  copy_parts n from (Z.of_nat len) to (Z.of_nat i) = Ok (put_slots 2 to i (slots 2 from (len + i) n)).
Proof.
  intros Hf. revert to i. induction n as [|n IH]; intros to i Ht Hl Hi; [done|]. cbn [copy_parts].
  replace (Z.of_nat len + Z.of_nat i) with (Z.of_nat (len + i)) by lia.
  rewrite part_at_slot, res_bind_Ok by (done || lia). rewrite set_part_slot, res_bind_Ok by (done || lia).
  replace (Z.of_nat i + 1) with (Z.of_nat (S i)) by lia. rewrite IH by (rewrite ?put_slot_length; done || lia).
  rewrite slots_cons. cbn [put_slots]. by rewrite Nat.add_succ_r.
Qed.

(** The words of the old block and of the new one. *)
Lemma split_words_ok ptb ptn id : block_ok ptb 1 -> length ptn = block_words ->
  let n := length (parts_of ptb) in
  exists ptb' ptn',
    (next ← part_next ptb;
     ptn ← set_part_next ptn next;
     ptb ← set_part_next ptb id;
     used ← part_used ptb;
     let len := used / 2 in
     ptn ← set_part_used ptn (used - len);
     ptb ← set_part_used ptb len;
     ptn ← copy_parts (Z.to_nat (used - len)) ptb len ptn 0;
     Ok (ptb, ptn)) = Ok (ptb', ptn') /\
    block_ok ptb' 1 /\ block_ok ptn' 1 /\ parts_of ptb' = take (n / 2) (parts_of ptb) /\
    parts_of ptn' = drop (n / 2) (parts_of ptb) /\ ptb' !!! 0%nat = id /\ ptn' !!! 0%nat = ptb !!! 0%nat.
Proof.
  intros Hb Hn n. pose proof Hb as [Hw Hu]. pose proof (parts_of_length ptb) as El. fold n in El.
  rewrite part_next_ok, res_bind_Ok by done. unfold set_part_next, set_part_used.
  rewrite (set_word_at ptn), res_bind_Ok by (done || lia). rewrite (set_word_at ptb), res_bind_Ok by (done || lia).
  change (Z.to_nat 0) with 0%nat. set (ptn1 := <[0%nat := _]> ptn). set (ptb1 := <[0%nat := id]> ptb).
  assert (length ptn1 = block_words) as Hw1 by by unfold ptn1; rewrite length_insert.
  assert (length ptb1 = block_words) as Hw2 by by unfold ptb1; rewrite length_insert.
  assert (ptb1 !!! 1%nat = Z.of_nat n) as E1 by (unfold ptb1; rewrite get_insert_ne by lia; lia).
  assert (block_ok ptb1 1) as Hb1 by (split; [done|lia]).
  assert (forall j, slot 2 ptb1 j = slot 2 ptb j) as Hs1 by (intros j; by apply slot_header; lia).
  assert (parts_of ptb1 = parts_of ptb) as Ep by (unfold parts_of; rewrite E1, <- El, Nat2Z.id; by apply slots_ext).
  rewrite part_used_ok, res_bind_Ok by done. cbv zeta. rewrite Ep. fold n.
  replace (Z.of_nat n / 2) with (Z.of_nat (n / 2)) by (rewrite Nat2Z.inj_div; done).
  pose proof (Nat.Div0.div_le_upper_bound n 2 n ltac:(lia)) as Hh. set (h := (n / 2)%nat) in *.
  rewrite (set_word_at ptn1), res_bind_Ok by (done || lia). rewrite (set_word_at ptb1), res_bind_Ok by (done || lia).
  change (Z.to_nat 1) with 1%nat. set (ptn2 := <[1%nat := _]> ptn1). set (ptb2 := <[1%nat := _]> ptb1).
  assert (length ptn2 = block_words) as Hw3 by by unfold ptn2; rewrite length_insert.
  assert (length ptb2 = block_words) as Hw4 by by unfold ptb2; rewrite length_insert.
  replace (Z.to_nat (Z.of_nat n - Z.of_nat h)) with (n - h)%nat by lia.
  change 0 with (Z.of_nat 0) at 1. rewrite copy_parts_ok, res_bind_Ok by (done || lia).
  eexists _, _. split; [done|]. rewrite Nat.add_0_r.
  assert (forall j, slot 2 ptb2 j = slot 2 ptb j) as Hs2 by (intros j; unfold ptb2; by rewrite slot_header by lia).
  set (es := slots 2 ptb2 h (n - h)).
  assert (forall k, (k < 2)%nat -> put_slots 2 ptn2 0 es !!! k = ptn2 !!! k) as Hk by (intros k Hk; by apply put_slots_header).
  assert (length es = (n - h)%nat) as Hes by apply slots_length.
  destruct (parts_block ptb2 h (take h (parts_of ptb))) as [Hb2 Ep2]; [done|unfold ptb2; apply get_insert_eq; rewrite Hw2; unfold block_words; lia|lia| |].
  { unfold parts_of. rewrite <- El, slots_take by lia. by apply slots_ext. }
  destruct (parts_block (put_slots 2 ptn2 0 es) (n - h) (drop h (parts_of ptb))) as [Hb3 Ep3];
    [by rewrite put_slots_length| |lia| |].
  { rewrite Hk by lia. unfold ptn2. rewrite get_insert_eq by (rewrite Hw1; unfold block_words; lia). lia. }
  { rewrite <- Hes. rewrite slots_put by (rewrite Hw3, Hes; unfold block_words; lia).
    unfold parts_of. rewrite <- El, slots_drop by lia. unfold es. by apply slots_ext. }
  split; [done|]. split; [done|]. split; [done|]. split; [done|]. split.
  - unfold ptb2. rewrite get_insert_ne by lia. apply get_insert_eq. rewrite Hw. unfold block_words. lia.
  - rewrite Hk by lia. unfold ptn2. rewrite get_insert_ne by lia. apply get_insert_eq. rewrite Hn. unfold block_words. lia.
Qed.

(** * Partition tables: ranges of hashes

    The partitions of a table as a list of last hashes and blocks of keys, in order; what the
    blocks hold; and how adding a key and dividing keys among two blocks change that. *)

Implicit Types (C : Z -> list Z) (lo hi : Z) (e : Z * Z) (es ks : list (Z * Z)).

(** The keys of a block, all above [lo] and up to [hi]. *)
Definition keys_in lo hi (d : list Z) : Prop :=
  block_ok d 0 /\ Forall (fun k => lo < k.1 <= hi) (keys_of d) /\ NoDup (keys_of d).*1.

(** The blocks of the partitions [es], whose first begins above [lo]. *)
Fixpoint ranges C lo es : Prop :=
  match es with
  | [] => True
  | e :: es => lo < e.1 /\ keys_in lo e.1 (C e.2) /\ ranges C e.1 es
  end.

(** The last hash of [es]. *)
Fixpoint upto lo es : Z :=
  match es with
  | [] => lo
  | e :: es => upto e.1 es
  end.

(** All keys. *)
Definition flat C es : list (Z * Z) := concat (map (fun e => keys_of (C e.2)) es).

Lemma upto_app lo es es' : upto lo (es ++ es') = upto (upto lo es) es'.
Proof. revert lo. induction es as [|e es IH]; intros lo; [done|]. apply IH. Qed.

Lemma ranges_app C lo es es' : ranges C lo (es ++ es') <-> ranges C lo es /\ ranges C (upto lo es) es'.
Proof.
  revert lo. induction es as [|e es IH]; intros lo; cbn [app ranges upto]; [tauto|]. rewrite IH. tauto.
Qed.

Lemma flat_app C es es' : flat C (es ++ es') = flat C es ++ flat C es'.
Proof. unfold flat. by rewrite map_app, concat_app. Qed.

Lemma flat_cons C e es : flat C (e :: es) = keys_of (C e.2) ++ flat C es.
Proof. done. Qed.

Lemma ranges_ext C C' lo es : (forall i, i ∈ es.*2 -> C' i = C i) -> ranges C lo es -> ranges C' lo es.
Proof.
  revert lo. induction es as [|e es IH]; intros lo He; [done|]. cbn [ranges]. intros (Hlo & Hk & Hr).
  split; [done|]. split; [rewrite He; [done|apply list_elem_of_here]|]. apply IH; [|done].
  intros i Hi. apply He. by apply list_elem_of_further.
Qed.

Lemma flat_ext C C' es : (forall i, i ∈ es.*2 -> C' i = C i) -> flat C' es = flat C es.
Proof.
  induction es as [|e es IH]; intros He; [done|]. rewrite !flat_cons, He by apply list_elem_of_here. f_equal.
  apply IH. intros i Hi. apply He. by apply list_elem_of_further.
Qed.

Lemma ranges_upto C lo es : ranges C lo es -> lo <= upto lo es.
Proof.
  revert lo. induction es as [|e es IH]; intros lo; [cbn; lia|]. cbn [ranges upto]. intros (Hlo & _ & Hr).
  specialize (IH _ Hr). lia.
Qed.

Lemma ranges_flat C lo es : ranges C lo es -> Forall (fun k => lo < k.1 <= upto lo es) (flat C es).
Proof.
  revert lo. induction es as [|e es IH]; intros lo; [constructor|]. cbn [ranges upto]. intros (Hlo & (_ & Hk & _) & Hr).
  rewrite flat_cons. pose proof (ranges_upto _ _ _ Hr) as Hu. apply Forall_app. split.
  - eapply Forall_impl; [exact Hk|]. intros k. cbv beta. lia.
  - eapply Forall_impl; [by apply IH|]. intros k. cbv beta. lia.
Qed.

(** No hash occurs twice. *)
Lemma ranges_nodup C lo es : ranges C lo es -> NoDup (flat C es).*1.
Proof.
  revert lo. induction es as [|e es IH]; intros lo; [constructor|]. cbn [ranges]. intros (Hlo & (_ & Hk & Hn) & Hr).
  rewrite flat_cons, fmap_app. apply NoDup_app. split; [done|]. split; [|by apply (IH e.1)].
  intros h ([h1 v1] & -> & H1)%list_elem_of_fmap ([h2 v2] & E2 & H2)%list_elem_of_fmap. cbn in E2. subst h2.
  rewrite Forall_forall in Hk. pose proof (Hk _ H1) as Hk1. pose proof (ranges_flat _ _ _ Hr) as Hf.
  rewrite Forall_forall in Hf. pose proof (Hf _ H2) as Hk2. cbn in *. lia.
Qed.

(** Up to and from a partition on, last hashes are less, or not less, than a hash in it. *)
Lemma ranges_below C lo es e : ranges C lo es -> e ∈ es -> lo < e.1 <= upto lo es.
Proof.
  revert lo. induction es as [|e' es IH]; intros lo Hr He; [by apply elem_of_nil in He|]. cbn [ranges upto] in *.
  destruct Hr as (Hlo & _ & Hr). pose proof (ranges_upto _ _ _ Hr) as Hu. apply elem_of_cons in He as [->|He]; [lia|].
  specialize (IH _ Hr He). lia.
Qed.

(** Where a hash belongs. *)
Lemma ranges_split C lo es h : ranges C lo es -> lo < h <= upto lo es ->
  exists es1 e es2, es = es1 ++ e :: es2 /\ upto lo es1 < h <= e.1.
Proof.
  revert lo. induction es as [|e es IH]; intros lo; [cbn; lia|]. cbn [ranges upto]. intros (Hlo & _ & Hr) Hh.
  destruct (decide (h <= e.1)) as [Hle|Hgt]; [exists [], e, es; cbn; split; [done|lia]|].
  destruct (IH e.1 Hr ltac:(lia)) as (es1 & e' & es2 & -> & Hb). by exists (e :: es1), e', es2.
Qed.

(** The keys with the hash are in that block. *)
Lemma flat_here C lo es1 e es2 h v : ranges C lo (es1 ++ e :: es2) -> upto lo es1 < h <= e.1 ->
  (h, v) ∈ flat C (es1 ++ e :: es2) <-> (h, v) ∈ keys_of (C e.2).
Proof.
  intros Hr Hh. apply ranges_app in Hr as [H1 H2]. cbn [ranges] in H2. destruct H2 as (_ & _ & H2).
  rewrite flat_app, flat_cons, !elem_of_app. split; [|auto]. pose proof (ranges_flat _ _ _ H1) as F1.
  pose proof (ranges_flat _ _ _ H2) as F2. rewrite Forall_forall in F1, F2.
  intros [Hin|[Hin|Hin]]; [apply F1 in Hin; cbn in Hin; lia|done|apply F2 in Hin; cbn in Hin; lia].
Qed.

(** ** Changing the keys of one block *)

Lemma change_eq C i d : change C i d i = d.
Proof. unfold change. by rewrite Z.eqb_refl. Qed.
Lemma change_ne C i d j : j <> i -> change C i d j = C j.
Proof. intros Hj. unfold change. by destruct (Z.eqb_spec j i). Qed.

Lemma ids_apart es1 e es2 : NoDup (es1 ++ e :: es2).*2 -> forall i, i ∈ es1.*2 \/ i ∈ es2.*2 -> i <> e.2.
Proof.
  intros Hn i Hi ->. rewrite fmap_app, fmap_cons in Hn. apply NoDup_app in Hn as (_ & Hd & Hn).
  apply NoDup_cons in Hn as [Hn _]. destruct Hi as [Hi|Hi]; [|done]. apply (Hd _ Hi), list_elem_of_here.
Qed.

Lemma ranges_change C C' lo es1 e es2 : NoDup (es1 ++ e :: es2).*2 -> (forall i, i <> e.2 -> C' i = C i) ->
  ranges C lo (es1 ++ e :: es2) -> keys_in (upto lo es1) e.1 (C' e.2) ->
  ranges C' lo (es1 ++ e :: es2) /\ flat C' (es1 ++ e :: es2) = flat C es1 ++ keys_of (C' e.2) ++ flat C es2.
Proof.
  intros Hn Hc Hr Hk. pose proof (ids_apart es1 e es2 Hn) as Ha. apply ranges_app in Hr as [H1 H2]. cbn [ranges] in H2.
  assert (forall i, i ∈ es1.*2 -> C' i = C i) as E1 by (intros i Hi; apply Hc; auto).
  assert (forall i, i ∈ es2.*2 -> C' i = C i) as E2 by (intros i Hi; apply Hc; auto).
  split.
  - apply ranges_app. split; [by apply (ranges_ext C)|]. destruct H2 as (Hlo & _ & H2). split; [done|]. split; [done|].
    by apply (ranges_ext C).
  - by rewrite flat_app, flat_cons, (flat_ext C C' es1), (flat_ext C C' es2).
Qed.

(** ** Dividing keys among two blocks *)

Definition key_lt (a b : Z * Z) : Prop := a.1 < b.1.

Lemma keys_in_part lo hi d ks : block_ok d 0 -> keys_of d = ks -> Forall (fun k => lo < k.1 <= hi) ks ->
  StronglySorted key_lt ks -> keys_in lo hi d.
Proof.
  intros Hd Ek Hr Hs. split; [done|]. rewrite Ek. split; [done|]. clear Ek Hd.
  induction Hs as [|k ks _ IH Hk]; [constructor|]. cbn. apply Forall_cons in Hr as [_ Hr]. constructor.
  - intros ([h v] & E & Hin)%list_elem_of_fmap. rewrite Forall_forall in Hk. specialize (Hk _ Hin). unfold key_lt in Hk. cbn in *. lia.
  - by apply IH.
Qed.

Lemma sorted_halves ks n k : StronglySorted key_lt ks -> ks !! (n - 1)%nat = Some k -> (0 < n)%nat ->
  Forall (fun a => a.1 <= k.1) (take n ks) /\ Forall (fun a => k.1 < a.1) (drop n ks).
Proof.
  intros Hs Hk Hn.
  assert (take n ks = take (n - 1) ks ++ [k]) as Et by (rewrite <- (take_S_r ks (n - 1) k Hk); f_equal; lia).
  rewrite <- (take_drop n ks), Et in Hs. apply StronglySorted_app in Hs as (Hc & H1 & _). split.
  - rewrite Et. apply Forall_app. split; [|by repeat constructor]. apply Forall_forall. intros a Ha.
    apply StronglySorted_app in H1 as (Hc' & _ & _). pose proof (Hc' a k Ha (list_elem_of_here k [])) as Hlt. unfold key_lt in Hlt. lia.
  - apply Forall_forall. intros a Ha. apply (Hc k a); [|done]. apply elem_of_app. right. apply list_elem_of_here.
Qed.

(** The halves of [ks], in blocks with the ids [i1] and [i2]. *)
Lemma ranges_share C C' lo es1 es2 i1 i2 hi ks n k :
  ranges C lo es1 -> ranges C hi es2 -> upto lo es1 < hi ->
  (forall i, i ∈ es1.*2 \/ i ∈ es2.*2 -> C' i = C i) ->
  StronglySorted key_lt ks -> Forall (fun k => upto lo es1 < k.1 <= hi) ks ->
  (0 < n < length ks)%nat -> ks !! (n - 1)%nat = Some k ->
  block_ok (C' i1) 0 -> keys_of (C' i1) = take n ks -> block_ok (C' i2) 0 -> keys_of (C' i2) = drop n ks ->
  ranges C' lo (es1 ++ (k.1, i1) :: (hi, i2) :: es2) /\
  flat C' (es1 ++ (k.1, i1) :: (hi, i2) :: es2) = flat C es1 ++ ks ++ flat C es2.
Proof.
  intros H1 H2 Hhi Hc Hs Hr Hn Hk Hd1 E1 Hd2 E2. destruct (sorted_halves ks n k Hs Hk ltac:(lia)) as [Hle Hgt].
  pose proof (take_drop n ks) as Etd. pose proof Hs as Hs'. rewrite <- Etd in Hs', Hr. apply Forall_app in Hr as [Hr1 Hr2].
  apply StronglySorted_app in Hs' as (_ & Hs1 & Hs2).
  assert (upto lo es1 < k.1 < hi) as Hkb.
  { rewrite Forall_forall in Hr1, Hr2, Hgt. assert (k ∈ take n ks) as Hin by (apply elem_of_take; exists (n - 1)%nat; split; [done|lia]).
    specialize (Hr1 k Hin). destruct (lookup_lt_is_Some_2 ks n) as [a Ha]; [lia|].
    assert (a ∈ drop n ks) as Hina by (apply (list_elem_of_lookup_2 _ 0); by rewrite lookup_drop, Nat.add_0_r).
    specialize (Hr2 a Hina). specialize (Hgt a Hina). lia. }
  split.
  - apply ranges_app. split; [apply (ranges_ext C); auto|]. cbn [ranges fst snd]. split; [lia|]. split; [|split; [lia|split]].
    + apply (keys_in_part _ _ _ (take n ks)); [done|done| |done]. apply Forall_forall. intros a Ha.
      rewrite Forall_forall in Hr1, Hle. specialize (Hr1 a Ha). specialize (Hle a Ha). lia.
    + apply (keys_in_part _ _ _ (drop n ks)); [done|done| |done]. apply Forall_forall. intros a Ha.
      rewrite Forall_forall in Hr2, Hgt. specialize (Hr2 a Ha). specialize (Hgt a Ha). lia.
    + apply (ranges_ext C); auto.
  - rewrite flat_app, !flat_cons. cbn [snd]. rewrite E1, E2, (flat_ext C C' es1), (flat_ext C C' es2) by auto.
    rewrite (app_assoc (take n ks)). by rewrite Etd.
Qed.

(** ** Lists of keys as maps *)

(** The map [m] has the keys of [ks]. *)
Definition map_of (m : gmap Z Z) ks : Prop := forall h k, m !! h = Some k <-> (h, k) ∈ ks.

Lemma map_of_perm m ks ks' : ks ≡ₚ ks' -> map_of m ks -> map_of m ks'.
Proof. intros Hp Hm h k. by rewrite <- Hp. Qed.

Lemma map_of_fst m ks h : map_of m ks -> m !! h = None <-> ~ h ∈ ks.*1.
Proof.
  intros Hm. split.
  - intros Hn ([h' k] & -> & Hin)%list_elem_of_fmap. apply Hm in Hin. cbn in Hn. congruence.
  - intros Hn. destruct (m !! h) as [k|] eqn:E; [|done]. apply Hm in E. destruct Hn. apply list_elem_of_fmap. by exists (h, k).
Qed.

Lemma map_of_insert m ks ks' h k : map_of m ks -> m !! h = None -> ks' ≡ₚ (h, k) :: ks -> map_of (<[h := k]> m) ks'.
Proof.
  intros Hm Hn Hp h' k'. rewrite Hp, elem_of_cons, lookup_insert_Some, (Hm h' k'). split.
  - intros [[-> ->]|[_ Hin]]; auto.
  - intros [[= -> ->]|Hin]; [by left|right]. split; [|done]. intros ->. apply Hm in Hin. congruence.
Qed.

Lemma map_of_delete m ks ks' h k : map_of m ks -> NoDup ks.*1 -> ks ≡ₚ (h, k) :: ks' -> map_of (delete h m) ks'.
Proof.
  intros Hm Hn Hp h' k'. rewrite lookup_delete_Some, (Hm h' k'), Hp, elem_of_cons.
  assert (NoDup ((h, k) :: ks').*1) as Hn' by by rewrite <- Hp. cbn in Hn'. apply NoDup_cons in Hn' as [Hh _]. split.
  - intros [Hne [[= -> ->]|Hin]]; done.
  - intros Hin. split; [|by right]. intros ->. apply Hh, list_elem_of_fmap. by exists (h', k').
Qed.

Lemma keys_in_delete lo hi d d' n : keys_in lo hi d -> block_ok d' 0 -> keys_of d' = delete n (keys_of d) -> keys_in lo hi d'.
Proof.
  intros (_ & Hr & Hn) Hd E. split; [done|]. rewrite E. split.
  - apply Forall_delete, Hr.
  - rewrite list_fmap_delete. revert Hn. generalize (keys_of d).*1. clear. intros l Hn. revert n.
    induction Hn as [|a l Ha Hn IH]; intros [|n]; cbn; [constructor|constructor|done|]. constructor; [|apply IH].
    intros Hin. apply Ha. eapply elem_of_sublist; [exact Hin|apply sublist_delete].
Qed.

Lemma keys_in_append lo hi d d' h k : keys_in lo hi d -> block_ok d' 0 -> keys_of d' = keys_of d ++ [(h, k)] ->
  lo < h <= hi -> ~ h ∈ (keys_of d).*1 -> keys_in lo hi d'.
Proof.
  intros (_ & Hr & Hn) Hd E Hh Hni. split; [done|]. rewrite E. split.
  - apply Forall_app. split; [done|]. constructor; [exact Hh|constructor].
  - rewrite fmap_app. apply NoDup_app. split; [done|]. split; [|apply NoDup_singleton].
    intros h' Hin ->%list_elem_of_singleton. done.
Qed.
