(* ===== verification/PartitionTableSpec.v ===== *)
(** * Partition tables: a finite map

    The table implements a map from hashes to key ids, as long as no two keys have the same
    hash; the interface of the blocks is all that the proofs need. *)

From stdpp Require Import gmap.
From S2P Require Import Prelude BlockStore BlockStoreSpec PartitionTable PartitionDataSpec.
#[local] Open Scope Z_scope.
#[local] Open Scope list_scope.

(** ** The binary search *)

(** The search with the comparisons replaced by the place that is looked for. *)
Fixpoint place_search (fuel : nat) (used t index jump : Z) : res Z :=
  match fuel with
  | O => NoFuel
  | S fuel =>
      let jump' := if jump / 2 =? 0 then 1 else jump / 2 in
      if (index <? 0) || (used <=? index) then Undef
      else if t <=? index then
        if (index =? 0) || (index - 1 <? t) then Ok index else place_search fuel used t (index - jump) jump'
      else if used - 1 <=? index then Ok index
      else place_search fuel used t (index + jump) jump'
  end.

(** It finds every place in every block: there are 127 partitions at most. *)
Definition finds_all (n : nat) : bool :=
  forallb (fun used => forallb (fun t =>
    let used := Z.of_nat used in
    match place_search 128 used (Z.of_nat t) (used / 2) (if used / 4 =? 0 then 1 else used / 4) with
    | Ok r => r =? Z.of_nat t
    | _ => false
    end) (seq 0 used)) (seq 1 n).

Lemma finds_all_127 : finds_all 127 = true.
Proof. vm_compute. reflexivity. Qed.

Lemma place_search_ok used t : (t < used <= 127)%nat ->
  place_search 128 (Z.of_nat used) (Z.of_nat t) (Z.of_nat used / 2)
    (if Z.of_nat used / 4 =? 0 then 1 else Z.of_nat used / 4) = Ok (Z.of_nat t).
Proof.
  intros Ht. pose proof finds_all_127 as Hall. unfold finds_all in Hall. rewrite forallb_forall in Hall.
  specialize (Hall used). rewrite forallb_forall in Hall. specialize (Hall ltac:(apply in_seq; lia) t ltac:(apply in_seq; lia)).
  cbv beta zeta in Hall. destruct (place_search _ _ _ _ _) as [r| |]; try done. f_equal. lia.
Qed.

(** The hashes in the block are in order, and [t] is the first that is not less than [id]. *)
Lemma partition_search_place fuel d id t index jump r : block_ok d 1 ->
  (forall i e, parts_of d !! i = Some e -> (id <=? e.1) = (t <=? Z.of_nat i)) ->
  place_search fuel (Z.of_nat (length (parts_of d))) t index jump = Ok r ->
  partition_search fuel d (Z.of_nat (length (parts_of d))) id index jump = Ok r.
Proof.
  intros Hd Hc. revert index jump. induction fuel as [|fuel IH]; intros index jump Hr; [done|].
  cbn [place_search partition_search] in *. cbv zeta in *. set (n := length (parts_of d)) in *.
  destruct ((index <? 0) || (Z.of_nat n <=? index)) eqn:Er; [done|].
  assert (forall j, 0 <= j < Z.of_nat n -> exists e, part_at d j = Ok e /\ (id <=? e.1) = (t <=? j)) as Hat.
  { intros j Hj. destruct (lookup_lt_is_Some_2 (parts_of d) (Z.to_nat j)) as [e He]; [lia|]. exists e.
    pose proof (part_at_ok d (Z.to_nat j) e Hd He) as Ep. pose proof (Hc _ _ He) as Ec. by rewrite Z2Nat.id in Ep, Ec by lia. }
  destruct (Hat index) as (e & -> & Ec); [lia|]. rewrite res_bind_Ok, Ec. destruct (t <=? index); [|destruct (Z.of_nat n - 1 <=? index); auto].
  destruct (Z.eqb_spec index 0) as [->|Hi]; [by rewrite res_bind_Ok|]. cbn [orb] in Hr.
  destruct (Hat (index - 1)) as (e' & -> & Ec'); [lia|]. rewrite !res_bind_Ok.
  replace (e'.1 <? id) with (index - 1 <? t) by lia. destruct (index - 1 <? t); auto.
Qed.

(** ** The invariant *)

(** The partitions of the blocks [l], as they are in memory, [D]. *)
Definition block_parts (D : gmap ptr (Z * list Z)) (p : ptr) : list (Z * Z) :=
  match D !! p with Some (_, d) => parts_of d | None => [] end.
Definition entries (D : gmap ptr (Z * list Z)) (l : list ptr) : list (Z * Z) := concat (map (block_parts D) l).

(** A block of the map in memory. *)
Definition map_block (D : gmap ptr (Z * list Z)) (p : ptr) : Prop :=
  exists i d, D !! p = Some (i, d) /\ block_ok d 1 /\ parts_of d <> [].

(** Each block has the id of the next one, the last one has none. *)
Fixpoint linked (D : gmap ptr (Z * list Z)) (l : list ptr) (root : Z) : Prop :=
  match l with
  | [] => root = 0
  | p :: l => exists i d, D !! p = Some (i, d) /\ i = root /\ root <> 0 /\ linked D l (d !!! 0%nat)
  end.

(** The table with detached blocks [D], contents [C] and allocated blocks [A] stands for the map
    [m]. *)
Record table_ok (D : gmap ptr (Z * list Z)) (C : Z -> list Z) (A : gset Z) (t : CamelPartitionTable) (m : gmap Z Z) : Prop := {
  t_maps : Forall (map_block D) (partition t);
  t_nodup : NoDup (partition t);
  t_linked : linked D (partition t) (rootid t);
  t_ranges : ranges C (-1) (entries D (partition t));
  t_last : upto (-1) (entries D (partition t)) = 0xffffffff;
  t_ids : NoDup (entries D (partition t)).*2;
  t_allocated : Forall (fun i => i ∈ A) (entries D (partition t)).*2;
  t_apart : forall p i d, D !! p = Some (i, d) -> ~ i ∈ (entries D (partition t)).*2;
  t_map : forall h k, m !! h = Some k <-> (h, k) ∈ flat C (entries D (partition t));
}.

Lemma entries_app D l l' : entries D (l ++ l') = entries D l ++ entries D l'.
Proof. unfold entries. by rewrite map_app, concat_app. Qed.

Lemma entries_cons D p l : entries D (p :: l) = block_parts D p ++ entries D l.
Proof. done. Qed.

Lemma entries_ext D D' l : (forall p, p ∈ l -> D' !! p = D !! p) -> entries D' l = entries D l.
Proof.
  induction l as [|p l IH]; intros Hd; [done|]. rewrite !entries_cons. unfold block_parts.
  rewrite Hd by apply list_elem_of_here. f_equal. apply IH. intros q Hq. apply Hd. by apply list_elem_of_further.
Qed.

Lemma flat_keys_range C lo es h k : ranges C lo es -> (h, k) ∈ flat C es -> lo < h <= upto lo es.
Proof. intros Hr Hin. pose proof (ranges_flat _ _ _ Hr) as Hf. rewrite Forall_forall in Hf. by apply Hf in Hin. Qed.

(** In a block that has the partitions [es1 ++ e :: es2], [es1] ends below [id] and [e] does not. *)
Lemma parts_place C lo es1 e es2 id i a : ranges C lo (es1 ++ e :: es2) -> upto lo es1 < id <= e.1 ->
  (es1 ++ e :: es2) !! i = Some a -> (id <=? a.1) = (Z.of_nat (length es1) <=? Z.of_nat i).
Proof.
  intros Hr Hid Ha. pose proof Hr as Hr'. apply ranges_app in Hr' as [H1 H2]. cbn [ranges] in H2. destruct H2 as (_ & _ & H2).
  destruct (decide (i < length es1)%nat) as [Hlt|Hge].
  - rewrite lookup_app_l in Ha by done. pose proof (ranges_below _ _ _ _ H1 (list_elem_of_lookup_2 _ _ _ Ha)). lia.
  - rewrite lookup_app_r in Ha by lia. destruct (i - length es1)%nat as [|j] eqn:Ej; [injection Ha as <-; lia|].
    cbn in Ha. pose proof (ranges_below _ _ _ _ H2 (list_elem_of_lookup_2 _ _ _ Ha)). lia.
Qed.

Section find.
Context {B : Type} `{BlockStore B}.

(** The partition of [id] is found. *)
Lemma find_partition_ok b D C l lo id :
  Forall (fun p => exists i d, D !! p = Some (i, d) /\ block_data b p = Ok d /\ block_ok d 1 /\ parts_of d <> []) l ->
  ranges C lo (entries D l) -> lo < id <= upto lo (entries D l) ->
  exists l1 p l2 i d es1 e es2, l = l1 ++ p :: l2 /\ D !! p = Some (i, d) /\ parts_of d = es1 ++ e :: es2 /\
    find_partition b l id = Ok (Some (p, Z.of_nat (length es1))) /\ upto lo (entries D l1 ++ es1) < id <= e.1.
Proof.
  intros Hl. revert lo. induction Hl as [|p l (i & d & Ep & Eb & Hd & Hne) _ IH]; intros lo Hr Hid; [cbn in Hid; lia|].
  rewrite entries_cons in Hr, Hid. unfold block_parts in Hr, Hid. rewrite Ep in Hr, Hid. rewrite upto_app in Hid.
  apply ranges_app in Hr as [H1 H2]. cbn [find_partition]. rewrite Eb, res_bind_Ok, part_used_ok, res_bind_Ok by done.
  destruct (exists_last Hne) as (es & e & Ee). assert (upto lo (parts_of d) = e.1) as Eu by by rewrite Ee, upto_app.
  assert (part_at d (Z.of_nat (length (parts_of d)) - 1) = Ok e) as Ea.
  { rewrite Ee, length_app. cbn [length]. replace (Z.of_nat (length es + 1) - 1) with (Z.of_nat (length es)) by lia.
    apply part_at_ok; [done|]. rewrite Ee. by rewrite lookup_app_r, Nat.sub_diag by lia. }
  assert (0 < length (parts_of d) <= 127)%nat as Hlen.
  { split; [destruct (parts_of d); [done|simpl; lia]|]. rewrite parts_of_length. destruct Hd. lia. }
  destruct (Z.ltb_spec 0 (Z.of_nat (length (parts_of d)))); [|lia]. rewrite Ea, !res_bind_Ok.
  destruct (Z.leb_spec id e.1) as [Hle|Hgt].
  - destruct (ranges_split C lo (parts_of d) id H1 ltac:(lia)) as (es1 & e1 & es2 & Es & Hb).
    exists [], p, l, i, d, es1, e1, es2. split; [done|]. split; [done|]. split; [done|]. split; [|done].
    cbv zeta. rewrite (partition_search_place _ d id (Z.of_nat (length es1)) _ _ (Z.of_nat (length es1)) Hd).
    + by rewrite res_bind_Ok.
    + intros j a Ha. rewrite Es in Ha, H1. by apply (parts_place C lo es1 e1 es2).
    + apply place_search_ok. split; [|lia]. rewrite Es, length_app. simpl. lia.
  - destruct (IH (upto lo (parts_of d)) H2 ltac:(lia)) as (l1 & q & l2 & i' & d' & es1 & e1 & es2 & -> & Eq & Es & Ef & Hb).
    exists (p :: l1), q, l2, i', d', es1, e1, es2. split; [done|]. split; [done|]. split; [done|]. split; [done|].
    rewrite entries_cons. unfold block_parts at 1. by rewrite Ep, <- app_assoc, upto_app.
Qed.
End find.

(** ** Hashes *)

Lemma lxor_bound n a b : 0 <= n -> 0 <= a < 2 ^ n -> 0 <= b < 2 ^ n -> 0 <= Z.lxor a b < 2 ^ n.
Proof.
  intros Hn Ha Hb. assert (0 <= Z.lxor a b) as Hx by (apply Z.lxor_nonneg; lia). split; [done|].
  destruct (Z.eq_dec (Z.lxor a b) 0) as [->|Hne]; [lia|]. apply Z.log2_lt_pow2; [lia|].
  pose proof (Z.log2_lxor a b ltac:(lia) ltac:(lia)) as Hl.
  assert (forall c, 0 <= c < 2 ^ n -> c <> 0 -> Z.log2 c < n) as Hc by (intros c Hc Hc0; apply Z.log2_lt_pow2; lia).
  destruct (Z.eq_dec a 0) as [->|Ha0]; [rewrite Z.lxor_0_l in *; by apply Hc|].
  destruct (Z.eq_dec b 0) as [->|Hb0]; [rewrite Z.lxor_0_r in *; by apply Hc|].
  specialize (Hc a Ha Ha0) as Hla. specialize (Hc b Hb Hb0) as Hlb. lia.
Qed.

Lemma hash_key_range key : 0 <= hash_key key <= 0xffffffff.
Proof.
  unfold hash_key. assert (0 <= 0xABADF00D < 2 ^ 32) as H0 by lia. revert H0. generalize 0xABADF00D.
  induction key as [|c key IH]; intros h Hh; [cbn; lia|]. cbn [hash_loop]. apply IH.
  apply lxor_bound; [lia|apply u32_range|apply u32_range].
Qed.

(** ** The operations *)

Section ops.
Context {B : Type} `{BlockStoreLaws B}.
Implicit Types (b : B) (t : CamelPartitionTable) (m : gmap Z Z).

(** The table in the state [b] stands for [m]. *)
Record table_in b t m : Prop := {
  in_wf : wf b;
  in_saved : all_saved b;
  in_ok : table_ok (det b) (contents b) (allocated b) t m;
}.

(** The map in memory will be written to the file. *)
Definition durable b t : Prop := Forall (saved b) (partition t).

Lemma durable_same b b' t : durable b t -> (forall q, q ∈ partition t -> saved b q -> saved b' q) -> durable b' t.
Proof. unfold durable. rewrite !Forall_forall. auto. Qed.

Lemma table_ok_same D C C' A A' t m : table_ok D C A t m -> (forall i, i ∈ A -> C' i = C i) -> A ⊆ A' -> table_ok D C' A' t m.
Proof.
  intros [H1 H2 H3 H4 H5 H6 H7 H8 H9] Hc Ha.
  assert (forall i, i ∈ (entries D (partition t)).*2 -> C' i = C i) as Hc'.
  { intros i Hi. apply Hc. rewrite Forall_forall in H7. by apply H7. }
  split; try done; [by apply (ranges_ext C)|eapply Forall_impl; [exact H7|]; set_solver|].
  intros h k. rewrite (flat_ext C C') by done. apply H9.
Qed.

Lemma table_in_same b b' t m : table_in b t m -> wf b' -> same_view b b' -> all_saved b' ->
  table_in b' t m.
Proof.
  intros [Hw Hs Hok] Hw' [Ed Ec Ea] Hs'. split; [done|done|].
  rewrite Ed. apply (table_ok_same _ (contents b) _ (allocated b)); [done|auto|by rewrite Ea].
Qed.

(** The partition of a hash, and its block. *)
Record located b t (h : Z) (p : ptr) (i : Z) (d : list Z) (l1 l2 : list ptr) (es1 es2 : list (Z * Z)) (e : Z * Z) : Prop := {
  loc_partition : partition t = l1 ++ p :: l2;
  loc_own : own b p i d;
  loc_parts : parts_of d = es1 ++ e :: es2;
  loc_range : upto (-1) (entries (det b) l1 ++ es1) < h <= e.1;
}.

Lemma map_block_own b t m p : table_in b t m -> p ∈ partition t -> exists i d, own b p i d /\ block_ok d 1 /\ parts_of d <> [].
Proof.
  intros Hin Hp. destruct (in_ok _ _ _ Hin) as [Hm _ _ _ _ _ _ _ _]. rewrite Forall_forall in Hm. exact (Hm p Hp).
Qed.

(** All partitions, around the one at [e]. *)
Definition before b (l1 : list ptr) (es1 : list (Z * Z)) : list (Z * Z) := entries (det b) l1 ++ es1.
Definition behind b (l2 : list ptr) (es2 : list (Z * Z)) : list (Z * Z) := es2 ++ entries (det b) l2.

Lemma located_entries b t h p i d l1 l2 es1 es2 e : located b t h p i d l1 l2 es1 es2 e ->
  entries (det b) (partition t) = before b l1 es1 ++ e :: behind b l2 es2.
Proof.
  intros [-> Ho Ep _]. rewrite entries_app, entries_cons. unfold block_parts. rewrite Ho, Ep. unfold before, behind.
  by rewrite <- !app_assoc.
Qed.

Lemma find_located b t m h : table_in b t m -> 0 <= h <= 0xffffffff ->
  exists p i d l1 l2 es1 es2 e, located b t h p i d l1 l2 es1 es2 e /\
    find_partition b (partition t) h = Ok (Some (p, Z.of_nat (length es1))).
Proof.
  intros Hin Hh. pose proof (in_ok _ _ _ Hin) as Hok.
  destruct (find_partition_ok b (det b) (contents b) (partition t) (-1) h) as (l1 & p & l2 & i & d & es1 & e & es2 & E1 & E2 & E3 & E4 & E5).
  - apply Forall_forall. intros p Hp. destruct (map_block_own b t m p Hin Hp) as (i & d & Ho & Hd & Hne). exists i, d.
    split; [done|]. split; [|done]. by apply (own_data b p i d (in_wf _ _ _ Hin) Ho).
  - apply Hok.
  - rewrite (t_last _ _ _ _ _ Hok). lia.
  - by exists p, i, d, l1, l2, es1, es2, e.
Qed.

(** The ids of blocks of keys are allocated, and not detached. *)
Lemma key_block_id b t m i : table_in b t m -> i ∈ (entries (det b) (partition t)).*2 ->
  i ∈ allocated b /\ forall p d, ~ own b p i d.
Proof.
  intros Hin Hi. destruct (in_ok _ _ _ Hin) as [_ _ _ _ _ _ Ha Hd _]. rewrite Forall_forall in Ha. split; [by apply Ha|].
  intros p d Ho. by apply (Hd p i d).
Qed.

Lemma located_id b t h p i d l1 l2 es1 es2 e : located b t h p i d l1 l2 es1 es2 e -> e.2 ∈ (entries (det b) (partition t)).*2.
Proof. intros Hl. rewrite (located_entries _ _ _ _ _ _ _ _ _ _ _ Hl), fmap_app, fmap_cons. set_solver. Qed.

Lemma located_part b t m h p i d l1 l2 es1 es2 e : table_in b t m -> located b t h p i d l1 l2 es1 es2 e ->
  block_ok d 1 /\ block_data b p = Ok d /\ part_at d (Z.of_nat (length es1)) = Ok e.
Proof.
  intros Hin [Ep Ho Es _]. destruct (map_block_own b t m p Hin) as (i' & d' & Ho' & Hd & _); [rewrite Ep; set_solver|].
  unfold own in *. rewrite Ho in Ho'. injection Ho' as <- <-. split; [done|]. split; [by apply (own_data b p i d (in_wf _ _ _ Hin) Ho)|].
  apply part_at_ok; [done|]. by rewrite Es, lookup_app_r, Nat.sub_diag by lia.
Qed.

Lemma get_key_block_ok b t m h : table_in b t m -> 0 <= h <= 0xffffffff ->
  exists p i d l1 l2 es1 es2 e b' r, located b t h p i d l1 l2 es1 es2 e /\ get_block b e.2 = Ok (b', r) /\
    get_key_block b t h = Ok (b', match r with Some q => Some (p, Z.of_nat (length es1), q) | None => None end) /\
    table_in b' t m /\ same_view b b' /\ (durable b t -> durable b' t) /\ (forall n, room b n -> room b' n) /\
    match r with Some q => exists c, held b' q e.2 (S c) | None => refused B end.
Proof.
  intros Hin Hh. destruct (find_located b t m h Hin Hh) as (p & i & d & l1 & l2 & es1 & es2 & e & Hl & Ef).
  destruct (located_part _ _ _ _ _ _ _ _ _ _ _ _ Hin Hl) as (Hd & Ed & Ep).
  destruct (key_block_id b t m e.2 Hin (located_id _ _ _ _ _ _ _ _ _ _ _ Hl)) as [Ha Hno].
  destruct (get_saved b e.2 (in_wf _ _ _ Hin) (in_saved _ _ _ Hin) Ha Hno) as (b' & r & Eg & Hw & Hv & Hs & Hsq & Hr & Hh').
  exists p, i, d, l1, l2, es1, es2, e, b', r. split; [done|]. split; [done|]. split.
  - unfold get_key_block. rewrite Ef, res_bind_Ok, Ed, res_bind_Ok, Ep, res_bind_Ok, Eg, res_bind_Ok. by destruct r.
  - split; [apply (table_in_same b); auto|]. split; [done|]. split; [intros Hdu; apply (durable_same b); auto|]. split; [done|]. destruct r; [apply Hh'|]. by apply (refused_get b b' e.2 (in_wf _ _ _ Hin)).
Qed.

(** The keys of the block, and the map. *)
Lemma located_keys b t m h p i d l1 l2 es1 es2 e : table_in b t m -> located b t h p i d l1 l2 es1 es2 e ->
  keys_in (upto (-1) (before b l1 es1)) e.1 (contents b e.2) /\
  forall k, m !! h = Some k <-> (h, k) ∈ keys_of (contents b e.2).
Proof.
  intros Hin Hl. pose proof (in_ok _ _ _ Hin) as Hok. pose proof (t_ranges _ _ _ _ _ Hok) as Hr.
  pose proof (t_map _ _ _ _ _ Hok h) as Hm. rewrite (located_entries _ _ _ _ _ _ _ _ _ _ _ Hl) in Hr, Hm.
  split.
  - apply ranges_app in Hr as [_ Hr]. by destruct Hr as (_ & Hk & _).
  - intros k. rewrite Hm. apply (flat_here _ (-1)); [done|]. apply (loc_range _ _ _ _ _ _ _ _ _ _ _ Hl).
Qed.

Lemma keys_unique (ks : list (Z * Z)) h k k' : NoDup ks.*1 -> (h, k) ∈ ks -> (h, k') ∈ ks -> k = k'.
Proof.
  intros Hn Hk Hk'. induction ks as [|a ks IH]; [by apply elem_of_nil in Hk|]. cbn in Hn. apply NoDup_cons in Hn as [Ha Hn].
  apply elem_of_cons in Hk as [Hk|Hk], Hk' as [Hk'|Hk']; subst.
  - by injection Hk' as <-.
  - destruct Ha. apply list_elem_of_fmap. by exists (h, k').
  - destruct Ha. apply list_elem_of_fmap. by exists (h, k).
  - by apply IH.
Qed.

Lemma map_saved_other b t m q i c : table_in b t m -> held b q i c -> ~ q ∈ partition t.
Proof.
  intros Hin Hq Hp. destruct (map_block_own b t m q Hin Hp) as (j & dj & Ho & _).
  by destruct (own_held b q q j dj i c (in_wf _ _ _ Hin) Ho Hq).
Qed.

(** Giving back a block of keys. *)
Lemma unref_table b t m q i c : table_in b t m -> held b q i c ->
  exists b', unref_block b q = Ok b' /\ table_in b' t m /\ (durable b t -> durable b' t) /\
    same_view b b' /\ others_held b b' q /\ others_saved b b' q.
Proof.
  intros Hin Hq. destruct (unref_saved b q i c (in_wf _ _ _ Hin) (in_saved _ _ _ Hin) Hq) as (b' & E & Hw & Hv & Hs & Ho & Hsv).
  exists b'. split; [done|]. split; [by apply (table_in_same b)|]. split; [|done]. intros Hd. apply (durable_same b); [done|].
  intros p Hp. apply (proj1 Hsv). intros ->. by apply (map_saved_other b t m q i c).
Qed.

(** Looking up gives what the map has, or nothing if the block of keys cannot be read. *)
Lemma lookup_ok b t m key : table_in b t m ->
  exists b' k i r b1, camel_partition_table_lookup b t key = Ok (b', k) /\ table_in b' t m /\
    (durable b t -> durable b' t) /\ i ∈ allocated b /\ get_block b i = Ok (b1, r) /\
    k = match r with Some _ => default 0 (m !! hash_key key) | None => 0 end.
Proof.
  intros Hin. destruct (get_key_block_ok b t m (hash_key key) Hin (hash_key_range key))
    as (p & i & d & l1 & l2 & es1 & es2 & e & b1 & r & Hl & Eg & Ek & Hin1 & Hv & Hdur1 & _ & Hr).
  pose proof (key_block_id b t m e.2 Hin (located_id _ _ _ _ _ _ _ _ _ _ _ Hl)) as [Ha _].
  unfold camel_partition_table_lookup. rewrite Ek, res_bind_Ok. destruct r as [q|].
  - destruct Hr as [c Hq]. destruct (held_data b1 q e.2 _ (in_wf _ _ _ Hin1) Hq) as [Ed _].
    destruct (located_keys b t m _ _ _ _ _ _ _ _ _ Hin Hl) as [(Hd & _ & Hn) Hm].
    rewrite Ed, res_bind_Ok, (same_contents _ _ Hv), key_used_ok, res_bind_Ok by done. rewrite Nat2Z.id.
    pose proof (find_key_ok (contents b e.2) (hash_key key) (length (keys_of (contents b e.2))) 0 (proj1 Hd)) as Hf.
    rewrite keys_of_length in Hf at 1. specialize (Hf ltac:(destruct Hd; lia)). change (Z.of_nat 0) with 0 in Hf.
    destruct (unref_table b1 t m q e.2 _ Hin1 Hq) as (b2 & Eu & Hin2 & Hdur2 & _).
    assert (durable b t -> durable b2 t) as Hdur by auto.
    destruct (find_key _ _ _ _) as [[j|]| |]; try done; rewrite res_bind_Ok.
    + destruct Hf as (n & -> & Hlt & Es). cbn [plus] in *. rewrite keys_of_length in Hlt.
      rewrite key_at_slot, !res_bind_Ok by (destruct Hd; done || lia). rewrite Eu, res_bind_Ok.
      exists b2, (slot 1 (contents b e.2) n).2, e.2, (Some q), b1. do 5 (split; [done|]).
      assert (m !! hash_key key = Some (slot 1 (contents b e.2) n).2) as ->; [|done]. apply Hm.
      apply (list_elem_of_lookup_2 _ n). unfold keys_of. rewrite slots_lookup by done. cbn [plus]. rewrite <- Es. by destruct (slot _ _ _).
    + rewrite res_bind_Ok, Eu, res_bind_Ok. exists b2, 0, e.2, (Some q), b1. do 5 (split; [done|]). destruct (m !! hash_key key) as [k|]; [|done]. pose proof (proj1 (Hm k) eq_refl) as E. exfalso. apply Hf.
      apply list_elem_of_fmap. exists (hash_key key, k). split; [done|]. unfold keys_of in E. by rewrite <- keys_of_length in E.
  - exists b1, 0, e.2, None, b1. done.
Qed.

(** ** Changing the keys of a block *)

Lemma table_in_flat b t m : table_in b t m -> map_of m (flat (contents b) (entries (det b) (partition t))).
Proof. intros Hin h k. apply (in_ok _ _ _ Hin). Qed.

(** The keys of the block at [e] become those of [d']. *)
Lemma table_in_change b b' t m m' h p i d l1 l2 es1 es2 e d' : table_in b t m -> located b t h p i d l1 l2 es1 es2 e ->
  wf b' -> all_saved b' -> det b' = det b -> (forall j, contents b' j = change (contents b) e.2 d' j) -> allocated b' = allocated b ->
  keys_in (upto (-1) (before b l1 es1)) e.1 d' ->
  map_of m' (flat (contents b) (before b l1 es1) ++ keys_of d' ++ flat (contents b) (behind b l2 es2)) ->
  table_in b' t m'.
Proof.
  intros Hin Hl Hw Hs Ed Ec Ea Hk Hmap. pose proof (in_ok _ _ _ Hin) as [H1 H2 H3 H4 H5 H6 H7 H8 H9].
  pose proof (located_entries _ _ _ _ _ _ _ _ _ _ _ Hl) as Ee.
  assert (contents b' e.2 = d') as Ed' by by rewrite Ec, change_eq.
  destruct (ranges_change (contents b) (contents b') (-1) (before b l1 es1) e (behind b l2 es2)) as [Hr Hf];
    [by rewrite <- Ee|intros j Hj; by rewrite Ec, change_ne|by rewrite <- Ee|by rewrite Ed'|]. rewrite <- Ee in Hr, Hf.
  split; [done|done|]. rewrite Ed, Ea. split; try done. intros h' k'. rewrite Hf, Ed'. apply Hmap.
Qed.

Lemma flat_located b t h p i d l1 l2 es1 es2 e : located b t h p i d l1 l2 es1 es2 e ->
  flat (contents b) (entries (det b) (partition t)) =
  flat (contents b) (before b l1 es1) ++ keys_of (contents b e.2) ++ flat (contents b) (behind b l2 es2).
Proof. intros Hl. by rewrite (located_entries _ _ _ _ _ _ _ _ _ _ _ Hl), flat_app, flat_cons. Qed.

Lemma located_same b b' t h p i d l1 l2 es1 es2 e : same_view b b' ->
  located b t h p i d l1 l2 es1 es2 e -> located b' t h p i d l1 l2 es1 es2 e.
Proof. intros [Ed _ _] [H1 H2 H3 H4]. split; unfold own in *; by rewrite ?Ed. Qed.

(** The block of keys at [e] is written: it has the keys of [d] now. *)
Lemma write_keys b t m m' h p i d0 l1 l2 es1 es2 e q c d : table_in b t m -> located b t h p i d0 l1 l2 es1 es2 e ->
  held b q e.2 c -> keys_in (upto (-1) (before b l1 es1)) e.1 d ->
  map_of m' (flat (contents b) (before b l1 es1) ++ keys_of d ++ flat (contents b) (behind b l2 es2)) ->
  exists b1 b2 b3, write_data b q d = Ok b1 /\ touch_block b1 q = Ok b2 /\ unref_block b2 q = Ok b3 /\ table_in b3 t m' /\
    (durable b t -> durable b3 t).
Proof.
  intros Hin Hl Hq Hk Hm. destruct (write_touch b q e.2 c d (in_wf _ _ _ Hin) (in_saved _ _ _ Hin) Hq (proj1 (proj1 Hk)))
    as (b2 & b1 & E1 & E2 & Hw2 & Hs2 & Ed2 & Ec2 & Ea2 & Hq2 & Hsv2).
  assert (table_in b2 t m') as Hin2.
  { by apply (table_in_change b b2 t m m' h p i d0 l1 l2 es1 es2 e d). }
  destruct (unref_table b2 t m' q e.2 c Hin2 Hq2) as (b3 & E3 & Hin3 & Hdur3 & _). exists b1, b2, b3.
  do 4 (split; [done|]). intros Hdu. apply Hdur3, (durable_same b); auto.
Qed.

(** Removing takes the hash out of the map, unless the block of keys cannot be read. *)
Lemma remove_ok b t m key : table_in b t m ->
  exists b' i r b1, camel_partition_table_remove b t key = Ok b' /\ i ∈ allocated b /\ get_block b i = Ok (b1, r) /\
    table_in b' t (match r with Some _ => delete (hash_key key) m | None => m end) /\ (durable b t -> durable b' t).
Proof.
  intros Hin. destruct (get_key_block_ok b t m (hash_key key) Hin (hash_key_range key))
    as (p & i & d & l1 & l2 & es1 & es2 & e & b1 & r & Hl & Eg & Ek & Hin1 & Hv & Hdur1 & _ & Hr).
  pose proof (key_block_id b t m e.2 Hin (located_id _ _ _ _ _ _ _ _ _ _ _ Hl)) as [Ha _].
  unfold camel_partition_table_remove. rewrite Ek, res_bind_Ok. destruct r as [q|]; [|by exists b1, e.2, None, b1].
  destruct Hr as [c Hq]. pose proof (in_wf _ _ _ Hin1) as Hw1. destruct (held_data b1 q e.2 _ Hw1 Hq) as [Ed _].
  apply (located_same b b1) in Hl; [|done]. destruct (located_keys b1 t m _ _ _ _ _ _ _ _ _ Hin1 Hl) as [Hk Hm].
  pose proof Hk as (Hd & _ & Hn). set (d0 := contents b1 e.2) in *.
  rewrite Ed, res_bind_Ok, key_used_ok, res_bind_Ok, Nat2Z.id by done.
  pose proof (find_key_ok d0 (hash_key key) (length (keys_of d0)) 0 (proj1 Hd)) as Hf.
  rewrite keys_of_length in Hf at 1. specialize (Hf ltac:(destruct Hd; lia)). change (Z.of_nat 0) with 0 in Hf.
  destruct (find_key _ _ _ _) as [[j|]| |]; try done; rewrite res_bind_Ok.
  - destruct Hf as (n & -> & Hlt & Es). cbn [plus] in *. destruct (remove_key_ok d0 n Hd Hlt) as (d' & Er & Hd' & Ek').
    apply res_bind_inv in Er as (d1 & -> & Er). rewrite res_bind_Ok. rewrite Er, res_bind_Ok.
    pose proof (table_in_flat b1 t m Hin1) as Hfm. rewrite (flat_located _ _ _ _ _ _ _ _ _ _ _ Hl) in Hfm. fold d0 in Hfm.
    destruct (lookup_lt_is_Some_2 (keys_of d0) n Hlt) as [kn Hkn].
    assert (kn = (hash_key key, kn.2)) as Ekn.
    { unfold keys_of in Hkn. rewrite slots_lookup in Hkn by (by rewrite <- keys_of_length). cbn [plus] in Hkn. injection Hkn as <-.
      rewrite <- Es. by destruct (slot _ _ _). }
    destruct (write_keys b1 t m (delete (hash_key key) m) _ _ _ _ _ _ _ _ e q _ d' Hin1 Hl Hq) as (b2 & b3 & b4 & E2 & E3 & E4 & Hin4 & Hdur4).
    + by apply (keys_in_delete _ _ d0 d' n).
    + apply (map_of_delete m _ _ _ kn.2 Hfm).
      * pose proof (ranges_nodup _ _ _ (t_ranges _ _ _ _ _ (in_ok _ _ _ Hin1))) as Hnd.
        by rewrite (flat_located _ _ _ _ _ _ _ _ _ _ _ Hl) in Hnd.
      * rewrite Ek', (delete_Permutation _ _ _ Hkn) at 1. rewrite <- Ekn. cbn [app]. symmetry. apply Permutation_middle.
    + rewrite E2, res_bind_Ok, E3, res_bind_Ok, E4. exists b4, e.2, (Some q), b1. do 4 (split; [done|]). auto.
  - rewrite res_bind_Ok. destruct (unref_table b1 t m q e.2 _ Hin1 Hq) as (b2 & E2 & Hin2 & Hdur2 & _). exists b2, e.2, (Some q), b1.
    do 3 (split; [done|]). split; [|auto]. rewrite delete_id; [done|].
    destruct (m !! hash_key key) as [k|]; [|done]. pose proof (proj1 (Hm k) eq_refl) as E. exfalso. apply Hf.
    apply list_elem_of_fmap. exists (hash_key key, k). split; [done|]. unfold keys_of in E. by rewrite <- keys_of_length in E.
Qed.
End ops.
