(* ===== verification/PartitionSplitSpec.v ===== *)
(** * Partition tables: sharing keys and dividing a block of the map

    The keys of two blocks and a new one are sorted, and divided among the blocks; the
    last hash of the first of the two partitions changes. *)

From stdpp Require Import gmap.
From S2P Require Import Prelude BlockStore BlockStoreSpec PartitionTable PartitionDataSpec.
From S2P Require Import PartitionTableSpec.
#[local] Open Scope Z_scope.
#[local] Open Scope list_scope.

(** ** Sorting *)

#[export] Instance keys_cmp_preorder : CmpPreorder keys_cmp.
Proof.
  split; unfold keys_cmp.
  - intros a b. destruct (Z.ltb_spec a.1 b.1), (Z.ltb_spec b.1 a.1); lia.
  - intros a b c. destruct (Z.ltb_spec a.1 b.1), (Z.ltb_spec b.1 a.1), (Z.ltb_spec b.1 c.1), (Z.ltb_spec c.1 b.1),
      (Z.ltb_spec a.1 c.1), (Z.ltb_spec c.1 a.1); lia.
Qed.

(** Sorting keys with different hashes. *)
Lemma keys_sorted `{QSortLaws} ks : NoDup ks.*1 -> StronglySorted key_lt (qsort keys_cmp ks).
Proof.
  intros Hn. assert (NoDup (qsort keys_cmp ks).*1) as Hn' by (by rewrite (qsort_perm keys_cmp ks keys_cmp_preorder)).
  pose proof (qsort_sorted keys_cmp ks _) as Hs. revert Hs Hn'. generalize (qsort keys_cmp ks). clear.
  intros ks. induction 1 as [|a ks Hs IH Ha]; intros Hn; [constructor|]. rewrite fmap_cons in Hn.
  apply NoDup_cons in Hn as [Hn1 Hn2]. constructor; [by apply IH|]. rewrite Forall_forall in *. intros x Hx.
  specialize (Ha x Hx). unfold key_lt. assert (x.1 <> a.1) as Hne.
  { intros E. apply Hn1. rewrite <- E. apply list_elem_of_fmap. by exists x. }
  unfold keys_cmp in Ha. destruct (Z.ltb_spec a.1 x.1), (Z.ltb_spec x.1 a.1); lia.
Qed.

(** ** Writing the blocks *)

Section share.
Context {B : Type} `{BlockStoreLaws B} {Q : QSort} {QL : QSortLaws Q}.
Implicit Types (b : B).

(** The end of [share_keys]. *)
Definition write_shared b (ptblock block newblock : ptr) (kb newkb ptb : list Z) : res B :=
  b ← write_data b block kb;
  b ← write_data b newblock newkb;
  b ← write_data b ptblock ptb;
  b ← touch_block b ptblock;
  b ← touch_block b newblock;
  unref_block b newblock.

Lemma write_shared_ok b pt ip d q i c nq j c' kb' nkb' d' : wf b -> own b pt ip d -> held b q i c -> held b nq j c' -> i <> j ->
  length kb' = block_words -> length nkb' = block_words -> length d' = block_words ->
  (forall x jx cx, held b x jx cx -> x <> q -> x <> nq -> saved b x) ->
  exists b', write_shared b pt q nq kb' nkb' d' = Ok b' /\ wf b' /\ det b' = <[pt := (ip, d')]> (det b) /\
    (forall x, contents b' x = change (change (contents b) i kb') j nkb' x) /\ allocated b' = allocated b /\ held b' q i c /\
    (forall x jx cx, held b' x jx cx -> x <> q -> saved b' x) /\ saved b' pt /\
    (forall x, x <> q -> x <> nq -> saved b x -> saved b' x).
Proof.
  intros Hw Ho Hq Hnq Hij L1 L2 L3 Hs.
  assert (q <> nq) as Hne by (intros ->; by destruct (held_id _ _ _ _ _ _ Hq Hnq)).
  destruct (own_held b pt q ip d i c Hw Ho Hq) as [_ Hptq]. destruct (own_held b pt nq ip d j c' Hw Ho Hnq) as [_ Hptn].
  unfold write_shared.
  destruct (write_view b q i c kb' Hw Hq L1) as (b1 & E1 & Hw1 & D1 & C1 & A1 & Hq1 & O1 & [S1 _]).
  pose proof (proj2 (O1 nq j c' (not_eq_sym Hne)) Hnq) as Hnq1.
  destruct (write_view b1 nq j c' nkb' Hw1 Hnq1 L2) as (b2 & E2 & Hw2 & D2 & C2 & A2 & Hnq2 & O2 & [S2 _]).
  assert (own b2 pt ip d) as Ho2 by (unfold own; by rewrite D2, D1).
  destruct (write_own_view b2 pt ip d d' Hw2 Ho2 L3) as (b3 & E3 & Hw3 & D3 & C3 & A3 & O3 & [S3 _]).
  assert (own b3 pt ip d') as [c3 Hp3]%own_pin by (unfold own; by rewrite D3, lookup_insert_eq).
  destruct (touch_view b3 pt _ Hw3 Hp3) as (b4 & E4 & Hw4 & [D4 C4 A4] & O4 & S4 & S4' & _).
  pose proof (proj2 (O4 nq j c') (proj2 (O3 nq j c') Hnq2)) as Hnq4.
  destruct (touch_view b4 nq _ Hw4 Hnq4) as (b5 & E5 & Hw5 & [D5 C5 A5] & O5 & S5 & S5' & _).
  pose proof (proj2 (O5 nq j c') Hnq4) as Hnq5.
  destruct (unref_view b5 nq j c' Hw5 Hnq5 S5) as (b6 & E6 & Hw6 & [D6 C6 A6] & O6 & [S6 _] & Hc6 & Hn6).
  exists b6. rewrite E1, res_bind_Ok, E2, res_bind_Ok, E3, res_bind_Ok, E4, res_bind_Ok, E5, res_bind_Ok.
  split; [done|]. split; [done|]. split; [congruence|]. split.
  { intros x. rewrite C6, C5, C4, C3, C2. unfold change. destruct (x =? j); [done|]. by rewrite C1. }
  split; [congruence|]. split; [by apply O6, O5, O4, O3, O2|].
  assert (forall x, x <> q -> x <> nq -> saved b x -> saved b6 x) as Hsx.
  { intros x Hxq Hxn Hx. apply S6; [done|]. apply S5'. destruct (decide (x = pt)) as [->|]; [done|]. by apply S4', S3, S2, S1. }
  split; [|split; [|done]].
  - intros x jx cx Hx Hxq. destruct (decide (x = nq)) as [->|Hxn].
    + destruct (decide (1 < c')%nat) as [Hlt|]; [by apply Hc6|]. unfold held in Hx. rewrite Hn6 in Hx by lia. done.
    + apply Hsx; [done|done|]. apply (Hs x jx cx); [|done|done]. by apply O1, O2, O3, O4, O5, O6.
  - apply S6; [congruence|]. by apply S5'.
Qed.
(** Two blocks have the halves of [ks]; the first one has the lower. *)
Definition halves (low high : list Z) (ks : list (Z * Z)) : Prop :=
  let half := (length ks / 2)%nat in
  block_ok low 0 /\ keys_of low = take half ks /\ block_ok high 0 /\ keys_of high = drop half ks.

Lemma halves_ok low high ks : length low = block_words -> length high = block_words -> (length ks <= 254)%nat ->
  halves (with_keys low (take (length ks / 2) ks)) (with_keys high (drop (length ks / 2) ks)) ks /\
  store_keys low (take (length ks / 2) ks) = Ok (with_keys low (take (length ks / 2) ks)) /\
  store_keys high (drop (length ks / 2) ks) = Ok (with_keys high (drop (length ks / 2) ks)).
Proof.
  intros L1 L2 Hl. pose proof (Nat.div_mod_eq (length ks) 2). pose proof (Nat.mod_upper_bound (length ks) 2).
  assert (length (take (length ks / 2) ks) <= 127)%nat as T by (rewrite length_take; lia).
  assert (length (drop (length ks / 2) ks) <= 127)%nat as T' by (rewrite length_drop; lia).
  destruct (with_keys_ok low _ L1 T), (with_keys_ok high _ L2 T'). split; [done|].
  by rewrite !store_keys_ok by done.
Qed.

(** What sharing does.  [block] has the keys below those of [newblock] if [index] is below
    [newindex], and those above if not. *)
Lemma share_keys_ok b pt ip d a a' e0 q i c nq j c' h k : wf b -> own b pt ip d -> block_ok d 1 ->
  parts_of d !! Nat.min a a' = Some e0 -> held b q i c -> held b nq j c' -> i <> j ->
  (forall x jx cx, held b x jx cx -> x <> q -> x <> nq -> saved b x) ->
  block_ok (contents b i) 0 -> block_ok (contents b j) 0 ->
  let keys := keys_of (contents b i) ++ keys_of (contents b j) ++ [(h, k)] in
  (2 <= length keys <= 254)%nat -> NoDup keys.*1 ->
  exists b' d' ks kk, share_keys b pt (Z.of_nat a) (Z.of_nat a') q nq h k = Ok b' /\ wf b' /\
    ks ≡ₚ keys /\ StronglySorted key_lt ks /\ ks !! (length ks / 2 - 1)%nat = Some kk /\
    det b' = <[pt := (ip, d')]> (det b) /\ block_ok d' 1 /\ d' !!! 0%nat = d !!! 0%nat /\
    parts_of d' = <[Nat.min a a' := (kk.1, e0.2)]> (parts_of d) /\
    (forall x, x <> i -> x <> j -> contents b' x = contents b x) /\
    (if (a <? a')%nat then halves (contents b' i) (contents b' j) ks else halves (contents b' j) (contents b' i) ks) /\
    allocated b' = allocated b /\ held b' q i c /\ (forall x jx cx, held b' x jx cx -> x <> q -> saved b' x) /\
    saved b' pt /\ (forall x, x <> q -> x <> nq -> saved b x -> saved b' x).
Proof.
  intros Hw Ho Hd He Hq Hnq Hij Hs Hki Hkj keys Hlen Hn. set (ks := qsort keys_cmp keys).
  assert (ks ≡ₚ keys) as Hperm by apply (qsort_perm keys_cmp keys keys_cmp_preorder).
  assert (length ks = length keys) as El by by rewrite Hperm.
  destruct (lookup_lt_is_Some_2 ks (length ks / 2 - 1)) as [kk Hkk].
  { rewrite El. pose proof (Nat.Div0.div_le_mono 2 (length keys) 2). pose proof (Nat.div_lt (length keys) 2). lia. }
  destruct (set_part_hash_ok d (Nat.min a a') e0 kk.1 Hd He) as (d' & Ed & Hd' & Hnx & Hp).
  destruct (held_data b q i c Hw Hq) as [Dq _], (held_data b nq j c' Hw Hnq) as [Dn _], (own_data b pt ip d Hw Ho) as [Dp _].
  assert (exists kb' nkb',
    (if (a <? a')%nat then halves kb' nkb' ks else halves nkb' kb' ks) /\
    (if Z.of_nat a <? Z.of_nat a' then
       kb ← store_keys (contents b i) (take (length ks / 2) ks);
       newkb ← store_keys (contents b j) (drop (length ks / 2) ks);
       ptb ← set_part_hash d (Z.of_nat a) kk.1;
       Ok (kb, newkb, ptb)
     else
       newkb ← store_keys (contents b j) (take (length ks / 2) ks);
       kb ← store_keys (contents b i) (drop (length ks / 2) ks);
       ptb ← set_part_hash d (Z.of_nat a') kk.1;
       Ok (kb, newkb, ptb)) = Ok (kb', nkb', d')) as (kb' & nkb' & Hh & Est).
  { destruct (Nat.ltb_spec a a'), (Z.ltb_spec (Z.of_nat a) (Z.of_nat a')); try lia.
    - destruct (halves_ok (contents b i) (contents b j) ks (proj1 Hki) (proj1 Hkj) ltac:(lia)) as (Hh & E1 & E2).
      rewrite E1, E2, !res_bind_Ok. rewrite Nat.min_l in Ed by lia. rewrite Ed. by do 2 eexists.
    - destruct (halves_ok (contents b j) (contents b i) ks (proj1 Hkj) (proj1 Hki) ltac:(lia)) as (Hh & E1 & E2).
      rewrite E1, E2, !res_bind_Ok. rewrite Nat.min_r in Ed by lia. rewrite Ed. by do 2 eexists. }
  assert (length kb' = block_words /\ length nkb' = block_words) as [L1 L2].
  { destruct (a <? a')%nat; destruct Hh as ([? _] & _ & [? _] & _); done. }
  destruct (write_shared_ok b pt ip d q i c nq j c' kb' nkb' d' Hw Ho Hq Hnq Hij L1 L2 (proj1 Hd') Hs)
    as (b' & Ew & Hw' & D' & C' & A' & Hq' & Hs' & Hpt & Hsx).
  exists b', d', ks, kk. unfold share_keys. rewrite Dq, Dn, !res_bind_Ok, !all_keys_ok, !res_bind_Ok by done. fold keys.
  cbv zeta. change keys_size with 256. destruct (Z.ltb_spec 256 (Z.of_nat (length keys))) as [?|_]; [lia|]. fold ks.
  rewrite Hkk, res_bind_Ok, Dp, res_bind_Ok, Est, res_bind_Ok. split; [exact Ew|]. split; [done|]. split; [done|].
  split; [by apply keys_sorted|]. do 5 (split; [done|]). split.
  { intros x Hxi Hxj. rewrite C'. by rewrite !change_ne. }
  split; [|done]. rewrite !C', change_eq, change_ne, change_eq by done. done.
Qed.
End share.

(** * Partition tables: dividing a block of the map

    A full block of the map is divided into two; the table is the same map. *)

(** ** Lists of blocks *)

Lemma insert_behind_ok l1 p p' l2 : NoDup (l1 ++ p :: l2) -> insert_behind (l1 ++ p :: l2) p p' = l1 ++ p :: p' :: l2.
Proof.
  induction l1 as [|a l1 IH]; intros Hn; cbn [app insert_behind]; [by rewrite bool_decide_true by done|].
  cbn [app] in Hn. apply NoDup_cons in Hn as [Hn1 Hn2]. rewrite bool_decide_false; [by rewrite IH|].
  intros ->. apply Hn1, elem_of_app. right. apply list_elem_of_here.
Qed.

Lemma map_blocks_ext D D' l : (forall q, q ∈ l -> D' !! q = D !! q) -> Forall (map_block D) l -> Forall (map_block D') l.
Proof.
  rewrite !Forall_forall. intros Hd Hf q Hq. destruct (Hf q Hq) as (i & d & E & ?). exists i, d. by rewrite Hd.
Qed.

Lemma linked_ext D D' l root : (forall q, q ∈ l -> D' !! q = D !! q) -> linked D l root -> linked D' l root.
Proof.
  revert root. induction l as [|q l IH]; intros root Hd Hl; [done|]. destruct Hl as (i & d & E & Ei & Er & Hl).
  exists i, d. rewrite Hd by apply list_elem_of_here. do 3 (split; [done|]). apply IH; [|done].
  intros x Hx. apply Hd. by apply list_elem_of_further.
Qed.

(** A list of blocks that ends in one that has another link. *)
Lemma linked_replace D D' l1 p i d l2 l2' root : linked D (l1 ++ p :: l2) root -> D !! p = Some (i, d) ->
  (forall q, q ∈ l1 -> D' !! q = D !! q) -> (i <> 0 -> linked D l2 (d !!! 0%nat) -> linked D' l2' i) ->
  linked D' (l1 ++ l2') root.
Proof.
  revert root. induction l1 as [|q l1 IH]; intros root Hl Hp Hd Hs; cbn [app] in *.
  - destruct Hl as (j & d' & E & -> & Hr & Hl). rewrite Hp in E. injection E as -> ->. by apply Hs.
  - destruct Hl as (j & d' & E & -> & Hr & Hl). exists root, d'. rewrite Hd by apply list_elem_of_here.
    do 3 (split; [done|]). apply IH; try done. intros x Hx. apply Hd. by apply list_elem_of_further.
Qed.

(** ** The table *)

Section split.
Variables (D : gmap ptr (Z * list Z)) (C C' : Z -> list Z) (A A' : gset Z).
Variables (t : CamelPartitionTable) (m : gmap Z Z) (l1 l2 : list ptr) (p p' : ptr) (ip i' : Z) (d ptb ptn : list Z).
Hypothesis Hok : table_ok D C A t m.
Hypothesis Hpt : partition t = l1 ++ p :: l2.
Hypothesis Hp : D !! p = Some (ip, d).
Hypothesis Hp' : D !! p' = None.
Hypothesis Hi' : ~ i' ∈ A.
Hypothesis Hi0 : i' <> 0.
Hypothesis Hparts : parts_of ptb ++ parts_of ptn = parts_of d.

Let D' := <[p' := (i', ptn)]> (<[p := (ip, ptb)]> D).

Lemma split_apart : NoDup (l1 ++ p :: l2) /\ (~ p' ∈ l1 ++ p :: l2) /\ p <> p' /\
  forall q, q ∈ l1 \/ q ∈ l2 -> D' !! q = D !! q.
Proof.
  pose proof (t_nodup _ _ _ _ _ Hok) as Hn. rewrite Hpt in Hn. split; [done|].
  assert (~ p' ∈ l1 ++ p :: l2) as Hni.
  { rewrite <- Hpt. intros Hin. pose proof (t_maps _ _ _ _ _ Hok) as Hm. rewrite Forall_forall in Hm.
    destruct (Hm p' Hin) as (? & ? & E & _). congruence. }
  split; [done|]. rewrite elem_of_app, elem_of_cons in Hni. split; [intros ->; tauto|]. intros q Hq. unfold D'.
  rewrite !lookup_insert_ne; [done| |]; intros <-; [|tauto].
  apply NoDup_app in Hn as (_ & Hn1 & [Hn2 _]%NoDup_cons). destruct Hq as [Hq|Hq]; [|done].
  apply (Hn1 p Hq), list_elem_of_here.
Qed.

Lemma split_entries : entries D' (l1 ++ p :: p' :: l2) = entries D (l1 ++ p :: l2) /\
  entries D' l1 = entries D l1 /\ D' !! p = Some (ip, ptb) /\ D' !! p' = Some (i', ptn).
Proof.
  destruct split_apart as (_ & _ & Hne & Hd).
  assert (D' !! p = Some (ip, ptb)) as E1 by (unfold D'; by rewrite lookup_insert_ne, lookup_insert_eq by done).
  assert (D' !! p' = Some (i', ptn)) as E2 by (unfold D'; by rewrite lookup_insert_eq).
  assert (entries D' l1 = entries D l1) as El by (apply entries_ext; auto).
  split; [|done]. rewrite !entries_app, !entries_cons, El. unfold block_parts. rewrite E1, E2, Hp, app_assoc, <- !app_assoc.
  do 1 f_equal. rewrite app_assoc, Hparts. f_equal. apply entries_ext. auto.
Qed.

Lemma split_table_ok : block_ok ptb 1 -> block_ok ptn 1 -> parts_of ptb <> [] -> parts_of ptn <> [] ->
  ptb !!! 0%nat = i' -> ptn !!! 0%nat = d !!! 0%nat -> A ⊆ A' -> (forall x, x ∈ A -> C' x = C x) ->
  table_ok D' C' A' (mkTable (rootid t) (l1 ++ p :: p' :: l2)) m.
Proof.
  intros Hb1 Hb2 Hne1 Hne2 Hl1 Hl2 HA HC. destruct split_apart as (Hn & Hni & Hpp & Hd). destruct split_entries as (Ee & _ & E1 & E2).
  pose proof (table_ok_same D C C' A A' t m Hok HC HA) as [H1 H2 H3 H4 H5 H6 H7 H8 H9]. rewrite Hpt in *.
  assert (forall i, i ∈ (entries D (l1 ++ p :: l2)).*2 -> i ∈ A) as Hall.
  { pose proof (t_allocated _ _ _ _ _ Hok) as Hf. rewrite Hpt, Forall_forall in Hf. exact Hf. }
  split; cbn [partition rootid]; rewrite ?Ee; try done.
  - apply Forall_app in H1 as [M1 [_ M2]%Forall_cons]. apply Forall_app. split; [by apply (map_blocks_ext D); auto|].
    constructor; [by exists ip, ptb|]. constructor; [by exists i', ptn|]. by apply (map_blocks_ext D); auto.
  - rewrite elem_of_app, elem_of_cons in Hni. apply NoDup_app in Hn as (Hn1 & Hn2 & [Hn3 Hn4]%NoDup_cons). apply NoDup_app.
    split; [done|]. split.
    + intros x Hx [->|[->|Hx2]%elem_of_cons]%elem_of_cons; [|tauto|].
      * apply (Hn2 p Hx), list_elem_of_here.
      * by apply (Hn2 x Hx), list_elem_of_further.
    + constructor; [|constructor; [tauto|done]]. by intros [->|?]%elem_of_cons.
  - apply (linked_replace D _ l1 p ip d l2); [done|done|auto|]. intros Hip Hl. exists ip, ptb. do 3 (split; [done|]).
    rewrite Hl1. exists i', ptn. do 3 (split; [done|]). rewrite Hl2. by apply (linked_ext D); auto.
  - intros q i dq Hq. destruct (decide (q = p')) as [->|Hq1].
    { rewrite E2 in Hq. injection Hq as <- _. intros Hin. by apply Hi', Hall. }
    destruct (decide (q = p)) as [->|Hq2]; [rewrite E1 in Hq; injection Hq as <- _; by apply (H8 p ip d)|].
    unfold D' in Hq. rewrite !lookup_insert_ne in Hq by done. by apply (H8 q i dq).
Qed.
End split.

(** ** The operation *)

Section op.
Context {B : Type} `{BlockStoreLaws B}.
Implicit Types (b : B) (t : CamelPartitionTable) (m : gmap Z Z).

(** The new block, taken out of the cache. *)
Lemma new_detached b n : wf b -> all_saved b -> room b (S n) ->
  exists b1 r, new_block b = Ok (b1, r) /\ wf b1 /\ room b1 n /\ (forall q, saved b q -> saved b1 q) /\
  match r with
  | None => same_view b b1 /\ all_held b b1 /\ all_saved b1 /\ refused B
  | Some p' => exists b2 i', detach_block b1 p' = Ok b2 /\ wf b2 /\ ~ i' ∈ allocated b /\ det b !! p' = None /\
      det b2 = <[p' := (i', zero_block)]> (det b) /\ allocated b2 = {[i']} ∪ allocated b /\
      (forall j, j ∈ allocated b -> contents b2 j = contents b j) /\ (forall q j c, held b q j c -> held b2 q j c) /\
      all_saved b2 /\ (forall q, saved b q -> saved b2 q) /\ room b2 n
  end.
Proof.
  intros Hw Hs Hr. destruct (new_view b n Hw Hr) as (b1 & r & E1 & Hw1 & S1 & R1 & Hp). exists b1, r. do 4 (split; [done|]).
  destruct r as [p'|].
  2:{ destruct Hp as [Hv Hh]. do 2 (split; [done|]). split; [by apply (all_saved_same b)|by apply (refused_new b b1 n)]. }
  destruct Hp as (i' & Hi & D1 & C1 & Z1 & A1 & Hp & Sp & Hpn & Hdn & O1).
  destruct (detach_view b1 p' i' 1 Hw1 Hp) as (b2 & E2 & Hw2 & D2 & C2 & A2 & O2 & S2 & R2). rewrite Z1 in D2.
  exists b2, i'. do 4 (split; [done|]). split; [congruence|]. split; [congruence|]. split.
  { intros j Hj. rewrite C2, C1; [done|done|]. by intros ->. }
  split; [|split; [|split; auto]].
  - intros q j c Hq. assert (q <> p') as Hne by (intros ->; unfold held in Hq; congruence). by apply O2, O1.
  - intros q j c Hq. destruct (decide (q = p')) as [->|Hne]; [by apply S2|]. apply S2, S1, (Hs q j c), O1, O2; done.
Qed.

(** Where the partition is after the block was divided: in the first half, if it is not the
    last of that, or in the second. *)
Lemma split_located b b' t h p ip d l1 l2 es1 es2 e p' i' ptb ptn : NoDup (l1 ++ p :: l2) ->
  located b t h p ip d l1 l2 es1 es2 e -> length (parts_of d) = 127%nat -> length es1 <> 63%nat ->
  det b' = <[p' := (i', ptn)]> (<[p := (ip, ptb)]> (det b)) -> ~ p' ∈ l1 ++ p :: l2 ->
  parts_of ptb = take 63 (parts_of d) -> parts_of ptn = drop 63 (parts_of d) ->
  let t' := mkTable (rootid t) (l1 ++ p :: p' :: l2) in
  if (63 <? length es1)%nat then located b' t' h p' i' ptn (l1 ++ [p]) l2 (drop 63 es1) es2 e
  else located b' t' h p ip ptb l1 (p' :: l2) es1 (take (62 - length es1) es2) e.
Proof.
  intros Hn [Hpt Ho Ed Hr] Hl Hne Hdet Hni E1 E2 t'. rewrite Ed, length_app in Hl. cbn [length] in Hl.
  rewrite elem_of_app, elem_of_cons in Hni.
  assert (entries (det b') l1 = entries (det b) l1) as El.
  { apply entries_ext. intros q Hq. rewrite Hdet, !lookup_insert_ne; [done| |]; intros <-; [|tauto].
    apply NoDup_app in Hn as (_ & Hn & _). apply (Hn p Hq), list_elem_of_here. }
  assert (det b' !! p = Some (ip, ptb)) as Ep by (rewrite Hdet, lookup_insert_ne, lookup_insert_eq by (intros ->; tauto); done).
  destruct (Nat.ltb_spec 63 (length es1)) as [Hlt|Hge]; split.
  - cbn. by rewrite <- app_assoc.
  - unfold own. by rewrite Hdet, lookup_insert_eq.
  - rewrite E2, Ed, drop_app. replace (63 - length es1)%nat with O by lia. done.
  - rewrite entries_app, El, entries_cons. unfold block_parts. rewrite Ep, E1, Ed. cbn [entries map concat].
    rewrite app_nil_r, take_app_le, <- app_assoc, take_drop by lia. done.
  - done.
  - exact Ep.
  - rewrite E1, Ed, take_app. rewrite take_ge by lia. f_equal. replace (63 - length es1)%nat with (S (62 - length es1)) by lia. done.
  - by rewrite El.
Qed.

(** Writing the two blocks of the map; [more] if the second has the partition. *)
Lemma split_writes b p ip d p' i' d0 ptb ptn (more : bool) : wf b -> all_saved b -> own b p ip d -> own b p' i' d0 -> p <> p' ->
  length ptb = block_words -> length ptn = block_words ->
  exists b1 b2 b3 b4, write_data b p ptb = Ok b1 /\ write_data b1 p' ptn = Ok b2 /\ touch_block b2 p' = Ok b3 /\
    (if more then touch_block b3 p else Ok b3) = Ok b4 /\ wf b4 /\ all_saved b4 /\
    det b4 = <[p' := (i', ptn)]> (<[p := (ip, ptb)]> (det b)) /\ (forall j, contents b4 j = contents b j) /\
    allocated b4 = allocated b /\ all_held b b4 /\ (forall n, room b n -> room b4 n) /\ saved b4 p' /\
    (more = true -> saved b4 p) /\ forall x, x <> p -> saved b x -> saved b4 x.
Proof.
  intros Hw Hs Ho Ho' Hne Lb Ln.
  destruct (write_own_view b p ip d ptb Hw Ho Lb) as (b1 & E1 & Hw1 & D1 & C1 & A1 & O1 & S1 & R1).
  assert (own b1 p' i' d0) as Ho1 by (unfold own; by rewrite D1, lookup_insert_ne).
  destruct (write_own_view b1 p' i' d0 ptn Hw1 Ho1 Ln) as (b2 & E2 & Hw2 & D2 & C2 & A2 & O2 & S2 & R2).
  assert (own b2 p' i' ptn) as [c' Hp']%own_pin by (unfold own; by rewrite D2, lookup_insert_eq).
  destruct (touch_view b2 p' _ Hw2 Hp') as (b3 & E3 & Hw3 & [D3 C3 A3] & O3 & S3 & S3' & R3).
  assert (own b3 p ip ptb) as [c Hp]%own_pin by (unfold own; by rewrite D3, D2, lookup_insert_ne, D1, lookup_insert_eq by done).
  destruct (touch_view b3 p _ Hw3 Hp) as (b4 & E4 & Hw4 & [D4 C4 A4] & O4 & S4 & S4' & R4).
  assert (det b3 = <[p' := (i', ptn)]> (<[p := (ip, ptb)]> (det b))) as D by by rewrite D3, D2, D1.
  assert (forall x, x <> p -> saved b x -> saved b3 x) as Sx.
  { intros x Hx Hsx. destruct (decide (x = p')) as [->|]; [done|]. auto. }
  assert (forall q j c, held b q j c -> q <> p) as Hqp by (intros q j c0 Hq; by destruct (own_held b p q _ _ _ _ Hw Ho Hq) as [_ ?%not_eq_sym]).
  assert (all_held b b3) as Hh by (intros q j c0; by rewrite (O3 q j c0), (O2 q j c0), (O1 q j c0)).
  assert (all_saved b3) as Hs3.
  { intros q j c0 Hq%Hh. apply Sx; [by apply (Hqp q j c0)|]. by apply (Hs q j c0). }
  exists b1, b2, b3, (if more then b4 else b3). do 3 (split; [done|]). split; [by destruct more|]. destruct more.
  - split; [done|]. split; [by apply (all_saved_same b3)|]. split; [congruence|]. split; [intros j; by rewrite C4, C3, C2|].
    split; [congruence|]. split; [intros q j c0; by rewrite (O4 q j c0)|]. split; [by auto|]. split; [by auto|]. by split; auto.
  - split; [done|]. split; [done|]. split; [done|]. split; [intros j; by rewrite C3, C2|]. split; [congruence|].
    split; [done|]. split; [by auto|]. by split.
Qed.

Lemma part_used_next d i d' : block_ok d 1 -> set_part_next d i = Ok d' -> part_used d' = Ok (Z.of_nat (length (parts_of d))).
Proof.
  intros Hd E. unfold set_part_next in E. rewrite set_word_at in E by (apply Hd || lia). injection E as <-.
  unfold part_used. rewrite word_at by (rewrite ?length_insert; apply Hd || lia). rewrite get_insert_ne by done.
  rewrite parts_of_length, Z2Nat.id by apply Hd. done.
Qed.

(** The operation, when there is a new block. *)
Lemma split_map_steps b t p ip d n b1 p' b2 i' : new_block b = Ok (b1, Some p') -> detach_block b1 p' = Ok b2 ->
  wf b2 -> all_saved b2 -> own b2 p' i' zero_block -> own b2 p ip d -> p <> p' -> block_ok d 1 -> length (parts_of d) = 127%nat ->
  let more := (63 <? n)%nat in
  exists b' ptb ptn, split_map b t p (Z.of_nat n) =
      Ok (b', Some (mkTable (rootid t) (insert_behind (partition t) p p'), if more then p' else p, Z.of_nat (if more then n - 63 else n))) /\
    block_ok ptb 1 /\ block_ok ptn 1 /\ parts_of ptb = take 63 (parts_of d) /\ parts_of ptn = drop 63 (parts_of d) /\
    ptb !!! 0%nat = i' /\ ptn !!! 0%nat = d !!! 0%nat /\ wf b' /\ all_saved b' /\
    det b' = <[p' := (i', ptn)]> (<[p := (ip, ptb)]> (det b2)) /\ (forall j, contents b' j = contents b2 j) /\
    allocated b' = allocated b2 /\ all_held b2 b' /\ (forall n, room b2 n -> room b' n) /\ saved b' p' /\
    (more = true -> saved b' p) /\ forall x, x <> p -> saved b2 x -> saved b' x.
Proof.
  intros E1 E2 Hw2 Hs2 Ho' Hop Hpp Hd Hfull more. unfold split_map. rewrite E1, res_bind_Ok. cbv beta iota zeta. rewrite E2, res_bind_Ok.
  destruct (own_data b2 p' i' _ Hw2 Ho') as (-> & -> & Hl' & _), (own_data b2 p ip _ Hw2 Hop) as (-> & _). rewrite !res_bind_Ok.
  destruct (split_words_ok d zero_block i' Hd eq_refl) as (ptb & ptn & Es & Hb1 & Hb2 & P1 & P2 & L1 & L2).
  apply res_bind_inv in Es as (x1 & -> & Es). apply res_bind_inv in Es as (x2 & X2 & Es). apply res_bind_inv in Es as (x3 & X3 & Es).
  rewrite res_bind_Ok. rewrite (part_used_next d i' x3 Hd X3), Hfull, res_bind_Ok in Es. cbv zeta in Es.
  change (Z.of_nat 127 / 2) with 63 in *.
  apply res_bind_inv in Es as (x4 & X4 & Es). apply res_bind_inv in Es as (x5 & X5 & Es). apply res_bind_inv in Es as (x6 & X6 & Es).
  injection Es as -> ->. rewrite X2, res_bind_Ok, res_bind_Ok, X3, res_bind_Ok.
  rewrite (part_used_next d i' x3 Hd X3), Hfull, res_bind_Ok. change (Z.of_nat 127 / 2) with 63.
  rewrite X4, res_bind_Ok, X5, res_bind_Ok, X6, res_bind_Ok. rewrite Hfull in P1, P2. change (127 / 2)%nat with 63%nat in *.
  destruct (split_writes b2 p ip d p' i' zero_block ptb ptn more Hw2 Hs2 Hop Ho' Hpp (proj1 Hb1) (proj1 Hb2))
    as (b3 & b4 & b5 & b6 & W1 & W2 & W3 & W4 & Hr).
  rewrite W1, res_bind_Ok, W2, res_bind_Ok, W3, res_bind_Ok. exists b6, ptb, ptn. split; [|done]. unfold more in *.
  destruct (Nat.ltb_spec 63 n), (Z.ltb_spec 63 (Z.of_nat n)); try lia.
  - rewrite W4, res_bind_Ok. by rewrite Nat2Z.inj_sub by lia.
  - by injection W4 as ->.
Qed.

Lemma split_map_ok b t m h p ip d l1 l2 es1 es2 e n : table_in b t m -> located b t h p ip d l1 l2 es1 es2 e ->
  length (parts_of d) = 127%nat -> length es1 <> 63%nat -> room b (S n) ->
  exists b' r, split_map b t p (Z.of_nat (length es1)) = Ok (b', r) /\
  match r with
  | None => table_in b' t m /\ same_view b b' /\ (durable b t -> durable b' t) /\ all_held b b' /\ refused B
  | Some (t', p', index) => rootid t' = rootid t /\ table_in b' t' m /\ room b' n /\ allocated b ⊆ allocated b' /\
      (forall j, j ∈ allocated b -> contents b' j = contents b j) /\ (forall q j c, held b q j c -> held b' q j c) /\
      (durable b t -> forall x, x ∈ partition t' -> x <> p' -> saved b' x) /\
      exists i' d' l1' l2' es1' es2', located b' t' h p' i' d' l1' l2' es1' es2' e /\ index = Z.of_nat (length es1') /\
        (length (parts_of d') < 127)%nat
  end.
Proof.
  intros Hin Hl Hfull Hne Hr. pose proof (in_wf _ _ _ Hin) as Hw. pose proof (in_saved _ _ _ Hin) as Hs.
  destruct (new_detached b n Hw Hs Hr) as (b1 & r & E1 & Hw1 & R1 & S1 & Hp). destruct r as [p'|].
  2:{ destruct Hp as (Hv & Hh & Hs' & Hx). exists b1, None. unfold split_map. rewrite E1. split; [done|].
      split; [by apply (table_in_same b)|]. split; [done|]. split; [|done]. intros Hd. by apply (durable_same b); auto. }
  destruct Hp as (b2 & i' & E2 & Hw2 & Hi & Hdn & D2 & A2 & C2 & O2 & Hs2 & S2 & R2).
  destruct (located_part _ _ _ _ _ _ _ _ _ _ _ _ Hin Hl) as (Hd & _ & _). pose proof Hl as [Hpt Ho Ed _].
  pose proof (in_ok _ _ _ Hin) as Hok. destruct (split_apart (det b) (contents b) (contents b) (allocated b) t m l1 l2 p p' ip i' d d d Hok Hpt Ho Hdn) as (Hn & Hni & Hpp & _).
  destruct (split_map_steps b t p ip d (length es1) b1 p' b2 i' E1 E2 Hw2 Hs2) as
    (b6 & ptb & ptn & Es & Hb1 & Hb2 & P1 & P2 & L1 & L2 & Hw6 & Hs6 & D6 & C6 & A6 & O6 & R6 & S6 & S6' & S6x); try done.
  { unfold own. by rewrite D2, lookup_insert_eq. }
  { unfold own. by rewrite D2, lookup_insert_ne. }
  rewrite Hpt, insert_behind_ok in Es by done. do 2 eexists. split; [exact Es|]. cbv beta iota.
  assert (det b6 = <[p' := (i', ptn)]> (<[p := (ip, ptb)]> (det b))) as D.
  { rewrite D6, D2, (insert_insert_ne _ p p'), insert_insert_eq by done. done. }
  assert (allocated b ⊆ allocated b6) as HA by (rewrite A6, A2; apply union_subseteq_r).
  assert (forall j, j ∈ allocated b -> contents b6 j = contents b j) as HC by (intros j Hj; by rewrite C6, C2).
  assert (i' <> 0) as Hi0.
  { assert (i' ∈ allocated b2) as Hin2 by (rewrite A2; apply elem_of_union_l, elem_of_singleton_2; done).
    pose proof (allocated_ok b2 i' Hw2 Hin2). lia. }
  split; [done|]. split; [split; [done|done|]|].
  { rewrite D. apply (split_table_ok (det b) (contents b) (contents b6) (allocated b) (allocated b6) t m l1 l2 p p' ip i' d ptb ptn); try done.
    - by rewrite P1, P2, take_drop.
    - intros E. rewrite E in P1. apply (f_equal length) in P1. rewrite length_take, Hfull in P1. done.
    - intros E. rewrite E in P2. apply (f_equal length) in P2. rewrite length_drop, Hfull in P2. done. }
  split; [by apply R6|]. split; [done|]. split; [done|]. split; [intros q j c Hq; by apply O6, O2|]. split.
  { intros Hdu x Hx Hxp. cbn [partition] in Hx. unfold durable in Hdu. rewrite Hpt, Forall_forall in Hdu.
    destruct (decide (x = p')) as [->|]; [done|]. destruct (decide (x = p)) as [->|].
    - apply S6'. by destruct (63 <? length es1)%nat.
    - apply S6x, S2, Hdu; [done|]. rewrite !elem_of_app, !elem_of_cons in *. tauto. }
  pose proof (split_located b b6 t h p ip d l1 l2 es1 es2 e p' i' ptb ptn Hn Hl Hfull Hne D Hni P1 P2) as Hl6.
  destruct (Nat.ltb_spec 63 (length es1)); cbn zeta in Hl6.
  - do 6 eexists. split; [exact Hl6|]. rewrite length_drop, P2, length_drop, Hfull. lia.
  - do 6 eexists. split; [exact Hl6|]. rewrite P1, length_take, Hfull. lia.
Qed.
End op.
