(* ===== verification/PartitionAddSpec.v ===== *)
(** * Partition tables: adding keys

    A key that is added is in the map, wherever its block finds room: in the block itself, by
    sharing with a neighbour, or in a new block, for which a block of the map may be
    divided. *)

From stdpp Require Import gmap.
From S2P Require Import Prelude BlockStore BlockStoreSpec PartitionTable PartitionDataSpec PartitionTableSpec PartitionSplitSpec.
From S2P Require Import PartitionSplitSpec.
#[local] Open Scope Z_scope.
#[local] Open Scope list_scope.

Lemma elem_of_last {A} (l : list A) x : x ∈ l ++ [x].
Proof. apply elem_of_app. right. apply list_elem_of_here. Qed.

Section add.
Context {B : Type} `{BlockStoreLaws B} {Q : QSort} {QL : QSortLaws Q}.
Implicit Types (b : B) (t : CamelPartitionTable) (m : gmap Z Z).

(** References to blocks other than [j] stay. *)
Definition kept b b' (j : Z) : Prop := forall q i c, held b q i c -> i <> j -> held b' q i c.

(** Getting a block of keys, and giving it back. *)
Lemma get_keys_block b t m j : table_in b t m -> j ∈ (entries (det b) (partition t)).*2 ->
  exists b' r, get_block b j = Ok (b', r) /\ table_in b' t m /\ same_view b b' /\ (durable b t -> durable b' t) /\
    (forall n, room b n -> room b' n) /\ kept b b' j /\ (r = None -> all_held b b') /\
    match r with Some p => exists c', held b' p j c' | None => refused B end.
Proof.
  intros Hin Hj. destruct (key_block_id b t m j Hin Hj) as [Ha Hno].
  destruct (get_saved b j (in_wf _ _ _ Hin) (in_saved _ _ _ Hin) Ha Hno) as (b' & r & Eg & Hw & Hv & Hs & Hsq & Hr & Hh).
  exists b', r. split; [done|]. split; [by apply (table_in_same b)|]. split; [done|]. split; [intros Hdu; apply (durable_same b); auto|].
  split; [done|]. destruct r as [p|]; [|split; [by intros q i c Hq _; apply Hh|split; [done|by apply (refused_get b b' j (in_wf _ _ _ Hin))]]]. destruct Hh as (Ho & Hid & c' & Hp).
  split; [|split; [done|by eauto]]. intros q i c Hq Hne. apply Ho; [|done]. intros ->. by apply Hne, (Hid i c).
Qed.

Lemma unref_keys_block b t m p j c' : table_in b t m -> held b p j c' ->
  exists b', unref_block b p = Ok b' /\ table_in b' t m /\ same_view b b' /\ (durable b t -> durable b' t) /\
    (forall n, room b n -> room b' n) /\ kept b b' j.
Proof.
  intros Hin Hp. destruct (unref_table b t m p j c' Hin Hp) as (b' & E & Hin' & Hdu & Hv & Ho & Hs).
  exists b'. do 4 (split; [done|]). split; [apply Hs|]. intros q i c Hq Hne. apply Ho; [|done].
  intros ->. by destruct (held_id _ _ _ _ _ _ Hq Hp).
Qed.

(** The blocks next to that of [e]. *)
Definition previous b (es1 : list (Z * Z)) (p : option ptr) : Prop :=
  match p with
  | Some p => exists es e c, es1 = es ++ [e] /\ held b p e.2 c
  | None => es1 = []
  end.
Definition following b (es2 : list (Z * Z)) (p : option ptr) : Prop :=
  match p with
  | Some p => exists e es c, es2 = e :: es /\ held b p e.2 c
  | None => es2 = []
  end.

(** The ids of the neighbours. *)
Lemma neighbour_ids b t m h p i d l1 l2 es1 es2 e e' : table_in b t m -> located b t h p i d l1 l2 es1 es2 e ->
  e' ∈ es1 \/ e' ∈ es2 -> e'.2 ∈ (entries (det b) (partition t)).*2 /\ e'.2 <> e.2.
Proof.
  intros Hin Hl He. pose proof (t_ids _ _ _ _ _ (in_ok _ _ _ Hin)) as Hn.
  rewrite (located_entries _ _ _ _ _ _ _ _ _ _ _ Hl) in *. unfold before, behind in *. split.
  - apply list_elem_of_fmap. exists e'. split; [done|].
    rewrite !elem_of_app, elem_of_cons, elem_of_app. tauto.
  - apply (ids_apart _ _ _ Hn). rewrite !fmap_app.
    destruct He as [He|He]; [left|right]; apply elem_of_app; [right|left]; apply list_elem_of_fmap; by exists e'.
Qed.

Lemma neighbours_apart b t m h p i d l1 l2 es1 es2 e e1 e2 : table_in b t m -> located b t h p i d l1 l2 es1 es2 e ->
  e1 ∈ es1 -> e2 ∈ es2 -> e1.2 <> e2.2.
Proof.
  intros Hin Hl H1 H2 E. pose proof (t_ids _ _ _ _ _ (in_ok _ _ _ Hin)) as Hn.
  rewrite (located_entries _ _ _ _ _ _ _ _ _ _ _ Hl), fmap_app in Hn. apply NoDup_app in Hn as (_ & Hd & _).
  apply (Hd e1.2).
  - unfold before. rewrite fmap_app. apply elem_of_app. right. apply list_elem_of_fmap. by exists e1.
  - rewrite fmap_cons. apply list_elem_of_further. unfold behind. rewrite fmap_app. apply elem_of_app. left.
    apply list_elem_of_fmap. by exists e2.
Qed.

Lemma unref_opt_ok b t m p j c' : table_in b t m -> match p with Some p => held b p j c' | None => True end ->
  exists b', unref_opt b p = Ok b' /\ table_in b' t m /\ same_view b b' /\ (durable b t -> durable b' t) /\
    (forall n, room b n -> room b' n) /\ kept b b' j.
Proof.
  intros Hin Hp. destruct p as [p|]; [by apply (unref_keys_block b t m p j c')|]. exists b. do 2 (split; [done|]).
  split; [apply same_view_refl|]. do 2 (split; [done|]). by intros q i c.
Qed.

Lemma get_neighbours_ok b t m h p i d l1 l2 es1 es2 e q c : table_in b t m -> located b t h p i d l1 l2 es1 es2 e ->
  held b q e.2 c ->
  exists b' r, get_neighbours b d (Z.of_nat (length es1)) = Ok (b', r) /\ table_in b' t m /\ same_view b b' /\
    (durable b t -> durable b' t) /\ (forall n, room b n -> room b' n) /\ held b' q e.2 c /\
    match r with Some (pb, nb) => previous b' es1 pb /\ following b' es2 nb | None => refused B end.
Proof.
  intros Hin Hl Hq. destruct (located_part _ _ _ _ _ _ _ _ _ _ _ _ Hin Hl) as (Hd & Ed & Ep).
  pose proof (loc_parts _ _ _ _ _ _ _ _ _ _ _ Hl) as Es. unfold get_neighbours. rewrite part_used_ok, res_bind_Ok by done.
  assert (exists b1 pb ok, (if 0 <? Z.of_nat (length es1) then
        e ← part_at d (Z.of_nat (length es1) - 1);
        '(b, p) ← get_block b e.2;
        Ok (b, p, match p with Some _ => true | None => false end)
      else Ok (b, None, true)) = Ok (b1, pb, ok) /\ table_in b1 t m /\ same_view b b1 /\
      (durable b t -> durable b1 t) /\ (forall n, room b n -> room b1 n) /\ held b1 q e.2 c /\
      if (ok : bool) then previous b1 es1 pb else refused B) as (b1 & pb & ok & -> & Hin1 & Hv1 & Hdu1 & Hr1 & Hq1 & Hp1).
  { destruct (decide (es1 = [])) as [->|Hne].
    - exists b, None, true. do 2 (split; [done|]). split; [apply same_view_refl|]. done.
    - destruct (exists_last Hne) as (es & e1 & ->). rewrite length_app in *. cbn [length] in *.
      destruct (Z.ltb_spec 0 (Z.of_nat (length es + 1))); [|lia].
      replace (Z.of_nat (length es + 1) - 1) with (Z.of_nat (length es)) by lia.
      rewrite (part_at_ok d (length es) e1), res_bind_Ok by (done || (rewrite Es, <- app_assoc, lookup_app_r, Nat.sub_diag by lia; done)).
      destruct (neighbour_ids b t m _ _ _ _ _ _ _ _ _ e1 Hin Hl) as [Hj Hne1]; [left; apply elem_of_last|].
      destruct (get_keys_block b t m e1.2 Hin Hj) as (b' & r & -> & Hin' & Hv & Hdu & Hr & Hk & _ & Hr').
      rewrite res_bind_Ok. exists b', r, (match r with Some _ => true | None => false end). do 5 (split; [done|]).
      split; [by apply Hk|]. destruct r as [a|]; [|done]. destruct Hr' as [c' Hc']. by exists es, e1, c'. }
  rewrite res_bind_Ok. cbv beta iota zeta. destruct ok; cbn [negb]; [|by exists b1, None].
  rewrite Es, length_app. cbn [length].
  destruct (decide (es2 = [])) as [->|Hne].
  - cbn [length]. destruct (Z.ltb_spec (Z.of_nat (length es1)) (Z.of_nat (length es1 + 1) - 1)); [lia|]. rewrite res_bind_Ok. cbv beta iota zeta.
    exists b1, (Some (pb, None)). do 6 (split; [done|]). done.
  - destruct es2 as [|e2 es2]; [done|]. cbn [length].
    destruct (Z.ltb_spec (Z.of_nat (length es1)) (Z.of_nat (length es1 + S (S (length es2))) - 1)); [|lia].
    replace (Z.of_nat (length es1) + 1) with (Z.of_nat (length es1 + 1)) by lia.
    rewrite (part_at_ok d (length es1 + 1) e2), res_bind_Ok by
      (done || (rewrite Es, lookup_app_r by lia; replace (length es1 + 1 - length es1)%nat with 1%nat by lia; done)).
    destruct (neighbour_ids b t m _ _ _ _ _ _ _ _ _ e2 Hin Hl) as [Hj Hne2]; [right; apply list_elem_of_here|].
    rewrite <- (same_det _ _ Hv1) in Hj.
    destruct (get_keys_block b1 t m e2.2 Hin1 Hj) as (b2 & r & -> & Hin2 & Hv2 & Hdu2 & Hr2 & Hk2 & _ & Hr').
    rewrite !res_bind_Ok. cbv beta iota zeta. pose proof (Hk2 _ _ _ Hq1 (not_eq_sym Hne2)) as Hq2.
    pose proof (same_view_trans _ _ _ Hv1 Hv2) as Hv.
    assert (previous b2 es1 pb) as Hp2.
    { destruct pb as [a|]; [|done]. destruct Hp1 as (es & e1 & c1 & -> & Ha). exists es, e1, c1. split; [done|].
      apply Hk2; [done|]. apply (neighbours_apart b t m _ _ _ _ _ _ _ _ _ _ _ Hin Hl); [apply elem_of_last|apply list_elem_of_here]. }
    destruct r as [a|].
    + exists b2, (Some (pb, Some a)). split; [done|]. split; [done|]. split; [done|]. do 2 (split; [by auto|]). split; [done|].
      split; [done|]. destruct Hr' as [c' Hc']. by exists e2, es2, c'.
    + assert (exists j c', match pb with Some p => held b2 p j c' /\ j <> e.2 | None => True end) as (j & c' & Hpb).
      { destruct pb as [a|]; [|by exists 0, O]. destruct Hp2 as (es & e1 & c1 & -> & Ha). exists e1.2, c1. split; [done|].
        apply (neighbour_ids b t m _ _ _ _ _ _ _ _ _ e1 Hin Hl). left. apply elem_of_last. }
      destruct (unref_opt_ok b2 t m pb j c' Hin2) as (b3 & E3 & Hin3 & Hv3 & Hdu3 & Hr3 & Hk3); [by destruct pb as [a|]; [destruct Hpb|]|].
      unfold unref_opt in E3. rewrite E3, res_bind_Ok. exists b3, None. split; [done|]. split; [done|].
      split; [by apply (same_view_trans _ b2)|]. do 2 (split; [by auto|]). split; [|done].
      destruct pb as [a|]; [|by injection E3 as <-]. apply Hk3; [done|]. by apply not_eq_sym, Hpb.
Qed.

(** ** The table with two partitions divided *)

Lemma linked_insert D l root p i d d' : linked D l root -> D !! p = Some (i, d) -> d' !!! 0%nat = d !!! 0%nat ->
  linked (<[p := (i, d')]> D) l root.
Proof.
  intros Hl Hp Hd. revert root Hl. induction l as [|q l IH]; intros root Hl; [done|].
  destruct Hl as (j & dq & Hq & Hj & Hr & Hl). cbn [linked]. destruct (decide (q = p)) as [->|Hne].
  - rewrite Hp in Hq. injection Hq as <- <-. exists i, d'. rewrite lookup_insert_eq. do 3 (split; [done|]). rewrite Hd. by apply IH.
  - exists j, dq. rewrite lookup_insert_ne by done. do 3 (split; [done|]). by apply IH.
Qed.

Lemma map_blocks_insert D l p i d' : Forall (map_block D) l -> block_ok d' 1 -> parts_of d' <> [] ->
  Forall (map_block (<[p := (i, d')]> D)) l.
Proof.
  intros Hl Hd Hp. eapply Forall_impl; [exact Hl|]. intros q (j & d & Hq & Hok & Hne). unfold map_block.
  destruct (decide (q = p)) as [->|Hqp]; [exists i, d'; by rewrite lookup_insert_eq|].
  exists j, d. by rewrite lookup_insert_ne by done.
Qed.

Lemma entries_insert D l1 l2 p i d' : NoDup (l1 ++ p :: l2) ->
  entries (<[p := (i, d')]> D) (l1 ++ p :: l2) = entries D l1 ++ parts_of d' ++ entries D l2.
Proof.
  intros Hn. rewrite entries_app, entries_cons. unfold block_parts. rewrite lookup_insert_eq.
  apply NoDup_app in Hn as (_ & Hn1 & [Hn2 _]%NoDup_cons).
  f_equal; [|f_equal]; apply entries_ext; intros q Hq; rewrite lookup_insert_ne; try done; intros <-.
  - apply (Hn1 p Hq), list_elem_of_here.
  - done.
Qed.

(** The ids of two partitions [i1] and [i2] among the others. *)
Lemma two_ids (D : gmap ptr (Z * list Z)) (A A' : gset Z) (es old es' : list (Z * Z)) i1 i2 h1 h2 :
  NoDup (es ++ old ++ es').*2 -> Forall (fun i => i ∈ A) (es ++ old ++ es').*2 -> A ⊆ A' ->
  (forall p i d, D !! p = Some (i, d) -> ~ i ∈ (es ++ old ++ es').*2) -> i1 <> i2 ->
  (forall x, x = i1 \/ x = i2 -> x ∈ A' /\ ~ x ∈ (es ++ es').*2 /\ forall q i dq, D !! q = Some (i, dq) -> x <> i) ->
  NoDup (es ++ (h1, i1) :: (h2, i2) :: es').*2 /\
  Forall (fun i => i ∈ A') (es ++ (h1, i1) :: (h2, i2) :: es').*2 /\
  forall p i d, D !! p = Some (i, d) -> ~ i ∈ (es ++ (h1, i1) :: (h2, i2) :: es').*2.
Proof.
  intros Hn Hf Ha Hd Hne Hx. assert (es ++ (h1, i1) :: (h2, i2) :: es' ≡ₚ (h1, i1) :: (h2, i2) :: es ++ es') as Hp.
  { rewrite <- Permutation_middle. constructor. by rewrite <- Permutation_middle. }
  destruct (Hx i1 (or_introl eq_refl)) as (A1 & N1 & D1), (Hx i2 (or_intror eq_refl)) as (A2 & N2 & D2).
  assert (es ++ old ++ es' ≡ₚ old ++ (es ++ es')) as Hp' by by rewrite Permutation_app_swap_app.
  split; [|split].
  - rewrite Hp, !fmap_cons. cbn [snd]. constructor; [|constructor; [done|]].
    + rewrite elem_of_cons. by intros [->|].
    + rewrite Hp', fmap_app in Hn. by apply NoDup_app in Hn as (_ & _ & ?).
  - rewrite Hp, !fmap_cons. cbn [snd]. constructor; [done|constructor; [done|]]. rewrite Hp', fmap_app in Hf.
    apply Forall_app in Hf as [_ Hf]. eapply Forall_impl; [exact Hf|]. cbn. intros x. apply Ha.
  - intros p i d Hi. rewrite Hp, !fmap_cons, !elem_of_cons. cbn [snd].
    intros [->|[->|Hin]]; [by apply (D1 _ _ _ Hi)|by apply (D2 _ _ _ Hi)|]. apply (Hd p i d Hi).
    rewrite Hp', fmap_app, elem_of_app. by right.
Qed.

(** [old] becomes two partitions with the keys [ks]. *)
Lemma table_in_share b b' t m p ip d d' l1 l2 es1 old es2 i1 i2 hi ks kk h k :
  table_in b t m -> partition t = l1 ++ p :: l2 -> own b p ip d -> parts_of d = es1 ++ old ++ es2 ->
  let lo := upto (-1) (before b l1 es1) in
  upto lo old = hi -> m !! h = None -> lo < h <= hi ->
  wf b' -> all_saved b' -> det b' = <[p := (ip, d')]> (det b) -> block_ok d' 1 -> d' !!! 0%nat = d !!! 0%nat ->
  parts_of d' = es1 ++ (kk.1, i1) :: (hi, i2) :: es2 -> allocated b ⊆ allocated b' ->
  (forall x, x ∈ allocated b -> x <> i1 -> x <> i2 -> contents b' x = contents b x) -> i1 <> i2 ->
  (forall x, x = i1 \/ x = i2 -> x ∈ allocated b' /\ ~ x ∈ (before b l1 es1 ++ behind b l2 es2).*2 /\
    forall q i dq, det b !! q = Some (i, dq) -> x <> i) ->
  ks ≡ₚ flat (contents b) old ++ [(h, k)] -> StronglySorted key_lt ks -> (2 <= length ks)%nat ->
  ks !! (length ks / 2 - 1)%nat = Some kk -> halves (contents b' i1) (contents b' i2) ks ->
  table_in b' t (<[h := k]> m).
Proof.
  intros Hin Ept Ho Ed lo Ehi Hh Hr Hw Hs Edet Hd' Hnx Ep Ha Hc Hne Hids Hperm Hsort Hl2 Hkk (Hb1 & Hk1 & Hb2 & Hk2).
  pose proof (in_ok _ _ _ Hin) as [H1 H2 H3 H4 H5 H6 H7 H8 H9].
  assert (entries (det b) (partition t) = before b l1 es1 ++ old ++ behind b l2 es2) as Ee.
  { rewrite Ept, entries_app, entries_cons. unfold block_parts. unfold own in Ho. rewrite Ho, Ed. unfold before, behind.
    by rewrite <- !app_assoc. }
  assert (entries (det b') (partition t) = before b l1 es1 ++ (kk.1, i1) :: (hi, i2) :: behind b l2 es2) as Ee'.
  { rewrite Edet, Ept, entries_insert, Ep by by rewrite <- Ept. unfold before, behind. by rewrite <- !app_assoc. }
  rewrite Ee in H4, H5, H6, H7, H8, H9. apply ranges_app in H4 as [R1 R2]. fold lo in R2. apply ranges_app in R2 as [R2 R3].
  rewrite Ehi in R3. rewrite !upto_app in H5. fold lo in H5. rewrite Ehi in H5.
  assert (forall x, x ∈ (before b l1 es1).*2 \/ x ∈ (behind b l2 es2).*2 -> x ∈ allocated b /\ contents b' x = contents b x) as Hsame.
  { intros x Hx. assert (x ∈ allocated b) as Hxa.
    { rewrite Forall_forall in H7. apply H7. rewrite !fmap_app, !elem_of_app. tauto. }
    split; [done|]. apply Hc; [done| |]; intros ->.
    - apply (proj1 (proj2 (Hids i1 (or_introl eq_refl)))). rewrite fmap_app, elem_of_app. tauto.
    - apply (proj1 (proj2 (Hids i2 (or_intror eq_refl)))). rewrite fmap_app, elem_of_app. tauto. }
  assert (Forall (fun k => lo < k.1 <= hi) ks) as Hrange.
  { rewrite Hperm. apply Forall_app. split; [|by repeat constructor; cbn; lia]. rewrite <- Ehi. by apply ranges_flat. }
  pose proof (Nat.div_lt (length ks) 2). pose proof (Nat.Div0.div_le_mono 2 (length ks) 2).
  destruct (ranges_share (contents b) (contents b') (-1) (before b l1 es1) (behind b l2 es2) i1 i2 hi ks (length ks / 2)%nat kk)
    as [Hr' Hf']; try done; [fold lo; lia|intros x Hx; by apply Hsame|change (2 / 2)%nat with 1%nat in *; lia|].
  rewrite <- Ee' in Hr', Hf'. split; [done|done|].
  destruct (two_ids (det b) (allocated b) (allocated b') _ _ _ i1 i2 kk.1 hi H6 H7 Ha H8 Hne Hids) as (HN & HA & HD). split.
  - rewrite Edet. apply map_blocks_insert; [done|done|]. rewrite Ep. by destruct es1.
  - done.
  - rewrite Edet. by apply (linked_insert _ _ _ _ _ d).
  - done.
  - by rewrite Ee', upto_app.
  - by rewrite Ee'.
  - by rewrite Ee'.
  - intros q i dq Hq. rewrite Ee'. rewrite Edet in Hq. destruct (decide (q = p)) as [->|Hqp].
    + rewrite lookup_insert_eq in Hq. injection Hq as <- _. by apply (HD p ip d).
    + rewrite lookup_insert_ne in Hq by done. by apply (HD q i dq).
  - rewrite Hf'. apply (map_of_insert m _ _ h k H9 Hh). rewrite !flat_app, Hperm, <- app_assoc. cbn [app].
    rewrite !app_assoc. rewrite <- Permutation_middle. done.
Qed.

(** Touching a block and giving it back, when all others are saved. *)
Lemma touch_unref b q i c : wf b -> held b q i c -> (forall x j c, held b x j c -> x <> q -> saved b x) ->
  exists b1 b2, touch_block b q = Ok b1 /\ unref_block b1 q = Ok b2 /\ wf b2 /\ same_view b b2 /\ all_saved b2 /\
    forall x, x <> q -> saved b x -> saved b2 x.
Proof.
  intros Hw Hq Hs. destruct (touch_view b q _ Hw Hq) as (b1 & E1 & Hw1 & Hv1 & O1 & Sq & S1 & _).
  pose proof (proj2 (O1 q i c) Hq) as Hq1. assert (all_saved b1) as Ha1.
  { intros x j c' Hx. destruct (decide (x = q)) as [->|Hne]; [done|]. by apply S1, (Hs x j c'); [apply O1|]. }
  destruct (unref_saved b1 q i c Hw1 Ha1 Hq1) as (b2 & E2 & Hw2 & Hv2 & Ha2 & _ & S2 & _).
  exists b1, b2. do 3 (split; [done|]). split; [by apply (same_view_trans _ b1)|]. split; [done|]. auto.
Qed.

(** The partition of [h] in the table, with those that its keys are shared with ([old]). *)
Record around b t (h : Z) (p : ptr) (ip : Z) (d : list Z) (l1 l2 : list ptr) (es1 old es2 : list (Z * Z)) (hi : Z) : Prop := {
  ar_partition : partition t = l1 ++ p :: l2;
  ar_own : own b p ip d;
  ar_parts : parts_of d = es1 ++ old ++ es2;
  ar_hi : upto (upto (-1) (before b l1 es1)) old = hi;
  ar_range : upto (-1) (before b l1 es1) < h <= hi;
}.

(** The keys of [old]. *)
Lemma around_keys b t m h p ip d l1 l2 es1 old es2 hi k : table_in b t m -> around b t h p ip d l1 l2 es1 old es2 hi ->
  m !! h = None -> NoDup (flat (contents b) old ++ [(h, k)]).*1.
Proof.
  intros Hin [Ept Ho Ed Ehi Hr] Hh. pose proof (ranges_nodup _ _ _ (t_ranges _ _ _ _ _ (in_ok _ _ _ Hin))) as Hn.
  pose proof (proj1 (map_of_fst _ _ h (table_in_flat b t m Hin)) Hh) as Hni.
  rewrite Ept, entries_app, entries_cons, !flat_app in Hn, Hni. unfold block_parts in Hn, Hni. unfold own in Ho.
  rewrite Ho, Ed, !flat_app in Hn, Hni. rewrite !fmap_app in *. apply NoDup_app.
  split; [|split; [|by apply NoDup_singleton]].
  - apply NoDup_app in Hn as (_ & _ & Hn). apply NoDup_app in Hn as (Hn & _ & _).
    apply NoDup_app in Hn as (_ & _ & Hn). by apply NoDup_app in Hn as (Hn & _ & _).
  - intros x Hx [->|[]%not_elem_of_nil]%elem_of_cons. apply Hni. rewrite !elem_of_app. tauto.
Qed.

(** Sharing the keys of [block] and [newblock] adds the key. *)
Lemma share_adds b b1 t m h k p ip d d1 l1 l2 es1 old es2 hi i1 i2 x1 a a' q i c nq j c' :
  table_in b t m -> around b t h p ip d l1 l2 es1 old es2 hi -> m !! h = None ->
  wf b1 -> det b1 = <[p := (ip, d1)]> (det b) -> block_ok d1 1 -> d1 !!! 0%nat = d !!! 0%nat ->
  parts_of d1 = es1 ++ (x1, i1) :: (hi, i2) :: es2 -> allocated b ⊆ allocated b1 ->
  (forall x, x ∈ allocated b -> contents b1 x = contents b x) ->
  Nat.min a a' = length es1 -> i1 = (if (a <? a')%nat then i else j) -> i2 = (if (a <? a')%nat then j else i) -> i <> j ->
  held b1 q i c -> held b1 nq j c' -> (forall x jx cx, held b1 x jx cx -> x <> q -> x <> nq -> saved b1 x) ->
  block_ok (contents b1 i) 0 -> block_ok (contents b1 j) 0 ->
  (1 <= length (keys_of (contents b1 i)))%nat -> (length (keys_of (contents b1 j)) < 127)%nat ->
  keys_of (contents b1 i) ++ keys_of (contents b1 j) ≡ₚ flat (contents b) old ->
  (forall x, x = i \/ x = j -> ~ x ∈ (before b l1 es1 ++ behind b l2 es2).*2 /\
    forall q i dq, det b !! q = Some (i, dq) -> x <> i) ->
  exists b2 b3 b4, share_keys b1 p (Z.of_nat a) (Z.of_nat a') q nq h k = Ok b2 /\ touch_block b2 q = Ok b3 /\
    unref_block b3 q = Ok b4 /\ table_in b4 t (<[h := k]> m) /\
    ((forall x, x ∈ partition t -> x <> p -> saved b1 x) -> durable b4 t).
Proof.
  intros Hin Har Hh Hw Edet Hd1 Hnx Ep Ha Hc Hmin -> -> Hij Hq Hnq Hs Hki Hkj Hl1 Hl2 Hperm Hids.
  pose proof (around_keys _ _ _ _ _ _ _ _ _ _ _ _ _ k Hin Har Hh) as Hn. destruct Har as [Ept Ho Ed Ehi Hr].
  assert (own b1 p ip d1) as Ho1 by (unfold own; by rewrite Edet, lookup_insert_eq).
  assert (length (keys_of (contents b1 i)) <= 127)%nat as Hl3 by (rewrite keys_of_length; destruct Hki; lia).
  destruct (share_keys_ok b1 p ip d1 a a' (x1, if (a <? a')%nat then i else j) q i c nq j c' h k Hw Ho1 Hd1)
    as (b2 & d2 & ks & kk & E2 & Hw2 & Hks & Hsort & Hkk & D2 & Hd2 & Hn2 & Hp2 & C2 & Hh2 & A2 & Hq2 & Hs2 & Sp & Sx); try done.
  { by rewrite Hmin, Ep, lookup_app_r, Nat.sub_diag. }
  { rewrite !length_app. cbn [length]. lia. }
  { by rewrite app_assoc, Hperm. }
  destruct (touch_unref b2 q i c Hw2 Hq2 Hs2) as (b3 & b4 & E3 & E4 & Hw4 & [D4 C4 A4] & Ha4 & S4).
  exists b2, b3, b4. do 3 (split; [done|]). split.
  - apply (table_in_share b b4 t m p ip d d2 l1 l2 es1 old es2 (if (a <? a')%nat then i else j) (if (a <? a')%nat then j else i) hi ks kk);
      try done.
    + by rewrite D4, D2, Edet, insert_insert_eq.
    + congruence.
    + rewrite Hp2, Ep, Hmin. by rewrite insert_app_r_alt, Nat.sub_diag.
    + by rewrite A4, A2.
    + intros x Hx Hx1 Hx2. rewrite C4, C2, Hc; destruct (a <? a')%nat; done.
    + by destruct (a <? a')%nat; [|apply not_eq_sym].
    + intros x Hx. assert (x = i \/ x = j) as Hx' by (destruct (a <? a')%nat; tauto). split; [|by apply Hids].
      rewrite A4, A2. destruct Hx' as [->| ->]; [by apply (held_allocated b1 q i c)|by apply (held_allocated b1 nq j c')].
    + by rewrite Hks, app_assoc, Hperm.
    + rewrite Hks, !length_app. cbn [length]. lia.
    + rewrite !C4. by destruct (a <? a')%nat.
  - intros Hsp. assert (forall x, x ∈ partition t -> x <> q /\ x <> nq) as Hdis.
    { intros x Hx. destruct (map_block_own b t m x Hin Hx) as (ix & dx & Hox & _).
      assert (exists d', own b1 x ix d') as [d' Hox1].
      { unfold own in *. rewrite Edet. destruct (decide (x = p)) as [->|Hne]; [|exists dx; by rewrite lookup_insert_ne].
        rewrite lookup_insert_eq. exists d1. rewrite Ho in Hox. by injection Hox as <- _. }
      by destruct (own_held b1 x q _ _ _ _ Hw Hox1 Hq), (own_held b1 x nq _ _ _ _ Hw Hox1 Hnq). }
    apply Forall_forall. intros x Hx. destruct (Hdis x Hx) as [Hxq Hxn]. apply S4; [done|].
    destruct (decide (x = p)) as [->|Hne]; [done|]. by apply Sx, Hsp.
Qed.

Lemma around_entries b t h p ip d l1 l2 es1 old es2 hi : around b t h p ip d l1 l2 es1 old es2 hi ->
  entries (det b) (partition t) = before b l1 es1 ++ old ++ behind b l2 es2.
Proof.
  intros [Ept Ho Ed _ _]. rewrite Ept, entries_app, entries_cons. unfold block_parts. unfold own in Ho. rewrite Ho, Ed.
  unfold before, behind. by rewrite <- !app_assoc.
Qed.

(** An id of [old] is not that of another block. *)
Lemma around_ids b t m h p ip d l1 l2 es1 old es2 hi i : table_in b t m -> around b t h p ip d l1 l2 es1 old es2 hi ->
  i ∈ old.*2 -> ~ i ∈ (before b l1 es1 ++ behind b l2 es2).*2 /\ forall q j dq, det b !! q = Some (j, dq) -> i <> j.
Proof.
  intros Hin Har Hi. pose proof (in_ok _ _ _ Hin) as [_ _ _ _ _ Hn _ Hd _].
  rewrite (around_entries _ _ _ _ _ _ _ _ _ _ _ _ Har) in Hn, Hd. split.
  - rewrite Permutation_app_swap_app, fmap_app in Hn. apply NoDup_app in Hn as (_ & Hn & _). by apply Hn.
  - intros q j dq Hq ->. apply (Hd q j dq Hq). rewrite !fmap_app, !elem_of_app. tauto.
Qed.

(** Sharing with a neighbour, the next ([a < a']) or the previous. *)
Lemma neighbours_add b t m h k p ip d l1 l2 es1 e1 e2 es2 a a' q c nq c' :
  table_in b t m -> around b t h p ip d l1 l2 es1 [e1; e2] es2 e2.1 -> m !! h = None ->
  Nat.min a a' = length es1 ->
  let i := if (a <? a')%nat then e1.2 else e2.2 in let j := if (a <? a')%nat then e2.2 else e1.2 in
  held b q i c -> held b nq j c' ->
  (1 <= length (keys_of (contents b i)))%nat -> (length (keys_of (contents b j)) < 127)%nat ->
  exists b2 b3 b4, share_keys b p (Z.of_nat a) (Z.of_nat a') q nq h k = Ok b2 /\ touch_block b2 q = Ok b3 /\
    unref_block b3 q = Ok b4 /\ table_in b4 t (<[h := k]> m) /\
    ((forall x, x ∈ partition t -> x <> p -> saved b x) -> durable b4 t).
Proof.
  intros Hin Har Hh Hmin i j Hq Hnq L1 L2. pose proof (in_ok _ _ _ Hin) as [H1 H2 H3 H4 H5 H6 H7 H8 H9].
  pose proof (around_entries _ _ _ _ _ _ _ _ _ _ _ _ Har) as Ee. pose proof (ar_own _ _ _ _ _ _ _ _ _ _ _ _ Har) as Ho.
  assert (block_ok d 1) as Hd.
  { rewrite (ar_partition _ _ _ _ _ _ _ _ _ _ _ _ Har) in H1. apply Forall_app in H1 as [_ H1].
    apply Forall_cons in H1 as [(i0 & d0 & E & Hd & _) _]. unfold own in Ho. rewrite E in Ho. by injection Ho as <- <-. }
  rewrite Ee in H4, H6. apply ranges_app in H4 as [_ (_ & [Hb1 _] & _ & [Hb2 _] & _)].
  assert (e1.2 <> e2.2) as Hne.
  { rewrite !fmap_app in H6. apply NoDup_app in H6 as (_ & _ & H6). apply NoDup_app in H6 as (H6 & _ & _).
    apply NoDup_cons in H6 as [H6 _]. intros E. apply H6. rewrite E. apply list_elem_of_here. }
  apply (share_adds b b t m h k p ip d d l1 l2 es1 [e1; e2] es2 e2.1 e1.2 e2.2 e1.1 a a' q i c nq j c'); try done.
  - apply (in_wf _ _ _ Hin).
  - by rewrite insert_id.
  - rewrite (ar_parts _ _ _ _ _ _ _ _ _ _ _ _ Har). by destruct e1, e2.
  - by unfold i, j; destruct (a <? a')%nat.
  - by unfold i, j; destruct (a <? a')%nat.
  - unfold i, j; destruct (a <? a')%nat; [done|]. by apply not_eq_sym.
  - intros x jx cx Hx _ _. by apply (in_saved _ _ _ Hin x jx cx).
  - by unfold i; destruct (a <? a')%nat.
  - by unfold j; destruct (a <? a')%nat.
  - rewrite !flat_cons. cbn [flat map concat]. unfold i, j. destruct (a <? a')%nat; unfold flat; cbn [map concat];
      rewrite app_nil_r; [done|apply Permutation_app_comm].
  - intros x Hx. apply (around_ids b t m h p ip d l1 l2 es1 [e1; e2] es2 e2.1 x Hin Har).
    unfold i, j in Hx. cbn. rewrite !elem_of_cons. destruct (a <? a')%nat; tauto.
Qed.

(** ** A new block of keys *)

(** The state in which the keys of the block at [q] can be shared with the new block at [nq]: the
    partition of [h] in the table of [b0] has become two.  [D] is what the blocks of the map being
    saved depends on. *)
Record prepared (D : Prop) b0 b t m (h : Z) (p : ptr) (ip : Z) (d d1 : list Z) (l1 l2 : list ptr) (es1 es2 : list (Z * Z)) (e : Z * Z)
    (q : ptr) (c : nat) (nq : ptr) (j : Z) : Prop := {
  pr_in : table_in b0 t m;
  pr_located : located b0 t h p ip d l1 l2 es1 es2 e;
  pr_wf : wf b;
  pr_det : det b = <[p := (ip, d1)]> (det b0);
  pr_block : block_ok d1 1 /\ d1 !!! 0%nat = d !!! 0%nat /\ parts_of d1 = es1 ++ e :: (e.1, j) :: es2;
  pr_allocated : allocated b = {[j]} ∪ allocated b0;
  pr_fresh : ~ j ∈ allocated b0;
  pr_contents : forall x, x ∈ allocated b0 -> contents b x = contents b0 x;
  pr_keys : block_ok (contents b j) 0 /\ keys_of (contents b j) = [];
  pr_held : held b q e.2 c;
  pr_new : held b nq j 1;
  pr_saved : forall x jx cx, held b x jx cx -> x <> nq -> saved b x;
  pr_maps : D -> forall x, x ∈ partition t -> x <> p -> saved b x;
}.

Lemma set_used_0 d d' : length d = block_words -> set_key_used d 0 = Ok d' -> block_ok d' 0 /\ keys_of d' = [].
Proof.
  intros Hd E. unfold set_key_used in E. rewrite set_word_at in E by (done || lia). injection E as <-.
  change (Z.to_nat 0) with O. assert (<[0%nat := 0]> d !!! 0%nat = 0) as E0 by (apply get_insert_eq; rewrite Hd; unfold block_words; lia).
  split; [split; [by rewrite length_insert|by rewrite E0]|]. apply nil_length_inv. by rewrite keys_of_length, E0.
Qed.

(** The part of [split_partition] behind dividing the block of the map. *)
Definition new_partition b t (ptblock : ptr) (index : Z) : res (B * CamelPartitionTable * option (ptr * Z * ptr)) :=
  '(b, newblock) ← new_block b;
  match newblock with
  | None => Ok (b, t, None)
  | Some newblock =>
      ptb ← block_data b ptblock;
      id ← block_id b newblock;
      ptb ← insert_part ptb index id;
      b ← write_data b ptblock ptb;
      newkb ← block_data b newblock;
      newkb ← set_key_used newkb 0;
      b ← write_data b newblock newkb;
      Ok (b, t, Some (ptblock, index, newblock))
  end.

Lemma new_partition_ok (D : Prop) b t m h p ip d l1 l2 es1 es2 e q c n : table_in b t m -> located b t h p ip d l1 l2 es1 es2 e ->
  (length (parts_of d) < 127)%nat -> held b q e.2 c -> room b (S n) -> (D -> forall x, x ∈ partition t -> x <> p -> saved b x) ->
  exists b' r, new_partition b t p (Z.of_nat (length es1)) = Ok (b', t, r) /\
  match r with
  | None => table_in b' t m /\ all_held b b' /\ refused B
  | Some (p', index, nq) => p' = p /\ index = Z.of_nat (length es1) /\ (forall x jx cx, held b x jx cx -> held b' x jx cx) /\
      exists d1 j, prepared D b b' t m h p ip d d1 l1 l2 es1 es2 e q c nq j
  end.
Proof.
  intros Hin Hl Hlen Hq Hr HD. pose proof (in_wf _ _ _ Hin) as Hw. pose proof Hl as [Hpt Ho Ed _].
  destruct (new_view b n Hw Hr) as (b1 & r & E1 & Hw1 & S1 & _ & Hp). unfold new_partition. rewrite E1, res_bind_Ok. cbv beta iota zeta.
  destruct r as [nq|].
  2:{ destruct Hp as [Hv Hh]. exists b1, None. split; [done|]. split; [|split; [done|by apply (refused_new b b1 n)]].
      apply (table_in_same b); try done. apply (all_saved_same b); auto. apply Hin. }
  destruct Hp as (j & Hj & D1 & C1 & Z1 & A1 & Hnq & Snq & Hpn & Hdn & O1).
  destruct (located_part _ _ _ _ _ _ _ _ _ _ _ _ Hin Hl) as (Hd & _ & _).
  assert (own b1 p ip d) as Ho1 by (unfold own; by rewrite D1).
  destruct (own_data b1 p ip d Hw1 Ho1) as (-> & _), (held_data b1 nq j 1 Hw1 Hnq) as (_ & ->). rewrite !res_bind_Ok.
  destruct (insert_part_ok d (length es1) e j Hd) as (d1 & -> & Hd1 & Hn1 & P1); [by rewrite Ed, lookup_app_r, Nat.sub_diag by lia|done|].
  rewrite res_bind_Ok. destruct (write_own_view b1 p ip d d1 Hw1 Ho1 (proj1 Hd1)) as (b2 & -> & Hw2 & D2 & C2 & A2 & O2 & S2 & _).
  rewrite res_bind_Ok. pose proof (proj2 (O2 nq j 1%nat) Hnq) as Hnq2. destruct (held_data b2 nq j 1 Hw2 Hnq2) as (-> & _). rewrite !res_bind_Ok.
  destruct (set_key_used (contents b2 j) 0) as [kb| |] eqn:Ek;
    [|by unfold set_key_used in Ek; rewrite set_word_at in Ek by (lia || by apply contents_length)..].
  destruct (set_used_0 _ _ (contents_length b2 j Hw2) Ek) as (Hkb & Hk0). rewrite res_bind_Ok.
  destruct (write_view b2 nq j 1 kb Hw2 Hnq2 (proj1 Hkb)) as (b3 & -> & Hw3 & D3 & C3 & A3 & Hnq3 & O3 & S3 & _).
  rewrite res_bind_Ok. exists b3, (Some (p, Z.of_nat (length es1), nq)). do 3 (split; [done|]).
  assert (forall x jx cx, held b x jx cx -> x <> nq) as Hxn by (intros x jx cx Hx ->; unfold held in Hx; congruence).
  assert (forall x jx cx, held b x jx cx -> held b3 x jx cx) as Hh.
  { intros x jx cx Hx. pose proof (Hxn x jx cx Hx). by apply O3, O2, O1. }
  split; [done|]. exists d1, j. split; try done.
  - congruence.
  - do 2 (split; [done|]). rewrite P1, Ed. replace (es1 ++ e :: es2) with ((es1 ++ [e]) ++ es2) by by rewrite <- app_assoc.
    rewrite take_app_length', drop_app_length' by (rewrite length_app; cbn; lia). by rewrite <- app_assoc.
  - congruence.
  - intros x Hx. rewrite C3, change_ne, C2 by (by intros ->). by apply C1.
  - by rewrite C3, change_eq.
  - by apply Hh.
  - intros x jx cx Hx Hne. apply S3; [done|]. apply O3, O2, O1 in Hx; [|done..]. apply S2; [|by apply S1, (in_saved _ _ _ Hin x jx cx)].
    intros ->. by destruct (own_held b p p _ _ _ _ Hw Ho Hx).
  - intros HDD x Hx Hne. assert (x <> nq) as Hxn'.
    { intros ->. destruct (map_block_own b t m nq Hin Hx) as (? & ? & Hox & _). unfold own in Hox. congruence. }
    apply S3; [done|]. apply S2; [done|]. by apply S1, HD.
Qed.

(** Giving back a neighbour. *)
Lemma unref_prepared D b0 b t m h p ip d d1 l1 l2 es1 es2 e q c nq j a :
  prepared D b0 b t m h p ip d d1 l1 l2 es1 es2 e q c nq j ->
  match a with Some a => exists i c', held b a i c' /\ i <> e.2 /\ i ∈ allocated b0 | None => True end ->
  exists b', unref_opt b a = Ok b' /\ prepared D b0 b' t m h p ip d d1 l1 l2 es1 es2 e q c nq j /\
    (forall x i cx, held b x i cx -> (forall y, a = Some y -> x <> y) -> held b' x i cx).
Proof.
  intros Hpr Ha. destruct a as [a|]; [|by exists b]. destruct Ha as (i & c' & Ha & Hie & Hi0).
  destruct Hpr as [P1 P2 P3 P4 P5 P6 P7 P8 P9 P10 P11 P12 P13].
  assert (a <> nq) as Han by (intros ->; destruct (held_id _ _ _ _ _ _ Ha P11) as [-> _]; done).
  assert (a <> q) as Haq by (intros ->; by destruct (held_id _ _ _ _ _ _ Ha P10) as [-> _]).
  destruct (unref_view b a i c' P3 Ha (P12 _ _ _ Ha Han)) as (b' & E & Hw' & [D' C' A'] & O' & [S' _] & Hc & Hn).
  exists b'. split; [done|]. split; [split; try done|].
  - congruence.
  - congruence.
  - intros x Hx. by rewrite C', P8.
  - by rewrite C'.
  - by apply O'; [apply not_eq_sym|].
  - by apply O'; [apply not_eq_sym|].
  - intros x jx cx Hx Hne. destruct (decide (x = a)) as [->|Hxa].
    + destruct (decide (1 < c')%nat) as [Hlt|]; [by apply Hc|]. unfold held in Hx. rewrite Hn in Hx by lia. done.
    + apply S'; [done|]. apply (P12 x jx cx); [by apply O'|done].
  - intros HD x Hx Hne. apply S'; [|by apply P13]. intros ->.
    destruct (map_block_own b0 t m a P1 Hx) as (ia & da & Hoa & _).
    assert (own b a ia da) as Hob by (unfold own; by rewrite P4, lookup_insert_ne).
    by destruct (own_held b a a _ _ _ _ P3 Hob Ha).
  - intros x jx cx Hx Hne. apply O'; [by apply Hne|done].
Qed.

(** Sharing with the new block. *)
Lemma prepared_adds D b0 b t m h k p ip d d1 l1 l2 es1 es2 e q c nq j :
  prepared D b0 b t m h p ip d d1 l1 l2 es1 es2 e q c nq j -> m !! h = None -> (1 <= length (keys_of (contents b0 e.2)))%nat ->
  exists b2 b3 b4, share_keys b p (Z.of_nat (length es1)) (Z.of_nat (length es1) + 1) q nq h k = Ok b2 /\ touch_block b2 q = Ok b3 /\
    unref_block b3 q = Ok b4 /\ table_in b4 t (<[h := k]> m) /\ (D -> durable b4 t).
Proof.
  intros [P1 P2 P3 P4 (P5 & P5' & P5'') P6 P7 P8 [P9 P9'] P10 P11 P12 P13] Hh Hlen.
  assert (around b0 t h p ip d l1 l2 es1 [e] es2 e.1) as Har by by destruct P2; split.
  destruct (located_keys b0 t m h p ip d l1 l2 es1 es2 e P1 P2) as [(Hk & _) _].
  assert (e.2 ∈ allocated b0) as He by apply (key_block_id b0 t m e.2 P1 (located_id _ _ _ _ _ _ _ _ _ _ _ P2)).
  replace (Z.of_nat (length es1) + 1) with (Z.of_nat (S (length es1))) by lia.
  destruct (share_adds b0 b t m h k p ip d d1 l1 l2 es1 [e] es2 e.1 e.2 j e.1 (length es1) (S (length es1)) q e.2 c nq j 1)
    as (b2 & b3 & b4 & E2 & E3 & E4 & Hin4 & Hdu); try done.
  - rewrite P5''. by destruct e.
  - rewrite P6. apply union_subseteq_r.
  - lia.
  - by rewrite (proj2 (Nat.ltb_lt _ _)) by lia.
  - by rewrite (proj2 (Nat.ltb_lt _ _)) by lia.
  - by intros <-.
  - intros x jx cx Hx _ Hne. by apply (P12 x jx cx).
  - by rewrite P8.
  - by rewrite P8.
  - rewrite P9'. cbn. lia.
  - rewrite P9', P8 by done. unfold flat. cbn [map concat]. done.
  - intros x [->| ->].
    + apply (around_ids b0 t m h p ip d l1 l2 es1 [e] es2 e.1 e.2 P1 Har). apply list_elem_of_here.
    + pose proof (in_ok _ _ _ P1) as Hok. pose proof (t_allocated _ _ _ _ _ Hok) as Hall. rewrite Forall_forall in Hall. split.
      * intros Hx. apply P7, Hall. rewrite (around_entries _ _ _ _ _ _ _ _ _ _ _ _ Har).
        rewrite !fmap_app, !elem_of_app in *. tauto.
      * intros q' i dq Hq' ->. apply P7. by destruct (own_data b0 q' i dq (in_wf _ _ _ P1) Hq') as (_ & _ & _ & ?).
  - exists b2, b3, b4. do 4 (split; [done|]). auto.
Qed.

Lemma split_partition_ok b t m h p ip d l1 l2 es1 es2 e q c : table_in b t m -> located b t h p ip d l1 l2 es1 es2 e ->
  (length (parts_of d) = 127%nat -> length es1 <> 63%nat) -> held b q e.2 c -> room b 2 ->
  exists b' t' r, split_partition b t p (Z.of_nat (length es1)) = Ok (b', t', r) /\ rootid t' = rootid t /\
  (forall x jx cx, held b x jx cx -> held b' x jx cx) /\
  match r with
  | None => table_in b' t' m /\ refused B
  | Some (p', index, nq) => exists b0 i' d' d1 l1' l2' es1' es2' j,
      prepared (durable b t) b0 b' t' m h p' i' d' d1 l1' l2' es1' es2' e q c nq j /\ index = Z.of_nat (length es1') /\
      contents b0 e.2 = contents b e.2 /\ allocated b ⊆ allocated b0
  end.
Proof.
  intros Hin Hl Hmid Hq Hr. destruct (located_part _ _ _ _ _ _ _ _ _ _ _ _ Hin Hl) as (Hd & Ed & _).
  assert (e.2 ∈ allocated b) as He by apply (key_block_id b t m e.2 Hin (located_id _ _ _ _ _ _ _ _ _ _ _ Hl)).
  unfold split_partition. rewrite Ed, res_bind_Ok, part_used_ok, res_bind_Ok by done.
  destruct (Z.leb_spec part_slots (Z.of_nat (length (parts_of d)))) as [Hfull|Hnot]; unfold part_slots in *.
  - assert (length (parts_of d) = 127%nat) as Hf by (rewrite parts_of_length in *; destruct Hd; lia).
    destruct (split_map_ok b t m h p ip d l1 l2 es1 es2 e 1 Hin Hl Hf (Hmid Hf) Hr) as (b1 & r & -> & Hs). rewrite res_bind_Ok.
    cbv beta iota zeta. destruct r as [[[t' p'] index]|].
    2:{ destruct Hs as (Hin1 & _ & _ & Hh & Hfa). exists b1, t, None. do 2 (split; [done|]). split; [|done]. intros x jx cx Hx. by apply Hh. }
    destruct Hs as (Ert & Hin1 & R1 & A1 & C1 & H1 & S1 & i' & d' & l1' & l2' & es1' & es2' & Hl1 & -> & Hlen).
    destruct (new_partition_ok (durable b t) b1 t' m h p' i' d' l1' l2' es1' es2' e q c O Hin1 Hl1 Hlen (H1 _ _ _ Hq) R1 S1)
      as (b2 & r & E2 & Hr2). fold (new_partition b1 t' p' (Z.of_nat (length es1'))). rewrite E2. exists b2, t', r. split; [done|]. split; [done|].
    destruct r as [[[p2 index] nq]|].
    + destruct Hr2 as (-> & -> & H2 & d1 & j & Hpr). split; [by auto|]. exists b1. do 8 eexists. split; [exact Hpr|].
      split; [done|]. split; [by apply C1|done].
    + destruct Hr2 as (Hin2 & Hh2 & Hfa2). split; [|done]. intros x jx cx Hx. by apply Hh2, H1.
  - rewrite res_bind_Ok. cbv beta iota zeta.
    destruct (new_partition_ok (durable b t) b t m h p ip d l1 l2 es1 es2 e q c 1 Hin Hl ltac:(lia) Hq Hr) as (b2 & r & E2 & Hr2).
    { intros Hdu x Hx _. unfold durable in Hdu. rewrite Forall_forall in Hdu. by apply Hdu. }
    fold (new_partition b t p (Z.of_nat (length es1))). rewrite E2. exists b2, t, r. split; [done|]. split; [done|].
    destruct r as [[[p2 index] nq]|].
    + destruct Hr2 as (-> & -> & H2 & d1 & j & Hpr). split; [by auto|]. exists b. do 8 eexists. split; [exact Hpr|]. done.
    + destruct Hr2 as (Hin2 & Hh2 & Hfa2). split; [|done]. intros x jx cx Hx. by apply Hh2.
Qed.

(** ** A full block *)

Lemma ranges_block_ok C lo es e : ranges C lo es -> e ∈ es -> block_ok (C e.2) 0.
Proof.
  revert lo. induction es as [|a es IH]; intros lo Hr He; [by apply not_elem_of_nil in He|].
  destruct Hr as (_ & [Hb _] & Hr). apply elem_of_cons in He as [->|He]; [done|]. by apply (IH _ Hr).
Qed.

Lemma room_in_ok b a : wf b -> match a with Some a => exists i c, held b a i c /\ block_ok (contents b i) 0 | None => True end ->
  exists r, room_in b a = Ok r /\
    forall u, r = Some u -> exists p, a = Some p /\ forall i c, held b p i c -> (length (keys_of (contents b i)) < 127)%nat.
Proof.
  intros Hw Ha. destruct a as [p|]; [|by exists None]. destruct Ha as (i & c & Hp & Hb). unfold room_in.
  destruct (held_data b p i c Hw Hp) as [-> _]. rewrite res_bind_Ok, key_used_ok, res_bind_Ok by done. eexists. split; [done|].
  intros u Eu. exists p. split; [done|]. intros j c' Hj. destruct (held_id _ _ _ _ _ _ Hp Hj) as [-> _].
  unfold key_slots in Eu. destruct (Z.ltb_spec (Z.of_nat (length (keys_of (contents b j)))) 127); [lia|done].
Qed.

(** What [add_full] has done when it succeeds, for the rest of [camel_partition_table_add]. *)
Definition added b0 t b t' (q : ptr) m' : Prop :=
  exists b1 b2, touch_block b q = Ok b1 /\ unref_block b1 q = Ok b2 /\ table_in b2 t' m' /\ (durable b0 t -> durable b2 t').

Section full.
Variables (b : B) (t : CamelPartitionTable) (m : gmap Z Z) (h k : Z) (p : ptr) (i : Z) (d : list Z) (l1 l2 : list ptr).
Variables (es1 es2 : list (Z * Z)) (e : Z * Z) (q : ptr) (c : nat).
Hypothesis Hin : table_in b t m.
Hypothesis Hl : located b t h p i d l1 l2 es1 es2 e.
Hypothesis Hh : m !! h = None.
Hypothesis Hq : held b q e.2 c.
Hypothesis Hlen : (1 <= length (keys_of (contents b e.2)))%nat.

Lemma map_saved_but b' : (durable b t -> durable b' t) -> durable b t -> forall x, x ∈ partition t -> x <> p -> saved b' x.
Proof. intros Hdu Hd x Hx _. specialize (Hdu Hd). unfold durable in Hdu. rewrite Forall_forall in Hdu. by apply Hdu. Qed.

Lemma add_next b0 pb nq e2 es2' c' : es2 = e2 :: es2' -> (durable b0 t -> durable b t) ->
  match pb with Some _ => previous b es1 pb | None => True end ->
  held b nq e2.2 c' -> (length (keys_of (contents b e2.2)) < 127)%nat ->
  exists b1 b2, unref_opt b pb = Ok b1 /\
    share_keys b1 p (Z.of_nat (length es1)) (Z.of_nat (length es1) + 1) q nq h k = Ok b2 /\ added b0 t b2 t q (<[h := k]> m).
Proof.
  intros Ees Hd0 Hpb Hnq Hl2. pose proof (located_entries _ _ _ _ _ _ _ _ _ _ _ Hl) as Ee.
  assert (exists j c1, match pb with Some a => held b a j c1 /\ j <> e.2 /\ j <> e2.2 | None => True end) as (j & c1 & Hj).
  { destruct pb as [a|]; [|by exists 0, O]. destruct Hpb as (es & e1 & c1 & -> & Ha). exists e1.2, c1. split; [done|]. split.
    - apply (neighbour_ids b t m _ _ _ _ _ _ _ _ _ e1 Hin Hl). left. apply elem_of_last.
    - apply (neighbours_apart b t m _ _ _ _ _ _ _ _ _ _ _ Hin Hl); [apply elem_of_last|]. rewrite Ees. apply list_elem_of_here. }
  destruct (unref_opt_ok b t m pb j c1 Hin) as (b1 & E1 & Hin1 & Hv & Hdu & _ & Hk); [by destruct pb as [a|]; [destruct Hj|]|].
  assert (held b1 q e.2 c /\ held b1 nq e2.2 c') as [Hq1 Hnq1].
  { destruct pb as [a|]; [|by injection E1 as <-]. destruct Hj as (_ & J1 & J2). split; apply Hk; try done; by apply not_eq_sym. }
  pose proof (same_contents _ _ Hv) as Hc. apply (located_same b b1) in Hl as Hl1; [|done].
  assert (around b1 t h p i d l1 l2 es1 [e; e2] es2' e2.1) as Har.
  { destruct Hl1 as [H1 H2 H3 H4]. split; try done; [by rewrite H3, Ees|]. unfold before.
    pose proof (t_ranges _ _ _ _ _ (in_ok _ _ _ Hin)) as Hr. rewrite Ee in Hr. apply ranges_app in Hr as [_ (_ & _ & Hr)].
    unfold behind in Hr. rewrite Ees in Hr. destruct Hr as [Hr _]. lia. }
  replace (Z.of_nat (length es1) + 1) with (Z.of_nat (S (length es1))) by lia.
  pose proof (neighbours_add b1 t m h k p i d l1 l2 es1 e e2 es2' (length es1) (S (length es1)) q c nq c' Hin1 Har Hh) as Hadd.
  cbv zeta in Hadd. rewrite (proj2 (Nat.ltb_lt _ _)), !Hc in Hadd by lia.
  destruct (Hadd ltac:(lia) Hq1 Hnq1 Hlen Hl2) as (b2 & b3 & b4 & E2 & E3 & E4 & Hin4 & Hdu4).
  exists b1, b2. do 2 (split; [done|]). exists b3, b4. do 3 (split; [done|]). intros Hd. apply Hdu4. apply map_saved_but; auto.
Qed.

Lemma add_previous b0 nb nq e1 es c' : es1 = es ++ [e1] -> (durable b0 t -> durable b t) ->
  match nb with Some _ => following b es2 nb | None => True end ->
  held b nq e1.2 c' -> (length (keys_of (contents b e1.2)) < 127)%nat ->
  exists b1 b2, unref_opt b nb = Ok b1 /\
    share_keys b1 p (Z.of_nat (length es1)) (Z.of_nat (length es1) - 1) q nq h k = Ok b2 /\ added b0 t b2 t q (<[h := k]> m).
Proof.
  intros Ees Hd0 Hnb Hnq Hl2. pose proof (located_entries _ _ _ _ _ _ _ _ _ _ _ Hl) as Ee.
  assert (exists j c1, match nb with Some a => held b a j c1 /\ j <> e.2 /\ j <> e1.2 | None => True end) as (j & c1 & Hj).
  { destruct nb as [a|]; [|by exists 0, O]. destruct Hnb as (e2 & es2' & c1 & -> & Ha). exists e2.2, c1. split; [done|]. split.
    - apply (neighbour_ids b t m _ _ _ _ _ _ _ _ _ e2 Hin Hl). right. apply list_elem_of_here.
    - apply not_eq_sym. apply (neighbours_apart b t m _ _ _ _ _ _ _ _ _ _ _ Hin Hl); [|apply list_elem_of_here].
      rewrite Ees. apply elem_of_last. }
  destruct (unref_opt_ok b t m nb j c1 Hin) as (b1 & E1 & Hin1 & Hv & Hdu & _ & Hk); [by destruct nb as [a|]; [destruct Hj|]|].
  assert (held b1 q e.2 c /\ held b1 nq e1.2 c') as [Hq1 Hnq1].
  { destruct nb as [a|]; [|by injection E1 as <-]. destruct Hj as (_ & J1 & J2). split; apply Hk; try done; by apply not_eq_sym. }
  pose proof (same_contents _ _ Hv) as Hc. apply (located_same b b1) in Hl as Hl1; [|done].
  assert (around b1 t h p i d l1 l2 es [e1; e] es2 e.1) as Har.
  { destruct Hl1 as [H1 H2 H3 H4]. split; try done; [by rewrite H3, Ees, <- app_assoc|]. unfold before.
    unfold before in Ee. rewrite Ees, app_assoc, <- app_assoc in Ee.
    pose proof (t_ranges _ _ _ _ _ (in_ok _ _ _ Hin)) as Hr. rewrite Ee in Hr. apply ranges_app in Hr as [_ [Hr _]].
    rewrite Ees, app_assoc, upto_app in H4. cbn [upto] in H4. rewrite (same_det _ _ Hv). lia. }
  subst es1. rewrite length_app. cbn [length]. replace (Z.of_nat (length es + 1) - 1) with (Z.of_nat (length es)) by lia.
  pose proof (neighbours_add b1 t m h k p i d l1 l2 es e1 e es2 (length es + 1) (length es) q c nq c' Hin1 Har Hh) as Hadd.
  cbv zeta in Hadd. rewrite (proj2 (Nat.ltb_ge _ _)), !Hc in Hadd by lia.
  destruct (Hadd ltac:(lia) Hq1 Hnq1 Hlen Hl2) as (b2 & b3 & b4 & E2 & E3 & E4 & Hin4 & Hdu4).
  exists b1, b2. do 2 (split; [done|]). exists b3, b4. do 3 (split; [done|]). intros Hd. apply Hdu4. apply map_saved_but; auto.
Qed.
End full.

Lemma entry_allocated b t m i : table_in b t m -> i ∈ (entries (det b) (partition t)).*2 -> i ∈ allocated b /\ block_ok (contents b i) 0.
Proof.
  intros Hin Hi. split; [by apply (key_block_id b t m i Hin Hi)|]. apply list_elem_of_fmap in Hi as (e & -> & He).
  by apply (ranges_block_ok _ _ _ e (t_ranges _ _ _ _ _ (in_ok _ _ _ Hin))).
Qed.

(** The neighbours as blocks with references to them. *)
Lemma neighbours_held b t m h p i d l1 l2 es1 es2 e pb nb : table_in b t m -> located b t h p i d l1 l2 es1 es2 e ->
  previous b es1 pb -> following b es2 nb ->
  exists jp cp jn cn,
    match pb with Some a => held b a jp cp /\ jp <> e.2 /\ jp ∈ allocated b /\ block_ok (contents b jp) 0 | None => True end /\
    match nb with Some a => held b a jn cn /\ jn <> e.2 /\ jn ∈ allocated b /\ block_ok (contents b jn) 0 | None => True end /\
    match pb, nb with Some a, Some a' => jp <> jn /\ a <> a' | _, _ => True end.
Proof.
  intros Hin Hl Hp Hn.
  assert (forall e', e' ∈ es1 \/ e' ∈ es2 -> e'.2 <> e.2 /\ e'.2 ∈ allocated b /\ block_ok (contents b e'.2) 0) as Hok.
  { intros e' He'. destruct (neighbour_ids b t m _ _ _ _ _ _ _ _ _ e' Hin Hl He') as [Hi Hne].
    by destruct (entry_allocated b t m e'.2 Hin Hi). }
  destruct pb as [a|], nb as [a'|].
  - destruct Hp as (es & e1 & cp & -> & Hp), Hn as (e2 & es' & cn & -> & Hn).
    assert (e1.2 <> e2.2) as Hne by
      (apply (neighbours_apart b t m _ _ _ _ _ _ _ _ _ _ _ Hin Hl); [apply elem_of_last|apply list_elem_of_here]).
    exists e1.2, cp, e2.2, cn. split; [split; [done|]; apply Hok; left; apply elem_of_last|].
    split; [split; [done|]; apply Hok; right; apply list_elem_of_here|]. split; [done|]. intros ->. apply Hne.
    by destruct (held_id _ _ _ _ _ _ Hp Hn).
  - destruct Hp as (es & e1 & cp & -> & Hp). exists e1.2, cp, 0, O. split; [split; [done|]; apply Hok; left; apply elem_of_last|done].
  - destruct Hn as (e2 & es' & cn & -> & Hn). exists 0, O, e2.2, cn. split; [done|].
    split; [split; [done|]; apply Hok; right; apply list_elem_of_here|done].
  - by exists 0, O, 0, O.
Qed.

(** The part of [add_full] for when no neighbour has room. *)
Definition add_partition b t (ptblock : ptr) (index : Z) (block : ptr) (pblock nblock : option ptr) (hashid keyid : Z)
    : res (B * CamelPartitionTable * bool) :=
  '(b, cpi, r) ← split_partition b t ptblock index;
  b ← unref_opt b nblock;
  b ← unref_opt b pblock;
  match r with
  | None => Ok (b, cpi, false)
  | Some (ptblock, index, newblock) =>
      b ← share_keys b ptblock index (index + 1) block newblock hashid keyid;
      Ok (b, cpi, true)
  end.

Lemma add_partition_ok b t m h k p i d l1 l2 es1 es2 e q c pb nb :
  table_in b t m -> located b t h p i d l1 l2 es1 es2 e -> m !! h = None -> held b q e.2 c ->
  (1 <= length (keys_of (contents b e.2)))%nat -> (length (parts_of d) = 127%nat -> length es1 <> 63%nat) -> room b 2 ->
  previous b es1 pb -> following b es2 nb ->
  exists b' t' ok, add_partition b t p (Z.of_nat (length es1)) q pb nb h k = Ok (b', t', ok) /\ rootid t' = rootid t /\
    if (ok : bool) then added b t b' t' q (<[h := k]> m) else table_in b' t' m /\ refused B.
Proof.
  intros Hin Hl Hh Hq Hlen Hmid Hr Hp Hn.
  destruct (neighbours_held b t m h p i d l1 l2 es1 es2 e pb nb Hin Hl Hp Hn) as (jp & cp & jn & cn & Jp & Jn & Jpn).
  destruct (split_partition_ok b t m h p i d l1 l2 es1 es2 e q c Hin Hl Hmid Hq Hr) as (b1 & t' & r & E1 & Ert & H1 & Hs).
  unfold add_partition. rewrite E1, res_bind_Ok. cbv beta iota zeta. destruct r as [[[p' index] nq]|].
  - destruct Hs as (b0 & i' & d' & d1 & l1' & l2' & es1' & es2' & j & Hpr & -> & Hc0 & HA).
    destruct (unref_prepared _ b0 b1 t' m h p' i' d' d1 l1' l2' es1' es2' e q c nq j nb Hpr) as (b2 & -> & Hpr2 & H2).
    { destruct nb as [a|]; [|done]. destruct Jn as (J1 & J2 & J3 & _). exists jn, cn. by split; [apply H1|auto]. }
    rewrite res_bind_Ok.
    destruct (unref_prepared _ b0 b2 t' m h p' i' d' d1 l1' l2' es1' es2' e q c nq j pb Hpr2) as (b3 & -> & Hpr3 & _).
    { destruct pb as [a|]; [|done]. destruct Jp as (J1 & J2 & J3 & _). exists jp, cp. split; [|auto]. apply H2; [by apply H1|].
      intros y ->. apply Jpn. }
    rewrite res_bind_Ok. rewrite <- Hc0 in Hlen.
    destruct (prepared_adds _ b0 b3 t' m h k p' i' d' d1 l1' l2' es1' es2' e q c nq j Hpr3 Hh Hlen) as (b4 & b5 & b6 & -> & E5 & E6 & Hin6 & Hd6).
    rewrite res_bind_Ok. exists b4, t', true. do 2 (split; [done|]). by exists b5, b6.
  - destruct Hs as [Hs Hx]. destruct (unref_opt_ok b1 t' m nb jn cn Hs) as (b2 & E2 & Hin2 & _ & _ & _ & Hk2); [by destruct nb; [destruct Jn; apply H1|]|].
    rewrite E2, res_bind_Ok.
    destruct (unref_opt_ok b2 t' m pb jp cp Hin2) as (b3 & -> & Hin3 & _).
    { destruct pb as [a|]; [|done]. destruct Jp as (J1 & _). destruct nb as [a'|]; [|injection E2 as <-; by apply H1].
      apply Hk2; [by apply H1|]. apply Jpn. }
    rewrite res_bind_Ok. by exists b3, t', false.
Qed.

Lemma add_full_ok b t m h k p i d l1 l2 es1 es2 e q c :
  table_in b t m -> located b t h p i d l1 l2 es1 es2 e -> m !! h = None -> held b q e.2 c ->
  (1 <= length (keys_of (contents b e.2)))%nat -> (length (parts_of d) = 127%nat -> length es1 <> 63%nat) -> room b 2 ->
  exists b' t' ok, add_full b t p (Z.of_nat (length es1)) q h k = Ok (b', t', ok) /\ rootid t' = rootid t /\
    if (ok : bool) then added b t b' t' q (<[h := k]> m) else table_in b' t' m /\ refused B.
Proof.
  intros Hin Hl Hh Hq Hlen Hmid Hr. destruct (located_part _ _ _ _ _ _ _ _ _ _ _ _ Hin Hl) as (Hd & Ed & _).
  unfold add_full. rewrite Ed, res_bind_Ok.
  destruct (get_neighbours_ok b t m h p i d l1 l2 es1 es2 e q c Hin Hl Hq) as (b1 & r & -> & Hin1 & Hv & Hdu & Hr1 & Hq1 & Hn).
  rewrite res_bind_Ok. cbv beta iota zeta. destruct r as [[pb nb]|]; [|by exists b1, t, false]. destruct Hn as [Hp Hn].
  apply (located_same b b1) in Hl; [|done]. rewrite <- (same_contents _ _ Hv) in Hlen. specialize (Hr1 _ Hr).
  destruct (neighbours_held b1 t m h p i d l1 l2 es1 es2 e pb nb Hin1 Hl Hp Hn) as (jp & cp & jn & cn & Jp & Jn & _).
  destruct (room_in_ok b1 pb (in_wf _ _ _ Hin1)) as (rp & -> & Rp); [destruct pb; [exists jp, cp; tauto|done]|].
  destruct (room_in_ok b1 nb (in_wf _ _ _ Hin1)) as (rn & -> & Rn); [destruct nb; [exists jn, cn; tauto|done]|].
  rewrite !res_bind_Ok.
  assert (exists b' t' ok, add_partition b1 t p (Z.of_nat (length es1)) q pb nb h k = Ok (b', t', ok) /\ rootid t' = rootid t /\
    if (ok : bool) then added b t b' t' q (<[h := k]> m) else table_in b' t' m /\ refused B) as Hnew.
  { destruct (add_partition_ok b1 t m h k p i d l1 l2 es1 es2 e q c pb nb Hin1 Hl Hh Hq1 Hlen Hmid Hr1 Hp Hn)
      as (b' & t' & ok & E & Ert & Ha). exists b', t', ok. do 2 (split; [done|]). destruct ok; [|done].
    destruct Ha as (b2 & b3 & E2 & E3 & Hin3 & Hd3). exists b2, b3. do 3 (split; [done|]). auto. }
  destruct (choose_neighbour rp rn) as [[]|] eqn:Ec.
  - assert (exists u, rn = Some u) as [u ->] by (destruct rp, rn; try done; by eexists).
    destruct (Rn u eq_refl) as (a & -> & Hroom). destruct Hn as (e2 & es & c2 & Ees & Ha).
    destruct (add_next b1 t m h k p i d l1 l2 es1 es2 e q c Hin1 Hl Hh Hq1 Hlen b pb a e2 es c2 Ees Hdu) as (b2 & b3 & E2 & E3 & Hadd);
      [by destruct pb|done|by apply (Hroom _ _ Ha)|].
    destruct pb; rewrite E2, res_bind_Ok, E3, res_bind_Ok; by exists b3, t, true.
  - assert (exists u, rp = Some u) as [u ->] by (destruct rp, rn; try done; by eexists).
    destruct (Rp u eq_refl) as (a & -> & Hroom). destruct Hp as (es & e1 & c1 & Ees & Ha).
    destruct (add_previous b1 t m h k p i d l1 l2 es1 es2 e q c Hin1 Hl Hh Hq1 Hlen b nb a e1 es c1 Ees Hdu) as (b2 & b3 & E2 & E3 & Hadd);
      [by destruct nb|done|by apply (Hroom _ _ Ha)|].
    rewrite E2, res_bind_Ok, E3, res_bind_Ok. by exists b3, t, true.
  - exact Hnew.
Qed.

(** ** The operation *)

(** The block of the map is full, and the partition is the first of its second half. *)
Definition middle b t (h : Z) : Prop :=
  exists p i d l1 l2 es1 es2 e, located b t h p i d l1 l2 es1 es2 e /\ length (parts_of d) = 127%nat /\ length es1 = 63%nat.

(** Adding a hash that is not in the map. *)
Lemma add_ok b t m key k : table_in b t m -> m !! hash_key key = None -> ~ middle b t (hash_key key) -> room b 2 ->
  exists b' t' ret, camel_partition_table_add b t key k = Ok (b', t', ret) /\ rootid t' = rootid t /\
    (ret = 0 /\ table_in b' t' (<[hash_key key := k]> m) /\ (durable b t -> durable b' t') \/
     ret = -1 /\ table_in b' t' m /\ refused B).
Proof.
  intros Hin Hh Hmid Hr. destruct (get_key_block_ok b t m (hash_key key) Hin (hash_key_range key))
    as (p & i & d & l1 & l2 & es1 & es2 & e & b1 & r & Hl & Eg & Ek & Hin1 & Hv & Hdur1 & Hr1 & Hq).
  unfold camel_partition_table_add. rewrite Ek, res_bind_Ok. destruct r as [q|].
  2:{ exists b1, t, (-1). do 2 (split; [done|]). by right. }
  destruct Hq as [c Hq]. assert (length (parts_of d) = 127%nat -> length es1 <> 63%nat) as Hm.
  { intros H1 H2. apply Hmid. by exists p, i, d, l1, l2, es1, es2, e. }
  apply (located_same b b1) in Hl; [|done]. destruct (located_keys b1 t m _ _ _ _ _ _ _ _ _ Hin1 Hl) as [Hk Hmk].
  pose proof Hk as (Hd & _ & _). destruct (held_data b1 q e.2 _ (in_wf _ _ _ Hin1) Hq) as [-> _].
  rewrite res_bind_Ok, key_used_ok, res_bind_Ok by done. unfold key_slots.
  destruct (Z.ltb_spec (Z.of_nat (length (keys_of (contents b1 e.2)))) 127) as [Hlt|Hge].
  - destruct (append_key_ok (contents b1 e.2) (hash_key key) k Hd ltac:(lia)) as (d' & -> & Hd' & Ek').
    rewrite res_bind_Ok. pose proof (table_in_flat b1 t m Hin1) as Hfm. rewrite (flat_located _ _ _ _ _ _ _ _ _ _ _ Hl) in Hfm.
    destruct (write_keys b1 t m (<[hash_key key := k]> m) _ _ _ _ _ _ _ _ e q _ d' Hin1 Hl Hq) as (b2 & b3 & b4 & E2 & E3 & E4 & Hin4 & Hdur4).
    + apply (keys_in_append _ _ (contents b1 e.2) d' (hash_key key) k Hk Hd' Ek').
      * apply (loc_range _ _ _ _ _ _ _ _ _ _ _ Hl).
      * intros ([h' k'] & Eh & Hin')%list_elem_of_fmap. cbn in Eh. subst h'. apply Hmk in Hin'. congruence.
    + apply (map_of_insert m _ _ _ k Hfm Hh). rewrite Ek', <- app_assoc. cbn [app]. rewrite <- Permutation_middle.
      symmetry. apply Permutation_middle.
    + rewrite E2, !res_bind_Ok. cbv beta iota zeta. rewrite E3, res_bind_Ok, E4, res_bind_Ok. exists b4, t, 0.
      do 2 (split; [done|]). left. split; [done|]. auto.
  - destruct (add_full_ok b1 t m (hash_key key) k p i d l1 l2 es1 es2 e q _ Hin1 Hl Hh Hq ltac:(lia) Hm (Hr1 _ Hr)) as (b2 & t' & ok & -> & Ert & Ha).
    rewrite res_bind_Ok. cbv beta iota zeta. destruct ok.
    + destruct Ha as (b3 & b4 & -> & E4 & Hin4 & Hd4). rewrite res_bind_Ok, E4, res_bind_Ok. exists b4, t', 0.
      do 2 (split; [done|]). left. auto.
    + exists b2, t', (-1). do 2 (split; [done|]). by right.
Qed.
End add.
