(* ===== verification/PartitionOpenSpec.v ===== *)
(** * Partition tables: opening and closing

    The table in the blocks of a file ([stored_table]), without the blocks in memory: opening
    finds the same map, an empty root block becomes a table for the empty map,
    and syncing the table and the file puts everything into the file. *)

From stdpp Require Import gmap.
From S2P Require Import Prelude BlockStore BlockStoreSpec PartitionTable PartitionDataSpec PartitionTableSpec.
#[local] Open Scope Z_scope.
#[local] Open Scope list_scope.

(** ** The table in the file *)

Definition stored_entries (C : Z -> list Z) (js : list Z) : list (Z * Z) := concat (map (fun i => parts_of (C i)) js).

Record stored_table (C : Z -> list Z) (A : gset Z) (root : Z) (js : list Z) (m : gmap Z Z) : Prop := {
  st_chained : chained C root js;
  st_maps : Forall (fun i => i ∈ A /\ block_ok (C i) 1 /\ parts_of (C i) <> []) js;
  st_nodup : NoDup js;
  st_ranges : ranges C (-1) (stored_entries C js);
  st_last : upto (-1) (stored_entries C js) = 0xffffffff;
  st_ids : NoDup (stored_entries C js).*2;
  st_allocated : Forall (fun i => i ∈ A) (stored_entries C js).*2;
  st_apart : forall i, i ∈ js -> ~ i ∈ (stored_entries C js).*2;
  st_map : map_of m (flat C (stored_entries C js));
}.

Lemma stored_ext C C' A root js m : (forall i, C' i = C i) -> stored_table C A root js m -> stored_table C' A root js m.
Proof.
  intros HC [S1 S2 S3 S4 S5 S6 S7 S8 S9].
  assert (stored_entries C' js = stored_entries C js) as Ee.
  { clear -HC. induction js as [|i js IH]; [done|]. unfold stored_entries in *. cbn. by rewrite HC, IH. }
  split; rewrite ?Ee; try done.
  - clear -HC S1. revert root S1. induction js as [|i js IH]; intros root S1; [done|]. destruct S1 as (E1 & E2 & S1).
    do 2 (split; [done|]). rewrite HC. by apply IH.
  - eapply Forall_impl; [exact S2|]. cbn. intros i. by rewrite HC.
  - by apply (ranges_ext C).
  - by rewrite (flat_ext C).
Qed.

Section open.
Context {B : Type} `{BlockStoreLaws B}.
Implicit Types (b : B) (t : CamelPartitionTable) (m : gmap Z Z).

(** ** Closing *)

Lemma finalise_loop_ok b l : wf b -> all_saved b -> NoDup l -> (forall p, p ∈ l -> exists i d, own b p i d) -> Forall (saved b) l ->
  exists b', finalise_loop b l = Ok b' /\ wf b' /\ all_saved b'.
Proof.
  revert b. induction l as [|p l IH]; intros b Hw Ha Hn Ho Hs; cbn [finalise_loop]; [by exists b|].
  apply NoDup_cons in Hn as [Hpl Hn]. apply Forall_cons in Hs as [Hp Hs]. destruct (Ho p (list_elem_of_here _ _)) as (i & d & Hop).
  destruct (sync_own_view b p i d Hw Hop Hp) as (b1 & ret & -> & Hw1 & D1 & _ & _ & _ & _ & O1 & S1 & _). rewrite res_bind_Ok.
  assert (own b1 p i d) as Hop1 by (unfold own; by rewrite D1).
  destruct (unref_own_view b1 p i d Hw1 Hop1 (S1 _ Hp)) as (b2 & -> & Hw2 & D2 & _ & _ & O2 & S2 & _). rewrite res_bind_Ok.
  assert (forall q, q ∈ l -> q <> p) as Hne by (intros q Hq ->; done).
  apply IH; try done.
  - intros q j c Hq%O2. destruct (own_held b1 p q i d j c Hw1 Hop1 Hq) as [_ Hqp]. apply S2; [by apply not_eq_sym|].
    apply S1, (Ha q j c). by apply O1.
  - intros q Hq. destruct (Ho q (list_elem_of_further _ _ _ Hq)) as (j & dq & Hoq). exists j, dq. unfold own in *.
    rewrite D2 by (by apply Hne). by rewrite D1.
  - rewrite Forall_forall in Hs |- *. intros q Hq. apply S2; [by apply Hne|]. by apply S1, Hs.
Qed.

Lemma finalise_ok b t : wf b -> all_saved b -> NoDup (partition t) -> (forall p, p ∈ partition t -> exists i d, own b p i d) ->
  durable b t -> exists b', camel_partition_table_finalise b t = Ok b' /\ wf b' /\ all_saved b'.
Proof.
  intros Hw Ha Hn Ho Hs. unfold camel_partition_table_finalise.
  destruct (finalise_loop_ok b (partition t) Hw Ha Hn Ho Hs) as (b1 & -> & Hw1 & Ha1). rewrite res_bind_Ok.
  destruct (sync_law b1 Hw1) as (b2 & ret & -> & Hw2 & P2 & C2 & _ & S2 & _). rewrite res_bind_Ok. exists b2. do 2 (split; [done|]).
  intros q j c Hq. apply S2, (Ha1 q j c). unfold held in *. by rewrite <- P2, <- C2.
Qed.

(** ** Opening *)

(** The loop has taken the blocks [is0] out of the cache. *)
Record opening (C : Z -> list Z) (A : gset Z) (D : gmap ptr (Z * list Z)) b (ps : list ptr) (is0 : list Z) : Prop := {
  op_wf : wf b;
  op_saved : all_saved b;
  op_own : Forall2 (fun p i => own b p i (C i)) ps is0;
  op_contents : forall i, ~ i ∈ is0 -> contents b i = C i;
  op_allocated : allocated b = A;
  op_durable : Forall (saved b) ps;
  op_det : forall p i d, det b !! p = Some (i, d) -> i ∈ is0 \/ D !! p = Some (i, d);
}.

Lemma opening_own C A D b ps is0 p : opening C A D b ps is0 -> p ∈ ps -> exists i, i ∈ is0 /\ own b p i (C i).
Proof.
  intros Hop Hp. pose proof (op_own _ _ _ _ _ _ Hop) as Ho. apply list_elem_of_lookup in Hp as [n Hn].
  destruct (Forall2_lookup_l _ _ _ _ _ Ho Hn) as (i & Hi & Hpi). exists i. split; [by apply (list_elem_of_lookup_2 _ n)|done].
Qed.

Lemma opening_nodup C A D b ps is0 : opening C A D b ps is0 -> NoDup is0 -> NoDup ps.
Proof.
  intros Hop Hn. pose proof (op_own _ _ _ _ _ _ Hop) as Ho. clear Hop. induction Ho as [|p i ps js Hp Ho IH]; [constructor|].
  apply NoDup_cons in Hn as [Hi Hn]. constructor; [|by apply IH]. intros Hin. apply list_elem_of_lookup in Hin as [n Hnp].
  destruct (Forall2_lookup_l _ _ _ _ _ Ho Hnp) as (j & Hj & Hpj). unfold own in *. rewrite Hp in Hpj. injection Hpj as <- _.
  apply Hi. by apply (list_elem_of_lookup_2 _ n).
Qed.

Lemma opening_fail C A D b ps is0 root : opening C A D b ps is0 -> NoDup is0 ->
  exists b', camel_partition_table_finalise b (mkTable root ps) = Ok b' /\ wf b' /\ all_saved b'.
Proof.
  intros Hop Hn. pose proof Hop as [H1 H2 H3 H4 H5 H6 H7]. apply finalise_ok; cbn; [done|done|by apply (opening_nodup C A D b ps is0)| |done].
  intros p Hp. destruct (opening_own _ _ _ _ _ _ p Hop Hp) as (i & _ & Ho). by exists i, (C i).
Qed.

(** One block of the map. *)
Lemma opening_step C A D b ps is0 i : opening C A D b ps is0 -> i ∈ A -> ~ i ∈ is0 -> (forall p d, ~ D !! p = Some (i, d)) ->
  exists b' r, get_block b i = Ok (b', r) /\
  match r with
  | None => opening C A D b' ps is0
  | Some p => wf b' /\ block_data b' p = Ok (C i) /\ exists b2, detach_block b' p = Ok b2 /\ opening C A D b2 (ps ++ [p]) (is0 ++ [i])
  end.
Proof.
  intros [H1 H2 H3 H4 H5 H6 H7] Hi Hni HD. assert (forall p d, ~ own b p i d) as Hno by (intros p d [?|?]%H7; [done|by apply (HD p d)]).
  destruct (get_saved b i H1 H2 ltac:(by rewrite H5) Hno) as (b' & r & -> & Hw & [Dv Cv Av] & Hs & Hsq & Hr & Hp). exists b', r. split; [done|].
  destruct r as [p|].
  2:{ split; try done.
      - eapply Forall2_impl; [exact H3|]. intros p j. unfold own. by rewrite Dv.
      - intros j Hj. by rewrite Cv, H4.
      - congruence.
      - eapply Forall_impl; [exact H6|done].
      - intros p j d. rewrite Dv. apply H7. }
  destruct Hp as (Ho & _ & c & Hp). destruct (held_data b' p i _ Hw Hp) as [Ed _].
  assert (contents b' i = C i) as Ec by (rewrite Cv; by apply H4). rewrite Ec in Ed. do 2 (split; [done|]).
  destruct (detach_view b' p i _ Hw Hp) as (b2 & E2 & Hw2 & D2 & C2 & A2 & O2 & S2 & R2). rewrite Ec in D2. exists b2. split; [done|].
  assert (forall q j d, own b' q j d -> q <> p) as Hqp by (intros q j d Hq ->; by destruct (own_held b' p p _ _ _ _ Hw Hq Hp)).
  split; try done.
  - intros q j c' Hq. destruct (decide (q = p)) as [->|Hne]; [apply S2, (Hs p i _ Hp)|]. apply S2, (Hs q j c'). by apply O2.
  - apply Forall2_app.
    + eapply Forall2_impl; [exact H3|]. intros q j Hq. unfold own. rewrite D2, lookup_insert_ne; [by rewrite Dv|].
      apply not_eq_sym, (Hqp q j (C j)). unfold own. by rewrite Dv.
    + constructor; [|constructor]. unfold own. by rewrite D2, lookup_insert_eq.
  - intros j Hj. rewrite elem_of_app, list_elem_of_singleton in Hj. rewrite C2, Cv, H4; tauto.
  - congruence.
  - apply Forall_app. split; [eapply Forall_impl; [exact H6|]; auto|]. constructor; [|constructor]. by apply S2, (Hs p i _ Hp).
  - intros q j d. rewrite D2. rewrite elem_of_app, list_elem_of_singleton. intros [[_ [= <- _]]|[_ Hq]]%lookup_insert_Some; [tauto|].
    rewrite Dv in Hq. apply H7 in Hq. tauto.
Qed.

Lemma new_loop_ok healthy `{!Healthy healthy} C A D rootid is1 fuel b ps is0 root : opening C A D b ps is0 -> NoDup (is0 ++ is1) -> is1 <> [] -> chained C root is1 ->
  Forall (fun i => i ∈ A /\ block_ok (C i) 1 /\ parts_of (C i) <> []) is1 ->
  (forall p i d, D !! p = Some (i, d) -> ~ i ∈ is1) -> (length is1 <= fuel)%nat ->
  exists b' r, new_loop fuel b (mkTable rootid ps) root = Ok (b', r) /\
  match r with
  | None => wf b' /\ all_saved b'
  | Some t => PartitionTable.rootid t = rootid /\ opening C A D b' (partition t) (is0 ++ is1)
  end /\ (healthy b -> r <> None).
Proof.
  revert fuel b ps is0 root. induction is1 as [|i is1 IH]; intros fuel b ps is0 root Hop Hn Hne Hch Hok HD Hfuel; [done|].
  destruct fuel as [|fuel]; [cbn in Hfuel; lia|]. cbn [new_loop partition PartitionTable.rootid]. destruct Hch as (<- & Hi0 & Hch).
  apply Forall_cons in Hok as [(HiA & Hb & Hp) Hok]. pose proof Hn as Hn0. apply NoDup_app in Hn as (Hn1 & Hn2 & [Hn3 Hn4]%NoDup_cons).
  destruct (opening_step C A D b ps is0 i Hop HiA) as (b1 & r & Eg & Hr).
  { intros Hin. apply (Hn2 i Hin), list_elem_of_here. }
  { intros p d Hd. apply (HD p i d Hd), list_elem_of_here. }
  assert (healthy b -> r <> None /\ healthy b1) as Hh1.
  { intros Hh. apply (healthy_get b b1 i r Hh (op_wf _ _ _ _ _ _ Hop)); [by rewrite (op_allocated _ _ _ _ _ _ Hop)|done]. }
  rewrite Eg, res_bind_Ok. destruct r as [p|].
  2:{ destruct (opening_fail C A D b1 ps is0 rootid Hr Hn1) as (b2 & E2 & Hw2). rewrite E2, res_bind_Ok. exists b2, None. split; [done|].
      split; [done|]. intros Hh. by destruct (Hh1 Hh). }
  destruct Hr as (Hw1 & Ed & b2 & E2 & Hop2). rewrite Ed, res_bind_Ok, part_used_ok, res_bind_Ok, part_next_ok, res_bind_Ok by (done || apply Hb).
  destruct (Z.eqb_spec (Z.of_nat (length (parts_of (C i)))) 0) as [E0|_]; [destruct (parts_of (C i)); [done|cbn in E0; lia]|].
  cbn [andb]. rewrite res_bind_Ok, Ed, res_bind_Ok, part_next_ok, res_bind_Ok, E2, res_bind_Ok by apply Hb.
  replace (is0 ++ i :: is1) with ((is0 ++ [i]) ++ is1) in Hn0 |- * by by rewrite <- app_assoc.
  destruct is1 as [|i1 is1].
  - cbn in Hch. rewrite Hch. cbn [Z.eqb]. rewrite app_nil_r. by exists b2, (Some (mkTable rootid (ps ++ [p]))).
  - pose proof Hch as (E & Hz & _). destruct (Z.eqb_spec (C i !!! 0%nat) 0) as [?|_]; [done|].
    destruct (IH fuel b2 (ps ++ [p]) (is0 ++ [i]) (C i !!! 0%nat)) as (b' & r & E' & Hr' & Hh'); try done; [|cbn in Hfuel |- *; lia|].
    + intros q j d Hq Hj. by apply (HD q j d Hq), list_elem_of_further.
    + exists b', r. do 2 (split; [done|]). intros Hh. apply Hh'. destruct (Hh1 Hh) as [_ Hhb]. by apply (healthy_detach b1 b2 p).
Qed.

(** ** The table that was opened *)

Lemma own_entries b C ps js : Forall2 (fun p i => own b p i (C i)) ps js -> entries (det b) ps = stored_entries C js.
Proof.
  induction 1 as [|p i ps js Hp Ho IH]; [done|]. rewrite entries_cons, IH. unfold block_parts. unfold own in Hp. by rewrite Hp.
Qed.

Lemma own_linked b C ps js root : Forall2 (fun p i => own b p i (C i)) ps js -> chained C root js <-> linked (det b) ps root.
Proof.
  intros Ho. revert root. induction Ho as [|p i ps js Hp Ho IH]; intros root; [done|]. cbn. split.
  - intros (<- & Hz & Hl). exists i, (C i). do 3 (split; [done|]). by apply IH.
  - intros (j & d & E & <- & Hz & Hl). unfold own in Hp. rewrite Hp in E. injection E as <- <-. do 2 (split; [done|]). by apply IH.
Qed.

Lemma opening_table C A D b t js m : stored_table C A (rootid t) js m -> opening C A D b (partition t) js ->
  (forall p i d, D !! p = Some (i, d) -> ~ i ∈ js /\ ~ i ∈ (stored_entries C js).*2) -> table_in b t m /\ durable b t.
Proof.
  intros [S1 S2 S3 S4 S5 S6 S7 S8 S9] Hop HD. pose proof Hop as [O1 O2 O3 O4 O5 O6 O7]. split; [|done]. split; [done|done|].
  pose proof (own_entries b C _ _ O3) as Ee.
  assert (forall i, i ∈ (stored_entries C js).*2 -> contents b i = C i) as Hc.
  { intros i Hi. apply O4. intros Hj. by apply (S8 i). }
  split; rewrite ?Ee; try done.
  - clear -O3 S2. induction O3 as [|p i ps js Hp Ho IH]; [constructor|]. apply Forall_cons in S2 as [(_ & Hb & Hne) S2].
    constructor; [by exists i, (C i)|by apply IH].
  - by apply (opening_nodup C A D b _ js).
  - by apply (proj1 (own_linked b C _ _ (rootid t) O3)).
  - by apply (ranges_ext C).
  - by rewrite O5.
  - intros p i d [Hi|Hp]%O7; [by apply S8|by apply (HD p i d)].
  - intros h k. rewrite (flat_ext C) by done. apply S9.
Qed.

Lemma stored_nonempty C A root js m : stored_table C A root js m -> js <> [].
Proof. intros Hs ->. pose proof (st_last _ _ _ _ _ Hs) as E. done. Qed.

(** Opening: the map is the one in the file. *)
Lemma open_table healthy `{!Healthy healthy} b root js m fuel : wf b -> all_saved b -> stored_table (contents b) (allocated b) root js m ->
  (forall p i d, own b p i d -> ~ i ∈ js /\ ~ i ∈ (stored_entries (contents b) js).*2) -> (length js <= fuel)%nat ->
  exists b' r, camel_partition_table_new fuel b root = Ok (b', r) /\
  match r with
  | None => wf b' /\ all_saved b'
  | Some t => rootid t = root /\ table_in b' t m /\ durable b' t
  end /\ (healthy b -> r <> None).
Proof.
  intros Hw Ha Hs HD Hf. pose proof (stored_nonempty _ _ _ _ _ Hs) as Hne. pose proof Hs as [S1 S2 S3 _ _ _ _ _ _].
  assert (opening (contents b) (allocated b) (det b) b [] []) as Hop by (split; try done; by right).
  destruct (new_loop_ok healthy (contents b) (allocated b) (det b) root js fuel b [] [] root Hop S3 Hne S1 S2) as (b' & r & E & Hr & Hh); [|done|].
  { intros p i d Hp. by apply (HD p i d). }
  exists b', r. split; [exact E|]. split; [|done]. destruct r as [t|]; [|done]. destruct Hr as [Ert Hop']. split; [done|].
  apply (opening_table (contents b) (allocated b) (det b) b' t js m); [by rewrite Ert|done|]. intros p i d Hp. by apply (HD p i d).
Qed.

(** ** Syncing the table *)

Lemma sync_loop_ok b t m l : table_in b t m -> durable b t -> (forall p, p ∈ l -> p ∈ partition t) -> NoDup l ->
  exists b' ret, sync_loop b l = Ok (b', ret) /\ table_in b' t m /\ durable b' t /\ det b' = det b /\ allocated b' = allocated b /\
    (forall p i d, ~ p ∈ l -> own b p i d -> contents b i = d -> contents b' i = d) /\
    (forall j, (forall p d, ~ own b p j d) -> contents b' j = contents b j) /\
    (ret = 0 \/ ret = -1) /\ (ret = 0 -> forall p i d, p ∈ l -> own b p i d -> contents b' i = d).
Proof.
  revert b. induction l as [|p l IH]; intros b Hin Hd Hl Hn; cbn [sync_loop].
  { exists b, 0. do 7 (split; [done|]). split; [by left|]. by intros _ p i d ?%not_elem_of_nil. }
  apply NoDup_cons in Hn as [Hpl Hn]. destruct (map_block_own b t m p Hin (Hl p (list_elem_of_here _ _))) as (i & d & Ho & _).
  pose proof Hd as Hd'. unfold durable in Hd'. rewrite Forall_forall in Hd'.
  destruct (sync_own_view b p i d (in_wf _ _ _ Hin) Ho (Hd' p (Hl p (list_elem_of_here _ _)))) as (b1 & ret & -> & Hw1 & D1 & C1 & Hret & Ci & A1 & O1 & S1 & _).
  rewrite res_bind_Ok. pose proof (in_ok _ _ _ Hin) as Hok.
  assert (forall j, j ∈ (entries (det b) (partition t)).*2 -> contents b1 j = contents b j) as Hce.
  { intros j Hj. apply C1. intros ->. by apply (t_apart _ _ _ _ _ Hok p i d). }
  assert (table_in b1 t m) as Hin1.
  { split; [done|by apply (all_saved_same b); [apply Hin| |]|]. rewrite D1, A1. destruct Hok as [T1 T2 T3 T4 T5 T6 T7 T8 T9]. split; try done.
    - by apply (ranges_ext (contents b)).
    - intros h k. by rewrite (flat_ext (contents b)). }
  assert (durable b1 t) as Hdu1 by (apply (durable_same b); auto).
  assert (forall q j dq, own b q j dq -> q <> p -> j <> i) as Hqi.
  { intros q j dq Hq Hne ->. by apply Hne, (own_inj b q p i dq d (in_wf _ _ _ Hin)). }
  destruct (Z.eqb_spec ret (-1)) as [->|Hret'].
  - exists b1, (-1). do 5 (split; [done|]). split; [|split; [|split; [by right|done]]].
    + intros q j dq Hq Hoq Hcq. rewrite C1; [done|]. apply (Hqi q j dq Hoq). intros ->. apply Hq, list_elem_of_here.
    + intros j Hj. apply C1. intros ->. by apply (Hj p d).
  - destruct Hret as [->|?]; [|done]. destruct (IH b1 Hin1 Hdu1) as (b2 & ret & -> & Hin2 & Hdu2 & D2 & A2 & H1 & H2 & Hret2 & H3); [|done|].
    { intros q Hq. by apply Hl, list_elem_of_further. }
    assert (forall q j dq, own b q j dq <-> own b1 q j dq) as Howns by (intros; unfold own; by rewrite D1).
    exists b2, ret. do 3 (split; [done|]). split; [congruence|]. split; [congruence|]. split; [|split; [|split; [done|]]].
    + intros q j dq Hq Hoq Hcq. rewrite elem_of_cons in Hq. apply (H1 q j dq); [tauto|by apply Howns|].
      rewrite C1; [done|]. apply (Hqi q j dq Hoq). tauto.
    + intros j Hj. rewrite H2, C1; [done| |by intros q dq ?%Howns; apply (Hj q dq)]. intros ->. by apply (Hj p d).
    + intros Hr0 q j dq Hq Hoq. apply elem_of_cons in Hq as [->|Hq]; [|by apply (H3 Hr0 q j dq); [|apply Howns]].
      unfold own in Ho, Hoq. rewrite Ho in Hoq. injection Hoq as <- <-. apply (H1 p i d Hpl); [by apply Howns|]. apply Ci. by left.
Qed.

(** What the blocks of the map have in the file. *)
Lemma sync_ids b t : Forall (map_block (det b)) (partition t) ->
  exists js, length js = length (partition t) /\
    forall C, (forall p i d, p ∈ partition t -> own b p i d -> C i = d) -> Forall2 (fun p i => own b p i (C i)) (partition t) js.
Proof.
  induction 1 as [|p l (i & d & Hp & _) _ (js & Hl & IH)]; [by exists []|]. exists (i :: js). split; [cbn; by rewrite Hl|].
  intros C HC. constructor.
  - rewrite (HC p i d); [done|apply list_elem_of_here|done].
  - apply IH. intros q j dq Hq. apply HC. by apply list_elem_of_further.
Qed.

Lemma table_stored b t m : table_in b t m -> (forall p i d, p ∈ partition t -> own b p i d -> contents b i = d) ->
  exists js, stored_table (contents b) (allocated b) (rootid t) js m /\ length js = length (partition t) /\
    forall i, i ∈ js -> exists p d, p ∈ partition t /\ own b p i d.
Proof.
  intros Hin Hc. pose proof (in_ok _ _ _ Hin) as [T1 T2 T3 T4 T5 T6 T7 T8 T9].
  destruct (sync_ids b t T1) as (js & Hl & HF). specialize (HF (contents b) Hc).
  assert (forall i, i ∈ js -> exists p d, p ∈ partition t /\ own b p i d /\ d = contents b i) as Hjs.
  { intros i [n Hn]%list_elem_of_lookup. destruct (Forall2_lookup_r _ _ _ _ _ HF Hn) as (p & Hp & Ho). exists p, (contents b i).
    split; [by apply (list_elem_of_lookup_2 _ n)|done]. }
  exists js. split; [|split; [done|intros i Hi; destruct (Hjs i Hi) as (p & d & ? & ? & _); by exists p, d]].
  rewrite (own_entries b (contents b) _ _ HF) in *. split; try done.
  - by apply (proj2 (own_linked b (contents b) (partition t) js (rootid t) HF)).
  - apply Forall_forall. intros i Hi. destruct (Hjs i Hi) as (p & d & Hp & Ho & ->). rewrite Forall_forall in T1.
    destruct (T1 p Hp) as (j & d & E & Hb & Hne). unfold own in Ho. rewrite Ho in E. injection E as <- <-.
    destruct (own_data b p i _ (in_wf _ _ _ Hin) Ho) as (_ & _ & _ & ?). done.
  - apply NoDup_alt. intros n1 n2 i H1 H2. destruct (Forall2_lookup_r _ _ _ _ _ HF H1) as (p1 & P1 & Q1).
    destruct (Forall2_lookup_r _ _ _ _ _ HF H2) as (p2 & P2 & Q2). pose proof (own_inj b p1 p2 i _ _ (in_wf _ _ _ Hin) Q1 Q2) as ->.
    by apply (NoDup_lookup _ _ _ _ T2 P1 P2).
  - intros i Hi. destruct (Hjs i Hi) as (p & d & _ & Ho & _). by apply (T8 p i d).
Qed.

Lemma sync_table b t m : table_in b t m -> durable b t ->
  exists b' ret, camel_partition_table_sync b t = Ok (b', ret) /\ table_in b' t m /\ durable b' t /\ (ret = 0 \/ ret = -1) /\
    (ret = 0 -> exists js, stored_table (contents b') (allocated b') (rootid t) js m /\ length js = length (partition t) /\
      forall i, i ∈ js -> exists p d, p ∈ partition t /\ own b' p i d).
Proof.
  intros Hin Hd. destruct (sync_loop_ok b t m (partition t) Hin Hd) as (b' & ret & E & Hin' & Hd' & D' & A' & _ & _ & Hret & Hc);
    [done|apply (t_nodup _ _ _ _ _ (in_ok _ _ _ Hin))|].
  exists b', ret. do 4 (split; [done|]). intros Hr. apply (table_stored b' t m Hin'). intros p i d Hp Ho. apply (Hc Hr p i d Hp).
  unfold own in *. by rewrite <- D'.
Qed.

(** ** A new table *)

(** The data of the two blocks of an empty table. *)
Lemma empty_words j : exists kb ptb ptb0,
  set_key_used zero_block 0 = Ok kb /\ set_part_used zero_block 1 = Ok ptb0 /\ set_part ptb0 0 (0xffffffff, j) = Ok ptb /\
  block_ok kb 0 /\ keys_of kb = [] /\ block_ok ptb 1 /\ parts_of ptb = [(0xffffffff, j)] /\ ptb !!! 0%nat = 0 /\ part_next ptb = Ok 0.
Proof.
  do 3 eexists. split; [reflexivity|]. split; [reflexivity|]. split; [reflexivity|]. repeat split; try reflexivity; done.
Qed.

(** The blocks after [prime]. *)
Lemma prime_ok b p root c : wf b -> all_saved b -> held b p root (S c) -> contents b root = zero_block -> root <> 0 -> room b 1 ->
  exists b' ok, prime b p = Ok (b', ok) /\ wf b' /\
  if (ok : bool) then
    exists j kb ptb, ~ j ∈ allocated b /\ j ∈ allocated b' /\ allocated b ⊆ allocated b' /\ det b' = det b /\ contents b' j = kb /\ contents b' root = ptb /\
      held b' p root (S c) /\ all_saved b' /\ block_ok kb 0 /\ keys_of kb = [] /\ block_ok ptb 1 /\
      parts_of ptb = [(0xffffffff, j)] /\ ptb !!! 0%nat = 0
  else all_saved b' /\ refused B.
Proof.
  intros Hw Ha Hp Hz Hr0 Hroom. unfold prime. destruct (new_view b 0 Hw Hroom) as (b1 & r & En & Hw1 & S1 & _ & Hr). rewrite En, res_bind_Ok.
  cbv beta iota zeta. destruct r as [q|].
  2:{ destruct Hr as [[D1 C1 A1] Hh]. assert (all_saved b1) as Ha1 by (apply (all_saved_same b); auto).
      destruct (unref_saved b1 p root (S c) Hw1 Ha1) as (b2 & -> & Hw2 & _ & Ha2 & _); [by apply Hh|]. rewrite res_bind_Ok.
      exists b2, false. do 3 (split; [done|]). by apply (refused_new b b1 0). }
  destruct Hr as (j & Hj & D1 & C1 & Z1 & A1 & Hq & Sq & Hpn & _ & O1).
  assert (p <> q) as Hpq by (intros ->; unfold held in Hp; congruence).
  assert (root ∈ allocated b) as Hra by (destruct (held_allocated b p root _ Hw Hp); done).
  assert (j <> root) as Hjr by (intros ->; done).
  destruct (empty_words j) as (kb & ptb & ptb0 & E1 & E2 & E3 & K1 & K2 & P1 & P2 & P3 & _).
  destruct (held_data b1 q j 1 Hw1 Hq) as (-> & _). rewrite Z1, res_bind_Ok, E1, res_bind_Ok.
  destruct (write_view b1 q j 1 kb Hw1 Hq (proj1 K1)) as (b2 & -> & Hw2 & D2 & C2 & A2 & Hq2 & O2 & S2 & _). rewrite res_bind_Ok.
  destruct (held_data b2 q j 1 Hw2 Hq2) as (_ & ->). rewrite res_bind_Ok.
  assert (held b2 p root (S c)) as Hp2 by (by apply O2, O1). destruct (held_data b2 p root _ Hw2 Hp2) as (-> & _).
  rewrite C2, change_ne, C1, Hz, res_bind_Ok, E2, res_bind_Ok, E3, res_bind_Ok by (done || by apply not_eq_sym).
  destruct (write_view b2 p root (S c) ptb Hw2 Hp2 (proj1 P1)) as (b3 & -> & Hw3 & D3 & C3 & A3 & Hp3 & O3 & S3 & _). rewrite res_bind_Ok.
  assert (held b3 q j 1) as Hq3 by (apply O3; [by apply not_eq_sym|done]).
  destruct (touch_view b3 q _ Hw3 Hq3) as (b4 & -> & Hw4 & [D4 C4 A4] & O4 & Sq4 & S4 & _). rewrite res_bind_Ok.
  destruct (unref_view b4 q j 1 Hw4) as (b5 & -> & Hw5 & [D5 C5 A5] & O5 & [S5 _] & _ & Hn5); [by apply O4|done|]. rewrite res_bind_Ok.
  assert (held b5 p root (S c)) as Hp5 by (by apply O5, O4).
  destruct (touch_view b5 p _ Hw5 Hp5) as (b6 & -> & Hw6 & [D6 C6 A6] & O6 & Sp6 & S6 & _). rewrite res_bind_Ok.
  exists b6, true. split; [done|]. split; [done|]. exists j, kb, ptb.
  assert (forall x, contents b6 x = contents b3 x) as C36 by (intros x; by rewrite C6, C5, C4).
  assert (allocated b6 = {[j]} ∪ allocated b) as A16 by congruence.
  split; [done|]. split; [rewrite A16; apply elem_of_union_l, elem_of_singleton_2; done|]. split; [rewrite A16; apply union_subseteq_r|].
  split; [congruence|]. split; [by rewrite C36, C3, change_ne, C2, change_eq by done|].
  split; [by rewrite C36, C3, change_eq|]. split; [by apply O6|]. split; [|done].
  intros x y z Hx. destruct (decide (x = p)) as [->|Hxp]; [done|]. apply S6. apply O6 in Hx. destruct (decide (x = q)) as [->|Hxq].
  - unfold held in Hx. rewrite Hn5 in Hx by lia. done.
  - apply S5; [done|]. apply S4, S3; [done|]. apply S2; [done|]. apply S1, (Ha x y z). by apply O1, O2, O3, O4, O5.
Qed.

Lemma finalise_empty b rootid : wf b -> all_saved b ->
  exists b', camel_partition_table_finalise b (mkTable rootid []) = Ok b' /\ wf b' /\ all_saved b'.
Proof. intros Hw Ha. apply finalise_ok; cbn; [done|done|constructor|by intros p ?%not_elem_of_nil|constructor]. Qed.

(** An empty block becomes a table for the empty map. *)
Lemma create_table b root fuel : wf b -> all_saved b -> root ∈ allocated b -> contents b root = zero_block ->
  (forall p d, ~ own b p root d) -> room b 1 ->
  exists b' r, camel_partition_table_new (S fuel) b root = Ok (b', r) /\
  match r with
  | None => wf b' /\ all_saved b' /\ refused B
  | Some t => rootid t = root /\ table_in b' t ∅ /\ durable b' t
  end.
Proof.
  intros Hw Ha Hra Hz Hno Hroom. unfold camel_partition_table_new. cbn [new_loop PartitionTable.rootid partition].
  destruct (allocated_ok b root Hw Hra) as [Hr0 _].
  destruct (get_saved b root Hw Ha Hra Hno) as (b1 & r & Eg & Hw1 & [D1 C1 A1] & Ha1 & S1 & R1 & Hp). rewrite Eg, res_bind_Ok.
  destruct r as [p|].
  2:{ destruct (finalise_empty b1 root Hw1 Ha1) as (b2 & -> & Hw2 & Ha2). rewrite res_bind_Ok. exists b2, None.
      do 3 (split; [done|]). by apply (refused_get b b1 root). }
  destruct Hp as (_ & _ & c & Hp). destruct (held_data b1 p root _ Hw1 Hp) as [-> _]. rewrite C1, Hz, res_bind_Ok.
  assert (part_used zero_block = Ok 0) as -> by reflexivity. assert (part_next zero_block = Ok 0) as -> by reflexivity.
  rewrite !res_bind_Ok, bool_decide_true by done. cbn [Z.eqb andb].
  destruct (prime_ok b1 p root c Hw1 Ha1 Hp) as (b2 & ok & -> & Hw2 & Hok); [by rewrite C1|lia|by apply R1|]. rewrite res_bind_Ok.
  destruct ok.
  2:{ destruct Hok as [Hok Hx]. destruct (finalise_empty b2 root Hw2 Hok) as (b3 & -> & Hw3 & Ha3). rewrite res_bind_Ok. by exists b3, None. }
  destruct Hok as (j & kb & ptb & Hj & Hj2 & HA & D2 & Ckb & Cpt & Hp2 & Ha2 & K1 & K2 & P1 & P2 & P3).
  destruct (held_data b2 p root _ Hw2 Hp2) as [-> _]. rewrite Cpt, res_bind_Ok, part_next_ok, P3, res_bind_Ok by apply P1.
  destruct (detach_view b2 p root _ Hw2 Hp2) as (b3 & -> & Hw3 & D3 & C3 & A3 & O3 & S3 & _). rewrite res_bind_Ok. cbn [Z.eqb app].
  exists b3, (Some (mkTable root [p])). split; [done|]. split; [done|]. rewrite Cpt in D3.
  assert (det b3 !! p = Some (root, ptb)) as Ho by (by rewrite D3, lookup_insert_eq).
  assert (entries (det b3) [p] = [(0xffffffff, j)]) as Ee.
  { rewrite entries_cons. unfold block_parts. by rewrite Ho, P2. }
  assert (contents b3 j = kb) as Ckb3 by (rewrite C3; [done|]; intros ->; apply Hj; by rewrite A1).
  split; [split; [done| |split; cbn [partition PartitionTable.rootid]; rewrite ?Ee]|].
  - apply (all_saved_but b2 b3 p Ha2 O3); [auto|]. intros i c' Hh. by destruct (own_held b3 p p root ptb i c' Hw3 Ho Hh).
  - constructor; [|constructor]. exists root, ptb. rewrite P2. done.
  - by apply NoDup_singleton.
  - exists root, ptb. rewrite P3. split; [done|]. split; [done|]. split; [lia|done].
  - cbn. split; [lia|]. split; [|done]. rewrite Ckb3. split; [done|]. rewrite K2. by repeat constructor.
  - done.
  - by apply NoDup_singleton.
  - constructor; [|constructor]. cbn. by rewrite A3.
  - intros q i d Hq [->|[]%not_elem_of_nil]%elem_of_cons. rewrite D3 in Hq. apply lookup_insert_Some in Hq as [[_ [= -> _]]|[_ Hq]].
    + apply Hj. by rewrite A1.
    + rewrite D2, D1 in Hq. apply Hj. rewrite A1. by apply (own_data b q j d Hw Hq).
  - intros h k. rewrite lookup_empty. unfold flat. cbn. rewrite Ckb3, K2. split; [done|by intros ?%not_elem_of_nil].
  - constructor; [|constructor]. by apply S3, (Ha2 p root (S c)).
Qed.
End open.
