(* ===== verification/PartitionFileSpec.v ===== *)
(** * Partition tables in a file

    The operations of a table as operations on a map from hashes to key ids, for every
    store of blocks; and the table in a file that is closed and opened again.  The examples are
    runs of the code on a file. *)

From stdpp Require Import gmap.
From S2P Require Import Prelude BlockStore BlockStoreSpec BlockFile BlockFileInv BlockFileSpec BlockFileLaws BlockFileOpenSpec BlockFileRunSpec.
From S2P Require Import PartitionTable PartitionDataSpec PartitionTableSpec PartitionAddSpec PartitionOpenSpec.
#[local] Open Scope Z_scope.
#[local] Open Scope list_scope.

(** ** Examples *)

Definition new_table : res (CamelBlockFile * CamelPartitionTable) :=
  '(b, id) ← new_file;
  '(b, t) ← camel_partition_table_new 1 b id;
  match t with Some t => Ok (b, t) | None => Undef end.

(** The value of a run; the other cases do not occur. *)
Definition the_table : CamelBlockFile * CamelPartitionTable :=
  match new_table with Ok x => x | _ => (the_file, mkTable 0 []) end.

(** A file with a table of 127 partitions, of which those from the 62nd to the 64th are full. *)
Definition full_keys (n : nat) (first : Z) : list (Z * Z) := map (fun j => (first + Z.of_nat j, Z.of_nat j + 10)) (seq 0 n).
Definition full_block (ks : list (Z * Z)) : list Z :=
  Z.of_nat (length ks) :: concat (map (fun k => [k.1; k.2]) ks) ++ replicate (255 - 2 * length ks) 0.
Definition full_bound (i : nat) : Z :=
  if (i <? 62)%nat then 1000 * (Z.of_nat i + 1)
  else if (i =? 62)%nat then 3000000000 else if (i =? 63)%nat then 3700000000
  else if (i =? 64)%nat then 3800000000 else if (i =? 126)%nat then 0xffffffff else 3800000000 + Z.of_nat i.
Definition full_last : Z := 2048 + 127 * 1024.
Definition full_disk : file :=
  mkDisk (list_to_map [
    (0, [1; 2; CAMEL_BLOCK_FILE_SYNC; block_size; 0; full_last] ++ replicate 250 0);
    (1024, [0; 127] ++ concat (map (fun i => [full_bound i; 2048 + 1024 * Z.of_nat i]) (seq 0 127)));
    (2048 + 1024 * 62, full_block (full_keys 127 2900000001));
    (2048 + 1024 * 63, full_block (full_keys 126 3000000001 ++ [(hash_key [104; 101; 108; 108; 111], 5)]));
    (2048 + 1024 * 64, full_block (full_keys 127 3700000001))]) full_last.

(** Looking up "hello", adding "b", and looking up both: adding reports success, and after that
    neither of them is found. *)
Definition full_run : res (Z * Z * Z * Z) :=
  r ← camel_block_file_new base_class full_disk [] [1; 2];
  match r with
  | inl b =>
      '(b, t) ← camel_partition_table_new 2 b 1024;
      match t with
      | Some t =>
          '(b, k) ← camel_partition_table_lookup b t [104; 101; 108; 108; 111];
          '(b, t, ret) ← camel_partition_table_add b t [98] 7;
          '(b, k1) ← camel_partition_table_lookup b t [104; 101; 108; 108; 111];
          '(b, k2) ← camel_partition_table_lookup b t [98];
          Ok (k, ret, k1, k2)
      | None => Undef
      end
  | inr _ => Undef
  end.

Example full_run_value : full_run = Ok (5, 0, 0, 0).
Proof. vm_compute. reflexivity. Qed.

Lemma the_table_ok : table_in the_table.1 the_table.2 ∅ /\ durable the_table.1 the_table.2.
Proof.
  assert (pins the_file = ∅) as Hp by (vm_compute; reflexivity). destruct (no_pins_saved the_file Hp) as [Hs Ho].
  destruct (create_table the_file 1024 0 the_file_wf Hs) as (b & r & E & Hr).
  - cbn. apply (bool_decide_unpack _). vm_compute. exact I.
  - vm_compute. reflexivity.
  - intros p d. apply Ho.
  - vm_compute. reflexivity.
  - assert (Ok (b, r) = Ok (the_table.1, Some the_table.2)) as [-> ->]%Ok_pair by (rewrite <- E; vm_compute; reflexivity).
    destruct Hr as (_ & H1 & H2). split; [exact H1|exact H2].
Qed.

(** A table whose blocks are not full. *)
Lemma not_middle (b : CamelBlockFile) t h :
  (forall p, p ∈ partition t -> match det b !! p with Some (_, d) => length (parts_of d) <> 127%nat | None => True end) -> ~ middle b t h.
Proof.
  intros Hd (p & i & d & l1 & l2 & es1 & es2 & e & [Hpt Ho _ _] & Hlen & _). specialize (Hd p). unfold own in Ho. rewrite Ho in Hd.
  apply Hd; [|done]. rewrite Hpt. apply elem_of_app. right. apply list_elem_of_here.
Qed.

Lemma the_table_middle h : ~ middle the_table.1 the_table.2 h.
Proof. apply not_middle. intros p Hp. apply list_elem_of_singleton in Hp as ->. vm_compute. discriminate. Qed.

(** The table with the key "a". *)
Definition added_table : CamelBlockFile * CamelPartitionTable :=
  match camel_partition_table_add the_table.1 the_table.2 [97] 17 with Ok (b, t, _) => (b, t) | _ => the_table end.

Lemma added_table_ok : table_in added_table.1 added_table.2 {[hash_key [97] := 17]} /\ durable added_table.1 added_table.2.
Proof.
  destruct the_table_ok as [Hin Hd].
  destruct (add_ok the_table.1 the_table.2 ∅ [97] 17 Hin (lookup_empty _) (the_table_middle _)) as (b & t & ret & E & _ & Hr); [vm_compute; reflexivity|].
  assert (Ok (b, t, ret) = Ok (added_table.1, added_table.2, 0)) as [[-> ->]%pair_eq ->]%Ok_pair by (rewrite <- E; vm_compute; reflexivity).
  destruct Hr as [(_ & H1 & H2)|[Hr _]]; [|discriminate Hr]. split; [exact H1|exact (H2 Hd)].
Qed.

#[export] Instance file_healthy : Healthy (fun bs : CamelBlockFile => no_faults (faults bs)).
Proof.
  split.
  - intros b b' i r Hn Hw Hi E. by apply (get_no_faults b b' i r).
  - intros b b' p k Hn _ _ E. by apply (unref_no_faults b b' p).
  - intros b b' p Hn _ E. by apply (detach_no_faults b b' p).
Qed.

(** Closing and opening the file and the table. *)
Lemma reopen_table (bs bs1 bs2 : CamelBlockFile) t m calls fuel : table_in bs t m -> durable bs t ->
  camel_partition_table_sync bs t = Ok (bs1, 0) -> camel_block_file_sync bs1 = Ok (bs2, 0) ->
  f_size (disk bs2) = last_block bs2 -> no_faults calls -> (length (partition t) <= fuel)%nat ->
  exists bs3 bs4 t', camel_block_file_new base_class (disk bs2) calls (version bs2) = Ok (inl bs3) /\
    camel_partition_table_new fuel bs3 (rootid t) = Ok (bs4, Some t') /\ rootid t' = rootid t /\ table_in bs4 t' m.
Proof.
  intros Hin Hd E1 E2 Hsize Hc Hf.
  destruct (sync_table bs t m Hin Hd) as (bs1' & ret & E & Hin1 & Hd1 & _ & Hst).
  assert (Ok (bs1', ret) = Ok (bs1, 0)) as [-> ->]%Ok_pair by by rewrite <- E1, <- E.
  destruct (Hst eq_refl) as (js & Hs & Hl & _).
  destruct (reopen_ok bs1 bs2 calls (in_wf _ _ _ Hin1)) as (bs3 & E3 & Hw3 & P3 & C3 & A3 & L3 & N3); [|done..|].
  { intros p k Hk Hdet. apply (in_saved _ _ _ Hin1 p (pin_id k) (pin_count k)). unfold held.
    destruct (pins_ok bs1 p k (in_wf _ _ _ Hin1) Hk) as (_ & _ & _ & Hct). change (pins bs1) with (pins_of bs1). rewrite Hk. f_equal.
    destruct k as [i d c dt]. cbn in *. subst dt. by rewrite <- (Hct eq_refl). }
  destruct (no_pins_saved bs3 P3) as [Hs3 Ho3]. change (wf bs3) in Hw3.
  assert (stored_table (contents bs3) (allocated bs3) (rootid t) js m) as Hst3.
  { assert (forall i, contents bs3 i = contents bs1 i) as Hct by exact C3. assert (allocated bs3 = allocated bs1) as -> by exact A3.
    by apply (stored_ext (contents bs1)). }
  destruct (open_table (B := CamelBlockFile) (fun bs => no_faults (faults bs)) bs3 (rootid t) js m fuel Hw3 Hs3 Hst3) as (bs4 & r & E4 & Hr & Hnone).
  { intros p i d Hp. by destruct (Ho3 p i d). }
  { lia. }
  destruct r as [t'|]; [|by destruct (Hnone N3)]. exists bs3, bs4, t'. destruct Hr as (? & ? & _). done.
Qed.

(** ** The operations *)

(** C20: Looking up a key in a table gives the key id that the map has for its hash, or 0
    when there is none; the table and the map stay.  Only when the block of keys cannot be read the
    result is 0 in any case. *)
Theorem partition_table_lookup {B : Type} `{BlockStoreLaws B} (b : B) (t : CamelPartitionTable) (m : gmap Z Z) (key : list Z)
    (Hin : table_in b t m) :
  exists b' k i r b1, camel_partition_table_lookup b t key = Ok (b', k) /\ table_in b' t m /\
    (durable b t -> durable b' t) /\ i ∈ allocated b /\ get_block b i = Ok (b1, r) /\
    k = match r with Some _ => default 0 (m !! hash_key key) | None => 0 end.
Proof. by apply lookup_ok. Qed.

Lemma partition_table_lookup_witness :
  exists b' k i r b1, camel_partition_table_lookup added_table.1 added_table.2 [97] = Ok (b', k) /\
    table_in b' added_table.2 {[hash_key [97] := 17]} /\ (durable added_table.1 added_table.2 -> durable b' added_table.2) /\
    i ∈ allocated added_table.1 /\ get_block added_table.1 i = Ok (b1, r) /\
    k = match r with Some _ => default 0 (({[hash_key [97] := 17]} : gmap Z Z) !! hash_key [97]) | None => 0 end.
Proof. apply (partition_table_lookup added_table.1 added_table.2 {[hash_key [97] := 17]} [97]). exact (proj1 added_table_ok). Defined.

(** C19: Adding a key whose hash is not in the map either fails, and the map stays, or the
    hash has the key id in the map from then on; wherever the key finds room: in its
    block, in that of a neighbour, in a new block.  A full block of the map is
    divided for this; only when the partition is the first of the second half this goes wrong
    ([middle]).  What was sure to get into the file still is when the key was added. *)
Theorem partition_table_add {B : Type} `{BlockStoreLaws B} {Q : QSort} {QL : QSortLaws Q} (b : B) (t : CamelPartitionTable)
    (m : gmap Z Z) (key : list Z) (k : Z) (Hin : table_in b t m) (Hnew : m !! hash_key key = None)
    (Hmid : ~ middle b t (hash_key key)) (Hroom : room b 2) :
  exists b' t' ret, camel_partition_table_add b t key k = Ok (b', t', ret) /\ rootid t' = rootid t /\
    (ret = 0 /\ table_in b' t' (<[hash_key key := k]> m) /\ (durable b t -> durable b' t') \/ ret = -1 /\ table_in b' t' m /\ refused B).
Proof. by apply add_ok. Qed.

Lemma partition_table_add_witness :
  exists b' t' ret, camel_partition_table_add the_table.1 the_table.2 [97] 17 = Ok (b', t', ret) /\ rootid t' = rootid the_table.2 /\
    (ret = 0 /\ table_in b' t' (<[hash_key [97] := 17]> ∅) /\ (durable the_table.1 the_table.2 -> durable b' t') \/
     ret = -1 /\ table_in b' t' ∅ /\ refused CamelBlockFile).
Proof.
  apply (partition_table_add the_table.1 the_table.2 ∅ [97] 17).
  - exact (proj1 the_table_ok).
  - apply lookup_empty.
  - apply the_table_middle.
  - vm_compute. reflexivity.
Defined.

(** C21: Removing a key takes its hash out of the map, unless the block of keys cannot be
    read; then the map stays. *)
Theorem partition_table_remove {B : Type} `{BlockStoreLaws B} (b : B) (t : CamelPartitionTable) (m : gmap Z Z) (key : list Z)
    (Hin : table_in b t m) :
  exists b' i r b1, camel_partition_table_remove b t key = Ok b' /\ i ∈ allocated b /\ get_block b i = Ok (b1, r) /\
    table_in b' t (match r with Some _ => delete (hash_key key) m | None => m end) /\ (durable b t -> durable b' t).
Proof. by apply remove_ok. Qed.

Lemma partition_table_remove_witness :
  exists b' i r b1, camel_partition_table_remove added_table.1 added_table.2 [97] = Ok b' /\ i ∈ allocated added_table.1 /\
    get_block added_table.1 i = Ok (b1, r) /\
    table_in b' added_table.2 (match r with Some _ => delete (hash_key [97]) {[hash_key [97] := 17]} | None => {[hash_key [97] := 17]} end) /\
    (durable added_table.1 added_table.2 -> durable b' added_table.2).
Proof. apply (partition_table_remove added_table.1 added_table.2 {[hash_key [97] := 17]} [97]). exact (proj1 added_table_ok). Defined.

(** When syncing a table, and then its file, succeeds, and the file has the length that its root
    block says, then the file can be opened again, and the table in it, and it is the same map. *)
Theorem partition_table_reopen (bs bs1 bs2 : CamelBlockFile) (t : CamelPartitionTable) (m : gmap Z Z) (calls : list (option Z)) (fuel : nat)
    (Hin : table_in bs t m) (Hd : durable bs t) (E1 : camel_partition_table_sync bs t = Ok (bs1, 0))
    (E2 : camel_block_file_sync bs1 = Ok (bs2, 0)) (Hsize : f_size (disk bs2) = last_block bs2)
    (Hc : no_faults calls) (Hf : (length (partition t) <= fuel)%nat) :
  exists bs3 bs4 t', camel_block_file_new base_class (disk bs2) calls (version bs2) = Ok (inl bs3) /\
    camel_partition_table_new fuel bs3 (rootid t) = Ok (bs4, Some t') /\ rootid t' = rootid t /\ table_in bs4 t' m.
Proof. exact (reopen_table bs bs1 bs2 t m calls fuel Hin Hd E1 E2 Hsize Hc Hf). Qed.

Definition synced_1 : CamelBlockFile :=
  match camel_partition_table_sync added_table.1 added_table.2 with Ok (b, _) => b | _ => added_table.1 end.
Definition synced_2 : CamelBlockFile := match camel_block_file_sync synced_1 with Ok (b, _) => b | _ => synced_1 end.

Lemma partition_table_reopen_witness :
  exists bs3 bs4 t', camel_block_file_new base_class (disk synced_2) [] (version synced_2) = Ok (inl bs3) /\
    camel_partition_table_new 1 bs3 (rootid added_table.2) = Ok (bs4, Some t') /\ rootid t' = rootid added_table.2 /\
    table_in bs4 t' {[hash_key [97] := 17]}.
Proof.
  apply (partition_table_reopen added_table.1 synced_1 synced_2 added_table.2 {[hash_key [97] := 17]} [] 1).
  - exact (proj1 added_table_ok).
  - exact (proj2 added_table_ok).
  - vm_compute. reflexivity.
  - vm_compute. reflexivity.
  - vm_compute. reflexivity.
  - constructor.
  - vm_compute. apply le_n.
Defined.
