(* ===== verification/KeyTable.v ===== *)
(** * Key tables ([camel-partition-table.c])

    [src/camel/camel-partition-table.c], the second half: an index from key ids to keys, with a
    block number and flags for each.  A block has a directory of keys that grows from its
    start and their characters, which grow from its end; the blocks are a chain, and keys
    are only added to the last one.  A key id is the block and the place in its directory.

    The blocks come from a [BlockStore].  Characters are the bytes of the words of a block, the
    lowest first, and the bit fields of [struct _CamelKeyKey] lie from the lowest bit on:
    both are so on the little-endian machines the code is used on. *)

From S2P Require Import Prelude BlockStore.
From stdpp Require Import gmap.
#[local] Open Scope Z_scope.
#[local] Open Scope list_scope.

(** ** Bytes of a block *)

Definition get_byte (d : list Z) (n : Z) : res Z :=
  w ← word d (n / 4); Ok (Z.land (Z.shiftr w (8 * (n mod 4))) 255).
Definition set_byte (d : list Z) (n c : Z) : res (list Z) :=
  w ← word d (n / 4);
  set_word d (n / 4) (Z.lor (Z.ldiff w (Z.shiftl 255 (8 * (n mod 4)))) (Z.shiftl (Z.land c 255) (8 * (n mod 4)))).

(** ** Data *)

Definition CAMEL_KEY_TABLE_MAX_KEY : Z := 128.

(** [CamelKeyRootBlock] *)
Definition key_first (d : list Z) : res Z := word d 0.
Definition set_key_first (d : list Z) (i : Z) : res (list Z) := set_word d 0 i.
Definition key_last (d : list Z) : res Z := word d 1.
Definition set_key_last (d : list Z) (i : Z) : res (list Z) := set_word d 1 i.

(** [CamelKeyBlock]: [next], [used], and the union of [keys] and [keydata]. *)
Definition kb_slots : Z := 127.
Definition kb_next (d : list Z) : res Z := word d 0.
Definition set_kb_next (d : list Z) (i : Z) : res (list Z) := set_word d 0 i.
Definition kb_used (d : list Z) : res Z := word d 1.
Definition set_kb_used (d : list Z) (n : Z) : res (list Z) := set_word d 1 n.

(** [CamelKeyKey]: [data], and [offset] and [flags] in one word. *)
Record CamelKeyKey := mkKey {
  kk_data : Z;
  kk_offset : Z;
  kk_flags : Z;
}.
(** [u.keys\[i\]] *)
Definition kb_key (d : list Z) (i : Z) : res CamelKeyKey :=
  if (0 <=? i) && (i <? kb_slots) then
    x ← word d (2 + 2 * i); w ← word d (3 + 2 * i);
    Ok (mkKey x (Z.land w (Z.ones 10)) (Z.land (Z.shiftr w 10) (Z.ones 22)))
  else Undef.
(** Values that do not fit a bit field lose their high bits. *)
Definition set_kb_key (d : list Z) (i : Z) (k : CamelKeyKey) : res (list Z) :=
  if (0 <=? i) && (i <? kb_slots) then
    d ← set_word d (2 + 2 * i) (kk_data k);
    set_word d (3 + 2 * i) (Z.lor (Z.land (kk_offset k) (Z.ones 10)) (Z.shiftl (Z.land (kk_flags k) (Z.ones 22)) 10))
  else Undef.

Definition set_kb_data (d : list Z) (i x : Z) : res (list Z) :=
  if (0 <=? i) && (i <? kb_slots) then set_word d (2 + 2 * i) x else Undef.

(** [sizeof (u.keydata)] and [sizeof (u.keys\[0\])] *)
Definition keydata_size : Z := CAMEL_BLOCK_SIZE - 8.
Definition key_size : Z := 8.

(** [memcpy] from and to [u.keydata + off]. *)
Fixpoint read_keydata (n : nat) (d : list Z) (off : Z) : res (list Z) :=
  match n with
  | O => Ok []
  | S n =>
      if (0 <=? off) && (off <? keydata_size) then
        c ← get_byte d (8 + off); cs ← read_keydata n d (off + 1); Ok (c :: cs)
      else Undef
  end.
Fixpoint write_keydata (key : list Z) (d : list Z) (off : Z) : res (list Z) :=
  match key with
  | [] => Ok d
  | c :: key =>
      if (0 <=? off) && (off <? keydata_size) then
        d ← set_byte d (8 + off) c; write_keydata key d (off + 1)
      else Undef
  end.

(** The parts of a key id. *)
Definition keyid_block (keyid : Z) : Z := Z.ldiff keyid (CAMEL_BLOCK_SIZE - 1).
Definition keyid_index (keyid : Z) : Z := Z.land keyid (CAMEL_BLOCK_SIZE - 1).

(** [ki->blocks] is passed along; [ki_locked] is true when a call has returned without
    unlocking: the next call that locks waits for ever. *)
Record CamelKeyTable := mkKeyTable {
  ki_rootid : Z;
  ki_root_block : ptr;
  ki_locked : bool;
}.
Definition lock (ki : CamelKeyTable) : res unit := if ki_locked ki then NoFuel else Ok tt.

Section table.
Context {B : Type} `{BlockStore B}.

(** ** Opening and closing *)

Definition camel_key_table_finalise (b : B) (ki : option CamelKeyTable) : res B :=
  b ← match ki with
      | Some ki => '(b, _) ← sync_block b (ki_root_block ki); unref_block b (ki_root_block ki)
      | None => Ok b
      end;
  '(b, _) ← sync b;
  Ok b.

Definition camel_key_table_new (b : B) (root : Z) : res (B * option CamelKeyTable) :=
  '(b, r) ← get_block b root;
  match r with
  | None => b ← camel_key_table_finalise b None; Ok (b, None)
  | Some root_block =>
      b ← detach_block b root_block;
      Ok (b, Some (mkKeyTable root root_block false))
  end.

Definition camel_key_table_sync (b : B) (ki : CamelKeyTable) : res (B * Z) := sync_block b (ki_root_block ki).

(** ** Adding *)

(** The last block of the chain, the first one if there is none. *)
Definition last_block_of (b : B) (ki : CamelKeyTable) : res (B * option ptr) :=
  root ← block_data b (ki_root_block ki);
  last ← key_last root;
  if last =? 0 then
    '(b, r) ← new_block b;
    match r with
    | None => Ok (b, None)
    | Some bl =>
        id ← block_id b bl;
        root ← block_data b (ki_root_block ki);
        root ← set_key_last root id;
        root ← set_key_first root id;
        b ← write_data b (ki_root_block ki) root;
        b ← touch_block b (ki_root_block ki);
        Ok (b, Some bl)
    end
  else get_block b last.

(** Another block behind [last], which is given back. *)
Definition chain_block (b : B) (ki : CamelKeyTable) (last : ptr) : res (B * option ptr) :=
  '(b, r) ← new_block b;
  match r with
  | None => b ← unref_block b last; Ok (b, None)
  | Some next =>
      id ← block_id b next;
      kb ← block_data b last;
      kb ← set_kb_next kb id;
      b ← write_data b last kb;
      root ← block_data b (ki_root_block ki);
      root ← set_key_last root id;
      b ← write_data b (ki_root_block ki) root;
      b ← touch_block b (ki_root_block ki);
      b ← touch_block b last;
      b ← unref_block b last;
      Ok (b, Some next)
  end.

(** A key behind the others of a block. *)
Definition append_kb (d : list Z) (key : list Z) (data flags : Z) : res (list Z) :=
  let len := Z.of_nat (length key) in
  used ← kb_used d;
  offset ← (if 0 <? used then k ← kb_key d (used - 1); Ok (kk_offset k - len) else Ok (keydata_size - len));
  d ← set_kb_key d used (mkKey data offset flags);
  d ← write_keydata key d offset;
  set_kb_used d (used + 1).

Definition camel_key_table_add (b : B) (ki : CamelKeyTable) (key : list Z) (data flags : Z) : res (B * CamelKeyTable * Z) :=
  let key := take (Z.to_nat CAMEL_KEY_TABLE_MAX_KEY) key in
  let len := Z.of_nat (length key) in
  _ ← lock ki;
  '(b, r) ← last_block_of b ki;
  match r with
  | None => Ok (b, ki, 0)
  | Some last =>
      kblast ← block_data b last;
      used ← kb_used kblast;
      if kb_slots <=? used then Ok (b, ki, 0)
      else
        full ← (if 0 <? used then k ← kb_key kblast (used - 1); Ok (kk_offset k - key_size * (used + 1) <? len)
                else Ok false);
        '(b, r) ← (if (full : bool) then chain_block b ki last else Ok (b, Some last));
        match r with
        | None => Ok (b, ki, 0)
        | Some last =>
            kblast ← block_data b last;
            used ← kb_used kblast;
            id ← block_id b last;
            kblast ← append_kb kblast key data flags;
            b ← write_data b last kblast;
            let keyid := Z.lor (keyid_block id) used in
            if kb_slots <=? used + 1 then Ok (b, mkKeyTable (ki_rootid ki) (ki_root_block ki) true, 0)
            else
              b ← touch_block b last;
              b ← unref_block b last;
              Ok (b, ki, keyid)
        end
  end.

(** ** Changing a key *)

Definition camel_key_table_set_data (b : B) (ki : CamelKeyTable) (keyid data : Z) : res B :=
  if keyid =? 0 then Ok b else
  let index := keyid_index keyid in
  '(b, r) ← get_block b (keyid_block keyid);
  match r with
  | None => Ok b
  | Some bl =>
      kb ← block_data b bl;
      _ ← lock ki;
      k ← kb_key kb index;
      b ← (if negb (kk_data k =? data) then
             kb ← set_kb_data kb index data;
             b ← write_data b bl kb;
             touch_block b bl
           else Ok b);
      unref_block b bl
  end.

Definition camel_key_table_set_flags (b : B) (ki : CamelKeyTable) (keyid flags set : Z) : res B :=
  if keyid =? 0 then Ok b else
  let index := keyid_index keyid in
  '(b, r) ← get_block b (keyid_block keyid);
  match r with
  | None => Ok b
  | Some bl =>
      kb ← block_data b bl;
      used ← kb_used kb;
      if (kb_slots <=? used) || (used <=? index) then Ok b
      else
        _ ← lock ki;
        k ← kb_key kb index;
        let old := kk_flags k in
        b ← (if negb (Z.land old set =? Z.land flags set) then
               kb ← set_kb_key kb index (mkKey (kk_data k) (kk_offset k) (Z.lor (Z.ldiff old set) (Z.land flags set)));
               b ← write_data b bl kb;
               touch_block b bl
             else Ok b);
        unref_block b bl
  end.

(** ** Looking up *)

(** The key at [index], [*keyp]. *)
Definition kb_string (d : list Z) (index : Z) : res (list Z) :=
  k ← kb_key d index;
  let off := kk_offset k in
  len ← (if index =? 0 then Ok (keydata_size - off) else k ← kb_key d (index - 1); Ok (kk_offset k - off));
  if len <? 0 then Undef else read_keydata (Z.to_nat len) d off.

(** What [key_table_lookup] and [key_table_next] store: the key if it is wanted, [flags]
    and [data]; nothing is [None] and 0. *)
Definition found : Type := option (list Z) * Z * Z.
Definition nothing : found := (None, 0, 0).
Definition found_at (d : list Z) (index : Z) (want : bool) : res found :=
  k ← kb_key d index;
  key ← (if want then key ← kb_string d index; Ok (Some key) else Ok None);
  Ok (key, kk_flags k, kk_data k).

(** The last component is the result. *)
Definition camel_key_table_lookup (b : B) (ki : CamelKeyTable) (keyid : Z) (want : bool) : res (B * found) :=
  if keyid =? 0 then Ok (b, nothing) else
  let index := keyid_index keyid in
  '(b, r) ← get_block b (keyid_block keyid);
  match r with
  | None => Ok (b, nothing)
  | Some bl =>
      kb ← block_data b bl;
      used ← kb_used kb;
      if (kb_slots <=? used) || (used <=? index) then Ok (b, nothing)
      else
        _ ← lock ki;
        f ← found_at kb index want;
        b ← unref_block b bl;
        Ok (b, f)
  end.

(** The block of the next key, and its id; a chain that is a ring is followed for ever. *)
Fixpoint next_loop (fuel : nat) (b : B) (next : Z) : res (B * option (ptr * Z)) :=
  match fuel with
  | O => NoFuel
  | S fuel =>
      '(b, r) ← get_block b (keyid_block next);
      match r with
      | None => Ok (b, None)
      | Some bl =>
          kb ← block_data b bl;
          used ← kb_used kb;
          if used <=? keyid_index next then
            next ← kb_next kb;
            b ← unref_block b bl;
            next_loop fuel b next
          else Ok (b, Some (bl, next))
      end
  end.

(** The offsets [camel_key_table_next] accepts. *)
Definition valid_offset (used off : Z) : bool := (off <? keydata_size) && (key_size * used <=? off).

Definition camel_key_table_next (fuel : nat) (b : B) (ki : CamelKeyTable) (next : Z) (want : bool) : res (B * Z * found) :=
  _ ← lock ki;
  root ← block_data b (ki_root_block ki);
  first ← key_first root;
  if (next =? 0) && (first =? 0) then Ok (b, 0, nothing)
  else
    '(b, r) ← next_loop fuel b (if next =? 0 then first else u32 (next + 1));
    match r with
    | None => Ok (b, 0, nothing)
    | Some (bl, next) =>
        let index := keyid_index next in
        kb ← block_data b bl;
        used ← kb_used kb;
        k ← kb_key kb index;
        ok ← (if valid_offset used (kk_offset k) then
                if 0 <? index then p ← kb_key kb (index - 1); Ok (valid_offset used (kk_offset p)) else Ok true
              else Ok false);
        if (ok : bool) then
          f ← found_at kb index want;
          b ← unref_block b bl;
          Ok (b, next, f)
        else
          b ← unref_block b bl;
          Ok (b, 0, nothing)
    end.
End table.
