(* ===== verification/KeyDataSpec.v ===== *)
(** * Key tables: the blocks of keys

    Bytes in the words of a block, and the blocks of a key table as lists of keys. *)

From stdpp Require Import gmap.
From S2P Require Import Prelude BlockStore BlockStoreSpec KeyTable.
#[local] Open Scope Z_scope.
#[local] Open Scope list_scope.

Implicit Types (d : list Z) (off : Z).

(** ** Bytes *)

Definition byte_at d n : Z := Z.land (Z.shiftr (d !!! Z.to_nat (n / 4)) (8 * (n mod 4))) 255.

Lemma get_byte_ok d n : length d = block_words -> 0 <= n < 1024 -> get_byte d n = Ok (byte_at d n).
Proof.
  intros Hd Hn. assert (0 <= n / 4 < 256) by (split; [apply Z.div_pos|apply Z.div_lt_upper_bound]; lia).
  unfold get_byte. by rewrite word_at, res_bind_Ok by done.
Qed.

(** Byte [i] of the word, and byte [j] behind it. *)
Definition put_byte (w j c : Z) : Z := Z.lor (Z.ldiff w (Z.shiftl 255 (8 * j))) (Z.shiftl (Z.land c 255) (8 * j)).

Lemma put_byte_get w i j c : 0 <= i < 4 -> 0 <= j < 4 ->
  Z.land (Z.shiftr (put_byte w j c) (8 * i)) 255 = if i =? j then Z.land c 255 else Z.land (Z.shiftr w (8 * i)) 255.
Proof.
  intros Hi Hj. unfold put_byte. change 255 with (Z.ones 8). apply Z.bits_inj'. intros k Hk.
  rewrite Z.land_spec, Z.shiftr_spec, Z.lor_spec, Z.ldiff_spec, !Z.shiftl_spec, Z.land_spec by lia.
  destruct (Z.ltb_spec k 8) as [Hk8|Hk8].
  - rewrite (Z.ones_spec_low 8 k) by lia. destruct (Z.eqb_spec i j) as [->|Hne].
    + rewrite Z.land_spec. replace (k + 8 * j - 8 * j) with k by lia. rewrite (Z.ones_spec_low 8 k) by lia.
      by rewrite !andb_true_r, andb_false_r.
    + rewrite Z.land_spec, Z.shiftr_spec, (Z.ones_spec_low 8 k) by lia.
      destruct (Z.ltb_spec i j).
      * by rewrite !(Z.testbit_neg_r _ (k + 8 * i - 8 * j)), andb_false_l, orb_false_r, !andb_true_r by lia.
      * by rewrite !(Z.ones_spec_high 8 (k + 8 * i - 8 * j)), andb_false_r, orb_false_r, !andb_true_r by lia.
  - rewrite (Z.ones_spec_high 8 k) by lia. rewrite andb_false_r. destruct (i =? j); rewrite Z.land_spec, (Z.ones_spec_high 8 k) by lia; by rewrite andb_false_r.
Qed.

Lemma set_byte_ok d n c : length d = block_words -> 0 <= n < 1024 ->
  exists d', set_byte d n c = Ok d' /\ length d' = block_words /\
    (forall m, 0 <= m < 1024 -> byte_at d' m = if m =? n then Z.land c 255 else byte_at d m) /\
    (forall k, k <> Z.to_nat (n / 4) -> d' !!! k = d !!! k).
Proof.
  intros Hd Hn. assert (0 <= n / 4 < 256) as Hq by (split; [apply Z.div_pos|apply Z.div_lt_upper_bound]; lia).
  unfold set_byte. rewrite word_at, res_bind_Ok, set_word_at by done.
  exists (<[Z.to_nat (n / 4) := put_byte (d !!! Z.to_nat (n / 4)) (n mod 4) c]> d). split; [done|]. split; [by rewrite length_insert|]. split.
  - intros m Hm. assert (0 <= m / 4 < 256) as Hqm by (split; [apply Z.div_pos|apply Z.div_lt_upper_bound]; lia).
    pose proof (Z.mod_pos_bound n 4 ltac:(lia)). pose proof (Z.mod_pos_bound m 4 ltac:(lia)).
    pose proof (Z.div_mod n 4 ltac:(lia)). pose proof (Z.div_mod m 4 ltac:(lia)). unfold byte_at at 1.
    destruct (Z.eqb_spec (m / 4) (n / 4)) as [Eq|Hne].
    + rewrite Eq, list_lookup_total_insert_eq by (rewrite Hd; unfold block_words; lia). unfold byte_at. rewrite Eq.
      rewrite (put_byte_get (d !!! Z.to_nat (n / 4)) (m mod 4) (n mod 4) c) by done. destruct (Z.eqb_spec (m mod 4) (n mod 4)), (Z.eqb_spec m n); try done; lia.
    + rewrite list_lookup_total_insert_ne by lia. by destruct (Z.eqb_spec m n); [subst|].
  - intros k Hk. by rewrite list_lookup_total_insert_ne.
Qed.

(** ** Keys of a block *)

Definition bytes_at d off (n : nat) : list Z := map (fun k => byte_at d (8 + off + Z.of_nat k)) (seq 0 n).

Lemma read_keydata_ok d off (n : nat) : length d = block_words -> 0 <= off -> off + Z.of_nat n <= keydata_size ->
  read_keydata n d off = Ok (bytes_at d off n).
Proof.
  intros Hd. revert off. induction n as [|n IH]; intros off Ho Hn; [done|]. cbn [read_keydata]. unfold keydata_size, CAMEL_BLOCK_SIZE in *.
  destruct ((0 <=? off) && (off <? 1024 - 8)) eqn:E; [|lia]. rewrite get_byte_ok, res_bind_Ok, IH, res_bind_Ok by (done || lia).
  f_equal. unfold bytes_at. cbn [seq map]. f_equal; [by rewrite Z.add_0_r|]. rewrite <- seq_shift, map_map.
  apply map_ext. intros k. f_equal. lia.
Qed.

Lemma bytes_at_ext d d' off off' (n : nat) : (forall k, 0 <= k < Z.of_nat n -> byte_at d' (8 + off' + k) = byte_at d (8 + off + k)) ->
  bytes_at d' off' n = bytes_at d off n.
Proof. intros Hk. apply map_ext_in. intros k [_ Hlt]%in_seq. apply Hk. lia. Qed.

Lemma write_keydata_ok d key off : length d = block_words -> 0 <= off -> off + Z.of_nat (length key) <= keydata_size ->
  Forall (fun c => 0 <= c < 256) key ->
  exists d', write_keydata key d off = Ok d' /\ length d' = block_words /\ bytes_at d' off (length key) = key /\
    (forall m, 0 <= m < 1024 -> m < 8 + off \/ 8 + off + Z.of_nat (length key) <= m -> byte_at d' m = byte_at d m) /\
    (forall k, Z.of_nat k < (8 + off) / 4 -> d' !!! k = d !!! k).
Proof.
  intros Hd Ho Hn Hc. revert d off Hd Ho Hn. induction Hc as [|c key Hc _ IH]; intros d off Hd Ho Hn; [by exists d|].
  cbn [write_keydata length] in *. unfold keydata_size, CAMEL_BLOCK_SIZE in *.
  destruct ((0 <=? off) && (off <? 1024 - 8)) eqn:E; [|lia].
  destruct (set_byte_ok d (8 + off) c Hd) as (d1 & -> & L1 & B1 & W1); [lia|]. rewrite res_bind_Ok.
  destruct (IH d1 (off + 1) L1) as (d2 & -> & L2 & K2 & B2 & W2); [lia|lia|]. exists d2. split; [done|]. split; [done|]. split; [|split].
  - unfold bytes_at in *. cbn [seq map]. f_equal.
    + rewrite B2, B1 by lia. replace (8 + off + Z.of_nat 0) with (8 + off) by lia. rewrite Z.eqb_refl. change 255 with (Z.ones 8).
      rewrite Z.land_ones by lia. by apply Z.mod_small.
    + rewrite <- K2 at 2. rewrite <- seq_shift, map_map. apply map_ext. intros k. f_equal. lia.
  - intros m Hm Hor. rewrite B2, B1 by lia. destruct (Z.eqb_spec m (8 + off)); [lia|done].
  - intros k Hk. rewrite W2, W1; [done| |]; [|assert ((8 + off) / 4 <= (8 + (off + 1)) / 4) by (apply Z.div_le_mono; lia); lia].
    assert (0 <= (8 + off) / 4) by (apply Z.div_pos; lia). lia.
Qed.

Definition offset_at d (i : nat) : Z := Z.land (d !!! (3 + 2 * i)%nat) (Z.ones 10).
Definition flags_at d (i : nat) : Z := Z.land (Z.shiftr (d !!! (3 + 2 * i)%nat) 10) (Z.ones 22).
Definition data_at d (i : nat) : Z := d !!! (2 + 2 * i)%nat.

(** The characters of a key end where those of the key before it begin. *)
Definition key_end d (i : nat) : Z := match i with O => keydata_size | S j => offset_at d j end.

(** A key with its flags and its data. *)
Definition entry : Type := list Z * Z * Z.
Definition entry_at d (i : nat) : entry :=
  (bytes_at d (offset_at d i) (Z.to_nat (key_end d i - offset_at d i)), flags_at d i, data_at d i).

Definition kb_count d : nat := Z.to_nat (d !!! 1%nat).
Definition kb_entries d : list entry := map (entry_at d) (seq 0 (kb_count d)).

(** A block of keys: the characters are behind the directory. *)
Record kb_ok d : Prop := {
  kb_words : length d = block_words;
  kb_few : 0 <= d !!! 1%nat <= 126;
  kb_offsets : forall i, (i < kb_count d)%nat -> key_size * Z.of_nat (kb_count d) <= offset_at d i <= key_end d i;
}.

Lemma kb_entries_length d : length (kb_entries d) = kb_count d.
Proof. unfold kb_entries. by rewrite length_map, length_seq. Qed.

Lemma kb_entries_lookup d (i : nat) : (i < kb_count d)%nat -> kb_entries d !! i = Some (entry_at d i).
Proof. intros Hi. unfold kb_entries. rewrite list_lookup_fmap, (lookup_seq_lt 0 (kb_count d) i) by done. done. Qed.

Lemma kb_used_ok d : kb_ok d -> kb_used d = Ok (Z.of_nat (kb_count d)).
Proof.
  intros [H1 H2 _]. unfold kb_used. rewrite word_at by (done || lia). unfold kb_count. change (Z.to_nat 1) with 1%nat. f_equal. lia.
Qed.

Lemma kb_next_ok d : length d = block_words -> kb_next d = Ok (d !!! 0%nat).
Proof. intros H1. unfold kb_next. by rewrite word_at by (done || lia). Qed.

Lemma kb_key_ok d (i : nat) : length d = block_words -> (i < 127)%nat -> kb_key d (Z.of_nat i) = Ok (mkKey (data_at d i) (offset_at d i) (flags_at d i)).
Proof.
  intros H1 Hi. unfold kb_key, kb_slots. destruct ((0 <=? Z.of_nat i) && (Z.of_nat i <? 127)) eqn:E; [|lia].
  rewrite !word_at, !res_bind_Ok by (done || lia). unfold data_at, offset_at, flags_at.
  replace (Z.to_nat (2 + 2 * Z.of_nat i)) with (2 + 2 * i)%nat by lia. by replace (Z.to_nat (3 + 2 * Z.of_nat i)) with (3 + 2 * i)%nat by lia.
Qed.

Lemma key_end_bounds d (i : nat) : kb_ok d -> (i <= kb_count d)%nat -> key_size * Z.of_nat (kb_count d) <= key_end d i <= keydata_size.
Proof.
  intros Hd. pose proof Hd as [_ H2 H3]. unfold kb_count in *.
  induction i as [|i IH]; intros Hi; [cbn; unfold key_size, keydata_size, CAMEL_BLOCK_SIZE; lia|]. cbn [key_end].
  specialize (H3 i ltac:(lia)). specialize (IH ltac:(lia)). lia.
Qed.

Lemma key_end_mono d (i j : nat) : kb_ok d -> (i <= j <= kb_count d)%nat -> key_end d j <= key_end d i.
Proof.
  intros Hd [Hij Hj]. induction Hij as [|j Hij IH]; [lia|]. specialize (IH ltac:(lia)). cbn [key_end].
  pose proof (kb_offsets d Hd j ltac:(lia)). lia.
Qed.

Lemma kb_string_ok d (i : nat) : kb_ok d -> (i < kb_count d)%nat -> kb_string d (Z.of_nat i) = Ok (entry_at d i).1.1.
Proof.
  intros Hd Hi. pose proof Hd as [H1 H2 H3]. pose proof (key_end_bounds d i Hd ltac:(lia)) as Hb. specialize (H3 i Hi).
  assert (kb_count d <= 126)%nat by (unfold kb_count; lia). unfold kb_string. rewrite kb_key_ok, res_bind_Ok by (done || lia). cbn [kk_offset].
  assert ((if Z.of_nat i =? 0 then Ok (keydata_size - offset_at d i) else k ← kb_key d (Z.of_nat i - 1); Ok (kk_offset k - offset_at d i))
          = Ok (key_end d i - offset_at d i)) as ->.
  { destruct i as [|i]; [done|]. destruct (Z.eqb_spec (Z.of_nat (S i)) 0); [lia|]. replace (Z.of_nat (S i) - 1) with (Z.of_nat i) by lia.
    by rewrite kb_key_ok, res_bind_Ok by (done || lia). }
  rewrite res_bind_Ok. destruct (Z.ltb_spec (key_end d i - offset_at d i) 0); [lia|]. unfold key_size in *. apply read_keydata_ok; [done|lia|lia].
Qed.

(** What lookups return. *)
Definition found_of (e : entry) (want : bool) : found := (if want then Some e.1.1 else None, e.1.2, e.2).

Lemma found_at_ok d (i : nat) want : kb_ok d -> (i < kb_count d)%nat -> found_at d (Z.of_nat i) want = Ok (found_of (entry_at d i) want).
Proof.
  intros Hd Hi. pose proof Hd as [H1 H2 _]. unfold found_at. rewrite kb_key_ok, res_bind_Ok by (done || unfold kb_count in *; lia).
  destruct want; [|done]. by rewrite kb_string_ok, res_bind_Ok by done.
Qed.

(** ** Changing a block *)

Lemma byte_at_insert d (k : nat) v m : 0 <= m -> m / 4 <> Z.of_nat k -> byte_at (<[k := v]> d) m = byte_at d m.
Proof.
  intros Hm Hk. unfold byte_at. rewrite list_lookup_total_insert_ne; [done|]. pose proof (Z.div_pos m 4). lia.
Qed.

(** The first [n] keys depend on the directory and the characters above the last of them. *)
Lemma kb_entries_ext d d' (n : nat) : (n <= kb_count d)%nat -> kb_ok d ->
  (forall i, (i < n)%nat -> d' !!! (2 + 2 * i)%nat = d !!! (2 + 2 * i)%nat /\ d' !!! (3 + 2 * i)%nat = d !!! (3 + 2 * i)%nat) ->
  (forall m, 8 + key_end d n <= m < 1024 -> byte_at d' m = byte_at d m) ->
  map (entry_at d') (seq 0 n) = map (entry_at d) (seq 0 n) /\ (forall i, (i <= n)%nat -> key_end d' i = key_end d i) /\
  (forall i, (i < n)%nat -> offset_at d' i = offset_at d i).
Proof.
  intros Hn Hd Hw Hb. assert (forall i, (i < n)%nat -> offset_at d' i = offset_at d i) as Ho.
  { intros i Hi. unfold offset_at. by destruct (Hw i Hi) as [_ ->]. }
  assert (forall i, (i <= n)%nat -> key_end d' i = key_end d i) as He.
  { intros [|i] Hi; [done|]. cbn. apply Ho. lia. }
  split; [|done]. apply map_ext_in. intros i [_ Hi]%in_seq. cbn in Hi. unfold entry_at.
  rewrite He, Ho by lia. unfold flags_at, data_at. destruct (Hw i Hi) as [-> ->]. f_equal. f_equal.
  pose proof (kb_offsets d Hd i ltac:(lia)) as Hoff. pose proof (key_end_bounds d i Hd ltac:(lia)) as He2.
  pose proof (key_end_mono d (S i) n Hd ltac:(lia)) as Hm. cbn [key_end] in Hm. unfold keydata_size, CAMEL_BLOCK_SIZE, key_size in *.
  apply bytes_at_ext. intros k Hk. apply Hb. lia.
Qed.

(** Packing the bit fields. *)
Lemma pack_offset o f : 0 <= o < 1024 -> Z.land (Z.lor (Z.land o (Z.ones 10)) (Z.shiftl (Z.land f (Z.ones 22)) 10)) (Z.ones 10) = o.
Proof.
  intros Ho. apply Z.bits_inj'. intros k Hk. rewrite Z.land_spec, Z.lor_spec, Z.land_spec, Z.shiftl_spec by lia.
  destruct (Z.ltb_spec k 10) as [Hk10|Hk10].
  - rewrite (Z.ones_spec_low 10 k), (Z.testbit_neg_r _ (k - 10)) by lia. by rewrite orb_false_r, !andb_true_r.
  - rewrite (Z.ones_spec_high 10 k) by lia. rewrite andb_false_r. symmetry.
    destruct (Z.eq_dec o 0) as [->|]; [apply Z.bits_0|]. apply Z.bits_above_log2; [lia|]. apply Z.log2_lt_pow2; [lia|].
    pose proof (Z.pow_le_mono_r 2 10 k ltac:(lia) Hk10). lia.
Qed.

Lemma pack_flags o f : Z.land (Z.shiftr (Z.lor (Z.land o (Z.ones 10)) (Z.shiftl (Z.land f (Z.ones 22)) 10)) 10) (Z.ones 22) = Z.land f (Z.ones 22).
Proof.
  apply Z.bits_inj'. intros k Hk. rewrite Z.land_spec, Z.shiftr_spec, Z.lor_spec, Z.land_spec, Z.shiftl_spec by lia.
  rewrite (Z.ones_spec_high 10 (k + 10)), andb_false_r, orb_false_l by lia. replace (k + 10 - 10) with k by lia.
  rewrite Z.land_spec. destruct (Z.testbit f k), (Z.testbit (Z.ones 22) k); done.
Qed.

Definition put_kb_key d (i : nat) (k : CamelKeyKey) : list Z :=
  <[(3 + 2 * i)%nat := Z.lor (Z.land (kk_offset k) (Z.ones 10)) (Z.shiftl (Z.land (kk_flags k) (Z.ones 22)) 10)]>
    (<[(2 + 2 * i)%nat := kk_data k]> d).

Lemma set_kb_key_ok d (i : nat) k : length d = block_words -> (i < 127)%nat -> set_kb_key d (Z.of_nat i) k = Ok (put_kb_key d i k).
Proof.
  intros Hd Hi. unfold set_kb_key, kb_slots. destruct ((0 <=? Z.of_nat i) && (Z.of_nat i <? 127)) eqn:E; [|lia].
  rewrite set_word_at, res_bind_Ok, set_word_at by (rewrite ?length_insert; done || lia). unfold put_kb_key.
  replace (Z.to_nat (2 + 2 * Z.of_nat i)) with (2 + 2 * i)%nat by lia. by replace (Z.to_nat (3 + 2 * Z.of_nat i)) with (3 + 2 * i)%nat by lia.
Qed.

Lemma put_kb_key_ne d (i j : nat) k : j <> (2 + 2 * i)%nat -> j <> (3 + 2 * i)%nat -> put_kb_key d i k !!! j = d !!! j.
Proof. intros H2 H3. unfold put_kb_key. by rewrite !get_insert_ne by done. Qed.

Lemma put_kb_key_bytes d (i : nat) k m : 0 <= m -> m < 8 + 8 * Z.of_nat i \/ 16 + 8 * Z.of_nat i <= m -> byte_at (put_kb_key d i k) m = byte_at d m.
Proof.
  intros Hm Hor. pose proof (Z.div_mod m 4 ltac:(lia)). pose proof (Z.mod_pos_bound m 4 ltac:(lia)). unfold put_kb_key.
  by rewrite !byte_at_insert by lia.
Qed.

Lemma put_kb_key_eq d (i : nat) k : length d = block_words -> (i < 127)%nat -> 0 <= kk_offset k < 1024 ->
  data_at (put_kb_key d i k) i = kk_data k /\ offset_at (put_kb_key d i k) i = kk_offset k /\
  flags_at (put_kb_key d i k) i = Z.land (kk_flags k) (Z.ones 22).
Proof.
  intros Hd Hi Ho. unfold data_at, offset_at, flags_at, put_kb_key.
  rewrite get_insert_ne, !get_insert_eq by (rewrite ?length_insert, ?Hd; unfold block_words; lia).
  by rewrite pack_offset, pack_flags.
Qed.

(** The room for another key: behind the directory with one key more. *)
Definition kb_room d : Z := key_end d (kb_count d) - key_size * (Z.of_nat (kb_count d) + 1).

Lemma append_kb_start d (key : list Z) : kb_ok d ->
  (if 0 <? Z.of_nat (kb_count d) then k ← kb_key d (Z.of_nat (kb_count d) - 1); Ok (kk_offset k - Z.of_nat (length key))
   else Ok (keydata_size - Z.of_nat (length key))) = Ok (key_end d (kb_count d) - Z.of_nat (length key)).
Proof.
  intros [H1 H2 _]. assert (kb_count d <= 126)%nat as Hn by (unfold kb_count; lia). destruct (kb_count d) as [|n]; [done|].
  destruct (Z.ltb_spec 0 (Z.of_nat (S n))); [|lia]. replace (Z.of_nat (S n) - 1) with (Z.of_nat n) by lia.
  by rewrite kb_key_ok, res_bind_Ok by (done || lia).
Qed.

(** A key behind the others. *)
Lemma append_kb_ok d (key : list Z) data flags : kb_ok d -> (kb_count d < 126)%nat -> Forall (fun c => 0 <= c < 256) key ->
  Z.of_nat (length key) <= kb_room d ->
  exists d', append_kb d key data flags = Ok d' /\ kb_ok d' /\ kb_count d' = S (kb_count d) /\
    kb_entries d' = kb_entries d ++ [(key, Z.land flags (Z.ones 22), data)] /\ d' !!! 0%nat = d !!! 0%nat.
Proof.
  intros Hd Hn Hk Hr. pose proof Hd as [H1 H2 H3]. unfold kb_room, key_size in Hr. unfold append_kb.
  rewrite kb_used_ok, res_bind_Ok, append_kb_start, res_bind_Ok by done. set (n := kb_count d) in *.
  pose proof (key_end_bounds d n Hd ltac:(lia)) as He. unfold key_size, keydata_size, CAMEL_BLOCK_SIZE in He.
  set (off := key_end d n - Z.of_nat (length key)) in *. rewrite set_kb_key_ok, res_bind_Ok by (done || lia).
  set (d1 := put_kb_key d n _). assert (length d1 = block_words) as L1 by (unfold d1, put_kb_key; by rewrite !length_insert).
  destruct (write_keydata_ok d1 key off L1) as (d2 & -> & L2 & K2 & B2 & W2); [lia|unfold keydata_size, CAMEL_BLOCK_SIZE; lia|done|].
  rewrite res_bind_Ok. unfold set_kb_used. rewrite set_word_at by (done || lia). change (Z.to_nat 1) with 1%nat.
  set (d3 := <[1%nat := Z.of_nat n + 1]> d2). exists d3. split; [done|].
  assert (forall k : nat, (k <= 3 + 2 * n)%nat -> k <> 1%nat -> d3 !!! k = d1 !!! k) as Hw.
  { intros k Hkn Hk1. unfold d3. rewrite get_insert_ne by done. apply W2.
    assert (4 + 2 * Z.of_nat n <= (8 + off) / 4) by (apply Z.div_le_lower_bound; lia). lia. }
  assert (forall m, 16 + 8 * Z.of_nat n <= m < 1024 -> m < 8 + off \/ 8 + key_end d n <= m -> byte_at d3 m = byte_at d m) as Hb.
  { intros m Hm Hor. unfold d3. pose proof (Z.div_mod m 4 ltac:(lia)). pose proof (Z.mod_pos_bound m 4 ltac:(lia)).
    rewrite byte_at_insert, B2 by lia. apply put_kb_key_bytes; lia. }
  assert (kb_count d3 = S n) as Hc by (unfold kb_count, d3; rewrite get_insert_eq by (rewrite L2; unfold block_words; lia); lia).
  destruct (kb_entries_ext d d3 n (le_n n) Hd) as (He3 & Hend & Hoff).
  { intros i Hi. rewrite !Hw by lia. unfold d1. by rewrite !put_kb_key_ne by lia. }
  { intros m Hm. apply Hb; lia. }
  destruct (put_kb_key_eq d n (mkKey data off flags) H1 ltac:(lia)) as (E1 & E2 & E3); [cbn; lia|]. fold d1 in E1, E2, E3.
  assert (offset_at d3 n = off) as Eo by (unfold offset_at; by rewrite Hw by lia).
  assert (entry_at d3 n = (key, Z.land flags (Z.ones 22), data)) as Ee.
  { unfold entry_at. rewrite Eo, Hend by lia. replace (Z.to_nat (key_end d n - off)) with (length key) by lia.
    unfold flags_at, data_at. rewrite !Hw by lia. cbn [kk_data kk_flags] in E1, E3. unfold flags_at, data_at in E1, E3. rewrite E1, E3. f_equal. f_equal.
    rewrite <- K2 at 2. apply bytes_at_ext. intros k Hkl. unfold d3. apply byte_at_insert; [lia|].
    assert (4 <= (8 + off + k) / 4) by (apply Z.div_le_lower_bound; lia). lia. }
  split; [split|split; [done|split]].
  - unfold d3. by rewrite length_insert.
  - unfold d3. rewrite get_insert_eq by (rewrite L2; unfold block_words; lia). lia.
  - rewrite Hc. intros i Hi. unfold key_size. destruct (decide (i = n)) as [->|Hne]; [rewrite Eo, Hend by lia; lia|].
    rewrite Hoff, Hend by lia. specialize (H3 i ltac:(lia)). unfold key_size in H3. pose proof (key_end_mono d (S i) n Hd ltac:(lia)) as Hm. cbn [key_end] in Hm. lia.
  - unfold kb_entries at 1. rewrite Hc, seq_S, map_app, He3. cbn [map plus]. by rewrite Ee.
  - rewrite Hw by lia. unfold d1. by rewrite put_kb_key_ne by lia.
Qed.

(** The directory changes, but not the offsets. *)
Lemma kb_change d d' : kb_ok d -> length d' = block_words -> d' !!! 1%nat = d !!! 1%nat ->
  (forall i, (i < kb_count d)%nat -> offset_at d' i = offset_at d i) ->
  (forall m, 8 + key_size * Z.of_nat (kb_count d) <= m < 1024 -> byte_at d' m = byte_at d m) ->
  kb_ok d' /\ kb_count d' = kb_count d /\
  forall i, (i < kb_count d)%nat -> entry_at d' i = ((entry_at d i).1.1, flags_at d' i, data_at d' i).
Proof.
  intros Hd L' E1 Ho Hb. pose proof Hd as [H1 H2 H3]. assert (kb_count d' = kb_count d) as Ec by (unfold kb_count; by rewrite E1).
  assert (forall i, (i <= kb_count d)%nat -> key_end d' i = key_end d i) as He by (intros [|i] Hi; [done|]; cbn; apply Ho; lia).
  split; [split|split; [done|]].
  - done.
  - by rewrite E1.
  - rewrite Ec. intros i Hi. rewrite Ho, He by lia. by apply H3.
  - intros i Hi. unfold entry_at. rewrite Ho, He by lia. cbn [fst]. f_equal. f_equal. apply bytes_at_ext. intros k Hk.
    specialize (H3 i Hi). pose proof (key_end_bounds d i Hd ltac:(lia)) as Hend. unfold keydata_size, CAMEL_BLOCK_SIZE in Hend. apply Hb. lia.
Qed.

Lemma set_kb_next_ok d x : kb_ok d -> exists d', set_kb_next d x = Ok d' /\ kb_ok d' /\ kb_entries d' = kb_entries d /\ d' !!! 0%nat = x.
Proof.
  intros Hd. pose proof Hd as [H1 H2 H3]. unfold set_kb_next. rewrite set_word_at by (done || lia). change (Z.to_nat 0) with 0%nat.
  set (d' := <[0%nat := x]> d). assert (forall k, k <> 0%nat -> d' !!! k = d !!! k) as Hw by (intros k Hk; by apply get_insert_ne).
  destruct (kb_change d d' Hd) as (Hd' & Ec & Ee); [unfold d'; by rewrite length_insert|by apply Hw|intros i _; unfold offset_at; by rewrite Hw| |].
  { intros m Hm. unfold key_size in Hm. apply byte_at_insert; [lia|]. assert (1 <= m / 4) by (apply Z.div_le_lower_bound; lia). lia. }
  exists d'. split; [done|]. split; [done|]. split; [|unfold d'; apply get_insert_eq; rewrite H1; unfold block_words; lia].
  unfold kb_entries. rewrite Ec. apply map_ext_in. intros i [_ Hi]%in_seq. rewrite Ee by done. unfold flags_at, data_at. by rewrite !Hw.
Qed.

(** An entry of the directory is written, with the same offset. *)
Lemma put_entry_ok d (i : nat) k : kb_ok d -> (i < kb_count d)%nat -> kk_offset k = offset_at d i ->
  kb_ok (put_kb_key d i k) /\ put_kb_key d i k !!! 0%nat = d !!! 0%nat /\
  kb_entries (put_kb_key d i k) = <[i := ((entry_at d i).1.1, Z.land (kk_flags k) (Z.ones 22), kk_data k)]> (kb_entries d).
Proof.
  intros Hd Hi Ho. pose proof Hd as [H1 H2 H3]. assert (kb_count d <= 126)%nat as Hn by (unfold kb_count; lia).
  set (d' := put_kb_key d i k). pose proof (H3 i Hi) as Hoi. pose proof (key_end_bounds d i Hd ltac:(lia)) as He.
  unfold key_size, keydata_size, CAMEL_BLOCK_SIZE in *.
  destruct (put_kb_key_eq d i k H1 ltac:(lia)) as (E1 & E2 & E3); [lia|]. fold d' in E1, E2, E3.
  assert (forall j, (j <> i)%nat -> d' !!! (2 + 2 * j)%nat = d !!! (2 + 2 * j)%nat /\ d' !!! (3 + 2 * j)%nat = d !!! (3 + 2 * j)%nat) as Hw.
  { intros j Hj. unfold d'. rewrite !put_kb_key_ne by lia. done. }
  destruct (kb_change d d' Hd) as (Hd' & Ec & Ee).
  { unfold d', put_kb_key. by rewrite !length_insert. }
  { unfold d'. by rewrite put_kb_key_ne by lia. }
  { intros j Hj. destruct (decide (j = i)) as [->|Hne]; [by rewrite E2|]. unfold offset_at. by destruct (Hw j Hne) as [_ ->]. }
  { intros m Hm. unfold key_size in Hm. apply put_kb_key_bytes; lia. }
  split; [done|]. split; [unfold d'; by rewrite put_kb_key_ne by lia|]. apply list_eq. intros j.
  destruct (decide (j < kb_count d)%nat) as [Hj|Hj].
  2:{ rewrite lookup_ge_None_2, lookup_ge_None_2 by (rewrite ?length_insert, kb_entries_length; lia). done. }
  rewrite kb_entries_lookup, Ee by lia. destruct (decide (j = i)) as [->|Hne].
  - rewrite list_lookup_insert_eq by (rewrite kb_entries_length; lia). by rewrite E1, E3.
  - rewrite list_lookup_insert_ne, kb_entries_lookup by lia. f_equal. unfold flags_at, data_at. destruct (Hw j Hne) as [-> ->]. done.
Qed.

Lemma set_kb_data_ok d (i : nat) x : kb_ok d -> (i < kb_count d)%nat -> exists d', set_kb_data d (Z.of_nat i) x = Ok d' /\ kb_ok d' /\
  d' !!! 0%nat = d !!! 0%nat /\ kb_entries d' = <[i := ((entry_at d i).1, x)]> (kb_entries d).
Proof.
  intros Hd Hi. pose proof Hd as [H1 H2 H3]. assert (kb_count d <= 126)%nat as Hn by (unfold kb_count; lia).
  unfold set_kb_data, kb_slots. destruct ((0 <=? Z.of_nat i) && (Z.of_nat i <? 127)) eqn:E; [|lia].
  rewrite set_word_at by (done || lia). replace (Z.to_nat (2 + 2 * Z.of_nat i)) with (2 + 2 * i)%nat by lia.
  set (d' := <[(2 + 2 * i)%nat := x]> d). assert (forall k, k <> (2 + 2 * i)%nat -> d' !!! k = d !!! k) as Hw by (intros k Hk; by apply get_insert_ne).
  destruct (kb_change d d' Hd) as (Hd' & Ec & Ee).
  { unfold d'. by rewrite length_insert. }
  { apply Hw. lia. }
  { intros j Hj. unfold offset_at. by rewrite Hw by lia. }
  { intros m Hm. unfold key_size in Hm. apply byte_at_insert; [lia|]. assert (2 + 2 * Z.of_nat (kb_count d) <= m / 4) by (apply Z.div_le_lower_bound; lia). lia. }
  exists d'. split; [done|]. split; [done|]. split; [apply Hw; lia|]. apply list_eq. intros j.
  destruct (decide (j < kb_count d)%nat) as [Hj|Hj].
  2:{ rewrite lookup_ge_None_2, lookup_ge_None_2 by (rewrite ?length_insert, kb_entries_length; lia). done. }
  rewrite kb_entries_lookup, Ee by lia. unfold flags_at. rewrite (Hw (3 + 2 * j)%nat) by lia. fold (flags_at d j). unfold data_at. destruct (decide (j = i)) as [->|Hne].
  - rewrite list_lookup_insert_eq by (rewrite kb_entries_length; lia). unfold d'. by rewrite get_insert_eq by (rewrite H1; unfold block_words; lia).
  - rewrite list_lookup_insert_ne, kb_entries_lookup by lia. by rewrite Hw by lia.
Qed.
