(* ===== verification/KeyTableSpec.v ===== *)
(** * Key tables: a list of keys

    The table stands for the list of its keys with their ids, in the order in which they were
    added.  Looking up and changing a key; opening and closing. *)

From stdpp Require Import gmap.
From S2P Require Import Prelude BlockStore BlockStoreSpec KeyTable KeyDataSpec.
#[local] Open Scope Z_scope.
#[local] Open Scope list_scope.

(** ** Key ids *)

Lemma keyid_parts i n : i mod CAMEL_BLOCK_SIZE = 0 -> 0 <= n < CAMEL_BLOCK_SIZE ->
  keyid_block (i + n) = i /\ keyid_index (i + n) = n /\ Z.lor (keyid_block i) n = i + n.
Proof.
  unfold keyid_block, keyid_index, CAMEL_BLOCK_SIZE. intros Hi Hn. change (1024 - 1) with (Z.ones 10).
  assert (forall x, Z.ldiff x (Z.ones 10) = x / 1024 * 1024) as Hl.
  { intros x. rewrite Z.ldiff_ones_r, Z.shiftr_div_pow2, Z.shiftl_mul_pow2 by lia. done. }
  pose proof (Z.div_mod i 1024 ltac:(lia)) as Ei. rewrite Z.land_ones, !Hl by lia. change (2 ^ 10) with 1024.
  rewrite Hi, Z.add_0_r in Ei. replace ((i + n) / 1024) with (i / 1024) by (apply Z.div_unique with n; lia).
  split; [lia|]. split; [symmetry; apply Z.mod_unique with (i / 1024); lia|].
  change 1024 with (2 ^ 10) at 2. rewrite <- Z.shiftl_mul_pow2, lor_add by lia. change (2 ^ 10) with 1024. lia.
Qed.

(** ** The list *)

Definition numbered (i : Z) (es : list entry) : list (Z * entry) := imap (fun n e => (i + Z.of_nat n, e)) es.
Definition key_list (C : Z -> list Z) (js : list Z) : list (Z * entry) := concat (map (fun i => numbered i (kb_entries (C i))) js).

Lemma numbered_app i es es' : numbered i (es ++ es') = numbered i es ++ numbered (i + Z.of_nat (length es)) es'.
Proof. unfold numbered. rewrite imap_app. f_equal. apply imap_ext. intros n e _. cbn. f_equal. lia. Qed.

Lemma elem_of_numbered i es k e : (k, e) ∈ numbered i es <-> exists n : nat, k = i + Z.of_nat n /\ es !! n = Some e.
Proof.
  unfold numbered. rewrite list_elem_of_lookup. split.
  - intros (n & E). rewrite list_lookup_imap in E. destruct (es !! n) as [e'|] eqn:En; [|done]. injection E as <- <-. by exists n.
  - intros (n & -> & En). exists n. by rewrite list_lookup_imap, En.
Qed.

Lemma key_list_app C js js' : key_list C (js ++ js') = key_list C js ++ key_list C js'.
Proof. unfold key_list. by rewrite map_app, concat_app. Qed.

Lemma key_list_cons C i js : key_list C (i :: js) = numbered i (kb_entries (C i)) ++ key_list C js.
Proof. done. Qed.

Lemma key_list_ext C C' js : (forall i, i ∈ js -> C' i = C i) -> key_list C' js = key_list C js.
Proof.
  induction js as [|i js IH]; intros Hc; [done|]. rewrite !key_list_cons, Hc by apply list_elem_of_here. f_equal.
  apply IH. intros j Hj. apply Hc. by apply list_elem_of_further.
Qed.

Lemma elem_of_key_list C js k e : (k, e) ∈ key_list C js <->
  exists i (n : nat), i ∈ js /\ k = i + Z.of_nat n /\ kb_entries (C i) !! n = Some e.
Proof.
  induction js as [|i js IH]; [split; [by intros ?%not_elem_of_nil|by intros (? & ? & ?%not_elem_of_nil & _)]|].
  rewrite key_list_cons, elem_of_app, elem_of_numbered, IH. split.
  - intros [(n & -> & En)|(j & n & Hj & -> & En)]; [exists i, n; split; [apply list_elem_of_here|done]|].
    exists j, n. split; [by apply list_elem_of_further|done].
  - intros (j & n & [->|Hj]%elem_of_cons & -> & En); [left; by exists n|right; by exists j, n].
Qed.

(** Changing what a key id has. *)
Definition set_entry (keyid : Z) (e : entry) (l : list (Z * entry)) : list (Z * entry) :=
  map (fun x => if x.1 =? keyid then (keyid, e) else x) l.

Lemma set_entry_none keyid e l : (forall e', ~ (keyid, e') ∈ l) -> set_entry keyid e l = l.
Proof.
  induction l as [|[k e'] l IH]; intros Hn; [done|]. cbn. destruct (Z.eqb_spec k keyid) as [->|_].
  - destruct (Hn e'). apply list_elem_of_here.
  - f_equal. apply IH. intros e2 Hin. apply (Hn e2). by apply list_elem_of_further.
Qed.

Lemma set_entry_numbered i es (n : nat) e : set_entry (i + Z.of_nat n) e (numbered i es) = numbered i (<[n := e]> es).
Proof.
  apply list_eq. intros m. unfold set_entry, numbered. rewrite list_lookup_fmap, !list_lookup_imap.
  destruct (decide (m = n)) as [->|Hne].
  - destruct (es !! n) as [x|] eqn:E; cbn.
    + rewrite Z.eqb_refl, list_lookup_insert_eq by by eapply lookup_lt_Some. done.
    + rewrite list_insert_ge by by apply lookup_ge_None. by rewrite E.
  - rewrite list_lookup_insert_ne by done. destruct (es !! m) as [x|]; cbn; [|done]. destruct (Z.eqb_spec (i + Z.of_nat m) (i + Z.of_nat n)); [lia|done].
Qed.

(** Key ids of different blocks are different. *)
Lemma key_list_set C C' js i (n : nat) e : NoDup js -> (forall j, j ∈ js -> j mod CAMEL_BLOCK_SIZE = 0 /\ (length (kb_entries (C j)) <= 126)%nat) ->
  i ∈ js -> (n <= 126)%nat -> (forall j, j <> i -> C' j = C j) -> kb_entries (C' i) = <[n := e]> (kb_entries (C i)) ->
  key_list C' js = set_entry (i + Z.of_nat n) e (key_list C js).
Proof.
  intros Hd Hj Hi Hn Hc Ei. destruct (Hj i Hi) as [Hi0 _]. clear Hi. induction js as [|j js IH]; [done|]. apply NoDup_cons in Hd as [Hjn Hd].
  rewrite !key_list_cons. unfold set_entry. rewrite map_app. f_equal; [|apply IH; [done|]; intros j' Hj'; apply Hj; by apply list_elem_of_further].
  destruct (decide (j = i)) as [->|Hne]; [rewrite Ei; symmetry; apply set_entry_numbered|]. rewrite Hc by done. symmetry. apply set_entry_none.
  intros e' (m & Em & El)%elem_of_numbered. destruct (Hj j (list_elem_of_here _ _)) as [Hj0 Hjl]. apply lookup_lt_Some in El.
  unfold CAMEL_BLOCK_SIZE in *. pose proof (Z.div_mod i 1024). pose proof (Z.div_mod j 1024). lia.
Qed.

(** Key ids are unique. *)
Lemma key_list_nodup C js : NoDup js -> (forall j, j ∈ js -> j mod CAMEL_BLOCK_SIZE = 0 /\ (length (kb_entries (C j)) <= 126)%nat) ->
  NoDup (key_list C js).*1.
Proof.
  induction js as [|i js IH]; intros Hd Hj; [constructor|]. apply NoDup_cons in Hd as [Hi Hd].
  rewrite key_list_cons, fmap_app. apply NoDup_app. split; [|split; [|apply IH; [done|]; intros j Hjj; apply Hj; by apply list_elem_of_further]].
  - apply NoDup_alt. intros m n x. unfold numbered. rewrite !list_lookup_fmap, !list_lookup_imap.
    destruct (kb_entries (C i) !! m), (kb_entries (C i) !! n); try done. cbn. intros [= <-] [= E]. lia.
  - intros k [[k1 e1] [-> Hk1]]%list_elem_of_fmap [[k2 e2] [Ek Hk2]]%list_elem_of_fmap. cbn in Ek. subst k2.
    apply elem_of_numbered in Hk1 as (m & -> & Em). apply elem_of_key_list in Hk2 as (j & n & Hjs & Ej & En).
    apply lookup_lt_Some in Em, En. destruct (Hj i (list_elem_of_here _ _)) as [Hi0 Hil], (Hj j (list_elem_of_further _ _ _ Hjs)) as [Hj0 Hjl].
    unfold CAMEL_BLOCK_SIZE in *. pose proof (Z.div_mod i 1024). pose proof (Z.div_mod j 1024). assert (i = j) as -> by lia. done.
Qed.

(** ** The invariant *)

(** The table in the blocks [js]. *)
Record key_table (D : gmap ptr (Z * list Z)) (C : Z -> list Z) (A : gset Z) (ki : CamelKeyTable) (js : list Z) : Prop := {
  kt_root : exists rd, D !! ki_root_block ki = Some (ki_rootid ki, rd) /\ chained C (rd !!! 0%nat) js /\ rd !!! 1%nat = default 0 (last js);
  kt_blocks : Forall (fun i => i ∈ A /\ kb_ok (C i)) js;
  kt_nodup : NoDup js;
  kt_apart : forall p i d, D !! p = Some (i, d) -> ~ i ∈ js;
  kt_unlocked : ki_locked ki = false;
}.

Lemma chained_ext C C' root js : (forall i, i ∈ js -> C' i = C i) -> chained C root js -> chained C' root js.
Proof.
  revert root. induction js as [|i js IH]; intros root Hc Hj; [done|]. destruct Hj as (-> & Hr & Hj). do 2 (split; [done|]).
  rewrite Hc by apply list_elem_of_here. apply IH; [|done]. intros j Hj'. apply Hc. by apply list_elem_of_further.
Qed.

Section ops.
Context {B : Type} `{BlockStoreLaws B}.
Implicit Types (b : B) (ki : CamelKeyTable) (l : list (Z * entry)).

(** The table in the state [b] has the keys [l]. *)
Record key_table_in b ki l : Prop := {
  ki_wf : wf b;
  ki_saved : all_saved b;
  ki_ok : exists js, key_table (det b) (contents b) (allocated b) ki js /\ l = key_list (contents b) js;
}.

(** The root block in memory will be written to the file. *)
Definition key_durable b ki : Prop := saved b (ki_root_block ki).

Lemma key_table_same D C C' A A' ki js : key_table D C A ki js -> (forall i, i ∈ js -> C' i = C i) -> (forall i, i ∈ js -> i ∈ A -> i ∈ A') ->
  key_table D C' A' ki js.
Proof.
  intros [(rd & H1 & H2 & H3) H4 H5 H6 H7] Hc Ha. split; try done.
  - exists rd. split; [done|]. split; [by apply (chained_ext C)|done].
  - rewrite Forall_forall in *. intros i Hi. destruct (H4 i Hi) as (HA & Hk). rewrite Hc by done. split; [by apply Ha|done].
Qed.

Lemma key_table_in_same b b' ki l : key_table_in b ki l -> wf b' -> same_view b b' -> all_saved b' -> key_table_in b' ki l.
Proof.
  intros [Hw Hs (js & Hok & ->)] Hw' [Ed Ec Ea] Hs'. split; [done|done|]. exists js. rewrite Ed, Ea. split.
  - by apply (key_table_same _ (contents b) _ (allocated b)).
  - symmetry. by apply key_list_ext.
Qed.

(** A block of the table. *)
Lemma key_block b D ki js i : wf b -> key_table D (contents b) (allocated b) ki js -> i ∈ js ->
  i ∈ allocated b /\ 0 < i < 2 ^ 32 /\ i mod CAMEL_BLOCK_SIZE = 0 /\ kb_ok (contents b i) /\ (kb_count (contents b i) <= 126)%nat.
Proof.
  intros Hw Hok Hi. pose proof (kt_blocks _ _ _ _ _ Hok) as Hb. rewrite Forall_forall in Hb. destruct (Hb i Hi) as (Ha & Hk).
  destruct (allocated_ok b i Hw Ha) as [Hr Hm]. do 4 (split; [done|]). destruct Hk as [_ Hk _]. unfold kb_count. lia.
Qed.

(** Getting a block of the table. *)
Lemma get_key_kb b ki l js i : key_table_in b ki l -> key_table (det b) (contents b) (allocated b) ki js -> i ∈ js ->
  exists b' r, get_block b i = Ok (b', r) /\ key_table_in b' ki l /\ same_view b b' /\ (forall q, saved b q -> saved b' q) /\
    (forall n, room b n -> room b' n) /\
    match r with
    | Some q => (exists c, held b' q i (S c)) /\ block_data b' q = Ok (contents b i) /\ block_id b' q = Ok i
    | None => refused B
    end.
Proof.
  intros Hin Hok Hi. pose proof Hin as [Hw Hs _]. destruct (key_block b _ ki js i Hw Hok Hi) as (Ha & _).
  destruct (get_saved b i Hw Hs Ha) as (b' & r & E & Hw' & Hv & Hs' & Hsq & Hr & Hq); [intros p d Ho; by apply (kt_apart _ _ _ _ _ Hok p i d)|].
  exists b', r. split; [done|]. split; [by apply (key_table_in_same b)|]. do 3 (split; [done|]). destruct r as [q|]; [|by apply (refused_get b b' i)].
  destruct Hq as (_ & _ & c & Hc). split; [by exists c|]. destruct (held_data b' q i _ Hw' Hc) as [-> ->]. by rewrite (same_contents _ _ Hv).
Qed.

(** Giving it back. *)
Lemma unref_key b ki l q i c : key_table_in b ki l -> held b q i c ->
  exists b', unref_block b q = Ok b' /\ key_table_in b' ki l /\ same_view b b' /\ (key_durable b ki -> key_durable b' ki) /\
    (forall n, room b n -> room b' n) /\ others_held b b' q.
Proof.
  intros Hin Hq. pose proof Hin as [Hw Hs (js & Hok & _)]. destruct (unref_saved b q i c Hw Hs Hq) as (b' & E & Hw' & Hv & Hs' & Ho & Hsq & Hr).
  exists b'. split; [done|]. split; [by apply (key_table_in_same b)|]. split; [done|]. split; [|done]. apply Hsq. intros E'.
  destruct (kt_root _ _ _ _ _ Hok) as (rd & Hrd & _). rewrite E' in Hrd. by destruct (own_held b q q _ rd i c Hw Hrd Hq).
Qed.

(** ** Looking up *)

Lemma lookup_key_ok b ki l keyid e want : key_table_in b ki l -> (keyid, e) ∈ l ->
  exists b' f b1 r, camel_key_table_lookup b ki keyid want = Ok (b', f) /\ key_table_in b' ki l /\ (key_durable b ki -> key_durable b' ki) /\
    keyid_block keyid ∈ allocated b /\ get_block b (keyid_block keyid) = Ok (b1, r) /\ f = match r with Some _ => found_of e want | None => nothing end.
Proof.
  intros Hin Hl. pose proof Hin as [Hw _ (js & Hok & El)]. rewrite El in Hl. apply elem_of_key_list in Hl as (i & n & Hi & -> & En).
  destruct (key_block b _ ki js i Hw Hok Hi) as (Ha & [Hr _] & Hm & Hk & Hc).
  pose proof (lookup_lt_Some _ _ _ En) as Hn. rewrite kb_entries_length in Hn.
  destruct (keyid_parts i (Z.of_nat n) Hm) as (Eb & Ei & _); [unfold CAMEL_BLOCK_SIZE; lia|].
  destruct (get_key_kb b ki l js i Hin Hok Hi) as (b1 & r & Eg & Hin1 & Hv & Hsq & _ & Hq).
  unfold camel_key_table_lookup. destruct (Z.eqb_spec (i + Z.of_nat n) 0); [lia|]. rewrite Eb, Eg, Ei, res_bind_Ok. destruct r as [q|].
  2:{ exists b1, nothing, b1, None. do 2 (split; [done|]). split; [apply Hsq|]. done. }
  destruct Hq as ((c & Hq) & -> & _). rewrite res_bind_Ok, kb_used_ok, res_bind_Ok by done. unfold kb_slots.
  destruct ((127 <=? Z.of_nat (kb_count (contents b i))) || (Z.of_nat (kb_count (contents b i)) <=? Z.of_nat n)) eqn:E; [lia|].
  unfold lock. rewrite (kt_unlocked _ _ _ _ _ Hok), res_bind_Ok, found_at_ok, res_bind_Ok by done.
  destruct (unref_key b1 ki l q i _ Hin1 Hq) as (b2 & -> & Hin2 & Hv2 & Hd2 & _). rewrite res_bind_Ok. rewrite kb_entries_lookup in En by done. injection En as <-.
  exists b2, (found_of (entry_at (contents b i) n) want), b1, (Some q). split; [done|]. split; [done|]. split; [|done]. intros Hd. by apply Hd2, Hsq.
Qed.

(** ** Changing a key *)

(** A block of the table is written. *)
Lemma write_kb b ki l js i q c d : key_table_in b ki l -> key_table (det b) (contents b) (allocated b) ki js -> i ∈ js ->
  held b q i c -> kb_ok d -> d !!! 0%nat = contents b i !!! 0%nat ->
  exists b1 b2, write_data b q d = Ok b1 /\ touch_block b1 q = Ok b2 /\
    key_table_in b2 ki (key_list (change (contents b) i d) js) /\ held b2 q i c /\ (key_durable b ki -> key_durable b2 ki).
Proof.
  intros [Hw Hs _] Hok Hi Hq Hd E0. destruct (write_touch b q i c d Hw Hs Hq (kb_words _ Hd)) as (b2 & b1 & E1 & E2 & Hw2 & Hs2 & Ed & Ec & Ea & Hq2 & Hsq).
  exists b1, b2. split; [done|]. split; [done|]. split; [|split; [done|apply Hsq]]. split; [done|done|]. exists js.
  split; [|symmetry; by apply key_list_ext]. rewrite Ed, Ea. destruct Hok as [(rd & K1 & K2 & K3) K4 K5 K6 K7]. split; try done.
  - exists rd. split; [done|]. split; [|done]. revert K2. generalize (rd !!! 0%nat). clear -Ec E0 K5. induction js as [|j js IH]; intros root K2; [done|].
    destruct K2 as (<- & K0 & K2). apply NoDup_cons in K5 as [_ K5]. do 2 (split; [done|]). rewrite Ec. unfold change. destruct (Z.eqb_spec j i) as [->|]; [rewrite E0|]; by apply IH.
  - rewrite Forall_forall in *. intros j Hj. destruct (K4 j Hj) as (Hja & Hjk). rewrite Ec. unfold change. by destruct (j =? i).
Qed.

Lemma key_counts b D ki js : wf b -> key_table D (contents b) (allocated b) ki js ->
  forall j, j ∈ js -> j mod CAMEL_BLOCK_SIZE = 0 /\ (length (kb_entries (contents b j)) <= 126)%nat.
Proof.
  intros Hw Hok j Hj. destruct (key_block b D ki js j Hw Hok Hj) as (_ & _ & Hm & Hk & Hc). by rewrite kb_entries_length.
Qed.

(** An entry of the block that was got is changed. *)
Lemma change_key_ok b ki l js i (n : nat) q c d e : key_table_in b ki l -> key_table (det b) (contents b) (allocated b) ki js ->
  l = key_list (contents b) js -> i ∈ js -> (n < kb_count (contents b i))%nat -> held b q i (S c) -> kb_ok d ->
  d !!! 0%nat = contents b i !!! 0%nat -> kb_entries d = <[n := e]> (kb_entries (contents b i)) ->
  exists b', (b ← (b ← write_data b q d; touch_block b q); unref_block b q) = Ok b' /\
    key_table_in b' ki (set_entry (i + Z.of_nat n) e l) /\ (key_durable b ki -> key_durable b' ki).
Proof.
  intros Hin Hok El Hi Hn Hq Hd E0 Ee. pose proof (key_block b _ ki js i (ki_wf _ _ _ Hin) Hok Hi) as (_ & _ & _ & _ & Hc).
  destruct (write_kb b ki l js i q (S c) d Hin Hok Hi Hq Hd E0) as (b1 & b2 & -> & E2 & Hin2 & Hq2 & Hd2).
  rewrite res_bind_Ok, E2, res_bind_Ok. destruct (unref_key b2 ki _ q i _ Hin2 Hq2) as (b3 & -> & Hin3 & _ & Hd3 & _).
  exists b3. split; [done|]. split; [|auto]. rewrite El.
  rewrite <- (key_list_set (contents b) (change (contents b) i d) js i n e); [done| | |done|lia| |].
  - apply Hok.
  - apply (key_counts b (det b) ki js (ki_wf _ _ _ Hin) Hok).
  - intros j Hj. unfold change. by destruct (Z.eqb_spec j i).
  - unfold change. by rewrite Z.eqb_refl.
Qed.

(** When the block of the key cannot be read, nothing changes. *)
Lemma set_data_ok b ki l keyid e x : key_table_in b ki l -> (keyid, e) ∈ l ->
  exists b' b1 r, camel_key_table_set_data b ki keyid x = Ok b' /\ (key_durable b ki -> key_durable b' ki) /\
    keyid_block keyid ∈ allocated b /\ get_block b (keyid_block keyid) = Ok (b1, r) /\
    key_table_in b' ki (match r with Some _ => set_entry keyid (e.1, x) l | None => l end).
Proof.
  intros Hin Hl. pose proof Hin as [Hw _ (js & Hok & El)]. rewrite El in Hl. apply elem_of_key_list in Hl as (i & n & Hi & -> & En).
  destruct (key_block b _ ki js i Hw Hok Hi) as (Ha & [Hr _] & Hm & Hk & Hc).
  pose proof (lookup_lt_Some _ _ _ En) as Hn. rewrite kb_entries_length in Hn.
  destruct (keyid_parts i (Z.of_nat n) Hm) as (Eb & Ei & _); [unfold CAMEL_BLOCK_SIZE; lia|].
  destruct (get_key_kb b ki l js i Hin Hok Hi) as (b1 & r & Eg & Hin1 & Hv & Hsq & _ & Hq). assert (key_durable b ki -> key_durable b1 ki) as Hd1 by apply Hsq.
  unfold camel_key_table_set_data. destruct (Z.eqb_spec (i + Z.of_nat n) 0); [lia|]. rewrite Eb, Eg, Ei, res_bind_Ok. destruct r as [q|]; [|by exists b1, b1, None].
  destruct Hq as ((c & Hq) & -> & _). unfold lock. rewrite res_bind_Ok, (kt_unlocked _ _ _ _ _ Hok), res_bind_Ok, kb_key_ok, res_bind_Ok by (apply Hk || lia).
  cbn [kk_data]. rewrite kb_entries_lookup in En by done. injection En as <-. pose proof Hv as [Ed Ec Ea].
  assert (key_table (det b1) (contents b1) (allocated b1) ki js) as Hok1.
  { rewrite Ed, Ea. by apply (key_table_same _ (contents b) _ (allocated b)). }
  assert (l = key_list (contents b1) js) as El1 by (rewrite El; symmetry; by apply key_list_ext).
  destruct (Z.eqb_spec (data_at (contents b i) n) x) as [Ex|Hx]; cbn [negb].
  - rewrite res_bind_Ok. destruct (unref_key b1 ki l q i _ Hin1 Hq) as (b2 & -> & Hin2 & _ & Hd2 & _).
    exists b2, b1, (Some q). do 2 (split; [auto|]). do 2 (split; [done|]). rewrite El1 at 1.
    rewrite <- (key_list_set (contents b1) (contents b1) js i n ((entry_at (contents b i) n).1, x)); [by rewrite <- El1| | |done|lia|done|].
    + apply Hok.
    + apply (key_counts b1 _ ki js (ki_wf _ _ _ Hin1) Hok1).
    + rewrite Ec. symmetry. apply list_insert_id. rewrite kb_entries_lookup by done. unfold entry_at. by rewrite Ex.
  - destruct (set_kb_data_ok (contents b i) n x Hk Hn) as (d & -> & Hd & E0 & Ee). rewrite res_bind_Ok.
    destruct (change_key_ok b1 ki l js i n q c d ((entry_at (contents b i) n).1, x) Hin1 Hok1 El1 Hi) as (b2 & E2 & Hin2 & Hd2);
      rewrite ?Ec; try done. exists b2, b1, (Some q). do 2 (split; [auto|]). done.
Qed.

Lemma set_flags_ok b ki l keyid e flags set : key_table_in b ki l -> (keyid, e) ∈ l ->
  exists b' b1 r, camel_key_table_set_flags b ki keyid flags set = Ok b' /\ (key_durable b ki -> key_durable b' ki) /\
    keyid_block keyid ∈ allocated b /\ get_block b (keyid_block keyid) = Ok (b1, r) /\
    key_table_in b' ki (match r with
                        | Some _ => set_entry keyid (e.1.1, Z.land (Z.lor (Z.ldiff e.1.2 set) (Z.land flags set)) (Z.ones 22), e.2) l
                        | None => l
                        end).
Proof.
  intros Hin Hl. pose proof Hin as [Hw _ (js & Hok & El)]. rewrite El in Hl. apply elem_of_key_list in Hl as (i & n & Hi & -> & En).
  destruct (key_block b _ ki js i Hw Hok Hi) as (Ha & [Hr _] & Hm & Hk & Hc).
  pose proof (lookup_lt_Some _ _ _ En) as Hn. rewrite kb_entries_length in Hn.
  destruct (keyid_parts i (Z.of_nat n) Hm) as (Eb & Ei & _); [unfold CAMEL_BLOCK_SIZE; lia|].
  destruct (get_key_kb b ki l js i Hin Hok Hi) as (b1 & r & Eg & Hin1 & Hv & Hsq & _ & Hq). assert (key_durable b ki -> key_durable b1 ki) as Hd1 by apply Hsq.
  unfold camel_key_table_set_flags. destruct (Z.eqb_spec (i + Z.of_nat n) 0); [lia|]. rewrite Eb, Eg, Ei, res_bind_Ok. destruct r as [q|]; [|by exists b1, b1, None].
  destruct Hq as ((c & Hq) & -> & _). rewrite res_bind_Ok, kb_used_ok, res_bind_Ok by done. unfold kb_slots.
  destruct ((127 <=? Z.of_nat (kb_count (contents b i))) || (Z.of_nat (kb_count (contents b i)) <=? Z.of_nat n)) eqn:E; [lia|]. clear E.
  unfold lock. rewrite (kt_unlocked _ _ _ _ _ Hok), res_bind_Ok, kb_key_ok, res_bind_Ok by (apply Hk || lia). cbn [kk_data kk_offset kk_flags].
  rewrite kb_entries_lookup in En by done. injection En as <-. pose proof Hv as [Ed Ec Ea]. cbn [entry_at fst snd].
  assert (key_table (det b1) (contents b1) (allocated b1) ki js) as Hok1.
  { rewrite Ed, Ea. by apply (key_table_same _ (contents b) _ (allocated b)). }
  assert (l = key_list (contents b1) js) as El1 by (rewrite El; symmetry; by apply key_list_ext).
  set (old := flags_at (contents b i) n). set (new := Z.lor (Z.ldiff old set) (Z.land flags set)).
  destruct (Z.eqb_spec (Z.land old set) (Z.land flags set)) as [Ex|Hx]; cbn [negb].
  - rewrite res_bind_Ok. destruct (unref_key b1 ki l q i _ Hin1 Hq) as (b2 & -> & Hin2 & _ & Hd2 & _).
    exists b2, b1, (Some q). do 2 (split; [auto|]). do 2 (split; [done|]). rewrite El1 at 1.
    set (e := (_, Z.land new (Z.ones 22), _)). rewrite <- (key_list_set (contents b1) (contents b1) js i n e); [by rewrite <- El1| | |done|lia|done|].
    + apply Hok.
    + apply (key_counts b1 _ ki js (ki_wf _ _ _ Hin1) Hok1).
    + rewrite Ec. symmetry. apply list_insert_id. rewrite kb_entries_lookup by done. unfold e, entry_at. fold old. do 3 f_equal.
      unfold new. rewrite <- Ex. rewrite Z.lor_comm, Z.land_comm, (Z.land_comm old), <- (Z.lor_comm (Z.ldiff _ _)). apply Z.bits_inj'. intros k Hk0.
      rewrite !Z.land_spec, Z.lor_spec, Z.ldiff_spec, Z.land_spec. unfold old, flags_at. rewrite Z.land_spec.
      destruct (Z.testbit _ k), (Z.testbit set k), (Z.testbit (Z.ones 22) k); done.
  - rewrite set_kb_key_ok, res_bind_Ok by (apply Hk || lia).
    destruct (put_entry_ok (contents b i) n (mkKey (data_at (contents b i) n) (offset_at (contents b i) n) new) Hk Hn eq_refl) as (Hd & E0 & Ee).
    destruct (change_key_ok b1 ki l js i n q c _ _ Hin1 Hok1 El1 Hi ltac:(by rewrite Ec) Hq Hd ltac:(by rewrite Ec) ltac:(by rewrite Ec; exact Ee)) as (b2 & E2 & Hin2 & Hd2).
    exists b2, b1, (Some q). do 2 (split; [auto|]). done.
Qed.
End ops.

(** * Key tables: opening and closing

    The table in the blocks of a file ([stored_keys]), without its root block in memory: opening
    finds the same keys, and an empty root block is a table without keys. *)

(** The root block and the blocks of the chain. *)
Record stored_keys (C : Z -> list Z) (A : gset Z) (root : Z) (js : list Z) (l : list (Z * entry)) : Prop := {
  sk_root : root ∈ A /\ ~ root ∈ js;
  sk_chained : chained C (C root !!! 0%nat) js;
  sk_last : C root !!! 1%nat = default 0 (last js);
  sk_blocks : Forall (fun i => i ∈ A /\ kb_ok (C i)) js;
  sk_nodup : NoDup js;
  sk_list : l = key_list C js;
}.

Lemma stored_keys_ext C C' A root js l : (forall i, C' i = C i) -> stored_keys C A root js l -> stored_keys C' A root js l.
Proof.
  intros HC [K1 K2 K3 K4 K5 K6]. split; try done.
  - rewrite HC. by apply (chained_ext C).
  - by rewrite HC.
  - eapply Forall_impl; [exact K4|]. cbn. intros i. by rewrite HC.
  - rewrite K6. symmetry. by apply key_list_ext.
Qed.

Section open.
Context {B : Type} `{BlockStoreLaws B}.
Implicit Types (b : B) (ki : CamelKeyTable) (l : list (Z * entry)).

Lemma sync_all_saved b : wf b -> all_saved b -> exists b' ret, sync b = Ok (b', ret) /\ wf b' /\ all_saved b'.
Proof.
  intros Hw Ha. destruct (sync_law b Hw) as (b2 & ret & E & Hw2 & P2 & C2 & _ & S2 & _). exists b2, ret. do 2 (split; [done|]).
  intros q j c Hq. apply S2, (Ha q j c). unfold held in *. by rewrite <- P2, <- C2.
Qed.

(** Opening a table. *)
Lemma open_keys b root js l : wf b -> all_saved b -> stored_keys (contents b) (allocated b) root js l ->
  (forall p i d, own b p i d -> i <> root /\ ~ i ∈ js) ->
  exists b' r, camel_key_table_new b root = Ok (b', r) /\
    match r with
    | Some ki => ki_rootid ki = root /\ key_table_in b' ki l /\ key_durable b' ki
    | None => wf b' /\ all_saved b' /\ refused B
    end.
Proof.
  intros Hw Hs [[Hra Hrj] K2 K3 K4 K5 K6] Ho. unfold camel_key_table_new.
  destruct (get_saved b root Hw Hs Hra) as (b1 & r & Eg & Hw1 & [D1 C1 A1] & Hs1 & _ & _ & Hr); [intros p d Hp; by destruct (Ho p root d Hp)|].
  rewrite Eg, res_bind_Ok. destruct r as [p|].
  2:{ unfold camel_key_table_finalise. rewrite res_bind_Ok. destruct (sync_all_saved b1 Hw1 Hs1) as (b2 & ret & -> & Hw2 & Hs2). rewrite !res_bind_Ok.
      exists b2, None. do 3 (split; [done|]). by apply (refused_get b b1 root). }
  destruct Hr as (_ & _ & c & Hp). destruct (detach_view b1 p root _ Hw1 Hp) as (b2 & -> & Hw2 & D2 & C2 & A2 & O2 & S2 & _). rewrite res_bind_Ok.
  eexists b2, (Some _). split; [done|]. split; [done|]. assert (saved b2 p) as Hsp by by apply S2, (Hs1 p root (S c)). split; [|done].
  assert (forall j, j ∈ js -> contents b2 j = contents b j) as Cj by (intros j Hj; rewrite C2, C1; [done|by intros ->]).
  split; [done| |].
  - apply (all_saved_but b1 b2 p Hs1 O2); auto.
  - exists js. split; [|rewrite K6; symmetry; by apply key_list_ext]. split; cbn.
    + exists (contents b1 root). rewrite D2, lookup_insert_eq, C1. split; [done|]. split; [by apply (chained_ext (contents b))|done].
    + rewrite A2, A1. rewrite Forall_forall in *. intros j Hj. rewrite Cj by done. by apply K4.
    + done.
    + intros q i d Hq. rewrite D2, D1 in Hq. apply lookup_insert_Some in Hq as [[_ E]|[_ Hq]]; [by injection E as <- _|].
      by destruct (Ho q i d Hq).
    + done.
Qed.

(** An empty block is the root block of a table without keys. *)
Lemma empty_keys C A root : root ∈ A -> C root = zero_block -> stored_keys C A root [] [].
Proof. intros Ha E. split; try done; [|by rewrite E|by rewrite E|constructor]. split; [done|]. by intros ?%not_elem_of_nil. Qed.

(** Syncing a table: when it succeeds, the root block is in the file, too. *)
Lemma sync_keys b ki l : key_table_in b ki l -> key_durable b ki ->
  exists b' ret, camel_key_table_sync b ki = Ok (b', ret) /\ key_table_in b' ki l /\ key_durable b' ki /\ (ret = 0 \/ ret = -1) /\
    (ret = 0 -> exists js, stored_keys (contents b') (allocated b') (ki_rootid ki) js l).
Proof.
  intros [Hw Hs (js & Hok & El)] Hd. pose proof (kt_root _ _ _ _ _ Hok) as (rd & Hrd & Hch & Elast).
  destruct (sync_own_view b (ki_root_block ki) (ki_rootid ki) rd Hw Hrd Hd) as (b1 & ret & E & Hw1 & D1 & C1 & Hret & Cr & A1 & O1 & S1 & _).
  assert (forall j, j ∈ js -> contents b1 j = contents b j) as Cj.
  { intros j Hj. apply C1. intros ->. by apply (kt_apart _ _ _ _ _ Hok (ki_root_block ki) (ki_rootid ki) rd Hrd). }
  assert (l = key_list (contents b1) js) as El1 by (rewrite El; symmetry; by apply key_list_ext).
  assert (key_table (det b1) (contents b1) (allocated b1) ki js) as Hok1 by (rewrite D1, A1; by apply (key_table_same _ (contents b) _ (allocated b))).
  exists b1, ret. split; [done|]. split.
  { split; [done| |by exists js]. by apply (all_saved_same b). }
  split; [by apply S1|]. split; [done|]. intros E0. exists js. pose proof (Cr (or_introl E0)) as Er.
  destruct (own_data b _ _ _ Hw Hrd) as (_ & _ & _ & Hra). destruct Hok1 as [_ K4 K5 K6 _]. split; try done.
  - rewrite A1. split; [done|]. apply (K6 (ki_root_block ki) _ rd). by rewrite D1.
  - rewrite Er. by apply (chained_ext (contents b)).
  - by rewrite Er.
Qed.

(** Closing a table. *)
Lemma finalise_keys b ki l : key_table_in b ki l -> key_durable b ki ->
  exists b', camel_key_table_finalise b (Some ki) = Ok b' /\ wf b' /\ all_saved b'.
Proof.
  intros Hin Hd. destruct (sync_keys b ki l Hin Hd) as (b1 & ret & E1 & [Hw1 Hs1 (js & Hok & _)] & Hd1 & _). pose proof (kt_root _ _ _ _ _ Hok) as (rd & Hrd & _).
  unfold camel_key_table_finalise. unfold camel_key_table_sync in E1. rewrite E1, res_bind_Ok.
  destruct (unref_own_view b1 _ _ _ Hw1 Hrd Hd1) as (b2 & -> & Hw2 & D2 & C2 & A2 & O2 & S2 & _). rewrite res_bind_Ok.
  destruct (sync_all_saved b2 Hw2) as (b3 & ret3 & -> & Hw3 & Hs3); [|rewrite res_bind_Ok; by exists b3].
  intros q j c Hq%O2. destruct (own_held b1 _ q _ rd j c Hw1 Hrd Hq) as [_ Hne]. apply S2; [by apply not_eq_sym|]. by apply (Hs1 q j c).
Qed.
End open.
