(* ===== verification/KeyTableAddSpec.v ===== *)
(** * Key tables: adding a key

    A key that is added is the last one of the list, whether it is put into the last block or into
    a new one. *)

From stdpp Require Import gmap.
From S2P Require Import Prelude BlockStore BlockStoreSpec KeyTable KeyDataSpec KeyTableSpec.
#[local] Open Scope Z_scope.
#[local] Open Scope list_scope.

(** ** Chains *)

Lemma zero_kb : kb_ok zero_block /\ kb_entries zero_block = [] /\ zero_block !!! 0%nat = 0.
Proof. split; [split; [done|cbn; lia|]|done]. intros i Hi. change (kb_count zero_block) with 0%nat in Hi. lia. Qed.

Lemma chained_snoc C C' root js i j : chained C root (js ++ [i]) -> ~ i ∈ js -> (forall k, k ∈ js -> C' k = C k) ->
  C' i !!! 0%nat = j -> j <> 0 -> C' j !!! 0%nat = 0 -> chained C' root (js ++ [i; j]).
Proof.
  revert root. induction js as [|k js IH]; intros root Hc Hn He Ei Hj Ej.
  - destruct Hc as (-> & Hr & _). cbn. rewrite Ei. by repeat split.
  - cbn [app] in *. destruct Hc as (-> & Hr & Hc). rewrite elem_of_cons in Hn. do 2 (split; [done|]). rewrite He by apply list_elem_of_here.
    apply IH; try done; [tauto|]. intros k' Hk. apply He. by apply list_elem_of_further.
Qed.

Lemma chained_last C root js i : chained C root (js ++ [i]) -> i <> 0.
Proof. revert root. induction js as [|k js IH]; intros root Hc; [by destruct Hc as (-> & Hr & _)|]. destruct Hc as (_ & _ & Hc). by apply (IH _ Hc). Qed.

Section add.
Context {B : Type} `{BlockStoreLaws B}.
Implicit Types (b : B) (ki : CamelKeyTable) (l : list (Z * entry)).

(** ** The root block *)

(** Writing a detached block, and touching it. *)
Lemma write_own_touch b p i d d' : wf b -> own b p i d -> length d' = block_words ->
  exists b1 b2, write_data b p d' = Ok b1 /\ touch_block b1 p = Ok b2 /\ wf b2 /\ det b2 = <[p := (i, d')]> (det b) /\
    (forall j, contents b2 j = contents b j) /\ allocated b2 = allocated b /\ all_held b b2 /\ saved b2 p /\
    (forall q, saved b q -> saved b2 q) /\ (forall n, room b n -> room b2 n).
Proof.
  intros Hw Ho Hd. destruct (write_own_view b p i d d' Hw Ho Hd) as (b1 & E1 & Hw1 & Ed1 & Ec1 & Ea1 & Hh1 & Hs1 & Hr1).
  assert (own b1 p i d') as [c Hp]%own_pins by (unfold own; rewrite Ed1; apply lookup_insert_eq).
  destruct (touch_view b1 p _ Hw1 Hp) as (b2 & E2 & Hw2 & [Ed2 Ec2 Ea2] & Hh2 & Hsp & Hs2 & Hr2). exists b1, b2.
  do 3 (split; [done|]). split; [congruence|]. split; [intros j; by rewrite Ec2|]. split; [congruence|].
  split; [intros q j c'; by rewrite (Hh2 q j c'), (Hh1 q j c')|]. split; [done|]. split; [|auto].
  intros q Hq. destruct (decide (q = p)) as [->|Hne]; [done|]. by apply Hs2, Hs1.
Qed.

(** The table and its last block, which is held. *)
Definition last_held b ki l (q : ptr) (i : Z) : Prop :=
  exists js c, key_table (det b) (contents b) (allocated b) ki (js ++ [i]) /\ l = key_list (contents b) (js ++ [i]) /\ held b q i (S c).

(** The first block of the table. *)
Lemma first_block_ok b ki l : key_table_in b ki l -> room b 1 -> key_table (det b) (contents b) (allocated b) ki [] ->
  exists b' r, last_block_of b ki = Ok (b', r) /\ (key_durable b ki -> key_durable b' ki) /\ key_table_in b' ki l /\
    match r with Some q => exists i, last_held b' ki l q i /\ contents b' i = zero_block | None => refused B end.
Proof.
  intros Hin Hr Hok. pose proof Hin as [Hw Hs (js0 & Hok0 & El)]. destruct (kt_root _ _ _ _ _ Hok) as (rd & Hrd & _ & Elast).
  pose proof Hrd as Ho. change (own b (ki_root_block ki) (ki_rootid ki) rd) in Ho. destruct (own_data b _ _ _ Hw Ho) as (Erd & _ & Lrd & Hra).
  assert (js0 = []) as ->.
  { destruct (kt_root _ _ _ _ _ Hok0) as (rd0 & Hrd0 & Hc0 & _). rewrite Hrd in Hrd0. injection Hrd0 as <-.
    destruct (kt_root _ _ _ _ _ Hok) as (rd1 & Hrd1 & Hc1 & _). rewrite Hrd in Hrd1. injection Hrd1 as <-. cbn in Hc1.
    destruct js0 as [|j js0]; [done|]. by destruct Hc0 as (_ & ? & _). }
  cbn in El, Elast. subst l. unfold last_block_of, key_last. rewrite Erd, res_bind_Ok, word_at, res_bind_Ok by (done || lia). change (Z.to_nat 1) with 1%nat. rewrite Elast. cbn [Z.eqb].
  destruct (new_view b 0 Hw Hr) as (b1 & r & Enew & Hw1 & Hsq & _ & Hn). rewrite Enew, res_bind_Ok. destruct r as [q|].
  2:{ exists b1, None. split; [done|]. split; [apply Hsq|]. split; [|by apply (refused_new b b1 0)]. destruct Hn as [Hv Hh]. apply (key_table_in_same b); [done|done|done|].
      by apply (all_saved_same b). }
  destruct Hn as (i & Hi & Ed & Ec & Ez & Ea & Hq & Hsv & Hpn & Hdn & Hoh). destruct (held_data b1 q i _ Hw1 Hq) as [_ Eid].
  assert (own b1 (ki_root_block ki) (ki_rootid ki) rd) as Ho1 by (unfold own; by rewrite Ed).
  destruct (own_data b1 _ _ _ Hw1 Ho1) as (Erd1 & _). rewrite Eid, res_bind_Ok, Erd1, res_bind_Ok. unfold set_key_last, set_key_first.
  rewrite set_word_at, res_bind_Ok, set_word_at, res_bind_Ok by (rewrite ?length_insert; done || lia). set (rd' := <[Z.to_nat 0 := i]> _).
  destruct (write_own_touch b1 _ _ rd rd' Hw1 Ho1) as (b2 & b3 & -> & E3 & Hw3 & D3 & C3 & A3 & H3 & Sr3 & S3 & _); [unfold rd'; by rewrite !length_insert|].
  rewrite res_bind_Ok, E3, res_bind_Ok. exists b3, (Some q). split; [done|]. split; [done|].
  assert (all_saved b3) as Hs3.
  { apply (all_saved_same b1); [|done|done]. intros q' j c Hq'. destruct (decide (q' = q)) as [->|Hne]; [done|]. apply Hsq, (Hs q' j c). by apply Hoh. }
  destruct (allocated_ok b1 i Hw1) as [Hi0 _]; [rewrite Ea; set_solver|]. destruct zero_kb as (Zk & Ze & Z0).
  assert (key_table (det b3) (contents b3) (allocated b3) ki [i]) as Hok3.
  { split.
    - exists rd'. rewrite D3, lookup_insert_eq. split; [done|]. cbn [chained last default]. rewrite C3, Ez, Z0. unfold rd'. change (Z.to_nat 0) with 0%nat. change (Z.to_nat 1) with 1%nat.
      rewrite get_insert_eq, get_insert_ne, get_insert_eq by (rewrite ?length_insert, ?Lrd; done || (unfold block_words; lia)).
      split; [|done]. split; [done|]. split; [lia|done].
    - constructor; [|constructor]. rewrite A3, Ea, C3, Ez. split; [set_solver|done].
    - apply NoDup_singleton.
    - intros p j x Hp ->%list_elem_of_singleton. rewrite D3, Ed in Hp. apply lookup_insert_Some in Hp as [[_ E]|[_ Hp]].
      + injection E as <- _. done.
      + by destruct (own_data b p i x Hw Hp) as (_ & _ & _ & ?).
    - apply Hok. }
  assert (key_list (contents b3) [i] = []) as E0 by (unfold key_list; cbn; by rewrite C3, Ez, Ze).
  split; [split; [done|done|by exists [i]]|]. exists i. split; [|by rewrite C3].
  exists [], 0%nat. split; [done|]. split; [done|]. by apply H3.
Qed.

(** The last block, when there is one. *)
Lemma get_last_ok b ki l js i : key_table_in b ki l -> room b 1 -> key_table (det b) (contents b) (allocated b) ki (js ++ [i]) ->
  l = key_list (contents b) (js ++ [i]) ->
  exists b' r, last_block_of b ki = Ok (b', r) /\ (key_durable b ki -> key_durable b' ki) /\ key_table_in b' ki l /\
    match r with Some q => last_held b' ki l q i /\ room b' 1 | None => refused B end.
Proof.
  intros Hin Hr Hok El. pose proof Hin as [Hw Hs _]. destruct (kt_root _ _ _ _ _ Hok) as (rd & Hrd & Hch & Elast).
  pose proof Hrd as Ho. change (own b (ki_root_block ki) (ki_rootid ki) rd) in Ho. destruct (own_data b _ _ _ Hw Ho) as (Erd & _ & Lrd & _).
  rewrite last_snoc in Elast. cbn in Elast. unfold last_block_of, key_last. rewrite Erd, res_bind_Ok, word_at, res_bind_Ok by (done || lia). change (Z.to_nat 1) with 1%nat. rewrite Elast.
  destruct (Z.eqb_spec i 0) as [E0|_]; [by destruct (chained_last _ _ _ _ Hch)|].
  destruct (get_key_kb b ki l (js ++ [i]) i Hin Hok) as (b1 & r & -> & Hin1 & [Ed Ec Ea] & Hsq & Hr1 & Hq); [apply elem_of_app; right; apply list_elem_of_here|].
  exists b1, r. split; [done|]. split; [apply Hsq|]. split; [done|]. destruct r as [q|]; [|done]. destruct Hq as ((c & Hq) & _ & _).
  split; [|by apply Hr1]. exists js, c. split; [|split; [|done]].
  - rewrite Ed, Ea. by apply (key_table_same _ (contents b) _ (allocated b)).
  - rewrite El. symmetry. by apply key_list_ext.
Qed.

(** The chain with another block, which is empty. *)
Lemma key_table_snoc D C A C' A' ki js i j rd : key_table D C A ki (js ++ [i]) -> D !! ki_root_block ki = Some (ki_rootid ki, rd) ->
  length rd = block_words -> (forall k, k ∈ js -> C' k = C k) -> kb_ok (C' i) -> kb_entries (C' i) = kb_entries (C i) ->
  C' i !!! 0%nat = j -> C' j = zero_block -> 0 < j -> ~ j ∈ A -> (forall p k x, D !! p = Some (k, x) -> k ∈ A) -> A' = {[j]} ∪ A ->
  key_table (<[ki_root_block ki := (ki_rootid ki, <[1%nat := j]> rd)]> D) C' A' ki ((js ++ [i]) ++ [j]) /\
  key_list C' ((js ++ [i]) ++ [j]) = key_list C (js ++ [i]).
Proof.
  intros Hok Hrd Lrd Cj Hk Ee Ei Ez Hj0 HjA HD ->. destruct zero_kb as (Zk & Ze & Z0).
  destruct (kt_root _ _ _ _ _ Hok) as (rd0 & Hrd0 & Hch & _). rewrite Hrd in Hrd0. injection Hrd0 as <-.
  pose proof (kt_nodup _ _ _ _ _ Hok) as Hnd. pose proof Hnd as [_ [Hni _]]%NoDup_app.
  pose proof (kt_blocks _ _ _ _ _ Hok) as Hb. rewrite Forall_forall in Hb. assert (~ j ∈ js ++ [i]) as Hjn by (intros Hin; by destruct (Hb j Hin)).
  split; [split|].
  - exists (<[1%nat := j]> rd). rewrite lookup_insert_eq, last_snoc. split; [done|].
    rewrite get_insert_ne, get_insert_eq by (rewrite ?Lrd; done || (unfold block_words; lia)). split; [|done]. rewrite <- app_assoc.
    apply (chained_snoc C); [done| |done|done|lia|by rewrite Ez, Z0]. intros Hij. destruct (Hni i Hij). apply list_elem_of_here.
  - apply Forall_app. split; [|constructor; [|constructor]].
    + rewrite Forall_forall. intros k Hkj. destruct (Hb k Hkj) as [HkA Hkk]. split; [set_solver|].
      apply elem_of_app in Hkj as [Hkj| ->%list_elem_of_singleton]; [by rewrite Cj|done].
    + rewrite Ez. split; [set_solver|done].
  - apply NoDup_app. split; [done|]. split; [|apply NoDup_singleton]. by intros k Hkj ->%list_elem_of_singleton.
  - intros p k x Hp Hkj. assert (exists x0, D !! p = Some (k, x0)) as [x0 Hp0].
    { apply lookup_insert_Some in Hp as [[<- E]|[_ Hp]]; [injection E as <- _; by exists rd|by exists x]. }
    apply elem_of_app in Hkj as [Hkj| ->%list_elem_of_singleton]; [by apply (kt_apart _ _ _ _ _ Hok p k x0)|]. by apply HjA, (HD p j x0).
  - apply Hok.
  - rewrite !key_list_app, <- (key_list_ext C C' js) by done. unfold key_list. cbn. by rewrite Ez, Ee, Ze, !app_nil_r.
Qed.

(** The new block is linked to the last one. *)
Lemma link_block_ok b b1 ki l js i j q q' c : key_table_in b ki l -> key_table (det b) (contents b) (allocated b) ki (js ++ [i]) ->
  l = key_list (contents b) (js ++ [i]) -> held b q i c -> wf b1 -> (forall p, saved b p -> saved b1 p) -> ~ j ∈ allocated b -> det b1 = det b ->
  (forall k, k ∈ allocated b -> contents b1 k = contents b k) -> contents b1 j = zero_block -> allocated b1 = {[j]} ∪ allocated b ->
  held b1 q' j 1 -> saved b1 q' -> q <> q' -> others_held b b1 q' ->
  exists b2, (kb ← block_data b1 q; kb ← set_kb_next kb j; b ← write_data b1 q kb; root ← block_data b (ki_root_block ki);
      root ← set_key_last root j; b ← write_data b (ki_root_block ki) root; b ← touch_block b (ki_root_block ki); touch_block b q) = Ok b2 /\
    wf b2 /\ all_saved b2 /\ saved b2 (ki_root_block ki) /\ held b2 q i c /\ held b2 q' j 1 /\ contents b2 j = zero_block /\
    key_table (det b2) (contents b2) (allocated b2) ki ((js ++ [i]) ++ [j]) /\ l = key_list (contents b2) ((js ++ [i]) ++ [j]).
Proof.
  intros [Hw Hs _] Hok El Hq Hw1 Hsq Hj Ed Ec Ez Ea Hq' Hsv Hqq Hoh. assert (i ∈ js ++ [i]) as Hi by (apply elem_of_app; right; apply list_elem_of_here).
  pose proof (kt_blocks _ _ _ _ _ Hok) as Hb. rewrite Forall_forall in Hb. destruct (Hb i Hi) as [Hia Hik].
  assert (held b1 q i c) as Hq1 by by apply Hoh. destruct (held_data b1 q i _ Hw1 Hq1) as [-> _]. rewrite res_bind_Ok, Ec by done.
  destruct (set_kb_next_ok (contents b i) j Hik) as (d & -> & Hd & Ee & E0). rewrite res_bind_Ok.
  destruct (write_view b1 q i c d Hw1 Hq1 (kb_words _ Hd)) as (b2 & -> & Hw2 & D2 & C2 & A2 & Hq2 & Ho2 & [S2 _]). rewrite res_bind_Ok.
  destruct (kt_root _ _ _ _ _ Hok) as (rd & Hrd & Hch & Elast).
  assert (own b2 (ki_root_block ki) (ki_rootid ki) rd) as Ho by (unfold own; by rewrite D2, Ed). destruct (own_data b2 _ _ _ Hw2 Ho) as (-> & _ & Lrd & _).
  rewrite res_bind_Ok. unfold set_key_last. rewrite set_word_at, res_bind_Ok by (done || lia). change (Z.to_nat 1) with 1%nat.
  destruct (write_own_touch b2 _ _ rd (<[1%nat := j]> rd) Hw2 Ho) as (b3 & b4 & -> & E4 & Hw4 & D4 & C4 & A4 & H4 & Sr4 & S4 & _); [by rewrite length_insert|].
  rewrite res_bind_Ok, E4, res_bind_Ok. assert (held b4 q i c) as Hq4 by by apply H4.
  destruct (touch_view b4 q _ Hw4 Hq4) as (b5 & -> & Hw5 & [D5 C5 A5] & H5 & Sq5 & S5 & _). exists b5.
  assert (forall k, contents b5 k = change (contents b1) i d k) as C by (intros k; by rewrite C5, C4, C2).
  destruct (allocated_ok b1 j Hw1) as [Hj0 _]; [rewrite Ea; set_solver|].
  pose proof (kt_nodup _ _ _ _ _ Hok) as [_ [Hni _]]%NoDup_app.
  assert (contents b5 j = zero_block) as Czj by (rewrite C; unfold change; destruct (Z.eqb_spec j i) as [->|]; done).
  assert (contents b5 i = d) as Ci by (rewrite C; unfold change; by rewrite Z.eqb_refl).
  destruct (key_table_snoc (det b) (contents b) (allocated b) (contents b5) (allocated b5) ki js i j rd Hok Hrd Lrd) as [Hok5 El5];
    rewrite ?Ci; try done; [|lia| |congruence|].
  { intros k Hk. rewrite C. unfold change. destruct (Z.eqb_spec k i) as [->|]; [destruct (Hni i Hk); apply list_elem_of_here|].
    apply Ec, Hb, elem_of_app. by left. }
  { intros p k x Hp. by destruct (own_data b p k x Hw Hp) as (_ & _ & _ & ?). }
  rewrite D5, D4, D2, Ed. split; [done|]. split; [done|]. split; [|split; [by apply S5|split; [by apply H5|split; [|split; [done|split; [done|congruence]]]]]].
  - intros q0 k c0 Hh%H5%H4. destruct (decide (q0 = q)) as [->|Hne]; [done|]. apply S5, S4, S2; [done|]. apply Ho2 in Hh; [|done].
    destruct (decide (q0 = q')) as [->|Hne']; [done|]. apply Hsq, (Hs q0 k c0). by apply Hoh.
  - apply H5, H4, Ho2; [|done]. by intros ->.
Qed.

(** Another block. *)
Lemma chain_block_ok b ki l q i : key_table_in b ki l -> room b 1 -> last_held b ki l q i ->
  exists b' r, chain_block b ki q = Ok (b', r) /\ (key_durable b ki -> key_durable b' ki) /\ key_table_in b' ki l /\
    match r with Some q' => exists j, last_held b' ki l q' j /\ contents b' j = zero_block | None => refused B end.
Proof.
  intros Hin Hr (js & c & Hok & El & Hq). pose proof Hin as [Hw Hs _]. unfold chain_block.
  destruct (new_view b 0 Hw Hr) as (b1 & r & Enew & Hw1 & Hsq & _ & Hn). rewrite Enew, res_bind_Ok. destruct r as [q'|].
  2:{ destruct Hn as [Hv Hh]. assert (key_table_in b1 ki l) as Hin1 by (apply (key_table_in_same b); [done|done|done|by apply (all_saved_same b)]).
      destruct (unref_key b1 ki l q i (S c) Hin1) as (b2 & -> & Hin2 & _ & Hd2 & _); [by apply Hh|]. rewrite res_bind_Ok. exists b2, None.
      split; [done|]. split; [intros Hd; by apply Hd2, Hsq|]. split; [done|by apply (refused_new b b1 0)]. }
  destruct Hn as (j & Hj & Ed & Ec & Ez & Ea & Hq' & Hsv & Hpn & Hdn & Hoh). destruct (held_data b1 q' j _ Hw1 Hq') as [_ Eid].
  assert (q <> q') as Hqq by (intros ->; unfold held in Hq; congruence). rewrite Eid, res_bind_Ok.
  destruct (link_block_ok b b1 ki l js i j q q' (S c) Hin Hok El Hq Hw1 Hsq Hj Ed Ec Ez Ea Hq' Hsv Hqq Hoh)
    as (b2 & E2 & Hw2 & Hs2 & Sr2 & Hq2 & Hq'2 & Ez2 & Hok2 & El2).
  destruct (unref_key b2 ki l q i (S c)) as (b3 & E3 & Hin3 & [D3 C3 A3] & Hd3 & _ & Ho3); [split; [done|done|by eexists]|done|].
  exists b3, (Some q'). split.
  - repeat (apply res_bind_inv in E2 as (? & -> & E2); rewrite res_bind_Ok). rewrite E2, res_bind_Ok. by rewrite E3, res_bind_Ok.
  - split; [intros _; by apply Hd3|]. split; [done|]. exists j. split; [|by rewrite C3]. exists (js ++ [i]), 0%nat. split; [|split].
    + rewrite D3, A3. by apply (key_table_same _ (contents b2) _ (allocated b2)).
    + rewrite El2. symmetry. by apply key_list_ext.
    + apply Ho3; [|done]. by apply not_eq_sym.
Qed.

(** ** Adding *)

(** The key is put behind the others of the last block. *)
Lemma add_at_end_ok b ki l q i key data flags : key_table_in b ki l -> last_held b ki l q i -> key <> [] -> Forall (fun c => 0 <= c < 256) key ->
  Z.of_nat (length key) <= kb_room (contents b i) ->
  exists b', (kblast ← block_data b q; used ← kb_used kblast; id ← block_id b q; kblast ← append_kb kblast key data flags;
      b ← write_data b q kblast;
      if kb_slots <=? used + 1 then Ok (b, mkKeyTable (ki_rootid ki) (ki_root_block ki) true, 0)
      else b ← touch_block b q; b ← unref_block b q; Ok (b, ki, Z.lor (keyid_block id) used))
    = Ok (b', ki, i + Z.of_nat (kb_count (contents b i))) /\
    key_table_in b' ki (l ++ [(i + Z.of_nat (kb_count (contents b i)), (key, Z.land flags (Z.ones 22), data))]) /\
    (key_durable b ki -> key_durable b' ki) /\ 0 < i + Z.of_nat (kb_count (contents b i)) < 2 ^ 32 /\
    forall e, ~ (i + Z.of_nat (kb_count (contents b i)), e) ∈ l.
Proof.
  intros Hin (js & c & Hok & El & Hq) Hne Hkey Hroom. pose proof (ki_wf _ _ _ Hin) as Hw.
  assert (i ∈ js ++ [i]) as Hi by (apply elem_of_app; right; apply list_elem_of_here).
  destruct (key_block b _ ki _ i Hw Hok Hi) as (Ha & Hi0 & Hm & Hk & Hc). destruct (held_data b q i _ Hw Hq) as [-> ->]. rewrite res_bind_Ok.
  set (d := contents b i) in *. rewrite (kb_used_ok d Hk), !res_bind_Ok. set (n := kb_count d) in *.
  assert (n < 126)%nat as Hn.
  { pose proof (key_end_bounds d n Hk (le_n _)) as He. unfold kb_room, key_size, keydata_size, CAMEL_BLOCK_SIZE in *. fold n in Hroom.
    destruct key; [done|cbn [length] in Hroom; lia]. }
  destruct (append_kb_ok d key data flags Hk Hn Hkey Hroom) as (d' & -> & Hd' & Ec' & Ee' & E0'). rewrite res_bind_Ok.
  destruct (write_kb b ki l _ i q (S c) d' Hin Hok Hi Hq Hd' E0') as (b1 & b2 & -> & E2 & Hin2 & Hq2 & Hd2). rewrite res_bind_Ok. unfold kb_slots.
  destruct (Z.leb_spec 127 (Z.of_nat n + 1)); [lia|]. rewrite E2, res_bind_Ok.
  destruct (unref_key b2 ki _ q i _ Hin2 Hq2) as (b3 & -> & Hin3 & _ & Hd3 & _). rewrite res_bind_Ok.
  destruct (keyid_parts i (Z.of_nat n) Hm) as (Eb & Ei & ->); [unfold CAMEL_BLOCK_SIZE; lia|].
  pose proof (kt_nodup _ _ _ _ _ Hok) as [_ [Hni _]]%NoDup_app.
  exists b3. split; [done|]. split; [|split; [auto|split]].
  - replace (l ++ _) with (key_list (change (contents b) i d') (js ++ [i])); [done|].
    rewrite El, !key_list_app, (key_list_ext (contents b) (change (contents b) i d') js).
    + unfold key_list. cbn. unfold change. rewrite Z.eqb_refl, Ee', !app_nil_r, numbered_app, <- app_assoc. fold d. rewrite kb_entries_length. unfold numbered at 3. cbn. by rewrite Z.add_0_r.
    + intros j Hj. unfold change. destruct (Z.eqb_spec j i) as [->|]; [destruct (Hni i Hj); apply list_elem_of_here|done].
  - unfold CAMEL_BLOCK_SIZE in Hm. pose proof (Z.div_mod i 1024 ltac:(lia)). lia.
  - intros e He. rewrite El in He. apply elem_of_key_list in He as (j & m & Hj & Ej & Em). apply lookup_lt_Some in Em. rewrite kb_entries_length in Em.
    destruct (key_block b _ ki _ j Hw Hok Hj) as (_ & _ & Hmj & _ & Hcj). unfold CAMEL_BLOCK_SIZE in *.
    assert (j = i) as -> by (pose proof (Z.div_mod i 1024 ltac:(lia)); pose proof (Z.div_mod j 1024 ltac:(lia)); lia). fold d in Em. fold n in Em. lia.
Qed.

(** The last block has room for a key, or another one is linked to it. *)
Definition make_room b ki (len : Z) (last : ptr) (used : Z) (kblast : list Z) : res (B * option ptr) :=
  full ← (if 0 <? used then k ← kb_key kblast (used - 1); Ok (kk_offset k - key_size * (used + 1) <? len) else Ok false);
  if (full : bool) then chain_block b ki last else Ok (b, Some last).

Lemma make_room_ok b ki l q i len : key_table_in b ki l -> last_held b ki l q i -> (contents b i = zero_block \/ room b 1) -> 0 <= len <= 128 ->
  exists b' r, make_room b ki len q (Z.of_nat (kb_count (contents b i))) (contents b i) = Ok (b', r) /\
    (key_durable b ki -> key_durable b' ki) /\ key_table_in b' ki l /\
    match r with Some q' => exists j, last_held b' ki l q' j /\ len <= kb_room (contents b' j) | None => refused B end.
Proof.
  intros Hin Hlast Hr Hlen. pose proof Hlast as (js & c & Hok & El & Hq). pose proof (ki_wf _ _ _ Hin) as Hw.
  destruct (key_block b _ ki _ i Hw Hok) as (_ & _ & _ & Hk & Hc); [apply elem_of_app; right; apply list_elem_of_here|].
  assert (len <= kb_room zero_block) as Hz by (change (kb_room zero_block) with 1008; lia).
  set (d := contents b i) in *. unfold make_room. destruct (kb_count d) as [|n] eqn:En.
  - change (0 <? Z.of_nat 0) with false. cbv iota. rewrite res_bind_Ok. exists b, (Some q). do 3 (split; [done|]). exists i. split; [done|]. fold d.
    unfold kb_room in *. rewrite En. exact Hz.
  - destruct (Z.ltb_spec 0 (Z.of_nat (S n))); [|lia]. replace (Z.of_nat (S n) - 1) with (Z.of_nat n) by lia.
    rewrite kb_key_ok, !res_bind_Ok by (apply Hk || lia). cbn [kk_offset]. destruct (Z.ltb_spec (offset_at d n - key_size * (Z.of_nat (S n) + 1)) len).
    + destruct Hr as [Ez|Hr]; [rewrite Ez in En; done|]. destruct (chain_block_ok b ki l q i Hin Hr Hlast) as (b' & r & E & Hd & Hin' & Hr').
      exists b', r. do 3 (split; [done|]). destruct r; [|done]. destruct Hr' as (j & Hl & Ez). exists j. by rewrite Ez.
    + exists b, (Some q). do 3 (split; [done|]). exists i. split; [done|]. fold d. unfold kb_room. rewrite En. cbn [key_end]. lia.
Qed.

(** Adding a key that is not empty. *)
Lemma add_key_ok b ki l key data flags : key_table_in b ki l -> room b 1 -> key <> [] -> Forall (fun c => 0 <= c < 256) key ->
  exists b' keyid, camel_key_table_add b ki key data flags = Ok (b', ki, keyid) /\ (key_durable b ki -> key_durable b' ki) /\
    (keyid = 0 /\ key_table_in b' ki l /\ refused B \/
     0 < keyid < 2 ^ 32 /\ (forall e, ~ (keyid, e) ∈ l) /\ key_table_in b' ki (l ++ [(keyid, (take 128 key, Z.land flags (Z.ones 22), data))])).
Proof.
  intros Hin Hr Hne Hkey. pose proof Hin as [_ _ (js & Hok & El)]. unfold camel_key_table_add. change (Z.to_nat CAMEL_KEY_TABLE_MAX_KEY) with 128%nat.
  set (key' := take 128 key). assert (key' <> []) as Hne' by by destruct key. assert (Forall (fun c => 0 <= c < 256) key') as Hkey' by by apply Forall_take.
  assert (length key' <= 128)%nat as Hlen by (unfold key'; rewrite length_take; lia).
  unfold lock. rewrite (kt_unlocked _ _ _ _ _ Hok), res_bind_Ok.
  assert (exists b1 r, last_block_of b ki = Ok (b1, r) /\ (key_durable b ki -> key_durable b1 ki) /\ key_table_in b1 ki l /\
    match r with Some q => exists i, last_held b1 ki l q i /\ (contents b1 i = zero_block \/ room b1 1) | None => refused B end) as (b1 & r & -> & Hd1 & Hin1 & Hl1).
  { destruct (decide (js = [])) as [->|Hjs].
    - destruct (first_block_ok b ki l Hin Hr Hok) as (b1 & r & E & Hd & Hin1 & Hq). exists b1, r. do 3 (split; [done|]). destruct r; [|done].
      destruct Hq as (i & Hl & Ez). exists i. by split; [|left].
    - destruct (exists_last Hjs) as (js' & i & ->). destruct (get_last_ok b ki l js' i Hin Hr Hok El) as (b1 & r & E & Hd & Hin1 & Hq).
      exists b1, r. do 3 (split; [done|]). destruct r; [|done]. exists i. destruct Hq. by split; [|right]. }
  rewrite res_bind_Ok. destruct r as [q|]; [|by exists b1, 0; do 2 (split; [done|]); left].
  destruct Hl1 as (i & Hl1 & Hor). pose proof Hl1 as (js1 & c1 & Hok1 & _ & Hq1). pose proof (ki_wf _ _ _ Hin1) as Hw1.
  destruct (held_data b1 q i _ Hw1 Hq1) as [-> _]. destruct (key_block b1 _ ki _ i Hw1 Hok1) as (_ & _ & _ & Hk1 & Hc1); [apply elem_of_app; right; apply list_elem_of_here|].
  rewrite res_bind_Ok, kb_used_ok, res_bind_Ok by done. unfold kb_slots at 1. destruct (Z.leb_spec 127 (Z.of_nat (kb_count (contents b1 i)))); [lia|].
  destruct (make_room_ok b1 ki l q i (Z.of_nat (length key')) Hin1 Hl1 Hor ltac:(lia)) as (b2 & r2 & E2 & Hd2 & Hin2 & Hl2).
  unfold make_room in E2. apply res_bind_inv in E2 as (full & -> & E2). rewrite res_bind_Ok, E2, res_bind_Ok.
  destruct r2 as [q2|]; [|exists b2, 0; split; [done|]; split; [auto|]; by left]. destruct Hl2 as (j & Hl2 & Hroom).
  destruct (add_at_end_ok b2 ki l q2 j key' data flags Hin2 Hl2 Hne' Hkey' Hroom) as (b3 & E3 & Hin3 & Hd3 & Hid & Hnew).
  exists b3, (j + Z.of_nat (kb_count (contents b2 j))). split; [exact E3|]. split; [auto|]. by right.
Qed.
End add.
