(* ===== verification/KeyTableNextSpec.v ===== *)
(** * Key tables: going through the keys

    Opening a table, and [camel_key_table_next]: from each key it goes to the next one of the list. *)

From stdpp Require Import gmap.
From S2P Require Import Prelude BlockStore BlockStoreSpec KeyTable KeyDataSpec KeyTableSpec.
#[local] Open Scope Z_scope.
#[local] Open Scope list_scope.

(** ** The keys behind a place *)

(** From the [m]-th key of block [i] on, and those of the blocks [js] behind it. *)
Definition keys_from (C : Z -> list Z) (i : Z) (m : nat) (js : list Z) : list (Z * entry) :=
  drop m (numbered i (kb_entries (C i))) ++ key_list C js.

Lemma numbered_lookup i es (n : nat) : numbered i es !! n = (fun e => (i + Z.of_nat n, e)) <$> es !! n.
Proof. unfold numbered. rewrite list_lookup_imap. by destruct (es !! n). Qed.

Lemma keys_from_here C i (m : nat) js : (m < kb_count (C i))%nat ->
  keys_from C i m js = (i + Z.of_nat m, entry_at (C i) m) :: keys_from C i (S m) js.
Proof.
  intros Hm. unfold keys_from. rewrite (drop_S _ (i + Z.of_nat m, entry_at (C i) m)); [done|].
  by rewrite numbered_lookup, kb_entries_lookup by done.
Qed.

Lemma keys_from_behind C i (m : nat) js : (kb_count (C i) <= m)%nat -> keys_from C i m js = key_list C js.
Proof. intros Hm. unfold keys_from. rewrite drop_ge; [done|]. unfold numbered. by rewrite length_imap, kb_entries_length. Qed.

Lemma key_list_from C j js : key_list C (j :: js) = keys_from C j 0 js.
Proof. done. Qed.

(** The keys of a block without those before it. *)
Lemma key_list_at C j1 i j2 (m : nat) : (m < kb_count (C i))%nat ->
  key_list C (j1 ++ i :: j2) = (key_list C j1 ++ take m (numbered i (kb_entries (C i)))) ++ (i + Z.of_nat m, entry_at (C i) m) :: keys_from C i (S m) j2.
Proof.
  intros Hm. rewrite key_list_app, key_list_cons, <- app_assoc, <- keys_from_here by done. unfold keys_from. by rewrite app_assoc, (app_assoc (take _ _)), take_drop, <- app_assoc.
Qed.

Lemma split_unique {A} (l1 l1' l2 l2' : list (Z * A)) k e e' : NoDup (l1 ++ (k, e) :: l2).*1 -> l1 ++ (k, e) :: l2 = l1' ++ (k, e') :: l2' -> l2 = l2'.
Proof.
  revert l1'. induction l1 as [|x l1 IH]; intros [|x' l1'] Hn E; cbn in *; injection E as E1 E2.
  - done.
  - subst x' l2. rewrite fmap_app in Hn. cbn in Hn. apply NoDup_cons in Hn as [Hn _]. destruct Hn. apply elem_of_app. right. apply list_elem_of_here.
  - subst x l2'. rewrite fmap_app in Hn. cbn in Hn. apply NoDup_cons in Hn as [Hn _]. destruct Hn. apply elem_of_app. right. apply list_elem_of_here.
  - subst x'. apply NoDup_cons in Hn as [_ Hn]. by apply (IH l1').
Qed.

Section next.
Context {B : Type} `{BlockStoreLaws B} (healthy : B -> Prop) `{!Healthy healthy}.
Implicit Types (b : B) (ki : CamelKeyTable) (l : list (Z * entry)).

(** What [next_loop] finds. *)
Definition loop_result (C : Z -> list Z) b (js : list Z) (rest : list (Z * entry)) (r : option (ptr * Z)) : Prop :=
  match r with
  | Some (q, k) => exists i (m : nat) j1 j2 c, js = j1 ++ i :: j2 /\ k = i + Z.of_nat m /\ (m < kb_count (C i))%nat /\ held b q i (S c) /\
      rest = (k, entry_at (C i) m) :: keys_from C i (S m) j2
  | None => True
  end.

Lemma next_loop_ok b ki l js j1 i j2 (m fuel : nat) : key_table_in b ki l -> key_table (det b) (contents b) (allocated b) ki js ->
  js = j1 ++ i :: j2 -> (m < 1024)%nat -> (length j2 + 1 < fuel)%nat ->
  exists b' r, next_loop fuel b (i + Z.of_nat m) = Ok (b', r) /\ key_table_in b' ki l /\ same_view b b' /\
    (key_durable b ki -> key_durable b' ki) /\ (healthy b -> healthy b' /\ (r = None -> keys_from (contents b) i m j2 = [])) /\
    loop_result (contents b) b' js (keys_from (contents b) i m j2) r.
Proof.
  revert b j1 i j2 m. induction fuel as [|fuel IH]; intros b j1 i j2 m Hin Hok Ejs Hm Hf; [lia|].
  assert (i ∈ js) as Hi by (rewrite Ejs; apply elem_of_app; right; apply list_elem_of_here).
  destruct (key_block b _ ki js i (ki_wf _ _ _ Hin) Hok Hi) as (Ha & Hi0 & Him & Hk & Hc).
  destruct (keyid_parts i (Z.of_nat m) Him) as (Eb & Ei & _); [unfold CAMEL_BLOCK_SIZE; lia|].
  destruct (get_key_kb b ki l js i Hin Hok Hi) as (b1 & r & Eg & Hin1 & Hv & Hsq & _ & Hq). cbn [next_loop]. rewrite Eb, Eg, res_bind_Ok.
  assert (healthy b -> r <> None /\ healthy b1) as Hh1 by (intros Hh; by apply (healthy_get b b1 i r Hh (ki_wf _ _ _ Hin))).
  destruct r as [q|]; [|exists b1, None; split; [done|]; split; [done|]; split; [done|]; split; [apply Hsq|]; split; [|done]; intros Hh; by destruct (Hh1 Hh)].
  destruct Hq as ((c & Hq) & -> & _). rewrite res_bind_Ok, kb_used_ok, res_bind_Ok, Ei by done.
  destruct (Z.leb_spec (Z.of_nat (kb_count (contents b i))) (Z.of_nat m)) as [Hle|Hlt].
  2:{ exists b1, (Some (q, i + Z.of_nat m)). do 3 (split; [done|]). split; [apply Hsq|]. split; [intros Hh; by destruct (Hh1 Hh)|].
      exists i, m, j1, j2, c. do 2 (split; [done|]). split; [lia|]. split; [done|]. apply keys_from_here. lia. }
  rewrite kb_next_ok, res_bind_Ok by apply Hk. destruct (unref_key b1 ki l q i (S c) Hin1 Hq) as (b2 & E2 & Hin2 & Hv2 & Hd2 & _).
  rewrite E2, res_bind_Ok. pose proof (same_view_trans _ _ _ Hv Hv2) as Hv12.
  assert (healthy b -> healthy b2) as Hh2 by (intros Hh; eapply (healthy_unref b1 b2 q); [by apply Hh1|by apply (ki_wf _ ki l)|exact Hq|done]).
  rewrite (keys_from_behind _ i m) by lia. assert (exists rd, chained (contents b) rd (j1 ++ i :: j2)) as (rd & Hch).
  { destruct (kt_root _ _ _ _ _ Hok) as (rd & _ & Hch & _). rewrite Ejs in Hch. by eexists. }
  assert (chained (contents b) (contents b i !!! 0%nat) j2) as Hch2.
  { clear -Hch. revert rd Hch. induction j1 as [|j j1 IH]; intros rd Hch; [by destruct Hch as (_ & _ & ?)|]. destruct Hch as (_ & _ & Hch). by apply (IH _ Hch). }
  destruct j2 as [|j j2].
  - cbn in Hch2. rewrite Hch2. destruct fuel as [|fuel]; [cbn in Hf; lia|]. cbn [next_loop]. change (keyid_block 0) with 0.
    rewrite (get_zero_law b2 (ki_wf _ _ _ Hin2)), res_bind_Ok. exists b2, None. do 3 (split; [done|]). split; [intros Hd; by apply Hd2, Hsq|]. split; [auto|done].
  - destruct Hch2 as (Ej & _). rewrite <- Ej. assert (next_loop fuel b2 j = next_loop fuel b2 (j + Z.of_nat 0)) as -> by (f_equal; lia). pose proof Hv12 as [Ed Ec Ea].
    assert (key_table (det b2) (contents b2) (allocated b2) ki js) as Hok2.
    { rewrite Ed, Ea. by apply (key_table_same _ (contents b) _ (allocated b)). }
    destruct (IH b2 (j1 ++ [i]) j j2 0%nat Hin2 Hok2) as (b3 & r & E3 & Hin3 & Hv3 & Hd3 & Hh3 & Hr3); [by rewrite <- app_assoc|lia|cbn in Hf; lia|].
    rewrite E3. exists b3, r. assert (forall i m js, keys_from (contents b2) i m js = keys_from (contents b) i m js) as Ek.
    { intros i' m' js'. unfold keys_from. rewrite Ec. f_equal. by apply key_list_ext. }
    split; [done|]. split; [done|]. split; [by apply (same_view_trans b b2)|]. split; [intros Hd; by apply Hd3, Hd2, Hsq|]. rewrite Ek in Hh3, Hr3. split; [auto|].
    destruct r as [[q' k]|]; [|done]. destruct Hr3 as (i' & m' & j1' & j2' & c' & ? & ? & Hm' & ? & Hr3). rewrite Ek, !Ec in *. rewrite key_list_from.
    by exists i', m', j1', j2', c'.
Qed.

(** ** The next key *)

(** What [key_table_next] finds in a block is what is there, if the key is not empty. *)
Lemma valid_offsets_ok d (m : nat) : kb_ok d -> (m < kb_count d)%nat -> (forall e, e ∈ kb_entries d -> e.1.1 <> []) ->
  (if valid_offset (Z.of_nat (kb_count d)) (offset_at d m) then
     if 0 <? Z.of_nat m then p ← kb_key d (Z.of_nat m - 1); Ok (valid_offset (Z.of_nat (kb_count d)) (kk_offset p)) else Ok true
   else Ok false) = Ok true.
Proof.
  intros Hd Hm Hne. assert (forall n, (n < kb_count d)%nat -> valid_offset (Z.of_nat (kb_count d)) (offset_at d n) = true) as Hv.
  { intros n Hn. pose proof (kb_offsets d Hd n Hn) as Ho. pose proof (key_end_bounds d n Hd ltac:(lia)) as He.
    assert (offset_at d n < key_end d n) as Hlt.
    { destruct (Z.eq_dec (offset_at d n) (key_end d n)) as [E|]; [|lia]. destruct (Hne (entry_at d n)).
      - apply (list_elem_of_lookup_2 _ n). by apply kb_entries_lookup.
      - unfold entry_at. by rewrite E, Z.sub_diag. }
    unfold valid_offset. destruct (Z.ltb_spec (offset_at d n) keydata_size), (Z.leb_spec (key_size * Z.of_nat (kb_count d)) (offset_at d n)); lia. }
  rewrite (Hv m Hm). destruct m as [|m]; [done|]. destruct (Z.ltb_spec 0 (Z.of_nat (S m))); [|lia]. replace (Z.of_nat (S m) - 1) with (Z.of_nat m) by lia.
  pose proof Hd as [L1 L2 _]. rewrite kb_key_ok, res_bind_Ok by (done || unfold kb_count in *; lia). cbn [kk_offset]. by rewrite Hv by lia.
Qed.

(** The key behind a place in the list [l]. *)
Lemma next_found_ok b ki l js j1 i j2 (m fuel : nat) want : key_table_in b ki l -> key_table (det b) (contents b) (allocated b) ki js ->
  (forall x, x ∈ l -> x.2.1.1 <> []) -> l = key_list (contents b) js -> js = j1 ++ i :: j2 -> (m < 1024)%nat -> (length j2 + 1 < fuel)%nat ->
  exists b' k f, (
      '(b, r) ← next_loop fuel b (i + Z.of_nat m);
      match r with
      | None => Ok (b, 0, nothing)
      | Some (bl, next) =>
          let index := keyid_index next in
          kb ← block_data b bl; used ← kb_used kb; k ← kb_key kb index;
          ok ← (if valid_offset used (kk_offset k) then
                  if 0 <? index then p ← kb_key kb (index - 1); Ok (valid_offset used (kk_offset p)) else Ok true
                else Ok false);
          if (ok : bool) then f ← found_at kb index want; b ← unref_block b bl; Ok (b, next, f)
          else b ← unref_block b bl; Ok (b, 0, nothing)
      end) = Ok (b', k, f) /\
    key_table_in b' ki l /\ allocated b' = allocated b /\ (key_durable b ki -> key_durable b' ki) /\ (healthy b -> healthy b') /\
    match keys_from (contents b) i m j2 with
    | (k', e) :: _ => k = k' /\ f = found_of e want \/ k = 0 /\ f = nothing /\ ~ healthy b
    | [] => k = 0 /\ f = nothing
    end.
Proof.
  intros Hin Hok Hne El Ejs Hm Hf. destruct (next_loop_ok b ki l js j1 i j2 m fuel Hin Hok Ejs Hm Hf) as (b1 & r & -> & Hin1 & [Ed Ec Ea] & Hd1 & Hh1 & Hr).
  rewrite res_bind_Ok. destruct r as [[q k]|].
  2:{ exists b1, 0, nothing. do 4 (split; [done|]). split; [intros Hh; by apply Hh1|]. destruct (keys_from _ _ _ _) as [|[k' e] rest] eqn:Ek; [done|].
      right. do 2 (split; [done|]). intros Hh. destruct (Hh1 Hh) as [_ Hn]. by specialize (Hn eq_refl). }
  destruct Hr as (i' & m' & j1' & j2' & c & Ejs' & -> & Hm' & Hq & ->). assert (i' ∈ js) as Hi by (rewrite Ejs'; apply elem_of_app; right; apply list_elem_of_here).
  destruct (key_block b _ ki js i' (ki_wf _ _ _ Hin) Hok Hi) as (_ & _ & Him & Hk & Hc).
  destruct (keyid_parts i' (Z.of_nat m') Him) as (_ & Ei & _); [unfold CAMEL_BLOCK_SIZE; lia|].
  destruct (held_data b1 q i' _ (ki_wf _ _ _ Hin1) Hq) as [-> _]. cbv zeta. rewrite Ei, res_bind_Ok, Ec, kb_used_ok, res_bind_Ok by done.
  rewrite kb_key_ok, res_bind_Ok by (apply Hk || lia). cbn [kk_offset]. rewrite valid_offsets_ok, res_bind_Ok; [|done|done|].
  2:{ intros e [n He]%list_elem_of_lookup. apply (Hne (i' + Z.of_nat n, e)). rewrite El. apply elem_of_key_list. by exists i', n. }
  rewrite found_at_ok, res_bind_Ok by done. destruct (unref_key b1 ki l q i' (S c) Hin1 Hq) as (b2 & E2 & Hin2 & [_ _ Ea2] & Hd2 & _).
  rewrite E2, res_bind_Ok. eexists b2, _, _. split; [done|]. split; [done|]. split; [by rewrite Ea2|]. split; [auto|]. split; [|by left].
  intros Hh. eapply (healthy_unref b1 b2 q); [by apply Hh1|by apply (ki_wf _ ki l)|exact Hq|done].
Qed.

Lemma chain_short b ki js : wf b -> key_table (det b) (contents b) (allocated b) ki js -> (length js <= size (allocated b))%nat.
Proof.
  intros Hw Hok. rewrite <- (size_list_to_set (C := gset Z) js) by apply Hok. apply subseteq_size. intros i Hi%elem_of_list_to_set.
  by apply (key_block b _ ki js i Hw Hok Hi).
Qed.

(** The first key, from 0. *)
Lemma next_first_ok b ki l fuel want : key_table_in b ki l -> (forall x, x ∈ l -> x.2.1.1 <> []) -> (size (allocated b) < fuel)%nat ->
  exists b' k f, camel_key_table_next fuel b ki 0 want = Ok (b', k, f) /\ key_table_in b' ki l /\ allocated b' = allocated b /\
    (key_durable b ki -> key_durable b' ki) /\ (healthy b -> healthy b') /\
    match l with
    | (k', e) :: _ => k = k' /\ f = found_of e want \/ k = 0 /\ f = nothing /\ ~ healthy b
    | [] => k = 0 /\ f = nothing
    end.
Proof.
  intros Hin Hne Hf. pose proof Hin as [Hw Hs (js & Hok & El)]. destruct (kt_root _ _ _ _ _ Hok) as (rd & Hrd & Hch & _).
  pose proof Hrd as Ho. change (own b (ki_root_block ki) (ki_rootid ki) rd) in Ho. destruct (own_data b _ _ _ Hw Ho) as (Erd & _ & Lrd & _).
  unfold camel_key_table_next, lock, key_first. rewrite (kt_unlocked _ _ _ _ _ Hok), res_bind_Ok, Erd, res_bind_Ok, word_at, res_bind_Ok by (done || lia). change (Z.to_nat 0) with 0%nat.
  pose proof (chain_short b ki js Hw Hok) as Hlen. destruct js as [|i js].
  - cbn in Hch, El. subst l. rewrite Hch. exists b, 0, nothing. do 5 (split; [done|]). done.
  - destruct Hch as (<- & Hi0 & _). destruct (Z.eqb_spec i 0); [done|]. cbn [Z.eqb andb].
    assert (next_loop fuel b i = next_loop fuel b (i + Z.of_nat 0)) as -> by (f_equal; lia).
    destruct (next_found_ok b ki l (i :: js) [] i js 0 fuel want Hin Hok Hne El eq_refl) as (b' & k & f & E & Hin' & Ea & Hd & Hh & Hr); [lia|cbn in Hlen; lia|].
    exists b', k, f. split; [exact E|]. do 4 (split; [done|]). by rewrite El, key_list_from.
Qed.

(** The key behind [keyid]. *)
Lemma next_behind_ok b ki l fuel want keyid e0 l1 l2 : key_table_in b ki l -> (forall x, x ∈ l -> x.2.1.1 <> []) -> (size (allocated b) < fuel)%nat ->
  l = l1 ++ (keyid, e0) :: l2 ->
  exists b' k f, camel_key_table_next fuel b ki keyid want = Ok (b', k, f) /\ key_table_in b' ki l /\ allocated b' = allocated b /\
    (key_durable b ki -> key_durable b' ki) /\ (healthy b -> healthy b') /\
    match l2 with
    | (k', e) :: _ => k = k' /\ f = found_of e want \/ k = 0 /\ f = nothing /\ ~ healthy b
    | [] => k = 0 /\ f = nothing
    end.
Proof.
  intros Hin Hne Hf El2. pose proof Hin as [Hw Hs (js & Hok & El)]. destruct (kt_root _ _ _ _ _ Hok) as (rd & Hrd & Hch & _).
  pose proof Hrd as Ho. change (own b (ki_root_block ki) (ki_rootid ki) rd) in Ho. destruct (own_data b _ _ _ Hw Ho) as (Erd & _ & Lrd & _).
  assert (exists i (m : nat), i ∈ js /\ keyid = i + Z.of_nat m /\ kb_entries (contents b i) !! m = Some e0) as (i & m & Hi & -> & Em).
  { apply elem_of_key_list. rewrite <- El, El2. apply elem_of_app. right. apply list_elem_of_here. }
  apply lookup_lt_Some in Em as Hm. rewrite kb_entries_length in Hm. destruct (key_block b _ ki js i Hw Hok Hi) as (_ & Hi0 & Him & Hk & Hc).
  unfold camel_key_table_next, lock, key_first. rewrite (kt_unlocked _ _ _ _ _ Hok), res_bind_Ok, Erd, res_bind_Ok, word_at, res_bind_Ok by (done || lia).
  destruct (Z.eqb_spec (i + Z.of_nat m) 0); [lia|]. cbn [andb]. unfold CAMEL_BLOCK_SIZE in Him. pose proof (Z.div_mod i 1024 ltac:(lia)).
  unfold u32. rewrite Z.mod_small by lia. replace (i + Z.of_nat m + 1) with (i + Z.of_nat (S m)) by lia.
  apply list_elem_of_split in Hi as (j1 & j2 & Ejs). pose proof (chain_short b ki js Hw Hok) as Hlen. rewrite Ejs, length_app in Hlen. cbn in Hlen.
  destruct (next_found_ok b ki l js j1 i j2 (S m) fuel want Hin Hok Hne El Ejs) as (b' & k & f & E & Hin' & Eal & Hd & Hh & Hr); [lia|lia|].
  exists b', k, f. split; [exact E|]. do 4 (split; [done|]). assert (keys_from (contents b) i (S m) j2 = l2) as <-; [|done].
  pose proof (key_list_at (contents b) j1 i j2 m Hm) as Ea. rewrite <- Ejs, <- El, El2 in Ea.
  symmetry. eapply split_unique; [|exact Ea]. rewrite <- El2, El. apply key_list_nodup; [apply Hok|]. by apply (key_counts b (det b) ki js).
Qed.

(** ** Going through a table *)

(** Calling [camel_key_table_next] from [keyid] on until it returns 0, at most [n] times. *)
Fixpoint all_next (n fuel : nat) (b : B) (ki : CamelKeyTable) (keyid : Z) (want : bool) : res (B * list (Z * found)) :=
  match n with
  | O => NoFuel
  | S n =>
      '(b, k, f) ← camel_key_table_next fuel b ki keyid want;
      if k =? 0 then Ok (b, [])
      else '(b, fs) ← all_next n fuel b ki k want; Ok (b, (k, f) :: fs)
  end.

(** The keys behind [l1], in order. *)
Lemma all_next_ok (n fuel : nat) b ki l l1 l2 keyid want : key_table_in b ki l -> (forall x, x ∈ l -> x.2.1.1 <> []) ->
  (size (allocated b) < fuel)%nat -> healthy b -> l = l1 ++ l2 -> keyid = default 0 (fst <$> last l1) -> (length l2 < n)%nat ->
  exists b', all_next n fuel b ki keyid want = Ok (b', map (fun x => (x.1, found_of x.2 want)) l2) /\ key_table_in b' ki l /\
    (key_durable b ki -> key_durable b' ki) /\ healthy b'.
Proof.
  revert b l1 l2 keyid. induction n as [|n IH]; intros b l1 l2 keyid Hin Hne Hf Hh El Hk Hn; [lia|].
  assert (exists b' k f, camel_key_table_next fuel b ki keyid want = Ok (b', k, f) /\ key_table_in b' ki l /\ allocated b' = allocated b /\
    (key_durable b ki -> key_durable b' ki) /\ (healthy b -> healthy b') /\
    match l2 with
    | (k', e) :: _ => k = k' /\ f = found_of e want \/ k = 0 /\ f = nothing /\ ~ healthy b
    | [] => k = 0 /\ f = nothing
    end) as (b' & k & f & E & Hin' & Ea & Hd & Hh' & Hr).
  { destruct (decide (l1 = [])) as [->|Hl1]; [cbn in Hk, El; subst keyid l2; by apply next_first_ok|].
    destruct (exists_last Hl1) as (l0 & [k0 e0] & ->). rewrite last_snoc in Hk. cbn in Hk. subst keyid.
    apply (next_behind_ok b ki l fuel want k0 e0 l0 l2); [done..|]. by rewrite El, <- app_assoc. }
  cbn [all_next]. rewrite E, res_bind_Ok. destruct l2 as [|[k' e] l2].
  - destruct Hr as [-> ->]. exists b'. cbn. split; [done|]. split; [done|]. split; [done|]. by apply Hh'.
  - destruct Hr as [[-> ->]|(_ & _ & Hx)]; [|done]. assert (0 < k') as Hpos.
    { pose proof Hin as [Hw _ (js & Hok & Ejs)]. assert ((k', e) ∈ l) as Hel by (rewrite El; apply elem_of_app; right; apply list_elem_of_here).
      rewrite Ejs in Hel. apply elem_of_key_list in Hel as (i & m & Hi & -> & _). destruct (key_block b _ ki js i Hw Hok Hi) as (_ & ? & _). lia. }
    destruct (Z.eqb_spec k' 0); [lia|]. destruct (IH b' (l1 ++ [(k', e)]) l2 k' Hin' Hne) as (b2 & E2 & Hin2 & Hd2 & Hh2).
    + by rewrite Ea.
    + by apply Hh'.
    + by rewrite <- app_assoc.
    + by rewrite last_snoc.
    + cbn in Hn. lia.
    + exists b2. rewrite E2, res_bind_Ok. cbn. split; [done|]. split; [done|]. split; [|done]. intros Hdd. by apply Hd2, Hd.
Qed.
End next.
