(* ===== verification/KeyTableFileSpec.v ===== *)
(** * Key tables in a file

    The operations of a table as operations on the list of its keys, for every store of
    blocks; and the table in a file that is closed and opened again.  The examples are runs of the
    code on a file. *)

From stdpp Require Import gmap.
From S2P Require Import Prelude BlockStore BlockStoreSpec BlockFile BlockFileInv BlockFileSpec BlockFileLaws BlockFileOpenSpec BlockFileRunSpec PartitionFileSpec.
From S2P Require Import KeyTable KeyDataSpec KeyTableSpec KeyTableAddSpec KeyTableNextSpec.
#[local] Open Scope Z_scope.
#[local] Open Scope list_scope.

(** ** Examples *)

Definition new_keys : res (CamelBlockFile * CamelKeyTable) :=
  '(b, id) ← new_file;
  '(b, ki) ← camel_key_table_new b id;
  match ki with Some ki => Ok (b, ki) | None => Undef end.

(** The value of a run; the other cases do not occur. *)
Definition the_keys : CamelBlockFile * CamelKeyTable :=
  match new_keys with Ok x => x | _ => (the_file, mkKeyTable 0 1%positive false) end.

(** Adding the same key [n] times. *)
Fixpoint add_times (n : nat) (b : CamelBlockFile) (ki : CamelKeyTable) (key : list Z) : res (CamelBlockFile * CamelKeyTable * Z) :=
  match n with
  | O => Ok (b, ki, 0)
  | S n =>
      '(b, ki, _) ← add_times n b ki key;
      camel_key_table_add b ki key 7 0
  end.

(** 126 empty keys fit a block; adding another one returns 0 and leaves the table locked: nothing
    more can be done with it. *)
Example empty_keys_lock :
  ('(_, ki, keyid) ← add_times 126 the_keys.1 the_keys.2 []; Ok (ki_locked ki, keyid)) = Ok (false, 2048 + 125) /\
  ('(_, ki, keyid) ← add_times 127 the_keys.1 the_keys.2 []; Ok (ki_locked ki, keyid)) = Ok (true, 0) /\
  add_times 128 the_keys.1 the_keys.2 [] = NoFuel.
Proof. vm_compute. split; [|split]; reflexivity. Qed.

(** An empty key that is the first of its block is not found by the iteration, nor is any key
    behind it. *)
Example empty_key_stops :
  ('(b, ki, k1) ← camel_key_table_add the_keys.1 the_keys.2 [] 7 0;
   '(b, ki, k2) ← camel_key_table_add b ki [97] 8 0;
   '(b, f1) ← camel_key_table_lookup b ki k1 true;
   '(b, k, f) ← camel_key_table_next 5 b ki 0 true;
   Ok (k1, k2, f1, k, f)) = Ok (2048, 2049, (Some [], 0, 7), 0, nothing).
Proof. vm_compute. reflexivity. Qed.

Lemma the_keys_ok : key_table_in the_keys.1 the_keys.2 [] /\ key_durable the_keys.1 the_keys.2.
Proof.
  assert (pins the_file = ∅) as Hp by (vm_compute; reflexivity). destruct (no_pins_saved the_file Hp) as [Hs Ho].
  destruct (open_keys the_file 1024 [] [] the_file_wf Hs) as (b & r & E & Hr).
  - apply empty_keys; [|vm_compute; reflexivity]. cbn. apply (bool_decide_unpack _). vm_compute. exact I.
  - intros p i d Hown. by destruct (Ho p i d).
  - assert (Ok (b, r) = Ok (the_keys.1, Some the_keys.2)) as [-> ->]%Ok_pair by (rewrite <- E; vm_compute; reflexivity).
    destruct Hr as (_ & H1 & H2). split; [exact H1|exact H2].
Qed.

(** The table with the keys "ab" and "c". *)
Definition added_1 : CamelBlockFile * CamelKeyTable :=
  match camel_key_table_add the_keys.1 the_keys.2 [97; 98] 5 3 with Ok (b, ki, _) => (b, ki) | _ => the_keys end.
Definition added_keys : CamelBlockFile * CamelKeyTable :=
  match camel_key_table_add added_1.1 added_1.2 [99] 6 1 with Ok (b, ki, _) => (b, ki) | _ => added_1 end.
Definition two_keys : list (Z * entry) := [(2048, ([97; 98], 3, 5)); (2049, ([99], 1, 6))].

(** A key that was added in a run. *)
Lemma added_in (b : CamelBlockFile) ki l key data flags b' keyid : key_table_in b ki l -> key_durable b ki -> room b 1 -> key <> [] ->
  Forall (fun c => 0 <= c < 256) key -> camel_key_table_add b ki key data flags = Ok (b', ki, keyid) -> keyid <> 0 ->
  key_table_in b' ki (l ++ [(keyid, (take 128 key, Z.land flags (Z.ones 22), data))]) /\ key_durable b' ki.
Proof.
  intros Hin Hd Hr Hne Hk E H0. destruct (add_key_ok b ki l key data flags Hin Hr Hne Hk) as (b2 & k2 & E2 & Hd2 & Hres).
  rewrite E in E2. apply Ok_pair in E2 as [[<- _]%pair_eq <-]. destruct Hres as [[-> _]|(_ & _ & Hin2)]; [done|]. split; [done|by apply Hd2].
Qed.

(** A key of small bytes. *)
Lemma bytes_forall key : bool_decide (Forall (fun c => 0 <= c < 256) key) = true -> Forall (fun c => 0 <= c < 256) key.
Proof. by intros ?%bool_decide_eq_true. Qed.

Lemma added_1_ok : key_table_in added_1.1 added_1.2 [(2048, ([97; 98], 3, 5))] /\ key_durable added_1.1 added_1.2.
Proof.
  destruct the_keys_ok as [Hin Hd]. replace added_1.2 with the_keys.2 by (vm_compute; reflexivity).
  apply (added_in the_keys.1 the_keys.2 [] [97; 98] 5 3 added_1.1 2048 Hin Hd).
  - vm_compute. reflexivity.
  - discriminate.
  - apply bytes_forall. vm_compute. reflexivity.
  - vm_compute. reflexivity.
  - discriminate.
Qed.

Lemma added_keys_ok : key_table_in added_keys.1 added_keys.2 two_keys /\ key_durable added_keys.1 added_keys.2.
Proof.
  destruct added_1_ok as [Hin Hd]. replace added_keys.2 with added_1.2 by (vm_compute; reflexivity).
  apply (added_in added_1.1 added_1.2 [(2048, ([97; 98], 3, 5))] [99] 6 1 added_keys.1 2049 Hin Hd).
  - vm_compute. reflexivity.
  - discriminate.
  - apply bytes_forall. vm_compute. reflexivity.
  - vm_compute. reflexivity.
  - discriminate.
Qed.

(** Closing and opening the file and the table. *)
Lemma reopen_keys (bs bs1 bs2 : CamelBlockFile) ki l calls : key_table_in bs ki l -> key_durable bs ki ->
  camel_key_table_sync bs ki = Ok (bs1, 0) -> camel_block_file_sync bs1 = Ok (bs2, 0) ->
  f_size (disk bs2) = last_block bs2 -> no_faults calls ->
  exists bs3 bs4 ki', camel_block_file_new base_class (disk bs2) calls (version bs2) = Ok (inl bs3) /\
    camel_key_table_new bs3 (ki_rootid ki) = Ok (bs4, Some ki') /\ ki_rootid ki' = ki_rootid ki /\ key_table_in bs4 ki' l.
Proof.
  intros Hin Hd E1 E2 Hsize Hc. destruct (sync_keys bs ki l Hin Hd) as (bs1' & ret & E & Hin1 & Hd1 & _ & Hst).
  assert (Ok (bs1', ret) = Ok (bs1, 0)) as [-> ->]%Ok_pair by by rewrite <- E1, <- E.
  destruct (Hst eq_refl) as (js & Hs). pose proof (ki_wf _ _ _ Hin1) as Hw1.
  destruct (reopen_ok bs1 bs2 calls Hw1) as (bs3 & E3 & Hw3 & P3 & C3 & A3 & L3 & N3); [|done..|].
  { intros p k Hk Hdet. apply (ki_saved _ _ _ Hin1 p (pin_id k) (pin_count k)). unfold held.
    destruct (pins_ok bs1 p k Hw1 Hk) as (_ & _ & _ & Hct). change (pins bs1) with (pins_of bs1). rewrite Hk. f_equal.
    destruct k as [i d c dt]. cbn in *. subst dt. by rewrite <- (Hct eq_refl). }
  destruct (no_pins_saved bs3 P3) as [Hs3 Ho3]. change (wf bs3) in Hw3.
  assert (stored_keys (contents bs3) (allocated bs3) (ki_rootid ki) js l) as Hst3.
  { assert (forall i, contents bs3 i = contents bs1 i) as Hct by exact C3. assert (allocated bs3 = allocated bs1) as -> by exact A3.
    by apply (stored_keys_ext (contents bs1)). }
  destruct (open_keys bs3 (ki_rootid ki) js l Hw3 Hs3 Hst3) as (bs4 & r & E4 & Hr); [by intros p i d Hp; destruct (Ho3 p i d)|].
  destruct r as [ki'|]; [exists bs3, bs4, ki'; destruct Hr as (? & ? & _); done|]. exfalso.
  destruct (get_block bs3 (ki_rootid ki)) as [[b r]| |] eqn:Eg; revert E4; unfold camel_key_table_new; rewrite Eg; [|intros [=]..].
  destruct (healthy_get (healthy := fun bs : CamelBlockFile => no_faults (faults bs)) bs3 b (ki_rootid ki) r N3 Hw3) as [Hr0 _]; [|exact Eg|].
  { apply Hst3. }
  destruct r as [p|]; [|done]. rewrite res_bind_Ok. by intros (b5 & _ & [=])%res_bind_inv.
Qed.

(** ** The operations *)

(** C22: Adding a key that is not empty to a table either fails, and the table has the keys it had, or it
    returns a key id that no key has, and the key comes last in the table from then on, cut to 128
    characters, with its data and the 22 bits of its flags; whether it finds room in the last block or a new
    one is chained behind it.  What was sure to get into the file still is. *)
Theorem key_table_add {B : Type} `{BlockStoreLaws B} (b : B) (ki : CamelKeyTable) (l : list (Z * entry)) (key : list Z) (data flags : Z)
    (Hin : key_table_in b ki l) (Hroom : room b 1) (Hne : key <> []) (Hkey : Forall (fun c => 0 <= c < 256) key) :
  exists b' keyid, camel_key_table_add b ki key data flags = Ok (b', ki, keyid) /\ (key_durable b ki -> key_durable b' ki) /\
    (keyid = 0 /\ key_table_in b' ki l /\ refused B \/
     0 < keyid < 2 ^ 32 /\ (forall e, ~ (keyid, e) ∈ l) /\ key_table_in b' ki (l ++ [(keyid, (take 128 key, Z.land flags (Z.ones 22), data))])).
Proof. by apply add_key_ok. Qed.

Lemma key_table_add_witness :
  exists b' keyid, camel_key_table_add added_keys.1 added_keys.2 [100; 101] 9 2 = Ok (b', added_keys.2, keyid) /\
    (key_durable added_keys.1 added_keys.2 -> key_durable b' added_keys.2) /\
    (keyid = 0 /\ key_table_in b' added_keys.2 two_keys /\ refused CamelBlockFile \/
     0 < keyid < 2 ^ 32 /\ (forall e, ~ (keyid, e) ∈ two_keys) /\
     key_table_in b' added_keys.2 (two_keys ++ [(keyid, (take 128 [100; 101], Z.land 2 (Z.ones 22), 9))])).
Proof.
  apply (key_table_add added_keys.1 added_keys.2 two_keys [100; 101] 9 2).
  - exact (proj1 added_keys_ok).
  - vm_compute. reflexivity.
  - discriminate.
  - apply bytes_forall. vm_compute. reflexivity.
Defined.

(** C23: Looking up the id of a key gives the key, if it is wanted, its flags and its data, and changes
    nothing; only when the block of the key cannot be read it gives nothing. *)
Theorem key_table_lookup {B : Type} `{BlockStoreLaws B} (b : B) (ki : CamelKeyTable) (l : list (Z * entry)) (keyid : Z) (e : entry) (want : bool)
    (Hin : key_table_in b ki l) (Hl : (keyid, e) ∈ l) :
  exists b' f b1 r, camel_key_table_lookup b ki keyid want = Ok (b', f) /\ key_table_in b' ki l /\ (key_durable b ki -> key_durable b' ki) /\
    keyid_block keyid ∈ allocated b /\ get_block b (keyid_block keyid) = Ok (b1, r) /\ f = match r with Some _ => found_of e want | None => nothing end.
Proof. by apply lookup_key_ok. Qed.

Lemma key_table_lookup_witness :
  exists b' f b1 r, camel_key_table_lookup added_keys.1 added_keys.2 2049 true = Ok (b', f) /\ key_table_in b' added_keys.2 two_keys /\
    (key_durable added_keys.1 added_keys.2 -> key_durable b' added_keys.2) /\ keyid_block 2049 ∈ allocated added_keys.1 /\
    get_block added_keys.1 (keyid_block 2049) = Ok (b1, r) /\ f = match r with Some _ => found_of ([99], 1, 6) true | None => nothing end.
Proof.
  apply (key_table_lookup added_keys.1 added_keys.2 two_keys 2049 ([99], 1, 6) true).
  - exact (proj1 added_keys_ok).
  - apply (bool_decide_unpack _). vm_compute. exact I.
Defined.

(** Setting flags of a key changes the flags of the mask to those given, in their 22 bits, and nothing
    else of the table; only when the block of the key cannot be read all stays. *)
Theorem key_table_set_flags {B : Type} `{BlockStoreLaws B} (b : B) (ki : CamelKeyTable) (l : list (Z * entry)) (keyid : Z) (e : entry)
    (flags set : Z) (Hin : key_table_in b ki l) (Hl : (keyid, e) ∈ l) :
  exists b' b1 r, camel_key_table_set_flags b ki keyid flags set = Ok b' /\ (key_durable b ki -> key_durable b' ki) /\
    keyid_block keyid ∈ allocated b /\ get_block b (keyid_block keyid) = Ok (b1, r) /\
    key_table_in b' ki (match r with
                        | Some _ => set_entry keyid (e.1.1, Z.land (Z.lor (Z.ldiff e.1.2 set) (Z.land flags set)) (Z.ones 22), e.2) l
                        | None => l
                        end).
Proof. by apply set_flags_ok. Qed.

Lemma key_table_set_flags_witness :
  exists b' b1 r, camel_key_table_set_flags added_keys.1 added_keys.2 2048 4 6 = Ok b' /\
    (key_durable added_keys.1 added_keys.2 -> key_durable b' added_keys.2) /\
    keyid_block 2048 ∈ allocated added_keys.1 /\ get_block added_keys.1 (keyid_block 2048) = Ok (b1, r) /\
    key_table_in b' added_keys.2 (match r with
                                  | Some _ => set_entry 2048 ([97; 98], Z.land (Z.lor (Z.ldiff 3 6) (Z.land 4 6)) (Z.ones 22), 5) two_keys
                                  | None => two_keys
                                  end).
Proof.
  apply (key_table_set_flags added_keys.1 added_keys.2 two_keys 2048 ([97; 98], 3, 5) 4 6).
  - exact (proj1 added_keys_ok).
  - apply (bool_decide_unpack _). vm_compute. exact I.
Defined.

(** C24: When blocks can be read and no key is empty, calling [camel_key_table_next] from 0 on,
    each time with the id it has returned, visits every key once, in the order in which they were added,
    with its flags and data, and then returns 0.  The loop over the blocks of a call ends: they are fewer than the
    blocks of the file. *)
Theorem key_table_iterate {B : Type} `{BlockStoreLaws B} {healthy : B -> Prop} {Hh : Healthy healthy} (b : B) (ki : CamelKeyTable)
    (l : list (Z * entry)) (n fuel : nat) (want : bool) (Hin : key_table_in b ki l) (Hne : forall x, x ∈ l -> x.2.1.1 <> [])
    (Hok : healthy b) (Hfuel : (size (allocated b) < fuel)%nat) (Hn : (length l < n)%nat) :
  exists b', all_next n fuel b ki 0 want = Ok (b', map (fun x => (x.1, found_of x.2 want)) l) /\ key_table_in b' ki l /\
    (key_durable b ki -> key_durable b' ki).
Proof. destruct (all_next_ok healthy n fuel b ki l [] l 0 want) as (b' & E & Hin' & Hd & _); [done..|]. by exists b'. Qed.

Lemma key_table_iterate_witness :
  exists b', all_next 3 4 added_keys.1 added_keys.2 0 true = Ok (b', map (fun x => (x.1, found_of x.2 true)) two_keys) /\
    key_table_in b' added_keys.2 two_keys /\ (key_durable added_keys.1 added_keys.2 -> key_durable b' added_keys.2).
Proof.
  apply (key_table_iterate (healthy := fun bs : CamelBlockFile => no_faults (faults bs)) added_keys.1 added_keys.2 two_keys 3 4 true).
  - exact (proj1 added_keys_ok).
  - intros x. repeat (intros [->|Hx]%elem_of_cons; [discriminate|revert Hx]). by intros ?%not_elem_of_nil.
  - vm_compute. constructor.
  - vm_compute. lia.
  - vm_compute. lia.
Defined.

(** When syncing a table, and then its file, succeeds, and the file has the length that its root
    block says, then the file can be opened again, and the table in it, and it has the same keys with the
    same ids. *)
Theorem key_table_reopen (bs bs1 bs2 : CamelBlockFile) (ki : CamelKeyTable) (l : list (Z * entry)) (calls : list (option Z))
    (Hin : key_table_in bs ki l) (Hd : key_durable bs ki) (E1 : camel_key_table_sync bs ki = Ok (bs1, 0))
    (E2 : camel_block_file_sync bs1 = Ok (bs2, 0)) (Hsize : f_size (disk bs2) = last_block bs2) (Hc : no_faults calls) :
  exists bs3 bs4 ki', camel_block_file_new base_class (disk bs2) calls (version bs2) = Ok (inl bs3) /\
    camel_key_table_new bs3 (ki_rootid ki) = Ok (bs4, Some ki') /\ ki_rootid ki' = ki_rootid ki /\ key_table_in bs4 ki' l.
Proof. exact (reopen_keys bs bs1 bs2 ki l calls Hin Hd E1 E2 Hsize Hc). Qed.

Definition keys_synced_1 : CamelBlockFile :=
  match camel_key_table_sync added_keys.1 added_keys.2 with Ok (b, _) => b | _ => added_keys.1 end.
Definition keys_synced_2 : CamelBlockFile := match camel_block_file_sync keys_synced_1 with Ok (b, _) => b | _ => keys_synced_1 end.

Lemma key_table_reopen_witness :
  exists bs3 bs4 ki', camel_block_file_new base_class (disk keys_synced_2) [] (version keys_synced_2) = Ok (inl bs3) /\
    camel_key_table_new bs3 (ki_rootid added_keys.2) = Ok (bs4, Some ki') /\ ki_rootid ki' = ki_rootid added_keys.2 /\
    key_table_in bs4 ki' two_keys.
Proof.
  apply (key_table_reopen added_keys.1 keys_synced_1 keys_synced_2 added_keys.2 two_keys []).
  - exact (proj1 added_keys_ok).
  - exact (proj2 added_keys_ok).
  - vm_compute. reflexivity.
  - vm_compute. reflexivity.
  - vm_compute. reflexivity.
  - constructor.
Defined.
