(* ===== verification/KeyFile.v ===== *)
(** * Key files ([camel-block-file.c])

    [src/camel/camel-block-file.c], the second half: a file of records, each a list of
    keys and the place of another record, so that the records are chains.  Records are only added, at the
    end of the file; a chain grows at its head.

    The file is read and written through a stream of stdio.  What is written stays in the buffer of
    the stream until the C library writes it, which may fail: the calls to come ([kf_calls]) say so.
    The stream is opened for appending, so the buffer always goes to the end of the file.  Words are four bytes,
    the lowest first.  Other key files that are open only matter by closing this one for a
    time ([key_file_offline]). *)

From S2P Require Import Prelude.
#[local] Open Scope Z_scope.
#[local] Open Scope list_scope.

(** ** Streams *)

(** What a call that may write the buffer or read the file does: nothing of the kind ([Fine]), or
    it writes the buffer ([Flushed]), or it fails after so many bytes; the rest of the buffer is lost. *)
Inductive call : Type := Fine | Flushed | Failed (n : nat).

(** [struct _CamelKeyFile] and its [FILE]: [kf_online] is [fp != NULL]; the position, the error
    indicator, the bytes in the file and in the buffer. *)
Record CamelKeyFile := mkKeyFile {
  kf_online : bool;
  kf_rdonly : bool;
  kf_deleted : bool;
  kf_last : Z;
  kf_pos : Z;
  kf_err : bool;
  kf_bytes : list Z;
  kf_buf : list Z;
  kf_calls : list call;
}.

Definition set_stream (kf : CamelKeyFile) (pos : Z) (err : bool) (bytes buf : list Z) : CamelKeyFile :=
  mkKeyFile (kf_online kf) (kf_rdonly kf) (kf_deleted kf) (kf_last kf) pos err bytes buf (kf_calls kf).
Definition set_last (kf : CamelKeyFile) (last : Z) : CamelKeyFile :=
  mkKeyFile (kf_online kf) (kf_rdonly kf) (kf_deleted kf) last (kf_pos kf) (kf_err kf) (kf_bytes kf) (kf_buf kf) (kf_calls kf).
Definition set_fp (kf : CamelKeyFile) (online : bool) : CamelKeyFile :=
  mkKeyFile online (kf_rdonly kf) (kf_deleted kf) (kf_last kf) (kf_pos kf) (kf_err kf) (kf_bytes kf) (kf_buf kf) (kf_calls kf).

Definition next_stdio (kf : CamelKeyFile) : CamelKeyFile * call :=
  match kf_calls kf with
  | [] => (kf, Fine)
  | c :: cs =>
      (mkKeyFile (kf_online kf) (kf_rdonly kf) (kf_deleted kf) (kf_last kf) (kf_pos kf) (kf_err kf) (kf_bytes kf) (kf_buf kf) cs, c)
  end.

(** Writing the buffer; the second component is whether it was written. *)
Definition fflush (kf : CamelKeyFile) : CamelKeyFile * bool :=
  match kf_buf kf with
  | [] => (kf, true)
  | _ =>
      let '(kf, c) := next_stdio kf in
      match c with
      | Failed n => (set_stream kf (kf_pos kf) true (kf_bytes kf ++ take n (kf_buf kf)) [], false)
      | _ => (set_stream kf (kf_pos kf) (kf_err kf) (kf_bytes kf ++ kf_buf kf) [], true)
      end
  end.

(** [fseek (fp, pos, SEEK_SET)] and [fseek (fp, 0, SEEK_END)]; -1 if that fails. *)
Definition fseek (kf : CamelKeyFile) (pos : Z) : CamelKeyFile * Z :=
  let '(kf, ok) := fflush kf in
  if ok && (0 <=? pos) then (set_stream kf pos (kf_err kf) (kf_bytes kf) (kf_buf kf), 0) else (kf, -1).
Definition fseek_end (kf : CamelKeyFile) : CamelKeyFile * Z :=
  let '(kf, ok) := fflush kf in
  if ok then (set_stream kf (Z.of_nat (length (kf_bytes kf))) (kf_err kf) (kf_bytes kf) (kf_buf kf), 0) else (kf, -1).
Definition ftell (kf : CamelKeyFile) : Z := kf_pos kf.
Definition clearerr (kf : CamelKeyFile) : CamelKeyFile := set_stream kf (kf_pos kf) false (kf_bytes kf) (kf_buf kf).

(** [fwrite]: at the end of the file.  A stream for reading only refuses. *)
Definition fwrite (kf : CamelKeyFile) (data : list Z) : CamelKeyFile :=
  if kf_rdonly kf then set_stream kf (kf_pos kf) true (kf_bytes kf) (kf_buf kf)
  else
    let '(kf, c) := next_stdio kf in
    let all := kf_buf kf ++ data in
    let pos := Z.of_nat (length (kf_bytes kf ++ all)) in
    match c with
    | Fine => set_stream kf pos (kf_err kf) (kf_bytes kf) all
    | Flushed => set_stream kf pos (kf_err kf) (kf_bytes kf ++ all) []
    | Failed n => set_stream kf pos true (kf_bytes kf ++ take n all) []
    end.

(** [fread] of [n] bytes, behind an [fseek]; [None] when there are fewer. *)
Definition fread (kf : CamelKeyFile) (n : Z) : CamelKeyFile * option (list Z) :=
  let '(kf, c) := next_stdio kf in
  let data := take (Z.to_nat n) (drop (Z.to_nat (kf_pos kf)) (kf_bytes kf)) in
  match c with
  | Failed _ => (set_stream kf (kf_pos kf) true (kf_bytes kf) (kf_buf kf), None)
  | _ =>
      (set_stream kf (kf_pos kf + Z.of_nat (length data)) (kf_err kf) (kf_bytes kf) (kf_buf kf),
       if Z.of_nat (length data) =? n then Some data else None)
  end.

(** [fopen], as [open] and [fdopen]. *)
Definition fopen (kf : CamelKeyFile) : CamelKeyFile * Z :=
  let '(kf, c) := next_stdio kf in
  match c with
  | Failed _ => (kf, -1)
  | _ => (set_fp (set_stream kf 0 false (kf_bytes kf) []) true, 0)
  end.
Definition fclose (kf : CamelKeyFile) : CamelKeyFile := set_fp (fst (fflush kf)) false.

(** A [guint32] in memory. *)
Definition word_bytes (w : Z) : list Z := map (fun k => Z.land (Z.shiftr w (8 * k)) 255) [0; 1; 2; 3].
Fixpoint words_bytes (ws : list Z) : list Z :=
  match ws with [] => [] | w :: ws => word_bytes w ++ words_bytes ws end.
Definition bytes_word (bs : list Z) : Z := foldr (fun c w => c + 256 * w) 0 bs.
Fixpoint bytes_words (n : nat) (bs : list Z) : list Z :=
  match n with O => [] | S n => bytes_word (take 4 bs) :: bytes_words n (drop 4 bs) end.

(** ** Opening and closing *)

Definition key_file_use (bs : CamelKeyFile) : CamelKeyFile * Z :=
  if kf_online bs then (bs, 0)
  else if kf_deleted bs then (bs, -1)
  else fopen bs.

(** Using another file closes this one when too many are open. *)
Definition key_file_offline (bs : CamelKeyFile) : CamelKeyFile := if kf_online bs then fclose bs else bs.

(** [bytes] is what is in the file; [rdonly] is [flags & O_ACCMODE == O_RDONLY]. *)
Definition camel_key_file_new (bytes : list Z) (rdonly : bool) (version : list Z) (calls : list call) : option CamelKeyFile :=
  let kf := mkKeyFile false rdonly false 8 0 false bytes [] calls in
  let '(kf, ret) := key_file_use kf in
  if ret =? -1 then None
  else
    let '(kf, _) := fseek_end kf in
    let last := ftell kf in
    let '(kf, last) := if last =? 0 then (fwrite kf version, last + 8) else (kf, last) in
    let kf := set_last kf last in
    if kf_err kf then None else Some kf.

Definition camel_key_file_finalise (bs : CamelKeyFile) : CamelKeyFile := if kf_online bs then fclose bs else bs.

(** The second argument of the result is what [unlink] returns. *)
Definition camel_key_file_delete (kf : CamelKeyFile) : CamelKeyFile * Z :=
  let kf := if kf_online kf then fclose kf else kf in
  let '(kf, c) := next_stdio kf in
  (mkKeyFile (kf_online kf) (kf_rdonly kf) true (kf_last kf) (kf_pos kf) (kf_err kf) (kf_bytes kf) (kf_buf kf) (kf_calls kf),
   match c with Failed _ => -1 | _ => 0 end).

(** ** Records *)

(** The last components are [*parent] and the result. *)
Definition camel_key_file_write (kf : CamelKeyFile) (parent : Z) (records : list Z) : CamelKeyFile * Z * Z :=
  let len := Z.of_nat (length records) in
  if len =? 0 then (kf, parent, 0)
  else
    let '(kf, ret) := key_file_use kf in
    if ret =? -1 then (kf, parent, -1)
    else
      let size := u32 len in
      let next := u32 (kf_last kf) in
      let '(kf, _) := fseek kf (kf_last kf) in
      let kf := fwrite kf (word_bytes parent) in
      let kf := fwrite kf (word_bytes size) in
      let kf := fwrite kf (words_bytes records) in
      if kf_err kf then (clearerr kf, parent, -1)
      else (set_last kf (ftell kf), next, len).

(** [*start], [*len] and [*records] if they are set, and the result. *)
Definition camel_key_file_read (kf : CamelKeyFile) (start : Z) (want : bool) : CamelKeyFile * Z * option Z * option (list Z) * Z :=
  if start =? 0 then (kf, start, None, None, 0)
  else
    let '(kf, ret) := key_file_use kf in
    if ret =? -1 then (kf, start, None, None, -1)
    else
      let fail kf := (clearerr kf, start, None, None, -1) in
      let '(kf, ret) := fseek kf start in
      if ret =? -1 then fail kf
      else
        let '(kf, r) := fread kf 4 in
        match r with
        | None => fail kf
        | Some next =>
            let '(kf, r) := fread kf 4 in
            match r with
            | None => fail kf
            | Some size =>
                let size := bytes_word size in
                let next := bytes_word next in
                if 1024 <? size then fail kf
                else if want then
                  let '(kf, r) := fread kf (4 * size) in
                  match r with
                  | None => (kf, start, Some size, None, -1)
                  | Some keys => (kf, next, Some size, Some (bytes_words (Z.to_nat size) keys), 0)
                  end
                else (kf, next, Some size, None, 0)
            end
        end.
