(* ===== verification/KeyFileSpec.v ===== *)
(** * Key files: chains of records

    What is in a key file, the bytes of the file and those of the buffer, as chains of records;
    writing puts a record at the head of a chain, and reading goes through it.  Whatever fails, what
    was in the file stays. *)

From S2P Require Import Prelude KeyFile.
#[local] Open Scope Z_scope.
#[local] Open Scope list_scope.

(** ** Words and bytes *)

Lemma word_bytes_length w : length (word_bytes w) = 4%nat.
Proof. done. Qed.

Lemma bytes_word_bytes w : 0 <= w < 2 ^ 32 -> bytes_word (word_bytes w) = w.
Proof.
  intros Hw. cbn. change 255 with (Z.ones 8). rewrite !Z.land_ones, !Z.shiftr_div_pow2 by lia.
  change (2 ^ (8 * 0)) with 1. change (2 ^ (8 * 1)) with 256. change (2 ^ (8 * 2)) with 65536. change (2 ^ (8 * 3)) with 16777216.
  change (2 ^ 8) with 256.
  rewrite Z.div_1_r. pose proof (Z.div_mod w 256 ltac:(lia)). pose proof (Z.div_mod (w / 256) 256 ltac:(lia)).
  pose proof (Z.div_mod (w / 256 / 256) 256 ltac:(lia)). rewrite !Z.div_div in * by lia. change (256 * 256) with 65536 in *.
  change (65536 * 256) with 16777216 in *. assert (0 <= w / 16777216 < 256) by (split; [apply Z.div_pos|apply Z.div_lt_upper_bound]; lia).
  rewrite (Z.mod_small (w / 16777216)) by lia. lia.
Qed.

Lemma words_bytes_length ws : length (words_bytes ws) = (4 * length ws)%nat.
Proof. induction ws as [|w ws IH]; [done|]. cbn [words_bytes length]. rewrite length_app, IH, word_bytes_length. lia. Qed.

Lemma bytes_words_bytes ws : Forall (fun w => 0 <= w < 2 ^ 32) ws -> bytes_words (length ws) (words_bytes ws) = ws.
Proof.
  induction ws as [|w ws IH]; intros Hf; [done|]. apply Forall_cons in Hf as [Hw Hf]. cbn [words_bytes length bytes_words].
  rewrite take_app_length', drop_app_length' by done. by rewrite bytes_word_bytes, IH.
Qed.

(** ** Chains *)

Definition kf_text (kf : CamelKeyFile) : list Z := kf_bytes kf ++ kf_buf kf.

Definition record (next : Z) (ws : list Z) : list Z := word_bytes next ++ word_bytes (Z.of_nat (length ws)) ++ words_bytes ws.

Lemma record_length next ws : length (record next ws) = (8 + 4 * length ws)%nat.
Proof. unfold record. rewrite !length_app, words_bytes_length, !word_bytes_length. lia. Qed.

(** The words that a record may have. *)
Definition words_ok (ws : list Z) : Prop := (0 < length ws <= 1024)%nat /\ Forall (fun w => 0 <= w < 2 ^ 32) ws.

(** The record at [pos]. *)
Definition record_at (text : list Z) (pos next : Z) (ws : list Z) : Prop :=
  exists t1 t2, text = t1 ++ record next ws ++ t2 /\ pos = Z.of_nat (length t1) /\ words_ok ws.

(** The chain at [pos]: each record was written before the one that points to it. *)
Fixpoint chain (text : list Z) (pos : Z) (cs : list (list Z)) : Prop :=
  match cs with
  | [] => pos = 0
  | ws :: cs => 0 < pos < 2 ^ 32 /\ exists next, 0 <= next < pos /\ record_at text pos next ws /\ chain text next cs
  end.

Lemma chain_app text more pos cs : chain text pos cs -> chain (text ++ more) pos cs.
Proof.
  revert pos. induction cs as [|ws cs IH]; intros pos; [done|]. intros (Hp & next & Hn & (t1 & t2 & -> & -> & Hw) & Hc).
  split; [done|]. exists next. split; [done|]. split; [|by apply IH]. exists t1, (t2 ++ more). by rewrite <- !app_assoc.
Qed.

Lemma chain_range text pos cs : chain text pos cs -> 0 <= pos < 2 ^ 32.
Proof. destruct cs; cbn; [lia|]. intros (? & _). lia. Qed.

Lemma chain_words text pos cs : chain text pos cs -> Forall words_ok cs.
Proof.
  revert pos. induction cs as [|ws cs IH]; intros pos; [done|]. intros (_ & next & _ & (_ & _ & _ & _ & Hw) & Hc). constructor; [done|by apply (IH next)].
Qed.

Lemma chain_cons text pos cs ws : chain text pos cs -> words_ok ws -> 0 < Z.of_nat (length text) < 2 ^ 32 -> pos < Z.of_nat (length text) ->
  chain (text ++ record pos ws) (Z.of_nat (length text)) (ws :: cs).
Proof.
  intros Hc Hw Hl Hp. split; [done|]. pose proof (chain_range _ _ _ Hc). exists pos. split; [lia|]. split; [|by apply chain_app].
  exists text, []. by rewrite app_nil_r.
Qed.

(** A chain that is not empty lies within the text. *)
Lemma chain_within text pos cs : chain text pos cs -> pos = 0 \/ pos < Z.of_nat (length text).
Proof.
  destruct cs as [|ws cs]; [by left|]. intros (_ & next & _ & (t1 & t2 & -> & -> & _) & _). right. rewrite !length_app, record_length. lia.
Qed.

(** ** Streams *)

(** No call fails. *)
Definition no_failures (cs : list call) : Prop := Forall (fun c => match c with Failed _ => False | _ => True end) cs.

(** What every operation keeps: the bytes of the file stay. *)
Record kf_step (kf kf' : CamelKeyFile) : Prop := {
  st_calls : exists used, kf_calls kf = used ++ kf_calls kf';
  st_bytes : kf_bytes kf `prefix_of` kf_bytes kf';
  st_rdonly : kf_rdonly kf' = kf_rdonly kf;
  st_deleted : kf_deleted kf' = kf_deleted kf;
}.

#[export] Instance kf_step_preorder : PreOrder kf_step.
Proof.
  split.
  - intros kf. split; [by exists []|done|done|done].
  - intros k1 k2 k3 [[u1 C1] B1 R1 D1] [[u2 C2] B2 R2 D2]. split; [|by transitivity (kf_bytes k2)|congruence|congruence].
    exists (u1 ++ u2). by rewrite C1, C2, app_assoc.
Qed.

Lemma step_fine kf kf' : kf_step kf kf' -> no_failures (kf_calls kf) -> no_failures (kf_calls kf').
Proof. intros [[u ->] _ _ _]. unfold no_failures. rewrite Forall_app. by intros [_ ?]. Qed.

(** The stream is that of before, with the text [text], and can be used. *)
Record kf_same (kf kf' : CamelKeyFile) (text : list Z) : Prop := {
  sa_step : kf_step kf kf';
  sa_text : kf_text kf' = text;
  sa_err : kf_err kf' = kf_err kf;
  sa_last : kf_last kf' = kf_last kf;
  sa_online : kf_online kf' = kf_online kf;
}.

(** Something failed. *)
Record kf_broken (kf kf' : CamelKeyFile) : Prop := {
  br_step : kf_step kf kf';
  br_fine : ~ no_failures (kf_calls kf);
}.

Lemma next_stdio_step kf kf' c : next_stdio kf = (kf', c) ->
  kf_same kf kf' (kf_text kf) /\ kf_pos kf' = kf_pos kf /\ kf_buf kf' = kf_buf kf /\ kf_bytes kf' = kf_bytes kf /\
  (forall n, c = Failed n -> ~ no_failures (kf_calls kf)).
Proof.
  unfold next_stdio. destruct (kf_calls kf) as [|c0 cs] eqn:E; intros [= <- <-].
  - split; [by split|]. by do 3 (split; [done|]).
  - split; [split; [split; [by exists [c0]|done|done|done]|done..]|]. do 3 (split; [done|]). intros n -> [? _]%Forall_cons. done.
Qed.

Lemma fflush_ok kf kf' ok : fflush kf = (kf', ok) -> kf_buf kf' = [] /\
  if ok then kf_same kf kf' (kf_text kf) /\ kf_pos kf' = kf_pos kf else kf_broken kf kf' /\ kf_err kf' = true.
Proof.
  unfold fflush, kf_text. destruct (kf_buf kf) as [|c0 buf] eqn:Eb; [intros [= <- <-]; split; [done|]; split; [split; [done|unfold kf_text; by rewrite Eb|done..]|done]|].
  destruct (next_stdio kf) as [k1 c] eqn:E. destruct (next_stdio_step kf k1 c E) as ([[Hc Hb Hr Hd] Ht Her Hl Ho] & Hp & Ebuf & Eby & Hf).
  rewrite Ebuf, Eb, Eby. assert (forall n, kf_bytes kf `prefix_of` kf_bytes kf ++ take n (c0 :: buf)) as Hpre by (intros n; by apply prefix_app_r).
  assert (kf_bytes kf `prefix_of` kf_bytes kf ++ c0 :: buf) as Hpre' by by apply prefix_app_r.
  destruct c as [| |n]; intros [= <- <-]; (split; [done|]).
  - split; [|done]. split; [by split|cbn; by rewrite app_nil_r|done..].
  - split; [|done]. split; [by split|cbn; by rewrite app_nil_r|done..].
  - split; [|done]. split; [split; [done|apply Hpre|done|done]|by apply (Hf n)].
Qed.

Lemma fseek_ok kf kf' pos ret : 0 <= pos -> fseek kf pos = (kf', ret) ->
  ret = 0 /\ kf_same kf kf' (kf_text kf) /\ kf_buf kf' = [] /\ kf_pos kf' = pos \/ ret = -1 /\ kf_broken kf kf' /\ kf_err kf' = true.
Proof.
  intros Hp. unfold fseek. destruct (fflush kf) as [k1 ok] eqn:E. destruct (fflush_ok kf k1 ok E) as (Hb & Hk).
  destruct (Z.leb_spec 0 pos); [|lia]. destruct ok; cbn; intros [= <- <-]; [left|by right].
  destruct Hk as [[[Hc Hby Hr Hd] Ht He Hl Ho] _]. split; [done|]. split; [|done]. by split.
Qed.

Lemma fwrite_ok kf data : kf_rdonly kf = false -> kf_step kf (fwrite kf data) /\
  (kf_err kf = false -> kf_err (fwrite kf data) = false -> kf_same kf (fwrite kf data) (kf_text kf ++ data) /\
     kf_pos (fwrite kf data) = Z.of_nat (length (kf_text kf ++ data))) /\
  (kf_err (fwrite kf data) = false -> kf_err kf = false) /\
  (kf_err kf = false -> kf_err (fwrite kf data) = true -> ~ no_failures (kf_calls kf)).
Proof.
  intros Hrd. unfold fwrite. rewrite Hrd. destruct (next_stdio kf) as [k1 c] eqn:E.
  destruct (next_stdio_step kf k1 c E) as ([[Hc Hb Hr Hd] Ht Her Hl Ho] & Hp & Ebuf & Eby & Hf).
  unfold kf_text. rewrite Ebuf, Eby, <- app_assoc. rewrite Eby in Hb.
  assert (forall l, kf_bytes kf `prefix_of` kf_bytes kf ++ l) as Hpre by (intros l; by apply prefix_app_r).
  assert (forall l pos err buf, kf_step kf (set_stream k1 pos err (kf_bytes kf ++ l) buf)) as Hst by (intros l pos err buf; split; [done|apply Hpre|done|done]).
  assert (forall pos err buf, kf_step kf (set_stream k1 pos err (kf_bytes kf) buf)) as Hst' by (intros pos err buf; by split).
  destruct c as [| |n]; cbn [kf_err set_stream kf_pos kf_bytes kf_buf]; rewrite ?Her.
  - split; [done|]. split; [intros He _|by split; [|congruence]]. split; [split; [done|done|done|done|done]|done].
  - split; [done|]. split; [intros He _|by split; [|congruence]]. split; [split; [done|cbn; by rewrite app_nil_r|done|done|done]|done].
  - split; [done|]. split; [done|]. split; [done|]. intros _ _. by apply (Hf n).
Qed.

(** A file that can be written to and read, with the text [text]. *)
Record key_file (kf : CamelKeyFile) (text : list Z) : Prop := {
  kf_is : kf_text kf = text;
  kf_rw : kf_rdonly kf = false;
  kf_here : kf_deleted kf = false;
  kf_noerr : kf_err kf = false;
  kf_end : kf_last kf = Z.of_nat (length text);
  kf_closed : kf_online kf = false -> kf_buf kf = [];
}.

Lemma same_file kf kf' text text' : key_file kf text -> kf_same kf kf' text' -> kf_online kf = true -> kf_last kf' = Z.of_nat (length text') -> key_file kf' text'.
Proof.
  intros [K1 K2 K3 K4 K5 K6] [[_ _ Hr Hd] Ht He Hl Ho] Hon Hlast. split; try congruence.
Qed.

Lemma key_file_use_ok kf text kf' ret : key_file kf text -> key_file_use kf = (kf', ret) -> kf_step kf kf' /\
  (ret = 0 /\ key_file kf' text /\ kf_online kf' = true \/ ret = -1 /\ key_file kf' text /\ ~ no_failures (kf_calls kf)).
Proof.
  intros Hk. pose proof Hk as [K1 K2 K3 K4 K5 K6]. unfold key_file_use. destruct (kf_online kf) eqn:Eo; [intros [= <- <-]; split; [done|by left]|].
  rewrite K3. unfold fopen. destruct (next_stdio kf) as [k1 c] eqn:E. specialize (K6 eq_refl).
  destruct (next_stdio_step kf k1 c E) as ([[Hc Hb Hr Hd] Ht Her Hl Ho] & Hp & Ebuf & Eby & Hf).
  assert (key_file (set_fp (set_stream k1 0 false (kf_bytes k1) []) true) text) as Hok.
  { split; cbn; try congruence. rewrite <- K1. unfold kf_text. cbn. by rewrite Eby, K6. }
  destruct c as [| |n]; intros [= <- <-]; (split; [by split|]); [by left|by left|right]. split; [done|]. split; [|by apply (Hf n)].
  split; congruence.
Qed.

(** ** Writing *)

Lemma write_record_ok kf text parent ws : key_file kf text -> words_ok ws -> 0 < Z.of_nat (length text) < 2 ^ 32 ->
  exists kf' parent' ret, camel_key_file_write kf parent ws = (kf', parent', ret) /\ kf_step kf kf' /\
    (ret = Z.of_nat (length ws) /\ parent' = Z.of_nat (length text) /\ key_file kf' (text ++ record parent ws) \/
     ret = -1 /\ parent' = parent /\ kf_err kf' = false /\ ~ no_failures (kf_calls kf)).
Proof.
  intros Hk [Hlen Hws] Hl. unfold camel_key_file_write. destruct (Z.eqb_spec (Z.of_nat (length ws)) 0); [lia|].
  destruct (key_file_use kf) as [k1 ret1] eqn:E1. destruct (key_file_use_ok kf text k1 ret1 Hk E1) as (S1 & [(-> & Hk1 & Ho1)|(-> & Hk1 & Hf)]).
  2:{ exists k1, parent, (-1). split; [done|]. split; [done|]. right. do 2 (split; [done|]). split; [by apply (kf_noerr _ text)|done]. }
  change (0 =? -1) with false. cbv iota. unfold u32. pose proof Hk1 as [K1 K2 K3 K4 K5 K6]. rewrite !Z.mod_small by lia.
  destruct (fseek k1 (kf_last k1)) as [k2 ret2] eqn:E2. set (k3 := fwrite k2 (word_bytes parent)).
  set (k4 := fwrite k3 (word_bytes (Z.of_nat (length ws)))). set (k5 := fwrite k4 (words_bytes ws)).
  assert (kf_step k1 k2 /\ (kf_err k2 = true -> ~ no_failures (kf_calls k1)) /\ (kf_err k2 = false -> kf_same k1 k2 text)) as (S2 & F2 & T2).
  { destruct (fseek_ok k1 k2 (kf_last k1) ret2 ltac:(lia) E2) as [(_ & H2 & _)|(_ & [H2 H2'] & He)].
    - rewrite K1 in H2. split; [by apply H2|]. split; [|done]. rewrite (sa_err _ _ _ H2), K4. done.
    - split; [done|]. split; [done|]. by rewrite He. }
  assert (kf_rdonly k2 = false) as R2 by (rewrite (st_rdonly _ _ S2); done).
  destruct (fwrite_ok k2 (word_bytes parent) R2) as (S3 & T3 & B3 & F3). fold k3 in S3, T3, B3, F3. assert (kf_rdonly k3 = false) as R3 by (rewrite (st_rdonly _ _ S3); done).
  destruct (fwrite_ok k3 (word_bytes (Z.of_nat (length ws))) R3) as (S4 & T4 & B4 & F4). fold k4 in S4, T4, B4, F4. assert (kf_rdonly k4 = false) as R4 by (rewrite (st_rdonly _ _ S4); done).
  destruct (fwrite_ok k4 (words_bytes ws) R4) as (S5 & T5 & B5 & F5). fold k5 in S5, T5, B5, F5.
  assert (kf_step kf k5) as S by (do 4 (etransitivity; [eassumption|]); exact S5).
  destruct (kf_err k5) eqn:E5.
  - exists (clearerr k5), parent, (-1). split; [done|]. split; [by destruct S as [? ? ? ?]; split|]. right. do 3 (split; [done|]).
    intros Hn. pose proof (step_fine _ _ S1 Hn) as N1. pose proof (step_fine _ _ S2 N1) as N2. pose proof (step_fine _ _ S3 N2) as N3. pose proof (step_fine _ _ S4 N3) as N4.
    destruct (kf_err k2) eqn:Ee2; [by apply F2|]. destruct (kf_err k3) eqn:Ee3; [by apply F3|]. destruct (kf_err k4) eqn:Ee4; [by apply F4|]. by apply F5.
  - pose proof (B5 eq_refl) as Ee4. pose proof (B4 Ee4) as Ee3. pose proof (B3 Ee3) as Ee2. specialize (T2 Ee2).
    destruct (T3 Ee2 Ee3) as [T3' _]. destruct (T4 Ee3 Ee4) as [T4' _]. destruct (T5 Ee4 eq_refl) as [T5' P5].
    exists (set_last k5 (ftell k5)), (kf_last k1), (Z.of_nat (length ws)). split; [done|]. split; [by destruct S as [? ? ? ?]; split|]. left.
    split; [done|]. split; [done|]. assert (kf_text k5 = text ++ record parent ws) as Et.
    { rewrite (sa_text _ _ _ T5'), (sa_text _ _ _ T4'), (sa_text _ _ _ T3'), (sa_text _ _ _ T2). unfold record. by rewrite <- !app_assoc. }
    split; [done| | |done| |].
    + change (kf_rdonly k5 = false). rewrite (st_rdonly _ _ S). by apply Hk.
    + change (kf_deleted k5 = false). rewrite (st_deleted _ _ S). by apply Hk.
    + change (kf_pos k5 = Z.of_nat (length (text ++ record parent ws))). rewrite P5, <- Et, (sa_text _ _ _ T5'). done.
    + change (kf_online k5 = false -> kf_buf k5 = []). rewrite (sa_online _ _ _ T5'), (sa_online _ _ _ T4'), (sa_online _ _ _ T3'), (sa_online _ _ _ T2), Ho1. done.
Qed.

(** ** Reading *)

Lemma fread_ok kf kf' r t1 d t2 : kf_buf kf = [] -> kf_text kf = t1 ++ d ++ t2 -> kf_pos kf = Z.of_nat (length t1) ->
  fread kf (Z.of_nat (length d)) = (kf', r) -> kf_step kf kf' /\
  (r = Some d /\ kf_same kf kf' (kf_text kf) /\ kf_buf kf' = [] /\ kf_pos kf' = Z.of_nat (length (t1 ++ d)) \/
   r = None /\ ~ no_failures (kf_calls kf)).
Proof.
  intros Hb Ht Hp. unfold fread. destruct (next_stdio kf) as [k1 c] eqn:E.
  destruct (next_stdio_step kf k1 c E) as ([[Hc Hby Hr Hd] Ht1 Her Hl Ho] & Hpos & Ebuf & Eby & Hf).
  assert (take (Z.to_nat (Z.of_nat (length d))) (drop (Z.to_nat (kf_pos k1)) (kf_bytes k1)) = d) as ->.
  { rewrite Hpos, Hp, Eby, !Nat2Z.id. unfold kf_text in Ht. rewrite Hb, app_nil_r in Ht. rewrite Ht, drop_app_length. apply take_app_length. }
  assert (forall pos err, kf_step kf (set_stream k1 pos err (kf_bytes k1) (kf_buf k1))) as Hst by (intros pos err; by split).
  rewrite Z.eqb_refl. destruct c as [| |n]; intros [= <- <-]; (split; [done|]).
  - left. split; [done|]. split; [by split|]. cbn. split; [congruence|]. rewrite Hpos, Hp, length_app. lia.
  - left. split; [done|]. split; [by split|]. cbn. split; [congruence|]. rewrite Hpos, Hp, length_app. lia.
  - right. split; [done|]. by apply (Hf n).
Qed.

Lemma same_trans k1 k2 k3 text text' : kf_same k1 k2 text -> kf_same k2 k3 text' -> kf_same k1 k3 text'.
Proof. intros [S1 T1 E1 L1 O1] [S2 T2 E2 L2 O2]. split; [by transitivity k2|congruence..]. Qed.

Lemma read_ok kf text pos next ws want : key_file kf text -> record_at text pos next ws -> 0 < pos -> 0 <= next < 2 ^ 32 ->
  exists kf' s len recs ret, camel_key_file_read kf pos want = (kf', s, len, recs, ret) /\ kf_step kf kf' /\
    (ret = 0 /\ s = next /\ len = Some (Z.of_nat (length ws)) /\ recs = (if want then Some ws else None) /\ key_file kf' text \/
     ret = -1 /\ s = pos /\ recs = None /\ ~ no_failures (kf_calls kf)).
Proof.
  intros Hk (t1 & t2 & Et & Ep & [Hlen Hws]) Hpos Hnext. unfold camel_key_file_read. destruct (Z.eqb_spec pos 0); [lia|].
  destruct (key_file_use kf) as [k1 ret1] eqn:E1. destruct (key_file_use_ok kf text k1 ret1 Hk E1) as (S1 & [(-> & Hk1 & Ho1)|(-> & Hk1 & Hf)]).
  2:{ exists k1, pos, None, None, (-1). split; [done|]. split; [done|]. by right. }
  change (0 =? -1) with false. cbv iota zeta. assert (forall k, kf_step k (clearerr k)) as Hcl by (intros k; split; [by exists []|done..]).
  assert (forall k, kf_step kf k -> (~ no_failures (kf_calls k)) -> ~ no_failures (kf_calls kf)) as Hnf by (intros k Hk' Hn ?; by apply Hn, (step_fine kf)).
  destruct (fseek k1 pos) as [k2 ret2] eqn:E2. destruct (fseek_ok k1 k2 pos ret2 ltac:(lia) E2) as [(-> & A2 & B2 & P2)|(-> & [S2 F2] & _)].
  2:{ change (-1 =? -1) with true. cbv iota. eexists _, pos, None, None, (-1). split; [done|]. split; [by do 2 (etransitivity; [eassumption|])|]. right. eauto. }
  change (0 =? -1) with false. cbv iota. rewrite (kf_is _ _ Hk1) in A2. pose proof A2 as [S2 T2 _ _ _]. pose proof (transitivity S1 S2) as S12.
  rewrite Et in T2. unfold record in T2. rewrite <- !app_assoc in T2. rewrite Ep in P2.
  destruct (fread k2 4) as [k3 r3] eqn:E3. change 4 with (Z.of_nat (length (word_bytes next))) in E3.
  destruct (fread_ok k2 k3 r3 t1 (word_bytes next) _ B2 T2 P2 E3) as (S3 & [(-> & A3 & B3 & P3)|(-> & F3)]); pose proof (transitivity S12 S3) as S13.
  2:{ eexists _, pos, None, None, (-1). split; [done|]. split; [by etransitivity|]. right. eauto. }
  pose proof (sa_text _ _ _ A3) as T3. rewrite T2, app_assoc in T3.
  destruct (fread k3 4) as [k4 r4] eqn:E4. change 4 with (Z.of_nat (length (word_bytes (Z.of_nat (length ws))))) in E4.
  destruct (fread_ok k3 k4 r4 _ _ _ B3 T3 P3 E4) as (S4 & [(-> & A4 & B4 & P4)|(-> & F4)]); pose proof (transitivity S13 S4) as S14.
  2:{ eexists _, pos, None, None, (-1). split; [done|]. split; [by etransitivity|]. right. eauto. }
  rewrite !bytes_word_bytes by lia. destruct (Z.ltb_spec 1024 (Z.of_nat (length ws))); [lia|].
  pose proof (sa_text _ _ _ A4) as T4. rewrite T3, app_assoc in T4.
  assert (kf_same k1 k4 text) as A14.
  { replace text with (kf_text k3); [by apply (same_trans _ _ _ _ _ (same_trans _ _ _ _ _ A2 A3))|]. rewrite T3, Et. unfold record. by rewrite <- !app_assoc. }
  assert (forall k, kf_same k1 k text -> key_file k text) as Hres.
  { intros k Ha. apply (same_file k1 k text text Hk1 Ha Ho1). rewrite (sa_last _ _ _ Ha). apply Hk1. }
  destruct want.
  2:{ eexists _, next, _, None, 0. split; [done|]. split; [done|]. left. do 4 (split; [done|]). by apply Hres. }
  destruct (fread k4 (4 * Z.of_nat (length ws))) as [k5 r5] eqn:E5.
  replace (4 * Z.of_nat (length ws)) with (Z.of_nat (length (words_bytes ws))) in E5 by (rewrite words_bytes_length; lia).
  destruct (fread_ok k4 k5 r5 _ _ _ B4 T4 P4 E5) as (S5 & [(-> & A5 & _ & _)|(-> & F5)]); pose proof (transitivity S14 S5) as S15.
  2:{ eexists _, pos, _, None, (-1). split; [done|]. split; [done|]. right. eauto. }
  rewrite Nat2Z.id, bytes_words_bytes by done. eexists _, next, _, _, 0. split; [done|]. split; [done|]. left. do 4 (split; [done|]).
  apply Hres. rewrite (sa_text _ _ _ A14) in A5. by apply (same_trans _ _ _ _ _ A14).
Qed.

(** ** Whole chains *)

(** Reading a chain from its head to its end, as [text_index_compress_nosync] does. *)
Fixpoint read_all (n : nat) (kf : CamelKeyFile) (start : Z) : CamelKeyFile * option (list (list Z)) :=
  if start =? 0 then (kf, Some [])
  else
    match n with
    | O => (kf, None)
    | S n =>
        match camel_key_file_read kf start true with
        | (kf, next, _, Some ws, _) =>
            let '(kf, r) := read_all n kf next in (kf, match r with Some cs => Some (ws :: cs) | None => None end)
        | (kf, _, _, None, _) => (kf, None)
        end
    end.

Lemma read_all_ok cs : forall kf text pos n, key_file kf text -> no_failures (kf_calls kf) -> chain text pos cs -> (length cs <= n)%nat ->
  exists kf', read_all n kf pos = (kf', Some cs) /\ key_file kf' text /\ kf_step kf kf'.
Proof.
  induction cs as [|ws cs IH]; intros kf text pos n Hk Hf Hc Hn.
  - cbn in Hc. subst pos. exists kf. by destruct n.
  - destruct Hc as (Hp & next & Hnext & Hr & Hc). cbn in Hn. destruct n as [|n]; [lia|]. cbn [read_all]. destruct (Z.eqb_spec pos 0); [lia|].
    destruct (read_ok kf text pos next ws true Hk Hr) as (k1 & s & len & recs & ret & -> & S1 & [(-> & -> & -> & -> & Hk1)|(_ & _ & _ & Hx)]); [lia|lia| |done].
    cbv iota. destruct (IH k1 text next n Hk1 (step_fine _ _ S1 Hf) Hc) as (k2 & -> & Hk2 & S2); [lia|].
    exists k2. split; [done|]. split; [done|]. by transitivity k1.
Qed.

(** Opening a file. *)
Lemma open_key_file bytes ver calls : length ver = 8%nat -> match camel_key_file_new bytes false ver calls with
  | Some kf => key_file kf (match bytes with [] => ver | _ => bytes end) /\ exists used, calls = used ++ kf_calls kf
  | None => ~ no_failures calls
  end.
Proof.
  intros Hv. unfold camel_key_file_new. set (kf0 := mkKeyFile false false false 8 0 false bytes [] calls).
  unfold key_file_use. cbn [kf_online kf_deleted kf0]. unfold fopen. destruct (next_stdio kf0) as [k1 c] eqn:E1.
  destruct (next_stdio_step kf0 k1 c E1) as ([[[u1 Hc] Hb Hr Hd] Ht Her Hl Ho] & Hp & Ebuf & Eby & Hf). cbn in Hc, Hr, Hd, Her, Ebuf, Eby.
  assert (forall n, c = Failed n -> ~ no_failures calls) as Hf' by exact Hf.
  destruct c as [| |n]; [| |cbn; by apply (Hf' n)].
  all: change (0 =? -1) with false; cbv iota; unfold fseek_end, fflush; cbn [kf_buf set_fp set_stream]; unfold ftell; cbn [kf_pos set_stream kf_bytes set_fp];
    rewrite Eby; destruct bytes as [|b0 bytes].
  all: try (destruct (Z.eqb_spec (Z.of_nat (length (b0 :: bytes))) 0) as [Hx|_]; [by cbn in Hx|]; cbn [kf_err set_last set_stream set_fp];
    split; [|by exists u1]; split; try done; by unfold kf_text; cbn; rewrite app_nil_r).
  all: change (Z.of_nat (length []) =? 0) with true; cbv iota; unfold fwrite; cbn [kf_rdonly set_stream set_fp]; rewrite Hr;
    set (k2 := set_stream _ _ _ _ _); destruct (next_stdio k2) as [k3 c] eqn:E3;
    destruct (next_stdio_step k2 k3 c E3) as ([[[u3 Hc3] _ Hr3 Hd3] Ht3 Her3 Hl3 Ho3] & Hp3 & Ebuf3 & Eby3 & Hf3); cbn in Hc3, Hr3, Hd3, Her3, Ho3, Ebuf3, Eby3;
    rewrite Ebuf3, Eby3; cbn [app]; destruct c as [| |n]; cbn [kf_err set_last set_stream]; rewrite ?Her3.
  all: try (split; [|exists (u1 ++ u3); cbn; rewrite Hc, Hc3; by rewrite app_assoc]; split;
    [unfold kf_text; cbn; by rewrite ?app_nil_r|cbn; congruence|cbn; congruence|done|cbn; by rewrite Hv|cbn; congruence]).
  all: intros Hn; apply (Hf3 n eq_refl); cbn; rewrite Hc in Hn; unfold no_failures in *; by apply Forall_app in Hn as [_ Hn].
Qed.

(** ** The operations *)

Definition keys_version : list Z := [75; 69; 89; 83; 46; 48; 48; 48].

(** A new file, and one record in it. *)
Definition the_key_file (calls : list call) : CamelKeyFile :=
  match camel_key_file_new [] false keys_version calls with Some kf => kf | None => mkKeyFile false true true 0 0 true [] [] [] end.
Definition one_record : CamelKeyFile * Z * Z := camel_key_file_write (the_key_file []) 0 [2048; 2049].

(** The first record is not written: after four bytes the disk is full.  The second one is, but it is not where the code
    thinks: reading it gives a record without keys. *)
Example key_file_skewed :
  let '(kf, parent, ret) := camel_key_file_write (the_key_file [Fine; Flushed; Flushed; Failed 0; Failed 0]) 0 [2048; 2049] in
  let '(kf', parent', ret') := camel_key_file_write kf parent [2050] in
  (ret, parent, ret', parent') = (-1, 0, 1, 8) /\ snd (read_all 2 kf' parent') = Some [[]].
Proof. vm_compute. by split. Qed.

(** C25: Writing a record at the head of a chain of a file, when no call to the C library fails, makes a chain of
    which the record is the first; reading it from the new head to the end gives the records, whatever is still in
    the buffer. *)
Theorem key_file_chain (kf : CamelKeyFile) (text : list Z) (parent : Z) (cs : list (list Z)) (ws : list Z) (Hk : key_file kf text)
    (Hf : no_failures (kf_calls kf)) (Hc : chain text parent cs) (Hw : words_ok ws) (Hl : 0 < Z.of_nat (length text) < 2 ^ 32) :
  exists kf1 parent1 kf2, camel_key_file_write kf parent ws = (kf1, parent1, Z.of_nat (length ws)) /\
    read_all (S (length cs)) kf1 parent1 = (kf2, Some (ws :: cs)) /\ key_file kf2 (text ++ record parent ws).
Proof.
  destruct (write_record_ok kf text parent ws Hk Hw Hl) as (k1 & p1 & ret & E & S1 & [(-> & -> & Hk1)|(_ & _ & _ & Hx)]); [|done].
  destruct (read_all_ok (ws :: cs) k1 (text ++ record parent ws) (Z.of_nat (length text)) (S (length cs)) Hk1 (step_fine _ _ S1 Hf)) as (k2 & E2 & Hk2 & _); [|done|].
  - apply chain_cons; [done|done|done|]. destruct (chain_within _ _ _ Hc); lia.
  - by exists k1, (Z.of_nat (length text)), k2.
Qed.

Lemma one_record_ok : key_file one_record.1.1 (keys_version ++ record 0 [2048; 2049]) /\ no_failures (kf_calls one_record.1.1) /\
  chain (keys_version ++ record 0 [2048; 2049]) one_record.1.2 [[2048; 2049]].
Proof.
  pose proof (open_key_file [] keys_version [] eq_refl) as Ho. change (camel_key_file_new [] false keys_version []) with (Some (the_key_file [])) in Ho.
  destruct Ho as [Hk _]. assert (words_ok [2048; 2049]) as Hw by (split; [cbn; lia|repeat constructor; lia]).
  destruct (write_record_ok (the_key_file []) keys_version 0 [2048; 2049] Hk Hw) as (kf & p & ret & E & _ & [(_ & -> & Hk1)|(_ & _ & _ & Hx)]); [cbn; lia| |].
  - assert ((kf, Z.of_nat (length keys_version)) = one_record.1) as [-> _]%pair_eq by (unfold one_record; rewrite E; done). split; [done|]. split.
    + assert (kf_calls one_record.1.1 = []) as -> by (vm_compute; reflexivity). constructor.
    + change one_record.1.2 with (Z.of_nat (length keys_version)). apply chain_cons; [done|done|cbn; lia|cbn; lia].
  - destruct Hx. constructor.
Qed.

Lemma key_file_chain_witness :
  exists kf1 parent1 kf2, camel_key_file_write one_record.1.1 one_record.1.2 [7] = (kf1, parent1, 1) /\
    read_all 2 kf1 parent1 = (kf2, Some [[7]; [2048; 2049]]) /\
    key_file kf2 ((keys_version ++ record 0 [2048; 2049]) ++ record one_record.1.2 [7]).
Proof.
  apply (key_file_chain one_record.1.1 (keys_version ++ record 0 [2048; 2049]) one_record.1.2 [[2048; 2049]] [7]).
  - exact (proj1 one_record_ok).
  - exact (proj1 (proj2 one_record_ok)).
  - exact (proj2 (proj2 one_record_ok)).
  - split; [cbn; lia|repeat constructor; lia].
  - cbn. lia.
Defined.

(** C26: When writing a record fails, [*parent] stays, and every chain whose records were in the file, and not only
    in the buffer, is still there; it fails only when a call to the C library does. *)
Theorem key_file_failure (kf : CamelKeyFile) (text : list Z) (parent : Z) (ws : list Z) (Hk : key_file kf text) (Hw : words_ok ws)
    (Hl : 0 < Z.of_nat (length text) < 2 ^ 32) :
  exists kf' parent' ret, camel_key_file_write kf parent ws = (kf', parent', ret) /\
    (forall pos cs, chain (kf_bytes kf) pos cs -> chain (kf_bytes kf') pos cs) /\
    (ret = Z.of_nat (length ws) /\ parent' = Z.of_nat (length text) \/ ret = -1 /\ parent' = parent /\ ~ no_failures (kf_calls kf)).
Proof.
  destruct (write_record_ok kf text parent ws Hk Hw Hl) as (k1 & p1 & ret & E & [_ [more Eb] _ _] & Hr). exists k1, p1, ret. split; [done|].
  split; [intros pos cs; rewrite Eb; apply chain_app|]. destruct Hr as [(? & ? & _)|(? & ? & _ & ?)]; [by left|by right].
Qed.

Lemma key_file_failure_witness :
  exists kf' parent' ret, camel_key_file_write one_record.1.1 0 [9] = (kf', parent', ret) /\
    (forall pos cs, chain (kf_bytes one_record.1.1) pos cs -> chain (kf_bytes kf') pos cs) /\
    (ret = 1 /\ parent' = 24 \/ ret = -1 /\ parent' = 0 /\ ~ no_failures (kf_calls one_record.1.1)).
Proof.
  apply (key_file_failure one_record.1.1 (keys_version ++ record 0 [2048; 2049]) 0 [9]).
  - exact (proj1 one_record_ok).
  - split; [cbn; lia|repeat constructor; lia].
  - cbn. lia.
Defined.
