(* ===== verification/BlockFrame.v ===== *)
(** * Blocks of a file: several clients

    A client of a file of blocks that has its own blocks does not touch those of others.
    This needs no proof for each client: the file without the blocks of the others
    is again a [BlockStore] with its laws ([framed]), whose invariant says that the others'
    blocks are as they were; every theorem about the client, read in this store, says that they stay.
    The same way, a property that every operation keeps, and room for more blocks
    later, are part of the invariant. *)

From S2P Require Import Prelude BlockStore BlockStoreSpec.
From stdpp Require Import gmap.
#[local] Open Scope Z_scope.
#[local] Open Scope list_scope.

(** ** References to some of the blocks *)

Definition theirs (X : gset Z) (P : gmap ptr pin) : gmap ptr pin := filter (fun x : ptr * pin => pin_id x.2 ∈ X) P.
Definition ours (X : gset Z) (P : gmap ptr pin) : gmap ptr pin := filter (fun x : ptr * pin => ~ pin_id x.2 ∈ X) P.

Lemma theirs_lookup X P p k : theirs X P !! p = Some k <-> P !! p = Some k /\ pin_id k ∈ X.
Proof. apply map_lookup_filter_Some. Qed.

Lemma ours_lookup X P p k : ours X P !! p = Some k <-> P !! p = Some k /\ ~ pin_id k ∈ X.
Proof. apply map_lookup_filter_Some. Qed.

Lemma ours_none X P p : ours X P !! p = None -> P !! p = None \/ exists k, P !! p = Some k /\ pin_id k ∈ X.
Proof.
  intros Hp. destruct (P !! p) as [k|] eqn:E; [right|by left]. exists k. split; [done|]. destruct (decide (pin_id k ∈ X)); [done|].
  assert (ours X P !! p = Some k) by by apply ours_lookup. congruence.
Qed.

(** Changing a reference to a block that is not in [X]. *)
Lemma theirs_insert X P p k : ~ pin_id k ∈ X -> (forall l, P !! p = Some l -> ~ pin_id l ∈ X) -> theirs X (<[p := k]> P) = theirs X P.
Proof.
  intros Hk Hp. apply map_eq. intros q. apply option_eq. intros l. rewrite !theirs_lookup, lookup_insert_Some. split.
  - intros [[[<- <-]|[Hne Hq]] Hl]; done.
  - intros [Hq Hl]. split; [|done]. right. split; [|done]. intros <-. by apply (Hp l).
Qed.

Lemma ours_insert X P p k : ~ pin_id k ∈ X -> ours X (<[p := k]> P) = <[p := k]> (ours X P).
Proof.
  intros Hk. apply map_eq. intros q. apply option_eq. intros l. rewrite ours_lookup, !lookup_insert_Some, ours_lookup. split.
  - intros [[[-> ->]|[Hne Hq]] Hl]; [by left|by right].
  - intros [[-> ->]|(Hne & Hq & Hl)]; [by split; [left|]|by split; [right|]].
Qed.

Lemma theirs_delete X P p : (forall l, P !! p = Some l -> ~ pin_id l ∈ X) -> theirs X (delete p P) = theirs X P.
Proof.
  intros Hp. apply map_eq. intros q. apply option_eq. intros l. rewrite !theirs_lookup, lookup_delete_Some. split; [tauto|].
  intros [Hq Hl]. split; [|done]. split; [|done]. intros <-. by apply (Hp l).
Qed.

Lemma ours_delete X P p : ours X (delete p P) = delete p (ours X P).
Proof.
  apply map_eq. intros q. apply option_eq. intros l. rewrite ours_lookup, !lookup_delete_Some, ours_lookup. tauto.
Qed.

(** ** Properties that every operation keeps *)

Class Stable {B : Type} `{BlockStoreLaws B} (J : B -> Prop) : Prop := {
  stable_get b b' i r : J b -> wf b -> get_block b i = Ok (b', r) -> J b';
  stable_new b b' r : J b -> wf b -> new_block b = Ok (b', r) -> J b';
  stable_detach b b' p : J b -> wf b -> detach_block b p = Ok b' -> J b';
  stable_touch b b' p : J b -> wf b -> touch_block b p = Ok b' -> J b';
  stable_unref b b' p k : J b -> wf b -> pins b !! p = Some k -> unref_block b p = Ok b' -> J b';
  stable_write b b' p k d : J b -> wf b -> pins b !! p = Some k -> write_data b p d = Ok b' -> J b';
  stable_sync_block b b' p ret : J b -> wf b -> sync_block b p = Ok (b', ret) -> J b';
  stable_sync b b' ret : J b -> wf b -> sync b = Ok (b', ret) -> J b';
}.

(** In states with [J] blocks can be had. *)
Class Reliable {B : Type} `{BlockStoreLaws B} (J : B -> Prop) : Prop := {
  reliable_stable :: Stable J;
  reliable_get b b' i r : J b -> wf b -> i ∈ allocated b -> get_block b i = Ok (b', r) -> r <> None;
  reliable_new b b' n r : J b -> wf b -> room b (S n) -> new_block b = Ok (b', r) -> r <> None;
}.

Section view.
Context {B : Type} `{BlockStoreLaws B}.

(** ** The store without the others' blocks *)

(** The blocks of the others, the references to them, their contents, which of them are saved, and room that is
    set aside. *)
Record frame := mkFrame {
  fr_ids : gset Z;
  fr_pins : gmap ptr pin;
  fr_contents : Z -> list Z;
  fr_saved : ptr -> Prop;
  fr_room : nat;
}.

(** What belongs to the others is as [F] says. *)
Record frame_in (F : frame) (b : B) : Prop := {
  in_ids : fr_ids F ⊆ allocated b;
  in_pins : theirs (fr_ids F) (pins b) = fr_pins F;
  in_contents : forall i, i ∈ fr_ids F -> contents b i = fr_contents F i;
  in_psaved : forall p k, fr_pins F !! p = Some k -> fr_saved F p -> saved b p;
  in_room : room b (fr_room F);
}.

Definition fpins (F : frame) (b : B) : gmap ptr pin := ours (fr_ids F) (pins b).
Definition fallocated (F : frame) (b : B) : gset Z := allocated b ∖ fr_ids F.
Definition froom (F : frame) (b : B) (n : nat) : Prop := room b (fr_room F + n).

Lemma fallocated_in F b i : i ∈ fallocated F b <-> i ∈ allocated b /\ ~ i ∈ fr_ids F.
Proof. unfold fallocated. set_solver. Qed.

(** A reference that is not ours is not to a block of ours. *)
Lemma fpins_others F b p k q : fpins F b !! p = Some k -> (exists l, fr_pins F !! q = Some l) -> frame_in F b -> q <> p.
Proof.
  intros [Hp Hk]%ours_lookup [l Hq] HF. rewrite <- (in_pins _ _ HF) in Hq. apply theirs_lookup in Hq as [Hq Hl]. intros ->. congruence.
Qed.

(** What an operation on references to our blocks keeps. *)
Lemma frame_step F b b' : frame_in F b -> fr_ids F ⊆ allocated b' -> theirs (fr_ids F) (pins b') = theirs (fr_ids F) (pins b) ->
  (forall i, i ∈ fr_ids F -> contents b' i = contents b i) -> (forall p k, fr_pins F !! p = Some k -> saved b p -> saved b' p) ->
  room b' (fr_room F) -> frame_in F b'.
Proof.
  intros [F1 F2 F3 F4 F5] Ha Hp Hc Hs Hr. split; try done; [congruence| |].
  - intros i Hi. by rewrite Hc, F3.
  - intros p k Hk Hp'. apply (Hs p k Hk). by apply (F4 p k).
Qed.

(** ** Changes to some of the blocks *)

(** The others' blocks [Y] as they are now. *)
Definition frame_at (Y : gset Z) (n : nat) (b : B) : frame := mkFrame Y (theirs Y (pins b)) (contents b) (saved b) n.

Lemma frame_at_in Y n b : Y ⊆ allocated b -> room b n -> frame_in (frame_at Y n b) b.
Proof. intros Hy Hr. by split. Qed.

(** The blocks [Y] in [b'] are those in [b]. *)
Record same_on (Y : gset Z) (b b' : B) : Prop := {
  so_ids : Y ⊆ allocated b';
  so_pins : theirs Y (pins b') = theirs Y (pins b);
  so_contents : forall i, i ∈ Y -> contents b' i = contents b i;
  so_saved : forall p k, theirs Y (pins b) !! p = Some k -> saved b p -> saved b' p;
}.

Lemma same_on_refl Y b : Y ⊆ allocated b -> same_on Y b b.
Proof. by split. Qed.

Lemma same_on_trans Y b1 b2 b3 : same_on Y b1 b2 -> same_on Y b2 b3 -> same_on Y b1 b3.
Proof.
  intros [A1 P1 C1 S1] [A2 P2 C2 S2]. split; [done|congruence|by intros i Hi; rewrite C2, C1|].
  intros p k Hp Hs. apply (S2 p k); [by rewrite P1|]. by apply (S1 p k).
Qed.

Lemma same_on_sub X Y b b' : X ⊆ Y -> same_on Y b b' -> same_on X b b'.
Proof.
  intros Hx [A1 P1 C1 S1]. assert (forall P : gmap ptr pin, theirs X P = theirs X (theirs Y P)) as Ht.
  { intros P. apply map_eq. intros p. apply option_eq. intros k. rewrite !theirs_lookup. set_solver. }
  split; [set_solver|by rewrite Ht, P1, <- Ht|by intros i Hi; apply C1, Hx|].
  intros p k [Hp Hk]%theirs_lookup Hs. apply (S1 p k); [|done]. apply theirs_lookup. split; [done|by apply Hx].
Qed.

Lemma frame_at_same Y n b b' : frame_in (frame_at Y n b) b' -> same_on Y b b' /\ room b' n.
Proof. intros [F1 F2 F3 F4 F5]. by split. Qed.

(** The view of the client of the blocks [X]. *)
Definition det_on (X : gset Z) (b : B) : gmap ptr (Z * list Z) := detached_of (theirs X (pins b)).

(** What there are references to is saved. *)
Definition saved_on (X : gset Z) (b : B) : Prop :=
  forall p k, pins b !! p = Some k -> pin_id k ∈ X -> pin_detached k = false -> saved b p.

(** The blocks are those of the client and those of the others. *)
Definition divided (X Y : gset Z) (b : B) : Prop := allocated b = X ∪ Y /\ X ## Y.

Lemma divided_ours X Y b : wf b -> divided X Y b -> ours Y (pins b) = theirs X (pins b).
Proof.
  intros Hw [Ha Hd]. apply map_eq. intros p. apply option_eq. intros k. rewrite ours_lookup, theirs_lookup.
  split; intros [Hp Hk]; (split; [done|]); destruct (pins_ok b p k Hw Hp) as (_ & Hi & _); set_solver.
Qed.

Lemma divided_rest X Y b : divided X Y b -> allocated b ∖ Y = X.
Proof. intros [Ha Hd]. apply set_eq. intros i. set_solver. Qed.

Lemma divided_same Y b b' : same_on Y b b' -> divided (allocated b' ∖ Y) Y b'.
Proof. intros [Hs _ _ _]. split; [|set_solver]. apply set_eq. intros i. rewrite elem_of_union, elem_of_difference. destruct (decide (i ∈ Y)); set_solver. Qed.

End view.
Arguments frame_at {B H H0} Y n b.

Section frame.
Context {B : Type} `{BlockStoreLaws B} (J : B -> Prop) `{!Stable J}.

Definition fwf (F : frame) (b : B) : Prop := wf b /\ J b /\ frame_in F b.
Lemma room_frame F b n : frame_in F b -> froom F b n -> room b (fr_room F).
Proof. intros _. apply room_less. lia. Qed.

Lemma frame_get F b i : fwf F b -> i ∈ fallocated F b -> (forall q k, fpins F b !! q = Some k -> pin_id k = i -> pin_detached k = false) ->
  exists b' r, get_block b i = Ok (b', r) /\ fwf F b' /\
    (forall j, contents b' j = contents b j) /\ fallocated F b' = fallocated F b /\
    (forall q, saved b q -> saved b' q) /\ (forall n, froom F b n -> froom F b' n) /\
    match r with
    | None => fpins F b' = fpins F b
    | Some p => exists c, fpins F b' = <[p := mkPin i (contents b i) (S c) false]> (fpins F b) /\
        (fpins F b !! p = None -> c = O /\ saved b' p) /\ (forall k, fpins F b !! p = Some k -> k = mkPin i (contents b i) c false)
    end.
Proof.
  intros (Hw & HJ & HF) [Hi Hni]%fallocated_in Hdet.
  destruct (get_law b i Hw Hi) as (b' & r & E & Hw' & Hc & Ha & Hs & Hr & Hp).
  { intros q k Hq Hk. apply (Hdet q k); [|done]. apply ours_lookup. split; [done|congruence]. }
  exists b', r. split; [done|]. pose proof (stable_get _ _ _ _ HJ Hw E) as HJ'.
  assert (theirs (fr_ids F) (pins b') = theirs (fr_ids F) (pins b)) as Ht.
  { destruct r as [p|]; [|by rewrite Hp]. destruct Hp as (c & -> & _ & Hold). apply theirs_insert; [done|]. intros l Hl. by rewrite (Hold l Hl). }
  split; [split; [done|]; split; [done|]; apply (frame_step F b); auto; [rewrite Ha; apply HF|apply Hr, HF]|].
  split; [done|]. split; [unfold fallocated; by rewrite Ha|]. split; [done|]. split; [unfold froom; auto|].
  destruct r as [p|]; [|unfold fpins; by rewrite Hp]. destruct Hp as (c & Hp & Hnew & Hold). exists c.
  split; [unfold fpins; rewrite Hp; by apply ours_insert|]. split; [|by intros k [Hk _]%ours_lookup; apply Hold].
  intros [Hn|(k & Hk & Hkx)]%ours_none; [by apply Hnew|]. by rewrite (Hold k Hk) in Hkx.
Qed.

Lemma frame_new F b n : fwf F b -> froom F b (S n) ->
  exists b' r, new_block b = Ok (b', r) /\ fwf F b' /\ (forall q, saved b q -> saved b' q) /\ froom F b' n /\
    match r with
    | None => fpins F b' = fpins F b /\ (forall j, contents b' j = contents b j) /\ fallocated F b' = fallocated F b /\ froom F b' (S n)
    | Some p => exists i, ~ i ∈ fallocated F b /\ fpins F b !! p = None /\
        fpins F b' = <[p := mkPin i zero_block 1 false]> (fpins F b) /\
        (forall j, j ∈ fallocated F b -> contents b' j = contents b j) /\ contents b' i = zero_block /\
        fallocated F b' = {[i]} ∪ fallocated F b /\ saved b' p
    end.
Proof.
  intros (Hw & HJ & HF) Hr. unfold froom in *. rewrite Nat.add_succ_r in *.
  destruct (new_law b (fr_room F + n) Hw Hr) as (b' & r & E & Hw' & Hs & Hr' & Hp). pose proof (stable_new _ _ _ HJ Hw E) as HJ'.
  exists b', r. split; [done|]. assert (room b' (fr_room F)) as Hroom by (apply (room_less b' (fr_room F + n)); [lia|done]).
  destruct r as [p|].
  - destruct Hp as (i & Hi & Hn & Ep & Hc & Hz & Ha & Hsp). assert (~ i ∈ fr_ids F) as Hif by (intros ?; by apply Hi, HF).
    split; [split; [done|]; split; [done|]; apply (frame_step F b); auto; [rewrite Ha; pose proof (in_ids _ _ HF); set_solver| |]|].
    { rewrite Ep. apply theirs_insert; [done|]. intros l Hl. congruence. }
    { intros j Hj. by apply Hc, HF. }
    do 2 (split; [done|]). exists i. split; [unfold fallocated; set_solver|]. split.
    { destruct (fpins F b !! p) as [k|] eqn:Ek; [|done]. apply ours_lookup in Ek as [Ek _]. congruence. }
    split; [unfold fpins; rewrite Ep; by apply ours_insert|]. split; [intros j [Hj _]%fallocated_in; by apply Hc|].
    split; [done|]. split; [unfold fallocated; rewrite Ha; set_solver|done].
  - destruct Hp as (Ep & Hc & Ha & Hr2).
    split; [split; [done|]; split; [done|]; apply (frame_step F b); auto; [rewrite Ha; apply HF|by rewrite Ep]|].
    do 2 (split; [done|]). split; [unfold fpins; by rewrite Ep|]. split; [done|]. split; [unfold fallocated; by rewrite Ha|done].
Qed.

(** Operations on a block that there is a reference to. *)
Lemma frame_pin F b p k : fpins F b !! p = Some k -> pins b !! p = Some k /\ ~ pin_id k ∈ fr_ids F.
Proof. by intros ?%ours_lookup. Qed.

Lemma frame_op F b b' p k l : frame_in F b -> fpins F b !! p = Some k -> pins b' = <[p := l]> (pins b) -> pin_id l = pin_id k ->
  fpins F b' = <[p := l]> (fpins F b) /\ theirs (fr_ids F) (pins b') = theirs (fr_ids F) (pins b).
Proof.
  intros HF [Hp Hk]%frame_pin Ep Hl. split; [unfold fpins; rewrite Ep; apply ours_insert; congruence|].
  rewrite Ep. apply theirs_insert; [congruence|]. intros l' Hl'. congruence.
Qed.

Lemma frame_detach F b p k : fwf F b -> fpins F b !! p = Some k -> pin_detached k = false ->
  exists b', detach_block b p = Ok b' /\ fwf F b' /\
    fpins F b' = <[p := mkPin (pin_id k) (pin_data k) (pin_count k) true]> (fpins F b) /\
    (forall j, j <> pin_id k -> contents b' j = contents b j) /\ fallocated F b' = fallocated F b /\
    (forall q, saved b q -> saved b' q) /\ (forall n, froom F b n -> froom F b' n).
Proof.
  intros (Hw & HJ & HF) Hp Hd. pose proof (frame_pin F b p k Hp) as [Hp' Hk].
  destruct (detach_law b p k Hw Hp' Hd) as (b' & E & Hw' & Ep & Hc & Ha & Hs & Hr). destruct (frame_op F b b' p k _ HF Hp Ep eq_refl) as [Ep' Et].
  exists b'. split; [done|]. split; [split; [done|]; split; [by apply (stable_detach b b' p)|]|].
  { apply (frame_step F b); auto; [rewrite Ha; apply HF|by intros i Hi; apply Hc; intros ->|apply Hr, HF]. }
  split; [done|]. split; [done|]. split; [unfold fallocated; by rewrite Ha|]. split; [done|]. intros n. apply Hr.
Qed.

Lemma frame_touch F b p k : fwf F b -> fpins F b !! p = Some k ->
  exists b', touch_block b p = Ok b' /\ fwf F b' /\ fpins F b' = fpins F b /\
    (forall j, contents b' j = contents b j) /\ fallocated F b' = fallocated F b /\
    saved b' p /\ (forall q, saved b q -> saved b' q) /\ (forall n, froom F b n -> froom F b' n).
Proof.
  intros (Hw & HJ & HF) Hp. pose proof (frame_pin F b p k Hp) as [Hp' Hk].
  destruct (touch_law b p k Hw Hp') as (b' & E & Hw' & Ep & Hc & Ha & Hsp & Hs & Hr).
  exists b'. split; [done|]. split; [split; [done|]; split; [by apply (stable_touch b b' p)|]|].
  { apply (frame_step F b); auto; [rewrite Ha; apply HF|by rewrite Ep|apply Hr, HF]. }
  split; [unfold fpins; by rewrite Ep|]. split; [done|]. split; [unfold fallocated; by rewrite Ha|]. do 2 (split; [done|]). intros n. apply Hr.
Qed.

Lemma frame_unref F b p k : fwf F b -> fpins F b !! p = Some k -> saved b p ->
  exists b', unref_block b p = Ok b' /\ fwf F b' /\
    fpins F b' = match pin_count k with
                 | S (S c) => <[p := mkPin (pin_id k) (pin_data k) (S c) (pin_detached k)]> (fpins F b)
                 | _ => delete p (fpins F b)
                 end /\
    (forall j, contents b' j = contents b j) /\ fallocated F b' = fallocated F b /\
    (forall q, q <> p -> saved b q -> saved b' q) /\
    ((1 < pin_count k)%nat -> saved b' p) /\ (forall n, froom F b n -> froom F b' n).
Proof.
  intros (Hw & HJ & HF) Hp Hsp. pose proof (frame_pin F b p k Hp) as [Hp' Hk].
  destruct (unref_law b p k Hw Hp' Hsp) as (b' & E & Hw' & Ep & Hc & Ha & Hs & Hs1 & Hr).
  assert (fpins F b' = match pin_count k with S (S c) => <[p := mkPin (pin_id k) (pin_data k) (S c) (pin_detached k)]> (fpins F b) | _ => delete p (fpins F b) end /\
    theirs (fr_ids F) (pins b') = theirs (fr_ids F) (pins b)) as [Ef Et].
  { assert (forall l, pins b !! p = Some l -> ~ pin_id l ∈ fr_ids F) as Hl by (intros l Hl; congruence).
    destruct (pin_count k) as [|[|c]] eqn:Ec.
    - split; [unfold fpins; rewrite Ep; apply ours_delete|rewrite Ep; by apply theirs_delete].
    - split; [unfold fpins; rewrite Ep; apply ours_delete|rewrite Ep; by apply theirs_delete].
    - by apply (frame_op F b b' p k _ HF Hp). }
  exists b'. split; [done|]. split; [split; [done|]; split; [by apply (stable_unref b b' p k)|]|].
  { apply (frame_step F b); auto; [rewrite Ha; apply HF| |apply Hr, HF]. intros q l Hq. apply Hs. apply (fpins_others F b p k); [done|by exists l|done]. }
  split; [done|]. split; [done|]. split; [unfold fallocated; by rewrite Ha|]. split; [done|]. split; [done|]. intros n. apply Hr.
Qed.

Lemma frame_write F b p k d : fwf F b -> fpins F b !! p = Some k -> length d = block_words ->
  exists b', write_data b p d = Ok b' /\ fwf F b' /\
    fpins F b' = <[p := mkPin (pin_id k) d (pin_count k) (pin_detached k)]> (fpins F b) /\
    (forall j, contents b' j = if pin_detached k then contents b j else change (contents b) (pin_id k) d j) /\
    fallocated F b' = fallocated F b /\
    (forall q, q <> p -> saved b q -> saved b' q) /\ (forall n, froom F b n -> froom F b' n).
Proof.
  intros (Hw & HJ & HF) Hp Hd. pose proof (frame_pin F b p k Hp) as [Hp' Hk].
  destruct (write_law b p k d Hw Hp' Hd) as (b' & E & Hw' & Ep & Hc & Ha & Hs & Hr). destruct (frame_op F b b' p k _ HF Hp Ep eq_refl) as [Ep' Et].
  exists b'. split; [done|]. split; [split; [done|]; split; [by apply (stable_write b b' p k d)|]|].
  { apply (frame_step F b); auto; [rewrite Ha; apply HF| | |apply Hr, HF].
    - intros i Hi. rewrite Hc. destruct (pin_detached k); [done|]. unfold change. destruct (Z.eqb_spec i (pin_id k)) as [->|]; done.
    - intros q l Hq. apply Hs. apply (fpins_others F b p k); [done|by exists l|done]. }
  split; [done|]. split; [done|]. split; [unfold fallocated; by rewrite Ha|]. split; [done|]. intros n. apply Hr.
Qed.

Lemma frame_sync_block F b p k : fwf F b -> fpins F b !! p = Some k -> saved b p ->
  exists b' ret, sync_block b p = Ok (b', ret) /\ fwf F b' /\ fpins F b' = fpins F b /\
    (forall j, j <> pin_id k -> contents b' j = contents b j) /\
    (ret = 0 \/ ret = -1) /\
    (ret = 0 \/ contents b (pin_id k) = pin_data k -> contents b' (pin_id k) = pin_data k) /\ fallocated F b' = fallocated F b /\
    (forall q, saved b q -> saved b' q) /\ (forall n, froom F b n -> froom F b' n).
Proof.
  intros (Hw & HJ & HF) Hp Hsp. pose proof (frame_pin F b p k Hp) as [Hp' Hk].
  destruct (sync_block_law b p k Hw Hp' Hsp) as (b' & ret & E & Hw' & Ep & Hc & Hret & Hr0 & Ha & Hs & Hr).
  exists b', ret. split; [done|]. split; [split; [done|]; split; [by apply (stable_sync_block b b' p ret)|]|].
  { apply (frame_step F b); auto; [rewrite Ha; apply HF|by rewrite Ep|by intros i Hi; apply Hc; intros ->|apply Hr, HF]. }
  split; [unfold fpins; by rewrite Ep|]. do 3 (split; [done|]). split; [unfold fallocated; by rewrite Ha|]. split; [done|]. intros n. apply Hr.
Qed.

Lemma frame_sync F b : fwf F b ->
  exists b' ret, sync b = Ok (b', ret) /\ fwf F b' /\ fpins F b' = fpins F b /\
    (forall j, contents b' j = contents b j) /\ fallocated F b' = fallocated F b /\
    (forall q, saved b q -> saved b' q) /\ (forall n, froom F b n -> froom F b' n).
Proof.
  intros (Hw & HJ & HF). destruct (sync_law b Hw) as (b' & ret & E & Hw' & Ep & Hc & Ha & Hs & Hr).
  exists b', ret. split; [done|]. split; [split; [done|]; split; [by apply (stable_sync b b' ret)|]|].
  { apply (frame_step F b); auto; [rewrite Ha; apply HF|by rewrite Ep|apply Hr, HF]. }
  split; [unfold fpins; by rewrite Ep|]. split; [done|]. split; [unfold fallocated; by rewrite Ha|]. split; [done|]. intros n. apply Hr.
Qed.

(** The laws. *)
Definition framed (F : frame) : BlockStoreLaws B.
Proof using J Stable0.
  refine {|
    wf := fwf F; pins := fpins F; contents := contents; allocated := fallocated F; saved := saved; room := froom F;
    get_law := frame_get F; new_law := frame_new F; detach_law := frame_detach F; touch_law := frame_touch F;
    unref_law := frame_unref F; write_law := frame_write F; sync_block_law := frame_sync_block F; sync_law := frame_sync F;
  |}.
  - intros b p k (Hw & _) [Hp Hk]%frame_pin. destruct (pins_ok b p k Hw Hp) as (H1 & H2 & H3 & H4).
    split; [done|]. split; [unfold fallocated; set_solver|done].
  - intros b p q k l (Hw & _) [Hp _]%frame_pin [Hq _]%frame_pin. by apply (pins_inj b p q k l Hw).
  - intros b i (Hw & _). exact (contents_length b i Hw).
  - intros b i (Hw & _) [Hi _]%fallocated_in. exact (allocated_ok b i Hw Hi).
  - intros b n m Hnm. apply room_less. lia.
  - intros b p k (Hw & _) [Hp _]%frame_pin. exact (id_law b p k Hw Hp).
  - intros b p k (Hw & _) [Hp _]%frame_pin. exact (data_law b p k Hw Hp).
  - intros b (Hw & _). exact (get_zero_law b Hw).
Defined.

(** A store in which [J] holds and is kept does not fail. *)
Lemma no_failure {R : Reliable J} F : ~ @refused B _ (framed F).
Proof.
  intros (b & b' & (Hw & HJ & HF) & [(i & Hi & E)|(n & Hr & E)]).
  - apply fallocated_in in Hi as [Hi _]. by apply (reliable_get b b' i None HJ Hw Hi).
  - change (room b (fr_room F + S n)) in Hr. rewrite Nat.add_succ_r in Hr. by apply (reliable_new b b' (fr_room F + n) None HJ Hw Hr).
Qed.

(** The invariant of the store of a client, in terms of the whole store. *)
Lemma enter_frame X Y n b : wf b -> J b -> room b n -> divided X Y b -> @wf B _ (framed (frame_at Y n b)) b /\
  @det B _ (framed (frame_at Y n b)) b = det_on X b /\ @allocated B _ (framed (frame_at Y n b)) b = X /\
  (saved_on X b -> @all_saved B _ (framed (frame_at Y n b)) b).
Proof.
  intros Hw HJ Hr Hd. pose proof Hd as [Ha _]. assert (frame_in (frame_at Y n b) b) as HF by (apply frame_at_in; [set_solver|done]).
  split; [done|]. split; [unfold det, det_on; cbn; unfold fpins; cbn; by rewrite (divided_ours X)|].
  split; [by apply divided_rest|]. intros Hs q j c Hq. unfold held in Hq. cbn in Hq. unfold fpins in Hq. cbn in Hq.
  rewrite (divided_ours X) in Hq by done. apply theirs_lookup in Hq as [Hq Hj]. by apply (Hs q _ Hq Hj).
Qed.

Lemma leave_frame Y n b b' : @wf B _ (framed (frame_at Y n b)) b' -> wf b' /\ J b' /\ room b' n /\ same_on Y b b' /\
  @det B _ (framed (frame_at Y n b)) b' = det_on (allocated b' ∖ Y) b' /\
  @allocated B _ (framed (frame_at Y n b)) b' = allocated b' ∖ Y /\
  (@all_saved B _ (framed (frame_at Y n b)) b' -> saved_on (allocated b' ∖ Y) b').
Proof.
  intros (Hw & HJ & HF). destruct (frame_at_same Y n b b' HF) as [Hs Hr]. do 4 (split; [done|]).
  pose proof (divided_same Y b b' Hs) as Hd. assert (ours Y (pins b') = theirs (allocated b' ∖ Y) (pins b')) as Ho by by apply divided_ours.
  split; [unfold det, det_on; cbn; unfold fpins; cbn; by rewrite Ho|]. split; [done|].
  intros Ha p k Hp Hk Hdet. apply (Ha p (pin_id k) (pin_count k)). unfold held. cbn. unfold fpins. cbn. rewrite Ho.
  apply theirs_lookup. destruct (pins_ok b' p k Hw Hp) as (_ & _ & _ & Hc). rewrite (Hc Hdet), <- Hdet. split; [by destruct k|done].
Qed.
End frame.
Arguments framed {B H H0} J {Stable0} F.
