(* ===== verification/TableFrame.v ===== *)
(** * Tables that share a file

    Key tables and partition tables as clients of the same store of blocks: each has blocks of its
    own ([client], [lot]), and an operation on one of them leaves the blocks of the others as they are
    ([goes_to]).  The theorems about tables alone are used in the store without the blocks of the others;
    there is no other proof of this.  Nothing fails here ([Reliable]). *)

From stdpp Require Import gmap.
From S2P Require Import Prelude BlockStore BlockStoreSpec BlockFrame.
From S2P Require Import PartitionTable PartitionDataSpec PartitionTableSpec PartitionAddSpec PartitionOpenSpec.
From S2P Require Import KeyTable KeyDataSpec KeyTableSpec KeyTableAddSpec KeyTableNextSpec.
#[local] Open Scope Z_scope.
#[local] Open Scope list_scope.

(** ** Clients *)

(** What a client knows about the blocks it has taken out of the cache, the contents of its blocks and their ids;
    and its pointers to blocks that must not be lost. *)
Record client := mkClient {
  cl_inv : gmap ptr (Z * list Z) -> (Z -> list Z) -> gset Z -> Prop;
  cl_ptrs : list ptr;
  cl_local : forall D C C' A, (forall i, i ∈ A -> C' i = C i) -> cl_inv D C A -> cl_inv D C' A;
  cl_owned : forall D C A p, cl_inv D C A -> p ∈ cl_ptrs -> exists x, D !! p = Some x;
}.

Program Definition keys_client (ki : CamelKeyTable) (l : list (Z * entry)) : client :=
  mkClient (fun D C A => exists js, key_table D C A ki js /\ l = key_list C js) [ki_root_block ki] _ _.
Next Obligation.
  intros ki l D C C' A Hc (js & Hok & ->). assert (forall i, i ∈ js -> C' i = C i) as Hc'.
  { intros i Hi. apply Hc. pose proof (kt_blocks _ _ _ _ _ Hok) as Hb. rewrite Forall_forall in Hb. by apply Hb. }
  exists js. split; [by apply (key_table_same D C C' A A)|]. symmetry. by apply key_list_ext.
Qed.
Next Obligation.
  intros ki l D C A p (js & Hok & _) ->%list_elem_of_singleton. destruct (kt_root _ _ _ _ _ Hok) as (rd & E & _). by eexists.
Qed.

Program Definition map_client (t : CamelPartitionTable) (m : gmap Z Z) : client :=
  mkClient (fun D C A => table_ok D C A t m) (partition t) _ _.
Next Obligation. intros t m D C C' A Hc Hok. by apply (table_ok_same D C C' A A). Qed.
Next Obligation.
  intros t m D C A p Hok Hp. pose proof (t_maps _ _ _ _ _ Hok) as Hm. rewrite Forall_forall in Hm. destruct (Hm p Hp) as (i & d & E & _). by eexists.
Qed.

Section tables.
Context {B : Type} `{BlockStoreLaws B} (J : B -> Prop) {R : Reliable J}.
Implicit Types (b : B) (c : client) (X Y : gset Z) (n : nat).

(** The client has the blocks [X]. *)
Record lot c X b : Prop := {
  sl_inv : cl_inv c (det_on X b) (contents b) X;
  sl_saved : saved_on X b;
  sl_ptrs : Forall (saved b) (cl_ptrs c);
}.

Lemma lot_same c X Y b b' : lot c X b -> X ⊆ Y -> same_on Y b b' -> lot c X b'.
Proof.
  intros [Hi Hs Hp] Hxy HY. pose proof (same_on_sub X Y b b' Hxy HY) as [A1 P1 C1 S1].
  assert (det_on X b' = det_on X b) as Ed by (unfold det_on; by rewrite P1). split.
  - rewrite Ed. by apply (cl_local c _ (contents b)).
  - intros p k Hpk Hk Hd. assert (theirs X (pins b) !! p = Some k) as Ht by (rewrite <- P1; by apply theirs_lookup).
    apply (S1 p k Ht), (Hs p k); [by apply theirs_lookup in Ht as [? _]|done|done].
  - rewrite Forall_forall in *. intros p Hpp. destruct (cl_owned c _ _ _ p Hi Hpp) as [x Ex].
    apply detached_lookup in Ex as (k & Ek & _). apply (S1 p k Ek). by apply Hp.
Qed.

(** The state before an operation of a client, and after it: the others' blocks [Y] stay. *)
Record ready n X Y b c : Prop := {
  rd_wf : wf b;
  rd_ok : J b;
  rd_room : room b n;
  rd_divided : divided X Y b;
  rd_lot : lot c X b;
}.

Definition goes_to n Y b b' c : Prop := exists X, ready n X Y b' c /\ same_on Y b b'.

Lemma ready_less n m X Y b c : (m <= n)%nat -> ready n X Y b c -> ready m X Y b c.
Proof. intros Hm [R1 R2 R3 R4 R5]. split; try done. by apply (room_less b n). Qed.

(** ** Key tables *)

Lemma enter_keys n X Y b ki l : ready n X Y b (keys_client ki l) ->
  @key_table_in B _ (framed J (frame_at Y n b)) b ki l /\ saved b (ki_root_block ki).
Proof.
  intros [Hw HJ Hr Hd [Hi Hs Hp]]. destruct (enter_frame J X Y n b Hw HJ Hr Hd) as (Hw' & Ed & Ea & Hs'). split.
  - split; [done|by apply Hs'|]. by rewrite Ed, Ea.
  - exact (Forall_inv Hp).
Qed.

Lemma leave_keys n Y b b' ki l : @key_table_in B _ (framed J (frame_at Y n b)) b' ki l -> saved b' (ki_root_block ki) ->
  goes_to n Y b b' (keys_client ki l).
Proof.
  intros [Hw Hs Hok] Hsv. destruct (leave_frame J Y n b b' Hw) as (Hw' & HJ & Hr & HY & Ed & Ea & Hs').
  exists (allocated b' ∖ Y). split; [|done]. split; try done; [by apply (divided_same Y b)|]. split; [by rewrite <- Ed, <- Ea|by apply Hs'|by apply Forall_singleton].
Qed.

Lemma keys_lookup n X Y b ki l keyid e want : ready n X Y b (keys_client ki l) -> (keyid, e) ∈ l ->
  exists b', camel_key_table_lookup b ki keyid want = Ok (b', found_of e want) /\ goes_to n Y b b' (keys_client ki l).
Proof.
  intros Hrd Hl. destruct (enter_keys _ _ _ _ _ _ Hrd) as [Hin Hsv].
  destruct (@lookup_key_ok B _ (framed J (frame_at Y n b)) b ki l keyid e want Hin Hl) as (b' & f & b1 & r & E & Hin' & Hd & Ha & Eg & Ef).
  exists b'. split; [|apply leave_keys; [done|by apply Hd]]. rewrite E, Ef. destruct r; [done|]. exfalso.
  apply (fallocated_in (frame_at Y n b)) in Ha as [Ha _]. by apply (reliable_get b b1 _ None (rd_ok _ _ _ _ _ Hrd) (rd_wf _ _ _ _ _ Hrd) Ha).
Qed.

Lemma keys_set_data n X Y b ki l keyid e x : ready n X Y b (keys_client ki l) -> (keyid, e) ∈ l ->
  exists b', camel_key_table_set_data b ki keyid x = Ok b' /\ goes_to n Y b b' (keys_client ki (set_entry keyid (e.1, x) l)).
Proof.
  intros Hrd Hl. destruct (enter_keys _ _ _ _ _ _ Hrd) as [Hin Hsv].
  destruct (@set_data_ok B _ (framed J (frame_at Y n b)) b ki l keyid e x Hin Hl) as (b' & b1 & r & E & Hd & Ha & Eg & Hin').
  exists b'. split; [done|]. destruct r; [apply leave_keys; [done|by apply Hd]|]. exfalso.
  apply (fallocated_in (frame_at Y n b)) in Ha as [Ha _]. by apply (reliable_get b b1 _ None (rd_ok _ _ _ _ _ Hrd) (rd_wf _ _ _ _ _ Hrd) Ha).
Qed.

Lemma keys_set_flags n X Y b ki l keyid e flags set : ready n X Y b (keys_client ki l) -> (keyid, e) ∈ l ->
  exists b', camel_key_table_set_flags b ki keyid flags set = Ok b' /\ goes_to n Y b b' (keys_client ki
    (set_entry keyid (e.1.1, Z.land (Z.lor (Z.ldiff e.1.2 set) (Z.land flags set)) (Z.ones 22), e.2) l)).
Proof.
  intros Hrd Hl. destruct (enter_keys _ _ _ _ _ _ Hrd) as [Hin Hsv].
  destruct (@set_flags_ok B _ (framed J (frame_at Y n b)) b ki l keyid e flags set Hin Hl) as (b' & b1 & r & E & Hd & Ha & Eg & Hin').
  exists b'. split; [done|]. destruct r; [apply leave_keys; [done|by apply Hd]|]. exfalso.
  apply (fallocated_in (frame_at Y n b)) in Ha as [Ha _]. by apply (reliable_get b b1 _ None (rd_ok _ _ _ _ _ Hrd) (rd_wf _ _ _ _ _ Hrd) Ha).
Qed.

Lemma keys_add n X Y b ki l (key : list Z) (data flags : Z) : ready (S n) X Y b (keys_client ki l) -> key <> [] -> Forall (fun x => 0 <= x < 256) key ->
  exists b' keyid, camel_key_table_add b ki key data flags = Ok (b', ki, keyid) /\ 0 < keyid < 2 ^ 32 /\ (forall e, ~ (keyid, e) ∈ l) /\
    goes_to n Y b b' (keys_client ki (l ++ [(keyid, (take 128 key, Z.land flags (Z.ones 22), data))])).
Proof.
  intros Hrd Hne Hk. assert (ready n X Y b (keys_client ki l)) as Hrd' by (apply (ready_less (S n)); [lia|done]).
  destruct (enter_keys _ _ _ _ _ _ Hrd') as [Hin Hsv].
  destruct (@add_key_ok B _ (framed J (frame_at Y n b)) b ki l key data flags Hin) as (b' & keyid & E & Hd & Hres); [|done|done|].
  { change (room b (n + 1)). rewrite Nat.add_comm. apply (rd_room _ _ _ _ _ Hrd). }
  exists b', keyid. split; [done|]. destruct Hres as [(_ & _ & Hx)|(Hid & Hnew & Hin')].
  - by destruct (no_failure J (frame_at Y n b)).
  - do 2 (split; [done|]). apply leave_keys; [done|by apply Hd].
Qed.

(** ** Partition tables *)

Lemma enter_map n X Y b t m : ready n X Y b (map_client t m) ->
  @table_in B _ (framed J (frame_at Y n b)) b t m /\ Forall (saved b) (partition t).
Proof.
  intros [Hw HJ Hr Hd [Hi Hs Hp]]. destruct (enter_frame J X Y n b Hw HJ Hr Hd) as (Hw' & Ed & Ea & Hs'). split; [|done].
  split; [done|by apply Hs'|]. by rewrite Ed, Ea.
Qed.

Lemma leave_map n Y b b' t m : @table_in B _ (framed J (frame_at Y n b)) b' t m -> Forall (saved b') (partition t) ->
  goes_to n Y b b' (map_client t m).
Proof.
  intros [Hw Hs Hok] Hsv. destruct (leave_frame J Y n b b' Hw) as (Hw' & HJ & Hr & HY & Ed & Ea & Hs').
  exists (allocated b' ∖ Y). split; [|done]. split; try done; [by apply (divided_same Y b)|]. split; [by rewrite <- Ed, <- Ea|by apply Hs'|done].
Qed.

Lemma map_lookup n X Y b t m key : ready n X Y b (map_client t m) ->
  exists b', camel_partition_table_lookup b t key = Ok (b', default 0 (m !! hash_key key)) /\ goes_to n Y b b' (map_client t m).
Proof.
  intros Hrd. destruct (enter_map _ _ _ _ _ _ Hrd) as [Hin Hsv].
  destruct (@lookup_ok B _ (framed J (frame_at Y n b)) b t m key Hin) as (b' & k & i & r & b1 & E & Hin' & Hd & Ha & Eg & ->).
  exists b'. split; [|apply leave_map; [done|by apply Hd]]. rewrite E. destruct r; [done|]. exfalso.
  apply (fallocated_in (frame_at Y n b)) in Ha as [Ha _]. by apply (reliable_get b b1 _ None (rd_ok _ _ _ _ _ Hrd) (rd_wf _ _ _ _ _ Hrd) Ha).
Qed.

Lemma map_remove n X Y b t m key : ready n X Y b (map_client t m) ->
  exists b', camel_partition_table_remove b t key = Ok b' /\ goes_to n Y b b' (map_client t (delete (hash_key key) m)).
Proof.
  intros Hrd. destruct (enter_map _ _ _ _ _ _ Hrd) as [Hin Hsv].
  destruct (@remove_ok B _ (framed J (frame_at Y n b)) b t m key Hin) as (b' & i & r & b1 & E & Ha & Eg & Hin' & Hd).
  exists b'. split; [done|]. destruct r; [apply leave_map; [done|by apply Hd]|]. exfalso.
  apply (fallocated_in (frame_at Y n b)) in Ha as [Ha _]. by apply (reliable_get b b1 _ None (rd_ok _ _ _ _ _ Hrd) (rd_wf _ _ _ _ _ Hrd) Ha).
Qed.

(** The case in which a table is damaged, for the blocks [X]. *)
Definition middle_on X b t (h : Z) : Prop :=
  exists p i d l1 l2 es1 es2 e, partition t = l1 ++ p :: l2 /\ det_on X b !! p = Some (i, d) /\ parts_of d = es1 ++ e :: es2 /\
    upto (-1) (entries (det_on X b) l1 ++ es1) < h <= e.1 /\ length (parts_of d) = 127%nat /\ length es1 = 63%nat.

Lemma middle_whole X b t m h : lot (map_client t m) X b -> middle_on X b t h -> middle b t h.
Proof.
  intros Hl (p & i & d & l1 & l2 & es1 & es2 & e & Ept & Hp & Ed & Hr & Hlen). exists p, i, d, l1, l2, es1, es2, e. split; [|done].
  assert (forall q, q ∈ partition t -> det b !! q = det_on X b !! q) as Hq.
  { intros q Hq. destruct (cl_owned (map_client t m) _ _ _ q (sl_inv _ _ _ Hl) Hq) as [x Ex]. rewrite Ex.
    apply detached_lookup in Ex as (k & [Hk _]%theirs_lookup & Hd & ->). apply detached_lookup. by exists k. }
  split; [done| |done|].
  - unfold own. rewrite Hq; [done|]. rewrite Ept. apply elem_of_app. right. apply list_elem_of_here.
  - rewrite (entries_ext (det_on X b)); [done|]. intros q Hl1. apply Hq. rewrite Ept. apply elem_of_app. by left.
Qed.

Lemma map_add n X Y b t m key (k : Z) : ready (2 + n) X Y b (map_client t m) -> m !! hash_key key = None -> ~ middle b t (hash_key key) ->
  forall (Q : QSort) (QL : QSortLaws Q),
  exists b' t', camel_partition_table_add b t key k = Ok (b', t', 0) /\ rootid t' = rootid t /\
    goes_to n Y b b' (map_client t' (<[hash_key key := k]> m)).
Proof.
  intros Hrd Hnew Hmid Q QL. assert (ready n X Y b (map_client t m)) as Hrd' by (apply (ready_less (2 + n)); [lia|done]).
  destruct (enter_map _ _ _ _ _ _ Hrd') as [Hin Hsv].
  destruct (@add_ok B _ (framed J (frame_at Y n b)) Q QL b t m key k Hin Hnew) as (b' & t' & ret & E & Ert & Hres).
  - destruct (enter_frame J X Y n b (rd_wf _ _ _ _ _ Hrd) (rd_ok _ _ _ _ _ Hrd) (rd_room _ _ _ _ _ Hrd') (rd_divided _ _ _ _ _ Hrd)) as (_ & Ed & _).
    intros (p & i & d & l1 & l2 & es1 & es2 & e & [L1 L2 L3 L4] & Hl). unfold own in L2. rewrite Ed in L2, L4.
    apply Hmid, (middle_whole X b t m); [apply (rd_lot _ _ _ _ _ Hrd)|].
    by exists p, i, d, l1, l2, es1, es2, e.
  - change (room b (n + 2)). rewrite Nat.add_comm. apply (rd_room _ _ _ _ _ Hrd).
  - exists b', t'. destruct Hres as [(-> & Hin' & Hd)|(_ & _ & Hx)]; [|by destruct (no_failure J (frame_at Y n b))].
    do 2 (split; [done|]). apply leave_map; [done|by apply Hd].
Qed.

(** ** Syncing *)

Lemma keys_sync n X Y b ki l : ready n X Y b (keys_client ki l) ->
  exists b' ret, camel_key_table_sync b ki = Ok (b', ret) /\ (ret = 0 \/ ret = -1) /\ goes_to n Y b b' (keys_client ki l).
Proof.
  intros Hrd. destruct (enter_keys _ _ _ _ _ _ Hrd) as [Hin Hsv].
  destruct (@sync_keys B _ (framed J (frame_at Y n b)) b ki l Hin Hsv) as (b' & ret & E & Hin' & Hd & Hret & _).
  exists b', ret. do 2 (split; [done|]). by apply leave_keys.
Qed.

Lemma map_sync n X Y b t m : ready n X Y b (map_client t m) ->
  exists b' ret, camel_partition_table_sync b t = Ok (b', ret) /\ (ret = 0 \/ ret = -1) /\ goes_to n Y b b' (map_client t m).
Proof.
  intros Hrd. destruct (enter_map _ _ _ _ _ _ Hrd) as [Hin Hsv].
  destruct (@sync_table B _ (framed J (frame_at Y n b)) b t m Hin Hsv) as (b' & ret & E & Hin' & Hd & Hret & _).
  exists b', ret. do 2 (split; [done|]). by apply leave_map.
Qed.

(** ** Going through a key table *)

#[export] Instance framed_healthy Y n b : @Healthy B _ (framed J (frame_at Y n b)) J.
Proof.
  split.
  - intros b1 b2 i r HJ (Hw & _) Hi E. apply (fallocated_in (frame_at Y n b)) in Hi as [Hi _].
    split; [by apply (reliable_get b1 b2 i r)|by apply (stable_get b1 b2 i r)].
  - intros b1 b2 p k HJ (Hw & _) [Hp _]%frame_pin E. by apply (stable_unref b1 b2 p k).
  - intros b1 b2 p HJ (Hw & _) E. by apply (stable_detach b1 b2 p).
Qed.

Lemma keys_iterate n X Y b ki l (k fuel : nat) want : ready n X Y b (keys_client ki l) -> (forall x, x ∈ l -> x.2.1.1 <> []) ->
  (size X < fuel)%nat -> (length l < k)%nat ->
  exists b', all_next k fuel b ki 0 want = Ok (b', map (fun x => (x.1, found_of x.2 want)) l) /\ goes_to n Y b b' (keys_client ki l).
Proof.
  intros Hrd Hne Hf Hk. destruct (enter_keys _ _ _ _ _ _ Hrd) as [Hin Hsv].
  destruct (enter_frame J X Y n b (rd_wf _ _ _ _ _ Hrd) (rd_ok _ _ _ _ _ Hrd) (rd_room _ _ _ _ _ Hrd) (rd_divided _ _ _ _ _ Hrd)) as (_ & _ & Ea & _).
  destruct (@all_next_ok B _ (framed J (frame_at Y n b)) J _ k fuel b ki l [] l 0 want) as (b' & E & Hin' & Hd & _); try done.
  - by rewrite Ea.
  - apply (rd_ok _ _ _ _ _ Hrd).
  - exists b'. split; [done|]. apply leave_keys; [done|by apply Hd].
Qed.
End tables.

(** * The tables of an index

    The blocks of a file are divided among clients ([tenants]); an operation on the table of one of them
    leaves the others as they are, and so does assigning to the fields of the root block.  New clients get
    blocks that were just allocated. *)

(** The state of the file is good, and the root block has the words [ws]. *)
Definition rooted {B : Type} `{BlockStoreLaws B} `{!RootStore B} (good : B -> Prop) `{!RootStoreLaws B good} (ws : list Z) (b : B) : Prop :=
  good b /\ root_words b = ws.

Class IndexStore (B : Type) `{BlockStoreLaws B} `{!RootStore B} (good : B -> Prop) `{!RootStoreLaws B good} : Prop :=
  rooted_reliable ws :: Reliable (rooted good ws).

Section tenants.
Context {B : Type} `{BlockStoreLaws B} `{!RootStore B} (good : B -> Prop) `{!RootStoreLaws B good} `{!IndexStore B good}.
Implicit Types (b : B) (c : client) (cs : list client) (X Y : gset Z) (ws : list Z).

Lemma det_on_same X b b' : pins b' = pins b -> det_on X b' = det_on X b.
Proof. unfold det_on. by intros ->. Qed.

Lemma lot_root c X b b' : lot c X b -> same_blocks b b' -> lot c X b'.
Proof.
  intros [Hi Hs Hp] [S1 S2 S3 S4 S5 S6]. split.
  - rewrite (det_on_same X b b') by done. apply (cl_local c _ (contents b)); [by intros|done].
  - intros p k Hpk Hk Hd. rewrite S2 in Hpk. apply S5. by apply (Hs p k).
  - eapply Forall_impl; [exact Hp|]. intros p. apply S5.
Qed.

(** A block that was just allocated. *)
Program Definition block_client (id : Z) : client :=
  mkClient (fun D C A => A = {[id]} /\ C id = zero_block /\ D = ∅) [] _ _.
Next Obligation. intros id D C C' A Hc (-> & Hz & Hd). split; [done|]. split; [|done]. rewrite Hc; [done|by apply elem_of_singleton]. Qed.
Next Obligation. intros id D C A p _ []%not_elem_of_nil. Qed.

(** Each client has blocks of its own; there is room for [n] more. *)
Record tenants (n : nat) ws b cs : Prop := {
  tn_wf : wf b;
  tn_rooted : rooted good ws b;
  tn_room : room b n;
  tn_slots : exists Xs, Forall2 (fun c X => lot c X b /\ X ⊆ allocated b) cs Xs /\
    forall i j X Y, i <> j -> Xs !! i = Some X -> Xs !! j = Some Y -> X ## Y;
}.

Lemma tenants_less n m ws b cs : (m <= n)%nat -> tenants n ws b cs -> tenants m ws b cs.
Proof. intros Hm [T1 T2 T3 T4]. split; try done. by apply (room_less b n). Qed.

(** The root block. *)
Lemma tenants_root n ws ws' b b' cs : tenants n ws b cs -> same_blocks b b' -> good b' -> root_words b' = ws' -> tenants n ws' b' cs.
Proof.
  intros [T1 T2 T3 (Xs & HF & Hd)] Hs Hg Hw. split; [apply Hs|done|by apply Hs|]. exists Xs. split; [|done].
  eapply Forall2_impl; [exact HF|]. intros c X [Hc HX]. split; [by apply (lot_root c X b)|]. by rewrite (sb_allocated _ _ Hs).
Qed.

Lemma tenants_field n ws b cs k : tenants n ws b cs -> 6 <= k < 256 -> root_field b k = Ok (ws !!! Z.to_nat (k - 6)).
Proof. intros Ht Hk. destruct (tn_rooted _ _ _ _ Ht) as [_ <-]. apply root_field_law; [apply Ht|done]. Qed.

Lemma tenants_set_field n ws b cs k v : tenants n ws b cs -> 6 <= k < 256 ->
  exists b', set_root_field b k v = Ok b' /\ tenants n (<[Z.to_nat (k - 6) := v]> ws) b' cs.
Proof.
  intros Ht Hk. destruct (tn_rooted _ _ _ _ Ht) as [Hg <-]. destruct (set_root_field_law b k v (tn_wf _ _ _ _ Ht) Hg Hk) as (b' & E & Hs & Hg' & Hw).
  exists b'. split; [done|]. by apply (tenants_root n (root_words b) _ b).
Qed.

Lemma tenants_touch n ws b cs : tenants n ws b cs -> exists b', touch_root b = Ok b' /\ tenants n ws b' cs.
Proof.
  intros Ht. pose proof (tn_rooted _ _ _ _ Ht) as [Hg Hw]. destruct (touch_root_law b (tn_wf _ _ _ _ Ht) Hg) as (b' & E & Hs & Hg' & Hw').
  exists b'. split; [done|]. apply (tenants_root n ws _ b); congruence.
Qed.

Lemma tenants_limit n ws b cs x : tenants n ws b cs -> tenants n ws (set_cache_limit b x) cs.
Proof.
  intros Ht. pose proof (tn_rooted _ _ _ _ Ht) as [Hg Hw]. destruct (set_cache_limit_law b x (tn_wf _ _ _ _ Ht) Hg) as (Hs & Hg' & Hw').
  apply (tenants_root n ws _ b); congruence.
Qed.

Lemma tenants_sync n ws b cs : tenants n ws b cs -> exists b' ret, sync b = Ok (b', ret) /\ tenants n ws b' cs.
Proof.
  intros Ht. destruct (sync_law b (tn_wf _ _ _ _ Ht)) as (b' & ret & E & Hw & Hp & Hc & Ha & Hs & Hr). exists b', ret. split; [done|].
  destruct (stable_sync b b' ret (tn_rooted _ _ _ _ Ht) (tn_wf _ _ _ _ Ht) E) as [Hg Hws]. by apply (tenants_root n ws _ b).
Qed.

(** What one client does. *)
Lemma tenants_ready n ws b cs i c : tenants n ws b cs -> cs !! i = Some c -> exists X Y, ready (rooted good ws) n X Y b c /\
  (forall m b' c', goes_to (rooted good ws) m Y b b' c' -> tenants m ws b' (<[i := c']> cs)).
Proof.
  intros [T1 T2 T3 (Xs & HF & Hd)] Hi. destruct (Forall2_lookup_l _ _ _ _ _ HF Hi) as (X & HX & Hs & Ha). exists X, (allocated b ∖ X).
  split; [split; try done; split; [|set_solver]; apply set_eq; intros x; rewrite elem_of_union, elem_of_difference; destruct (decide (x ∈ X)); set_solver|].
  intros m b' c' (X' & [R1 R2 R3 [Ra Rd] R5] & Hsame). split; try done. exists (<[i := X']> Xs).
  assert (forall j W, j <> i -> Xs !! j = Some W -> W ⊆ allocated b -> W ⊆ allocated b ∖ X) as Hz.
  { intros j W Hj HZ Hza. assert (X ## W) by (by apply (Hd i j)). set_solver. }
  split.
  - apply Forall2_same_length_lookup. split; [rewrite !length_insert; by apply Forall2_length in HF|]. intros j cj W Hcj HZ.
    destruct (decide (j = i)) as [->|Hne].
    + rewrite list_lookup_insert_eq in Hcj by (by eapply lookup_lt_Some). rewrite list_lookup_insert_eq in HZ by (by eapply lookup_lt_Some). injection Hcj as <-. injection HZ as <-. split; [done|set_solver].
    + rewrite list_lookup_insert_ne in Hcj by done. rewrite list_lookup_insert_ne in HZ by done. destruct (Forall2_lookup_lr _ _ _ _ _ _ HF Hcj HZ) as [Hsj Haj].
      pose proof (Hz j W Hne HZ Haj) as Hzz. split; [by apply (lot_same cj W (allocated b ∖ X) b)|set_solver].
  - assert (forall j W, j <> i -> Xs !! j = Some W -> X' ## W) as Hx.
    { intros j W Hne HZ. destruct (Forall2_lookup_r _ _ _ _ _ HF HZ) as (cj & _ & _ & Haj). pose proof (Hz j W Hne HZ Haj). set_solver. }
    assert (i < length Xs)%nat as Hlt by by eapply lookup_lt_Some. intros j k W1 W2 Hjk H1 H2.
    destruct (decide (j = i)) as [->|Hj]; [rewrite list_lookup_insert_eq in H1 by done; injection H1 as <-|rewrite list_lookup_insert_ne in H1 by done].
    + rewrite list_lookup_insert_ne in H2 by done. by apply (Hx k).
    + destruct (decide (k = i)) as [->|Hk]; [rewrite list_lookup_insert_eq in H2 by done; injection H2 as <-|rewrite list_lookup_insert_ne in H2 by done].
      * symmetry. by apply (Hx j).
      * by apply (Hd j k).
Qed.

(** ** New clients *)

(** Giving back a reference to a block in the cache. *)
Lemma lot_unref c X b b' p k : wf b -> lot c X b -> pins b !! p = Some k -> pin_detached k = false -> saved b p -> unref_block b p = Ok b' ->
  lot c X b'.
Proof.
  intros Hw [Hi Hs Hp] Hpk Hd Hsp E. destruct (unref_law b p k Hw Hpk Hsp) as (b1 & E1 & Hw1 & Ep & Hc & _ & Hs1 & Hsp1 & _).
  rewrite E in E1. injection E1 as <-.
  assert (forall q, q <> p -> pins b' !! q = pins b !! q) as Hq.
  { intros q Hq. rewrite Ep. destruct (pin_count k) as [|[|n]]; by rewrite ?lookup_delete_ne, ?lookup_insert_ne by (by apply not_eq_sym). }
  assert (forall l, pins b' !! p = Some l -> pin_detached l = false /\ saved b' p) as Hpp.
  { intros l. rewrite Ep. destruct (pin_count k) as [|[|n]]; rewrite ?lookup_delete_eq, ?lookup_insert_eq; [done..|].
    intros [= <-]. split; [done|]. apply Hsp1. lia. }
  assert (det_on X b' = det_on X b) as Ed.
  { apply map_eq. intros q. apply option_eq. intros [i d]. unfold det_on. rewrite !detached_lookup. split; intros (l & [Hl Hx]%theirs_lookup & Hld & Hle).
    - exists l. split; [|done]. apply theirs_lookup. destruct (decide (q = p)) as [->|Hne]; [|by rewrite <- Hq].
      destruct (Hpp l Hl) as [? _]. congruence.
    - exists l. split; [|done]. apply theirs_lookup. destruct (decide (q = p)) as [->|Hne]; [congruence|by rewrite Hq]. }
  split.
  - rewrite Ed. by apply (cl_local c _ (contents b)); [intros|].
  - intros q l Hl Hx Hld. destruct (decide (q = p)) as [->|Hne]; [by apply (Hpp l)|]. rewrite Hq in Hl by done. apply Hs1; [done|]. by apply (Hs q l).
  - rewrite Forall_forall in *. intros q Hqp. apply Hs1; [|by apply Hp]. intros ->. destruct (cl_owned c _ _ _ p Hi Hqp) as [[i d] Ex].
    apply detached_lookup in Ex as (l & [Hl _]%theirs_lookup & Hld & _). congruence.
Qed.

Lemma tenants_unref n ws b cs p k : tenants n ws b cs -> pins b !! p = Some k -> pin_detached k = false -> saved b p ->
  exists b', unref_block b p = Ok b' /\ tenants n ws b' cs.
Proof.
  intros [T1 T2 T3 (Xs & HF & Hdj)] Hp Hd Hs. destruct (unref_law b p k T1 Hp Hs) as (b' & E & Hw & _ & _ & Ha & _ & _ & Hr).
  exists b'. split; [done|]. split; [done|by apply (stable_unref b b' p k)|by apply Hr|]. exists Xs. split; [|done].
  eapply Forall2_impl; [exact HF|]. intros c X [Hc HX]. split; [by apply (lot_unref c X b b' p k)|by rewrite Ha].
Qed.

Lemma tenants_new n ws b cs : tenants (S n) ws b cs -> exists b' p id, new_block b = Ok (b', Some p) /\ block_id b' p = Ok id /\ 0 < id < 2 ^ 32 /\
  pins b' !! p = Some (mkPin id zero_block 1 false) /\ saved b' p /\ tenants n ws b' (cs ++ [block_client id]).
Proof.
  intros [T1 T2 T3 (Xs & HF & Hdj)]. destruct (new_law b n T1 T3) as (b' & r & E & Hw & Hs & Hr & Hp).
  destruct r as [p|]; [|by destruct (reliable_new b b' n None T2 T1 T3 E)]. destruct Hp as (i & Hi & Hn & Ep & Hc & Hz & Ha & Hsp).
  assert (pins b' !! p = Some (mkPin i zero_block 1 false)) as Hpi by (by rewrite Ep, lookup_insert_eq).
  destruct (allocated_ok b' i Hw) as [Hir _]; [rewrite Ha; set_solver|].
  exists b', p, i. split; [done|]. split; [by rewrite (id_law b' p _ Hw Hpi)|]. do 3 (split; [done|]). split; [done|by apply (stable_new b b' (Some p))|done|].
  assert (forall X, X ⊆ allocated b -> theirs X (pins b') = theirs X (pins b)) as Ht.
  { intros X HX. rewrite Ep. apply theirs_insert; [intros ?; by apply Hi, HX|]. intros l Hl. congruence. }
  exists (Xs ++ [{[i]}]). split.
  - apply Forall2_app; [|constructor; [|constructor]].
    + eapply Forall2_impl; [exact HF|]. intros c X [Hlc HX]. split; [|rewrite Ha; set_solver]. apply (lot_same c X X b); [done|done|].
      split; [rewrite Ha; set_solver|by apply Ht|intros j Hj; by apply Hc, HX|intros q l _; apply Hs].
    + split; [|rewrite Ha; set_solver]. split; [|by intros q l Hq Hl Hd; rewrite Ep in Hq; apply lookup_insert_Some in Hq as [[<- _]|[_ Hq]]; [|destruct (pins_ok b q l T1 Hq) as (_ & ? & _); set_solver]|constructor].
      split; [done|]. split; [done|]. apply map_empty. intros q. destruct (det_on {[i]} b' !! q) as [[j d]|] eqn:Eq; [|done].
      apply detached_lookup in Eq as (l & [Hl Hli]%theirs_lookup & Hd & _). rewrite Ep in Hl. apply lookup_insert_Some in Hl as [[_ <-]|[_ Hl]]; [done|].
      destruct (pins_ok b q l T1 Hl) as (_ & ? & _). set_solver.
  - assert (forall j X, Xs !! j = Some X -> X ## {[i]}) as Hx.
    { intros j X HX. destruct (Forall2_lookup_r _ _ _ _ _ HF HX) as (c & _ & _ & ?). set_solver. }
    intros j k X Y Hjk HX HY. apply lookup_app_Some in HX as [HX|[HX1 HX]], HY as [HY|[HY1 HY]].
    + by apply (Hdj j k).
    + apply list_lookup_singleton_Some in HY as [_ <-]. by apply (Hx j).
    + apply list_lookup_singleton_Some in HX as [_ <-]. symmetry. by apply (Hx k).
    + apply list_lookup_singleton_Some in HX as [HX _], HY as [HY _]. lia.
Qed.

Lemma enter_block n ws X Y b id : ready (rooted good ws) n X Y b (block_client id) ->
  let L := framed (rooted good ws) (frame_at Y n b) in
  @wf B _ L b /\ @all_saved B _ L b /\ id ∈ @allocated B _ L b /\ contents b id = zero_block /\ forall p i d, ~ @own B _ L b p i d.
Proof.
  intros [R1 R2 R3 R4 [(-> & Hz & Hd) Hs _]] L. destruct (enter_frame (rooted good ws) {[id]} Y n b R1 R2 R3 R4) as (Hw & Ed & Ea & Ha).
  split; [done|]. split; [by apply Ha|]. split; [unfold L; rewrite Ea; by apply elem_of_singleton|]. split; [done|].
  intros p i d Hp. unfold own, L in Hp. by rewrite Ed, Hd in Hp.
Qed.

Lemma open_keys_client n ws b cs i id : tenants n ws b cs -> cs !! i = Some (block_client id) ->
  exists b' ki, camel_key_table_new b id = Ok (b', Some ki) /\ tenants n ws b' (<[i := keys_client ki []]> cs).
Proof.
  intros Ht Hi. destruct (tenants_ready n ws b cs i _ Ht Hi) as (X & Y & Hrd & Hback). destruct (enter_block n ws X Y b id Hrd) as (Hw & Ha & Hid & Hz & Hno).
  destruct (@open_keys B _ (framed (rooted good ws) (frame_at Y n b)) b id [] [] Hw Ha) as (b' & r & E & Hr).
  - by apply empty_keys.
  - intros p j d Hp. by destruct (Hno p j d).
  - destruct r as [ki|]; [|by destruct (no_failure (rooted good ws) (frame_at Y n b)); destruct Hr as (_ & _ & Hx)]. destruct Hr as (_ & Hin & Hd). exists b', ki. split; [done|].
    apply (Hback n). by apply (leave_keys (rooted good ws)). 
Qed.

Lemma open_map_client n ws b cs i id fuel : tenants (S n) ws b cs -> cs !! i = Some (block_client id) ->
  exists b' t, camel_partition_table_new (S fuel) b id = Ok (b', Some t) /\ tenants n ws b' (<[i := map_client t ∅]> cs).
Proof.
  intros Ht Hi. destruct (tenants_ready n ws b cs i _ (tenants_less (S n) n _ _ _ ltac:(lia) Ht) Hi) as (X & Y & Hrd & Hback).
  destruct (enter_block n ws X Y b id Hrd) as (Hw & Ha & Hid & Hz & Hno).
  destruct (@create_table B _ (framed (rooted good ws) (frame_at Y n b)) b id fuel Hw Ha Hid Hz) as (b' & r & E & Hr).
  - intros p d. apply Hno.
  - change (room b (n + 1)). rewrite Nat.add_comm. apply (tn_room _ _ _ _ Ht).
  - destruct r as [t|]; [|by destruct (no_failure (rooted good ws) (frame_at Y n b)); destruct Hr as (_ & _ & Hx)]. destruct Hr as (_ & Hin & Hd). exists b', t. split; [done|].
    apply (Hback n). by apply (leave_map (rooted good ws)).
Qed.

(** The ids of the keys of a table. *)
Lemma keys_ids n ws b cs i ki l : tenants n ws b cs -> cs !! i = Some (keys_client ki l) ->
  NoDup l.*1 /\ forall id e, (id, e) ∈ l -> 0 < id < 2 ^ 32.
Proof.
  intros Ht Hi. destruct (tenants_ready n ws b cs i _ Ht Hi) as (X & Y & Hrd & _). destruct (enter_keys _ _ _ _ _ _ _ Hrd) as [[Hw _ (js & Hok & ->)] _].
  pose proof (fun j => @key_block B _ (framed (rooted good ws) (frame_at Y n b)) b _ ki js j Hw Hok) as Hkb. split.
  - apply key_list_nodup; [apply (kt_nodup _ _ _ _ _ Hok)|]. intros j Hj. destruct (Hkb j Hj) as (_ & _ & Hm & _ & Hc). split; [done|by rewrite kb_entries_length].
  - intros id e (j & m & Hj & -> & Em)%elem_of_key_list. apply lookup_lt_Some in Em. rewrite kb_entries_length in Em. destruct (Hkb j Hj) as (_ & Hr & Hm & _ & Hc).
    unfold CAMEL_BLOCK_SIZE in *. pose proof (Z.div_mod j 1024). assert (j / 1024 < 4194304) by (apply Z.div_lt_upper_bound; lia). lia.
Qed.
End tenants.
