(* ===== verification/TextIndex.v ===== *)
(** * The text index ([camel-text-index.c])

    [src/camel/camel-text-index.c]: which names (messages) have which words.  A key table and
    a partition table for words, and two for names, are in one file of blocks; the names of a word, as
    ids of their keys, are chains of records in a key file.  Names that were just added are kept in a cache
    of words until there are 32 of a word, the cache is full or the index is synced.

    The hash table [words] always has the words of the cache: looking up there is [cached].  A list of
    words is in the order of the cache, the head first.  Locks and the files' names are left out. *)

From stdpp Require Import gmap.
From S2P Require Import Prelude BlockStore PartitionTable KeyTable KeyFile.
#[local] Open Scope Z_scope.
#[local] Open Scope list_scope.

(** ** Data *)

(** The fields of [struct _CamelTextIndexRoot] as words of block 0. *)
Definition word_index_root : Z := 6.
Definition word_hash_root : Z := 7.
Definition name_index_root : Z := 8.
Definition name_hash_root : Z := 9.
Definition rb_words : Z := 10.
Definition rb_names : Z := 11.
Definition rb_deleted : Z := 12.
Definition rb_keys : Z := 13.

(** [struct _CamelTextIndexWord]: [w_names] are the [used] first ids of [names]. *)
Record CamelTextIndexWord := mkWord {
  w_data : Z;
  w_wordid : Z;
  w_word : list Z;
  w_names : list Z;
}.
Definition names_size : nat := 32.

Definition set_w_data (w : CamelTextIndexWord) (data : Z) : CamelTextIndexWord := mkWord data (w_wordid w) (w_word w) (w_names w).
Definition set_w_names (w : CamelTextIndexWord) (names : list Z) : CamelTextIndexWord := mkWord (w_data w) (w_wordid w) (w_word w) names.

(** [struct _CamelTextIndexPrivate] *)
Record CamelTextIndex {B : Type} := mkIndex {
  ti_blocks : B;
  ti_links : CamelKeyFile;
  word_index : CamelKeyTable;
  word_hash : CamelPartitionTable;
  name_index : CamelKeyTable;
  name_hash : CamelPartitionTable;
  word_cache_limit : Z;
  word_cache_count : Z;
  word_cache : list CamelTextIndexWord;
}.
#[global] Arguments CamelTextIndex B : clear implicits.

(** A cursor over the names of a word ([struct _CamelTextIndexCursorPrivate]). *)
Record CamelTextIndexCursor := mkCursor {
  c_first : Z;
  c_next : Z;
  c_record_index : Z;
  c_record_count : Z;
  c_records : option (list Z);
  c_current : option (list Z);
}.

(** A cursor over a key table ([struct _CamelTextIndexKeyCursorPrivate]). *)
Record CamelTextIndexKeyCursor := mkKeyCursor {
  kc_keyid : Z;
  kc_flags : Z;
  kc_data : Z;
  kc_current : option (list Z);
}.

Section index.
Context {B : Type} `{BlockStore B, !RootStore B, !QSort}.
Implicit Types (p : CamelTextIndex B) (w : CamelTextIndexWord) (b : B).

(** Assignments. *)
Definition set_ti_blocks p b : CamelTextIndex B :=
  mkIndex B b (ti_links p) (word_index p) (word_hash p) (name_index p) (name_hash p) (word_cache_limit p) (word_cache_count p) (word_cache p).
Definition set_ti_links p (x : CamelKeyFile) : CamelTextIndex B :=
  mkIndex B (ti_blocks p) x (word_index p) (word_hash p) (name_index p) (name_hash p) (word_cache_limit p) (word_cache_count p) (word_cache p).
Definition set_word_index p (x : CamelKeyTable) : CamelTextIndex B :=
  mkIndex B (ti_blocks p) (ti_links p) x (word_hash p) (name_index p) (name_hash p) (word_cache_limit p) (word_cache_count p) (word_cache p).
Definition set_word_hash p (x : CamelPartitionTable) : CamelTextIndex B :=
  mkIndex B (ti_blocks p) (ti_links p) (word_index p) x (name_index p) (name_hash p) (word_cache_limit p) (word_cache_count p) (word_cache p).
Definition set_name_index p (x : CamelKeyTable) : CamelTextIndex B :=
  mkIndex B (ti_blocks p) (ti_links p) (word_index p) (word_hash p) x (name_hash p) (word_cache_limit p) (word_cache_count p) (word_cache p).
Definition set_name_hash p (x : CamelPartitionTable) : CamelTextIndex B :=
  mkIndex B (ti_blocks p) (ti_links p) (word_index p) (word_hash p) (name_index p) x (word_cache_limit p) (word_cache_count p) (word_cache p).
Definition set_word_limit p (x : Z) : CamelTextIndex B :=
  mkIndex B (ti_blocks p) (ti_links p) (word_index p) (word_hash p) (name_index p) (name_hash p) x (word_cache_count p) (word_cache p).
Definition set_word_cache p (count : Z) (x : list CamelTextIndexWord) : CamelTextIndex B :=
  mkIndex B (ti_blocks p) (ti_links p) (word_index p) (word_hash p) (name_index p) (name_hash p) (word_cache_limit p) count x.

(** [rb->k += 1] and [camel_block_file_touch_block (p->blocks, p->blocks->root_block)]. *)
Definition count_up p (k : Z) : res (CamelTextIndex B) :=
  n ← root_field (ti_blocks p) k; b ← set_root_field (ti_blocks p) k (u32 (n + 1)); Ok (set_ti_blocks p b).
Definition touch_index p : res (CamelTextIndex B) := b ← touch_root (ti_blocks p); Ok (set_ti_blocks p b).

(** ** Words *)

(** [g_hash_table_lookup (p->words, word)] *)
Definition cached p (word : list Z) : option CamelTextIndexWord :=
  snd <$> list_find (fun w => w_word w = word) (word_cache p).

(** [e_dlist_remove] and [g_hash_table_remove]. *)
Definition uncache (word : list Z) (l : list CamelTextIndexWord) : list CamelTextIndexWord := filter (fun w => w_word w <> word) l.

(** Writing the names of a word as a record, before the others of its chain: the word, and whether it was written. *)
Definition write_word p w : res (CamelTextIndex B * CamelTextIndexWord * bool) :=
  let '(kf, data, ret) := camel_key_file_write (ti_links p) (w_data w) (w_names w) in
  let p := set_ti_links p kf in
  if ret =? -1 then Ok (p, w, false)
  else
    let w := set_w_data w data in
    p ← count_up p rb_keys;
    p ← touch_index p;
    b ← camel_key_table_set_data (ti_blocks p) (word_index p) (w_wordid w) data;
    Ok (set_ti_blocks p b, w, true).

(** The loop that makes the cache smaller: the words from the last to the first. *)
Fixpoint evict p (l : list CamelTextIndexWord) : res (CamelTextIndex B) :=
  match l with
  | [] => Ok p
  | ww :: l =>
      if word_cache_limit p <? word_cache_count p then
        '(p, ww, ok) ← write_word p ww;
        evict (if (ok : bool) then set_word_cache p (word_cache_count p - 1) (uncache (w_word ww) (word_cache p)) else p) l
      else Ok p
  end.

(** The id and the data of a word, which is added to the tables if it is new. *)
Definition find_word p (word : list Z) : res (CamelTextIndex B * option (Z * Z)) :=
  '(b, wordid) ← camel_partition_table_lookup (ti_blocks p) (word_hash p) word;
  let p := set_ti_blocks p b in
  if wordid =? 0 then
    '(b, ki, wordid) ← camel_key_table_add (ti_blocks p) (word_index p) word 0 0;
    let p := set_word_index (set_ti_blocks p b) ki in
    if wordid =? 0 then Ok (p, None)
    else
      '(b, cpi, ret) ← camel_partition_table_add (ti_blocks p) (word_hash p) word wordid;
      let p := set_word_hash (set_ti_blocks p b) cpi in
      if ret =? -1 then Ok (p, None)
      else
        p ← count_up p rb_words;
        p ← touch_index p;
        Ok (p, Some (wordid, 0))
  else
    '(b, f) ← camel_key_table_lookup (ti_blocks p) (word_index p) wordid false;
    let p := set_ti_blocks p b in
    if f.2 =? 0 then Ok (p, None) else Ok (p, Some (wordid, f.2)).

Definition text_index_add_name_to_word p (word : list Z) (nameid : Z) : res (CamelTextIndex B) :=
  match cached p word with
  | None =>
      '(p, r) ← find_word p word;
      match r with
      | None => Ok p
      | Some (wordid, data) =>
          let p := set_word_cache p (word_cache_count p + 1) (mkWord data wordid word [nameid] :: word_cache p) in
          evict p (rev (word_cache p))
      end
  | Some w =>
      if (length (w_names w) <? names_size)%nat then
        let w := set_w_names w (w_names w ++ [nameid]) in
        let rest := uncache word (word_cache p) in
        if (length (w_names w) =? names_size)%nat then
          '(p, w, _) ← write_word p w;
          Ok (set_word_cache p (word_cache_count p) (set_w_names w [] :: rest))
        else Ok (set_word_cache p (word_cache_count p) (w :: rest))
      else Undef
  end.

(** ** Syncing *)

(** All words of the cache are written and dropped; -1 if one could not be written. *)
Fixpoint sync_words p (l : list CamelTextIndexWord) (ret : Z) : res (CamelTextIndex B * Z) :=
  match l with
  | [] => Ok (p, ret)
  | ww :: l =>
      let p := set_word_cache p (word_cache_count p) l in
      '(p, ret) ← (if (0 <? length (w_names ww))%nat then '(p, _, ok) ← write_word p ww; Ok (p, if (ok : bool) then ret else -1)
                   else Ok (p, ret));
      sync_words p l ret
  end.

(** The four tables, up to the first that fails. *)
Definition sync_tables p : res (CamelTextIndex B * Z) :=
  '(b, ret) ← camel_key_table_sync (ti_blocks p) (word_index p);
  if ret =? -1 then Ok (set_ti_blocks p b, -1) else
  '(b, ret) ← camel_key_table_sync b (name_index p);
  if ret =? -1 then Ok (set_ti_blocks p b, -1) else
  '(b, ret) ← camel_partition_table_sync b (word_hash p);
  if ret =? -1 then Ok (set_ti_blocks p b, -1) else
  '(b, ret) ← camel_partition_table_sync b (name_hash p);
  Ok (set_ti_blocks p b, ret).

(** Whether too much of the index is out of use, in percent. *)
Definition too_fragmented (words names deleted keys : Z) : bool :=
  let wfrag := if words =? 0 then 0 else s32 (u32 (u32 (keys - words) * 100) / words) in
  let nfrag := if names =? 0 then 0 else s32 (u32 (deleted * 100) / names) in
  (30 <? wfrag) || (20 <? nfrag).
Definition fragmented p : res bool :=
  words ← root_field (ti_blocks p) rb_words;
  names ← root_field (ti_blocks p) rb_names;
  deleted ← root_field (ti_blocks p) rb_deleted;
  keys ← root_field (ti_blocks p) rb_keys;
  Ok (too_fragmented words names deleted keys).

(** [compress] is [text_index_compress_nosync]; for an index all of whose tables are open. *)
Definition text_index_sync (compress : CamelTextIndex B -> res (CamelTextIndex B * Z)) p : res (CamelTextIndex B * Z) :=
  let p := set_word_limit (set_ti_blocks p (set_cache_limit (ti_blocks p) 128)) 1024 in
  '(p, ret) ← sync_words p (word_cache p) 0;
  '(p, ret') ← sync_tables p;
  let ret := if ret' =? -1 then -1 else ret in
  frag ← fragmented p;
  p ← (if (ret =? 0) && (frag : bool) then '(p, _) ← compress p; Ok p else Ok p);
  '(b, ret) ← sync (ti_blocks p);
  Ok (set_ti_blocks p b, ret).

(** ** Names *)

Definition text_index_has_name p (name : list Z) : res (CamelTextIndex B * bool) :=
  '(b, keyid) ← camel_partition_table_lookup (ti_blocks p) (name_hash p) name;
  Ok (set_ti_blocks p b, negb (keyid =? 0)).

(** The key of a name gets the flag of deleted names, and its entry in the hash table is removed. *)
Definition drop_name p (name : list Z) (keyid : Z) : res (CamelTextIndex B) :=
  b ← camel_key_table_set_flags (ti_blocks p) (name_index p) keyid 1 1;
  b ← camel_partition_table_remove b (name_hash p) name;
  Ok (set_ti_blocks p b).

(** A name that the index has already is dropped first. *)
Definition replace_name p (name : list Z) : res (CamelTextIndex B) :=
  '(b, keyid) ← camel_partition_table_lookup (ti_blocks p) (name_hash p) name;
  let p := set_ti_blocks p b in
  if negb (keyid =? 0) then p ← count_up p rb_deleted; drop_name p name keyid else Ok p.

(** The second component is the id of the key, with which [camel_text_index_name_new] is called; 0 if there is none. *)
Definition text_index_add_name p (name : list Z) : res (CamelTextIndex B * Z) :=
  let p := set_word_limit (set_ti_blocks p (set_cache_limit (ti_blocks p) 1024)) 8192 in
  p ← replace_name p name;
  '(b, ki, keyid) ← camel_key_table_add (ti_blocks p) (name_index p) name 0 0;
  let p := set_name_index (set_ti_blocks p b) ki in
  p ← (if negb (keyid =? 0) then
         '(b, cpi, _) ← camel_partition_table_add (ti_blocks p) (name_hash p) name keyid;
         count_up (set_name_hash (set_ti_blocks p b) cpi) rb_names
       else Ok p);
  p ← touch_index p;
  Ok (p, keyid).

(** [g_hash_table_foreach] with [hash_write_word]: the words of a name in the order of the hash table. *)
Fixpoint hash_write_words p (nameid : Z) (words : list (list Z)) : res (CamelTextIndex B) :=
  match words with
  | [] => Ok p
  | word :: words => p ← text_index_add_name_to_word p word nameid; hash_write_words p nameid words
  end.

(** After [camel_index_name_add_buffer (idn, NULL, 0)]. *)
Definition text_index_write_name p (nameid : Z) (words : list (list Z)) : res (CamelTextIndex B) :=
  if negb (nameid =? 0) then hash_write_words p nameid words else Ok p.

Definition text_index_delete_name p (name : list Z) : res (CamelTextIndex B) :=
  '(b, keyid) ← camel_partition_table_lookup (ti_blocks p) (name_hash p) name;
  let p := set_ti_blocks p b in
  if negb (keyid =? 0) then p ← count_up p rb_deleted; p ← touch_index p; drop_name p name keyid else Ok p.

(** ** Cursors *)

Definition camel_text_index_cursor_new (data : Z) : CamelTextIndexCursor := mkCursor data data 0 0 None None.

Definition text_index_cursor_reset (idc : CamelTextIndexCursor) : CamelTextIndexCursor :=
  mkCursor (c_first idc) (c_first idc) 0 0 None None.

Definition text_index_find p (word : list Z) : res (CamelTextIndex B * CamelTextIndexCursor) :=
  '(b, keyid) ← camel_partition_table_lookup (ti_blocks p) (word_hash p) word;
  let p := set_ti_blocks p b in
  if negb (keyid =? 0) then
    '(b, (_, flags, data)) ← camel_key_table_lookup (ti_blocks p) (word_index p) keyid false;
    Ok (set_ti_blocks p b, camel_text_index_cursor_new (if negb (Z.land flags 1 =? 0) then 0 else data))
  else Ok (p, camel_text_index_cursor_new 0).

(** The round of both loops: a record is read, or the next id of the record is looked up. *)
Fixpoint text_index_cursor_next (fuel : nat) p (idc : CamelTextIndexCursor)
    : res (CamelTextIndex B * CamelTextIndexCursor * option (list Z)) :=
  match fuel with
  | O => NoFuel
  | S fuel =>
      if c_record_count idc <=? c_record_index idc then
        if c_next idc =? 0 then Ok (p, mkCursor (c_first idc) 0 0 0 None (c_current idc), None)
        else
          let '(kf, next, len, records, ret) := camel_key_file_read (ti_links p) (c_next idc) true in
          let p := set_ti_links p kf in
          let idc := mkCursor (c_first idc) next 0 (default 0 len) records (c_current idc) in
          if ret =? -1 then Ok (p, idc, None) else text_index_cursor_next fuel p idc
      else
        match c_records idc with
        | None => Undef
        | Some records =>
            id ← arr_get records (c_record_index idc);
            '(b, (key, flags, _)) ← camel_key_table_lookup (ti_blocks p) (name_index p) id true;
            let p := set_ti_blocks p b in
            let current := if negb (Z.land flags 1 =? 0) then None else key in
            let idc := mkCursor (c_first idc) (c_next idc) (c_record_index idc + 1) (c_record_count idc) (c_records idc) current in
            match current with Some name => Ok (p, idc, Some name) | None => text_index_cursor_next fuel p idc end
        end
  end.

Definition camel_text_index_key_cursor_new : CamelTextIndexKeyCursor := mkKeyCursor 0 0 0 None.

Definition text_index_key_cursor_reset (idc : CamelTextIndexKeyCursor) : CamelTextIndexKeyCursor := mkKeyCursor 0 0 0 None.

(** [table] is [word_index] or [name_index]; [fuel] is for the loop and for the loop of [camel_key_table_next]. *)
Fixpoint text_index_key_cursor_next (fuel : nat) (b : B) (table : CamelKeyTable) (idc : CamelTextIndexKeyCursor)
    : res (B * CamelTextIndexKeyCursor * option (list Z)) :=
  match fuel with
  | O => NoFuel
  | S n =>
      '(b, keyid, (key, flags, data)) ← camel_key_table_next fuel b table (kc_keyid idc) true;
      if keyid =? 0 then Ok (b, mkKeyCursor 0 flags data None, None)
      else if Z.land flags 1 =? 0 then Ok (b, mkKeyCursor keyid flags data key, key)
      else text_index_key_cursor_next n b table (mkKeyCursor keyid flags data None)
  end.
(** ** Opening and closing *)

(** The root block of a table, which is allocated if there is none. *)
Definition table_root b (k : Z) : res (B * bool) :=
  root ← root_field b k;
  if root =? 0 then
    '(b, r) ← new_block b;
    match r with
    | None => Ok (b, false)
    | Some bl =>
        id ← block_id b bl;
        b ← set_root_field b k id;
        b ← unref_block b bl;
        b ← touch_root b;
        Ok (b, true)
    end
  else Ok (b, true).

Fixpoint table_roots b (ks : list Z) : res (B * bool) :=
  match ks with
  | [] => Ok (b, true)
  | k :: ks => '(b, ok) ← table_root b k; if (ok : bool) then table_roots b ks else Ok (b, false)
  end.

(** What is done with the tables when one of them could not be opened, and when the index is closed. *)
Definition close_table {T : Type} (finalise : B -> T -> res B) b (t : option T) : res B :=
  match t with Some t => finalise b t | None => Ok b end.
Definition close_tables b (wi : option CamelKeyTable) (wh : option CamelPartitionTable) (ni : option CamelKeyTable) (nh : option CamelPartitionTable) : res B :=
  b ← close_table (fun b ki => camel_key_table_finalise b (Some ki)) b wi;
  b ← close_table camel_partition_table_finalise b wh;
  b ← close_table (fun b ki => camel_key_table_finalise b (Some ki)) b ni;
  close_table camel_partition_table_finalise b nh.

(** [blocks] and [links] are what [camel_block_file_new] and [camel_key_file_new] give; if there is no index
    in the end they are what is left to be closed. *)
Definition camel_text_index_new (fuel : nat) (blocks : option B) (links : option CamelKeyFile)
    : res (CamelTextIndex B + option B * option CamelKeyFile) :=
  match blocks, links with
  | Some b, Some kf =>
      '(b, ok) ← table_roots b [word_index_root; word_hash_root; name_index_root; name_hash_root];
      if (ok : bool) then
        root ← root_field b word_index_root; '(b, wi) ← camel_key_table_new b root;
        root ← root_field b word_hash_root; '(b, wh) ← camel_partition_table_new fuel b root;
        root ← root_field b name_index_root; '(b, ni) ← camel_key_table_new b root;
        root ← root_field b name_hash_root; '(b, nh) ← camel_partition_table_new fuel b root;
        match wi, wh, ni, nh with
        | Some wi, Some wh, Some ni, Some nh => Ok (inl (mkIndex B b kf wi wh ni nh 4096 0 []))
        | _, _, _, _ => b ← close_tables b wi wh ni nh; Ok (inr (Some b, Some kf))
        end
      else Ok (inr (Some b, Some kf))
  | _, _ => Ok (inr (blocks, links))
  end.

(** The file of blocks and the key file are closed next; all words must have been written ([g_assert]). *)
Definition camel_text_index_finalise (compress : CamelTextIndex B -> res (CamelTextIndex B * Z)) p : res (B * CamelKeyFile) :=
  '(p, _) ← text_index_sync compress p;
  match word_cache p with
  | [] =>
      b ← close_tables (ti_blocks p) (Some (word_index p)) (Some (word_hash p)) (Some (name_index p)) (Some (name_hash p));
      Ok (b, ti_links p)
  | _ => Undef
  end.

(** ** Compressing *)

(** The names that are not deleted go to the new index; [remap] has their old and new ids. *)
Fixpoint copy_names (n fuel : nat) (newp oldp : CamelTextIndex B) (oldkeyid : Z) (remap : gmap Z Z)
    : res (CamelTextIndex B * CamelTextIndex B * option (gmap Z Z)) :=
  match n with
  | O => NoFuel
  | S n =>
      '(b, oldkeyid, (name, flags, data)) ← camel_key_table_next fuel (ti_blocks oldp) (name_index oldp) oldkeyid true;
      let oldp := set_ti_blocks oldp b in
      if oldkeyid =? 0 then Ok (newp, oldp, Some remap)
      else
        match name with
        | None => Undef
        | Some name =>
            if Z.land flags 1 =? 0 then
              '(b, ki, newkeyid) ← camel_key_table_add (ti_blocks newp) (name_index newp) name data flags;
              let newp := set_name_index (set_ti_blocks newp b) ki in
              if newkeyid =? 0 then Ok (newp, oldp, None)
              else
                newp ← count_up newp rb_names;
                '(b, cpi, _) ← camel_partition_table_add (ti_blocks newp) (name_hash newp) name newkeyid;
                copy_names n fuel (set_name_hash (set_ti_blocks newp b) cpi) oldp oldkeyid (<[oldkeyid := newkeyid]> remap)
            else copy_names n fuel newp oldp oldkeyid remap
        end
  end.

Definition newrecords_size : nat := 256.

(** The ids of a record: the new ids are collected in [newrecords], and written when there are 256. *)
Fixpoint copy_records (kf : CamelKeyFile) (remap : gmap Z Z) (records newrecords : list Z) (newdata : Z)
    : CamelKeyFile * list Z * Z * bool :=
  match records with
  | [] => (kf, newrecords, newdata, true)
  | id :: records =>
      match default 0 (remap !! id) with
      | 0 => copy_records kf remap records newrecords newdata
      | newkeyid =>
          let newrecords := newrecords ++ [newkeyid] in
          if (length newrecords =? newrecords_size)%nat then
            let '(kf, newdata, ret) := camel_key_file_write kf newdata newrecords in
            if ret =? -1 then (kf, newrecords, newdata, false) else copy_records kf remap records [] newdata
          else copy_records kf remap records newrecords newdata
      end
  end.

(** The chain of a word: the key files, the new data and whether nothing failed. *)
Fixpoint copy_chain (n : nat) (newkf oldkf : CamelKeyFile) (remap : gmap Z Z) (data : Z) (newrecords : list Z) (newdata : Z)
    : res (CamelKeyFile * CamelKeyFile * Z * bool) :=
  match n with
  | O => NoFuel
  | S n =>
      if data =? 0 then
        if (0 <? length newrecords)%nat then
          let '(newkf, newdata, ret) := camel_key_file_write newkf newdata newrecords in Ok (newkf, oldkf, newdata, negb (ret =? -1))
        else Ok (newkf, oldkf, newdata, true)
      else
        let '(oldkf, data, len, records, ret) := camel_key_file_read oldkf data true in
        if ret =? -1 then Ok (newkf, oldkf, newdata, false)
        else
          match records with
          | None => Undef
          | Some records =>
              let '(newkf, newrecords, newdata, ok) := copy_records newkf remap records newrecords newdata in
              if ok then copy_chain n newkf oldkf remap data newrecords newdata else Ok (newkf, oldkf, newdata, false)
          end
  end.

Fixpoint copy_words (n fuel : nat) (newp oldp : CamelTextIndex B) (oldkeyid : Z) (remap : gmap Z Z)
    : res (CamelTextIndex B * CamelTextIndex B * bool) :=
  match n with
  | O => NoFuel
  | S n =>
      '(b, oldkeyid, (name, flags, data)) ← camel_key_table_next fuel (ti_blocks oldp) (word_index oldp) oldkeyid true;
      let oldp := set_ti_blocks oldp b in
      if oldkeyid =? 0 then Ok (newp, oldp, true)
      else
        match name with
        | None => Undef
        | Some name =>
            newp ← (if negb (data =? 0) then newp ← count_up newp rb_words; count_up newp rb_keys else Ok newp);
            '(newkf, oldkf, newdata, ok) ← copy_chain fuel (ti_links newp) (ti_links oldp) remap data [] 0;
            let newp := set_ti_links newp newkf in
            let oldp := set_ti_links oldp oldkf in
            if negb (ok : bool) then Ok (newp, oldp, false)
            else if negb (newdata =? 0) then
              '(b, ki, newkeyid) ← camel_key_table_add (ti_blocks newp) (word_index newp) name newdata flags;
              let newp := set_word_index (set_ti_blocks newp b) ki in
              if newkeyid =? 0 then Ok (newp, oldp, false)
              else
                '(b, cpi, _) ← camel_partition_table_add (ti_blocks newp) (word_hash newp) name newkeyid;
                copy_words n fuel (set_word_hash (set_ti_blocks newp b) cpi) oldp oldkeyid remap
            else copy_words n fuel newp oldp oldkeyid remap
        end
  end.

Fixpoint clear_counts p (ks : list Z) : res (CamelTextIndex B) :=
  match ks with [] => Ok p | k :: ks => b ← set_root_field (ti_blocks p) k 0; clear_counts (set_ti_blocks p b) ks end.

(** The files and tables of the new index under the cache of the old one. *)
Definition swap_index p newp : CamelTextIndex B :=
  mkIndex B (ti_blocks newp) (ti_links newp) (word_index newp) (word_hash newp) (name_index newp) (name_hash newp)
    (word_cache_limit p) (word_cache_count p) (word_cache p).

(** [newidx] is the index that is made in a file of its own ([camel_text_index_new]), [rename] what renaming the
    files of the old one gives, [sync] is [camel_index_sync].  The files that are not the index's in the end are deleted. *)
Definition text_index_compress_nosync (n fuel : nat) (newidx : option (CamelTextIndex B)) (rename : Z)
    (sync : CamelTextIndex B -> res (CamelTextIndex B * Z)) p : res (CamelTextIndex B * Z) :=
  match newidx with
  | None => Ok (p, -1)
  | Some newp =>
      newp ← clear_counts newp [rb_words; rb_names; rb_deleted; rb_keys];
      '(newp, p, remap) ← copy_names n fuel newp p 0 ∅;
      match remap with
      | None => Ok (p, -1)
      | Some remap =>
          '(newp, p, ok) ← copy_words n fuel newp p 0 remap;
          if negb (ok : bool) then Ok (p, -1)
          else
            newp ← touch_index newp;
            '(newp, ret) ← sync newp;
            if ret =? -1 then Ok (p, -1)
            else if rename =? -1 then Ok (p, -1)
            else Ok (swap_index p newp, 0)
      end
  end.

(** [text_index_compress] *)
Definition text_index_compress (sync compress : CamelTextIndex B -> res (CamelTextIndex B * Z)) p : res (CamelTextIndex B * Z) :=
  '(p, ret) ← sync p;
  if negb (ret =? -1) then compress p else Ok (p, ret).
End index.
