(* ===== verification/TextIndexWords.v ===== *)
(** * The text index: the names of the words

    The names of a word are those in the cache, which are not written yet, and those of the records of its
    chain ([posting]).  What the changes to the tables, the key file and the cache keep of this.  No order
    is promised among the names of a word. *)

From stdpp Require Import gmap.
From S2P Require Import Prelude PartitionTable KeyTable KeyDataSpec KeyTableSpec KeyFile KeyFileSpec TextIndex.
#[local] Open Scope Z_scope.
#[local] Open Scope list_scope.

(** What the four tables have: keys and hashes of words and of names; and the key file. *)
Record tables := mkTables {
  tb_words : list (Z * entry);
  tb_wmap : gmap Z Z;
  tb_names : list (Z * entry);
  tb_nmap : gmap Z Z;
  tb_text : list Z;
}.

Implicit Types (T : tables) (w : CamelTextIndexWord) (cache : list CamelTextIndexWord) (ids : list Z).

(** ** Key ids *)

Lemma elem_of_set_entry id e (l : list (Z * entry)) id' e' : (id', e') ∈ set_entry id e l <->
  (id' = id /\ e' = e /\ exists e0, (id, e0) ∈ l) \/ (id' <> id /\ (id', e') ∈ l).
Proof.
  unfold set_entry. rewrite list_elem_of_fmap. split.
  - intros ([k x] & E & Hx). cbn in E. destruct (Z.eqb_spec k id) as [->|Hne]; injection E as -> ->; [left|right; done]. by split; [|split; [|exists x]].
  - intros [(-> & -> & e0 & H)|[Hne H]]; [exists (id, e0)|exists (id', e')]; cbn; [by rewrite Z.eqb_refl|]. by destruct (Z.eqb_spec id' id).
Qed.

Lemma set_entry_ids id e (l : list (Z * entry)) : (set_entry id e l).*1 = l.*1.
Proof. unfold set_entry. induction l as [|[k x] l IH]; [done|]. cbn. rewrite IH. by destruct (Z.eqb_spec k id) as [->|]. Qed.

Lemma entry_unique (l : list (Z * entry)) id e e' : NoDup l.*1 -> (id, e) ∈ l -> (id, e') ∈ l -> e = e'.
Proof.
  intros Hn [i Hi]%list_elem_of_lookup [j Hj]%list_elem_of_lookup. assert (i = j) as ->; [|congruence].
  apply (NoDup_lookup _ i j id Hn); by rewrite list_lookup_fmap, ?Hi, ?Hj.
Qed.

(** ** The names of a word *)

Definition hash_of w : Z := hash_key (w_word w).

Definition pending cache (id : Z) : list Z := concat (map w_names (filter (fun w => w_wordid w = id) cache)).

Definition posting T cache (h : Z) ids : Prop :=
  match tb_wmap T !! h with
  | None => ids = []
  | Some id => exists e cs, (id, e) ∈ tb_words T /\ chain (tb_text T) e.2 cs /\ ids ≡ₚ pending cache id ++ concat cs
  end.

(** A word of the cache: its data is that of its key; if it has none yet, it has names to write. *)
Record cached_ok T w : Prop := {
  co_map : tb_wmap T !! hash_of w = Some (w_wordid w);
  co_data : exists e, (w_wordid w, e) ∈ tb_words T /\ e.2 = w_data w;
  co_used : (length (w_names w) <= names_size)%nat;
  co_names : Forall (fun id => 0 <= id < 2 ^ 32) (w_names w);
  co_new : w_data w = 0 -> w_names w <> [];
}.

(** Words without data are in the cache; words are in the cache once. *)
Record words_in T cache : Prop := {
  wi_ids : NoDup (tb_words T).*1;
  wi_map : forall h id, tb_wmap T !! h = Some id -> id <> 0 /\ exists e, (id, e) ∈ tb_words T /\ e.1.2 = 0;
  wi_inj : forall h h' id, tb_wmap T !! h = Some id -> tb_wmap T !! h' = Some id -> h = h';
  wi_chains : forall id e, (id, e) ∈ tb_words T -> exists cs, chain (tb_text T) e.2 cs;
  wi_cached : Forall (cached_ok T) cache;
  wi_once : NoDup (map hash_of cache);
  wi_data : forall h id e, tb_wmap T !! h = Some id -> (id, e) ∈ tb_words T -> e.2 = 0 -> exists w, w ∈ cache /\ w_wordid w = id;
}.

(** The order of the cache does not matter. *)
Lemma pending_perm cache cache' id : cache ≡ₚ cache' -> pending cache id ≡ₚ pending cache' id.
Proof. intros Hp. unfold pending. by rewrite Hp. Qed.

Lemma posting_perm T cache cache' h ids : cache ≡ₚ cache' -> posting T cache h ids -> posting T cache' h ids.
Proof.
  unfold posting. intros Hp. destruct (tb_wmap T !! h) as [id|]; [|done]. intros (e & cs & He & Hc & Hi). exists e, cs.
  do 2 (split; [done|]). by rewrite <- (pending_perm cache cache').
Qed.

Lemma words_in_perm T cache cache' : cache ≡ₚ cache' -> words_in T cache -> words_in T cache'.
Proof.
  intros Hp [W1 W2 W3 W4 W5 W6 W7]. split; try done; [by rewrite <- Hp|by rewrite <- Hp|].
  intros h id e Hh He H0. destruct (W7 h id e Hh He H0) as (w & Hw & E). exists w. by rewrite <- Hp.
Qed.

Lemma pending_cons w cache id : pending (w :: cache) id = (if decide (w_wordid w = id) then w_names w else []) ++ pending cache id.
Proof. unfold pending. rewrite filter_cons. by destruct (decide (w_wordid w = id)). Qed.

Lemma once_cons w cache : NoDup (map hash_of (w :: cache)) -> ~ hash_of w ∈ map hash_of cache /\ NoDup (map hash_of cache).
Proof. apply NoDup_cons. Qed.

(** The other words of the cache have other ids. *)
Lemma cached_ids T w cache w' : words_in T (w :: cache) -> w' ∈ cache -> w_wordid w' <> w_wordid w.
Proof.
  intros [_ _ W3 _ W5 W6 _] Hw E. apply Forall_cons in W5 as [Hc W5]. rewrite Forall_forall in W5. apply once_cons in W6 as [Hn _].
  apply Hn. rewrite (W3 (hash_of w) (hash_of w') (w_wordid w)); [by apply list_elem_of_fmap_2|apply Hc|]. rewrite <- E. by apply (co_map T w'), W5.
Qed.

Lemma pending_none cache id : (forall w, w ∈ cache -> w_wordid w <> id) -> pending cache id = [].
Proof. intros Hn. unfold pending. induction cache as [|w cache IH]; [done|]. rewrite filter_cons_False by (apply Hn, list_elem_of_here). apply IH. intros w' Hw. by apply Hn, list_elem_of_further. Qed.

(** ** Writing a word *)

(** A record with the names of the word was written before its chain, and the key has its place. *)
Record flushed T w T' (data : Z) : Prop := {
  fl_words : exists e, (w_wordid w, e) ∈ tb_words T /\ tb_words T' = set_entry (w_wordid w) (e.1, data) (tb_words T);
  fl_wmap : tb_wmap T' = tb_wmap T;
  fl_names : tb_names T' = tb_names T;
  fl_nmap : tb_nmap T' = tb_nmap T;
  fl_text : exists more, tb_text T' = tb_text T ++ more /\ (length more <= 136)%nat;
  fl_chain : forall cs, chain (tb_text T) (w_data w) cs -> exists cs', chain (tb_text T') data cs' /\ concat cs' = w_names w ++ concat cs;
  fl_data : data <> 0;
}.

Lemma flushed_cached T w T' data w' : flushed T w T' data -> w_wordid w' <> w_wordid w -> cached_ok T w' -> cached_ok T' w'.
Proof.
  intros [(e & He & Ew) Em _ _ _ _ _] Hne [C1 (e' & He' & Ed) C3 C4 C5]. split; try done; [by rewrite Em|].
  exists e'. split; [|done]. rewrite Ew. apply elem_of_set_entry. by right.
Qed.

Lemma flushed_ok T w cache T' data : words_in T (w :: cache) -> flushed T w T' data -> words_in T' cache /\
  tb_wmap T' !! hash_of w = Some (w_wordid w) /\ (exists e, (w_wordid w, e) ∈ tb_words T' /\ e.2 = data) /\
  (forall h ids, posting T (w :: cache) h ids -> posting T' cache h ids).
Proof.
  intros Hin Hf. pose proof Hin as [W1 W2 W3 W4 W5 W6 W7]. pose proof Hf as [(e & He & Ew) Em _ _ (more & Et & _) Hch Hd].
  apply Forall_cons in W5 as [Hc W5]. apply once_cons in W6 as [_ W6].
  assert (e.2 = w_data w) as Ed by (destruct (co_data _ _ Hc) as (e' & He' & <-); by rewrite (entry_unique _ _ e e' W1 He He')).
  assert (forall id e', (id, e') ∈ tb_words T' <-> (id = w_wordid w /\ e' = (e.1, data)) \/ (id <> w_wordid w /\ (id, e') ∈ tb_words T)) as Hw'.
  { intros id e'. rewrite Ew, elem_of_set_entry. split; [|intros [[-> ->]|?]; [left|by right]]; [intros [(-> & -> & _)|?]; [by left|by right]|by split; [|split; [|exists e]]]. }
  split; [|split; [rewrite Em; apply Hc|split; [exists (e.1, data); split; [apply Hw'; by left|done]|]]].
  - split; rewrite ?Em; try done.
    + by rewrite Ew, set_entry_ids.
    + intros h id Hh. destruct (W2 h id Hh) as (Hid & e' & He' & Hfl). split; [done|]. destruct (decide (id = w_wordid w)) as [->|Hne].
      * exists (e.1, data). split; [apply Hw'; by left|]. cbn. by rewrite (entry_unique _ _ e e' W1 He He').
      * exists e'. split; [apply Hw'; by right|done].
    + intros id e' [[-> ->]|[Hne He']]%Hw'.
      * destruct (W4 _ _ He) as (cs & Hcs). rewrite Ed in Hcs. destruct (Hch cs Hcs) as (cs' & Hcs' & _). by exists cs'.
      * destruct (W4 _ _ He') as (cs & Hcs). exists cs. rewrite Et. by apply chain_app.
    + rewrite Forall_forall in *. intros w' Hw. apply (flushed_cached T w T' data); [done|by apply (cached_ids T w cache)|by apply W5].
    + intros h id e' Hh [[-> ->]|[Hne He']]%Hw' H0; [done|]. destruct (W7 h id e' Hh He' H0) as (w' & [->|Hw]%elem_of_cons & E); [congruence|by exists w'].
  - intros h ids. unfold posting. rewrite Em. destruct (tb_wmap T !! h) as [id|]; [|done]. intros (e' & cs & He' & Hcs & Hi).
    rewrite pending_cons in Hi. destruct (decide (w_wordid w = id)) as [<-|Hne].
    + rewrite (entry_unique _ _ e' e W1 He' He), Ed in Hcs. destruct (Hch cs Hcs) as (cs' & Hcs' & Ec). exists (e.1, data), cs'.
      split; [apply Hw'; by left|]. split; [done|]. rewrite Ec, Hi. rewrite (pending_none cache); [by rewrite app_nil_r|]. intros w' Hw. by apply (cached_ids T w cache).
    + exists e', cs. split; [apply Hw'; right; by split; [apply not_eq_sym|]|]. split; [rewrite Et; by apply chain_app|done].
Qed.

(** ** Words that come into the cache *)

Definition with_ids (h : Z) (new : list Z) (h' : Z) ids : list Z := if h' =? h then new ++ ids else ids.

Lemma cache_word T cache w : words_in T cache -> cached_ok T w -> ~ hash_of w ∈ map hash_of cache -> words_in T (w :: cache) /\
  forall h ids, posting T cache h ids -> posting T (w :: cache) h (with_ids (hash_of w) (w_names w) h ids).
Proof.
  intros [W1 W2 W3 W4 W5 W6 W7] Hc Hn. split.
  - split; try done; [by constructor|by constructor|]. intros h id e Hh He H0. destruct (W7 h id e Hh He H0) as (w' & Hw & E).
    exists w'. split; [by apply list_elem_of_further|done].
  - intros h ids. unfold posting, with_ids. destruct (Z.eqb_spec h (hash_of w)) as [->|Hne].
    + rewrite (co_map _ _ Hc). intros (e & cs & He & Hcs & Hi). exists e, cs. do 2 (split; [done|]). rewrite pending_cons, decide_True by done.
      by rewrite Hi, app_assoc.
    + destruct (tb_wmap T !! h) as [id|] eqn:Eh; [|done]. intros (e & cs & He & Hcs & Hi). exists e, cs. do 2 (split; [done|]).
      rewrite pending_cons, decide_False; [done|]. intros <-. apply Hne. by apply (W3 h (hash_of w) (w_wordid w) Eh), Hc.
Qed.

(** One more name. *)
Lemma append_name T cache w id : words_in T (w :: cache) -> (length (w_names w) < names_size)%nat -> 0 <= id < 2 ^ 32 ->
  words_in T (set_w_names w (w_names w ++ [id]) :: cache) /\
  forall h ids, posting T (w :: cache) h ids -> posting T (set_w_names w (w_names w ++ [id]) :: cache) h (with_ids (hash_of w) [id] h ids).
Proof.
  intros Hin Hl Hid. pose proof Hin as [W1 W2 W3 W4 W5 W6 W7]. apply Forall_cons in W5 as [Hc W5]. pose proof Hc as [C1 C2 C3 C4 C5]. split.
  - split; try done.
    + constructor; [|done]. split; cbn; try done; [rewrite length_app; cbn; lia|by apply Forall_app; split; [|constructor]|by destruct (w_names w)].
    + intros h k e Hh He H0. destruct (W7 h k e Hh He H0) as (w' & [->|Hw]%elem_of_cons & E); [eexists; split; [apply list_elem_of_here|done]|].
      exists w'. split; [by apply list_elem_of_further|done].
  - intros h ids. unfold posting, with_ids. destruct (Z.eqb_spec h (hash_of w)) as [->|Hne].
    + rewrite C1. intros (e & cs & He & Hcs & Hi). exists e, cs. do 2 (split; [done|]). rewrite pending_cons, decide_True in Hi |- * by done. cbn.
      rewrite Hi. rewrite <- !app_assoc. cbn. by rewrite Permutation_middle.
    + destruct (tb_wmap T !! h) as [k|] eqn:Eh; [|done]. intros (e & cs & He & Hcs & Hi). exists e, cs. do 2 (split; [done|]).
      assert (w_wordid w <> k) as Hk by (intros <-; apply Hne; by apply (W3 h (hash_of w) (w_wordid w) Eh)).
      rewrite pending_cons, decide_False in Hi |- * by done. done.
Qed.

(** A new word. *)
Lemma new_word T cache (word : list Z) wid id key : words_in T cache -> tb_wmap T !! hash_key word = None -> wid <> 0 ->
  (forall e, ~ (wid, e) ∈ tb_words T) -> 0 <= id < 2 ^ 32 ->
  let T' := mkTables (tb_words T ++ [(wid, (key, 0, 0))]) (<[hash_key word := wid]> (tb_wmap T)) (tb_names T) (tb_nmap T) (tb_text T) in
  let w := mkWord 0 wid word [id] in
  words_in T' (w :: cache) /\ ~ hash_key word ∈ map hash_of cache /\
  forall h ids, posting T cache h ids -> posting T' (w :: cache) h (with_ids (hash_key word) [id] h ids).
Proof.
  intros [W1 W2 W3 W4 W5 W6 W7] Hh Hw0 Hnew Hid T' w. rewrite Forall_forall in W5.
  assert (forall k e, (k, e) ∈ tb_words T' <-> (k, e) ∈ tb_words T \/ k = wid /\ e = (key, 0, 0)) as Hw'.
  { intros k e. unfold T'. cbn. rewrite elem_of_app, list_elem_of_singleton. split; [intros [?|[= -> ->]]|intros [?|[-> ->]]]; auto. }
  assert (forall h k, tb_wmap T' !! h = Some k <-> h = hash_key word /\ k = wid \/ h <> hash_key word /\ tb_wmap T !! h = Some k) as Hm'.
  { intros h k. unfold T'. cbn. rewrite lookup_insert_Some. split; [intros [[<- <-]|[? ?]]|intros [[-> ->]|[? ?]]]; auto. }
  assert (forall h k, tb_wmap T !! h = Some k -> h <> hash_key word /\ k <> wid) as Hold.
  { intros h k Hk. split; [congruence|]. intros ->. destruct (W2 h wid Hk) as (_ & e & He & _). by apply (Hnew e). }
  assert (~ hash_key word ∈ map hash_of cache) as Hnc.
  { intros (w' & E & Hin)%list_elem_of_fmap. pose proof (co_map _ _ (W5 w' Hin)) as Hk. rewrite <- E in Hk. congruence. }
  split; [|split; [done|]].
  - split.
    + unfold T'. cbn. rewrite fmap_app. apply NoDup_app. split; [done|]. split; [|by apply NoDup_singleton].
      intros k Hk ->%list_elem_of_singleton. apply list_elem_of_fmap in Hk as ([k e] & E & He). cbn in E. subst k. by apply (Hnew e).
    + intros h k [[-> ->]|[_ Hk]]%Hm'; [split; [done|]; exists (key, 0, 0); split; [apply Hw'; by right|done]|].
      destruct (W2 h k Hk) as (? & e & He & Hfl). split; [done|]. exists e. split; [apply Hw'; by left|done].
    + intros h h' k [[-> ->]|[Hne Hk]]%Hm' [[-> Ek]|[Hne' Hk']]%Hm'; [done| | |by apply (W3 h h' k)].
      * by destruct (Hold h' wid Hk').
      * subst k. by destruct (Hold h wid Hk).
    + intros k e [He|[-> ->]]%Hw'; [by apply (W4 k)|by exists []].
    + constructor; [split; cbn; try done; [by apply Hm'; left|exists (key, 0, 0); split; [apply Hw'; by right|done]|unfold names_size; lia|by constructor]|].
      apply Forall_forall. intros w' Hin. destruct (W5 w' Hin) as [C1 (e & He & Ed) C3 C4 C5]. split; try done.
      * apply Hm'. right. split; [|done]. by destruct (Hold _ _ C1).
      * exists e. split; [apply Hw'; by left|done].
    + by constructor.
    + intros h k e [[-> ->]|[Hne Hk]]%Hm' He H0; [by exists w; split; [apply list_elem_of_here|]|]. apply Hw' in He as [He|[-> ->]]; [|by destruct (Hold h wid Hk)].
      destruct (W7 h k e Hk He H0) as (w' & Hin & E). exists w'. split; [by apply list_elem_of_further|done].
  - intros h ids. unfold posting, with_ids. destruct (Z.eqb_spec h (hash_key word)) as [->|Hne].
    + rewrite Hh. intros ->. rewrite (proj2 (Hm' (hash_key word) wid)) by by left. exists (key, 0, 0), []. split; [apply Hw'; by right|]. split; [done|].
      rewrite pending_cons, decide_True by done. cbn. rewrite pending_none; [done|]. intros w' Hin Ew.
      pose proof (co_map _ _ (W5 w' Hin)) as Hk. rewrite Ew in Hk. by destruct (Hold _ _ Hk).
    + destruct (tb_wmap T !! h) as [k|] eqn:Eh.
      * rewrite (proj2 (Hm' h k)) by by right. intros (e & cs & He & Hcs & Hi). exists e, cs. split; [apply Hw'; by left|]. split; [done|].
        rewrite pending_cons, decide_False; [done|]. cbn. intros <-. by destruct (Hold h wid Eh).
      * intros ->. unfold T'. cbn. by rewrite lookup_insert_ne, Eh by done.
Qed.
