(* ===== verification/TextIndexSpec.v ===== *)
(** * The text index: its tables and files

    The invariant of an index whose tables are open ([opened]): the tables share the blocks of a file,
    and the key file has the records.  What each access to a table, the root block or the key file does, and
    writing the names of a word. *)

From stdpp Require Import gmap.
From S2P Require Import Prelude BlockStore BlockStoreSpec BlockFrame TableFrame.
From S2P Require Import PartitionTable PartitionDataSpec PartitionTableSpec PartitionAddSpec.
From S2P Require Import KeyTable KeyDataSpec KeyTableSpec KeyTableNextSpec KeyFile KeyFileSpec TextIndex TextIndexWords.
#[local] Open Scope Z_scope.
#[local] Open Scope list_scope.

Section opened.
Context {B : Type} `{BlockStoreLaws B} `{!RootStore B} (good : B -> Prop) `{!RootStoreLaws B good} `{!IndexStore B good}.
Context {Q : QSort} {QL : QSortLaws Q}.
Implicit Types (p : CamelTextIndex B) (T : tables) (ws : list Z) (n : nat).

Definition clients p T : list client :=
  [keys_client (word_index p) (tb_words T); map_client (word_hash p) (tb_wmap T);
   keys_client (name_index p) (tb_names T); map_client (name_hash p) (tb_nmap T)].

(** There is room for [n] more blocks; the fields of the root block are [ws]. *)
Record opened n ws p T : Prop := {
  op_tenants : tenants good n ws (ti_blocks p) (clients p T);
  op_links : key_file (ti_links p) (tb_text T);
  op_fine : no_failures (kf_calls (ti_links p));
  op_head : (0 < length (tb_text T))%nat;
}.

(** The cache of words is as it was. *)
Record same_cache p p' : Prop := {
  sc_limit : word_cache_limit p' = word_cache_limit p;
  sc_count : word_cache_count p' = word_cache_count p;
  sc_cache : word_cache p' = word_cache p;
}.

#[local] Instance same_cache_preorder : PreOrder same_cache.
Proof. split; [by split|]. intros p1 p2 p3 [L1 C1 W1] [L2 C2 W2]. split; congruence. Qed.

Lemma opened_less n m ws p T : (m <= n)%nat -> opened n ws p T -> opened m ws p T.
Proof. intros Hm [O1 O2 O3 O4]. split; try done. by apply (tenants_less good n). Qed.

(** An operation of one table. *)
Lemma opened_step n ws p T i c : opened n ws p T -> clients p T !! i = Some c ->
  exists X Y, ready (rooted good ws) n X Y (ti_blocks p) c /\
    forall m c' p' T', goes_to (rooted good ws) m Y (ti_blocks p) (ti_blocks p') c' -> ti_links p' = ti_links p -> tb_text T' = tb_text T ->
      clients p' T' = <[i := c']> (clients p T) -> opened m ws p' T'.
Proof.
  intros [O1 O2 O3 O4] Hi. destruct (tenants_ready good n ws _ _ i c O1 Hi) as (X & Y & Hrd & Hback). exists X, Y. split; [done|].
  intros m c' p' T' Hg El Et Ec. split; rewrite ?El, ?Et; [|done..]. rewrite Ec. by apply Hback.
Qed.

(** Changing only the blocks. *)
Lemma opened_blocks n m ws ws' p T b : opened n ws p T -> tenants good m ws' b (clients p T) -> opened m ws' (set_ti_blocks p b) T.
Proof. intros [O1 O2 O3 O4] Ht. by split. Qed.

(** ** The root block *)

Definition bump (k : Z) ws : list Z := <[Z.to_nat (k - 6) := u32 (ws !!! Z.to_nat (k - 6) + 1)]> ws.

Lemma count_up_ok n ws p T k : opened n ws p T -> 6 <= k < 256 ->
  exists b', count_up p k = Ok (set_ti_blocks p b') /\ opened n (bump k ws) (set_ti_blocks p b') T.
Proof.
  intros Ho Hk. unfold count_up. rewrite (tenants_field good n ws _ (clients p T)), res_bind_Ok by (apply Ho || done).
  destruct (tenants_set_field good n ws _ _ k (u32 (ws !!! Z.to_nat (k - 6) + 1)) (op_tenants _ _ _ _ Ho) Hk) as (b' & -> & Ht).
  rewrite res_bind_Ok. exists b'. split; [done|]. by apply (opened_blocks n n ws).
Qed.

Lemma touch_index_ok n ws p T : opened n ws p T -> exists b', touch_index p = Ok (set_ti_blocks p b') /\ opened n ws (set_ti_blocks p b') T.
Proof.
  intros Ho. unfold touch_index. destruct (tenants_touch good n ws _ _ (op_tenants _ _ _ _ Ho)) as (b' & -> & Ht). rewrite res_bind_Ok.
  exists b'. split; [done|]. by apply (opened_blocks n n ws).
Qed.

Lemma opened_limits n ws p T x y : opened n ws p T -> opened n ws (set_word_limit (set_ti_blocks p (set_cache_limit (ti_blocks p) x)) y) T.
Proof. intros [O1 O2 O3 O4]. split; [|done..]. by apply tenants_limit. Qed.

Lemma opened_word_cache n ws p T count cache : opened n ws p T -> opened n ws (set_word_cache p count cache) T.
Proof. by intros [O1 O2 O3 O4]. Qed.

(** The counts of the root block. *)
Definition rb_count (k : Z) ws : Z := ws !!! Z.to_nat (k - 6).

Lemma fragmented_ok n ws p T : opened n ws p T ->
  fragmented p = Ok (too_fragmented (rb_count rb_words ws) (rb_count rb_names ws) (rb_count rb_deleted ws) (rb_count rb_keys ws)).
Proof.
  intros Ho. pose proof (fun k => tenants_field good n ws _ _ k (op_tenants _ _ _ _ Ho)) as Hf. unfold fragmented.
  rewrite !Hf by (unfold rb_words, rb_names, rb_deleted, rb_keys; lia). by rewrite !res_bind_Ok.
Qed.

(** ** Syncing the tables *)

Lemma keys_sync_at n ws p T i ki l : opened n ws p T -> clients p T !! i = Some (keys_client ki l) ->
  exists b' ret, camel_key_table_sync (ti_blocks p) ki = Ok (b', ret) /\ (ret = 0 \/ ret = -1) /\ opened n ws (set_ti_blocks p b') T.
Proof.
  intros Ho Hi. destruct (opened_step n ws p T i _ Ho Hi) as (X & Y & Hrd & Hback). destruct (keys_sync _ _ _ _ _ _ _ Hrd) as (b' & ret & E & Hret & Hg).
  exists b', ret. do 2 (split; [done|]). apply (Hback n _ (set_ti_blocks p b') T Hg); [done|done|]. by rewrite list_insert_id.
Qed.

Lemma map_sync_at n ws p T i t m : opened n ws p T -> clients p T !! i = Some (map_client t m) ->
  exists b' ret, camel_partition_table_sync (ti_blocks p) t = Ok (b', ret) /\ (ret = 0 \/ ret = -1) /\ opened n ws (set_ti_blocks p b') T.
Proof.
  intros Ho Hi. destruct (opened_step n ws p T i _ Ho Hi) as (X & Y & Hrd & Hback). destruct (map_sync _ _ _ _ _ _ _ Hrd) as (b' & ret & E & Hret & Hg).
  exists b', ret. do 2 (split; [done|]). apply (Hback n _ (set_ti_blocks p b') T Hg); [done|done|]. by rewrite list_insert_id.
Qed.

Lemma sync_tables_ok n ws p T : opened n ws p T ->
  exists b' ret, sync_tables p = Ok (set_ti_blocks p b', ret) /\ (ret = 0 \/ ret = -1) /\ opened n ws (set_ti_blocks p b') T.
Proof.
  intros Ho. unfold sync_tables. destruct (keys_sync_at n ws p T 0 _ _ Ho eq_refl) as (b1 & r1 & -> & Hr1 & Ho1). rewrite res_bind_Ok.
  destruct (Z.eqb_spec r1 (-1)); [exists b1, (-1); split; [done|]; split; [by right|done]|].
  destruct (keys_sync_at n ws _ T 2 _ _ Ho1 eq_refl) as (b2 & r2 & E2 & Hr2 & Ho2). cbn [ti_blocks set_ti_blocks name_index word_hash name_hash] in E2. rewrite E2, res_bind_Ok.
  destruct (Z.eqb_spec r2 (-1)); [exists b2, (-1); split; [done|]; split; [by right|done]|].
  destruct (map_sync_at n ws _ T 1 _ _ Ho2 eq_refl) as (b3 & r3 & E3 & Hr3 & Ho3). cbn [ti_blocks set_ti_blocks name_index word_hash name_hash] in E3. rewrite E3, res_bind_Ok.
  destruct (Z.eqb_spec r3 (-1)); [exists b3, (-1); split; [done|]; split; [by right|done]|].
  destruct (map_sync_at n ws _ T 3 _ _ Ho3 eq_refl) as (b4 & r4 & E4 & Hr4 & Ho4). cbn [ti_blocks set_ti_blocks name_index word_hash name_hash] in E4. rewrite E4, res_bind_Ok.
  by exists b4, r4.
Qed.

(** ** Tables of words *)

Lemma word_hash_lookup n ws p T key : opened n ws p T ->
  exists b', camel_partition_table_lookup (ti_blocks p) (word_hash p) key = Ok (b', default 0 (tb_wmap T !! hash_key key)) /\ opened n ws (set_ti_blocks p b') T.
Proof.
  intros Ho. destruct (opened_step n ws p T 1 _ Ho eq_refl) as (X & Y & Hrd & Hback). destruct (map_lookup _ _ _ _ _ _ _ key Hrd) as (b' & E & Hg).
  exists b'. split; [done|]. by apply (Hback n _ (set_ti_blocks p b') T Hg).
Qed.

Lemma word_hash_add n ws p T key k : opened (2 + n) ws p T -> tb_wmap T !! hash_key key = None -> ~ middle (ti_blocks p) (word_hash p) (hash_key key) ->
  exists b' t', camel_partition_table_add (ti_blocks p) (word_hash p) key k = Ok (b', t', 0) /\ rootid t' = rootid (word_hash p) /\
    opened n ws (set_word_hash (set_ti_blocks p b') t') (mkTables (tb_words T) (<[hash_key key := k]> (tb_wmap T)) (tb_names T) (tb_nmap T) (tb_text T)).
Proof.
  intros Ho Hn Hm. destruct (opened_step (2 + n) ws p T 1 _ Ho eq_refl) as (X & Y & Hrd & Hback).
  destruct (map_add _ _ _ _ _ _ _ key k Hrd Hn Hm Q QL) as (b' & t' & E & Er & Hg). exists b', t'. do 2 (split; [done|]). by apply (Hback n _ (set_word_hash (set_ti_blocks p b') t') _ Hg).
Qed.

Lemma word_index_lookup n ws p T keyid e want : opened n ws p T -> (keyid, e) ∈ tb_words T ->
  exists b', camel_key_table_lookup (ti_blocks p) (word_index p) keyid want = Ok (b', found_of e want) /\ opened n ws (set_ti_blocks p b') T.
Proof.
  intros Ho He. destruct (opened_step n ws p T 0 _ Ho eq_refl) as (X & Y & Hrd & Hback). destruct (keys_lookup _ _ _ _ _ _ _ keyid e want Hrd He) as (b' & E & Hg).
  exists b'. split; [done|]. by apply (Hback n _ (set_ti_blocks p b') T Hg).
Qed.

Lemma word_index_add n ws p T (key : list Z) (data flags : Z) : opened (S n) ws p T -> key <> [] -> Forall (fun x => 0 <= x < 256) key ->
  exists b' keyid, camel_key_table_add (ti_blocks p) (word_index p) key data flags = Ok (b', word_index p, keyid) /\ 0 < keyid < 2 ^ 32 /\
    (forall e, ~ (keyid, e) ∈ tb_words T) /\
    opened n ws (set_word_index (set_ti_blocks p b') (word_index p))
      (mkTables (tb_words T ++ [(keyid, (take 128 key, Z.land flags (Z.ones 22), data))]) (tb_wmap T) (tb_names T) (tb_nmap T) (tb_text T)).
Proof.
  intros Ho Hne Hk. destruct (opened_step (S n) ws p T 0 _ Ho eq_refl) as (X & Y & Hrd & Hback).
  destruct (keys_add _ _ _ _ _ _ _ key data flags Hrd Hne Hk) as (b' & keyid & E & Hid & Hnew & Hg). exists b', keyid. do 3 (split; [done|]). by apply (Hback n _ (set_word_index (set_ti_blocks p b') (word_index p)) _ Hg).
Qed.

Lemma word_index_set_data n ws p T keyid e x : opened n ws p T -> (keyid, e) ∈ tb_words T ->
  exists b', camel_key_table_set_data (ti_blocks p) (word_index p) keyid x = Ok b' /\
    opened n ws (set_ti_blocks p b') (mkTables (set_entry keyid (e.1, x) (tb_words T)) (tb_wmap T) (tb_names T) (tb_nmap T) (tb_text T)).
Proof.
  intros Ho He. destruct (opened_step n ws p T 0 _ Ho eq_refl) as (X & Y & Hrd & Hback). destruct (keys_set_data _ _ _ _ _ _ _ keyid e x Hrd He) as (b' & E & Hg).
  exists b'. split; [done|]. by apply (Hback n _ (set_ti_blocks p b') _ Hg).
Qed.

Lemma word_ids n ws p T : opened n ws p T -> NoDup (tb_words T).*1 /\ forall id e, (id, e) ∈ tb_words T -> 0 < id < 2 ^ 32.
Proof. intros Ho. by apply (keys_ids good n ws (ti_blocks p) (clients p T) 0 (word_index p)); [apply Ho|]. Qed.

(** ** Tables of names *)

Lemma name_hash_lookup n ws p T key : opened n ws p T ->
  exists b', camel_partition_table_lookup (ti_blocks p) (name_hash p) key = Ok (b', default 0 (tb_nmap T !! hash_key key)) /\ opened n ws (set_ti_blocks p b') T.
Proof.
  intros Ho. destruct (opened_step n ws p T 3 _ Ho eq_refl) as (X & Y & Hrd & Hback). destruct (map_lookup _ _ _ _ _ _ _ key Hrd) as (b' & E & Hg).
  exists b'. split; [done|]. by apply (Hback n _ (set_ti_blocks p b') T Hg).
Qed.

Lemma name_hash_remove n ws p T key : opened n ws p T ->
  exists b', camel_partition_table_remove (ti_blocks p) (name_hash p) key = Ok b' /\
    opened n ws (set_ti_blocks p b') (mkTables (tb_words T) (tb_wmap T) (tb_names T) (delete (hash_key key) (tb_nmap T)) (tb_text T)).
Proof.
  intros Ho. destruct (opened_step n ws p T 3 _ Ho eq_refl) as (X & Y & Hrd & Hback). destruct (map_remove _ _ _ _ _ _ _ key Hrd) as (b' & E & Hg).
  exists b'. split; [done|]. by apply (Hback n _ (set_ti_blocks p b') _ Hg).
Qed.

Lemma name_hash_add n ws p T key k : opened (2 + n) ws p T -> tb_nmap T !! hash_key key = None -> ~ middle (ti_blocks p) (name_hash p) (hash_key key) ->
  exists b' t', camel_partition_table_add (ti_blocks p) (name_hash p) key k = Ok (b', t', 0) /\
    opened n ws (set_name_hash (set_ti_blocks p b') t') (mkTables (tb_words T) (tb_wmap T) (tb_names T) (<[hash_key key := k]> (tb_nmap T)) (tb_text T)).
Proof.
  intros Ho Hn Hm. destruct (opened_step (2 + n) ws p T 3 _ Ho eq_refl) as (X & Y & Hrd & Hback).
  destruct (map_add _ _ _ _ _ _ _ key k Hrd Hn Hm Q QL) as (b' & t' & E & _ & Hg). exists b', t'. split; [done|]. by apply (Hback n _ (set_name_hash (set_ti_blocks p b') t') _ Hg).
Qed.

Lemma name_index_lookup n ws p T keyid e want : opened n ws p T -> (keyid, e) ∈ tb_names T ->
  exists b', camel_key_table_lookup (ti_blocks p) (name_index p) keyid want = Ok (b', found_of e want) /\ opened n ws (set_ti_blocks p b') T.
Proof.
  intros Ho He. destruct (opened_step n ws p T 2 _ Ho eq_refl) as (X & Y & Hrd & Hback). destruct (keys_lookup _ _ _ _ _ _ _ keyid e want Hrd He) as (b' & E & Hg).
  exists b'. split; [done|]. by apply (Hback n _ (set_ti_blocks p b') T Hg).
Qed.

Lemma name_index_add n ws p T (key : list Z) (data flags : Z) : opened (S n) ws p T -> key <> [] -> Forall (fun x => 0 <= x < 256) key ->
  exists b' keyid, camel_key_table_add (ti_blocks p) (name_index p) key data flags = Ok (b', name_index p, keyid) /\ 0 < keyid < 2 ^ 32 /\
    (forall e, ~ (keyid, e) ∈ tb_names T) /\
    opened n ws (set_name_index (set_ti_blocks p b') (name_index p))
      (mkTables (tb_words T) (tb_wmap T) (tb_names T ++ [(keyid, (take 128 key, Z.land flags (Z.ones 22), data))]) (tb_nmap T) (tb_text T)).
Proof.
  intros Ho Hne Hk. destruct (opened_step (S n) ws p T 2 _ Ho eq_refl) as (X & Y & Hrd & Hback).
  destruct (keys_add _ _ _ _ _ _ _ key data flags Hrd Hne Hk) as (b' & keyid & E & Hid & Hnew & Hg). exists b', keyid. do 3 (split; [done|]). by apply (Hback n _ (set_name_index (set_ti_blocks p b') (name_index p)) _ Hg).
Qed.

Lemma name_index_set_flags n ws p T keyid e flags set : opened n ws p T -> (keyid, e) ∈ tb_names T ->
  exists b', camel_key_table_set_flags (ti_blocks p) (name_index p) keyid flags set = Ok b' /\
    opened n ws (set_ti_blocks p b') (mkTables (tb_words T) (tb_wmap T)
      (set_entry keyid (e.1.1, Z.land (Z.lor (Z.ldiff e.1.2 set) (Z.land flags set)) (Z.ones 22), e.2) (tb_names T)) (tb_nmap T) (tb_text T)).
Proof.
  intros Ho He. destruct (opened_step n ws p T 2 _ Ho eq_refl) as (X & Y & Hrd & Hback). destruct (keys_set_flags _ _ _ _ _ _ _ keyid e flags set Hrd He) as (b' & E & Hg).
  exists b'. split; [done|]. by apply (Hback n _ (set_ti_blocks p b') _ Hg).
Qed.

Lemma name_ids n ws p T : opened n ws p T -> NoDup (tb_names T).*1 /\ forall id e, (id, e) ∈ tb_names T -> 0 < id < 2 ^ 32.
Proof. intros Ho. by apply (keys_ids good n ws (ti_blocks p) (clients p T) 2 (name_index p)); [apply Ho|]. Qed.

(** ** The key file *)

(** Writing the names of a word: the key file takes them before the records of the word. *)
Lemma links_write n ws p T parent names : opened n ws p T -> (exists cs, chain (tb_text T) parent cs) -> (length names <= names_size)%nat ->
  Forall (fun id => 0 <= id < 2 ^ 32) names -> (parent = 0 -> names <> []) -> Z.of_nat (length (tb_text T)) < 2 ^ 32 ->
  exists kf data more, camel_key_file_write (ti_links p) parent names = (kf, data, Z.of_nat (length names)) /\ data <> 0 /\ (length more <= 136)%nat /\
    opened n ws (set_ti_links p kf) (mkTables (tb_words T) (tb_wmap T) (tb_names T) (tb_nmap T) (tb_text T ++ more)) /\
    forall cs, chain (tb_text T) parent cs -> exists cs', chain (tb_text T ++ more) data cs' /\ concat cs' = names ++ concat cs.
Proof.
  intros Ho (cs0 & Hc0) Hl Hn Hp Hlen. pose proof Ho as [O1 O2 O3 O4]. destruct (decide (names = [])) as [->|Hne].
  - exists (ti_links p), parent, []. split; [done|]. split; [by intros ->; apply Hp|]. split; [cbn; lia|]. rewrite app_nil_r. split; [|intros cs Hc; by exists cs].
    by split.
  - assert (words_ok names) as Hw by (split; [destruct names; [done|unfold names_size in Hl; cbn in *; lia]|done]).
    destruct (write_record_ok (ti_links p) (tb_text T) parent names O2 Hw) as (kf & data & ret & E & S1 & [(-> & -> & Hk)|(_ & _ & _ & Hx)]); [lia| |done].
    exists kf, (Z.of_nat (length (tb_text T))), (record parent names). split; [done|]. split; [lia|].
    split; [rewrite record_length; unfold names_size in Hl; lia|]. split; [split; [done|done|by apply (step_fine (ti_links p))|cbn; rewrite length_app; lia]|].
    intros cs Hc. exists (names :: cs). split; [|done]. apply chain_cons; [done|done|lia|]. destruct (chain_within _ _ _ Hc); lia.
Qed.

Lemma write_word_ok n ws p T w : opened n ws p T -> cached_ok T w -> (exists cs, chain (tb_text T) (w_data w) cs) -> Z.of_nat (length (tb_text T)) < 2 ^ 32 ->
  exists p' T' data, write_word p w = Ok (p', set_w_data w data, true) /\ opened n (bump rb_keys ws) p' T' /\ flushed T w T' data /\ same_cache p p'.
Proof.
  intros Ho [C1 (e & He & Ed) C3 C4 C5] Hcs Hlen. unfold write_word.
  destruct (links_write n ws p T (w_data w) (w_names w) Ho Hcs C3 C4 C5 Hlen) as (kf & data & more & -> & Hd & Hm & Ho1 & Hch).
  destruct (Z.eqb_spec (Z.of_nat (length (w_names w))) (-1)); [lia|].
  destruct (count_up_ok n ws _ _ rb_keys Ho1) as (b1 & -> & Ho2); [unfold rb_keys; lia|]. rewrite res_bind_Ok.
  destruct (touch_index_ok _ _ _ _ Ho2) as (b2 & -> & Ho3). rewrite res_bind_Ok. cbn [word_index ti_blocks set_ti_blocks set_ti_links w_wordid set_w_data].
  destruct (word_index_set_data _ _ _ _ (w_wordid w) e data Ho3 He) as (b3 & E3 & Ho4).
  cbn [word_index ti_blocks set_ti_blocks set_ti_links] in E3. rewrite E3, res_bind_Ok.
  eexists _, _, data. split; [done|]. split; [exact Ho4|]. split; [|by split]. split; cbn; try done; [by exists e|by exists more].
Qed.
End opened.
