(* ===== verification/TextIndexAddSpec.v ===== *)
(** * The text index: adding names to words, and syncing

    Adding a name to a word puts its id among the names of the word, whether they are in the cache or
    written; making the cache smaller and syncing keep the names of all words. *)

From stdpp Require Import gmap.
From S2P Require Import Prelude BlockStore BlockStoreSpec BlockFrame TableFrame.
From S2P Require Import PartitionTable PartitionDataSpec PartitionTableSpec PartitionAddSpec.
From S2P Require Import KeyTable KeyDataSpec KeyTableSpec KeyTableNextSpec KeyFile KeyFileSpec TextIndex TextIndexWords TextIndexSpec.
#[local] Open Scope Z_scope.
#[local] Open Scope list_scope.

Section words.
Context {B : Type} `{BlockStoreLaws B} `{!RootStore B} (good : B -> Prop) `{!RootStoreLaws B good} `{!IndexStore B good}.
Context {Q : QSort} {QL : QSortLaws Q}.
Implicit Types (p : CamelTextIndex B) (T : tables) (ws : list Z) (n : nat) (w : CamelTextIndexWord) (cache : list CamelTextIndexWord).

(** The invariant. *)
Record index_at n ws p T : Prop := {
  ia_opened : opened good n ws p T;
  ia_words : words_in T (word_cache p);
  ia_used : Forall (fun w => (length (w_names w) < names_size)%nat) (word_cache p);
}.

(** No more than this is in the key file when all words are written. *)
Definition weight T cache : nat := length (tb_text T) + 136 * length cache.

(** Nothing changes for who looks at the names of words. *)
Record moved p T p' T' : Prop := {
  mv_names : tb_names T' = tb_names T;
  mv_nmap : tb_nmap T' = tb_nmap T;
  mv_weight : (weight T' (word_cache p') <= weight T (word_cache p))%nat;
  mv_posting : forall h ids, posting T (word_cache p) h ids -> posting T' (word_cache p') h ids;
  mv_cache : forall w', w' ∈ word_cache p' -> exists w, w ∈ word_cache p /\ w_word w' = w_word w;
}.

Lemma moved_refl p T : moved p T p T.
Proof. split; try done. intros w Hw. by exists w. Qed.

Lemma moved_trans p1 T1 p2 T2 p3 T3 : moved p1 T1 p2 T2 -> moved p2 T2 p3 T3 -> moved p1 T1 p3 T3.
Proof.
  intros [N1 M1 W1 P1 C1] [N2 M2 W2 P2 C2]. split; [congruence|congruence|lia|auto|].
  intros w' Hw'. destruct (C2 w' Hw') as (w2 & Hw2 & ->). by apply C1.
Qed.

(** ** Words in the cache *)

Lemma words_distinct cache w w' : NoDup (map hash_of (w :: cache)) -> w' ∈ cache -> w_word w' <> w_word w.
Proof. intros [Hn _]%once_cons Hw E. apply Hn. unfold hash_of at 1. rewrite <- E. by apply (list_elem_of_fmap_2 hash_of). Qed.

Lemma uncache_none word cache : (forall w, w ∈ cache -> w_word w <> word) -> uncache word cache = cache.
Proof.
  intros Hn. unfold uncache. induction cache as [|w cache IH]; [done|]. rewrite filter_cons_True by (apply Hn, list_elem_of_here).
  f_equal. apply IH. intros w' Hw. by apply Hn, list_elem_of_further.
Qed.

Lemma uncache_split l1 w l2 : NoDup (map hash_of (l1 ++ w :: l2)) -> uncache (w_word w) (l1 ++ w :: l2) = l1 ++ l2.
Proof.
  intros Hn. assert (NoDup (map hash_of (w :: l1 ++ l2))) as Hn' by (revert Hn; rewrite <- Permutation_middle; done).
  unfold uncache. rewrite filter_app, filter_cons_False by (intros Hne; by apply Hne). rewrite <- filter_app. apply uncache_none.
  intros w' Hw. by apply (words_distinct (l1 ++ l2)).
Qed.

Lemma cached_some p word w : NoDup (map hash_of (word_cache p)) -> cached p word = Some w -> exists l1 l2, word_cache p = l1 ++ w :: l2 /\
  w_word w = word /\ uncache word (word_cache p) = l1 ++ l2.
Proof.
  intros Hn Hc. unfold cached in Hc. apply fmap_Some in Hc as ([i w'] & (Hi & Hw & _)%list_find_Some & ->). cbn.
  apply list_elem_of_split_length in Hi as (l1 & l2 & E & _). exists l1, l2. split; [done|]. split; [done|]. rewrite E in Hn |- *. rewrite <- Hw. by apply uncache_split.
Qed.

Lemma cached_none p word w : cached p word = None -> w ∈ word_cache p -> w_word w <> word.
Proof.
  intros Hc Hw. unfold cached in Hc. apply fmap_None in Hc. apply list_find_None in Hc. rewrite Forall_forall in Hc. by apply Hc.
Qed.

(** ** Writing a word of the cache *)

Lemma write_cached n ws p T w rest : opened good n ws p T -> words_in T (w :: rest) -> Z.of_nat (length (tb_text T)) < 2 ^ 32 ->
  exists p' T' data, write_word p w = Ok (p', set_w_data w data, true) /\ opened good n (bump rb_keys ws) p' T' /\ same_cache p p' /\
    words_in T' rest /\ cached_ok T' (set_w_names (set_w_data w data) []) /\ tb_names T' = tb_names T /\ tb_nmap T' = tb_nmap T /\
    (length (tb_text T') <= length (tb_text T) + 136)%nat /\
    forall h ids, posting T (w :: rest) h ids -> posting T' rest h ids.
Proof.
  intros Ho Hin Hl. pose proof (Forall_inv (wi_cached _ _ Hin)) as Hc. destruct (co_data _ _ Hc) as (e & He & Ed).
  destruct (write_word_ok good n ws p T w Ho Hc) as (p' & T' & data & E & Ho' & Hf & Hsc); [rewrite <- Ed; by apply (wi_chains _ _ Hin (w_wordid w))|done|].
  destruct (flushed_ok T w rest T' data Hin Hf) as (Hin' & Hm & (e' & He' & Ed') & Hp). exists p', T', data.
  do 4 (split; [done|]). split; [|split; [apply Hf|split; [apply Hf|split; [|done]]]].
  - split; cbn; try done; [by exists e'|unfold names_size; lia|by intros ->; destruct (fl_data _ _ _ _ Hf)].
  - destruct (fl_text _ _ _ _ Hf) as (more & -> & Hmore). rewrite length_app. lia.
Qed.

(** ** Making the cache smaller *)

Lemma evict_ok n l ws p T : word_cache p = rev l -> index_at n ws p T -> Z.of_nat (weight T (word_cache p)) < 2 ^ 32 ->
  exists p' ws' T', evict p l = Ok p' /\ index_at n ws' p' T' /\ moved p T p' T'.
Proof.
  revert ws p T. induction l as [|w l IH]; intros ws p T Ec Hia Hw; cbn [evict]; [exists p, ws, T; split; [done|]; split; [done|]; apply moved_refl|].
  destruct (word_cache_limit p <? word_cache_count p); [|exists p, ws, T; split; [done|]; split; [done|]; apply moved_refl].
  destruct Hia as [Ho Hin Hu]. cbn [rev] in Ec. assert (word_cache p ≡ₚ w :: rev l) as Hperm by (rewrite Ec; symmetry; apply Permutation_cons_append).
  pose proof (words_in_perm _ _ _ Hperm Hin) as Hin1. unfold weight in Hw.
  destruct (write_cached n ws p T w (rev l) Ho Hin1) as (p1 & T1 & data & -> & Ho1 & [S1 S2 S3] & Hin2 & _ & En & Em & Hlen & Hp); [lia|].
  rewrite res_bind_Ok. cbn [w_word set_w_data]. set (p2 := set_word_cache p1 _ _).
  assert (word_cache p2 = rev l) as Ec2.
  { unfold p2. cbn. rewrite S3, Ec. rewrite uncache_split; [by rewrite app_nil_r|]. rewrite <- Ec. apply (wi_once _ _ Hin). }
  assert (length (word_cache p) = S (length (rev l))) as Elen by (rewrite Ec, length_app; cbn; lia).
  assert (index_at n (bump rb_keys ws) p2 T1) as Hia2.
  { split; [by apply opened_word_cache|by rewrite Ec2|]. rewrite Ec2. rewrite Ec in Hu. by apply Forall_app in Hu as [? _]. }
  assert (moved p T p2 T1) as Hmv.
  { split; [done|done|unfold weight; rewrite Ec2; lia| |].
    - intros h ids Hpo. rewrite Ec2. apply Hp. by apply (posting_perm T (word_cache p)).
    - intros w' Hw'. rewrite Ec2 in Hw'. exists w'. split; [|done]. rewrite Ec. apply elem_of_app. by left. }
  destruct (IH _ p2 T1 Ec2 Hia2) as (p3 & ws3 & T3 & E3 & Hia3 & Hmv3); [pose proof (mv_weight _ _ _ _ Hmv); unfold weight in *; lia|].
  exists p3, ws3, T3. split; [exact E3|]. split; [done|]. by apply (moved_trans p T p2 T1).
Qed.

(** ** Adding a name to a word *)

(** The table of hashes is not in the state in which adding to it goes wrong. *)
Definition word_fits p (word : list Z) : Prop :=
  forall b1 b2 ki wordid, camel_partition_table_lookup (ti_blocks p) (word_hash p) word = Ok (b1, 0) ->
    camel_key_table_add b1 (word_index p) word 0 0 = Ok (b2, ki, wordid) -> ~ middle b2 (word_hash p) (hash_key word).

(** No other word of the cache has the hash. *)
Definition no_clash p (word : list Z) : Prop := forall w, w ∈ word_cache p -> hash_of w = hash_key word -> w_word w = word.

(** A word has one name more. *)
Record name_added p T p' T' (word : list Z) (id : Z) : Prop := {
  na_names : tb_names T' = tb_names T;
  na_nmap : tb_nmap T' = tb_nmap T;
  na_weight : (weight T' (word_cache p') <= weight T (word_cache p) + 136)%nat;
  na_posting : forall h ids, posting T (word_cache p) h ids -> posting T' (word_cache p') h (with_ids (hash_key word) [id] h ids);
  na_cache : forall w', w' ∈ word_cache p' -> w_word w' = word \/ exists w, w ∈ word_cache p /\ w_word w' = w_word w;
}.

Lemma added_moved p1 T1 p2 T2 p3 T3 word id : name_added p1 T1 p2 T2 word id -> moved p2 T2 p3 T3 -> name_added p1 T1 p3 T3 word id.
Proof.
  intros [N1 M1 W1 P1 C1] [N2 M2 W2 P2 C2]. split; [congruence|congruence|lia|auto|].
  intros w' Hw'. destruct (C2 w' Hw') as (w2 & Hw2 & ->). by apply C1.
Qed.

(** A word that is in the tables but not in the cache has data. *)
Lemma known_word T cache (word : list Z) wid : words_in T cache -> tb_wmap T !! hash_key word = Some wid -> ~ hash_key word ∈ map hash_of cache ->
  exists e, (wid, e) ∈ tb_words T /\ e.2 <> 0.
Proof.
  intros [W1 W2 W3 W4 W5 W6 W7] Hm Hn. destruct (W2 _ _ Hm) as (_ & e & He & _). exists e. split; [done|]. intros Hz.
  destruct (W7 _ _ _ Hm He Hz) as (w & Hw & E). apply Hn. rewrite Forall_forall in W5. pose proof (co_map _ _ (W5 w Hw)) as Hc. rewrite E in Hc.
  rewrite (W3 _ _ _ Hm Hc). by apply list_elem_of_fmap_2.
Qed.

(** The id and the data of a word that is not in the cache, as a word of the cache. *)
Lemma find_word_ok n ws p T (word : list Z) id : index_at (3 + n) ws p T -> ~ hash_key word ∈ map hash_of (word_cache p) -> word <> [] ->
  Forall (fun c => 0 <= c < 256) word -> 0 <= id < 2 ^ 32 -> word_fits p word ->
  exists p' ws' T' wordid data, find_word p word = Ok (p', Some (wordid, data)) /\ opened good n ws' p' T' /\ same_cache p p' /\
    words_in T' (mkWord data wordid word [id] :: word_cache p) /\ tb_names T' = tb_names T /\ tb_nmap T' = tb_nmap T /\ tb_text T' = tb_text T /\
    forall h ids, posting T (word_cache p) h ids -> posting T' (mkWord data wordid word [id] :: word_cache p) h (with_ids (hash_key word) [id] h ids).
Proof.
  intros [Ho Hin Hu] Hn Hne Hb Hid Hfit. unfold find_word. destruct (word_hash_lookup good _ _ _ _ word Ho) as (b1 & E1 & Ho1). rewrite E1, res_bind_Ok.
  destruct (tb_wmap T !! hash_key word) as [wid|] eqn:Em.
  - change (default 0 (Some wid)) with wid in *. destruct (known_word T _ word wid Hin Em Hn) as (e & He & Hd). pose proof (wi_map _ _ Hin _ _ Em) as [Hw0 _].
    destruct (Z.eqb_spec wid 0) as [|_]; [done|]. destruct (word_index_lookup good _ _ _ _ wid e false Ho1 He) as (b2 & E2 & Ho2).
    cbv zeta. rewrite E2, res_bind_Ok. unfold found_of. cbn [snd].
    destruct (Z.eqb_spec e.2 0) as [|_]; [done|]. eexists _, ws, T, wid, e.2. split; [done|].
    split; [apply (opened_less good (3 + n)); [lia|exact Ho2]|]. split; [by split|].
    destruct (cache_word T (word_cache p) (mkWord e.2 wid word [id]) Hin) as [Hin' Hp].
    { split; cbn; [done|by exists e|unfold names_size; lia|by constructor|done]. }
    { exact Hn. }
    by split; [|split; [|split; [|split]]].
  - change (default 0 (@None Z)) with 0 in *. cbn [Z.eqb]. destruct (word_index_add good _ _ _ _ word 0 0 Ho1 Hne Hb) as (b2 & wid & E2 & Hwid & Hnew & Ho2).
    cbv zeta. rewrite E2, res_bind_Ok. destruct (Z.eqb_spec wid 0) as [|_]; [lia|].
    destruct (word_hash_add good n _ _ _ word wid Ho2) as (b3 & t' & E3 & _ & Ho3); [done|by apply (Hfit b1 b2 (word_index p) wid)|].
    cbn [word_index set_ti_blocks] in *. rewrite E3, res_bind_Ok. change (0 =? -1) with false. cbv iota.
    destruct (count_up_ok good _ _ _ _ rb_words Ho3) as (b4 & E4 & Ho4); [unfold rb_words; lia|]. rewrite E4, res_bind_Ok.
    destruct (touch_index_ok good _ _ _ _ Ho4) as (b5 & E5 & Ho5). rewrite E5, res_bind_Ok.
    destruct (new_word T (word_cache p) word wid id (take 128 word) Hin Em) as (Hin' & _ & Hp); [lia|done|done|].
    eexists _, _, _, wid, 0. split; [done|]. split; [exact Ho5|]. by split; [|split; [|split; [|split; [|split]]]].
Qed.

(** One more name for a word of the cache. *)
Lemma add_cached n ws p T w l1 l2 id : index_at n ws p T -> word_cache p = l1 ++ w :: l2 -> 0 <= id < 2 ^ 32 ->
  Z.of_nat (weight T (word_cache p)) < 2 ^ 32 ->
  exists p' ws' T', (let w := set_w_names w (w_names w ++ [id]) in
        if (length (w_names w) =? names_size)%nat then
          '(p, w, _) ← write_word p w;
          Ok (set_word_cache p (word_cache_count p) (set_w_names w [] :: l1 ++ l2))
        else Ok (set_word_cache p (word_cache_count p) (w :: l1 ++ l2))) = Ok p' /\
    index_at n ws' p' T' /\ name_added p T p' T' (w_word w) id.
Proof.
  intros [Ho Hin Hu] Ec Hid Hw. assert (word_cache p ≡ₚ w :: l1 ++ l2) as Hperm by (by rewrite Ec, Permutation_middle).
  assert (length (word_cache p) = S (length (l1 ++ l2))) as Elen by (by rewrite Hperm).
  rewrite Hperm in Hu. apply Forall_cons in Hu as [Hu1 Hu]. destruct (append_name T (l1 ++ l2) w id (words_in_perm _ _ _ Hperm Hin) Hu1 Hid) as [Hin1 Hp1].
  set (w1 := set_w_names w (w_names w ++ [id])) in *. cbv zeta.
  assert (forall h ids, posting T (word_cache p) h ids -> posting T (w1 :: l1 ++ l2) h (with_ids (hash_key (w_word w)) [id] h ids)) as Hp2.
  { intros h ids Hpo. apply Hp1. by apply (posting_perm T (word_cache p)). }
  assert (forall w', w' ∈ l1 ++ l2 -> exists w0, w0 ∈ word_cache p /\ w_word w' = w_word w0) as Hsub.
  { intros w' Hw'. exists w'. split; [|done]. rewrite Hperm. by apply list_elem_of_further. }
  destruct (Nat.eqb_spec (length (w_names w1)) names_size) as [El|El].
  - unfold weight in Hw. destruct (write_cached n ws p T w1 (l1 ++ l2) Ho Hin1) as (p2 & T2 & data & -> & Ho2 & [S1 S2 S3] & Hin2 & Hc2 & En & Em & Hl & Hp3); [lia|].
    rewrite res_bind_Ok. set (w2 := set_w_names (set_w_data w1 data) []) in *.
    destruct (cache_word T2 (l1 ++ l2) w2 Hin2 Hc2) as [Hin3 Hp4]; [apply (once_cons w1), (wi_once _ _ Hin1)|].
    eexists _, _, T2. split; [done|]. split; [|split; cbn; try done].
    + split; [by apply opened_word_cache|done|]. by constructor; [unfold names_size; cbn; lia|].
    + unfold weight. cbn [word_cache set_word_cache]. cbn [length]. lia.
    + intros h ids Hpo. specialize (Hp4 h _ (Hp3 h _ (Hp2 h ids Hpo))).
      replace (with_ids (hash_of w2) (w_names w2) h _) with (with_ids (hash_key (w_word w)) [id] h ids) in Hp4; [done|].
      unfold with_ids at 2. by destruct (h =? hash_of w2).
    + intros w' [->|Hw']%elem_of_cons; [by left|]. right. by apply Hsub.
  - eexists _, _, T. split; [done|]. split; [|split; cbn; try done].
    + split; [by apply opened_word_cache|done|]. constructor; [|done]. pose proof (co_used _ _ (Forall_inv (wi_cached _ _ Hin1))). lia.
    + unfold weight. cbn [word_cache set_word_cache]. cbn [length]. lia.
    + intros w' [->|Hw']%elem_of_cons; [by left|]. right. by apply Hsub.
Qed.

Lemma add_name_to_word_ok n ws p T (word : list Z) id : index_at (3 + n) ws p T -> no_clash p word -> word_fits p word -> word <> [] ->
  Forall (fun c => 0 <= c < 256) word -> 0 <= id < 2 ^ 32 -> Z.of_nat (weight T (word_cache p)) + 136 < 2 ^ 32 ->
  exists p' ws' T', text_index_add_name_to_word p word id = Ok p' /\ index_at n ws' p' T' /\ name_added p T p' T' word id.
Proof.
  intros Hia Hcl Hfit Hne Hb Hid Hw. pose proof Hia as [Ho Hin Hu]. unfold text_index_add_name_to_word. destruct (cached p word) as [w|] eqn:Ec.
  - destruct (cached_some p word w (wi_once _ _ Hin) Ec) as (l1 & l2 & El & <- & Eu). rewrite Eu.
    assert (w ∈ word_cache p) as Hwp by (rewrite El; apply elem_of_app; right; apply list_elem_of_here). rewrite Forall_forall in Hu.
    destruct (Nat.ltb_spec (length (w_names w)) names_size); [|pose proof (Hu w Hwp); lia].
    apply (add_cached n ws p T w l1 l2 id); [|done|done|lia]. split; [by apply (opened_less good (3 + n)); [lia|]|done|by apply Forall_forall].
  - assert (~ hash_key word ∈ map hash_of (word_cache p)) as Hn.
    { intros (w & E & Hwp)%list_elem_of_fmap. by apply (cached_none p word w Ec Hwp), Hcl. }
    destruct (find_word_ok n ws p T word id Hia Hn Hne Hb Hid Hfit) as (p1 & ws1 & T1 & wid & data & -> & Ho1 & [S1 S2 S3] & Hin1 & En & Em & Et & Hp). rewrite res_bind_Ok.
    rewrite S3. set (w := mkWord data wid word [id]) in *. set (p2 := set_word_cache p1 _ _).
    assert (index_at n ws1 p2 T1) as Hia2 by (split; [by apply opened_word_cache|done|constructor; [unfold names_size; cbn; lia|done]]).
    assert (name_added p T p2 T1 word id) as Hadd.
    { split; [done|done|unfold weight; rewrite Et; cbn; lia|done|]. intros w' [->|Hw']%elem_of_cons; [by left|]. right. by exists w'. }
    destruct (evict_ok n (rev (word_cache p2)) ws1 p2 T1) as (p3 & ws3 & T3 & E3 & Hia3 & Hmv); [by rewrite rev_involutive|done|pose proof (na_weight _ _ _ _ _ _ Hadd); lia|].
    exists p3, ws3, T3. split; [exact E3|]. split; [done|]. by apply (added_moved p T p2 T1).
Qed.

(** ** All words of a name *)

Definition with_words (words : list (list Z)) (id h : Z) (ids : list Z) : list Z :=
  if bool_decide (h ∈ map hash_key words) then id :: ids else ids.

Lemma with_words_cons word words id h ids : ~ hash_key word ∈ map hash_key words ->
  with_words words id h (with_ids (hash_key word) [id] h ids) = with_words (word :: words) id h ids.
Proof.
  intros Hn. unfold with_words, with_ids. cbn [map]. destruct (Z.eqb_spec h (hash_key word)) as [->|Hne].
  - rewrite bool_decide_false, bool_decide_true by (done || apply list_elem_of_here). done.
  - destruct (decide (h ∈ map hash_key words)) as [Hh|Hh].
    + rewrite !bool_decide_true; [done|by apply list_elem_of_further|done].
    + rewrite !bool_decide_false; [done| |done]. by intros [?|?]%elem_of_cons.
Qed.

(** Words as [camel_index_name_add_word] has them, with different hashes. *)
Definition words_fine (words : list (list Z)) : Prop :=
  Forall (fun word => word <> [] /\ Forall (fun c => 0 <= c < 256) word) words /\ NoDup (map hash_key words).

Lemma hash_write_words_ok n ws p T (words : list (list Z)) id : index_at (3 * length words + n) ws p T -> words_fine words ->
  (forall word, word ∈ words -> no_clash p word) ->
  (forall l1 word l2 p1, words = l1 ++ word :: l2 -> hash_write_words p id l1 = Ok p1 -> word_fits p1 word) ->
  0 <= id < 2 ^ 32 -> Z.of_nat (weight T (word_cache p) + 136 * length words) < 2 ^ 32 ->
  exists p' ws' T', hash_write_words p id words = Ok p' /\ index_at n ws' p' T' /\ tb_names T' = tb_names T /\ tb_nmap T' = tb_nmap T /\
    (weight T' (word_cache p') <= weight T (word_cache p) + 136 * length words)%nat /\
    forall h ids, posting T (word_cache p) h ids -> posting T' (word_cache p') h (with_words words id h ids).
Proof.
  revert ws p T. induction words as [|word words IH]; intros ws p T Hia [Hf Hn] Hcl Hfit Hid Hw; cbn [hash_write_words].
  { exists p, ws, T. split; [done|]. split; [done|]. do 2 (split; [done|]). split; [lia|]. intros h ids Hpo. unfold with_words. by rewrite bool_decide_false by by intros ?%not_elem_of_nil. }
  cbn [length] in *. apply Forall_cons in Hf as [[Hne Hb] Hf]. cbn [map] in Hn. apply NoDup_cons in Hn as [Hnh Hn].
  replace (3 * S (length words) + n)%nat with (3 + (3 * length words + n))%nat in Hia by lia.
  destruct (add_name_to_word_ok _ ws p T word id Hia) as (p1 & ws1 & T1 & E1 & Hia1 & [A1 A2 A3 A4 A5]); try done.
  { apply Hcl, list_elem_of_here. } { by apply (Hfit [] word words p). } { lia. }
  rewrite E1, res_bind_Ok. destruct (IH ws1 p1 T1 Hia1) as (p2 & ws2 & T2 & E2 & Hia2 & N2 & M2 & W2 & P2); try done.
  - intros word2 Hw2 w' Hw' Eh. destruct (A5 w' Hw') as [Ew|(w & Hwp & Ew)].
    + exfalso. apply Hnh. unfold hash_of in Eh. rewrite Ew in Eh. rewrite Eh. by apply list_elem_of_fmap_2.
    + rewrite Ew. apply (Hcl word2); [by apply list_elem_of_further|done|]. unfold hash_of in *. by rewrite <- Ew.
  - intros l1 word2 l2 p3 -> E3. apply (Hfit (word :: l1) word2 l2 p3); [done|]. cbn [hash_write_words]. by rewrite E1, res_bind_Ok.
  - lia.
  - exists p2, ws2, T2. split; [done|]. split; [done|]. split; [congruence|]. split; [congruence|]. split; [lia|].
    intros h ids Hpo. rewrite <- with_words_cons by done. by apply P2, A4.
Qed.

(** ** Syncing *)

Lemma set_entry_same (l : list (Z * entry)) id e : NoDup l.*1 -> (id, e) ∈ l -> set_entry id e l = l.
Proof.
  intros Hn He. unfold set_entry. assert (forall x, x ∈ l -> (if x.1 =? id then (id, e) else x) = x) as Hx.
  { intros [k x] Hx. cbn. destruct (Z.eqb_spec k id) as [->|]; [|done]. f_equal. by apply (entry_unique l id). }
  clear Hn He. induction l as [|x l IH]; [done|]. cbn. f_equal; [apply Hx, list_elem_of_here|]. apply IH. intros y Hy. by apply Hx, list_elem_of_further.
Qed.

(** A word without names to write is dropped. *)
Lemma drop_word T w rest : words_in T (w :: rest) -> w_names w = [] -> words_in T rest /\
  forall h ids, posting T (w :: rest) h ids -> posting T rest h ids.
Proof.
  intros Hin En. pose proof (Forall_inv (wi_cached _ _ Hin)) as [C1 (e & He & Ed) C3 C4 C5].
  destruct (flushed_ok T w rest T (w_data w) Hin) as (Hin' & _ & _ & Hp); [|done]. split; try done.
  - exists e. split; [done|]. rewrite set_entry_same; [done|apply Hin|]. rewrite <- Ed. by destruct e.
  - exists []. split; [by rewrite app_nil_r|cbn; lia].
  - intros cs Hcs. exists cs. by rewrite En.
  - intros E0. by apply C5.
Qed.

(** The words with names to write. *)
Definition to_write cache : nat := length (filter (fun w => w_names w <> []) cache).

Lemma sync_words_ok n ws p T : index_at n ws p T -> Z.of_nat (weight T (word_cache p)) < 2 ^ 32 ->
  exists p' T', sync_words p (word_cache p) 0 = Ok (p', 0) /\ index_at n (Nat.iter (to_write (word_cache p)) (bump rb_keys) ws) p' T' /\
    word_cache p' = [] /\ moved p T p' T'.
Proof.
  intros Hia Hw. remember (word_cache p) as l eqn:Ec. revert ws p T Hia Hw Ec. induction l as [|w l IH]; intros ws p T Hia Hw Ec; cbn [sync_words].
  { exists p, T. split; [done|]. split; [done|]. split; [done|]. apply moved_refl. }
  destruct Hia as [Ho Hin Hu]. rewrite <- Ec in Hin, Hu. apply Forall_cons in Hu as [Hu1 Hu]. set (p1 := set_word_cache p _ l).
  assert (opened good n ws p1 T) as Ho1 by by apply opened_word_cache.
  assert (forall T', tb_names T' = tb_names T -> tb_nmap T' = tb_nmap T -> (length (tb_text T') <= length (tb_text T) + 136)%nat ->
    (forall h ids, posting T (w :: l) h ids -> posting T' l h ids) -> forall p', word_cache p' = l -> moved p T p' T') as Hmv.
  { intros T' En Em Hl Hp p' Ec'. split; try done; rewrite Ec', <- Ec; [unfold weight; cbn; lia|done|].
    intros w' Hw'. exists w'. split; [by apply list_elem_of_further|done]. }
  unfold weight in *. cbn [length] in Hw. unfold to_write. rewrite filter_cons. destruct (Nat.ltb_spec 0 (length (w_names w))) as [Hl|Hl].
  - rewrite decide_True by (intros E; rewrite E in Hl; cbn in Hl; lia).
    destruct (write_cached n ws p1 T w l Ho1 Hin) as (p2 & T2 & data & -> & Ho2 & [S1 S2 S3] & Hin2 & _ & En & Em & Hlen & Hp); [lia|].
    rewrite !res_bind_Ok. destruct (IH (bump rb_keys ws) p2 T2) as (p3 & T3 & E3 & Hia3 & Ec3 & Hmv3); [by split; rewrite ?S3|lia|done|].
    exists p3, T3. split; [exact E3|]. cbn [length]. rewrite Nat.iter_succ_r. split; [done|]. split; [done|].
    apply (moved_trans p T p2 T2); [by apply Hmv|done].
  - assert (w_names w = []) as En by (destruct (w_names w); [done|cbn in Hl; lia]). rewrite decide_False by (intros Hx; by apply Hx). rewrite res_bind_Ok.
    destruct (drop_word T w l Hin En) as [Hin2 Hp].
    destruct (IH ws p1 T) as (p3 & T3 & E3 & Hia3 & Ec3 & Hmv3); [by split|lia|done|].
    exists p3, T3. split; [exact E3|]. split; [done|]. split; [done|]. apply (moved_trans p T p1 T); [|done]. apply Hmv; [done|done|lia|done|done].
Qed.

(** The words of the cache and the tables are written, with the limits of the caches lowered: what
    [text_index_sync] does before it looks how much of the index is in use. *)
Definition write_out p : res (CamelTextIndex B * Z) :=
  let p := set_word_limit (set_ti_blocks p (set_cache_limit (ti_blocks p) 128)) 1024 in
  '(p, ret) ← sync_words p (word_cache p) 0;
  '(p, ret') ← sync_tables p;
  Ok (p, if ret' =? -1 then -1 else ret).

(** The counts of the root block when [k] more records are written. *)
Definition fragmented_after ws (k : nat) : bool :=
  let ws := Nat.iter k (bump rb_keys) ws in
  too_fragmented (rb_count rb_words ws) (rb_count rb_names ws) (rb_count rb_deleted ws) (rb_count rb_keys ws).

Lemma write_out_ok n ws p T : index_at n ws p T -> Z.of_nat (weight T (word_cache p)) < 2 ^ 32 ->
  exists p1 T1 r, write_out p = Ok (p1, r) /\ (r = 0 \/ r = -1) /\
    index_at n (Nat.iter (to_write (word_cache p)) (bump rb_keys) ws) p1 T1 /\ word_cache p1 = [] /\ moved p T p1 T1.
Proof.
  intros [Ho Hin Hu] Hw. unfold write_out. set (p0 := set_word_limit _ 1024).
  assert (index_at n ws p0 T) as Hia0 by (split; [by apply opened_limits|done|done]).
  destruct (sync_words_ok n ws p0 T Hia0 Hw) as (p1 & T1 & E1 & [Ho1 Hin1 Hu1] & Ec1 & Hmv). rewrite E1, res_bind_Ok.
  destruct (sync_tables_ok good _ _ _ _ Ho1) as (b2 & r2 & E2 & Hr2 & Ho2). rewrite E2, res_bind_Ok.
  eexists _, T1, _. split; [done|]. split; [destruct Hr2 as [->| ->]; auto|]. split; [|split; [done|]].
  - split; [done|exact Hin1|exact Hu1].
  - destruct Hmv as [M1 M2 M3 M4 M5]. by split.
Qed.

(** The rest of it: the index is compressed when all is written and too much of it is out of use. *)
Lemma text_index_sync_steps n ws p T compress : index_at n ws p T -> Z.of_nat (weight T (word_cache p)) < 2 ^ 32 ->
  exists p1 r, write_out p = Ok (p1, r) /\ text_index_sync compress p =
    (p2 ← (if (r =? 0) && fragmented_after ws (to_write (word_cache p)) then '(p2, _) ← compress p1; Ok p2 else Ok p1);
     '(b, ret) ← sync (ti_blocks p2); Ok (set_ti_blocks p2 b, ret)).
Proof.
  intros Hia Hw. destruct (write_out_ok n ws p T Hia Hw) as (p1 & T1 & r & E & _ & [Ho1 _ _] & _). exists p1, r. split; [done|].
  unfold write_out in E. apply res_bind_inv in E as ([q r0] & E1 & E). apply res_bind_inv in E as ([q' r'] & E2 & [= <- <-]).
  unfold text_index_sync. rewrite E1, res_bind_Ok, E2, res_bind_Ok. by rewrite (fragmented_ok good _ _ _ _ Ho1), res_bind_Ok.
Qed.

Lemma index_at_flushed n ws p T : index_at n ws p T -> exists b r, sync (ti_blocks p) = Ok (b, r) /\ index_at n ws (set_ti_blocks p b) T.
Proof.
  intros [Ho Hin Hu]. destruct (tenants_sync good _ _ _ _ (op_tenants _ _ _ _ _ Ho)) as (b & r & E & Ht). exists b, r. split; [done|].
  split; [by apply (opened_blocks good n n _ _ _ _ _ Ho)|exact Hin|exact Hu].
Qed.

Lemma length_bump k ws : length (bump k ws) = length ws.
Proof. apply length_insert. Qed.

Lemma bump_keys k ws c : c ∈ [rb_words; rb_names; rb_deleted] -> rb_count c (Nat.iter k (bump rb_keys) ws) = rb_count c ws.
Proof.
  intros Hc. induction k as [|k IH]; [done|]. rewrite Nat.iter_succ, <- IH. apply list_lookup_total_insert_ne.
  repeat (apply elem_of_cons in Hc as [->|Hc]; [by vm_compute|]). by apply elem_of_nil in Hc.
Qed.

Lemma bump_keys_keys k ws : length ws = 250%nat -> 0 <= rb_count rb_keys ws -> rb_count rb_keys ws + Z.of_nat k < 2 ^ 32 ->
  rb_count rb_keys (Nat.iter k (bump rb_keys) ws) = rb_count rb_keys ws + Z.of_nat k /\ length (Nat.iter k (bump rb_keys) ws) = 250%nat.
Proof.
  intros Hl Hpos. induction k as [|k IH]; intros Hk; [split; [cbn; lia|done]|].
  destruct IH as [IH Hl']; [lia|]. rewrite Nat.iter_succ. rewrite length_bump. split; [|done].
  transitivity (u32 (rb_count rb_keys (Nat.iter k (bump rb_keys) ws) + 1)); [|rewrite IH, u32_small; lia].
  apply list_lookup_total_insert_eq. rewrite Hl'. vm_compute. lia.
Qed.

(** In percent: more than 30 records out of use for 100 words, or more than 20 deleted names of 100 names. *)
Definition wasteful (words names deleted keys : Z) : Prop :=
  0 < words /\ 31 * words <= 100 * (keys - words) \/ 0 < names /\ 21 * names <= 100 * deleted.

Lemma too_fragmented_spec words names deleted keys : 0 <= words <= keys -> 100 * keys < 2 ^ 31 -> 0 <= names -> 0 <= deleted -> 100 * deleted < 2 ^ 31 ->
  too_fragmented words names deleted keys = true <-> wasteful words names deleted keys.
Proof.
  intros Hw Hk Hn Hd Hd'. unfold too_fragmented, wasteful. rewrite orb_true_iff.
  rewrite (u32_small (keys - words)), (u32_small ((keys - words) * 100)), (u32_small (deleted * 100)) by lia.
  assert (forall x y : Z, 0 <= x < 2 ^ 31 -> 0 < y -> s32 (x / y) = x / y) as Hs.
  { intros x y Hx Hy. apply s32_small. pose proof (Z.div_pos x y). split; [lia|]. apply Z.div_lt_upper_bound; nia. }
  destruct (Z.eqb_spec words 0) as [->|], (Z.eqb_spec names 0) as [->|]; rewrite ?Hs, !Z.ltb_lt by lia; Z.to_euclidean_division_equations; nia.
Qed.
End words.
