(* ===== verification/TextIndexNameSpec.v ===== *)
(** * The text index: names, and finding the names of a word

    The names the index has, by their hashes and by the ids of their keys; adding and deleting names.
    Finding a word gives the names of its ids that are not deleted. *)

From stdpp Require Import gmap.
From S2P Require Import Prelude BlockStore BlockStoreSpec BlockFrame TableFrame.
From S2P Require Import PartitionTable PartitionDataSpec PartitionTableSpec PartitionAddSpec.
From S2P Require Import KeyTable KeyDataSpec KeyTableSpec KeyTableNextSpec KeyFile KeyFileSpec TextIndex TextIndexWords TextIndexSpec TextIndexAddSpec.
#[local] Open Scope Z_scope.
#[local] Open Scope list_scope.

(** ** The names *)

Definition deleted (e : entry) : bool := negb (Z.land e.1.2 1 =? 0).

(** The name with the key id, if it is not deleted. *)
Definition live T (id : Z) : option (list Z) :=
  match (list_to_map (tb_names T) : gmap Z entry) !! id with
  | Some e => if deleted e then None else Some e.1.1
  | None => None
  end.

(** The table of hashes has the names that are not deleted. *)
Record names_in T : Prop := {
  ni_map : forall h id, tb_nmap T !! h = Some id -> exists e, (id, e) ∈ tb_names T /\ deleted e = false;
  ni_inj : forall h h' id, tb_nmap T !! h = Some id -> tb_nmap T !! h' = Some id -> h = h';
  ni_live : forall id e, (id, e) ∈ tb_names T -> deleted e = false -> exists h, tb_nmap T !! h = Some id;
}.

Lemma live_entry T id e : NoDup (tb_names T).*1 -> (id, e) ∈ tb_names T -> live T id = if deleted e then None else Some e.1.1.
Proof. intros Hn He. unfold live. by rewrite (proj1 (elem_of_list_to_map (tb_names T) id e Hn) He). Qed.

Lemma live_none T id : (forall e, ~ (id, e) ∈ tb_names T) -> live T id = None.
Proof.
  intros Hn. unfold live. rewrite not_elem_of_list_to_map_1; [done|]. intros ([k e] & -> & He)%list_elem_of_fmap. by apply (Hn e).
Qed.

(** What the index shows: ids of names by their hashes, names by their ids, and the ids of a word by its hash. *)
Record shows T cache (post : Z -> list Z) : Prop := {
  sh_names : names_in T;
  sh_post : forall h, posting T cache h (post h);
  sh_ids : forall h id, id ∈ post h -> exists e, (id, e) ∈ tb_names T;
}.

Section names.
Context {B : Type} `{BlockStoreLaws B} `{!RootStore B} (good : B -> Prop) `{!RootStoreLaws B good} `{!IndexStore B good}.
Context {Q : QSort} {QL : QSortLaws Q}.
Implicit Types (p : CamelTextIndex B) (T : tables) (ws : list Z) (n : nat) (post : Z -> list Z) (name : list Z).

Record index_all n ws p T post : Prop := {
  il_at : index_at good n ws p T;
  il_shows : shows T (word_cache p) post;
}.

(** Changing the tables of names only. *)
Definition with_names T (names : list (Z * entry)) (nmap : gmap Z Z) : tables := mkTables (tb_words T) (tb_wmap T) names nmap (tb_text T).

Lemma words_names T names nmap cache : words_in T cache -> words_in (with_names T names nmap) cache.
Proof.
  intros [W1 W2 W3 W4 W5 W6 W7]. split; try done. eapply Forall_impl; [exact W5|]. intros w [C1 C2 C3 C4 C5]. by split.
Qed.

Lemma shows_names T names nmap cache post : shows T cache post -> names_in (with_names T names nmap) ->
  (forall id e, (id, e) ∈ tb_names T -> exists e', (id, e') ∈ names) -> shows (with_names T names nmap) cache post.
Proof.
  intros [S1 S2 S3] Hn Hi. split; [done|exact S2|]. intros h id Hid. destruct (S3 h id Hid) as (e & He). by apply (Hi id e).
Qed.

Lemma index_names n ws ws' p T names nmap p' post : opened good n ws' p' (with_names T names nmap) -> index_all n ws p T post -> word_cache p' = word_cache p ->
  names_in (with_names T names nmap) -> (forall id e, (id, e) ∈ tb_names T -> exists e', (id, e') ∈ names) ->
  index_all n ws' p' (with_names T names nmap) post.
Proof.
  intros Ho [[_ Hin Hu] Hs] Ec Hn Hi. split; [split; [done|rewrite Ec; by apply words_names|by rewrite Ec]|]. rewrite Ec. by apply shows_names.
Qed.

(** The records and the cache of words are as they were. *)
Record same_words p T p' T' : Prop := {
  kp_text : tb_text T' = tb_text T;
  kp_cache : word_cache p' = word_cache p;
}.

Lemma same_words_weight p T p' T' : same_words p T p' T' -> weight T' (word_cache p') = weight T (word_cache p).
Proof. intros [Et Ec]. unfold weight. by rewrite Et, Ec. Qed.

(** ** Dropping a name *)

(** The tables without the name that has the key [keyid]. *)
Definition dropped T (h keyid : Z) (e : entry) : tables :=
  with_names T (set_entry keyid (e.1.1, Z.land (Z.lor (Z.ldiff e.1.2 1) 1) (Z.ones 22), e.2) (tb_names T)) (delete h (tb_nmap T)).

Lemma deleted_flag x : Z.land (Z.land (Z.lor (Z.ldiff x 1) 1) (Z.ones 22)) 1 = 1.
Proof.
  apply Z.bits_inj'. intros k Hk. rewrite !Z.land_spec, Z.lor_spec, Z.ldiff_spec, Z.testbit_ones by lia.
  destruct (Z.eq_dec k 0) as [->|Hk0]; [by rewrite orb_true_r|]. change 1 with (Z.ones 1). rewrite Z.testbit_ones by lia.
  destruct (Z.leb_spec 0 k), (Z.ltb_spec k 1); lia || by rewrite ?andb_false_r.
Qed.

Lemma dropped_ok T h keyid e : NoDup (tb_names T).*1 -> names_in T -> tb_nmap T !! h = Some keyid -> (keyid, e) ∈ tb_names T ->
  names_in (dropped T h keyid e) /\ (forall id, live (dropped T h keyid e) id = if decide (id = keyid) then None else live T id).
Proof.
  intros Hn [N1 N2 N3] Hh He. set (e' := (e.1.1, Z.land (Z.lor (Z.ldiff e.1.2 1) 1) (Z.ones 22), e.2)).
  assert (deleted e' = true) as Hd by (unfold deleted, e'; cbn [fst snd]; by rewrite deleted_flag).
  assert (forall id x, (id, x) ∈ tb_names (dropped T h keyid e) <-> (id = keyid /\ x = e') \/ (id <> keyid /\ (id, x) ∈ tb_names T)) as Hin.
  { intros id x. unfold dropped. cbn. rewrite elem_of_set_entry. fold e'. split; [intros [(-> & -> & _)|?]|intros [[-> ->]|?]]; [by left|by right| |by right].
    left. split; [done|]. split; [done|by exists e]. }
  assert (forall h' id, tb_nmap (dropped T h keyid e) !! h' = Some id <-> h' <> h /\ tb_nmap T !! h' = Some id) as Hm.
  { intros h' id. unfold dropped. cbn. rewrite lookup_delete_Some. split; intros [? ?]; split; try done; by apply not_eq_sym. }
  assert (forall h' id, h' <> h -> tb_nmap T !! h' = Some id -> id <> keyid) as Hne by (intros h' id Hne Hid ->; by apply Hne, (N2 h' h keyid)).
  split; [split|].
  - intros h' id [Hh' Hid]%Hm. destruct (N1 h' id Hid) as (x & Hx & Hdx). exists x. split; [|done]. apply Hin. right. split; [by apply (Hne h')|done].
  - intros h1 h2 id [_ H1]%Hm [_ H2]%Hm. by apply (N2 h1 h2 id).
  - intros id x [[-> ->]|[Hid Hx]]%Hin Hdx; [congruence|]. destruct (N3 id x Hx Hdx) as (h' & Hh'). exists h'. apply Hm. split; [|done].
    intros ->. congruence.
  - intros id. assert (NoDup (tb_names (dropped T h keyid e)).*1) as Hn' by (unfold dropped; cbn; by rewrite set_entry_ids).
    destruct (decide (id = keyid)) as [->|Hid].
    + rewrite (live_entry _ keyid e') by (done || apply Hin; by left). by rewrite Hd.
    + destruct ((list_to_map (tb_names T) : gmap Z entry) !! id) as [x|] eqn:E.
      * apply elem_of_list_to_map_2 in E. rewrite (live_entry T id x), (live_entry _ id x); [done|done|apply Hin; by right|done|done].
      * rewrite !live_none; [done| |]; [intros x Hx|intros x [[? _]|[_ Hx]]%Hin; [done|]]; by rewrite (proj1 (elem_of_list_to_map (tb_names T) id x Hn) Hx) in E.
Qed.

Lemma drop_name_ok n ws p T post name keyid : index_all n ws p T post -> tb_nmap T !! hash_key name = Some keyid ->
  exists p' T', drop_name p name keyid = Ok p' /\ index_all n ws p' T' post /\ tb_nmap T' = delete (hash_key name) (tb_nmap T) /\
    (forall id, live T' id = if decide (id = keyid) then None else live T id) /\
    (tb_names T').*1 = (tb_names T).*1 /\ same_words p T p' T'.
Proof.
  intros Hall Hh. pose proof Hall as [[Ho Hin Hu] [Hn Hp Hi]]. destruct (ni_map _ Hn _ _ Hh) as (e & He & _). unfold drop_name.
  destruct (name_index_set_flags good _ _ _ _ keyid e 1 1 Ho He) as (b1 & E1 & Ho1). rewrite E1, res_bind_Ok.
  destruct (name_hash_remove good _ _ _ _ name Ho1) as (b2 & E2 & Ho2). cbn [ti_blocks set_ti_blocks name_hash] in E2. rewrite E2, res_bind_Ok.
  destruct (dropped_ok T (hash_key name) keyid e (proj1 (name_ids good _ _ _ _ Ho)) Hn Hh He) as [Hn' Hl].
  eexists _, (dropped T (hash_key name) keyid e). split; [done|]. split; [|split; [done|split; [done|]]].
  - apply (index_names n ws _ p); [exact Ho2|done|done|done|]. intros id x Hx. destruct (decide (id = keyid)) as [->|Hid].
    + eexists. apply elem_of_set_entry. left. split; [done|]. split; [done|by exists e].
    + exists x. apply elem_of_set_entry. by right.
  - split; [|by split]. unfold dropped. cbn. by rewrite set_entry_ids.
Qed.

Lemma all_less n m ws p T post : (m <= n)%nat -> index_all n ws p T post -> index_all m ws p T post.
Proof. intros Hm [[Ho Hin Hu] Hs]. split; [split; [by apply (opened_less good n)|done|done]|done]. Qed.

(** The index with other blocks or limits. *)
Lemma all_blocks n ws ws' p p' T post : index_all n ws p T post -> opened good n ws' p' T -> word_cache p' = word_cache p -> index_all n ws' p' T post.
Proof. intros [[_ Hin Hu] Hs] Ho Ec. split; [split; [done|by rewrite Ec..]|by rewrite Ec]. Qed.

(** ** Adding and deleting *)

(** A state before a name is added in which the table of hashes is not in the state in which adding to it goes wrong. *)
Definition name_fits p name : Prop :=
  forall p1 b2 ki id, replace_name (set_word_limit (set_ti_blocks p (set_cache_limit (ti_blocks p) 1024)) 8192) name = Ok p1 ->
    camel_key_table_add (ti_blocks p1) (name_index p1) name 0 0 = Ok (b2, ki, id) -> ~ middle b2 (name_hash p1) (hash_key name).

(** What the index shows of the names, before and after a name with the hash [h] got the id [id]; the old one is gone. *)
Definition live_with T (h id : Z) (name : list Z) (id' : Z) : option (list Z) :=
  if decide (id' = id) then Some (take 128 name) else if decide (tb_nmap T !! h = Some id') then None else live T id'.

Lemma has_name_ok n ws p T post name : index_all n ws p T post ->
  exists p', text_index_has_name p name = Ok (p', bool_decide (is_Some (tb_nmap T !! hash_key name))) /\ index_all n ws p' T post.
Proof.
  intros Hall. pose proof Hall as [[Ho Hin Hu] [Hn Hp Hi]]. unfold text_index_has_name. destruct (name_hash_lookup good _ _ _ _ name Ho) as (b1 & E1 & Ho1).
  rewrite E1, res_bind_Ok. exists (set_ti_blocks p b1). split; [|by apply (all_blocks n ws ws p)]. do 2 f_equal.
  destruct (tb_nmap T !! hash_key name) as [id|] eqn:Eh; [|by rewrite bool_decide_false by by intros []]. destruct (ni_map _ Hn _ _ Eh) as (e & He & _).
  pose proof (proj2 (name_ids good _ _ _ _ Ho) id e He). rewrite bool_decide_true by by eexists. change (default 0 (Some id)) with id. by destruct (Z.eqb_spec id 0); [lia|].
Qed.

Lemma replace_name_ok n ws p T post name : index_all n ws p T post ->
  exists p' ws' T', replace_name p name = Ok p' /\ index_all n ws' p' T' post /\ tb_nmap T' = delete (hash_key name) (tb_nmap T) /\
    (forall id, live T' id = if decide (tb_nmap T !! hash_key name = Some id) then None else live T id) /\
    (tb_names T').*1 = (tb_names T).*1 /\ same_words p T p' T'.
Proof.
  intros Hall. pose proof Hall as [[Ho Hin Hu] [Hn Hp Hi]]. unfold replace_name. destruct (name_hash_lookup good _ _ _ _ name Ho) as (b1 & E1 & Ho1).
  rewrite E1, res_bind_Ok. destruct (tb_nmap T !! hash_key name) as [id|] eqn:Eh.
  - change (default 0 (Some id)) with id. destruct (ni_map _ Hn _ _ Eh) as (e & He & _). pose proof (proj2 (name_ids good _ _ _ _ Ho) id e He).
    destruct (Z.eqb_spec id 0); [lia|]. cbn [negb]. destruct (count_up_ok good _ _ _ _ rb_deleted Ho1) as (b2 & E2 & Ho2); [unfold rb_deleted; lia|].
    rewrite E2, res_bind_Ok. destruct (drop_name_ok n (bump rb_deleted ws) _ T post name id (all_blocks _ _ _ _ _ _ _ Hall Ho2 eq_refl) Eh) as (p3 & T3 & E3 & Hall3 & Em & Hl & Hold & [K1 K2]).
    exists p3, (bump rb_deleted ws), T3. split; [exact E3|]. split; [done|]. split; [done|]. split; [|by split]. intros id'. rewrite Hl.
    destruct (decide (id' = id)) as [->|Hne]; [by rewrite decide_True|]. rewrite decide_False; [done|]. by intros [= ->].
  - change (default 0 (@None Z)) with 0. cbn [Z.eqb negb]. eexists _, ws, T. split; [done|]. split; [by apply (all_blocks n ws ws p)|].
    split; [by rewrite delete_id|]. split; [|by split]. intros id. by rewrite decide_False.
Qed.

(** A new key of a name. *)
Definition named T name (id : Z) : tables :=
  with_names T (tb_names T ++ [(id, (take 128 name, 0, 0))]) (<[hash_key name := id]> (tb_nmap T)).

Lemma elem_of_named T name id k x : (k, x) ∈ tb_names (named T name id) <-> (k, x) ∈ tb_names T \/ k = id /\ x = (take 128 name, 0, 0).
Proof.
  unfold named. cbn. rewrite elem_of_app, list_elem_of_singleton. split; [intros [?|[= -> ->]]|intros [?|[-> ->]]]; auto.
Qed.

Lemma named_ok T name id : NoDup (tb_names (named T name id)).*1 -> names_in T -> tb_nmap T !! hash_key name = None ->
  (forall e, ~ (id, e) ∈ tb_names T) ->
  names_in (named T name id) /\ (forall id', live (named T name id) id' = if decide (id' = id) then Some (take 128 name) else live T id').
Proof.
  intros Hnd [N1 N2 N3] Hm Hnew. assert (NoDup (tb_names T).*1) as Hnd1 by (unfold named in Hnd; cbn in Hnd; rewrite fmap_app in Hnd; by apply NoDup_app in Hnd as [? _]).
  assert (forall h k, tb_nmap T !! h = Some k -> k <> id) as Hold by (intros h k Hk ->; destruct (N1 h id Hk) as (e & He & _); by apply (Hnew e)).
  split; [split; cbn [tb_nmap named with_names]|].
  - intros h k [[<- <-]|[_ Hk]]%lookup_insert_Some; [exists (take 128 name, 0, 0); split; [apply elem_of_named; by right|done]|].
    destruct (N1 _ _ Hk) as (e & He & Hd). exists e. split; [apply elem_of_named; by left|done].
  - intros h h' k [[<- <-]|[_ Hk]]%lookup_insert_Some [[<- Ek]|[_ Hk']]%lookup_insert_Some; [done| | |by apply (N2 h h' k)].
    + by destruct (Hold _ _ Hk').
    + subst k. by destruct (Hold _ _ Hk).
  - intros k x [Hx|[-> ->]]%elem_of_named Hd; [|exists (hash_key name); by rewrite lookup_insert_eq]. destruct (N3 k x Hx Hd) as (h & Hh).
    exists h. rewrite lookup_insert_ne; [done|]. intros <-. congruence.
  - intros id'. destruct (decide (id' = id)) as [->|Hid'].
    + by rewrite (live_entry (named T name id) id (take 128 name, 0, 0) Hnd) by (apply elem_of_named; by right).
    + destruct ((list_to_map (tb_names T) : gmap Z entry) !! id') as [x|] eqn:E.
      * apply elem_of_list_to_map_2 in E. rewrite (live_entry T id' x), (live_entry (named T name id) id' x); [done|done|apply elem_of_named; by left|done|done].
      * rewrite !live_none; [done| |]; [intros x Hx|intros x [Hx|[? _]]%elem_of_named; [|done]]; by rewrite (proj1 (elem_of_list_to_map (tb_names T) id' x Hnd1) Hx) in E.
Qed.

Lemma add_name_ok n ws p T post name : index_all (3 + n) ws p T post -> name <> [] -> Forall (fun c => 0 <= c < 256) name -> name_fits p name ->
  exists p' ws' T' id, text_index_add_name p name = Ok (p', id) /\ index_all n ws' p' T' post /\ 0 < id < 2 ^ 32 /\
    (forall e, ~ (id, e) ∈ tb_names T) /\ tb_nmap T' = <[hash_key name := id]> (tb_nmap T) /\
    (forall id', live T' id' = live_with T (hash_key name) id name id') /\ same_words p T p' T'.
Proof.
  intros Hall Hne Hb Hfit. unfold text_index_add_name. set (p0 := set_word_limit _ 8192).
  assert (index_all (3 + n) ws p0 T post) as Hall0 by (apply (all_blocks _ ws ws p); [done|by apply opened_limits; apply Hall|done]).
  destruct (replace_name_ok _ ws p0 T post name Hall0) as (p1 & ws1 & T1 & E1 & Hall1 & Em1 & Hl1 & Hold1 & [K1 K2]). rewrite E1, res_bind_Ok.
  pose proof Hall1 as [[Ho1 Hin1 Hu1] [Hn1 Hp1 Hi1]]. cbn [Init.Nat.add] in Ho1.
  destruct (name_index_add good _ _ _ _ name 0 0 Ho1 Hne Hb) as (b2 & id & E2 & Hid & Hnew & Ho2). rewrite E2, res_bind_Ok.
  assert (tb_nmap T1 !! hash_key name = None) as Hnone by by rewrite Em1, lookup_delete_eq.
  destruct (Z.eqb_spec id 0); [lia|]. cbn [negb]. destruct (name_hash_add good n _ _ _ name id Ho2) as (b3 & t' & E3 & Ho3); [done|exact (Hfit p1 b2 (name_index p1) id E1 E2)|].
  cbn [ti_blocks set_ti_blocks set_name_index name_hash name_index] in E3 |- *. rewrite E3, res_bind_Ok.
  destruct (count_up_ok good _ _ _ _ rb_names Ho3) as (b4 & E4 & Ho4); [unfold rb_names; lia|]. rewrite E4, res_bind_Ok.
  destruct (touch_index_ok good _ _ _ _ Ho4) as (b5 & E5 & Ho5). rewrite E5, res_bind_Ok.
  destruct (named_ok T1 name id (proj1 (name_ids good _ _ _ _ Ho5)) Hn1 Hnone Hnew) as [Hn5 Hl5].
  eexists _, _, (named T1 name id), id. split; [done|]. split; [|split; [done|split; [|split; [|split]]]].
  - apply (index_names n ws1 _ p1 T1); [exact Ho5|by apply (all_less (3 + n)); [lia|]|done|done|]. intros k x Hx. exists x. apply elem_of_named. by left.
  - intros e He. apply (list_elem_of_fmap_2 fst) in He. rewrite <- Hold1 in He. apply list_elem_of_fmap in He as ([k x] & E & Hx). cbn in E. subst k. by apply (Hnew x).
  - unfold named. cbn. by rewrite Em1, insert_delete_eq.
  - intros id'. unfold live_with. rewrite Hl5. by destruct (decide (id' = id)).
  - split; [exact K1|exact K2].
Qed.

Lemma delete_name_ok n ws p T post name : index_all n ws p T post ->
  exists p' ws' T', text_index_delete_name p name = Ok p' /\ index_all n ws' p' T' post /\ tb_nmap T' = delete (hash_key name) (tb_nmap T) /\
    (forall id, live T' id = if decide (tb_nmap T !! hash_key name = Some id) then None else live T id) /\ same_words p T p' T'.
Proof.
  intros Hall. pose proof Hall as [[Ho Hin Hu] [Hn Hp Hi]]. unfold text_index_delete_name. destruct (name_hash_lookup good _ _ _ _ name Ho) as (b1 & E1 & Ho1).
  rewrite E1, res_bind_Ok. destruct (tb_nmap T !! hash_key name) as [id|] eqn:Eh.
  - change (default 0 (Some id)) with id. destruct (ni_map _ Hn _ _ Eh) as (e & He & _). pose proof (proj2 (name_ids good _ _ _ _ Ho) id e He).
    destruct (Z.eqb_spec id 0); [lia|]. cbn [negb]. destruct (count_up_ok good _ _ _ _ rb_deleted Ho1) as (b2 & E2 & Ho2); [unfold rb_deleted; lia|].
    rewrite E2, res_bind_Ok. destruct (touch_index_ok good _ _ _ _ Ho2) as (b3 & E3 & Ho3). rewrite E3, res_bind_Ok.
    destruct (drop_name_ok n (bump rb_deleted ws) _ T post name id (all_blocks _ _ _ _ _ _ _ Hall Ho3 eq_refl) Eh) as (p4 & T4 & E4 & Hall4 & Em & Hl & _ & [K1 K2]).
    exists p4, (bump rb_deleted ws), T4. split; [exact E4|]. split; [done|]. split; [done|]. split; [|by split]. intros id'. rewrite Hl.
    destruct (decide (id' = id)) as [->|Hne]; [by rewrite decide_True|]. rewrite decide_False; [done|]. by intros [= ->].
  - change (default 0 (@None Z)) with 0. cbn [Z.eqb negb]. eexists _, ws, T. split; [done|]. split; [by apply (all_blocks n ws ws p)|].
    split; [by rewrite delete_id|]. split; [|by split]. intros id. by rewrite decide_False.
Qed.
End names.

(** * The text index: finding a word

    A cursor goes through the records of a word and gives the names of their ids, those that are not
    deleted ([cursor_at]); calling it until it has no name more gives all of them. *)

Section all.
Context {B : Type} `{BlockStore B}.

(** Calling [text_index_cursor_next] until it returns NULL, at most [n] times. *)
Fixpoint cursor_names (n fuel : nat) (p : CamelTextIndex B) (idc : CamelTextIndexCursor) : res (CamelTextIndex B * list (list Z)) :=
  match n with
  | O => NoFuel
  | S n =>
      '(p, idc, r) ← text_index_cursor_next fuel p idc;
      match r with
      | None => Ok (p, [])
      | Some name => '(p, names) ← cursor_names n fuel p idc; Ok (p, name :: names)
      end
  end.

(** The names of a word. *)
Definition find_names (n fuel : nat) (p : CamelTextIndex B) (word : list Z) : res (CamelTextIndex B * list (list Z)) :=
  '(p, idc) ← text_index_find p word; cursor_names n fuel p idc.
End all.

Section find.
Context {B : Type} `{BlockStoreLaws B} `{!RootStore B} (good : B -> Prop) `{!RootStoreLaws B good} `{!IndexStore B good}.
Context {Q : QSort} {QL : QSortLaws Q}.
Implicit Types (p : CamelTextIndex B) (T : tables) (ws : list Z) (n : nat) (idc : CamelTextIndexCursor) (ids : list Z).

(** The cursor has the ids [ids] before it, in [k] more records. *)
Record cursor_at T idc ids (k : nat) : Prop := {
  ca_state : exists rs cs, c_record_count idc = Z.of_nat (length rs) /\ 0 <= c_record_index idc <= c_record_count idc /\
    (rs = [] \/ c_records idc = Some rs) /\ chain (tb_text T) (c_next idc) cs /\ length cs = k /\
    ids = drop (Z.to_nat (c_record_index idc)) rs ++ concat cs;
}.

Lemma cursor_new_at T data cs : chain (tb_text T) data cs -> cursor_at T (camel_text_index_cursor_new data) (concat cs) (length cs).
Proof. intros Hc. split. exists [], cs. do 2 (split; [done|]). split; [by left|done]. Qed.

(** Reading a record. *)
Lemma links_read n ws p T next cs : opened good n ws p T -> chain (tb_text T) next cs -> next <> 0 ->
  exists kf next' rs cs', camel_key_file_read (ti_links p) next true = (kf, next', Some (Z.of_nat (length rs)), Some rs, 0) /\
    cs = rs :: cs' /\ chain (tb_text T) next' cs' /\ opened good n ws (set_ti_links p kf) T.
Proof.
  intros [O1 O2 O3 O4] Hc Hn. destruct cs as [|rs cs]; [done|]. destruct Hc as (Hr & next' & Hn' & Hrec & Hc).
  destruct (read_ok (ti_links p) (tb_text T) next next' rs true O2 Hrec) as (kf & s & len & recs & ret & E & S1 & [(-> & -> & -> & -> & Hk)|(_ & _ & _ & Hx)]); [lia|lia| |done].
  exists kf, next', rs, cs. split; [done|]. split; [done|]. split; [done|]. split; [done|done|by apply (step_fine (ti_links p))|done].
Qed.

(** What one call gives. *)
Definition next_name T ids (k : nat) idc (r : option (list Z)) : Prop :=
  match omap (live T) ids with
  | [] => r = None
  | name :: names => r = Some name /\ exists ids' k', cursor_at T idc ids' k' /\ omap (live T) ids' = names /\
      (forall id, id ∈ ids' -> id ∈ ids) /\ (length ids' + k' < length ids + k)%nat
  end.

Lemma cursor_next_ok n ws p T idc ids k fuel : opened good n ws p T -> cursor_at T idc ids k ->
  (forall id, id ∈ ids -> exists e, (id, e) ∈ tb_names T) -> (length ids + k < fuel)%nat ->
  exists p' idc' r, text_index_cursor_next fuel p idc = Ok (p', idc', r) /\ opened good n ws p' T /\ same_cache p p' /\ next_name T ids k idc' r.
Proof.
  revert p idc ids k. induction fuel as [|fuel IH]; intros p idc ids k Ho [(rs & cs & Ec & Hi & Hrs & Hch & Ek & Eids)] Hids Hf; [lia|].
  cbn [text_index_cursor_next]. destruct (Z.leb_spec (c_record_count idc) (c_record_index idc)) as [Hle|Hgt].
  - rewrite drop_ge in Eids by lia. cbn in Eids. destruct (Z.eqb_spec (c_next idc) 0) as [Ez|Hnz].
    + assert (cs = []) as -> by (destruct cs; [done|destruct Hch as (? & _); lia]). subst ids. eexists p, _, None. split; [done|]. split; [done|]. split; [by split|done].
    + destruct (links_read n ws p T _ _ Ho Hch Hnz) as (kf & next' & rs' & cs' & -> & -> & Hch' & Ho'). change (0 =? -1) with false. cbv iota.
      cbn [default]. cbn [length concat] in *. change (default 0 (Some (Z.of_nat (length rs')))) with (Z.of_nat (length rs')).
      set (idc' := mkCursor _ _ _ _ _ _). destruct (IH (set_ti_links p kf) idc' ids (length cs') Ho') as (p2 & idc2 & r & E2 & Ho2 & Hsc & Hn2); [|done|lia|].
      { split. exists rs', cs'. split; [done|]. split; [cbn; lia|]. split; [by right|]. split; [done|]. split; [done|]. by subst ids. }
      exists p2, idc2, r. split; [done|]. split; [done|]. split; [by destruct Hsc; split|]. unfold next_name in *.
      destruct (omap (live T) ids); [done|]. destruct Hn2 as (-> & ids' & k' & ? & ? & ? & ?). split; [done|]. exists ids', k'. do 3 (split; [done|]). lia.
  - destruct Hrs as [->|Hrs]; [cbn in Ec; lia|]. rewrite Hrs.
    destruct (lookup_lt_is_Some_2 rs (Z.to_nat (c_record_index idc))) as [id Hid]; [lia|]. rewrite (proj2 (arr_get_Ok rs (c_record_index idc) id)), res_bind_Ok by (split; [lia|done]).
    assert (ids = id :: drop (S (Z.to_nat (c_record_index idc))) rs ++ concat cs) as Eids' by (by rewrite Eids, (drop_S rs id)).
    destruct (Hids id) as (e & He); [rewrite Eids'; apply list_elem_of_here|]. destruct (name_index_lookup good n ws p T id e true Ho He) as (b' & -> & Ho'). rewrite res_bind_Ok.
    unfold found_of. set (idc' := mkCursor _ _ _ _ _ _). set (ids' := drop (S (Z.to_nat (c_record_index idc))) rs ++ concat cs) in *.
    assert (cursor_at T idc' ids' (length cs)) as Hat.
    { split. exists rs, cs. split; [done|]. split; [cbn; lia|]. split; [by right|]. split; [done|]. split; [done|]. cbn. unfold ids'. do 2 f_equal. lia. }
    pose proof (live_entry T id e (proj1 (name_ids good n ws p T Ho)) He) as El. rewrite Eids' in Hf. cbn [length] in Hf. unfold next_name. rewrite Eids'. cbn [omap list_omap].
    rewrite El. unfold deleted. destruct (negb (Z.land e.1.2 1 =? 0)).
    + destruct (IH (set_ti_blocks p b') idc' ids' (length cs) Ho' Hat) as (p2 & idc2 & r & E2 & Ho2 & Hsc & Hn2); [intros k' Hk'; apply Hids; rewrite Eids'; by apply list_elem_of_further|lia|].
      exists p2, idc2, r. split; [exact E2|]. split; [done|]. split; [by destruct Hsc; split|]. unfold next_name in Hn2. cbn [omap list_omap] in *. change (omap (live T) ids') with (list_omap _ _ (live T) ids') in *.
      destruct (list_omap _ _ (live T) ids'); [done|]. destruct Hn2 as (-> & ids2 & k2 & ? & ? & Hsub & ?). split; [done|]. exists ids2, k2. do 2 (split; [done|]).
      split; [intros x Hx; apply list_elem_of_further; by apply Hsub|cbn; lia].
    + cbn [fst snd]. eexists _, idc', (Some e.1.1). split; [done|]. split; [done|]. split; [by split|]. split; [done|]. exists ids', (length cs). do 2 (split; [done|]).
      split; [intros x Hx; by apply list_elem_of_further|cbn; lia].
Qed.

Lemma cursor_names_ok n ws p T idc ids k fuel (m : nat) : opened good n ws p T -> cursor_at T idc ids k ->
  (forall id, id ∈ ids -> exists e, (id, e) ∈ tb_names T) -> (length ids + k < fuel)%nat -> (length (omap (live T) ids) < m)%nat ->
  exists p', cursor_names m fuel p idc = Ok (p', omap (live T) ids) /\ opened good n ws p' T /\ same_cache p p'.
Proof.
  revert p idc ids k. induction m as [|m IH]; intros p idc ids k Ho Hat Hids Hf Hm; [lia|]. cbn [cursor_names].
  destruct (cursor_next_ok n ws p T idc ids k fuel Ho Hat Hids Hf) as (p1 & idc1 & r & E1 & Ho1 & [S1 S2 S3] & Hn). rewrite E1, res_bind_Ok.
  unfold next_name in Hn. destruct (omap (live T) ids) as [|name names]; [subst r; by exists p1|].
  destruct Hn as (-> & ids' & k' & Hat' & <- & Hsub & Hlt). destruct (IH p1 idc1 ids' k' Ho1 Hat') as (p2 & E2 & Ho2 & [S4 S5 S6]); [by intros id Hid; apply Hids, Hsub|lia|cbn in Hm; lia|].
  rewrite E2, res_bind_Ok. exists p2. split; [done|]. split; [done|]. split; congruence.
Qed.

(** Every record has an id. *)
Lemma chain_ids text pos cs : chain text pos cs -> (length cs <= length (concat cs))%nat.
Proof.
  intros Hc. apply chain_words in Hc. induction Hc as [|ws cs [Hw _] _ IH]; [done|]. cbn. rewrite length_app. lia.
Qed.

Lemma omap_length {A C : Type} (f : A -> option C) (l : list A) : (length (omap f l) <= length l)%nat.
Proof. induction l as [|x l IH]; [done|]. cbn. destruct (f x); cbn; lia. Qed.

Lemma omap_perm {A C : Type} (f : A -> option C) (l l' : list A) : l ≡ₚ l' -> omap f l ≡ₚ omap f l'.
Proof. by intros ->. Qed.

(** A word that is not in the cache: its cursor has all its ids. *)
Lemma text_index_find_ok n ws p T post (word : list Z) : index_all good n ws p T post -> ~ hash_key word ∈ map hash_of (word_cache p) ->
  exists p' idc ids k, text_index_find p word = Ok (p', idc) /\ opened good n ws p' T /\ same_cache p p' /\ cursor_at T idc ids k /\
    (k <= length ids)%nat /\ ids ≡ₚ post (hash_key word).
Proof.
  intros [[Ho Hin Hu] [Hn Hp Hi]] Hnc. unfold text_index_find. destruct (word_hash_lookup good _ _ _ _ word Ho) as (b1 & E1 & Ho1). rewrite E1, res_bind_Ok.
  specialize (Hp (hash_key word)). unfold posting in Hp. destruct (tb_wmap T !! hash_key word) as [wid|] eqn:Em.
  - change (default 0 (Some wid)) with wid. destruct (wi_map _ _ Hin _ _ Em) as (Hw0 & e0 & He0 & Hfl). destruct (Z.eqb_spec wid 0); [done|]. cbn [negb].
    destruct Hp as (e & cs & He & Hcs & Hids). rewrite (entry_unique _ wid e0 e (wi_ids _ _ Hin) He0 He) in Hfl.
    destruct (word_index_lookup good _ _ _ _ wid e false Ho1 He) as (b2 & E2 & Ho2). cbv zeta. rewrite E2, res_bind_Ok.
    unfold found_of. rewrite Hfl. change (negb (Z.land 0 1 =? 0)) with false. cbv iota. eexists _, _, (concat cs), (length cs). split; [done|]. split; [exact Ho2|].
    split; [by split|]. split; [by apply cursor_new_at|]. split; [by apply (chain_ids (tb_text T) e.2)|]. rewrite Hids, pending_none; [done|].
    intros w Hw Ew. apply Hnc. pose proof (wi_cached _ _ Hin) as Hc. rewrite Forall_forall in Hc. pose proof (co_map _ _ (Hc w Hw)) as Hm. rewrite Ew in Hm.
    rewrite (wi_inj _ _ Hin _ _ _ Em Hm). by apply list_elem_of_fmap_2.
  - change (default 0 (@None Z)) with 0. cbn [Z.eqb negb]. eexists _, _, [], 0%nat. split; [done|]. split; [exact Ho1|]. split; [by split|].
    split; [by apply (cursor_new_at T 0 [])|]. split; [done|]. by rewrite Hp.
Qed.

Lemma find_names_ok n ws p T post (word : list Z) (m fuel : nat) : index_all good n ws p T post -> ~ hash_key word ∈ map hash_of (word_cache p) ->
  (2 * length (post (hash_key word)) < fuel)%nat -> (length (post (hash_key word)) < m)%nat ->
  exists p' names, find_names m fuel p word = Ok (p', names) /\ names ≡ₚ omap (live T) (post (hash_key word)) /\ index_all good n ws p' T post /\
    word_cache p' = word_cache p.
Proof.
  intros Hall Hnc Hf Hm. destruct (text_index_find_ok n ws p T post word Hall Hnc) as (p1 & idc & ids & k & E1 & Ho1 & [S1 S2 S3] & Hat & Hk & Hperm).
  pose proof (Permutation_length Hperm) as El. unfold find_names. rewrite E1, res_bind_Ok.
  destruct (cursor_names_ok n ws p1 T idc ids k fuel m Ho1 Hat) as (p2 & E2 & Ho2 & [S4 S5 S6]).
  - intros id Hid. rewrite Hperm in Hid. by apply (sh_ids _ _ _ (il_shows _ _ _ _ _ _ Hall) (hash_key word)).
  - lia.
  - pose proof (omap_length (live T) ids). lia.
  - rewrite E2. exists p2, (omap (live T) ids). split; [done|]. split; [by apply omap_perm|]. split; [apply (all_blocks good n ws ws p); [done|done|congruence]|congruence].
Qed.
End find.
