(* ===== verification/BlockFileRootSpec.v ===== *)
(** * Files of blocks: the root block

    Block 0 belongs to the file but for its words from the sixth on, which are for the clients.  No operation
    on blocks changes them, nor makes a state in which system calls fail ([steady]).  A file
    implements [RootStore] and is [Reliable] when no call fails. *)

From stdpp Require Import gmap.
From S2P Require Import Prelude BlockStore BlockStoreSpec BlockFrame TableFrame BlockFile BlockFileInv BlockFileSpec BlockFileLaws BlockFileOpenSpec.
#[local] Open Scope Z_scope.
#[local] Open Scope list_scope.

Implicit Types (bs : CamelBlockFile) (p q r : ptr) (bl : CamelBlock).

Definition client_words bs : list Z := drop 6 (root_data bs).

Record steady bs bs' : Prop := {
  sd_root : root_block bs' = root_block bs;
  sd_words : client_words bs' = client_words bs;
  sd_faults : no_faults (faults bs) -> no_faults (faults bs');
}.

#[export] Instance steady_preorder : PreOrder steady.
Proof. split; [by split|]. intros b1 b2 b3 [R1 W1 F1] [R2 W2 F2]. split; [congruence|congruence|auto]. Qed.

(** ** Blocks in memory *)

Lemma steady_put bs p bl bl' : heap bs !! p = Some bl -> drop 6 (bl_data bl') = drop 6 (bl_data bl) -> steady bs (put_bl bs p bl').
Proof.
  intros Hp Hd. split; [done| |done]. unfold client_words, root_data. cbn. destruct (root_block bs) as [r|]; [|done].
  destruct (decide (p = r)) as [->|Hne]; [by rewrite lookup_insert_eq, Hp|by rewrite lookup_insert_ne].
Qed.

Lemma steady_put_ne bs p bl : root_block bs <> Some p -> steady bs (put_bl bs p bl).
Proof. intros Hr. split; [done| |done]. unfold client_words. by rewrite root_data_put. Qed.

Lemma steady_free bs p : root_block bs <> Some p -> steady bs (free_bl bs p).
Proof.
  intros Hr. split; [done| |done]. unfold client_words, root_data. cbn. destruct (root_block bs) as [r|]; [|done]. by rewrite lookup_delete_ne by congruence.
Qed.

(** Only the tables of blocks and the file are different. *)
Lemma steady_tables bs bs' : root_block bs' = root_block bs -> heap bs' = heap bs -> (no_faults (faults bs) -> no_faults (faults bs')) -> steady bs bs'.
Proof. intros Hr Hh Hf. split; [done| |done]. unfold client_words, root_data. by rewrite Hr, Hh. Qed.

Lemma get_bl_inv bs p bl : get_bl bs p = Ok bl -> heap bs !! p = Some bl.
Proof. unfold get_bl. destruct (heap bs !! p); [by intros [= ->]|done]. Qed.

Lemma next_call_steady bs bs' f : next_call bs = (bs', f) -> steady bs bs'.
Proof.
  unfold next_call. destruct (faults bs) as [|c fs] eqn:E; intros [= <- _]; [done|]. apply steady_tables; [done|done|]. rewrite E. by intros [_ ?]%Forall_cons.
Qed.

Lemma use_steady bs bs' ret : block_file_use bs = (bs', ret) -> steady bs bs'.
Proof.
  unfold block_file_use. destruct (online bs); [by intros [= <- _]|]. destruct (next_call bs) as [b1 f] eqn:E. pose proof (next_call_steady _ _ _ E) as S1.
  destruct f; intros [= <- _]; [done|]. transitivity b1; [done|]. by apply steady_tables.
Qed.

Lemma unlink_steady bs bs' p : unlink bs p = Ok bs' -> steady bs bs' /\ heap bs' = heap bs.
Proof. unfold unlink. destruct (bool_decide _); [|done]. intros [= <-]. split; [by apply steady_tables|done]. Qed.

Lemma mark_dirty_steady bs bs' p : mark_dirty bs p = Ok bs' -> steady bs bs'.
Proof. unfold mark_dirty. intros (bl & Hb%get_bl_inv & E)%res_bind_inv. injection E as <-. by apply (steady_put bs p bl). Qed.

Lemma set_root_word_steady bs bs' k v : 0 <= k < 6 -> set_root_word bs k v = Ok bs' -> steady bs bs'.
Proof.
  intros Hk (r & _ & (bl & Hb%get_bl_inv & (d & Hd & E)%res_bind_inv)%res_bind_inv)%res_bind_inv. injection E as <-. apply (steady_put bs r bl); [done|].
  cbn. apply arr_set_inv in Hd as [_ ->]. rewrite drop_insert_lt by lia. done.
Qed.

(** ** The operations *)

Lemma sync_block_nolock_steady bs bs' p ret : sync_block_nolock bs p = Ok (bs', ret) -> steady bs bs'.
Proof.
  unfold sync_block_nolock. intros (bl & Hb%get_bl_inv & E)%res_bind_inv. destruct (bl_dirty bl); [|by injection E as <- _].
  destruct (next_call bs) as [b1 f] eqn:Ec. pose proof (next_call_steady _ _ _ Ec) as S1. assert (heap b1 = heap bs) as Hh.
  { unfold next_call in Ec. destruct (faults bs); by injection Ec as <- _. }
  transitivity b1; [done|]. destruct f; injection E as <- _; [destruct (0 <? _); [by apply steady_tables|done]|].
  transitivity (set_disk b1 (write_disk (disk b1) (bl_id bl) (bl_data bl) CAMEL_BLOCK_SIZE)); [by apply steady_tables|].
  apply (steady_put _ p bl); [cbn; by rewrite Hh|done].
Qed.

Lemma sync_block_steady bs bs' p ret : camel_block_file_sync_block bs p = Ok (bs', ret) -> steady bs bs'.
Proof.
  unfold camel_block_file_sync_block. destruct (block_file_use bs) as [b1 r1] eqn:E1. pose proof (use_steady _ _ _ E1) as S1.
  destruct (r1 =? -1); [by intros [= <- _]|]. intros E. transitivity b1; [done|by apply (sync_block_nolock_steady b1 bs' p ret)].
Qed.

Lemma sync_cache_steady l : forall bs bs' work ret, sync_cache bs l = Ok (bs', work, ret) -> steady bs bs'.
Proof.
  induction l as [|p l IH]; intros bs bs' work ret; cbn [sync_cache]; [by intros [= <- _ _]|]. intros (bl & _ & E)%res_bind_inv.
  destruct (bl_dirty bl); [|by apply (IH bs bs' work ret)]. apply res_bind_inv in E as ([b1 r1] & E1%sync_block_nolock_steady & E).
  transitivity b1; [done|]. destruct (r1 =? -1); [by injection E as <- _ _|]. apply res_bind_inv in E as ([[b2 w2] r2] & E2 & E). injection E as <- _ _.
  by apply (IH b1 b2 w2 r2).
Qed.

Lemma sync_steady bs bs' ret : camel_block_file_sync bs = Ok (bs', ret) -> steady bs bs'.
Proof.
  unfold camel_block_file_sync. destruct (block_file_use bs) as [b1 r1] eqn:E1. pose proof (use_steady _ _ _ E1) as S1. intros H. transitivity b1; [done|].
  destruct (r1 =? -1); [by injection H as <- _|]. revert H. unfold sync_nolock. intros ([[b2 w] r2] & E2%sync_cache_steady & H)%res_bind_inv. transitivity b2; [done|].
  destruct (r2 =? -1); [by injection H as <- _|]. apply res_bind_inv in H as (r & _ & H). apply res_bind_inv in H as (bl & _ & H). apply res_bind_inv in H as (fl & _ & H).
  destruct (_ && _); [by injection H as <- _|]. apply res_bind_inv in H as (b3 & E3 & H). apply res_bind_inv in H as (b4 & E4%mark_dirty_steady & H%sync_block_nolock_steady).
  transitivity b3; [by apply (set_root_word_steady b2 b3 2 (Z.lor fl CAMEL_BLOCK_FILE_SYNC)); [lia|]|by transitivity b4].
Qed.

Lemma flush_steady l : forall bs bs', (forall p, p ∈ l -> root_block bs <> Some p) -> flush_loop bs l = Ok bs' -> steady bs bs'.
Proof.
  induction l as [|p l IH]; intros bs bs' Hl E; cbn [flush_loop] in E; [by injection E as <-|]. destruct (_ <? _); [|by injection E as <-].
  apply res_bind_inv in E as (bl & _ & E). apply res_bind_inv in E as (b1 & E1 & E). assert (steady bs b1) as S1.
  { destruct (bl_refcount bl =? 0); [|by injection E1 as <-]. apply res_bind_inv in E1 as ([b2 r2] & E2%sync_block_nolock_steady & E1).
    destruct (r2 =? -1); [by injection E1 as <-|]. apply res_bind_inv in E1 as (b3 & [E3 H3]%unlink_steady & E1). injection E1 as <-.
    transitivity b2; [done|]. transitivity b3; [transitivity (set_blocks b2 (delete (bl_id bl) (blocks b2))); [by apply steady_tables|done]|].
    transitivity (free_bl b3 p); [|by apply steady_tables]. apply steady_free. rewrite (sd_root _ _ E3). cbn. rewrite (sd_root _ _ E2). apply Hl, list_elem_of_here. }
  transitivity b1; [done|]. apply (IH b1 bs'); [|done]. intros q Hq. rewrite (sd_root _ _ S1). by apply Hl, list_elem_of_further.
Qed.

Lemma use_block_steady bs bs' p : use_block bs p = Ok bs' -> steady bs bs'.
Proof.
  unfold use_block. intros (bl & Hb%get_bl_inv & E)%res_bind_inv. injection E as <-. transitivity (set_cache bs (p :: block_cache bs)); [by apply steady_tables|].
  by apply (steady_put _ p bl).
Qed.

Lemma get_steady bs bs' i (r : option ptr) : wf_file bs -> camel_block_file_get_block bs i = Ok (bs', r) -> steady bs bs'.
Proof.
  intros (fl & Hi & _) E. destruct (i_root _ _ _ _ Hi) as (r0 & bl0 & Hr0 & Hb0 & _). unfold camel_block_file_get_block in E.
  apply res_bind_inv in E as (bad & _ & E). destruct bad; [by injection E as <- _|]. destruct (blocks bs !! i) as [p|].
  - apply res_bind_inv in E as (b1 & [E1 _]%unlink_steady & E). apply res_bind_inv in E as (b2 & E2%use_block_steady & E). injection E as <- _. by transitivity b1.
  - destruct (block_file_use bs) as [b1 r1] eqn:E1. pose proof (use_steady _ _ _ E1) as S1. destruct (r1 =? -1); [by injection E as <- _|].
    destruct (next_call b1) as [b2 f] eqn:E2. pose proof (next_call_steady _ _ _ E2) as S2. assert (steady bs b2) as S12 by by transitivity b1.
    destruct f; [by injection E as <- _|]. assert (block_cache b2 = block_cache bs /\ heap b2 = heap bs) as [Hcache Hheap].
    { unfold block_file_use in E1. unfold next_call in E1, E2. destruct (online bs), (faults bs) as [|[]], (faults b1); repeat (simplify_eq/=; try done). }
    apply res_bind_inv in E as (b4 & E4 & E). apply res_bind_inv in E as (b5 & E5%use_block_steady & E). injection E as <- _.
    transitivity b2; [done|]. set (p := g_malloc0 b2) in *. set (b3 := set_blocks _ _) in E4.
    assert (root_block b2 <> Some p) as Hp.
    { rewrite (sd_root _ _ S12), Hr0. intros [= E]. pose proof (malloc_fresh b2) as Hf. fold p in Hf. rewrite <- E, Hheap in Hf. congruence. }
    assert (steady b2 b3) as S3 by (transitivity (put_bl b2 p (mkBlock i false false 0 (read_disk (disk b2) i))); [by apply steady_put_ne|by apply steady_tables]).
    transitivity b3; [done|]. transitivity b4; [|done]. apply (flush_steady (rev (block_cache b3)) b3 b4); [|exact E4]. intros q Hq. rewrite (sd_root _ _ S3), (sd_root _ _ S12), Hr0.
    intros [= ->]. apply (root_not_cached bs _ fl [] q Hi Hr0). rewrite <- Hcache. rewrite list_elem_of_In in *. by apply in_rev.
Qed.

Lemma detach_steady bs bs' p : camel_block_file_detach_block bs p = Ok bs' -> steady bs bs'.
Proof.
  unfold camel_block_file_detach_block. intros (bl & Hb%get_bl_inv & (b1 & [E1 Hh]%unlink_steady & E)%res_bind_inv)%res_bind_inv. injection E as <-.
  transitivity b1; [transitivity (set_blocks bs (delete (bl_id bl) (blocks bs))); [by apply steady_tables|done]|]. apply (steady_put b1 p bl); [by rewrite Hh|done].
Qed.

Lemma touch_steady bs bs' p : camel_block_file_touch_block bs p = Ok bs' -> steady bs bs'.
Proof.
  unfold camel_block_file_touch_block. intros (b1 & E1%mark_dirty_steady & (fl & _ & (r & _ & E)%res_bind_inv)%res_bind_inv)%res_bind_inv.
  transitivity b1; [done|]. destruct (_ && _); [|by injection E as <-]. apply res_bind_inv in E as (b2 & E2 & E).
  apply res_bind_inv in E as (b3 & E3%mark_dirty_steady & E). apply res_bind_inv in E as ([b4 r4] & E4%sync_block_steady & E). injection E as <-.
  transitivity b2; [by apply (set_root_word_steady b1 b2 2 (Z.ldiff fl CAMEL_BLOCK_FILE_SYNC)); [lia|]|by transitivity b3].
Qed.

Lemma unref_steady bs bs' p : root_block bs <> Some p -> camel_block_file_unref_block bs p = Ok bs' -> steady bs bs'.
Proof.
  intros Hr. unfold camel_block_file_unref_block. intros (bl & Hb%get_bl_inv & E)%res_bind_inv.
  destruct (_ && _); injection E as <-; [by apply steady_free|by apply (steady_put bs p bl)].
Qed.

Lemma get_not_root bs bs' i p : wf_file bs -> camel_block_file_get_block bs i = Ok (bs', Some p) -> root_block bs <> Some p.
Proof.
  intros (fl & Hi & _) E Hr. unfold camel_block_file_get_block in E. apply res_bind_inv in E as (bad & _ & E). destruct bad; [done|].
  destruct (blocks bs !! i) as [q|] eqn:Eq.
  - apply res_bind_inv in E as (b1 & _ & E). apply res_bind_inv in E as (b2 & _ & E). injection E as _ ->.
    apply (i_blocks _ _ _ _ Hi) in Eq as [Hq _]. by apply (root_not_cached bs _ fl [] p Hi Hr).
  - destruct (block_file_use bs) as [b1 r1] eqn:E1. destruct (r1 =? -1); [done|]. destruct (next_call b1) as [b2 f] eqn:E2. destruct f; [done|].
    apply res_bind_inv in E as (b4 & _ & E). apply res_bind_inv in E as (b5 & _ & E). injection E as _ <-.
    assert (heap b2 = heap bs) as Hh.
    { unfold block_file_use in E1. unfold next_call in E1, E2. destruct (online bs), (faults bs) as [|[]], (faults b1); repeat (simplify_eq/=; try done). }
    destruct (i_root _ _ _ _ Hi) as (r & bl & Hr' & Hp & _). rewrite Hr in Hr'. injection Hr' as <-. rewrite <- Hh in Hp.
    by rewrite malloc_fresh in Hp.
Qed.

Lemma new_steady bs bs' (r : option ptr) : wf_file bs -> camel_block_file_new_block bs = Ok (bs', r) -> steady bs bs'.
Proof.
  intros Hw. unfold camel_block_file_new_block. intros (free & _ & ([b1 r1] & E1 & E)%res_bind_inv)%res_bind_inv.
  assert (steady bs b1 /\ forall p, r1 = Some p -> root_block bs <> Some p) as [S1 Hp].
  { destruct (negb (free =? 0)).
    - apply res_bind_inv in E1 as ([b2 r2] & E2 & E1). pose proof (get_steady _ _ _ _ Hw E2) as S2. destruct r2 as [p|]; [|by injection E1 as <- <-].
      apply res_bind_inv in E1 as (bl & _ & E1). apply res_bind_inv in E1 as (next & _ & E1). apply res_bind_inv in E1 as (b3 & E3 & E1). injection E1 as <- <-.
      split; [transitivity b2; [done|by apply (set_root_word_steady b2 b3 4 next); [lia|]]|]. intros q [= <-]. by apply (get_not_root bs b2 free).
    - apply res_bind_inv in E1 as (last & _ & E1). apply res_bind_inv in E1 as ([b2 r2] & E2 & E1). pose proof (get_steady _ _ _ _ Hw E2) as S2.
      destruct r2 as [p|]; [|by injection E1 as <- <-]. apply res_bind_inv in E1 as (b3 & E3 & E1). injection E1 as <- <-.
      split; [transitivity b2; [done|by apply (set_root_word_steady b2 b3 5 (u32 (last + CAMEL_BLOCK_SIZE))); [lia|]]|].
      intros q [= <-]. by apply (get_not_root bs b2 last). }
  destruct r1 as [p|]; [|by injection E as <- _]. apply res_bind_inv in E as (b2 & (r0 & _ & S2%mark_dirty_steady)%res_bind_inv & E).
  apply res_bind_inv in E as (b3 & S3%mark_dirty_steady & E). apply res_bind_inv in E as (bl & _ & E). injection E as <- _.
  transitivity b1; [done|]. transitivity b2; [done|]. transitivity b3; [done|]. apply steady_put_ne.
  rewrite (sd_root _ _ S3), (sd_root _ _ S2), (sd_root _ _ S1). by apply (Hp p).
Qed.

(** ** The clients' words *)

Lemma client_word bs (n : nat) : client_words bs !!! n = root_data bs !!! (6 + n)%nat.
Proof. unfold client_words. by rewrite lookup_total_drop. Qed.

Lemma file_root_field bs k : wf_file bs -> 6 <= k < 256 -> root_word bs k = Ok (client_words bs !!! Z.to_nat (k - 6)).
Proof.
  intros (fl & Hi & _) Hk. rewrite (root_word_ok bs _ _ _ k Hi) by lia. rewrite client_word. do 2 f_equal. lia.
Qed.

Lemma file_words_length bs : wf_file bs -> length (client_words bs) = 250%nat.
Proof.
  intros (fl & Hi & _). destruct (i_root _ _ _ _ Hi) as (r & bl & Hr & Hp & _ & _ & Hl & _). unfold client_words, root_data.
  by rewrite Hr, Hp, length_drop, Hl.
Qed.

Lemma same_file_blocks bs bs' fl : inv bs (last_block bs) fl [] -> apart bs fl -> inv bs' (last_block bs) fl [] -> keeps bs bs' -> same_blocks bs bs'.
Proof. intros Hi Ha Hi' Hk. destruct (wf_keeps bs bs' fl Hi Ha Hi' Hk) as (Hw & A & R). by destruct Hk; split. Qed.

Lemma file_set_root_field bs k v : wf_file bs -> no_faults (faults bs) -> 6 <= k < 256 -> exists bs', set_root_word bs k v = Ok bs' /\
  same_blocks bs bs' /\ no_faults (faults bs') /\ client_words bs' = <[Z.to_nat (k - 6) := v]> (client_words bs).
Proof.
  intros (fl & Hi & Ha) Hn Hk. destruct (i_root _ _ _ _ Hi) as (r & bl & Hr & Hp & Hid & Hd & Hl & Hdisk).
  assert (set_word (bl_data bl) k v = Ok (<[Z.to_nat k := v]> (bl_data bl))) as Ew.
  { apply arr_set_Ok. rewrite Hl. unfold block_words. lia. }
  eexists. split; [unfold set_root_word, root_ptr, get_bl; rewrite Hr, res_bind_Ok, Hp, res_bind_Ok, Ew; reflexivity|].
  set (bl' := with_data bl (<[Z.to_nat k := v]> (bl_data bl))).
  destruct (inv_put_root_same bs (last_block bs) fl [] r bl bl' Hi Hr Hp) as [Hi' Hk']; try done.
  - cbn. by rewrite length_insert.
  - intros j Hj _. cbn. by rewrite list_lookup_total_insert_ne by lia.
  - cbn. rewrite take_insert_ge by lia. exact Hdisk.
  - split; [by apply (same_file_blocks bs _ fl)|]. split; [done|]. unfold client_words, root_data. cbn. rewrite Hr, Hp, lookup_insert_eq. cbn.
    rewrite drop_insert_ge by lia. f_equal. lia.
Qed.

Lemma file_touch_root bs : wf_file bs -> no_faults (faults bs) -> exists bs', (r ← root_ptr bs; camel_block_file_touch_block bs r) = Ok bs' /\
  same_blocks bs bs' /\ no_faults (faults bs') /\ client_words bs' = client_words bs.
Proof.
  intros (fl & Hi & Ha) Hn. destruct (i_root _ _ _ _ Hi) as (r & bl & Hr & Hp & Hid & Hd & Hl & Hdisk).
  destruct (inv_put_root_same bs (last_block bs) fl [] r bl (with_dirty bl true) Hi Hr Hp) as [Hi' Hk']; try done.
  exists (put_bl bs r (with_dirty bl true)). split.
  - unfold root_ptr at 1. rewrite Hr, res_bind_Ok. unfold camel_block_file_touch_block, mark_dirty, get_bl. rewrite Hp, !res_bind_Ok.
    unfold root_flags. rewrite (root_word_ok _ _ _ _ 2 Hi') by lia. rewrite res_bind_Ok. unfold root_ptr. cbn [put_bl set_heap root_block].
    rewrite Hr, res_bind_Ok, bool_decide_true by done. by rewrite andb_false_r.
  - split; [by apply (same_file_blocks bs _ fl)|]. split; [done|]. by rewrite (sd_words _ _ (steady_put bs r bl (with_dirty bl true) Hp eq_refl)).
Qed.

Lemma inv_cache_limit bs lim fl x n : inv bs lim fl x -> inv (set_limit bs n) lim fl x.
Proof. intros [H1 H2 H3 H4 H5 H6 H7 H8 H9 H11 H10]. split; try done. intros p bl Hp Hr. by destruct (H8 p bl Hp Hr). Qed.

Lemma file_cache_limit bs n : wf_file bs -> no_faults (faults bs) ->
  same_blocks bs (set_limit bs n) /\ no_faults (faults (set_limit bs n)) /\ client_words (set_limit bs n) = client_words bs.
Proof. intros (fl & Hi & Ha) Hn. split; [apply (same_file_blocks bs _ fl); [done|done|by apply inv_cache_limit|by split]|done]. Qed.

#[export] Instance RootStoreLaws_file : RootStoreLaws CamelBlockFile (fun bs => no_faults (faults bs)) := {
  root_words := client_words;
  root_field_law := file_root_field;
  root_words_length := file_words_length;
  set_root_field_law := file_set_root_field;
  touch_root_law := file_touch_root;
  set_cache_limit_law := file_cache_limit;
}.

(** ** When no call fails *)

Lemma rooted_steady ws bs bs' : rooted (fun bs => no_faults (faults bs)) ws bs -> steady bs bs' -> rooted (fun bs => no_faults (faults bs)) ws bs'.
Proof. intros [Hn Hw] [_ Hw' Hf]. split; [by apply Hf|]. cbn in *. congruence. Qed.

Lemma pinned_not_root bs p k : pins_of bs !! p = Some k -> root_block bs <> Some p.
Proof. by intros (bl & _ & Hr & _)%pins_lookup. Qed.

#[export] Instance rooted_file_stable ws : Stable (rooted (fun bs => no_faults (faults bs)) ws).
Proof.
  split.
  - intros b b' i r HJ Hw E. apply (rooted_steady ws b b' HJ). by apply (get_steady b b' i r).
  - intros b b' r HJ Hw E. apply (rooted_steady ws b b' HJ). by apply (new_steady b b' r).
  - intros b b' p HJ Hw E. apply (rooted_steady ws b b' HJ). by apply (detach_steady b b' p).
  - intros b b' p HJ Hw E. apply (rooted_steady ws b b' HJ). by apply (touch_steady b b' p).
  - intros b b' p k HJ Hw Hp E. apply (rooted_steady ws b b' HJ). by apply (unref_steady b b' p); [apply (pinned_not_root b p k)|].
  - intros b b' p k d HJ Hw Hp E. apply (rooted_steady ws b b' HJ). apply res_bind_inv in E as (bl & _ & E). injection E as <-.
    apply steady_put_ne. by apply (pinned_not_root b p k).
  - intros b b' p ret HJ Hw E. apply (rooted_steady ws b b' HJ). by apply (sync_block_steady b b' p ret).
  - intros b b' ret HJ Hw E. apply (rooted_steady ws b b' HJ). by apply (sync_steady b b' ret).
Qed.

(** A block that is not in memory is read, and no read fails. *)
Lemma get_reads bs bs' i (r : option ptr) : no_faults (faults bs) -> invalid_id bs i = Ok false -> camel_block_file_get_block bs i = Ok (bs', r) -> r <> None.
Proof.
  intros Hn Hv E. unfold camel_block_file_get_block in E. rewrite Hv, res_bind_Ok in E. destruct (blocks bs !! i) as [p|].
  - apply res_bind_inv in E as (b1 & _ & E). apply res_bind_inv in E as (b2 & _ & E). by injection E as _ <-.
  - destruct (use_no_faults bs Hn) as (b1 & E1 & Hn1). rewrite E1 in E. cbn [Z.eqb] in E. destruct (next_call_none b1 Hn1) as (fs & Ef & _).
    rewrite Ef in E. apply res_bind_inv in E as (b2 & _ & E). apply res_bind_inv in E as (b3 & _ & E). by injection E as _ <-.
Qed.

Lemma new_reads bs bs' (r : option ptr) : no_faults (faults bs) -> wf_file bs -> camel_block_file_new_block bs = Ok (bs', r) -> r <> None.
Proof.
  intros Hn (fl & Hi & _) E. unfold camel_block_file_new_block in E. rewrite (root_free_ok bs _ _ _ Hi), res_bind_Ok in E.
  pose proof (i_chain _ _ _ _ Hi) as Hch. pose proof (i_free _ _ _ _ Hi) as [_ Hv]. pose proof (i_last _ _ _ _ Hi) as (Hl1 & _ & Hl2).
  assert (forall free : Z, 0 < free <= last_block bs -> free mod CAMEL_BLOCK_SIZE = 0 -> invalid_id bs free = Ok false) as Hid.
  { intros free Hf Hm. by apply (invalid_id_ok bs _ fl [] free Hi). }
  apply res_bind_inv in E as ([b1 r1] & E1 & E). assert (r1 <> None) as Hr1.
  { destruct (Z.eqb_spec (first_free bs) 0) as [Hz|Hz]; cbn [negb] in E1.
    - rewrite (root_last_ok bs _ _ _ Hi), res_bind_Ok in E1. apply res_bind_inv in E1 as ([b2 r2] & E2 & E1).
      pose proof (get_reads bs b2 _ r2 Hn (Hid (last_block bs) ltac:(lia) Hl2) E2) as Hr2. destruct r2; [|done]. apply res_bind_inv in E1 as (b3 & _ & E1). by injection E1 as _ <-.
    - destruct fl as [|i fl]; [done|]. destruct Hch as (Hff & _); rewrite Hff in E1. destruct (Hv i (list_elem_of_here _ _)) as [Hi1 Hi2].
      apply res_bind_inv in E1 as ([b2 r2] & E2 & E1). pose proof (get_reads bs b2 _ r2 Hn (Hid i ltac:(lia) Hi2) E2) as Hr2. destruct r2; [|done].
      apply res_bind_inv in E1 as (bl & _ & E1). apply res_bind_inv in E1 as (nx & _ & E1). apply res_bind_inv in E1 as (b3 & _ & E1). by injection E1 as _ <-. }
  destruct r1 as [p|]; [|done]. apply res_bind_inv in E as (b2 & _ & E). apply res_bind_inv in E as (b3 & _ & E). apply res_bind_inv in E as (bl & _ & E).
  by injection E as _ <-.
Qed.

#[export] Instance IndexStore_file : IndexStore CamelBlockFile (fun bs => no_faults (faults bs)).
Proof.
  intros ws. split; [apply _| |].
  - intros b b' i r [Hn _] Hw Hi E. by apply (get_no_faults b b' i r).
  - intros b b' n r [Hn _] Hw _ E. by apply (new_reads b b' r).
Qed.
