(* ===== verification/TextIndexFileSpec.v ===== *)
(** * The text index: opening one, and the claims

    In a file whose root block has no tables yet, [camel_text_index_new] allocates their root blocks and
    opens them; the index has no words and no names. *)

From stdpp Require Import gmap.
From S2P Require Import Prelude BlockStore BlockStoreSpec BlockFrame TableFrame.
From S2P Require Import PartitionTable KeyTable KeyDataSpec KeyTableSpec KeyTableNextSpec KeyFile KeyFileSpec TextIndex TextIndexWords TextIndexSpec TextIndexAddSpec TextIndexNameSpec.
From S2P Require Import BlockFile BlockFileInv BlockFileSpec BlockFileLaws BlockFileOpenSpec BlockFileRootSpec BlockFileRunSpec.
From S2P Require Import PartitionDataSpec PartitionTableSpec PartitionAddSpec PartitionFileSpec.
#[local] Open Scope Z_scope.
#[local] Open Scope list_scope.

Section open.
Context {B : Type} `{BlockStoreLaws B} `{!RootStore B} (good : B -> Prop) `{!RootStoreLaws B good} `{!IndexStore B good}.
Context {Q : QSort} {QL : QSortLaws Q}.
Implicit Types (b : B) (ws : list Z) (n : nat) (cs : list client).

Lemma table_root_ok n ws b cs k : tenants good (S n) ws b cs -> 6 <= k < 256 -> rb_count k ws = 0 ->
  exists b' id, table_root b k = Ok (b', true) /\ tenants good n (<[Z.to_nat (k - 6) := id]> ws) b' (cs ++ [block_client id]).
Proof.
  intros Ht Hk Hz. unfold table_root. rewrite (tenants_field good (S n) ws b cs k Ht Hk), res_bind_Ok. unfold rb_count in Hz. rewrite Hz. cbn [Z.eqb].
  destruct (tenants_new good n ws b cs Ht) as (b1 & p & id & -> & E1 & Hid & Hp & Hs & Ht1). rewrite res_bind_Ok, E1, res_bind_Ok.
  pose proof (tn_rooted _ _ _ _ _ Ht1) as [Hg Hw]. destruct (set_root_field_law b1 k id (tn_wf _ _ _ _ _ Ht1) Hg Hk) as (b2 & -> & Hsb & Hg2 & Hw2). rewrite res_bind_Ok.
  rewrite Hw in Hw2. pose proof (tenants_root good n ws _ b1 b2 _ Ht1 Hsb Hg2 Hw2) as Ht2.
  destruct (tenants_unref good n _ b2 _ p (mkPin id zero_block 1 false) Ht2) as (b3 & -> & Ht3); [by rewrite (sb_pins _ _ Hsb)|done|by apply (sb_saved _ _ Hsb)|]. rewrite res_bind_Ok.
  destruct (tenants_touch good n _ b3 _ Ht3) as (b4 & -> & Ht4). rewrite res_bind_Ok. by exists b4, id.
Qed.

Lemma table_roots_ok n ws b cs (ks : list Z) : tenants good (length ks + n) ws b cs -> NoDup ks -> Forall (fun k => 6 <= k < 256 /\ rb_count k ws = 0) ks ->
  length ws = 250%nat ->
  exists b' ids ws', table_roots b ks = Ok (b', true) /\ length ids = length ks /\ Forall2 (fun k id => rb_count k ws' = id) ks ids /\
    (forall k, 6 <= k -> ~ k ∈ ks -> rb_count k ws' = rb_count k ws) /\ tenants good n ws' b' (cs ++ map block_client ids).
Proof.
  revert n ws b cs. induction ks as [|k ks IH]; intros n ws b cs Ht Hn Hk Hl; cbn [table_roots].
  { exists b, [], ws. split; [done|]. split; [done|]. split; [constructor|]. split; [done|]. by rewrite app_nil_r. }
  apply NoDup_cons in Hn as [Hkn Hn]. apply Forall_cons in Hk as [[Hk Hz] Hks]. cbn [length] in Ht.
  destruct (table_root_ok (length ks + n) ws b cs k Ht Hk Hz) as (b1 & id & -> & Ht1). rewrite res_bind_Ok.
  assert (forall k', 6 <= k' -> k' <> k -> rb_count k' (<[Z.to_nat (k - 6) := id]> ws) = rb_count k' ws) as Hne.
  { intros k' Hk' Hne. unfold rb_count. apply list_lookup_total_insert_ne. lia. }
  destruct (IH n _ b1 _ Ht1 Hn) as (b2 & ids & ws2 & -> & El & HF & Hold & Ht2); [|by rewrite length_insert|].
  { rewrite Forall_forall in *. intros k' Hk'. destruct (Hks k' Hk') as [Hr Hz']. split; [done|]. rewrite Hne; [done|lia|by intros ->]. }
  exists b2, (id :: ids), ws2. split; [done|]. split; [cbn; by rewrite El|]. split; [|split; [|by rewrite <- app_assoc in Ht2]].
  - constructor; [|done]. rewrite Hold by (done || lia). unfold rb_count. apply list_lookup_total_insert_eq. lia.
  - intros k' Hk' Hnk. apply not_elem_of_cons in Hnk as [H1 H2]. rewrite Hold by done. by apply Hne.
Qed.

(** The tables of an index without words and names. *)
Definition no_tables (text : list Z) : tables := mkTables [] ∅ [] ∅ text.

Lemma no_tables_shows text : words_in (no_tables text) [] /\ shows (no_tables text) [] (fun _ => []).
Proof.
  split; split; try done; try constructor; try done; by intros ? ? ?%not_elem_of_nil.
Qed.

Lemma text_index_new_ok n ws b kf text fuel : tenants good (6 + n) ws b [] -> length ws = 250%nat ->
  rb_count word_index_root ws = 0 -> rb_count word_hash_root ws = 0 -> rb_count name_index_root ws = 0 -> rb_count name_hash_root ws = 0 ->
  key_file kf text -> no_failures (kf_calls kf) -> (0 < length text)%nat ->
  exists p ws', camel_text_index_new (S fuel) (Some b) (Some kf) = Ok (inl p) /\
    index_all good n ws' p (no_tables text) (fun _ => []) /\ word_cache p = [] /\ (forall k, 10 <= k -> rb_count k ws' = rb_count k ws).
Proof.
  intros Ht Hl Z1 Z2 Z3 Z4 Hk Hf Hlen. unfold camel_text_index_new. set (ks := [_; _; _; _]).
  destruct (table_roots_ok (2 + n) ws b [] ks Ht) as (b1 & ids & ws1 & -> & El & HF & Hold & Ht1); [|by repeat constructor|done|].
  { apply (bool_decide_unpack _). by vm_compute. }
  rewrite res_bind_Ok. destruct ids as [|i1 [|i2 [|i3 [|i4 [|]]]]]; try done. clear El. unfold ks in HF.
  apply Forall2_cons in HF as [R1 HF]. apply Forall2_cons in HF as [R2 HF]. apply Forall2_cons in HF as [R3 HF]. apply Forall2_cons in HF as [R4 _].
  cbn [app map] in Ht1. cbn [Init.Nat.add] in Ht1.
  assert (forall m b cs k, tenants good m ws1 b cs -> 6 <= k < 256 -> root_field b k = Ok (rb_count k ws1)) as Hr by (intros m b' cs k Hb; by apply (tenants_field good m ws1 b' cs k)).
  rewrite (Hr _ _ _ word_index_root Ht1), R1, res_bind_Ok by (unfold word_index_root; lia).
  destruct (open_keys_client good _ ws1 b1 _ 0 i1 Ht1 eq_refl) as (b2 & wi & -> & Ht2). rewrite res_bind_Ok.
  rewrite (Hr _ _ _ word_hash_root Ht2), R2, res_bind_Ok by (unfold word_hash_root; lia).
  destruct (open_map_client good _ ws1 b2 _ 1 i2 fuel Ht2 eq_refl) as (b3 & wh & -> & Ht3). rewrite res_bind_Ok.
  rewrite (Hr _ _ _ name_index_root Ht3), R3, res_bind_Ok by (unfold name_index_root; lia).
  destruct (open_keys_client good _ ws1 b3 _ 2 i3 Ht3 eq_refl) as (b4 & ni & -> & Ht4). rewrite res_bind_Ok.
  rewrite (Hr _ _ _ name_hash_root Ht4), R4, res_bind_Ok by (unfold name_hash_root; lia).
  destruct (open_map_client good n ws1 b4 _ 3 i4 fuel Ht4 eq_refl) as (b5 & nh & -> & Ht5). rewrite res_bind_Ok.
  eexists _, ws1. split; [done|]. destruct (no_tables_shows text) as [Hw Hs]. split; [|split; [done|]].
  - split; [split; [by split|done|constructor]|done].
  - intros k Hk'. apply Hold; [lia|]. unfold ks, word_index_root, word_hash_root, name_index_root, name_hash_root. rewrite !not_elem_of_cons. split_and!; try lia. by apply not_elem_of_nil.
Qed.
End open.

(** * The text index: its operations

    The claims on the text index, for every store of blocks that does not fail, and a session as an example: an empty
    index is opened in a file, gets a name and its words, is synced, and the words are looked up. *)

(** ** An index *)

Section index.
Context {B : Type} `{BlockStoreLaws B} `{!RootStore B} (good : B -> Prop) `{!RootStoreLaws B good} `{!IndexStore B good}.
Context {Q : QSort} {QL : QSortLaws Q}.
Implicit Types (p : CamelTextIndex B) (T : tables) (ws : list Z) (n : nat) (post : Z -> list Z) (words : list (list Z)).

(** The tables [T] are those of the index, a word with the hash [h] has the names with the ids [post h], and
    there is room for [n] more blocks. *)
Definition index_in n p T post : Prop := index_all good n (root_words (ti_blocks p)) p T post.

Lemma index_in_all n ws p T post : index_all good n ws p T post -> index_in n p T post.
Proof. intros Hall. unfold index_in. by destruct (tn_rooted _ _ _ _ _ (op_tenants _ _ _ _ _ (ia_opened _ _ _ _ _ (il_at _ _ _ _ _ _ Hall)))) as [_ ->]. Qed.

Lemma index_in_less n m p T post : (m <= n)%nat -> index_in n p T post -> index_in m p T post.
Proof. apply all_less. Qed.

(** Words of a name, each of which can be added when those before it were. *)
Definition words_fit p (id : Z) words : Prop :=
  (forall word, word ∈ words -> no_clash p word) /\
  forall l1 word l2 p1, words = l1 ++ word :: l2 -> hash_write_words p id l1 = Ok p1 -> word_fits p1 word.

Lemma write_name_ok n p T post words id : index_in (3 * length words + n) p T post -> id ∈ (tb_names T).*1 -> words_fine words ->
  words_fit p id words -> Z.of_nat (weight T (word_cache p) + 136 * length words) < 2 ^ 32 ->
  exists p' T', text_index_write_name p id words = Ok p' /\ index_in n p' T' (fun h => with_words words id h (post h)) /\
    tb_names T' = tb_names T /\ tb_nmap T' = tb_nmap T /\
    (weight T' (word_cache p') <= weight T (word_cache p) + 136 * length words)%nat.
Proof.
  intros [Hia [Hn Hp Hi]] Hid Hf [Hcl Hfit] Hw. apply list_elem_of_fmap in Hid as ([k e] & -> & He). cbn in Hcl, Hfit |- *.
  pose proof (proj2 (name_ids good _ _ _ _ (ia_opened _ _ _ _ _ Hia)) k e He) as Hk. unfold text_index_write_name.
  destruct (Z.eqb_spec k 0); [lia|]. cbn [negb].
  destruct (hash_write_words_ok good n _ p T words k Hia Hf Hcl Hfit) as (p' & ws' & T' & E & Hia' & En & Em & Hwt & Hpo); [lia|done|].
  exists p', T'. split; [done|]. split; [|done]. apply (index_in_all n ws'). split; [done|]. split.
  - destruct Hn as [N1 N2 N3]. split; by rewrite ?En, ?Em.
  - intros h. by apply Hpo.
  - intros h id'. unfold with_words. rewrite En. destruct (bool_decide _); [intros [->|Hid']%elem_of_cons; [by exists e|by apply (Hi h)]|by apply Hi].
Qed.

(** The counts of the root block are small enough for their percentages, and no fewer records have been written
    than there are words, when [k] more of them are. *)
Definition counts_fine ws (k : Z) : Prop :=
  0 <= rb_count rb_words ws <= rb_count rb_keys ws + k /\ 0 <= rb_count rb_keys ws /\ 100 * (rb_count rb_keys ws + k) < 2 ^ 31 /\
  0 <= rb_count rb_names ws /\ 0 <= rb_count rb_deleted ws /\ 100 * rb_count rb_deleted ws < 2 ^ 31.

Definition wasteful_after ws (k : Z) : Prop :=
  wasteful (rb_count rb_words ws) (rb_count rb_names ws) (rb_count rb_deleted ws) (rb_count rb_keys ws + k).

Lemma fragmented_after_spec ws (k : nat) : length ws = 250%nat -> counts_fine ws (Z.of_nat k) ->
  fragmented_after ws k = true <-> wasteful_after ws (Z.of_nat k).
Proof.
  intros Hl (H1 & H2 & H3 & H4 & H5 & H6). unfold fragmented_after, wasteful_after. cbv zeta.
  rewrite !(bump_keys k ws) by set_solver. destruct (bump_keys_keys k ws) as [-> _]; [done|lia..|]. apply too_fragmented_spec; lia.
Qed.

Lemma write_out_in n p T post : index_in n p T post -> Z.of_nat (weight T (word_cache p)) < 2 ^ 32 ->
  exists p1 T1 r, write_out p = Ok (p1, r) /\ (r = 0 \/ r = -1) /\ index_in n p1 T1 post /\ word_cache p1 = [] /\
    tb_names T1 = tb_names T /\ tb_nmap T1 = tb_nmap T /\ (weight T1 [] <= weight T (word_cache p))%nat.
Proof.
  intros [Hia [Hn Hp Hi]] Hw. destruct (write_out_ok good n _ p T Hia Hw) as (p1 & T1 & r & E & Hr & Hia1 & Ec & [M1 M2 M3 M4 M5]).
  rewrite Ec in M3. exists p1, T1, r. do 2 (split; [done|]). split; [|done]. eapply index_in_all. split; [exact Hia1|]. split.
  - destruct Hn as [N1 N2 N3]. split; by rewrite ?M1, ?M2.
  - intros h. by apply M4.
  - rewrite M1. exact Hi.
Qed.

Lemma flushed_in n p T post : index_in n p T post -> exists b r, sync (ti_blocks p) = Ok (b, r) /\ index_in n (set_ti_blocks p b) T post.
Proof.
  intros [Hia Hs]. destruct (index_at_flushed good n _ p T Hia) as (b & r & E & Hia'). exists b, r. split; [done|].
  eapply index_in_all. split; [exact Hia'|exact Hs].
Qed.

Lemma add_name_in n p T post (name : list Z) : index_in (3 + n) p T post -> name <> [] -> Forall (fun c => 0 <= c < 256) name -> name_fits p name ->
  exists p' T' id, text_index_add_name p name = Ok (p', id) /\ index_in n p' T' post /\ 0 < id < 2 ^ 32 /\ id ∈ (tb_names T').*1 /\
    (forall h, ~ id ∈ post h) /\ (forall id', live T' id' = live_with T (hash_key name) id name id') /\
    tb_nmap T' = <[hash_key name := id]> (tb_nmap T) /\ same_words p T p' T'.
Proof.
  intros Hall Hne Hb Hfit.
  destruct (add_name_ok good n _ p T post name Hall Hne Hb Hfit) as (p' & ws' & T' & id & E & Hall' & Hid & Hnew & Em & Hl & Hk).
  exists p', T', id. split; [done|]. split; [by apply (index_in_all n ws')|]. split; [done|]. split; [|split; [|done]].
  - destruct (ni_map _ (sh_names _ _ _ (il_shows _ _ _ _ _ _ Hall')) (hash_key name) id) as (e & He & _); [by rewrite Em, lookup_insert_eq|].
    by apply (list_elem_of_fmap_2 fst) in He.
  - intros h Hh. destruct (sh_ids _ _ _ (il_shows _ _ _ _ _ _ Hall) h id Hh) as (e & He). by apply (Hnew e).
Qed.

(** ** The operations *)

(** C14: Adding a name gives it a new id, under which it is shown (its first 128 bytes); a name with the same hash that
    the index had is deleted first.  The other names and the words stay, and the index has the name then. *)
Theorem text_index_name_added n p T post (name : list Z) (Hall : index_in (3 + n) p T post) (Hne : name <> [])
    (Hb : Forall (fun c => 0 <= c < 256) name) (Hfit : name_fits p name) :
  exists p' T' id p'', text_index_add_name p name = Ok (p', id) /\ index_in n p' T' post /\ 0 < id < 2 ^ 32 /\
    (forall h, ~ id ∈ post h) /\ (forall id', live T' id' = live_with T (hash_key name) id name id') /\
    tb_nmap T' = <[hash_key name := id]> (tb_nmap T) /\ same_words p T p' T' /\ text_index_has_name p' name = Ok (p'', true).
Proof.
  destruct (add_name_in n p T post name Hall Hne Hb Hfit) as (p' & T' & id & E & Hall' & Hid & _ & Hnew & Hl & Em & Hk).
  destruct (has_name_ok good n _ p' T' post name Hall') as (p'' & E2 & _). exists p', T', id, p''. do 7 (split; [done|]).
  by rewrite E2, Em, bool_decide_true by (rewrite lookup_insert_eq; by eexists).
Qed.

(** C15: Deleting a name takes its hash out of the names of the index, and its id is not shown any more, though the words still
    have it; everything else stays.  A name that the index does not have may be deleted. *)
Theorem text_index_name_deleted n p T post (name : list Z) (Hall : index_in n p T post) :
  exists p' T' p'', text_index_delete_name p name = Ok p' /\ index_in n p' T' post /\
    (forall id, live T' id = if decide (tb_nmap T !! hash_key name = Some id) then None else live T id) /\
    tb_nmap T' = delete (hash_key name) (tb_nmap T) /\ same_words p T p' T' /\ text_index_has_name p' name = Ok (p'', false).
Proof.
  destruct (delete_name_ok good n _ p T post name Hall) as (p' & ws' & T' & E & Hall' & Em & Hl & Hk).
  destruct (has_name_ok good n ws' p' T' post name Hall') as (p'' & E2 & _). exists p', T', p''. split; [done|].
  split; [by apply (index_in_all n ws')|]. do 3 (split; [done|]). rewrite E2, Em, bool_decide_false; [done|]. rewrite lookup_delete_eq. by intros [? ?].
Qed.

(** C12: Writing the words of a name, in any order, gives each of them the id of the name, and no other word; whether a word is in
    the cache, in the tables or new, whether its record is full and is written, and whichever words are dropped from
    the cache. *)
Theorem text_index_words_written n p T post words (id : Z) (Hall : index_in (3 * length words + n) p T post) (Hid : id ∈ (tb_names T).*1)
    (Hf : words_fine words) (Hfit : words_fit p id words) (Hw : Z.of_nat (weight T (word_cache p) + 136 * length words) < 2 ^ 32) :
  exists p' T', text_index_write_name p id words = Ok p' /\ index_in n p' T' (fun h => with_words words id h (post h)) /\
    tb_names T' = tb_names T /\ tb_nmap T' = tb_nmap T.
Proof.
  destruct (write_name_ok n p T post words id Hall Hid Hf Hfit Hw) as (p' & T' & E & Hall' & En & Em & _). by exists p', T'.
Qed.

(** C16: Syncing first writes the words of the cache, and the index shows what it has shown.  When more than 30 of the records for each
    100 words, or more than 20 of 100 names, are out of use and all could be written, [text_index_compress_nosync] is then
    called on just that index (what it makes of the index is not part of this claim), and the file of the blocks is synced; otherwise
    only the file is synced, and the index still shows what it has shown.  The counts are those of the root block, with the
    records written now, if they are small enough for their percentages and there are no more words than records. *)
Theorem text_index_synced n p T post compress (Hall : index_in n p T post) (Hw : Z.of_nat (weight T (word_cache p)) < 2 ^ 32) :
  exists p1 T1 r frag,
    write_out p = Ok (p1, r) /\ (r = 0 \/ r = -1) /\ index_in n p1 T1 post /\ word_cache p1 = [] /\
    tb_names T1 = tb_names T /\ tb_nmap T1 = tb_nmap T /\
    (let ws := root_words (ti_blocks p) in let k := Z.of_nat (to_write (word_cache p)) in
     counts_fine ws k -> frag = true <-> wasteful_after ws k) /\
    (r = 0 -> frag = true -> text_index_sync compress p =
       ('(p2, _) ← compress p1; '(b, ret) ← sync (ti_blocks p2); Ok (set_ti_blocks p2 b, ret))) /\
    (r = -1 \/ frag = false -> exists p' ret, text_index_sync compress p = Ok (p', ret) /\ index_in n p' T1 post /\ word_cache p' = []).
Proof.
  destruct (write_out_in n p T post Hall Hw) as (p1 & T1 & r & E & Hr & Hall1 & Ec & En & Em & _).
  destruct (text_index_sync_steps good n _ p T compress (il_at _ _ _ _ _ _ Hall) Hw) as (p1' & r' & E' & Es).
  rewrite E in E'. injection E' as <- <-. exists p1, T1, r, (fragmented_after (root_words (ti_blocks p)) (to_write (word_cache p))).
  do 6 (split; [done|]). split; [|split].
  - apply fragmented_after_spec, root_words_length, (tn_wf _ _ _ _ _ (op_tenants _ _ _ _ _ (ia_opened _ _ _ _ _ (il_at _ _ _ _ _ _ Hall)))).
  - intros -> Hf. rewrite Es, Hf. cbn. rewrite res_bind_assoc. by destruct (compress p1) as [[? ?]| |].
  - intros Hd. destruct (flushed_in n p1 T1 post Hall1) as (b & ret & E2 & Hall2). exists (set_ti_blocks p1 b), ret. split; [|done].
    rewrite Es. assert ((r =? 0) && fragmented_after (root_words (ti_blocks p)) (to_write (word_cache p)) = false) as ->.
    { destruct Hd as [->| ->]; [done|apply andb_false_r]. }
    by rewrite res_bind_Ok, E2.
Qed.

(** C13: The cursor that finding a word gives goes through the names of its ids that are not deleted, each as often as the word
    has the id, and ends; when the word is not in the cache.  Nothing changes. *)
Theorem text_index_names_found n p T post (word : list Z) (m fuel : nat) (Hall : index_in n p T post)
    (Hc : ~ hash_key word ∈ map hash_of (word_cache p)) (Hf : (2 * length (post (hash_key word)) < fuel)%nat)
    (Hm : (length (post (hash_key word)) < m)%nat) :
  exists p' names, find_names m fuel p word = Ok (p', names) /\ names ≡ₚ omap (live T) (post (hash_key word)) /\ index_in n p' T post.
Proof.
  destruct (find_names_ok good n _ p T post word m fuel Hall Hc Hf Hm) as (p' & names & E & Hn & Hall' & _). exists p', names.
  split; [done|]. split; [done|]. by apply (index_in_all n (root_words (ti_blocks p))).
Qed.
End index.

(** ** A session *)

Abbreviation file_good := (fun bs : CamelBlockFile => no_faults (faults bs)).
Abbreviation file_index := (CamelTextIndex CamelBlockFile).
Implicit Types (p : file_index) (b : CamelBlockFile).

(** Whether no block of the map is full; then [middle] is false. *)
Definition roomy b (t : CamelPartitionTable) : bool :=
  forallb (fun q => match det b !! q with Some (_, d) => negb (length (parts_of d) =? 127)%nat | None => true end) (partition t).

Lemma roomy_fits b t h : roomy b t = true -> ~ middle b t h.
Proof.
  intros Hr. apply not_middle. intros q Hq. unfold roomy in Hr. rewrite forallb_forall in Hr. specialize (Hr q (proj1 (list_elem_of_In _ _) Hq)).
  destruct (det b !! q) as [[i d]|]; [|done]. by destruct (Nat.eqb_spec (length (parts_of d)) 127).
Qed.

Definition name_roomy p (name : list Z) : bool :=
  match replace_name (set_word_limit (set_ti_blocks p (set_cache_limit (ti_blocks p) 1024)) 8192) name with
  | Ok p1 => match camel_key_table_add (ti_blocks p1) (name_index p1) name 0 0 with Ok (b2, _, _) => roomy b2 (name_hash p1) | _ => true end
  | _ => true
  end.

Lemma name_roomy_fits p (name : list Z) : name_roomy p name = true -> name_fits p name.
Proof. unfold name_roomy. intros Hr p1 b2 ki id E1 E2. rewrite E1, E2 in Hr. by apply roomy_fits. Qed.

Definition word_roomy p (word : list Z) : bool :=
  match camel_partition_table_lookup (ti_blocks p) (word_hash p) word with
  | Ok (b1, 0) => match camel_key_table_add b1 (word_index p) word 0 0 with Ok (b2, _, _) => roomy b2 (word_hash p) | _ => true end
  | _ => true
  end.

Lemma word_roomy_fits p (word : list Z) : word_roomy p word = true -> word_fits p word.
Proof. unfold word_roomy. intros Hr b1 b2 ki id E1 E2. rewrite E1, E2 in Hr. by apply roomy_fits. Qed.

Fixpoint words_roomy p (id : Z) (words : list (list Z)) : bool :=
  match words with
  | [] => true
  | word :: words => word_roomy p word && match text_index_add_name_to_word p word id with Ok p' => words_roomy p' id words | _ => true end
  end.

(** The words of the cache have other hashes than [words], or are the same. *)
Definition clash_free p (words : list (list Z)) : bool :=
  forallb (fun word => forallb (fun w => negb (hash_of w =? hash_key word) || bool_decide (w_word w = word)) (word_cache p)) words.

Lemma clash_free_ok p (words : list (list Z)) word : clash_free p words = true -> word ∈ words -> no_clash p word.
Proof.
  intros Hc Hw w Hwp Eh. unfold clash_free in Hc. rewrite forallb_forall in Hc. specialize (Hc word (proj1 (list_elem_of_In _ _) Hw)).
  rewrite forallb_forall in Hc. specialize (Hc w (proj1 (list_elem_of_In _ _) Hwp)). rewrite Eh, Z.eqb_refl in Hc. by apply bool_decide_eq_true in Hc.
Qed.


Lemma words_roomy_fits p id (words : list (list Z)) : words_roomy p id words = true -> clash_free p words = true -> words_fit p id words.
Proof.
  intros Hr Hc. split; [intros word Hw; by apply (clash_free_ok p words)|]. clear Hc. intros l1. revert p words Hr.
  induction l1 as [|x l1 IH]; intros p words Hr word l2 p1 -> E; cbn [app words_roomy] in Hr; apply andb_true_iff in Hr as [Hr1 Hr2].
  - injection E as <-. by apply word_roomy_fits.
  - cbn [hash_write_words] in E. apply res_bind_inv in E as (p2 & E2 & E). rewrite E2 in Hr2. by apply (IH p2 (l1 ++ word :: l2) Hr2 word l2 p1).
Qed.

(** An empty index in an empty file; and what a run gives, if the other cases do not occur. *)
Definition no_links : CamelKeyFile := mkKeyFile false true false 0 0 false [] [] [].
Definition the_links : CamelKeyFile := default no_links (camel_key_file_new [] false keys_version []).
Definition no_index : file_index := mkIndex _ no_blocks no_links (mkKeyTable 0 1%positive false) (mkTable 0 []) (mkKeyTable 0 1%positive false) (mkTable 0 []) 0 0 [].
Definition the_index : file_index :=
  match camel_text_index_new 5 (Some no_blocks) (Some the_links) with Ok (inl p) => p | _ => no_index end.
Definition ran (r : res file_index) : file_index := match r with Ok p => p | _ => no_index end.
Definition fst_of {A : Type} (r : res (file_index * A)) : res file_index := '(p, _) ← r; Ok p.
Definition snd_of {A : Type} (r : res (file_index * A)) : res A := '(_, x) ← r; Ok x.

(** Two names with two words each; one of them is deleted; the words are looked up. *)
Definition name_1 : file_index := ran (fst_of (text_index_add_name the_index [109; 49])).
Definition words_1 : file_index := ran (text_index_write_name name_1 7168 [[97]; [98]]).
Definition name_2 : file_index := ran (fst_of (text_index_add_name words_1 [109; 50])).
Definition words_2 : file_index := ran (text_index_write_name name_2 7169 [[98]; [99]]).
Definition no_compress p : res (file_index * Z) := Ok (p, -1).
Definition all_synced : file_index := ran (fst_of (text_index_sync no_compress words_2)).
Definition one_deleted : file_index := ran (text_index_delete_name all_synced [109; 49]).

Example session_found :
  ('(p, l1) ← find_names 5 20 all_synced [97]; '(p, l2) ← find_names 5 20 p [98]; '(p, l3) ← find_names 5 20 p [100]; Ok (l1, l2, l3)) =
    Ok ([[109; 49]], [[109; 49]; [109; 50]], []) /\
  ('(p, l1) ← find_names 5 20 one_deleted [97]; '(p, l2) ← find_names 5 20 p [98]; Ok (l1, l2)) = Ok ([], [[109; 50]]).
Proof. vm_compute. split; reflexivity. Qed.

Lemma the_links_ok : key_file the_links keys_version /\ no_failures (kf_calls the_links).
Proof. split; [split; [vm_compute; reflexivity..|vm_compute; discriminate]|by vm_compute; constructor]. Qed.

Lemma no_blocks_tenants n : (n <= 1000)%nat -> tenants file_good n (root_words no_blocks) no_blocks [].
Proof.
  intros Hn. split; [exact no_blocks_wf|by split; [constructor|]|apply (file_room_less _ 1000 n Hn); vm_compute; reflexivity|].
  exists []. split; [constructor|]. intros i j X Y _ Hi. by rewrite lookup_nil in Hi.
Qed.

Lemma the_index_ok : index_in file_good 100 the_index (no_tables keys_version) (fun _ => []) /\ word_cache the_index = [].
Proof.
  destruct the_links_ok as [Hk Hf].
  assert (Forall (fun k => rb_count k (root_words no_blocks) = 0) [word_index_root; word_hash_root; name_index_root; name_hash_root]) as Hz.
  { apply (bool_decide_unpack _). vm_compute. exact I. }
  apply Forall_cons in Hz as [Z1 Hz]. apply Forall_cons in Hz as [Z2 Hz]. apply Forall_cons in Hz as [Z3 Hz]. apply Forall_cons in Hz as [Z4 _].
  destruct (text_index_new_ok file_good 100 _ no_blocks the_links keys_version 4 (no_blocks_tenants 106 ltac:(lia))
    (file_words_length _ no_blocks_wf) Z1 Z2 Z3 Z4 Hk Hf) as (p & ws & E & Hall & Hc & _); [cbn; lia|].
  assert (p = the_index) as ->; [|split; [by apply (index_in_all _ _ ws)|done]]. unfold the_index. by rewrite E.
Qed.

(** The states are not computed with but where that is said. *)
Lemma session_steps :
  name_1 = ran (fst_of (text_index_add_name the_index [109; 49])) /\ words_1 = ran (text_index_write_name name_1 7168 [[97]; [98]]) /\
  name_2 = ran (fst_of (text_index_add_name words_1 [109; 50])) /\ words_2 = ran (text_index_write_name name_2 7169 [[98]; [99]]) /\
  all_synced = ran (fst_of (text_index_sync no_compress words_2)) /\ one_deleted = ran (text_index_delete_name all_synced [109; 49]).
Proof. split_and!; reflexivity. Qed.

#[local] Opaque the_index name_1 words_1 name_2 words_2 all_synced one_deleted.

Lemma name_1_ok : exists T, index_in file_good 97 name_1 T (fun _ => []) /\ 7168 ∈ (tb_names T).*1 /\ same_words the_index (no_tables keys_version) name_1 T.
Proof.
  destruct the_index_ok as [Hall _]. destruct (add_name_in file_good 97 _ _ _ [109; 49] Hall) as (p & T & id & E & Hall' & _ & Hid & _ & _ & _ & Hk).
  - discriminate.
  - apply (bool_decide_unpack _). vm_compute. exact I.
  - apply name_roomy_fits. vm_compute. reflexivity.
  - assert (p = name_1) as <- by (rewrite (proj1 session_steps), E; reflexivity).
    assert (Ok id = Ok 7168) as [= ->] by (transitivity (snd_of (text_index_add_name the_index [109; 49])); [rewrite E; reflexivity|vm_compute; reflexivity]).
    exists T. split; [exact Hall'|]. split; [exact Hid|exact Hk].
Qed.

Definition post_1 (h : Z) : list Z := with_words [[97]; [98]] 7168 h [].
Definition post_2 (h : Z) : list Z := with_words [[98]; [99]] 7169 h (post_1 h).

Lemma two_words x y : bool_decide (words_fine [[x]; [y]]) = true -> words_fine [[x]; [y]].
Proof. by intros ?%bool_decide_eq_true. Qed.

Lemma words_1_ok : exists T, index_in file_good 91 words_1 T post_1 /\ (weight T (word_cache words_1) <= 280)%nat.
Proof.
  destruct name_1_ok as (T & Hall & Hid & Hk). pose proof (same_words_weight _ _ _ _ Hk) as Hw. rewrite (proj2 the_index_ok) in Hw. cbn in Hw.
  destruct (write_name_ok file_good 91 name_1 T _ [[97]; [98]] 7168 Hall Hid) as (p & T' & E & Hall' & _ & _ & Hw').
  - apply two_words. vm_compute. reflexivity.
  - apply words_roomy_fits; vm_compute; reflexivity.
  - rewrite Hw. cbn. lia.
  - assert (p = words_1) as <- by (rewrite (proj1 (proj2 session_steps)), E; reflexivity).
    exists T'. split; [exact Hall'|]. rewrite Hw in Hw'. exact Hw'.
Qed.

Lemma name_2_ok : exists T, index_in file_good 88 name_2 T post_1 /\ 7169 ∈ (tb_names T).*1 /\ (weight T (word_cache name_2) <= 280)%nat.
Proof.
  destruct words_1_ok as (T0 & Hall & Hw). destruct (add_name_in file_good 88 _ _ _ [109; 50] Hall) as (p & T & id & E & Hall' & _ & Hid & _ & _ & _ & Hk).
  - discriminate.
  - apply (bool_decide_unpack _). vm_compute. exact I.
  - apply name_roomy_fits. vm_compute. reflexivity.
  - assert (p = name_2) as <- by (rewrite (proj1 (proj2 (proj2 session_steps))), E; reflexivity).
    assert (Ok id = Ok 7169) as [= ->] by (transitivity (snd_of (text_index_add_name words_1 [109; 50])); [rewrite E; reflexivity|vm_compute; reflexivity]).
    exists T. split; [exact Hall'|]. split; [exact Hid|]. rewrite (same_words_weight _ _ _ _ Hk). exact Hw.
Qed.

Lemma words_2_ok : exists T, index_in file_good 82 words_2 T post_2 /\ (weight T (word_cache words_2) <= 552)%nat.
Proof.
  destruct name_2_ok as (T & Hall & Hid & Hw).
  destruct (write_name_ok file_good 82 name_2 T _ [[98]; [99]] 7169 Hall Hid) as (p & T' & E & Hall' & _ & _ & Hw').
  - apply two_words. vm_compute. reflexivity.
  - apply words_roomy_fits; vm_compute; reflexivity.
  - cbn [length]. lia.
  - assert (p = words_2) as <- by (rewrite (proj1 (proj2 (proj2 (proj2 session_steps)))), E; reflexivity).
    exists T'. split; [exact Hall'|]. cbn [length] in Hw'. lia.
Qed.

Lemma all_synced_ok : exists T, index_in file_good 82 all_synced T post_2 /\ word_cache all_synced = [].
Proof.
  destruct words_2_ok as (T0 & Hall & Hw). destruct (write_out_in file_good 82 words_2 T0 post_2 Hall) as (p1 & T & r & E & _ & Hall1 & Hc & _); [lia|].
  destruct (flushed_in file_good 82 p1 T post_2 Hall1) as (b & ret & E2 & Hall2).
  destruct (text_index_sync_steps file_good 82 _ words_2 T0 no_compress (il_at _ _ _ _ _ _ Hall)) as (p1' & r' & E' & Es); [lia|].
  rewrite E in E'. injection E' as <- <-. assert (set_ti_blocks p1 b = all_synced) as <-; [|exists T; split; [exact Hall2|exact Hc]].
  rewrite (proj1 (proj2 (proj2 (proj2 (proj2 session_steps))))), Es.
  assert (fragmented_after (root_words (ti_blocks words_2)) (to_write (word_cache words_2)) = false) as -> by (vm_compute; reflexivity).
  rewrite andb_false_r, res_bind_Ok, E2. reflexivity.
Qed.

Lemma one_deleted_ok : exists T, index_in file_good 82 one_deleted T post_2 /\ word_cache one_deleted = [].
Proof.
  destruct all_synced_ok as (T0 & Hall & Hc). destruct (delete_name_ok file_good 82 _ all_synced T0 post_2 [109; 49] Hall) as (p & ws & T & E & Hall' & _ & _ & [_ Ec]).
  assert (p = one_deleted) as <- by (rewrite (proj2 (proj2 (proj2 (proj2 (proj2 session_steps))))), E; reflexivity).
  exists T. split; [by apply (index_in_all file_good 82 ws)|congruence].
Qed.

(** ** The claims at these states *)

Lemma text_index_name_added_witness : exists T p' T' id p'', index_in file_good 91 words_1 T post_1 /\
  text_index_add_name words_1 [109; 50] = Ok (p', id) /\ index_in file_good 88 p' T' post_1 /\ 0 < id < 2 ^ 32 /\
  (forall h, ~ id ∈ post_1 h) /\ (forall id', live T' id' = live_with T (hash_key [109; 50]) id [109; 50] id') /\
  tb_nmap T' = <[hash_key [109; 50] := id]> (tb_nmap T) /\ same_words words_1 T p' T' /\ text_index_has_name p' [109; 50] = Ok (p'', true).
Proof.
  destruct words_1_ok as (T & Hall & _). exists T. destruct (text_index_name_added file_good 88 words_1 T post_1 [109; 50] Hall) as (p' & T' & id & p'' & Hr).
  - discriminate.
  - apply (bool_decide_unpack _). vm_compute. exact I.
  - apply name_roomy_fits. vm_compute. reflexivity.
  - exists p', T', id, p''. split; [exact Hall|exact Hr].
Defined.

Lemma text_index_name_deleted_witness : exists T p' T' p'', index_in file_good 82 all_synced T post_2 /\
  text_index_delete_name all_synced [109; 49] = Ok p' /\ index_in file_good 82 p' T' post_2 /\
  (forall id, live T' id = if decide (tb_nmap T !! hash_key [109; 49] = Some id) then None else live T id) /\
  tb_nmap T' = delete (hash_key [109; 49]) (tb_nmap T) /\ same_words all_synced T p' T' /\ text_index_has_name p' [109; 49] = Ok (p'', false).
Proof.
  destruct all_synced_ok as (T & Hall & _). exists T. destruct (text_index_name_deleted file_good 82 all_synced T post_2 [109; 49] Hall) as (p' & T' & p'' & Hr).
  exists p', T', p''. split; [exact Hall|exact Hr].
Defined.

Lemma text_index_words_written_witness : exists T p' T', index_in file_good 88 name_2 T post_1 /\
  text_index_write_name name_2 7169 [[98]; [99]] = Ok p' /\ index_in file_good 82 p' T' post_2 /\ tb_names T' = tb_names T /\ tb_nmap T' = tb_nmap T.
Proof.
  destruct name_2_ok as (T & Hall & Hid & Hw). exists T. destruct (text_index_words_written file_good 82 name_2 T post_1 [[98]; [99]] 7169 Hall Hid) as (p' & T' & Hr).
  - apply two_words. vm_compute. reflexivity.
  - apply words_roomy_fits; vm_compute; reflexivity.
  - cbn [length]. lia.
  - exists p', T'. split; [exact Hall|exact Hr].
Defined.

(** None of the records and names of the session is out of use: the index is not compressed. *)
Lemma text_index_synced_witness : exists T p1 r p' T' ret, index_in file_good 82 words_2 T post_2 /\
  write_out words_2 = Ok (p1, r) /\ text_index_sync no_compress words_2 = Ok (p', ret) /\ index_in file_good 82 p' T' post_2 /\ word_cache p' = [] /\
  tb_names T' = tb_names T /\ tb_nmap T' = tb_nmap T.
Proof.
  destruct words_2_ok as (T & Hall & Hw). exists T.
  destruct (text_index_synced file_good 82 words_2 T post_2 no_compress Hall) as (p1 & T1 & r & frag & E & Hr & _ & _ & En & Em & Hc & _ & Hd).
  - lia.
  - assert (frag = false) as Hf.
    { apply not_true_iff_false. intros Hf. apply Hc in Hf; unfold counts_fine, wasteful_after, wasteful in *.
      - revert Hf. apply (bool_decide_unpack _). vm_compute. exact I.
      - apply (bool_decide_unpack _). vm_compute. exact I. }
    destruct (Hd (or_intror Hf)) as (p' & ret & Es & Hall' & Ec'). exists p1, r, p', T1, ret.
    split; [exact Hall|]. split; [exact E|]. split; [exact Es|]. split; [exact Hall'|]. split; [exact Ec'|]. split; [exact En|exact Em].
Defined.

(** The name that was deleted is not found any more ([session_found]). *)
Lemma text_index_names_found_witness : exists T p' names, index_in file_good 82 one_deleted T post_2 /\
  find_names 5 20 one_deleted [98] = Ok (p', names) /\ names ≡ₚ omap (live T) (post_2 (hash_key [98])) /\ index_in file_good 82 p' T post_2.
Proof.
  destruct one_deleted_ok as (T & Hall & Hc). exists T. destruct (text_index_names_found file_good 82 one_deleted T post_2 [98] 5 20 Hall) as (p' & names & Hr).
  - rewrite Hc. apply not_elem_of_nil.
  - apply Nat.ltb_lt. vm_compute. reflexivity.
  - apply Nat.ltb_lt. vm_compute. reflexivity.
  - exists p', names. split; [exact Hall|exact Hr].
Defined.
