(* ===== verification/TextIndexBuffer.v ===== *)
(** * The text index: the words of a name ([CamelTextIndexName])

    [src/camel/camel-text-index.c] and [camel-index.c]: text is given in buffers; its words are the
    runs of letters and digits, in lower case.  A pointer into a buffer is the list of bytes from there
    to the end of the buffer; reading at the end is [Undef].  The hash table of words is the set of them. *)

From stdpp Require Import gmap.
From S2P Require Import Prelude CString GLibUtf8.
From S2P Require Import Utf8 Utf8Spec.
#[local] Open Scope Z_scope.
#[local] Open Scope list_scope.

(** GLib's functions on case. *)
Class GCase := {
  g_unichar_tolower : Z -> Z;
  g_utf8_strdown : list Z -> list Z;
}.

Definition CAMEL_TEXT_INDEX_MAX_WORDLEN : nat := 36.

(** ** Characters *)

(** The bits of the first byte of a sequence, and how many bytes follow. *)
Definition utf8_lead (c : Z) : option (Z * nat) :=
  if Z.land c 0xe0 =? 0xc0 then Some (Z.land c 0x1f, 1%nat)
  else if Z.land c 0xf0 =? 0xe0 then Some (Z.land c 0x0f, 2%nat)
  else if Z.land c 0xf8 =? 0xf0 then Some (Z.land c 0x07, 3%nat)
  else if Z.land c 0xfc =? 0xf8 then Some (Z.land c 0x03, 4%nat)
  else if Z.land c 0xfe =? 0xfc then Some (Z.land c 0x01, 5%nat)
  else None.

(** The loop over the bytes that follow: [v], [l] and [p] when it ends. *)
Fixpoint utf8_more (v : Z) (l : nat) (p : list Z) : res (Z * nat * list Z) :=
  match l with
  | O => Ok (v, O, p)
  | S l' =>
      match p with
      | [] => Undef
      | c :: p' =>
          if Z.land c 0xc0 =? 0x80 then utf8_more (u32 (Z.lor (Z.shiftl v 6) (Z.land c 0x3f))) l' p'
          else Ok (v, l, p)
      end
  end.

(** The outer loop: the character and [*ptr]. *)
Fixpoint utf8_next_loop (fuel : nat) (ptr p : list Z) : res (Z * list Z) :=
  match fuel with
  | O => NoFuel
  | S fuel =>
      match p with
      | [] => Undef
      | c :: p =>
          if c =? 0 then Ok (0, ptr)
          else if c <? 0x80 then Ok (c, p)
          else
            match utf8_lead c with
            | None => match p with [] => Ok (0, ptr) | _ => utf8_next_loop fuel ptr p end
            | Some (v, l) =>
                if (length p <? l)%nat then Ok (0, ptr)
                else
                  '(v, l, p) ← utf8_more v l p;
                  if (l =? 0)%nat then Ok (v, p) else utf8_next_loop fuel ptr p
            end
      end
  end.

Definition camel_utf8_next (ptr : list Z) : res (Z * list Z) :=
  match ptr with [] => Ok (0, []) | _ => utf8_next_loop (length ptr) ptr ptr end.

(** ** Names *)

(** [CamelTextIndexName] and its private data; [priv->pool] has the strings of [words]. *)
Record CamelTextIndexName := mkName {
  in_buffer : list Z;
  in_nameid : Z;
  in_words : gset (list Z);
}.

Definition camel_text_index_name_new (nameid : Z) : CamelTextIndexName := mkName [] nameid ∅.

Definition set_buffer (idn : CamelTextIndexName) (s : list Z) : CamelTextIndexName := mkName s (in_nameid idn) (in_words idn).

Definition text_index_name_add_word (idn : CamelTextIndexName) (word : list Z) : CamelTextIndexName :=
  mkName (in_buffer idn) (in_nameid idn) ({[word]} ∪ in_words idn).

Section buffers.
Context `{GLib} `{GCase}.

Definition text_index_normalise (word : list Z) : list Z := g_utf8_strdown word.

Definition camel_index_name_add_word (idn : CamelTextIndexName) (word : list Z) : CamelTextIndexName :=
  text_index_name_add_word idn (text_index_normalise word).

(** What is done with a character; [utf8] is an array of 8 bytes. *)
Definition add_char (idn : CamelTextIndexName) (c : Z) : res CamelTextIndexName :=
  if g_unichar_isalnum c then
    let utf8 := g_unichar_to_utf8 (g_unichar_tolower c) in
    if (8 <=? length utf8)%nat then Undef else Ok (set_buffer idn (in_buffer idn ++ c_string utf8))
  else
    let n := length (in_buffer idn) in
    let idn := if (0 <? n)%nat && (n <=? CAMEL_TEXT_INDEX_MAX_WORDLEN)%nat then text_index_name_add_word idn (in_buffer idn) else idn in
    Ok (set_buffer idn []).

Fixpoint add_buffer_loop (fuel : nat) (ptr : list Z) (idn : CamelTextIndexName) : res CamelTextIndexName :=
  match fuel with
  | O => NoFuel
  | S fuel =>
      '(c, ptr) ← camel_utf8_next ptr;
      if c =? 0 then Ok idn else idn ← add_char idn c; add_buffer_loop fuel ptr idn
  end.

(** [buffer] may be NULL. *)
Definition text_index_name_add_buffer (idn : CamelTextIndexName) (buffer : option (list Z)) : res CamelTextIndexName :=
  match buffer with
  | None => Ok (if (0 <? length (in_buffer idn))%nat then set_buffer (camel_index_name_add_word idn (in_buffer idn)) [] else idn)
  | Some buffer => add_buffer_loop (S (length buffer)) buffer idn
  end.
End buffers.

(** * The text index: the words of a name, theorems

    Whatever the bytes, giving a name its text stays in the buffers and ends, and the words are text.  The words
    of UTF-8 text are its runs of letters and digits, wherever it was cut into buffers between characters. *)

(** GLib's documentation: letters and digits are characters, and so they are in lower case; a string in lower case is one. *)
Class GCaseLaws `{GLib} `{GCase} : Prop := {
  tolower_valid c : g_unichar_isalnum c = true -> valid_char (g_unichar_tolower c);
  strdown_valid cs : Forall valid_char cs -> cs <> [] -> exists ds, g_utf8_strdown (utf8 cs) = utf8 ds /\ Forall valid_char ds /\ ds <> [];
}.
Arguments GCaseLaws : clear implicits.
Arguments GCaseLaws _ _ : assert.

(** ** Characters *)

Lemma utf8_more_ok v l p : (l <= length p)%nat ->
  exists v' l' p', utf8_more v l p = Ok (v', l', p') /\ p' `suffix_of` p /\ (l' <= length p')%nat.
Proof.
  revert v p. induction l as [|l IH]; intros v p Hl; cbn [utf8_more]; [exists v, O, p; split; [done|]; split; [done|lia]|].
  destruct p as [|c p]; [cbn in Hl; lia|]. destruct (_ =? 0x80).
  - destruct (IH (u32 (Z.lor (Z.shiftl v 6) (Z.land c 0x3f))) p) as (v' & l' & p' & -> & Hs & Hl'); [cbn in Hl; lia|].
    exists v', l', p'. split; [done|]. split; [by apply suffix_cons_r|done].
  - by exists v, (S l), (c :: p).
Qed.

(** No byte at the end of the buffer or behind it is read. *)
Lemma utf8_next_loop_ok fuel ptr p : p <> [] -> (length p <= fuel)%nat ->
  exists c q, utf8_next_loop fuel ptr p = Ok (c, q) /\ (c = 0 /\ q = ptr \/ q `suffix_of` p /\ (length q < length p)%nat).
Proof.
  revert p. induction fuel as [|fuel IH]; intros p Hp Hf; [destruct p; [done|cbn in Hf; lia]|]. cbn [utf8_next_loop].
  destruct p as [|c p]; [done|]. cbn [length] in *. destruct (c =? 0); [exists 0, ptr; split; [done|by left]|].
  destruct (c <? 0x80); [exists c, p; split; [done|right; split; [by apply suffix_cons_r|lia]]|].
  assert (forall q, q `suffix_of` p -> q <> [] -> exists c' q', utf8_next_loop fuel ptr q = Ok (c', q') /\
    (c' = 0 /\ q' = ptr \/ q' `suffix_of` c :: p /\ (length q' < S (length p))%nat)) as Hq.
  { intros q Hs Hne. pose proof (suffix_length q p Hs). destruct (IH q Hne) as (c' & q' & -> & [Hc|[Hs' Hl]]); [lia|exists c', q'; split; [done|by left]|].
    exists c', q'. split; [done|]. right. split; [|lia]. etrans; [exact Hs'|by apply suffix_cons_r]. }
  destruct (utf8_lead c) as [[v l]|].
  - destruct (Nat.ltb_spec (length p) l) as [|Hl]; [exists 0, ptr; split; [done|by left]|].
    destruct (utf8_more_ok v l p Hl) as (v' & l' & p' & -> & Hs & Hl'). rewrite res_bind_Ok. pose proof (suffix_length p' p Hs).
    destruct (Nat.eqb_spec l' 0) as [->|Hne]; [exists v', p'; split; [done|]; right; split; [by apply suffix_cons_r|lia]|].
    apply Hq; [done|]. intros ->. cbn in Hl'. lia.
  - destruct p as [|b p]; [exists 0, ptr; split; [done|by left]|by apply Hq].
Qed.

Lemma camel_utf8_next_ok ptr : exists c q, camel_utf8_next ptr = Ok (c, q) /\ q `suffix_of` ptr /\ (c <> 0 -> (length q < length ptr)%nat).
Proof.
  unfold camel_utf8_next. destruct ptr as [|b ptr]; [by exists 0, []|].
  destruct (utf8_next_loop_ok (length (b :: ptr)) (b :: ptr) (b :: ptr)) as (c & q & -> & [[-> ->]|[Hs Hl]]); [done|done|by exists 0, (b :: ptr)|by exists c, q].
Qed.

(** A character that was written as UTF-8. *)
Lemma utf8_more_conts v cs rest : Forall is_cont cs ->
  utf8_more v (length cs) (cs ++ rest) = Ok (foldl (fun v c => u32 (Z.lor (Z.shiftl v 6) (Z.land c 0x3f))) v cs, O, rest).
Proof.
  intros Hcs. revert v. induction Hcs as [|c cs Hc _ IH]; intros v; [done|]. cbn [length app utf8_more foldl]. unfold is_cont in Hc.
  rewrite Hc. apply IH.
Qed.

Lemma bits_join v x : 0 <= v < 2 ^ 26 -> 0 <= x < 64 -> u32 (Z.lor (Z.shiftl v 6) (Z.land (u8 (Z.lor 0x80 x)) 0x3f)) = v * 64 + x.
Proof.
  intros Hv Hx. destruct (cont_of x Hx) as [_ E]. rewrite land_3f, E, lor_add by lia. unfold u32. change (2 ^ 6) with 64.
  apply Z.mod_small. change (2 ^ 26) with 67108864 in Hv. change (2 ^ 32) with 4294967296. lia.
Qed.

Lemma leads : (forall x, 0 <= x < 32 -> utf8_lead (192 + x) = Some (x, 1%nat)) /\ (forall x, 0 <= x < 16 -> utf8_lead (224 + x) = Some (x, 2%nat)) /\
  (forall x, 0 <= x < 8 -> utf8_lead (240 + x) = Some (x, 3%nat)).
Proof.
  split_and!; intros x Hx.
  - assert (Forall (fun x => utf8_lead (192 + x) = Some (x, 1%nat)) (seqZ 0 32)) as H by (apply (bool_decide_unpack _); vm_compute; exact I).
    rewrite Forall_forall in H. apply H, elem_of_seqZ. lia.
  - assert (Forall (fun x => utf8_lead (224 + x) = Some (x, 2%nat)) (seqZ 0 16)) as H by (apply (bool_decide_unpack _); vm_compute; exact I).
    rewrite Forall_forall in H. apply H, elem_of_seqZ. lia.
  - assert (Forall (fun x => utf8_lead (240 + x) = Some (x, 3%nat)) (seqZ 0 8)) as H by (apply (bool_decide_unpack _); vm_compute; exact I).
    rewrite Forall_forall in H. apply H, elem_of_seqZ. lia.
Qed.

Lemma next_putc c rest : 0 < c < 2 ^ 21 -> camel_utf8_next (camel_utf8_putc c ++ rest) = Ok (c, rest).
Proof.
  change (2 ^ 21) with 2097152. intros Hc. destruct leads as (L1 & L2 & L3). unfold camel_utf8_putc. rewrite !land_3f, !Z.shiftr_div_pow2 by done.
  change (2 ^ 6) with 64. change (2 ^ 12) with 4096. change (2 ^ 18) with 262144.
  pose proof (cont_of (c mod 64) ltac:(div_lia)) as [C1 _]. pose proof (cont_of ((c / 64) mod 64) ltac:(div_lia)) as [C2 _].
  pose proof (cont_of ((c / 4096) mod 64) ltac:(div_lia)) as [C3 _].
  assert (forall l v cs, utf8_lead l = Some (v, length cs) -> 128 <= l -> Forall is_cont cs ->
    foldl (fun v c => u32 (Z.lor (Z.shiftl v 6) (Z.land c 0x3f))) v cs = c -> camel_utf8_next ((l :: cs) ++ rest) = Ok (c, rest)) as Hseq.
  { intros l v cs Hl Hge Hcs <-. unfold camel_utf8_next. cbn [app length utf8_next_loop]. destruct (Z.eqb_spec l 0); [lia|].
    destruct (Z.ltb_spec l 0x80); [lia|]. rewrite Hl. destruct (Nat.ltb_spec (length (cs ++ rest)) (length cs)) as [Hx|_]; [rewrite length_app in Hx; lia|].
    by rewrite utf8_more_conts, res_bind_Ok. }
  destruct (Z.leb_spec c 0x7f).
  { rewrite u8_small by lia. unfold camel_utf8_next. cbn [app length utf8_next_loop]. destruct (Z.eqb_spec c 0); [lia|]. by destruct (Z.ltb_spec c 0x80); [|lia]. }
  destruct (Z.leb_spec c 0x7ff); [|destruct (Z.leb_spec c 0xffff)].
  - rewrite lead_c0 by div_lia. apply (Hseq _ (c / 64)); [apply L1; div_lia|div_lia|by repeat constructor|].
    cbn [foldl]. rewrite bits_join by (change (2 ^ 26) with 67108864; div_lia). div_lia.
  - rewrite lead_e0 by div_lia. apply (Hseq _ (c / 4096)); [apply L2; div_lia|div_lia|by repeat constructor|].
    cbn [foldl]. rewrite (bits_join (c / 4096)) by (change (2 ^ 26) with 67108864; div_lia).
    rewrite bits_join by (change (2 ^ 26) with 67108864; div_lia). div_lia.
  - rewrite lead_f0 by div_lia. apply (Hseq _ (c / 262144)); [apply L3; div_lia|div_lia|by repeat constructor|].
    cbn [foldl]. rewrite (bits_join (c / 262144)) by (change (2 ^ 26) with 67108864; div_lia).
    rewrite (bits_join (c / 262144 * 64 + c / 4096 mod 64)) by (change (2 ^ 26) with 67108864; div_lia).
    rewrite bits_join by (change (2 ^ 26) with 67108864; div_lia). div_lia.
Qed.

(** ** Safety *)

Section safety.
Context `{GLib} `{GCase} (HG : GLibLaws _) {HC : GCaseLaws _ _}.
Implicit Types (idn : CamelTextIndexName) (run cs : list Z) (w : list Z).

(** What is in the buffer and the words is text without NUL. *)
Definition texts (s : list Z) : Prop := exists cs, s = utf8 cs /\ Forall valid_char cs.

Record name_ok idn : Prop := {
  no_buffer : texts (in_buffer idn);
  no_words : forall w, w ∈ in_words idn -> texts w /\ w <> [];
}.

Lemma utf8_nil cs : Forall valid_char cs -> utf8 cs = [] -> cs = [].
Proof.
  intros [|c l Hc _]; [done|]. unfold utf8. cbn. destruct (to_utf8_nonempty HG c Hc) as (b & bs & -> & _). done.
Qed.

Lemma to_utf8_bytes c : valid_char c -> Forall (fun b => 0 < b < 256) (g_unichar_to_utf8 c) /\ (1 <= length (g_unichar_to_utf8 c) <= 6)%nat.
Proof.
  intros Hc. destruct (to_utf8_nonempty HG c Hc) as (b & bs & -> & Hs & Hb & _ & _ & Hbs). pose proof (skip_range b). split; [|cbn; lia].
  constructor; [done|]. eapply Forall_impl; [exact Hbs|]. cbn. lia.
Qed.

Lemma texts_bytes s : texts s -> Forall (fun b => 0 < b < 256) s.
Proof. intros (cs & -> & Hcs). unfold utf8. induction Hcs as [|c cs Hc _ IH]; [done|]. cbn. apply Forall_app. split; [by apply to_utf8_bytes|done]. Qed.

Lemma to_utf8_c_string c : valid_char c -> c_string (g_unichar_to_utf8 c) = g_unichar_to_utf8 c.
Proof. intros Hc. apply c_string_id. intros Hz. destruct (to_utf8_bytes c Hc) as [Hb _]. rewrite Forall_forall in Hb. specialize (Hb 0 Hz). lia. Qed.

(** A letter or digit. *)
Lemma add_char_alnum idn c : g_unichar_isalnum c = true ->
  add_char idn c = Ok (set_buffer idn (in_buffer idn ++ g_unichar_to_utf8 (g_unichar_tolower c))).
Proof.
  intros Hc. pose proof (tolower_valid c Hc) as Hv. unfold add_char. rewrite Hc. destruct (to_utf8_bytes _ Hv) as [_ Hl].
  destruct (Nat.leb_spec 8 (length (g_unichar_to_utf8 (g_unichar_tolower c)))); [lia|]. by rewrite to_utf8_c_string.
Qed.

Lemma texts_nil : texts [].
Proof. by exists []. Qed.

Lemma add_word_ok idn w : name_ok idn -> texts w -> w <> [] -> name_ok (text_index_name_add_word idn w).
Proof.
  intros [Hb Hw] Ht Hne. split; [done|]. intros w'. cbn. rewrite elem_of_union, elem_of_singleton. intros [->|Hw']; [done|by apply Hw].
Qed.

Lemma add_char_ok idn c : name_ok idn -> exists idn', add_char idn c = Ok idn' /\ name_ok idn' /\ in_nameid idn' = in_nameid idn.
Proof.
  intros Hok. destruct (g_unichar_isalnum c) eqn:Ec.
  - rewrite add_char_alnum by done. eexists. split; [done|]. split; [|done]. destruct Hok as [(cs & Eb & Hcs) Hw]. split; [|done]. cbn. rewrite Eb.
    exists (cs ++ [g_unichar_tolower c]). split; [|apply Forall_app; split; [done|repeat constructor; by apply tolower_valid]].
    unfold utf8. by rewrite map_app, concat_app; cbn; rewrite app_nil_r.
  - unfold add_char. rewrite Ec. eexists. split; [done|]. destruct ((0 <? length (in_buffer idn))%nat && _) eqn:El; split; try done.
    + apply andb_true_iff in El as [El%Nat.ltb_lt _]. destruct (add_word_ok idn (in_buffer idn) Hok) as [_ Hw]; [apply Hok|by intros E; rewrite E in El; cbn in El; lia|].
      split; [apply texts_nil|exact Hw].
    + destruct Hok as [_ Hw]. split; [apply texts_nil|exact Hw].
Qed.

Lemma add_buffer_loop_ok fuel ptr idn : name_ok idn -> (length ptr < fuel)%nat ->
  exists idn', add_buffer_loop fuel ptr idn = Ok idn' /\ name_ok idn' /\ in_nameid idn' = in_nameid idn.
Proof.
  revert ptr idn. induction fuel as [|fuel IH]; intros ptr idn Hok Hf; [lia|]. cbn [add_buffer_loop].
  destruct (camel_utf8_next_ok ptr) as (c & q & -> & Hs & Hl). rewrite res_bind_Ok. destruct (Z.eqb_spec c 0) as [|Hc]; [by exists idn|].
  destruct (add_char_ok idn c Hok) as (idn1 & -> & Hok1 & E1). rewrite res_bind_Ok. specialize (Hl Hc).
  destruct (IH q idn1 Hok1) as (idn2 & E2 & Hok2 & En); [lia|]. exists idn2. split; [done|]. split; [done|congruence].
Qed.

Lemma add_buffer_ok idn buffer : name_ok idn ->
  exists idn', text_index_name_add_buffer idn buffer = Ok idn' /\ name_ok idn' /\ in_nameid idn' = in_nameid idn.
Proof.
  intros Hok. destruct buffer as [buffer|]; cbn [text_index_name_add_buffer]; [apply add_buffer_loop_ok; [done|lia]|].
  eexists. split; [done|]. destruct (Nat.ltb_spec 0 (length (in_buffer idn))) as [Hl|_]; [|done]. split; [|done].
  pose proof (no_buffer _ Hok) as (cs & Eb & Hcs). assert (cs <> []) as Hne by (intros ->; rewrite Eb in Hl; cbn in Hl; lia).
  destruct (strdown_valid cs Hcs Hne) as (ds & Ed & Hds & Hdn). unfold camel_index_name_add_word, text_index_normalise.
  destruct (add_word_ok idn (g_utf8_strdown (in_buffer idn)) Hok) as [_ Hw].
  - rewrite Eb, Ed. by exists ds.
  - rewrite Eb, Ed. intros E. by apply Hdn, utf8_nil.
  - split; [apply texts_nil|exact Hw].
Qed.
End safety.

(** ** The words of a text *)

(** The loop over a buffer of UTF-8 text goes through its characters. *)
Section reference.
Context `{GLib} `{GCase} (HG : GLibLaws _) {HC : GCaseLaws _ _}.
Implicit Types (idn : CamelTextIndexName) (run cs tail : list Z) (w : list Z).

Definition add_chars cs idn : res CamelTextIndexName := foldM (fun c idn => add_char idn c) cs idn.

Lemma add_buffer_chars cs idn : Forall (fun c => 0 < c < 2 ^ 21) cs ->
  text_index_name_add_buffer idn (Some (utf8_encode cs)) = add_chars cs idn.
Proof.
  intros Hcs. unfold text_index_name_add_buffer. assert (length cs < S (length (utf8_encode cs)))%nat as Hf by (pose proof (utf8_encode_length cs); lia).
  revert idn Hf. generalize (S (length (utf8_encode cs))). induction Hcs as [|c cs Hc _ IH]; intros fuel idn Hf; (destruct fuel as [|fuel]; [lia|]); [done|].
  unfold utf8_encode. cbn [map concat add_buffer_loop]. rewrite next_putc, res_bind_Ok by done. destruct (Z.eqb_spec c 0); [lia|].
  unfold add_chars. cbn [foldM]. destruct (add_char idn c) as [idn1| |]; [|done|done]. rewrite !res_bind_Ok. apply IH. cbn [length] in Hf. lia.
Qed.

(** In [cs] there is the run [run] of letters and digits, as long as possible, with [tail] behind it. *)
Definition alnum c : Prop := g_unichar_isalnum c = true.
Definition is_run cs run tail : Prop := exists l, cs = l ++ run ++ tail /\ Forall alnum run /\
  (forall x, last l = Some x -> ~ alnum x) /\ (forall x, head tail = Some x -> ~ alnum x).

(** The word that a run makes. *)
Definition run_word run : list Z := utf8 (map g_unichar_tolower run).

Lemma run_before cs c run t : t <> [] -> is_run (cs ++ [c]) run (t ++ [c]) <-> is_run cs run t.
Proof.
  intros Ht. destruct t as [|x t]; [done|]. split; intros (l & E & Hr & Hl & Hx); exists l; (split; [|done]).
  - rewrite !app_assoc in E. apply app_inj_tail in E as [-> _]. by rewrite <- app_assoc.
  - by rewrite E, <- !app_assoc.
Qed.

Lemma run_tail cs c run x t : is_run (cs ++ [c]) run (x :: t) -> t = [] /\ x = c \/ exists t', t = t' ++ [c].
Proof.
  intros (l & E & _). destruct t as [|y t] using rev_ind; [left; change [x] with ([] ++ [x]) in E; rewrite !app_assoc in E; by apply app_inj_tail in E as [_ ->]|].
  right. exists t. change (x :: t ++ [y]) with ((x :: t) ++ [y]) in E. rewrite !app_assoc in E. by apply app_inj_tail in E as [_ ->].
Qed.

Lemma run_more cs c run : alnum c -> is_run (cs ++ [c]) run [] <-> exists run', run = run' ++ [c] /\ is_run cs run' [].
Proof.
  intros Hc. split.
  - intros (l & E & Hr & Hl & _). rewrite app_nil_r in E. destruct run as [|y run _] using rev_ind.
    + rewrite app_nil_r in E. exfalso. apply (Hl c); [by rewrite <- E, last_snoc|done].
    + rewrite app_assoc in E. apply app_inj_tail in E as [-> ->]. exists run. split; [done|]. exists l. rewrite app_nil_r. apply Forall_app in Hr as [Hr _]. done.
  - intros (run' & -> & l & -> & Hr & Hl & _). exists l. rewrite !app_nil_r, app_assoc. split; [done|]. split; [apply Forall_app; by repeat constructor|done].
Qed.

Lemma run_end cs c : ~ alnum c -> (forall run, is_run (cs ++ [c]) run [] <-> run = []) /\ (forall run, is_run (cs ++ [c]) run [c] <-> is_run cs run []).
Proof.
  intros Hc. split; intros run; split.
  - intros (l & E & Hr & _). rewrite app_nil_r in E. destruct run as [|y run _] using rev_ind; [done|]. rewrite app_assoc in E. apply app_inj_tail in E as [_ ->].
    apply Forall_app in Hr as [_ Hr]. by apply Forall_cons in Hr as [? _].
  - intros ->. exists (cs ++ [c]). rewrite app_nil_r. split; [done|]. split; [constructor|]. split; [|done]. intros x Hx. rewrite last_snoc in Hx. by injection Hx as <-.
  - intros (l & E & Hr & Hl & _). rewrite app_assoc in E. apply app_inj_tail in E as [-> _]. exists l. by rewrite app_nil_r.
  - intros (l & -> & Hr & Hl & _). exists l. rewrite app_nil_r, app_assoc. split; [done|]. split; [done|]. split; [done|]. intros x [= <-]. done.
Qed.

(** The state after the characters [cs]. *)
Record read_chars cs idn : Prop := {
  rc_buffer : exists run, in_buffer idn = run_word run /\ forall run', is_run cs run' [] <-> run' = run;
  rc_words : forall w, w ∈ in_words idn <-> exists run tail, is_run cs run tail /\ run <> [] /\ tail <> [] /\ w = run_word run /\ (length w <= CAMEL_TEXT_INDEX_MAX_WORDLEN)%nat;
}.

Lemma run_word_snoc run c : run_word (run ++ [c]) = run_word run ++ g_unichar_to_utf8 (g_unichar_tolower c).
Proof. unfold run_word, utf8. by rewrite !map_app, concat_app; cbn; rewrite app_nil_r. Qed.

Lemma run_word_nil run : Forall alnum run -> (0 < length (run_word run))%nat <-> run <> [].
Proof.
  intros Hr. destruct Hr as [|c run Hc _]; [cbn; split; [lia|done]|]. split; [done|]. intros _. unfold run_word, utf8. cbn. rewrite length_app.
  destruct (to_utf8_bytes HG _ (tolower_valid c Hc)) as [_ Hl]. lia.
Qed.

Lemma is_run_alnum cs run tail : is_run cs run tail -> Forall alnum run.
Proof. by intros (l & _ & Hr & _). Qed.

(** The runs that end before a character. *)
Lemma runs_before cs c r t : is_run (cs ++ [c]) r t -> t <> [] -> (t = [c] /\ ~ alnum c) \/ exists t', t' <> [] /\ t = t' ++ [c] /\ is_run cs r t'.
Proof.
  intros Hr Ht. destruct t as [|x t]; [done|]. destruct (run_tail _ _ _ _ _ Hr) as [[-> ->]|[t' ->]].
  - left. split; [done|]. destruct Hr as (l & _ & _ & _ & Hh). by apply (Hh c).
  - right. exists (x :: t'). split; [done|]. split; [done|]. by apply (run_before cs c r (x :: t')) in Hr.
Qed.

Lemma read_char cs idn c : read_chars cs idn -> exists idn', add_char idn c = Ok idn' /\ read_chars (cs ++ [c]) idn' /\ in_nameid idn' = in_nameid idn.
Proof.
  intros [(run & Eb & Hrun) Hw]. destruct (g_unichar_isalnum c) eqn:Ec.
  - rewrite (add_char_alnum HG) by done. eexists. split; [done|]. split; [|done]. split.
    + exists (run ++ [c]). cbn. rewrite run_word_snoc, Eb. split; [done|]. intros run'. rewrite run_more by done. split.
      * by intros (run1 & -> & ->%Hrun).
      * intros ->. exists run. split; [done|by apply Hrun].
    + intros w. cbn. rewrite Hw. split; intros (r & t & Hr & Hne & Ht & Hx).
      * exists r, (t ++ [c]). split; [by apply run_before|]. split; [done|]. split; [by destruct t|done].
      * destruct (runs_before _ _ _ _ Hr Ht) as [[_ Hc]|(t' & Ht' & _ & Hr')]; [done|]. by exists r, t'.
  - assert (~ alnum c) as Hc by (unfold alnum; congruence). destruct (run_end cs c Hc) as [He1 He2]. pose proof (proj2 (Hrun run) eq_refl) as Hr0.
    pose proof (run_word_nil run (is_run_alnum _ _ _ Hr0)) as Hl. unfold add_char. rewrite Ec, Eb. eexists. split; [done|].
    split; [|by destruct (_ && _)]. split; [exists []; split; [done|exact He1]|]. intros w.
    assert (w ∈ in_words idn \/ w = run_word run /\ run <> [] /\ (length w <= CAMEL_TEXT_INDEX_MAX_WORDLEN)%nat <->
      exists r t, is_run (cs ++ [c]) r t /\ r <> [] /\ t <> [] /\ w = run_word r /\ (length w <= CAMEL_TEXT_INDEX_MAX_WORDLEN)%nat) as <-.
    { rewrite Hw. split.
      - intros [(r & t & Hr & Hne & Ht & Hx)|(-> & Hne & Hle)]; [exists r, (t ++ [c]); split; [by apply run_before|]; split; [done|]; split; [by destruct t|done]|].
        exists run, [c]. split; [by apply He2|done].
      - intros (r & t & Hr & Hne & Ht & Hx). destruct (runs_before _ _ _ _ Hr Ht) as [[-> _]|(t' & Ht' & _ & Hr')]; [right|left; by exists r, t'].
        apply He2, Hrun in Hr as ->. destruct Hx. by repeat split. }
    destruct (Nat.ltb_spec 0 (length (run_word run))) as [Hlt|Hge], (Nat.leb_spec (length (run_word run)) CAMEL_TEXT_INDEX_MAX_WORDLEN) as [Hle|Hgt]; cbn [andb set_buffer in_words text_index_name_add_word].
    + rewrite elem_of_union, elem_of_singleton. split; [intros [->|?]; [right|by left]; split; [done|]; split; [by apply Hl|done]|intros [?|[-> _]]; [by right|by left]].
    + split; [by left|]. intros [?|(-> & _ & ?)]; [done|lia].
    + split; [by left|]. intros [?|(_ & Hne & _)]; [done|]. apply Hl in Hne. lia.
    + split; [by left|]. intros [?|(_ & Hne & _)]; [done|]. apply Hl in Hne. lia.
Qed.

Lemma read_new nameid : read_chars [] (camel_text_index_name_new nameid).
Proof.
  split.
  - exists []. split; [done|]. intros run. split; [|intros ->; by exists []]. intros (l & E & _). symmetry in E. apply app_eq_nil in E as [_ E]. by apply app_eq_nil in E as [-> _].
  - intros w. split; [by intros ?%not_elem_of_empty|]. intros (r & t & (l & E & _) & Hne & _). symmetry in E. apply app_eq_nil in E as [_ E]. by apply app_eq_nil in E as [? _].
Qed.

Lemma read_all_chars before cs idn : read_chars before idn -> exists idn', add_chars cs idn = Ok idn' /\ read_chars (before ++ cs) idn' /\ in_nameid idn' = in_nameid idn.
Proof.
  revert before idn. induction cs as [|c cs IH]; intros before idn Hr; [exists idn; by rewrite app_nil_r|]. unfold add_chars. cbn [foldM].
  destruct (read_char before idn c Hr) as (idn1 & -> & Hr1 & E1). rewrite res_bind_Ok. destruct (IH _ _ Hr1) as (idn2 & E2 & Hr2 & En).
  exists idn2. split; [exact E2|]. split; [by rewrite <- app_assoc in Hr2|congruence].
Qed.

Lemma read_buffers css before idn : Forall (Forall (fun c => 0 < c < 2 ^ 21)) css -> read_chars before idn ->
  exists idn', foldM (fun cs idn => text_index_name_add_buffer idn (Some (utf8_encode cs))) css idn = Ok idn' /\
    read_chars (before ++ concat css) idn' /\ in_nameid idn' = in_nameid idn.
Proof.
  intros Hcss. revert before idn. induction Hcss as [|cs css Hcs _ IH]; intros before idn Hr; cbn [foldM concat]; [exists idn; by rewrite app_nil_r|].
  rewrite add_buffer_chars by done. destruct (read_all_chars before cs idn Hr) as (idn1 & -> & Hr1 & E1). rewrite res_bind_Ok.
  destruct (IH _ _ Hr1) as (idn2 & E2 & Hr2 & En). exists idn2. split; [exact E2|]. split; [by rewrite <- app_assoc in Hr2|congruence].
Qed.
End reference.

(** ** The claims *)

(** C18: Whatever bytes a name is given as its text, in however many buffers, nothing outside the buffers is read, giving ends, and the
    words it has then are not empty and have no NUL byte. *)
Theorem text_index_name_safe `{GLib} `{GCase} (HG : GLibLaws _) (HC : GCaseLaws _ _) (nameid : Z) (buffers : list (option (list Z))) :
  exists idn, foldM (fun buffer idn => text_index_name_add_buffer idn buffer) buffers (camel_text_index_name_new nameid) = Ok idn /\
    in_nameid idn = nameid /\ forall w, w ∈ in_words idn -> w <> [] /\ Forall (fun b => 0 < b < 256) w.
Proof.
  assert (name_ok (camel_text_index_name_new nameid)) as Hok by (split; [apply texts_nil|by intros w ?%not_elem_of_empty]).
  enough (forall idn, name_ok idn -> exists idn', foldM (fun buffer idn => text_index_name_add_buffer idn buffer) buffers idn = Ok idn' /\
    name_ok idn' /\ in_nameid idn' = in_nameid idn) as He.
  { destruct (He _ Hok) as (idn & E & Hok' & En). exists idn. split; [done|]. split; [exact En|]. intros w [Ht Hne]%(no_words _ Hok').
    split; [done|]. by apply (texts_bytes HG). }
  clear Hok. induction buffers as [|buffer buffers IH]; intros idn Hok; [by exists idn|]. cbn [foldM].
  destruct (add_buffer_ok HG idn buffer Hok) as (idn1 & -> & Hok1 & E1). rewrite res_bind_Ok. destruct (IH idn1 Hok1) as (idn2 & E2 & Hok2 & En).
  exists idn2. split; [done|]. split; [done|congruence].
Qed.

(** C17: The words of UTF-8 text, cut between characters into buffers in any way, are its longest runs of letters and digits,
    in lower case: those of at most 36 bytes, and the last one when the text ends with it, however long it is. *)
Theorem text_index_name_words `{GLib} `{GCase} (HG : GLibLaws _) (HC : GCaseLaws _ _) (nameid : Z) (css : list (list Z))
    (Hcss : Forall (Forall (fun c => 0 < c < 2 ^ 21)) css) :
  exists idn idn', foldM (fun cs idn => text_index_name_add_buffer idn (Some (utf8_encode cs))) css (camel_text_index_name_new nameid) = Ok idn /\
    text_index_name_add_buffer idn None = Ok idn' /\
    forall w, w ∈ in_words idn' <->
      (exists run tail, is_run (concat css) run tail /\ run <> [] /\ tail <> [] /\ w = run_word run /\ (length w <= 36)%nat) \/
      (exists run, is_run (concat css) run [] /\ run <> [] /\ w = g_utf8_strdown (run_word run)).
Proof.
  destruct (read_buffers HG css [] _ Hcss (read_new nameid)) as (idn & E & [(run & Eb & Hrun) Hw] & _). exists idn. eexists. split; [done|]. split; [reflexivity|].
  intros w. change 36%nat with CAMEL_TEXT_INDEX_MAX_WORDLEN. cbn [app] in *. rewrite <- Hw. pose proof (proj2 (Hrun run) eq_refl) as Hr0.
  pose proof (run_word_nil HG run (is_run_alnum _ _ _ Hr0)) as Hl. rewrite Eb. destruct (Nat.ltb_spec 0 (length (run_word run))) as [Hlt|Hge].
  - cbn. rewrite elem_of_union, elem_of_singleton. unfold text_index_normalise. split.
    + intros [->|?]; [right|by left]. exists run. split; [done|]. by split; [apply Hl|].
    + intros [?|(r & ->%Hrun & _ & ->)]; [by right|by left].
  - split; [by left|]. intros [?|(r & ->%Hrun & Hne & _)]; [done|]. apply Hl in Hne. lia.
Qed.

(** ** Examples *)

#[local] Existing Instance Utf8Instance.glib.

(** Lower case in ASCII. *)
#[local] Instance ascii_case : GCase := {| g_unichar_tolower := ascii_lower; g_utf8_strdown := map ascii_lower |}.

Lemma ascii_lower_utf8 cs : Forall valid_char cs -> map ascii_lower (utf8 cs) = utf8 (map ascii_lower cs) /\ Forall valid_char (map ascii_lower cs).
Proof.
  assert (forall c, 0 < c < 1114112 -> 0 < ascii_lower c < 1114112 /\ (128 <= c -> ascii_lower c = c) /\ (c < 128 -> ascii_lower c < 128)) as Hlow.
  { intros c Hc. unfold ascii_lower. destruct (Z.leb_spec 65 c), (Z.leb_spec c 90); cbn [andb]; lia. }
  induction 1 as [|c cs Hc _ [IH1 IH2]]; [split; [done|constructor]|]. pose proof (Utf8Instance.valid_range c Hc) as Hr. destruct (Hlow c Hr) as (H1 & H2 & H3).
  split.
  - unfold utf8 in *. cbn [map concat]. rewrite map_app, IH1. f_equal. destruct (Z.lt_ge_cases c 128) as [Hlt|Hge].
    + rewrite !(to_utf8_ascii (GLibLaws := Utf8Instance.glib_laws)) by lia. done.
    + rewrite (H2 Hge). destruct (to_utf8_high (GLibLaws := Utf8Instance.glib_laws) c Hc Hge) as (b & bs & -> & _ & Hb & Hbs).
      assert (forall b, 128 <= b < 256 -> ascii_lower b = b) as Hid by (intros x Hx; apply Hlow; lia). cbn [map]. rewrite (Hid b Hb). f_equal.
      clear -Hbs Hid. induction Hbs as [|x bs [Hx _] _ IH]; [done|]. cbn. by rewrite Hid, IH.
  - constructor; [|done]. split; [lia|]. cbn. unfold Utf8Instance.validate. lia.
Qed.

#[local] Instance ascii_case_laws : GCaseLaws _ _.
Proof.
  split.
  - intros c Hc. cbn in *. unfold ascii_alnum in Hc. unfold ascii_lower. split; [|cbn; unfold Utf8Instance.validate];
      destruct (Z.leb_spec 65 c), (Z.leb_spec c 90); cbn [andb]; lia.
  - intros cs Hcs Hne. destruct (ascii_lower_utf8 cs Hcs) as [E1 E2]. exists (map ascii_lower cs). split; [exact E1|]. split; [done|]. by destruct cs.
Qed.

(** "Ab c" and "D!e", and then the end: "ab", "cd" and "e". *)
Example name_words_run : (idn ← foldM (fun b idn => text_index_name_add_buffer idn b) [Some [65; 98; 32; 67]; Some [68; 33; 101]; None] (camel_text_index_name_new 7);
  Ok (bool_decide (in_words idn = {[ [97; 98]; [99; 100]; [101] ]}))) = Ok true.
Proof. vm_compute. reflexivity. Qed.

Lemma text_index_name_safe_witness :
  exists idn, foldM (fun buffer idn => text_index_name_add_buffer idn buffer) [Some [65; 0xc3]; Some [0xff; 98; 0]; None] (camel_text_index_name_new 7) = Ok idn /\
    in_nameid idn = 7 /\ forall w, w ∈ in_words idn -> w <> [] /\ Forall (fun b => 0 < b < 256) w.
Proof. apply (text_index_name_safe Utf8Instance.glib_laws ascii_case_laws 7). Defined.

Lemma text_index_name_words_witness :
  exists idn idn', foldM (fun cs idn => text_index_name_add_buffer idn (Some (utf8_encode cs))) [[65; 98; 32; 67]; [68; 33; 0xe9; 101]] (camel_text_index_name_new 7) = Ok idn /\
    text_index_name_add_buffer idn None = Ok idn' /\
    forall w, w ∈ in_words idn' <->
      (exists run tail, is_run (concat [[65; 98; 32; 67]; [68; 33; 0xe9; 101]]) run tail /\ run <> [] /\ tail <> [] /\ w = run_word run /\ (length w <= 36)%nat) \/
      (exists run, is_run (concat [[65; 98; 32; 67]; [68; 33; 0xe9; 101]]) run [] /\ run <> [] /\ w = g_utf8_strdown (run_word run)).
Proof.
  apply (text_index_name_words Utf8Instance.glib_laws ascii_case_laws 7 [[65; 98; 32; 67]; [68; 33; 0xe9; 101]]).
  repeat constructor; apply (bool_decide_unpack _); vm_compute; exact I.
Defined.
